(* ===== verification/_CoqProject ===== *)
-Q . S2P
Prelude.v
Json.v
JsonText.v
Text.v
Numbers.v
Envelope.v
Entities.v
Pattern.v
Permission.v
Principal.v
Budget.v
Mongo.v
Credentials.v
Capabilities.v
RunQueue.v
LoopDetection.v
ToolNames.v
Model.v
ContextAssembler.v
Compaction.v
Redaction.v
CapabilitySelector.v
ToolPhase.v
ModelCall.v
AgentRuntime.v
RunStore.v
Executor.v
OpenAI.v
Anthropic.v
Resolver.v
Guard.v
ResponseCache.v
Resilience.v
Registry.v
ClientPool.v
Results.v
Gateway.v
Approvals.v
Broker.v
Discovery.v
Chunk.v
Ranking.v
Memory.v
OAuthServer.v
Access.v
OAuthRoutes.v
Jwt.v
Accounts.v
GoogleSignIn.v
Billing.v
Conversations.v
Channels.v
ChatApprovals.v
Inbound.v
Cron.v
Schedule.v
OAuthStore.v
McpOAuth.v
Adapters.v
Webhooks.v
Outbound.v
Delivery.v
Sending.v
EventBus.v
WebReader.v
LogRedaction.v
Catalog.v
Agents.v
AgentRoutes.v
Providers.v
Knowledge.v
Installs.v
Zip.v
Extract.v
Settings.v
Voice.v
Import.v
Stores.v
Publishing.v
Workspace.v
