(* ===== verification/Prelude.v ===== *)
(** * A verification library for the agent host in packages/ and apps/web/

    The program runs AI agents.  A request creates a run; a serverless slice
    claims it under a lease, asks a model what to do, executes the tools the
    model calls on MCP servers, writes every step to MongoDB and stops before
    its wall-clock limit, so that another slice can go on.  This library
    translates the code that decides what such a run may do and what survives a
    crash, a race or a hostile server, and proves what it promises.

    ** How the parts interact

    packages/runtime/src/sliced-executor.ts claims a run from the queue
    (packages/db/src/run-queue.ts), opens a session
    (apps/web/src/lib/container.ts) and drives
    packages/runtime/src/agent-runtime.ts step by step.  A step assembles a
    prompt (context-assembler.ts, capability-selector.ts, compaction.ts), calls
    the model (model-call.ts) and runs the tool calls of the answer
    (tool-phase.ts), writing through the store of apps/web/src/lib/run-store.ts,
    whose writes to the run and its conversation check the lease.  A tool call goes through the gateway
    (packages/mcp/src/gateway.ts), which asks the permission broker
    (packages/db/src/services/permission-broker.ts, deciding with
    packages/core/src/policy/permission.ts) and then reaches the server of a
    resolved binding (registry.ts).  A call that needs a person files an
    approval and suspends the run.  Schedules start runs by themselves.  Every
    query of a repository passes the scoped collections and the tenancy guard.

    Around the runs stand the people: they sign in with a password or with
    Google (apps/web/src/app/api/auth over packages/db/src/repositories/users.ts
    and packages/auth), act in workspaces under roles, API keys or OAuth grants
    (workspaces.ts, api-keys.ts, oauth-server.ts, apps/web/src/lib/principal.ts),
    write from the web page (apps/web/src/lib/send-message.ts) and from chat
    platforms (channel-inbound.ts over packages/db/src/repositories/channels.ts
    and the adapters of packages/channels; answers go back through
    channel-delivery.ts), and pay (packages/billing, apps/web/src/lib/limits.ts).
    What a person connects is kept sealed (packages/crypto,
    db/repositories/credentials.ts), and a server that asks for it is authorised
    with OAuth (packages/mcp/src/oauth.ts).  What an agent learns goes to its memory
    (packages/memory, memory-service.ts); uploaded documents are read, cut and kept for
    retrieval (packages/knowledge, lib/knowledge-service.ts).  An assistant is a prompt in
    versions (db/repositories/catalog.ts) that thinks with the models a workspace connects
    or with the one the deployment pays for (lib/platform-ai.ts), whose keys
    an operator keeps on a dashboard (lib/platform-settings.ts).

    ** Files

    Foundations.  [Prelude]: outcomes, generic lemmas, hint databases.  [Json]:
    values of type unknown, canonical.ts.  [JsonText]: JSON.parse and
    JSON.stringify.  [Text]: the string functions the sources use.  [Numbers]:
    Number(text).  [Entities],
    [Model]: core/entities.  [Mongo]: what is relied on of a MongoDB collection,
    the classes [Collection] and [CollectionLaws], with finite maps as an
    instance.

    Policy (packages/core/src/policy, core/entities).  [Pattern]: pattern.ts.
    [Permission]: permission.ts.  [Principal]: principal.ts.  [Budget]:
    budget.ts, timeouts.ts, runtime/budget-meter.ts, runtime/deadline.ts.
    [ToolNames]: tool-names.ts.  [Redaction]: redaction.ts.

    Execution.  [RunQueue]: db/run-queue.ts and the writes of
    db/repositories/runs.ts to a run, as functions on the collection and as a
    transition system in which executors, sweepers and requests interleave.
    [LoopDetection], [ContextAssembler], [Compaction], [CapabilitySelector],
    [ToolPhase], [ModelCall]: the files of the same name in packages/runtime/src.
    [AgentRuntime]: agent-runtime.ts against the class [RunStateStore] (the port
    of state.ts).  [RunStore]: run-store.ts, an instance of that class.
    [Executor]: sliced-executor.ts against the class [RunQueuePort] (the port of
    core/ports/execution.ts), which the operations of [RunQueue] implement.
    [Resolver]: resolver.ts and the provider registry.  [Conversations]:
    db/repositories/conversations.ts, as functions and command by command.

    Providers.  [OpenAI], [Anthropic]: how the adapters in packages/providers
    encode a request and decode a stream.

    Tools.  [Registry]: mcp/registry.ts and mrtr.ts.  [ResponseCache]:
    mcp/cache.ts and scope.ts.  [Resilience]: mcp/resilience.ts.  [ClientPool]:
    mcp/client.ts, as a state machine of concurrent calls.  [Results]:
    mcp/results.ts.  [Gateway]: mcp/gateway.ts and validation.ts, over a record
    of the collaborators the code injects.  [Capabilities]:
    db/repositories/capabilities.ts.  [Discovery]: mcp/discovery.ts and
    discovery-service.ts.  [Approvals]: the approvals of
    db/repositories/runs.ts.  [Broker]: permission-broker.ts, policies.ts and
    apps/web/src/lib/gateway-adapter.ts, which fills that record in.

    Memory.  [Chunk]: knowledge/chunk.ts.  [Ranking]: memory/ranking.ts and
    similarity.ts, knowledge/retrieval.ts.  [Memory]: memory/entry.ts,
    db/repositories/memory.ts, memory-service.ts.

    Knowledge.  [Knowledge]: db/repositories/knowledge.ts, knowledge-service.ts, the
    tools and the routes, with ingestion and removal as interleaved steps.  [Zip]:
    knowledge/zip.ts, against a writer of the format.  [Extract]: knowledge/extract.ts,
    office.ts and pdf.ts.  [WebReader]: web-service.ts and the tools that read pages.

    Assistants and models.  [Catalog]: packages/catalog.  [Agents]: the
    assistants of db/repositories/catalog.ts, as functions and command by command.  [AgentRoutes]: the
    routes of assistants.  [Providers]: the providers of the same file, platform-ai.ts,
    provider-check.ts and their routes.  [Settings]: platform-settings.ts, its repository,
    the cache of one process among others and the admin route.  [Voice]: transcribe.ts,
    demo-voice.ts and its counters.  [Import]: openclaw-import.ts.  [Stores]: shopify.ts,
    openclaw.ts, their tools and the route that connects them.  [Publishing]: linkedin.ts,
    meta-publishing.ts, their tools and the renewal of grants.  [Workspace]:
    google-workspace.ts and its tools, and the mail they read and write.

    Tenancy, people and time.  [Guard]: db/guard.ts, scoped.ts, collections.ts.
    [OAuthServer]: db/repositories/oauth-server.ts.  [Access]: workspaces.ts,
    api-keys.ts, principal.ts, route.ts and the members route.  [Jwt]:
    auth/jwt.ts and session.ts.  [Accounts]: users.ts and the routes under
    api/auth.  [Billing]: packages/billing, subscriptions.ts, telemetry.ts,
    billing.ts, limits.ts and the webhook.  [Cron]: schedule/cron.ts.
    [Schedule]: db/repositories/schedules.ts and schedule-tick.ts.  [OAuthRoutes]: the
    endpoints of the authorization server.  [GoogleSignIn]: auth/google.ts and its
    routes.  [EventBus]: db/event-bus.ts,
    the stream of events and the page's reader of it.  [LogRedaction]:
    crypto/redaction.ts.

    Secrets.  [Envelope]: crypto/envelope.ts, key-provider.ts, secret.ts and
    signing.ts.  [Credentials]: db/repositories/credentials.ts, alone and with a
    rotation that interleaves with it.  [OAuthStore]: db/repositories/oauth-store.ts,
    in memory and on MongoDB.  [McpOAuth]: mcp/oauth.ts, the routes of a consent,
    and the authorization library as a program over the provider they give it.

    Chat.  [Channels]: db/repositories/channels.ts.  [ChatApprovals]:
    channel-approvals.ts and chat-link.ts.  [Inbound]: channel-inbound.ts, as
    handlers that keep a state, log their effects and may fail at any command.
    [Adapters]: what the files of packages/channels/src make of a request.
    [Webhooks]: channel-webhook.ts, the routes of deliveries and the sweep over the
    registered addresses.  [Outbound]: what the same files send, as programs that
    ask the network.  [Delivery]: channel-delivery.ts and media-links.ts.
    [Sending]: send-message.ts, agent-snapshot.ts and the messages route.  [Installs]:
    slack-app.ts, discord-app.ts, whatsapp-signup.ts and the routes that connect a
    platform, show a connection and end it.

    ** What the theorems show

    Leases and fencing: once a lease is lost no write under its token succeeds,
    however other operations interleave; a claim fences every earlier executor;
    a finished run stays finished; a sweep recovers every stalled run; the queue
    invariant holds in every reachable state ([RunQueue]); without the
    lease the store changes neither the run nor its conversation (the usage ledger and the
    events are not fenced), and consumption is charged exactly once
    ([RunStore]); a slice ends by itself before its reserve, and what it reports
    is what its last step called for and what the run document says ([Executor]); appends to a conversation never
    share a number, however they interleave ([Conversations]).

    Steps: guards come before any work; a step leaves the conversation
    well-formed, every tool call answered ([AgentRuntime]); a tool phase answers
    every call in order, and one at a time never repeats a completed one ([ToolPhase]); a model
    call commits to one attempt ([ModelCall]); prompts keep their cached prefix
    and answer orphaned calls ([ContextAssembler]); compaction partitions the
    history and never splits a call from its result ([Compaction]); a run
    resolves unless its primary model fails ([Resolver]).

    Providers: what a stream is decoded to is what its parts said; tool calls and
    reasoning survive the trip to the provider's format and back ([OpenAI],
    [Anthropic]).

    Authority: a matching deny is absolute and an allow is earned
    ([Permission]); delegation never escalates ([Principal]); a tool reaches its
    server only after its name resolved, its definition was approved, policy
    allowed it and its arguments were valid ([Gateway]), and never against a
    deny of the policies that were loaded ([Broker]); a tool is usable only in
    the definition somebody reviewed, and a rewritten one is not, up to a collision of
    SHA-256 ([Capabilities]), and a failed discovery
    changes no tool ([Discovery]); binding configuration cannot exceed the
    ceilings of its trust tier ([Registry]); the first decision on an approval
    stands ([Approvals]), and from a chat only the person who asked decides
    ([ChatApprovals]).

    People: a request acts for a principal that is current ([Access]); a code or
    a refresh token gives one pair of tokens, however the commands of exchanges interleave,
    and its replay revokes what it gave ([OAuthServer]), and a client acts
    for who agreed ([OAuthRoutes]); a sign-in with Google is fresh, meant for this site and
    signed by Google ([GoogleSignIn]); a token is
    accepted only when it was signed, and what was issued verifies until it
    expires ([Jwt]); a refresh token works once, a new password ends every
    session, guesses are limited ([Accounts]); a workspace keeps an owner
    ([Access]); a plan changes only on the processor's signature, a trial is
    granted once, and a run starts only within the caps ([Billing]).

    Chat: a connection answers only in a chat that proved itself, a code connects
    once ([Channels]); a delivery starts at most one run however often it is
    delivered and wherever it fails, while its thread is left in place, a run needs a proved chat, a failed delivery
    gives its claim back ([Inbound]); an account is linked only by its own code
    ([ChatApprovals]); a request, at a connection's own address or the shared one, starts a
    run only when the platform signed or confirmed it (under the empty key where a
    connection has none), a shared app's delivery goes to the connection it was installed
    for, and a sweep leaves no address stale ([Webhooks]); a bot's token is sent to
    its platform and nowhere else ([Outbound]); an answer arrives cut into pieces
    the platform takes, without loss, and one that is reported as sent is in its chat in full
    ([Adapters], [Delivery]).  A message written on the page for the first
    time is answered by one run, pinned and within its budget, or refused before anything
    is written ([Sending]), and readers of a run agree on what it said ([EventBus]).  A platform is
    connected only by somebody who agreed to it there, even if what a callback read is
    stale when it writes, and belongs to one workspace ([Installs]).

    Secrets: a sealed value opens only in its row and under its key
    ([Envelope]); while deployments with different key rings start, stop,
    store, revoke and re-wrap, every credential resolves to what was stored last, and a
    retired key may go once none is left to re-wrap ([Credentials]); a signature covers the method, path, body and time of an
    internal request ([Envelope]); tokens come back as they were saved
    ([OAuthStore]); a consent attaches only to the request that began it, and an
    authorization run sees nothing of other bindings ([McpOAuth]).

    Isolation: what a scoped collection or a guarded command selects lies in one
    workspace (an update that names the field and the later stages of an aggregation are
    not checked, [Guard]); a private response is never served to another scope
    ([ResponseCache]); secrets do not survive redaction ([Redaction], [LogRedaction]);
    reading a page reaches no private address that is written in its usual way
    ([WebReader]).

    Assistants and models: versions are kept and what was written stays, however edits
    interleave ([Agents], [AgentRoutes]); the key of the deployment is sent to the address
    it is configured with and nowhere else ([Providers]); a changed setting reaches every
    process within a minute and the time of a load, only the operator's people change one,
    and no description shows more of a secret than its end ([Settings]); the counters of
    the demo grant exactly their limit ([Voice]); a plan of an import is bounded and
    accounts for every file of the folder ([Import]); a store's token stays with the store
    and nothing goes on sale by itself ([Stores]); a call publishes at most once, waiting
    for a clip ends, tokens go to their vendor and a sweep leaves no grant due
    ([Publishing]); a message arrives as it was written, a query stays between its quotes
    and the tools that read change nothing ([Workspace]).

    Knowledge: a document that is ready has all its parts, and answers quote ready
    documents ([Knowledge]); archives that are written are read back up to the
    limits of the reader ([Zip]); extracted text is tidy and table cells survive their escapes
    ([Extract]).

    Resources, memory and time: the semaphore never exceeds its limit, an open
    circuit admits one trial ([Resilience]), a connection keeps its limit
    ([ClientPool]); results are bounded ([Results]); chunks cover the document
    ([Chunk]); beliefs are consistent and recall returns the best ([Memory]);
    accepted cron expressions are in range and the due minutes are exact
    ([Cron]); an occurrence is claimed at most once and a tick fires exactly what
    is due ([Schedule]).

    The theorems on concrete histories at the end of most files show where the
    code departs from what its comments say: a cancelled run that an executor
    puts back ([cancel_is_undone_by_release]), a resumed session that reuses
    event numbers ([resumed_session_reuses_event_numbers]), a filter that escapes
    the tenancy guard ([nor_escapes_the_tenant]), a session that refreshes for
    ever ([refresh_restarts_the_hard_stop]), a retry that the failure it retries
    has made impossible ([retry_meets_the_handshake]), a delivery that is accepted
    under the empty key ([installs_accept_the_empty_key]), a draft that loses the end
    of an answer ([discord_drafts_lose_the_end]), a retry that cancels its own run
    ([retry_cancels_its_own_run]), an address nobody verified that opens the operator's
    dashboard ([unverified_addresses_are_admins]), and the like.

    ** Modelling choices

    Code that may throw returns [outcome].  Await points are atomic except where
    a history of operations makes interleaving explicit (queue, approvals,
    schedules, cache, semaphore, breaker, pool, memory, workspaces, sessions,
    exchanges of grants, key rotation, connections, conversations) or an argument gives what others write in
    between.  Clocks, random draws and fresh identifiers are arguments.  Strings
    are sequences of 8-bit code units, UTF-16 code units in [Chunk]; numbers are
    integers or, for costs and fractions, rationals, and a JSON number is an
    integer; objects are trees without cycles.  A repository on a scoped
    collection is modelled on what the scope selects.  Code outside the
    repository is a parameter: the MongoDB driver (class [Collection]) and its
    query language (class [QueryLaws]), the model provider, the MCP client, the
    schema compiler, the blob store, the time-zone data, SHA-256, HMAC, base64url
    and password hashing, AES-GCM and Ed25519, the parsing of addresses and forms,
    the OAuth library of the MCP SDK, the network a platform is asked over, the lookup of
    names, RSA signatures, the decoding of UTF-8, zlib, pdf.js, the text index and the
    embedding model, the verdicts of vendors on keys; in [Inbound] the adapters' verdict on
    a request, which [Webhooks] fills in, in [Providers] the credential store as a map,
    which [Credentials] implements, in [Knowledge] the extractors, which [Extract] models
    on their own.  Each class
    has an instance, so its laws can hold.  Events a stream or a tool phase
    publishes while it runs are published in the same order when it is over.

    Loops that are not structural take fuel.  The batches of a tool phase take
    one unit per outstanding call, and every batch settles at least one.  A slice
    takes one unit per step; [slice_terminates] shows that as many as the
    milliseconds before the reserve are enough, because a step takes time.  The
    gateway's loop takes the policy's maximum of rounds plus two, and
    [calls_are_permitted] shows that it never runs out.  The parser of JSON takes
    the length of its text plus one, since every call consumes a code unit; the
    hard cut of a chunk, the cut of an answer into messages and the search for
    links take the length of their text, since every round drops at least one; the check
    of a mapped address takes the length of its text, the parts of a page their number,
    the names of a tool's schema nine levels, as the source has it.  Patterns over texts
    recurse on the text itself.  The wait for a clip takes one round per pause before its
    deadline and one more, and [clips_get_an_answer] shows that they do not run out while
    the clock moves.  The hexadecimal or base-36 text of a 32-bit hash has at
    most eight digits.

    ** Not modelled

    Transports, React components and the route handlers that only pass a call on, since
    they decide nothing; schema declarations (packages/contracts), validators, migrations
    and the environment's schema, which are data for other code; telemetry; calls to the
    payment service, which only translate between the vendor's format and ours; generated
    media.  The writes of a committed import and
    the composition of the executor with the runtime and its store in one transition system
    are not modelled: their parts are, against the interfaces between them.
*)
From stdpp Require Export base list list_numbers gmap strings pretty sorting.
From Stdlib Require Export(notations) Ascii String.
From Stdlib Require Export ZArith QArith Qround Lia Lqa.

#[global] Open Scope Z_scope.
#[global] Arguments String.append !s1 s2 : simpl nomatch.

(** ** Hint databases

    [host] holds the resolution lemmas shared by the components; [hostr] the
    rewriting rules that normalise boolean tests of the modelled code. *)

Create HintDb host discriminated.
#[export] Hint Constants Opaque : host.
#[export] Hint Resolve Z.le_refl Z.lt_le_incl : host.

(** ** Results of code that may throw

    A function of the program that throws returns [Throw e]; [Ret a] is a
    normal return.  The state reached when the exception leaves the function
    is kept by the callers that model state, next to the result. *)

Inductive outcome (E A : Type) : Type :=
| Ret (a : A)
| Throw (e : E).
Arguments Ret {E A} a.
Arguments Throw {E A} e.

Definition obind {E A B} (m : outcome E A) (k : A → outcome E B) : outcome E B :=
  match m with Ret a => k a | Throw e => Throw e end.

Declare Scope host_scope.
Delimit Scope host_scope with host.
Notation "'do' x <- m ; k" := (obind m (fun x => k))
  (at level 60, m at next level, right associativity) : host_scope.

Definition ret_value {E A} (m : outcome E A) : option A :=
  match m with Ret a => Some a | Throw _ => None end.

(** ** The JavaScript operations the sources use

    A JavaScript string is modelled by the list of its code units with the
    units of Latin-1, which is what [string] holds. *)

(** [s.slice(0, n)] for [0 <= n]. *)
Fixpoint str_take (n : nat) (s : string) : string :=
  match n, s with
  | S n', String c s' => String c (str_take n' s')
  | _, _ => EmptyString
  end.

(** [s.slice(n)] for [0 <= n]. *)
Fixpoint str_drop (n : nat) (s : string) : string :=
  match n, s with
  | S n', String _ s' => str_drop n' s'
  | _, _ => s
  end.

(** [s.includes(c)] for one code unit. *)
Fixpoint str_has (c : Ascii.ascii) (s : string) : bool :=
  match s with
  | EmptyString => false
  | String d s' => Ascii.eqb c d || str_has c s'
  end.

(** [s.split(c)] for one code unit: always at least one piece. *)
Fixpoint str_split (c : Ascii.ascii) (s : string) : list string :=
  match s with
  | EmptyString => [EmptyString]
  | String d s' =>
      if Ascii.eqb c d then EmptyString :: str_split c s'
      else match str_split c s' with
           | p :: ps => String d p :: ps
           | [] => [String d EmptyString]
           end
  end.

(** Whether every code unit satisfies a test. *)
Fixpoint str_all (p : Ascii.ascii → bool) (s : string) : bool :=
  match s with
  | EmptyString => true
  | String c s' => p c && str_all p s'
  end.

(** [a < b] on strings compares code units. *)
Definition str_ltb (a b : string) : bool := String.ltb a b.
Definition str_leb (a b : string) : bool := String.leb a b.

(** [xs.at(-1)]. *)
Definition last_opt {A} (l : list A) : option A := last l.

(** [xs.some(p)] and [xs.every(p)] are [existsb] and [forallb]. *)

(** A stable sort: what [Array.prototype.sort] guarantees since ES2019, for a
    comparator given by its "not after" test. *)
Section StableSort.
Context {A : Type} (le : A → A → bool).

Fixpoint insert_sorted (x : A) (l : list A) : list A :=
  match l with
  | [] => [x]
  | y :: l' => if le x y then x :: y :: l' else y :: insert_sorted x l'
  end.

Definition stable_sort (l : list A) : list A := foldr insert_sorted [] l.

Lemma insert_sorted_perm x l : insert_sorted x l ≡ₚ x :: l.
Proof.
  induction l as [|y l IH]; simpl; [done|].
  destruct (le x y); [done|]. rewrite IH. apply perm_swap.
Qed.

Lemma stable_sort_perm l : stable_sort l ≡ₚ l.
Proof.
  induction l as [|x l IH]; simpl; [done|].
  by rewrite insert_sorted_perm, IH.
Qed.

Context (le_total : ∀ x y, le x y = false → le y x = true).

Lemma insert_sorted_hd y x l :
  HdRel (λ a b, le a b = true) y l → le y x = true →
  HdRel (λ a b, le a b = true) y (insert_sorted x l).
Proof.
  destruct l as [|z l]; simpl; intros H Hx; [by constructor|].
  inversion H; subst. destruct (le x z); by constructor.
Qed.

Lemma insert_sorted_sorted x l :
  Sorted (λ a b, le a b = true) l →
  Sorted (λ a b, le a b = true) (insert_sorted x l).
Proof.
  induction l as [|y l IH]; simpl; intros H; [by repeat constructor|].
  inversion H; subst.
  destruct (le x y) eqn:E; [by repeat constructor|].
  constructor; [by apply IH|]. apply insert_sorted_hd; auto.
Qed.

Lemma stable_sort_sorted l : Sorted (λ a b, le a b = true) (stable_sort l).
Proof.
  induction l as [|x l IH]; simpl; [constructor|].
  by apply insert_sorted_sorted.
Qed.

Lemma stable_sort_length l : length (stable_sort l) = length l.
Proof. apply Permutation_length, stable_sort_perm. Qed.

Lemma elem_of_stable_sort x l : x ∈ stable_sort l ↔ x ∈ l.
Proof. by rewrite stable_sort_perm. Qed.

(** Two sorted permutations of each other are equal when the order is
    antisymmetric on the elements: sorting forgets the original order. *)
Lemma sorted_perm_unique l1 l2 :
  (∀ x y z, le x y = true → le y z = true → le x z = true) →
  (∀ x y, x ∈ l1 → y ∈ l1 → le x y = true → le y x = true → x = y) →
  Sorted (λ a b, le a b = true) l1 → Sorted (λ a b, le a b = true) l2 →
  l1 ≡ₚ l2 → l1 = l2.
Proof.
  intros Htr. revert l2.
  induction l1 as [|x l1 IH]; intros l2 Hanti H1 H2 Hp.
  { by apply Permutation_nil_l in Hp. }
  destruct l2 as [|y l2]; [by apply Permutation_nil_r in Hp|].
  assert (Transitive (λ a b, le a b = true)) as Ht by (intros ???; apply Htr).
  apply Sorted_StronglySorted in H1; [|done].
  apply Sorted_StronglySorted in H2; [|done].
  inversion H1 as [|? ? Hs1 Hf1]; subst. inversion H2 as [|? ? Hs2 Hf2]; subst.
  assert (x = y) as <-.
  { assert (x ∈ y :: l2) as Hx by (rewrite <-Hp; constructor).
    assert (y ∈ x :: l1) as Hy by (rewrite Hp; constructor).
    apply elem_of_cons in Hx as [|Hx]; [done|].
    apply elem_of_cons in Hy as [|Hy]; [done|].
    rewrite Forall_forall in Hf1, Hf2.
    apply Hanti; [constructor|by right|by apply Hf1|by apply Hf2]. }
  f_equal. apply IH; [|by apply StronglySorted_Sorted..|by apply Permutation_cons_inv in Hp].
  intros a b Ha Hb. apply Hanti; by right.
Qed.

(** Where insertion stops. *)
Lemma insert_sorted_front x l : (∀ y, y ∈ l → le x y = true) → insert_sorted x l = x :: l.
Proof. destruct l as [|y l]; intros H; simpl; [done|]. by rewrite H by left. Qed.

Lemma insert_sorted_skip x l1 l2 :
  (∀ y, y ∈ l1 → le x y = false) → insert_sorted x (l1 ++ l2) = l1 ++ insert_sorted x l2.
Proof.
  induction l1 as [|y l1 IH]; intros H; simpl; [done|].
  rewrite H by left. f_equal. apply IH. intros z Hz. apply H. by right.
Qed.

Lemma insert_sorted_app_l x l1 l2 :
  (∀ y, y ∈ l2 → le x y = true) → insert_sorted x (l1 ++ l2) = insert_sorted x l1 ++ l2.
Proof.
  intros H. induction l1 as [|y l1 IH]; simpl; [by apply insert_sorted_front|].
  destruct (le x y); [done|]. simpl. by rewrite IH.
Qed.

Lemma stable_sort_app l1 l2 :
  (∀ x y, x ∈ l1 → y ∈ l2 → le x y = true) → stable_sort (l1 ++ l2) = stable_sort l1 ++ stable_sort l2.
Proof.
  induction l1 as [|x l1 IH]; intros H; simpl; [done|].
  rewrite IH by (intros; apply H; [by right|done]).
  apply insert_sorted_app_l. intros y Hy. apply H; [by left|]. by rewrite stable_sort_perm in Hy.
Qed.

(** An element that precedes all others comes out first, wherever it was. *)
Lemma stable_sort_snoc_first l x :
  (∀ y, y ∈ l → le y x = false) → stable_sort (l ++ [x]) = x :: stable_sort l.
Proof.
  induction l as [|y l IH]; intros Hx; simpl; [done|].
  rewrite IH by (intros z Hz; apply Hx; by right). simpl. by rewrite Hx by left.
Qed.

Lemma stable_sort_snoc_last l x :
  (∀ y, y ∈ l → le y x = true) → stable_sort (l ++ [x]) = stable_sort l ++ [x].
Proof. intros Hx. rewrite stable_sort_app; [done|]. by intros y ? Hy ->%list_elem_of_singleton; apply Hx. Qed.

End StableSort.

(** ** The order of strings *)

Lemma str_leb_total a b : str_leb a b = false → str_leb b a = true.
Proof. intros H. destruct (String.leb_total a b) as [H'|H']; [|done]. unfold str_leb in H. congruence. Qed.

Lemma str_leb_antisym a b : str_leb a b = true → str_leb b a = true → a = b.
Proof. apply String.leb_antisym. Qed.

Lemma str_leb_cons x a y b :
  str_leb (String x a) (String y b) =
  match N.compare (Ascii.N_of_ascii x) (Ascii.N_of_ascii y) with
  | Lt => true | Eq => str_leb a b | Gt => false
  end.
Proof. unfold str_leb, String.leb. simpl. unfold Ascii.compare. by destruct (_ ?= _)%N. Qed.

Lemma str_leb_trans a b c : str_leb a b = true → str_leb b c = true → str_leb a c = true.
Proof.
  revert b c. induction a as [|x a IH]; intros [|y b] [|z c]; try done.
  rewrite !str_leb_cons.
  destruct (N.compare_spec (Ascii.N_of_ascii x) (Ascii.N_of_ascii y)) as [E|E|E],
           (N.compare_spec (Ascii.N_of_ascii y) (Ascii.N_of_ascii z)) as [E'|E'|E'],
           (N.compare_spec (Ascii.N_of_ascii x) (Ascii.N_of_ascii z)) as [E''|E''|E''];
    try done; try lia.
  apply IH.
Qed.

(** ** Strings as sequences *)

Lemma str_app_assoc (a b c : string) : (a +:+ b) +:+ c = a +:+ (b +:+ c).
Proof. induction a; simpl; congruence. Qed.

Lemma str_app_nil_r (a : string) : a +:+ "" = a.
Proof. induction a; simpl; congruence. Qed.

Lemma str_length_app (a b : string) :
  String.length (a +:+ b) = (String.length a + String.length b)%nat.
Proof. induction a; simpl; congruence. Qed.

Lemma str_take_length n s : String.length (str_take n s) = (n `min` String.length s)%nat.
Proof. revert s; induction n; intros [|c s]; simpl; auto. Qed.

Lemma str_take_ge n s : (String.length s <= n)%nat → str_take n s = s.
Proof. revert s; induction n; intros [|c s]; simpl; intros; f_equal; try lia; auto with lia. Qed.

Lemma str_take_drop n s : str_take n s +:+ str_drop n s = s.
Proof. revert s; induction n; intros [|c s]; simpl; f_equal; auto. Qed.

Lemma str_take_app_length a b : str_take (String.length a) (a +:+ b) = a.
Proof. induction a; simpl; [by destruct b|congruence]. Qed.

Lemma str_drop_app_length a b : str_drop (String.length a) (a +:+ b) = b.
Proof. induction a; simpl; [by destruct b|done]. Qed.

Lemma str_app_inj_l (a b c : string) : a +:+ b = a +:+ c → b = c.
Proof. induction a; simpl; [done|]. intros [=]; auto. Qed.

Lemma str_app_inj_length (a b c d : string) :
  String.length a = String.length c → a +:+ b = c +:+ d → a = c ∧ b = d.
Proof.
  revert c. induction a as [|x a IH]; intros [|y c] Hl E; simpl in *; try done.
  injection E as -> E. injection Hl as Hl. by destruct (IH c Hl E) as [-> ->].
Qed.

Lemma str_all_app p a b : str_all p (a +:+ b) = str_all p a && str_all p b.
Proof. induction a as [|c a IH]; simpl; [done|]. by rewrite IH, andb_assoc. Qed.

Lemma str_all_take p n s : str_all p s = true → str_all p (str_take n s) = true.
Proof.
  revert s; induction n; intros [|c s]; simpl; auto.
  rewrite !andb_true_iff; naive_solver.
Qed.

(** ** Lists *)

Lemma last_opt_snoc {A} (l : list A) x : last_opt (l ++ [x]) = Some x.
Proof. apply last_snoc. Qed.

Lemma existsb_false {A} (p : A → bool) l : existsb p l = false ↔ ∀ x, x ∈ l → p x = false.
Proof.
  rewrite <-not_true_iff_false, existsb_exists. setoid_rewrite <-list_elem_of_In.
  split; [|naive_solver congruence].
  intros H x Hx. destruct (p x) eqn:E; naive_solver.
Qed.

Lemma forallb_true {A} (p : A → bool) l : forallb p l = true ↔ ∀ x, x ∈ l → p x = true.
Proof. rewrite forallb_forall. by setoid_rewrite list_elem_of_In. Qed.

Lemma find_none_iff {A} (p : A → bool) l : find p l = None ↔ ∀ x, x ∈ l → p x = false.
Proof.
  induction l as [|y l IH]; simpl; [split; [intros _ x Hx; by apply elem_of_nil in Hx|done]|].
  setoid_rewrite elem_of_cons.
  destruct (p y) eqn:E; [split; [done|]; intros H; rewrite H in E; by auto|].
  rewrite IH. split; [intros H x [->|Hx]|]; auto.
Qed.

Lemma find_some_elem {A} (p : A → bool) l x : find p l = Some x → x ∈ l ∧ p x = true.
Proof. intros H%find_some. by rewrite <-list_elem_of_In in H. Qed.

Lemma NoDup_map_inj {A B} (f : A → B) l x y :
  NoDup (map f l) → x ∈ l → y ∈ l → f x = f y → x = y.
Proof.
  induction l as [|a l IH]; simpl; [by intros _ ?%elem_of_nil|].
  intros [Hn Hd]%NoDup_cons [->|Hx]%elem_of_cons [->|Hy]%elem_of_cons E; auto; exfalso; apply Hn.
  - rewrite E. by apply list_elem_of_fmap_2.
  - rewrite <-E. by apply list_elem_of_fmap_2.
Qed.

Lemma filter_perm {A} (p : A → bool) l l' : l ≡ₚ l' → List.filter p l ≡ₚ List.filter p l'.
Proof.
  induction 1 as [|x l l' _ IH|x y l|l l' l'' _ IH1 _ IH2]; simpl; [done|..].
  - destruct (p x); [by constructor|done].
  - destruct (p x), (p y); try done. apply perm_swap.
  - by transitivity (List.filter p l').
Qed.

Lemma NoDup_map_filter {A B} (f : A → B) p l : NoDup (map f l) → NoDup (map f (List.filter p l)).
Proof.
  induction l as [|x l IH]; simpl; [done|]. intros [Hx Hl]%NoDup_cons.
  destruct (p x); simpl; [|by apply IH]. apply NoDup_cons. split; [|by apply IH].
  intros (y & E & [Hy _]%list_elem_of_In%filter_In)%list_elem_of_fmap. apply Hx. rewrite E.
  by apply list_elem_of_fmap_2, list_elem_of_In.
Qed.

Lemma NoDup_fst_functional {A B} (l : list (A * B)) k x y :
  NoDup l.*1 → (k, x) ∈ l → (k, y) ∈ l → x = y.
Proof.
  induction l as [|[k' z] l IH]; simpl; [by intros _ ?%elem_of_nil|].
  intros [Hk Hnd]%NoDup_cons Hx Hy. rewrite elem_of_cons in Hx, Hy.
  assert (∀ v, (k, v) ∈ l → k ∈ l.*1) as Hin by (intros v Hv; by apply (list_elem_of_fmap_2 fst) in Hv).
  destruct Hx as [Hx|Hx], Hy as [Hy|Hy]; simplify_eq; [done|..|by auto]; exfalso; eauto.
Qed.

(** ** Automation for boolean tests of the modelled code *)

Lemma elem_of_list_2 {A} (x a b : A) : x ∈ [a; b] → x = a ∨ x = b.
Proof. intros [->|[->|[]%elem_of_nil]%elem_of_cons]%elem_of_cons; auto. Qed.

Ltac bool_prop :=
  repeat match goal with
  | H : _ && _ = true |- _ => apply andb_true_iff in H; destruct H
  | H : _ || _ = false |- _ => apply orb_false_iff in H; destruct H
  | H : negb _ = true |- _ => apply negb_true_iff in H
  | H : negb _ = false |- _ => apply negb_false_iff in H
  | H : bool_decide _ = true |- _ => apply bool_decide_eq_true in H
  | H : bool_decide _ = false |- _ => apply bool_decide_eq_false in H
  | H : String.eqb _ _ = true |- _ => apply String.eqb_eq in H
  | H : String.eqb _ _ = false |- _ => apply String.eqb_neq in H
  | H : (_ =? _) = true |- _ => apply Z.eqb_eq in H
  | H : (_ =? _) = false |- _ => apply Z.eqb_neq in H
  | H : (_ <=? _) = true |- _ => apply Z.leb_le in H
  | H : (_ <=? _) = false |- _ => apply Z.leb_gt in H
  | H : (_ <? _) = true |- _ => apply Z.ltb_lt in H
  | H : (_ <? _) = false |- _ => apply Z.ltb_ge in H
  end.

(** Case analysis on every test of the goal, leaving the contradictory
    branches to [done]. *)
Ltac case_all :=
  repeat (case_match; bool_prop; simplify_eq/=; try done).

(** ** Sorted lists *)

Lemma sorted_filter {A} (R : A → A → Prop) p l : StronglySorted R l → StronglySorted R (List.filter p l).
Proof.
  induction 1 as [|x l _ IH Hf]; simpl; [constructor|]. destruct (p x); [|done]. constructor; [done|].
  rewrite Forall_forall in Hf |- *. intros y [Hy _]%list_elem_of_In%filter_In. by apply Hf, list_elem_of_In.
Qed.

Lemma sorted_take {A} (R : A → A → Prop) n l : StronglySorted R l → StronglySorted R (take n l).
Proof.
  intros Hs. revert n. induction Hs as [|x l _ IH Hf]; intros [|n]; simpl; try constructor; [apply IH|].
  rewrite Forall_forall in Hf |- *. intros y Hy. apply Hf. by eapply subseteq_take.
Qed.

Lemma last_cons_default {A} (x : A) l d : List.last (x :: l) d = List.last l x.
Proof.
  revert x d. induction l as [|y l IH]; intros x d; [done|]. change (List.last (y :: l) d = List.last (y :: l) x). by rewrite !IH.
Qed.

Lemma sorted_below_last l d : StronglySorted Z.lt l → Forall (λ x, x <= List.last l d) l.
Proof.
  induction 1 as [|x l _ IH Hf]; [constructor|]. destruct l as [|y l]; [by repeat constructor; simpl; lia|].
  change (List.last (x :: y :: l) d) with (List.last (y :: l) d). constructor; [|done].
  apply Forall_cons in Hf as [Hxy _]. apply Forall_cons in IH as [Hy _]. lia.
Qed.

(** ** The JavaScript [Map]

    Entries in insertion order; setting a key that is there keeps its place. *)

Section JsMap.
Context {K V : Type} `{EqDecision K}.
Implicit Types (m : list (K * V)) (k : K).

Fixpoint jm_get (k : K) (m : list (K * V)) : option V :=
  match m with
  | [] => None
  | (k', v) :: m' => if decide (k' = k) then Some v else jm_get k m'
  end.

Fixpoint jm_set (k : K) (v : V) (m : list (K * V)) : list (K * V) :=
  match m with
  | [] => [(k, v)]
  | (k', v') :: m' => if decide (k' = k) then (k', v) :: m' else (k', v') :: jm_set k v m'
  end.

Definition jm_delete (k : K) (m : list (K * V)) : list (K * V) := List.filter (λ e, negb (bool_decide (e.1 = k))) m.

Lemma jm_get_set k k' v m : jm_get k (jm_set k' v m) = if decide (k' = k) then Some v else jm_get k m.
Proof.
  induction m as [|[a b] m IH]; simpl; [done|]. destruct (decide (a = k')) as [->|Ha]; simpl.
  - by destruct (decide (k' = k)).
  - destruct (decide (a = k)) as [->|]; [|done]. by rewrite decide_False by congruence.
Qed.

Lemma jm_get_delete k k' m : jm_get k (jm_delete k' m) = if decide (k' = k) then None else jm_get k m.
Proof.
  unfold jm_delete. induction m as [|[a b] m IH]; simpl; [by destruct (decide _)|].
  case_bool_decide as Ha; simpl.
  - subst. rewrite IH. by destruct (decide (k' = k)).
  - rewrite IH. destruct (decide (a = k)) as [->|]; [|done]. by rewrite decide_False by congruence.
Qed.

Lemma jm_keys_set k v m : ∀ x, x ∈ (jm_set k v m).*1 ↔ x = k ∨ x ∈ m.*1.
Proof.
  induction m as [|[a b] m IH]; intros x; simpl; [set_solver|].
  destruct (decide (a = k)) as [->|]; simpl; [set_solver|]. rewrite !elem_of_cons, IH. tauto.
Qed.

Lemma jm_set_nodup k v m : NoDup m.*1 → NoDup (jm_set k v m).*1.
Proof.
  induction m as [|[a b] m IH]; simpl; [intros _; by apply NoDup_singleton|]. intros [Ha Hm]%NoDup_cons.
  destruct (decide (a = k)) as [->|Hne]; simpl; [by apply NoDup_cons|]. apply NoDup_cons. split; [|by apply IH].
  rewrite jm_keys_set. by intros [?|?].
Qed.

Lemma jm_delete_nodup k m : NoDup m.*1 → NoDup (jm_delete k m).*1.
Proof. apply (NoDup_map_filter fst). Qed.

Lemma jm_get_elem k v m : NoDup m.*1 → (k, v) ∈ m ↔ jm_get k m = Some v.
Proof.
  induction m as [|[a b] m IH]; simpl; [intros _; split; [by intros ?%elem_of_nil|done]|]. intros [Ha Hm]%NoDup_cons.
  rewrite elem_of_cons. destruct (decide (a = k)) as [->|Hne].
  - split; [|intros [= ->]; by left]. intros [[= ->]|Hin]; [done|]. by apply (list_elem_of_fmap_2 fst) in Hin.
  - rewrite <-IH by done. split; [|by right]. by intros [[= -> ->]|?].
Qed.
End JsMap.
