(* ===== verification/Json.v ===== *)
(** * JavaScript values, canonical JSON and the prefix fingerprint

    Models packages/core/src/canonical.ts.  Values of TypeScript type
    [unknown] that the program stores, hashes or inspects are trees of
    [value]: what [JSON.parse] produces, plus [undefined].  Numbers are the
    integers of magnitude below 10^21, whose text is their decimal form;
    objects are their own enumerable properties in insertion order. *)
From S2P Require Import Prelude.

#[warnings="-register-all"]
Inductive value :=
| VUndefined
| VNull
| VBool (b : bool)
| VNumber (n : Z)
| VString (s : string)
| VArray (items : list value)
| VObject (fields : list (string * value)).

(** ** Text of JSON *)

Definition hex_digit (n : Z) : Ascii.ascii :=
  match String.get (Z.to_nat n) "0123456789abcdef" with
  | Some c => c
  | None => "0"%char
  end.

(** One code unit inside a JSON string literal, as [JSON.stringify] writes it. *)
Definition json_escape (c : Ascii.ascii) : string :=
  let n := Z.of_N (Ascii.N_of_ascii c) in
  if n =? 34 then String "\"%char (String c "")
  else if n =? 92 then "\\"
  else if n =? 8 then "\b"
  else if n =? 9 then "\t"
  else if n =? 10 then "\n"
  else if n =? 12 then "\f"
  else if n =? 13 then "\r"
  else if n <? 32 then
    "\u00" +:+ String (hex_digit (n / 16)) (String (hex_digit (n mod 16)) "")
  else String c "".

Fixpoint json_escape_all (s : string) : string :=
  match s with
  | EmptyString => ""
  | String c s' => json_escape c +:+ json_escape_all s'
  end.

Definition dquote : string := String (Ascii.ascii_of_nat 34) "".

Definition json_quote (s : string) : string := dquote +:+ json_escape_all s +:+ dquote.

Definition join (sep : string) (parts : list string) : string := String.concat sep parts.

Definition is_undefined (v : value) : bool :=
  match v with VUndefined => true | _ => false end.

(** [String(v)]. *)
Fixpoint js_string (v : value) : string :=
  match v with
  | VUndefined => "undefined"
  | VNull => "null"
  | VBool b => if b then "true" else "false"
  | VNumber n => pretty n
  | VString s => s
  | VArray items =>
      join "," (map (λ x, match x with VUndefined | VNull => "" | _ => js_string x end) items)
  | VObject _ => "[object Object]"
  end.

(** The comparator of [entries.sort]: keys in code-unit order. *)
Definition key_le {A} (a b : string * A) : bool := str_leb a.1 b.1.

(** [canonicalJson]: the text of every property is computed before the
    filter and the sort, which commute with it because it is pure. *)
Fixpoint canonicalJson (v : value) : string :=
  match v with
  | VUndefined | VNull => "null"
  | VBool b => if b then "true" else "false"
  | VNumber n => pretty n
  | VString s => json_quote s
  | VArray items => "[" +:+ join "," (map canonicalJson items) +:+ "]"
  | VObject fields =>
      let rendered := map (λ kv, (kv.1, (is_undefined kv.2, canonicalJson kv.2))) fields in
      let entries := stable_sort key_le (filter (λ e, e.2.1 = false) rendered) in
      "{" +:+ join "," (map (λ e, json_quote e.1 +:+ ":" +:+ e.2.2) entries) +:+ "}"
  end.

(** ** The fingerprint *)

Definition u32 (n : Z) : Z := n mod 2 ^ 32.

(** [Math.imul(a, b) >>> 0]. *)
Definition imul_u (a b : Z) : Z := u32 (a * b).

Definition code_of (c : Ascii.ascii) : Z := Z.of_N (Ascii.N_of_ascii c).

Fixpoint fnv1a (hash : Z) (text : string) : Z :=
  match text with
  | EmptyString => hash
  | String c text' => fnv1a (imul_u (Z.lxor hash (code_of c)) 16777619) text'
  end.

(** [n.toString(base)] for [0 <= n]; [fuel] bounds the number of digits. *)
Fixpoint to_base (fuel : nat) (digit : Z → Ascii.ascii) (base n : Z) (acc : string) : string :=
  match fuel with
  | O => acc
  | S fuel' =>
      let acc' := String (digit (n mod base)) acc in
      if n / base =? 0 then acc' else to_base fuel' digit base (n / base) acc'
  end.

Definition pad_start (width : nat) (c : Ascii.ascii) (s : string) : string :=
  Nat.iter (width - String.length s) (String c) s.

Definition fingerprint (v : value) : string :=
  pad_start 8 "0" (to_base 8 hex_digit 16 (fnv1a 2166136261 (canonicalJson v)) "").

(** ** Equality up to the order of object keys *)

(** The keys that survive [filter(([, v]) => v !== undefined)]. *)
Definition defined_keys (fields : list (string * value)) : list string :=
  map fst (filter (λ kv, is_undefined kv.2 = false) fields).

#[warnings="-register-all"]
Inductive same_json : value → value → Prop :=
| same_refl v : same_json v v
| same_array xs ys : Forall2 same_json xs ys → same_json (VArray xs) (VArray ys)
| same_object fs gs hs :
    NoDup (defined_keys fs) →
    fs ≡ₚ gs →
    Forall2 (λ a b, a.1 = b.1 ∧ is_undefined a.2 = is_undefined b.2 ∧ same_json a.2 b.2) gs hs →
    same_json (VObject fs) (VObject hs).

(** ** Facts *)

Lemma key_le_total {A} (a b : string * A) : key_le a b = false → key_le b a = true.
Proof. apply str_leb_total. Qed.

Lemma key_le_trans {A} (a b c : string * A) :
  key_le a b = true → key_le b c = true → key_le a c = true.
Proof. apply str_leb_trans. Qed.

(** Sorting by distinct keys forgets the order the entries came in. *)
Lemma sort_keys_perm {A} (l1 l2 : list (string * A)) :
  NoDup l1.*1 → l1 ≡ₚ l2 → stable_sort key_le l1 = stable_sort key_le l2.
Proof.
  intros Hnd Hp. apply (sorted_perm_unique key_le).
  - intros ???; apply key_le_trans.
  - intros [k x] [k' y] Hx Hy Hle Hge.
    rewrite elem_of_stable_sort in Hx, Hy.
    assert (k = k') as <- by (by apply str_leb_antisym).
    f_equal. by eapply NoDup_fst_functional.
  - apply stable_sort_sorted, key_le_total.
  - apply stable_sort_sorted, key_le_total.
  - by rewrite !stable_sort_perm.
Qed.

(** Induction over a value and everything below it. *)
Section value_induction.
Context (P : value → Prop).
Context (Hundef : P VUndefined) (Hnull : P VNull) (Hbool : ∀ b, P (VBool b))
  (Hnum : ∀ n, P (VNumber n)) (Hstr : ∀ s, P (VString s))
  (Harr : ∀ xs, Forall P xs → P (VArray xs))
  (Hobj : ∀ fs, Forall (λ kv, P kv.2) fs → P (VObject fs)).

Fixpoint value_nested_ind (v : value) : P v :=
  match v with
  | VUndefined => Hundef
  | VNull => Hnull
  | VBool b => Hbool b
  | VNumber n => Hnum n
  | VString s => Hstr s
  | VArray xs => Harr xs
      ((fix go l : Forall P l :=
          match l with
          | [] => Forall_nil_2 P
          | x :: l' => Forall_cons_2 P x l' (value_nested_ind x) (go l')
          end) xs)
  | VObject fs => Hobj fs
      ((fix go l : Forall (λ kv, P kv.2) l :=
          match l with
          | [] => Forall_nil_2 _
          | x :: l' => Forall_cons_2 _ x l' (value_nested_ind x.2) (go l')
          end) fs)
  end.
End value_induction.

(** What [canonicalJson] renders of the properties, before sorting. *)
Definition rendered_entries (fields : list (string * value)) : list (string * (bool * string)) :=
  filter (λ e, e.2.1 = false)
    (map (λ kv, (kv.1, (is_undefined kv.2, canonicalJson kv.2))) fields).

Lemma rendered_entries_cons kv fields :
  rendered_entries (kv :: fields) =
  if is_undefined kv.2 then rendered_entries fields
  else (kv.1, (false, canonicalJson kv.2)) :: rendered_entries fields.
Proof. unfold rendered_entries; simpl. destruct (is_undefined kv.2) eqn:E; simpl; by rewrite ?E. Qed.

Lemma rendered_entries_keys fields : (rendered_entries fields).*1 = defined_keys fields.
Proof.
  unfold defined_keys. induction fields as [|[k w] fields IH]; [done|].
  rewrite rendered_entries_cons, filter_cons; simpl.
  destruct (is_undefined w); case_decide; simplify_eq/=; congruence.
Qed.

Lemma rendered_entries_perm fs gs : fs ≡ₚ gs → rendered_entries fs ≡ₚ rendered_entries gs.
Proof. intros H. unfold rendered_entries. by rewrite H. Qed.

Lemma canonical_object fs gs :
  NoDup (defined_keys fs) → rendered_entries fs ≡ₚ rendered_entries gs →
  canonicalJson (VObject fs) = canonicalJson (VObject gs).
Proof.
  intros Hnd Hp. change (canonicalJson (VObject ?l)) with
    ("{" +:+ join "," (map (λ e, json_quote e.1 +:+ ":" +:+ e.2.2)
       (stable_sort key_le (rendered_entries l))) +:+ "}").
  by rewrite (sort_keys_perm _ (rendered_entries gs)) by (by rewrite ?rendered_entries_keys).
Qed.

Lemma rendered_entries_pointwise gs hs :
  Forall2 (λ a b, a.1 = b.1 ∧ is_undefined a.2 = is_undefined b.2 ∧
                  canonicalJson a.2 = canonicalJson b.2) gs hs →
  rendered_entries gs = rendered_entries hs.
Proof.
  induction 1 as [|a b gs hs (Hk & Hu & Hc) _ IH]; [done|].
  by rewrite !rendered_entries_cons, Hk, Hu, Hc, IH.
Qed.

(** Key order is not semantic: two values that differ only in the order
    of object keys, at any depth, have the same canonical text. *)
Lemma canonicalJson_key_order (v w : value) :
  same_json v w → canonicalJson v = canonicalJson w.
Proof.
  revert w. induction v as [| | | | |xs IH|fs IH] using value_nested_ind;
    intros w Hs; inversion Hs as [|? ys Hf|? gs hs Hnd Hp Hf]; subst; try done.
  - simpl. do 2 f_equal. f_equal. clear Hs. revert ys Hf.
    induction IH as [|x xs Hx _ IH']; intros ys Hf; inversion Hf; subst; simpl; [done|].
    f_equal; auto.
  - apply canonical_object; [done|]. rewrite (rendered_entries_perm _ _ Hp).
    rewrite (rendered_entries_pointwise gs hs); [done|].
    rewrite Hp in IH. clear Hp Hs Hnd.
    induction Hf as [|a b gs hs (Hk & Hu & Hc) _ IHf]; [constructor|].
    inversion IH; subst. constructor; auto.
Qed.
