(* ===== verification/JsonText.v ===== *)
(** * The text of JSON: [JSON.stringify] and [JSON.parse]

    The language's serialiser and parser, as far as the provider adapters use
    them: tool arguments travel as text and are parsed back.  As everywhere,
    numbers are integers and strings are 8-bit code units; a text with another
    number or a larger code unit has no value here.  The parser takes fuel; the
    length of the text is enough ([parse_stringify]). *)
From S2P Require Import Prelude Json.

(** ** Serialising *)
Fixpoint stringify (v : value) : string :=
  match v with
  | VUndefined | VNull => "null"
  | VBool b => if b then "true" else "false"
  | VNumber n => pretty n
  | VString s => json_quote s
  | VArray items => "[" +:+ join "," (map stringify items) +:+ "]"
  | VObject fields =>
      let rendered := map (λ kv, (is_undefined kv.2, json_quote kv.1 +:+ ":" +:+ stringify kv.2)) fields in
      "{" +:+ join "," (map snd (List.filter (λ e, negb e.1) rendered)) +:+ "}"
  end.

(** ** Parsing *)
Definition is_json_space (c : Ascii.ascii) : bool :=
  let n := code_of c in (n =? 32) || (n =? 9) || (n =? 10) || (n =? 13).

Fixpoint skip_space (s : string) : string :=
  match s with
  | String c s' => if is_json_space c then skip_space s' else s
  | EmptyString => s
  end.

Definition digit_of (c : Ascii.ascii) : option Z :=
  let n := code_of c in if (48 <=? n) && (n <=? 57) then Some (n - 48) else None.

Definition hex_of (c : Ascii.ascii) : option Z :=
  let n := code_of c in
  if (48 <=? n) && (n <=? 57) then Some (n - 48)
  else if (97 <=? n) && (n <=? 102) then Some (n - 87)
  else if (65 <=? n) && (n <=? 70) then Some (n - 55)
  else None.

Definition char_of (n : Z) : Ascii.ascii := Ascii.ascii_of_N (Z.to_N n).

Fixpoint read_digits (acc : Z) (s : string) : Z * string :=
  match s with
  | String c s' => match digit_of c with Some d => read_digits (10 * acc + d) s' | None => (acc, s) end
  | EmptyString => (acc, s)
  end.

(** A number is followed by neither a fraction nor an exponent. *)
Definition ends_number (s : string) : bool :=
  match s with
  | String c _ => negb (Ascii.eqb c "." || Ascii.eqb c "e" || Ascii.eqb c "E")
  | EmptyString => true
  end.

Definition parse_natural (s : string) : option (Z * string) :=
  match s with
  | String c s' =>
      match digit_of c with
      | None => None
      | Some d =>
          let '(n, rest) := if d =? 0 then (0, s') else read_digits d s' in
          if ends_number rest then Some (n, rest) else None
      end
  | EmptyString => None
  end.

Definition parse_number (s : string) : option (Z * string) :=
  match s with
  | String c s' =>
      if Ascii.eqb c "-" then '(n, rest) ← parse_natural s'; Some (- n, rest) else parse_natural s
  | EmptyString => None
  end.

Definition backslash : Ascii.ascii := Ascii.ascii_of_nat 92.
Definition quote_char : Ascii.ascii := Ascii.ascii_of_nat 34.

(** The code unit a one-letter escape stands for. *)
Definition simple_escape (c : Ascii.ascii) : option Ascii.ascii :=
  let n := code_of c in
  if (n =? 34) || (n =? 92) || (n =? 47) then Some c
  else if n =? 98 then Some (char_of 8)
  else if n =? 116 then Some (char_of 9)
  else if n =? 110 then Some (char_of 10)
  else if n =? 102 then Some (char_of 12)
  else if n =? 114 then Some (char_of 13)
  else None.

(** The rest of a string literal after its opening quotation mark. *)
Fixpoint parse_chars (s : string) : option (string * string) :=
  match s with
  | EmptyString => None
  | String c s1 =>
      if Ascii.eqb c quote_char then Some (EmptyString, s1)
      else if Ascii.eqb c backslash then
        match s1 with
        | EmptyString => None
        | String e s2 =>
            match simple_escape e with
            | Some d => '(t, rest) ← parse_chars s2; Some (String d t, rest)
            | None =>
                if Ascii.eqb e "u" then
                  match s2 with
                  | String h1 (String h2 (String h3 (String h4 s3))) =>
                      a ← hex_of h1; b ← hex_of h2; x ← hex_of h3; y ← hex_of h4;
                      if (a =? 0) && (b =? 0) then
                        '(t, rest) ← parse_chars s3; Some (String (char_of (16 * x + y)) t, rest)
                      else None
                  | _ => None
                  end
                else None
            end
        end
      else if code_of c <? 32 then None
      else '(t, rest) ← parse_chars s1; Some (String c t, rest)
  end.

(** [lit] at the front of a text. *)
Definition literal (lit : string) (v : value) (s : string) : option (value * string) :=
  if String.eqb (str_take (String.length lit) s) lit then Some (v, str_drop (String.length lit) s) else None.

Definition expect (c : Ascii.ascii) (s : string) : option string :=
  match s with String d s' => if Ascii.eqb c d then Some s' else None | EmptyString => None end.

Definition parse_key (s : string) : option (string * string) :=
  s1 ← expect quote_char (skip_space s);
  '(k, s2) ← parse_chars s1;
  s3 ← expect ":" (skip_space s2);
  Some (k, s3).

(** [parse_items] and [parse_members] read what follows an opening bracket or
    a comma; a key that repeats takes the later value at the earlier place. *)
Fixpoint parse_value (fuel : nat) (s0 : string) : option (value * string) :=
  match fuel with
  | O => None
  | S fuel =>
      let s := skip_space s0 in
      match s with
      | EmptyString => None
      | String c s' =>
          if Ascii.eqb c quote_char then '(t, rest) ← parse_chars s'; Some (VString t, rest)
          else if Ascii.eqb c "[" then
            match expect "]" (skip_space s') with
            | Some rest => Some (VArray [], rest)
            | None => '(items, rest) ← parse_items fuel s'; Some (VArray items, rest)
            end
          else if Ascii.eqb c "{" then
            match expect "}" (skip_space s') with
            | Some rest => Some (VObject [], rest)
            | None => '(fields, rest) ← parse_members fuel s'; Some (VObject (foldl (λ m e, jm_set e.1 e.2 m) [] fields), rest)
            end
          else if Ascii.eqb c "n" then literal "null" VNull s
          else if Ascii.eqb c "t" then literal "true" (VBool true) s
          else if Ascii.eqb c "f" then literal "false" (VBool false) s
          else '(n, rest) ← parse_number s; Some (VNumber n, rest)
      end
  end
with parse_items (fuel : nat) (s : string) : option (list value * string) :=
  match fuel with
  | O => None
  | S fuel =>
      '(v, s1) ← parse_value fuel s;
      match expect "," (skip_space s1) with
      | Some s2 => '(vs, rest) ← parse_items fuel s2; Some (v :: vs, rest)
      | None => rest ← expect "]" (skip_space s1); Some ([v], rest)
      end
  end
with parse_members (fuel : nat) (s : string) : option (list (string * value) * string) :=
  match fuel with
  | O => None
  | S fuel =>
      '(k, s0) ← parse_key s;
      '(v, s1) ← parse_value fuel s0;
      match expect "," (skip_space s1) with
      | Some s2 => '(vs, rest) ← parse_members fuel s2; Some ((k, v) :: vs, rest)
      | None => rest ← expect "}" (skip_space s1); Some ([(k, v)], rest)
      end
  end.

(** [JSON.parse]; [None] is a SyntaxError. *)
Definition json_parse (s : string) : option value :=
  '(v, rest) ← parse_value (S (String.length s)) s;
  if String.eqb (skip_space rest) "" then Some v else None.

Example parse_sample :
  json_parse (" { " +:+ dquote +:+ "a" +:+ dquote +:+ " : [1, -20 ,null], " +:+ dquote +:+ "b" +:+ dquote +:+ ":{}} ") =
  Some (VObject [("a", VArray [VNumber 1; VNumber (-20); VNull]); ("b", VObject [])]).
Proof. vm_compute. reflexivity. Qed.

Example parse_rejects : map json_parse ["01"; "[1,]"; "nul"; "-"; "1 2"; ""] = [None; None; None; None; None; None].
Proof. vm_compute. reflexivity. Qed.

(** ** Round trip *)

(** The values [JSON.parse] makes: no undefined, no key twice. *)
Fixpoint plain (v : value) : Prop :=
  match v with
  | VUndefined => False
  | VArray items => foldr (λ x P, plain x ∧ P) True items
  | VObject fields => NoDup (map fst fields) ∧ foldr (λ kv P, plain kv.2 ∧ P) True fields
  | _ => True
  end.

Fixpoint vsize (v : value) : nat :=
  match v with
  | VArray items => S (foldr (λ x n, S (vsize x) + n)%nat 0%nat items)
  | VObject fields => S (foldr (λ kv n, S (vsize kv.2) + n)%nat 0%nat fields)
  | _ => 1
  end.

(** What may follow a value inside a document. *)
Definition delimits (rest : string) : bool :=
  match rest with
  | EmptyString => true
  | String c _ => is_json_space c || Ascii.eqb c "," || Ascii.eqb c "]" || Ascii.eqb c "}"
  end.

Lemma parse_chars_escape c t :
  parse_chars (json_escape c +:+ t) = ('(u, rest) ← parse_chars t; Some (String c u, rest)).
Proof. destruct c as [[] [] [] [] [] [] [] []]; reflexivity. Qed.

Lemma parse_chars_quoted s rest :
  parse_chars (json_escape_all s +:+ dquote +:+ rest) = Some (s, rest).
Proof.
  induction s as [|c s IH]; [reflexivity|]. cbn [json_escape_all]. by rewrite str_app_assoc, parse_chars_escape, IH.
Qed.

Lemma digit_char_of x : (x < 10)%N → digit_of (pretty_N_char x) = Some (Z.of_N x).
Proof.
  intros Hx. assert (x ∈ [0; 1; 2; 3; 4; 5; 6; 7; 8; 9]%N) as Hin.
  { rewrite !elem_of_cons. lia. }
  repeat (apply elem_of_cons in Hin as [->|Hin]; [reflexivity|]). by apply elem_of_nil in Hin.
Qed.

Lemma read_digits_pretty x s rest :
  read_digits 0 (pretty_N_go x s +:+ rest) = read_digits (Z.of_N x) (s +:+ rest).
Proof.
  revert s. induction (N.lt_wf_0 x) as [x _ IH]; intros s.
  destruct (decide (x = 0)%N) as [->|Hx]; [by rewrite pretty_N_go_0|].
  rewrite pretty_N_go_step by lia. rewrite IH by (apply N.div_lt; lia). simpl.
  rewrite digit_char_of by (apply N.mod_lt; lia). f_equal.
  pose proof (N.div_mod x 10). lia.
Qed.

(** The first digit of a positive number is not a zero. *)
Lemma pretty_head x s : (0 < x)%N →
  ∃ d t, pretty_N_go x s = String (pretty_N_char d) t ∧ (0 < d < 10)%N.
Proof.
  revert s. induction (N.lt_wf_0 x) as [x _ IH]; intros s Hx. rewrite pretty_N_go_step by done.
  destruct (decide (x < 10)%N) as [Hlt|Hge].
  - rewrite N.div_small, N.mod_small by done. rewrite pretty_N_go_0. by exists x, s.
  - apply IH; [apply N.div_lt; lia|]. apply N.div_str_pos. lia.
Qed.

Lemma delimits_no_digit rest n : delimits rest = true → read_digits n rest = (n, rest) ∧ ends_number rest = true.
Proof.
  destruct rest as [|c rest]; [done|]. simpl. destruct c as [[] [] [] [] [] [] [] []]; by intros.
Qed.

Lemma parse_natural_pretty n rest :
  delimits rest = true → parse_natural ((pretty n : string) +:+ rest) = Some (Z.of_N n, rest).
Proof.
  intros Hd. destruct (delimits_no_digit rest (Z.of_N n) Hd) as [Hr He].
  unfold pretty, pretty_N. case_decide as Hn; [subst; simpl; by rewrite He|].
  destruct (pretty_head n "") as (d & t & E & Hlt); [lia|].
  pose proof (read_digits_pretty n "" rest) as Hp. rewrite E in *. simpl in Hp |- *.
  rewrite digit_char_of in Hp |- * by lia. replace (Z.of_N d =? 0) with false by lia.
  rewrite Z.add_0_l in Hp. rewrite Hp, Hr, He. done.
Qed.

Lemma pretty_Z_cases n :
  (0 <= n ∧ (pretty n : string) = pretty (Z.to_N n)) ∨ (n < 0 ∧ (pretty n : string) = "-" +:+ pretty (Z.to_N (- n))).
Proof. destruct n; [by left..|right; split; [lia|done]]. Qed.

Lemma parse_number_pretty n rest :
  delimits rest = true → parse_number ((pretty n : string) +:+ rest) = Some (n, rest).
Proof.
  intros Hd. destruct (pretty_Z_cases n) as [[Hn ->]|[Hn ->]].
  - unfold parse_number. pose proof (parse_natural_pretty (Z.to_N n) rest Hd) as Hp.
    destruct (_ +:+ rest) as [|c t] eqn:E; [done|].
    destruct (Ascii.eqb_spec c "-") as [->|]; [|rewrite Hp; repeat f_equal; lia].
    simpl in Hp. done.
  - simpl. rewrite parse_natural_pretty by done. simpl. do 2 f_equal. lia.
Qed.

(** How the text of a value begins. *)
Definition opens_value (c : Ascii.ascii) : bool :=
  negb (is_json_space c || Ascii.eqb c "]" || Ascii.eqb c "}" || Ascii.eqb c ",").

Lemma pretty_opens (n : Z) : ∃ c t, (pretty n : string) = String c t ∧
  opens_value c = true ∧
  Ascii.eqb c quote_char = false ∧ Ascii.eqb c "[" = false ∧ Ascii.eqb c "{" = false ∧
  Ascii.eqb c "n" = false ∧ Ascii.eqb c "t" = false ∧ Ascii.eqb c "f" = false.
Proof.
  destruct (pretty_Z_cases n) as [[Hn ->]|[Hn ->]]; [|by eexists _, _].
  unfold pretty, pretty_N. case_decide as H0; [by eexists _, _|].
  destruct (pretty_head (Z.to_N n) "") as (d & t & -> & Hlt); [lia|]. exists (pretty_N_char d), t. split; [done|].
  assert (d ∈ [1; 2; 3; 4; 5; 6; 7; 8; 9]%N) as Hin by (rewrite !elem_of_cons; lia).
  repeat (apply elem_of_cons in Hin as [->|Hin]; [done|]). by apply elem_of_nil in Hin.
Qed.

Lemma stringify_opens v : ∃ c t, stringify v = String c t ∧ opens_value c = true.
Proof.
  destruct v as [| |[]|n|s|items|fields]; try by eexists _, _.
  destruct (pretty_opens n) as (c & t & E & Ho & _). by exists c, t.
Qed.

Lemma skip_opens c t : opens_value c = true → skip_space (String c t) = String c t.
Proof. unfold opens_value. simpl. by destruct (is_json_space c). Qed.

Lemma skip_stringify v rest : skip_space (stringify v +:+ rest) = stringify v +:+ rest.
Proof. destruct (stringify_opens v) as (c & t & -> & Ho). by apply skip_opens. Qed.

Lemma expect_opens c d t :
  opens_value c = true → Ascii.eqb d "]" || Ascii.eqb d "}" = true → expect d (String c t) = None.
Proof.
  unfold opens_value. simpl. intros Ho Hd. destruct (Ascii.eqb_spec d c) as [->|]; [|done].
  destruct (is_json_space c), (Ascii.eqb c "]"), (Ascii.eqb c "}"); done.
Qed.

(** A value that parses wherever it may stand. *)
Definition parses (v : value) : Prop :=
  ∀ fuel rest, (vsize v <= fuel)%nat → delimits rest = true →
    parse_value fuel (stringify v +:+ rest) = Some (v, rest).

Lemma expect_comma t : expect "," (skip_space ("," +:+ t)) = Some t.
Proof. done. Qed.

Lemma join_cons sep x y l : join sep (x :: y :: l) = x +:+ sep +:+ join sep (y :: l).
Proof. done. Qed.

Lemma parse_items_ok items fuel rest :
  Forall parses items → items ≠ [] → (foldr (λ x n, S (vsize x) + n) 0 items <= fuel)%nat →
  parse_items fuel (join "," (map stringify items) +:+ "]" +:+ rest) = Some (items, rest).
Proof.
  intros Hf. revert fuel. induction Hf as [|x items Hx Hf IH]; intros fuel Hne Hfuel; [done|].
  cbn [foldr] in Hfuel. destruct fuel as [|fuel]; [lia|]. destruct items as [|y items].
  - cbn [map join]. change (join "," [stringify x]) with (stringify x). cbn [parse_items].
    rewrite Hx by (done || lia). reflexivity.
  - rewrite !map_cons, join_cons, !str_app_assoc. cbn [parse_items].
    rewrite Hx by (done || lia). cbn [mbind option_bind]. rewrite expect_comma.
    change (stringify y :: map stringify items) with (map stringify (y :: items)).
    rewrite IH by (done || lia). reflexivity.
Qed.

Definition member (kv : string * value) : string := json_quote kv.1 +:+ ":" +:+ stringify kv.2.

Lemma parse_key_ok k rest : parse_key (json_quote k +:+ ":" +:+ rest) = Some (k, rest).
Proof.
  unfold parse_key, json_quote. rewrite !str_app_assoc.
  change (skip_space (dquote +:+ ?t)) with (dquote +:+ t).
  change (expect quote_char (dquote +:+ ?t)) with (Some t). cbn [mbind option_bind].
  rewrite parse_chars_quoted. reflexivity.
Qed.

Lemma parse_members_ok fields fuel rest :
  Forall (λ kv, parses kv.2) fields → fields ≠ [] → (foldr (λ kv n, S (vsize kv.2) + n) 0 fields <= fuel)%nat →
  parse_members fuel (join "," (map member fields) +:+ "}" +:+ rest) = Some (fields, rest).
Proof.
  intros Hf. revert fuel. induction Hf as [|[k x] fields Hx Hf IH]; intros fuel Hne Hfuel; [done|].
  simpl in Hx. cbn [foldr snd] in Hfuel. destruct fuel as [|fuel]; [lia|]. destruct fields as [|y fields].
  - change (join "," (map member [(k, x)])) with (member (k, x)). unfold member. simpl fst. simpl snd. rewrite !str_app_assoc.
    cbn [parse_members]. rewrite parse_key_ok. cbn [mbind option_bind].
    rewrite Hx by (done || lia). reflexivity.
  - rewrite !map_cons, join_cons. unfold member at 1. simpl fst. simpl snd. rewrite !str_app_assoc.
    cbn [parse_members]. rewrite parse_key_ok. cbn [mbind option_bind].
    rewrite Hx by (done || lia). cbn [mbind option_bind]. rewrite expect_comma.
    change (member y :: map member fields) with (map member (y :: fields)).
    rewrite IH by (done || lia). reflexivity.
Qed.

Lemma stringify_object fields :
  foldr (λ kv P, plain kv.2 ∧ P) True fields →
  stringify (VObject fields) = "{" +:+ join "," (map member fields) +:+ "}".
Proof.
  intros Hp. simpl. do 2 f_equal. f_equal. f_equal.
  induction fields as [|[k x] fields IH]; [done|]. destruct Hp as [Hx Hp]. simpl in *.
  destruct x; simpl; [done|..]; f_equal; by apply IH.
Qed.

(** Rebuilding an object from distinct keys gives it back. *)
Lemma jm_build {K V} `{EqDecision K} (l acc : list (K * V)) :
  NoDup (map fst (acc ++ l)) → foldl (λ m e, jm_set e.1 e.2 m) acc l = acc ++ l.
Proof.
  revert acc. induction l as [|[k v] l IH]; intros acc Hnd; simpl; [by rewrite app_nil_r|].
  assert (E : jm_set k v acc = acc ++ [(k, v)]).
  { rewrite map_app in Hnd. apply NoDup_app in Hnd as (_ & Hd & _).
    assert (Hk : k ∉ map fst acc) by (intros Hk; apply (Hd k Hk); left).
    clear IH Hd. induction acc as [|[k' v'] acc IHa]; [done|]. simpl in *.
    apply not_elem_of_cons in Hk as [Hk1 Hk2]. rewrite decide_False by congruence. by rewrite IHa. }
  rewrite E. rewrite IH; [by rewrite <- app_assoc|]. by rewrite <- app_assoc.
Qed.

Lemma plain_items items : foldr (λ x P, plain x ∧ P) True items → Forall (λ x, plain x → parses x) items → Forall parses items.
Proof. intros Hp Hf. induction Hf as [|x items Hx _ IH]; [constructor|]. destruct Hp. constructor; auto. Qed.

Lemma plain_fields (fields : list (string * value)) :
  foldr (λ kv P, plain kv.2 ∧ P) True fields → Forall (λ kv, plain kv.2 → parses kv.2) fields → Forall (λ kv, parses kv.2) fields.
Proof. intros Hp Hf. induction Hf as [|x fields Hx _ IH]; [constructor|]. destruct Hp. constructor; auto. Qed.

Lemma parse_array items fuel rest :
  Forall parses items → (vsize (VArray items) <= S fuel)%nat →
  parse_value (S fuel) (stringify (VArray items) +:+ rest) = Some (VArray items, rest).
Proof.
  intros Hi Hf. cbn [stringify]. rewrite !str_app_assoc. destruct items as [|x items]; [reflexivity|].
  pose proof (parse_items_ok (x :: items) fuel rest Hi) as Hp. simpl in Hf.
  set (t := join "," (map stringify (x :: items)) +:+ "]" +:+ rest) in *.
  assert (Hopen : ∃ c u, t = String c u ∧ opens_value c = true).
  { unfold t. destruct (stringify_opens x) as (c & u & E & Ho). destruct items as [|y items].
    - exists c, (u +:+ "]" +:+ rest). split; [|done]. change (join "," (map stringify [x])) with (stringify x). by rewrite E.
    - eexists c, _. split; [|done]. rewrite !map_cons, join_cons, E. reflexivity. }
  destruct Hopen as (c & u & E & Ho). change ("[" +:+ t) with (String "[" t).
  change (parse_value (S fuel) (String "[" t)) with
    (match expect "]" (skip_space t) with
     | Some rest => Some (VArray [], rest)
     | None => '(items, rest) ← parse_items fuel t; Some (VArray items, rest)
     end).
  rewrite E at 1. rewrite (skip_opens c u Ho), (expect_opens c "]" u Ho eq_refl).
  rewrite Hp; [reflexivity|done|simpl; lia].
Qed.

Lemma parse_object fields fuel rest :
  NoDup (map fst fields) → foldr (λ kv P, plain kv.2 ∧ P) True fields →
  Forall (λ kv, parses kv.2) fields → (vsize (VObject fields) <= S fuel)%nat →
  parse_value (S fuel) (stringify (VObject fields) +:+ rest) = Some (VObject fields, rest).
Proof.
  intros Hnd Hpl Hi Hf. rewrite (stringify_object fields Hpl). rewrite !str_app_assoc. destruct fields as [|x fields]; [reflexivity|].
  pose proof (parse_members_ok (x :: fields) fuel rest Hi) as Hp. simpl in Hf.
  set (t := join "," (map member (x :: fields)) +:+ "}" +:+ rest) in *.
  assert (Hopen : ∃ u, t = String quote_char u).
  { unfold t. destruct fields as [|y fields]; [by eexists|]. rewrite !map_cons, join_cons. by eexists. }
  destruct Hopen as (u & E). change ("{" +:+ t) with (String "{" t).
  change (parse_value (S fuel) (String "{" t)) with
    (match expect "}" (skip_space t) with
     | Some rest => Some (VObject [], rest)
     | None => '(fields, rest) ← parse_members fuel t; Some (VObject (foldl (λ m e, jm_set e.1 e.2 m) [] fields), rest)
     end).
  rewrite E at 1. change (expect "}" (skip_space (String quote_char u))) with (@None string). cbn iota.
  rewrite Hp; [|done|simpl; lia]. cbn [mbind option_bind]. by rewrite jm_build.
Qed.

Lemma plain_parses v : plain v → parses v.
Proof.
  induction v as [| |b|n|s|items IH|fields IH] using value_nested_ind; intros Hp fuel rest Hf Hd; try done;
    (destruct fuel as [|fuel]; [simpl in Hf; lia|]).
  - reflexivity.
  - by destruct b.
  - pose proof (parse_number_pretty n rest Hd) as Hn.
    destruct (pretty_opens n) as (c & t & E & Ho & H1 & H2 & H3 & H4 & H5 & H6).
    cbn [stringify]. rewrite E in *. cbn [parse_value]. change (String c t +:+ rest) with (String c (t +:+ rest)) in *.
    rewrite (skip_opens c (t +:+ rest) Ho). cbn zeta iota. by rewrite H1, H2, H3, H4, H5, H6, Hn.
  - cbn [stringify]. unfold json_quote. rewrite !str_app_assoc.
    change (parse_value (S fuel) (dquote +:+ ?t)) with ('(u, r) ← parse_chars t; Some (VString u, r)).
    by rewrite parse_chars_quoted.
  - apply parse_array; [|done]. by apply plain_items.
  - destruct Hp as [Hnd Hp]. apply parse_object; [done|done| |done]. by apply plain_fields.
Qed.

Lemma join_length sep l :
  (foldr (λ s n, String.length s + n) 0 l + (length l - 1) * String.length sep <= String.length (join sep l))%nat.
Proof.
  induction l as [|x l IH]; [simpl; lia|]. destruct l as [|y l].
  - change (join sep [x]) with x. simpl. lia.
  - rewrite join_cons, !str_length_app. cbn [foldr length] in *. lia.
Qed.

Lemma stringify_length v : plain v → (vsize v <= String.length (stringify v))%nat.
Proof.
  induction v as [| |b|n|s|items IH|fields IH] using value_nested_ind; intros Hp; try done; cbn [vsize].
  - simpl. lia.
  - destruct b; simpl; lia.
  - cbn [stringify]. destruct (pretty_opens n) as (c & t & -> & _). simpl. lia.
  - cbn [stringify]. unfold json_quote. rewrite str_length_app. simpl. lia.
  - cbn [stringify]. rewrite !str_length_app. pose proof (join_length "," (map stringify items)) as Hj.
    assert (Hs : (foldr (λ x n, S (vsize x) + n) 0 items <=
                  foldr (λ s n, String.length s + n) 0 (map stringify items) + length items)%nat).
    { clear Hj. simpl in Hp. induction IH as [|x items Hx _ IHl]; [simpl; lia|]. destruct Hp as [Hpx Hp].
      specialize (IHl Hp). specialize (Hx Hpx). simpl in *. lia. }
    rewrite length_map in Hj. change (String.length ",") with 1%nat in Hj.
    change (String.length "[") with 1%nat. change (String.length "]") with 1%nat. lia.
  - destruct Hp as [_ Hp]. rewrite (stringify_object fields Hp), !str_length_app.
    pose proof (join_length "," (map member fields)) as Hj.
    assert (Hs : (foldr (λ kv n, S (vsize kv.2) + n) 0 fields <=
                  foldr (λ s n, String.length s + n) 0 (map member fields))%nat).
    { clear Hj. induction IH as [|[k x] fields Hx _ IHl]; [simpl; lia|]. destruct Hp as [Hpx Hp].
      specialize (IHl Hp). specialize (Hx Hpx). cbn [foldr map fst snd] in *.
      assert (String.length (member (k, x)) >= S (String.length (stringify x)))%nat.
      { unfold member. rewrite !str_length_app. simpl. lia. }
      lia. }
    change (String.length ",") with 1%nat in Hj. change (String.length "{") with 1%nat. change (String.length "}") with 1%nat. lia.
Qed.

(** What is written is read back: [JSON.parse] of the text of a value is the
    value, and the length of the text is fuel enough. *)
Lemma parse_stringify v : plain v → json_parse (stringify v) = Some v.
Proof.
  intros Hp. unfold json_parse. rewrite <- (str_app_nil_r (stringify v)) at 2.
  pose proof (stringify_length v Hp).
  rewrite (plain_parses v Hp) by (done || lia). reflexivity.
Qed.

(** ** The canonical text tells a value, up to the order of its keys *)

(** The same value with its keys in order, at every depth. *)
Fixpoint canonical (v : value) : value :=
  match v with
  | VArray items => VArray (map canonical items)
  | VObject fields => VObject (stable_sort key_le (map (λ kv, (kv.1, canonical kv.2)) fields))
  | _ => v
  end.

Lemma plain_forall (fields : list (string * value)) : foldr (λ kv P, plain kv.2 ∧ P) True fields ↔ Forall (λ kv, plain kv.2) fields.
Proof. induction fields as [|kv fields IH]; cbn; [by split|]. rewrite Forall_cons, IH. done. Qed.
Lemma plain_forall_items (items : list value) : foldr (λ x P, plain x ∧ P) True items ↔ Forall plain items.
Proof. induction items as [|x items IH]; cbn; [by split|]. rewrite Forall_cons, IH. done. Qed.
Lemma stable_sort_map {A B} (f : A → B) (le : A → A → bool) (le' : B → B → bool) l :
  (∀ x y, le' (f x) (f y) = le x y) → stable_sort le' (map f l) = map f (stable_sort le l).
Proof.
  intros Hf. induction l as [|x l IH]; cbn [map stable_sort foldr]; [done|]. fold (stable_sort le l) (stable_sort le' (map f l)). rewrite IH.
  generalize (stable_sort le l). intros k. induction k as [|y k IHk]; cbn [map insert_sorted]; [done|]. rewrite Hf. destruct (le x y); [done|].
  cbn [map]. by rewrite IHk.
Qed.
Lemma canonical_fields_keys fields : map fst (stable_sort key_le (map (λ kv : string * value, (kv.1, canonical kv.2)) fields)) ≡ₚ map fst fields.
Proof. rewrite stable_sort_perm, map_map. done. Qed.
Lemma canonical_plain v : plain v → plain (canonical v).
Proof.
  induction v as [| | | | |xs IH|fs IH] using value_nested_ind; cbn [canonical plain]; try done.
  - rewrite !plain_forall_items, Forall_map, !Forall_forall in *. intros Hp x Hx. by apply IH, Hp.
  - intros [Hnd Hp]. split; [by rewrite canonical_fields_keys|]. rewrite plain_forall in *. rewrite stable_sort_perm, Forall_map. rewrite !Forall_forall in *.
    intros kv Hkv. by apply IH, Hp.
Qed.
Lemma canonicalJson_stringify v : plain v → canonicalJson v = stringify (canonical v).
Proof.
  induction v as [| | | | |xs IH|fs IH] using value_nested_ind; try done; intros Hp.
  - cbn [canonicalJson canonical stringify]. do 2 f_equal. f_equal. rewrite map_map. apply map_ext_in. intros x Hx%list_elem_of_In.
    cbn [plain] in Hp. rewrite plain_forall_items in Hp. rewrite !Forall_forall in *. by apply IH, Hp.
  - pose proof (canonical_plain _ Hp) as [_ Hcp]. cbn [canonical]. rewrite stringify_object by done. destruct Hp as [_ Hp].
    change (canonicalJson (VObject fs)) with ("{" +:+ join "," (map (λ e, json_quote e.1 +:+ ":" +:+ e.2.2) (stable_sort key_le (rendered_entries fs))) +:+ "}").
    do 2 f_equal. f_equal. rewrite plain_forall in Hp.
    assert (rendered_entries fs = map (λ kv : string * value, (kv.1, (false, canonicalJson kv.2))) fs) as ->.
    { clear Hcp. induction fs as [|[k x] fs IHf]; [done|]. rewrite rendered_entries_cons. apply Forall_cons in Hp as [Hx Hp]. apply Forall_cons in IH as [_ IH].
      cbn [fst snd map] in *. destruct x; [done|..]; f_equal; by apply IHf. }
    rewrite (stable_sort_map (λ kv : string * value, (kv.1, (false, canonicalJson kv.2))) key_le key_le), (stable_sort_map (λ kv : string * value, (kv.1, canonical kv.2)) key_le key_le) by done.
    rewrite !map_map. apply map_ext_in. intros [k x] Hx%list_elem_of_In. rewrite elem_of_stable_sort in Hx. rewrite !Forall_forall in *.
    pose proof (IH (k, x) Hx (Hp (k, x) Hx)) as Hk. unfold member. cbn [fst snd] in *. by rewrite Hk.
Qed.
Lemma canonicalJson_inj v w : plain v → plain w → canonicalJson v = canonicalJson w → canonical v = canonical w.
Proof.
  intros Hv Hw. rewrite !canonicalJson_stringify by done. intros E. assert (Some (canonical v) = Some (canonical w)) as [=]; [|done].
  rewrite <-!parse_stringify by (by apply canonical_plain). by rewrite E.
Qed.
Lemma canonical_field fs gs k x : canonical (VObject fs) = canonical (VObject gs) → (k, x) ∈ fs → ∃ y, (k, y) ∈ gs ∧ canonical x = canonical y.
Proof.
  cbn [canonical]. intros [= E] Hx. assert ((k, canonical x) ∈ map (λ kv : string * value, (kv.1, canonical kv.2)) gs) as Hin.
  { rewrite <-(elem_of_stable_sort key_le), <-E, elem_of_stable_sort. by apply (list_elem_of_fmap_2 (λ kv : string * value, (kv.1, canonical kv.2)) fs (k, x)). }
  apply list_elem_of_fmap in Hin as ([k' y] & [= -> Hy] & Hin). by exists y.
Qed.
