(* ===== verification/Text.v ===== *)
(** * The language's string functions

    What the sources use of [String.prototype], on strings of 8-bit code units:
    case mapping, white space and trimming, splitting on white space, search. *)
From S2P Require Import Prelude Json.

Definition in_range (lo hi n : Z) : bool := (lo <=? n) && (n <=? hi).

Fixpoint str_map (f : Ascii.ascii → Ascii.ascii) (s : string) : string :=
  match s with
  | EmptyString => EmptyString
  | String c s' => String (f c) (str_map f s')
  end.

(** ** Letters and digits *)
Definition is_upper (c : Ascii.ascii) : bool := in_range 65 90 (code_of c).
Definition is_lower (c : Ascii.ascii) : bool := in_range 97 122 (code_of c).
Definition is_digit (c : Ascii.ascii) : bool := in_range 48 57 (code_of c).
Definition is_alnum (c : Ascii.ascii) : bool := is_upper c || is_lower c || is_digit c.

(** ** Case *)

(** The capital letters among 8-bit code units; the multiplication sign sits in
    their range. *)
Definition has_lower (n : Z) : bool := in_range 65 90 n || (in_range 192 222 n && negb (n =? 215)).
Definition lower (c : Ascii.ascii) : Ascii.ascii :=
  if has_lower (code_of c) then Ascii.ascii_of_N (Z.to_N (code_of c + 32)) else c.
Definition toLowerCase (s : string) : string := str_map lower s.

(** A letter whose capital form is not one 8-bit code unit stays as it is. *)
Definition upper (c : Ascii.ascii) : Ascii.ascii :=
  if has_lower (code_of c - 32) then Ascii.ascii_of_N (Z.to_N (code_of c - 32)) else c.
Definition toUpperCase (s : string) : string := str_map upper s.

(** ** White space *)

(** White space of [String.prototype.trim] among 8-bit code units. *)
Definition is_space (c : Ascii.ascii) : bool :=
  let n := code_of c in ((9 <=? n) && (n <=? 13)) || (n =? 32) || (n =? 160).

Fixpoint trim_start (s : string) : string :=
  match s with String c s' => if is_space c then trim_start s' else s | EmptyString => "" end.
Fixpoint trim_end (s : string) : string :=
  match s with
  | EmptyString => ""
  | String c s' => let r := trim_end s' in if is_space c && String.eqb r "" then "" else String c r
  end.
Definition js_trim (s : string) : string := trim_end (trim_start s).

(** The maximal runs without white space. *)
Fixpoint runs_of (current : string) (s : string) : list string :=
  match s with
  | EmptyString => if String.eqb current "" then [] else [current]
  | String c s' =>
      if is_space c then if String.eqb current "" then runs_of "" s' else current :: runs_of "" s'
      else runs_of (current +:+ String c "") s'
  end.

(** [normalised.split(/\s+/)] of a trimmed text. *)
Definition fields_of (normalised : string) : list string :=
  match runs_of "" normalised with [] => [""] | l => l end.

(** ** Search *)
Fixpoint str_includes (needle s : string) : bool :=
  String.prefix needle s || match s with String _ s' => str_includes needle s' | EmptyString => false end.

(** ** Splitting at one code unit *)
Definition lacks (sep : Ascii.ascii) (s : string) : bool := str_all (λ c, negb (Ascii.eqb sep c)) s.

Lemma split_first sep a b : lacks sep a = true → str_split sep (a +:+ String sep b) = a :: str_split sep b.
Proof.
  induction a as [|c a IH]; intros Ha; [cbn [String.append str_split]; by rewrite Ascii.eqb_refl|].
  cbn [lacks str_all] in Ha. apply andb_true_iff in Ha as [Hc Ha].
  apply negb_true_iff in Hc. change (String c a +:+ String sep b) with (String c (a +:+ String sep b)). cbn [str_split].
  by rewrite Hc, (IH Ha).
Qed.

Lemma split_last sep a : lacks sep a = true → str_split sep a = [a].
Proof.
  induction a as [|c a IH]; intros Ha; [done|]. cbn [lacks str_all] in Ha. apply andb_true_iff in Ha as [Hc Ha].
  apply negb_true_iff in Hc. cbn [str_split]. by rewrite Hc, (IH Ha).
Qed.

Lemma prefix_app a s : String.prefix a s = true → s = a +:+ str_drop (String.length a) s.
Proof.
  revert s. induction a as [|c a IH]; intros [|d s]; cbn; try done. destruct (Ascii.ascii_dec c d) as [->|]; [|done].
  intros H. f_equal. by apply IH.
Qed.

Lemma split_at_first sep a a' k k' : lacks sep a = true → lacks sep a' = true →
  a +:+ String sep k = a' +:+ String sep k' → a = a' ∧ k = k'.
Proof.
  revert a'. induction a as [|x a IH]; intros [|y a'] Ha Ha' E; unfold lacks in Ha, Ha'; cbn [str_all] in Ha, Ha'; cbn in E.
  - by injection E.
  - exfalso. injection E as -> _. by rewrite Ascii.eqb_refl in Ha'.
  - exfalso. injection E as <- _. by rewrite Ascii.eqb_refl in Ha.
  - apply andb_true_iff in Ha as [_ Ha], Ha' as [_ Ha']. injection E as -> E. destruct (IH a' Ha Ha' E) as [-> ->]. done.
Qed.

(** ** Matching a text from its front *)

(** The longest run of characters of a class, and the rest. *)
Fixpoint span (p : Ascii.ascii → bool) (s : string) : string * string :=
  match s with
  | EmptyString => ("", "")
  | String c r => if p c then let '(a, b) := span p r in (String c a, b) else ("", s)
  end.
Definition eat (word s : string) : option string := if String.prefix word s then Some (str_drop (String.length word) s) else None.

Lemma eat_app word s : eat word (word +:+ s) = Some s.
Proof.
  unfold eat. induction word as [|c word IH]; simpl; [by destruct s|].
  destruct (Ascii.ascii_dec c c); [|done]. destruct (String.prefix word (word +:+ s)); [exact IH|done].
Qed.
Lemma eat_some word s rest : eat word s = Some rest → s = word +:+ rest.
Proof.
  unfold eat. revert s. induction word as [|c word IH]; intros s; simpl.
  { by destruct s; intros [= <-]. }
  destruct s as [|d s]; [done|]. simpl. destruct (Ascii.ascii_dec c d) as [->|]; [|done].
  intros Hs. f_equal. apply IH. by destruct (String.prefix word s).
Qed.
Lemma span_app p a b : str_all p a = true → match b with String c _ => p c = false | EmptyString => True end → span p (a +:+ b) = (a, b).
Proof.
  intros Ha Hb. induction a as [|c a IH]; simpl in *.
  { destruct b as [|c b]; [done|]. simpl. by rewrite Hb. }
  apply andb_true_iff in Ha as [-> Ha]. by rewrite (IH Ha).
Qed.
Lemma span_all p a : str_all p a = true → span p a = (a, "").
Proof. intros Ha. rewrite <-(str_app_nil_r a) at 1. by apply span_app. Qed.

(** ** Lengths of slices *)
Lemma str_drop_length n s : String.length (str_drop n s) = (String.length s - n)%nat.
Proof. revert s. induction n as [|n IH]; intros [|c s]; [done..|]. apply IH. Qed.
Lemma str_drop_drop m n s : str_drop m (str_drop n s) = str_drop (n + m) s.
Proof. revert s. induction n as [|n IH]; intros s; [done|]. destruct s as [|c s]; [by destruct m|]. apply IH. Qed.

(** ** Trimming and searching *)
Definition str_ends (suffix s : string) : bool :=
  (String.length suffix <=? String.length s)%nat && String.eqb (str_drop (String.length s - String.length suffix) s) suffix.

Lemma str_ends_app a b : str_ends b (a +:+ b) = true.
Proof.
  unfold str_ends. rewrite str_length_app. replace (String.length a + String.length b - String.length b)%nat with (String.length a) by lia.
  rewrite str_drop_app_length, String.eqb_refl, andb_true_r. apply Nat.leb_le. lia.
Qed.

Lemma prefix_self_app a b : String.prefix a (a +:+ b) = true.
Proof. pose proof (eat_app a b) as H. unfold eat in H. by destruct (String.prefix a (a +:+ b)). Qed.

Lemma str_includes_iff needle s : str_includes needle s = true ↔ ∃ a b, s = a +:+ needle +:+ b.
Proof.
  split.
  - induction s as [|c s IH]; cbn [str_includes]; intros H.
    + destruct needle; [by exists "", ""|done].
    + apply orb_true_iff in H as [H|H]; [exists ""; apply prefix_app in H as E; eauto|].
      destruct (IH H) as (a & b & ->). by exists (String c a), b.
  - intros (a & b & ->). induction a as [|c a IH]; [|cbn [String.append str_includes]; change ((String c a) +:+ needle +:+ b) with (String c (a +:+ needle +:+ b)); cbn [str_includes]; by rewrite IH, orb_true_r].
    change ("" +:+ needle +:+ b) with (needle +:+ b). pose proof (prefix_self_app needle b) as Hp.
    destruct (needle +:+ b); cbn [str_includes]; by rewrite Hp.
Qed.

(** What a text keeps of its ends. *)
Definition bare_start (s : string) : Prop := match s with String c _ => is_space c = false | EmptyString => False end.
Fixpoint bare_end (s : string) : Prop :=
  match s with String c "" => is_space c = false | String _ s' => bare_end s' | EmptyString => False end.

Lemma trim_start_app a b : bare_start b → trim_start (a +:+ b) = trim_start a +:+ b.
Proof.
  intros Hb. induction a as [|c a IH]; simpl; [|by destruct (is_space c)].
  destruct b as [|c b]; [done|]. simpl in *. by rewrite Hb.
Qed.
Lemma trim_end_bare a : bare_end a → trim_end a = a ∧ a ≠ "".
Proof.
  induction a as [|c [|d a] IH]; intros Ha; [done| |].
  - simpl in *. by rewrite Ha.
  - destruct (IH Ha) as [E _]. change (trim_end (String c (String d a))) with
      (if is_space c && String.eqb (trim_end (String d a)) "" then "" else String c (trim_end (String d a))).
    rewrite E. simpl. by rewrite andb_false_r.
Qed.
Lemma trim_end_app a b : bare_end a → trim_end (a +:+ b) = a +:+ trim_end b.
Proof.
  intros Ha. induction a as [|c a IH]; [done|]. cbn [String.append trim_end].
  change (String c a +:+ b) with (String c (a +:+ b)). cbn [trim_end].
  destruct a as [|d a].
  - cbn [String.append]. simpl in Ha. by rewrite Ha.
  - rewrite (IH Ha). simpl. by rewrite andb_false_r.
Qed.
Lemma bare_end_app a b : bare_end b → bare_end (a +:+ b).
Proof. intros Hb. induction a as [|c t IH]; [done|]. simpl. destruct (t +:+ b) eqn:E; [destruct t, b; done|done]. Qed.
(** A text that begins and ends with no white space survives trimming around it. *)
Lemma js_trim_around a w b : bare_start w → bare_end w → js_trim (a +:+ w +:+ b) = trim_start a +:+ w +:+ trim_end b.
Proof.
  intros Hs He. unfold js_trim. rewrite trim_start_app by (by destruct w). rewrite <-!str_app_assoc, trim_end_app; [done|].
  by apply bare_end_app.
Qed.
Lemma js_trim_bare w : bare_start w → bare_end w → js_trim w = w.
Proof. intros Hs He. pose proof (js_trim_around "" w "" Hs He) as H. simpl in H. by rewrite !str_app_nil_r in H. Qed.
