(* ===== verification/Numbers.v ===== *)
(** * Numerals and fixed-width integers

    [Number(text)] as the sources use it on a header or a variable: exact
    rationals, nothing for what is not finite.  The 32-bit big-endian integer
    Node's buffers write and read. *)
From S2P Require Import Prelude Json JsonText Text.

(** ** [Number(text)] *)

(** The digits at the front: their value, how many they are, what follows. *)
Definition take_digits (s : string) : Z * nat * string :=
  let '(n, rest) := read_digits 0 s in (n, (String.length s - String.length rest)%nat, rest).

Fixpoint read_base (base acc : Z) (s : string) : option Z :=
  match s with
  | EmptyString => Some acc
  | String c s' => match hex_of c with
                   | Some d => if d <? base then read_base base (base * acc + d) s' else None
                   | None => None
                   end
  end.

(** [0x1f], [0b101] and [0o17]. *)
Definition prefixed (s : string) : option Q :=
  match s with
  | String "0" (String b (String c r)) =>
      let base := if Ascii.eqb b "x" || Ascii.eqb b "X" then 16
                  else if Ascii.eqb b "b" || Ascii.eqb b "B" then 2
                  else if Ascii.eqb b "o" || Ascii.eqb b "O" then 8 else 0 in
      if base =? 0 then None else inject_Z <$> read_base base 0 (String c r)
  | _ => None
  end.

(** Nothing, or [e] with a signed integer, up to the end. *)
Definition exponent_part (s : string) : option Z :=
  match s with
  | EmptyString => Some 0
  | String c r =>
      if Ascii.eqb c "e" || Ascii.eqb c "E" then
        let '(sign, digits) := match r with
                               | String "-" r' => (-1, r')
                               | String "+" r' => (1, r')
                               | _ => (1, r)
                               end in
        match take_digits digits with
        | (n, S _, EmptyString) => Some (sign * n)
        | _ => None
        end
      else None
  end.

Definition unsigned (s : string) : option Q :=
  let '(whole, n1, rest) := take_digits s in
  let '(fraction, n2, rest2) := match rest with String "." r => take_digits r | _ => (0, 0%nat, rest) end in
  match (n1 + n2)%nat with
  | O => None
  | _ => e ← exponent_part rest2;
         Some (inject_Z (whole * 10 ^ Z.of_nat n2 + fraction) * Qpower (10 # 1) (e - Z.of_nat n2))%Q
  end.

(** The number a text denotes, when that is finite. *)
Definition js_number (text : string) : option Q :=
  let t := js_trim text in
  if String.eqb t "" then Some 0%Q
  else match prefixed t with
       | Some q => Some q
       | None => match t with
                 | String "-" r => Qopp <$> unsigned r
                 | String "+" r => unsigned r
                 | _ => unsigned t
                 end
       end.

(** ** 32-bit integers in buffers *)

Definition be32 (n : Z) : string :=
  String (char_of (n / 2 ^ 24)) (String (char_of (n / 2 ^ 16 mod 256)) (String (char_of (n / 2 ^ 8 mod 256)) (String (char_of (n mod 256)) ""))).

Definition read_be32 (s : string) : option Z :=
  match s with
  | String a (String b (String c (String d _))) =>
      Some (((code_of a * 256 + code_of b) * 256 + code_of c) * 256 + code_of d)
  | _ => None
  end.

Lemma code_char n : 0 <= n < 256 → code_of (char_of n) = n.
Proof. intros Hn. unfold code_of, char_of. rewrite Ascii.N_ascii_embedding by lia. lia. Qed.

Lemma be32_length n : String.length (be32 n) = 4%nat.
Proof. done. Qed.

Lemma read_be32_app n s : 0 <= n < 2 ^ 32 → read_be32 (be32 n +:+ s) = Some n.
Proof.
  intros Hn. unfold be32. cbn [String.append read_be32]. f_equal.
  change (2 ^ 32) with 4294967296 in Hn. change (2 ^ 24) with 16777216. change (2 ^ 16) with 65536. change (2 ^ 8) with 256.
  rewrite !code_char by (first [apply Z.mod_pos_bound; lia|split; [apply Z.div_pos; lia|apply Z.div_lt_upper_bound; lia]]).
  pose proof (Z.div_mod (n / 65536) 256). pose proof (Z.div_mod (n / 256) 256). pose proof (Z.div_mod n 256).
  rewrite Z.div_div in * by lia. change (65536 * 256) with 16777216 in *. change (256 * 256) with 65536 in *. lia.
Qed.

(** ** The text of an integer denotes it *)

Lemma digit_not_space c d : digit_of c = Some d → is_space c = false.
Proof. by destruct c as [[] [] [] [] [] [] [] []]. Qed.

Lemma read_digits_all x : read_digits 0 (pretty_N_go x "") = (Z.of_N x, "").
Proof. pose proof (read_digits_pretty x "" "") as H. by rewrite !str_app_nil_r in H. Qed.

(** Only digits. *)
Definition numeral (s : string) : bool := str_all (λ c, match digit_of c with Some _ => true | None => false end) s.

Lemma numeral_pretty_go x s : numeral s = true → numeral (pretty_N_go x s) = true.
Proof.
  revert s. induction (N.lt_wf_0 x) as [x _ IH]; intros s Hs.
  destruct (decide (x = 0)%N) as [->|Hx]; [by rewrite pretty_N_go_0|].
  rewrite pretty_N_go_step by lia. apply IH; [apply N.div_lt; lia|].
  unfold numeral. cbn [str_all]. rewrite digit_char_of by (apply N.mod_lt; lia). done.
Qed.

Lemma numeral_pretty (n : N) : numeral (pretty n) = true.
Proof. unfold pretty, pretty_N. case_decide; [done|]. by apply numeral_pretty_go. Qed.

Lemma pretty_N_nonempty (n : N) : ∃ c t, (pretty n : string) = String c t ∧ is_Some (digit_of c).
Proof.
  unfold pretty, pretty_N. case_decide as Hn; [by exists "0"%char, ""; eauto|].
  destruct (pretty_head n "") as (d & t & -> & Hd); [lia|]. eexists _, _. split; [done|].
  rewrite digit_char_of by lia. eauto.
Qed.

Lemma read_digits_numeral (n : N) : read_digits 0 (pretty n) = (Z.of_N n, "").
Proof. unfold pretty, pretty_N. case_decide as Hn; [by subst|apply read_digits_all]. Qed.

Lemma trim_end_numeral s : numeral s = true → trim_end s = s.
Proof.
  induction s as [|c s IH]; [done|]. unfold numeral. cbn [str_all trim_end]. rewrite andb_true_iff. intros [Hc Hs].
  rewrite IH by done. destruct (digit_of c) eqn:E; [|done]. by rewrite (digit_not_space c z E).
Qed.

Lemma trim_start_numeral s : numeral s = true → trim_start s = s.
Proof.
  destruct s as [|c s]; [done|]. unfold numeral. cbn [str_all trim_start]. rewrite andb_true_iff. intros [Hc _].
  destruct (digit_of c) eqn:E; [|done]. by rewrite (digit_not_space c z E).
Qed.

Lemma unsigned_pretty (n : N) : ∃ q, unsigned (pretty n) = Some q ∧ (q == inject_Z (Z.of_N n))%Q.
Proof.
  unfold unsigned, take_digits. rewrite read_digits_numeral. cbn [String.length].
  destruct (pretty_N_nonempty n) as (c & t & -> & _). cbn [String.length Nat.sub Nat.add exponent_part mbind option_bind].
  eexists. split; [done|]. cbn [Z.of_nat]. rewrite Z.sub_0_r, Z.pow_0_r, Z.mul_1_r, Z.add_0_r. cbn [Qpower]. apply Qmult_1_r.
Qed.

(** A numeral is no prefixed literal. *)
Lemma prefixed_numeral s : numeral s = true → prefixed s = None.
Proof.
  intros Hs. destruct s as [|a [|b [|c r]]]; try done; [by destruct a as [[] [] [] [] [] [] [] []]..|].
  unfold numeral in Hs. cbn [str_all] in Hs. rewrite !andb_true_iff in Hs. destruct Hs as (_ & Hb & _).
  unfold prefixed. destruct a as [[] [] [] [] [] [] [] []]; try done; by destruct b as [[] [] [] [] [] [] [] []].
Qed.

(** [Number(String(n))] is [n], for a timestamp or any other integer that is not negative. *)
Lemma js_number_pretty n : 0 <= n → ∃ q, js_number (pretty n) = Some q ∧ (q == inject_Z n)%Q.
Proof.
  intros Hn. destruct (pretty_Z_cases n) as [[_ ->]|[? _]]; [|lia].
  destruct (unsigned_pretty (Z.to_N n)) as (q & Hu & Hq). exists q. rewrite Z2N.id in Hq by done. split; [|done].
  unfold js_number, js_trim. rewrite trim_start_numeral, trim_end_numeral by apply numeral_pretty.
  rewrite prefixed_numeral by apply numeral_pretty.
  destruct (pretty_N_nonempty (Z.to_N n)) as (c & t & E & [d Hd]). rewrite E in *. cbn [String.eqb].
  by destruct c as [[] [] [] [] [] [] [] []].
Qed.
