(* ===== verification/Envelope.v ===== *)
(** * Secrets, envelope encryption and signed requests

    Models packages/crypto/src/secret.ts, envelope.ts, key-provider.ts and
    hmac.ts.  A text is modelled by its bytes.  AES-256-GCM, HMAC-SHA256 in
    hexadecimal and base64 come from the platform and are parameters; what is
    used of the cipher is the class [AeadLaws].  Random draws are arguments.
    The port [KeyProvider] is a record of operations with its laws in the class
    [HonestProvider]; the encryption is proved against the laws and the provider
    in memory discharges them. *)
From S2P Require Import Prelude Json JsonText Text Numbers.

#[local] Open Scope host_scope.

(** ** Secrets *)

Definition REDACTED : string := "[redacted]".

Record Secret := { sec_value : string; sec_label : string }.
Definition expose_secret (s : Secret) : string := sec_value s.
(** The last four characters of a long value, none of a short one. *)
Definition hint (s : Secret) : string :=
  let n := String.length (sec_value s) in
  if (n <=? 8)%nat then sec_label s +:+ ":****" else sec_label s +:+ ":****" +:+ str_drop (n - 4) (sec_value s).

Record EphemeralSecret := { es_value : option string; es_label : string; es_expiresAt : Z }.
Definition new_ephemeral (value : string) (ttlMs : Z) (label : string) (now : Z) : EphemeralSecret :=
  {| es_value := Some value; es_label := label; es_expiresAt := now + ttlMs |}.
Definition destroy (s : EphemeralSecret) : EphemeralSecret :=
  {| es_value := None; es_label := es_label s; es_expiresAt := es_expiresAt s |}.
Inductive SecretError := se_destroyed (label : string) | se_expired (label : string).
Definition expose (now : Z) (s : EphemeralSecret) : outcome SecretError string * EphemeralSecret :=
  match es_value s with
  | None => (Throw (se_destroyed (es_label s)), s)
  | Some v => if es_expiresAt s <? now then (Throw (se_expired (es_label s)), destroy s) else (Ret v, s)
  end.
Definition destroyed (s : EphemeralSecret) : bool := match es_value s with None => true | Some _ => false end.
(** [toString], [toJSON] and the inspection hook never show the value. *)
Definition show_ephemeral (s : EphemeralSecret) : string := REDACTED.

(** ** The cipher of the platform *)

Record Aead := {
  seal : string → string → string → string → string * string;          (* key, iv, aad, plaintext: ciphertext and tag *)
  unseal : string → string → string → string → string → option string;  (* key, iv, aad, ciphertext, tag *)
}.

Class AeadLaws (a : Aead) : Prop := {
  unseal_seal k iv aad p : unseal a k iv aad (seal a k iv aad p).1 (seal a k iv aad p).2 = Some p;
  unseal_sound k iv aad c t p : unseal a k iv aad c t = Some p → seal a k iv aad p = (c, t);
  tag_length k iv aad p : String.length (seal a k iv aad p).2 = 16%nat;
}.

Definition IV_BYTES : nat := 12.
Definition TAG_BYTES : nat := 16.
Definition KEY_BYTES : nat := 32.
Definition DEK_BYTES : nat := 32.

(** ** Key providers *)

Record WrappedDek := { wd_wrapped : string; wd_keyProvider : string; wd_kekVersion : Z }.

Inductive KeyError :=
| ke_no_current (version : Z) | ke_length | ke_no_kek (version : Z) | ke_truncated | ke_range | ke_tampered | ke_not_set.

Record KeyProvider := {
  kp_name : string;
  kp_version : Z;
  kp_wrap : string → string → outcome KeyError WrappedDek;   (* the draw of an iv, the key *)
  kp_unwrap : WrappedDek → outcome KeyError string;
}.

Class HonestProvider (kp : KeyProvider) : Prop := {
  wraps iv dek : String.length iv = IV_BYTES →
    ∃ w, kp_wrap kp iv dek = Ret w ∧ kp_unwrap kp w = Ret dek ∧ wd_kekVersion w = kp_version kp;
}.

Section Provider.
Context (aead : Aead).

(** [wrap]: version, iv, tag and ciphertext in one buffer. *)
Definition wrap (name : string) (keys : gmap Z string) (version : Z) (iv dek : string) : outcome KeyError WrappedDek :=
  match keys !! version with
  | None => Throw (ke_no_kek version)
  | Some kek =>
      let '(ciphertext, tag) := seal aead kek iv "" dek in
      if (0 <=? version) && (version <? 2 ^ 32) then
        Ret {| wd_wrapped := be32 version +:+ iv +:+ tag +:+ ciphertext; wd_keyProvider := name; wd_kekVersion := version |}
      else Throw ke_range
  end.

(** [unwrap]: the version inside the buffer selects the key. *)
Definition unwrap (keys : gmap Z string) (w : WrappedDek) : outcome KeyError string :=
  let buf := wd_wrapped w in
  if (String.length buf <? 4 + IV_BYTES + TAG_BYTES)%nat then Throw ke_truncated
  else match read_be32 buf with
       | None => Throw ke_truncated
       | Some version =>
           match keys !! version with
           | None => Throw (ke_no_kek version)
           | Some kek =>
               let iv := str_take IV_BYTES (str_drop 4 buf) in
               let tag := str_take TAG_BYTES (str_drop (4 + IV_BYTES) buf) in
               let ciphertext := str_drop (4 + IV_BYTES + TAG_BYTES) buf in
               match unseal aead kek iv "" ciphertext tag with Some dek => Ret dek | None => Throw ke_tampered end
           end
       end.

Definition keys_fit (keys : gmap Z string) : bool := forallb (λ kv : Z * string, (String.length kv.2 =? KEY_BYTES)%nat) (map_to_list keys).

Definition newInMemory (name : string) (keys : gmap Z string) (currentVersion : Z) : outcome KeyError KeyProvider :=
  match keys !! currentVersion with
  | None => Throw (ke_no_current currentVersion)
  | Some _ =>
      if keys_fit keys then
        Ret {| kp_name := name; kp_version := currentVersion; kp_wrap := wrap name keys currentVersion; kp_unwrap := unwrap keys |}
      else Throw ke_length
  end.

(** [/^CREDENTIAL_KEK_V(\d+)$/]. *)
Definition kek_variable (name : string) : option Z :=
  if String.prefix "CREDENTIAL_KEK_V" name then
    let d := str_drop 16 name in
    if String.eqb d "" then None else if numeral d then Some (read_digits 0 d).1 else None
  else None.

Context (base64 : string → string).

(** [envKeyProvider]: the variables in the order of the environment; the
    version is the caller's, or the one the environment names, or 1. *)
Definition env_keys (env : list (string * string)) (currentVersion : Z) (current : string) : gmap Z string :=
  foldl (λ keys nv, match kek_variable nv.1 with
                    | Some v => if String.eqb nv.2 "" then keys else <[v := base64 nv.2]> keys
                    | None => keys
                    end)
    {[currentVersion := base64 current]} env.
Definition env_get (env : list (string * string)) (name : string) : option string :=
  snd <$> find (λ nv : string * string, String.eqb nv.1 name) env.
Definition envKeyProvider (env : list (string * string)) (currentVersion : Z) : outcome KeyError KeyProvider :=
  match env_get env "CREDENTIAL_KEK" with
  | None => Throw ke_not_set
  | Some current =>
      if String.eqb current "" then Throw ke_not_set
      else newInMemory "env" (env_keys env currentVersion current) currentVersion
  end.
Definition ephemeralKeyProvider (draw : string) (version : Z) : outcome KeyError KeyProvider :=
  newInMemory "ephemeral" {[version := draw]} version.
End Provider.

(** ** The envelope *)

Record EncryptedPayload := {
  ep_ciphertext : string; ep_iv : string; ep_authTag : string; ep_wrappedDek : string; ep_keyProvider : string; ep_kekVersion : Z }.
Record CredentialBinding := { cb_workspaceId : string; cb_credentialId : string; cb_kind : string }.

Definition aadFor (b : CredentialBinding) : string :=
  "v1|" +:+ cb_workspaceId b +:+ "|" +:+ cb_credentialId b +:+ "|" +:+ cb_kind b.

(** The three draws of an encryption. *)
Record Draws := { dr_dek : string; dr_iv : string; dr_wrapIv : string }.

(** Whatever goes wrong is one error. *)
Inductive DecryptionError := decryption_failed.

Section Cipher.
Context (aead : Aead) (kp : KeyProvider).

Definition encrypt (draws : Draws) (plaintext : string) (b : CredentialBinding) : outcome KeyError EncryptedPayload :=
  let '(ciphertext, tag) := seal aead (dr_dek draws) (dr_iv draws) (aadFor b) plaintext in
  do w <- kp_wrap kp (dr_wrapIv draws) (dr_dek draws);
  Ret {| ep_ciphertext := ciphertext; ep_iv := dr_iv draws; ep_authTag := tag; ep_wrappedDek := wd_wrapped w;
         ep_keyProvider := wd_keyProvider w; ep_kekVersion := wd_kekVersion w |}.

Definition dek_of (p : EncryptedPayload) : WrappedDek :=
  {| wd_wrapped := ep_wrappedDek p; wd_keyProvider := ep_keyProvider p; wd_kekVersion := ep_kekVersion p |}.

Definition decrypt (p : EncryptedPayload) (b : CredentialBinding) : outcome DecryptionError Secret :=
  match kp_unwrap kp (dek_of p) with
  | Throw _ => Throw decryption_failed
  | Ret dek =>
      match unseal aead dek (ep_iv p) (aadFor b) (ep_ciphertext p) (ep_authTag p) with
      | None => Throw decryption_failed
      | Some plaintext => Ret {| sec_value := plaintext; sec_label := cb_kind b |}
      end
  end.

Definition rewrap (iv : string) (p : EncryptedPayload) : outcome KeyError EncryptedPayload :=
  do dek <- kp_unwrap kp (dek_of p);
  do w <- kp_wrap kp iv dek;
  Ret {| ep_ciphertext := ep_ciphertext p; ep_iv := ep_iv p; ep_authTag := ep_authTag p; ep_wrappedDek := wd_wrapped w;
         ep_keyProvider := wd_keyProvider w; ep_kekVersion := wd_kekVersion w |}.

Definition needsRewrap (p : EncryptedPayload) : bool := negb (ep_kekVersion p =? kp_version kp).
End Cipher.

(** [timingSafeEqual] on buffers of one length is equality. *)
Definition safeEqual (a b : string) : bool :=
  if negb (String.length a =? String.length b)%nat then false else String.eqb a b.

(** ** Signed requests *)

Definition DEFAULT_SKEW_MS : Z := 60000.
Definition newline : string := String (Ascii.ascii_of_nat 10) "".
Definition length_of (s : string) : Z := Z.of_nat (String.length s).

Definition canonical (method path timestamp body : string) : string :=
  join newline ["v1"; toUpperCase method; path; timestamp; (pretty (length_of body) : string) +:+ ":" +:+ body].

Inductive VerifyFailure := missing_signature | missing_timestamp | malformed_signature | stale_timestamp | bad_signature.

Section Requests.
Context (hmac : string → string → string).

Definition sign (secret method path body : string) (timestamp : Z) : string * string :=
  let ts := pretty timestamp in ("v1=" +:+ hmac secret (canonical method path ts body), ts).

Definition nonempty (s : option string) : option string :=
  match s with Some t => if String.eqb t "" then None else Some t | None => None end.

Definition within (skew now : Z) (ts : Q) : bool :=
  Qle_bool (inject_Z now - ts) (inject_Z skew) && Qle_bool (ts - inject_Z now) (inject_Z skew).

(** [verify]: nothing when the request is accepted. *)
Definition verify (secret method path body : string) (signature timestamp : option string) (skewMs now : Z) : option VerifyFailure :=
  match nonempty signature with
  | None => Some missing_signature
  | Some sg =>
      match nonempty timestamp with
      | None => Some missing_timestamp
      | Some ts =>
          if negb (String.prefix "v1=" sg) then Some malformed_signature
          else match js_number ts with
          | None => Some malformed_signature
          | Some t =>
              if negb (within skewMs now t) then Some stale_timestamp
              else if safeEqual (str_drop 3 sg) (hmac secret (canonical method path ts body)) then None else Some bad_signature
          end
      end
  end.
End Requests.

(** ** The provider keeps its promise *)

Section ProviderLaws.
Context (aead : Aead) `{!AeadLaws aead}.

Lemma unwrap_wrap name keys version iv dek w :
  String.length iv = IV_BYTES → wrap aead name keys version iv dek = Ret w → unwrap aead keys w = Ret dek.
Proof.
  intros Hiv. unfold wrap. destruct (keys !! version) as [kek|] eqn:Hk; [|done].
  pose proof (tag_length kek iv "" dek) as Ht. pose proof (unseal_seal kek iv "" dek) as Hu.
  destruct (seal aead kek iv "" dek) as [ct tag]. simpl in Ht, Hu.
  destruct (_ && _) eqn:Hr; [|done]. apply andb_true_iff in Hr as [Hlo%Z.leb_le Hhi%Z.ltb_lt]. intros E.
  assert (wd_wrapped w = be32 version +:+ iv +:+ tag +:+ ct) as Hb by (by injection E as <-). clear E.
  unfold unwrap. rewrite Hb. cbv zeta. rewrite (read_be32_app version) by done. rewrite Hk.
  assert (str_drop 4 (be32 version +:+ iv +:+ tag +:+ ct) = iv +:+ tag +:+ ct) as Hd by done.
  assert (str_drop (4 + IV_BYTES) (be32 version +:+ iv +:+ tag +:+ ct) = tag +:+ ct) as Hd2.
  { change (str_drop (4 + IV_BYTES) _) with (str_drop IV_BYTES (iv +:+ tag +:+ ct)). rewrite <-Hiv. apply str_drop_app_length. }
  assert (str_drop (4 + IV_BYTES + TAG_BYTES) (be32 version +:+ iv +:+ tag +:+ ct) = ct) as Hd3.
  { change (str_drop (4 + IV_BYTES + TAG_BYTES) _) with (str_drop (IV_BYTES + TAG_BYTES) (iv +:+ tag +:+ ct)).
    rewrite <-str_app_assoc. replace (IV_BYTES + TAG_BYTES)%nat with (String.length (iv +:+ tag)) by (rewrite str_length_app, Ht, Hiv; done).
    apply str_drop_app_length. }
  rewrite Hd, Hd2, Hd3. rewrite <-Hiv, str_take_app_length. unfold TAG_BYTES. rewrite <-Ht, str_take_app_length, Hu.
  rewrite !str_length_app, be32_length. destruct (Nat.ltb_spec (4 + (String.length iv + (String.length tag + String.length ct)))
    (4 + String.length iv + String.length tag)); [lia|done].
Qed.

(** A provider made with its current key at a version of 32 bits is honest. *)
Lemma in_memory_honest name keys version kp :
  newInMemory aead name keys version = Ret kp → 0 <= version < 2 ^ 32 → HonestProvider kp.
Proof.
  unfold newInMemory. destruct (keys !! version) as [kek|] eqn:Hk; [|done]. destruct (keys_fit keys); [|done].
  intros [= <-] Hv. split. intros iv dek Hiv. cbn [kp_wrap kp_unwrap kp_version].
  destruct (wrap aead name keys version iv dek) as [w|e] eqn:Hw.
  - exists w. split_and!; [done|by eapply unwrap_wrap|]. unfold wrap in Hw. rewrite Hk in Hw.
    destruct (seal _ _ _ _ _). destruct (_ && _); [|done]. by injection Hw as <-.
  - exfalso. unfold wrap in Hw. rewrite Hk in Hw. destruct (seal _ _ _ _ _).
    destruct (Z.leb_spec 0 version); [|lia]. by destruct (Z.ltb_spec version (2 ^ 32)); [|lia].
Qed.

(** A provider with more keys reads whatever one with fewer reads. *)
Lemma unwrap_mono keys keys' w dek : keys ⊆ keys' → unwrap aead keys w = Ret dek → unwrap aead keys' w = Ret dek.
Proof.
  intros Hsub. unfold unwrap. destruct (_ <? _)%nat; [done|]. destruct (read_be32 _) as [v|]; [|done].
  destruct (keys !! v) as [kek|] eqn:Hk; [|done]. by rewrite (lookup_weaken _ _ _ _ Hk Hsub).
Qed.
End ProviderLaws.

(** ** What an envelope promises *)

Section CipherLaws.
Context (aead : Aead) `{!AeadLaws aead}.
Context (kp : KeyProvider) `{!HonestProvider kp}.

Lemma encrypt_total draws plaintext b : String.length (dr_wrapIv draws) = IV_BYTES →
  ∃ p, encrypt aead kp draws plaintext b = Ret p ∧ kp_unwrap kp (dek_of p) = Ret (dr_dek draws) ∧
       ep_iv p = dr_iv draws ∧ (ep_ciphertext p, ep_authTag p) = seal aead (dr_dek draws) (dr_iv draws) (aadFor b) plaintext ∧
       ep_kekVersion p = kp_version kp.
Proof.
  intros Hiv. unfold encrypt. destruct (seal aead (dr_dek draws) _ _ _) as [ct tag].
  destruct (wraps (dr_wrapIv draws) (dr_dek draws) Hiv) as (w & -> & Hu & Hv). cbn [obind]. eexists. split; [done|].
  split_and!; try done. unfold dek_of. cbn. by destruct w.
Qed.

(** What was encrypted decrypts under its own binding. *)
Lemma decrypt_encrypt draws plaintext b : String.length (dr_wrapIv draws) = IV_BYTES →
  ∃ p, encrypt aead kp draws plaintext b = Ret p ∧ decrypt aead kp p b = Ret {| sec_value := plaintext; sec_label := cb_kind b |}.
Proof.
  intros Hiv. destruct (encrypt_total draws plaintext b Hiv) as (p & He & Hu & Hi & Hs & _). exists p. split; [done|].
  unfold decrypt. rewrite Hu, Hi. pose proof (unseal_seal (dr_dek draws) (dr_iv draws) (aadFor b) plaintext) as Hr.
  rewrite <-Hs in Hr. cbn [fst snd] in Hr. by rewrite Hr.
Qed.

(** Re-wrapping changes the wrapping and nothing else: whoever reads both
    wrappings reads the same secret. *)
Lemma rewrap_decrypt iv p p' b s (kp' : KeyProvider) `{!HonestProvider kp'} :
  String.length iv = IV_BYTES → decrypt aead kp' p b = Ret s → rewrap kp' iv p = Ret p' →
  decrypt aead kp' p' b = Ret s ∧ ep_kekVersion p' = kp_version kp'.
Proof.
  intros Hiv Hd. unfold decrypt in Hd. unfold rewrap. destruct (kp_unwrap kp' (dek_of p)) as [dek|]; [|done]. cbn [obind].
  destruct (wraps iv dek Hiv) as (w & -> & Hu & Hv). cbn [obind]. intros [= <-]. split; [|done].
  unfold decrypt, dek_of. cbn. assert ({| wd_wrapped := wd_wrapped w; wd_keyProvider := wd_keyProvider w; wd_kekVersion := wd_kekVersion w |} = w) as ->
    by (by destruct w). rewrite Hu. done.
Qed.

Lemma rewrap_total iv p b s : String.length iv = IV_BYTES → decrypt aead kp p b = Ret s → ∃ p', rewrap kp iv p = Ret p'.
Proof.
  intros Hiv Hd. unfold decrypt in Hd. unfold rewrap. destruct (kp_unwrap kp (dek_of p)) as [dek|]; [|done]. cbn [obind].
  destruct (wraps iv dek Hiv) as (w & -> & _). cbn [obind]. eauto.
Qed.
End CipherLaws.

(** A binding whose workspace and kind hold no bar. *)
Definition bar_free (b : CredentialBinding) : bool := lacks "|" (cb_workspaceId b) && lacks "|" (cb_kind b).

Lemma split_last_bar a a' k k' : lacks "|" k = true → lacks "|" k' = true →
  a +:+ "|" +:+ k = a' +:+ "|" +:+ k' → a = a' ∧ k = k'.
Proof.
  intros Hk Hk'. revert a'. induction a as [|x a IH]; intros [|y a'] E.
  - by injection E.
  - exfalso. cbn in E. injection E as <- E. rewrite E in Hk. unfold lacks in Hk. rewrite str_all_app in Hk. cbn in Hk. by rewrite andb_false_r in Hk.
  - exfalso. cbn in E. injection E as -> E. rewrite <-E in Hk'. unfold lacks in Hk'. rewrite str_all_app in Hk'. cbn in Hk'. by rewrite andb_false_r in Hk'.
  - cbn in E. injection E as -> E. destruct (IH a' E) as [-> ->]. done.
Qed.

(** What is authenticated determines the row, whatever bars its identifier holds. *)
Lemma aadFor_inj b b' : bar_free b = true → bar_free b' = true → aadFor b = aadFor b' → b = b'.
Proof.
  destruct b as [w c k], b' as [w' c' k']. unfold bar_free, aadFor. cbn [cb_workspaceId cb_credentialId cb_kind].
  rewrite !andb_true_iff. intros [Hw Hk] [Hw' Hk'] E. apply str_app_inj_l in E.
  apply (split_at_first "|") in E as [-> E]; [|done..]. by apply split_last_bar in E as [-> ->].
Qed.

Section Bound.
Context (aead : Aead) `{!AeadLaws aead} (kp : KeyProvider) `{!HonestProvider kp}.

(** C16.  A stored secret is bound to its row: what was encrypted for one credential
    of one workspace decrypts to itself there; under any other credential,
    workspace or kind it fails, unless the cipher itself accepts one sealed
    message as another. *)
Theorem sealed_secrets_stay_in_their_row draws plaintext b b' :
  String.length (dr_wrapIv draws) = IV_BYTES → bar_free b = true → bar_free b' = true →
  ∃ p, encrypt aead kp draws plaintext b = Ret p ∧
    decrypt aead kp p b = Ret {| sec_value := plaintext; sec_label := cb_kind b |} ∧
    (b' ≠ b → decrypt aead kp p b' = Throw decryption_failed ∨
       ∃ forged, aadFor b' ≠ aadFor b ∧
         seal aead (dr_dek draws) (dr_iv draws) (aadFor b') forged = seal aead (dr_dek draws) (dr_iv draws) (aadFor b) plaintext).
Proof.
  intros Hiv Hb Hb'. destruct (decrypt_encrypt aead kp draws plaintext b Hiv) as (p & He & Hd).
  destruct (encrypt_total aead kp draws plaintext b Hiv) as (p2 & He2 & Hu & Hi & Hs & _).
  assert (p2 = p) as -> by congruence. exists p. split_and!; [done..|]. intros Hne.
  assert (aadFor b' ≠ aadFor b) as Haad by (intros E; apply Hne; by apply aadFor_inj).
  unfold decrypt. rewrite Hu, Hi. destruct (unseal _ _ _ _ _ _) as [forged|] eqn:Hun; [right|by left].
  exists forged. split; [done|]. rewrite <-Hs. by apply unseal_sound.
Qed.
End Bound.

(** ** What a signature covers *)

Definition line_free (s : string) : bool := lacks (Ascii.ascii_of_nat 10) s.

Lemma numeral_lacks sep s : digit_of sep = None → numeral s = true → lacks sep s = true.
Proof.
  intros Hs. unfold numeral, lacks. induction s as [|c s IH]; cbn [str_all]; [done|]. rewrite !andb_true_iff. intros [Hc Hr].
  split; [|by apply IH]. destruct (Ascii.eqb_spec sep c) as [<-|]; [by rewrite Hs in Hc|done].
Qed.

Lemma line_free_upper s : line_free s = true → line_free (toUpperCase s) = true.
Proof.
  unfold line_free, lacks, toUpperCase. induction s as [|c s IH]; [done|]. cbn [str_all str_map]. rewrite !andb_true_iff. intros [Hc Hs].
  split; [|by apply IH]. by destruct c as [[] [] [] [] [] [] [] []].
Qed.

Lemma length_numeral s : numeral (pretty (length_of s)) = true.
Proof. destruct (pretty_Z_cases (length_of s)) as [[_ ->]|[? _]]; [apply numeral_pretty|unfold length_of in *; lia]. Qed.

(** The signed text determines the request. *)
Lemma canonical_inj m p t b m' p' t' b' :
  line_free m = true → line_free m' = true → line_free p = true → line_free p' = true → line_free t = true → line_free t' = true →
  canonical m p t b = canonical m' p' t' b' → toUpperCase m = toUpperCase m' ∧ p = p' ∧ t = t' ∧ b = b'.
Proof.
  intros Hm Hm' Hp Hp' Ht Ht' E. unfold canonical, join in E. cbn [String.concat] in E. apply str_app_inj_l in E.
  unfold newline in E. apply line_free_upper in Hm, Hm'. cbn [String.append] in E. injection E as E.
  apply split_at_first in E as [-> E]; [|done..]. apply split_at_first in E as [-> E]; [|done..].
  apply split_at_first in E as [-> E]; [|done..].
  apply (split_at_first ":" (pretty (length_of b)) (pretty (length_of b'))) in E as [_ ->];
    [done|apply numeral_lacks; [done|apply length_numeral]..].
Qed.

Lemma within_spec skew now t :
  within skew now (inject_Z t) = true ↔ Z.abs (now - t) <= skew.
Proof.
  unfold within, Qminus. rewrite andb_true_iff, !Qle_bool_iff, <-!inject_Z_opp, <-!inject_Z_plus, <-!Zle_Qle. lia.
Qed.

#[global] Instance within_proper : Proper (eq ==> eq ==> Qeq ==> eq) within.
Proof.
  intros s ? <- n ? <- q q' E. unfold within. by rewrite E.
Qed.

Section RequestLaws.
Context (hmac : string → string → string).

Ltac refused := split; [done|intros (? & ? & ? & ? & ? & ? & ? & ? & ?); simplify_eq; cbn in *; congruence].

(** Which requests an internal endpoint accepts. *)
Lemma verify_ok secret m p b sg ts skew now :
  verify hmac secret m p b sg ts skew now = None ↔
  ∃ s t q, sg = Some s ∧ ts = Some t ∧ s = "v1=" +:+ hmac secret (canonical m p t b) ∧ t ≠ "" ∧ js_number t = Some q ∧ within skew now q = true.
Proof.
  unfold verify, nonempty. destruct sg as [s|]; [|refused]. destruct (String.eqb_spec s "") as [->|Hs]; [refused|].
  destruct ts as [t|]; [|refused]. destruct (String.eqb_spec t "") as [->|Ht]; [refused|].
  destruct (String.prefix "v1=" s) eqn:Hp; cbn [negb].
  - destruct (js_number t) as [q|] eqn:Hq; [|refused]. destruct (within skew now q) eqn:Hw; [|refused]. cbn [negb].
    apply prefix_app in Hp as Hv. cbn [String.length] in Hv.
    unfold safeEqual. destruct (Nat.eqb_spec (String.length (str_drop 3 s)) (String.length (hmac secret (canonical m p t b)))) as [Hl|Hl]; cbn [negb].
    + destruct (String.eqb_spec (str_drop 3 s) (hmac secret (canonical m p t b))) as [E|E].
      * split; [|done]. intros _. exists s, t, q. by rewrite Hv, <-E.
      * split; [done|]. intros (? & ? & ? & [= <-] & [= <-] & E' & _). exfalso. apply E. by rewrite E'.
    + split; [done|]. intros (? & ? & ? & [= <-] & [= <-] & E' & _). exfalso. apply Hl. by rewrite E'.
  - split; [done|]. intros (? & ? & ? & [= <-] & [= <-] & E' & _). exfalso. subst s. cbn in Hp. by destruct (hmac _ _).
Qed.

(** A signed request is accepted while its timestamp is within the skew, and
    its signature is good for no other method, path, body or moment: where the
    headers of one request open another, two different texts have one MAC. *)
Theorem signatures_cover_the_request secret m p b at_ m' p' b' skew now :
  0 <= at_ → line_free m = true → line_free m' = true → line_free p = true → line_free p' = true →
  let '(sg, ts) := sign hmac secret m p b at_ in
  (Z.abs (now - at_) <= skew ↔ verify hmac secret m p b (Some sg) (Some ts) skew now = None) ∧
  (verify hmac secret m' p' b' (Some sg) (Some ts) skew now = None →
     (toUpperCase m' = toUpperCase m ∧ p' = p ∧ b' = b) ∨
     (canonical m' p' ts b' ≠ canonical m p ts b ∧ hmac secret (canonical m' p' ts b') = hmac secret (canonical m p ts b))).
Proof.
  intros Hat Hm Hm' Hp Hp'. unfold sign. cbv zeta. destruct (js_number_pretty at_ Hat) as (q & Hq & Heq).
  assert (numeral (pretty at_) = true) as Hnum.
  { destruct (pretty_Z_cases at_) as [[_ ->]|[? _]]; [apply numeral_pretty|lia]. }
  assert ((pretty at_ : string) ≠ "") as Hne.
  { destruct (pretty_Z_cases at_) as [[_ ->]|[? _]]; [|lia]. by destruct (pretty_N_nonempty (Z.to_N at_)) as (c & t & -> & _). }
  split.
  - rewrite verify_ok, <-within_spec. split; [intros Hw; eexists _, _, q; split_and!; try done; by rewrite Heq|].
    intros (? & ? & q' & [= <-] & [= <-] & _ & _ & Hq' & Hw). rewrite Hq in Hq'. injection Hq' as <-. by rewrite <-Heq.
  - rewrite verify_ok. intros (? & ? & q' & [= <-] & [= <-] & Es & _). injection Es as Es.
    destruct (decide (canonical m' p' (pretty at_) b' = canonical m p (pretty at_) b)) as [E|E]; [left|by right].
    apply canonical_inj in E as (? & ? & _ & ?); try done; by apply numeral_lacks.
Qed.
End RequestLaws.

(** Once it has been destroyed or found expired, a secret is never read again. *)
Theorem expired_secrets_stay_unread now later s :
  (∃ e, (expose now s).1 = Throw e) → ∃ e, (expose later (expose now s).2).1 = Throw e.
Proof.
  unfold expose. destruct (es_value s) as [v|] eqn:Hv; [|cbn; rewrite Hv; eauto].
  destruct (es_expiresAt s <? now); [|by intros [e ?]]. cbn. eauto.
Qed.

(** ** Instances *)

(** A cipher with the laws: the text in the clear under a check of sixteen digits. *)
Definition check16 (k iv aad p : string) : string :=
  let d := pad_start 8 "0" (to_base 8 hex_digit 16 (fnv1a 2166136261 (canonicalJson (VArray [VString k; VString iv; VString aad; VString p]))) "") in
  str_take 16 (d +:+ d +:+ "0123456789abcdef").
Definition toy_aead : Aead := {|
  seal k iv aad p := (p, check16 k iv aad p);
  unseal k iv aad c t := if String.eqb t (check16 k iv aad c) then Some c else None |}.

#[global] Instance toy_aead_laws : AeadLaws toy_aead.
Proof.
  split; cbn [toy_aead seal unseal fst snd].
  - intros. by rewrite String.eqb_refl.
  - intros k iv aad c t p. destruct (String.eqb_spec t (check16 k iv aad c)) as [->|]; [|done]. by intros [= <-].
  - intros. unfold check16. rewrite str_take_length, !str_length_app. cbn [String.length]. lia.
Qed.

Definition iv12 : string := "iv0123456789".
Definition kek32 : string := "0123456789abcdef0123456789abcdef".
Definition other32 : string := "fedcba9876543210fedcba9876543210".
Definition toy_provider (keys : gmap Z string) (version : Z) : KeyProvider :=
  {| kp_name := "env"; kp_version := version; kp_wrap := wrap toy_aead "env" keys version; kp_unwrap := unwrap toy_aead keys |}.
Definition one_key : gmap Z string := {[1 := kek32]}.

Lemma toy_provider_honest keys version :
  bool_decide (is_Some (keys !! version)) = true → keys_fit keys = true → 0 <= version < 2 ^ 32 → HonestProvider (toy_provider keys version).
Proof.
  intros [k Hk]%bool_decide_eq_true Hfit Hv. apply (in_memory_honest toy_aead "env" keys version); [|done].
  unfold newInMemory. by rewrite Hk, Hfit.
Qed.

#[global] Instance one_key_honest : HonestProvider (toy_provider one_key 1).
Proof. apply toy_provider_honest; [vm_compute; reflexivity..|lia]. Qed.

Definition sample_draws : Draws := {| dr_dek := "dek"; dr_iv := iv12; dr_wrapIv := iv12 |}.
Definition row_of (ws id : string) : CredentialBinding := {| cb_workspaceId := ws; cb_credentialId := id; cb_kind := "api_key" |}.

Lemma sealed_secrets_stay_in_their_row_witness :
  ∃ p, encrypt toy_aead (toy_provider one_key 1) sample_draws "sk-secret" (row_of "wks_1" "cred_1") = Ret p ∧
    decrypt toy_aead (toy_provider one_key 1) p (row_of "wks_1" "cred_1") = Ret {| sec_value := "sk-secret"; sec_label := "api_key" |} ∧
    decrypt toy_aead (toy_provider one_key 1) p (row_of "wks_2" "cred_1") = Throw decryption_failed.
Proof.
  destruct (sealed_secrets_stay_in_their_row toy_aead (toy_provider one_key 1) sample_draws "sk-secret" (row_of "wks_1" "cred_1")
              (row_of "wks_2" "cred_1") eq_refl eq_refl eq_refl) as (p & He & Hd & _).
  exists p. split; [done|]. split; [done|]. vm_compute in He. injection He as <-. vm_compute. reflexivity.
Defined.

(** A MAC for examples. *)
Definition toy_mac (secret text : string) : string := fingerprint (VArray [VString secret; VString text]).

Lemma signatures_cover_the_request_witness :
  let '(sg, ts) := sign toy_mac "s3cret" "post" "/api/internal/execute" "{}" 1000 in
  verify toy_mac "s3cret" "POST" "/api/internal/execute" "{}" (Some sg) (Some ts) DEFAULT_SKEW_MS 61000 = None ∧
  verify toy_mac "s3cret" "POST" "/api/internal/execute" "{}" (Some sg) (Some ts) DEFAULT_SKEW_MS 61001 = Some stale_timestamp ∧
  verify toy_mac "s3cret" "POST" "/api/internal/sweep" "{}" (Some sg) (Some ts) DEFAULT_SKEW_MS 1000 = Some bad_signature.
Proof.
  pose proof (signatures_cover_the_request toy_mac "s3cret" "post" "/api/internal/execute" "{}" 1000 "post" "/api/internal/execute" "{}"
                DEFAULT_SKEW_MS 61000 ltac:(lia) eq_refl eq_refl eq_refl eq_refl) as H. unfold sign in H |- *. destruct H as [[H _] _].
  split; [|split; vm_compute; reflexivity]. apply H. unfold DEFAULT_SKEW_MS. lia.
Defined.

Lemma expired_secrets_stay_unread_witness :
  let s := new_ephemeral "sk" 60000 "api_key" 0 in
  (expose 60000 s).1 = Ret "sk" ∧ ∃ e, (expose 0 (expose 60001 s).2).1 = Throw e.
Proof. split; [reflexivity|]. apply (expired_secrets_stay_unread 60001 0). by eexists. Defined.

(** A numbered variable for the current version takes the place of the current
    key, so what was wrapped with [CREDENTIAL_KEK] can no longer be read. *)
Example numbered_key_shadows_the_current_one :
  let env1 := [("CREDENTIAL_KEK", kek32)] in
  let env2 := [("CREDENTIAL_KEK", kek32); ("CREDENTIAL_KEK_V1", other32)] in
  match envKeyProvider toy_aead id env1 1, envKeyProvider toy_aead id env2 1 with
  | Ret kp1, Ret kp2 =>
      match kp_wrap kp1 iv12 "dek" with
      | Ret w => kp_unwrap kp1 w = Ret "dek" ∧ kp_unwrap kp2 w = Throw ke_tampered
      | Throw _ => False
      end
  | _, _ => False
  end.
Proof. vm_compute. split; reflexivity. Qed.
