(* ===== verification/Entities.v ===== *)
(** * The domain entities

    Models packages/core/src/entities: conversation.ts (the canonical
    conversation format), mcp.ts (capabilities and their approval), run.ts
    (runs, budgets, leases) and the token usage of model.ts.  Identifiers are
    strings, dates are milliseconds since the epoch. *)
From S2P Require Import Prelude Json.

(** ** Conversations (conversation.ts) *)

Inductive MessageRole := RUser | RAssistant | RTool | RSystem.
#[global] Instance MessageRole_eq_dec : EqDecision MessageRole.
Proof. solve_decision. Defined.

#[warnings="-register-all"]
Inductive ContentBlock :=
| BText (text : string)
| BImage (blobKey mime : string)
| BDocument (blobKey mime : string) (title : option string)
| BToolUse (id name : string) (input : value)
| BToolResult (toolUseId : string) (content : list ContentBlock) (structured : option value) (isError : bool)
| BReasoning (summary : option string) (redacted : bool)
| BBlobRef (key : string) (bytes : Z) (mime : string).

Definition ProviderKey := string.
Definition providerKey (providerType modelId : string) : ProviderKey :=
  providerType +:+ ":" +:+ modelId.

(** Opaque vendor state, keyed by the model that produced it. *)
Definition ProviderArtifacts := list (string * value).

Definition shouldReplayArtifact (artifactKey current : string) : bool :=
  String.eqb artifactKey current.

Fixpoint assoc_get {A} (k : string) (l : list (string * A)) : option A :=
  match l with
  | [] => None
  | (k', v) :: l' => if String.eqb k' k then Some v else assoc_get k l'
  end.

Definition artifactsForModel (artifacts : option ProviderArtifacts) (current : string) : option value :=
  match artifacts with
  | None => None
  | Some a => assoc_get current a
  end.

Record Message := {
  m_id : string;
  m_conversationId : string;
  m_seq : Z;
  m_role : MessageRole;
  m_content : list ContentBlock;
  m_providerArtifacts : option ProviderArtifacts;
  m_runId : option string;
  m_tokenEstimate : option Z;
  m_createdAt : Z;
  m_supersededBy : option string;
}.

Definition live_message (m : Message) : bool :=
  match m_supersededBy m with None => true | Some _ => false end.

(** The messages no later message replaces. *)
Definition live_messages (ms : list Message) : list Message := List.filter live_message ms.

Record CanonicalMessage := {
  c_role : MessageRole;
  c_content : list ContentBlock;
  c_providerArtifacts : option ProviderArtifacts;
}.

Definition textBlock (text : string) : ContentBlock := BText text.

Definition toolResultBlock (toolUseId : string) (content : list ContentBlock)
    (structured : option value) (isError : option bool) : ContentBlock :=
  BToolResult toolUseId content structured (default false isError).

(** [messageText]: the text parts, one per line. *)
Fixpoint block_text (b : ContentBlock) : option string :=
  match b with
  | BText t => Some t
  | BToolResult _ content _ _ => Some (join (String (Ascii.ascii_of_nat 10) "") (omap block_text content))
  | BReasoning (Some s) _ => Some s
  | _ => None
  end.

Definition messageText (content : list ContentBlock) : string :=
  join (String (Ascii.ascii_of_nat 10) "") (omap block_text content).

Record ToolUse := { tu_id : string; tu_name : string; tu_input : value }.

Definition as_tool_use (b : ContentBlock) : option ToolUse :=
  match b with
  | BToolUse id name input => Some {| tu_id := id; tu_name := name; tu_input := input |}
  | _ => None
  end.

Definition toolUseBlocks (content : list ContentBlock) : list ToolUse := omap as_tool_use content.

Definition tool_result_id (b : ContentBlock) : option string :=
  match b with BToolResult id _ _ _ => Some id | _ => None end.

(** ** MCP capabilities (mcp.ts) *)

Inductive TrustTier := first_party | verified | community | untrusted.
#[global] Instance TrustTier_eq_dec : EqDecision TrustTier.
Proof. solve_decision. Defined.

Inductive CapabilityKind := KTool | KResource | KResourceTemplate | KPrompt.
#[global] Instance CapabilityKind_eq_dec : EqDecision CapabilityKind.
Proof. solve_decision. Defined.

Inductive ApprovalState := ap_pending | ap_approved | ap_revoked.
#[global] Instance ApprovalState_eq_dec : EqDecision ApprovalState.
Proof. solve_decision. Defined.

Record CapabilityApproval := {
  ca_state : ApprovalState;
  ca_definitionHash : string;
  ca_approvedBy : option string;
  ca_approvedAt : option Z;
}.

Record McpCapability := {
  cap_id : string;
  cap_workspaceId : string;
  cap_bindingId : string;
  cap_scopeKey : string;
  cap_kind : CapabilityKind;
  cap_name : string;
  cap_canonicalName : string;
  cap_title : option string;
  cap_description : option string;
  cap_inputSchema : option value;
  cap_outputSchema : option value;
  cap_annotations : option (list (string * value));
  cap_definitionHash : string;
  cap_approval : CapabilityApproval;
  cap_firstSeenAt : Z;
  cap_lastSeenAt : Z;
  cap_removedAt : option Z;
}.

Definition isCapabilityUsable (cap : McpCapability) : bool :=
  bool_decide (cap_removedAt cap = None) &&
  bool_decide (ca_state (cap_approval cap) = ap_approved) &&
  String.eqb (ca_definitionHash (cap_approval cap)) (cap_definitionHash cap).

Inductive BlockReason := br_removed | br_not_approved | br_capability_changed.

Definition capabilityBlockReason (cap : McpCapability) : option BlockReason :=
  match cap_removedAt cap with
  | Some _ => Some br_removed
  | None =>
      if negb (bool_decide (ca_state (cap_approval cap) = ap_approved)) then Some br_not_approved
      else if negb (String.eqb (ca_definitionHash (cap_approval cap)) (cap_definitionHash cap))
      then Some br_capability_changed
      else None
  end.

(** The first ["__"] of a canonical name. *)
Fixpoint index_of_sep (s : string) : option nat :=
  match s with
  | EmptyString => None
  | String c s' =>
      match s' with
      | String d _ =>
          if Ascii.eqb c "_" && Ascii.eqb d "_" then Some O
          else S <$> index_of_sep s'
      | EmptyString => None
      end
  end.

Definition canonicalCapabilityName (alias name : string) : string := alias +:+ "__" +:+ name.

Definition splitCanonicalName (canonical : string) : option (string * string) :=
  match index_of_sep canonical with
  | None => None
  | Some i =>
      if (i =? 0)%nat || (String.length canonical <=? i + 2)%nat then None
      else Some (str_take i canonical, str_drop (i + 2) canonical)
  end.

(** ** Runs (run.ts) *)

Inductive RunStatus :=
| queued | running
| waiting_approval | waiting_input | waiting_tool
| succeeded | failed | cancelled | expired.
#[global] Instance RunStatus_eq_dec : EqDecision RunStatus.
Proof. solve_decision. Defined.

Definition TERMINAL_STATUSES : list RunStatus := [succeeded; failed; cancelled; expired].
Definition SUSPENDED_STATUSES : list RunStatus := [waiting_approval; waiting_input; waiting_tool].
Definition isTerminal (s : RunStatus) : bool := bool_decide (s ∈ TERMINAL_STATUSES).
Definition isSuspended (s : RunStatus) : bool := bool_decide (s ∈ SUSPENDED_STATUSES).

(** Token counts are integers; money is an exact rational, so the rounding of
    binary floating point is outside the model. *)
Record RunBudget := {
  maxSteps : Z;
  maxToolCalls : Z;
  maxTotalTokens : Z;
  maxWallClockMs : Z;
  maxCostUsd : Q;
  maxMrtrRounds : Z;
  maxSubagentDepth : Z;
}.

Definition DEFAULT_BUDGET : RunBudget := {|
  maxSteps := 24; maxToolCalls := 48; maxTotalTokens := 400000;
  maxWallClockMs := 900000; maxCostUsd := 2; maxMrtrRounds := 4; maxSubagentDepth := 2
|}.

Record RunConsumption := {
  c_steps : Z;
  c_toolCalls : Z;
  c_tokens : Z;
  c_wallClockMs : Z;
  c_costUsd : Q;
}.

Definition emptyConsumption : RunConsumption :=
  {| c_steps := 0; c_toolCalls := 0; c_tokens := 0; c_wallClockMs := 0; c_costUsd := 0 |}.

Record Usage := {
  inputTokens : Z;
  outputTokens : Z;
  cacheReadTokens : Z;
  cacheWriteTokens : Z;
}.

Definition emptyUsage : Usage :=
  {| inputTokens := 0; outputTokens := 0; cacheReadTokens := 0; cacheWriteTokens := 0 |}.

Definition addUsage (a b : Usage) : Usage := {|
  inputTokens := inputTokens a + inputTokens b;
  outputTokens := outputTokens a + outputTokens b;
  cacheReadTokens := cacheReadTokens a + cacheReadTokens b;
  cacheWriteTokens := cacheWriteTokens a + cacheWriteTokens b
|}.

Inductive TriggerType := tr_user | tr_api | tr_channel | tr_schedule | tr_agent.

Inductive ModelRole := mr_chat | mr_reasoning | mr_summarizer | mr_cheap | mr_embedding.

Inductive BindingMode := bm_all | bm_allow | bm_deny.

Record AgentCapabilityBinding := {
  acb_bindingId : string;
  acb_mode : BindingMode;
  acb_tools : list string;
}.

(** Immutable configuration a run keeps even if the agent is edited. *)
Record AgentSnapshot := {
  as_systemPrompt : string;
  as_modelRole : ModelRole;
  as_capabilityBindings : list AgentCapabilityBinding;
  as_maxToolCallsPerTurn : Z;
}.

Record RunLease := { l_owner : string; l_until : Z; l_token : string }.

Record RunError := { e_code : string; e_message : string }.

Inductive PermissionEffect := allow | ask | deny.
#[global] Instance PermissionEffect_eq_dec : EqDecision PermissionEffect.
Proof. solve_decision. Defined.

(** ** Facts *)

Lemma usable_iff_not_blocked cap :
  isCapabilityUsable cap = true ↔ capabilityBlockReason cap = None.
Proof.
  unfold isCapabilityUsable, capabilityBlockReason.
  destruct (cap_removedAt cap); [by split|].
  change (bool_decide (@None Z = None)) with true.
  by destruct (bool_decide _), (String.eqb _ _).
Qed.

Lemma index_of_sep_alias alias name :
  index_of_sep alias = None → last_opt (String.list_ascii_of_string alias) ≠ Some "_"%char →
  index_of_sep (alias +:+ "__" +:+ name) = Some (String.length alias).
Proof.
  induction alias as [|c alias IH]; simpl; [done|].
  destruct alias as [|d alias]; simpl in *.
  - intros _ Hl. destruct (Ascii.eqb_spec c "_"); [congruence|]. simpl. done.
  - intros Hi Hl. destruct (_ && _); [done|].
    rewrite IH; [done| |done].
    by destruct (match alias with "" => None | String _ _ => _ end).
Qed.

Lemma addUsage_empty_l u : addUsage emptyUsage u = u.
Proof. by destruct u. Qed.

Lemma addUsage_assoc a b c : addUsage a (addUsage b c) = addUsage (addUsage a b) c.
Proof. unfold addUsage; simpl. f_equal; lia. Qed.

(** Namespacing round trip: splitting the canonical name of a tool gives
    back the alias and the tool, for every alias that is not empty, holds no
    ["__"] and does not end in an underscore, and every tool name that is not
    empty. *)
Theorem splitCanonicalName_roundtrip alias name :
  alias ≠ "" → index_of_sep alias = None →
  last_opt (String.list_ascii_of_string alias) ≠ Some "_"%char →
  name ≠ "" →
  splitCanonicalName (canonicalCapabilityName alias name) = Some (alias, name).
Proof.
  intros Ha Hi Hl Hn. unfold splitCanonicalName, canonicalCapabilityName.
  rewrite index_of_sep_alias by done.
  assert (String.length alias ≠ 0)%nat by (by destruct alias).
  assert (String.length name ≠ 0)%nat by (by destruct name).
  assert (String.length (alias +:+ "__" +:+ name) = String.length alias + 2 + String.length name)%nat
    as Hlen by (rewrite !str_length_app; simpl; lia).
  rewrite (proj2 (Nat.eqb_neq _ _)), (proj2 (Nat.leb_gt _ _)) by lia. cbn [orb].
  rewrite str_take_app_length. do 2 f_equal.
  rewrite <-str_app_assoc.
  assert (String.length alias + 2 = String.length (alias +:+ "__"))%nat as ->
    by (by rewrite str_length_app).
  by rewrite str_drop_app_length.
Qed.

Lemma splitCanonicalName_roundtrip_witness :
  splitCanonicalName (canonicalCapabilityName "gmail" "send") = Some ("gmail", "send").
Proof. by apply (splitCanonicalName_roundtrip "gmail" "send"). Defined.
