(* ===== verification/Pattern.v ===== *)
(** * Glob patterns for capability names

    Models packages/core/src/policy/pattern.ts.  A pattern is compiled to an
    anchored regular expression in which each [*] becomes [.*] and every other
    code unit stands for itself; the compiled form is the list of its atoms.
    The regular-expression cache is transparent and is not modelled. *)
From S2P Require Import Prelude.

Inductive atom :=
| Lit (c : Ascii.ascii)   (** an escaped code unit *)
| DotStar.                (** [.*] *)

Definition star_char : Ascii.ascii := "*"%char.

Definition lits (s : string) : list atom := map Lit (String.list_ascii_of_string s).

(** [pieces.join('.*')]. *)
Fixpoint join_atoms (pieces : list (list atom)) : list atom :=
  match pieces with
  | [] => []
  | [p] => p
  | p :: ps => p ++ DotStar :: join_atoms ps
  end.

Definition globToRegExp (pattern : string) : list atom :=
  join_atoms (map lits (str_split star_char pattern)).

(** What [.] matches without the [s] flag: any code unit but a line
    terminator (the two beyond Latin-1 cannot occur in a modelled string). *)
Definition is_line_terminator (c : Ascii.ascii) : bool :=
  Ascii.eqb c (Ascii.ascii_of_nat 10) || Ascii.eqb c (Ascii.ascii_of_nat 13).

(** [re.test(value)] for [^atoms$]. *)
Fixpoint re_test (re : list atom) : string → bool :=
  match re with
  | [] => λ v, match v with EmptyString => true | String _ _ => false end
  | Lit c :: re' => λ v,
      match v with
      | EmptyString => false
      | String d v' => Ascii.eqb c d && re_test re' v'
      end
  | DotStar :: re' =>
      fix star (v : string) : bool :=
        re_test re' v ||
        match v with
        | EmptyString => false
        | String d v' => negb (is_line_terminator d) && star v'
        end
  end.

Definition globMatches (pattern v : string) : bool :=
  String.eqb pattern "*" || re_test (globToRegExp pattern) v.

Definition patternSpecificity (pattern : string) : Z :=
  if String.eqb pattern "*" then 0
  else if str_has star_char pattern then 1 else 2.

(** ** The specification: a star stands for any text on one line *)

Definition one_line (s : string) : bool := str_all (λ c, negb (is_line_terminator c)) s.

Inductive glob_rel : string → string → Prop :=
| glob_end : glob_rel "" ""
| glob_lit c p v : c ≠ star_char → glob_rel p v → glob_rel (String c p) (String c v)
| glob_star p gap v :
    one_line gap = true → glob_rel p v → glob_rel (String star_char p) (gap +:+ v).

(** ** Facts *)

Lemma str_split_nonempty c s : ∃ p ps, str_split c s = p :: ps.
Proof.
  destruct s as [|d s]; simpl; [eauto|].
  destruct (Ascii.eqb c d); [eauto|]. destruct (str_split c s); eauto.
Qed.

Lemma globToRegExp_star p : globToRegExp (String star_char p) = DotStar :: globToRegExp p.
Proof.
  unfold globToRegExp. simpl. destruct (str_split_nonempty star_char p) as (q & qs & ->). done.
Qed.

Lemma globToRegExp_lit c p :
  c ≠ star_char → globToRegExp (String c p) = Lit c :: globToRegExp p.
Proof.
  intros Hc. unfold globToRegExp. cbn [str_split].
  destruct (Ascii.eqb_spec star_char c) as [|_]; [congruence|].
  destruct (str_split_nonempty star_char p) as (q & qs & ->). simpl. by destruct qs.
Qed.

Lemma re_test_star re v :
  re_test (DotStar :: re) v = true ↔
  ∃ gap w, v = gap +:+ w ∧ one_line gap = true ∧ re_test re w = true.
Proof.
  split.
  - induction v as [|d v IH]; cbn [re_test]; intros H; apply orb_true_iff in H as [H|H].
    + by exists "", "".
    + done.
    + by exists "", (String d v).
    + bool_prop. destruct IH as (gap & w & -> & Hg & Hw); [done|].
      exists (String d gap), w. unfold one_line in *; simpl. by rewrite H, Hg.
  - intros (gap & w & -> & Hg & Hw).
    induction gap as [|d gap IH]; simpl.
    + destruct w; simpl; by rewrite Hw.
    + unfold one_line in Hg; simpl in Hg. bool_prop. apply orb_true_iff; right.
      apply andb_true_iff; split; [by rewrite H|by apply IH].
Qed.

Lemma re_test_glob p v : re_test (globToRegExp p) v = true ↔ glob_rel p v.
Proof.
  revert v. induction p as [|c p IH]; intros v.
  { simpl. split; [destruct v; [constructor|done]|by inversion 1]. }
  destruct (decide (c = star_char)) as [->|Hc].
  - rewrite globToRegExp_star, re_test_star. split.
    + intros (gap & w & -> & Hg & Hw%IH). by constructor.
    + inversion 1; subst; [done|]. eexists _, _. rewrite IH. eauto.
  - rewrite globToRegExp_lit by done. simpl. split.
    + destruct v as [|d v]; [done|]. intros H. bool_prop.
      apply Ascii.eqb_eq in H as <-. constructor; [done|]. by apply IH.
    + inversion 1; subst; [|done]. by rewrite Ascii.eqb_refl, (proj2 (IH _)).
Qed.

Lemma str_has_false_lit p v : str_has star_char p = false → glob_rel p v → v = p.
Proof.
  intros Hp H. induction H as [|c p v Hc _ IH|p gap v _ _ IH]; [done| |]; simpl in Hp.
  - apply orb_false_iff in Hp as [_ Hp]. by rewrite IH.
  - done.
Qed.

Lemma glob_rel_refl p : str_has star_char p = false → glob_rel p p.
Proof.
  induction p as [|c p IH]; simpl; [constructor|].
  intros [Hc Hp]%orb_false_iff. constructor; [|by auto].
  by intros ->.
Qed.

(** Glob matching is exactly the wildcard relation: a value matches when
    the pattern is the bare star, or when the value is the pattern with every
    star replaced by some text without a line break. *)
Theorem globMatches_spec p v :
  globMatches p v = true ↔ p = "*" ∨ glob_rel p v.
Proof.
  unfold globMatches. rewrite orb_true_iff, String.eqb_eq, re_test_glob. done.
Qed.

(** A pattern without a star matches the one name it spells. *)
Lemma globMatches_exact p v :
  patternSpecificity p = 2 → globMatches p v = true ↔ v = p.
Proof.
  unfold patternSpecificity. intros H.
  destruct (String.eqb_spec p "*"); [done|].
  destruct (str_has star_char p) eqn:E; [done|].
  rewrite globMatches_spec. split.
  - intros [->|Hg]; [done|]. by apply str_has_false_lit.
  - intros ->. right. by apply glob_rel_refl.
Qed.

(** A star does not cross a line break: a pattern with a star matches no
    value in which a line feed must fall under the star, so the deny rule
    [delete_*] does not cover a tool whose name hides a line feed after the
    prefix. *)
Theorem glob_star_stops_at_newline :
  globMatches "delete_*" ("delete_" +:+ String (Ascii.ascii_of_nat 10) "all") = false ∧
  globMatches "delete_*" "delete_all" = true ∧
  globMatches "*" ("delete_" +:+ String (Ascii.ascii_of_nat 10) "all") = true.
Proof. by vm_compute. Qed.
