(* ===== verification/Permission.v ===== *)
(** * The permission decision

    Models packages/core/src/policy/permission.ts: rule matching, ranking and
    the decision every tool invocation passes through. *)
From S2P Require Import Prelude Json Entities Pattern.

(** ** Policies *)

Inductive PolicyScopeType := ps_workspace | ps_agent | ps_member | ps_apiKey | ps_channel.
#[global] Instance PolicyScopeType_eq_dec : EqDecision PolicyScopeType.
Proof. solve_decision. Defined.

Definition SCOPE_RANK (s : PolicyScopeType) : Z :=
  match s with ps_workspace => 0 | ps_agent => 1 | ps_member | ps_apiKey | ps_channel => 2 end.

Inductive ArgOp :=
| op_equals (v : value)
| op_oneOf (vs : list value)
| op_matches (pattern : string)
| op_exists
| op_maxNumber (n : Z).

Record ArgMatcher := { am_path : string; am_op : ArgOp }.

Record RuleConstraints := {
  rc_argMatchers : option (list ArgMatcher);
  rc_maxCallsPerRun : option Z;
  rc_maxCallsPerHour : option Z;
}.

Record PolicyRule := {
  r_id : string;
  r_bindingId : option string;
  r_capabilityPattern : string;
  r_effect : PermissionEffect;
  r_priority : Z;
  r_constraints : option RuleConstraints;
  r_expiresAt : option Z;
}.

Record PolicyDocument := {
  pd_id : string;
  pd_workspaceId : string;
  pd_scopeType : PolicyScopeType;
  pd_scopeId : option string;
  pd_rules : list PolicyRule;
}.

(** [now] is [input.now ?? new Date()]. *)
Record PermissionInput := {
  pi_capability : McpCapability;
  pi_bindingId : string;
  pi_trustTier : TrustTier;
  pi_args : value;
  pi_policies : list PolicyDocument;
  pi_now : Z;
  pi_defaultEffect : PermissionEffect;
  pi_callsThisRun : Z;
}.

Record PermissionDecision := {
  d_effect : PermissionEffect;
  d_matchedRuleId : option string;
  d_reason : string;
  d_tightenedByFloor : bool;
}.

Record Candidate := { k_rule : PolicyRule; k_scope : PolicyScopeType; k_specificity : Z }.

Definition specificityOf (rule : PolicyRule) (scope : PolicyScopeType) : Z :=
  let pattern := patternSpecificity (r_capabilityPattern rule) in
  let binding := match r_bindingId rule with
                 | Some b => if String.eqb b "*" then 0 else 1
                 | None => 0
                 end in
  pattern * 100 + binding * 10 + SCOPE_RANK scope.

(** ** Matching arguments *)

(** [arr[seg]]: an index in canonical decimal form, or the length. *)
Fixpoint index_prop (i : Z) (items : list value) (seg : string) : value :=
  match items with
  | [] => VUndefined
  | x :: items' => if String.eqb (pretty i) seg then x else index_prop (i + 1) items' seg
  end.

(** A property read on something [typeof] calls an object; inherited members
    of the built-in prototypes are not properties of the model. *)
Definition prop_of (cur : value) (seg : string) : value :=
  match cur with
  | VObject fields => default VUndefined (assoc_get seg fields)
  | VArray items =>
      if String.eqb seg "length" then VNumber (Z.of_nat (length items)) else index_prop 0 items seg
  | _ => VUndefined
  end.

Fixpoint walk_path (cur : value) (segs : list string) : value :=
  match segs with
  | [] => cur
  | seg :: segs' =>
      match cur with
      | VObject _ | VArray _ => walk_path (prop_of cur seg) segs'
      | _ => VUndefined
      end
  end.

Definition getPath (obj : value) (path : string) : value :=
  walk_path obj (str_split "."%char path).

(** [Object.is]: primitives by value; two objects that were parsed
    separately are never identical. *)
Definition object_is (a b : value) : bool :=
  match a, b with
  | VUndefined, VUndefined | VNull, VNull => true
  | VBool x, VBool y => Bool.eqb x y
  | VNumber x, VNumber y => x =? y
  | VString x, VString y => String.eqb x y
  | _, _ => false
  end.

Definition argMatcherSatisfied (matcher : ArgMatcher) (args : value) : bool :=
  let v := getPath args (am_path matcher) in
  match am_op matcher with
  | op_exists => negb (is_undefined v)
  | op_equals w => object_is v w
  | op_oneOf ws => existsb (λ w, object_is w v) ws
  | op_matches pattern => match v with VString s => globMatches pattern s | _ => false end
  | op_maxNumber n => match v with VNumber m => m <=? n | _ => false end
  end.

Definition constraintsSatisfied (rule : PolicyRule) (input : PermissionInput) : bool :=
  match r_constraints rule with
  | None => true
  | Some c =>
      let within := match rc_maxCallsPerRun c with
                    | Some m => negb (m <=? pi_callsThisRun input)
                    | None => true
                    end in
      if negb within then false
      else match rc_argMatchers c with
           | Some ms => forallb (λ m, argMatcherSatisfied m (pi_args input)) ms
           | None => true
           end
  end.

(** ** Floors *)

Definition annotation_is_true (cap : McpCapability) (hint : string) : bool :=
  match assoc_get hint (default [] (cap_annotations cap)) with
  | Some (VBool true) => true
  | _ => false
  end.

Definition applyAnnotationFloor (effect : PermissionEffect) (cap : McpCapability)
    (tier : TrustTier) : PermissionEffect * bool :=
  if negb (bool_decide (effect = allow)) then (effect, false)
  else if bool_decide (tier = first_party) then (effect, false)
  else
    let notProvenSafe := negb (annotation_is_true cap "readOnlyHint") in
    if annotation_is_true cap "destructiveHint" || notProvenSafe then (ask, true)
    else (effect, false).

Inductive ReadReason := rr_first_party | rr_read_only.

Definition readsWithoutAsking (cap : McpCapability) (tier : TrustTier) : option ReadReason :=
  if bool_decide (tier = first_party) then Some rr_first_party
  else if negb (bool_decide (tier = verified)) then None
  else if annotation_is_true cap "readOnlyHint" && negb (annotation_is_true cap "destructiveHint")
  then Some rr_read_only else None.

(** ** The decision *)

Definition block_text_of (b : BlockReason) : string :=
  match b with
  | br_removed => "removed"
  | br_not_approved => "not_approved"
  | br_capability_changed => "capability_changed"
  end.

Definition effect_text (e : PermissionEffect) : string :=
  match e with allow => "allow" | ask => "ask" | deny => "deny" end.

Definition read_text (r : ReadReason) : string :=
  match r with rr_first_party => "first_party" | rr_read_only => "read_only" end.

Definition rule_expired (rule : PolicyRule) (now : Z) : bool :=
  match r_expiresAt rule with Some e => e <=? now | None => false end.

(** The body of the collecting loop: whether a rule becomes a candidate. *)
Definition rule_applies (rule : PolicyRule) (input : PermissionInput) : bool :=
  if rule_expired rule (pi_now input) then false
  else
    let bindingOk := match r_bindingId rule with
                     | None => true
                     | Some b => String.eqb b "*" || String.eqb b (pi_bindingId input)
                     end in
    if negb bindingOk then false
    else if negb (globMatches (r_capabilityPattern rule) (cap_name (pi_capability input))) &&
            negb (globMatches (r_capabilityPattern rule) (cap_canonicalName (pi_capability input)))
    then false
    else constraintsSatisfied rule input.

Definition candidates_of_doc (input : PermissionInput) (doc : PolicyDocument) : list Candidate :=
  map (λ rule, {| k_rule := rule; k_scope := pd_scopeType doc;
                  k_specificity := specificityOf rule (pd_scopeType doc) |})
      (List.filter (λ rule, rule_applies rule input) (pd_rules doc)).

Definition collect_candidates (input : PermissionInput) : list Candidate :=
  flat_map (candidates_of_doc input) (pi_policies input).

(** The callback of [candidates.reduce]. *)
Definition better (best : option Candidate) (c : Candidate) : option Candidate :=
  match best with
  | None => Some c
  | Some b =>
      if negb (r_priority (k_rule c) =? r_priority (k_rule b)) then
        if r_priority (k_rule b) <? r_priority (k_rule c) then Some c else Some b
      else if negb (k_specificity c =? k_specificity b) then
        if k_specificity b <? k_specificity c then Some c else Some b
      else if bool_decide (r_effect (k_rule c) = ask) then Some c else Some b
  end.

Definition pick_winner (cs : list Candidate) : option Candidate := foldl better None cs.

Definition is_deny (c : Candidate) : bool := bool_decide (r_effect (k_rule c) = deny).

Definition decidePermission (input : PermissionInput) : PermissionDecision :=
  match capabilityBlockReason (pi_capability input) with
  | Some blocked =>
      {| d_effect := deny; d_matchedRuleId := None;
         d_reason := block_text_of blocked; d_tightenedByFloor := false |}
  | None =>
      let candidates := collect_candidates input in
      match find is_deny candidates with
      | Some denial =>
          {| d_effect := deny; d_matchedRuleId := Some (r_id (k_rule denial));
             d_reason := "policy:deny"; d_tightenedByFloor := false |}
      | None =>
          let winner := pick_winner candidates in
          let base0 := match winner with Some w => r_effect (k_rule w) | None => pi_defaultEffect input end in
          let reason0 := match winner with
                         | Some w => "policy:" +:+ effect_text (r_effect (k_rule w))
                         | None => "policy:default"
                         end in
          let '(base, reason) :=
            match winner, base0, readsWithoutAsking (pi_capability input) (pi_trustTier input) with
            | None, ask, Some read => (allow, "policy:default+" +:+ read_text read)
            | _, _, _ => (base0, reason0)
            end in
          let '(effect, tightened) :=
            applyAnnotationFloor base (pi_capability input) (pi_trustTier input) in
          {| d_effect := effect;
             d_matchedRuleId := (λ w, r_id (k_rule w)) <$> winner;
             d_reason := if tightened then reason +:+ "+annotation_floor" else reason;
             d_tightenedByFloor := tightened |}
      end
  end.

(** ** What a decision promises *)

(** How much an effect holds back: [allow] least, [deny] most. *)
Definition strictness (e : PermissionEffect) : Z :=
  match e with allow => 0 | ask => 1 | deny => 2 end.

(** The ranking of step 5: priority, then specificity. *)
Definition ranks_below (c w : Candidate) : Prop :=
  r_priority (k_rule c) < r_priority (k_rule w) ∨
  (r_priority (k_rule c) = r_priority (k_rule w) ∧ k_specificity c < k_specificity w).

Definition ranks_equal (c w : Candidate) : Prop :=
  r_priority (k_rule c) = r_priority (k_rule w) ∧ k_specificity c = k_specificity w.

(** [w] outranks or ties with [c], and on an exact tie it asks if [c] does. *)
Definition outranks (w c : Candidate) : Prop :=
  ranks_below c w ∨
  (ranks_equal c w ∧ (r_effect (k_rule c) = ask → r_effect (k_rule w) = ask)).

(** The input without the rules that have expired. *)
Definition drop_expired (input : PermissionInput) : PermissionInput := {|
  pi_capability := pi_capability input; pi_bindingId := pi_bindingId input;
  pi_trustTier := pi_trustTier input; pi_args := pi_args input;
  pi_policies := map (λ doc, {| pd_id := pd_id doc; pd_workspaceId := pd_workspaceId doc;
      pd_scopeType := pd_scopeType doc; pd_scopeId := pd_scopeId doc;
      pd_rules := List.filter (λ r, negb (rule_expired r (pi_now input))) (pd_rules doc) |})
    (pi_policies input);
  pi_now := pi_now input; pi_defaultEffect := pi_defaultEffect input;
  pi_callsThisRun := pi_callsThisRun input
|}.

(** The input with more policy documents. *)
Definition add_policies (input : PermissionInput) (docs : list PolicyDocument) : PermissionInput := {|
  pi_capability := pi_capability input; pi_bindingId := pi_bindingId input;
  pi_trustTier := pi_trustTier input; pi_args := pi_args input;
  pi_policies := pi_policies input ++ docs;
  pi_now := pi_now input; pi_defaultEffect := pi_defaultEffect input;
  pi_callsThisRun := pi_callsThisRun input
|}.

(** The input with other server-supplied annotations. *)
Definition with_annotations (input : PermissionInput) (ann : option (list (string * value))) : PermissionInput :=
  let cap := pi_capability input in {|
  pi_capability := {| cap_id := cap_id cap; cap_workspaceId := cap_workspaceId cap;
    cap_bindingId := cap_bindingId cap; cap_scopeKey := cap_scopeKey cap; cap_kind := cap_kind cap;
    cap_name := cap_name cap; cap_canonicalName := cap_canonicalName cap; cap_title := cap_title cap;
    cap_description := cap_description cap; cap_inputSchema := cap_inputSchema cap;
    cap_outputSchema := cap_outputSchema cap; cap_annotations := ann;
    cap_definitionHash := cap_definitionHash cap; cap_approval := cap_approval cap;
    cap_firstSeenAt := cap_firstSeenAt cap; cap_lastSeenAt := cap_lastSeenAt cap;
    cap_removedAt := cap_removedAt cap |};
  pi_bindingId := pi_bindingId input; pi_trustTier := pi_trustTier input; pi_args := pi_args input;
  pi_policies := pi_policies input; pi_now := pi_now input;
  pi_defaultEffect := pi_defaultEffect input; pi_callsThisRun := pi_callsThisRun input
|}.

(** *** The fold that picks the winner *)

Lemma outranks_refl c : outranks c c.
Proof. right. by repeat split. Qed.

Lemma outranks_trans a b c : outranks a b → outranks b c → outranks a c.
Proof. unfold outranks, ranks_below, ranks_equal. intuition lia || (right; intuition congruence). Qed.

Lemma better_outranks b c :
  ∃ w, better (Some b) c = Some w ∧ (w = b ∨ w = c) ∧ outranks w b ∧ outranks w c.
Proof.
  unfold better, outranks, ranks_below, ranks_equal.
  repeat case_match; bool_prop; eexists; (split; [done|]); split; eauto; split;
    try (left; lia); try (right; intuition congruence).
Qed.

Lemma foldl_better_some cs b :
  ∃ w, foldl better (Some b) cs = Some w ∧ (w = b ∨ w ∈ cs) ∧ outranks w b ∧
       ∀ c, c ∈ cs → outranks w c.
Proof.
  revert b. induction cs as [|c cs IH]; intros b; cbn [foldl].
  { exists b. repeat split; [by left|apply outranks_refl|by intros ? ?%elem_of_nil]. }
  destruct (better_outranks b c) as (w & -> & Hw & Hwb & Hwc).
  destruct (IH w) as (w' & -> & Hw' & Hww & Hall).
  exists w'. split; [done|]. split; [|split].
  - destruct Hw' as [->|Hin]; [destruct Hw as [-> | ->]; [by left|right; by left]|right; by right].
  - by eapply outranks_trans.
  - intros d [->|Hd]%elem_of_cons; [by eapply outranks_trans|by apply Hall].
Qed.

Lemma pick_winner_none cs : pick_winner cs = None ↔ cs = [].
Proof.
  destruct cs as [|c cs]; [done|]. unfold pick_winner; simpl.
  destruct (foldl_better_some cs c) as (w & -> & _). done.
Qed.

Lemma pick_winner_some cs w :
  pick_winner cs = Some w → w ∈ cs ∧ ∀ c, c ∈ cs → outranks w c.
Proof.
  destruct cs as [|c cs]; [done|]. unfold pick_winner; simpl.
  destruct (foldl_better_some cs c) as (w' & -> & Hw & Hc & Hall). intros [= <-].
  split; [destruct Hw as [->|]; [by left|by right]|].
  intros d [->|Hd]%elem_of_cons; auto.
Qed.

(** *** Floors *)

Lemma floor_strict e cap tier : strictness e <= strictness (applyAnnotationFloor e cap tier).1.
Proof. unfold applyAnnotationFloor. repeat case_match; bool_prop; simplify_eq/=; try lia; by destruct e. Qed.

Lemma floor_allow e cap tier :
  (applyAnnotationFloor e cap tier).1 = allow →
  e = allow ∧ (tier = first_party ∨
    annotation_is_true cap "readOnlyHint" = true ∧ annotation_is_true cap "destructiveHint" = false).
Proof.
  unfold applyAnnotationFloor. repeat case_match; bool_prop; simplify_eq/=; try done; auto.
Qed.

Lemma floor_tightened e cap tier : (applyAnnotationFloor e cap tier).2 = true → e = allow.
Proof. unfold applyAnnotationFloor. repeat case_match; bool_prop; simplify_eq/=; done. Qed.

(** *** Unfolding the decision once *)

(** The effect before the floors, when no rule denies. *)
Definition base_effect (input : PermissionInput) : PermissionEffect :=
  match pick_winner (collect_candidates input) with
  | Some w => r_effect (k_rule w)
  | None =>
      match pi_defaultEffect input, readsWithoutAsking (pi_capability input) (pi_trustTier input) with
      | ask, Some _ => allow
      | e, _ => e
      end
  end.

Lemma decide_effect input :
  d_effect (decidePermission input) =
  if isCapabilityUsable (pi_capability input) then
    if existsb is_deny (collect_candidates input) then deny
    else (applyAnnotationFloor (base_effect input) (pi_capability input) (pi_trustTier input)).1
  else deny.
Proof.
  unfold decidePermission, base_effect.
  destruct (isCapabilityUsable _) eqn:E.
  - apply usable_iff_not_blocked in E as ->.
    destruct (find is_deny _) as [c|] eqn:F.
    + apply find_some_elem in F as [Hc Hd].
      rewrite (proj2 (existsb_exists is_deny (collect_candidates input))); [done|].
      exists c. by rewrite <-list_elem_of_In.
    + rewrite (proj2 (existsb_false _ _)) by (by apply find_none_iff).
      destruct (pick_winner _) as [w|], (pi_defaultEffect input),
        (readsWithoutAsking (pi_capability input) (pi_trustTier input));
        by repeat case_match; simplify_eq/=.
  - destruct (capabilityBlockReason _) eqn:B; [done|].
    apply usable_iff_not_blocked in B. congruence.
Qed.

Lemma existsb_is_deny cs : existsb is_deny cs = true ↔ ∃ c, c ∈ cs ∧ r_effect (k_rule c) = deny.
Proof.
  rewrite existsb_exists. unfold is_deny.
  split; intros (c & Hc & Hd); exists c; (rewrite list_elem_of_In in * || rewrite <-list_elem_of_In in *);
    by rewrite bool_decide_eq_true in *.
Qed.

Lemma collect_add_policies input docs :
  collect_candidates (add_policies input docs) =
  collect_candidates input ++ flat_map (candidates_of_doc (add_policies input docs)) docs.
Proof. unfold collect_candidates. simpl. apply flat_map_app. Qed.

Lemma collect_drop_expired input :
  collect_candidates (drop_expired input) = collect_candidates input.
Proof.
  unfold collect_candidates. simpl. rewrite flat_map_concat_map, map_map, <-flat_map_concat_map.
  apply flat_map_ext. intros doc. unfold candidates_of_doc; simpl. f_equal.
  induction (pd_rules doc) as [|r rs IH]; simpl; [done|].
  unfold rule_applies at 2; simpl.
  destruct (rule_expired r (pi_now input)) eqn:E; simpl; [done|].
  unfold rule_applies at 1; simpl. rewrite E. by rewrite IH.
Qed.

(** ** Theorems *)

Lemma allow_no_deny input :
  d_effect (decidePermission input) = allow →
  isCapabilityUsable (pi_capability input) = true ∧
  ∀ c, c ∈ collect_candidates input → r_effect (k_rule c) ≠ deny.
Proof.
  rewrite decide_effect. destruct (isCapabilityUsable _) eqn:U; [|done].
  destruct (existsb is_deny _) eqn:D; [done|]. intros _. split; [done|].
  intros c Hc Hd. assert (existsb is_deny (collect_candidates input) = true); [|congruence].
  apply existsb_is_deny; eauto.
Qed.

(** A tool runs unasked only when its approval matches its current
    definition, no applicable rule of any scope denies it, and it is either
    first-party or says it only reads and is not destructive. *)
Theorem allow_is_earned input :
  d_effect (decidePermission input) = allow →
  isCapabilityUsable (pi_capability input) = true ∧
  (∀ c, c ∈ collect_candidates input → r_effect (k_rule c) ≠ deny) ∧
  (pi_trustTier input = first_party ∨
   annotation_is_true (pi_capability input) "readOnlyHint" = true ∧
   annotation_is_true (pi_capability input) "destructiveHint" = false).
Proof.
  intros Ha. destruct (allow_no_deny input Ha) as [Hu Hd]. split_and!; [done..|].
  rewrite decide_effect, Hu in Ha. destruct (existsb is_deny _); [done|]. by apply floor_allow in Ha as [_ ?].
Qed.

(** C2.  Deny is absolute: one applicable deny rule, whatever its priority,
    specificity or scope, makes the decision a denial that names such a rule. *)
Theorem deny_is_absolute input c :
  isCapabilityUsable (pi_capability input) = true →
  c ∈ collect_candidates input → r_effect (k_rule c) = deny →
  ∃ c', c' ∈ collect_candidates input ∧ r_effect (k_rule c') = deny ∧
    decidePermission input =
      {| d_effect := deny; d_matchedRuleId := Some (r_id (k_rule c'));
         d_reason := "policy:deny"; d_tightenedByFloor := false |}.
Proof.
  intros U%usable_iff_not_blocked Hc Hd. unfold decidePermission. rewrite U.
  destruct (find is_deny _) as [c'|] eqn:F.
  - apply find_some_elem in F as [Hc' Hd']. exists c'. unfold is_deny in Hd'. bool_prop. done.
  - exfalso. rewrite find_none_iff in F. specialize (F c Hc). unfold is_deny in F. bool_prop. done.
Qed.

(** When no applicable rule denies, the decision is the effect of one
    applicable rule that outranks every other by priority and then
    specificity, asking on an exact tie with an asking rule, raised by the
    annotation floor. *)
Theorem winner_outranks_all input :
  isCapabilityUsable (pi_capability input) = true →
  collect_candidates input ≠ [] →
  (∀ c, c ∈ collect_candidates input → r_effect (k_rule c) ≠ deny) →
  ∃ w, w ∈ collect_candidates input ∧
    (∀ c, c ∈ collect_candidates input → outranks w c) ∧
    d_matchedRuleId (decidePermission input) = Some (r_id (k_rule w)) ∧
    d_effect (decidePermission input) =
      (applyAnnotationFloor (r_effect (k_rule w)) (pi_capability input) (pi_trustTier input)).1.
Proof.
  intros U Hne Hnd. destruct (pick_winner (collect_candidates input)) as [w|] eqn:W;
    [|by apply pick_winner_none in W].
  destruct (pick_winner_some _ _ W) as [Hw Hall].
  exists w. split_and!; [done|done| |].
  - unfold decidePermission. rewrite (proj1 (usable_iff_not_blocked _) U).
    destruct (find is_deny _) as [c|] eqn:F.
    { apply find_some_elem in F as [Hc Hd]. unfold is_deny in Hd. bool_prop. by apply Hnd in Hd. }
    rewrite W. by destruct (applyAnnotationFloor _ _ _).
  - rewrite decide_effect, U. destruct (existsb is_deny _) eqn:D.
    + apply existsb_is_deny in D as (c & Hc & Hd). by apply Hnd in Hd.
    + unfold base_effect. by rewrite W.
Qed.

(** A rule past its end is as if it were not there. *)
Theorem expired_rules_are_silent input :
  decidePermission (drop_expired input) = decidePermission input.
Proof. unfold decidePermission. by rewrite collect_drop_expired. Qed.

(** No further policy document lifts a denial: whatever is added after
    the documents that deny a call, the call stays denied. *)
Theorem denial_survives_more_policy input docs :
  d_effect (decidePermission input) = deny →
  pi_defaultEffect input ≠ deny →
  d_effect (decidePermission (add_policies input docs)) = deny.
Proof.
  rewrite !decide_effect. simpl. destruct (isCapabilityUsable _); [|done].
  intros Hd Hdef.
  assert (existsb is_deny (collect_candidates input) = true) as HD.
  { destruct (existsb is_deny _) eqn:D; [done|]. exfalso.
    assert (base_effect input = deny) as Hb.
    { pose proof (floor_strict (base_effect input) (pi_capability input) (pi_trustTier input)).
      unfold applyAnnotationFloor in Hd. repeat case_match; bool_prop; simplify_eq/=; done. }
    unfold base_effect in Hb.
    destruct (pick_winner _) as [w|] eqn:W.
    - apply pick_winner_some in W as [Hw _].
      rewrite existsb_false in D. specialize (D w Hw). unfold is_deny in D. by bool_prop.
    - by destruct (pi_defaultEffect input); repeat case_match. }
  rewrite collect_add_policies, existsb_app, HD. done.
Qed.

(** Where a rule of the operator decides, nothing the server says about
    its tool makes the decision weaker than that rule. *)
Theorem annotations_never_loosen_a_rule input ann w :
  isCapabilityUsable (pi_capability input) = true →
  pick_winner (collect_candidates input) = Some w →
  strictness (r_effect (k_rule w)) <= strictness (d_effect (decidePermission (with_annotations input ann))).
Proof.
  intros U W. rewrite decide_effect.
  change (isCapabilityUsable (pi_capability (with_annotations input ann)))
    with (isCapabilityUsable (pi_capability input)).
  change (collect_candidates (with_annotations input ann)) with (collect_candidates input).
  rewrite U. destruct (existsb is_deny _).
  { by destruct (r_effect (k_rule w)). }
  unfold base_effect. change (collect_candidates (with_annotations input ann)) with (collect_candidates input).
  rewrite W. apply floor_strict.
Qed.

(** *** Concrete inputs *)

Definition ex_capability (ann : option (list (string * value))) : McpCapability := {|
  cap_id := "cap_1"; cap_workspaceId := "wks_1"; cap_bindingId := "mcb_1"; cap_scopeKey := "workspace";
  cap_kind := KTool; cap_name := "search"; cap_canonicalName := "mail__search";
  cap_title := None; cap_description := None; cap_inputSchema := None; cap_outputSchema := None;
  cap_annotations := ann; cap_definitionHash := "h1";
  cap_approval := {| ca_state := ap_approved; ca_definitionHash := "h1";
                     ca_approvedBy := None; ca_approvedAt := None |};
  cap_firstSeenAt := 0; cap_lastSeenAt := 0; cap_removedAt := None
|}.

Definition ex_rule (id pattern : string) (e : PermissionEffect) (priority : Z) (expires : option Z) : PolicyRule := {|
  r_id := id; r_bindingId := None; r_capabilityPattern := pattern; r_effect := e;
  r_priority := priority; r_constraints := None; r_expiresAt := expires
|}.

Definition ex_input (tier : TrustTier) (ann : option (list (string * value)))
    (rules : list PolicyRule) (def : PermissionEffect) : PermissionInput := {|
  pi_capability := ex_capability ann; pi_bindingId := "mcb_1"; pi_trustTier := tier; pi_args := VNull;
  pi_policies := [{| pd_id := "pol_1"; pd_workspaceId := "wks_1"; pd_scopeType := ps_workspace;
                     pd_scopeId := None; pd_rules := rules |}];
  pi_now := 1000; pi_defaultEffect := def; pi_callsThisRun := 0
|}.

Definition read_only_hint : option (list (string * value)) := Some [("readOnlyHint", VBool true)].

(** Under the shipped default of [ask], the hint of a verified server
    does loosen the outcome: the same tool asks when it says nothing and runs
    unasked when it declares itself read-only. *)
Theorem verified_hint_loosens_the_default :
  d_effect (decidePermission (ex_input verified None [] ask)) = ask ∧
  decidePermission (with_annotations (ex_input verified None [] ask) read_only_hint) =
    {| d_effect := allow; d_matchedRuleId := None; d_reason := "policy:default+read_only";
       d_tightenedByFloor := false |} ∧
  d_effect (decidePermission (with_annotations (ex_input community None [] ask) read_only_hint)) = ask.
Proof. by vm_compute. Qed.

Lemma allow_is_earned_witness :
  isCapabilityUsable (pi_capability (ex_input verified read_only_hint [] ask)) = true ∧
  (∀ c, c ∈ collect_candidates (ex_input verified read_only_hint [] ask) → r_effect (k_rule c) ≠ deny) ∧
  (verified = first_party ∨
   annotation_is_true (ex_capability read_only_hint) "readOnlyHint" = true ∧
   annotation_is_true (ex_capability read_only_hint) "destructiveHint" = false).
Proof. apply (allow_is_earned (ex_input verified read_only_hint [] ask)). reflexivity. Defined.

Definition ex_deny_input : PermissionInput :=
  ex_input first_party None [ex_rule "r1" "*" allow 100 None; ex_rule "r2" "sea*" deny 0 None] ask.

Lemma deny_is_absolute_witness :
  ∃ c', c' ∈ collect_candidates ex_deny_input ∧ r_effect (k_rule c') = deny ∧
    decidePermission ex_deny_input =
      {| d_effect := deny; d_matchedRuleId := Some (r_id (k_rule c'));
         d_reason := "policy:deny"; d_tightenedByFloor := false |}.
Proof.
  apply (deny_is_absolute ex_deny_input
    {| k_rule := ex_rule "r2" "sea*" deny 0 None; k_scope := ps_workspace; k_specificity := 100 |});
    [reflexivity| |reflexivity].
  apply list_elem_of_In. vm_compute. auto.
Defined.

Definition ex_rank_input : PermissionInput :=
  ex_input first_party None [ex_rule "r1" "*" allow 5 None; ex_rule "r2" "search" ask 5 None] deny.

Lemma winner_outranks_all_witness :
  ∃ w, w ∈ collect_candidates ex_rank_input ∧
    (∀ c, c ∈ collect_candidates ex_rank_input → outranks w c) ∧
    d_matchedRuleId (decidePermission ex_rank_input) = Some (r_id (k_rule w)) ∧
    d_effect (decidePermission ex_rank_input) =
      (applyAnnotationFloor (r_effect (k_rule w)) (ex_capability None) first_party).1.
Proof.
  apply (winner_outranks_all ex_rank_input); [reflexivity|done|].
  intros c Hc%list_elem_of_In. vm_compute in Hc. destruct Hc as [<-|[<-|[]]]; done.
Defined.

Lemma denial_survives_more_policy_witness :
  d_effect (decidePermission (add_policies ex_deny_input
    [{| pd_id := "pol_2"; pd_workspaceId := "wks_1"; pd_scopeType := ps_member; pd_scopeId := Some "usr_1";
        pd_rules := [ex_rule "r3" "search" allow 1000 None] |}])) = deny.
Proof. apply (denial_survives_more_policy ex_deny_input); [reflexivity|done]. Defined.

Lemma annotations_never_loosen_a_rule_witness :
  strictness ask <= strictness (d_effect (decidePermission (with_annotations ex_rank_input read_only_hint))).
Proof.
  apply (annotations_never_loosen_a_rule ex_rank_input read_only_hint
    {| k_rule := ex_rule "r2" "search" ask 5 None; k_scope := ps_workspace; k_specificity := 200 |});
    reflexivity.
Defined.
