(* ===== verification/Principal.v ===== *)
(** * Principals and delegated authority

    Models packages/core/src/entities/principal.ts: the roles and their
    permissions, the kinds of principal, and the grants an agent holds on
    behalf of whoever triggered it. *)
From S2P Require Import Prelude.

Inductive Role := owner | admin | member | viewer.
#[global] Instance Role_eq_dec : EqDecision Role.
Proof. solve_decision. Defined.

Definition ROLE_RANK (r : Role) : Z :=
  match r with viewer => 0 | member => 1 | admin => 2 | owner => 3 end.

Inductive Permission :=
| workspace_read | workspace_manage | workspace_delete
| members_read | members_manage
| agents_read | agents_write
| mcp_read | mcp_install | mcp_approve
| policies_read | policies_write
| credentials_read | credentials_write
| providers_read | providers_write
| conversations_read | conversations_write
| runs_read | runs_create | runs_cancel
| approvals_decide
| channels_read | channels_write
| knowledge_read | knowledge_write
| audit_read.
#[global] Instance Permission_eq_dec : EqDecision Permission.
Proof. solve_decision. Defined.

Definition VIEWER : list Permission :=
  [workspace_read; members_read; agents_read; mcp_read;
   policies_read; providers_read; conversations_read; runs_read;
   channels_read; knowledge_read].

Definition MEMBER : list Permission :=
  VIEWER ++ [conversations_write; runs_create; runs_cancel; approvals_decide; knowledge_write].

Definition ADMIN : list Permission :=
  MEMBER ++ [workspace_manage; members_manage; agents_write;
   mcp_install; mcp_approve; policies_write;
   credentials_read; credentials_write; providers_write; audit_read;
   channels_write].

Definition OWNER : list Permission := ADMIN ++ [workspace_delete].

Definition ROLE_PERMISSIONS (r : Role) : list Permission :=
  match r with viewer => VIEWER | member => MEMBER | admin => ADMIN | owner => OWNER end.

Inductive ChannelTrust := linked | unlinked.
Inductive SystemReason := sys_sweeper | sys_migration.

Inductive Principal :=
| PUser (userId workspaceId : string) (role : Role)
| PApiKey (apiKeyId workspaceId : string) (scopes : list Permission)
| PChannelIdentity (identityId workspaceId : string) (userId : option string) (trust : ChannelTrust)
| PAgent (agentId runId workspaceId : string) (onBehalfOf : Principal)
| PSystem (reason : SystemReason) (workspaceId : option string).

(** What an agent may ever do: act within a conversation, never administer. *)
Definition agentCeiling : list Permission :=
  [conversations_read; conversations_write; runs_read; runs_create;
   agents_read; mcp_read; providers_read; policies_read].

(** The cases of [directGrants] for a principal that is not an agent. *)
Definition grants_of_non_agent (p : Principal) : list Permission :=
  match p with
  | PUser _ _ role => ROLE_PERMISSIONS role
  | PApiKey _ _ scopes => scopes
  | PChannelIdentity _ _ _ linked => [conversations_read; conversations_write; runs_create; runs_read]
  | PChannelIdentity _ _ _ unlinked => [conversations_write; runs_create]
  | PAgent _ _ _ _ => []
  | PSystem _ _ => []
  end.

Fixpoint effectiveGrants (p : Principal) : list Permission :=
  match p with
  | PAgent _ _ _ onBehalfOf =>
      let delegated := effectiveGrants onBehalfOf in
      List.filter (λ perm, bool_decide (perm ∈ delegated)) agentCeiling
  | _ => grants_of_non_agent p
  end.

Definition directGrants (p : Principal) : list Permission :=
  match p with PAgent _ _ _ _ => effectiveGrants p | _ => grants_of_non_agent p end.

Definition hasPermission (p : Principal) (needed : Permission) : bool :=
  bool_decide (needed ∈ effectiveGrants p).

Fixpoint rootUserId (p : Principal) : option string :=
  match p with
  | PUser u _ _ => Some u
  | PChannelIdentity _ _ u _ => u
  | PAgent _ _ _ q => rootUserId q
  | _ => None
  end.

Definition workspaceOf (p : Principal) : option string :=
  match p with
  | PUser _ w _ | PApiKey _ w _ | PChannelIdentity _ w _ _ | PAgent _ _ w _ => Some w
  | PSystem _ w => w
  end.

(** ** Delegation chains *)

(** [acts_for p q]: [p] acts, through any number of agents, for [q]. *)
Inductive acts_for : Principal → Principal → Prop :=
| acts_for_self p : acts_for p p
| acts_for_agent a r w p q : acts_for p q → acts_for (PAgent a r w p) q.

Definition is_agent (p : Principal) : bool :=
  match p with PAgent _ _ _ _ => true | _ => false end.

(** ** Facts *)

Lemma agent_grants a r w p perm :
  perm ∈ effectiveGrants (PAgent a r w p) ↔ perm ∈ agentCeiling ∧ perm ∈ effectiveGrants p.
Proof.
  cbn [effectiveGrants]. rewrite !list_elem_of_In, filter_In, bool_decide_eq_true.
  by rewrite list_elem_of_In.
Qed.

Lemma effective_is_direct p : effectiveGrants p = directGrants p.
Proof. by destruct p. Qed.

(** Anti-escalation: at any delegation depth an agent holds a permission
    only if every principal behind it holds it too, and only if it lies under
    the agents' ceiling. *)
Theorem delegation_never_escalates p q perm :
  acts_for p q → hasPermission p perm = true →
  hasPermission q perm = true ∧ (is_agent p = true → perm ∈ agentCeiling).
Proof.
  unfold hasPermission. intros Hact. rewrite !bool_decide_eq_true.
  induction Hact as [p|a r w p q _ IH]; intros Hp.
  - split; [done|]. destruct p; try done. by apply agent_grants in Hp as [? _].
  - apply agent_grants in Hp as [Hc Hp]. split; [by apply IH|done].
Qed.

Lemma delegation_never_escalates_witness :
  hasPermission (PUser "usr_1" "wks_1" viewer) conversations_read = true ∧
  (true = true → conversations_read ∈ agentCeiling).
Proof.
  apply (delegation_never_escalates
    (PAgent "agt_1" "run_1" "wks_1" (PAgent "agt_2" "run_2" "wks_1" (PUser "usr_1" "wks_1" viewer)))
    (PUser "usr_1" "wks_1" viewer) conversations_read).
  - repeat constructor.
  - reflexivity.
Defined.

(** An agent's grants are exactly its ceiling cut down to what its caller
    holds: nothing conversational is lost, nothing administrative is gained. *)
Theorem agent_grants_are_the_intersection a r w p perm :
  hasPermission (PAgent a r w p) perm = true ↔
  perm ∈ agentCeiling ∧ hasPermission p perm = true.
Proof. unfold hasPermission. by rewrite !bool_decide_eq_true, agent_grants. Qed.

Lemma list_subset_dec_true {A} `{EqDecision A} (l k : list A) :
  forallb (λ x, bool_decide (x ∈ k)) l = true → ∀ x, x ∈ l → x ∈ k.
Proof. rewrite forallb_true. intros H x Hx. specialize (H x Hx). by bool_prop. Qed.

(** Roles are ordered: a role of higher rank holds every permission of a
    role of lower rank, and only the owner may delete the workspace. *)
Theorem roles_are_monotone r1 r2 perm :
  ROLE_RANK r1 <= ROLE_RANK r2 → perm ∈ ROLE_PERMISSIONS r1 →
  perm ∈ ROLE_PERMISSIONS r2 ∧ (perm = workspace_delete → r2 = owner).
Proof.
  intros Hr Hp. split.
  - revert Hp. apply list_subset_dec_true.
    destruct r1, r2; try (by vm_compute in Hr); by vm_compute.
  - intros ->. destruct r1;
      try (exfalso; revert Hp; apply (bool_decide_eq_false_1 _); by vm_compute).
    destruct r2; simpl in Hr; lia || done.
Qed.

Lemma roles_are_monotone_witness :
  runs_create ∈ ROLE_PERMISSIONS admin ∧ (runs_create = workspace_delete → admin = owner).
Proof.
  apply (roles_are_monotone member admin); [by vm_compute|].
  apply list_elem_of_In; vm_compute; tauto.
Defined.
