(* ===== verification/Budget.v ===== *)
(** * Budgets, the budget meter, and the timeout chain

    Models packages/core/src/policy/budget.ts and timeouts.ts, and
    packages/runtime/src/budget-meter.ts and deadline.ts.  A clock is passed
    to every operation that reads it. *)
From S2P Require Import Prelude Entities.

(** ** Budget checks (core/policy/budget.ts) *)

Inductive BudgetBreach := max_steps | max_tool_calls | max_tokens | max_wall_clock | max_cost.
#[global] Instance BudgetBreach_eq_dec : EqDecision BudgetBreach.
Proof. solve_decision. Defined.

Definition checkBudget (budget : RunBudget) (consumed : RunConsumption) : option BudgetBreach :=
  if maxSteps budget <=? c_steps consumed then Some max_steps
  else if maxToolCalls budget <=? c_toolCalls consumed then Some max_tool_calls
  else if maxTotalTokens budget <=? c_tokens consumed then Some max_tokens
  else if maxWallClockMs budget <=? c_wallClockMs consumed then Some max_wall_clock
  else if Qle_bool (maxCostUsd budget) (c_costUsd consumed) then Some max_cost
  else None.

Record Remaining := {
  rem_steps : Z; rem_toolCalls : Z; rem_tokens : Z; rem_wallClockMs : Z; rem_costUsd : Q;
}.

Definition Qmax0 (q : Q) : Q := if Qle_bool 0 q then q else 0.

Definition budgetRemaining (budget : RunBudget) (consumed : RunConsumption) : Remaining := {|
  rem_steps := Z.max 0 (maxSteps budget - c_steps consumed);
  rem_toolCalls := Z.max 0 (maxToolCalls budget - c_toolCalls consumed);
  rem_tokens := Z.max 0 (maxTotalTokens budget - c_tokens consumed);
  rem_wallClockMs := Z.max 0 (maxWallClockMs budget - c_wallClockMs consumed);
  rem_costUsd := Qmax0 (maxCostUsd budget - c_costUsd consumed)
|}.

Record ModelRates := {
  inputPerMTok : Q;
  outputPerMTok : Q;
  cacheReadPerMTok : option Q;
  cacheWritePerMTok : option Q;
}.

Definition computeCostUsd (usage : Usage) (rates : ModelRates) : Q :=
  let cacheRead := default (inputPerMTok rates) (cacheReadPerMTok rates) in
  let cacheWrite := default (inputPerMTok rates) (cacheWritePerMTok rates) in
  ((inject_Z (inputTokens usage) * inputPerMTok rates +
    inject_Z (outputTokens usage) * outputPerMTok rates +
    inject_Z (cacheReadTokens usage) * cacheRead +
    inject_Z (cacheWriteTokens usage) * cacheWrite) / inject_Z 1000000)%Q.

(** A value of type [number] in a parsed request. *)
Inductive js_number (A : Type) := JFinite (a : A) | JNaN | JPosInfinity | JNegInfinity.
Arguments JFinite {A} a.
Arguments JNaN {A}.
Arguments JPosInfinity {A}.
Arguments JNegInfinity {A}.

(** Every field optional; [None] is an absent or [undefined] field. *)
Record RequestedBudget := {
  rq_maxSteps : option (js_number Z);
  rq_maxToolCalls : option (js_number Z);
  rq_maxTotalTokens : option (js_number Z);
  rq_maxWallClockMs : option (js_number Z);
  rq_maxCostUsd : option (js_number Q);
  rq_maxMrtrRounds : option (js_number Z);
  rq_maxSubagentDepth : option (js_number Z);
}.

(** The local [pick] of [clampBudget]. *)
Definition pick {A} (zero : A) (leb : A → A → bool) (v : option (js_number A)) (ceiling : A) : A :=
  match v with
  | Some (JFinite a) => if leb zero a then (if leb a ceiling then a else ceiling) else ceiling
  | _ => ceiling
  end.

Definition clampBudget (requested : option RequestedBudget) (ceiling : RunBudget) : RunBudget :=
  let get {A} (f : RequestedBudget → option A) : option A := r ← requested; f r in
  {|
    maxSteps := pick 0 Z.leb (get rq_maxSteps) (maxSteps ceiling);
    maxToolCalls := pick 0 Z.leb (get rq_maxToolCalls) (maxToolCalls ceiling);
    maxTotalTokens := pick 0 Z.leb (get rq_maxTotalTokens) (maxTotalTokens ceiling);
    maxWallClockMs := pick 0 Z.leb (get rq_maxWallClockMs) (maxWallClockMs ceiling);
    maxCostUsd := pick 0%Q Qle_bool (get rq_maxCostUsd) (maxCostUsd ceiling);
    maxMrtrRounds := pick 0 Z.leb (get rq_maxMrtrRounds) (maxMrtrRounds ceiling);
    maxSubagentDepth := pick 0 Z.leb (get rq_maxSubagentDepth) (maxSubagentDepth ceiling)
  |}.

(** ** Timeouts (core/policy/timeouts.ts, runtime/deadline.ts) *)

Definition DEFAULT_RESERVE_MS : Z := 45000.
Definition DEFAULT_TOOL_TIMEOUT_MS : Z := 30000.
Definition MAX_TOOL_TIMEOUT_MS : Z := 30000.

Inductive TimeoutError := reserve_leaves_no_room | tool_outlasts_reserve.

Definition assertTimeoutBudget (sliceMs reserveMs : Z) : outcome TimeoutError unit :=
  if sliceMs <=? reserveMs then Throw reserve_leaves_no_room
  else if reserveMs <=? MAX_TOOL_TIMEOUT_MS then Throw tool_outlasts_reserve
  else Ret ().

Definition assertReserveFits (sliceMs reserveMs : Z) : outcome TimeoutError unit :=
  assertTimeoutBudget sliceMs reserveMs.

(** [WallClockDeadline]: the instant it ends at. *)
Record WallClockDeadline := { dl_endsAt : Z }.

Definition new_deadline (now totalMs : Z) : WallClockDeadline := {| dl_endsAt := now + totalMs |}.
Definition remainingMs (d : WallClockDeadline) (now : Z) : Z := Z.max 0 (dl_endsAt d - now).
Definition deadline_expired (d : WallClockDeadline) (now reserveMs : Z) : bool :=
  remainingMs d now <=? reserveMs.

(** ** The meter (runtime/budget-meter.ts) *)

Record BudgetMeter := {
  bm_budget : RunBudget;
  bm_rates : option ModelRates;
  bm_sliceStartedAt : Z;
  bm_priorWallClockMs : Z;
  bm_steps : Z;
  bm_toolCalls : Z;
  bm_tokens : Z;
  bm_costUsd : Q;
  bm_mrtrRounds : Z;
  bm_usage : Usage;
}.

(** The constructor. *)
Definition new_meter (now : Z) (budget : RunBudget) (consumed : RunConsumption)
    (rates : option ModelRates) : BudgetMeter := {|
  bm_budget := budget; bm_rates := rates; bm_sliceStartedAt := now;
  bm_priorWallClockMs := c_wallClockMs consumed;
  bm_steps := c_steps consumed; bm_toolCalls := c_toolCalls consumed;
  bm_tokens := c_tokens consumed; bm_costUsd := c_costUsd consumed;
  bm_mrtrRounds := 0; bm_usage := emptyUsage
|}.

Definition meter_consumed (m : BudgetMeter) (now : Z) : RunConsumption := {|
  c_steps := bm_steps m; c_toolCalls := bm_toolCalls m; c_tokens := bm_tokens m;
  c_wallClockMs := bm_priorWallClockMs m + (now - bm_sliceStartedAt m);
  c_costUsd := bm_costUsd m
|}.

Definition meter_remaining (m : BudgetMeter) (now : Z) : Remaining :=
  budgetRemaining (bm_budget m) (meter_consumed m now).

Record BudgetVerdict := { v_ok : bool; v_breach : option BudgetBreach; v_message : option string }.

Definition verdict_ok : BudgetVerdict := {| v_ok := true; v_breach := None; v_message := None |}.

Definition EXPLANATIONS (b : BudgetBreach) : string :=
  match b with
  | max_steps => "the step limit for this run was reached"
  | max_tool_calls => "the tool-call limit for this run was reached"
  | max_tokens => "the token budget for this run was exhausted"
  | max_wall_clock => "this run ran for longer than its time budget allows"
  | max_cost => "the cost budget for this run was exhausted"
  end.

Definition meter_check (m : BudgetMeter) (now : Z) : BudgetVerdict :=
  match checkBudget (bm_budget m) (meter_consumed m now) with
  | None => verdict_ok
  | Some breach => {| v_ok := false; v_breach := Some breach; v_message := Some (EXPLANATIONS breach) |}
  end.

Definition checkToolPhase (m : BudgetMeter) (now callCount : Z) : BudgetVerdict :=
  let first := meter_check m now in
  if negb (v_ok first) then first
  else if maxToolCalls (bm_budget m) <? bm_toolCalls m + callCount then
    {| v_ok := false; v_breach := Some max_tool_calls;
       v_message := Some ("this turn needs " +:+ pretty callCount +:+ " tool calls but only " +:+
         pretty (Z.max 0 (maxToolCalls (bm_budget m) - bm_toolCalls m)) +:+
         " remain in the run's budget") |}
  else verdict_ok.

Definition recordStep (m : BudgetMeter) : BudgetMeter := {|
  bm_budget := bm_budget m; bm_rates := bm_rates m; bm_sliceStartedAt := bm_sliceStartedAt m;
  bm_priorWallClockMs := bm_priorWallClockMs m; bm_steps := bm_steps m + 1;
  bm_toolCalls := bm_toolCalls m; bm_tokens := bm_tokens m; bm_costUsd := bm_costUsd m;
  bm_mrtrRounds := bm_mrtrRounds m; bm_usage := bm_usage m
|}.

Definition recordToolCalls (m : BudgetMeter) (count : Z) : BudgetMeter := {|
  bm_budget := bm_budget m; bm_rates := bm_rates m; bm_sliceStartedAt := bm_sliceStartedAt m;
  bm_priorWallClockMs := bm_priorWallClockMs m; bm_steps := bm_steps m;
  bm_toolCalls := bm_toolCalls m + count; bm_tokens := bm_tokens m; bm_costUsd := bm_costUsd m;
  bm_mrtrRounds := bm_mrtrRounds m; bm_usage := bm_usage m
|}.

Definition recordMrtrRounds (m : BudgetMeter) (rounds : Z) : BudgetMeter := {|
  bm_budget := bm_budget m; bm_rates := bm_rates m; bm_sliceStartedAt := bm_sliceStartedAt m;
  bm_priorWallClockMs := bm_priorWallClockMs m; bm_steps := bm_steps m;
  bm_toolCalls := bm_toolCalls m; bm_tokens := bm_tokens m; bm_costUsd := bm_costUsd m;
  bm_mrtrRounds := bm_mrtrRounds m + rounds; bm_usage := bm_usage m
|}.

Definition mrtrRoundsExhausted (m : BudgetMeter) : bool :=
  maxMrtrRounds (bm_budget m) <=? bm_mrtrRounds m.

Definition recordUsage (m : BudgetMeter) (u : Usage) : BudgetMeter := {|
  bm_budget := bm_budget m; bm_rates := bm_rates m; bm_sliceStartedAt := bm_sliceStartedAt m;
  bm_priorWallClockMs := bm_priorWallClockMs m; bm_steps := bm_steps m;
  bm_toolCalls := bm_toolCalls m;
  bm_tokens := bm_tokens m + (inputTokens u + outputTokens u);
  bm_costUsd := match bm_rates m with
                | Some rates => bm_costUsd m + computeCostUsd u rates
                | None => bm_costUsd m
                end;
  bm_mrtrRounds := bm_mrtrRounds m; bm_usage := addUsage (bm_usage m) u
|}.

Definition maxOutputTokensFor (m : BudgetMeter) (now requested : Z) : Z :=
  Z.max 0 (Z.min requested (rem_tokens (meter_remaining m now))).

(** ** Consumption up to the value of its cost

    Costs are rationals, so two consumptions that agree are equal as numbers
    and not necessarily as fractions. *)

Definition consumption_eq (a b : RunConsumption) : Prop :=
  c_steps a = c_steps b ∧ c_toolCalls a = c_toolCalls b ∧ c_tokens a = c_tokens b ∧
  c_wallClockMs a = c_wallClockMs b ∧ (c_costUsd a == c_costUsd b)%Q.

#[global] Instance consumption_eq_equiv : Equivalence consumption_eq.
Proof.
  split.
  - by intros a.
  - intros a b (? & ? & ? & ? & Hq). unfold consumption_eq. by rewrite Hq.
  - intros a b c (? & ? & ? & ? & Hq) (? & ? & ? & ? & Hq').
    unfold consumption_eq. rewrite Hq. repeat split; congruence || done.
Qed.

#[global] Instance checkBudget_proper budget : Proper (consumption_eq ==> eq) (checkBudget budget).
Proof.
  intros a b (H1 & H2 & H3 & H4 & H5). unfold checkBudget. rewrite H1, H2, H3, H4.
  assert (Qle_bool (maxCostUsd budget) (c_costUsd a) = Qle_bool (maxCostUsd budget) (c_costUsd b)) as ->; [|done].
  apply Qleb_comp; [reflexivity|done].
Qed.

(** ** Theorems *)

(** Whether a consumption stays strictly under every limit. *)
Definition within_budget (b : RunBudget) (c : RunConsumption) : Prop :=
  c_steps c < maxSteps b ∧ c_toolCalls c < maxToolCalls b ∧ c_tokens c < maxTotalTokens b ∧
  c_wallClockMs c < maxWallClockMs b ∧ (c_costUsd c < maxCostUsd b)%Q.

Lemma Qle_bool_false a b : Qle_bool a b = false ↔ (b < a)%Q.
Proof.
  rewrite <-not_true_iff_false, Qle_bool_iff. split; [apply Qnot_le_lt|apply Qlt_not_le].
Qed.

(** The budget check lets a step start exactly when all five counters are
    strictly below their limits, and otherwise names a limit that was reached. *)
Theorem checkBudget_spec b c :
  match checkBudget b c with
  | None => within_budget b c
  | Some max_steps => maxSteps b <= c_steps c
  | Some max_tool_calls => maxToolCalls b <= c_toolCalls c
  | Some max_tokens => maxTotalTokens b <= c_tokens c
  | Some max_wall_clock => maxWallClockMs b <= c_wallClockMs c
  | Some max_cost => (maxCostUsd b <= c_costUsd c)%Q
  end.
Proof.
  unfold checkBudget, within_budget. repeat case_match; bool_prop; try done.
  - by apply Qle_bool_iff.
  - by rewrite <-Qle_bool_false.
Qed.

Lemma pick_Z_le v ceiling : pick 0 Z.leb v ceiling <= ceiling.
Proof. unfold pick. repeat case_match; bool_prop; lia. Qed.

Lemma pick_Q_le v ceiling : (pick 0 Qle_bool v ceiling <= ceiling)%Q.
Proof.
  unfold pick. repeat case_match; try apply Qle_refl. by apply Qle_bool_iff.
Qed.

Lemma pick_Z_nonneg v ceiling : 0 <= ceiling → 0 <= pick 0 Z.leb v ceiling.
Proof. unfold pick. repeat case_match; bool_prop; lia. Qed.

(** A budget none of whose limits is above another's. *)
Definition budget_le (a b : RunBudget) : Prop :=
  maxSteps a <= maxSteps b ∧ maxToolCalls a <= maxToolCalls b ∧
  maxTotalTokens a <= maxTotalTokens b ∧ maxWallClockMs a <= maxWallClockMs b ∧
  (maxCostUsd a <= maxCostUsd b)%Q ∧ maxMrtrRounds a <= maxMrtrRounds b ∧
  maxSubagentDepth a <= maxSubagentDepth b.

Lemma clamped_le requested ceiling : budget_le (clampBudget requested ceiling) ceiling.
Proof. repeat split; simpl; first [apply pick_Z_le|apply pick_Q_le]. Qed.

(** A caller can lower a budget and never raise it: whatever is asked
    for, an absent field, a negative number, NaN and the infinities included,
    no limit of the clamped budget exceeds the ceiling's, and a run the
    clamped budget admits is one the ceiling admits. *)
Theorem clampBudget_never_exceeds requested ceiling :
  budget_le (clampBudget requested ceiling) ceiling ∧
  (∀ c, checkBudget (clampBudget requested ceiling) c = None → checkBudget ceiling c = None).
Proof.
  pose proof (clamped_le requested ceiling) as Hle. split; [done|]. intros c Hc.
  pose proof (checkBudget_spec (clampBudget requested ceiling) c) as Hs. rewrite Hc in Hs.
  pose proof (checkBudget_spec ceiling c) as Hs'.
  destruct Hle as (? & ? & ? & ? & Hq & _), Hs as (? & ? & ? & ? & Hq').
  destruct (checkBudget ceiling c) as [[]|]; try done; exfalso; try lia.
  apply (Qlt_not_le _ _ Hq'). by eapply Qle_trans.
Qed.

(** A tool phase is weighed whole: when the meter admits [n] calls, the
    run was within every limit and still is within its tool-call limit after
    all of them are recorded. *)
Theorem checkToolPhase_admits_whole_phase m now n :
  v_ok (checkToolPhase m now n) = true →
  within_budget (bm_budget m) (meter_consumed m now) ∧
  bm_toolCalls (recordToolCalls m n) <= maxToolCalls (bm_budget m).
Proof.
  unfold checkToolPhase, meter_check. simpl.
  pose proof (checkBudget_spec (bm_budget m) (meter_consumed m now)) as Hs.
  destruct (checkBudget _ _); simpl; [done|].
  case_match; bool_prop; [done|]. intros _. split; [done|lia].
Qed.

(** Folding the usage of several model calls into a meter. *)
Definition recordUsages (m : BudgetMeter) (us : list Usage) : BudgetMeter := foldl recordUsage m us.

Definition sum_tokens (us : list Usage) : Z :=
  foldr (λ u acc, inputTokens u + outputTokens u + acc) 0 us.

Definition sum_cost (rates : option ModelRates) (us : list Usage) : Q :=
  match rates with
  | Some r => foldr (λ u acc, computeCostUsd u r + acc)%Q 0%Q us
  | None => 0
  end.

Lemma recordUsages_rates m us : bm_rates (recordUsages m us) = bm_rates m.
Proof. revert m; induction us as [|u us IH]; intros m; simpl; [done|]. unfold recordUsages in *; simpl. by rewrite IH. Qed.

(** A meter kept across model calls reports exactly what they used: the
    tokens and the cost of all of them on top of what the run had consumed. *)
Theorem meter_accumulates m us now :
  consumption_eq (meter_consumed (recordUsages m us) now)
    {| c_steps := bm_steps m; c_toolCalls := bm_toolCalls m;
       c_tokens := bm_tokens m + sum_tokens us;
       c_wallClockMs := bm_priorWallClockMs m + (now - bm_sliceStartedAt m);
       c_costUsd := (bm_costUsd m + sum_cost (bm_rates m) us)%Q |}.
Proof.
  revert m. induction us as [|u us IH]; intros m.
  - unfold consumption_eq; simpl. repeat split; try lia.
    destruct (bm_rates m); simpl; lra.
  - change (recordUsages m (u :: us)) with (recordUsages (recordUsage m u) us).
    rewrite IH. unfold consumption_eq; simpl. repeat split; try lia.
    destruct (bm_rates m); simpl; lra.
Qed.

Lemma checkToolPhase_admits_whole_phase_witness :
  within_budget DEFAULT_BUDGET (meter_consumed (new_meter 0 DEFAULT_BUDGET emptyConsumption None) 10) ∧
  bm_toolCalls (recordToolCalls (new_meter 0 DEFAULT_BUDGET emptyConsumption None) 48) <= 48.
Proof.
  apply (checkToolPhase_admits_whole_phase (new_meter 0 DEFAULT_BUDGET emptyConsumption None) 10 48).
  reflexivity.
Defined.

(** The timeout chain: when the composition root accepts a slice and a
    reserve, a tool call started before the slice counts as expired ends
    before the slice does, even if it runs to the tool ceiling. *)
Theorem tool_call_fits_in_slice start sliceMs reserveMs now :
  assertReserveFits sliceMs reserveMs = Ret () →
  deadline_expired (new_deadline start sliceMs) now reserveMs = false →
  now + MAX_TOOL_TIMEOUT_MS < dl_endsAt (new_deadline start sliceMs).
Proof.
  unfold assertReserveFits, assertTimeoutBudget, deadline_expired, remainingMs; simpl.
  repeat case_match; bool_prop; try done. intros _ ?. bool_prop. unfold MAX_TOOL_TIMEOUT_MS in *. lia.
Qed.

Lemma tool_call_fits_in_slice_witness : 200000 + MAX_TOOL_TIMEOUT_MS < 300000.
Proof. apply (tool_call_fits_in_slice 0 300000 DEFAULT_RESERVE_MS 200000); reflexivity. Defined.
