(* ===== verification/Mongo.v ===== *)
(** * What the program relies on of a MongoDB collection

    The driver and the server are not part of the sources.  The operations the
    repositories call are the fields of the class [Collection]; the documented
    behaviour they rely on is the class [CollectionLaws]: updates of one
    document are atomic, [findOneAndUpdate] takes the first match of the
    requested sort, [find] returns the sorted matches up to the limit, and an
    insert is refused when a unique index already holds its key.  An upsert
    that matches several documents updates one of them.  A finite map is an
    instance, so the laws can hold. *)
From S2P Require Import Prelude.

(** A filter on the fields of a document and a sort order ("comes no later"). *)
Definition Filter (D : Type) := D → bool.
Definition SortLe (D : Type) := D → D → bool.

Class Collection (D C : Type) := {
  docs : C → gmap string D;
  (** [updateOne({_id, ...filter}, update)]: [matchedCount === 1]. *)
  updateOne : string → Filter D → (D → D) → C → bool * C;
  (** [findOneAndUpdate(filter, update, { sort })]: the document before the update. *)
  findOneAndUpdate : Filter D → SortLe D → (D → D) → C → option (string * D) * C;
  (** [find(filter, { sort, limit }).toArray()]. *)
  find_docs : Filter D → SortLe D → nat → C → list (string * D);
  (** [insertOne] under the unique indexes, given by when two documents clash;
      [false] is a duplicate-key error. *)
  insertOne : (D → D → bool) → string → D → C → bool * C;
  (** [updateOne(filter, update, { upsert: true })] with a pipeline, which sees
      the document as it was, or nothing; the id is for the new document. *)
  upsertOne : Filter D → string → (option D → D) → C → C;
  (** [updateMany(filter, update)]: [matchedCount]. *)
  updateMany : Filter D → (D → D) → C → Z * C;
  (** [deleteOne({_id, ...filter})] and [deleteMany(filter)]: [deletedCount]. *)
  deleteOne : string → Filter D → C → bool * C;
  deleteMany : Filter D → C → Z * C;
}.

(** The documents a filter selects. *)
Definition selected {D} (p : Filter D) (m : gmap string D) : gmap string D := filter (λ kd, p kd.2 = true) m.

(** A total preorder, as every sort specification of the sources is. *)
Class SortOrder {D} (le : SortLe D) : Prop := {
  sort_total : ∀ a b, le a b = false → le b a = true;
  sort_trans : ∀ a b c, le a b = true → le b c = true → le a c = true;
}.

Class CollectionLaws (D C : Type) `{Collection D C} : Prop := {
  updateOne_hit id p f (c : C) d :
    docs c !! id = Some d → p d = true →
    (updateOne id p f c).1 = true ∧ docs (updateOne id p f c).2 = <[id := f d]> (docs c);
  updateOne_miss id p f (c : C) :
    (∀ d, docs c !! id = Some d → p d = false) →
    (updateOne id p f c).1 = false ∧ docs (updateOne id p f c).2 = docs c;
  findOneAndUpdate_hit p le f (c c' : C) id d :
    SortOrder le →
    findOneAndUpdate p le f c = (Some (id, d), c') →
    docs c !! id = Some d ∧ p d = true ∧
    (∀ id' d', docs c !! id' = Some d' → p d' = true → le d d' = true) ∧
    docs c' = <[id := f d]> (docs c);
  findOneAndUpdate_miss p le f (c c' : C) :
    SortOrder le →
    findOneAndUpdate p le f c = (None, c') →
    (∀ id d, docs c !! id = Some d → p d = false) ∧ docs c' = docs c;
  find_docs_sound p le limit (c : C) id d :
    SortOrder le →
    (id, d) ∈ find_docs p le limit c → docs c !! id = Some d ∧ p d = true;
  find_docs_nodup p le limit (c : C) :
    SortOrder le → NoDup (find_docs p le limit c).*1;
  find_docs_limit p le limit (c : C) :
    SortOrder le → (length (find_docs p le limit c) <= limit)%nat;
  find_docs_complete p le limit (c : C) id d :
    SortOrder le →
    docs c !! id = Some d → p d = true →
    (id, d) ∈ find_docs p le limit c ∨
    length (find_docs p le limit c) = limit ∧
    ∀ id' d', (id', d') ∈ find_docs p le limit c → le d' d = true;
  find_docs_sorted p le limit (c : C) :
    SortOrder le → StronglySorted (λ a b, le a.2 b.2 = true) (find_docs p le limit c);
  insertOne_ok clash id d (c : C) :
    docs c !! id = None →
    (∀ id' d', docs c !! id' = Some d' → clash d d' = false) →
    (insertOne clash id d c).1 = true ∧ docs (insertOne clash id d c).2 = <[id := d]> (docs c);
  insertOne_dup clash id d (c : C) :
    (is_Some (docs c !! id) ∨ ∃ id' d', docs c !! id' = Some d' ∧ clash d d' = true) →
    (insertOne clash id d c).1 = false ∧ docs (insertOne clash id d c).2 = docs c;
  upsertOne_hit p new f (c : C) id d :
    docs c !! id = Some d → p d = true →
    ∃ id' d', docs c !! id' = Some d' ∧ p d' = true ∧ docs (upsertOne p new f c) = <[id' := f (Some d')]> (docs c);
  upsertOne_miss p new f (c : C) :
    (∀ id d, docs c !! id = Some d → p d = false) → docs c !! new = None →
    docs (upsertOne p new f c) = <[new := f None]> (docs c);
  updateMany_docs p f (c : C) :
    (updateMany p f c).1 = Z.of_nat (size (selected p (docs c))) ∧
    docs (updateMany p f c).2 = (λ d, if p d then f d else d) <$> docs c;
  deleteOne_hit id p (c : C) d :
    docs c !! id = Some d → p d = true →
    (deleteOne id p c).1 = true ∧ docs (deleteOne id p c).2 = delete id (docs c);
  deleteOne_miss id p (c : C) :
    (∀ d, docs c !! id = Some d → p d = false) →
    (deleteOne id p c).1 = false ∧ docs (deleteOne id p c).2 = docs c;
  deleteMany_docs p (c : C) :
    (deleteMany p c).1 = Z.of_nat (size (selected p (docs c))) ∧
    docs (deleteMany p c).2 = selected (λ d, negb (p d)) (docs c);
}.

(** ** The finite-map instance *)

Section MapCollection.
Context {D : Type}.

Definition map_matches (p : Filter D) (c : gmap string D) : list (string * D) :=
  List.filter (λ kd, p kd.2) (map_to_list c).

Definition map_sorted (p : Filter D) (le : SortLe D) (c : gmap string D) : list (string * D) :=
  stable_sort (λ a b, le a.2 b.2) (map_matches p c).

#[global] Instance map_collection : Collection D (gmap string D) := {
  docs c := c;
  updateOne id p f c :=
    match c !! id with
    | Some d => if p d then (true, <[id := f d]> c) else (false, c)
    | None => (false, c)
    end;
  findOneAndUpdate p le f c :=
    match map_sorted p le c with
    | [] => (None, c)
    | (id, d) :: _ => (Some (id, d), <[id := f d]> c)
    end;
  find_docs p le limit c := take limit (map_sorted p le c);
  insertOne clash id d c :=
    match c !! id with
    | Some _ => (false, c)
    | None =>
        if existsb (λ kd, clash d kd.2) (map_to_list c) then (false, c) else (true, <[id := d]> c)
    end;
  upsertOne p new f c :=
    match map_matches p c with
    | [] => <[new := f None]> c
    | (id, d) :: _ => <[id := f (Some d)]> c
    end;
  updateMany p f c := (Z.of_nat (size (selected p c)), (λ d, if p d then f d else d) <$> c);
  deleteOne id p c :=
    match c !! id with
    | Some d => if p d then (true, delete id c) else (false, c)
    | None => (false, c)
    end;
  deleteMany p c := (Z.of_nat (size (selected p c)), selected (λ d, negb (p d)) c);
}.

Lemma elem_of_map_matches p (c : gmap string D) id d :
  (id, d) ∈ map_matches p c ↔ c !! id = Some d ∧ p d = true.
Proof.
  unfold map_matches. rewrite list_elem_of_In, filter_In, <-list_elem_of_In, elem_of_map_to_list. done.
Qed.

Lemma elem_of_map_sorted p le (c : gmap string D) id d :
  (id, d) ∈ map_sorted p le c ↔ c !! id = Some d ∧ p d = true.
Proof.
  unfold map_sorted, map_matches. rewrite elem_of_stable_sort, list_elem_of_In, filter_In.
  rewrite <-list_elem_of_In, elem_of_map_to_list. done.
Qed.

Lemma map_sorted_NoDup p le (c : gmap string D) : NoDup (map_sorted p le c).*1.
Proof. unfold map_sorted. rewrite stable_sort_perm. apply (NoDup_map_filter fst), NoDup_fst_map_to_list. Qed.

Lemma map_sorted_strong p le (c : gmap string D) :
  SortOrder le → StronglySorted (λ a b, le a.2 b.2 = true) (map_sorted p le c).
Proof.
  intros Hle. apply Sorted_StronglySorted.
  - intros a b d. apply sort_trans.
  - apply (stable_sort_sorted (λ a b : string * D, le a.2 b.2)). intros a b. apply sort_total.
Qed.

Lemma StronglySorted_take_drop {A} (R : A → A → Prop) n l x y :
  StronglySorted R l → x ∈ take n l → y ∈ drop n l → R x y.
Proof.
  revert n. induction l as [|a l IH]; intros n Hs Hx Hy.
  { rewrite take_nil in Hx. by apply elem_of_nil in Hx. }
  destruct n as [|n]; simpl in *; [by apply elem_of_nil in Hx|].
  inversion Hs as [|? ? Hs' Hf]; subst. rewrite Forall_forall in Hf.
  apply elem_of_cons in Hx as [->|Hx]; [|by eapply IH].
  apply Hf. eapply subseteq_drop; eauto.
Qed.

Lemma StronglySorted_take {A} (R : A → A → Prop) n l : StronglySorted R l → StronglySorted R (take n l).
Proof.
  intros Hs. revert n. induction Hs as [|x l _ IH Hf]; intros [|n]; simpl; constructor; [done|].
  apply Forall_take. exact Hf.
Qed.

#[global] Instance map_collection_laws : CollectionLaws D (gmap string D).
Proof.
  split; simpl.
  - intros id p f c d Hd Hp. by rewrite Hd, Hp.
  - intros id p f c Hp. destruct (c !! id) as [d|] eqn:E; [|done]. by rewrite (Hp d).
  - intros p le f c c' id d Hle Hf.
    pose proof (map_sorted_strong p le c Hle) as Hs.
    destruct (map_sorted p le c) as [|[k e] l] eqn:E; [done|]. injection Hf as <- <- <-.
    assert (c !! k = Some e ∧ p e = true) as [Hk Hp].
    { apply (elem_of_map_sorted p le). rewrite E. by left. }
    split_and!; [done..| |done]. intros id' d' Hd' Hp'.
    assert ((id', d') ∈ map_sorted p le c) as Hin by (by apply elem_of_map_sorted).
    rewrite E in Hin. inversion Hs as [|? ? _ Hf']; subst. rewrite Forall_forall in Hf'.
    apply elem_of_cons in Hin as [[= -> ->]|Hin]; [|by apply (Hf' (id', d') Hin)].
    destruct (le e e) eqn:Er; [done|]. pose proof (sort_total _ _ Er). congruence.
  - intros p le f c c' Hle Hf. destruct (map_sorted p le c) as [|[k e] l] eqn:E; [|done].
    injection Hf as <-. split; [|done]. intros id d Hd.
    destruct (p d) eqn:Ep; [|done]. exfalso.
    assert ((id, d) ∈ map_sorted p le c) as Hin by (by apply elem_of_map_sorted).
    rewrite E in Hin. by apply elem_of_nil in Hin.
  - intros p le limit c id d _ Hin. apply (elem_of_map_sorted p le).
    eapply subseteq_take; eauto.
  - intros p le limit c _. rewrite fmap_take.
    eapply sublist_NoDup; [apply (map_sorted_NoDup p le c)|apply sublist_take].
  - intros p le limit c _. rewrite length_take. lia.
  - intros p le limit c id d Hle Hd Hp.
    assert ((id, d) ∈ map_sorted p le c) as Hin by (by apply elem_of_map_sorted).
    rewrite <-(take_drop limit (map_sorted p le c)) in Hin.
    apply elem_of_app in Hin as [Hin|Hin]; [by left|right]. split.
    + rewrite length_take. apply Nat.min_l.
      destruct (le_lt_dec limit (length (map_sorted p le c))); [done|].
      rewrite drop_ge in Hin by lia. by apply elem_of_nil in Hin.
    + intros id' d' Hin'.
      apply (StronglySorted_take_drop _ _ _ _ _ (map_sorted_strong p le c Hle) Hin' Hin).
  - intros p le limit c Hle. apply StronglySorted_take. by apply map_sorted_strong.
  - intros clash id d c Hn Hc. rewrite Hn.
    destruct (existsb _ _) eqn:E; [|done]. exfalso.
    apply existsb_exists in E as ([k e] & Hin & Hcl).
    apply list_elem_of_In, elem_of_map_to_list in Hin. simpl in Hcl. by rewrite (Hc k e Hin) in Hcl.
  - intros clash id d c [[e ->]|(k & e & Hk & Hcl)]; [done|].
    destruct (c !! id); [done|].
    assert (existsb (λ kd : string * D, clash d kd.2) (map_to_list c) = true) as ->; [|done].
    apply existsb_exists. exists (k, e). split; [|done].
    by apply list_elem_of_In, elem_of_map_to_list.
  - intros p new f c id d Hd Hp. destruct (map_matches p c) as [|[k e] l] eqn:E.
    + assert ((id, d) ∈ map_matches p c) as Hin by (by apply elem_of_map_matches). rewrite E in Hin. by apply elem_of_nil in Hin.
    + exists k, e. assert ((k, e) ∈ map_matches p c) as [? ?]%elem_of_map_matches by (rewrite E; left). done.
  - intros p new f c Hp Hn. destruct (map_matches p c) as [|[k e] l] eqn:E; [done|].
    assert ((k, e) ∈ map_matches p c) as [Hk He]%elem_of_map_matches by (rewrite E; left).
    by rewrite (Hp k e Hk) in He.
  - done.
  - intros id p c d Hd Hp. by rewrite Hd, Hp.
  - intros id p c Hp. destruct (c !! id) as [d|] eqn:E; [|done]. by rewrite (Hp d).
  - done.
Qed.
End MapCollection.

(** ** Consequences shared by the repositories *)

Section Laws.
Context {D C : Type} `{CollectionLaws D C}.
Implicit Types c : C.

(** Either the update applied to one document, or nothing changed. *)
Lemma updateOne_cases id p f c :
  (∃ d, docs c !! id = Some d ∧ p d = true ∧ (updateOne id p f c).1 = true ∧
        docs (updateOne id p f c).2 = <[id := f d]> (docs c)) ∨
  ((∀ d, docs c !! id = Some d → p d = false) ∧ (updateOne id p f c).1 = false ∧
   docs (updateOne id p f c).2 = docs c).
Proof.
  destruct (docs c !! id) as [d|] eqn:E.
  - destruct (p d) eqn:P.
    + left. exists d. destruct (updateOne_hit id p f c d E P). auto.
    + right. destruct (updateOne_miss id p f c) as [H1 H2]; [|split_and!; [|done..]]; naive_solver.
  - right. destruct (updateOne_miss id p f c) as [H1 H2]; [|split_and!; [|done..]]; naive_solver.
Qed.

Lemma updateOne_true id p f c :
  (updateOne id p f c).1 = true →
  ∃ d, docs c !! id = Some d ∧ p d = true ∧ docs (updateOne id p f c).2 = <[id := f d]> (docs c).
Proof. destruct (updateOne_cases id p f c) as [(d & ? & ? & ? & ?)|(_ & -> & _)]; naive_solver. Qed.

Lemma updateOne_false id p f c :
  (updateOne id p f c).1 = false →
  (∀ d, docs c !! id = Some d → p d = false) ∧ docs (updateOne id p f c).2 = docs c.
Proof. destruct (updateOne_cases id p f c) as [(d & ? & ? & -> & ?)|(? & _ & ?)]; naive_solver. Qed.

(** An insert either stores its document or meets a duplicate. *)
Lemma insertOne_cases clash id d c :
  ((insertOne clash id d c).1 = true ∧ docs c !! id = None ∧
   (∀ id' d', docs c !! id' = Some d' → clash d d' = false) ∧
   docs (insertOne clash id d c).2 = <[id := d]> (docs c)) ∨
  ((insertOne clash id d c).1 = false ∧ docs (insertOne clash id d c).2 = docs c).
Proof.
  destruct (docs c !! id) eqn:Hid; [right; by apply insertOne_dup; left; eauto|].
  destruct (decide (map_Forall (λ _ d', clash d d' = false) (docs c))) as [Hall|Hex].
  - left. destruct (insertOne_ok clash id d c Hid Hall) as [H1 H2]. done.
  - right. apply map_not_Forall in Hex as (k & e & He & Hp); [|apply _].
    apply not_false_iff_true in Hp. apply insertOne_dup. right. eauto.
Qed.

Lemma insertOne_true clash id d c :
  (insertOne clash id d c).1 = true →
  docs c !! id = None ∧ (∀ id' d', docs c !! id' = Some d' → clash d d' = false) ∧
  docs (insertOne clash id d c).2 = <[id := d]> (docs c).
Proof. destruct (insertOne_cases clash id d c) as [(? & ? & ? & ?)|[-> _]]; naive_solver. Qed.

(** A delete removes one document or nothing. *)
Lemma deleteOne_cases id p c :
  (∃ d, docs c !! id = Some d ∧ p d = true ∧ (deleteOne id p c).1 = true ∧ docs (deleteOne id p c).2 = delete id (docs c)) ∨
  ((∀ d, docs c !! id = Some d → p d = false) ∧ (deleteOne id p c).1 = false ∧ docs (deleteOne id p c).2 = docs c).
Proof.
  destruct (docs c !! id) as [d|] eqn:E; [destruct (p d) eqn:P|].
  - left. exists d. destruct (deleteOne_hit id p c d E P). auto.
  - right. destruct (deleteOne_miss id p c) as [H1 H2]; [|split_and!; [|done..]]; naive_solver.
  - right. destruct (deleteOne_miss id p c) as [H1 H2]; [|split_and!; [|done..]]; naive_solver.
Qed.

Lemma deleteOne_sub id p c k d : docs (deleteOne id p c).2 !! k = Some d → docs c !! k = Some d.
Proof.
  destruct (deleteOne_cases id p c) as [(? & _ & _ & _ & ->)|(_ & _ & ->)]; [|done]. by intros [_ ?]%lookup_delete_Some.
Qed.

(** [find(filter)] without a sort or a limit. *)
Definition any_order (a b : D) : bool := true.
#[global] Instance any_order_sort : SortOrder any_order.
Proof. by split. Qed.
Definition find_all (p : Filter D) (c : C) : list (string * D) := find_docs p any_order (size (docs c)) c.

(** A limit that no collection reaches leaves nothing out. *)
Lemma elem_of_find_sorted p le c id d : SortOrder le → (id, d) ∈ find_docs p le (size (docs c)) c ↔ docs c !! id = Some d ∧ p d = true.
Proof.
  intros Hle. split; [by apply find_docs_sound|]. intros [Hd Hp].
  destruct (find_docs_complete p le (size (docs c)) c id d Hle Hd Hp) as [|[Hl _]]; [done|].
  assert (list_to_set (C := gset string) (find_docs p le (size (docs c)) c).*1 = dom (docs c)) as Hdom.
  { apply set_subseteq_size_eq.
    - intros k Hk. apply elem_of_list_to_set, list_elem_of_fmap in Hk as ([k' e] & -> & Hin).
      apply find_docs_sound in Hin as [Hin _]; [|done]. by apply elem_of_dom_2 in Hin.
    - rewrite size_dom, size_list_to_set, length_fmap by (by apply find_docs_nodup). lia. }
  assert (id ∈ dom (docs c)) as Hin by (by eapply elem_of_dom_2). rewrite <-Hdom in Hin.
  apply elem_of_list_to_set, list_elem_of_fmap in Hin as ([k e] & -> & Hin). simpl in Hd.
  apply find_docs_sound in Hin as Hs; [|done]. destruct Hs as [Hs _]. rewrite Hd in Hs. by injection Hs as ->.
Qed.

Lemma elem_of_find_all p c id d : (id, d) ∈ find_all p c ↔ docs c !! id = Some d ∧ p d = true.
Proof. apply elem_of_find_sorted, _. Qed.

Lemma find_all_nodup p c : NoDup (find_all p c).*1.
Proof. apply find_docs_nodup, _. Qed.

(** As many as there are, up to the limit. *)
Lemma find_docs_length p le limit c : SortOrder le →
  length (find_docs p le limit c) = (limit `min` size (selected p (docs c)))%nat.
Proof.
  intros Hle. pose proof (find_docs_limit p le limit c Hle) as Hlim.
  set (l := find_docs p le limit c) in *.
  assert (size (list_to_set (C := gset string) l.*1) = length l) as Hsz
    by (rewrite size_list_to_set, length_fmap by (by apply find_docs_nodup); done).
  assert (list_to_set (C := gset string) l.*1 ⊆ dom (selected p (docs c))) as Hsub.
  { intros k Hk. apply elem_of_list_to_set, list_elem_of_fmap in Hk as ([k' d] & -> & Hin).
    apply find_docs_sound in Hin as [Hd Hp]; [|done]. apply elem_of_dom. exists d. by apply map_lookup_filter_Some. }
  pose proof (subseteq_size _ _ Hsub) as Hle1. rewrite Hsz, size_dom in Hle1.
  destruct (decide (length l = limit)) as [E|E]; [lia|].
  assert (dom (selected p (docs c)) ⊆ list_to_set (C := gset string) l.*1) as Hsup.
  { intros k [d [Hd Hp]%map_lookup_filter_Some]%elem_of_dom.
    destruct (find_docs_complete p le limit c k d Hle Hd Hp) as [Hin|[Hl _]]; [|done].
    apply elem_of_list_to_set, list_elem_of_fmap. by exists (k, d). }
  pose proof (subseteq_size _ _ Hsup) as Hle2. rewrite Hsz, size_dom in Hle2. lia.
Qed.

(** A document that stops matching is one match less. *)
Lemma selected_insert_out p (m : gmap string D) k d d' :
  m !! k = Some d → p d = true → p d' = false → size (selected p m) = S (size (selected p (<[k := d']> m))).
Proof.
  intros Hd Hp Hp'. unfold selected. rewrite map_filter_insert_False by (simpl; congruence).
  assert (filter (λ kd, p kd.2 = true) m !! k = Some d) as Hf by (by apply map_lookup_filter_Some).
  rewrite <-(insert_delete_id _ _ _ Hf) at 1. rewrite map_size_insert_None by (by apply lookup_delete_eq).
  by rewrite map_filter_delete.
Qed.

(** [findOne(filter)]. *)
Definition find_one (p : Filter D) (c : C) : option (string * D) := head (find_docs p any_order 1 c).

Lemma find_one_some p c id d : find_one p c = Some (id, d) → docs c !! id = Some d ∧ p d = true.
Proof.
  unfold find_one. intros Hh. apply (find_docs_sound p any_order 1 c id d _).
  destruct (find_docs _ _ _ _) as [|x l]; [done|]. injection Hh as ->. by left.
Qed.

Lemma find_one_none p c id d : find_one p c = None → docs c !! id = Some d → p d = false.
Proof.
  unfold find_one. intros Hh Hd. apply not_true_iff_false. intros Hp.
  destruct (find_docs_complete p any_order 1 c id d _ Hd Hp) as [Hin|[Hlen _]];
    (destruct (find_docs _ _ _ _); [|done]); [by apply elem_of_nil in Hin|done].
Qed.

(** The only document a filter matches is the one found. *)
Lemma find_one_unique p c id d :
  docs c !! id = Some d → p d = true → (∀ id' d', docs c !! id' = Some d' → p d' = true → id' = id) →
  find_one p c = Some (id, d).
Proof.
  intros Hd Hp Hu. destruct (find_one p c) as [[k e]|] eqn:E.
  - apply find_one_some in E as [He Hpe]. assert (k = id) as -> by eauto. congruence.
  - by rewrite (find_one_none p c id d E Hd) in Hp.
Qed.

(** An upsert updates a matching document, or adds one where there is none. *)
Lemma upsertOne_cases p new f c :
  docs c !! new = None →
  (∃ id d, docs c !! id = Some d ∧ p d = true ∧ docs (upsertOne p new f c) = <[id := f (Some d)]> (docs c)) ∨
  ((∀ id d, docs c !! id = Some d → p d = false) ∧ docs (upsertOne p new f c) = <[new := f None]> (docs c)).
Proof.
  intros Hn. destruct (decide (map_Forall (λ _ d, p d = false) (docs c))) as [Hall|Hex].
  - right. split; [done|]. by apply upsertOne_miss.
  - left. apply map_not_Forall in Hex as (id & d & Hd & Hp); [|apply _].
    apply not_false_iff_true in Hp. by eapply upsertOne_hit.
Qed.
End Laws.
