(* ===== verification/Credentials.v ===== *)
(** * Stored credentials

    Models packages/db/src/repositories/credentials.ts: storing, resolving,
    revoking and re-wrapping.  [CredStep] interleaves the commands of
    deployments with different current keys, jobs that re-wrap what they read
    earlier included; a [Vault] is what the repository promises: a secret per
    credential, until it is revoked. *)
From S2P Require Import Prelude Json JsonText Text Numbers Envelope Mongo.

#[local] Open Scope host_scope.

Record CredentialDoc := {
  cr_name : string; cr_kind : string; cr_ciphertext : string; cr_iv : string; cr_authTag : string; cr_wrappedDek : string;
  cr_keyProvider : string; cr_kekVersion : Z; cr_hint : option string; cr_createdBy : string; cr_createdAt : Z;
  cr_rotatedAt : option Z; cr_revokedAt : option Z }.

Record StoreCredentialInput := {
  sc_name : string; sc_kind : string; sc_plaintext : string; sc_createdBy : string; sc_hint : option string }.

Definition DEFAULT_SECRET_TTL_MS : Z := 60000.

Inductive CredentialError := cr_key (e : KeyError) | cr_duplicate | cr_decryption.

Definition toPayload (d : CredentialDoc) : EncryptedPayload := {|
  ep_ciphertext := cr_ciphertext d; ep_iv := cr_iv d; ep_authTag := cr_authTag d; ep_wrappedDek := cr_wrappedDek d;
  ep_keyProvider := cr_keyProvider d; ep_kekVersion := cr_kekVersion d |}.

Definition set_revoked (now : Z) (d : CredentialDoc) : CredentialDoc := {|
  cr_name := cr_name d; cr_kind := cr_kind d; cr_ciphertext := cr_ciphertext d; cr_iv := cr_iv d; cr_authTag := cr_authTag d;
  cr_wrappedDek := cr_wrappedDek d; cr_keyProvider := cr_keyProvider d; cr_kekVersion := cr_kekVersion d; cr_hint := cr_hint d;
  cr_createdBy := cr_createdBy d; cr_createdAt := cr_createdAt d; cr_rotatedAt := cr_rotatedAt d; cr_revokedAt := Some now |}.

Definition set_wrapping (next : EncryptedPayload) (now : Z) (d : CredentialDoc) : CredentialDoc := {|
  cr_name := cr_name d; cr_kind := cr_kind d; cr_ciphertext := cr_ciphertext d; cr_iv := cr_iv d; cr_authTag := cr_authTag d;
  cr_wrappedDek := ep_wrappedDek next; cr_keyProvider := ep_keyProvider next; cr_kekVersion := ep_kekVersion next; cr_hint := cr_hint d;
  cr_createdBy := cr_createdBy d; cr_createdAt := cr_createdAt d; cr_rotatedAt := Some now; cr_revokedAt := cr_revokedAt d |}.

Definition credential_of (input : StoreCredentialInput) (p : EncryptedPayload) (now : Z) : CredentialDoc := {|
  cr_name := sc_name input; cr_kind := sc_kind input; cr_ciphertext := ep_ciphertext p; cr_iv := ep_iv p; cr_authTag := ep_authTag p;
  cr_wrappedDek := ep_wrappedDek p; cr_keyProvider := ep_keyProvider p; cr_kekVersion := ep_kekVersion p; cr_hint := sc_hint input;
  cr_createdBy := sc_createdBy input; cr_createdAt := now; cr_rotatedAt := None; cr_revokedAt := None |}.

Section Repository.
Context {C : Type} `{CollectionLaws CredentialDoc C}.
Context (aead : Aead) (workspaceId : string).

Definition binding (credentialId kind : string) : CredentialBinding :=
  {| cb_workspaceId := workspaceId; cb_credentialId := credentialId; cb_kind := kind |}.

(** [store]; the identifier is drawn before anything is encrypted. *)
Definition store (kp : KeyProvider) (id : string) (draws : Draws) (input : StoreCredentialInput) (now : Z) (c : C)
    : outcome CredentialError CredentialDoc * C :=
  match encrypt aead kp draws (sc_plaintext input) (binding id (sc_kind input)) with
  | Throw e => (Throw (cr_key e), c)
  | Ret payload =>
      let d := credential_of input payload now in
      match insertOne (λ _ _, false) id d c with
      | (true, c') => (Ret d, c')
      | (false, c') => (Throw cr_duplicate, c')
      end
  end.

(** [resolve]: nothing for a missing or revoked credential. *)
Definition resolve (kp : KeyProvider) (id : string) (ttlMs now : Z) (c : C) : outcome CredentialError (option EphemeralSecret) :=
  match docs c !! id with
  | None => Ret None
  | Some d =>
      match cr_revokedAt d with
      | Some _ => Ret None
      | None =>
          match decrypt aead kp (toPayload d) (binding id (cr_kind d)) with
          | Throw _ => Throw cr_decryption
          | Ret secret => Ret (Some (new_ephemeral (expose_secret secret) ttlMs (cr_kind d) now))
          end
      end
  end.

(** What the list shows of a credential: not what is encrypted. *)
Record CredentialSummary := { sm_id : string; sm_name : string; sm_kind : string; sm_hint : option string; sm_kekVersion : Z; sm_revoked : bool }.
Definition summary (kd : string * CredentialDoc) : CredentialSummary := {|
  sm_id := kd.1; sm_name := cr_name kd.2; sm_kind := cr_kind kd.2; sm_hint := cr_hint kd.2; sm_kekVersion := cr_kekVersion kd.2;
  sm_revoked := match cr_revokedAt kd.2 with Some _ => true | None => false end |}.
Definition list_credentials (c : C) : list CredentialSummary := map summary (find_all (λ _, true) c).

Definition revoke_credential (id : string) (now : Z) (c : C) : C := (updateOne id (λ _, true) (set_revoked now) c).2.

Definition is_stale (version : Z) (d : CredentialDoc) : bool :=
  negb (cr_kekVersion d =? version) && match cr_revokedAt d with None => true | Some _ => false end.
Definition stale_rows (version : Z) (limit : nat) (c : C) : list (string * CredentialDoc) := find_docs (is_stale version) any_order limit c.

(** One round of the loop of [rewrapStale], on a document read before. *)
Definition rewrap_row (kp : KeyProvider) (iv : string) (now : Z) (id : string) (d : CredentialDoc) (c : C)
    : outcome CredentialError bool * C :=
  match rewrap kp iv (toPayload d) with
  | Throw e => (Throw (cr_key e), c)
  | Ret next =>
      let '(matched, c') := updateOne id (λ r, cr_kekVersion r =? cr_kekVersion d) (set_wrapping next now) c in (Ret matched, c')
  end.

Fixpoint rewrap_rows (kp : KeyProvider) (ivs : string → string) (now : Z) (rows : list (string * CredentialDoc)) (done_ : Z) (c : C)
    : outcome CredentialError Z * C :=
  match rows with
  | [] => (Ret done_, c)
  | (id, d) :: rest =>
      match rewrap_row kp (ivs id) now id d c with
      | (Throw e, c') => (Throw e, c')
      | (Ret matched, c') => rewrap_rows kp ivs now rest (if matched then done_ + 1 else done_) c'
      end
  end.

Definition count_stale (version : Z) (c : C) : Z := Z.of_nat (size (selected (is_stale version) (docs c))).

(** [rewrapStale]: how many were re-wrapped, how many are left. *)
Definition rewrapStale (kp : KeyProvider) (ivs : string → string) (now : Z) (limit : nat) (c : C) : outcome CredentialError (Z * Z) * C :=
  match rewrap_rows kp ivs now (stale_rows (kp_version kp) limit c) 0 c with
  | (Throw e, c') => (Throw e, c')
  | (Ret n, c') => (Ret (n, count_stale (kp_version kp) c'), c')
  end.
End Repository.

(** ** What the repository promises *)

(** A credential as its owner sees it, with what it was sealed with. *)
Record VaultEntry := {
  ve_secret : string; ve_kind : string; ve_dek : string; ve_iv : string; ve_ciphertext : string; ve_authTag : string; ve_revoked : bool }.
Notation Vault := (gmap string VaultEntry).
Definition revoke_entry (e : VaultEntry) : VaultEntry := {|
  ve_secret := ve_secret e; ve_kind := ve_kind e; ve_dek := ve_dek e; ve_iv := ve_iv e; ve_ciphertext := ve_ciphertext e;
  ve_authTag := ve_authTag e; ve_revoked := true |}.
Definition promised (v : Vault) (id : string) (ttlMs now : Z) : option EphemeralSecret :=
  match v !! id with
  | Some e => if ve_revoked e then None else Some (new_ephemeral (ve_secret e) ttlMs (ve_kind e) now)
  | None => None
  end.

Section Interleaving.
Context {C : Type} `{CollectionLaws CredentialDoc C}.
Context (aead : Aead) `{!AeadLaws aead} (workspaceId : string).

(** The key every version number stands for, whichever deployment holds it. *)
Context (keyring : gmap Z string).

(** A deployment: what its [KeyProvider] was constructed with. *)
Record Deployment := { dp_name : string; dp_keys : gmap Z string; dp_version : Z }.
Definition provider (p : Deployment) : KeyProvider := {|
  kp_name := dp_name p; kp_version := dp_version p; kp_wrap := wrap aead (dp_name p) (dp_keys p) (dp_version p); kp_unwrap := unwrap aead (dp_keys p) |}.
(** The constructor accepts it, and its keys are keys of the ring. *)
Definition sound (p : Deployment) : Prop :=
  newInMemory aead (dp_name p) (dp_keys p) (dp_version p) = Ret (provider p) ∧ 0 <= dp_version p < 2 ^ 32 ∧ dp_keys p ⊆ keyring.
Definition has_key (p : Deployment) (version : Z) : Prop := is_Some (dp_keys p !! version).

Definition is_revoked (d : CredentialDoc) : bool := match cr_revokedAt d with Some _ => true | None => false end.

(** The rows, what the running jobs have read of them, the deployments that run, and the
    promise. *)
Record CredState := { st_rows : C; st_read : list (string * CredentialDoc); st_running : list Deployment; st_vault : Vault }.

(** When a deployment may be started: it has the keys of the credentials in use and of
    whatever the others wrap with, and they have the key it wraps with. *)
Definition may_start (p : Deployment) (s : CredState) : Prop :=
  sound p ∧ (∀ id d, docs (st_rows s) !! id = Some d → is_revoked d = false → has_key p (cr_kekVersion d)) ∧
  (∀ q, q ∈ st_running s → has_key p (dp_version q) ∧ has_key q (dp_version p)).

Definition sealed_entry (id : string) (draws : Draws) (input : StoreCredentialInput) : VaultEntry :=
  let '(ct, tag) := seal aead (dr_dek draws) (dr_iv draws) (aadFor (binding workspaceId id (sc_kind input))) (sc_plaintext input) in
  {| ve_secret := sc_plaintext input; ve_kind := sc_kind input; ve_dek := dr_dek draws; ve_iv := dr_iv draws; ve_ciphertext := ct;
     ve_authTag := tag; ve_revoked := false |}.

Inductive CredStep : CredState → CredState → Prop :=
| step_start p s : may_start p s →
    CredStep s {| st_rows := st_rows s; st_read := st_read s; st_running := p :: st_running s; st_vault := st_vault s |}
| step_stop left s : left ⊆ st_running s →
    CredStep s {| st_rows := st_rows s; st_read := st_read s; st_running := left; st_vault := st_vault s |}
| step_store p id draws input now s : p ∈ st_running s → String.length (dr_wrapIv draws) = IV_BYTES →
    CredStep s {| st_rows := (store aead workspaceId (provider p) id draws input now (st_rows s)).2; st_read := st_read s; st_running := st_running s;
                  st_vault := match (store aead workspaceId (provider p) id draws input now (st_rows s)).1 with
                              | Ret _ => <[id := sealed_entry id draws input]> (st_vault s)
                              | Throw _ => st_vault s
                              end |}
| step_revoke id now s :
    CredStep s {| st_rows := revoke_credential id now (st_rows s); st_read := st_read s; st_running := st_running s;
                  st_vault := alter revoke_entry id (st_vault s) |}
| step_read p limit s : p ∈ st_running s →
    CredStep s {| st_rows := st_rows s; st_read := stale_rows (dp_version p) limit (st_rows s) ++ st_read s; st_running := st_running s;
                  st_vault := st_vault s |}
| step_rewrap p iv now id d s : p ∈ st_running s → String.length iv = IV_BYTES → (id, d) ∈ st_read s →
    CredStep s {| st_rows := (rewrap_row (provider p) iv now id d (st_rows s)).2; st_read := st_read s; st_running := st_running s; st_vault := st_vault s |}.

(** A document and its entry: the same sealed text, its key wrapped under the key of the
    version the document names. *)
Definition wrapped_as (p : EncryptedPayload) (dek : string) : Prop :=
  unwrap aead keyring (dek_of p) = Ret dek ∧ read_be32 (ep_wrappedDek p) = Some (ep_kekVersion p).
Definition matches (id : string) (e : VaultEntry) (d : CredentialDoc) : Prop :=
  cr_kind d = ve_kind e ∧ cr_iv d = ve_iv e ∧ cr_ciphertext d = ve_ciphertext e ∧ cr_authTag d = ve_authTag e ∧ wrapped_as (toPayload d) (ve_dek e) ∧
  unseal aead (ve_dek e) (ve_iv e) (aadFor (binding workspaceId id (ve_kind e))) (ve_ciphertext e) (ve_authTag e) = Some (ve_secret e).

Record CredInv (s : CredState) : Prop := {
  ci_rows id : match docs (st_rows s) !! id, st_vault s !! id with
               | Some d, Some e => matches id e d ∧ is_revoked d = ve_revoked e
               | None, None => True
               | _, _ => False
               end;
  ci_keys id d : docs (st_rows s) !! id = Some d → is_revoked d = false → ∀ p, p ∈ st_running s → has_key p (cr_kekVersion d);
  ci_read id d : (id, d) ∈ st_read s → ∃ e, st_vault s !! id = Some e ∧ matches id e d;
  ci_sound p : p ∈ st_running s → sound p;
  ci_shared p q : p ∈ st_running s → q ∈ st_running s → has_key p (dp_version q);
}.

Lemma row_entry s id d : CredInv s → docs (st_rows s) !! id = Some d →
  ∃ e, st_vault s !! id = Some e ∧ matches id e d ∧ is_revoked d = ve_revoked e.
Proof. intros Hi Hd. pose proof (ci_rows s Hi id) as Hr. rewrite Hd in Hr. destruct (st_vault s !! id) as [e|]; [|done]. by exists e. Qed.

Lemma sound_honest p : sound p → HonestProvider (provider p).
Proof. intros (Hn & Hv & _). by eapply in_memory_honest. Qed.

(** Under a ring that has the key of its version a wrapped key unwraps to what it is. *)
Lemma unwraps p payload dek : sound p → wrapped_as payload dek → has_key p (ep_kekVersion payload) → unwrap aead (dp_keys p) (dek_of payload) = Ret dek.
Proof.
  intros (_ & _ & Hsub) [Hu Hv] [kek Hk]. unfold unwrap in *. cbn [dek_of wd_wrapped] in *. destruct (_ <? _)%nat; [done|]. rewrite Hv in *.
  rewrite Hk. by rewrite (lookup_weaken _ _ _ _ Hk Hsub) in Hu.
Qed.
Lemma unwraps_only p payload dek dek' : sound p → wrapped_as payload dek → unwrap aead (dp_keys p) (dek_of payload) = Ret dek' → dek' = dek.
Proof. intros (_ & _ & Hsub) [Hu _] Hu'. apply (unwrap_mono aead _ _ _ _ Hsub) in Hu'. congruence. Qed.

(** What a deployment wraps. *)
Lemma wraps_as p iv dek w : sound p → String.length iv = IV_BYTES → kp_wrap (provider p) iv dek = Ret w →
  unwrap aead keyring w = Ret dek ∧ read_be32 (wd_wrapped w) = Some (wd_kekVersion w) ∧ wd_kekVersion w = dp_version p.
Proof.
  intros (_ & Hv & Hsub) Hiv Hw. cbn [provider kp_wrap] in Hw. split.
  { eapply (unwrap_mono aead); [exact Hsub|]. by eapply unwrap_wrap. }
  unfold wrap in Hw. destruct (dp_keys p !! _); [|done]. destruct (seal _ _ _ _ _) as [ct tag]. destruct (_ && _); [|done]. injection Hw as <-.
  cbn [wd_wrapped wd_kekVersion]. split; [|done]. by apply read_be32_app.
Qed.

Lemma rewrap_matches p iv id e d next :
  sound p → String.length iv = IV_BYTES → matches id e d → rewrap (provider p) iv (toPayload d) = Ret next →
  wrapped_as next (ve_dek e) ∧ ep_kekVersion next = dp_version p.
Proof.
  intros Hp Hiv (_ & _ & _ & _ & Hu & _). unfold rewrap. cbn [provider kp_unwrap kp_wrap].
  destruct (unwrap aead (dp_keys p) (dek_of (toPayload d))) as [dek|] eqn:Hun; [|done]. apply (unwraps_only p _ _ _ Hp Hu) in Hun as ->. cbn [obind].
  destruct (wrap aead (dp_name p) (dp_keys p) (dp_version p) iv (ve_dek e)) as [w|] eqn:Hw; [|done]. cbn [obind]. intros [= <-].
  destruct (wraps_as p iv (ve_dek e) w Hp Hiv Hw) as (Hk & Hr & Hv). split; [|done]. split; [by destruct w|done].
Qed.

Lemma store_cases p id draws input now (c : C) : sound p → String.length (dr_wrapIv draws) = IV_BYTES →
  (∃ d, (store aead workspaceId (provider p) id draws input now c).1 = Ret d ∧ docs c !! id = None ∧
        docs (store aead workspaceId (provider p) id draws input now c).2 = <[id := d]> (docs c) ∧
        matches id (sealed_entry id draws input) d ∧ is_revoked d = false ∧ cr_kekVersion d = dp_version p) ∨
  (∃ e, (store aead workspaceId (provider p) id draws input now c).1 = Throw e) ∧ docs (store aead workspaceId (provider p) id draws input now c).2 = docs c.
Proof.
  intros Hp Hiv. unfold store, encrypt, sealed_entry.
  pose proof (unseal_seal (dr_dek draws) (dr_iv draws) (aadFor (binding workspaceId id (sc_kind input))) (sc_plaintext input)) as Hun.
  destruct (seal aead (dr_dek draws) _ _ _) as [ct tag]. cbn [fst snd] in Hun.
  destruct (kp_wrap (provider p) (dr_wrapIv draws) (dr_dek draws)) as [w|e] eqn:Hw; cbn [obind]; [|right; by eauto].
  destruct (wraps_as p _ _ w Hp Hiv Hw) as (Hk & Hr & Hv).
  match goal with |- context [insertOne _ id ?d c] => destruct (insertOne_cases (λ _ _, false) id d c) as [(Hok & Hn & _ & Hd)|[Hno Hd]] end;
    destruct (insertOne _ _ _ _) as [b c']; cbn [fst snd] in *; subst b; [left|right; by eauto].
  eexists. split_and!; try done.
Qed.

(** Steps that leave the rows and the promise alone. *)
Lemma inv_running s read running : CredInv s →
  (∀ id d, (id, d) ∈ read → ∃ e, st_vault s !! id = Some e ∧ matches id e d) →
  (∀ p, p ∈ running → sound p ∧ (∀ id d, docs (st_rows s) !! id = Some d → is_revoked d = false → has_key p (cr_kekVersion d)) ∧
     ∀ q, q ∈ running → has_key p (dp_version q)) →
  CredInv {| st_rows := st_rows s; st_read := read; st_running := running; st_vault := st_vault s |}.
Proof.
  intros Hi Hread Hrun. split; cbn.
  - apply (ci_rows s Hi).
  - intros id d Hd Hr p Hp. destruct (Hrun p Hp) as (_ & Hk & _). by eapply Hk.
  - done.
  - intros p Hp. by destruct (Hrun p Hp).
  - intros p q Hp Hq. destruct (Hrun p Hp) as (_ & _ & Hs). by apply Hs.
Qed.
Lemma inv_self s p : CredInv s → p ∈ st_running s →
  sound p ∧ (∀ id d, docs (st_rows s) !! id = Some d → is_revoked d = false → has_key p (cr_kekVersion d)) ∧ ∀ q, q ∈ st_running s → has_key p (dp_version q).
Proof. intros Hi Hp. split_and!; [by apply (ci_sound s)|intros; by eapply (ci_keys s)|intros; by apply (ci_shared s)]. Qed.

Lemma start_inv s p : CredInv s → may_start p s →
  CredInv {| st_rows := st_rows s; st_read := st_read s; st_running := p :: st_running s; st_vault := st_vault s |}.
Proof.
  intros Hi (Hp & Hrows & Hothers). apply inv_running; [done|apply (ci_read s Hi)|].
  intros q [->|Hq]%elem_of_cons.
  - split_and!; [done|done|]. intros r [->|Hr]%elem_of_cons; [|by apply Hothers]. destruct Hp as (Hn & _). unfold newInMemory in Hn. unfold has_key.
    by destruct (dp_keys p !! dp_version p).
  - destruct (inv_self s q Hi Hq) as (? & ? & ?). split_and!; [done|done|]. intros r [->|Hr]%elem_of_cons; [by apply Hothers|auto].
Qed.

Lemma store_inv s p id draws input now : CredInv s → p ∈ st_running s → String.length (dr_wrapIv draws) = IV_BYTES →
  let r := store aead workspaceId (provider p) id draws input now (st_rows s) in
  CredInv {| st_rows := r.2; st_read := st_read s; st_running := st_running s;
             st_vault := match r.1 with Ret _ => <[id := sealed_entry id draws input]> (st_vault s) | Throw _ => st_vault s end |}.
Proof.
  intros Hi Hp Hiv r. subst r.
  destruct (store_cases p id draws input now (st_rows s) (ci_sound s Hi p Hp) Hiv) as [(d & -> & Hn & Hd & Hm & Hv & Hver)|[[e ->] Hd]].
  - split; cbn.
    + intros k. rewrite Hd. pose proof (ci_rows s Hi k) as Hk. destruct (decide (k = id)) as [->|Hne]; [|by rewrite !lookup_insert_ne].
      rewrite !lookup_insert_eq. split; [done|]. rewrite Hv. unfold sealed_entry. by destruct (seal _ _ _ _ _).
    + intros k d'. rewrite Hd. intros [[<- <-]|[_ Hk]]%lookup_insert_Some Hr q Hq; [rewrite Hver; by apply (ci_shared s)|by eapply (ci_keys s)].
    + intros k d' Hk. destruct (ci_read s Hi k d' Hk) as (e & He & Hme). exists e. split; [|done].
      rewrite lookup_insert_ne; [done|]. intros ->. pose proof (ci_rows s Hi k) as Hr. by rewrite Hn, He in Hr.
    + apply (ci_sound s Hi).
    + apply (ci_shared s Hi).
  - split; cbn; [intros k; rewrite Hd; apply (ci_rows s Hi)|intros k d; rewrite Hd; apply (ci_keys s Hi)|apply (ci_read s Hi)|apply (ci_sound s Hi)|apply (ci_shared s Hi)].
Qed.

Lemma revoke_inv s id now : CredInv s →
  CredInv {| st_rows := revoke_credential id now (st_rows s); st_read := st_read s; st_running := st_running s; st_vault := alter revoke_entry id (st_vault s) |}.
Proof.
  intros Hi. pose proof (updateOne_cases id (λ _, true) (set_revoked now) (st_rows s)) as Hc. split; cbn; unfold revoke_credential.
  - intros k. pose proof (ci_rows s Hi k) as Hrows. destruct Hc as [(d & Hd & _ & _ & ->)|(Hno & _ & ->)].
    + destruct (decide (k = id)) as [->|Hne]; [|by rewrite lookup_insert_ne, lookup_alter_ne].
      rewrite lookup_insert_eq, lookup_alter_eq. rewrite Hd in Hrows. destruct (st_vault s !! id) as [e|]; [|done]. cbn. destruct Hrows as [Hm _]. by split.
    + destruct (decide (k = id)) as [->|Hne]; [|by rewrite lookup_alter_ne]. rewrite lookup_alter_eq.
      destruct (docs (st_rows s) !! id) as [d|]; [by specialize (Hno d eq_refl)|]. by destruct (st_vault s !! id).
  - intros k d. destruct Hc as [(d0 & Hd & _ & _ & ->)|(_ & _ & ->)]; [|apply (ci_keys s Hi)].
    intros [[<- <-]|[_ Hk]]%lookup_insert_Some; [done|by apply (ci_keys s Hi k)].
  - intros k d Hk. destruct (ci_read s Hi k d Hk) as (e & He & Hm). destruct (decide (k = id)) as [->|Hne].
    + exists (revoke_entry e). by rewrite lookup_alter_eq, He.
    + exists e. by rewrite lookup_alter_ne.
  - apply (ci_sound s Hi).
  - apply (ci_shared s Hi).
Qed.

Lemma rewrap_inv s p iv now id d : CredInv s → p ∈ st_running s → String.length iv = IV_BYTES → (id, d) ∈ st_read s →
  CredInv {| st_rows := (rewrap_row (provider p) iv now id d (st_rows s)).2; st_read := st_read s; st_running := st_running s; st_vault := st_vault s |}.
Proof.
  intros Hi Hp Hiv Hin. unfold rewrap_row. destruct (rewrap (provider p) iv (toPayload d)) as [next|e] eqn:Hw; [|by destruct s].
  destruct (ci_read s Hi id d Hin) as (e & He & Hm). destruct (rewrap_matches p iv id e d next (ci_sound s Hi p Hp) Hiv Hm Hw) as [Hun Hver].
  pose proof (updateOne_cases id (λ r, cr_kekVersion r =? cr_kekVersion d) (set_wrapping next now) (st_rows s)) as Hc.
  destruct (updateOne _ _ _ _) as [b c']. cbn in *. destruct Hc as [(r & Hr & _ & _ & Hd)|(_ & _ & Hd)].
  - split; cbn; [| |apply (ci_read s Hi)|apply (ci_sound s Hi)|apply (ci_shared s Hi)].
    + intros k. rewrite Hd. pose proof (ci_rows s Hi k) as Hrows. destruct (decide (k = id)) as [->|Hne]; [|by rewrite lookup_insert_ne].
      rewrite lookup_insert_eq, He. rewrite Hr, He in Hrows. destruct Hrows as [(? & ? & ? & ? & _ & ?) Hv]. by split_and!.
    + intros k d'. rewrite Hd. intros [[<- <-]|[_ Hk]]%lookup_insert_Some Hrev q Hq; [|by eapply (ci_keys s)].
      cbn [set_wrapping cr_kekVersion]. rewrite Hver. by apply (ci_shared s).
  - split; cbn; [intros k; rewrite Hd; apply (ci_rows s Hi)|intros k r; rewrite Hd; apply (ci_keys s Hi)|apply (ci_read s Hi)|apply (ci_sound s Hi)|apply (ci_shared s Hi)].
Qed.

Lemma cred_step_inv s s' : CredInv s → CredStep s s' → CredInv s'.
Proof.
  intros Hi Hstep. destruct Hstep as [p s Hp|left s Hl|p id draws input now s Hp Hiv|id now s|p limit s Hp|p iv now id d s Hp Hiv Hin].
  - by apply start_inv.
  - apply inv_running; [done|apply (ci_read s Hi)|]. intros p Hp. destruct (inv_self s p Hi (Hl p Hp)) as (? & ? & Hs). split_and!; auto.
  - by apply store_inv.
  - by apply revoke_inv.
  - apply inv_running; [done| |by intros; apply inv_self]. intros k d [Hk|Hk]%elem_of_app; [|by apply (ci_read s)].
    apply find_docs_sound in Hk as [Hk _]; [|apply _]. destruct (row_entry s k d Hi Hk) as (e & He & Hm & _). by exists e.
  - by apply rewrap_inv.
Qed.

Inductive CredReach : CredState → Prop :=
| cred_start (c : C) : docs c = ∅ → CredReach {| st_rows := c; st_read := []; st_running := []; st_vault := ∅ |}
| cred_next s s' : CredReach s → CredStep s s' → CredReach s'.

Lemma reach_inv s : CredReach s → CredInv s.
Proof.
  induction 1 as [c Hc|s s' _ IH Hs]; [|by eapply cred_step_inv].
  split; cbn; [|intros id d; by rewrite Hc, lookup_empty|by intros ? ? ?%elem_of_nil|by intros ? ?%elem_of_nil|by intros ? ? ?%elem_of_nil].
  intros id. by rewrite Hc, !lookup_empty.
Qed.

(** C13.  Rotating the keys never loses a secret.  Deployments start and stop, each with a
    current key and retired ones, and their stores, revocations and re-wrapping jobs
    interleave: every running deployment resolves every credential to the secret that was
    stored, and a revoked one to nothing.  What it takes: a version number stands for one
    key ([keyring]), and a deployment is started only when it has the keys of the
    credentials not yet revoked and of whatever the running ones wrap with, and they have
    its key.  And a retired key may go: once all that runs wraps with one key and a job
    reports none left to re-wrap, a deployment that has this key alone may start. *)
Theorem rotation_never_loses_a_secret s :
  CredReach s →
  (∀ p id ttlMs now, p ∈ st_running s →
     resolve aead workspaceId (provider p) id ttlMs now (st_rows s) = Ret (promised (st_vault s) id ttlMs now)) ∧
  (∀ p kek, p ∈ st_running s → dp_keys p !! dp_version p = Some kek → String.length kek = KEY_BYTES →
     (∀ q, q ∈ st_running s → dp_version q = dp_version p) → count_stale (dp_version p) (st_rows s) = 0 →
     may_start {| dp_name := dp_name p; dp_keys := {[dp_version p := kek]}; dp_version := dp_version p |} s).
Proof.
  intros Hi%reach_inv. split.
  - intros p id ttlMs now Hp. unfold resolve, promised. destruct (docs (st_rows s) !! id) as [d|] eqn:Hd.
    + destruct (row_entry s id d Hi Hd) as (e & -> & (Hk & Hiv & Hc & Ht & Hu & Hun) & Hv). unfold is_revoked in Hv.
      destruct (cr_revokedAt d) as [t|] eqn:Hrev; rewrite <-Hv; [done|]. unfold decrypt. cbn [provider kp_unwrap].
      rewrite (unwraps p _ _ (ci_sound s Hi p Hp) Hu); [|eapply (ci_keys s Hi); [exact Hd|unfold is_revoked; by rewrite Hrev|done]].
      cbn [toPayload ep_iv ep_ciphertext ep_authTag]. by rewrite Hk, Hiv, Hc, Ht, Hun.
    + pose proof (ci_rows s Hi id) as Hr. rewrite Hd in Hr. by destruct (st_vault s !! id).
  - intros p kek Hp Hkek Hlen Hall Hnone. destruct (ci_sound s Hi p Hp) as (_ & Hv & Hsub). unfold may_start, sound, has_key. cbn [dp_name dp_keys dp_version].
    split_and!; [|lia|lia|by apply map_singleton_subseteq_l, (lookup_weaken _ _ _ _ Hkek)| |].
    + unfold newInMemory. rewrite lookup_singleton_eq. unfold keys_fit. rewrite map_to_list_singleton. cbn [forallb snd]. by rewrite Hlen.
    + intros id d Hd Hrev. destruct (decide (cr_kekVersion d = dp_version p)) as [->|Hne]; [rewrite lookup_singleton_eq; by eexists|]. exfalso.
      assert (is_stale (dp_version p) d = true) as Hst.
      { unfold is_stale. unfold is_revoked in Hrev. destruct (Z.eqb_spec (cr_kekVersion d) (dp_version p)); [done|]. by destruct (cr_revokedAt d). }
      unfold count_stale in Hnone. assert (size (selected (is_stale (dp_version p)) (docs (st_rows s))) = 0%nat) as Hz by lia.
      apply map_size_empty_inv in Hz. assert (selected (is_stale (dp_version p)) (docs (st_rows s)) !! id = Some d) as Hsel by (by apply map_lookup_filter_Some).
      by rewrite Hz, lookup_empty in Hsel.
    + intros q Hq. rewrite (Hall q Hq), lookup_singleton_eq. split; [by eexists|]. rewrite <-(Hall q Hq). by apply (ci_shared s).
Qed.

Lemma rewrap_rows_all p ivs now rows n (c : C) v :
  sound p → (∀ id, String.length (ivs id) = IV_BYTES) → NoDup rows.*1 →
  (∀ id d, (id, d) ∈ rows → docs c !! id = Some d ∧ is_stale (dp_version p) d = true ∧ has_key p (cr_kekVersion d) ∧
     ∃ e : VaultEntry, (v : Vault) !! id = Some e ∧ matches id e d) →
  ∃ c', rewrap_rows (provider p) ivs now rows n c = (Ret (n + Z.of_nat (length rows)), c') ∧
        count_stale (dp_version p) c = count_stale (dp_version p) c' + Z.of_nat (length rows).
Proof.
  intros Hp Hivs. revert n c. induction rows as [|[id d] rows IH]; intros n c Hnd Hrows; cbn [rewrap_rows].
  { exists c. cbn. split; [by rewrite Z.add_0_r|lia]. }
  apply NoDup_cons in Hnd as [Hid Hnd]. destruct (Hrows id d ltac:(left)) as (Hd & Hst & Hkey & e & _ & Hm). unfold rewrap_row.
  assert (∃ next, rewrap (provider p) (ivs id) (toPayload d) = Ret next) as [next Hw].
  { destruct Hm as (_ & _ & _ & _ & Hu & _). unfold rewrap. change (kp_unwrap (provider p)) with (unwrap aead (dp_keys p)). rewrite (unwraps p _ _ Hp Hu Hkey). cbn [obind].
    pose proof (sound_honest p Hp). destruct (wraps (ivs id) (ve_dek e) (Hivs id)) as (w & -> & _). cbn [obind]. eauto. }
  rewrite Hw. destruct (rewrap_matches p (ivs id) id e d next Hp (Hivs id) Hm Hw) as [_ Hver].
  destruct (updateOne_hit id (λ r, cr_kekVersion r =? cr_kekVersion d) (set_wrapping next now) c d Hd (Z.eqb_refl _)) as [Ht Hc].
  destruct (updateOne _ _ _ _) as [b c1]. cbn in Ht, Hc. subst b.
  destruct (IH (n + 1) c1 Hnd) as (c' & -> & Hcount).
  { intros k d' Hk. destruct (Hrows k d' ltac:(by right)) as (Hd' & ? & ? & ?). split_and!; try done. rewrite Hc, lookup_insert_ne; [done|].
    intros ->. apply Hid. apply list_elem_of_fmap. by exists (k, d'). }
  exists c'. split; [do 2 f_equal; cbn [length]; lia|].
  assert (count_stale (dp_version p) c = count_stale (dp_version p) c1 + 1) as Hone.
  { unfold count_stale. rewrite Hc, (selected_insert_out _ _ id d (set_wrapping next now d)); [lia|done|done|].
    unfold is_stale. cbn. by rewrite Hver, Z.eqb_refl. }
  rewrite Hone, Hcount. cbn [length]. lia.
Qed.

(** A rotation that nothing else disturbs never fails: it re-wraps as many of
    the credentials under a retired key as it was asked for, and reports
    exactly how many are left. *)
Theorem rotation_makes_progress s p ivs now limit :
  CredReach s → p ∈ st_running s → (∀ id, String.length (ivs id) = IV_BYTES) →
  let found := Z.of_nat limit `min` count_stale (dp_version p) (st_rows s) in
  ∃ c', rewrapStale (provider p) ivs now limit (st_rows s) = (Ret (found, count_stale (dp_version p) (st_rows s) - found), c') ∧
        count_stale (dp_version p) c' = count_stale (dp_version p) (st_rows s) - found.
Proof.
  intros Hinv%reach_inv Hp Hivs found. unfold rewrapStale. cbn [provider kp_version].
  pose proof (find_docs_length (is_stale (dp_version p)) any_order limit (st_rows s) _) as Hlen.
  destruct (rewrap_rows_all p ivs now (stale_rows (dp_version p) limit (st_rows s)) 0 (st_rows s) (st_vault s) (ci_sound s Hinv p Hp) Hivs) as (c' & -> & Hc).
  { apply find_docs_nodup, _. }
  { intros id d Hin. apply find_docs_sound in Hin as [Hd Hst]; [|apply _]. destruct (row_entry s id d Hinv Hd) as (e & He & Hm & _).
    split_and!; try done; [|by eauto]. eapply (ci_keys s Hinv); [exact Hd| |done]. unfold is_stale in Hst. unfold is_revoked.
    apply andb_true_iff in Hst as [_ Hst]. by destruct (cr_revokedAt d). }
  unfold stale_rows in *. exists c'. rewrite Hlen in *. unfold count_stale in *. split; [do 3 f_equal|]; lia.
Qed.
End Interleaving.

(** ** A rotation from the first key to the second *)

Definition both_keys : gmap Z string := {[1 := kek32; 2 := other32]}.
Definition old_deployment : Deployment := {| dp_name := "env"; dp_keys := both_keys; dp_version := 1 |}.
Definition new_deployment : Deployment := {| dp_name := "env"; dp_keys := both_keys; dp_version := 2 |}.
Definition pruned_deployment : Deployment := {| dp_name := "env"; dp_keys := {[2 := other32]}; dp_version := 2 |}.

Notation Rows := (gmap string CredentialDoc).
Notation State := (@CredState Rows).
Definition sample_credential : StoreCredentialInput :=
  {| sc_name := "OpenAI"; sc_kind := "api_key"; sc_plaintext := "sk-secret"; sc_createdBy := "usr_1"; sc_hint := Some "cret" |}.
Definition stored_rows : Rows := (store toy_aead "wks_1" (provider toy_aead old_deployment) "cred_1" sample_draws sample_credential 0 (∅ : Rows)).2.
Definition sample_vault : gmap string VaultEntry := {["cred_1" := sealed_entry toy_aead "wks_1" "cred_1" sample_draws sample_credential]}.
Definition stale_read : list (string * CredentialDoc) := stale_rows 2 10 stored_rows.
Definition rewrapped_rows : Rows :=
  match stale_read with (id, d) :: _ => (rewrap_row (provider toy_aead new_deployment) iv12 9 id d stored_rows).2 | [] => stored_rows end.
(** Stored under the first key while the second is being rolled out. *)
Definition stored_state : State := {| st_rows := stored_rows; st_read := []; st_running := [new_deployment; old_deployment]; st_vault := sample_vault |}.
(** Re-wrapped; the first deployment is gone. *)
Definition rotated_state : State := {| st_rows := rewrapped_rows; st_read := stale_read; st_running := [new_deployment]; st_vault := sample_vault |}.

Lemma both_sound v : v = 1 ∨ v = 2 → sound toy_aead both_keys {| dp_name := "env"; dp_keys := both_keys; dp_version := v |}.
Proof.
  intros Hv. assert (is_Some (both_keys !! v)) as [kek Hk] by (destruct Hv as [->| ->]; by eexists).
  assert (keys_fit both_keys = true) as Hf by (vm_compute; reflexivity). unfold sound, newInMemory. cbn [dp_name dp_keys dp_version]. rewrite Hk, Hf.
  split; [done|]. split; [lia|done].
Qed.

Definition rolling_out (running : list Deployment) : State := {| st_rows := (∅ : Rows); st_read := []; st_running := running; st_vault := ∅ |}.
Definition job_state : State := {| st_rows := stored_rows; st_read := stale_read; st_running := [new_deployment; old_deployment]; st_vault := sample_vault |}.
Definition rewrapped_state : State := {| st_rows := rewrapped_rows; st_read := stale_read; st_running := [new_deployment; old_deployment]; st_vault := sample_vault |}.

Lemma rolled_out : CredReach toy_aead "wks_1" both_keys (rolling_out [new_deployment; old_deployment]).
Proof.
  apply (cred_next toy_aead "wks_1" both_keys (rolling_out [old_deployment])).
  { apply (cred_next toy_aead "wks_1" both_keys (rolling_out [])); [by apply (cred_start toy_aead "wks_1" both_keys (∅ : Rows))|].
    refine (step_start toy_aead "wks_1" both_keys old_deployment (rolling_out []) _).
    split_and!; [apply both_sound; by left|by intros|by intros ? ?%elem_of_nil]. }
  refine (step_start toy_aead "wks_1" both_keys new_deployment (rolling_out [old_deployment]) _).
  split_and!; [apply both_sound; by right|by intros|]. intros q ->%list_elem_of_singleton. split; by eexists.
Qed.

Lemma stored_reach : CredReach toy_aead "wks_1" both_keys stored_state.
Proof.
  apply (cred_next toy_aead "wks_1" both_keys (rolling_out [new_deployment; old_deployment])); [exact rolled_out|].
  assert (stored_state = {| st_rows := stored_rows; st_read := []; st_running := [new_deployment; old_deployment];
    st_vault := match (store toy_aead "wks_1" (provider toy_aead old_deployment) "cred_1" sample_draws sample_credential 0 (∅ : Rows)).1 with
                | Ret _ => <["cred_1" := sealed_entry toy_aead "wks_1" "cred_1" sample_draws sample_credential]> ∅ | Throw _ => ∅ end |}) as ->
    by (vm_compute; reflexivity).
  refine (step_store toy_aead "wks_1" both_keys old_deployment "cred_1" sample_draws sample_credential 0 (rolling_out [new_deployment; old_deployment]) _ _);
    [right; left|reflexivity].
Qed.

Lemma rotated_reach : CredReach toy_aead "wks_1" both_keys rotated_state.
Proof.
  apply (cred_next toy_aead "wks_1" both_keys rewrapped_state).
  { apply (cred_next toy_aead "wks_1" both_keys job_state).
    { apply (cred_next toy_aead "wks_1" both_keys stored_state); [exact stored_reach|].
      assert (job_state = {| st_rows := stored_rows; st_read := stale_rows (dp_version new_deployment) 10 stored_rows ++ [];
        st_running := [new_deployment; old_deployment]; st_vault := sample_vault |}) as -> by (by rewrite app_nil_r).
      refine (step_read toy_aead "wks_1" both_keys new_deployment 10 stored_state _). left. }
    destruct (stale_read) as [|[k d] l] eqn:Hr; [vm_compute in Hr; discriminate|].
    assert (rewrapped_rows = (rewrap_row (provider toy_aead new_deployment) iv12 9 k d stored_rows).2) as Hrows by (unfold rewrapped_rows; by rewrite Hr).
    assert (rewrapped_state = {| st_rows := (rewrap_row (provider toy_aead new_deployment) iv12 9 k d stored_rows).2; st_read := stale_read;
      st_running := [new_deployment; old_deployment]; st_vault := sample_vault |}) as -> by (unfold rewrapped_state; by rewrite Hrows).
    refine (step_rewrap toy_aead "wks_1" both_keys new_deployment iv12 9 k d job_state _ _ _); [left|reflexivity|].
    cbn [job_state st_read]. rewrite Hr. left. }
  refine (step_stop toy_aead "wks_1" both_keys [new_deployment] rewrapped_state _). cbn [rewrapped_state st_running]. set_solver.
Qed.

Lemma rotation_never_loses_a_secret_witness :
  resolve toy_aead "wks_1" (provider toy_aead new_deployment) "cred_1" 60000 5 (st_rows stored_state) =
    Ret (Some (new_ephemeral "sk-secret" 60000 "api_key" 5)) ∧
  may_start toy_aead both_keys pruned_deployment rotated_state.
Proof.
  split.
  - destruct (rotation_never_loses_a_secret toy_aead "wks_1" both_keys stored_state stored_reach) as [Hr _].
    rewrite (Hr new_deployment "cred_1" 60000 5 ltac:(by left)). vm_compute. reflexivity.
  - destruct (rotation_never_loses_a_secret toy_aead "wks_1" both_keys rotated_state rotated_reach) as [_ Hp].
    apply (Hp new_deployment other32); [by left|reflexivity|vm_compute; reflexivity|by intros q ->%list_elem_of_singleton|vm_compute; reflexivity].
Defined.

Lemma rotation_makes_progress_witness :
  ∃ c', rewrapStale (provider toy_aead new_deployment) (λ _, iv12) 9 10 (st_rows stored_state) = (Ret (1, 0), c') ∧ count_stale 2 c' = 0.
Proof.
  destruct (rotation_makes_progress toy_aead "wks_1" both_keys stored_state new_deployment (λ _, iv12) 9 10
              stored_reach ltac:(by left) (λ _, eq_refl)) as (c' & Hr & Hc).
  assert (count_stale (dp_version new_deployment) (st_rows stored_state) = 1) as E by (vm_compute; reflexivity).
  rewrite E in *. exists c'. split; [exact Hr|exact Hc].
Defined.
