(* ===== verification/Capabilities.v ===== *)
(** * The capability store and the rug-pull defence

    Models packages/db/src/repositories/capabilities.ts with the mapper of
    capability-mapper.ts: what discovery found is reconciled with the stored
    rows, and a row is callable only at the definition somebody approved.  A
    row is the [McpCapability] the mapper makes of it (a stored null is an
    absent field).  The collection is the workspace's scoped view of
    mcpCapabilities; SHA-256 and the ids the server gives to new rows are
    parameters. *)
From stdpp Require Import stringmap.
From S2P Require Import Prelude Json JsonText Entities Mongo.

Record DiscoveredCapability := {
  dc_kind : CapabilityKind;
  dc_name : string;
  dc_canonicalName : string;
  dc_title : option string;
  dc_description : option string;
  dc_inputSchema : option value;
  dc_outputSchema : option value;
  dc_annotations : option (list (string * value));
}.

Definition kind_name (k : CapabilityKind) : string :=
  match k with
  | KTool => "tool" | KResource => "resource" | KResourceTemplate => "resource_template" | KPrompt => "prompt"
  end.

(** [x ?? null]. *)
Definition or_null {A} (f : A → value) (x : option A) : value := match x with Some a => f a | None => VNull end.

(** The text that is hashed: all the model can see of a capability. *)
Definition definition_material (cap : DiscoveredCapability) : string :=
  canonicalJson (VObject
    [("kind", VString (kind_name (dc_kind cap))); ("name", VString (dc_name cap)); ("title", or_null VString (dc_title cap));
     ("description", or_null VString (dc_description cap)); ("inputSchema", or_null id (dc_inputSchema cap));
     ("outputSchema", or_null id (dc_outputSchema cap)); ("annotations", or_null VObject (dc_annotations cap))]).

(** Rows are identified by what the unique index covers. *)
Definition CapabilityKey : Type := string * string * CapabilityKind * string.
Definition row_key (d : McpCapability) : CapabilityKey := (cap_bindingId d, cap_scopeKey d, cap_kind d, cap_name d).

(** [`${kind}:${name}`]. *)
Definition name_key (k : CapabilityKind) (name : string) : string := kind_name k +:+ ":" +:+ name.

Record DiscoveryDiff := { df_added : list string; df_changed : list string; df_unchanged : list string; df_removed : list string }.

Definition no_diff : DiscoveryDiff := {| df_added := []; df_changed := []; df_unchanged := []; df_removed := [] |}.

Definition set_approval (a : CapabilityApproval) (removedAt : option Z) (d : McpCapability) : McpCapability := {|
  cap_id := cap_id d; cap_workspaceId := cap_workspaceId d; cap_bindingId := cap_bindingId d; cap_scopeKey := cap_scopeKey d;
  cap_kind := cap_kind d; cap_name := cap_name d; cap_canonicalName := cap_canonicalName d; cap_title := cap_title d;
  cap_description := cap_description d; cap_inputSchema := cap_inputSchema d; cap_outputSchema := cap_outputSchema d;
  cap_annotations := cap_annotations d; cap_definitionHash := cap_definitionHash d; cap_approval := a;
  cap_firstSeenAt := cap_firstSeenAt d; cap_lastSeenAt := cap_lastSeenAt d; cap_removedAt := removedAt |}.

(** What a row shows, as it was discovered. *)
Definition as_discovered (d : McpCapability) : DiscoveredCapability := {|
  dc_kind := cap_kind d; dc_name := cap_name d; dc_canonicalName := cap_canonicalName d; dc_title := cap_title d;
  dc_description := cap_description d; dc_inputSchema := cap_inputSchema d; dc_outputSchema := cap_outputSchema d;
  dc_annotations := cap_annotations d |}.

Section Repository.
Context {C : Type} `{CollectionLaws McpCapability C}.
Context (sha256 : string → string) (workspaceId : string).
Context (genId : C → string) (genId_fresh : ∀ c, docs c !! genId c = None).
Implicit Types (c : C) (d : McpCapability).

Definition computeDefinitionHash (cap : DiscoveredCapability) : string := "sha256:" +:+ sha256 (definition_material cap).

Definition listForBinding (bindingId scopeKey : string) c : list McpCapability :=
  map snd (find_all (λ d, String.eqb (cap_bindingId d) bindingId && String.eqb (cap_scopeKey d) scopeKey &&
                          bool_decide (cap_removedAt d = None)) c).

Definition listForScope (scopeKeys : list string) c : list McpCapability :=
  map snd (find_all (λ d, bool_decide (cap_scopeKey d ∈ scopeKeys) && bool_decide (cap_removedAt d = None)) c).

Definition live_approved d : bool :=
  bool_decide (cap_removedAt d = None) && bool_decide (ca_state (cap_approval d) = ap_approved).

Definition countApproved c : Z := Z.of_nat (length (find_all live_approved c)).

Definition countApprovedFor (bindingIds : list string) c : Z :=
  match bindingIds with
  | [] => 0
  | _ => Z.of_nat (length (find_all (λ d, bool_decide (cap_bindingId d ∈ bindingIds) && live_approved d) c))
  end.

Definition listPendingApproval c : list McpCapability :=
  map snd (find_all (λ d, bool_decide (ca_state (cap_approval d) = ap_pending) && bool_decide (cap_removedAt d = None)) c).

(** The approval after the write, decided from the row before it. *)
Definition next_approval (hash : string) (now : Z) (autoApprove : bool) (prior : option McpCapability) : CapabilityApproval :=
  if autoApprove then
    {| ca_state := ap_approved; ca_definitionHash := hash; ca_approvedBy := Some "system"; ca_approvedAt := Some now |}
  else match prior with
       | Some d => if String.eqb (cap_definitionHash d) hash then cap_approval d
                   else {| ca_state := ap_pending; ca_definitionHash := ca_definitionHash (cap_approval d);
                           ca_approvedBy := ca_approvedBy (cap_approval d); ca_approvedAt := ca_approvedAt (cap_approval d) |}
       | None => {| ca_state := ap_pending; ca_definitionHash := hash; ca_approvedBy := None; ca_approvedAt := None |}
       end.

Definition upserted (newId bindingId scopeKey : string) (cap : DiscoveredCapability) (hash : string) (now : Z) (autoApprove : bool)
    (prior : option McpCapability) : McpCapability := {|
  cap_id := from_option cap_id newId prior; cap_workspaceId := workspaceId; cap_bindingId := bindingId;
  cap_scopeKey := scopeKey; cap_kind := dc_kind cap; cap_name := dc_name cap; cap_canonicalName := dc_canonicalName cap;
  cap_title := dc_title cap; cap_description := dc_description cap; cap_inputSchema := dc_inputSchema cap;
  cap_outputSchema := dc_outputSchema cap; cap_annotations := dc_annotations cap; cap_definitionHash := hash;
  cap_approval := next_approval hash now autoApprove prior; cap_firstSeenAt := from_option cap_firstSeenAt now prior;
  cap_lastSeenAt := now; cap_removedAt := None |}.

Definition at_row (key : CapabilityKey) d : bool := bool_decide (row_key d = key).

Definition upsert (bindingId scopeKey : string) (cap : DiscoveredCapability) (hash : string) (now : Z) (autoApprove : bool) c : C :=
  upsertOne (at_row (bindingId, scopeKey, dc_kind cap, dc_name cap)) (genId c)
    (upserted (genId c) bindingId scopeKey cap hash now autoApprove) c.

(** The loop over what was discovered: the rows not met yet, the diff so far
    and the collection. *)
Fixpoint reconcile_seen (bindingId scopeKey : string) (now : Z) (autoApprove : bool) (discovered : list DiscoveredCapability)
    (existingByName : list (string * McpCapability)) (diff : DiscoveryDiff) c : list (string * McpCapability) * DiscoveryDiff * C :=
  match discovered with
  | [] => (existingByName, diff, c)
  | cap :: rest =>
      let key := name_key (dc_kind cap) (dc_name cap) in
      let hash := computeDefinitionHash cap in
      let prior := jm_get key existingByName in
      let diff' :=
        match prior with
        | None => {| df_added := df_added diff ++ [dc_canonicalName cap]; df_changed := df_changed diff;
                     df_unchanged := df_unchanged diff; df_removed := df_removed diff |}
        | Some d =>
            if negb (String.eqb (cap_definitionHash d) hash)
            then {| df_added := df_added diff; df_changed := df_changed diff ++ [dc_canonicalName cap];
                    df_unchanged := df_unchanged diff; df_removed := df_removed diff |}
            else {| df_added := df_added diff; df_changed := df_changed diff;
                    df_unchanged := df_unchanged diff ++ [dc_canonicalName cap]; df_removed := df_removed diff |}
        end in
      reconcile_seen bindingId scopeKey now autoApprove rest (jm_delete key existingByName) diff'
        (upsert bindingId scopeKey cap hash now autoApprove c)
  end.

Definition mark_removed (now : Z) d : McpCapability := set_approval (cap_approval d) (Some now) d.

Fixpoint remove_stale (now : Z) (stale : list (string * McpCapability)) (removed : list string) c : list string * C :=
  match stale with
  | [] => (removed, c)
  | (_, d) :: rest =>
      if bool_decide (cap_removedAt d = None) then
        remove_stale now rest (removed ++ [cap_canonicalName d]) (updateOne (cap_id d) (λ _, true) (mark_removed now) c).2
      else remove_stale now rest removed c
  end.

Definition of_scope (bindingId scopeKey : string) d : bool :=
  String.eqb (cap_bindingId d) bindingId && String.eqb (cap_scopeKey d) scopeKey.

(** [new Map(existing.map(d => [key, d]))]. *)
Definition by_name (existing : list (string * McpCapability)) : list (string * McpCapability) :=
  foldl (λ m e, jm_set (name_key (cap_kind e.2) (cap_name e.2)) e.2 m) [] existing.

Definition reconcile (bindingId scopeKey : string) (discovered : list DiscoveredCapability) (now : Z) (autoApprove : bool) c
    : DiscoveryDiff * C :=
  let existingByName := by_name (find_all (of_scope bindingId scopeKey) c) in
  let '(stale, diff, c1) := reconcile_seen bindingId scopeKey now autoApprove discovered existingByName no_diff c in
  let '(removed, c2) := remove_stale now stale [] c1 in
  ({| df_added := df_added diff; df_changed := df_changed diff; df_unchanged := df_unchanged diff; df_removed := removed |}, c2).

Definition approve_capability (capabilityId definitionHash userId : string) (now : Z) c : bool * C :=
  updateOne capabilityId (λ d, String.eqb (cap_definitionHash d) definitionHash)
    (λ d, set_approval {| ca_state := ap_approved; ca_definitionHash := definitionHash; ca_approvedBy := Some userId;
                          ca_approvedAt := Some now |} (cap_removedAt d) d) c.

Fixpoint approveMany (expectedHashes : list (string * string)) (userId : string) (now : Z) (approved skipped : list string) c
    : list string * list string * C :=
  match expectedHashes with
  | [] => (approved, skipped, c)
  | (capabilityId, hash) :: rest =>
      match approve_capability capabilityId hash userId now c with
      | (true, c') => approveMany rest userId now (approved ++ [capabilityId]) skipped c'
      | (false, c') => approveMany rest userId now approved (skipped ++ [capabilityId]) c'
      end
  end.

Definition revoke (capabilityId : string) c : C :=
  (updateOne capabilityId (λ _, true)
     (λ d, set_approval {| ca_state := ap_revoked; ca_definitionHash := ca_definitionHash (cap_approval d);
                           ca_approvedBy := ca_approvedBy (cap_approval d); ca_approvedAt := ca_approvedAt (cap_approval d) |}
             (cap_removedAt d) d) c).2.

(** ** What is kept of every row *)

(** [granted id key hash]: somebody accepted definition [hash] for the row. *)
Section Rows.
Context (granted : string → CapabilityKey → string → Prop).

Definition row_ok (id : string) d : Prop :=
  cap_id d = id ∧ cap_definitionHash d = computeDefinitionHash (as_discovered d) ∧
  (ca_state (cap_approval d) = ap_approved → granted id (row_key d) (ca_definitionHash (cap_approval d))).

Definition keys_unique c : Prop :=
  ∀ id1 id2 d1 d2, docs c !! id1 = Some d1 → docs c !! id2 = Some d2 → row_key d1 = row_key d2 → id1 = id2.

Definition rows_ok c : Prop := map_Forall row_ok (docs c) ∧ keys_unique c.

Lemma at_row_true key d : at_row key d = true ↔ row_key d = key.
Proof. apply bool_decide_eq_true. Qed.

Lemma at_row_false key d : at_row key d = false ↔ row_key d ≠ key.
Proof. apply bool_decide_eq_false. Qed.

(** Writing a row with the key it has, or a key nobody has, keeps the rows. *)
Lemma insert_rows c c' id d :
  docs c' = <[id := d]> (docs c) → rows_ok c → row_ok id d →
  (∀ id' d', docs c !! id' = Some d' → row_key d' = row_key d → id' = id) → rows_ok c'.
Proof.
  intros E [Hr Hu] Hd Hk. split.
  - rewrite E. by apply map_Forall_insert_2.
  - intros id1 id2 d1 d2. rewrite E, !lookup_insert_Some.
    intros [[<- <-]|[Hn1 H1]] [[<- <-]|[Hn2 H2]] Heq; [done| | |by apply (Hu id1 id2 d1 d2)].
    + symmetry. by apply (Hk id2 d2).
    + by apply (Hk id1 d1).
Qed.

Lemma update_rows id p f c :
  (∀ d, docs c !! id = Some d → row_ok id d → p d = true → row_ok id (f d) ∧ row_key (f d) = row_key d) → rows_ok c → rows_ok (updateOne id p f c).2.
Proof.
  intros Hf Hok. destruct (updateOne_cases id p f c) as [(d & Hd & Hp & _ & E)|(_ & _ & E)].
  - destruct (Hf d Hd (proj1 Hok id d Hd) Hp) as [Hf1 Hf2]. apply (insert_rows c _ id (f d) E Hok Hf1).
    intros id' d' Hd' Hk. apply (proj2 Hok id' id d' d Hd' Hd). by rewrite Hk.
  - destruct Hok as [Hr Hu]. split; [by rewrite E|]. unfold keys_unique. by rewrite E.
Qed.

Lemma upsert_rows bindingId scopeKey cap now autoApprove c :
  (autoApprove = true → ∀ id, granted id (bindingId, scopeKey, dc_kind cap, dc_name cap) (computeDefinitionHash cap)) →
  rows_ok c → rows_ok (upsert bindingId scopeKey cap (computeDefinitionHash cap) now autoApprove c).
Proof.
  intros Hg Hok. unfold upsert. set (key := (bindingId, scopeKey, dc_kind cap, dc_name cap)).
  destruct (upsertOne_cases (at_row key) (genId c) (upserted (genId c) bindingId scopeKey cap (computeDefinitionHash cap) now autoApprove)
    c (genId_fresh c)) as [(id & d & Hd & Hk%at_row_true & E)|(Hnone & E)].
  - eapply insert_rows; [exact E|done| |].
    + destruct (proj1 Hok id d Hd) as (Hid & Hhash & Hap). split_and!; [done|by destruct cap|].
      destruct autoApprove; cbn [upserted cap_approval next_approval]; [intros _; by apply Hg|]. case_match; [|done].
      change (row_key _) with key. by rewrite <-Hk.
    + intros id' d' Hd' Hk'. apply (proj2 Hok id' id d' d Hd' Hd). rewrite Hk'. by rewrite Hk.
  - eapply insert_rows; [exact E|done| |].
    + split_and!; [done|by destruct cap|]. destruct autoApprove; cbn [upserted cap_approval next_approval]; [intros _; by apply Hg|done].
    + intros id' d' Hd' Hk'. by apply Hnone, at_row_false in Hd'.
Qed.

Lemma seen_rows bindingId scopeKey now autoApprove discovered m diff c :
  (autoApprove = true → ∀ cap id, cap ∈ discovered →
     granted id (bindingId, scopeKey, dc_kind cap, dc_name cap) (computeDefinitionHash cap)) →
  rows_ok c → rows_ok (reconcile_seen bindingId scopeKey now autoApprove discovered m diff c).2.
Proof.
  revert m diff c. induction discovered as [|cap rest IH]; intros m diff c Hg Hok; simpl; [done|].
  apply IH; [intros Ha cap' id Hin; apply Hg; [done|by right]|].
  apply upsert_rows; [|done]. intros Ha id. apply Hg; [done|left].
Qed.

Lemma stale_rows now stale removed c : rows_ok c → rows_ok (remove_stale now stale removed c).2.
Proof.
  revert removed c. induction stale as [|[k d] rest IH]; intros removed c Hok; simpl; [done|].
  destruct (bool_decide _); apply IH; [|done]. apply update_rows; [|done].
  intros d' _ (Hid & Hh & Ha) _. by split; [split_and!|].
Qed.

Lemma reconcile_rows bindingId scopeKey discovered now autoApprove c :
  (autoApprove = true → ∀ cap id, cap ∈ discovered →
     granted id (bindingId, scopeKey, dc_kind cap, dc_name cap) (computeDefinitionHash cap)) →
  rows_ok c → rows_ok (reconcile bindingId scopeKey discovered now autoApprove c).2.
Proof.
  intros Hg Hok. unfold reconcile. pose proof (seen_rows bindingId scopeKey now autoApprove discovered
    (by_name (find_all (of_scope bindingId scopeKey) c)) no_diff c Hg Hok) as H1.
  destruct (reconcile_seen _ _ _ _ _ _ _ _) as [[stale diff] c1]. pose proof (stale_rows now stale [] c1 H1) as H2.
  destruct (remove_stale _ _ _ _) as [removed c2]. done.
Qed.

Lemma approve_rows id hash userId now c :
  (∀ d, docs c !! id = Some d → cap_definitionHash d = computeDefinitionHash (as_discovered d) → cap_definitionHash d = hash → granted id (row_key d) hash) →
  rows_ok c → rows_ok (approve_capability id hash userId now c).2.
Proof.
  intros Hg. apply update_rows. intros d Hd (Hid & Hh & Ha) Hp%String.eqb_eq. split; [|done]. split_and!; [done|done|]. intros _. by apply (Hg d).
Qed.

Lemma revoke_rows id c : rows_ok c → rows_ok (revoke id c).
Proof. apply update_rows. intros d _ (Hid & Hh & Ha) _. by split; [split_and!|]. Qed.
End Rows.

(** ** Histories *)

Inductive cop :=
| CReconcile (bindingId scopeKey : string) (discovered : list DiscoveredCapability) (now : Z) (autoApprove : bool)
| CApprove (id hash userId : string) (now : Z)
| CRevoke (id : string).

Definition cexec c (op : cop) : C :=
  match op with
  | CReconcile b s discovered now auto => (reconcile b s discovered now auto c).2
  | CApprove id hash userId now => (approve_capability id hash userId now c).2
  | CRevoke id => revoke id c
  end.

(** The definition [seen] was accepted for the row: somebody approved the row while it
    showed it, or it came from a server of the host's own. *)
Definition accepted (c : C) (ops : list cop) (id : string) (key : CapabilityKey) (seen : DiscoveredCapability) : Prop :=
  (∃ earlier later hash userId now d, ops = earlier ++ CApprove id hash userId now :: later ∧
     docs (foldl cexec c earlier) !! id = Some d ∧ row_key d = key ∧ as_discovered d = seen) ∨
  (∃ b s discovered now, CReconcile b s discovered now true ∈ ops ∧ seen ∈ discovered ∧ key = (b, s, dc_kind seen, dc_name seen)).
Definition reviewed (c : C) (ops : list cop) (id : string) (key : CapabilityKey) (hash : string) : Prop :=
  ∃ seen, accepted c ops id key seen ∧ hash = computeDefinitionHash seen.

Lemma rows_ok_mono (P Q : string → CapabilityKey → string → Prop) c :
  (∀ id key hash, P id key hash → Q id key hash) → rows_ok P c → rows_ok Q c.
Proof. intros HPQ [Hr Hu]. split; [|done]. intros id d Hd. destruct (Hr id d Hd) as (? & ? & Ha). split_and!; auto. Qed.

Lemma accepted_later c ops op id key seen : accepted c ops id key seen → accepted c (ops ++ [op]) id key seen.
Proof.
  intros [(e & l & h & u & n & d & -> & ?)|(b & s & dis & n & Hin & ?)]; [left|right].
  - exists e, (l ++ [op]), h, u, n, d. split; [by rewrite <-app_assoc|done].
  - exists b, s, dis, n. split; [set_solver|done].
Qed.
Lemma history_rows ops c : docs c = ∅ → rows_ok (reviewed c ops) (foldl cexec c ops).
Proof.
  intros Hc. induction ops as [|op ops IH] using rev_ind; simpl.
  { split; [rewrite Hc; apply map_Forall_empty|]. unfold keys_unique. rewrite Hc. by intros ? ? ? ? ?%lookup_empty_Some. }
  rewrite foldl_snoc. apply (rows_ok_mono _ (reviewed c (ops ++ [op]))) in IH.
  2:{ intros id key hash (seen & Ha & ?). exists seen. split; [by apply accepted_later|done]. }
  destruct op as [b s dis now auto|id hash u now|id]; simpl.
  - apply reconcile_rows; [|done]. intros -> cap id Hin. exists cap. split; [|done]. right. exists b, s, dis, now. set_solver.
  - apply approve_rows; [|done]. intros d Hd Hh <-. exists (as_discovered d). split; [|done]. left.
    by exists ops, [], (cap_definitionHash d), u, now, d.
  - by apply revoke_rows.
Qed.

(** ** A rewritten tool *)

(** The two definitions show the model the same, up to the order of keys in what is JSON. *)
Definition wire (cap : DiscoveredCapability) : Prop :=
  plain (or_null id (dc_inputSchema cap)) ∧ plain (or_null id (dc_outputSchema cap)) ∧ plain (or_null VObject (dc_annotations cap)).
Definition same_definition (a b : DiscoveredCapability) : Prop :=
  dc_kind a = dc_kind b ∧ dc_name a = dc_name b ∧ dc_title a = dc_title b ∧ dc_description a = dc_description b ∧
  canonical (or_null id (dc_inputSchema a)) = canonical (or_null id (dc_inputSchema b)) ∧
  canonical (or_null id (dc_outputSchema a)) = canonical (or_null id (dc_outputSchema b)) ∧
  canonical (or_null VObject (dc_annotations a)) = canonical (or_null VObject (dc_annotations b)).
(** Two definitions whose texts differ have the same digest. *)
Definition collision (a b : DiscoveredCapability) : Prop :=
  definition_material a ≠ definition_material b ∧ sha256 (definition_material a) = sha256 (definition_material b).

Lemma material_plain cap : wire cap → plain (VObject
    [("kind", VString (kind_name (dc_kind cap))); ("name", VString (dc_name cap)); ("title", or_null VString (dc_title cap));
     ("description", or_null VString (dc_description cap)); ("inputSchema", or_null id (dc_inputSchema cap));
     ("outputSchema", or_null id (dc_outputSchema cap)); ("annotations", or_null VObject (dc_annotations cap))]).
Proof.
  intros (Hi & Ho & Ha). split.
  - cbn. repeat (apply NoDup_cons; split; [intros Hin; repeat (apply elem_of_cons in Hin as [Hin|Hin]; [discriminate Hin|]); by apply elem_of_nil in Hin|]). by apply NoDup_nil.
  - cbn. destruct (dc_title cap), (dc_description cap); done.
Qed.
Lemma or_null_string (a b : option string) : canonical (or_null VString a) = canonical (or_null VString b) → a = b.
Proof. destruct a, b; cbn; congruence. Qed.
Lemma material_tells a b : wire a → wire b → definition_material a = definition_material b → same_definition a b.
Proof.
  intros Ha Hb E. pose proof (canonicalJson_inj _ _ (material_plain a Ha) (material_plain b Hb) E) as Hc.
  assert (∀ k x y, (k, x) ∈ [("kind", VString (kind_name (dc_kind a))); ("name", VString (dc_name a)); ("title", or_null VString (dc_title a));
     ("description", or_null VString (dc_description a)); ("inputSchema", or_null id (dc_inputSchema a));
     ("outputSchema", or_null id (dc_outputSchema a)); ("annotations", or_null VObject (dc_annotations a))] →
     (∀ y', (k, y') ∈ [("kind", VString (kind_name (dc_kind b))); ("name", VString (dc_name b)); ("title", or_null VString (dc_title b));
     ("description", or_null VString (dc_description b)); ("inputSchema", or_null id (dc_inputSchema b));
     ("outputSchema", or_null id (dc_outputSchema b)); ("annotations", or_null VObject (dc_annotations b))] → y' = y) → canonical x = canonical y) as Hf.
  { intros k x y Hx Hy. destruct (canonical_field _ _ k x Hc Hx) as (y' & Hy' & ->). by rewrite (Hy y' Hy'). }
  unfold same_definition. split_and!.
  - pose proof (Hf "kind" (VString (kind_name (dc_kind a))) (VString (kind_name (dc_kind b))) ltac:(set_solver) ltac:(set_solver)) as Hk.
    injection Hk as Hk. by destruct (dc_kind a), (dc_kind b).
  - pose proof (Hf "name" (VString (dc_name a)) (VString (dc_name b)) ltac:(set_solver) ltac:(set_solver)) as Hk. by injection Hk.
  - apply or_null_string, (Hf "title"); set_solver.
  - apply or_null_string, (Hf "description"); set_solver.
  - apply (Hf "inputSchema"); set_solver.
  - apply (Hf "outputSchema"); set_solver.
  - apply (Hf "annotations"); set_solver.
Qed.
(** What equal hashes say of two definitions. *)
Definition alike (a b : DiscoveredCapability) : Prop := (wire a → wire b → same_definition a b) ∨ collision a b.
Lemma hashes_alike a b : computeDefinitionHash a = computeDefinitionHash b → alike a b.
Proof.
  unfold computeDefinitionHash. intros E%str_app_inj_l. destruct (decide (definition_material a = definition_material b)) as [Heq|Hne]; [left|by right].
  intros Ha Hb. by apply material_tells.
Qed.

(** A row that no longer has the hash [h] is not approved. *)
Definition fallen (h : string) d : Prop := cap_definitionHash d ≠ h → ca_state (cap_approval d) ≠ ap_approved.
Lemma upsert_falls h id b s cap now c : (∀ d, docs c !! id = Some d → fallen h d) →
  ∀ d, docs (upsert b s cap (computeDefinitionHash cap) now false c) !! id = Some d → fallen h d.
Proof.
  intros Hc d. unfold upsert. match goal with |- context [upsertOne ?p ?n ?f c] =>
    destruct (upsertOne_cases p n f c (genId_fresh c)) as [(i & d0 & Hd0 & _ & ->)|(_ & ->)] end;
    intros [[<- <-]|[_ Hd]]%lookup_insert_Some; try (by apply Hc); unfold fallen; cbn [upserted cap_definitionHash cap_approval next_approval].
  - destruct (String.eqb_spec (cap_definitionHash d0) (computeDefinitionHash cap)) as [E|_]; [|done]. rewrite <-E. by apply Hc.
  - done.
Qed.
Lemma seen_falls h id b s now discovered m diff c : (∀ d, docs c !! id = Some d → fallen h d) →
  ∀ d, docs (reconcile_seen b s now false discovered m diff c).2 !! id = Some d → fallen h d.
Proof.
  revert m diff c. induction discovered as [|cap rest IH]; intros m diff c Hc; cbn [reconcile_seen]; [done|]. apply IH. by apply upsert_falls.
Qed.
Lemma stale_falls h id now stale removed c : (∀ d, docs c !! id = Some d → fallen h d) → ∀ d, docs (remove_stale now stale removed c).2 !! id = Some d → fallen h d.
Proof.
  revert removed c. induction stale as [|[k x] stale IH]; intros removed c Hc; cbn [remove_stale]; [done|]. destruct (bool_decide _); apply IH; [|done].
  intros d. destruct (updateOne_cases (cap_id x) (λ _, true) (mark_removed now) c) as [(d0 & Hd0 & _ & _ & ->)|(_ & _ & ->)]; [|by apply Hc].
  intros [[<- <-]|[_ Hd]]%lookup_insert_Some; [exact (Hc d0 Hd0)|by apply Hc].
Qed.
Lemma rewritten_falls b s discovered now c id d d' :
  docs c !! id = Some d → docs (reconcile b s discovered now false c).2 !! id = Some d' → isCapabilityUsable d' = true → cap_definitionHash d' = cap_definitionHash d.
Proof.
  intros Hd. unfold reconcile. set (m := by_name _). assert (∀ d', docs c !! id = Some d' → fallen (cap_definitionHash d) d') as Hf0 by (intros d0; rewrite Hd; by intros [= <-] ?).
  pose proof (seen_falls (cap_definitionHash d) id b s now discovered m no_diff c Hf0) as Hf1. destruct (reconcile_seen _ _ _ _ _ _ _ _) as [[stale diff] c1].
  pose proof (stale_falls (cap_definitionHash d) id now stale [] c1 Hf1) as Hf2. destruct (remove_stale _ _ _ _) as [removed c2]. cbn [snd] in *. intros Hd' Hu.
  destruct (decide (cap_definitionHash d' = cap_definitionHash d)) as [|Hne]; [done|]. exfalso. apply (Hf2 d' Hd' Hne). unfold isCapabilityUsable in Hu. by bool_prop.
Qed.

(** C6.  A callable tool is one that was reviewed as it stands.  After any history of
    discoveries, approvals and revocations, a row that is usable shows the model a
    definition (kind, name, title, description, both schemas and the annotations, the
    order of keys apart, as JSON carries it) that was on this very row when somebody approved it, or
    that came from a server of the host's own.  And when a server that is not the host's
    own rewrites it, the next discovery leaves the row unusable: if it is usable
    afterwards it shows what it showed before.  "The same" is what SHA-256 tells: the one
    alternative is two different definitions with one digest. *)
Theorem usable_means_reviewed ops c id d :
  docs c = ∅ → docs (foldl cexec c ops) !! id = Some d → isCapabilityUsable d = true →
  (∃ seen, accepted c ops id (row_key d) seen ∧ alike seen (as_discovered d)) ∧
  ∀ b s discovered now d', docs (reconcile b s discovered now false (foldl cexec c ops)).2 !! id = Some d' → isCapabilityUsable d' = true →
    alike (as_discovered d) (as_discovered d').
Proof.
  intros Hc Hd Hu. destruct (proj1 (history_rows ops c Hc) id d Hd) as (_ & Hh & Ha). split.
  - unfold isCapabilityUsable in Hu. bool_prop. match goal with E : ca_definitionHash _ = _ |- _ => rewrite E, Hh in Ha end.
    destruct Ha as (seen & Hacc & Hs); [done|]. exists seen. split; [done|]. by apply hashes_alike.
  - intros b s discovered now d' Hd' Hu'. apply hashes_alike. rewrite <-Hh.
    pose proof (history_rows (ops ++ [CReconcile b s discovered now false]) c Hc) as [Hr _]. rewrite foldl_snoc in Hr. destruct (Hr id d' Hd') as (_ & <- & _).
    symmetry. by eapply rewritten_falls.
Qed.

(** ** The rows mirror the server *)

Definition keys_of (bindingId scopeKey : string) (discovered : list DiscoveredCapability) : list CapabilityKey :=
  map (λ cap, (bindingId, scopeKey, dc_kind cap, dc_name cap)) discovered.

Lemma name_key_inj k n k' n' : name_key k n = name_key k' n' → k = k' ∧ n = n'.
Proof. unfold name_key. by destruct k, k'; simpl; intros [=]. Qed.

Lemma upsert_effect bindingId scopeKey cap hash now autoApprove c :
  let key := (bindingId, scopeKey, dc_kind cap, dc_name cap) in
  ∃ id d', docs (upsert bindingId scopeKey cap hash now autoApprove c) = <[id := d']> (docs c) ∧
    row_key d' = key ∧ cap_removedAt d' = None ∧
    ((∃ d, docs c !! id = Some d ∧ row_key d = key) ∨ docs c !! id = None).
Proof.
  intros key. unfold upsert. match goal with |- context [upsertOne ?p ?n ?f c] =>
    destruct (upsertOne_cases p n f c (genId_fresh c)) as [(id & d & Hd & Hk%at_row_true & E)|(Hnone & E)] end.
  - eexists id, _. split; [exact E|]. split_and!; [done..|]. left. by exists d.
  - eexists _, _. split; [exact E|]. split_and!; [done..|]. right. apply genId_fresh.
Qed.

Lemma seen_effect bindingId scopeKey now autoApprove discovered m diff c :
  rows_ok (λ _ _ _, True) c →
  let '(m', diff', c') := reconcile_seen bindingId scopeKey now autoApprove discovered m diff c in
  let keys := keys_of bindingId scopeKey discovered in
  (∀ id d, docs c' !! id = Some d → row_key d ∈ keys → cap_removedAt d = None) ∧
  (∀ id d, row_key d ∉ keys → docs c' !! id = Some d ↔ docs c !! id = Some d) ∧
  (∀ key, key ∈ keys → ∃ id d, docs c' !! id = Some d ∧ row_key d = key) ∧
  (∀ e, e ∈ m' ↔ e ∈ m ∧ ∀ cap, cap ∈ discovered → e.1 ≠ name_key (dc_kind cap) (dc_name cap)).
Proof.
  revert m diff c. induction discovered as [|cap rest IH]; intros m diff c Hok; simpl.
  { split_and!; [by intros ? ? _ ?%elem_of_nil|done|by intros ? ?%elem_of_nil|].
    intros e. split; [intros He; split; [done|by intros ? ?%elem_of_nil]|by intros []]. }
  set (hash := computeDefinitionHash cap). set (key := (bindingId, scopeKey, dc_kind cap, dc_name cap)).
  set (c1 := upsert bindingId scopeKey cap hash now autoApprove c).
  assert (rows_ok (λ _ _ _, True) c1) as Hok1 by (by apply upsert_rows).
  match goal with |- context [reconcile_seen _ _ _ _ rest ?m1 ?d1 c1] => specialize (IH m1 d1 c1 Hok1);
    destruct (reconcile_seen _ _ _ _ rest m1 d1 c1) as [[m' diff'] c'] end.
  destruct IH as (IHlive & IHkeep & IHrow & IHmap).
  destruct (upsert_effect bindingId scopeKey cap hash now autoApprove c) as (id1 & d1 & E & Hk1 & Hl1 & Hold).
  fold c1 in E. change (bindingId, scopeKey, dc_kind cap, dc_name cap) with key in Hk1, Hold.
  assert (docs c1 !! id1 = Some d1) as Hid1 by (rewrite E; apply lookup_insert_eq).
  assert (∀ id d, docs c1 !! id = Some d → row_key d = key → d = d1) as Huniq.
  { intros id d Hd Hk. assert (id = id1) as -> by (apply (proj2 Hok1 id id1 d d1 Hd Hid1); by rewrite Hk, Hk1). congruence. }
  split_and!.
  - intros id d Hd Hin. destruct (decide (row_key d ∈ keys_of bindingId scopeKey rest)) as [Hr|Hr]; [by eapply IHlive|].
    apply elem_of_cons in Hin as [Hk|Hin]; [|done]. apply IHkeep in Hd; [|done]. by rewrite (Huniq id d).
  - intros id d Hn. apply not_elem_of_cons in Hn as [Hn Hnr]. rewrite IHkeep by done. rewrite E.
    rewrite lookup_insert_Some. split; [|intros Hd; right; split; [|done]].
    + intros [[<- <-]|[_ Hd]]; [congruence|done].
    + intros <-. destruct Hold as [(d0 & Hd0 & Hk0)|Hnone]; congruence.
  - intros k [->|Hin]%elem_of_cons; [|by apply IHrow].
    destruct (decide (key ∈ keys_of bindingId scopeKey rest)) as [Hr|Hr]; [by apply IHrow|].
    exists id1, d1. split; [|done]. apply IHkeep; [by rewrite Hk1|done].
  - intros e. rewrite IHmap. unfold jm_delete. rewrite list_elem_of_In, filter_In, <-list_elem_of_In. split.
    + intros [[He Hd] Hall]. split; [done|]. bool_prop. by intros cap' [->|Hin]%elem_of_cons; [|apply Hall].
    + intros [He Hall]. split; [split; [done|]|intros cap' Hin; apply Hall; by right].
      apply negb_true_iff, bool_decide_eq_false. apply Hall. left.
Qed.

Definition is_stale (id : string) (stale : list (string * McpCapability)) : bool :=
  existsb (λ e : string * McpCapability, String.eqb (cap_id e.2) id && bool_decide (cap_removedAt e.2 = None)) stale.

Lemma stale_effect now stale removed c id :
  docs (remove_stale now stale removed c).2 !! id =
  if is_stale id stale then mark_removed now <$> docs c !! id else docs c !! id.
Proof.
  revert removed c. induction stale as [|[k d] rest IH]; intros removed c; simpl; [done|].
  case_bool_decide as Hl; rewrite IH; clear IH; [|by rewrite andb_false_r].
  rewrite andb_true_r. destruct (updateOne_cases (cap_id d) (λ _, true) (mark_removed now) c) as [(d' & Hd' & _ & _ & ->)|(Hm & _ & ->)].
  - destruct (String.eqb_spec (cap_id d) id) as [<-|E]; simpl; [|by rewrite lookup_insert_ne].
    rewrite lookup_insert_eq, Hd'. by destruct (is_stale _ _).
  - destruct (String.eqb_spec (cap_id d) id) as [<-|E]; simpl; [|done].
    destruct (docs c !! cap_id d) as [d'|]; [by specialize (Hm d' eq_refl)|by destruct (is_stale _ _)].
Qed.

Lemma by_name_spec existing m :
  (∀ e1 e2 : string * McpCapability, e1 ∈ existing → e2 ∈ existing →
     name_key (cap_kind e1.2) (cap_name e1.2) = name_key (cap_kind e2.2) (cap_name e2.2) → e1.2 = e2.2) →
  NoDup m.*1 →
  let r := foldl (λ m (e : string * McpCapability), jm_set (name_key (cap_kind e.2) (cap_name e.2)) e.2 m) m existing in
  NoDup r.*1 ∧
  ∀ k d, jm_get k r = Some d ↔
    (∃ id, (id, d) ∈ existing ∧ k = name_key (cap_kind d) (cap_name d)) ∨
    ((∀ e, e ∈ existing → name_key (cap_kind e.2) (cap_name e.2) ≠ k) ∧ jm_get k m = Some d).
Proof.
  revert m. induction existing as [|[i d0] rest IH]; intros m Hf Hm; simpl.
  { split; [done|]. intros k d. split; [intros ?; right; split; [by intros ? ?%elem_of_nil|done]|].
    by intros [(? & ?%elem_of_nil & _)|[_ ?]]. }
  destruct (IH (jm_set (name_key (cap_kind d0) (cap_name d0)) d0 m)) as [Hn Hg]; [|by apply jm_set_nodup|].
  { intros e1 e2 H1 H2. apply Hf; by right. }
  split; [done|]. intros k d. rewrite Hg, jm_get_set. clear Hg IH. split.
  - intros [(j & Hj & ->)|[Hno Hset]]; [left; exists j; split; [by right|done]|].
    destruct (decide _) as [<-|Hne]; [left; exists i; injection Hset as <-; split; [left|done]|].
    right. split; [|done]. intros e [->|He]%elem_of_cons; [done|by apply Hno].
  - intros [(j & [[= -> ->]|Hj]%elem_of_cons & ->)|[Hno Hget]].
    + destruct (decide (Exists (λ e : string * McpCapability, name_key (cap_kind e.2) (cap_name e.2) = name_key (cap_kind d0) (cap_name d0)) rest)) as [Hex|Hnex].
      * apply Exists_exists in Hex as ([j' d'] & Hin & E). left. exists j'.
        assert (d' = d0) as -> by (apply (Hf (j', d') (i, d0)); [by right|left|done]). done.
      * right. rewrite decide_True by done. split; [|done]. intros e He E. apply Hnex, Exists_exists. by exists e.
    + left. by exists j.
    + right. rewrite decide_False by (apply (Hno (i, d0)); left). split; [|done]. intros e He. apply Hno. by right.
Qed.

(** The rows left over after the loop: those of the scope that the server did
    not offer. *)
Lemma stale_spec bindingId scopeKey now autoApprove discovered c id :
  rows_ok (λ _ _ _, True) c →
  let stale := (reconcile_seen bindingId scopeKey now autoApprove discovered
                  (by_name (find_all (of_scope bindingId scopeKey) c)) no_diff c).1.1 in
  is_stale id stale = true ↔
  ∃ d, docs c !! id = Some d ∧ of_scope bindingId scopeKey d = true ∧
       row_key d ∉ keys_of bindingId scopeKey discovered ∧ cap_removedAt d = None.
Proof.
  intros Hok. set (existing := find_all (of_scope bindingId scopeKey) c). simpl.
  destruct (by_name_spec existing []) as [Hnd Hget]; [|constructor|].
  { intros [i1 d1] [i2 d2] [H1 S1]%elem_of_find_all [H2 S2]%elem_of_find_all [Hk Hn]%name_key_inj. simpl in *.
    unfold of_scope in *. bool_prop. assert (i1 = i2) as <- by (apply (proj2 Hok i1 i2 d1 d2 H1 H2); unfold row_key; congruence).
    congruence. }
  pose proof (seen_effect bindingId scopeKey now autoApprove discovered (by_name existing) no_diff c Hok) as Hs.
  destruct (reconcile_seen _ _ _ _ _ _ _ _) as [[stale diff] c1]. destruct Hs as (_ & _ & _ & Hstale). simpl.
  unfold is_stale. rewrite existsb_exists. split.
  - intros ([k d] & Hin%list_elem_of_In & Hb). bool_prop. simpl in *. subst.
    apply Hstale in Hin as [Hin Hno]. unfold by_name in Hin. rewrite jm_get_elem, Hget in Hin by done.
    destruct Hin as [(i & [Hi Hsc]%elem_of_find_all & ->)|[_ ?]]; [|done].
    assert (cap_id d = i) as -> by apply (proj1 Hok i d Hi). exists d. split_and!; [done..| |done].
    intros (cap & E & Hin)%list_elem_of_fmap. injection E as _ _ E3 E4. apply (Hno cap Hin). simpl. by rewrite E3, E4.
  - intros (d & Hd & Hsc & Hno & Hl). assert (cap_id d = id) as Hid by apply (proj1 Hok id d Hd).
    exists (name_key (cap_kind d) (cap_name d), d). split; [|simpl; by rewrite Hid, String.eqb_refl, bool_decide_eq_true_2].
    apply list_elem_of_In, Hstale. unfold by_name. rewrite jm_get_elem, Hget by done.
    split; [left; exists id; split; [by apply elem_of_find_all|done]|].
    intros cap Hin [E1 E2]%name_key_inj. apply Hno. unfold of_scope in Hsc. bool_prop.
    apply list_elem_of_fmap. exists cap. unfold row_key. split; [congruence|done].
Qed.

(** Reconciling leaves the rows as the server is: whatever the history, a row of
    the binding and scope is live exactly when the server offered it this time,
    everything it offered has a row, and rows of other bindings and scopes are
    as they were. *)
Theorem reconcile_mirrors_the_server ops c0 bindingId scopeKey discovered now autoApprove :
  docs c0 = ∅ →
  let c := foldl cexec c0 ops in
  let c' := (reconcile bindingId scopeKey discovered now autoApprove c).2 in
  (∀ id d, docs c' !! id = Some d → of_scope bindingId scopeKey d = true →
     (cap_removedAt d = None ↔ row_key d ∈ keys_of bindingId scopeKey discovered)) ∧
  (∀ key, key ∈ keys_of bindingId scopeKey discovered → ∃ id d, docs c' !! id = Some d ∧ row_key d = key) ∧
  (∀ id d, of_scope bindingId scopeKey d = false → docs c' !! id = Some d ↔ docs c !! id = Some d).
Proof.
  intros Hc0 c c'. assert (rows_ok (λ _ _ _, True) c) as Hok by (eapply rows_ok_mono, history_rows, Hc0; done).
  unfold c', reconcile. pose proof (λ id, stale_spec bindingId scopeKey now autoApprove discovered c id Hok) as His.
  pose proof (seen_effect bindingId scopeKey now autoApprove discovered (by_name (find_all (of_scope bindingId scopeKey) c)) no_diff c Hok) as Hs.
  destruct (reconcile_seen _ _ _ _ _ _ _ _) as [[stale diff] c1]. destruct Hs as (Hlive & Hkeep & Hrow & _). simpl in His.
  pose proof (stale_effect now stale [] c1) as He. destruct (remove_stale now stale [] c1) as [removed c2]. cbn [snd] in He |- *.
  assert (∀ id d, docs c !! id = Some d → row_key d ∉ keys_of bindingId scopeKey discovered → docs c1 !! id = Some d) as Hold
    by (intros; by apply Hkeep).
  assert (∀ key, key ∈ keys_of bindingId scopeKey discovered → key.1.1 = (bindingId, scopeKey)) as Hkey
    by (by intros key (cap & -> & _)%list_elem_of_fmap).
  assert (∀ id d, docs c1 !! id = Some d → row_key d ∈ keys_of bindingId scopeKey discovered → docs c2 !! id = Some d) as Hkept.
  { intros id d Hd Hk. rewrite He. destruct (is_stale id stale) eqn:Es; [|done].
    apply His in Es as (d' & Hd' & _ & Hno & _). apply Hold in Hd'; [|done]. congruence. }
  assert (∀ d, of_scope bindingId scopeKey d = false → row_key d ∉ keys_of bindingId scopeKey discovered) as Hout.
  { intros d Hsc Hin. apply Hkey in Hin. injection Hin as E1 E2. unfold of_scope in Hsc. by rewrite E1, E2, !String.eqb_refl in Hsc. }
  split_and!.
  - intros id d Hd Hsc. rewrite He in Hd. destruct (is_stale id stale) eqn:Es.
    + apply His in Es as (d' & Hd' & _ & Hno & _). apply Hold in Hd'; [|done]. rewrite Hd' in Hd. injection Hd as <-. done.
    + split; [|by apply (Hlive id d)]. intros Hl. destruct (decide (row_key d ∈ keys_of bindingId scopeKey discovered)) as [|Hno]; [done|].
      apply Hkeep in Hd; [|done]. apply not_true_iff_false in Es. destruct Es. apply His. by exists d.
  - intros key Hk. destruct (Hrow key Hk) as (id & d & Hd & <-). exists id, d. split; [by apply Hkept|done].
  - intros id d Hsc. rewrite He. destruct (is_stale id stale) eqn:Es.
    + apply His in Es as (d' & Hd' & Hsc' & Hno & _). rewrite (Hold id d' Hd' Hno), Hd'. simpl.
      split; intros [= <-]; [change (of_scope bindingId scopeKey d' = false) in Hsc|]; congruence.
    + apply Hkeep. by apply Hout.
Qed.

(** Every capability that was discovered is reported once: added, changed or
    unchanged. *)
Lemma diff_accounts bindingId scopeKey discovered now autoApprove c :
  let diff := (reconcile bindingId scopeKey discovered now autoApprove c).1 in
  df_added diff ++ df_changed diff ++ df_unchanged diff ≡ₚ map dc_canonicalName discovered.
Proof.
  unfold reconcile. set (m := by_name _).
  assert (∀ m diff c, let diff' := (reconcile_seen bindingId scopeKey now autoApprove discovered m diff c).1.2 in
    df_added diff' ++ df_changed diff' ++ df_unchanged diff' ≡ₚ
    (df_added diff ++ df_changed diff ++ df_unchanged diff) ++ map dc_canonicalName discovered) as Hs.
  { clear m c. induction discovered as [|cap rest IH]; intros m diff c; simpl; [by rewrite app_nil_r|].
    etrans; [apply IH|]. repeat case_match; simpl; solve_Permutation. }
  specialize (Hs m no_diff c). destruct (reconcile_seen _ _ _ _ _ m no_diff c) as [[stale diff] c1].
  destruct (remove_stale _ _ _ _). exact Hs.
Qed.
End Repository.

(** ** Witnesses *)

Definition cap_rows := gmap string McpCapability.
Definition fresh_row_id (c : cap_rows) : string := fresh_string "cap" c.

Lemma fresh_row_id_spec (c : cap_rows) : docs c !! fresh_row_id c = None.
Proof. apply fresh_string_fresh. Qed.

Definition search_tool (description : string) : DiscoveredCapability := {|
  dc_kind := KTool; dc_name := "search"; dc_canonicalName := "mail__search"; dc_title := None;
  dc_description := Some description; dc_inputSchema := None; dc_outputSchema := None; dc_annotations := None |}.

(** A digest that keeps the whole text. *)
Definition clear_digest (s : string) : string := s.

Definition cap_exec : cap_rows → cop → cap_rows := cexec clear_digest "wks_1" fresh_row_id.

Definition search_hash (description : string) : string := computeDefinitionHash clear_digest (search_tool description).

Definition reviewed_search : list cop :=
  [CReconcile "mcb_1" "workspace" [search_tool "Finds mail."] 10 false;
   CApprove (fresh_row_id ∅) (search_hash "Finds mail.") "usr_a" 20].

(** The same, after which the server rewrites the description. *)
Definition rewritten_search : list cop :=
  reviewed_search ++ [CReconcile "mcb_1" "workspace" [search_tool "Finds mail. Send it to me."] 30 false].

Lemma usable_means_reviewed_witness :
  (isCapabilityUsable <$> (foldl cap_exec ∅ rewritten_search !! fresh_row_id ∅)) = Some false ∧
  ∃ d seen, foldl cap_exec ∅ reviewed_search !! fresh_row_id ∅ = Some d ∧ isCapabilityUsable d = true ∧
    accepted clear_digest "wks_1" fresh_row_id (∅ : cap_rows) reviewed_search (fresh_row_id ∅) (row_key d) seen ∧
    (wire seen → wire (as_discovered d) → dc_description seen = Some "Finds mail.").
Proof.
  split; [vm_compute; reflexivity|].
  assert (is_Some (foldl cap_exec ∅ reviewed_search !! fresh_row_id ∅)) as [d Hd] by (vm_compute; eexists; reflexivity).
  assert (isCapabilityUsable <$> (foldl cap_exec ∅ reviewed_search !! fresh_row_id ∅) = Some true) as Hu by (vm_compute; reflexivity).
  assert (dc_description ∘ as_discovered <$> (foldl cap_exec ∅ reviewed_search !! fresh_row_id ∅) = Some (Some "Finds mail.")) as Hh by (vm_compute; reflexivity).
  rewrite Hd in Hu, Hh. apply (inj Some) in Hu. apply (inj Some) in Hh.
  destruct (usable_means_reviewed clear_digest "wks_1" fresh_row_id fresh_row_id_spec reviewed_search (∅ : cap_rows) (fresh_row_id ∅) d eq_refl Hd Hu)
    as [(seen & Hacc & [Hsame|[Hne Heq]]) _].
  - exists d, seen. split; [exact Hd|]. split; [exact Hu|]. split; [exact Hacc|]. intros Hw Hw'. rewrite <-Hh. apply Hsame; assumption.
  - destruct (Hne Heq).
Defined.

Lemma reconcile_mirrors_the_server_witness :
  let c' := (reconcile clear_digest "wks_1" fresh_row_id "mcb_1" "workspace" [] 40 false (foldl cap_exec ∅ reviewed_search)).2 in
  (cap_removedAt <$> (c' !! fresh_row_id ∅)) = Some (Some 40) ∧
  ("mcb_1", "workspace", KTool, "search") ∉ keys_of "mcb_1" "workspace" [] ∧
  ∀ d, c' !! fresh_row_id ∅ = Some d → of_scope "mcb_1" "workspace" d = true →
    (cap_removedAt d = None ↔ row_key d ∈ keys_of "mcb_1" "workspace" []).
Proof.
  split; [vm_compute; reflexivity|]. split; [apply not_elem_of_nil|]. intros d.
  exact (proj1 (reconcile_mirrors_the_server clear_digest "wks_1" fresh_row_id fresh_row_id_spec reviewed_search (∅ : cap_rows)
    "mcb_1" "workspace" [] 40 false eq_refl) (fresh_row_id ∅) d).
Defined.
