(* ===== verification/RunQueue.v ===== *)
(** * The run queue

    Models packages/db/src/run-queue.ts (MongoRunQueue) and the writes of
    packages/db/src/repositories/runs.ts that touch a run document.  The
    [runs] collection is any implementation of [Mongo.Collection]; the clock,
    the random numbers and the fresh identifiers are arguments.

    The sections are: the document, the operations, the transition system in
    which any number of executors and sweepers interleave, the invariant, and
    the fencing theorems. *)
From S2P Require Import Prelude Entities Principal Mongo.

(** ** The run document *)

(** The part of a run fixed at creation. *)
Record RunSpec := {
  sp_workspaceId : string;
  sp_conversationId : string;
  sp_agentId : string;
  sp_agentVersionId : string;
  sp_agentSnapshot : AgentSnapshot;
  sp_modelBindingId : string;
  sp_trigger : TriggerType * option string;
  sp_principal : Principal;
  sp_budget : RunBudget;
  sp_parentRunId : option string;
  sp_depth : Z;
  sp_idempotencyKey : option string;
  sp_queuedAt : Z;
}.

(** [run_continuation] holds [fromStep]; its reason is always [deadline]. *)
Record RunDoc := {
  run_id : string;
  run_spec : RunSpec;
  run_status : RunStatus;
  run_priority : Z;
  run_scheduledFor : Z;
  run_lease : option RunLease;
  run_attempts : Z;
  run_continuation : option Z;
  run_consumed : RunConsumption;
  run_usage : Usage;
  run_nextStepSeq : Z;
  run_error : option RunError;
  run_startedAt : option Z;
  run_finishedAt : option Z;
  run_heartbeatAt : option Z;
}.

(** [$set] of one field. *)
Definition set_status (v : RunStatus) (d : RunDoc) : RunDoc := {|
  run_id := run_id d; run_spec := run_spec d; run_status := v; run_priority := run_priority d;
  run_scheduledFor := run_scheduledFor d; run_lease := run_lease d; run_attempts := run_attempts
  d; run_continuation := run_continuation d; run_consumed := run_consumed d; run_usage :=
  run_usage d; run_nextStepSeq := run_nextStepSeq d; run_error := run_error d; run_startedAt :=
  run_startedAt d; run_finishedAt := run_finishedAt d; run_heartbeatAt := run_heartbeatAt d |}.
Definition set_priority (v : Z) (d : RunDoc) : RunDoc := {|
  run_id := run_id d; run_spec := run_spec d; run_status := run_status d; run_priority := v;
  run_scheduledFor := run_scheduledFor d; run_lease := run_lease d; run_attempts := run_attempts
  d; run_continuation := run_continuation d; run_consumed := run_consumed d; run_usage :=
  run_usage d; run_nextStepSeq := run_nextStepSeq d; run_error := run_error d; run_startedAt :=
  run_startedAt d; run_finishedAt := run_finishedAt d; run_heartbeatAt := run_heartbeatAt d |}.
Definition set_scheduledFor (v : Z) (d : RunDoc) : RunDoc := {|
  run_id := run_id d; run_spec := run_spec d; run_status := run_status d; run_priority :=
  run_priority d; run_scheduledFor := v; run_lease := run_lease d; run_attempts := run_attempts
  d; run_continuation := run_continuation d; run_consumed := run_consumed d; run_usage :=
  run_usage d; run_nextStepSeq := run_nextStepSeq d; run_error := run_error d; run_startedAt :=
  run_startedAt d; run_finishedAt := run_finishedAt d; run_heartbeatAt := run_heartbeatAt d |}.
Definition set_lease (v : option RunLease) (d : RunDoc) : RunDoc := {|
  run_id := run_id d; run_spec := run_spec d; run_status := run_status d; run_priority :=
  run_priority d; run_scheduledFor := run_scheduledFor d; run_lease := v; run_attempts :=
  run_attempts d; run_continuation := run_continuation d; run_consumed := run_consumed d;
  run_usage := run_usage d; run_nextStepSeq := run_nextStepSeq d; run_error := run_error d;
  run_startedAt := run_startedAt d; run_finishedAt := run_finishedAt d; run_heartbeatAt :=
  run_heartbeatAt d |}.
Definition set_attempts (v : Z) (d : RunDoc) : RunDoc := {|
  run_id := run_id d; run_spec := run_spec d; run_status := run_status d; run_priority :=
  run_priority d; run_scheduledFor := run_scheduledFor d; run_lease := run_lease d; run_attempts
  := v; run_continuation := run_continuation d; run_consumed := run_consumed d; run_usage :=
  run_usage d; run_nextStepSeq := run_nextStepSeq d; run_error := run_error d; run_startedAt :=
  run_startedAt d; run_finishedAt := run_finishedAt d; run_heartbeatAt := run_heartbeatAt d |}.
Definition set_continuation (v : option Z) (d : RunDoc) : RunDoc := {|
  run_id := run_id d; run_spec := run_spec d; run_status := run_status d; run_priority :=
  run_priority d; run_scheduledFor := run_scheduledFor d; run_lease := run_lease d; run_attempts
  := run_attempts d; run_continuation := v; run_consumed := run_consumed d; run_usage :=
  run_usage d; run_nextStepSeq := run_nextStepSeq d; run_error := run_error d; run_startedAt :=
  run_startedAt d; run_finishedAt := run_finishedAt d; run_heartbeatAt := run_heartbeatAt d |}.
Definition set_consumed (v : RunConsumption) (d : RunDoc) : RunDoc := {|
  run_id := run_id d; run_spec := run_spec d; run_status := run_status d; run_priority :=
  run_priority d; run_scheduledFor := run_scheduledFor d; run_lease := run_lease d; run_attempts
  := run_attempts d; run_continuation := run_continuation d; run_consumed := v; run_usage :=
  run_usage d; run_nextStepSeq := run_nextStepSeq d; run_error := run_error d; run_startedAt :=
  run_startedAt d; run_finishedAt := run_finishedAt d; run_heartbeatAt := run_heartbeatAt d |}.
Definition set_usage (v : Usage) (d : RunDoc) : RunDoc := {|
  run_id := run_id d; run_spec := run_spec d; run_status := run_status d; run_priority :=
  run_priority d; run_scheduledFor := run_scheduledFor d; run_lease := run_lease d; run_attempts
  := run_attempts d; run_continuation := run_continuation d; run_consumed := run_consumed d;
  run_usage := v; run_nextStepSeq := run_nextStepSeq d; run_error := run_error d; run_startedAt
  := run_startedAt d; run_finishedAt := run_finishedAt d; run_heartbeatAt := run_heartbeatAt d |}.
Definition set_nextStepSeq (v : Z) (d : RunDoc) : RunDoc := {|
  run_id := run_id d; run_spec := run_spec d; run_status := run_status d; run_priority :=
  run_priority d; run_scheduledFor := run_scheduledFor d; run_lease := run_lease d; run_attempts
  := run_attempts d; run_continuation := run_continuation d; run_consumed := run_consumed d;
  run_usage := run_usage d; run_nextStepSeq := v; run_error := run_error d; run_startedAt :=
  run_startedAt d; run_finishedAt := run_finishedAt d; run_heartbeatAt := run_heartbeatAt d |}.
Definition set_error (v : option RunError) (d : RunDoc) : RunDoc := {|
  run_id := run_id d; run_spec := run_spec d; run_status := run_status d; run_priority :=
  run_priority d; run_scheduledFor := run_scheduledFor d; run_lease := run_lease d; run_attempts
  := run_attempts d; run_continuation := run_continuation d; run_consumed := run_consumed d;
  run_usage := run_usage d; run_nextStepSeq := run_nextStepSeq d; run_error := v; run_startedAt
  := run_startedAt d; run_finishedAt := run_finishedAt d; run_heartbeatAt := run_heartbeatAt d |}.
Definition set_startedAt (v : option Z) (d : RunDoc) : RunDoc := {|
  run_id := run_id d; run_spec := run_spec d; run_status := run_status d; run_priority :=
  run_priority d; run_scheduledFor := run_scheduledFor d; run_lease := run_lease d; run_attempts
  := run_attempts d; run_continuation := run_continuation d; run_consumed := run_consumed d;
  run_usage := run_usage d; run_nextStepSeq := run_nextStepSeq d; run_error := run_error d;
  run_startedAt := v; run_finishedAt := run_finishedAt d; run_heartbeatAt := run_heartbeatAt d |}.
Definition set_finishedAt (v : option Z) (d : RunDoc) : RunDoc := {|
  run_id := run_id d; run_spec := run_spec d; run_status := run_status d; run_priority :=
  run_priority d; run_scheduledFor := run_scheduledFor d; run_lease := run_lease d; run_attempts
  := run_attempts d; run_continuation := run_continuation d; run_consumed := run_consumed d;
  run_usage := run_usage d; run_nextStepSeq := run_nextStepSeq d; run_error := run_error d;
  run_startedAt := run_startedAt d; run_finishedAt := v; run_heartbeatAt := run_heartbeatAt d |}.
Definition set_heartbeatAt (v : option Z) (d : RunDoc) : RunDoc := {|
  run_id := run_id d; run_spec := run_spec d; run_status := run_status d; run_priority :=
  run_priority d; run_scheduledFor := run_scheduledFor d; run_lease := run_lease d; run_attempts
  := run_attempts d; run_continuation := run_continuation d; run_consumed := run_consumed d;
  run_usage := run_usage d; run_nextStepSeq := run_nextStepSeq d; run_error := run_error d;
  run_startedAt := run_startedAt d; run_finishedAt := run_finishedAt d; run_heartbeatAt := v |}.

(** ** Operations *)

(** [LeaseLostError]: the write was refused, the caller must stop. *)
Inductive LeaseLostError := LeaseLost (runId : string).

Inductive ReleaseIntent :=
| requeue (scheduledFor : Z) (fromStep : option Z)
| suspend (status : RunStatus)
| finish (status : RunStatus) (error : option RunError).

(** What the type of the code restricts [suspend] and [finish] to. *)
Definition intent_ok (i : ReleaseIntent) : bool :=
  match i with
  | requeue _ _ => true
  | suspend s => isSuspended s
  | finish s _ => isTerminal s
  end.

Record ClaimedRun := { cr_run : RunDoc; cr_leaseToken : string; cr_leaseUntil : Z }.

(** [backoffMs]: [random] is the draw of [Math.random()]. *)
Definition backoffMs (random : Q) (attempts baseMs capMs : Z) : Z :=
  let ceiling := Z.min capMs (baseMs * 2 ^ Z.max 0 (attempts - 1)) in
  Qfloor (random * inject_Z ceiling).

(** [{ 'lease.token': token }]. *)
Definition holds_token (token : string) (d : RunDoc) : bool :=
  match run_lease d with Some l => String.eqb (l_token l) token | None => false end.

(** [{ 'lease.until': { $lt: now } }]: a missing lease does not match. *)
Definition lease_lapsed (now : Z) (d : RunDoc) : bool :=
  match run_lease d with Some l => l_until l <? now | None => false end.

Definition stalled (now : Z) (d : RunDoc) : bool :=
  bool_decide (run_status d = running) && lease_lapsed now d.

Definition claimable (now : Z) (workspaceIds : option (list string)) (d : RunDoc) : bool :=
  bool_decide (run_status d = queued) &&
  (run_scheduledFor d <=? now) &&
  (match run_lease d with None => true | Some _ => false end || lease_lapsed now d) &&
  match workspaceIds with
  | None => true
  | Some ws => bool_decide (sp_workspaceId (run_spec d) ∈ ws)
  end.

(** [sort: { priority: -1, scheduledFor: 1 }]. *)
Definition claim_le (a b : RunDoc) : bool :=
  (run_priority b <? run_priority a) ||
  ((run_priority a =? run_priority b) && (run_scheduledFor a <=? run_scheduledFor b)).

(** [sort: { 'lease.until': 1 }]: a missing value sorts first. *)
Definition until_le (a b : RunDoc) : bool :=
  match run_lease a, run_lease b with
  | None, _ => true
  | Some _, None => false
  | Some l, Some k => l_until l <=? l_until k
  end.

Definition scheduled_le (a b : RunDoc) : bool := run_scheduledFor a <=? run_scheduledFor b.

Section Operations.
Context {C : Type} `{Collection RunDoc C}.
Implicit Types c : C.

Definition enqueue (now : Z) (runId : string) (priority scheduledFor : option Z) c : bool * C :=
  updateOne runId
    (λ d, bool_decide (run_status d ∈ [waiting_approval; waiting_input; waiting_tool; queued]))
    (λ d, let d1 := set_status queued (set_scheduledFor (default now scheduledFor) (set_lease None d)) in
          match priority with Some p => set_priority p d1 | None => d1 end) c.

Definition claim_update (now : Z) (owner token : string) (leaseMs : Z) (d : RunDoc) : RunDoc :=
  set_status running
   (set_startedAt (Some (default now (run_startedAt d)))
   (set_heartbeatAt (Some now)
   (set_lease (Some {| l_owner := owner; l_until := now + leaseMs; l_token := token |})
   (set_attempts (run_attempts d + 1) d)))).

Definition claim (now : Z) (token owner : string) (leaseMs : Z) (workspaceIds : option (list string)) c
    : option ClaimedRun * C :=
  match findOneAndUpdate (claimable now workspaceIds) claim_le
          (claim_update now owner token leaseMs) c with
  | (Some (_, before), c') =>
      (Some {| cr_run := claim_update now owner token leaseMs before;
               cr_leaseToken := token; cr_leaseUntil := now + leaseMs |}, c')
  | (None, c') => (None, c')
  end.

Definition heartbeat (now : Z) (runId token : string) (leaseMs : Z) c : outcome LeaseLostError Z * C :=
  let until := now + leaseMs in
  let '(matched, c') :=
    updateOne runId (holds_token token)
      (λ d, set_heartbeatAt (Some now)
         (set_lease ((λ l, {| l_owner := l_owner l; l_until := until; l_token := l_token l |}) <$> run_lease d) d)) c in
  (if matched then Ret until else Throw (LeaseLost runId), c').

Definition release_update (now : Z) (intent : ReleaseIntent) (d : RunDoc) : RunDoc :=
  match intent with
  | requeue scheduledFor fromStep =>
      let d1 := set_status queued (set_scheduledFor scheduledFor (set_lease None d)) in
      match fromStep with Some s => set_continuation (Some s) d1 | None => d1 end
  | suspend status => set_status status (set_lease None (set_heartbeatAt (Some now) d))
  | finish status error =>
      let d1 := set_status status (set_lease None (set_finishedAt (Some now) d)) in
      match error with Some e => set_error (Some e) d1 | None => d1 end
  end.

Definition release (now : Z) (runId token : string) (intent : ReleaseIntent) c : outcome LeaseLostError unit * C :=
  let '(matched, c') := updateOne runId (holds_token token) (release_update now intent) c in
  (if matched then Ret () else Throw (LeaseLost runId), c').

Definition lease_exhausted_error (attempts : Z) : RunError := {|
  e_code := "lease_exhausted";
  e_message := "Run reclaimed " +:+ pretty attempts +:+ " times without completing. " +:+
               "Failing with a partial result rather than retrying indefinitely." |}.

(** The update of [sweep] for one stalled run, computed from the document the
    scan returned. *)
Definition sweep_update (now maxAttempts : Z) (random : Q) (seen d : RunDoc) : RunDoc :=
  if maxAttempts <=? run_attempts seen then
    set_status failed (set_lease None (set_finishedAt (Some now)
      (set_error (Some (lease_exhausted_error (run_attempts seen))) d)))
  else
    set_status queued (set_lease None
      (set_scheduledFor (now + backoffMs random (run_attempts seen) 1000 60000) d)).

Record SweepCount := { sw_requeued : Z; sw_failed : Z }.

(** One iteration of the loop of [sweep], with the precondition re-asserted. *)
Definition sweep_one (now maxAttempts : Z) (random : Q) (runId : string) (seen : RunDoc) c : bool * C :=
  updateOne runId (stalled now) (sweep_update now maxAttempts random seen) c.

Fixpoint sweep_all (now maxAttempts : Z) (random : string → Q) (found : list (string * RunDoc))
    (n : SweepCount) c : SweepCount * C :=
  match found with
  | [] => (n, c)
  | (runId, seen) :: found' =>
      let '(matched, c') := sweep_one now maxAttempts (random runId) runId seen c in
      let n' := if matched then
                  if maxAttempts <=? run_attempts seen
                  then {| sw_requeued := sw_requeued n; sw_failed := sw_failed n + 1 |}
                  else {| sw_requeued := sw_requeued n + 1; sw_failed := sw_failed n |}
                else n in
      sweep_all now maxAttempts random found' n' c'
  end.

(** [random] gives the draw made for each run the loop visits. *)
Definition sweep (now maxAttempts : Z) (random : string → Q) (limit : nat) c : SweepCount * C :=
  sweep_all now maxAttempts random (find_docs (stalled now) until_le limit c)
    {| sw_requeued := 0; sw_failed := 0 |} c.

Definition findOrphanedQueued (now olderThanMs : Z) (limit : nat) c : list string :=
  (find_docs (λ d, bool_decide (run_status d = queued) && (run_scheduledFor d <=? now - olderThanMs))
     scheduled_le limit c).*1.

(** *** RunRepository: the writes on the run document *)

(** [ScopedCollection]: the workspace of the repository is part of every filter. *)
Definition scoped (ws : string) (p : RunDoc → bool) (d : RunDoc) : bool :=
  p d && String.eqb (sp_workspaceId (run_spec d)) ws.

(** [cancel]: the lease is deliberately left alone. *)
Definition cancel (ws : string) (now : Z) (runId : string) c : bool * C :=
  updateOne runId (scoped ws (λ d, negb (isTerminal (run_status d))))
    (λ d, set_status cancelled (set_finishedAt (Some now) d)) c.

Record ConsumptionDelta := {
  cd_steps : option Z; cd_toolCalls : option Z; cd_tokens : option Z; cd_costUsd : option Q }.

(** [$inc] of the consumption and usage fields; the wall clock is not among them. *)
Definition inc_consumption (delta : ConsumptionDelta) (usage : option Usage) (d : RunDoc) : RunDoc :=
  set_consumed {| c_steps := c_steps (run_consumed d) + default 0 (cd_steps delta);
                  c_toolCalls := c_toolCalls (run_consumed d) + default 0 (cd_toolCalls delta);
                  c_tokens := c_tokens (run_consumed d) + default 0 (cd_tokens delta);
                  c_wallClockMs := c_wallClockMs (run_consumed d);
                  c_costUsd := (c_costUsd (run_consumed d) + default 0%Q (cd_costUsd delta))%Q |}
  match usage with
  | Some u => set_usage (addUsage (run_usage d) u) d
  | None => d
  end.

Definition recordConsumption (ws runId token : string) (delta : ConsumptionDelta)
    (usage : option Usage) c : C :=
  (updateOne runId (scoped ws (holds_token token)) (inc_consumption delta usage) c).2.

(** The guarded counter of [appendStep]: the sequence number of the new step,
    or nothing when the lease is not held. *)
Definition reserve_step (ws runId token : string) c : option Z * C :=
  match findOneAndUpdate (scoped ws (λ d, bool_decide (run_id d = runId) && holds_token token d))
          (λ _ _, true) (λ d, set_nextStepSeq (run_nextStepSeq d + 1) d) c with
  | (Some (_, before), c') => (Some (run_nextStepSeq before), c')
  | (None, c') => (None, c')
  end.

(** The document [create] inserts. *)
Definition new_run (id : string) (spec : RunSpec) (priority : option Z) (now : Z) : RunDoc := {|
  run_id := id; run_spec := spec; run_status := queued; run_priority := default 0 priority;
  run_scheduledFor := now; run_lease := None; run_attempts := 0; run_continuation := None;
  run_consumed := emptyConsumption; run_usage := emptyUsage; run_nextStepSeq := 1;
  run_error := None; run_startedAt := None; run_finishedAt := None; run_heartbeatAt := None
|}.

End Operations.

(** ** Executors and sweepers interleaving

    Each label is one atomic command on the collection, so a list of labels is
    an interleaving of any number of executors, web requests and sweepers.  A
    sweeper's update carries the document an earlier scan returned, which may
    be stale. *)
Inductive qop :=
| OpCreate (now : Z) (id : string) (spec : RunSpec) (priority : option Z)
| OpEnqueue (now : Z) (id : string) (priority scheduledFor : option Z)
| OpClaim (now : Z) (token owner : string) (leaseMs : Z) (workspaceIds : option (list string))
| OpHeartbeat (now : Z) (id token : string) (leaseMs : Z)
| OpRelease (now : Z) (id token : string) (intent : ReleaseIntent)
| OpSweepOne (now maxAttempts : Z) (random : Q) (id : string) (seen : RunDoc)
| OpCancel (ws : string) (now : Z) (id : string)
| OpRecord (ws id token : string) (delta : ConsumptionDelta) (usage : option Usage)
| OpReserveStep (ws id token : string).

(** Two runs clash on the unique index over the workspace and the key. *)
Definition idempotency_clash (a b : RunDoc) : bool :=
  String.eqb (sp_workspaceId (run_spec a)) (sp_workspaceId (run_spec b)) &&
  match sp_idempotencyKey (run_spec a), sp_idempotencyKey (run_spec b) with
  | Some k, Some k' => String.eqb k k'
  | _, _ => false
  end.

(** The lease tokens handed out so far are a ghost component. *)
Definition issued (op : qop) (T : gset string) : gset string :=
  match op with OpClaim _ token _ _ _ => {[token]} ∪ T | _ => T end.

(** [crypto.randomUUID] does not repeat; intents are well typed. *)
Definition legal (op : qop) (T : gset string) : Prop :=
  match op with
  | OpClaim _ token _ _ _ => token ∉ T
  | OpRelease _ _ _ intent => intent_ok intent = true
  | _ => True
  end.

Section Interleaving.
Context {C : Type} `{CollectionLaws RunDoc C}.
Implicit Types (c : C) (T : gset string).

Definition exec (op : qop) (c : C) : C :=
  match op with
  | OpCreate now id spec priority => (insertOne idempotency_clash id (new_run id spec priority now) c).2
  | OpEnqueue now id p s => (enqueue now id p s c).2
  | OpClaim now token o ms ws => (claim now token o ms ws c).2
  | OpHeartbeat now id token ms => (heartbeat now id token ms c).2
  | OpRelease now id token i => (release now id token i c).2
  | OpSweepOne now m r id seen => (sweep_one now m r id seen c).2
  | OpCancel ws now id => (cancel ws now id c).2
  | OpRecord ws id token delta u => recordConsumption ws id token delta u c
  | OpReserveStep ws id token => (reserve_step ws id token c).2
  end.

Inductive qsteps : C → gset string → list qop → C → gset string → Prop :=
| qs_nil c T : qsteps c T [] c T
| qs_cons c T op ops c' T' :
    legal op T → qsteps (exec op c) (issued op T) ops c' T' → qsteps c T (op :: ops) c' T'.

(** States any interleaving reaches from an empty collection. *)
Definition reachable c T : Prop := ∃ c0 ops, docs c0 = ∅ ∧ qsteps c0 ∅ ops c T.

(** *** One command changes at most one document *)

Inductive doc_step (op : qop) (id : string) : option RunDoc → RunDoc → Prop :=
| ds_create now spec p :
    op = OpCreate now id spec p → doc_step op id None (new_run id spec p now)
| ds_enqueue now p s d :
    op = OpEnqueue now id p s →
    run_status d ∈ [waiting_approval; waiting_input; waiting_tool; queued] →
    doc_step op id (Some d)
      (let d1 := set_status queued (set_scheduledFor (default now s) (set_lease None d)) in
       match p with Some p => set_priority p d1 | None => d1 end)
| ds_claim now token owner ms ws d :
    op = OpClaim now token owner ms ws → claimable now ws d = true →
    doc_step op id (Some d) (claim_update now owner token ms d)
| ds_heartbeat now token ms d l :
    op = OpHeartbeat now id token ms → run_lease d = Some l → l_token l = token →
    doc_step op id (Some d)
      (set_heartbeatAt (Some now)
        (set_lease (Some {| l_owner := l_owner l; l_until := now + ms; l_token := token |}) d))
| ds_release now token i d :
    op = OpRelease now id token i → holds_token token d = true →
    doc_step op id (Some d) (release_update now i d)
| ds_sweep now m r seen d :
    op = OpSweepOne now m r id seen → stalled now d = true →
    doc_step op id (Some d) (sweep_update now m r seen d)
| ds_cancel ws now d :
    op = OpCancel ws now id → sp_workspaceId (run_spec d) = ws → isTerminal (run_status d) = false →
    doc_step op id (Some d) (set_status cancelled (set_finishedAt (Some now) d))
| ds_record ws token delta u d :
    op = OpRecord ws id token delta u → sp_workspaceId (run_spec d) = ws → holds_token token d = true →
    doc_step op id (Some d) (inc_consumption delta u d)
| ds_reserve ws token d :
    op = OpReserveStep ws (run_id d) token → sp_workspaceId (run_spec d) = ws → holds_token token d = true →
    doc_step op id (Some d) (set_nextStepSeq (run_nextStepSeq d + 1) d).

#[local] Hint Constructors doc_step : core.

Lemma holds_token_lease token d :
  holds_token token d = true ↔ ∃ l, run_lease d = Some l ∧ l_token l = token.
Proof.
  unfold holds_token. destruct (run_lease d) as [l|]; split.
  - intros Ht%String.eqb_eq. eauto.
  - intros (? & [= <-] & <-). apply String.eqb_refl.
  - done.
  - by intros (? & ? & _).
Qed.

Instance any_order : SortOrder (λ _ _ : RunDoc, true).
Proof. by split. Qed.
Instance claim_order : SortOrder claim_le.
Proof.
  unfold claim_le. split; intros *.
  - rewrite orb_false_iff, andb_false_iff, orb_true_iff, andb_true_iff. lia.
  - rewrite !orb_true_iff, !andb_true_iff. lia.
Qed.
Instance until_order : SortOrder until_le.
Proof.
  unfold until_le. split; intros a b; [|intros d];
    destruct (run_lease a), (run_lease b); try destruct (run_lease d); lia || done.
Qed.
Instance scheduled_order : SortOrder scheduled_le.
Proof. unfold scheduled_le. split; intros; lia. Qed.

(** Splits on whether the guarded [updateOne] of the goal matched. *)
Ltac update_cases :=
  match goal with
  | |- context [updateOne ?id ?p ?f ?c] =>
      let Hm := fresh in let Hu := fresh in let E := fresh in
      destruct (updateOne_cases id p f c) as [(d & E & Hp & Hm & Hu)|(_ & Hm & Hu)];
      destruct (updateOne id p f c); simpl in *; subst;
      [right; exists id, (f d); rewrite E; bool_prop; split; [|done] | by left]
  end.

(** Either nothing changes or exactly the document of one run, by [doc_step]. *)
Lemma exec_cases op c :
  docs (exec op c) = docs c ∨
  ∃ id d', doc_step op id (docs c !! id) d' ∧ docs (exec op c) = <[id := d']> (docs c).
Proof.
  destruct op as [now id spec p|now id p s|now tok w ms ws|now id tok ms|now id tok i
                 |now m r id seen|ws now id|ws id tok dl u|ws id tok]; simpl.
  - destruct (insertOne_cases idempotency_clash id (new_run id spec p now) c) as [(_ & E & _ & ->)|[_ ->]]; [right|by left].
    exists id. eexists. rewrite E. eauto.
  - unfold enqueue. update_cases. eauto.
  - unfold claim. destruct (findOneAndUpdate _ _ _ c) as [[[id d]|] c'] eqn:E; simpl.
    + destruct (findOneAndUpdate_hit _ _ _ _ _ _ _ _ E) as (Hd & Hp & _ & Hu).
      right. exists id. eexists. rewrite Hd. eauto.
    + left. apply (findOneAndUpdate_miss _ _ _ _ _ _ E).
  - unfold heartbeat. update_cases. apply holds_token_lease in Hp as (l & Hl & Ht). rewrite Hl. simpl.
    subst. eauto.
  - unfold release. update_cases. eauto.
  - unfold sweep_one. update_cases. eauto.
  - unfold cancel. update_cases. unfold scoped in *. bool_prop. eauto.
  - unfold recordConsumption. update_cases. unfold scoped in *. bool_prop. eauto.
  - unfold reserve_step. destruct (findOneAndUpdate _ _ _ c) as [[[k d]|] c'] eqn:E; simpl.
    + destruct (findOneAndUpdate_hit _ _ _ _ _ _ _ _ E) as (Hd & Hp & _ & Hu).
      unfold scoped in Hp. bool_prop. right. exists k. eexists. rewrite Hd. subst. eauto.
    + left. apply (findOneAndUpdate_miss _ _ _ _ _ _ E).
Qed.

(** *** The invariant of the collection *)

Record doc_ok (T : gset string) (id : string) (d : RunDoc) : Prop := {
  ok_id : run_id d = id;
  ok_running : run_status d = running → is_Some (run_lease d);
  ok_lease : ∀ l, run_lease d = Some l → run_status d = running ∨ run_status d = cancelled;
  ok_token : ∀ l, run_lease d = Some l → l_token l ∈ T;
}.

(** Every document is well formed and no two runs share a lease token. *)
Definition queue_ok (c : C) (T : gset string) : Prop :=
  (∀ id d, docs c !! id = Some d → doc_ok T id d) ∧
  (∀ id1 id2 d1 d2 l1 l2,
     docs c !! id1 = Some d1 → docs c !! id2 = Some d2 →
     run_lease d1 = Some l1 → run_lease d2 = Some l2 → l_token l1 = l_token l2 → id1 = id2).

Lemma intent_status i now d :
  intent_ok i = true → run_status (release_update now i d) ≠ running ∧ run_lease (release_update now i d) = None.
Proof.
  destruct i as [? []|st|st []]; simpl; intros Hi; (split; [|done]); try done;
    intros ->; done.
Qed.

(** A lease of the new document was there before, or its token is fresh. *)
Lemma doc_step_lease op T id od d' l' :
  legal op T → doc_step op id od d' → run_lease d' = Some l' →
  (∃ d l, od = Some d ∧ run_lease d = Some l ∧ l_token l = l_token l') ∨
  (l_token l' ∉ T ∧ l_token l' ∈ issued op T).
Proof.
  intros Hl Hs. destruct Hs; subst; simpl in *.
  - done.
  - by destruct p.
  - intros [= <-]. right. simpl. set_solver.
  - intros [= <-]. left. eauto.
  - destruct (intent_status i now d Hl) as [_ ->]. done.
  - unfold sweep_update. by case_match.
  - left. eauto.
  - left. destruct u; eauto.
  - left. eauto.
Qed.

Lemma issued_mono op T : T ⊆ issued op T.
Proof. destruct op; set_solver. Qed.

Lemma doc_step_ok op T id od d' :
  legal op T → (∀ d, od = Some d → doc_ok T id d) → doc_step op id od d' → doc_ok (issued op T) id d'.
Proof.
  intros Hl Hok Hs. split.
  - destruct Hs; simpl; try done; try (eapply ok_id; by eauto).
    + destruct p; simpl; eapply ok_id; eauto.
    + destruct i as [? []|?|? []]; simpl; eapply ok_id; eauto.
    + unfold sweep_update. case_match; simpl; eapply ok_id; eauto.
    + destruct u; simpl; eapply ok_id; eauto.
  - destruct Hs; subst; simpl in *; try done; try (eapply ok_running; by eauto).
    + by destruct p.
    + intros Hr. by destruct (intent_status i now d Hl) as [? _].
    + unfold sweep_update. by case_match.
    + destruct u; simpl; eapply ok_running; eauto.
  - destruct Hs; subst; simpl in *; try done; eauto; try (eapply ok_lease; by eauto).
    + by destruct p.
    + intros _ _. eapply ok_lease; eauto.
    + destruct (intent_status i now d Hl) as [_ ->]. done.
    + unfold sweep_update. by case_match.
    + destruct u; simpl; eapply ok_lease; eauto.
  - intros l' Hl'. destruct (doc_step_lease op T id od d' l' Hl Hs Hl') as [(d & l & -> & ? & <-)|[_ ?]]; [|done].
    eapply issued_mono, ok_token; eauto.
Qed.

Lemma exec_ok op c T : legal op T → queue_ok c T → queue_ok (exec op c) (issued op T).
Proof.
  intros Hl [Hdoc Hdis]. destruct (exec_cases op c) as [E|(id & d' & Hs & E)].
  { unfold queue_ok. rewrite E. split; [|done]. intros id d [????]%Hdoc. split; try done.
    intros. by eapply issued_mono; eauto. }
  assert (∀ id2 d2 l1 l2, id2 ≠ id → docs c !! id2 = Some d2 → run_lease d' = Some l1 →
            run_lease d2 = Some l2 → l_token l1 = l_token l2 → False) as Hnew.
  { intros id2 d2 l1 l2 Hne H2 Hl1 Hl2 He.
    destruct (doc_step_lease _ _ _ _ _ _ Hl Hs Hl1) as [(d & l & Hd & Hld & Heq)|[Hn _]].
    - apply Hne. symmetry. eapply (Hdis id id2); eauto. congruence.
    - apply Hn. rewrite He. eapply ok_token; eauto. }
  split.
  - rewrite E. intros id0 d0 [[<- <-]|[Hne Hd0]]%lookup_insert_Some.
    + eapply doc_step_ok; eauto.
    + destruct (Hdoc id0 d0 Hd0) as [????]. split; try done.
      intros. eapply issued_mono; eauto.
  - rewrite E. intros id1 id2 d1 d2 l1 l2.
    intros [[<- <-]|[? ?]]%lookup_insert_Some [[<- <-]|[? ?]]%lookup_insert_Some Hl1 Hl2 He; try done.
    + by destruct (Hnew id2 d2 l1 l2).
    + by destruct (Hnew id1 d1 l2 l1).
    + eapply Hdis; eauto.
Qed.

Lemma qsteps_ok c T ops c' T' : qsteps c T ops c' T' → queue_ok c T → queue_ok c' T'.
Proof. induction 1; auto using exec_ok. Qed.

Lemma reachable_ok c T : reachable c T → queue_ok c T.
Proof.
  intros (c0 & ops & E & Hs). eapply qsteps_ok; [done|].
  split; intros *; rewrite E, lookup_empty; done.
Qed.

Lemma qsteps_issued c T ops c' T' : qsteps c T ops c' T' → T ⊆ T'.
Proof. induction 1; [done|]. pose proof (issued_mono op T). set_solver. Qed.

(** *** Consequences of one command *)

(** The token is not the one on the lease of the run. *)
Definition not_held (tok id : string) (c : C) : Prop :=
  ∀ d, docs c !! id = Some d → holds_token tok d = false.

Lemma not_held_exec op c T tok id :
  legal op T → tok ∈ T → not_held tok id c → not_held tok id (exec op c).
Proof.
  intros Hl Ht Hn. destruct (exec_cases op c) as [E|(id' & d' & Hs & E)]; unfold not_held; rewrite E; [done|].
  intros d [[-> <-]|[_ Hd]]%lookup_insert_Some; [|by apply Hn].
  apply not_true_iff_false. intros (l & Hl' & Htok)%holds_token_lease.
  destruct (doc_step_lease _ _ _ _ _ _ Hl Hs Hl') as [(d0 & l0 & Hd & Hl0 & He)|[Hf _]].
  - specialize (Hn d0 Hd). rewrite <-not_true_iff_false in Hn. apply Hn.
    apply holds_token_lease. exists l0. split; congruence.
  - congruence.
Qed.

Lemma not_held_qsteps c T ops c' T' tok id :
  qsteps c T ops c' T' → tok ∈ T → not_held tok id c → not_held tok id c'.
Proof.
  induction 1 as [|c T op ops c' T' Hl Hs IH]; [done|]. intros Ht Hn.
  apply IH; [by apply issued_mono|by eapply not_held_exec].
Qed.

(** What every lease-guarded write does without the lease. *)
Definition refused (tok id : string) (c : C) : Prop :=
  (∀ now ms, (heartbeat now id tok ms c).1 = Throw (LeaseLost id) ∧ docs (heartbeat now id tok ms c).2 = docs c) ∧
  (∀ now i, (release now id tok i c).1 = Throw (LeaseLost id) ∧ docs (release now id tok i c).2 = docs c) ∧
  (∀ ws, (reserve_step ws id tok c).1 = None ∧ docs (reserve_step ws id tok c).2 = docs c) ∧
  (∀ ws delta u, docs (recordConsumption ws id tok delta u c) = docs c).

Lemma refused_of_not_held c tok id :
  (∀ k d, docs c !! k = Some d → run_id d = k) → not_held tok id c → refused tok id c.
Proof.
  intros Hok Hn.
  assert (∀ p f, (∀ d, p d = true → holds_token tok d = true) →
    (updateOne id p f c).1 = false ∧ docs (updateOne id p f c).2 = docs c) as Hu.
  { intros p f Hp. apply updateOne_miss. intros d Hd. apply not_true_iff_false. intros Hp'%Hp.
    by rewrite (Hn d Hd) in Hp'. }
  split_and!.
  - intros now ms. unfold heartbeat.
    match goal with |- context [updateOne ?i ?p ?f c] => destruct (Hu p f) as [H1 H2]; [done|];
      destruct (updateOne i p f c); simpl in *; by subst end.
  - intros now i. unfold release.
    match goal with |- context [updateOne ?i ?p ?f c] => destruct (Hu p f) as [H1 H2]; [done|];
      destruct (updateOne i p f c); simpl in *; by subst end.
  - intros ws. unfold reserve_step.
    destruct (findOneAndUpdate _ _ _ c) as [[[k d]|] c'] eqn:E; simpl.
    + destruct (findOneAndUpdate_hit _ _ _ _ _ _ _ _ E) as (Hd & Hp & _ & _).
      unfold scoped in Hp. bool_prop. exfalso.
      assert (k = id) as -> by (rewrite <-(Hok k d Hd); done).
      by rewrite (Hn d Hd) in *.
    + by destruct (findOneAndUpdate_miss _ _ _ _ _ _ E).
  - intros ws delta u. unfold recordConsumption. apply Hu. unfold scoped. intros. by bool_prop.
Qed.

Lemma not_held_refused c T tok id : queue_ok c T → not_held tok id c → refused tok id c.
Proof. intros [Hok _]. apply refused_of_not_held. intros k d Hd. by eapply ok_id, Hok. Qed.

Lemma claim_cases now tok w ms ws c :
  (∃ id d, docs c !! id = Some d ∧ claimable now ws d = true ∧
     (∀ id' d', docs c !! id' = Some d' → claimable now ws d' = true → claim_le d d' = true) ∧
     (claim now tok w ms ws c).1 =
       Some {| cr_run := claim_update now w tok ms d; cr_leaseToken := tok; cr_leaseUntil := now + ms |} ∧
     docs (claim now tok w ms ws c).2 = <[id := claim_update now w tok ms d]> (docs c)) ∨
  (∀ id d, docs c !! id = Some d → claimable now ws d = false) ∧
  (claim now tok w ms ws c).1 = None ∧ docs (claim now tok w ms ws c).2 = docs c.
Proof.
  unfold claim. destruct (findOneAndUpdate _ _ _ c) as [[[id d]|] c'] eqn:E; simpl.
  - destruct (findOneAndUpdate_hit _ _ _ _ _ _ _ _ E) as (Hd & Hp & Hbest & Hu).
    left. exists id, d. auto.
  - right. destruct (findOneAndUpdate_miss _ _ _ _ _ _ E). auto.
Qed.

(** ** The theorems *)

(** In every interleaving of executors, sweepers and requests: a running
    run has a lease, only a running or cancelled run has one, every lease token
    was issued by a claim, and no two runs carry the same token. *)
Theorem queue_invariant c T : reachable c T → queue_ok c T.
Proof. apply reachable_ok. Qed.

(** C1.  Fencing: once the token of an executor is not the one on the lease of
    a run, every lease-guarded write it attempts on that run is refused and
    changes nothing, now and after any further interleaving. *)
Theorem lost_lease_stays_lost c T ops c' T' tok id :
  reachable c T → tok ∈ T → not_held tok id c → qsteps c T ops c' T' → refused tok id c'.
Proof.
  intros Hr Ht Hn Hs. eapply not_held_refused.
  - eapply qsteps_ok, reachable_ok; eauto.
  - eapply not_held_qsteps; eauto.
Qed.

(** A claim fences every earlier executor of the run: all tokens issued
    before it are refused on the claimed run, from then on. *)
Theorem claim_fences_earlier_executors c T now tok' w ms ws cr ops c' T' tok :
  reachable c T → tok' ∉ T → tok ∈ T →
  (claim now tok' w ms ws c).1 = Some cr →
  qsteps (claim now tok' w ms ws c).2 ({[tok']} ∪ T) ops c' T' →
  refused tok (run_id (cr_run cr)) c'.
Proof.
  intros Hr Ht' Ht Hc Hs. apply reachable_ok in Hr.
  assert (legal (OpClaim now tok' w ms ws) T) as Hl by done.
  pose proof (exec_ok _ _ _ Hl Hr) as Hok. simpl in Hok.
  eapply not_held_refused; [by eapply qsteps_ok|].
  eapply not_held_qsteps; [done|set_solver|].
  destruct (claim_cases now tok' w ms ws c) as [(id & d & Hd & _ & _ & E & Hu)|(_ & E & _)]; [|congruence].
  rewrite E in Hc. injection Hc as <-. simpl.
  assert (run_id d = id) as -> by (by eapply ok_id, (proj1 Hr)).
  unfold not_held. rewrite Hu. intros d0. rewrite lookup_insert_eq. intros [= <-].
  apply not_true_iff_false. intros (l & [= <-] & ?)%holds_token_lease. simpl in *. congruence.
Qed.

(** A claim takes a run whose turn it is (highest priority, then earliest
    schedule, among the claimable ones), puts the new lease on it, counts the
    attempt, keeps the first start time and touches no other run; it returns
    nothing exactly when nothing is claimable. *)
Theorem claim_takes_the_best now tok w ms ws c :
  match (claim now tok w ms ws c).1 with
  | Some cr =>
      ∃ id d, docs c !! id = Some d ∧ claimable now ws d = true ∧
        (∀ id' d', docs c !! id' = Some d' → claimable now ws d' = true →
           run_priority d' < run_priority d ∨
           run_priority d' = run_priority d ∧ run_scheduledFor d <= run_scheduledFor d') ∧
        cr_run cr = claim_update now w tok ms d ∧
        run_status (cr_run cr) = running ∧
        run_lease (cr_run cr) = Some {| l_owner := w; l_until := now + ms; l_token := tok |} ∧
        run_attempts (cr_run cr) = run_attempts d + 1 ∧
        docs (claim now tok w ms ws c).2 = <[id := cr_run cr]> (docs c)
  | None => (∀ id d, docs c !! id = Some d → claimable now ws d = false) ∧
            docs (claim now tok w ms ws c).2 = docs c
  end.
Proof.
  destruct (claim_cases now tok w ms ws c) as [(id & d & Hd & Hc & Hb & -> & Hu)|(Hn & -> & Hu)].
  - exists id, d. split_and!; try done. intros id' d' Hd' Hc'.
    specialize (Hb _ _ Hd' Hc'). unfold claim_le in Hb.
    apply orb_true_iff in Hb as [?|?]; bool_prop; lia.
  - done.
Qed.

(** Re-enqueueing never takes a run from an executor: in every reachable
    state a run that [enqueue] accepts carries no lease. *)
Theorem enqueue_spares_live_leases c T now id p s :
  reachable c T → (enqueue now id p s c).1 = true →
  ∃ d, docs c !! id = Some d ∧ run_lease d = None.
Proof.
  intros Hr%reachable_ok Hm. apply updateOne_true in Hm as (d & Hd & Hp & _).
  exists d. split; [done|]. destruct (run_lease d) as [l|] eqn:E; [exfalso|done].
  apply bool_decide_eq_true in Hp.
  destruct (ok_lease _ _ _ (proj1 Hr id d Hd) l E) as [Hs | Hs]; rewrite Hs in Hp;
    by repeat (apply elem_of_cons in Hp as [?|Hp]; [done|]); apply elem_of_nil in Hp.
Qed.

(** A run that finished (terminal status, lease given back) is never
    changed again, whatever is interleaved: neither re-enqueued, nor claimed,
    swept, cancelled, charged or recreated. *)
Theorem finished_runs_are_final c T ops c' T' id d :
  qsteps c T ops c' T' →
  docs c !! id = Some d → isTerminal (run_status d) = true → run_lease d = None →
  docs c' !! id = Some d.
Proof.
  intros Hs Hd Hterm Hl. induction Hs as [|c T op ops c' T' _ _ IH]; [done|]. apply IH.
  destruct (exec_cases op c) as [E|(id' & d' & Hstep & E)]; rewrite E; [done|].
  destruct (decide (id' = id)) as [->|Hne]; [exfalso|by rewrite lookup_insert_ne].
  rewrite Hd in Hstep.
  assert (∀ tok, holds_token tok d = false) as Hno by (intros; unfold holds_token; by rewrite Hl).
  inversion Hstep; subst; try congruence.
  - destruct (run_status d); try done;
      by repeat (match goal with H : _ ∈ _ |- _ => apply elem_of_cons in H as [?|H]; [done|] end);
      match goal with H : _ ∈ [] |- _ => apply elem_of_nil in H end.
  - unfold claimable in *. bool_prop. by destruct (run_status d).
  - unfold stalled in *. bool_prop. by destruct (run_status d).
Qed.

(** *** The sweeper *)

Lemma backoffMs_range r attempts base cap :
  (0 <= r)%Q → (r < 1)%Q → 0 < base → 0 < cap →
  0 <= backoffMs r attempts base cap < Z.min cap (base * 2 ^ Z.max 0 (attempts - 1)).
Proof.
  intros Hr0 Hr1 Hb Hc. unfold backoffMs. set (k := Z.min _ _).
  assert (0 < 2 ^ Z.max 0 (attempts - 1)) by (apply Z.pow_pos_nonneg; lia).
  assert (0 < k) as Hk by nia.
  assert (0 < inject_Z k)%Q as Hq by (by rewrite <-(Zlt_Qlt 0)).
  split.
  - rewrite <-(Qfloor_Z 0). apply Qfloor_resp_le. apply Qmult_le_0_compat; [done|by apply Qlt_le_weak].
  - rewrite Zlt_Qlt. eapply Qle_lt_trans; [apply Qfloor_le|].
    setoid_rewrite <-(Qmult_1_l (inject_Z k)) at 2. by apply Qmult_lt_compat_r.
Qed.

Lemma sweep_all_docs now m r found n c :
  NoDup found.*1 →
  (∀ id d, (id, d) ∈ found → docs c !! id = Some d ∧ stalled now d = true) →
  let res := sweep_all now m r found n c in
  (∀ id d, (id, d) ∈ found → docs res.2 !! id = Some (sweep_update now m (r id) d d)) ∧
  (∀ id, id ∉ found.*1 → docs res.2 !! id = docs c !! id) ∧
  sw_requeued res.1 + sw_failed res.1 = sw_requeued n + sw_failed n + Z.of_nat (length found).
Proof.
  revert n c. induction found as [|[id d] found IH]; intros n c Hnd Hf; simpl.
  { split_and!; [by intros ? ? ?%elem_of_nil|done|lia]. }
  apply NoDup_cons in Hnd as [Hid Hnd].
  destruct (Hf id d) as [Hd Hst]; [by left|].
  destruct (updateOne_hit id (stalled now) (sweep_update now m (r id) d) c d Hd Hst) as [H1 H2].
  unfold sweep_one. destruct (updateOne _ _ _ c) as [b c1]; simpl in *; subst b.
  match goal with |- context [sweep_all _ _ _ _ ?n' c1] => destruct (IH n' c1 Hnd) as (Ha & Hb & Hc) end.
  { intros id' d' Hin. destruct (Hf id' d') as [? ?]; [by right|]. split; [|done].
    rewrite H2, lookup_insert_ne; [done|]. intros ->. apply Hid.
    apply list_elem_of_fmap. by exists (id', d'). }
  split_and!.
  - intros id' d' [[= -> ->]|Hin]%elem_of_cons; [|by apply Ha].
    rewrite Hb by done. by rewrite H2, lookup_insert_eq.
  - intros id' Hn. apply not_elem_of_cons in Hn as [Hne Hn]. rewrite Hb by done. by rewrite H2, lookup_insert_ne.
  - rewrite Hc. case_match; simpl; lia.
Qed.

(** C38.  One sweep whose limit is not reached leaves no stalled run: each one
    is failed when its attempts are used up and otherwise put back in the
    queue, without a lease, at most a minute from now; runs that were not
    stalled are untouched and the counts add up to the runs handled. *)
Theorem sweep_recovers_stalled_runs now m (r : string → Q) limit c :
  (∀ id, 0 <= r id < 1)%Q →
  (length (find_docs (stalled now) until_le limit c) < limit)%nat →
  let res := sweep now m r limit c in
  (∀ id d, docs c !! id = Some d → stalled now d = true →
     ∃ d', docs res.2 !! id = Some d' ∧ run_lease d' = None ∧
       if m <=? run_attempts d then run_status d' = failed ∧ run_finishedAt d' = Some now
       else run_status d' = queued ∧ now <= run_scheduledFor d' < now + 60000) ∧
  (∀ id d, docs c !! id = Some d → stalled now d = false → docs res.2 !! id = Some d) ∧
  sw_requeued res.1 + sw_failed res.1 = Z.of_nat (length (find_docs (stalled now) until_le limit c)).
Proof.
  intros Hr Hlim. unfold sweep.
  destruct (sweep_all_docs now m r (find_docs (stalled now) until_le limit c)
              {| sw_requeued := 0; sw_failed := 0 |} c) as (Ha & Hb & Hc).
  { by apply find_docs_nodup, until_order. }
  { intros id d Hin. by apply find_docs_sound in Hin; [|apply until_order]. }
  split_and!; [| |done].
  - intros id d Hd Hs.
    destruct (find_docs_complete _ until_le limit c id d until_order Hd Hs) as [Hin|[? _]]; [|lia].
    eexists. split; [by apply Ha|]. unfold sweep_update. case_match; simpl; split; try done.
    split; [done|]. destruct (Hr id).
    destruct (backoffMs_range (r id) (run_attempts d) 1000 60000); [done|done|lia..].
  - intros id d Hd Hs. rewrite Hb; [done|]. intros Hin.
    apply list_elem_of_fmap in Hin as ([id' d'] & -> & Hin).
    apply find_docs_sound in Hin as [? ?]; [|apply until_order]. simpl in *. congruence.
Qed.

End Interleaving.

(** ** Concrete runs of the queue *)

Section Replay.
Context {C : Type} `{Collection RunDoc C}.

Definition replay (ops : list qop) (c : C) : C := fold_left (λ c op, exec op c) ops c.
Definition replay_tokens (ops : list qop) (T : gset string) : gset string :=
  fold_left (λ T op, issued op T) ops T.

Fixpoint all_legal (ops : list qop) (T : gset string) : Prop :=
  match ops with
  | [] => True
  | op :: ops' => legal op T ∧ all_legal ops' (issued op T)
  end.

Lemma qsteps_replay ops c T :
  all_legal ops T → qsteps c T ops (replay ops c) (replay_tokens ops T).
Proof.
  revert c T. induction ops as [|op ops IH]; intros c T; simpl.
  - intros _. apply qs_nil.
  - intros [Hl Hs]. apply qs_cons; [done|]. by apply IH.
Qed.
End Replay.

Notation runs := (gmap string RunDoc).

Definition sample_spec : RunSpec := {|
  sp_workspaceId := "ws_1"; sp_conversationId := "cnv_1"; sp_agentId := "agt_1";
  sp_agentVersionId := "ver_1";
  sp_agentSnapshot := {| as_systemPrompt := "You help."; as_modelRole := mr_reasoning;
                         as_capabilityBindings := []; as_maxToolCallsPerTurn := 8 |};
  sp_modelBindingId := "mb_1"; sp_trigger := (tr_user, None); sp_principal := PUser "usr_1" "ws_1" member;
  sp_budget := DEFAULT_BUDGET; sp_parentRunId := None; sp_depth := 0; sp_idempotencyKey := None;
  sp_queuedAt := 0 |}.

(** One executor claims, stalls, is swept; the run comes due again. *)
Definition stalled_history : list qop :=
  [OpCreate 0 "run_1" sample_spec None; OpClaim 1 "lse_1" "exec_1" 10 None;
   OpSweepOne 50 5 (1 # 2) "run_1" (claim_update 1 "exec_1" "lse_1" 10 (new_run "run_1" sample_spec None 0))].

Lemma stalled_history_reachable :
  reachable (C := runs) (replay stalled_history ∅) (replay_tokens stalled_history ∅).
Proof.
  exists ∅, stalled_history. split; [done|]. apply qsteps_replay. simpl. split_and!; set_solver.
Qed.

Lemma lost_lease_stays_lost_witness :
  refused (C := runs) "lse_1" "run_1"
    (replay [OpClaim 2000 "lse_2" "exec_2" 10 None] (replay stalled_history ∅)).
Proof.
  eapply (lost_lease_stays_lost (C := runs)).
  - apply stalled_history_reachable.
  - vm_compute. reflexivity.
  - intros d. vm_compute. intros [= <-]. reflexivity.
  - apply qsteps_replay. split; [|done]. unfold replay_tokens. simpl. set_solver.
Defined.

Lemma claim_fences_earlier_executors_witness :
  let res := claim 2000 "lse_2" "exec_2" 10 None (replay stalled_history (∅ : runs)) in
  ∃ cr, res.1 = Some cr ∧ run_id (cr_run cr) = "run_1" ∧ refused "lse_1" (run_id (cr_run cr)) res.2.
Proof.
  eexists. split; [vm_compute; reflexivity|]. split; [reflexivity|].
  eapply (claim_fences_earlier_executors (C := runs) (replay stalled_history ∅)
           (replay_tokens stalled_history ∅) 2000 "lse_2" "exec_2" 10 None _ []).
  - apply stalled_history_reachable.
  - vm_compute. discriminate.
  - vm_compute. reflexivity.
  - vm_compute. reflexivity.
  - apply qs_nil.
Defined.

(** Two runs wait; the one of higher priority is taken. *)
Definition two_waiting : runs :=
  replay [OpCreate 0 "run_1" sample_spec None; OpCreate 5 "run_2" sample_spec None;
          OpEnqueue 6 "run_2" (Some 7) None] ∅.

Lemma claim_takes_the_best_witness :
  let res := claim 10 "lse_1" "exec_1" 100 None two_waiting in
  run_id ∘ cr_run <$> res.1 = Some "run_2" ∧
  ∃ cr id d, docs two_waiting !! id = Some d ∧ claimable 10 None d = true ∧
    run_attempts (cr_run cr) = run_attempts d + 1 ∧ docs res.2 = <[id := cr_run cr]> (docs two_waiting).
Proof.
  intros res. assert (run_id ∘ cr_run <$> res.1 = Some "run_2") as Hid by (vm_compute; reflexivity).
  pose proof (claim_takes_the_best (C := runs) 10 "lse_1" "exec_1" 100 None two_waiting) as Hbest. fold res in Hbest.
  clearbody res. split; [exact Hid|]. destruct (res.1) as [cr|]; [|discriminate Hid].
  destruct Hbest as (id & d & Hd & Hc & _ & _ & _ & _ & Ha & Hu).
  exists cr, id, d. exact (conj Hd (conj Hc (conj Ha Hu))).
Defined.

Lemma queue_invariant_witness :
  queue_ok (C := runs) (replay stalled_history ∅) (replay_tokens stalled_history ∅).
Proof. apply (queue_invariant (C := runs)). apply stalled_history_reachable. Defined.

Lemma enqueue_spares_live_leases_witness :
  ∃ d, docs (replay stalled_history (∅ : runs)) !! "run_1" = Some d ∧ run_lease d = None.
Proof.
  apply (enqueue_spares_live_leases (C := runs) _ (replay_tokens stalled_history ∅) 60 "run_1" None None).
  - apply stalled_history_reachable.
  - vm_compute. reflexivity.
Defined.

(** The run is finished, then everything is tried on it. *)
Definition finished_history : list qop :=
  stalled_history ++
  [OpClaim 2000 "lse_2" "exec_2" 10 None; OpRelease 2005 "run_1" "lse_2" (finish succeeded None)].

Lemma finished_runs_are_final_witness :
  ∃ d, docs (replay [OpCancel "ws_1" 2010 "run_1"; OpEnqueue 2011 "run_1" None None;
                     OpClaim 3000 "lse_3" "exec_3" 10 None]
               (replay finished_history (∅ : runs))) !! "run_1" = Some d ∧ run_status d = succeeded.
Proof.
  eexists. split.
  - eapply (finished_runs_are_final (C := runs) _ (replay_tokens finished_history ∅)).
    + apply qsteps_replay. simpl. by split_and!.
    + vm_compute. reflexivity.
    + reflexivity.
    + reflexivity.
  - reflexivity.
Defined.

Lemma sweep_recovers_stalled_runs_witness :
  let c := replay [OpCreate 0 "run_1" sample_spec None; OpClaim 1 "lse_1" "exec_1" 10 None] (∅ : runs) in
  sw_requeued (sweep 50 5 (λ _, 1 # 2)%Q 50 c).1 = 1 ∧
  sw_requeued (sweep 50 5 (λ _, 1 # 2)%Q 50 c).1 + sw_failed (sweep 50 5 (λ _, 1 # 2)%Q 50 c).1 = 1.
Proof.
  intros c. split; [vm_compute; reflexivity|].
  destruct (sweep_recovers_stalled_runs (C := runs) 50 5 (λ _, 1 # 2)%Q 50 c) as (_ & _ & Hn).
  - intros _. split; [discriminate|reflexivity].
  - vm_compute. lia.
  - exact Hn.
Defined.

(** A cancellation is not final while an executor holds the lease: the
    executor's release at its slice boundary matches on the token alone, puts
    the cancelled run back in the queue, and the next claim runs it. *)
Theorem cancel_is_undone_by_release :
  let ops := [OpCreate 0 "run_1" sample_spec None; OpClaim 1 "lse_1" "exec_1" 1000 None;
              OpCancel "ws_1" 2 "run_1"] in
  let yield := OpRelease 3 "run_1" "lse_1" (requeue 3 (Some 4)) in
  run_status <$> (replay ops (∅ : runs) !! "run_1") = Some cancelled ∧
  run_status <$> (replay (ops ++ [yield]) (∅ : runs) !! "run_1") = Some queued ∧
  run_status <$> (replay (ops ++ [yield; OpClaim 4 "lse_2" "exec_2" 1000 None]) (∅ : runs) !! "run_1") = Some running ∧
  all_legal (ops ++ [yield; OpClaim 4 "lse_2" "exec_2" 1000 None]) ∅.
Proof. split_and!; [vm_compute; reflexivity..|]. simpl. split_and!; set_solver. Qed.

(** A slice boundary, [n] times: claim, then requeue. *)
Definition slices (n : nat) : list qop :=
  flat_map (λ i, [OpClaim 1 ("lse_" +:+ pretty (Z.of_nat i)) "exec_1" 1000 None;
                  OpRelease 1 "run_1" ("lse_" +:+ pretty (Z.of_nat i)) (requeue 1 None)]) (seq 0 n).

(** Every slice counts as an attempt: a run that yielded four times at its
    slice boundaries and then loses one lease, its first, is failed as
    exhausted instead of being requeued. *)
Theorem yields_use_up_attempts :
  let c := replay ([OpCreate 0 "run_1" sample_spec None] ++ slices 4 ++
                   [OpClaim 1 "lse_last" "exec_1" 10 None]) (∅ : runs) in
  run_status <$> ((sweep 50 5 (λ _, 1 # 2)%Q 50 c).2 !! "run_1") = Some failed ∧
  sw_failed (sweep 50 5 (λ _, 1 # 2)%Q 50 c).1 = 1.
Proof. split; vm_compute; reflexivity. Qed.
