(* ===== verification/LoopDetection.v ===== *)
(** * Loop detection

    Models packages/runtime/src/loop-detection.ts: the sliding window of call
    keys, the inspection of one call and of a whole phase. *)
From S2P Require Import Prelude Json.

Record ObservedCall := { oc_canonicalName : string; oc_args : value }.

(** [LoopVerdict]: not looping, or the name, the repeats and the message. *)
Inductive LoopVerdict :=
| NOT_LOOPING
| Looping (canonicalName : string) (repeats : Z) (message : string).

Definition looping (v : LoopVerdict) : bool :=
  match v with NOT_LOOPING => false | Looping _ _ _ => true end.

Record LoopDetector := { ld_threshold : Z; ld_window : Z; ld_recent : list string }.

Definition DEFAULT_LOOP_THRESHOLD : Z := 3.

Definition new_detector (threshold window : option Z) : LoopDetector :=
  {| ld_threshold := default DEFAULT_LOOP_THRESHOLD threshold;
     ld_window := default 24 window; ld_recent := [] |}.

(** [call.args ?? null]. *)
Definition args_or_null (v : value) : value := if is_undefined v then VNull else v.

Definition keyOf (call : ObservedCall) : string :=
  oc_canonicalName call +:+ "(" +:+ canonicalJson (args_or_null (oc_args call)) +:+ ")".

(** [push], then [shift] when the window is exceeded. *)
Definition push_key (window : Z) (recent : list string) (key : string) : list string :=
  let pushed := recent ++ [key] in
  if window <? Z.of_nat (length pushed) then tl pushed else pushed.

Definition record (d : LoopDetector) (call : ObservedCall) : LoopDetector :=
  {| ld_threshold := ld_threshold d; ld_window := ld_window d;
     ld_recent := push_key (ld_window d) (ld_recent d) (keyOf call) |}.

Definition detector_from (history : list ObservedCall) (threshold window : option Z) : LoopDetector :=
  fold_left record history (new_detector threshold window).

Definition count_key (key : string) (l : list string) : Z :=
  Z.of_nat (length (List.filter (λ k, String.eqb k key) l)).

Definition loop_message (repeats : Z) : string :=
  "This exact call was already made " +:+ pretty (repeats - 1) +:+
  " times with the same arguments and returned the same result. Repeating it will not produce " +:+
  "a different answer — change the arguments, use a different tool, or answer with what you have.".

Definition inspect (d : LoopDetector) (call : ObservedCall) : LoopVerdict :=
  let repeats := count_key (keyOf call) (ld_recent d) + 1 in
  if repeats <? ld_threshold d then NOT_LOOPING
  else Looping (oc_canonicalName call) repeats (loop_message repeats).

(** The loop over a copy of the detector. *)
Fixpoint probe_phase (probe : LoopDetector) (calls : list ObservedCall) : LoopVerdict :=
  match calls with
  | [] => NOT_LOOPING
  | call :: calls' =>
      match inspect probe call with
      | NOT_LOOPING => probe_phase (record probe call) calls'
      | verdict => verdict
      end
  end.

Definition inspectPhase (d : LoopDetector) (calls : list ObservedCall) : LoopVerdict :=
  probe_phase {| ld_threshold := ld_threshold d; ld_window := ld_window d; ld_recent := ld_recent d |} calls.

(** ** Reference: the last [window] keys ever recorded *)

Definition last_n {A} (n : nat) (l : list A) : list A := drop (length l - n) l.

Definition window_ok (d : LoopDetector) : Prop :=
  0 <= ld_window d ∧ Z.of_nat (length (ld_recent d)) <= ld_window d.

Lemma push_key_last_n w recent key :
  0 <= w → Z.of_nat (length recent) <= w →
  push_key w recent key = last_n (Z.to_nat w) (recent ++ [key]).
Proof.
  intros Hw Hl. unfold push_key, last_n. rewrite length_app. simpl.
  destruct (Z.ltb_spec w (Z.of_nat (length recent + 1))).
  - replace (length recent + 1 - Z.to_nat w)%nat with 1%nat by lia. by destruct recent.
  - replace (length recent + 1 - Z.to_nat w)%nat with 0%nat by lia. done.
Qed.

Lemma last_n_app_last_n {A} n (l k : list A) : last_n n (last_n n l ++ k) = last_n n (l ++ k).
Proof.
  unfold last_n. rewrite !length_app, length_drop.
  rewrite !drop_app, drop_drop, length_drop. f_equal; [|f_equal; lia].
  destruct (le_lt_dec (length l) n).
  - f_equal. lia.
  - f_equal. lia.
Qed.

Lemma length_last_n {A} n (l : list A) : (length (last_n n l) <= n)%nat.
Proof. unfold last_n. rewrite length_drop. lia. Qed.

Lemma record_window_ok d call : window_ok d → window_ok (record d call).
Proof.
  intros [Hw Hl]. split; [done|]. simpl. rewrite push_key_last_n by done.
  pose proof (length_last_n (Z.to_nat (ld_window d)) (ld_recent d ++ [keyOf call])). lia.
Qed.

Lemma record_recent d call :
  window_ok d → ld_recent (record d call) = last_n (Z.to_nat (ld_window d)) (ld_recent d ++ [keyOf call]).
Proof. intros [? ?]. by apply push_key_last_n. Qed.

Lemma fold_record_recent calls d :
  window_ok d →
  ld_recent (fold_left record calls d) = last_n (Z.to_nat (ld_window d)) (ld_recent d ++ map keyOf calls) ∧
  ld_threshold (fold_left record calls d) = ld_threshold d ∧
  ld_window (fold_left record calls d) = ld_window d.
Proof.
  revert d. induction calls as [|c calls IH]; intros d Hd; simpl.
  - rewrite app_nil_r. split; [|done]. destruct Hd. unfold last_n.
    by replace (length (ld_recent d) - Z.to_nat (ld_window d))%nat with 0%nat by lia.
  - destruct (IH (record d c)) as (H1 & H2 & H3); [by apply record_window_ok|].
    split_and!; try done. rewrite H1, record_recent by done. simpl. rewrite last_n_app_last_n.
    by rewrite <-app_assoc.
Qed.

Lemma inspect_looping d call :
  looping (inspect d call) = true ↔ ld_threshold d <= count_key (keyOf call) (ld_recent d) + 1.
Proof. unfold inspect. destruct (Z.ltb_spec (count_key (keyOf call) (ld_recent d) + 1) (ld_threshold d)); simpl; split; intros; done || lia. Qed.

Lemma probe_phase_looping calls d :
  looping (probe_phase d calls) = true ↔
  ∃ pre call post, calls = pre ++ call :: post ∧ looping (inspect (fold_left record pre d) call) = true.
Proof.
  revert d. induction calls as [|c calls IH]; intros d; simpl.
  { split; [done|]. by intros ([|] & ? & ? & ? & _). }
  destruct (looping (inspect d c)) eqn:E.
  - split; [|by destruct (inspect d c)]. intros _. exists [], c, calls. done.
  - destruct (inspect d c) eqn:Ei; [|done]. rewrite IH. split.
    + intros (pre & call & post & -> & ?). exists (c :: pre), call, post. done.
    + intros ([|c' pre] & call & post & [= -> ->] & Hl); simpl in *.
      * by rewrite Ei in Hl.
      * by exists pre, call, post.
Qed.

(** A phase is refused exactly when one of its calls would be at least the
    threshold-th identical one among the last [window] calls before it, the
    history and the earlier calls of the phase taken together. *)
Theorem inspectPhase_spec d calls :
  window_ok d →
  looping (inspectPhase d calls) = true ↔
  ∃ pre call post, calls = pre ++ call :: post ∧
    ld_threshold d <=
      count_key (keyOf call) (last_n (Z.to_nat (ld_window d)) (ld_recent d ++ map keyOf pre)) + 1.
Proof.
  intros Hd. unfold inspectPhase. destruct d as [t w r]. simpl in *. rewrite probe_phase_looping.
  split; intros (pre & call & post & -> & Hl); exists pre, call, post; (split; [done|]);
    destruct (fold_record_recent pre _ Hd) as (H1 & H2 & _); rewrite inspect_looping, H1, H2 in *; done.
Qed.

(** Reserialising the arguments does not hide a loop: two phases whose calls
    differ only in the order of the object keys of their arguments, at any
    depth, get the same verdict. *)
Theorem reordered_arguments_still_loop d calls calls' :
  Forall2 (λ a b, oc_canonicalName a = oc_canonicalName b ∧ same_json (oc_args a) (oc_args b)) calls calls' →
  inspectPhase d calls = inspectPhase d calls'.
Proof.
  intros Hf. unfold inspectPhase. generalize (Build_LoopDetector (ld_threshold d) (ld_window d) (ld_recent d)).
  induction Hf as [|a b calls calls' [Hn Hj] _ IH]; intros probe; simpl; [done|].
  assert (keyOf a = keyOf b) as Hk.
  { unfold keyOf. rewrite Hn. do 3 f_equal. apply canonicalJson_key_order.
    unfold args_or_null. inversion Hj; subst; [apply same_refl|by simpl; congruence..]. }
  assert (inspect probe a = inspect probe b) as -> by (unfold inspect; by rewrite Hk, Hn).
  assert (record probe a = record probe b) as -> by (unfold record; by rewrite Hk).
  by rewrite IH.
Qed.

Lemma inspectPhase_spec_witness :
  let call := {| oc_canonicalName := "files__read"; oc_args := VString "a.txt" |} in
  looping (inspectPhase (detector_from [call] None None) [call; call]) = true ↔
  ∃ pre c post, [call; call] = pre ++ c :: post ∧
    3 <= count_key (keyOf c) (last_n 24 ([keyOf call] ++ map keyOf pre)) + 1.
Proof.
  intros call. apply (inspectPhase_spec (detector_from [call] None None) [call; call]).
  split; vm_compute; discriminate.
Defined.

Lemma reordered_arguments_still_loop_witness :
  let one := {| oc_canonicalName := "files__read"; oc_args := VObject [("a", VNumber 1); ("b", VNull)] |} in
  let two := {| oc_canonicalName := "files__read"; oc_args := VObject [("b", VNull); ("a", VNumber 1)] |} in
  inspectPhase (detector_from [one; one] None None) [one] =
  inspectPhase (detector_from [one; one] None None) [two].
Proof.
  intros one two. apply (reordered_arguments_still_loop _ [one] [two]).
  constructor; [|constructor]. split; [reflexivity|].
  apply (same_object _ [("b", VNull); ("a", VNumber 1)]).
  - vm_compute. repeat constructor; set_solver.
  - constructor.
  - repeat constructor.
Defined.
