(* ===== verification/ToolNames.v ===== *)
(** * Provider-legal tool names

    Models packages/core/src/policy/tool-names.ts.  The vendor's [namePattern]
    is a regular expression that comes with the model's capabilities; it is a
    predicate here.  A string is a sequence of 8-bit code units. *)
From S2P Require Import Prelude Json Text.

Definition HASH_LENGTH : nat := 6.

(** [Number.prototype.toString(36)]. *)
Definition digit36 (n : Z) : Ascii.ascii :=
  Ascii.ascii_of_N (Z.to_N (if n <? 10 then 48 + n else 87 + n)).

Fixpoint short_loop (h1 h2 : Z) (value : string) : Z * Z :=
  match value with
  | EmptyString => (h1, h2)
  | String c value' =>
      short_loop (imul_u (Z.lxor h1 (code_of c)) 16777619) (imul_u (h2 + code_of c) 2246822507) value'
  end.

Definition pad_end (width : nat) (c : Ascii.ascii) (s : string) : string :=
  s +:+ Nat.iter (width - String.length s) (String c) "".

Definition shortHash (value : string) : string :=
  let '(h1, h2) := short_loop 2166136261 16777619 value in
  pad_end HASH_LENGTH "0"
    (str_take HASH_LENGTH (to_base 8 digit36 36 h1 "" +:+ to_base 8 digit36 36 h2 "")).

Record ToolNameRules := { namePattern : string → bool; maxNameLength : Z }.

(** [Map]s; only [get], [has] and [set] are used. *)
Record ToolNameMap := { toWire : gmap string string; toCanonical : gmap string string }.


(** [[a-zA-Z_]]. *)
Definition is_start (c : Ascii.ascii) : bool :=
  in_range 97 122 (code_of c) || in_range 65 90 (code_of c) || (code_of c =? 95).

(** [[a-zA-Z0-9_]]. *)
Definition is_word (c : Ascii.ascii) : bool := is_start c || in_range 48 57 (code_of c).

(** [replace(/_{3,}/g, '__')]: [run] underscores directly precede. *)
Fixpoint squeeze (run : nat) (s : string) : string :=
  match s with
  | EmptyString => EmptyString
  | String c s' =>
      if code_of c =? 95 then
        if (run <? 2)%nat then String c (squeeze (S run) s') else squeeze run s'
      else String c (squeeze 0 s')
  end.

Definition sanitise (name : string) : string :=
  let cleaned := squeeze 0 (str_map (λ c, if is_word c then c else "_"%char) name) in
  match cleaned with
  | String c _ => if is_start c then cleaned else String "t" cleaned
  | EmptyString => String "t" cleaned
  end.

(** The [Error] of [assertLegal]: the wire and the canonical name. *)
Inductive IllegalName := Illegal (wire canonical : string).

Definition assertLegal (wire canonical : string) (rules : ToolNameRules) : outcome IllegalName unit :=
  if namePattern rules wire then Ret () else Throw (Illegal wire canonical).

(** [wire.slice(0, Math.max(1, max - suffix.length)) + suffix]. *)
Definition with_suffix (rules : ToolNameRules) (wire canonical : string) : string :=
  let suffix := "_" +:+ shortHash canonical in
  str_take (Z.to_nat (Z.max 1 (maxNameLength rules - Z.of_nat (String.length suffix)))) wire +:+ suffix.

(** The name before other tools are looked at. *)
Definition plain_wire (rules : ToolNameRules) (canonical : string) : string :=
  let wire := sanitise canonical in
  if maxNameLength rules <? Z.of_nat (String.length wire) then with_suffix rules wire canonical else wire.

(** The body of the loop. *)
Definition add_name (rules : ToolNameRules) (m : ToolNameMap) (canonical : string)
    : outcome IllegalName ToolNameMap :=
  let wire := plain_wire rules canonical in
  let wire :=
    match toCanonical m !! wire with
    | Some other => if String.eqb other canonical then wire else with_suffix rules wire canonical
    | None => wire
    end in
  obind (assertLegal wire canonical rules) (λ _,
    Ret {| toWire := <[canonical := wire]> (toWire m); toCanonical := <[wire := canonical]> (toCanonical m) |}).

Fixpoint add_names (rules : ToolNameRules) (m : ToolNameMap) (names : list string)
    : outcome IllegalName ToolNameMap :=
  match names with
  | [] => Ret m
  | canonical :: names' => obind (add_name rules m canonical) (λ m', add_names rules m' names')
  end.

Definition buildToolNameMap (canonicalNames : list string) (rules : ToolNameRules)
    : outcome IllegalName ToolNameMap :=
  add_names rules {| toWire := ∅; toCanonical := ∅ |} canonicalNames.

Definition canonicalNameOf (m : ToolNameMap) (wireName : string) : string :=
  default wireName (toCanonical m !! wireName).

Definition wireNameOf (m : ToolNameMap) (canonical : string) : string :=
  default canonical (toWire m !! canonical).

(** ** Facts *)

Definition starts_legally (s : string) : bool :=
  match s with String c _ => is_start c | EmptyString => false end.

(** The common alphabet of the vendors. *)
Definition wire_shape (s : string) : bool := str_all is_word s && starts_legally s.

Lemma is_start_word c : is_start c = true → is_word c = true.
Proof. unfold is_word. by intros ->. Qed.

Lemma digit36_word n : 0 <= n < 36 → is_word (digit36 n) = true.
Proof.
  intros Hn. assert (∃ k, n = Z.of_nat k ∧ (k < 36)%nat) as (k & -> & Hk) by (exists (Z.to_nat n); lia).
  do 36 (destruct k as [|k]; [reflexivity|]). lia.
Qed.

Lemma to_base_all (P : Ascii.ascii → bool) fuel digit base n acc :
  0 < base → 0 <= n → (∀ k, 0 <= k < base → P (digit k) = true) →
  str_all P acc = true → str_all P (to_base fuel digit base n acc) = true.
Proof.
  intros Hb Hn HP. revert n acc Hn. induction fuel as [|fuel IH]; intros n acc Hn Ha; simpl; [done|].
  assert (str_all P (String (digit (n mod base)) acc) = true) as Ha'.
  { simpl. rewrite HP, Ha; [done|]. by apply Z.mod_pos_bound. }
  case_match; [done|]. apply IH; [|done]. by apply Z.div_pos.
Qed.

Lemma imul_u_nonneg a b : 0 <= imul_u a b.
Proof. unfold imul_u, u32. apply Z.mod_pos_bound. lia. Qed.

Lemma short_loop_nonneg v h1 h2 :
  0 <= h1 → 0 <= h2 → 0 <= (short_loop h1 h2 v).1 ∧ 0 <= (short_loop h1 h2 v).2.
Proof. revert h1 h2. induction v as [|c v IH]; intros; simpl; [done|]. apply IH; apply imul_u_nonneg. Qed.

Lemma iter_zeros_word k : str_all is_word (Nat.iter k (String "0") "") = true.
Proof. by induction k. Qed.

Lemma iter_zeros_length k c : String.length (Nat.iter k (String c) "") = k.
Proof. induction k; simpl; congruence. Qed.

Lemma shortHash_word v : str_all is_word (shortHash v) = true.
Proof.
  unfold shortHash, pad_end. destruct (short_loop _ _ v) as [h1 h2] eqn:E.
  destruct (short_loop_nonneg v 2166136261 16777619) as [H1 H2]; [lia..|]. rewrite E in H1, H2.
  rewrite str_all_app, iter_zeros_word, andb_true_r. apply str_all_take.
  rewrite str_all_app, andb_true_iff. split; (apply to_base_all; [lia|done| |done]); apply digit36_word.
Qed.

Lemma shortHash_length v : String.length (shortHash v) = HASH_LENGTH.
Proof.
  unfold shortHash, pad_end. destruct (short_loop _ _ v).
  rewrite str_length_app, iter_zeros_length, str_take_length. unfold HASH_LENGTH. lia.
Qed.

Lemma squeeze_word run s : str_all is_word s = true → str_all is_word (squeeze run s) = true.
Proof.
  revert run. induction s as [|c s IH]; intros run; simpl; [done|].
  rewrite andb_true_iff. intros [Hc Hs]. repeat case_match; simpl; rewrite ?Hc; simpl; auto.
Qed.

Lemma str_map_word s : str_all is_word (str_map (λ c, if is_word c then c else "_"%char) s) = true.
Proof. induction s as [|c s IH]; simpl; [done|]. rewrite IH, andb_true_r. by case_match. Qed.

Lemma sanitise_shape name : wire_shape (sanitise name) = true.
Proof.
  unfold sanitise, wire_shape.
  pose proof (squeeze_word 0 _ (str_map_word name)) as H.
  destruct (squeeze _ _) as [|c s]; [done|].
  destruct (is_start c) eqn:E; simpl in *; by rewrite ?H, ?E.
Qed.

Lemma with_suffix_shape rules wire canonical :
  wire_shape wire = true → wire_shape (with_suffix rules wire canonical) = true.
Proof.
  unfold wire_shape, with_suffix. rewrite !andb_true_iff. intros [Hw Hs].
  rewrite str_all_app, (str_all_take _ _ _ Hw). simpl. rewrite shortHash_word. split; [done|].
  destruct (Z.to_nat _) as [|n] eqn:E; [lia|]. by destruct wire.
Qed.

Lemma with_suffix_length rules wire canonical :
  8 <= maxNameLength rules → Z.of_nat (String.length (with_suffix rules wire canonical)) <= maxNameLength rules.
Proof.
  intros Hm. unfold with_suffix. rewrite str_length_app, str_take_length.
  cbn [String.length String.append]. simpl. rewrite shortHash_length. unfold HASH_LENGTH. lia.
Qed.

Lemma plain_wire_shape rules canonical : wire_shape (plain_wire rules canonical) = true.
Proof. unfold plain_wire. case_match; [apply with_suffix_shape|]; apply sanitise_shape. Qed.

Lemma plain_wire_length rules canonical :
  8 <= maxNameLength rules → Z.of_nat (String.length (plain_wire rules canonical)) <= maxNameLength rules.
Proof. intros Hm. unfold plain_wire. case_match; [by apply with_suffix_length|]. bool_prop. lia. Qed.

Definition alt_wire (rules : ToolNameRules) (canonical : string) : string :=
  with_suffix rules (plain_wire rules canonical) canonical.

(** The wire name one iteration settles on. *)
Definition chosen (rules : ToolNameRules) (m : ToolNameMap) (canonical : string) : string :=
  match toCanonical m !! plain_wire rules canonical with
  | Some other => if String.eqb other canonical then plain_wire rules canonical else alt_wire rules canonical
  | None => plain_wire rules canonical
  end.

Definition put (m : ToolNameMap) (canonical wire : string) : ToolNameMap :=
  {| toWire := <[canonical := wire]> (toWire m); toCanonical := <[wire := canonical]> (toCanonical m) |}.

Lemma add_name_eq rules m c :
  add_name rules m c =
    if namePattern rules (chosen rules m c) then Ret (put m c (chosen rules m c))
    else Throw (Illegal (chosen rules m c) c).
Proof. unfold add_name, assertLegal, chosen, alt_wire. repeat case_match; done. Qed.

Lemma chosen_cases rules m c : chosen rules m c = plain_wire rules c ∨ chosen rules m c = alt_wire rules c.
Proof. unfold chosen. repeat case_match; auto. Qed.

Lemma chosen_legal rules m c :
  8 <= maxNameLength rules →
  wire_shape (chosen rules m c) = true ∧ Z.of_nat (String.length (chosen rules m c)) <= maxNameLength rules.
Proof.
  intros Hm. destruct (chosen_cases rules m c) as [-> | ->]; split.
  - apply plain_wire_shape.
  - by apply plain_wire_length.
  - apply with_suffix_shape, plain_wire_shape.
  - by apply with_suffix_length.
Qed.

(** An invariant of one iteration is one of the whole loop, and every name of
    the list ends up in the map. *)
Lemma add_names_ind rules (P : ToolNameMap → Prop) names m m' :
  add_names rules m names = Ret m' →
  (∀ m c, c ∈ names → P m → namePattern rules (chosen rules m c) = true → P (put m c (chosen rules m c))) →
  P m → P m' ∧ (∀ c, c ∈ names ∨ is_Some (toWire m !! c) → is_Some (toWire m' !! c)).
Proof.
  revert m. induction names as [|c names IH]; intros m; simpl.
  - intros [= <-] _ HP. split; [done|]. intros c [[]%elem_of_nil|?]; done.
  - rewrite add_name_eq. destruct (namePattern rules _) eqn:Ep; simpl; [|done]. intros Hm Hstep HP.
    destruct (IH _ Hm) as [HP' Hdom].
    { intros ? ? ?. apply Hstep. by right. }
    { apply Hstep; [by left|done..]. }
    split; [done|]. intros c' Hc'. apply Hdom.
    destruct (decide (c' = c)) as [->|Hne].
    + right. simpl. by rewrite lookup_insert_eq.
    + destruct Hc' as [[->|?]%elem_of_cons|?]; [done|by left|right]. simpl. by rewrite lookup_insert_ne.
Qed.

Lemma add_names_never_throws rules names m :
  8 <= maxNameLength rules →
  (∀ w, wire_shape w = true → Z.of_nat (String.length w) <= maxNameLength rules → namePattern rules w = true) →
  ∃ m', add_names rules m names = Ret m'.
Proof.
  intros Hm Hp. revert m. induction names as [|c names IH]; intros m; simpl; [by eexists|].
  rewrite add_name_eq. destruct (chosen_legal rules m c Hm). rewrite Hp by done. apply IH.
Qed.

(** Every canonical name gets a wire name the vendor accepts: it satisfies
    the vendor's pattern, uses letters, digits and underscores only, does not
    start with a digit, and fits the length limit; and a vendor pattern that
    admits such names is never violated, so the map is always built. *)
Theorem wire_names_are_legal rules names :
  8 <= maxNameLength rules →
  (∀ m, buildToolNameMap names rules = Ret m →
    ∀ c, c ∈ names → ∃ w, toWire m !! c = Some w ∧ namePattern rules w = true ∧ wire_shape w = true ∧
      Z.of_nat (String.length w) <= maxNameLength rules) ∧
  ((∀ w, wire_shape w = true → Z.of_nat (String.length w) <= maxNameLength rules → namePattern rules w = true) →
   ∃ m, buildToolNameMap names rules = Ret m).
Proof.
  intros Hmax. split; [|by apply add_names_never_throws]. intros m Hb c Hc.
  destruct (add_names_ind rules (λ m, ∀ c w, toWire m !! c = Some w →
    namePattern rules w = true ∧ wire_shape w = true ∧ Z.of_nat (String.length w) <= maxNameLength rules)
    _ _ _ Hb) as [HP Hdom].
  - intros m0 c0 _ HP Hp c1 w. simpl. intros [[<- <-]|[_ ?]]%lookup_insert_Some; [|by eapply HP].
    destruct (chosen_legal rules m0 c0 Hmax). done.
  - intros c0 w. simpl. by rewrite lookup_empty.
  - destruct (Hdom c) as [w Hw]; [by left|]. exists w. split; [done|by apply HP with c].
Qed.

(** The suffixed names meet no other name of the list. *)
Definition no_alt_clash (rules : ToolNameRules) (names : list string) : Prop :=
  ∀ c c', c ∈ names → c' ∈ names → c ≠ c' →
    alt_wire rules c ≠ plain_wire rules c' ∧ alt_wire rules c ≠ alt_wire rules c'.

(** The two maps agree, and hold only candidates of the names of the list. *)
Definition maps_agree (rules : ToolNameRules) (names : list string) (m : ToolNameMap) : Prop :=
  (∀ c w, toWire m !! c = Some w → toCanonical m !! w = Some c) ∧
  (∀ w c, toCanonical m !! w = Some c →
     c ∈ names ∧ (w = plain_wire rules c ∨ w = alt_wire rules c)).

Lemma chosen_free rules names m c other :
  no_alt_clash rules names → maps_agree rules names m → c ∈ names →
  toCanonical m !! chosen rules m c = Some other → other = c.
Proof.
  intros Hna [_ Hc] Hin Ho. destruct (decide (other = c)) as [->|Hne]; [done|exfalso].
  destruct (Hc _ _ Ho) as (Hin' & Hw). destruct (Hna c other Hin Hin') as [H1 H2]; [congruence|].
  unfold chosen in *. destruct (toCanonical m !! plain_wire rules c) as [o|] eqn:E; [|congruence].
  destruct (String.eqb_spec o c) as [->|]; [congruence|]. destruct Hw; congruence.
Qed.

(** The model's answer resolves to the tool that was offered: mapping a
    canonical name to its wire name and back gives the name again, for every
    name of the list, provided no suffixed candidate coincides with a candidate
    of another name. *)
Theorem wire_name_roundtrip rules names m :
  no_alt_clash rules names → buildToolNameMap names rules = Ret m →
  ∀ c, c ∈ names → canonicalNameOf m (wireNameOf m c) = c.
Proof.
  intros Hna Hb c Hin.
  destruct (add_names_ind rules (maps_agree rules names) _ _ _ Hb) as [[Hw _] Hdom].
  - intros m0 c0 Hin0 Hag _. pose proof (chosen_free rules names m0 c0) as Hfree.
    split; simpl.
    + intros c1 w [[<- <-]|[Hne Hw1]]%lookup_insert_Some; [by rewrite lookup_insert_eq|].
      apply (proj1 Hag) in Hw1. rewrite lookup_insert_ne; [done|]. intros <-.
      apply Hne. symmetry. by apply Hfree.
    + intros w c1 [[<- <-]|[_ Hc1]]%lookup_insert_Some; [|by apply (proj2 Hag)].
      split; [done|apply chosen_cases].
  - split; simpl; intros ? ?; by rewrite lookup_empty.
  - destruct (Hdom c) as [w Ht]; [by left|].
    unfold canonicalNameOf, wireNameOf. rewrite Ht. simpl. by rewrite (Hw c w Ht).
Qed.

Definition openai_like : ToolNameRules := {|
  namePattern := λ s, str_all is_word s && (String.length s <=? 64)%nat; maxNameLength := 64 |}.

Lemma wire_names_are_legal_witness :
  ∃ m, buildToolNameMap ["crm__find-contact"; "crm__find.contact"] openai_like = Ret m.
Proof.
  apply (wire_names_are_legal openai_like ["crm__find-contact"; "crm__find.contact"]).
  - vm_compute. discriminate.
  - intros w Hs Hl. unfold wire_shape in Hs. simpl. bool_prop.
    apply andb_true_iff. split; [done|]. apply Nat.leb_le. simpl in Hl. lia.
Defined.

Lemma wire_name_roundtrip_witness :
  ∃ m, buildToolNameMap ["crm__find-contact"; "crm__find.contact"] openai_like = Ret m ∧
    canonicalNameOf m (wireNameOf m "crm__find.contact") = "crm__find.contact".
Proof.
  eexists. split; [vm_compute; reflexivity|].
  apply (wire_name_roundtrip openai_like ["crm__find-contact"; "crm__find.contact"]).
  - intros c c' Hc Hc' Hne.
    apply elem_of_list_2 in Hc as [-> | ->]; apply elem_of_list_2 in Hc' as [-> | ->].
    + by destruct Hne.
    + split; vm_compute; discriminate.
    + split; vm_compute; discriminate.
    + by destruct Hne.
  - vm_compute. reflexivity.
  - right. left.
Defined.

(** The suffixed name is not looked up again: with a tool whose own name
    equals another tool's suffixed name, two different tools share one wire
    name, and the model's call of the first resolves to the second. *)
Theorem suffixed_name_can_shadow_a_tool :
  ∃ m, buildToolNameMap ["a_b_4la3gs"; "a-b"; "a.b"] openai_like = Ret m ∧
    wireNameOf m "a_b_4la3gs" = wireNameOf m "a.b" ∧
    canonicalNameOf m (wireNameOf m "a_b_4la3gs") = "a.b".
Proof. eexists. split; [vm_compute; reflexivity|]. split; vm_compute; reflexivity. Qed.
