(* ===== verification/Model.v ===== *)
(** * The inference contract

    Models packages/core/src/entities/model.ts: the capabilities of a model,
    the request the runtime sends and the events a provider adapter yields. *)
From S2P Require Import Prelude Json Entities.

Inductive EffortLevel := ef_low | ef_medium | ef_high | ef_xhigh | ef_max.

Record ToolSupport := {
  ts_supported : bool;
  ts_parallelCalls : bool;
  ts_forcedChoice : bool;
  ts_maxTools : option Z;
  ts_namePattern : string → bool;
  ts_maxNameLength : Z;
  ts_strictMode : bool;
}.

Inductive CacheStrategy := explicit_breakpoints | automatic | no_cache.
#[global] Instance CacheStrategy_eq_dec : EqDecision CacheStrategy.
Proof. solve_decision. Defined.

Record PromptCache := {
  pc_supported : bool;
  pc_strategy : CacheStrategy;
  pc_maxBreakpoints : option Z;
  pc_minPrefixTokens : option Z;
}.

Inductive ReasoningMode := rm_none | rm_budget | rm_adaptive | rm_always_on.
#[global] Instance ReasoningMode_eq_dec : EqDecision ReasoningMode.
Proof. solve_decision. Defined.

Record ReasoningSupport := {
  rs_supported : bool;
  rs_mode : ReasoningMode;
  rs_effortLevels : option (list EffortLevel);
}.

(** The fields the runtime and the adapters read. *)
Record ModelCapabilities := {
  mc_modelId : string;
  mc_maxInputTokens : Z;
  mc_maxOutputTokens : Z;
  mc_tools : ToolSupport;
  mc_promptCache : PromptCache;
  mc_reasoning : ReasoningSupport;
}.

Definition no_reasoning : ReasoningSupport := {| rs_supported := false; rs_mode := rm_none; rs_effortLevels := None |}.

Inductive DirectiveKind := identity | policy | safety | memory | retrieval.

Record SystemDirective := { sd_kind : DirectiveKind; sd_text : string }.

Record ToolDeclaration := {
  td_name : string;
  td_description : string;
  td_inputSchema : value;
  td_outputSchema : option value;
  td_annotations : option value;
}.

Inductive ToolChoice := tc_auto | tc_none | tc_named (name : string).

Record GenerationRequest := {
  gr_system : list SystemDirective;
  gr_messages : list CanonicalMessage;
  gr_tools : list ToolDeclaration;
  gr_toolChoice : ToolChoice;
  gr_maxOutputTokens : Z;
  gr_reasoning : option value;
  gr_breakpointsAfter : option (list Z);
  gr_structuredOutput : option value;
  gr_stopSequences : option (list string);
  gr_metadata : string * string * string;
}.

Inductive FinishReason :=
| end_turn | tool_use | max_tokens | stop_sequence | content_filter | refusal | fr_error.
#[global] Instance FinishReason_eq_dec : EqDecision FinishReason.
Proof. solve_decision. Defined.

Inductive ProviderErrorKind :=
| pe_rate_limit | pe_overloaded | pe_context_length | pe_content_filter | pe_refusal
| pe_authentication | pe_invalid_request | pe_transport | pe_unknown.
#[global] Instance ProviderErrorKind_eq_dec : EqDecision ProviderErrorKind.
Proof. solve_decision. Defined.

Record ProviderError := {
  per_kind : ProviderErrorKind;
  per_message : string;
  per_retryable : bool;
  per_retryAfterMs : option Z;
}.

Inductive ProviderEvent :=
| ev_start (messageId : string)
| ev_text_delta (text : string)
| ev_reasoning_delta (text : string)
| ev_tool_use_start (id name : string)
| ev_tool_input_delta (id partialJson : string)
| ev_tool_use_end (id : string) (input : value)
| ev_usage (usage : Usage)
| ev_finish (reason : FinishReason) (content : list ContentBlock)
    (providerArtifacts : option ProviderArtifacts) (usage : Usage)
| ev_error (error : ProviderError).

(** ** The values behind the records

    The objects the sources build, as the values [canonicalJson] walks.  An
    absent optional property is an [undefined] one, which is skipped. *)
Definition opt_value (v : option value) : value := default VUndefined v.
Definition opt_string (s : option string) : value := from_option VString VUndefined s.

Fixpoint block_value (b : ContentBlock) : value :=
  match b with
  | BText t => VObject [("type", VString "text"); ("text", VString t)]
  | BImage k m => VObject [("type", VString "image"); ("blobKey", VString k); ("mime", VString m)]
  | BDocument k m t =>
      VObject [("type", VString "document"); ("blobKey", VString k); ("mime", VString m); ("title", opt_string t)]
  | BToolUse id name input =>
      VObject [("type", VString "tool_use"); ("id", VString id); ("name", VString name); ("input", input)]
  | BToolResult id content structured isError =>
      VObject [("type", VString "tool_result"); ("toolUseId", VString id);
               ("content", VArray (map block_value content)); ("structured", opt_value structured);
               ("isError", VBool isError)]
  | BReasoning summary redacted =>
      VObject [("type", VString "reasoning"); ("summary", opt_string summary); ("redacted", VBool redacted)]
  | BBlobRef key bytes mime =>
      VObject [("type", VString "blob_ref"); ("key", VString key); ("bytes", VNumber bytes); ("mime", VString mime)]
  end.

Definition role_value (r : MessageRole) : value :=
  VString match r with RUser => "user" | RAssistant => "assistant" | RTool => "tool" | RSystem => "system" end.

Definition message_value (m : CanonicalMessage) : value :=
  VObject [("role", role_value (c_role m)); ("content", VArray (map block_value (c_content m)));
           ("providerArtifacts", from_option VObject VUndefined (c_providerArtifacts m))].

Definition kind_value (k : DirectiveKind) : value :=
  VString match k with
          | identity => "identity" | policy => "policy" | safety => "safety"
          | memory => "memory" | retrieval => "retrieval"
          end.

Definition directive_value (d : SystemDirective) : value :=
  VObject [("kind", kind_value (sd_kind d)); ("text", VString (sd_text d))].

Definition tool_value (t : ToolDeclaration) : value :=
  VObject [("name", VString (td_name t)); ("description", VString (td_description t));
           ("inputSchema", td_inputSchema t); ("outputSchema", opt_value (td_outputSchema t));
           ("annotations", opt_value (td_annotations t))].

Definition choice_value (c : ToolChoice) : value :=
  match c with
  | tc_auto => VString "auto"
  | tc_none => VString "none"
  | tc_named n => VObject [("name", VString n)]
  end.
