(* ===== verification/ContextAssembler.v ===== *)
(** * Prompt assembly

    Models packages/runtime/src/context-assembler.ts: the ordering of
    directives, tools and history, the answers to orphaned tool calls, the
    cache breakpoints and the digests of the cached prefix. *)
From S2P Require Import Prelude Json Text JsonText Entities Model.

Definition DIRECTIVE_RANK (k : DirectiveKind) : Z :=
  match k with identity => 0 | policy => 1 | safety => 2 | memory => 3 | retrieval => 4 end.

Record AssembleInput := {
  ai_runId : string;
  ai_workspaceId : string;
  ai_agentId : string;
  ai_providerKey : string;
  ai_capabilities : ModelCapabilities;
  ai_directives : list SystemDirective;
  ai_messages : list Message;
  ai_tools : list ToolDeclaration;
  ai_maxOutputTokens : Z;
  ai_toolChoice : option ToolChoice;
  ai_structuredOutput : option value;
  ai_stopSequences : option (list string);
  ai_reasoning : option value;
}.

Record AssembledPrompt := {
  ap_request : GenerationRequest;
  ap_prefixFingerprint : string;
  ap_prefixFingerprints : list string;
  ap_droppedArtifacts : Z;
}.

(** The comparator on the rank and then the index is a stable sort on the rank. *)
Definition directive_le (a b : SystemDirective) : bool :=
  DIRECTIVE_RANK (sd_kind a) <=? DIRECTIVE_RANK (sd_kind b).
Definition orderDirectives (ds : list SystemDirective) : list SystemDirective :=
  stable_sort directive_le ds.

Definition tool_le (a b : ToolDeclaration) : bool := str_leb (td_name a) (td_name b).
Definition orderTools (ts : list ToolDeclaration) : list ToolDeclaration := stable_sort tool_le ts.

Definition toCanonical (message : Message) (current : ProviderKey) : CanonicalMessage * bool :=
  let artifact := artifactsForModel (m_providerArtifacts message) current in
  let hadArtifacts :=
    match m_providerArtifacts message with Some (_ :: _) => true | _ => false end in
  ({| c_role := m_role message; c_content := m_content message;
      c_providerArtifacts := (λ a, [(current, a)]) <$> artifact |},
   hadArtifacts && match artifact with None => true | Some _ => false end).

Definition UNANSWERED_TOOL_CALL : string :=
  "This call was not completed: the run ended before it could run. Call it again if the result still matters.".

Definition asked (m : CanonicalMessage) : list string := map tu_id (toolUseBlocks (c_content m)).
Definition given (m : CanonicalMessage) : list string := omap tool_result_id (c_content m).

Definition unanswered (id : string) : ContentBlock :=
  toolResultBlock id [textBlock UNANSWERED_TOOL_CALL] None (Some true).

(** Calls of [message] that [next] does not answer. *)
Definition missing_ids (message next : CanonicalMessage) : list string :=
  List.filter (λ id, negb (bool_decide (id ∈ given next))) (asked message).

Definition add_content (m : CanonicalMessage) (bs : list ContentBlock) : CanonicalMessage :=
  {| c_role := c_role m; c_content := c_content m ++ bs; c_providerArtifacts := c_providerArtifacts m |}.

(** The loop at index [i], [message] being the current element and [rest] the
    ones after it.  An inserted tool message is skipped by the next iteration. *)
Fixpoint answer_from (message : CanonicalMessage) (rest : list CanonicalMessage)
    : list CanonicalMessage * Z :=
  match rest with
  | [] => ([message], 0)
  | next :: rest' =>
      let missing := if bool_decide (c_role message = RAssistant) then missing_ids message next else [] in
      match missing with
      | [] => let '(out, n) := answer_from next rest' in (message :: out, n)
      | _ :: _ =>
          let results := map unanswered missing in
          if bool_decide (c_role next = RTool) then
            let '(out, n) := answer_from (add_content next results) rest' in
            (message :: out, n + Z.of_nat (length missing))
          else
            let '(out, n) := answer_from next rest' in
            (message :: {| c_role := RTool; c_content := results; c_providerArtifacts := None |} :: out,
             n + Z.of_nat (length missing))
      end
  end.

Definition answerOrphanedToolCalls (messages : list CanonicalMessage) : list CanonicalMessage * Z :=
  match messages with
  | [] => ([], 0)
  | m :: rest => answer_from m rest
  end.

Definition CACHE_ANCHOR_STRIDE : Z := 8.

Definition breakpointsFor (messageCount : Z) (capabilities : ModelCapabilities) : list Z :=
  let cache := mc_promptCache capabilities in
  if negb (pc_supported cache) then []
  else if negb (bool_decide (pc_strategy cache = explicit_breakpoints)) then []
  else
    let stableThrough := messageCount - 3 in
    if stableThrough <? 0 then []
    else
      let max := default 1 (pc_maxBreakpoints cache) in
      if max <=? 1 then [stableThrough]
      else
        let anchor := (stableThrough + 1) / CACHE_ANCHOR_STRIDE * CACHE_ANCHOR_STRIDE - 1 in
        if (0 <=? anchor) && (anchor <? stableThrough) then [anchor; stableThrough] else [stableThrough].

Definition blank (s : string) : bool := str_all is_space s.

Definition seq_le (a b : Message) : bool := m_seq a <=? m_seq b.

(** [messages.slice(0, through + 1)]. *)
Definition through_slice (through : Z) (ms : list CanonicalMessage) : list CanonicalMessage :=
  take (Z.to_nat (through + 1)) ms.

Definition prefix_value (req : GenerationRequest) (ms : list CanonicalMessage) : value :=
  VObject [("system", VArray (map directive_value (gr_system req)));
           ("tools", VArray (map tool_value (gr_tools req)));
           ("toolChoice", choice_value (gr_toolChoice req));
           ("messages", VArray (map message_value ms))].

Definition prefixFingerprintOf (request : GenerationRequest) (through : Z) : string :=
  fingerprint (prefix_value request (through_slice through (gr_messages request))).

(** History in the order of the sequence, superseded messages dropped. *)
Definition live_in_order (ms : list Message) : list Message := stable_sort seq_le (live_messages ms).

Definition assemblePrompt (input : AssembleInput) : AssembledPrompt :=
  let directives := List.filter (λ d, negb (blank (sd_text d))) (orderDirectives (ai_directives input)) in
  let tools := orderTools (ai_tools input) in
  let live := live_in_order (ai_messages input) in
  let converted := map (λ m, toCanonical m (ai_providerKey input)) live in
  let dropped := Z.of_nat (length (List.filter snd converted)) in
  let messages := (answerOrphanedToolCalls (map fst converted)).1 in
  let breakpointsAfter := breakpointsFor (Z.of_nat (length messages)) (ai_capabilities input) in
  let request := {|
    gr_system := directives; gr_messages := messages; gr_tools := tools;
    gr_toolChoice := default tc_auto (ai_toolChoice input);
    gr_maxOutputTokens := ai_maxOutputTokens input;
    gr_reasoning := ai_reasoning input;
    gr_breakpointsAfter := match breakpointsAfter with [] => None | _ :: _ => Some breakpointsAfter end;
    gr_structuredOutput := ai_structuredOutput input;
    gr_stopSequences := ai_stopSequences input;
    gr_metadata := (ai_runId input, ai_workspaceId input, ai_agentId input) |} in
  let prefixFingerprints := map (prefixFingerprintOf request) breakpointsAfter in
  {| ap_request := request;
     ap_prefixFingerprint := default (fingerprint (prefix_value request [])) (head prefixFingerprints);
     ap_prefixFingerprints := prefixFingerprints;
     ap_droppedArtifacts := dropped |}.

Definition cachedPrefixOf (prompt : AssembledPrompt) : option (list CanonicalMessage) :=
  match gr_breakpointsAfter (ap_request prompt) with
  | None => None
  | Some bs =>
      (λ through, through_slice through (gr_messages (ap_request prompt))) <$> last bs
  end.

Definition same_text (a b : value) : bool := String.eqb (canonicalJson a) (canonicalJson b).

Definition prefixIsPreserved (before after : AssembledPrompt) : bool :=
  match cachedPrefixOf before with
  | None => true
  | Some cached =>
      same_text (VArray (map directive_value (gr_system (ap_request before))))
                (VArray (map directive_value (gr_system (ap_request after)))) &&
      same_text (VArray (map tool_value (gr_tools (ap_request before))))
                (VArray (map tool_value (gr_tools (ap_request after)))) &&
      negb (length (gr_messages (ap_request after)) <? length cached)%nat &&
      same_text (VArray (map message_value cached))
                (VArray (map message_value (take (length cached) (gr_messages (ap_request after)))))
  end.

(** [block.input ?? '']. *)
Definition input_or_empty (v : value) : value :=
  match v with VUndefined | VNull => VString "" | _ => v end.

Fixpoint block_chars (b : ContentBlock) : Z :=
  match b with
  | BText t => Z.of_nat (String.length t)
  | BReasoning s _ => from_option (λ s, Z.of_nat (String.length s)) 0 s
  | BToolUse _ _ input => Z.of_nat (String.length (stringify (input_or_empty input)))
  | BToolResult _ content _ _ => fold_right Z.add 0 (map block_chars content)
  | BBlobRef key _ _ => Z.of_nat (String.length key)
  | BImage _ _ | BDocument _ _ _ => 0
  end.

Definition estimateTokens (content : list ContentBlock) : Z :=
  let characters := fold_right Z.add 0 (map block_chars content) in
  (characters + 3) / 4.

(** ** Orphaned tool calls *)

(** Tool results live in tool messages only, as the runtime writes them. *)
Definition results_in_tool_messages (l : list CanonicalMessage) : Prop :=
  ∀ m, m ∈ l → c_role m ≠ RTool → given m = [].

(** Every call of an assistant message is answered by the very next message. *)
Fixpoint answered_from (m : CanonicalMessage) (rest : list CanonicalMessage) : Prop :=
  match rest with
  | [] => True
  | next :: rest' =>
      (c_role m = RAssistant → ∀ id, id ∈ asked m → id ∈ given next) ∧ answered_from next rest'
  end.

Definition all_answered (l : list CanonicalMessage) : Prop :=
  match l with [] => True | m :: rest => answered_from m rest end.

Lemma given_add_results m ids : given (add_content m (map unanswered ids)) = given m ++ ids.
Proof.
  unfold given, add_content. simpl. rewrite omap_app. f_equal.
  induction ids as [|id ids IH]; [done|]. simpl. f_equal. exact IH.
Qed.

Lemma missing_ids_spec m next id : id ∈ asked m → id ∈ given next ∨ id ∈ missing_ids m next.
Proof.
  intros Hid. destruct (decide (id ∈ given next)) as [|Hn]; [by left|right].
  unfold missing_ids. apply list_elem_of_In, filter_In. split; [by apply list_elem_of_In|].
  by rewrite bool_decide_eq_false_2.
Qed.

Lemma missing_ids_nil m next : missing_ids m next = [] ↔ ∀ id, id ∈ asked m → id ∈ given next.
Proof.
  split.
  - intros E id Hid. destruct (missing_ids_spec m next id Hid) as [|H]; [done|].
    rewrite E in H. by apply elem_of_nil in H.
  - intros H. apply elem_of_nil_inv. intros id Hid. unfold missing_ids in Hid.
    apply list_elem_of_In, filter_In in Hid as [Hin Hn]. bool_prop.
    apply Hn, H. by apply list_elem_of_In.
Qed.

Lemma answer_from_head m rest : ∃ out, (answer_from m rest).1 = m :: out.
Proof.
  destruct rest as [|next rest]; simpl; [by exists []|].
  repeat case_match; simpl; eauto.
Qed.

Lemma answer_from_all m rest :
  (∀ next, next ∈ rest → c_role next ≠ RTool → given next = []) →
  all_answered (answer_from m rest).1.
Proof.
  revert m. induction rest as [|next rest IH]; intros m Hr; [done|].
  assert (∀ n, n ∈ rest → c_role n ≠ RTool → given n = []) as Hr' by (intros; apply Hr; [by right|done]).
  simpl. set (missing := if bool_decide _ then _ else _).
  assert (c_role m = RAssistant → ∀ id, id ∈ asked m → id ∈ given next ∨ id ∈ missing) as Hm.
  { intros Ha id Hid. unfold missing. rewrite bool_decide_eq_true_2 by done. by apply missing_ids_spec. }
  destruct missing as [|i ids] eqn:Em.
  - destruct (answer_from_head next rest) as [out Eo]. pose proof (IH next Hr') as Hn.
    destruct (answer_from next rest) as [o n]. simpl in *. subst o. simpl in *. split; [|done].
    intros Ha id Hid. destruct (Hm Ha id Hid) as [|[]%elem_of_nil]; done.
  - case_bool_decide as Et.
    + set (next' := add_content next _).
      assert (given next' = given next ++ i :: ids) as Hg by apply given_add_results.
      clearbody next'. destruct (answer_from_head next' rest) as [out Eo].
      pose proof (IH next' Hr') as Hn.
      destruct (answer_from next' rest) as [o n]. simpl in *. subst o. simpl in *. split; [|done].
      intros Ha id Hid. rewrite Hg. apply elem_of_app. by apply Hm.
    + set (tool := {| c_role := RTool |}).
      assert (given tool = i :: ids) as Hg
        by (apply (given_add_results {| c_role := RTool; c_content := []; c_providerArtifacts := None |})).
      assert (c_role tool = RTool) as Htool by done. clearbody tool.
      destruct (answer_from_head next rest) as [out Eo]. pose proof (IH next Hr') as Hn.
      destruct (answer_from next rest) as [o n]. simpl in *. subst o. simpl in *.
      split_and!; [|by rewrite Htool|done].
      intros Ha id Hid. destruct (Hm Ha id Hid) as [Hin|Hin].
      * rewrite Hr in Hin; [by apply elem_of_nil in Hin|by left|done].
      * by rewrite Hg.
Qed.

Lemma answer_from_id m rest : answered_from m rest → answer_from m rest = (m :: rest, 0).
Proof.
  revert m. induction rest as [|next rest IH]; intros m; simpl; [done|]. intros [Hm Hr].
  assert ((if bool_decide (c_role m = RAssistant) then missing_ids m next else []) = []) as ->.
  { case_bool_decide as Ha; [|done]. apply missing_ids_nil. by apply Hm. }
  by rewrite IH.
Qed.

Lemma answer_from_prefix m rest k : (answer_from m rest).1 `prefix_of` (answer_from m (rest ++ k)).1.
Proof.
  revert m. induction rest as [|next rest IH]; intros m.
  { simpl. destruct (answer_from_head m k) as [out ->]. by exists out. }
  cbn [answer_from app]. destruct (if bool_decide (c_role m = RAssistant) then missing_ids m next else []).
  - specialize (IH next). destruct (answer_from next rest), (answer_from next (rest ++ k)). simpl in *.
    by apply prefix_cons.
  - case_bool_decide.
    + specialize (IH (add_content next (map unanswered (s :: l)))).
      destruct (answer_from _ rest), (answer_from _ (rest ++ k)). simpl in *. by apply prefix_cons.
    + specialize (IH next). destruct (answer_from next rest), (answer_from next (rest ++ k)). simpl in *.
      by do 2 apply prefix_cons.
Qed.

Lemma answer_prefix l k :
  (answerOrphanedToolCalls l).1 `prefix_of` (answerOrphanedToolCalls (l ++ k)).1.
Proof. destruct l as [|m l]; simpl; [apply prefix_nil|apply answer_from_prefix]. Qed.

(** Every history sent to a provider answers each tool call in the very next
    message, whatever the run left behind, and a history in which nothing is
    missing is sent unchanged, so the repair is idempotent. *)
Theorem orphaned_calls_are_answered l :
  results_in_tool_messages l →
  let out := (answerOrphanedToolCalls l).1 in
  all_answered out ∧ answerOrphanedToolCalls out = (out, 0) ∧ (all_answered l → out = l).
Proof.
  intros Hr. destruct l as [|m rest]; simpl; [done|].
  assert (all_answered (answer_from m rest).1) as Ha.
  { apply answer_from_all. intros n Hn. apply Hr. by right. }
  destruct (answer_from_head m rest) as [out Eo]. rewrite Eo in *. split_and!; [done|..].
  - simpl in *. by rewrite answer_from_id.
  - intros Hall. rewrite answer_from_id in Eo by done. done.
Qed.

(** ** The order of the inputs *)

Definition of_kind (k : DirectiveKind) (ds : list SystemDirective) : list SystemDirective :=
  List.filter (λ d, DIRECTIVE_RANK (sd_kind d) =? DIRECTIVE_RANK k) ds.

Lemma elem_of_kind d k ds : d ∈ of_kind k ds → DIRECTIVE_RANK (sd_kind d) = DIRECTIVE_RANK k.
Proof. intros [_ H]%list_elem_of_In%filter_In. by bool_prop. Qed.

Lemma of_kind_cons k d ds :
  of_kind k (d :: ds) =
    if DIRECTIVE_RANK (sd_kind d) =? DIRECTIVE_RANK k then d :: of_kind k ds else of_kind k ds.
Proof. reflexivity. Qed.

Lemma directive_le_kind d k ds y :
  y ∈ of_kind k ds → directive_le d y = (DIRECTIVE_RANK (sd_kind d) <=? DIRECTIVE_RANK k).
Proof. intros Hy%elem_of_kind. unfold directive_le. by rewrite Hy. Qed.

(** Directives come out kind by kind, in the declared order. *)
Lemma orderDirectives_buckets ds :
  orderDirectives ds =
    of_kind identity ds ++ of_kind policy ds ++ of_kind safety ds ++ of_kind memory ds ++ of_kind retrieval ds.
Proof.
  unfold orderDirectives. induction ds as [|d ds IH]; [done|]. cbn [stable_sort foldr].
  change (foldr (insert_sorted directive_le) [] ds) with (stable_sort directive_le ds).
  rewrite IH, !of_kind_cons. clear IH.
  destruct d as [k t]. destruct k; cbn [sd_kind DIRECTIVE_RANK Z.eqb Pos.eqb];
    repeat (rewrite insert_sorted_skip by (intros y Hy; by rewrite (directive_le_kind _ _ _ _ Hy)); f_equal);
    apply insert_sorted_front; intros y Hy;
    repeat (apply elem_of_app in Hy as [Hy|Hy]); by rewrite (directive_le_kind _ _ _ _ Hy).
Qed.

Lemma tool_sort_perm ts ts' :
  NoDup (map td_name ts) → ts ≡ₚ ts' → orderTools ts = orderTools ts'.
Proof.
  intros Hn Hp. apply (sorted_perm_unique tool_le).
  - intros x y z. apply str_leb_trans.
  - intros x y Hx Hy H1 H2. unfold orderTools in *. rewrite elem_of_stable_sort in Hx, Hy.
    eapply (NoDup_map_inj td_name); eauto. by apply str_leb_antisym.
  - apply stable_sort_sorted. intros x y. apply str_leb_total.
  - apply stable_sort_sorted. intros x y. apply str_leb_total.
  - unfold orderTools. by rewrite !stable_sort_perm.
Qed.

Lemma live_elem m ms : m ∈ live_messages ms → m ∈ ms ∧ live_message m = true.
Proof. intros [H1 H2]%list_elem_of_In%filter_In. split; [by apply list_elem_of_In|done]. Qed.

Lemma message_sort_perm ms ms' :
  NoDup (map m_seq ms) → ms ≡ₚ ms' → live_in_order ms = live_in_order ms'.
Proof.
  intros Hn Hp. unfold live_in_order.
  apply (sorted_perm_unique seq_le); unfold seq_le.
  - intros x y z ? ?. bool_prop. apply Z.leb_le. lia.
  - intros x y Hx Hy H1 H2. rewrite elem_of_stable_sort in Hx, Hy. bool_prop.
    eapply (NoDup_map_inj m_seq); [done|by apply live_elem in Hx as [? _]|by apply live_elem in Hy as [? _]|lia].
  - apply stable_sort_sorted. intros x y ?. bool_prop. apply Z.leb_le. lia.
  - apply stable_sort_sorted. intros x y ?. bool_prop. apply Z.leb_le. lia.
  - rewrite !stable_sort_perm. by apply filter_perm.
Qed.

(** The same input with other directives, tools and messages. *)
Definition with_parts (i : AssembleInput) ds ts ms : AssembleInput := {|
  ai_runId := ai_runId i; ai_workspaceId := ai_workspaceId i; ai_agentId := ai_agentId i;
  ai_providerKey := ai_providerKey i; ai_capabilities := ai_capabilities i;
  ai_directives := ds; ai_messages := ms; ai_tools := ts;
  ai_maxOutputTokens := ai_maxOutputTokens i; ai_toolChoice := ai_toolChoice i;
  ai_structuredOutput := ai_structuredOutput i; ai_stopSequences := ai_stopSequences i;
  ai_reasoning := ai_reasoning i |}.

(** The prompt does not depend on incidental order: the order tools were
    discovered in, the order the query returned messages in, and the order in
    which call sites added directives of different kinds give the same prompt,
    fingerprints included. *)
Theorem prompt_ignores_incidental_order i ds ds' ts ts' ms ms' :
  (∀ k, of_kind k ds = of_kind k ds') →
  NoDup (map td_name ts) → ts ≡ₚ ts' →
  NoDup (map m_seq ms) → ms ≡ₚ ms' →
  assemblePrompt (with_parts i ds ts ms) = assemblePrompt (with_parts i ds' ts' ms').
Proof.
  intros Hd Hnt Ht Hnm Hm. unfold assemblePrompt. simpl.
  rewrite (tool_sort_perm ts ts'), (message_sort_perm ms ms') by done.
  by rewrite !orderDirectives_buckets, !Hd.
Qed.

(** *** The cached prefix *)

Lemma live_in_order_app ms new :
  (∀ a b, a ∈ ms → b ∈ new → m_seq a <= m_seq b) →
  live_in_order (ms ++ new) = live_in_order ms ++ live_in_order new.
Proof.
  intros H. unfold live_in_order, live_messages. rewrite List.filter_app. apply stable_sort_app.
  intros x y [Hx _]%live_elem [Hy _]%live_elem. apply Z.leb_le. by apply H.
Qed.

(** Appending to the history only extends the cached prefix: with the same
    agent and tools, the prompt of a later step, whose history adds messages
    after those of the earlier one, keeps everything inside the earlier step's
    outermost breakpoint byte for byte. *)
Theorem appending_preserves_the_cached_prefix i ds ts ms new :
  (∀ a b, a ∈ ms → b ∈ new → m_seq a <= m_seq b) →
  prefixIsPreserved (assemblePrompt (with_parts i ds ts ms)) (assemblePrompt (with_parts i ds ts (ms ++ new))) = true.
Proof.
  intros Hseq. unfold prefixIsPreserved.
  destruct (cachedPrefixOf _) as [cached|] eqn:Ec; [|done].
  unfold cachedPrefixOf in Ec. unfold assemblePrompt in *. simpl in *.
  rewrite live_in_order_app by done. rewrite !map_app.
  set (l := map fst (map (λ m, toCanonical m (ai_providerKey i)) (live_in_order ms))) in *.
  set (k := map fst (map (λ m, toCanonical m (ai_providerKey i)) (live_in_order new))).
  pose proof (answer_prefix l k) as Hp.
  set (before := (answerOrphanedToolCalls l).1) in *. set (after := (answerOrphanedToolCalls (l ++ k)).1) in *.
  assert (∃ n, cached = take n before) as [n ->].
  { destruct (breakpointsFor _ _) as [|b bs]; [done|].
    destruct (last (b :: bs)) as [t|]; [|done]. injection Ec as <-. unfold through_slice. by eexists. }
  assert (take (length (take n before)) after = take n before) as ->.
  { destruct Hp as [r ->]. rewrite take_app_le by (rewrite length_take; lia).
    rewrite length_take. destruct (le_lt_dec n (length before)).
    - by rewrite Nat.min_l.
    - rewrite Nat.min_r by lia. rewrite firstn_all. by rewrite take_ge by lia. }
  unfold same_text. rewrite !String.eqb_refl. simpl. rewrite andb_true_r.
  apply negb_true_iff, Nat.ltb_ge. destruct Hp as [r ->]. rewrite length_app, length_take. lia.
Qed.

(** Vendor reasoning state is replayed only to the model that produced it:
    every artifact of a converted message is the one stored under exactly the
    current provider key, and dropping is counted. *)
Theorem foreign_artifacts_are_dropped message current :
  let '(out, dropped) := toCanonical message current in
  match c_providerArtifacts out with
  | Some arts => ∃ a v, arts = [(current, v)] ∧ m_providerArtifacts message = Some a ∧
                        assoc_get current a = Some v ∧ dropped = false
  | None => ∀ a v, m_providerArtifacts message = Some a → (current, v) ∉ a
  end ∧ c_role out = m_role message ∧ c_content out = m_content message.
Proof.
  unfold toCanonical. simpl. split; [|done].
  destruct (m_providerArtifacts message) as [a|] eqn:E; simpl; [|naive_solver].
  destruct (assoc_get current a) as [v|] eqn:Ea; simpl.
  - exists a, v. split_and!; try done. by rewrite andb_false_r.
  - intros ? v [= <-] Hin. clear E. induction a as [|[k w] a IH]; [by apply elem_of_nil in Hin|].
    simpl in Ea. destruct (String.eqb_spec k current) as [->|Hne]; [done|].
    apply elem_of_cons in Hin as [[= <- <-]|Hin]; [done|]. by apply IH.
Qed.

(** ** Concrete prompts *)

Definition sample_capabilities : ModelCapabilities := {|
  mc_modelId := "m-1"; mc_maxInputTokens := 1000; mc_maxOutputTokens := 100;
  mc_tools := {| ts_supported := true; ts_parallelCalls := true; ts_forcedChoice := false;
                 ts_maxTools := None; ts_namePattern := λ _, true; ts_maxNameLength := 64;
                 ts_strictMode := false |};
  mc_promptCache := {| pc_supported := true; pc_strategy := explicit_breakpoints;
                       pc_maxBreakpoints := Some 4; pc_minPrefixTokens := None |}; mc_reasoning := no_reasoning |}.

Definition sample_message (seq : Z) (role : MessageRole) (content : list ContentBlock) : Message := {|
  m_id := "msg_" +:+ pretty seq; m_conversationId := "cnv_1"; m_seq := seq; m_role := role;
  m_content := content; m_providerArtifacts := None; m_runId := None; m_tokenEstimate := None;
  m_createdAt := 0; m_supersededBy := None |}.

Definition sample_tool (name : string) : ToolDeclaration := {|
  td_name := name; td_description := ""; td_inputSchema := VObject []; td_outputSchema := None;
  td_annotations := None |}.

Definition sample_input : AssembleInput := {|
  ai_runId := "run_1"; ai_workspaceId := "ws_1"; ai_agentId := "agt_1"; ai_providerKey := "vendor:m-1";
  ai_capabilities := sample_capabilities; ai_directives := []; ai_messages := []; ai_tools := [];
  ai_maxOutputTokens := 100; ai_toolChoice := None; ai_structuredOutput := None; ai_stopSequences := None;
  ai_reasoning := None |}.

Definition sample_history : list Message :=
  [sample_message 1 RUser [BText "hi"]; sample_message 2 RAssistant [BToolUse "t1" "a__b" VNull];
   sample_message 3 RUser [BText "again"]; sample_message 4 RAssistant [BText "ok"]].

Lemma orphaned_calls_are_answered_witness :
  all_answered (answerOrphanedToolCalls (map (λ m, (toCanonical m "vendor:m-1").1) sample_history)).1.
Proof.
  apply orphaned_calls_are_answered. intros m Hm _.
  repeat (apply elem_of_cons in Hm as [->|Hm]; [reflexivity|]). by apply elem_of_nil in Hm.
Defined.

Lemma prompt_ignores_incidental_order_witness :
  let d1 := {| sd_kind := memory; sd_text := "Likes tea." |} in
  let d2 := {| sd_kind := identity; sd_text := "You help." |} in
  assemblePrompt (with_parts sample_input [d1; d2] [sample_tool "b"; sample_tool "a"] sample_history) =
  assemblePrompt (with_parts sample_input [d2; d1] [sample_tool "a"; sample_tool "b"] (rev sample_history)).
Proof.
  intros d1 d2. apply prompt_ignores_incidental_order.
  - intros []; reflexivity.
  - repeat constructor; set_solver.
  - constructor.
  - repeat constructor; set_solver.
  - apply Permutation_rev.
Defined.

Lemma appending_preserves_the_cached_prefix_witness :
  let new := [sample_message 5 RUser [BText "more"]] in
  cachedPrefixOf (assemblePrompt (with_parts sample_input [] [] sample_history)) ≠ None ∧
  prefixIsPreserved (assemblePrompt (with_parts sample_input [] [] sample_history))
    (assemblePrompt (with_parts sample_input [] [] (sample_history ++ new))) = true.
Proof.
  intros new. split; [discriminate|]. apply appending_preserves_the_cached_prefix.
  intros a b Ha Hb. apply list_elem_of_singleton in Hb as ->.
  repeat (apply elem_of_cons in Ha as [->|Ha]; [discriminate|]). by apply elem_of_nil in Ha.
Defined.
