(* ===== verification/Compaction.v ===== *)
(** * Compaction

    Models packages/runtime/src/compaction.ts: where a long history is cut, what
    is summarised and what is kept.  The fractions of the window are rational
    numbers; the summarising model call is an argument. *)
From S2P Require Import Prelude Json Text Entities Model ContextAssembler.

Definition DEFAULT_COMPACTION_THRESHOLD : Q := 7 # 10.
Definition DEFAULT_COMPACTION_TARGET : Q := 4 # 10.
Definition DEFAULT_KEEP_RECENT : Z := 6.

Record CompactionPolicy := {
  cp_threshold : option Q;
  cp_target : option Q;
  cp_keepRecent : option Z;
}.

Record CompactionPlan := {
  pl_needed : bool;
  pl_toSummarise : list Message;
  pl_toKeep : list Message;
  pl_estimatedTokensBefore : Z;
  pl_estimatedTokensAfter : Z;
  pl_reason : option string;
}.

Definition message_tokens (m : Message) : Z :=
  match m_tokenEstimate m with Some t => t | None => estimateTokens (m_content m) end.

Definition tokensOf (messages : list Message) : Z :=
  fold_left (λ sum m, sum + message_tokens m) messages 0.

Definition has_result (m : Message) : bool :=
  existsb (λ b, match b with BToolResult _ _ _ _ => true | _ => false end) (m_content m).

(** Out-of-range indices are legal; the others look at both neighbours. *)
Definition isLegalBoundary (messages : list Message) (index : nat) : bool :=
  match index with
  | O => true
  | S previous_index =>
      match messages !! previous_index, messages !! index with
      | Some previous, Some next =>
          match toolUseBlocks (m_content previous) with
          | [] => true
          | _ :: _ => negb (bool_decide (m_role next = RTool)) && negb (has_result next)
          end
      | _, _ => true
      end
  end.

Fixpoint legalBoundaryAtOrBefore (messages : list Message) (index : nat) : nat :=
  match index with
  | O => O
  | S i => if isLegalBoundary messages index then index else legalBoundaryAtOrBefore messages i
  end.

(** The loop from the end.  [i] messages are still to be looked at, [total] is
    [live.length], [kept] the tokens kept so far, [cut] the cut so far. *)
Fixpoint keep_from_end (live : list Message) (total keepRecent : Z) (targetTokens : Q)
    (i : nat) (kept : Z) (cut : nat) : nat :=
  match i with
  | O => cut
  | S i' =>
      match live !! i' with
      | None => cut
      | Some message =>
          let size := message_tokens message in
          let recentEnough := total - Z.of_nat i' <=? keepRecent in
          if negb recentEnough && negb (Qle_bool (inject_Z (kept + size)) targetTokens) then cut
          else keep_from_end live total keepRecent targetTokens i' (kept + size) i'
      end
  end.

Definition not_needed_reason : string :=
  "The recent turns alone exceed the compaction target, so summarising older ones " +:+
  "would not bring the conversation under the limit.".

Definition needed_reason (before : Z) (limit : Q) : string :=
  "The conversation reached " +:+ pretty before +:+ " estimated tokens, above the " +:+
  pretty (Qfloor (limit + (1 # 2))) +:+ " at which this model is compacted.".

Definition planCompaction (messages : list Message) (capabilities : ModelCapabilities)
    (policy : CompactionPolicy) : CompactionPlan :=
  let threshold := default DEFAULT_COMPACTION_THRESHOLD (cp_threshold policy) in
  let target := default DEFAULT_COMPACTION_TARGET (cp_target policy) in
  let keepRecent := default DEFAULT_KEEP_RECENT (cp_keepRecent policy) in
  let live := live_messages messages in
  let before := tokensOf live in
  let limit := (inject_Z (mc_maxInputTokens capabilities) * threshold)%Q in
  if Qle_bool (inject_Z before) limit then
    {| pl_needed := false; pl_toSummarise := []; pl_toKeep := live;
       pl_estimatedTokensBefore := before; pl_estimatedTokensAfter := before; pl_reason := None |}
  else
    let targetTokens := (inject_Z (mc_maxInputTokens capabilities) * target)%Q in
    let cut := keep_from_end live (Z.of_nat (length live)) keepRecent targetTokens
                 (length live) 0 (length live) in
    let cut := legalBoundaryAtOrBefore live cut in
    match cut with
    | O =>
        {| pl_needed := false; pl_toSummarise := []; pl_toKeep := live;
           pl_estimatedTokensBefore := before; pl_estimatedTokensAfter := before;
           pl_reason := Some not_needed_reason |}
    | S _ =>
        {| pl_needed := true; pl_toSummarise := take cut live; pl_toKeep := drop cut live;
           pl_estimatedTokensBefore := before; pl_estimatedTokensAfter := tokensOf (drop cut live);
           pl_reason := Some (needed_reason before limit) |}
    end.

Record CompactionResult := {
  cres_summary : list ContentBlock;
  cres_supersededIds : list string;
  cres_estimatedTokensBefore : Z;
  cres_estimatedTokensAfter : Z;
}.

Inductive NothingToCompact := nothing_to_compact.

Definition newline : string := String (Ascii.ascii_of_nat 10) "".

(** [summarise] is the model call on the canonical messages. *)
Definition compact (plan : CompactionPlan) (summarise : list CanonicalMessage → string)
    : outcome NothingToCompact CompactionResult :=
  if negb (pl_needed plan) then Throw nothing_to_compact
  else
    let text := summarise (map (λ m, {| c_role := m_role m; c_content := m_content m;
                                        c_providerArtifacts := None |}) (pl_toSummarise plan)) in
    Ret {| cres_summary :=
             [BText ("[Summary of " +:+ pretty (Z.of_nat (length (pl_toSummarise plan))) +:+
                " earlier messages in this conversation. " +:+
                "This is a compressed account, not a verbatim transcript.]" +:+ newline +:+ newline +:+ text)];
           cres_supersededIds := map m_id (pl_toSummarise plan);
           cres_estimatedTokensBefore := pl_estimatedTokensBefore plan;
           cres_estimatedTokensAfter := pl_estimatedTokensAfter plan |}.

(** [replace(/\s+/g, ' ').trim()]: [pending] is a space owed before the next
    visible character; leading and trailing ones are never written. *)
Fixpoint squash (pending started : bool) (s : string) : string :=
  match s with
  | EmptyString => ""
  | String c s' =>
      if is_space c then squash true started s'
      else (if pending && started then " " else "") +:+ String c (squash false true s')
  end.

Definition role_name (r : MessageRole) : string :=
  match r with RUser => "user" | RAssistant => "assistant" | RTool => "tool" | RSystem => "system" end.

Definition fallbackSummary (messages : list Message) : string :=
  join newline (map (λ m,
    let text := squash false false (messageText (m_content m)) in
    role_name (m_role m) +:+ ": " +:+
    (if (200 <? String.length text)%nat then str_take 200 text +:+ "…" else text)) messages).

(** ** The cut *)

Lemma keep_from_end_le live total k t i kept cut :
  (i <= cut)%nat → (keep_from_end live total k t i kept cut <= cut)%nat.
Proof.
  revert kept cut. induction i as [|i IH]; intros kept cut Hi; simpl; [lia|].
  destruct (live !! i); [|lia]. case_match; [lia|].
  etransitivity; [apply IH; lia|lia].
Qed.

(** The last [keepRecent] messages are never cut away. *)
Lemma keep_from_end_recent live k t i kept :
  (i <= length live)%nat →
  Z.of_nat (keep_from_end live (Z.of_nat (length live)) k t i kept i) <= Z.max 0 (Z.of_nat (length live) - k).
Proof.
  revert kept. induction i as [|i IH]; intros kept Hi; simpl; [lia|].
  destruct (decide (Z.of_nat (S i) <= Z.of_nat (length live) - k)) as [Hle|Hgt].
  - destruct (live !! i); [|lia]. case_match; [lia|].
    pose proof (keep_from_end_le live (Z.of_nat (length live)) k t i (kept + message_tokens m) i). lia.
  - destruct (lookup_lt_is_Some_2 live i) as [m ->]; [lia|].
    replace (Z.of_nat (length live) - Z.of_nat i <=? k) with true by (symmetry; apply Z.leb_le; lia).
    simpl. apply IH. lia.
Qed.

Lemma legalBoundary_le live i : (legalBoundaryAtOrBefore live i <= i)%nat.
Proof. induction i as [|i IH]; cbn [legalBoundaryAtOrBefore]; [lia|]. case_match; lia. Qed.

Lemma legalBoundary_legal live i : isLegalBoundary live (legalBoundaryAtOrBefore live i) = true.
Proof. induction i as [|i IH]; cbn [legalBoundaryAtOrBefore]; [done|]. by case_match. Qed.

Lemma legalBoundary_nearest live i j :
  (legalBoundaryAtOrBefore live i < j <= i)%nat → isLegalBoundary live j = false.
Proof.
  induction i as [|i IH]; cbn [legalBoundaryAtOrBefore]; intros Hj; [lia|].
  destruct (isLegalBoundary live (S i)) eqn:E; [lia|].
  destruct (decide (j = S i)) as [->|]; [done|]. apply IH. lia.
Qed.

(** The cut of a plan that compacts. *)
Lemma planCompaction_cut messages caps policy :
  let live := live_messages messages in
  let plan := planCompaction messages caps policy in
  (pl_needed plan = false ∧ pl_toSummarise plan = [] ∧ pl_toKeep plan = live) ∨
  ∃ cut, pl_needed plan = true ∧ (0 < cut <= length live)%nat ∧
    pl_toSummarise plan = take cut live ∧ pl_toKeep plan = drop cut live ∧
    isLegalBoundary live cut = true ∧
    Z.of_nat cut <= Z.max 0 (Z.of_nat (length live) - default DEFAULT_KEEP_RECENT (cp_keepRecent policy)) ∧
    ¬ (inject_Z (tokensOf live) <=
       inject_Z (mc_maxInputTokens caps) * default DEFAULT_COMPACTION_THRESHOLD (cp_threshold policy))%Q.
Proof.
  unfold planCompaction. set (live := live_messages messages). simpl.
  destruct (Qle_bool _ _) eqn:El; [by left|].
  set (cut0 := keep_from_end _ _ _ _ _ _ _).
  destruct (legalBoundaryAtOrBefore live cut0) as [|cut] eqn:Ec; [by left|right].
  exists (S cut). cbn [pl_needed pl_toSummarise pl_toKeep]. pose proof (legalBoundary_le live cut0) as Hle.
  assert (cut0 <= length live)%nat by (by apply keep_from_end_le).
  split_and!; try done; try lia.
  - rewrite <-Ec. apply legalBoundary_legal.
  - pose proof (keep_from_end_recent live (default DEFAULT_KEEP_RECENT (cp_keepRecent policy))
      (inject_Z (mc_maxInputTokens caps) * default DEFAULT_COMPACTION_TARGET (cp_target policy))
      (length live) 0 (Nat.le_refl _)) as Hrec. fold cut0 in Hrec. lia.
  - rewrite <-Qle_bool_iff, El. done.
Qed.

(** A plan partitions the live history: what is summarised comes first and
    what is kept follows it, in order, with nothing lost or repeated.  When it
    compacts, the history exceeded the threshold, something is summarised, at
    least the [keepRecent] newest messages are kept and the cut is a legal
    boundary; when it does not, everything is kept. *)
Theorem planCompaction_partitions messages caps policy :
  let live := live_messages messages in
  let plan := planCompaction messages caps policy in
  let keepRecent := default DEFAULT_KEEP_RECENT (cp_keepRecent policy) in
  pl_toSummarise plan ++ pl_toKeep plan = live ∧
  if pl_needed plan then
    pl_toSummarise plan ≠ [] ∧
    Z.min keepRecent (Z.of_nat (length live)) <= Z.of_nat (length (pl_toKeep plan)) ∧
    isLegalBoundary live (length (pl_toSummarise plan)) = true ∧
    ¬ (inject_Z (tokensOf live) <=
       inject_Z (mc_maxInputTokens caps) * default DEFAULT_COMPACTION_THRESHOLD (cp_threshold policy))%Q
  else pl_toSummarise plan = [].
Proof.
  intros live plan keepRecent. unfold plan.
  destruct (planCompaction_cut messages caps policy) as [(-> & -> & ->)|
    (cut & -> & Hpos & -> & -> & Hlegal & Hcut & Hthr)]; [done|].
  fold live in Hpos, Hlegal, Hcut, Hthr |- *.
  rewrite take_drop. split; [done|].
  split_and!.
  - intros Hn%(f_equal length). rewrite length_take in Hn. simpl in Hn. lia.
  - rewrite length_drop. unfold keepRecent. lia.
  - by rewrite length_take, Nat.min_l by lia.
  - done.
Qed.

(** Tool results answer calls of the message right before them. *)
Definition result_ids (m : Message) : list string := omap tool_result_id (m_content m).
Definition call_ids (m : Message) : list string := map tu_id (toolUseBlocks (m_content m)).

Definition paired (l : list Message) : Prop :=
  ∀ i m id, l !! i = Some m → id ∈ result_ids m →
    ∃ j p, i = S j ∧ l !! j = Some p ∧ id ∈ call_ids p.

Lemma result_ids_has_result m id : id ∈ result_ids m → has_result m = true.
Proof.
  intros (b & Hb & Hid)%list_elem_of_omap. unfold has_result. apply existsb_exists.
  exists b. split; [by apply list_elem_of_In|]. by destruct b.
Qed.

Lemma legal_cut_paired l cut : isLegalBoundary l cut = true → paired l → paired (drop cut l).
Proof.
  intros Hlegal Hp i m id Hm Hid. rewrite lookup_drop in Hm.
  destruct (Hp _ _ _ Hm Hid) as (j & p & Hj & Hpj & Hc).
  destruct i as [|i].
  - exfalso. rewrite Nat.add_0_r in *. subst cut. simpl in Hlegal. rewrite Hpj, Hm in Hlegal.
    unfold call_ids in Hc. destruct (toolUseBlocks (m_content p)); [by apply elem_of_nil in Hc|].
    bool_prop. by rewrite (result_ids_has_result m id Hid) in *.
  - exists i, p. split; [done|]. rewrite lookup_drop. by replace (cut + i)%nat with j by lia.
Qed.

(** Compaction never separates a tool call from its result: when every
    result in the live history answers a call of the message before it, so it
    does in the history that is kept. *)
Theorem compaction_never_splits_a_pair messages caps policy :
  paired (live_messages messages) → paired (pl_toKeep (planCompaction messages caps policy)).
Proof.
  intros Hp. destruct (planCompaction_cut messages caps policy) as [(_ & _ & ->)|
    (cut & _ & _ & _ & -> & Hlegal & _)]; [done|]. by apply legal_cut_paired.
Qed.

Lemma compaction_never_splits_a_pair_witness :
  let history := [sample_message 1 RUser [BText "A long question about something, at length."];
                  sample_message 2 RAssistant [BToolUse "t1" "a__b" VNull];
                  sample_message 3 RTool [BToolResult "t1" [BText "A long answer to the question."] None false]] in
  let caps := {| mc_modelId := "m"; mc_maxInputTokens := 20; mc_maxOutputTokens := 5;
                 mc_tools := mc_tools sample_capabilities; mc_promptCache := mc_promptCache sample_capabilities; mc_reasoning := mc_reasoning sample_capabilities |} in
  let policy := {| cp_threshold := None; cp_target := None; cp_keepRecent := Some 1 |} in
  let plan := planCompaction history caps policy in
  pl_needed plan = true ∧ length (pl_toKeep plan) = 2%nat ∧ paired (pl_toKeep plan).
Proof.
  intros history caps policy plan. split; [reflexivity|]. split; [reflexivity|].
  apply compaction_never_splits_a_pair.
  intros i m id Hm Hid. destruct i as [|[|[|i]]]; simpl in Hm; try discriminate;
    injection Hm as <-; simpl in Hid; try (by apply elem_of_nil in Hid).
  apply list_elem_of_singleton in Hid as ->. exists 1%nat. eexists. split; [reflexivity|].
  split; [reflexivity|]. left.
Defined.
