(* ===== verification/Redaction.v ===== *)
(** * Redaction of stored arguments

    Models packages/core/src/policy/redaction.ts.  Arguments are JSON trees, so
    the cycle check of the code (by object identity) never fires on them. *)
From S2P Require Import Prelude Json Text ToolNames.

Definition REDACTED : string := "[redacted]".

Definition SENSITIVE_TOKENS : list string :=
  ["password"; "passwd"; "passphrase"; "pass";
   "secret"; "token"; "credential"; "credentials";
   "authorization"; "cookie"; "session"; "bearer"; "jwt"; "signature";
   "otp"; "pin"; "cvv"; "cvc"; "ssn"].

Definition SENSITIVE_PAIRS : list (string * string) :=
  [("api", "key"); ("private", "key"); ("access", "key"); ("secret", "key");
   ("client", "secret"); ("access", "token"); ("refresh", "token"); ("id", "token")].

Definition is_lower_digit (c : Ascii.ascii) : bool := is_lower c || is_digit c.

(** [replace(/([a-z0-9])([A-Z])/g, '$1 $2')]. *)
Fixpoint camel_split (prev_low : bool) (s : string) : string :=
  match s with
  | EmptyString => ""
  | String c s' =>
      if prev_low && is_upper c then String " " (String c (camel_split false s'))
      else String c (camel_split (is_lower_digit c) s')
  end.

(** [split(/[^a-zA-Z0-9]+|\s+/)] without the empty parts. *)
Fixpoint words (current : string) (s : string) : list string :=
  match s with
  | EmptyString => if String.eqb current "" then [] else [current]
  | String c s' =>
      if is_alnum c then words (current +:+ String c "") s'
      else if String.eqb current "" then words "" s' else current :: words "" s'
  end.

Definition keyTokens (key : string) : list string :=
  map (str_map lower) (words "" (camel_split false key)).

Fixpoint has_pair (p : string * string) (tokens : list string) : bool :=
  match tokens with
  | a :: (b :: _) as rest => (String.eqb a p.1 && String.eqb b p.2) || has_pair p rest
  | _ => false
  end.

Definition isSensitiveKey (key : string) : bool :=
  let tokens := keyTokens key in
  existsb (λ t, bool_decide (t ∈ SENSITIVE_TOKENS)) tokens ||
  existsb (λ p, has_pair p tokens) SENSITIVE_PAIRS.

Record RedactArgumentOptions := {
  ro_sensitiveKeys : option (list string);
  ro_maxDepth : option Z;
  ro_maxStringLength : option Z;
}.
Definition default_redaction : RedactArgumentOptions :=
  {| ro_sensitiveKeys := None; ro_maxDepth := None; ro_maxStringLength := None |}.

Definition sensitive (extra : list string) (key : option string) : bool :=
  match key with
  | None => false
  | Some k => isSensitiveKey k || bool_decide (str_map lower k ∈ extra)
  end.

Definition clip (maxStringLength : Z) (s : string) : string :=
  let n := Z.of_nat (String.length s) in
  if maxStringLength <? n then
    str_take (Z.to_nat maxStringLength) s +:+ "…[truncated " +:+ pretty (n - maxStringLength) +:+ "]"
  else s.

Fixpoint walk (extra : list string) (maxDepth maxStringLength : Z) (node : value) (depth : Z)
    (key : option string) : value :=
  match node with
  | VNull | VUndefined => node
  | _ =>
      if sensitive extra key then VString REDACTED
      else
        match node with
        | VString s => VString (clip maxStringLength s)
        | VArray items =>
            if maxDepth <=? depth then VString "[depth limit]"
            else VArray (take 100 (map (λ item, walk extra maxDepth maxStringLength item (depth + 1) key) items))
        | VObject fields =>
            if maxDepth <=? depth then VString "[depth limit]"
            else VObject (map (λ kv, (kv.1, walk extra maxDepth maxStringLength kv.2 (depth + 1) (Some kv.1))) fields)
        | _ => node
        end
  end.

Definition redactDeep (v : value) (options : RedactArgumentOptions) : value :=
  walk (map (str_map lower) (default [] (ro_sensitiveKeys options)))
    (default 8 (ro_maxDepth options)) (default 2000 (ro_maxStringLength options)) v 0 None.

(** ** What is left *)

(** Nothing readable remains under a sensitive key, at any depth. *)
Definition hidden (v : value) : bool :=
  match v with VNull | VUndefined => true | VString s => String.eqb s REDACTED | _ => false end.

Fixpoint clean (extra : list string) (v : value) : bool :=
  match v with
  | VArray items => forallb (clean extra) items
  | VObject fields =>
      forallb (λ kv, (negb (sensitive extra (Some kv.1)) || hidden kv.2) && clean extra kv.2) fields
  | _ => true
  end.

(** Nesting of arrays and objects. *)
Fixpoint nesting (v : value) : Z :=
  match v with
  | VArray items => 1 + fold_right Z.max 0 (map nesting items)
  | VObject fields => 1 + fold_right Z.max 0 (map (λ kv, nesting kv.2) fields)
  | _ => 0
  end.

Lemma walk_hidden extra d m v depth k : sensitive extra k = true → hidden (walk extra d m v depth k) = true.
Proof. intros H. destruct v; simpl; rewrite ?H; done. Qed.

Lemma walk_clean extra d m v depth k : clean extra (walk extra d m v depth k) = true.
Proof.
  revert depth k. induction v as [| | | | |xs IH|fs IH] using value_nested_ind; intros depth k; simpl;
    try done; (destruct (sensitive extra k); [done|]); try done; case_match; try done; simpl.
  - rewrite forallb_forall. intros x Hx%list_elem_of_In. apply subseteq_take in Hx.
    apply list_elem_of_fmap in Hx as (y & -> & Hy). rewrite Forall_forall in IH. by apply IH.
  - rewrite forallb_forall. intros [k' x] Hx%list_elem_of_In.
    apply list_elem_of_fmap in Hx as ([k0 y] & [= -> ->] & Hy). simpl.
    rewrite Forall_forall in IH. rewrite (IH (k0, y) Hy), andb_true_r. simpl.
    destruct (isSensitiveKey k0 || _) eqn:E; [|done]. simpl. by apply walk_hidden.
Qed.

Lemma fold_max_le (l : list Z) b : 0 <= b → (∀ x, x ∈ l → x <= b) → fold_right Z.max 0 l <= b.
Proof.
  intros Hb. induction l as [|x l IH]; simpl; intros H; [done|].
  apply Z.max_lub; [apply H; by left|]. apply IH. intros y Hy. apply H. by right.
Qed.

Lemma walk_nesting extra d m v depth k :
  nesting (walk extra d m v depth k) <= Z.max 0 (d - depth).
Proof.
  revert depth k. induction v as [| | | | |xs IH|fs IH] using value_nested_ind; intros depth k; simpl;
    try lia; (destruct (sensitive extra k); [simpl; lia|]); try (simpl; lia);
    (case_match eqn:E; [simpl; lia|]); apply Z.leb_gt in E; cbn [nesting];
    assert (Z.max 0 (d - depth) = 1 + Z.max 0 (d - (depth + 1))) as -> by lia;
    apply Z.add_le_mono_l, fold_max_le; try lia; intros x Hx; rewrite Forall_forall in IH.
  - apply list_elem_of_fmap in Hx as (y & -> & Hy). apply subseteq_take in Hy.
    apply list_elem_of_fmap in Hy as (z & -> & Hz). by apply IH.
  - apply list_elem_of_fmap in Hx as (y & -> & Hy).
    apply list_elem_of_fmap in Hy as ([k0 z] & -> & Hz). simpl. by apply (IH (k0, z)).
Qed.

(** What is written to the timeline holds no value under a sensitive key:
    at every depth of the redacted arguments, inside arrays too, each such
    entry is the redaction mark (or null), whatever the arguments were; and the
    record is at most [maxDepth] levels deep. *)
Theorem redaction_hides_sensitive_values v options :
  let extra := map (str_map lower) (default [] (ro_sensitiveKeys options)) in
  clean extra (redactDeep v options) = true ∧
  nesting (redactDeep v options) <= Z.max 0 (default 8 (ro_maxDepth options)).
Proof.
  split; [apply walk_clean|]. unfold redactDeep.
  etransitivity; [apply walk_nesting|]. lia.
Qed.

(** The spellings the list does not enumerate. *)
Example key_spellings :
  keyTokens "x-api-key" = ["x"; "api"; "key"] ∧ isSensitiveKey "apiKey" = true ∧
  isSensitiveKey "API_KEY" = true ∧ isSensitiveKey "authorName" = false ∧
  isSensitiveKey "sortKey" = false ∧ isSensitiveKey "accessToken" = true.
Proof. split_and!; vm_compute; reflexivity. Qed.
