(* ===== verification/CapabilitySelector.v ===== *)
(** * Which tools the model is shown

    Models packages/runtime/src/capability-selector.ts: the agent's own
    configuration of its bindings, the model's limit, and the vendor names. *)
From S2P Require Import Prelude Json Entities Model ToolNames ContextAssembler.

Record SelectionInput := {
  si_available : list ToolDeclaration;
  si_snapshot : AgentSnapshot;
  si_capabilities : ModelCapabilities;
  si_bindingIdByAlias : gmap string string;
}.

Record Selection := {
  sel_tools : list ToolDeclaration;
  sel_nameMap : ToolNameMap;
  sel_excludedByAgent : list string;
  sel_droppedForLimit : list string;
}.

(** [indexOf('__')] at or before the first character gives no alias. *)
Definition aliasOf (canonicalName : string) : string :=
  match index_of_sep canonicalName with
  | Some (S i) => str_take (S i) canonicalName
  | _ => ""
  end.

Definition toolNameOf (canonicalName : string) : string :=
  match index_of_sep canonicalName with
  | Some (S i) => str_drop (S i + 2) canonicalName
  | _ => canonicalName
  end.

Definition bindingAdmits (binding : AgentCapabilityBinding) (toolName : string) : bool :=
  match acb_mode binding with
  | bm_all => true
  | bm_allow => bool_decide (toolName ∈ acb_tools binding)
  | bm_deny => negb (bool_decide (toolName ∈ acb_tools binding))
  end.

(** The map built by [set] in order: the last binding with an id wins. *)
Definition byBindingId (bindings : list AgentCapabilityBinding) : gmap string AgentCapabilityBinding :=
  fold_left (λ m b, <[acb_bindingId b := b]> m) bindings ∅.

Definition bindingFor (input : SelectionInput) (alias : string) : option AgentCapabilityBinding :=
  bindingId ← si_bindingIdByAlias input !! alias;
  byBindingId (as_capabilityBindings (si_snapshot input)) !! bindingId.

Definition admits (input : SelectionInput) (tool : ToolDeclaration) : bool :=
  match bindingFor input (aliasOf (td_name tool)) with
  | None => false
  | Some binding => bindingAdmits binding (toolNameOf (td_name tool))
  end.

Definition rules_of (c : ModelCapabilities) : ToolNameRules :=
  {| namePattern := ts_namePattern (mc_tools c); maxNameLength := ts_maxNameLength (mc_tools c) |}.

(** An index of [slice]: negative ones count from the end. *)
Definition slice_index (len : nat) (n : Z) : nat :=
  if n <? 0 then Z.to_nat (Z.of_nat len + n) else Z.to_nat n.

Definition selectCapabilities (input : SelectionInput) : outcome IllegalName Selection :=
  let caps := si_capabilities input in
  if negb (ts_supported (mc_tools caps)) then
    obind (buildToolNameMap [] (rules_of caps)) (λ nameMap,
      Ret {| sel_tools := []; sel_nameMap := nameMap;
             sel_excludedByAgent := map td_name (si_available input); sel_droppedForLimit := [] |})
  else
    let admitted := orderTools (List.filter (admits input) (si_available input)) in
    let excluded := map td_name (List.filter (λ t, negb (admits input t)) (si_available input)) in
    let '(tools, dropped) :=
      match ts_maxTools (mc_tools caps) with
      | Some max =>
          if max <? Z.of_nat (length admitted) then
            (take (slice_index (length admitted) max) admitted,
             map td_name (drop (slice_index (length admitted) max) admitted))
          else (admitted, [])
      | None => (admitted, [])
      end in
    obind (buildToolNameMap (map td_name tools) (rules_of caps)) (λ nameMap,
      Ret {| sel_tools := tools; sel_nameMap := nameMap;
             sel_excludedByAgent := excluded; sel_droppedForLimit := dropped |}).

(** ** Facts *)

(** What a successful selection is made of. *)
Lemma selectCapabilities_Ret input sel :
  selectCapabilities input = Ret sel → ts_supported (mc_tools (si_capabilities input)) = true →
  ∃ rest, orderTools (List.filter (admits input) (si_available input)) = sel_tools sel ++ rest ∧
    sel_droppedForLimit sel = map td_name rest ∧
    sel_excludedByAgent sel = map td_name (List.filter (λ t, negb (admits input t)) (si_available input)) ∧
    buildToolNameMap (map td_name (sel_tools sel)) (rules_of (si_capabilities input)) = Ret (sel_nameMap sel) ∧
    (∀ max, ts_maxTools (mc_tools (si_capabilities input)) = Some max → 0 <= max →
       Z.of_nat (length (sel_tools sel)) <= max).
Proof.
  unfold selectCapabilities. intros Hsel Hs. rewrite Hs in Hsel. simpl in Hsel.
  set (admitted := orderTools _) in *.
  set (split := match ts_maxTools _ with Some _ => _ | None => _ end) in Hsel.
  assert (∃ rest, admitted = split.1 ++ rest ∧ split.2 = map td_name rest ∧
    (∀ max, ts_maxTools (mc_tools (si_capabilities input)) = Some max → 0 <= max →
       Z.of_nat (length split.1) <= max)) as (rest & Ha & Hd & Hm).
  { unfold split. destruct (ts_maxTools _) as [max|].
    - destruct (Z.ltb_spec max (Z.of_nat (length admitted))) as [Hlt|Hge].
      + exists (drop (slice_index (length admitted) max) admitted). simpl. rewrite take_drop. split_and!; try done.
        intros ? [= <-] Hpos. rewrite length_take. unfold slice_index.
        destruct (Z.ltb_spec max 0); lia.
      + exists []. simpl. rewrite app_nil_r. split_and!; try done. intros ? [= <-] _. lia.
    - exists []. simpl. rewrite app_nil_r. split_and!; done. }
  destruct split as [tools dropped]. simpl in *.
  destruct (buildToolNameMap (map td_name tools) _) as [nm|e] eqn:Eb; simpl in Hsel; [|done].
  injection Hsel as <-. exists rest. simpl. auto.
Qed.

Lemma elem_of_admitted input t :
  t ∈ orderTools (List.filter (admits input) (si_available input)) ↔ t ∈ si_available input ∧ admits input t = true.
Proof.
  unfold orderTools. rewrite elem_of_stable_sort, list_elem_of_In, filter_In. by rewrite <-list_elem_of_In.
Qed.

(** The model is shown only tools the agent is configured for, at most as
    many as it can take, and every available tool is accounted for: shown,
    dropped for the limit or excluded by the agent. *)
Theorem selection_is_accounted_for input sel :
  selectCapabilities input = Ret sel →
  ts_supported (mc_tools (si_capabilities input)) = true →
  (∀ t, t ∈ sel_tools sel → t ∈ si_available input ∧
     ∃ b, bindingFor input (aliasOf (td_name t)) = Some b ∧ bindingAdmits b (toolNameOf (td_name t)) = true) ∧
  (∀ t, t ∈ si_available input →
     t ∈ sel_tools sel ∨ td_name t ∈ sel_droppedForLimit sel ∨ td_name t ∈ sel_excludedByAgent sel) ∧
  (∀ max, ts_maxTools (mc_tools (si_capabilities input)) = Some max → 0 <= max →
     Z.of_nat (length (sel_tools sel)) <= max).
Proof.
  intros Hsel Hs. destruct (selectCapabilities_Ret input sel Hsel Hs) as (rest & Ha & Hd & He & _ & Hm).
  split_and!; [| |done].
  - intros t Ht. assert (t ∈ si_available input ∧ admits input t = true) as [Hin Had].
    { apply elem_of_admitted. rewrite Ha. apply elem_of_app. by left. }
    split; [done|]. unfold admits in Had. destruct (bindingFor _ _) as [b|]; [|done]. by exists b.
  - intros t Ht. destruct (admits input t) eqn:Ead.
    + assert (t ∈ sel_tools sel ++ rest) as [?|?]%elem_of_app by (rewrite <-Ha; by apply elem_of_admitted).
      * by left.
      * right; left. rewrite Hd. by apply list_elem_of_fmap_2.
    + right; right. rewrite He. apply list_elem_of_fmap_2, list_elem_of_In, filter_In.
      split; [by apply list_elem_of_In|by rewrite Ead].
Qed.

Definition with_available (i : SelectionInput) (ts : list ToolDeclaration) : SelectionInput :=
  {| si_available := ts; si_snapshot := si_snapshot i; si_capabilities := si_capabilities i;
     si_bindingIdByAlias := si_bindingIdByAlias i |}.

(** The tools shown, their order and their vendor names do not depend on
    which MCP server answered first, even when the limit truncates the list. *)
Theorem selection_ignores_discovery_order i ts ts' sel sel' :
  NoDup (map td_name ts) → ts ≡ₚ ts' →
  ts_supported (mc_tools (si_capabilities i)) = true →
  selectCapabilities (with_available i ts) = Ret sel →
  selectCapabilities (with_available i ts') = Ret sel' →
  sel_tools sel = sel_tools sel' ∧ sel_nameMap sel = sel_nameMap sel'.
Proof.
  intros Hn Hp Hs. unfold selectCapabilities. simpl. rewrite Hs. simpl.
  assert (orderTools (List.filter (admits (with_available i ts)) ts) =
          orderTools (List.filter (admits (with_available i ts')) ts')) as ->.
  { change (admits (with_available i ts)) with (admits (with_available i ts')).
    apply tool_sort_perm; [by apply NoDup_map_filter|by apply filter_perm]. }
  destruct (match ts_maxTools _ with Some _ => _ | None => _ end) as [tools dropped].
  destruct (buildToolNameMap _ _); simpl; [|done]. intros [= <-] [= <-]. done.
Qed.

Definition sample_selection : SelectionInput := {|
  si_available := [sample_tool "crm__find"; sample_tool "crm__delete"; sample_tool "mail__send"];
  si_snapshot := {| as_systemPrompt := ""; as_modelRole := mr_chat;
    as_capabilityBindings := [{| acb_bindingId := "bnd_1"; acb_mode := bm_deny; acb_tools := ["delete"] |}];
    as_maxToolCallsPerTurn := 8 |};
  si_capabilities := sample_capabilities;
  si_bindingIdByAlias := {["crm" := "bnd_1"; "mail" := "bnd_2"]} |}.

Lemma selection_is_accounted_for_witness :
  ∃ sel, selectCapabilities sample_selection = Ret sel ∧
    map td_name (sel_tools sel) = ["crm__find"] ∧
    sel_excludedByAgent sel = ["crm__delete"; "mail__send"] ∧
    ∀ t, t ∈ sel_tools sel → t ∈ si_available sample_selection.
Proof.
  eexists. split; [vm_compute; reflexivity|]. split; [reflexivity|]. split; [reflexivity|].
  intros t Ht. eapply (selection_is_accounted_for sample_selection).
  - vm_compute. reflexivity.
  - reflexivity.
  - exact Ht.
Defined.

Lemma selection_ignores_discovery_order_witness :
  ∃ sel sel',
    selectCapabilities (with_available sample_selection [sample_tool "crm__find"; sample_tool "crm__add"]) = Ret sel ∧
    selectCapabilities (with_available sample_selection [sample_tool "crm__add"; sample_tool "crm__find"]) = Ret sel' ∧
    sel_tools sel = sel_tools sel' ∧ sel_nameMap sel = sel_nameMap sel'.
Proof.
  do 2 eexists. split; [vm_compute; reflexivity|]. split; [vm_compute; reflexivity|].
  eapply (selection_ignores_discovery_order sample_selection
           [sample_tool "crm__find"; sample_tool "crm__add"] [sample_tool "crm__add"; sample_tool "crm__find"]).
  - repeat constructor; set_solver.
  - constructor.
  - reflexivity.
  - vm_compute. reflexivity.
  - vm_compute. reflexivity.
Defined.
