(* ===== verification/ToolPhase.v ===== *)
(** * One tool phase

    Models packages/runtime/src/tool-phase.ts and the outcomes of
    packages/core/src/ports/tool-gateway.ts.  The gateway is a parameter: what
    it answers for each call, or the message of the exception it throws.  The
    calls of a batch start together; the log of invocations records which calls
    reached the gateway. *)
From S2P Require Import Prelude Json Entities Model LoopDetection Redaction.

Record CallPermission := {
  cp_effect : PermissionEffect;
  cp_reason : option string;
  cp_matchedRuleId : option string;
}.

Inductive ToolOutcome :=
| to_result (content : list ContentBlock) (structured : option value) (isError : bool)
    (bindingId : string) (durationMs mrtrRounds : Z) (permission : option CallPermission)
| to_needs_approval (approvalId reason : string)
| to_needs_input (approvalId requestState : string)
| to_task_pending (taskId bindingId : string).

Record RequestedCall := { rc_id : string; rc_canonicalName : string; rc_input : value }.

Record CompletedCall := {
  cc_id : string;
  cc_canonicalName : string;
  cc_content : list ContentBlock;
  cc_structured : option value;
  cc_isError : bool;
  cc_bindingId : option string;
  cc_durationMs : Z;
  cc_mrtrRounds : Z;
  cc_argumentsRedacted : option value;
  cc_permission : option CallPermission;
}.

Inductive SuspendReason := sr_approval | sr_input | sr_tool.

Inductive PhaseOutcome :=
| po_complete (completed : list CompletedCall) (message : list ContentBlock)
| po_suspended (reason : SuspendReason) (approvalId requestState : option string)
    (pendingCallId : string) (completed : list CompletedCall)
| po_refused (verdict : LoopVerdict) (message : list ContentBlock).

Inductive PhaseEvent :=
| tool_call_started (id name : string)
| tool_call_finished (id name : string) (isError : bool) (durationMs : Z).

Definition DEFAULT_MAX_PARALLEL : Z := 6.

(** What the loop of [run] changes. *)
Record PhaseState := {
  ps_completed : gmap string CompletedCall;
  ps_detector : LoopDetector;
  ps_events : list PhaseEvent;
  ps_invoked : list RequestedCall;
}.

Definition observed (c : RequestedCall) : ObservedCall :=
  {| oc_canonicalName := rc_canonicalName c; oc_args := rc_input c |}.

Definition completed_call (call : RequestedCall) (content : list ContentBlock) (structured : option value)
    (isError : bool) (bindingId : string) (durationMs mrtrRounds : Z) (permission : option CallPermission)
    : CompletedCall :=
  {| cc_id := rc_id call; cc_canonicalName := rc_canonicalName call; cc_content := content;
     cc_structured := structured; cc_isError := isError; cc_bindingId := Some bindingId;
     cc_durationMs := durationMs; cc_mrtrRounds := mrtrRounds;
     cc_argumentsRedacted := Some (redactDeep (rc_input call) default_redaction);
     cc_permission := permission |}.

Definition orderedResults (calls : list RequestedCall) (completed : gmap string CompletedCall)
    : list CompletedCall :=
  omap (λ call, completed !! rc_id call) calls.

Definition result_block (done : CompletedCall) : ContentBlock :=
  toolResultBlock (cc_id done) (cc_content done) (cc_structured done) (Some (cc_isError done)).

(** The text of the verdict; [undefined as string] when it does not loop. *)
Definition verdict_message (v : LoopVerdict) : string :=
  match v with Looping _ _ m => m | NOT_LOOPING => "" end.

Section Phase.
Context (gateway : RequestedCall → outcome string ToolOutcome).
Context (elapsed : RequestedCall → Z).

(** [#invoke]: an exception of the gateway becomes a result. *)
Definition invoke (call : RequestedCall) : ToolOutcome :=
  match gateway call with
  | Ret o => o
  | Throw message =>
      to_result [BText ("The tool could not be run: " +:+ message)] None true "" (elapsed call) 0 None
  end.

(** The outcomes of one batch, in order; the first suspension ends the phase. *)
Fixpoint settle (batch : list RequestedCall) (s : PhaseState)
    : option (RequestedCall * ToolOutcome) * PhaseState :=
  match batch with
  | [] => (None, s)
  | call :: batch' =>
      match invoke call with
      | to_result content structured isError bindingId durationMs mrtrRounds permission =>
          let done := completed_call call content structured isError bindingId durationMs mrtrRounds permission in
          settle batch'
            {| ps_completed := <[rc_id call := done]> (ps_completed s);
               ps_detector := record (ps_detector s) (observed call);
               ps_events := ps_events s ++
                 [tool_call_finished (rc_id call) (rc_canonicalName call) isError durationMs];
               ps_invoked := ps_invoked s |}
      | o => (Some (call, o), s)
      end
  end.

(** Starting a batch invokes all of its calls. *)
Definition start_batch (batch : list RequestedCall) (s : PhaseState) : PhaseState :=
  {| ps_completed := ps_completed s; ps_detector := ps_detector s;
     ps_events := ps_events s ++ map (λ c, tool_call_started (rc_id c) (rc_canonicalName c)) batch;
     ps_invoked := ps_invoked s ++ batch |}.

(** The [for] loop in steps of [concurrency]; [None] when the fuel is used up. *)
Fixpoint run_batches (fuel : nat) (concurrency : nat) (rest : list RequestedCall) (s : PhaseState)
    : option (option (RequestedCall * ToolOutcome) * PhaseState) :=
  match rest with
  | [] => Some (None, s)
  | _ :: _ =>
      match fuel with
      | O => None
      | S fuel' =>
          match settle (take concurrency rest) (start_batch (take concurrency rest) s) with
          | (Some susp, s') => Some (Some susp, s')
          | (None, s') => run_batches fuel' concurrency (drop concurrency rest) s'
          end
      end
  end.

Definition suspension (calls : list RequestedCall) (call : RequestedCall) (o : ToolOutcome)
    (completed : gmap string CompletedCall) : PhaseOutcome :=
  let results := orderedResults calls completed in
  match o with
  | to_needs_approval approvalId _ => po_suspended sr_approval (Some approvalId) None (rc_id call) results
  | to_needs_input approvalId requestState =>
      po_suspended sr_input (Some approvalId) (Some requestState) (rc_id call) results
  | _ => po_suspended sr_tool None None (rc_id call) results
  end.

Definition outstanding_calls (calls : list RequestedCall) (already : gmap string CompletedCall)
    : list RequestedCall :=
  List.filter (λ c, match already !! rc_id c with Some _ => false | None => true end) calls.

(** [run]: the outcome, the detector, the events and the calls that reached the
    gateway. *)
Definition run (maxParallel : Z) (parallelCalls : bool) (detector : LoopDetector)
    (calls : list RequestedCall) (already : gmap string CompletedCall) : option (PhaseOutcome * PhaseState) :=
  let outstanding := outstanding_calls calls already in
  let s := {| ps_completed := already; ps_detector := detector; ps_events := []; ps_invoked := [] |} in
  let verdict := inspectPhase detector (map observed outstanding) in
  if looping verdict then
    Some (po_refused verdict
            (map (λ c, toolResultBlock (rc_id c) [BText (verdict_message verdict)] None (Some true)) calls), s)
  else
    let concurrency := if parallelCalls then Z.to_nat maxParallel else 1%nat in
    match run_batches (length outstanding) concurrency outstanding s with
    | None => None
    | Some (Some (call, o), s') => Some (suspension calls call o (ps_completed s'), s')
    | Some (None, s') =>
        let ordered := orderedResults calls (ps_completed s') in
        Some (po_complete ordered (map result_block ordered), s')
    end.

(** ** Facts about the loop *)

Definition is_result (o : ToolOutcome) : bool :=
  match o with to_result _ _ _ _ _ _ _ => true | _ => false end.

(** Entries are stored under the id they carry. *)
Definition keyed (m : gmap string CompletedCall) : Prop := ∀ id c, m !! id = Some c → cc_id c = id.

(** What settling a batch does to the map of completed calls. *)
Lemma settle_spec batch s susp s' :
  settle batch s = (susp, s') →
  ps_invoked s' = ps_invoked s ∧
  (keyed (ps_completed s) → keyed (ps_completed s')) ∧
  (∀ id, is_Some (ps_completed s !! id) → is_Some (ps_completed s' !! id)) ∧
  match susp with
  | None => ∀ c, c ∈ batch → is_result (invoke c) = true ∧ is_Some (ps_completed s' !! rc_id c)
  | Some (call, o) => o = invoke call ∧ is_result o = false ∧
      ∃ pre post, batch = pre ++ call :: post ∧
        ∀ c, c ∈ pre → is_result (invoke c) = true ∧ is_Some (ps_completed s' !! rc_id c)
  end.
Proof.
  revert s. induction batch as [|call batch IH]; intros s; simpl.
  { intros [= <- <-]. split_and!; try done. by intros ? ?%elem_of_nil. }
  destruct (invoke call) as [content structured isError bid dur rounds perm| | |] eqn:Ei;
    try (intros [= <- <-]; split_and!; try done; exists [], batch; split; [done|by intros ? ?%elem_of_nil]).
  intros Hs. apply IH in Hs as (Hinv & Hkey & Hmono & Hsusp). simpl in *. clear IH.
  assert (is_Some (ps_completed s' !! rc_id call)) as Hcall.
  { apply Hmono. by rewrite lookup_insert_eq. }
  split_and!; [done|..].
  - intros Hk. apply Hkey. intros id c [[<- <-]|[_ ?]]%lookup_insert_Some; [done|by apply Hk].
  - intros id Hid. apply Hmono. destruct (decide (id = rc_id call)) as [->|].
    + by rewrite lookup_insert_eq.
    + by rewrite lookup_insert_ne.
  - destruct susp as [[c0 o]|].
    + destruct Hsusp as (-> & Ho & pre & post & -> & Hpre). split_and!; [done..|].
      exists (call :: pre), post. split; [done|]. intros c [->|Hc]%elem_of_cons; [|by apply Hpre].
      by rewrite Ei.
    + intros c [->|Hc]%elem_of_cons; [by rewrite Ei|by apply Hsusp].
Qed.

(** The loop never runs out of fuel, starts calls in order and at most once,
    and stores a result for every call it settled. *)
Lemma run_batches_spec n fuel rest s :
  (0 < n)%nat → (length rest <= fuel)%nat →
  ∃ susp s' started, run_batches fuel n rest s = Some (susp, s') ∧
    ps_invoked s' = ps_invoked s ++ started ∧ started `prefix_of` rest ∧
    (keyed (ps_completed s) → keyed (ps_completed s')) ∧
    (∀ id, is_Some (ps_completed s !! id) → is_Some (ps_completed s' !! id)) ∧
    match susp with
    | None => started = rest ∧ ∀ c, c ∈ rest → is_result (invoke c) = true ∧ is_Some (ps_completed s' !! rc_id c)
    | Some (call, o) => o = invoke call ∧ is_result o = false ∧
        ∃ pre post, started = pre ++ call :: post ∧ (length post < n)%nat ∧
          ∀ c, c ∈ pre → is_result (invoke c) = true ∧ is_Some (ps_completed s' !! rc_id c)
    end.
Proof.
  intros Hn. revert rest s. induction fuel as [|fuel IH]; intros rest s Hf.
  { destruct rest; simpl in *; [|lia]. exists None, s, []. rewrite app_nil_r. split_and!; try done.
    by intros ? ?%elem_of_nil. }
  destruct rest as [|r rest]; cbn [run_batches].
  { exists None, s, []. rewrite app_nil_r. split_and!; try done. by intros ? ?%elem_of_nil. }
  set (l := r :: rest) in *.
  destruct (settle (take n l) (start_batch (take n l) s)) as [[[call o]|] s'] eqn:Es;
    destruct (settle_spec _ _ _ _ Es) as (Hinv & Hkey & Hmono & Hsusp); cbn [start_batch ps_invoked ps_completed] in *.
  - destruct Hsusp as (-> & Ho & pre & post & Hb & Hpre).
    exists (Some (call, invoke call)), s', (take n l). split_and!; try done.
    + by exists (drop n l); rewrite take_drop.
    + exists pre, post. split_and!; try done.
      assert (length (take n l) <= n)%nat as Hlen by (rewrite length_take; lia).
      rewrite Hb, length_app in Hlen. simpl in Hlen. lia.
  - destruct (IH (drop n l) s') as (susp & s'' & started & Hr & Hinv' & Hpre & Hkey' & Hmono' & Hsusp').
    { rewrite length_drop. unfold l. simpl in *. lia. }
    exists susp, s'', (take n l ++ started). split_and!; try done.
    + by rewrite Hinv', Hinv, app_assoc.
    + rewrite <-(take_drop n l) at 2. by apply prefix_app.
    + auto.
    + auto.
    + destruct susp as [[call o]|].
      * destruct Hsusp' as (-> & Ho & pre & post & -> & Hlt & Hp). split_and!; try done.
        exists (take n l ++ pre), post. rewrite <-app_assoc. split_and!; try done.
        intros c [Hc|Hc]%elem_of_app; [|by apply Hp].
        destruct (Hsusp c Hc) as [? ?]. split; [done|by apply Hmono'].
      * destruct Hsusp' as [-> Hp]. rewrite take_drop. split; [done|].
        intros c Hc. rewrite <-(take_drop n l) in Hc.
        apply elem_of_app in Hc as [Hc|Hc]; [|by apply Hp].
        destruct (Hsusp c Hc) as [? ?]. split; [done|by apply Hmono'].
Qed.

Lemma elem_of_outstanding c calls already :
  c ∈ outstanding_calls calls already ↔ c ∈ calls ∧ already !! rc_id c = None.
Proof.
  clear gateway elapsed.
  unfold outstanding_calls. rewrite list_elem_of_In, filter_In, <-list_elem_of_In.
  destruct (already !! rc_id c); naive_solver.
Qed.

Lemma orderedResults_ids calls m :
  keyed m → (∀ c, c ∈ calls → is_Some (m !! rc_id c)) →
  map cc_id (orderedResults calls m) = map rc_id calls.
Proof.
  intros Hk. induction calls as [|c calls IH]; simpl; intros Hall; [done|].
  destruct (Hall c) as [d Hd]; [by left|]. rewrite Hd. simpl. f_equal; [by apply Hk in Hd|].
  apply IH. intros c' Hc'. apply Hall. by right.
Qed.

Lemma elem_of_orderedResults d calls m :
  d ∈ orderedResults calls m ↔ ∃ c, c ∈ calls ∧ m !! rc_id c = Some d.
Proof. unfold orderedResults. by rewrite list_elem_of_omap. Qed.

(** The two ways a phase that is not refused runs. *)
Lemma run_cases maxParallel par detector calls already :
  0 < maxParallel →
  (looping (inspectPhase detector (map observed (outstanding_calls calls already))) = true ∧
   ∃ v m s, run maxParallel par detector calls already = Some (po_refused v m, s) ∧ ps_invoked s = [] ∧
     map tool_result_id m = map (λ c, Some (rc_id c)) calls) ∨
  looping (inspectPhase detector (map observed (outstanding_calls calls already))) = false ∧
  ∃ susp s started,
    run maxParallel par detector calls already = Some (match susp with
      | None => po_complete (orderedResults calls (ps_completed s)) (map result_block (orderedResults calls (ps_completed s)))
      | Some (call, o) => suspension calls call o (ps_completed s) end, s) ∧
    ps_invoked s = started ∧ started `prefix_of` outstanding_calls calls already ∧
    (keyed already → keyed (ps_completed s)) ∧
    (∀ id, is_Some (already !! id) → is_Some (ps_completed s !! id)) ∧
    match susp with
    | None => started = outstanding_calls calls already ∧
        ∀ c, c ∈ outstanding_calls calls already → is_result (invoke c) = true ∧ is_Some (ps_completed s !! rc_id c)
    | Some (call, o) => o = invoke call ∧ is_result o = false ∧
        ∃ pre post, started = pre ++ call :: post ∧ (par = false → post = []) ∧
          ∀ c, c ∈ pre → is_result (invoke c) = true ∧ is_Some (ps_completed s !! rc_id c)
    end.
Proof.
  intros Hmax. unfold run. destruct (looping _) eqn:El; [left|right]; (split; [done|]).
  { do 3 eexists. split; [done|]. split; [done|]. by rewrite map_map. }
  destruct (run_batches_spec (if par then Z.to_nat maxParallel else 1%nat)
    (length (outstanding_calls calls already)) (outstanding_calls calls already)
    {| ps_completed := already; ps_detector := detector; ps_events := []; ps_invoked := [] |})
    as (susp & s & started & -> & Hinv & Hpre & Hkey & Hmono & Hsusp).
  { destruct par; lia. }
  { done. }
  exists susp, s, started. simpl in *. split_and!; try done.
  - by destruct susp as [[]|].
  - destruct susp as [[call o]|]; [|done].
    destruct Hsusp as (-> & Ho & pre & post & -> & Hlt & Hp). split_and!; try done.
    exists pre, post. split_and!; try done. intros ->. destruct post; [done|]. simpl in Hlt. lia.
Qed.

(** The map of completed calls stays keyed by id. *)
Lemma run_keyed maxParallel par detector calls already outcome s :
  keyed already → run maxParallel par detector calls already = Some (outcome, s) →
  0 < maxParallel → keyed (ps_completed s).
Proof.
  intros Hk Hrun Hmax. unfold run in Hrun. destruct (looping _); [by injection Hrun as _ <-|].
  destruct (run_batches_spec (if par then Z.to_nat maxParallel else 1%nat)
    (length (outstanding_calls calls already)) (outstanding_calls calls already)
    {| ps_completed := already; ps_detector := detector; ps_events := []; ps_invoked := [] |})
    as (susp & s0 & started & Eb & _ & _ & Hkey & _); [by destruct par; lia|done|].
  rewrite Eb in Hrun. destruct susp as [[]|]; injection Hrun as _ <-; by apply Hkey.
Qed.

(** ** The theorems *)

(** How a phase ends, and what its message holds. *)
Lemma phase_outcome maxParallel par detector calls already :
  0 < maxParallel → keyed already →
  ∃ outcome s, run maxParallel par detector calls already = Some (outcome, s) ∧
    match outcome with
    | po_complete completed message =>
        map tool_result_id message = map (λ c, Some (rc_id c)) calls ∧ map cc_id completed = map rc_id calls
    | po_refused _ message =>
        map tool_result_id message = map (λ c, Some (rc_id c)) calls ∧ ps_invoked s = []
    | po_suspended _ _ _ pending _ =>
        ∃ c, c ∈ outstanding_calls calls already ∧ rc_id c = pending ∧ is_result (invoke c) = false
    end.
Proof.
  intros Hmax Hkeyed.
  destruct (run_cases maxParallel par detector calls already Hmax) as
    [(_ & v & m & s & -> & Hinv & Hm)|(_ & susp & s & started & -> & _ & Hpre & Hkey & Hmono & Hsusp)].
  { do 2 eexists. split; [done|]. done. }
  do 2 eexists. split; [done|]. destruct susp as [[call o]|].
  - destruct Hsusp as (-> & Ho & pre & post & -> & _ & _).
    assert (call ∈ outstanding_calls calls already) as Hin.
    { destruct Hpre as [k ->]. rewrite <-app_assoc. apply elem_of_app. right. by left. }
    unfold suspension. destruct (invoke call) eqn:Ei; try done; exists call; by rewrite Ei.
  - destruct Hsusp as [_ Hall].
    assert (map cc_id (orderedResults calls (ps_completed s)) = map rc_id calls) as Hids.
    { apply orderedResults_ids; [by apply Hkey|]. intros c Hc.
      destruct (already !! rc_id c) as [d|] eqn:E; [by apply Hmono; rewrite E|].
      apply Hall, elem_of_outstanding. done. }
    split; [|done]. rewrite map_map. simpl. rewrite <-(map_map cc_id Some), Hids. by rewrite map_map.
Qed.

(** A phase always ends, and when it completes (or is refused as a loop)
    its one tool message holds exactly one result per call the model made, in
    the order it made them. *)
Theorem phase_answers_every_call maxParallel par detector calls already :
  0 < maxParallel → keyed already →
  ∃ outcome s, run maxParallel par detector calls already = Some (outcome, s) ∧
    match outcome with
    | po_complete completed message =>
        map tool_result_id message = map (λ c, Some (rc_id c)) calls ∧ map cc_id completed = map rc_id calls
    | po_refused _ message =>
        map tool_result_id message = map (λ c, Some (rc_id c)) calls ∧ ps_invoked s = []
    | po_suspended _ _ _ pending _ =>
        ∃ c, c ∈ outstanding_calls calls already ∧ rc_id c = pending ∧ is_result (invoke c) = false
    end.
Proof. apply phase_outcome. Qed.

(** One attempt: the calls that reach the gateway are the first outstanding ones, in
    order, and none of them came with a result. *)
Lemma attempt_invokes maxParallel par detector calls already outcome s :
  0 < maxParallel → run maxParallel par detector calls already = Some (outcome, s) →
  ps_invoked s `prefix_of` outstanding_calls calls already ∧
  (∀ c, c ∈ ps_invoked s → c ∈ calls ∧ already !! rc_id c = None) ∧
  (NoDup (map rc_id calls) → NoDup (map rc_id (ps_invoked s))).
Proof.
  intros Hmax Hrun.
  assert (ps_invoked s `prefix_of` outstanding_calls calls already) as Hpre.
  { destruct (run_cases maxParallel par detector calls already Hmax) as
      [(_ & v & m & s0 & E & Hinv & _)|(_ & susp & s0 & started & E & Hinv & Hpre & _)];
      rewrite E in Hrun; injection Hrun as _ <-; rewrite Hinv; [apply prefix_nil|done]. }
  split_and!; [done|..].
  - intros c Hc. apply elem_of_outstanding. destruct Hpre as [k ->]. apply elem_of_app. by left.
  - intros Hnd. apply (NoDup_map_filter rc_id (λ c, match already !! rc_id c with Some _ => false | None => true end)) in Hnd.
    fold (outstanding_calls calls already) in Hnd. destruct Hpre as [k Hk]. rewrite Hk, map_app in Hnd.
    by apply NoDup_app in Hnd as [? _].
Qed.

(** A suspension when calls run one at a time. *)
Lemma sequential_suspension maxParallel detector calls already reason approvalId requestState pending completed s :
  0 < maxParallel →
  run maxParallel false detector calls already = Some (po_suspended reason approvalId requestState pending completed, s) →
  ∃ pre call, ps_invoked s = pre ++ [call] ∧ rc_id call = pending ∧ is_result (invoke call) = false ∧
    ∀ c, c ∈ pre → ∃ d, d ∈ completed ∧ ps_completed s !! rc_id c = Some d.
Proof.
  intros Hmax Hrun.
  destruct (run_cases maxParallel false detector calls already Hmax) as
    [(_ & v & m & s0 & E & _)|(_ & susp & s0 & started & E & Hinv & Hpre & _ & _ & Hsusp)];
    rewrite E in Hrun; [done|]. injection Hrun as Ho ->.
  destruct susp as [[call o]|]; [|done].
  destruct Hsusp as (-> & Hnr & pre & post & -> & Hpost & Hp). rewrite (Hpost eq_refl) in *.
  assert (rc_id call = pending ∧ completed = orderedResults calls (ps_completed s)) as [Hpend ->].
  { unfold suspension in Ho. by destruct (invoke call); simplify_eq. }
  exists pre, call. split_and!; [done|done|done|]. intros c Hc. destruct (Hp c Hc) as [_ [d Hd]].
  exists d. split; [|done]. apply elem_of_orderedResults. exists c. split; [|done].
  apply (elem_of_outstanding c calls already). destruct Hpre as [k ->].
  apply elem_of_app. left. apply elem_of_app. by left.
Qed.
(** When the model's calls run one at a time, a suspension loses nothing:
    every call that reached the gateway, the pending one apart, has its result
    among the completed ones. *)
Theorem sequential_suspension_keeps_results maxParallel detector calls already reason approvalId requestState pending completed s :
  0 < maxParallel →
  run maxParallel false detector calls already = Some (po_suspended reason approvalId requestState pending completed, s) →
  ∃ pre call, ps_invoked s = pre ++ [call] ∧ rc_id call = pending ∧
    ∀ c, c ∈ pre → ∃ d, d ∈ completed ∧ ps_completed s !! rc_id c = Some d.
Proof.
  intros Hmax Hrun. destruct (sequential_suspension _ _ _ _ _ _ _ _ _ _ Hmax Hrun) as (pre & call & ? & ? & _ & ?). by exists pre, call.
Qed.
End Phase.

(** ** The attempts at one phase *)

(** What one attempt meets: its gateway, its clock and the detector of its slice. *)
Record Attempt := { at_gateway : RequestedCall → outcome string ToolOutcome; at_elapsed : RequestedCall → Z; at_detector : LoopDetector }.

(** The results the next attempt starts from: those before and those reported. *)
Definition resumed (already : gmap string CompletedCall) (completed : list CompletedCall) : gmap string CompletedCall :=
  foldl (λ m d, <[cc_id d := d]> m) already completed.

(** Every call that reached a gateway, with what it gave, over attempts that go on while
    the phase is suspended. *)
Fixpoint attempts (maxParallel : Z) (par : bool) (calls : list RequestedCall) (already : gmap string CompletedCall) (l : list Attempt)
    : list (RequestedCall * ToolOutcome) :=
  match l with
  | [] => []
  | a :: rest =>
      match run (at_gateway a) (at_elapsed a) maxParallel par (at_detector a) calls already with
      | None => []
      | Some (outcome, s) =>
          map (λ c, (c, invoke (at_gateway a) (at_elapsed a) c)) (ps_invoked s) ++
          match outcome with
          | po_suspended _ _ _ _ completed => attempts maxParallel par calls (resumed already completed) rest
          | _ => []
          end
      end
  end.

(** A call that gave a result is not the later one. *)
Definition not_again (x y : RequestedCall * ToolOutcome) : Prop := is_result x.2 = true → rc_id x.1 ≠ rc_id y.1.

Lemma resumed_some already completed id :
  is_Some (already !! id) ∨ (∃ d, d ∈ completed ∧ cc_id d = id) → is_Some (resumed already completed !! id).
Proof.
  revert already. induction completed as [|d l IH]; intros already; cbn [resumed foldl].
  { intros [?|(? & ?%elem_of_nil & _)]; done. }
  intros H. apply IH. destruct (decide (cc_id d = id)) as [<-|Hne]; [left; by rewrite lookup_insert_eq|]. rewrite lookup_insert_ne by done.
  destruct H as [?|(d' & [->|Hd']%elem_of_cons & Hid)]; [by left|done|right; by exists d'].
Qed.
Lemma resumed_keyed already completed : keyed already → keyed (resumed already completed).
Proof.
  revert already. induction completed as [|d l IH]; intros already Hk; cbn [resumed foldl]; [done|]. apply IH.
  intros id c [[<- <-]|[_ ?]]%lookup_insert_Some; [done|by apply Hk].
Qed.
Lemma ordered_app {A} (R : A → A → Prop) (l k : list A) :
  ForallOrdPairs R l → ForallOrdPairs R k → (∀ x y, x ∈ l → y ∈ k → R x y) → ForallOrdPairs R (l ++ k).
Proof.
  induction 1 as [|x l Hx Hl IH]; cbn; [done|]. intros Hk Hc. constructor; [|apply IH; [done|]; intros; apply Hc; [by right|done]].
  apply List.Forall_app. split; [done|]. apply Forall_forall. intros y Hy. apply Hc; [left|done].
Qed.
Lemma distinct_ordered (f : RequestedCall → ToolOutcome) l : NoDup (map rc_id l) → ForallOrdPairs not_again (map (λ c, (c, f c)) l).
Proof.
  induction l as [|c l IH]; cbn; [constructor|]. intros [Hc Hl]%NoDup_cons. constructor; [|by apply IH]. apply Forall_forall.
  intros y (c' & -> & Hc')%list_elem_of_fmap _ Heq. apply Hc. cbn in Heq. rewrite Heq. by apply list_elem_of_fmap_2.
Qed.

Lemma sequential_log maxParallel calls l already :
  0 < maxParallel → NoDup (map rc_id calls) → keyed already →
  (∀ x, x ∈ attempts maxParallel false calls already l → already !! rc_id x.1 = None) ∧
  ForallOrdPairs not_again (attempts maxParallel false calls already l).
Proof.
  intros Hmax Hnd. revert already. induction l as [|a l IH]; intros already Hk; cbn [attempts].
  { split; [by intros ? ?%elem_of_nil|constructor]. }
  destruct (run _ _ maxParallel false _ calls already) as [[outcome s]|] eqn:Hrun; [|split; [by intros ? ?%elem_of_nil|constructor]].
  destruct (attempt_invokes _ _ _ _ _ _ _ _ _ Hmax Hrun) as (_ & Hout & Hndi). specialize (Hndi Hnd).
  pose proof (run_keyed _ _ _ _ _ _ _ _ _ Hk Hrun Hmax) as Hks. set (f := invoke _ _).
  pose proof (distinct_ordered f _ Hndi) as Hord.
  assert (∀ x, x ∈ map (λ c, (c, f c)) (ps_invoked s) → already !! rc_id x.1 = None) as Hnew.
  { intros x (c & -> & Hc)%list_elem_of_fmap. by apply Hout. }
  destruct outcome as [completed message|reason approvalId rs pending completed|v message]; rewrite ?app_nil_r; try done.
  destruct (IH (resumed already completed) (resumed_keyed _ _ Hk)) as [Hlater Hrest]. split.
  - intros x [Hx|Hx]%elem_of_app; [by apply Hnew|]. specialize (Hlater x Hx).
    destruct (already !! rc_id x.1) eqn:E; [|done]. destruct (resumed_some already completed (rc_id x.1)) as [? E']; [left; by rewrite E|congruence].
  - apply ordered_app; [done|done|]. intros x y (c & -> & Hc)%list_elem_of_fmap Hy Hres Heq. cbn in Hres, Heq. specialize (Hlater y Hy).
    destruct (sequential_suspension _ _ _ _ _ _ _ _ _ _ _ _ Hmax Hrun) as (pre & call & Hinv & _ & Hnot & Hpre).
    rewrite Hinv in Hc. apply elem_of_app in Hc as [Hc|Hc].
    + destruct (Hpre c Hc) as (d & Hd & Hl). destruct (resumed_some already completed (rc_id c)) as [? E]; [|congruence].
      right. exists d. split; [done|by apply Hks].
    + apply list_elem_of_singleton in Hc as ->. unfold f in Hres. congruence.
Qed.

(** C3.  No call is executed twice, as far as that goes.  The ids of the calls of a message are
    distinct.  In one attempt at the phase each call reaches the gateway at most once, in
    the order of the message, and no call that came with a result does.  When calls run
    one at a time this holds over all the attempts, each resumed with what the one before
    reported, whatever the gateway answers: a call that has given a result, now or before
    the first of them, never reaches the gateway again.  Calls that run in parallel are
    not covered across attempts: those behind the one that suspends lose their results
    ([parallel_suspension_loses_executed_calls]). *)
Theorem completed_calls_are_never_reinvoked maxParallel calls already :
  0 < maxParallel → NoDup (map rc_id calls) → keyed already →
  (∀ gateway elapsed par detector outcome s, run gateway elapsed maxParallel par detector calls already = Some (outcome, s) →
     ps_invoked s `prefix_of` outstanding_calls calls already ∧ NoDup (map rc_id (ps_invoked s)) ∧
     ∀ c, c ∈ ps_invoked s → already !! rc_id c = None) ∧
  (∀ l, ForallOrdPairs not_again (attempts maxParallel false calls already l) ∧
        ∀ x, x ∈ attempts maxParallel false calls already l → already !! rc_id x.1 = None).
Proof.
  intros Hmax Hnd Hk. split.
  - intros gateway elapsed par detector outcome s Hrun. destruct (attempt_invokes _ _ _ _ _ _ _ _ _ Hmax Hrun) as (Hpre & Hout & Hndi).
    split_and!; [done|by apply Hndi|]. intros c Hc. by apply Hout.
  - intros l. by destruct (sequential_log maxParallel calls l already Hmax Hnd Hk).
Qed.

(** ** Concrete phases *)

Definition sample_call (id name : string) : RequestedCall :=
  {| rc_id := id; rc_canonicalName := name; rc_input := VObject [("q", VString id)] |}.

Definition ok_result : ToolOutcome := to_result [BText "done"] None false "bnd_1" 5 0 None.

(** Calls of [mail__send] need approval, the others succeed. *)
Definition sample_gateway (c : RequestedCall) : outcome string ToolOutcome :=
  if String.eqb (rc_canonicalName c) "mail__send" then Ret (to_needs_approval "apr_1" "policy") else Ret ok_result.

Definition sample_calls : list RequestedCall :=
  [sample_call "t1" "cal__add"; sample_call "t2" "mail__send"; sample_call "t3" "cal__remove"].

Lemma keyed_empty : keyed ∅.
Proof. intros id c. by rewrite lookup_empty. Qed.

Lemma phase_answers_every_call_witness :
  ∃ outcome s,
    run sample_gateway (λ _, 0) 6 true (new_detector None None) [sample_call "t1" "cal__add"] ∅ = Some (outcome, s) ∧
    match outcome with
    | po_complete _ message => map tool_result_id message = [Some "t1"]
    | _ => False
    end.
Proof.
  destruct (phase_answers_every_call sample_gateway (λ _, 0) 6 true (new_detector None None)
              [sample_call "t1" "cal__add"] ∅) as (outcome & s & E & H).
  - reflexivity.
  - apply keyed_empty.
  - exists outcome, s. split; [exact E|]. vm_compute in E. injection E as <- <-. apply H.
Defined.

(** Approved on the second attempt: the first two calls once more but for the one that was
    done. *)
Definition approving (approved : bool) : Attempt := {|
  at_gateway := if approved then λ _, Ret ok_result else sample_gateway; at_elapsed := λ _, 0; at_detector := new_detector None None |}.
Definition two_attempts : list (RequestedCall * ToolOutcome) := attempts 6 false sample_calls ∅ [approving false; approving true].
Lemma completed_calls_are_never_reinvoked_witness :
  map (λ x, (rc_id x.1, is_result x.2)) two_attempts = [("t1", true); ("t2", false); ("t2", true); ("t3", true)] ∧ ForallOrdPairs not_again two_attempts.
Proof.
  split; [vm_compute; reflexivity|].
  apply (completed_calls_are_never_reinvoked 6 sample_calls ∅); [reflexivity|repeat constructor; set_solver|apply keyed_empty].
Defined.

Lemma sequential_suspension_keeps_results_witness :
  ∃ completed s pre call,
    run sample_gateway (λ _, 0) 6 false (new_detector None None) sample_calls ∅ =
      Some (po_suspended sr_approval (Some "apr_1") None "t2" completed, s) ∧
    map cc_id completed = ["t1"] ∧ ps_invoked s = pre ++ [call] ∧ rc_id call = "t2".
Proof.
  edestruct (sequential_suspension_keeps_results sample_gateway (λ _, 0) 6 (new_detector None None) sample_calls ∅)
    as (pre & call & H1 & H2 & _).
  - reflexivity.
  - vm_compute. reflexivity.
  - do 2 eexists. exists pre, call. split; [vm_compute; reflexivity|].
    split; [reflexivity|]. split; [exact H1|exact H2].
Defined.

(** In a parallel batch a suspension discards work already done: the third
    call reached the gateway and succeeded, but its result is neither in the
    completed list nor in the map, so when the phase resumes with what was
    persisted the call is executed a second time. *)
Theorem parallel_suspension_loses_executed_calls :
  ∃ s, run sample_gateway (λ _, 0) 6 true (new_detector None None) sample_calls ∅ =
         Some (po_suspended sr_approval (Some "apr_1") None "t2"
                 [completed_call (sample_call "t1" "cal__add") [BText "done"] None false "bnd_1" 5 0 None], s) ∧
    sample_call "t3" "cal__remove" ∈ ps_invoked s ∧ ps_completed s !! "t3" = None ∧
    ∃ outcome s', run (λ _, Ret ok_result) (λ _, 0) 6 true (ps_detector s) sample_calls (ps_completed s) = Some (outcome, s') ∧
      sample_call "t3" "cal__remove" ∈ ps_invoked s'.
Proof.
  eexists. split; [vm_compute; reflexivity|]. split; [right; right; left|]. split; [reflexivity|].
  do 2 eexists. split; [vm_compute; reflexivity|]. right. left.
Qed.
