(* ===== verification/ModelCall.v ===== *)
(** * One model call

    Models packages/runtime/src/model-call.ts.  The provider is a parameter: for
    each attempt and each try, the events it yields and whether its stream then
    ends or throws.  The clock and the random draws are arguments. *)
From S2P Require Import Prelude Json Entities Model.

Inductive AttemptLabel := primary | fallback.
#[global] Instance AttemptLabel_eq_dec : EqDecision AttemptLabel.
Proof. solve_decision. Defined.

Record ModelAttempt := {
  ma_request : GenerationRequest;
  ma_modelId : string;
  ma_label : AttemptLabel;
}.

Record ModelCallOptions := {
  mo_maxAttempts : Z;
  mo_baseDelayMs : Z;
  mo_maxDelayMs : Z;
}.
Definition DEFAULTS : ModelCallOptions :=
  {| mo_maxAttempts := 3; mo_baseDelayMs := 500; mo_maxDelayMs := 20000 |}.

Record ModelCallResult := {
  mr_content : list ContentBlock;
  mr_providerArtifacts : option ProviderArtifacts;
  mr_finishReason : FinishReason;
  mr_usage : Usage;
  mr_attempts : Z;
  mr_usedFallback : bool;
  mr_latencyMs : Z;
}.

(** [ModelCallError], or the plain [Error] of a call without attempts. *)
Inductive CallError :=
| ModelCallError (providerError : ProviderError) (attempts : Z) (streamed : bool)
| NoAttempts.

Definition callBackoffMs (attempt baseDelayMs maxDelayMs : Z) (random : Q) : Z :=
  let ceiling := Z.min maxDelayMs (baseDelayMs * 2 ^ attempt) in
  Qfloor (random * inject_Z ceiling).

Definition asProviderError (message : string) : ProviderError :=
  {| per_kind := pe_transport; per_message := message; per_retryable := false; per_retryAfterMs := None |}.

Definition truncated_stream : ProviderError :=
  {| per_kind := pe_transport;
     per_message := "The model stream ended without a completion event. The response is incomplete.";
     per_retryable := true; per_retryAfterMs := None |}.

Definition no_result : ProviderError :=
  {| per_kind := pe_unknown; per_message := "The model produced no result.";
     per_retryable := false; per_retryAfterMs := None |}.

(** What reaches the run's event bus. *)
Inductive Published :=
| pub_text_delta (text : string)
| pub_reasoning_delta (text : string)
| pub_tool_call_started (id name : string).

Record StreamOutcome := {
  so_result : ProviderError + ModelCallResult;
  so_streamed : bool;
  so_published : list Published;
}.

(** A provider stream: its events, then its end or an exception. *)
Record Stream := { st_events : list ProviderEvent; st_thrown : option string }.

Fixpoint consume (events : list ProviderEvent) (thrown : option string) (usage : Usage) (streamed : bool)
    (published : list Published) : StreamOutcome :=
  match events with
  | [] =>
      {| so_result := inl (match thrown with Some m => asProviderError m | None => truncated_stream end);
         so_streamed := streamed; so_published := published |}
  | event :: events' =>
      match event with
      | ev_text_delta text => consume events' thrown usage true (published ++ [pub_text_delta text])
      | ev_reasoning_delta text => consume events' thrown usage streamed (published ++ [pub_reasoning_delta text])
      | ev_tool_use_start id name =>
          consume events' thrown usage streamed (published ++ [pub_tool_call_started id name])
      | ev_usage u => consume events' thrown (addUsage usage u) streamed published
      | ev_finish reason content artifacts u =>
          {| so_result := inr {| mr_content := content; mr_providerArtifacts := artifacts;
                                 mr_finishReason := reason; mr_usage := addUsage usage u;
                                 mr_attempts := 0; mr_usedFallback := false; mr_latencyMs := 0 |};
             so_streamed := streamed; so_published := published |}
      | ev_error e => {| so_result := inl e; so_streamed := streamed; so_published := published |}
      | ev_start _ | ev_tool_input_delta _ _ | ev_tool_use_end _ _ =>
          consume events' thrown usage streamed published
      end
  end.

Definition stream (s : Stream) : StreamOutcome :=
  consume (st_events s) (st_thrown s) emptyUsage false [].

Definition isWorthFallingBackFrom (error : ProviderError) : bool :=
  match per_kind error with
  | pe_rate_limit | pe_overloaded | pe_transport | pe_authentication | pe_context_length => true
  | pe_content_filter | pe_refusal | pe_invalid_request | pe_unknown => false
  end.

(** The tries made so far, each with the position of its attempt, and the sleeps. *)
Record CallLog := { cl_tries : list (nat * StreamOutcome); cl_sleeps : list Z }.

Definition total (l : CallLog) : Z := Z.of_nat (length (cl_tries l)).

(** How the loop over the tries of one attempt ends. *)
Inductive TryEnd :=
| te_return (r : ModelCallResult)
| te_throw (e : CallError)
| te_break.

Section Call.
Context (opts : ModelCallOptions).
(** [generate(request, signal)] on the given overall try, and the random draws. *)
Context (generate : ModelAttempt → nat → Stream).
Context (random : nat → Q).
Context (latency : Z).

(** The inner loop.  [remaining] is [budget - tries]. *)
Fixpoint try_loop (index : nat) (attempt : ModelAttempt) (tries : Z) (remaining : nat)
    (last : option ProviderError) (l : CallLog) : TryEnd * option ProviderError * CallLog :=
  match remaining with
  | O => (te_break, last, l)
  | S remaining' =>
      let outcome := stream (generate attempt (length (cl_tries l))) in
      let l1 := {| cl_tries := cl_tries l ++ [(index, outcome)]; cl_sleeps := cl_sleeps l |} in
      match so_result outcome with
      | inr r =>
          (te_return {| mr_content := mr_content r; mr_providerArtifacts := mr_providerArtifacts r;
                        mr_finishReason := mr_finishReason r; mr_usage := mr_usage r;
                        mr_attempts := total l1; mr_usedFallback := (0 <? index)%nat;
                        mr_latencyMs := latency |}, last, l1)
      | inl error =>
          if so_streamed outcome then (te_throw (ModelCallError error (total l1) true), Some error, l1)
          else if negb (per_retryable error) then (te_break, Some error, l1)
          else
            match remaining' with
            | O => (te_break, Some error, l1)
            | S _ =>
                let ms := default (callBackoffMs tries (mo_baseDelayMs opts) (mo_maxDelayMs opts)
                                     (random (length (cl_tries l)))) (per_retryAfterMs error) in
                try_loop index attempt (tries + 1) remaining' (Some error)
                  {| cl_tries := cl_tries l1; cl_sleeps := cl_sleeps l1 ++ [ms] |}
            end
      end
  end.

Definition budget_of (attempt : ModelAttempt) : nat :=
  match ma_label attempt with primary => Z.to_nat (mo_maxAttempts opts) | fallback => 1 end.

Definition exhausted (last : option ProviderError) (l : CallLog) : CallError :=
  ModelCallError (default no_result last) (total l) false.

Fixpoint attempt_loop (index : nat) (attempts : list ModelAttempt) (last : option ProviderError) (l : CallLog)
    : outcome CallError ModelCallResult * CallLog :=
  match attempts with
  | [] => (Throw (exhausted last l), l)
  | attempt :: attempts' =>
      match try_loop index attempt 0 (budget_of attempt) last l with
      | (te_return r, _, l') => (Ret r, l')
      | (te_throw e, _, l') => (Throw e, l')
      | (te_break, last', l') =>
          match last' with
          | Some e =>
              if isWorthFallingBackFrom e then attempt_loop (S index) attempts' last' l'
              else (Throw (exhausted last' l'), l')
          | None => attempt_loop (S index) attempts' last' l'
          end
      end
  end.

Definition call (attempts : list ModelAttempt) : outcome CallError ModelCallResult * CallLog :=
  match attempts with
  | [] => (Throw NoAttempts, {| cl_tries := []; cl_sleeps := [] |})
  | _ :: _ => attempt_loop 0 attempts None {| cl_tries := []; cl_sleeps := [] |}
  end.
End Call.

(** ** Facts about one stream *)

Definition text_of (p : Published) : option string :=
  match p with pub_text_delta t => Some t | _ => None end.

(** The answer text a stream showed the user. *)
Definition shown (o : StreamOutcome) : list string := omap text_of (so_published o).

Lemma consume_quiet events thrown u st pub :
  so_streamed (consume events thrown u st pub) = false →
  st = false ∧ omap text_of (so_published (consume events thrown u st pub)) = omap text_of pub.
Proof.
  revert u st pub. induction events as [|e events IH]; intros u st pub; simpl; [done|].
  destruct e; simpl; try done; intros H; apply IH in H as [Hst Hp]; try done;
    (split; [done|]); rewrite Hp; rewrite ?omap_app; simpl; by rewrite ?app_nil_r.
Qed.

Lemma consume_finish events thrown u st pub r :
  so_result (consume events thrown u st pub) = inr r →
  ∃ usage, ev_finish (mr_finishReason r) (mr_content r) (mr_providerArtifacts r) usage ∈ events.
Proof.
  revert u st pub. induction events as [|e events IH]; intros u st pub; simpl; [done|].
  destruct e; simpl; try done; intros H;
    try (apply IH in H as [us Hin]; exists us; by right).
  injection H as <-. eexists. by left.
Qed.

(** A try that failed before anything was shown. *)
Definition failed_quietly (o : StreamOutcome) : Prop :=
  shown o = [] ∧ so_streamed o = false ∧ ∃ e, so_result o = inl e.

Lemma stream_failed_quietly s e :
  so_streamed (stream s) = false → so_result (stream s) = inl e → failed_quietly (stream s).
Proof. intros Hs He. split_and!; [|done|eauto]. by apply consume_quiet in Hs as [_ Hp]. Qed.

(** ** Facts about the loops *)

Section CallFacts.
Context (opts : ModelCallOptions) (generate : ModelAttempt → nat → Stream) (random : nat → Q) (latency : Z).
#[local] Abbreviation try_loop := (try_loop opts generate random latency).
#[local] Abbreviation attempt_loop := (attempt_loop opts generate random latency).
#[local] Abbreviation call := (call opts generate random latency).

(** How a list of tries ends: the earlier ones failed quietly, the last decides. *)
Definition ends_with (index : nat) (attempt : ModelAttempt) (new : list (nat * StreamOutcome))
    (P : StreamOutcome → Prop) : Prop :=
  ∃ pre o n, new = pre ++ [(index, o)] ∧ Forall (failed_quietly ∘ snd) pre ∧
    o = stream (generate attempt n) ∧ P o.

Definition same_answer (r r0 : ModelCallResult) : Prop :=
  mr_content r = mr_content r0 ∧ mr_finishReason r = mr_finishReason r0 ∧
  mr_providerArtifacts r = mr_providerArtifacts r0 ∧ mr_usage r = mr_usage r0.

Definition try_end_ok (index : nat) (attempt : ModelAttempt) (te : TryEnd)
    (last last' : option ProviderError) (new : list (nat * StreamOutcome)) (n : Z) : Prop :=
  match te with
  | te_break => Forall (failed_quietly ∘ snd) new ∧ (new = [] → last' = last) ∧
      (new ≠ [] → ∃ o e, (index, o) ∈ new ∧ so_result o = inl e ∧ last' = Some e)
  | te_return r => ends_with index attempt new (λ o, ∃ r0, so_result o = inr r0 ∧ same_answer r r0) ∧
      mr_attempts r = n ∧ mr_usedFallback r = (0 <? index)%nat
  | te_throw e => ends_with index attempt new (λ o, ∃ err, so_result o = inl err ∧ so_streamed o = true ∧
      e = ModelCallError err n true)
  end.

Lemma try_loop_spec index attempt tries remaining last l te last' l' :
  try_loop index attempt tries remaining last l = (te, last', l') →
  ∃ new, cl_tries l' = cl_tries l ++ new ∧ (Nat.min 1 remaining <= length new <= remaining)%nat ∧
    (length (cl_sleeps l') + length (cl_tries l) <= length (cl_sleeps l) + length (cl_tries l'))%nat ∧
    Forall (λ t, t.1 = index) new ∧
    try_end_ok index attempt te last last' new (total l').
Proof.
  revert tries last l. induction remaining as [|rem IH]; intros tries last l; cbn [ModelCall.try_loop].
  { intros [= <- <- <-]. exists []. rewrite app_nil_r. split_and!; simpl; done || lia. }
  set (o := stream (generate attempt (length (cl_tries l)))).
  destruct (so_result o) as [err|r] eqn:Er; cycle 1.
  { intros [= <- <- <-]. exists [(index, o)]. simpl. rewrite length_app. simpl. split_and!; try lia; try done.
    - by repeat constructor.
    - exists [], o, (length (cl_tries l)). split_and!; try done. by exists r. }
  assert (so_streamed o = false → failed_quietly o) as Hq by (intros; by eapply stream_failed_quietly).
  destruct (so_streamed o) eqn:Es.
  { intros [= <- <- <-]. exists [(index, o)]. simpl. rewrite length_app. simpl. split_and!; try lia; try done.
    - by repeat constructor.
    - exists [], o, (length (cl_tries l)). split_and!; try done. by exists err. }
  assert (∀ n, try_end_ok index attempt te_break last (Some err) [(index, o)] n) as Hb.
  { intros n. simpl. split_and!; [by repeat constructor; apply Hq|done|]. intros _. exists o, err. by split; [left|]. }
  destruct (negb (per_retryable err)).
  { intros [= <- <- <-]. exists [(index, o)]. split_and!; [done|simpl; lia|simpl; lia|simpl; rewrite length_app; simpl; lia| |apply Hb].
    by repeat constructor. }
  destruct rem as [|rem].
  { intros [= <- <- <-]. exists [(index, o)]. split_and!; [done|simpl; lia|simpl; lia|simpl; rewrite length_app; simpl; lia| |apply Hb].
    by repeat constructor. }
  intros Hrun. apply IH in Hrun as (new & Ht & Hlen & Hsl & Hidx & Hend). simpl in *.
  rewrite !length_app in Hsl. simpl in Hsl.
  exists ((index, o) :: new). rewrite Ht, <-app_assoc. split_and!; try done.
  - simpl. lia.
  - simpl. lia.
  - rewrite Ht, !length_app in *. simpl in *. lia.
  - by constructor.
  - assert (∀ P, ends_with index attempt new P → ends_with index attempt ((index, o) :: new) P) as Hext.
    { intros P (pre & o' & k & -> & Hpre & Ho & HP). exists ((index, o) :: pre), o', k. split_and!; try done.
      constructor; [by apply Hq|done]. }
    destruct te as [r|e|]; simpl in *.
    + destruct Hend as (He & ? & ?). split_and!; [by apply Hext|done..].
    + by apply Hext.
    + destruct Hend as (Hall & Hnil & Hcons). split_and!.
      * constructor; [by apply Hq|done].
      * done.
      * intros _. destruct new as [|t new].
        -- rewrite Hnil by done. exists o, err. split_and!; [left|done..].
        -- destruct Hcons as (o' & e' & Hin & ? & ?); [done|]. exists o', e'. split_and!; [by right|done..].
Qed.

Definition total_budget (attempts : list ModelAttempt) : nat :=
  fold_right Nat.add 0%nat (map (budget_of opts) attempts).

(** What the whole loop guarantees of its log. *)
Definition call_ok (attempts : list ModelAttempt) (res : outcome CallError ModelCallResult) (l l' : CallLog) : Prop :=
  ∃ new, cl_tries l' = cl_tries l ++ new ∧ (length new <= total_budget attempts)%nat ∧
  match res with
  | Ret r => ∃ index attempt, attempt ∈ attempts ∧
      ends_with index attempt new (λ o, ∃ r0, so_result o = inr r0 ∧ same_answer r r0) ∧
      mr_attempts r = total l' ∧ mr_usedFallback r = (0 <? index)%nat
  | Throw (ModelCallError e n streamed) => n = total l' ∧
      if streamed then ∃ index attempt, attempt ∈ attempts ∧
        ends_with index attempt new (λ o, so_result o = inl e ∧ so_streamed o = true)
      else Forall (failed_quietly ∘ snd) new
  | Throw NoAttempts => False
  end.

Lemma ends_with_weaken index attempt pre new (P Q : StreamOutcome → Prop) :
  Forall (failed_quietly ∘ snd) pre → (∀ o, P o → Q o) →
  ends_with index attempt new P → ends_with index attempt (pre ++ new) Q.
Proof.
  intros Hpre HPQ (p & o & k & -> & Hp & Ho & HP). exists (pre ++ p), o, k.
  rewrite app_assoc. split_and!; try done; [by apply Forall_app|by apply HPQ].
Qed.

Lemma attempt_loop_ok index attempts last l :
  call_ok attempts (attempt_loop index attempts last l).1 l (attempt_loop index attempts last l).2.
Proof.
  revert index last l. induction attempts as [|a attempts IH]; intros index last l; cbn [ModelCall.attempt_loop].
  { exists []. rewrite app_nil_r. split_and!; simpl; try done. }
  destruct (ModelCall.try_loop opts generate random latency index a 0 (budget_of opts a) last l)
    as [[te last'] l1] eqn:Et.
  destruct (try_loop_spec _ _ _ _ _ _ _ _ _ Et) as (new & Ht & Hlen & _ & _ & Hend).
  destruct te as [r|e|]; simpl.
  - destruct Hend as (He & Ha & Hf). exists new. split; [done|]. split; [unfold total_budget; simpl; lia|].
    exists index, a. split_and!; [left|done..].
  - destruct Hend as (pre & o & k & -> & Hp & Ho & err & He & Hs & ->).
    eexists. split; [done|]. split; [unfold total_budget; simpl; lia|]. split; [done|].
    exists index, a. split; [left|]. exists pre, o, k. done.
  - destruct Hend as (Hq & _ & _).
    assert (call_ok (a :: attempts) (Throw (exhausted last' l1)) l l1) as Hstop.
    { exists new. split; [done|]. split; [unfold total_budget; simpl; lia|]. done. }
    assert (∀ res l2, call_ok attempts res l1 l2 → call_ok (a :: attempts) res l l2) as Hext.
    { intros res l2 (new' & Ht' & Hlen' & Hres). exists (new ++ new'). rewrite Ht', Ht, app_assoc.
      split; [done|]. split; [unfold total_budget in *; simpl; rewrite length_app; lia|].
      destruct res as [r|[e n st|]].
      - destruct Hres as (i & at' & Hin & He & Hn & Hf). exists i, at'. split_and!; [by right| |done..].
        by eapply ends_with_weaken; [..|exact He].
      - destruct Hres as [Hn Hst]. split; [done|]. destruct st.
        + destruct Hst as (i & at' & Hin & He). exists i, at'. split; [by right|].
          by eapply ends_with_weaken; [..|exact He].
        + by apply Forall_app.
      - done. }
    destruct last' as [e|]; [|by apply Hext, IH].
    destruct (isWorthFallingBackFrom e); [by apply Hext, IH|exact Hstop].
Qed.

(** ** The theorems *)

(** A model call makes at most the budgeted number of tries (the retries of
    each primary attempt, one per fallback), and the user is shown the text of
    at most one of them: every try but the last failed before any answer text
    was published.  The call succeeds only with the content of a completion
    event of that last try, never with a truncated stream, and fails with a
    committed error exactly when the last try had already shown text. *)
Theorem model_call_commits_once attempts :
  attempts ≠ [] →
  let '(res, l) := call attempts in
  (length (cl_tries l) <= total_budget attempts)%nat ∧
  (∀ pre t, cl_tries l = pre ++ [t] → ∀ i o, (i, o) ∈ pre → shown o = [] ∧ so_streamed o = false) ∧
  match res with
  | Ret r => ∃ pre i attempt n usage,
      cl_tries l = pre ++ [(i, stream (generate attempt n))] ∧
      ev_finish (mr_finishReason r) (mr_content r) (mr_providerArtifacts r) usage ∈ st_events (generate attempt n)
  | Throw (ModelCallError e n true) => ∃ pre i o, cl_tries l = pre ++ [(i, o)] ∧ so_streamed o = true
  | Throw (ModelCallError e n false) => ∀ i o, (i, o) ∈ cl_tries l → shown o = []
  | Throw NoAttempts => False
  end.
Proof.
  intros Hne. unfold ModelCall.call. destruct attempts as [|a attempts]; [done|].
  pose proof (attempt_loop_ok 0 (a :: attempts) None {| cl_tries := []; cl_sleeps := [] |}) as H.
  destruct (ModelCall.attempt_loop _ _ _ _ _ _ _ _) as [res l]. simpl in H.
  destruct H as (new & -> & Hlen & Hres). simpl.
  assert (∀ (l : list (nat * StreamOutcome)) i o, Forall (failed_quietly ∘ snd) l → (i, o) ∈ l → shown o = [] ∧ so_streamed o = false) as Hq.
  { intros l0 i o Hf Hin. rewrite Forall_forall in Hf. by destruct (Hf _ Hin) as (? & ? & _). }
  assert (∀ pre t, new = pre ++ [t] → Forall (failed_quietly ∘ snd) pre) as Hpre.
  { intros pre t ->. destruct res as [r|[e n st|]]; [|destruct Hres as [_ Hst]; destruct st|done].
    - destruct Hres as (i & at' & _ & (pre' & o & k & E & Hp & _) & _). by apply app_inj_tail in E as [-> _].
    - destruct Hst as (i & at' & _ & (pre' & o & k & E & Hp & _)). by apply app_inj_tail in E as [-> _].
    - by apply Forall_app in Hst as [? _]. }
  split; [done|]. split; [intros pre t E i o; apply Hq; by eapply Hpre|].
  destruct res as [r|[e n st|]]; [|destruct Hres as [_ Hst]; destruct st|done].
  - destruct Hres as (i & at' & _ & (pre & o & k & -> & _ & -> & r0 & Hr & Hc & Hf & Ha & _) & _).
    destruct (consume_finish _ _ _ _ _ _ Hr) as [us Hin].
    exists pre, i, at', k, us. split; [done|]. by rewrite Hc, Hf, Ha.
  - destruct Hst as (i & at' & _ & (pre & o & k & -> & _ & _ & _ & Hs)). by exists pre, i, o.
  - intros i o Hin. by apply (Hq new i o).
Qed.

(** A second model is tried only when the failure of the first is one that
    another model could avoid: whenever a try of a later attempt was made, an
    earlier attempt ended in an error worth falling back from. *)
Theorem fallback_needs_a_reason p attempts :
  0 < mo_maxAttempts opts → ma_label p = primary →
  ∀ i o, (i, o) ∈ cl_tries (call (p :: attempts)).2 → (0 < i)%nat →
  ∃ o0 e, (0%nat, o0) ∈ cl_tries (call (p :: attempts)).2 ∧ so_result o0 = inl e ∧ isWorthFallingBackFrom e = true.
Proof.
  intros Hmax Hp i o Hin Hi. unfold ModelCall.call in *. cbn [ModelCall.attempt_loop] in *.
  destruct (ModelCall.try_loop opts generate random latency 0 p 0 (budget_of opts p) None
              {| cl_tries := []; cl_sleeps := [] |}) as [[te last'] l1] eqn:Et.
  destruct (try_loop_spec _ _ _ _ _ _ _ _ _ Et) as (new & Ht & Hlen & _ & Hidx & Hend). simpl in Ht.
  assert (∀ o', (i, o') ∈ cl_tries l1 → False) as Hno.
  { intros o' Ho. rewrite Ht in Ho. rewrite Forall_forall in Hidx. apply Hidx in Ho. simpl in Ho. lia. }
  assert (new ≠ []) as Hne.
  { intros ->. unfold budget_of in Hlen. rewrite Hp in Hlen. cbn [length] in Hlen. lia. }
  destruct te as [r|e|]; simpl in *; [by apply Hno in Hin..|].
  destruct Hend as (_ & _ & Hcons).
  destruct (Hcons Hne) as (o0 & e & Ho0 & He & ->).
  destruct (isWorthFallingBackFrom e) eqn:Ew; [|by apply Hno in Hin].
  exists o0, e. split_and!; try done.
  destruct (attempt_loop_ok 1 attempts (Some e) l1) as (new' & -> & _). rewrite Ht.
  apply elem_of_app. by left.
Qed.
End CallFacts.

(** ** Concrete calls *)

Definition sample_request : GenerationRequest := {|
  gr_system := []; gr_messages := []; gr_tools := []; gr_toolChoice := tc_auto; gr_maxOutputTokens := 10;
  gr_reasoning := None; gr_breakpointsAfter := None; gr_structuredOutput := None; gr_stopSequences := None;
  gr_metadata := ("run_1", "ws_1", "agt_1") |}.

Definition sample_attempts : list ModelAttempt :=
  [{| ma_request := sample_request; ma_modelId := "m-1"; ma_label := primary |};
   {| ma_request := sample_request; ma_modelId := "m-2"; ma_label := fallback |}].

Definition overloaded : ProviderError :=
  {| per_kind := pe_overloaded; per_message := "busy"; per_retryable := true; per_retryAfterMs := None |}.

(** The primary is overloaded, the fallback answers. *)
Definition sample_generate (a : ModelAttempt) (n : nat) : Stream :=
  match ma_label a with
  | primary => {| st_events := [ev_error overloaded]; st_thrown := None |}
  | fallback => {| st_events := [ev_text_delta "hi"; ev_finish end_turn [BText "hi"] None emptyUsage];
                   st_thrown := None |}
  end.

Lemma model_call_commits_once_witness :
  let l := (call DEFAULTS sample_generate (λ _, 1 # 2)%Q 7 sample_attempts).2 in
  length (cl_tries l) = 4%nat ∧ (length (cl_tries l) <= total_budget DEFAULTS sample_attempts)%nat.
Proof.
  split; [reflexivity|].
  pose proof (model_call_commits_once DEFAULTS sample_generate (λ _, 1 # 2)%Q 7 sample_attempts
                ltac:(discriminate)) as H.
  destruct (call DEFAULTS sample_generate (λ _, 1 # 2)%Q 7 sample_attempts) as [res l]. apply H.
Defined.

Lemma fallback_needs_a_reason_witness :
  ∃ o0 e, (0%nat, o0) ∈ cl_tries (call DEFAULTS sample_generate (λ _, 1 # 2)%Q 7 sample_attempts).2 ∧
    so_result o0 = inl e ∧ isWorthFallingBackFrom e = true.
Proof.
  eapply (fallback_needs_a_reason DEFAULTS sample_generate (λ _, 1 # 2)%Q 7 (Build_ModelAttempt sample_request "m-1" primary)).
  - reflexivity.
  - reflexivity.
  - right. right. right. left.
  - lia.
Defined.
