(* ===== verification/AgentRuntime.v ===== *)
(** * The agent runtime: one step

    Models packages/runtime/src/agent-runtime.ts (stepOnce and its phases) and
    the state port of packages/runtime/src/state.ts, which is the class
    [RunStateStore].  Writes may throw, a lost lease above all.  Everything else
    a step talks to (the gateway, the provider, the summariser, the kill switch,
    the clock) is its environment.  The events a stream or a tool phase publishes
    while it runs are published, in order, when it is over. *)
From S2P Require Import Prelude Json Entities Principal Budget Model ToolNames LoopDetection Redaction.
From S2P Require Import ContextAssembler Compaction CapabilitySelector ToolPhase ModelCall.

(** ** The state port (state.ts) *)

Inductive StepError :=
| se_lease_lost (runId : string)
| se_other (message : string).

Record AppendMessage := {
  am_role : MessageRole;
  am_content : list ContentBlock;
  am_providerArtifacts : option ProviderArtifacts;
  am_tokenEstimate : option Z;
}.

Inductive RunStepType := st_model_call | st_tool_call | st_compaction.

Record RecordedStep := {
  rs_type : RunStepType;
  rs_failed : bool;
  rs_toolCalls : list CompletedCall;
  rs_usage : option Usage;
  rs_latencyMs : Z;
  rs_error : option RunError;
}.

Inductive StopReason := stop_budget | stop_loop | stop_kill_switch | stop_model_error | stop_compaction_stuck.

Inductive RuntimeEvent :=
| re_step_started (seq : Z) (prefixFingerprint : string)
| re_stream (p : Published)
| re_phase (e : PhaseEvent)
| re_run_suspended (reason : SuspendReason) (approvalId : option string)
| re_run_finished (finishReason : FinishReason)
| re_run_stopped (reason : StopReason) (message : string).

Class RunStateStore (S : Type) := {
  loadMessages : S → list Message;
  appendMessage : AppendMessage → S → outcome StepError Message * S;
  supersede : list string → string → S → outcome StepError unit * S;
  recordStepDoc : RecordedStep → S → outcome StepError unit * S;
  saveConsumption : RunConsumption → Usage → S → outcome StepError unit * S;
  completedToolCalls : S → gmap string CompletedCall;
  saveToolResult : CompletedCall → S → outcome StepError unit * S;
  publish : RuntimeEvent → S → outcome StepError unit * S;
}.

(** ** What a step is given *)

Record RunContext := {
  rx_runId : string;
  rx_workspaceId : string;
  rx_conversationId : string;
  rx_agentId : string;
  rx_agentSnapshot : AgentSnapshot;
  rx_modelBindingId : string;
  rx_providerKey : string;
  rx_capabilities : ModelCapabilities;
  rx_principal : Principal;
  rx_budget : RunBudget;
  rx_consumed : RunConsumption;
  rx_stepSeq : Z;
}.

Record ResolvedRun := {
  rr_ctx : RunContext;
  rr_attemptsFor : GenerationRequest → list (string * AttemptLabel);
  rr_rates : option ModelRates;
  rr_bindingIdByAlias : gmap string string;
  rr_systemDirectives : list SystemDirective;
  rr_maxOutputTokens : Z;
}.

(** The readings of the clock a step makes. *)
Record StepTimes := {
  tm_meter : Z;
  tm_check : Z;
  tm_phase : Z;
  tm_tokens : Z;
  tm_save : Z;
  tm_latency : Z;
}.

Record StepEnv := {
  env_killSwitch : option string;
  env_available : outcome StepError (list ToolDeclaration);
  env_gateway : RequestedCall → outcome string ToolOutcome;
  env_elapsed : RequestedCall → Z;
  env_callOptions : ModelCallOptions;
  env_generate : ModelAttempt → nat → Stream;
  env_random : nat → Q;
  env_summarise : option (list CanonicalMessage → outcome string string);
  env_compaction : CompactionPolicy;
  env_times : StepTimes;
}.

Inductive DidWhat := did_model_call | did_tool_phase | did_compaction.

Inductive StepOutcome :=
| so_continue (did : DidWhat)
| so_finished (text : string)
| so_suspended (reason : SuspendReason) (approvalId : option string)
| so_stopped (reason : StopReason) (message text : string).

(** ** Reading the conversation *)

Definition pendingToolCalls (messages : list Message) : option (list RequestedCall) :=
  match last (live_messages messages) with
  | None => None
  | Some m =>
      if negb (bool_decide (m_role m = RAssistant)) then None
      else
        match toolUseBlocks (m_content m) with
        | [] => None
        | requested =>
            Some (map (λ b, {| rc_id := tu_id b; rc_canonicalName := tu_name b; rc_input := tu_input b |}) requested)
        end
  end.

(** The loop from the newest message back. *)
Fixpoint last_text (newest_first : list Message) : string :=
  match newest_first with
  | [] => ""
  | m :: rest =>
      if negb (bool_decide (m_role m = RAssistant)) || negb (live_message m) then last_text rest
      else
        let text := messageText (m_content m) in
        if negb (blank text) then text else last_text rest
  end.

Definition lastAssistantText (messages : list Message) : string := last_text (rev messages).

(** ** The step *)

Section Step.
Context {S : Type} `{RunStateStore S}.

(** State passing with exceptions: the store and the runtime's loop detector. *)
Record RuntimeState := { rt_store : S; rt_detector : LoopDetector }.

Definition step_m (A : Type) : Type := RuntimeState → outcome StepError A * RuntimeState.

#[global] Instance step_ret : MRet step_m := λ A a st, (Ret a, st).
#[global] Instance step_bind : MBind step_m := λ A B k m st,
  match m st with (Ret a, st') => k a st' | (Throw e, st') => (Throw e, st') end.

Definition throw {A} (e : StepError) : step_m A := λ st, (Throw e, st).
Definition write {A} (f : S → outcome StepError A * S) : step_m A := λ st,
  let '(r, s') := f (rt_store st) in (r, {| rt_store := s'; rt_detector := rt_detector st |}).
Definition emit (e : RuntimeEvent) : step_m unit := write (publish e).
Definition reads {A} (f : S → A) : step_m A := λ st, (Ret (f (rt_store st)), st).

Fixpoint emit_all (es : list RuntimeEvent) : step_m unit :=
  match es with [] => mret () | e :: es' => emit e ;; emit_all es' end.

Context (resolved : ResolvedRun) (env : StepEnv).
#[local] Abbreviation ctx := (rr_ctx resolved).

(** [saveConsumption(meter.consumed, meter.usage)]. *)
Definition save_meter (meter : BudgetMeter) : step_m unit :=
  write (saveConsumption (meter_consumed meter (tm_save (env_times env))) (bm_usage meter)).

Definition stop (reason : StopReason) (message : string) (messages : list Message) (meter : BudgetMeter)
    : step_m StepOutcome :=
  save_meter meter ;;
  emit (re_run_stopped reason message) ;;
  mret (so_stopped reason message (lastAssistantText messages)).

Definition call_error_message (e : CallError) : string :=
  match e with
  | ModelCallError pe _ _ => per_message pe
  | NoAttempts => "A model call needs at least one attempt to make."
  end.

Definition step_doc (t : RunStepType) (failed : bool) (usage : option Usage) (latency : Z)
    (error : option RunError) : RecordedStep :=
  {| rs_type := t; rs_failed := failed; rs_toolCalls := []; rs_usage := usage; rs_latencyMs := latency;
     rs_error := error |}.

Definition illegal_message (e : IllegalName) : string :=
  match e with Illegal wire canonical =>
    "Normalised tool name " +:+ wire +:+ " (from " +:+ canonical +:+ ") does not satisfy the provider pattern"
  end.

Definition modelCall (meter : BudgetMeter) (messages : list Message) : step_m StepOutcome :=
  available ← (λ st, (env_available env, st));
  selection ← (λ st, (match selectCapabilities
      {| si_available := available; si_snapshot := rx_agentSnapshot ctx;
         si_capabilities := rx_capabilities ctx; si_bindingIdByAlias := rr_bindingIdByAlias resolved |} with
      | Ret s => Ret s | Throw e => Throw (se_other (illegal_message e)) end, st));
  let prompt := assemblePrompt {|
    ai_runId := rx_runId ctx; ai_workspaceId := rx_workspaceId ctx; ai_agentId := rx_agentId ctx;
    ai_providerKey := rx_providerKey ctx; ai_capabilities := rx_capabilities ctx;
    ai_directives := rr_systemDirectives resolved; ai_messages := messages; ai_tools := sel_tools selection;
    ai_maxOutputTokens := maxOutputTokensFor meter (tm_tokens (env_times env)) (rr_maxOutputTokens resolved);
    ai_toolChoice := None; ai_structuredOutput := None; ai_stopSequences := None; ai_reasoning := None |} in
  let attempts := map (λ a, {| ma_request := ap_request prompt; ma_modelId := a.1; ma_label := a.2 |})
                    (rr_attemptsFor resolved (ap_request prompt)) in
  let meter := recordStep meter in
  emit (re_step_started (rx_stepSeq ctx) (ap_prefixFingerprint prompt)) ;;
  let '(result, log) := call (env_callOptions env) (env_generate env) (env_random env)
                          (tm_latency (env_times env)) attempts in
  emit_all (map re_stream (flat_map (λ t, so_published t.2) (cl_tries log))) ;;
  match result with
  | Throw e =>
      let message := call_error_message e in
      write (recordStepDoc (step_doc st_model_call true None (tm_latency (env_times env))
        (Some {| e_code := "model_call_failed"; e_message := message |}))) ;;
      save_meter meter ;;
      stop stop_model_error message messages meter
  | Ret r =>
      let meter := recordUsage meter (mr_usage r) in
      write (appendMessage {|
        am_role := RAssistant; am_content := mr_content r;
        am_providerArtifacts := (λ a, [(rx_providerKey ctx, VObject a)]) <$> mr_providerArtifacts r;
        am_tokenEstimate := Some (estimateTokens (mr_content r)) |}) ;;
      write (recordStepDoc (step_doc st_model_call false (Some (mr_usage r)) (mr_latencyMs r) None)) ;;
      save_meter meter ;;
      match toolUseBlocks (mr_content r) with
      | _ :: _ => mret (so_continue did_model_call)
      | [] =>
          emit (re_run_finished (mr_finishReason r)) ;;
          mret (so_finished (messageText (mr_content r)))
      end
  end.

(** The loop that makes each new result durable and charges it. *)
Fixpoint persist_results (persisted : gmap string CompletedCall) (meter : BudgetMeter)
    (completed : list CompletedCall) : step_m BudgetMeter :=
  match completed with
  | [] => mret meter
  | done :: completed' =>
      match persisted !! cc_id done with
      | Some _ => persist_results persisted meter completed'
      | None =>
          write (saveToolResult done) ;;
          persist_results persisted (recordMrtrRounds (recordToolCalls meter 1) (cc_mrtrRounds done)) completed'
      end
  end.

Definition toolPhase (meter : BudgetMeter) (calls : list RequestedCall) (messages : list Message)
    : step_m StepOutcome :=
  persisted ← reads completedToolCalls;
  let outstanding := outstanding_calls calls persisted in
  let verdict := checkToolPhase meter (tm_phase (env_times env)) (Z.of_nat (length outstanding)) in
  if negb (v_ok verdict) then stop stop_budget (default "" (v_message verdict)) messages meter
  else
    phase ← (λ st,
      match run (env_gateway env) (env_elapsed env) DEFAULT_MAX_PARALLEL
              (ts_parallelCalls (mc_tools (rx_capabilities ctx))) (rt_detector st) calls persisted with
      | Some (outcome, ps) => (Ret (outcome, ps), {| rt_store := rt_store st; rt_detector := ps_detector ps |})
      | None => (Throw (se_other "unreachable"), st)
      end);
    emit_all (map re_phase (ps_events phase.2)) ;;
    match phase.1 with
    | po_refused v message =>
        write (appendMessage {| am_role := RTool; am_content := message; am_providerArtifacts := None;
                                am_tokenEstimate := None |}) ;;
        write (recordStepDoc (step_doc st_tool_call true None (tm_latency (env_times env))
          (Some {| e_code := "loop_detected"; e_message := verdict_message v |}))) ;;
        stop stop_loop (verdict_message v) messages meter
    | po_suspended reason approvalId _ _ completed =>
        meter ← persist_results persisted meter completed;
        save_meter meter ;;
        emit (re_run_suspended reason approvalId) ;;
        mret (so_suspended reason approvalId)
    | po_complete completed message =>
        meter ← persist_results persisted meter completed;
        save_meter meter ;;
        write (appendMessage {| am_role := RTool; am_content := message; am_providerArtifacts := None;
                                am_tokenEstimate := None |}) ;;
        write (recordStepDoc (step_doc st_tool_call false None (tm_latency (env_times env)) None)) ;;
        mret (so_continue did_tool_phase)
    end.

Definition summariseOrFallback (plan : CompactionPlan) (messages : list CanonicalMessage) : string :=
  match env_summarise env with
  | None => fallbackSummary (pl_toSummarise plan)
  | Some summarise =>
      match summarise messages with Ret t => t | Throw _ => fallbackSummary (pl_toSummarise plan) end
  end.

Definition compactStep (meter : BudgetMeter) (plan : CompactionPlan) : step_m StepOutcome :=
  match compact plan (summariseOrFallback plan) with
  | Throw _ => throw (se_other "Nothing to compact. Check `plan.needed` before calling compact().")
  | Ret result =>
      appended ← write (appendMessage {|
        am_role := RSystem; am_content := cres_summary result; am_providerArtifacts := None;
        am_tokenEstimate := Some (estimateTokens (cres_summary result)) |});
      write (supersede (cres_supersededIds result) (m_id appended)) ;;
      let meter := recordStep meter in
      write (recordStepDoc (step_doc st_compaction false None (tm_latency (env_times env)) None)) ;;
      save_meter meter ;;
      mret (so_continue did_compaction)
  end.

Definition stepOnce : step_m StepOutcome :=
  let meter := new_meter (tm_meter (env_times env)) (rx_budget ctx) (rx_consumed ctx) (rr_rates resolved) in
  messages ← reads loadMessages;
  match env_killSwitch env with
  | Some stopped => stop stop_kill_switch stopped messages meter
  | None =>
      let verdict := meter_check meter (tm_check (env_times env)) in
      if negb (v_ok verdict) then stop stop_budget (default "" (v_message verdict)) messages meter
      else
        match pendingToolCalls messages with
        | Some pending => toolPhase meter pending messages
        | None =>
            match last (live_messages messages) with
            | Some ({| m_role := RAssistant |} as m) =>
                emit (re_run_finished end_turn) ;; mret (so_finished (messageText (m_content m)))
            | _ =>
                let plan := planCompaction messages (rx_capabilities ctx) (env_compaction env) in
                if pl_needed plan then compactStep meter plan else modelCall meter messages
            end
        end
  end.
End Step.

(** ** What the port promises *)

(** [store_ok] is the implementation's own invariant, kept by every operation.
    Messages and results change only through the operations that name them; an
    append that returns makes its message the newest one. *)
Class RunStateStoreLaws (S : Type) `{RunStateStore S} := {
  store_ok : S → Prop;
  results_keyed s : keyed (completedToolCalls s);
  save_frame c u s :
    loadMessages (saveConsumption c u s).2 = loadMessages s ∧
    completedToolCalls (saveConsumption c u s).2 = completedToolCalls s ∧
    (store_ok s → store_ok (saveConsumption c u s).2);
  publish_frame e s :
    loadMessages (publish e s).2 = loadMessages s ∧
    completedToolCalls (publish e s).2 = completedToolCalls s ∧
    (store_ok s → store_ok (publish e s).2);
  record_frame d s :
    rs_toolCalls d = [] → store_ok s →
    loadMessages (recordStepDoc d s).2 = loadMessages s ∧
    completedToolCalls (recordStepDoc d s).2 = completedToolCalls s ∧
    store_ok (recordStepDoc d s).2;
  append_frame am s :
    completedToolCalls (appendMessage am s).2 = completedToolCalls s ∧
    (store_ok s → store_ok (appendMessage am s).2);
  append_last am s m s' :
    store_ok s → appendMessage am s = (Ret m, s') →
    last (loadMessages s') = Some m ∧ m_role m = am_role am ∧ m_content m = am_content am ∧ live_message m = true;
  result_ok c s s' :
    store_ok s → saveToolResult c s = (Ret (), s') →
    loadMessages s' = loadMessages s ∧ completedToolCalls s' = <[cc_id c := c]> (completedToolCalls s) ∧
    store_ok s';
}.

Section StepFacts.
Context {S : Type} `{RunStateStoreLaws S}.
Context (resolved : ResolvedRun) (env : StepEnv).
#[local] Abbreviation ctx := (rr_ctx resolved).
#[local] Abbreviation msgs st := (loadMessages (rt_store st)).
#[local] Abbreviation results st := (completedToolCalls (rt_store st)).

(** The conversation and the stored results are as they were. *)
Definition same_view (st st' : RuntimeState) : Prop :=
  msgs st' = msgs st ∧ results st' = results st.

#[global] Instance same_view_preorder : PreOrder same_view.
Proof.
  split; [by intros st|]. intros a b c [H1 H2] [H3 H4]. split; congruence.
Qed.

(** A command that, however it ends, leaves the view and the detector alone. *)
Definition silent {A} (m : step_m A) : Prop :=
  ∀ st, store_ok (rt_store st) →
    same_view st (m st).2 ∧ rt_detector (m st).2 = rt_detector st ∧ store_ok (rt_store (m st).2).

Lemma silent_ret {A} (a : A) : silent (mret (M := step_m) a).
Proof. by intros st. Qed.

Lemma silent_bind {A B} (m : step_m A) (k : A → step_m B) :
  silent m → (∀ a, silent (k a)) → silent (m ≫= k).
Proof.
  intros Hm Hk st Hok. unfold mbind, step_bind. specialize (Hm st Hok).
  destruct (m st) as [[a|e] st']; simpl in *; [|done].
  destruct Hm as (Hv' & Hd' & Hok'). destruct (Hk a st' Hok') as (Hv & Hd & Hok'').
  split_and!; [by etrans|congruence|done].
Qed.

Lemma silent_save meter : silent (save_meter env meter).
Proof.
  intros st Hok. unfold save_meter, write.
  pose proof (save_frame (meter_consumed meter (tm_save (env_times env))) (bm_usage meter) (rt_store st)) as Hf.
  destruct (saveConsumption _ _ _). simpl in *. destruct Hf as (? & ? & ?). split_and!; try split; auto.
Qed.

Lemma silent_emit e : silent (emit e).
Proof.
  intros st Hok. unfold emit, write. pose proof (publish_frame e (rt_store st)) as Hf.
  destruct (publish e _). simpl in *. destruct Hf as (? & ? & ?). split_and!; try split; auto.
Qed.

Lemma silent_emit_all es : silent (emit_all es).
Proof. induction es as [|e es IH]; simpl; [apply silent_ret|]. apply silent_bind; [apply silent_emit|done]. Qed.

Lemma silent_record d : rs_toolCalls d = [] → silent (write (recordStepDoc d)).
Proof.
  intros Hd st Hok. unfold write. pose proof (record_frame d (rt_store st) Hd Hok) as Hf.
  destruct (recordStepDoc _ _). simpl in *. destruct Hf as (? & ? & ?). split_and!; try split; auto.
Qed.

Lemma silent_stop reason message messages meter : silent (stop env reason message messages meter).
Proof.
  apply silent_bind; [apply silent_save|]. intros _. apply silent_bind; [apply silent_emit|].
  intros _. apply silent_ret.
Qed.

(** Commands that return a value return this one. *)
Definition returns {A} (m : step_m (S := S) A) (P : A → Prop) : Prop := ∀ st a, (m st).1 = Ret a → P a.

Lemma returns_ret {A} (a : A) (P : A → Prop) : P a → returns (mret (M := step_m) a) P.
Proof. by intros ? st b [= <-]. Qed.

Lemma returns_bind {A B} (m : step_m A) (k : A → step_m B) P :
  (∀ a, returns (k a) P) → returns (m ≫= k) P.
Proof.
  intros Hk st b. unfold mbind, step_bind. destruct (m st) as [[a|e] st']; simpl; [|done]. apply Hk.
Qed.

Lemma returns_stop reason message messages meter :
  returns (stop env reason message messages meter)
    (λ o, o = so_stopped reason message (lastAssistantText messages)).
Proof. do 2 (apply returns_bind; intros _). by apply returns_ret. Qed.

Lemma bind_Ret {A B} (m : step_m (S := S) A) (k : A → step_m B) st b st2 :
  (m ≫= k) st = (Ret b, st2) → ∃ a st1, m st = (Ret a, st1) ∧ k a st1 = (Ret b, st2).
Proof. unfold mbind, step_bind. destruct (m st) as [[a|e] st1]; [eauto|done]. Qed.

Lemma silent_view {A} (m : step_m (S := S) A) st r st' :
  silent m → store_ok (rt_store st) → m st = (r, st') → same_view st st' ∧ store_ok (rt_store st').
Proof. intros Hm Hok E. destruct (Hm st Hok) as (? & _ & ?). rewrite E in *. done. Qed.

Lemma write_append am st m st' :
  store_ok (rt_store st) → write (appendMessage am) st = (Ret m, st') →
  last (msgs st') = Some m ∧ m_role m = am_role am ∧ m_content m = am_content am ∧ live_message m = true ∧
  results st' = results st ∧ store_ok (rt_store st').
Proof.
  intros Hok. unfold write. destruct (append_frame am (rt_store st)) as [Hr Hok'].
  destruct (appendMessage am (rt_store st)) as [r s'] eqn:E. intros [= -> <-]. simpl in *.
  destruct (append_last _ _ _ _ Hok E) as (? & ? & ? & ?). split_and!; auto.
Qed.

Lemma write_result c st u st' :
  store_ok (rt_store st) → write (saveToolResult c) st = (Ret u, st') →
  msgs st' = msgs st ∧ results st' = <[cc_id c := c]> (results st) ∧ store_ok (rt_store st').
Proof.
  intros Hok. unfold write. destruct (saveToolResult c (rt_store st)) as [r s'] eqn:E. intros [= -> <-]. simpl.
  destruct u. by apply (result_ok c).
Qed.

Lemma last_live l m : last l = Some m → live_message m = true → last (live_messages l) = Some m.
Proof.
  intros Hl Hm. apply last_Some in Hl as [l' ->]. unfold live_messages.
  rewrite List.filter_app. simpl. rewrite Hm. apply last_snoc.
Qed.

(** Takes the next command off a sequence that returned. *)
Tactic Notation "next" ident(a) ident(st1) ident(E) :=
  match goal with
  | Hrun : (_ ≫= _) _ = (Ret _, _) |- _ => apply bind_Ret in Hrun as (a & st1 & E & Hrun)
  end.

(** The same for a command that leaves the view alone. *)
Tactic Notation "next" "silent" ident(st1) ident(Hv) "by" tactic(t) :=
  let a := fresh "u" in let E := fresh "E" in
  let Hok := fresh "Hok" in
  next a st1 E; apply silent_view in E as [Hv Hok]; [|by t|assumption].

Lemma persist_results_view persisted meter completed st meter' st' :
  store_ok (rt_store st) →
  persist_results persisted meter completed st = (Ret meter', st') →
  msgs st' = msgs st ∧
  (∀ d, d ∈ completed → persisted !! cc_id d = None → is_Some (results st' !! cc_id d)) ∧
  (∀ id, is_Some (results st !! id) → is_Some (results st' !! id)) ∧ store_ok (rt_store st').
Proof.
  revert meter st. induction completed as [|d completed IH]; intros meter st Hok; simpl.
  { intros [= <- <-]. split_and!; [done|by intros ? ?%elem_of_nil|done..]. }
  destruct (persisted !! cc_id d) eqn:Ep.
  - intros Hrun. apply IH in Hrun as (Hm & Hc & Hmono & Hok'); [|done]. split_and!; try done.
    intros d' [->|Hd']%elem_of_cons; [congruence|by apply Hc].
  - intros Hrun. next u st1 E. apply write_result in E as (Hm1 & Hr1 & Hok1); [|done].
    apply IH in Hrun as (Hm & Hc & Hmono & Hok'); [|done]. split_and!; [..|done].
    + congruence.
    + intros d' [->|Hd']%elem_of_cons Hn; [|by apply Hc]. apply Hmono. rewrite Hr1. by rewrite lookup_insert_eq.
    + intros id Hid. apply Hmono. rewrite Hr1. destruct (decide (id = cc_id d)) as [->|].
      * by rewrite lookup_insert_eq.
      * by rewrite lookup_insert_ne.
Qed.

(** What a returned outcome says of the conversation. *)
Definition outcome_fits (st st' : RuntimeState) (o : StepOutcome) : Prop :=
  match o with
  | so_continue did_model_call =>
      ∃ m, last (msgs st') = Some m ∧ live_message m = true ∧ m_role m = RAssistant ∧
        is_Some (pendingToolCalls (msgs st'))
  | so_continue did_tool_phase =>
      ∃ calls m, pendingToolCalls (msgs st) = Some calls ∧ last (msgs st') = Some m ∧ m_role m = RTool ∧
        map tool_result_id (m_content m) = map (λ c, Some (rc_id c)) calls ∧ pendingToolCalls (msgs st') = None
  | so_continue did_compaction =>
      pendingToolCalls (msgs st) = None ∧
      pl_needed (planCompaction (msgs st) (rx_capabilities ctx) (env_compaction env)) = true
  | so_finished text =>
      ∃ m, last (live_messages (msgs st')) = Some m ∧ m_role m = RAssistant ∧
        toolUseBlocks (m_content m) = [] ∧ text = messageText (m_content m)
  | so_suspended _ _ =>
      ∃ calls, msgs st' = msgs st ∧ pendingToolCalls (msgs st') = Some calls
  | so_stopped stop_loop _ _ =>
      ∃ calls m, pendingToolCalls (msgs st) = Some calls ∧ last (msgs st') = Some m ∧ m_role m = RTool ∧
        map tool_result_id (m_content m) = map (λ c, Some (rc_id c)) calls
  | so_stopped _ _ text => msgs st' = msgs st ∧ text = lastAssistantText (msgs st)
  end.

Lemma pending_after_append l m :
  last l = Some m → live_message m = true →
  pendingToolCalls l = if bool_decide (m_role m = RAssistant) then
    match toolUseBlocks (m_content m) with [] => None
    | bs => Some (map (λ b, {| rc_id := tu_id b; rc_canonicalName := tu_name b; rc_input := tu_input b |}) bs) end
  else None.
Proof.
  intros Hl Hm. unfold pendingToolCalls. rewrite (last_live l m Hl Hm). by case_bool_decide.
Qed.

Lemma stop_fits st0 st reason message meter st' o :
  reason ≠ stop_loop → same_view st0 st → store_ok (rt_store st) →
  stop env reason message (msgs st0) meter st = (Ret o, st') → outcome_fits st0 st' o.
Proof.
  intros Hr Hv Hok E. destruct (silent_view _ _ _ _ (silent_stop reason message (msgs st0) meter) Hok E) as [Hv' _].
  pose proof (returns_stop reason message (msgs st0) meter st o) as Ho. rewrite E in Ho.
  rewrite (Ho eq_refl). destruct (transitivity Hv Hv') as [Hm _]. by destruct reason.
Qed.

Lemma modelCall_fits meter st o st' :
  store_ok (rt_store st) → modelCall resolved env meter (msgs st) st = (Ret o, st') → outcome_fits st st' o.
Proof.
  unfold modelCall. intros Hok Hrun. next available st1 E. injection E as _ <-.
  next selection st1 E. injection E as _ <-.
  match type of Hrun with context [assemblePrompt ?i] => generalize dependent (assemblePrompt i); intros prompt Hrun end.
  next silent st1 Hv1 by apply silent_emit. destruct (call _ _ _ _ _) as [result log].
  next silent st2 Hv2 by apply silent_emit_all. destruct result as [r|e].
  - next m st3 E. apply write_append in E as (Hl & Hrole & Hcont & Hlive & Hres & HokA); [|assumption]. cbn [am_role am_content] in *.
    next silent st4 Hv4 by apply silent_record. next silent st5 Hv5 by apply silent_save.
    destruct (transitivity Hv4 Hv5) as [Hm _].
    destruct (toolUseBlocks (mr_content r)) as [|b bs] eqn:Eb.
    + next silent st6 Hv6 by apply silent_emit. destruct Hv6 as [Hm6 _].
      injection Hrun as <- <-. exists m. rewrite Hm6, Hm, Hcont. split_and!; try done. by apply last_live.
    + injection Hrun as <- <-. exists m. rewrite Hm. split_and!; try done.
      rewrite (pending_after_append _ m) by done. rewrite Hrole, Hcont, Eb. by eexists.
  - next silent st3 Hv3 by apply silent_record. next silent st4 Hv4 by apply silent_save.
    eapply stop_fits; [| | |exact Hrun]; [done| |assumption].
    by repeat (etrans; [eassumption|]).
Qed.

Lemma toolPhase_fits meter calls st o st' :
  store_ok (rt_store st) → pendingToolCalls (msgs st) = Some calls →
  toolPhase resolved env meter calls (msgs st) st = (Ret o, st') → outcome_fits st st' o.
Proof.
  intros Hok Hpend. unfold toolPhase. intros Hrun. next persisted st1 E. injection E as <- <-.
  case_match; [by eapply stop_fits; [| | |exact Hrun]|].
  next phase st1 E.
  destruct (phase_outcome (env_gateway env) (env_elapsed env) DEFAULT_MAX_PARALLEL
    (ts_parallelCalls (mc_tools (rx_capabilities ctx))) (rt_detector st) calls (results st))
    as (outcome & ps & Er & Hout); [done|apply results_keyed|].
  rewrite Er in E. injection E as <- <-. cbn [fst snd] in Hrun.
  next silent st2 Hv2 by apply silent_emit_all. destruct Hv2 as [Hm2 Hr2]. cbn [rt_store] in Hm2, Hr2.
  destruct outcome as [completed message|reason approvalId requestState pending completed|v message].
  - next meter' st3 E. apply persist_results_view in E as (Hm3 & _ & _ & Hok3); [|assumption].
    next silent st4 Hv4 by apply silent_save.
    next m st5 E. apply write_append in E as (Hl & Hrole & Hcont & Hlive & _ & HokA); [|assumption]. cbn [am_role am_content] in *.
    next silent st6 Hv6 by apply silent_record. destruct Hv6 as [Hm6 _]. injection Hrun as <- <-.
    exists calls, m. rewrite Hm6. split_and!; try done; [by rewrite Hcont; apply Hout|].
    rewrite (pending_after_append _ m) by done. by rewrite Hrole.
  - next meter' st3 E. apply persist_results_view in E as (Hm3 & _ & _ & Hok3); [|assumption].
    next silent st4 Hv4 by apply silent_save. next silent st5 Hv5 by apply silent_emit.
    injection Hrun as <- <-. destruct (transitivity Hv4 Hv5) as [Hm5 _].
    exists calls. assert (msgs st5 = msgs st) as -> by congruence. done.
  - next m st3 E. apply write_append in E as (Hl & Hrole & Hcont & Hlive & _ & HokA); [|assumption]. cbn [am_role am_content] in *.
    next silent st4 Hv4 by apply silent_record. destruct Hv4 as [Hm4 _].
    pose proof (returns_stop stop_loop (verdict_message v) (msgs st) meter st4 o) as Ho.
    rewrite Hrun in Ho. rewrite (Ho eq_refl).
    apply silent_view in Hrun as [[Hm5 _] _]; [|apply silent_stop|assumption].
    exists calls, m. rewrite Hm5, Hm4. split_and!; try done. by rewrite Hcont; apply Hout.
Qed.

Lemma toolPhase_suspends meter calls st reason approvalId st' :
  store_ok (rt_store st) → toolPhase resolved env meter calls (msgs st) st = (Ret (so_suspended reason approvalId), st') →
  ∃ rs pending completed ps,
    run (env_gateway env) (env_elapsed env) DEFAULT_MAX_PARALLEL
      (ts_parallelCalls (mc_tools (rx_capabilities ctx))) (rt_detector st) calls (results st) =
      Some (po_suspended reason approvalId rs pending completed, ps) ∧
    (∀ d, d ∈ completed → results st !! cc_id d = None → is_Some (results st' !! cc_id d)) ∧
    (∀ id, is_Some (results st !! id) → is_Some (results st' !! id)).
Proof.
  unfold toolPhase. intros Hok Hrun. next persisted st1 E. injection E as <- <-.
  case_match; [by apply (f_equal fst) in Hrun; apply returns_stop in Hrun|].
  next phase st1 E. destruct (run _ _ _ _ _ calls (results st)) as [[outcome ps]|] eqn:Er; [|done].
  injection E as <- <-. cbn [fst snd] in Hrun.
  next silent st2 Hv2 by apply silent_emit_all. destruct Hv2 as [_ Hr2]. cbn [rt_store] in Hr2.
  destruct outcome as [completed message|r0 a0 rs pending completed|v message].
  - next meter' st3 E. next u4 st4 E4. next u5 st5 E5. by next u6 st6 E6.
  - next meter' st3 E. apply persist_results_view in E as (_ & Hc & Hmono & Hok3); [|assumption].
    next silent st4 Hv4 by apply silent_save. next silent st5 Hv5 by apply silent_emit.
    injection Hrun as <- <- <-. destruct (transitivity Hv4 Hv5) as [_ Hr5]. rewrite Hr5.
    exists rs, pending, completed, ps. split_and!; [done|done|]. intros id Hid. apply Hmono. by rewrite Hr2.
  - next u3 st3 E3. next u4 st4 E4. by apply (f_equal fst) in Hrun; apply returns_stop in Hrun.
Qed.

Lemma compactStep_continues meter plan st o st' :
  compactStep env meter plan st = (Ret o, st') → o = so_continue did_compaction.
Proof.
  unfold compactStep. destruct (compact _ _); [|done]. intros Hrun.
  next u1 st1 E1. next u2 st2 E2. next u3 st3 E3. next u4 st4 E4. by injection Hrun as <- _.
Qed.

Lemma modelCall_no_suspend meter messages st r a st' :
  modelCall resolved env meter messages st = (Ret (so_suspended r a), st') → False.
Proof.
  unfold modelCall. intros Hrun. next u1 st1 E1. next u2 st2 E2. next u3 st3 E3.
  destruct (call _ _ _ _ _) as [[result|e] log]; next u4 st4 E4.
  - next u5 st5 E5. next u6 st6 E6. next u7 st7 E7. destruct (toolUseBlocks _); [by next u8 st8 E8|done].
  - next u5 st5 E5. next u6 st6 E6. by apply (f_equal fst) in Hrun; apply returns_stop in Hrun.
Qed.

Lemma step_suspends st reason approvalId st' :
  store_ok (rt_store st) → stepOnce resolved env st = (Ret (so_suspended reason approvalId), st') →
  ∃ calls, pendingToolCalls (msgs st) = Some calls ∧
  ∃ rs pending completed ps,
    run (env_gateway env) (env_elapsed env) DEFAULT_MAX_PARALLEL
      (ts_parallelCalls (mc_tools (rx_capabilities ctx))) (rt_detector st) calls (results st) =
      Some (po_suspended reason approvalId rs pending completed, ps) ∧
    (∀ d, d ∈ completed → results st !! cc_id d = None → is_Some (results st' !! cc_id d)) ∧
    (∀ id, is_Some (results st !! id) → is_Some (results st' !! id)).
Proof.
  unfold stepOnce. intros Hok Hrun. next messages st1 E. injection E as <- <-.
  destruct (env_killSwitch env); [by apply (f_equal fst) in Hrun; apply returns_stop in Hrun|].
  case_match; [by apply (f_equal fst) in Hrun; apply returns_stop in Hrun|].
  destruct (pendingToolCalls (msgs st)) as [calls|] eqn:Ep.
  { exists calls. split; [done|]. by eapply toolPhase_suspends. }
  exfalso. destruct (last (live_messages (msgs st))) as [[? ? ? [] ? ? ? ? ? ?]|] eqn:El;
    try (by next u1 st1 E1); (case_match; [by apply compactStep_continues in Hrun|by eapply modelCall_no_suspend]).
Qed.

(** The kill switch comes first and the budget second, before anything else
    is consulted: when either stops the step, the outcome says which, no message
    or tool result is written, and neither the gateway nor the provider has any
    influence on what happens. *)
Theorem guards_come_first st :
  let meter := new_meter (tm_meter (env_times env)) (rx_budget ctx) (rx_consumed ctx) (rr_rates resolved) in
  let verdict := checkBudget (rx_budget ctx) (meter_consumed meter (tm_check (env_times env))) in
  ∀ reason message, store_ok (rt_store st) →
  (env_killSwitch env = Some message ∧ reason = stop_kill_switch ∨
   env_killSwitch env = None ∧ ∃ b, verdict = Some b ∧ reason = stop_budget ∧ message = EXPLANATIONS b) →
  same_view st (stepOnce resolved env st).2 ∧
  rt_detector (stepOnce resolved env st).2 = rt_detector st ∧
  (∀ o, (stepOnce resolved env st).1 = Ret o → o = so_stopped reason message (lastAssistantText (msgs st))) ∧
  (∀ env', env_killSwitch env' = env_killSwitch env → env_times env' = env_times env →
     stepOnce resolved env' st = stepOnce resolved env st).
Proof.
  intros meter verdict reason message Hok Hcase.
  assert (∀ env', env_killSwitch env' = env_killSwitch env → env_times env' = env_times env →
    stepOnce resolved env' st = stop env reason message (msgs st) meter st) as Hstep.
  { intros env' Hk Ht. unfold stepOnce, mbind, step_bind, reads. rewrite Hk, Ht. fold meter.
    destruct Hcase as [[-> ->]|(-> & b & Hb & -> & ->)].
    - unfold stop, save_meter. by rewrite Ht.
    - unfold meter_check. change (bm_budget meter) with (rx_budget ctx). fold verdict. rewrite Hb. simpl.
      unfold stop, save_meter. by rewrite Ht. }
  rewrite (Hstep env) by done. destruct (silent_stop reason message (msgs st) meter st Hok) as (Hv & Hd & _).
  split_and!; [done..| |done]. intros o. apply returns_stop.
Qed.

(** A suspension replays instead of repeating: when the model's calls run
    one at a time and the step suspends, every call that reached the gateway,
    the pending one apart, has a stored result afterwards, so a resumed phase no
    longer counts it among the outstanding ones. *)
Theorem suspended_step_keeps_results st reason approvalId st' :
  store_ok (rt_store st) → ts_parallelCalls (mc_tools (rx_capabilities ctx)) = false →
  stepOnce resolved env st = (Ret (so_suspended reason approvalId), st') →
  ∃ calls outcome ps pre call,
    pendingToolCalls (msgs st) = Some calls ∧
    run (env_gateway env) (env_elapsed env) DEFAULT_MAX_PARALLEL false (rt_detector st) calls (results st) =
      Some (outcome, ps) ∧
    ps_invoked ps = pre ++ [call] ∧
    ∀ c, c ∈ pre → is_Some (results st' !! rc_id c) ∧ c ∉ outstanding_calls calls (results st').
Proof.
  intros Hok Hpar Hrun. destruct (step_suspends st reason approvalId st' Hok Hrun) as (calls & Hpend & Hphase).
  rewrite Hpar in Hphase.
  destruct Hphase as (rs & pending & completed & ps & Er & Hstored).
  assert (0 < DEFAULT_MAX_PARALLEL) as Hmax by done.
  destruct (sequential_suspension _ _ _ _ _ _ _ _ _ _ _ _ Hmax Er) as (pre & call & Hinv & _ & _ & Hpre).
  exists calls. do 2 eexists. exists pre, call. split_and!; [done|exact Er|done|]. intros c Hc.
  destruct (Hpre c Hc) as (d & Hd & Hps).
  assert (is_Some (results st' !! rc_id c)) as Hsome.
  { destruct (results st !! rc_id c) eqn:Es; [by apply (proj2 Hstored); rewrite Es|].
    assert (cc_id d = rc_id c) as Hid by (by eapply (run_keyed _ _ _ _ _ _ _ _ _ (results_keyed _) Er Hmax)).
    rewrite <-Hid. apply (proj1 Hstored); [done|]. by rewrite Hid. }
  split; [done|]. intros [_ Hnone]%elem_of_outstanding. destruct Hsome as [? Hs]. congruence.
Qed.

(** C10.  A step leaves the conversation as its outcome says.  After a model call
    that asks for tools those calls are pending; after a completed tool phase
    the newest message holds one result per pending call, in order, and nothing
    is pending; a loop is answered in the conversation the same way; a finished
    run ends on the assistant's answer; a suspension leaves the calls pending;
    a run stopped by the kill switch, the budget or a model error adds nothing
    to the history and reports the last text the agent wrote. *)
Theorem step_fits_the_conversation st o st' :
  store_ok (rt_store st) → stepOnce resolved env st = (Ret o, st') → outcome_fits st st' o.
Proof.
  unfold stepOnce. intros Hok Hrun. next messages st1 E. injection E as <- <-.
  destruct (env_killSwitch env) as [reason|]; [by eapply stop_fits; [| | |exact Hrun]|].
  case_match; [by eapply stop_fits; [| | |exact Hrun]|].
  destruct (pendingToolCalls (msgs st)) as [calls|] eqn:Ep; [by eapply toolPhase_fits|].
  assert (∀ k, (if pl_needed (planCompaction (msgs st) (rx_capabilities ctx) (env_compaction env))
      then compactStep env k (planCompaction (msgs st) (rx_capabilities ctx) (env_compaction env))
      else modelCall resolved env k (msgs st)) st = (Ret o, st') → outcome_fits st st' o) as Hrest.
  { intros k. destruct (pl_needed _) eqn:En; [|by apply modelCall_fits].
    unfold compactStep. destruct (compact _ _) as [result|e]; [|done]. intros Hk.
    apply bind_Ret in Hk as (m & st1 & _ & Hk). do 3 apply bind_Ret in Hk as (? & ? & _ & Hk).
    by injection Hk as <- <-. }
  destruct (last (live_messages (msgs st))) as [m|] eqn:El; [|by eapply Hrest].
  destruct (m_role m) eqn:Er; destruct m; simpl in Er; subst; try (by eapply Hrest).
  next silent st1 Hv by apply silent_emit. destruct Hv as [Hm _]. injection Hrun as <- <-.
  eexists. rewrite Hm. split_and!; [exact El|done| |done].
  unfold pendingToolCalls in Ep. rewrite El in Ep. simpl in *. by destruct (toolUseBlocks _).
Qed.
End StepFacts.
