(* ===== verification/RunStore.v ===== *)
(** * The runtime's state port, over the database

    Models apps/web/src/lib/run-store.ts (MongoRunStateStore), the parts of
    packages/db/src/repositories/conversations.ts and runs.ts it calls, and how
    apps/web/src/lib/container.ts opens a session.  The [runs] collection is any
    [Collection]; messages, steps and events are the documents of the run's
    workspace, with their unique indexes.  [MongoRunStateStore] is an instance
    of the runtime's port. *)
From S2P Require Import Prelude Json Entities Principal Budget Model LoopDetection ToolPhase AgentRuntime Mongo RunQueue.

Record StepDoc := { sp_runId : string; sp_seq : Z; sp_step : RecordedStep }.
Record EventDoc := { ev_runId : string; ev_seq : Z; ev_event : RuntimeEvent }.

Record Db (C : Type) := {
  db_runs : C;
  db_nextSeq : gmap string Z;
  db_messages : list Message;
  db_steps : list StepDoc;
  db_events : list EventDoc;
  db_usage : list (string * Usage * Q);
}.
Arguments db_runs {C}. Arguments db_nextSeq {C}. Arguments db_messages {C}.
Arguments db_steps {C}. Arguments db_events {C}. Arguments db_usage {C}.

(** [MongoRunStateStore] with its dependencies; [ss_now] is the clock and
    [ss_newId] the source of identifiers. *)
Record Session (C : Type) := {
  ss_db : Db C;
  ss_workspaceId : string;
  ss_runId : string;
  ss_conversationId : string;
  ss_leaseToken : string;
  ss_leaseMs : Z;
  ss_modelBindingId : string;
  ss_lastSaved : RunConsumption;
  ss_lastUsage : Usage;
  ss_eventSeq : Z;
  ss_now : Z;
  ss_newId : nat → string;
}.
Arguments ss_db {C}. Arguments ss_workspaceId {C}. Arguments ss_runId {C}. Arguments ss_conversationId {C}.
Arguments ss_leaseToken {C}. Arguments ss_leaseMs {C}. Arguments ss_modelBindingId {C}.
Arguments ss_lastSaved {C}. Arguments ss_lastUsage {C}. Arguments ss_eventSeq {C}.
Arguments ss_now {C}. Arguments ss_newId {C}.

Section Store.
Context {C : Type} `{Collection RunDoc C}.
Implicit Types s : Session C.

(** *** Updates of the session *)

Definition with_db (db : Db C) s : Session C := {|
  ss_db := db; ss_workspaceId := ss_workspaceId s; ss_runId := ss_runId s;
  ss_conversationId := ss_conversationId s; ss_leaseToken := ss_leaseToken s; ss_leaseMs := ss_leaseMs s;
  ss_modelBindingId := ss_modelBindingId s; ss_lastSaved := ss_lastSaved s; ss_lastUsage := ss_lastUsage s;
  ss_eventSeq := ss_eventSeq s; ss_now := ss_now s; ss_newId := ss_newId s |}.

Definition with_saved (c : RunConsumption) (u : Usage) s : Session C := {|
  ss_db := ss_db s; ss_workspaceId := ss_workspaceId s; ss_runId := ss_runId s;
  ss_conversationId := ss_conversationId s; ss_leaseToken := ss_leaseToken s; ss_leaseMs := ss_leaseMs s;
  ss_modelBindingId := ss_modelBindingId s; ss_lastSaved := c; ss_lastUsage := u;
  ss_eventSeq := ss_eventSeq s; ss_now := ss_now s; ss_newId := ss_newId s |}.

Definition with_event_seq (n : Z) s : Session C := {|
  ss_db := ss_db s; ss_workspaceId := ss_workspaceId s; ss_runId := ss_runId s;
  ss_conversationId := ss_conversationId s; ss_leaseToken := ss_leaseToken s; ss_leaseMs := ss_leaseMs s;
  ss_modelBindingId := ss_modelBindingId s; ss_lastSaved := ss_lastSaved s; ss_lastUsage := ss_lastUsage s;
  ss_eventSeq := n; ss_now := ss_now s; ss_newId := ss_newId s |}.

Definition with_runs (c : C) (db : Db C) : Db C := {|
  db_runs := c; db_nextSeq := db_nextSeq db; db_messages := db_messages db; db_steps := db_steps db;
  db_events := db_events db; db_usage := db_usage db |}.

Definition with_messages (seqs : gmap string Z) (ms : list Message) (db : Db C) : Db C := {|
  db_runs := db_runs db; db_nextSeq := seqs; db_messages := ms; db_steps := db_steps db;
  db_events := db_events db; db_usage := db_usage db |}.

Definition with_steps (l : list StepDoc) (db : Db C) : Db C := {|
  db_runs := db_runs db; db_nextSeq := db_nextSeq db; db_messages := db_messages db; db_steps := l;
  db_events := db_events db; db_usage := db_usage db |}.

Definition with_events (l : list EventDoc) (db : Db C) : Db C := {|
  db_runs := db_runs db; db_nextSeq := db_nextSeq db; db_messages := db_messages db; db_steps := db_steps db;
  db_events := l; db_usage := db_usage db |}.

Definition with_usage (l : list (string * Usage * Q)) (db : Db C) : Db C := {|
  db_runs := db_runs db; db_nextSeq := db_nextSeq db; db_messages := db_messages db; db_steps := db_steps db;
  db_events := db_events db; db_usage := l |}.

(** *** ConversationRepository *)

(** [recentMessages]: the newest live ones, oldest first. *)
Definition newer (a b : Message) : bool := m_seq b <=? m_seq a.

Definition recentMessages (conversationId : string) (limit : nat) (db : Db C) : list Message :=
  rev (take limit (stable_sort newer
    (List.filter (λ m, String.eqb (m_conversationId m) conversationId && live_message m) (db_messages db)))).

(** [#allocateSeq], then the insert under the unique (conversationId, seq) index. *)
Definition conv_appendMessage (conversationId : string) (newId runId : string) (now : Z) (am : AppendMessage)
    (db : Db C) : outcome StepError Message * Db C :=
  match db_nextSeq db !! conversationId with
  | None => (Throw (se_other ("Conversation " +:+ conversationId +:+ " not found.")), db)
  | Some seq =>
      let seqs := <[conversationId := seq + 1]> (db_nextSeq db) in
      if existsb (λ m, String.eqb (m_conversationId m) conversationId && (m_seq m =? seq)) (db_messages db) then
        (Throw (se_other "E11000 duplicate key"), with_messages seqs (db_messages db) db)
      else
        let m := {| m_id := newId; m_conversationId := conversationId; m_seq := seq; m_role := am_role am;
                    m_content := am_content am; m_providerArtifacts := am_providerArtifacts am;
                    m_runId := Some runId; m_tokenEstimate := am_tokenEstimate am; m_createdAt := now;
                    m_supersededBy := None |} in
        (Ret m, with_messages seqs (db_messages db ++ [m]) db)
  end.

Definition supersedeMessages (conversationId : string) (ids : list string) (summaryId : string) (db : Db C) : Db C :=
  with_messages (db_nextSeq db)
    (map (λ m,
       if String.eqb (m_conversationId m) conversationId && bool_decide (m_id m ∈ ids) && live_message m then
         {| m_id := m_id m; m_conversationId := m_conversationId m; m_seq := m_seq m; m_role := m_role m;
            m_content := m_content m; m_providerArtifacts := m_providerArtifacts m; m_runId := m_runId m;
            m_tokenEstimate := m_tokenEstimate m; m_createdAt := m_createdAt m;
            m_supersededBy := Some summaryId |}
       else m) (db_messages db)) db.

(** *** RunRepository *)

Definition step_le (a b : StepDoc) : bool := sp_seq a <=? sp_seq b.
Definition event_le (a b : EventDoc) : bool := ev_seq a <=? ev_seq b.

(** [appendStep]: the guarded counter, then the insert. *)
Definition appendStep (ws runId token : string) (step : RecordedStep) (db : Db C) : outcome StepError unit * Db C :=
  match reserve_step ws runId token (db_runs db) with
  | (None, c') =>
      (Throw (se_other ("Cannot append a step to run " +:+ runId +:+ ": lease not held.")), with_runs c' db)
  | (Some seq, c') =>
      if existsb (λ d, String.eqb (sp_runId d) runId && (sp_seq d =? seq)) (db_steps db) then
        (Throw (se_other "E11000 duplicate key"), with_runs c' db)
      else (Ret (), with_steps (db_steps db ++ [{| sp_runId := runId; sp_seq := seq; sp_step := step |}])
                      (with_runs c' db))
  end.

Definition listSteps (runId : string) (db : Db C) : list StepDoc :=
  stable_sort step_le (List.filter (λ d, String.eqb (sp_runId d) runId) (db_steps db)).

(** [appendEvent] under the unique (runId, seq) index. *)
Definition appendEvent (runId : string) (seq : Z) (e : RuntimeEvent) (db : Db C) : outcome StepError unit * Db C :=
  if existsb (λ d, String.eqb (ev_runId d) runId && (ev_seq d =? seq)) (db_events db) then
    (Throw (se_other "E11000 duplicate key"), db)
  else (Ret (), with_events (db_events db ++ [{| ev_runId := runId; ev_seq := seq; ev_event := e |}]) db).

Definition eventsSince (runId : string) (afterSeq : Z) (limit : nat) (db : Db C) : list EventDoc :=
  take limit (stable_sort event_le
    (List.filter (λ d, String.eqb (ev_runId d) runId && (afterSeq <? ev_seq d)) (db_events db))).

(** *** MongoRunStateStore *)

(** [#guard]: the heartbeat proves the run is still owned. *)
Definition guard s : outcome StepError unit * Session C :=
  let '(r, c') := heartbeat (ss_now s) (ss_runId s) (ss_leaseToken s) (ss_leaseMs s) (db_runs (ss_db s)) in
  let s' := with_db (with_runs c' (ss_db s)) s in
  match r with
  | Ret _ => (Ret (), s')
  | Throw (LeaseLost id) => (Throw (se_lease_lost id), s')
  end.

Definition store_loadMessages s : list Message :=
  recentMessages (ss_conversationId s) 500 (ss_db s).

Definition store_appendMessage (am : AppendMessage) s : outcome StepError Message * Session C :=
  match guard s with
  | (Throw e, s') => (Throw e, s')
  | (Ret _, s') =>
      let '(r, db) := conv_appendMessage (ss_conversationId s')
        ("msg_" +:+ ss_newId s' (length (db_messages (ss_db s')))) (ss_runId s') (ss_now s') am (ss_db s') in
      (r, with_db db s')
  end.

Definition store_supersede (ids : list string) (by_ : string) s : outcome StepError unit * Session C :=
  match guard s with
  | (Throw e, s') => (Throw e, s')
  | (Ret _, s') =>
      (Ret (), match ids with
               | [] => s'
               | _ :: _ => with_db (supersedeMessages (ss_conversationId s') ids by_ (ss_db s')) s'
               end)
  end.

Definition store_recordStep (step : RecordedStep) s : outcome StepError unit * Session C :=
  let '(r, db) := appendStep (ss_workspaceId s) (ss_runId s) (ss_leaseToken s) step (ss_db s) in
  (r, with_db db s).

Definition subtractUsage (current previous : Usage) : Usage := {|
  inputTokens := inputTokens current - inputTokens previous;
  outputTokens := outputTokens current - outputTokens previous;
  cacheReadTokens := cacheReadTokens current - cacheReadTokens previous;
  cacheWriteTokens := cacheWriteTokens current - cacheWriteTokens previous |}.

Definition store_saveConsumption (consumed : RunConsumption) (usage : Usage) s
    : outcome StepError unit * Session C :=
  let last := ss_lastSaved s in
  let costDelta := (c_costUsd consumed - c_costUsd last)%Q in
  let delta := {| cd_steps := Some (c_steps consumed - c_steps last);
                  cd_toolCalls := Some (c_toolCalls consumed - c_toolCalls last);
                  cd_tokens := Some (c_tokens consumed - c_tokens last);
                  cd_costUsd := Some costDelta |} in
  let usageDelta := subtractUsage usage (ss_lastUsage s) in
  let s1 := with_saved consumed usage s in
  let db1 := with_runs (recordConsumption (ss_workspaceId s) (ss_runId s) (ss_leaseToken s) delta (Some usageDelta)
                          (db_runs (ss_db s))) (ss_db s) in
  let db2 := if negb (Qeq_bool costDelta 0) || negb (inputTokens usageDelta =? 0) || negb (outputTokens usageDelta =? 0)
             then with_usage (db_usage db1 ++ [(ss_modelBindingId s, usageDelta, costDelta)]) db1 else db1 in
  (Ret (), with_db db2 s1).

(** [results.set] for every stored call, in the order of the steps. *)
Definition store_completedToolCalls s : gmap string CompletedCall :=
  fold_left (λ m c, <[cc_id c := c]> m)
    (flat_map (λ d, rs_toolCalls (sp_step d)) (listSteps (ss_runId s) (ss_db s))) ∅.

Definition store_saveToolResult (result : CompletedCall) s : outcome StepError unit * Session C :=
  store_recordStep {| rs_type := st_tool_call; rs_failed := cc_isError result; rs_toolCalls := [result];
                      rs_usage := None; rs_latencyMs := cc_durationMs result; rs_error := None |} s.

(** [this.#eventSeq++] happens whether or not the insert succeeds. *)
Definition store_publish (e : RuntimeEvent) s : outcome StepError unit * Session C :=
  let '(r, db) := appendEvent (ss_runId s) (ss_eventSeq s) e (ss_db s) in
  (r, with_event_seq (ss_eventSeq s + 1) (with_db db s)).

#[global] Instance mongo_store : RunStateStore (Session C) := {
  loadMessages := store_loadMessages;
  appendMessage := store_appendMessage;
  supersede := store_supersede;
  recordStepDoc := store_recordStep;
  saveConsumption := store_saveConsumption;
  completedToolCalls := store_completedToolCalls;
  saveToolResult := store_saveToolResult;
  publish := store_publish;
}.

(** *** Opening a session (container.ts) *)

(** The store for a claimed run, before the events are looked at. *)
Definition new_session (db : Db C) (run : RunDoc) (leaseToken : string) (leaseMs now : Z) (newId : nat → string)
    : Session C := {|
  ss_db := db; ss_workspaceId := sp_workspaceId (run_spec run); ss_runId := run_id run;
  ss_conversationId := sp_conversationId (run_spec run); ss_leaseToken := leaseToken; ss_leaseMs := leaseMs;
  ss_modelBindingId := sp_modelBindingId (run_spec run); ss_lastSaved := run_consumed run;
  ss_lastUsage := emptyUsage; ss_eventSeq := 0; ss_now := now; ss_newId := newId |}.

(** [eventsSince(run.id, -1, 1)], then [resumeEventSeqFrom]. *)
Definition openSession (db : Db C) (run : RunDoc) (leaseToken : string) (leaseMs now : Z) (newId : nat → string)
    : Session C :=
  let priorEvents := eventsSince (run_id run) (-1) 1 db in
  with_event_seq (from_option ev_seq (-1) (last priorEvents) + 1)
    (new_session db run leaseToken leaseMs now newId).
End Store.

(** ** The port's laws hold *)

Section StoreLaws.
Context {C : Type} `{CollectionLaws RunDoc C}.
Implicit Types s : Session C.

(** What the store reads of the run documents. *)
Definition run_counter (d : RunDoc) : string * Z := (run_id d, run_nextStepSeq d).

(** Sequence numbers on file are below the counters that hand them out. *)
Record session_ok (s : Session C) : Prop := {
  so_messages m : m ∈ db_messages (ss_db s) → m_conversationId m = ss_conversationId s →
    ∃ n, db_nextSeq (ss_db s) !! ss_conversationId s = Some n ∧ m_seq m < n;
  so_steps d : d ∈ db_steps (ss_db s) → sp_runId d = ss_runId s →
    ∃ r, docs (db_runs (ss_db s)) !! ss_runId s = Some r ∧ sp_seq d < run_nextStepSeq r;
  so_ids id r : docs (db_runs (ss_db s)) !! id = Some r → run_id r = id;
}.

(** The run documents kept their counters. *)
Definition counters_kept (c c' : C) : Prop := ∀ id, run_counter <$> docs c' !! id = run_counter <$> docs c !! id.

Lemma updateOne_counters id p f (c : C) :
  (∀ d, run_counter (f d) = run_counter d) → counters_kept c (updateOne id p f c).2.
Proof.
  intros Hf id'. destruct (updateOne_cases id p f c) as [(d & Hd & _ & _ & ->)|(_ & _ & ->)]; [|done].
  destruct (decide (id = id')) as [->|].
  - rewrite lookup_insert_eq, Hd. simpl. by rewrite Hf.
  - by rewrite lookup_insert_ne.
Qed.

Lemma heartbeat_counters now id tok ms (c : C) : counters_kept c (heartbeat now id tok ms c).2.
Proof.
  unfold heartbeat. match goal with |- context [updateOne ?i ?p ?f c] =>
    pose proof (updateOne_counters i p f c) as Hu; destruct (updateOne i p f c) end.
  by apply Hu.
Qed.

Lemma recordConsumption_counters ws id tok delta u (c : C) : counters_kept c (recordConsumption ws id tok delta u c).
Proof. apply updateOne_counters. intros d. by destruct u. Qed.

(** Replacing the runs by ones with the same counters keeps the invariant. *)
Lemma session_ok_runs s c' :
  counters_kept (db_runs (ss_db s)) c' → session_ok s → session_ok (with_db (with_runs c' (ss_db s)) s).
Proof.
  intros Hc [Hm Hs Hi]. split; simpl; [done|..].
  - intros d Hd Hr. destruct (Hs d Hd Hr) as (r & Hr' & Hlt). specialize (Hc (ss_runId s)). rewrite Hr' in Hc.
    destruct (docs c' !! ss_runId s) as [r'|]; [|done]. exists r'. split; [done|]. by injection Hc as _ ->.
  - intros id r Hr. specialize (Hc id). rewrite Hr in Hc.
    destruct (docs (db_runs (ss_db s)) !! id) as [r'|] eqn:E; [|done]. injection Hc as -> _. by apply Hi.
Qed.

(** The guard changes nothing but the lease. *)
Lemma guard_frame s :
  store_loadMessages (guard s).2 = store_loadMessages s ∧
  store_completedToolCalls (guard s).2 = store_completedToolCalls s ∧
  (session_ok s → session_ok (guard s).2) ∧
  db_messages (ss_db (guard s).2) = db_messages (ss_db s) ∧ db_nextSeq (ss_db (guard s).2) = db_nextSeq (ss_db s) ∧
  ss_conversationId (guard s).2 = ss_conversationId s ∧ db_steps (ss_db (guard s).2) = db_steps (ss_db s).
Proof.
  unfold guard. pose proof (heartbeat_counters (ss_now s) (ss_runId s) (ss_leaseToken s) (ss_leaseMs s) (db_runs (ss_db s))) as Hc.
  destruct (heartbeat _ _ _ _ _) as [[u|[e]] c']; simpl in *; split_and!; try done; by apply session_ok_runs.
Qed.

Lemma fold_insert_lookup (l : list CompletedCall) (m : gmap string CompletedCall) id c :
  fold_left (λ m c, <[cc_id c := c]> m) l m !! id = Some c → cc_id c = id ∨ m !! id = Some c.
Proof.
  revert m. induction l as [|d l IH]; intros m; simpl; [by right|].
  intros [?|Hl]%IH; [by left|]. apply lookup_insert_Some in Hl as [[<- <-]|[_ ?]]; [by left|by right].
Qed.

Lemma store_results_keyed s : keyed (store_completedToolCalls s).
Proof.
  intros id c Hc. apply fold_insert_lookup in Hc as [?|Hc]; [done|]. by rewrite lookup_empty in Hc.
Qed.

Lemma reserve_step_cases ws id tok (c : C) :
  ((reserve_step ws id tok c).1 = None ∧ docs (reserve_step ws id tok c).2 = docs c) ∨
  ∃ k d, docs c !! k = Some d ∧ run_id d = id ∧ holds_token tok d = true ∧
    (reserve_step ws id tok c).1 = Some (run_nextStepSeq d) ∧
    docs (reserve_step ws id tok c).2 = <[k := set_nextStepSeq (run_nextStepSeq d + 1) d]> (docs c).
Proof.
  unfold reserve_step. destruct (findOneAndUpdate _ _ _ c) as [[[k d]|] c'] eqn:E; simpl.
  - destruct (findOneAndUpdate_hit _ _ _ _ _ _ _ any_order E) as (Hd & Hp & _ & Hu).
    unfold scoped in Hp. bool_prop. right. exists k, d. done.
  - left. split; [done|]. apply (findOneAndUpdate_miss _ _ _ _ _ any_order E).
Qed.

(** Appending a step: refused without a change, or the newest step of the run. *)
Lemma recordStep_cases step s :
  session_ok s →
  (∃ e, (store_recordStep step s).1 = Throw e ∧ store_loadMessages (store_recordStep step s).2 = store_loadMessages s ∧
     listSteps (ss_runId s) (ss_db (store_recordStep step s).2) = listSteps (ss_runId s) (ss_db s)) ∨
  ((store_recordStep step s).1 = Ret () ∧ store_loadMessages (store_recordStep step s).2 = store_loadMessages s ∧
   ∃ seq, listSteps (ss_runId s) (ss_db (store_recordStep step s).2) =
     listSteps (ss_runId s) (ss_db s) ++ [{| sp_runId := ss_runId s; sp_seq := seq; sp_step := step |}]) .
Proof.
  intros [Hm Hs Hi]. unfold store_recordStep, appendStep.
  destruct (reserve_step_cases (ss_workspaceId s) (ss_runId s) (ss_leaseToken s) (db_runs (ss_db s)))
    as [[E1 E2]|(k & d & Hd & Hid & _ & E1 & E2)];
    destruct (reserve_step _ _ _ _) as [r c']; simpl in *; subst r; simpl; [left; eauto|].
  assert (k = run_id d) as -> by (symmetry; by apply Hi).
  destruct (existsb _ _) eqn:Ex; [left; eauto|]. right. split_and!; [done..|].
  exists (run_nextStepSeq d). unfold listSteps. simpl. rewrite List.filter_app. simpl. rewrite String.eqb_refl.
  apply stable_sort_snoc_last. intros y [Hy Hr]%list_elem_of_In%filter_In. apply list_elem_of_In in Hy.
  bool_prop. destruct (Hs y Hy Hr) as (r & Hr' & Hlt). rewrite <-Hid in Hr'. rewrite Hd in Hr'. injection Hr' as <-.
  apply Z.leb_le. simpl. lia.
Qed.

Lemma recordStep_ok step s : session_ok s → session_ok (store_recordStep step s).2.
Proof.
  intros [Hm Hs Hi]. unfold store_recordStep, appendStep.
  destruct (reserve_step_cases (ss_workspaceId s) (ss_runId s) (ss_leaseToken s) (db_runs (ss_db s)))
    as [[E1 E2]|(k & d & Hd & Hid & _ & E1 & E2)];
    destruct (reserve_step _ _ _ _) as [r c']; simpl in *; subst r; simpl.
  { split; simpl; rewrite ?E2; done. }
  assert (k = run_id d) as -> by (symmetry; by apply Hi).
  assert (∀ id r, docs c' !! id = Some r → run_id r = id) as Hi'.
  { intros id r. rewrite E2. intros [[<- <-]|[_ Hr]]%lookup_insert_Some; [done|by apply Hi]. }
  assert (∀ y, y ∈ db_steps (ss_db s) → sp_runId y = ss_runId s →
    ∃ r, docs c' !! ss_runId s = Some r ∧ sp_seq y < run_nextStepSeq r) as Hs'.
  { intros y Hy Hr. destruct (Hs y Hy Hr) as (r & Hr' & Hlt). rewrite <-Hid in *. rewrite Hd in Hr'.
    injection Hr' as <-. rewrite E2, lookup_insert_eq. eexists. split; [done|]. simpl. lia. }
  destruct (existsb _ _); split; simpl; try done.
  intros y [Hy|Hy%list_elem_of_singleton]%elem_of_app Hr; [by apply Hs'|].
  subst y. rewrite E2, <-Hid, lookup_insert_eq. eexists. split; [done|]. simpl. lia.
Qed.

Lemma recordStep_session step s :
  ss_runId (store_recordStep step s).2 = ss_runId s.
Proof. unfold store_recordStep. by destruct (appendStep _ _ _ _ _). Qed.

Lemma results_after_step step s seq :
  listSteps (ss_runId s) (ss_db (store_recordStep step s).2) =
    listSteps (ss_runId s) (ss_db s) ++ [{| sp_runId := ss_runId s; sp_seq := seq; sp_step := step |}] →
  store_completedToolCalls (store_recordStep step s).2 =
    fold_left (λ m c, <[cc_id c := c]> m) (rs_toolCalls step) (store_completedToolCalls s).
Proof.
  intros Hl. unfold store_completedToolCalls. rewrite recordStep_session, Hl.
  rewrite flat_map_app, fold_left_app. simpl. by rewrite app_nil_r.
Qed.

Lemma append_message_last am s m s' :
  session_ok s → store_appendMessage am s = (Ret m, s') →
  last (store_loadMessages s') = Some m ∧ m_role m = am_role am ∧ m_content m = am_content am ∧ live_message m = true.
Proof.
  intros Hok. unfold store_appendMessage. pose proof (guard_frame s) as (_ & _ & Hok1 & Hms & Hseq & Hconv & _).
  destruct (guard s) as [[u|e] s1]; [|done]. cbn [snd] in *. specialize (Hok1 Hok).
  unfold conv_appendMessage. destruct (db_nextSeq (ss_db s1) !! ss_conversationId s1) as [seq|] eqn:En; [|done].
  destruct (existsb _ _) eqn:Ex; [done|]. intros [= <- <-]. split_and!; [|done..].
  unfold store_loadMessages, recentMessages. simpl. rewrite List.filter_app. simpl. rewrite String.eqb_refl. simpl.
  rewrite stable_sort_snoc_first; [cbn [take rev]; by rewrite last_snoc|].
  intros y [Hy Hc]%list_elem_of_In%filter_In. apply list_elem_of_In in Hy. bool_prop.
  destruct (so_messages s1 Hok1 y Hy) as (n & Hn & Hlt); [done|]. apply Z.leb_gt. simpl. congruence.
Qed.

Lemma append_message_frame am s :
  store_completedToolCalls (store_appendMessage am s).2 = store_completedToolCalls s ∧
  (session_ok s → session_ok (store_appendMessage am s).2).
Proof.
  unfold store_appendMessage. pose proof (guard_frame s) as (_ & Hres & Hok1 & _).
  destruct (guard s) as [[u|e] s1]; cbn [snd] in *; [|done].
  unfold conv_appendMessage. destruct (db_nextSeq (ss_db s1) !! ss_conversationId s1) as [seq|] eqn:En; cycle 1.
  { simpl. split; [done|]. intros [Hm Hs Hi]%Hok1. by split. }
  destruct (existsb _ _) eqn:Ex; simpl; (split; [done|]); intros [Hm Hs Hi]%Hok1; split; simpl; try done.
  - intros y Hy Hc. destruct (Hm y Hy Hc) as (n & Hn & Hlt). exists (seq + 1). rewrite lookup_insert_eq.
    split; [done|]. rewrite En in Hn. injection Hn as <-. lia.
  - intros y [Hy|Hy%list_elem_of_singleton]%elem_of_app Hc; exists (seq + 1); rewrite lookup_insert_eq; (split; [done|]).
    + destruct (Hm y Hy Hc) as (n & Hn & Hlt). rewrite En in Hn. injection Hn as <-. lia.
    + subst y. simpl. lia.
Qed.

(** The database-backed store keeps the promises the runtime relies on. *)
#[global, refine] Instance mongo_store_laws : RunStateStoreLaws (Session C) := { store_ok := session_ok }.
Proof.
  - apply store_results_keyed.
  - intros c u s. simpl. unfold store_saveConsumption. cbn [snd].
    match goal with |- context [recordConsumption ?a ?b ?t ?d ?v ?r] =>
      pose proof (recordConsumption_counters a b t d v r) as Hc; generalize dependent (recordConsumption a b t d v r) end.
    intros c' Hc. split_and!; [by destruct (_ || _)..|]. intros Hok.
    apply (session_ok_runs s c') in Hok; [|done]. destruct Hok as [Hm Hs Hi]. by destruct (_ || _); split.
  - intros e s. simpl. unfold store_publish, appendEvent. destruct (existsb _ _); simpl; split_and!; try done;
      intros [Hm Hs Hi]; by split.
  - intros d s Hd Hok. simpl. pose proof (recordStep_ok d s Hok).
    destruct (recordStep_cases d s Hok) as [(e & _ & Hm & Hl)|(_ & Hm & seq & Hl)]; (split; [done|split; [|done]]).
    + unfold store_completedToolCalls. by rewrite recordStep_session, Hl.
    + by rewrite (results_after_step d s seq Hl), Hd.
  - intros am s. apply append_message_frame.
  - intros am s m s'. apply append_message_last.
  - intros c s s' Hok. simpl. unfold store_saveToolResult. set (d := {| rs_type := st_tool_call |}).
    intros E. pose proof (recordStep_ok d s Hok) as Hok'.
    destruct (recordStep_cases d s Hok) as [(e & He & _)|(_ & Hm & seq & Hl)]; [by rewrite E in He|].
    pose proof (results_after_step d s seq Hl) as Hr. rewrite E in *. split_and!; done.
Defined.

(** ** The store is fenced with the queue *)

(** A write of the runtime through its port. *)
Inductive store_write :=
| WAppend (am : AppendMessage)
| WSupersede (ids : list string) (by_ : string)
| WStep (d : RecordedStep)
| WResult (r : CompletedCall)
| WConsumption (consumed : RunConsumption) (usage : Usage)
| WPublish (e : RuntimeEvent).

Definition thrown {A} (o : outcome StepError A) : option StepError :=
  match o with Ret _ => None | Throw e => Some e end.

(** What the write threw, and the session after it. *)
Definition store_do (w : store_write) (s : Session C) : option StepError * Session C :=
  match w with
  | WAppend am => let '(r, s') := store_appendMessage am s in (thrown r, s')
  | WSupersede ids b => let '(r, s') := store_supersede ids b s in (thrown r, s')
  | WStep d => let '(r, s') := store_recordStep d s in (thrown r, s')
  | WResult r => let '(r, s') := store_saveToolResult r s in (thrown r, s')
  | WConsumption c u => let '(r, s') := store_saveConsumption c u s in (thrown r, s')
  | WPublish e => let '(r, s') := store_publish e s in (thrown r, s')
  end.

(** Nothing of a conversation or of a run is different. *)
Record left_alone (s s' : Session C) : Prop := {
  la_runs : docs (db_runs (ss_db s')) = docs (db_runs (ss_db s));
  la_nextSeq : db_nextSeq (ss_db s') = db_nextSeq (ss_db s);
  la_messages : db_messages (ss_db s') = db_messages (ss_db s);
  la_steps : db_steps (ss_db s') = db_steps (ss_db s);
  la_usage : db_usage (ss_db s) `prefix_of` db_usage (ss_db s');
  la_events : db_events (ss_db s) `prefix_of` db_events (ss_db s');
  la_ids : ss_leaseToken s' = ss_leaseToken s ∧ ss_runId s' = ss_runId s ∧ ss_conversationId s' = ss_conversationId s;
}.

(** How a write ends for an executor without the lease. *)
Definition refused_write (w : store_write) (s : Session C) : Prop :=
  let '(err, s') := store_do w s in
  let same_usage := db_usage (ss_db s') = db_usage (ss_db s) in
  let same_events := db_events (ss_db s') = db_events (ss_db s) in
  match w with
  | WAppend _ | WSupersede _ _ => err = Some (se_lease_lost (ss_runId s)) ∧ same_usage ∧ same_events
  | WStep _ | WResult _ =>
      err = Some (se_other ("Cannot append a step to run " +:+ ss_runId s +:+ ": lease not held.")) ∧ same_usage ∧ same_events
  | WConsumption _ u =>
      (same_usage ∨ ∃ cost, db_usage (ss_db s') = db_usage (ss_db s) ++ [(ss_modelBindingId s, subtractUsage u (ss_lastUsage s), cost)]) ∧ same_events
  | WPublish e =>
      same_usage ∧ (same_events ∨ db_events (ss_db s') = db_events (ss_db s) ++ [{| ev_runId := ss_runId s; ev_seq := ss_eventSeq s; ev_event := e |}])
  end.

Lemma left_alone_refl s : left_alone s s.
Proof. by split. Qed.
Lemma left_alone_trans s1 s2 s3 : left_alone s1 s2 → left_alone s2 s3 → left_alone s1 s3.
Proof. intros [] []. split; try congruence; [by etrans..|]. naive_solver congruence. Qed.
Lemma left_alone_ok s s' : left_alone s s' → session_ok s → session_ok s'.
Proof.
  intros [Er En Em Es _ _ (_ & Ei & Ec)] [Hm Hs Hi]. split.
  - rewrite Em, En, Ec. apply Hm.
  - rewrite Es, Er, Ei. apply Hs.
  - rewrite Er. apply Hi.
Qed.
Lemma left_alone_held s s' : left_alone s s' →
  not_held (ss_leaseToken s) (ss_runId s) (db_runs (ss_db s)) → not_held (ss_leaseToken s') (ss_runId s') (db_runs (ss_db s')).
Proof. intros [Er _ _ _ _ _ (-> & -> & _)] Hn d. rewrite Er. apply Hn. Qed.

Lemma write_refused w s :
  session_ok s → not_held (ss_leaseToken s) (ss_runId s) (db_runs (ss_db s)) → left_alone s (store_do w s).2 ∧ refused_write w s.
Proof.
  intros Hok Hn. destruct (refused_of_not_held _ _ _ (so_ids s Hok) Hn) as (Hh & _ & Hres & Hcons). unfold refused_write.
  assert (∀ A (k : Session C → outcome StepError A * Session C),
    let o := match guard s with (Throw e, s') => (Throw e, s') | (Ret _, s') => k s' end in
    thrown o.1 = Some (se_lease_lost (ss_runId s)) ∧ left_alone s o.2 ∧
    db_usage (ss_db o.2) = db_usage (ss_db s) ∧ db_events (ss_db o.2) = db_events (ss_db s)) as Hg.
  { intros A k. unfold guard. destruct (Hh (ss_now s) (ss_leaseMs s)) as [E1 E2].
    destruct (heartbeat _ _ _ _ _) as [r c']. simpl in *. subst r. simpl. by split_and!. }
  assert (∀ d, thrown (store_recordStep d s).1 = Some (se_other ("Cannot append a step to run " +:+ ss_runId s +:+ ": lease not held.")) ∧
    left_alone s (store_recordStep d s).2 ∧ db_usage (ss_db (store_recordStep d s).2) = db_usage (ss_db s) ∧
    db_events (ss_db (store_recordStep d s).2) = db_events (ss_db s)) as Hstep.
  { intros d. unfold store_recordStep, appendStep. destruct (Hres (ss_workspaceId s)) as [E1 E2].
    destruct (reserve_step _ _ _ _) as [r c']. simpl in *. subst r. simpl. by split_and!. }
  destruct w as [am|ids b|d|r|c u|e]; cbn [store_do].
  - pose proof (Hg _ (λ s', let '(r, db) := conv_appendMessage (ss_conversationId s')
      ("msg_" +:+ ss_newId s' (length (db_messages (ss_db s')))) (ss_runId s') (ss_now s') am (ss_db s') in (r, with_db db s'))) as Hx.
    change (match guard s with (Ret _, s') => _ | (Throw e, s') => _ end) with (store_appendMessage am s) in Hx.
    destruct (store_appendMessage am s); naive_solver.
  - pose proof (Hg _ (λ s', (Ret (), match ids with [] => s' | _ :: _ => with_db (supersedeMessages (ss_conversationId s') ids b (ss_db s')) s' end))) as Hx.
    change (match guard s with (Ret _, s') => _ | (Throw e, s') => _ end) with (store_supersede ids b s) in Hx.
    destruct (store_supersede ids b s); naive_solver.
  - pose proof (Hstep d) as Hx. destruct (store_recordStep d s); naive_solver.
  - unfold store_saveToolResult. match goal with |- context [store_recordStep ?d s] => pose proof (Hstep d) as Hx; destruct (store_recordStep d s) end; naive_solver.
  - unfold store_saveConsumption. cbn [snd]. destruct (_ || _); simpl; (split; [split; simpl; try done; first [apply Hcons|by apply prefix_app_r]|]); eauto.
  - unfold store_publish, appendEvent. destruct (existsb _ _); simpl; (split; [split; simpl; try done; by apply prefix_app_r|]); eauto.
Qed.

(** C7.  An executor whose lease is gone cannot touch the conversation or the run,
    whatever it goes on to write and however often: every message, superseded mark,
    sequence counter, step and run document is as it was.  Appending a message and
    superseding throw the lost lease, recording a step and saving a tool result throw
    that the lease is not held, and none of these adds anything anywhere.  Two writes are
    not fenced, although the store's header says every write is: saving the consumption
    still appends to the usage ledger (at most the one entry for what was used since the
    last save) and publishing still appends its event, and that is all they do. *)
Theorem store_is_fenced s writes w :
  session_ok s → not_held (ss_leaseToken s) (ss_runId s) (db_runs (ss_db s)) →
  let after := fold_left (λ s w, (store_do w s).2) writes s in
  left_alone s (store_do w after).2 ∧ refused_write w after.
Proof.
  intros Hok Hn after.
  assert (left_alone s after) as Ha.
  { subst after. revert s Hok Hn. induction writes as [|x writes IH]; intros s Hok Hn; cbn [fold_left]; [apply left_alone_refl|].
    destruct (write_refused x s Hok Hn) as [Hl _]. eapply left_alone_trans; [done|].
    apply IH; [by eapply left_alone_ok|by eapply left_alone_held]. }
  destruct (write_refused w after) as [Hl Hr]; [by eapply left_alone_ok|by eapply left_alone_held|].
  split; [by eapply left_alone_trans|done].
Qed.
End StoreLaws.

(** ** Charging a run *)

Section Charging.
Context {C : Type} `{CollectionLaws RunDoc C}.

(** The lease is held and the run is in the session's workspace. *)
Definition owns (s : Session C) (d : RunDoc) : Prop :=
  docs (db_runs (ss_db s)) !! ss_runId s = Some d ∧ holds_token (ss_leaseToken s) d = true ∧
  sp_workspaceId (run_spec d) = ss_workspaceId s.

Definition save_all (saves : list (RunConsumption * Usage)) (s : Session C) : Session C :=
  fold_left (λ s cu, (store_saveConsumption cu.1 cu.2 s).2) saves s.

(** What the run was charged between two states of the session. *)
Definition charged (s s' : Session C) (d d' : RunDoc) : Prop :=
  c_steps (run_consumed d') = c_steps (run_consumed d) + (c_steps (ss_lastSaved s') - c_steps (ss_lastSaved s)) ∧
  c_toolCalls (run_consumed d') =
    c_toolCalls (run_consumed d) + (c_toolCalls (ss_lastSaved s') - c_toolCalls (ss_lastSaved s)) ∧
  c_tokens (run_consumed d') = c_tokens (run_consumed d) + (c_tokens (ss_lastSaved s') - c_tokens (ss_lastSaved s)) ∧
  (c_costUsd (run_consumed d') ==
    c_costUsd (run_consumed d) + (c_costUsd (ss_lastSaved s') - c_costUsd (ss_lastSaved s)))%Q ∧
  run_usage d' = addUsage (run_usage d) (subtractUsage (ss_lastUsage s') (ss_lastUsage s)).

Lemma save_charges s d consumed usage :
  owns s d →
  let s' := (store_saveConsumption consumed usage s).2 in
  ∃ d', owns s' d' ∧ charged s s' d d' ∧ c_wallClockMs (run_consumed d') = c_wallClockMs (run_consumed d) ∧
    ss_lastSaved s' = consumed ∧ ss_lastUsage s' = usage.
Proof.
  intros (Hd & Ht & Hw). unfold store_saveConsumption. cbn [snd].
  match goal with |- context [recordConsumption ?ws ?i ?t ?dl ?u ?r] => set (delta := dl); set (c' := recordConsumption ws i t dl u r) end.
  assert (docs c' !! ss_runId s = Some (inc_consumption delta (Some (subtractUsage usage (ss_lastUsage s))) d)) as Hc'.
  { unfold c', recordConsumption.
    match goal with |- context [updateOne ?i ?p ?f ?r] => destruct (updateOne_hit i p f r d) as [_ ->] end; [done| |by rewrite lookup_insert_eq].
    unfold scoped. by rewrite Ht, Hw, String.eqb_refl. }
  exists (inc_consumption delta (Some (subtractUsage usage (ss_lastUsage s))) d).
  destruct (_ || _); (split; [split_and!; [exact Hc'|done..]|]); split_and!; try done; simpl; reflexivity.
Qed.

(** Spend is charged exactly once: after any number of saves of the running
    totals, while the lease is held, the run document has grown by the last
    total minus the one the session started from, in every counter and in the
    token usage; nothing is counted twice and nothing is lost.  The wall clock
    alone is never written. *)
Theorem consumption_is_charged_once s d saves :
  owns s d →
  ∃ d', owns (save_all saves s) d' ∧ charged s (save_all saves s) d d' ∧
    c_wallClockMs (run_consumed d') = c_wallClockMs (run_consumed d) ∧
    (∀ c u, last saves = Some (c, u) → ss_lastSaved (save_all saves s) = c ∧ ss_lastUsage (save_all saves s) = u).
Proof.
  revert s d. induction saves as [|[c u] saves IH]; intros s d Hown; simpl.
  { exists d. split_and!; try done; unfold charged; split_and!; try lia; [ring|].
    destruct (run_usage d), (ss_lastUsage s). unfold addUsage, subtractUsage. simpl. f_equal; lia. }
  destruct (save_charges s d c u Hown) as (d1 & Hown1 & Hch1 & Hw1 & Hs1 & Hu1). simpl in *.
  destruct (IH _ d1 Hown1) as (d2 & Hown2 & Hch2 & Hw2 & Hlast). exists d2. split_and!; try done.
  - destruct Hch1 as (A1 & A2 & A3 & A4 & A5), Hch2 as (B1 & B2 & B3 & B4 & B5). unfold charged. split_and!; try lia.
    + rewrite B4, A4. ring.
    + rewrite B5, A5. destruct (run_usage d), (ss_lastUsage s), (ss_lastUsage (store_saveConsumption c u s).2),
        (ss_lastUsage (save_all saves (store_saveConsumption c u s).2)).
      unfold addUsage, subtractUsage. simpl. f_equal; lia.
  - congruence.
  - intros c' u'. destruct saves as [|cu saves]; [|exact (Hlast c' u')]. intros [= <- <-]. split; [exact Hs1|exact Hu1].
Qed.
End Charging.

(** ** Concrete sessions *)

Abbreviation run_map := (gmap string RunDoc).

Definition claimed_run : RunDoc := claim_update 1 "exec_1" "lse_1" 1000 (new_run "run_1" sample_spec None 0).

Definition sample_db (events : list EventDoc) (messages : list Message) : Db run_map := {|
  db_runs := {["run_1" := claimed_run]}; db_nextSeq := {["cnv_1" := 2]}; db_messages := messages;
  db_steps := []; db_events := events; db_usage := [] |}.

Definition sample_user_message : Message := {|
  m_id := "msg_0"; m_conversationId := "cnv_1"; m_seq := 1; m_role := RUser; m_content := [BText "Book it."];
  m_providerArtifacts := None; m_runId := None; m_tokenEstimate := None; m_createdAt := 0; m_supersededBy := None |}.

Definition sample_session (events : list EventDoc) : Session run_map :=
  openSession (sample_db events [sample_user_message]) claimed_run "lse_1" 1000 2 (λ n, pretty (Z.of_nat n)).

Lemma sample_session_ok events : session_ok (sample_session events).
Proof.
  split.
  - intros m Hm _. apply list_elem_of_singleton in Hm as ->. exists 2. split; [reflexivity|]. simpl. lia.
  - intros d Hd. by apply elem_of_nil in Hd.
  - intros id r. simpl. intros Hr. apply lookup_singleton_Some in Hr as [<- <-]. reflexivity.
Qed.

Lemma consumption_is_charged_once_witness :
  let total n := {| c_steps := n; c_toolCalls := 0; c_tokens := 100 * n; c_wallClockMs := 5; c_costUsd := 0 |} in
  ∃ d', owns (save_all [(total 1, emptyUsage); (total 2, emptyUsage)] (sample_session [])) d' ∧
    c_steps (run_consumed d') = 2 ∧ c_tokens (run_consumed d') = 200.
Proof.
  intros total.
  destruct (consumption_is_charged_once (sample_session []) claimed_run
              [(total 1, emptyUsage); (total 2, emptyUsage)]) as (d' & Hown & (H1 & _ & H3 & _) & _ & _).
  - split_and!; reflexivity.
  - exists d'. split_and!; [exact Hown|exact H1|exact H3].
Defined.

(** The run was claimed by somebody else in the meantime. *)
Definition stolen_session : Session run_map :=
  with_db (with_runs {["run_1" := claim_update 5000 "exec_2" "lse_2" 1000 claimed_run]} (ss_db (sample_session []))) (sample_session []).
Definition spent_tokens : Usage := {| inputTokens := 10; outputTokens := 5; cacheReadTokens := 0; cacheWriteTokens := 0 |}.

Lemma store_is_fenced_witness :
  let answer := WAppend {| am_role := RTool; am_content := []; am_providerArtifacts := None; am_tokenEstimate := None |} in
  let after := fold_left (λ s w, (store_do w s).2) [WConsumption emptyConsumption spent_tokens] stolen_session in
  (store_do answer after).1 = Some (se_lease_lost "run_1") ∧
  db_messages (ss_db (store_do answer after).2) = [sample_user_message].
Proof.
  intros answer after. destruct (store_is_fenced stolen_session [WConsumption emptyConsumption spent_tokens] answer) as [[_ _ Hm _ _ _ _] Hr].
  - split; simpl.
    + intros m Hm _. apply list_elem_of_singleton in Hm as ->. exists 2. split; [reflexivity|]. simpl. lia.
    + intros d Hd. by apply elem_of_nil in Hd.
    + intros id r Hr. apply lookup_singleton_Some in Hr as [<- <-]. reflexivity.
  - intros d Hd. vm_compute in Hd. injection Hd as <-. reflexivity.
  - split; [exact (proj1 Hr)|exact Hm].
Defined.

(** The two writes that are not fenced land although the run belongs to another executor. *)
Example unfenced_writes_still_land :
  let s1 := (store_do (WConsumption emptyConsumption spent_tokens) stolen_session).2 in
  let s2 := (store_do (WPublish (re_run_finished end_turn)) s1).2 in
  db_usage (ss_db s2) = [("mb_1", spent_tokens, 0 - 0)%Q] ∧ map ev_event (db_events (ss_db s2)) = [re_run_finished end_turn].
Proof. split; vm_compute; reflexivity. Qed.

(** ** Steps on the database-backed store *)

Definition sample_ctx (budget : RunBudget) : RunContext := {|
  rx_runId := "run_1"; rx_workspaceId := "ws_1"; rx_conversationId := "cnv_1"; rx_agentId := "agt_1";
  rx_agentSnapshot := sp_agentSnapshot sample_spec; rx_modelBindingId := "mb_1"; rx_providerKey := "vendor:m-1";
  rx_capabilities := {| mc_modelId := "m-1"; mc_maxInputTokens := 100000; mc_maxOutputTokens := 100;
    mc_tools := {| ts_supported := true; ts_parallelCalls := false; ts_forcedChoice := false; ts_maxTools := None;
                   ts_namePattern := λ _, true; ts_maxNameLength := 64; ts_strictMode := false |};
    mc_promptCache := {| pc_supported := false; pc_strategy := no_cache; pc_maxBreakpoints := None;
                         pc_minPrefixTokens := None |}; mc_reasoning := no_reasoning |};
  rx_principal := PUser "usr_1" "ws_1" member; rx_budget := budget; rx_consumed := emptyConsumption;
  rx_stepSeq := 1 |}.

Definition sample_resolved (budget : RunBudget) : ResolvedRun := {|
  rr_ctx := sample_ctx budget; rr_attemptsFor := λ _, [("m-1", ModelCall.primary)]; rr_rates := None;
  rr_bindingIdByAlias := ∅; rr_systemDirectives := []; rr_maxOutputTokens := 100 |}.

(** The model keeps asking for one more tool call and uses 150 tokens a time. *)
Definition sample_env (turn : string) (gateway : RequestedCall → outcome string ToolOutcome) : StepEnv := {|
  env_killSwitch := None; env_available := Ret []; env_gateway := gateway; env_elapsed := λ _, 0;
  env_callOptions := ModelCall.DEFAULTS;
  env_generate := λ _ _, {| ModelCall.st_events :=
    [ev_finish tool_use [BToolUse turn "cal__add" (VString turn)] None
       {| inputTokens := 100; outputTokens := 50; cacheReadTokens := 0; cacheWriteTokens := 0 |}];
    ModelCall.st_thrown := None |};
  env_random := λ _, 0%Q; env_summarise := None;
  env_compaction := {| Compaction.cp_threshold := None; Compaction.cp_target := None; Compaction.cp_keepRecent := None |};
  env_times := {| tm_meter := 2; tm_check := 2; tm_phase := 2; tm_tokens := 2; tm_save := 3; tm_latency := 1 |} |}.

Definition start (events : list EventDoc) : RuntimeState (S := Session run_map) :=
  {| rt_store := sample_session events; rt_detector := new_detector None None |}.

Definition ok_gateway (_ : RequestedCall) : outcome string ToolOutcome := Ret ok_result.

(** What the run document says was consumed. *)
Definition persisted (st : RuntimeState (S := Session run_map)) : option RunConsumption :=
  run_consumed <$> (db_runs (ss_db (rt_store st)) !! "run_1").

Definition one_step_budget : RunBudget := {|
  maxSteps := 1; maxToolCalls := 48; maxTotalTokens := 160; maxWallClockMs := 900000; maxCostUsd := 2;
  maxMrtrRounds := 4; maxSubagentDepth := 2 |}.

(** Within a slice the budget is measured against the consumption at claim
    time, so spend does not add up across steps.  With a budget of one step and
    160 tokens, a model call (150 tokens), a tool phase and a second model call
    are all admitted in one slice; and the tool phase writes back the totals it
    started from, so after it the run document says nothing was consumed. *)
Theorem budget_restarts_with_every_step :
  let resolved := sample_resolved one_step_budget in
  let r1 := stepOnce resolved (sample_env "t1" ok_gateway) (start []) in
  let r2 := stepOnce resolved (sample_env "t2" ok_gateway) r1.2 in
  let r3 := stepOnce resolved (sample_env "t3" ok_gateway) r2.2 in
  r1.1 = Ret (so_continue did_model_call) ∧ c_tokens <$> persisted r1.2 = Some 150 ∧
  r2.1 = Ret (so_continue did_tool_phase) ∧ c_tokens <$> persisted r2.2 = Some 0 ∧ c_steps <$> persisted r2.2 = Some 0 ∧
  r3.1 = Ret (so_continue did_model_call) ∧ c_steps <$> persisted r3.2 = Some 1.
Proof. split_and!; vm_compute; reflexivity. Qed.

(** A session resumed on a run that already published two events restarts
    the sequence at the second one's number: the lookup asks for one event in
    ascending order and so finds the first.  The first event it publishes is
    refused by the unique index, and the step throws before the model is
    called. *)
Theorem resumed_session_reuses_event_numbers :
  let prior := [{| ev_runId := "run_1"; ev_seq := 0; ev_event := re_step_started 1 "f" |};
                {| ev_runId := "run_1"; ev_seq := 1; ev_event := re_run_suspended sr_approval None |}] in
  ss_eventSeq (sample_session prior) = 1 ∧
  (∀ e, (store_publish e (sample_session prior)).1 = Throw (se_other "E11000 duplicate key")) ∧
  (stepOnce (sample_resolved DEFAULT_BUDGET) (sample_env "t1" ok_gateway) (start prior)).1 =
    Throw (se_other "E11000 duplicate key").
Proof. split; [reflexivity|]. split; [intros e; reflexivity|]. vm_compute. reflexivity. Qed.

(** ** Witnesses of the runtime's theorems on this store *)

Definition model_called : RuntimeState (S := Session run_map) :=
  (stepOnce (sample_resolved DEFAULT_BUDGET) (sample_env "t1" ok_gateway) (start [])).2.

Lemma start_ok events : store_ok (rt_store (start events)).
Proof. apply sample_session_ok. Qed.

Lemma step_fits_the_conversation_witness :
  ∃ m, last (loadMessages (rt_store model_called)) = Some m ∧ m_role m = RAssistant.
Proof.
  destruct (step_fits_the_conversation (sample_resolved DEFAULT_BUDGET) (sample_env "t1" ok_gateway) (start [])
              (so_continue did_model_call) model_called) as (m & Hl & _ & Hr & _).
  - apply start_ok.
  - vm_compute. reflexivity.
  - exists m. split; [exact Hl|exact Hr].
Defined.

Definition stopped_env : StepEnv := {|
  env_killSwitch := Some "paused by an operator"; env_available := Ret []; env_gateway := ok_gateway;
  env_elapsed := λ _, 0; env_callOptions := ModelCall.DEFAULTS;
  env_generate := env_generate (sample_env "t1" ok_gateway); env_random := λ _, 0%Q; env_summarise := None;
  env_compaction := env_compaction (sample_env "t1" ok_gateway);
  env_times := env_times (sample_env "t1" ok_gateway) |}.

Lemma guards_come_first_witness :
  ∃ o, (stepOnce (sample_resolved DEFAULT_BUDGET) stopped_env (start [])).1 = Ret o ∧
    o = so_stopped stop_kill_switch "paused by an operator" (lastAssistantText (loadMessages (rt_store (start [])))).
Proof.
  destruct (guards_come_first (sample_resolved DEFAULT_BUDGET) stopped_env (start [])
              stop_kill_switch "paused by an operator") as (_ & _ & Ho & _).
  - apply start_ok.
  - left. split; reflexivity.
  - eexists. split; [vm_compute; reflexivity|]. apply Ho. vm_compute. reflexivity.
Defined.

(** The assistant's message asked for a tool; nothing was executed yet. *)
Definition pending_message : Message := {|
  m_id := "msg_1"; m_conversationId := "cnv_1"; m_seq := 2; m_role := RAssistant;
  m_content := [BToolUse "t1" "cal__add" (VString "t1")]; m_providerArtifacts := None; m_runId := Some "run_1";
  m_tokenEstimate := None; m_createdAt := 0; m_supersededBy := None |}.

Definition pending_state : RuntimeState (S := Session run_map) := {|
  rt_store := with_db (with_messages {["cnv_1" := 3]} [sample_user_message; pending_message] (sample_db [] []))
                (sample_session []);
  rt_detector := new_detector None None |}.

Lemma pending_state_ok : store_ok (rt_store pending_state).
Proof.
  destruct (sample_session_ok []) as [_ Hs Hi]. split; [|done..].
  intros m Hm _. exists 3. split; [reflexivity|]. apply elem_of_list_2 in Hm as [-> | ->]; simpl; lia.
Qed.

Definition asking_gateway (_ : RequestedCall) : outcome string ToolOutcome :=
  Ret (to_needs_approval "apr_1" "policy").

Lemma suspended_step_keeps_results_witness :
  ∃ calls outcome ps pre call,
    pendingToolCalls (loadMessages (rt_store pending_state)) = Some calls ∧
    run asking_gateway (λ _, 0) DEFAULT_MAX_PARALLEL false (rt_detector pending_state) calls
      (completedToolCalls (rt_store pending_state)) = Some (outcome, ps) ∧
    ps_invoked ps = pre ++ [call].
Proof.
  destruct (suspended_step_keeps_results (sample_resolved DEFAULT_BUDGET) (sample_env "t1" asking_gateway)
              pending_state sr_approval (Some "apr_1")
              (stepOnce (sample_resolved DEFAULT_BUDGET) (sample_env "t1" asking_gateway) pending_state).2)
    as (calls & outcome & ps & pre & call & H1 & H2 & H3 & _).
  - apply pending_state_ok.
  - reflexivity.
  - vm_compute. reflexivity.
  - exists calls, outcome, ps, pre, call. split_and!; [exact H1|exact H2|exact H3].
Defined.
