(* ===== verification/Executor.v ===== *)
(** * The sliced executor

    Models packages/runtime/src/sliced-executor.ts.  The queue is the port of
    packages/core/src/ports/execution.ts, the class [RunQueuePort]; opening a
    session, one step of the runtime and the wake-up of the next slice are
    parameters.  The executor keeps a trace of what it asked of the queue and of
    the runtime.  Tracing spans and metrics are not modelled. *)
From S2P Require Import Prelude Json Entities Principal Budget Mongo RunQueue ToolPhase AgentRuntime.

(** What a queue operation throws. *)
Inductive QueueError :=
| qe_lease_lost
| qe_other (message : string).

Inductive ExecOutcome :=
| eo_finished (runId : string) (status : RunStatus) (error : option RunError)
| eo_suspended (runId : string) (reason : SuspendReason)
| eo_yielded (resumeAt : Z)
| eo_idle
| eo_lease_lost.

Inductive ExecEvent :=
| ee_heartbeat (ok : bool)
| ee_step (result : outcome StepError StepOutcome)
| ee_release (intent : ReleaseIntent) (ok : bool)
| ee_trigger.

(** The queue as the executor sees it, and the clock. *)
Class RunQueuePort (W : Type) := {
  port_now : W → Z;
  port_claim : string → Z → W → option ClaimedRun * W;
  port_heartbeat : string → string → Z → W → outcome QueueError unit * W;
  port_release : string → string → ReleaseIntent → W → outcome QueueError unit * W;
}.

Record ExecConfig := {
  ex_owner : string;
  ex_leaseMs : Z;
  ex_reserveMs : Z;
  ex_heartbeatEveryMs : Z;
}.
Definition EXEC_DEFAULTS (owner : string) : ExecConfig :=
  {| ex_owner := owner; ex_leaseMs := 120000; ex_reserveMs := DEFAULT_RESERVE_MS; ex_heartbeatEveryMs := 30000 |}.

Definition statusFor (reason : SuspendReason) : RunStatus :=
  match reason with sr_approval => waiting_approval | sr_input => waiting_input | sr_tool => waiting_tool end.

(** [code: step.reason]. *)
Definition stop_code (r : StopReason) : string :=
  match r with
  | stop_budget => "budget" | stop_loop => "loop" | stop_kill_switch => "kill_switch"
  | stop_model_error => "model_error" | stop_compaction_stuck => "compaction_stuck"
  end.

Definition step_error_message (e : StepError) : string :=
  match e with
  | se_lease_lost id => "Lease lost for run " +:+ id
  | se_other m => m
  end.

Section Executor.
Context {W : Type} `{RunQueuePort W} {Sess : Type}.
Context (openSession : RunDoc → string → W → outcome StepError Sess * W).
Context (step : Sess → W → outcome StepError StepOutcome * W).
Context (trigger : string → W → outcome string unit * W).
Context (cfg : ExecConfig).

(** A result, the world and the trace; exceptions of the queue escape. *)
Definition exec_result : Type := outcome QueueError ExecOutcome * W * list ExecEvent.

(** [#triggerQuietly]: an exception is swallowed. *)
Definition triggerQuietly (runId : string) (w : W) : W := (trigger runId w).2.

Definition finish_run (runId token : string) (status : RunStatus) (error : option RunError) (w : W)
    (tr : list ExecEvent) : exec_result :=
  match port_release runId token (finish status error) w with
  | (Ret _, w') => (Ret (eo_finished runId status error), w', tr ++ [ee_release (finish status error) true])
  | (Throw qe_lease_lost, w') => (Ret eo_lease_lost, w', tr ++ [ee_release (finish status error) false])
  | (Throw e, w') => (Throw e, w', tr ++ [ee_release (finish status error) false])
  end.

Definition fail_run (runId token : string) (e : StepError) (w : W) (tr : list ExecEvent) : exec_result :=
  finish_run runId token failed
    (Some {| e_code := "executor_error"; e_message := step_error_message e |}) w tr.

Definition yield_run (runId token : string) (w : W) (tr : list ExecEvent) : exec_result :=
  let resumeAt := port_now w in
  let intent := requeue resumeAt None in
  match port_release runId token intent w with
  | (Ret _, w') => (Ret (eo_yielded resumeAt), triggerQuietly runId w', tr ++ [ee_release intent true; ee_trigger])
  | (Throw qe_lease_lost, w') => (Ret eo_lease_lost, w', tr ++ [ee_release intent false])
  | (Throw e, w') => (Throw e, w', tr ++ [ee_release intent false])
  end.

(** The [suspended] case: the release is not wrapped. *)
Definition suspend_run (runId token : string) (reason : SuspendReason) (w : W) (tr : list ExecEvent) : exec_result :=
  let intent := suspend (statusFor reason) in
  match port_release runId token intent w with
  | (Ret _, w') => (Ret (eo_suspended runId reason), w', tr ++ [ee_release intent true])
  | (Throw e, w') => (Throw e, w', tr ++ [ee_release intent false])
  end.

(** The heartbeat at the top of an iteration: the new time of the last one, or
    how the slice ends. *)
Definition beat (runId token : string) (lastHeartbeat : Z) (w : W) (tr : list ExecEvent)
    : Z * W * list ExecEvent + exec_result :=
  if ex_heartbeatEveryMs cfg <=? port_now w - lastHeartbeat then
    match port_heartbeat runId token (ex_leaseMs cfg) w with
    | (Ret _, w') => inl (port_now w', w', tr ++ [ee_heartbeat true])
    | (Throw qe_lease_lost, w') => inr (Ret eo_lease_lost, w', tr ++ [ee_heartbeat false])
    | (Throw e, w') => inr (Throw e, w', tr ++ [ee_heartbeat false])
    end
  else inl (lastHeartbeat, w, tr).

(** The [for (;;)] of [#loop]; [None] when the fuel is used up. *)
Fixpoint loop (fuel : nat) (deadline : WallClockDeadline) (runId token : string) (session : Sess)
    (lastHeartbeat : Z) (w : W) (tr : list ExecEvent) : option exec_result :=
  match fuel with
  | O => None
  | S fuel' =>
      if deadline_expired deadline (port_now w) (ex_reserveMs cfg) then Some (yield_run runId token w tr)
      else
        match beat runId token lastHeartbeat w tr with
        | inr r => Some r
        | inl (hb, w1, tr1) =>
            let '(result, w2) := step session w1 in
            let tr2 := tr1 ++ [ee_step result] in
            match result with
            | Throw (se_lease_lost _) => Some (Ret eo_lease_lost, w2, tr2)
            | Throw e => Some (fail_run runId token e w2 tr2)
            | Ret (so_continue _) => loop fuel' deadline runId token session hb w2 tr2
            | Ret (so_finished _) => Some (finish_run runId token succeeded None w2 tr2)
            | Ret (so_suspended reason _) => Some (suspend_run runId token reason w2 tr2)
            | Ret (so_stopped reason message _) =>
                Some (finish_run runId token failed (Some {| e_code := stop_code reason; e_message := message |}) w2 tr2)
            end
        end
  end.

(** [#loop] from the opening of the session. *)
Definition drive (fuel : nat) (deadline : WallClockDeadline) (run : RunDoc) (token : string) (w : W)
    : option exec_result :=
  match openSession run token w with
  | (Throw (se_lease_lost _), w') => Some (Ret eo_lease_lost, w', [])
  | (Throw e, w') => Some (fail_run (run_id run) token e w' [])
  | (Ret session, w') => loop fuel deadline (run_id run) token session (port_now w') w' []
  end.

Definition execute (fuel : nat) (deadline : WallClockDeadline) (w : W)
    : outcome TimeoutError (option exec_result) :=
  match assertReserveFits (remainingMs deadline (port_now w)) (ex_reserveMs cfg) with
  | Throw e => Throw e
  | Ret _ =>
      Ret match port_claim (ex_owner cfg) (ex_leaseMs cfg) w with
          | (None, w') => Some (Ret eo_idle, w', [])
          | (Some claimed, w') => drive fuel deadline (cr_run claimed) (cr_leaseToken claimed) w'
          end
  end.

(** ** How a slice ends *)

(** Heartbeats that succeeded and steps that left more to do. *)
Definition working (e : ExecEvent) : Prop :=
  e = ee_heartbeat true ∨ ∃ did, e = ee_step (Ret (so_continue did)).

(** What ends a run, the last step if there was one, and how it is recorded. *)
Definition why_finished (pre : list ExecEvent) (status : RunStatus) (error : option RunError) : Prop :=
  match pre with
  | [] => status = failed
  | [ee_step (Ret (so_finished _))] => status = succeeded ∧ error = None
  | [ee_step (Ret (so_stopped reason message _))] =>
      status = failed ∧ error = Some {| e_code := stop_code reason; e_message := message |}
  | [ee_step (Throw e)] =>
      status = failed ∧ error = Some {| e_code := "executor_error"; e_message := step_error_message e |}
  | _ => False
  end.

(** The events after the last working one, for each result. *)
Definition ending (runId : string) (r : outcome QueueError ExecOutcome) (tail : list ExecEvent) : Prop :=
  match r with
  | Ret (eo_finished id status error) => id = runId ∧
      ∃ pre, tail = pre ++ [ee_release (finish status error) true] ∧
        why_finished pre status error
  | Ret (eo_suspended id reason) => id = runId ∧
      ∃ approvalId, tail = [ee_step (Ret (so_suspended reason approvalId)); ee_release (suspend (statusFor reason)) true]
  | Ret (eo_yielded at_) => tail = [ee_release (requeue at_ None) true; ee_trigger]
  | Ret eo_lease_lost =>
      tail = [] ∨ tail = [ee_heartbeat false] ∨ (∃ id, tail = [ee_step (Throw (se_lease_lost id))]) ∨
      ∃ pre i, tail = pre ++ [ee_release i false] ∧ Forall (λ e, ∃ x, e = ee_step x) pre
  | Ret eo_idle => False
  | Throw _ => ∃ pre e, tail = pre ++ [e] ∧ (e = ee_heartbeat false ∨ ∃ i, e = ee_release i false) ∧
      Forall (λ e, ∃ x, e = ee_step x) pre
  end.

Definition slice_ok (runId : string) (tr : list ExecEvent) (res : exec_result) : Prop :=
  ∃ body tail, res.2 = tr ++ body ++ tail ∧ Forall working body ∧ ending runId res.1.1 tail.

Definition is_step (e : ExecEvent) : Prop := ∃ x, e = ee_step x.

Lemma why_finished_steps pre status error : why_finished pre status error → Forall is_step pre.
Proof.
  destruct pre as [|e pre]; [constructor|]. destruct e as [|r| |]; simpl; try done.
  destruct pre as [|e' pre]; [intros; repeat constructor; by eexists|]. by destruct r as [[]|].
Qed.

Lemma slice_ok_tail runId tr tail (r : outcome QueueError ExecOutcome) w :
  ending runId r tail → slice_ok runId tr (r, w, tr ++ tail).
Proof. intros He. by exists [], tail. Qed.

Lemma finish_run_ok runId token status error w tr pre :
  why_finished pre status error → slice_ok runId tr (finish_run runId token status error w (tr ++ pre)).
Proof.
  intros Hpre. pose proof (why_finished_steps _ _ _ Hpre) as Hst.
  unfold finish_run. destruct (port_release _ _ _ w) as [[u|[|m]] w']; rewrite <-app_assoc; apply slice_ok_tail; simpl.
  - split; [done|]. by exists pre.
  - do 3 right. by exists pre, (finish status error).
  - eexists pre, _. split_and!; [done|right; by eexists|done].
Qed.

Lemma yield_run_ok runId token w tr : slice_ok runId tr (yield_run runId token w tr).
Proof.
  unfold yield_run. destruct (port_release _ _ _ w) as [[u|[|m]] w']; apply slice_ok_tail; simpl.
  - done.
  - do 3 right. by eexists [], _.
  - eexists [], _. split_and!; [done|right; by eexists|done].
Qed.

Lemma suspend_run_ok runId token reason approvalId w tr :
  slice_ok runId tr (suspend_run runId token reason w (tr ++ [ee_step (Ret (so_suspended reason approvalId))])).
Proof.
  unfold suspend_run. destruct (port_release _ _ _ w) as [[u|e] w']; rewrite <-app_assoc; apply slice_ok_tail; simpl.
  - split; [done|]. by exists approvalId.
  - eexists [_], _. split_and!; [done|right; by eexists|]. repeat constructor. by eexists.
Qed.

Lemma slice_ok_extend runId tr body res :
  Forall working body → slice_ok runId (tr ++ body) res → slice_ok runId tr res.
Proof.
  intros Hb (body' & tail & E & Hb' & He). exists (body ++ body'), tail. rewrite E, <-!app_assoc.
  split_and!; [done|by apply Forall_app|done].
Qed.

(** The heartbeat either goes on, in working order, or ends the slice. *)
Lemma beat_ok runId token hb w tr :
  match beat runId token hb w tr with
  | inl (_, _, tr1) => ∃ body, tr1 = tr ++ body ∧ Forall working body
  | inr res => slice_ok runId tr res
  end.
Proof.
  unfold beat. destruct (_ <=? _); [|exists []; by rewrite app_nil_r].
  destruct (port_heartbeat _ _ _ w) as [[u|[|m]] w'].
  - exists [ee_heartbeat true]. split; [done|]. repeat constructor.
  - apply slice_ok_tail. simpl. auto.
  - apply slice_ok_tail. simpl. exists [], (ee_heartbeat false). auto.
Qed.

Lemma loop_ok fuel deadline runId token session hb w tr res :
  loop fuel deadline runId token session hb w tr = Some res → slice_ok runId tr res.
Proof.
  revert hb w tr. induction fuel as [|fuel IH]; intros hb w tr; simpl; [done|].
  destruct (deadline_expired _ _ _); [intros [= <-]; apply yield_run_ok|].
  pose proof (beat_ok runId token hb w tr) as Hb.
  destruct (beat _ _ _ _ _) as [[[hb1 w1] tr1]|r]; [|by intros [= <-]].
  destruct Hb as (body & -> & Hbody). destruct (step session w1) as [result w2].
  intros Hl. apply (slice_ok_extend _ _ body); [done|].
  destruct result as [[did|text|reason a|reason m t]|[id|m]]; simplify_eq.
  - apply (slice_ok_extend _ _ [ee_step (Ret (so_continue did))]); [|by apply IH in Hl].
    apply Forall_singleton. right. by eexists.
  - by apply finish_run_ok.
  - apply suspend_run_ok.
  - by apply finish_run_ok.
  - apply slice_ok_tail. simpl. eauto.
  - by apply finish_run_ok.
Qed.

(** A slice ends in one way and says which.  Whatever it did before was
    heartbeats that succeeded and steps with more to do; the result then names
    the single release it made, and no step follows a failed heartbeat, a
    refused write or a release.  A finished run was released with the status and
    error its last step called for, a suspended one with the matching waiting
    status, a yielded one was requeued before the next slice was woken, and a
    slice that lost its lease released nothing. *)
Theorem slice_ends_as_it_says fuel deadline run token w res :
  drive fuel deadline run token w = Some res →
  ∃ body tail, res.2 = body ++ tail ∧ Forall working body ∧ ending (run_id run) res.1.1 tail.
Proof.
  unfold drive. destruct (openSession run token w) as [[session|[id|m]] w']; intros Hd.
  - apply loop_ok in Hd as (body & tail & ? & ? & ?). by exists body, tail.
  - injection Hd as <-. exists [], []. split_and!; [done|constructor|by left].
  - injection Hd as <-.
    destruct (finish_run_ok (run_id run) token failed
      (Some {| e_code := "executor_error"; e_message := step_error_message (se_other m) |}) w' [] [])
      as (body & tail & ? & ? & ?); [done|]. by exists body, tail.
Qed.

(** *** Why a slice reports what it reports *)

(** The status a suspended run waits in, and the code a stop is recorded with. *)
Definition waiting_for : list (SuspendReason * RunStatus) := [(sr_approval, waiting_approval); (sr_input, waiting_input); (sr_tool, waiting_tool)].
Definition stop_names : list (StopReason * string) :=
  [(stop_budget, "budget"); (stop_loop, "loop"); (stop_kill_switch, "kill_switch"); (stop_model_error, "model_error"); (stop_compaction_stuck, "compaction_stuck")].

(** What called for a finish: the last step, or the opening of the session, that ended in
    the world [w0]. *)
Definition called_for (run : RunDoc) (token : string) (w : W) (status : RunStatus) (error : option RunError) (w0 : W) : Prop :=
  (∃ session w1 text, step session w1 = (Ret (so_finished text), w0) ∧ status = succeeded ∧ error = None) ∨
  (∃ session w1 reason message text code, step session w1 = (Ret (so_stopped reason message text), w0) ∧ (reason, code) ∈ stop_names ∧
     status = failed ∧ error = Some {| e_code := code; e_message := message |}) ∨
  (∃ message, ((∃ session w1, step session w1 = (Throw (se_other message), w0)) ∨ openSession run token w = (Throw (se_other message), w0)) ∧
     status = failed ∧ error = Some {| e_code := "executor_error"; e_message := message |}).

Definition justified (run : RunDoc) (token : string) (w : W) (res : exec_result) : Prop :=
  match res.1.1 with
  | Ret (eo_finished id status error) => id = run_id run ∧
      ∃ w0 u, called_for run token w status error w0 ∧ port_release id token (finish status error) w0 = (Ret u, res.1.2)
  | Ret (eo_suspended id reason) => id = run_id run ∧
      ∃ session w1 approvalId w0 status u, step session w1 = (Ret (so_suspended reason approvalId), w0) ∧ (reason, status) ∈ waiting_for ∧
        port_release id token (suspend status) w0 = (Ret u, res.1.2)
  | _ => True
  end.

Lemma finish_justified run token w status error w0 tr :
  called_for run token w status error w0 → justified run token w (finish_run (run_id run) token status error w0 tr).
Proof. intros Hc. unfold finish_run, justified. destruct (port_release _ _ _ w0) as [[u|[|m]] w'] eqn:E; simpl; eauto 6. Qed.
Lemma suspend_justified run token w reason approvalId session w1 w0 tr :
  step session w1 = (Ret (so_suspended reason approvalId), w0) → justified run token w (suspend_run (run_id run) token reason w0 tr).
Proof.
  intros Hs. unfold suspend_run, justified. destruct (port_release _ _ _ w0) as [[u|e] w'] eqn:E; simpl; [|done]. split; [done|].
  exists session, w1, approvalId, w0, (statusFor reason), u. split_and!; [done| |done]. unfold waiting_for. destruct reason; simpl; set_solver.
Qed.
Lemma stop_named reason : (reason, stop_code reason) ∈ stop_names.
Proof. unfold stop_names. destruct reason; simpl; set_solver. Qed.

Lemma loop_justified fuel deadline run token w session hb wi tr res :
  loop fuel deadline (run_id run) token session hb wi tr = Some res → justified run token w res.
Proof.
  revert hb wi tr. induction fuel as [|fuel IH]; intros hb wi tr; simpl; [done|].
  destruct (deadline_expired _ _ _).
  { intros [= <-]. unfold yield_run, justified. by destruct (port_release _ _ _ wi) as [[u|[|m]] w']. }
  destruct (beat (run_id run) token hb wi tr) as [[[hb1 w1] tr1]|r] eqn:Eb; cycle 1.
  { intros [= <-]. unfold beat in Eb. destruct (_ <=? _); [|done]. destruct (port_heartbeat _ _ _ wi) as [[u|[|m]] w']; simplify_eq; done. }
  destruct (step session w1) as [result w2] eqn:Es.
  destruct result as [[did|text|reason a|reason m t]|[id|m]]; intros Hl; simplify_eq.
  - by eapply IH.
  - apply finish_justified. left. eauto 6.
  - by eapply suspend_justified.
  - apply finish_justified. right; left. exists session, w1, reason, m, t, (stop_code reason). split_and!; [done|apply stop_named|done..].
  - done.
  - apply finish_justified. right; right. exists m. split_and!; [left; eauto|done..].
Qed.

Lemma drive_justified fuel deadline run token w res : drive fuel deadline run token w = Some res → justified run token w res.
Proof.
  unfold drive. destruct (openSession run token w) as [[session|[id|m]] w'] eqn:Eo; [apply loop_justified|by intros [= <-]|].
  intros [= <-]. apply finish_justified. right; right. exists m. split_and!; [by right|done..].
Qed.

(** The release behind a result. *)
Definition released_by (runId token : string) (res : exec_result) : Prop :=
  match res.1.1 with
  | Ret (eo_finished id status error) =>
      id = runId ∧ ∃ w0 u, port_release runId token (finish status error) w0 = (Ret u, res.1.2)
  | Ret (eo_suspended id reason) =>
      id = runId ∧ ∃ w0 u, port_release runId token (suspend (statusFor reason)) w0 = (Ret u, res.1.2)
  | _ => True
  end.

Lemma finish_run_released runId token status error w tr :
  released_by runId token (finish_run runId token status error w tr).
Proof.
  unfold finish_run, released_by. destruct (port_release _ _ _ w) as [[u|[|m]] w'] eqn:E; simpl; eauto.
Qed.

Lemma loop_released fuel deadline runId token session hb w tr res :
  loop fuel deadline runId token session hb w tr = Some res → released_by runId token res.
Proof.
  revert hb w tr. induction fuel as [|fuel IH]; intros hb w tr; simpl; [done|].
  destruct (deadline_expired _ _ _).
  { intros [= <-]. unfold yield_run, released_by. by destruct (port_release _ _ _ w) as [[u|[|m]] w']. }
  destruct (beat runId token hb w tr) as [[[hb1 w1] tr1]|r] eqn:Eb; cycle 1.
  { intros [= <-]. unfold beat in Eb. destruct (_ <=? _); [|done].
    destruct (port_heartbeat _ _ _ w) as [[u|[|m]] w']; simplify_eq; done. }
  destruct (step session w1) as [result w2].
  destruct result as [[did|text|reason a|reason m t]|[id|m]]; intros Hl; simplify_eq;
    try apply finish_run_released; [by eapply IH| |done].
  unfold suspend_run, released_by. destruct (port_release _ _ _ w2) as [[u|e] w'] eqn:E; simpl; eauto.
Qed.

Lemma drive_released fuel deadline run token w res :
  drive fuel deadline run token w = Some res → released_by (run_id run) token res.
Proof.
  unfold drive. destruct (openSession run token w) as [[session|[id|m]] w']; [apply loop_released|..];
    intros [= <-]; [done|apply finish_run_released].
Qed.

(** *** The slice is finite *)

(** The clock never runs backwards, and a step takes at least a millisecond. *)
Definition clock_advances : Prop :=
  (∀ id tok ms w, port_now w <= port_now (port_heartbeat id tok ms w).2) ∧
  (∀ session w, port_now w < port_now (step session w).2).

Lemma beat_clock runId token hb w tr hb1 w1 tr1 :
  clock_advances → beat runId token hb w tr = inl (hb1, w1, tr1) → port_now w <= port_now w1.
Proof.
  intros [Hh _]. unfold beat. destruct (_ <=? _).
  - specialize (Hh runId token (ex_leaseMs cfg) w).
    destruct (port_heartbeat _ _ _ w) as [[u|[|m]] w']; try done. intros [= _ <- _]. done.
  - intros [= _ <- _]. done.
Qed.

(** C39.  A slice always ends: with a clock that advances, the loop returns after
    at most as many iterations as there are milliseconds left before the
    reserve, whatever the runtime and the queue answer. *)
Theorem slice_terminates deadline run token w :
  0 <= ex_reserveMs cfg → clock_advances → (∀ r t w, port_now w <= port_now (openSession r t w).2) →
  is_Some (drive (S (Z.to_nat (dl_endsAt deadline - ex_reserveMs cfg - port_now w))) deadline run token w).
Proof.
  intros Hres Hclk Hopen. unfold drive. specialize (Hopen run token w).
  destruct (openSession run token w) as [[session|[id|m]] w']; [|by eexists..]. simpl in Hopen.
  assert (∀ fuel hb w0 tr, (Z.to_nat (dl_endsAt deadline - ex_reserveMs cfg - port_now w0) < fuel)%nat →
    is_Some (loop fuel deadline (run_id run) token session hb w0 tr)) as Hloop; [|apply Hloop; lia].
  induction fuel as [|fuel IH]; intros hb w0 tr Hf; [lia|]. simpl.
  destruct (deadline_expired deadline (port_now w0) (ex_reserveMs cfg)) eqn:Ed; [by eexists|].
  destruct (beat (run_id run) token hb w0 tr) as [[[hb1 w1] tr1]|r] eqn:Eb; [|by eexists].
  apply beat_clock in Eb; [|done]. pose proof (proj2 Hclk session w1) as Hstep.
  destruct (step session w1) as [result w2]. simpl in Hstep.
  destruct result as [[]|[]]; try by eexists. apply IH.
  unfold deadline_expired, remainingMs in Ed. bool_prop. lia.
Qed.
End Executor.

(** ** The executor on the Mongo queue *)

(** The collection, the clock and the source of lease tokens. *)
Record World (C : Type) := { w_runs : C; w_now : Z; w_token : nat → string; w_claims : nat }.
Arguments w_runs {C}. Arguments w_now {C}. Arguments w_token {C}. Arguments w_claims {C}.

Section MongoExecutor.
Context {C : Type} `{CollectionLaws RunDoc C}.

Definition put_runs (w : World C) (c : C) (claims : nat) : World C :=
  {| w_runs := c; w_now := w_now w; w_token := w_token w; w_claims := claims |}.

#[global] Instance mongo_port : RunQueuePort (World C) := {
  port_now := w_now;
  port_claim owner ms w :=
    let '(r, c) := claim (w_now w) ("lse_" +:+ w_token w (w_claims w)) owner ms None (w_runs w) in
    (r, put_runs w c (S (w_claims w)));
  port_heartbeat id token ms w :=
    let '(r, c) := heartbeat (w_now w) id token ms (w_runs w) in
    (match r with Ret _ => Ret () | Throw _ => Throw qe_lease_lost end, put_runs w c (w_claims w));
  port_release id token intent w :=
    let '(r, c) := release (w_now w) id token intent (w_runs w) in
    (match r with Ret _ => Ret () | Throw _ => Throw qe_lease_lost end, put_runs w c (w_claims w));
}.

Context {Sess : Type}.
Context (openSession : RunDoc → string → World C → outcome StepError Sess * World C).
Context (step : Sess → World C → outcome StepError StepOutcome * World C).
Context (trigger : string → World C → outcome string unit * World C).
Context (cfg : ExecConfig).

Lemma port_release_on_file id token intent (w : World C) u w' :
  port_release id token intent w = (Ret u, w') →
  ∃ d0, docs (w_runs w) !! id = Some d0 ∧ holds_token token d0 = true ∧ docs (w_runs w') !! id = Some (release_update (w_now w) intent d0).
Proof.
  simpl. unfold release. destruct (updateOne_cases id (holds_token token) (release_update (w_now w) intent) (w_runs w))
    as [(d & Hd & Hp & E1 & E2)|(_ & E1 & _)]; destruct (updateOne _ _ _ _) as [b c']; simpl in *; subst b; [|done].
  intros [= _ <-]. exists d. split; [done|]. split; [done|]. simpl. by rewrite E2, lookup_insert_eq.
Qed.

(** C34.  What the executor reports is what the database says, and what the run's last
    step called for.  When a slice on the Mongo queue reports a run finished, its last
    step answered (succeeded, no error), stopped (failed, with the stop's own code and
    message) or threw, or the session could not be opened (failed, as an executor error
    with that message); the executor held the lease when it wrote, and the run document
    then carries that status, a finish time and no lease, and that error; a finish
    without an error leaves the error that was stored before.  When it reports a
    suspension, its last step suspended for the reported reason, and the document waits
    for an approval, for input or for a tool accordingly, without a lease, so no process
    holds the run. *)
Theorem reported_outcome_is_on_file fuel deadline run token (w : World C) r w' tr :
  drive openSession step trigger cfg fuel deadline run token w = Some (r, w', tr) →
  match r with
  | Ret (eo_finished id status error) => id = run_id run ∧
      ∃ w0 d0 d, called_for openSession step run token w status error w0 ∧
        docs (w_runs w0) !! id = Some d0 ∧ holds_token token d0 = true ∧
        docs (w_runs w') !! id = Some d ∧ run_status d = status ∧ run_lease d = None ∧ is_Some (run_finishedAt d) ∧
        run_error d = match error with Some e => Some e | None => run_error d0 end
  | Ret (eo_suspended id reason) => id = run_id run ∧
      ∃ session w1 approvalId w0 d0 status d, step session w1 = (Ret (so_suspended reason approvalId), w0) ∧ (reason, status) ∈ waiting_for ∧
        docs (w_runs w0) !! id = Some d0 ∧ holds_token token d0 = true ∧
        docs (w_runs w') !! id = Some d ∧ run_status d = status ∧ run_lease d = None
  | _ => True
  end.
Proof.
  intros Hd%drive_justified. unfold justified in Hd. cbn [fst snd] in Hd. destruct r as [[id status error|id reason|a| |]|e]; try done.
  - destruct Hd as (-> & w0 & u & Hc & Hr). split; [done|]. apply port_release_on_file in Hr as (d0 & Hd0 & Ht & Hd').
    exists w0, d0. eexists. split; [exact Hc|]. split; [exact Hd0|]. split; [exact Ht|]. split; [exact Hd'|]. destruct error as [e|]; simpl; split_and!; eauto.
  - destruct Hd as (-> & session & w1 & approvalId & w0 & status & u & Hs & Hw & Hr). split; [done|]. apply port_release_on_file in Hr as (d0 & Hd0 & Ht & Hd').
    exists session, w1, approvalId, w0, d0, status. eexists. by split_and!.
Qed.
End MongoExecutor.

(** ** A slice on a concrete queue *)

#[local] Abbreviation world := (World (gmap string RunDoc)).

(** One run, claimed at 1 under the first token. *)
Definition slice_run : RunDoc := claim_update 1 "exec_1" "lse_1" 120000 (new_run "run_1" sample_spec None 0).
Definition slice_world : world :=
  {| w_runs := {["run_1" := slice_run]}; w_now := 2; w_token := λ n, pretty n; w_claims := 1 |}.

Definition advance (w : world) : world :=
  {| w_runs := w_runs w; w_now := w_now w + 20000; w_token := w_token w; w_claims := w_claims w |}.

Definition slice_open (_ : RunDoc) (_ : string) (w : world) : outcome StepError unit * world := (Ret (), w).
(** Two steps that leave more to do, then the answer. *)
Definition slice_step (_ : unit) (w : world) : outcome StepError StepOutcome * world :=
  (Ret (if w_now w <? 40000 then so_continue did_model_call else so_finished "done"), advance w).
Definition slice_trigger (_ : string) (w : world) : outcome string unit * world := (Ret (), w).

Definition slice : option (@exec_result world) :=
  drive slice_open slice_step slice_trigger (EXEC_DEFAULTS "exec_1") 5 {| dl_endsAt := 240000 |} slice_run "lse_1"
    slice_world.

Lemma slice_ends_as_it_says_witness :
  ∃ res, slice = Some res ∧ res.1.1 = Ret (eo_finished "run_1" succeeded None) ∧
    ∃ body tail, res.2 = body ++ tail ∧ Forall working body ∧ ending "run_1" res.1.1 tail.
Proof.
  eexists. split; [vm_compute; reflexivity|]. split; [reflexivity|].
  apply (slice_ends_as_it_says slice_open slice_step slice_trigger (EXEC_DEFAULTS "exec_1") 5
    {| dl_endsAt := 240000 |} slice_run "lse_1" slice_world). vm_compute. reflexivity.
Defined.

Lemma slice_terminates_witness :
  is_Some (drive slice_open slice_step slice_trigger (EXEC_DEFAULTS "exec_1")
    (S (Z.to_nat (240000 - 45000 - 2))) {| dl_endsAt := 240000 |} slice_run "lse_1" slice_world).
Proof.
  pose proof (slice_terminates slice_open slice_step slice_trigger (EXEC_DEFAULTS "exec_1")
    {| dl_endsAt := 240000 |} slice_run "lse_1" slice_world) as Hslice.
  change (ex_reserveMs (EXEC_DEFAULTS "exec_1")) with 45000 in Hslice. change (port_now slice_world) with 2 in Hslice.
  apply Hslice.
  - done.
  - split.
    + intros id tok ms w. simpl. unfold heartbeat. by destruct (updateOne _ _ _ _) as [[] ?].
    + intros session w. simpl. lia.
  - done.
Defined.

Lemma reported_outcome_is_on_file_witness :
  ∃ w' tr, slice = Some (Ret (eo_finished "run_1" succeeded None), w', tr) ∧
    ∃ d, docs (w_runs w') !! "run_1" = Some d ∧ run_status d = succeeded ∧ run_lease d = None.
Proof.
  exists (default slice_world ((λ r : exec_result, r.1.2) <$> slice)), (default [] (snd <$> slice)).
  assert (slice = Some (Ret (eo_finished "run_1" succeeded None),
    default slice_world ((λ r : exec_result, r.1.2) <$> slice), default [] (snd <$> slice))) as E
    by (vm_compute; reflexivity).
  split; [exact E|].
  destruct (reported_outcome_is_on_file slice_open slice_step slice_trigger (EXEC_DEFAULTS "exec_1") 5
    {| dl_endsAt := 240000 |} slice_run "lse_1" slice_world _ _ _ E) as (_ & w0 & d0 & d & _ & _ & _ & Hd & Hs & Hl & _).
  by exists d.
Defined.
