(* ===== verification/OpenAI.v ===== *)
(** * The OpenAI adapter

    Models packages/providers/openai/src/translate.ts, capabilities.ts and the
    generate method of index.ts, with what the two adapters share: the parsing
    of tool arguments, the reading of an SDK error and the choice of the model
    id.  A chunk of the vendor's stream is a record of the fields the code
    reads; the SDK's stream is the list of its chunks and the error it may end
    with. *)
From S2P Require Import Prelude Json Text JsonText Entities Model ToolNames ContextAssembler.

(** ** Shared by the adapters *)

(** Tool arguments: always parsed, and an empty object when they are not JSON. *)
Definition parseArguments (raw : string) : value :=
  if blank raw then VObject []
  else match json_parse raw with Some v => v | None => VObject [] end.

(** [typeof v === 'number' ? v : 0] of a property. *)
Definition field_number (k : string) (fields : list (string * value)) : Z :=
  match assoc_get k fields with Some (VNumber n) => n | _ => 0 end.

(** [request.model], which the type of a request does not have. *)
Definition request_model (request : GenerationRequest) : option string := None.

Definition modelOf (request : GenerationRequest) (fallback : string) : string :=
  match request_model request with
  | Some m => if String.eqb m "" then fallback else m
  | None => fallback
  end.

(** What the code reads of an error the SDK throws. *)
Record SdkError := {
  se_status : option Z;
  se_name : string;
  se_message : option string;
  se_body_message : option string;        (** [error.error.message] *)
  se_body_error_message : option string;  (** [error.error.error.message] *)
  se_retryAfter : option Z;
}.

Definition is_digit_char (c : Ascii.ascii) : bool := in_range 48 57 (code_of c).

Fixpoint drop_space (s : string) : string :=
  match s with String c s' => if is_space c then drop_space s' else s | EmptyString => s end.

(** [raw.replace(/^\d{3}\s+/, '')]. *)
Definition strip_status (raw : string) : string :=
  match raw with
  | String a (String b (String c (String d rest))) =>
      if is_digit_char a && is_digit_char b && is_digit_char c && is_space d then drop_space rest else raw
  | _ => raw
  end.

Definition field (k : string) (v : value) : option value :=
  match v with VObject fields => assoc_get k fields | _ => None end.

(** [parsed.error?.message ?? parsed.message], when it is a non-empty string. *)
Definition nullish (v : option value) : option value :=
  match v with Some VNull | Some VUndefined => None | _ => v end.
Definition message_in (body : value) : option string :=
  match (match nullish (e ← nullish (field "error" body); field "message" e) with
         | Some m => Some m | None => field "message" body end) with
  | Some (VString s) => if String.eqb s "" then None else Some s
  | _ => None
  end.

Definition humanMessage (e : SdkError) : string :=
  let nested := match se_body_error_message e with Some m => Some m | None => se_body_message e end in
  match nested with
  | Some m => if negb (String.eqb m "") then m else
      let body := strip_status (default "The model provider refused the request." (se_message e)) in
      default body (v ← json_parse body; message_in v)
  | None =>
      let body := strip_status (default "The model provider refused the request." (se_message e)) in
      default body (v ← json_parse body; message_in v)
  end.

Definition provider_error (kind : ProviderErrorKind) (retryable : bool) (retryAfterMs : option Z) (message : string)
    : ProviderError :=
  {| per_kind := kind; per_message := message; per_retryable := retryable; per_retryAfterMs := retryAfterMs |}.

Module OpenAI.

(** ** The request *)
Definition textOf (blocks : list ContentBlock) : string :=
  join "" (omap (λ b, match b with BText t => Some t | _ => None end) blocks).

Definition role_name (r : MessageRole) : string :=
  match r with RUser => "user" | RAssistant => "assistant" | RTool => "user" | RSystem => "system" end.

Definition tool_result_of (b : ContentBlock) : option (string * list ContentBlock) :=
  match b with BToolResult id content _ _ => Some (id, content) | _ => None end.
Definition tool_use_of (b : ContentBlock) : option (string * string * value) :=
  match b with BToolUse id name input => Some (id, name, input) | _ => None end.

(** [call.input ?? {}]. *)
Definition input_or_object (input : value) : value :=
  match input with VNull | VUndefined => VObject [] | _ => input end.

Definition encode_call (tools : ToolNameMap) (call : string * string * value) : value :=
  let '(id, name, input) := call in
  VObject [("id", VString id); ("type", VString "function");
           ("function", VObject [("name", VString (wireNameOf tools name));
                                 ("arguments", VString (stringify (input_or_object input)))])].

Definition encodeMessage (message : CanonicalMessage) (tools : ToolNameMap) : list value :=
  match omap tool_result_of (c_content message) with
  | (_ :: _) as toolResults =>
      map (λ r, VObject [("role", VString "tool"); ("tool_call_id", VString r.1); ("content", VString (textOf r.2))]) toolResults
  | [] =>
      let toolCalls := omap tool_use_of (c_content message) in
      [VObject ([("role", VString (role_name (c_role message))); ("content", VString (textOf (c_content message)))] ++
                match toolCalls with [] => [] | _ => [("tool_calls", VArray (map (encode_call tools) toolCalls))] end)]
  end.

Definition rules_of (capabilities : ModelCapabilities) : ToolNameRules :=
  {| namePattern := ts_namePattern (mc_tools capabilities); maxNameLength := ts_maxNameLength (mc_tools capabilities) |}.

Definition effort_of (reasoning : option value) : option string :=
  match reasoning with
  | Some r => match field "effort" r with Some (VString s) => Some s | _ => None end
  | None => None
  end.

Definition encode_tool (toolNames : ToolNameMap) (t : ToolDeclaration) : value :=
  VObject [("type", VString "function");
           ("function", VObject [("name", VString (wireNameOf toolNames (td_name t)));
                                 ("description", VString (td_description t)); ("parameters", td_inputSchema t)])].

Definition encode_choice (capabilities : ModelCapabilities) (toolNames : ToolNameMap) (choice : ToolChoice) : value :=
  match choice with
  | tc_none => VString "none"
  | tc_named name =>
      if ts_forcedChoice (mc_tools capabilities)
      then VObject [("type", VString "function"); ("function", VObject [("name", VString (wireNameOf toolNames name))])]
      else VString "auto"
  | tc_auto => VString "auto"
  end.

Definition double_newline : string := String (Ascii.ascii_of_nat 10) (String (Ascii.ascii_of_nat 10) "").

Definition encode_body (request : GenerationRequest) (modelId : string) (capabilities : ModelCapabilities)
    (toolNames : ToolNameMap) : list (string * value) :=
  let system := match gr_system request with
                | [] => []
                | ds => [VObject [("role", VString "system"); ("content", VString (join double_newline (map sd_text ds)))]]
                end in
  [("model", VString modelId);
   ("messages", VArray (system ++ flat_map (λ m, encodeMessage m toolNames) (gr_messages request)));
   ("max_completion_tokens", VNumber (gr_maxOutputTokens request `min` mc_maxOutputTokens capabilities));
   ("stream", VBool true);
   ("stream_options", VObject [("include_usage", VBool true)])] ++
  match gr_tools request with
  | [] => []
  | tools => [("tools", VArray (map (encode_tool toolNames) tools));
              ("tool_choice", encode_choice capabilities toolNames (gr_toolChoice request))]
  end ++
  match effort_of (gr_reasoning request) with
  | Some effort =>
      if rs_supported (mc_reasoning capabilities)
      then [("reasoning_effort", VString (if String.eqb effort "xhigh" || String.eqb effort "max" then "high" else effort))]
      else []
  | None => []
  end ++
  match gr_structuredOutput request with
  | Some schema =>
      [("response_format",
        VObject [("type", VString "json_schema");
                 ("json_schema", VObject [("name", VString "output"); ("schema", default VUndefined (field "schema" schema));
                                          ("strict", VBool true)])])]
  | None => []
  end ++
  match gr_stopSequences request with
  | Some (_ :: _ as stops) => [("stop", VArray (map VString stops))]
  | _ => []
  end.

Definition encodeRequest (request : GenerationRequest) (modelId : string) (capabilities : ModelCapabilities)
    : outcome IllegalName (value * ToolNameMap) :=
  match buildToolNameMap (map td_name (gr_tools request)) (rules_of capabilities) with
  | Ret toolNames => Ret (VObject (encode_body request modelId capabilities toolNames), toolNames)
  | Throw e => Throw e
  end.

(** ** The stream *)
Record FunctionDelta := { fd_name : option string; fd_arguments : option string }.
Record ToolCallDelta := { tcd_index : option Z; tcd_id : option string; tcd_function : option FunctionDelta }.
Record Delta := { de_content : option string; de_toolCalls : option (list ToolCallDelta) }.
Record Choice := { ch_finishReason : option string; ch_delta : option Delta }.
Record Chunk := { ck_id : option string; ck_usage : option value; ck_choices : option (list Choice) }.

Definition mapFinishReason (raw : option string) : FinishReason :=
  match raw with
  | None => end_turn
  | Some r =>
      if String.eqb r "stop" then end_turn
      else if String.eqb r "length" then max_tokens
      else if String.eqb r "tool_calls" then tool_use
      else if String.eqb r "content_filter" then content_filter
      else if String.eqb r "function_call" then tool_use
      else fr_error
  end.

Definition mapUsage (raw : value) : Usage :=
  match raw with
  | VObject u =>
      let cached := match assoc_get "prompt_tokens_details" u with
                    | Some (VObject d) => field_number "cached_tokens" d
                    | _ => 0
                    end in
      {| inputTokens := 0 `max` (field_number "prompt_tokens" u - cached);
         outputTokens := field_number "completion_tokens" u; cacheReadTokens := cached; cacheWriteTokens := 0 |}
  | _ => emptyUsage
  end.

Record ToolState := { st_id : string; st_name : string; st_arguments : string }.

Record Decoder := {
  d_tools : list (Z * ToolState);
  d_text : string;
  d_usage : Usage;
  d_finish : option string;
  d_started : bool;
  d_endedTools : list Z;
}.
Definition new_decoder : Decoder :=
  {| d_tools := []; d_text := ""; d_usage := emptyUsage; d_finish := None; d_started := false; d_endedTools := [] |}.

Definition set_tools (tools : list (Z * ToolState)) (d : Decoder) : Decoder :=
  {| d_tools := tools; d_text := d_text d; d_usage := d_usage d; d_finish := d_finish d; d_started := d_started d;
     d_endedTools := d_endedTools d |}.

Section Decoding.
Context (toolNames : ToolNameMap).

Definition begin_stream (chunk : Chunk) (d : Decoder) : list ProviderEvent * Decoder :=
  (if d_started d then [] else [ev_start (default "" (ck_id chunk))],
   {| d_tools := d_tools d; d_text := d_text d; d_usage := from_option mapUsage (d_usage d) (ck_usage chunk);
      d_finish := d_finish d; d_started := true; d_endedTools := d_endedTools d |}).

Definition note_finish (choice : Choice) (d : Decoder) : Decoder :=
  {| d_tools := d_tools d; d_text := d_text d; d_usage := d_usage d;
     d_finish := match ch_finishReason choice with Some r => Some r | None => d_finish d end;
     d_started := d_started d; d_endedTools := d_endedTools d |}.

Definition take_text (delta : Delta) (d : Decoder) : list ProviderEvent * Decoder :=
  match de_content delta with
  | Some content =>
      if String.eqb content "" then ([], d)
      else ([ev_text_delta content],
            {| d_tools := d_tools d; d_text := d_text d +:+ content; d_usage := d_usage d; d_finish := d_finish d;
               d_started := d_started d; d_endedTools := d_endedTools d |})
  | None => ([], d)
  end.

(** One element of [delta.tool_calls]. *)
Definition take_call (call : ToolCallDelta) (d : Decoder) : list ProviderEvent * Decoder :=
  let index := default 0 (tcd_index call) in
  let '(opened, state) :=
    match jm_get index (d_tools d) with
    | Some state => ([], state)
    | None =>
        let state := {| st_id := default ("call_" +:+ pretty index) (tcd_id call);
                        st_name := canonicalNameOf toolNames (default "" (f ← tcd_function call; fd_name f));
                        st_arguments := "" |} in
        ([ev_tool_use_start (st_id state) (st_name state)], state)
    end in
  let '(grown, state') :=
    match (f ← tcd_function call; fd_arguments f) with
    | Some args =>
        if String.eqb args "" then ([], state)
        else ([ev_tool_input_delta (st_id state) args],
              {| st_id := st_id state; st_name := st_name state; st_arguments := st_arguments state +:+ args |})
    | None => ([], state)
    end in
  (opened ++ grown, set_tools (jm_set index state' (d_tools d)) d).

Fixpoint take_calls (calls : list ToolCallDelta) (d : Decoder) : list ProviderEvent * Decoder :=
  match calls with
  | [] => ([], d)
  | call :: rest =>
      let '(e1, d1) := take_call call d in
      let '(e2, d2) := take_calls rest d1 in (e1 ++ e2, d2)
  end.

(** The tools that have not ended yet, once the finish reason is known. *)
Definition end_tools (d : Decoder) : list ProviderEvent * Decoder :=
  match d_finish d with
  | None => ([], d)
  | Some _ =>
      let ending := List.filter (λ e, negb (bool_decide (e.1 ∈ d_endedTools d))) (d_tools d) in
      (map (λ e, ev_tool_use_end (st_id e.2) (parseArguments (st_arguments e.2))) ending,
       {| d_tools := d_tools d; d_text := d_text d; d_usage := d_usage d; d_finish := d_finish d;
          d_started := d_started d; d_endedTools := d_endedTools d ++ map fst ending |})
  end.

Definition handle (chunk : Chunk) (d : Decoder) : list ProviderEvent * Decoder :=
  let '(e0, d0) := begin_stream chunk d in
  match head (default [] (ck_choices chunk)) with
  | None => (e0, d0)
  | Some choice =>
      let d1 := note_finish choice d0 in
      match ch_delta choice with
      | None => (e0, d1)
      | Some delta =>
          let '(e2, d2) := take_text delta d1 in
          let '(e3, d3) := take_calls (default [] (de_toolCalls delta)) d2 in
          let '(e4, d4) := end_tools d3 in
          (e0 ++ e2 ++ e3 ++ e4, d4)
      end
  end.

Fixpoint decode (chunks : list Chunk) (d : Decoder) : list ProviderEvent * Decoder :=
  match chunks with
  | [] => ([], d)
  | chunk :: rest =>
      let '(e1, d1) := handle chunk d in
      let '(e2, d2) := decode rest d1 in (e1 ++ e2, d2)
  end.
End Decoding.

Definition by_index (a b : Z * ToolState) : bool := a.1 <=? b.1.

Definition tool_block (state : ToolState) : ContentBlock :=
  BToolUse (st_id state) (st_name state) (parseArguments (st_arguments state)).

Definition finish (d : Decoder) : ProviderEvent :=
  ev_finish (mapFinishReason (d_finish d))
    ((if String.eqb (d_text d) "" then [] else [BText (d_text d)]) ++
     map (λ e, tool_block e.2) (stable_sort by_index (d_tools d)))
    None (d_usage d).

Definition mapError (e : SdkError) : ProviderError :=
  let message := humanMessage e in
  let text := toLowerCase message in
  let at_least n := match se_status e with Some s => n <=? s | None => false end in
  if bool_decide (se_status e = Some 429) then provider_error pe_rate_limit true None message
  else if bool_decide (se_status e = Some 401) || bool_decide (se_status e = Some 403)
  then provider_error pe_authentication false None message
  else if at_least 500 then provider_error pe_overloaded true None message
  else if at_least 400 then
    if str_includes "context" text || str_includes "maximum context" text || str_includes "too many tokens" text
    then provider_error pe_context_length false None message
    else if str_includes "content" text && str_includes "filter" text then provider_error pe_content_filter false None message
    else provider_error pe_invalid_request false None message
  else if str_includes "Connection" (se_name e) || str_includes "Timeout" (se_name e)
  then provider_error pe_transport true None message
  else provider_error pe_unknown false None message.

(** ** Capabilities *)
Definition profile_of (modelId : string) : Z * Z * bool :=
  default (128000, 16384, false)
    (assoc_get modelId
       [("gpt-5.6-sol", (400000, 128000, true)); ("gpt-5", (400000, 128000, true));
        ("gpt-4.1", (1000000, 32768, false)); ("gpt-4o", (128000, 16384, false));
        ("gpt-4o-transcribe", (16000, 2000, false)); ("gpt-4o-mini-transcribe", (16000, 2000, false));
        ("whisper-1", (16000, 2000, false)); ("text-embedding-3-small", (8192, 1, false));
        ("text-embedding-3-large", (8192, 1, false))]).

Definition name_char (c : Ascii.ascii) : bool := is_word c || Ascii.eqb c "-".

Definition capabilitiesFor (modelId : string) : ModelCapabilities :=
  let '(maxIn, maxOut, reasons) := profile_of modelId in {|
  mc_modelId := modelId; mc_maxInputTokens := maxIn; mc_maxOutputTokens := maxOut;
  mc_tools := {| ts_supported := true; ts_parallelCalls := true; ts_forcedChoice := true; ts_maxTools := None;
                 ts_namePattern := λ s, str_all name_char s && (1 <=? String.length s)%nat && (String.length s <=? 64)%nat;
                 ts_maxNameLength := 64; ts_strictMode := true |};
  mc_promptCache := {| pc_supported := true; pc_strategy := automatic; pc_maxBreakpoints := None; pc_minPrefixTokens := None |};
  mc_reasoning := {| rs_supported := reasons; rs_mode := if reasons then rm_adaptive else rm_none;
                     rs_effortLevels := if reasons then Some [ef_low; ef_medium; ef_high] else None |} |}.

(** ** One call *)
Definition default_model : string := "gpt-5.6-sol".

(** The chunks the SDK yields, and the error it throws instead of ending. *)
Record SdkStream := { ss_chunks : list Chunk; ss_error : option SdkError }.

Definition generate (sdk : value → SdkStream) (aborted : bool) (request : GenerationRequest)
    : outcome IllegalName (list ProviderEvent) :=
  let modelId := modelOf request default_model in
  match encodeRequest request modelId (capabilitiesFor modelId) with
  | Throw e => Throw e
  | Ret (body, toolNames) =>
      let stream := sdk body in
      let '(events, d) := decode toolNames (ss_chunks stream) new_decoder in
      Ret (events ++ match ss_error stream with
                     | None => [finish d]
                     | Some e => if aborted then [] else [ev_error (mapError e)]
                     end)
  end.

(** ** What a consumer of the events sees

    The reference: fold the events of a stream by the id of the tool. *)
Record Folded := { fo_text : string; fo_tools : list (string * (string * string)) }.
Definition nothing : Folded := {| fo_text := ""; fo_tools := [] |}.

Definition fold_event (f : Folded) (e : ProviderEvent) : Folded :=
  match e with
  | ev_text_delta t => {| fo_text := fo_text f +:+ t; fo_tools := fo_tools f |}
  | ev_tool_use_start id name => {| fo_text := fo_text f; fo_tools := jm_set id (name, "") (fo_tools f) |}
  | ev_tool_input_delta id piece =>
      match jm_get id (fo_tools f) with
      | Some (name, args) => {| fo_text := fo_text f; fo_tools := jm_set id (name, args +:+ piece) (fo_tools f) |}
      | None => f
      end
  | _ => f
  end.

Definition entry (e : Z * ToolState) : string * (string * string) := (st_id e.2, (st_name e.2, st_arguments e.2)).
Definition view (d : Decoder) : Folded := {| fo_text := d_text d; fo_tools := map entry (d_tools d) |}.
Definition tool_ids (d : Decoder) : list string := map (λ e, st_id e.2) (d_tools d).

(** No two entries share an index or an id. *)
Definition distinct (d : Decoder) : Prop := NoDup (d_tools d).*1 ∧ NoDup (tool_ids d).

Lemma jm_set_fresh {K V} `{EqDecision K} (k : K) (v : V) m : jm_get k m = None → jm_set k v m = m ++ [(k, v)].
Proof.
  induction m as [|[k' v'] m IH]; [done|]. simpl. case_decide; [done|]. intros Hn. by rewrite IH.
Qed.

Lemma jm_set_last {K V} `{EqDecision K} (k : K) (v v' : V) m :
  jm_get k m = None → jm_set k v (m ++ [(k, v')]) = m ++ [(k, v)].
Proof.
  induction m as [|[k2 v2] m IH]; simpl; [by rewrite decide_True|]. case_decide; [done|]. intros Hn. by rewrite IH.
Qed.

Lemma get_entry i st tools :
  jm_get i tools = Some st → NoDup (map (λ e, st_id e.2) tools) →
  jm_get (st_id st) (map entry tools) = Some (st_name st, st_arguments st).
Proof.
  induction tools as [|[j s] tools IH]; [done|]. simpl. rewrite NoDup_cons. intros Hg [Hni Hnd].
  case_decide as Hij; [injection Hg as ->; by rewrite decide_True|].
  rewrite decide_False; [by apply IH|]. intros E. apply Hni. rewrite E.
  clear -Hg. induction tools as [|[j' s'] tools IH]; [done|]. simpl in *.
  case_decide; [injection Hg as ->; by left|right; by apply IH].
Qed.

(** Replacing the state at an index replaces the entry of its id. *)
Lemma set_entry i st st' tools :
  jm_get i tools = Some st → st_id st' = st_id st → NoDup (map (λ e, st_id e.2) tools) →
  map entry (jm_set i st' tools) = jm_set (st_id st) (st_name st', st_arguments st') (map entry tools) ∧
  map (λ e, st_id e.2) (jm_set i st' tools) = map (λ e, st_id e.2) tools.
Proof.
  intros Hg Hid. induction tools as [|[j s] tools IH]; [done|]. simpl in *. rewrite NoDup_cons. intros [Hni Hnd].
  case_decide as Hij.
  - injection Hg as ->. simpl. rewrite decide_True by done. unfold entry at 1. simpl. by rewrite Hid.
  - destruct (IH Hg Hnd) as [E1 E2]. rewrite !map_cons, E1, E2. split; [|done]. rewrite decide_False; [done|].
    intros E. apply Hni. rewrite E. clear -Hg. induction tools as [|[j' s'] tools IH]; [done|]. simpl in *.
    case_decide; [injection Hg as ->; by left|right; by apply IH].
Qed.

Lemma get_fresh_entry id tools : id ∉ map (λ e, st_id e.2) tools → jm_get id (map entry tools) = None.
Proof.
  induction tools as [|[j s] tools IH]; [done|]. simpl. rewrite not_elem_of_cons. intros [Hne Hni].
  rewrite decide_False by congruence. by apply IH.
Qed.

Section Folding.
Context (toolNames : ToolNameMap).
Implicit Types d : Decoder.

(** The state an element of [tool_calls] finds or makes, and what it adds. *)
Definition opened_state (call : ToolCallDelta) : ToolState :=
  {| st_id := default ("call_" +:+ pretty (default 0 (tcd_index call))) (tcd_id call);
     st_name := canonicalNameOf toolNames (default "" (f ← tcd_function call; fd_name f)); st_arguments := "" |}.
Definition piece_of (call : ToolCallDelta) : string := default "" (f ← tcd_function call; fd_arguments f).
Definition grow (piece : string) (st : ToolState) : ToolState :=
  {| st_id := st_id st; st_name := st_name st; st_arguments := st_arguments st +:+ piece |}.
Definition grow_events (piece : string) (st : ToolState) : list ProviderEvent :=
  if String.eqb piece "" then [] else [ev_tool_input_delta (st_id st) piece].

Lemma take_call_eq call d :
  take_call toolNames call d =
  let index := default 0 (tcd_index call) in
  match jm_get index (d_tools d) with
  | Some st => (grow_events (piece_of call) st, set_tools (jm_set index (grow (piece_of call) st) (d_tools d)) d)
  | None => (ev_tool_use_start (st_id (opened_state call)) (st_name (opened_state call)) ::
               grow_events (piece_of call) (opened_state call),
             set_tools (d_tools d ++ [(index, grow (piece_of call) (opened_state call))]) d)
  end.
Proof.
  unfold take_call, grow_events, piece_of. cbn zeta.
  assert (Hst : ∀ st, {| st_id := st_id st; st_name := st_name st; st_arguments := st_arguments st |} = st) by (by intros []).
  destruct (jm_get _ (d_tools d)) as [st|] eqn:E.
  - destruct (f ← tcd_function call; fd_arguments f) as [args|]; simpl.
    + destruct (String.eqb_spec args "") as [->|]; [|done]. unfold grow. by rewrite str_app_nil_r, Hst.
    + unfold grow. by rewrite str_app_nil_r, Hst.
  - fold (opened_state call).
    destruct (f ← tcd_function call; fd_arguments f) as [args|]; simpl.
    + destruct (String.eqb_spec args "") as [->|]; unfold grow; rewrite ?str_app_nil_r, jm_set_fresh by done; done.
    + unfold grow. rewrite jm_set_fresh by done. done.
Qed.

Lemma grow_events_fold piece st f args :
  jm_get (st_id st) (fo_tools f) = Some (st_name st, args) →
  foldl fold_event f (grow_events piece st) =
  {| fo_text := fo_text f; fo_tools := jm_set (st_id st) (st_name st, args +:+ piece) (fo_tools f) |}.
Proof.
  intros Hg. unfold grow_events. destruct (String.eqb_spec piece "") as [->|]; simpl.
  - rewrite str_app_nil_r. destruct f as [t l]. simpl in *. f_equal. clear -Hg.
    induction l as [|[k v] l IH]; [done|]. simpl in *. case_decide; [congruence|]. by rewrite <- IH.
  - by rewrite Hg.
Qed.

Lemma take_call_ids call d : tool_ids d `prefix_of` tool_ids (take_call toolNames call d).2.
Proof.
  rewrite take_call_eq. cbn zeta. destruct (jm_get _ _) as [st|] eqn:E; simpl.
  - assert (H : tool_ids (set_tools (jm_set (default 0 (tcd_index call)) (grow (piece_of call) st) (d_tools d)) d) = tool_ids d).
    { unfold tool_ids. simpl. clear -E. induction (d_tools d) as [|[j s] l IH]; [done|]. simpl in *.
      case_decide; [injection E as ->; done|]. simpl. by rewrite IH. }
    by rewrite H.
  - unfold tool_ids. simpl. rewrite map_app. by eexists.
Qed.

Lemma take_call_folds call d :
  distinct (take_call toolNames call d).2 → NoDup (d_tools d).*1 →
  foldl fold_event (view d) (take_call toolNames call d).1 = view (take_call toolNames call d).2.
Proof.
  intros [_ Hids] Hk. pose proof (take_call_ids call d) as Hpre.
  rewrite take_call_eq in *. cbn zeta in *. destruct (jm_get _ _) as [st|] eqn:E; simpl in *.
  - assert (Hnd : NoDup (map (λ e, st_id e.2) (d_tools d))).
    { destruct Hpre as [l Hpre]. fold (tool_ids d). unfold tool_ids in Hids at 1. simpl in Hids.
      change (map (λ e, st_id e.2) (jm_set (default 0 (tcd_index call)) (grow (piece_of call) st) (d_tools d)))
        with (tool_ids (set_tools (jm_set (default 0 (tcd_index call)) (grow (piece_of call) st) (d_tools d)) d)) in Hids.
      rewrite Hpre in Hids. by apply NoDup_app in Hids as [? _]. }
    rewrite (grow_events_fold _ st (view d) (st_arguments st)); [|by eapply get_entry].
    unfold view. simpl. f_equal. symmetry. by apply (set_entry _ st (grow (piece_of call) st)).
  - assert (Hfresh : st_id (opened_state call) ∉ map (λ e, st_id e.2) (d_tools d)).
    { unfold tool_ids in Hids. simpl in Hids. rewrite map_app in Hids. apply NoDup_app in Hids as (_ & Hd & _).
      intros Hin. apply (Hd _ Hin). by left. }
    set (f := {| fo_text := d_text d; fo_tools := jm_set (st_id (opened_state call)) (st_name (opened_state call), "") (map entry (d_tools d)) |}).
    change (foldl fold_event f (grow_events (piece_of call) (opened_state call)) =
            view (set_tools (d_tools d ++ [(default 0 (tcd_index call), grow (piece_of call) (opened_state call))]) d)).
    rewrite (grow_events_fold _ (opened_state call) f ""); [|unfold f; simpl; rewrite jm_get_set; by rewrite decide_True].
    unfold f, view. simpl. f_equal. pose proof (get_fresh_entry _ _ Hfresh) as Hg.
    rewrite (jm_set_fresh _ _ _ Hg), (jm_set_last _ _ _ _ Hg), map_app. done.
Qed.

Lemma take_call_indices call d : NoDup (d_tools d).*1 → NoDup (d_tools (take_call toolNames call d).2).*1.
Proof.
  intros Hk. unfold take_call. cbn zeta. destruct (jm_get _ _); simpl; destruct (f ← _; _);
    try (destruct (String.eqb _ "")); simpl; by apply jm_set_nodup.
Qed.

Lemma take_calls_ids calls d : tool_ids d `prefix_of` tool_ids (take_calls toolNames calls d).2.
Proof.
  revert d. induction calls as [|call calls IH]; intros d; simpl; [done|].
  pose proof (take_call_ids call d) as H1. destruct (take_call _ _ _) as [e1 d1]. simpl in H1.
  pose proof (IH d1) as H2. destruct (take_calls _ _ _) as [e2 d2]. simpl in *. by etrans.
Qed.

Lemma NoDup_prefix {A} (l k : list A) : l `prefix_of` k → NoDup k → NoDup l.
Proof. intros [r ->] Hn. by apply NoDup_app in Hn as [? _]. Qed.

Lemma take_calls_folds calls d :
  NoDup (tool_ids (take_calls toolNames calls d).2) → NoDup (d_tools d).*1 →
  foldl fold_event (view d) (take_calls toolNames calls d).1 = view (take_calls toolNames calls d).2 ∧
  NoDup (d_tools (take_calls toolNames calls d).2).*1.
Proof.
  revert d. induction calls as [|call calls IH]; intros d Hids Hk; simpl in *; [done|].
  pose proof (take_call_folds call d) as H1. pose proof (take_call_indices call d Hk) as Hk1.
  destruct (take_call _ _ _) as [e1 d1]. simpl in *.
  pose proof (take_calls_ids calls d1) as Hp. pose proof (IH d1) as H2.
  destruct (take_calls _ _ _) as [e2 d2]. simpl in *. rewrite foldl_app.
  rewrite H1; [auto|split; [done|by eapply NoDup_prefix]|done].
Qed.

(** The parts of a chunk that carry no tool call. *)
Lemma begin_folds chunk d : foldl fold_event (view d) (begin_stream chunk d).1 = view (begin_stream chunk d).2.
Proof. unfold begin_stream, view. simpl. by destruct (d_started d). Qed.

Lemma text_folds delta d : foldl fold_event (view d) (take_text delta d).1 = view (take_text delta d).2.
Proof. unfold take_text. destruct (de_content delta) as [t|]; [|done]. by destruct (String.eqb t ""). Qed.

Lemma end_folds d : foldl fold_event (view d) (end_tools d).1 = view (end_tools d).2.
Proof.
  unfold end_tools. destruct (d_finish d); [|done]. simpl.
  assert (H0 : ∀ (l : list (Z * ToolState)) f,
    foldl fold_event f (map (λ e, ev_tool_use_end (st_id e.2) (parseArguments (st_arguments e.2))) l) = f).
  { induction l as [|x l IH]; intros f; simpl; [done|]. apply IH. }
  by rewrite H0.
Qed.

Lemma handle_tools chunk d :
  tool_ids d `prefix_of` tool_ids (handle toolNames chunk d).2 ∧
  (NoDup (tool_ids (handle toolNames chunk d).2) → NoDup (d_tools d).*1 →
   foldl fold_event (view d) (handle toolNames chunk d).1 = view (handle toolNames chunk d).2 ∧
   NoDup (d_tools (handle toolNames chunk d).2).*1).
Proof.
  unfold handle. pose proof (begin_folds chunk d) as H0.
  assert (T0 : d_tools (begin_stream chunk d).2 = d_tools d) by done.
  destruct (begin_stream chunk d) as [e0 d0]. simpl in *.
  assert (Hid : tool_ids d0 = tool_ids d) by (unfold tool_ids; by rewrite T0).
  destruct (head _) as [choice|]; [|simpl; rewrite Hid, T0; auto].
  destruct (ch_delta choice) as [delta|]; [|simpl; change (tool_ids (note_finish choice d0)) with (tool_ids d0); rewrite Hid, T0; auto].
  clear Hid.
  pose proof (text_folds delta (note_finish choice d0)) as H2.
  assert (T2 : d_tools (take_text delta (note_finish choice d0)).2 = d_tools d0).
  { unfold take_text. destruct (de_content delta); [|done]. by destruct (String.eqb _ ""). }
  destruct (take_text delta (note_finish choice d0)) as [e2 d2]. simpl in *.
  pose proof (take_calls_ids (default [] (de_toolCalls delta)) d2) as P3.
  pose proof (take_calls_folds (default [] (de_toolCalls delta)) d2) as H3.
  destruct (take_calls _ _ d2) as [e3 d3]. simpl in *.
  pose proof (end_folds d3) as H4. assert (T4 : d_tools (end_tools d3).2 = d_tools d3).
  { unfold end_tools. by destruct (d_finish d3). }
  destruct (end_tools d3) as [e4 d4]. simpl in *. unfold tool_ids in *. rewrite T4.
  assert (Ev : view (note_finish choice d0) = view d0) by done. rewrite T2, T0 in *.
  split; [done|]. intros Hids Hk. destruct (H3 Hids Hk) as [H3' K3]. split; [|done].
  rewrite !foldl_app, H0, <- Ev, H2, H3', H4. done.
Qed.

Lemma decode_folds chunks d :
  tool_ids d `prefix_of` tool_ids (decode toolNames chunks d).2 ∧
  (NoDup (tool_ids (decode toolNames chunks d).2) → NoDup (d_tools d).*1 →
   foldl fold_event (view d) (decode toolNames chunks d).1 = view (decode toolNames chunks d).2).
Proof.
  revert d. induction chunks as [|chunk chunks IH]; intros d; simpl; [done|].
  destruct (handle_tools chunk d) as [P1 H1]. destruct (handle toolNames chunk d) as [e1 d1]. simpl in *.
  destruct (IH d1) as [P2 H2]. destruct (decode toolNames chunks d1) as [e2 d2]. simpl in *.
  split; [by etrans|]. intros Hids Hk. destruct (H1 (NoDup_prefix _ _ P2 Hids) Hk) as [E1 K1].
  by rewrite foldl_app, E1, H2.
Qed.
End Folding.

(** ** The order of events *)
Definition is_start (e : ProviderEvent) : bool := match e with ev_start _ => true | _ => false end.
Definition no_start (events : list ProviderEvent) : Prop := Forall (λ e, is_start e = false) events.

Section Starting.
Context (toolNames : ToolNameMap).

Lemma grow_events_no_start piece st : no_start (grow_events piece st).
Proof. unfold grow_events. destruct (String.eqb piece ""); repeat constructor. Qed.

Lemma take_calls_no_start calls d :
  no_start (take_calls toolNames calls d).1 ∧ d_started (take_calls toolNames calls d).2 = d_started d.
Proof.
  revert d. induction calls as [|call calls IH]; intros d; simpl; [by split; [constructor|]|].
  assert (H1 : no_start (take_call toolNames call d).1 ∧ d_started (take_call toolNames call d).2 = d_started d).
  { rewrite take_call_eq. cbn zeta. destruct (jm_get _ _); simpl; split; try done.
    - apply grow_events_no_start.
    - constructor; [done|apply grow_events_no_start]. }
  destruct (take_call _ _ _) as [e1 d1]. destruct (IH d1) as [H2 S2]. destruct (take_calls _ _ _) as [e2 d2].
  destruct H1 as [H1 S1]. simpl in *. split; [by apply Forall_app|congruence].
Qed.

(** A chunk starts the stream exactly when nothing has. *)
Lemma handle_starts chunk d :
  ∃ rest, (handle toolNames chunk d).1 = (if d_started d then [] else [ev_start (default "" (ck_id chunk))]) ++ rest ∧
    no_start rest ∧ d_started (handle toolNames chunk d).2 = true.
Proof.
  unfold handle, begin_stream. set (e0 := if d_started d then _ else _). set (d0 := {| d_tools := _ |}).
  destruct (head _) as [choice|]; [|exists []; rewrite app_nil_r; split; [done|by split; [constructor|]]].
  destruct (ch_delta choice) as [delta|]; [|exists []; rewrite app_nil_r; split; [done|by split; [constructor|]]].
  assert (H2 : no_start (take_text delta (note_finish choice d0)).1 ∧ d_started (take_text delta (note_finish choice d0)).2 = true).
  { unfold take_text. destruct (de_content delta) as [t|]; [|by split; [constructor|]].
    destruct (String.eqb t ""); split; repeat constructor. }
  destruct (take_text _ _) as [e2 d2]. destruct H2 as [H2 S2].
  pose proof (take_calls_no_start (default [] (de_toolCalls delta)) d2) as H3.
  destruct (take_calls _ _ d2) as [e3 d3]. destruct H3 as [H3 S3].
  assert (H4 : no_start (end_tools d3).1 ∧ d_started (end_tools d3).2 = d_started d3).
  { unfold end_tools. destruct (d_finish d3); [|by split; [constructor|]]. split; [|done]. simpl. apply Forall_map.
    by apply Forall_true. }
  destruct (end_tools d3) as [e4 d4]. destruct H4 as [H4 S4]. simpl in *.
  exists (e2 ++ e3 ++ e4). split; [done|]. split; [unfold no_start; by rewrite !Forall_app|congruence].
Qed.

Lemma decode_started chunks d : d_started d = true → no_start (decode toolNames chunks d).1.
Proof.
  revert d. induction chunks as [|chunk chunks IH]; intros d Hs; simpl; [constructor|].
  destruct (handle_starts chunk d) as (rest & E & Hr & Hs1). rewrite Hs in E. simpl in E.
  destruct (handle toolNames chunk d) as [e1 d1]. simpl in *. pose proof (IH d1 Hs1) as H2.
  destruct (decode toolNames chunks d1) as [e2 d2]. simpl in *. rewrite E. by apply Forall_app.
Qed.
End Starting.

(** The finish event repeats what was streamed.  Whatever chunks arrive, a
    non-empty stream opens with the one start event; and when the tools of the
    stream have distinct ids, folding the events by id (text deltas joined,
    argument pieces appended to the tool they name) gives the text and the
    tools of the finish event, with the arguments parsed. *)
Theorem finish_repeats_the_stream (toolNames : ToolNameMap) (chunks : list Chunk) :
  let events := (decode toolNames chunks new_decoder).1 in
  let d := (decode toolNames chunks new_decoder).2 in
  (chunks ≠ [] → ∃ id rest, events = ev_start id :: rest ∧ no_start rest) ∧
  (NoDup (tool_ids d) →
   let folded := foldl fold_event nothing events in
   ∃ tools, tools ≡ₚ fo_tools folded ∧
     finish d = ev_finish (mapFinishReason (d_finish d))
       ((if String.eqb (fo_text folded) "" then [] else [BText (fo_text folded)]) ++
        map (λ t, BToolUse t.1 t.2.1 (parseArguments t.2.2)) tools) None (d_usage d)).
Proof.
  intros events d. split.
  - intros Hne. destruct chunks as [|chunk chunks]; [done|]. subst events. clear d. simpl.
    destruct (handle_starts toolNames chunk new_decoder) as (rest & E & Hr & Hs). simpl in E.
    destruct (handle toolNames chunk new_decoder) as [e1 d1]. simpl in *.
    pose proof (decode_started toolNames chunks d1 Hs) as Hd. destruct (decode toolNames chunks d1) as [e2 d2]. simpl in *.
    exists (default "" (ck_id chunk)), (rest ++ e2). rewrite E. split; [done|]. by apply Forall_app.
  - intros Hids folded. destruct (decode_folds toolNames chunks new_decoder) as [_ Hf].
    assert (Ev : folded = view d) by (apply Hf; [done|constructor]). rewrite Ev.
    exists (map entry (stable_sort by_index (d_tools d))). split.
    + simpl. by rewrite (stable_sort_perm by_index (d_tools d)).
    + unfold finish. simpl. do 2 f_equal. rewrite map_map. done.
Qed.

(** ** Arguments travel as text and come back *)
Lemma parseArguments_stringify fields :
  plain (VObject fields) → parseArguments (stringify (VObject fields)) = VObject fields.
Proof.
  intros Hp. unfold parseArguments. rewrite (parse_stringify _ Hp).
  assert (H0 : blank (stringify (VObject fields)) = false) by done. by rewrite H0.
Qed.

(** The vendor streams one tool call: its head, the pieces of its arguments,
    and the finish reason. *)
Definition call_delta (id name : option string) (piece : string) : Chunk :=
  {| ck_id := Some "chatcmpl_1"; ck_usage := None;
     ck_choices := Some [{| ch_finishReason := None;
       ch_delta := Some {| de_content := None;
         de_toolCalls := Some [{| tcd_index := Some 0; tcd_id := id;
           tcd_function := Some {| fd_name := name; fd_arguments := Some piece |} |}] |} |}] |}.
Definition last_chunk : Chunk :=
  {| ck_id := Some "chatcmpl_1"; ck_usage := None;
     ck_choices := Some [{| ch_finishReason := Some "tool_calls"; ch_delta := Some {| de_content := None; de_toolCalls := None |} |}] |}.
Definition call_stream (id name : string) (pieces : list string) : list Chunk :=
  call_delta (Some id) (Some name) "" :: map (call_delta None None) pieces ++ [last_chunk].

Definition calling (id name args : string) : Decoder :=
  {| d_tools := [(0, {| st_id := id; st_name := name; st_arguments := args |})]; d_text := ""; d_usage := emptyUsage;
     d_finish := None; d_started := true; d_endedTools := [] |}.

Lemma handle_piece toolNames id name args piece :
  (handle toolNames (call_delta None None piece) (calling id name args)).2 = calling id name (args +:+ piece).
Proof.
  unfold handle, call_delta. simpl. unfold take_call. simpl.
  destruct (String.eqb_spec piece "") as [->|]; simpl; [by rewrite str_app_nil_r|done].
Qed.

Lemma decode_pieces toolNames id name pieces args :
  finish (decode toolNames (map (call_delta None None) pieces ++ [last_chunk]) (calling id name args)).2 =
  ev_finish tool_use [BToolUse id name (parseArguments (args +:+ join "" pieces))] None emptyUsage.
Proof.
  revert args. induction pieces as [|piece pieces IH]; intros args.
  - simpl. by rewrite str_app_nil_r.
  - rewrite map_cons. rewrite <- app_comm_cons. cbn [decode]. pose proof (handle_piece toolNames id name args piece) as Hh.
    destruct (handle _ _ _) as [e1 d1]. simpl in Hh. subst d1. specialize (IH (args +:+ piece)).
    destruct (decode _ _ _) as [e2 d2]. simpl in IH. cbn [snd]. rewrite IH, str_app_assoc.
    by destruct pieces; rewrite ?str_app_nil_r.
Qed.

(** A tool call survives the wire: encoded for the vendor and streamed back
    under the same id, its arguments cut into pieces anywhere, it is decoded
    to the same call. *)
Theorem tool_call_round_trips (tools : ToolNameMap) (id name : string) (fields : list (string * value)) (pieces : list string) :
  plain (VObject fields) → canonicalNameOf tools (wireNameOf tools name) = name →
  encode_call tools (id, name, VObject fields) =
    VObject [("id", VString id); ("type", VString "function");
             ("function", VObject [("name", VString (wireNameOf tools name)); ("arguments", VString (join "" pieces))])] →
  finish (decode tools (call_stream id (wireNameOf tools name) pieces) new_decoder).2 =
    ev_finish tool_use [BToolUse id name (VObject fields)] None emptyUsage.
Proof.
  intros Hp Hn He. unfold encode_call in He. simpl input_or_object in He.
  assert (Hargs : join "" pieces = stringify (VObject fields)) by congruence.
  unfold call_stream. cbn [decode].
  assert (Hh : (handle tools (call_delta (Some id) (Some (wireNameOf tools name)) "") new_decoder).2 = calling id name "").
  { unfold handle, call_delta. simpl. by rewrite Hn. }
  destruct (handle _ _ _) as [e1 d1]. simpl in Hh. subst d1.
  pose proof (decode_pieces tools id name pieces "") as Hd. destruct (decode _ _ _) as [e2 d2]. cbn [snd] in *.
  rewrite Hd. simpl (_ +:+ _). by rewrite Hargs, parseArguments_stringify.
Qed.

(** ** Concrete streams *)
Definition no_names : ToolNameMap := {| toWire := ∅; ToolNames.toCanonical := ∅ |}.
Definition search_input : value := VObject [("q", VString "tea"); ("limit", VNumber 3)].

Lemma tool_call_round_trips_witness :
  finish (decode no_names (call_stream "call_a" "web_search" [str_take 5 (stringify search_input); str_drop 5 (stringify search_input)])
            new_decoder).2 =
    ev_finish tool_use [BToolUse "call_a" "web_search" search_input] None emptyUsage.
Proof.
  apply (tool_call_round_trips no_names "call_a" "web_search" [("q", VString "tea"); ("limit", VNumber 3)]
           [str_take 5 (stringify search_input); str_drop 5 (stringify search_input)]).
  - simpl. split; [|done]. apply NoDup_cons. split; [|apply NoDup_singleton]. set_solver.
  - reflexivity.
  - vm_compute. reflexivity.
Defined.

Lemma finish_repeats_the_stream_witness :
  let chunks := call_stream "call_a" "web_search" ["{}"] in
  NoDup (tool_ids (decode no_names chunks new_decoder).2) ∧
  ∃ id rest, (decode no_names chunks new_decoder).1 = ev_start id :: rest ∧ no_start rest.
Proof.
  destruct (finish_repeats_the_stream no_names (call_stream "call_a" "web_search" ["{}"])) as [H0 _].
  split; [vm_compute; apply NoDup_singleton|]. apply H0. discriminate.
Defined.

(** A stream that ends before its finish reason is reported as a finished
    turn, with the call it was in the middle of and no arguments. *)
Lemma cut_stream_is_an_end_turn :
  let cut := [call_delta (Some "call_a") (Some "web_search") (str_take 5 (stringify search_input))] in
  finish (decode no_names cut new_decoder).2 =
    ev_finish end_turn [BToolUse "call_a" "web_search" (VObject [])] None emptyUsage.
Proof. vm_compute. reflexivity. Qed.

(** Every request names the adapter's default model: the request of the
    runtime carries none. *)
Lemma configured_model_is_ignored sdk sdk' aborted request :
  (∀ body, field "model" body = Some (VString default_model) → sdk body = sdk' body) →
  generate sdk aborted request = generate sdk' aborted request.
Proof.
  intros Hs. unfold generate, encodeRequest. destruct (buildToolNameMap _ _) as [m|]; [|done].
  rewrite Hs; [done|]. reflexivity.
Qed.
End OpenAI.
