(* ===== verification/Anthropic.v ===== *)
(** * The Anthropic adapter

    Models packages/providers/anthropic/src/encode.ts, decode.ts,
    capabilities.ts and the generate method of index.ts.  The vendor's stream
    events are an inductive type with the fields the code reads. *)
From S2P Require Import Prelude Json Text JsonText Entities Model ToolNames ContextAssembler ModelCall AgentRuntime OpenAI.

Module Anthropic.

(** ** The request *)
Definition isReasoning (b : ContentBlock) : bool := match b with BReasoning _ _ => true | _ => false end.

Fixpoint encode_block (tools : ToolNameMap) (b : ContentBlock) : list value :=
  match b with
  | BText t => [VObject [("type", VString "text"); ("text", VString t)]]
  | BToolUse id name input =>
      [VObject [("type", VString "tool_use"); ("id", VString id); ("name", VString (wireNameOf tools name)); ("input", input)]]
  | BToolResult id content _ isError =>
      [VObject [("type", VString "tool_result"); ("tool_use_id", VString id);
                ("content", VArray (flat_map (encode_block tools) content)); ("is_error", VBool isError)]]
  | BImage _ _ => [VObject [("type", VString "text"); ("text", VString "[image omitted]")]]
  | BDocument _ _ _ => [VObject [("type", VString "text"); ("text", VString "[document omitted]")]]
  | BBlobRef _ _ _ => [VObject [("type", VString "text"); ("text", VString "[blob_ref omitted]")]]
  | BReasoning _ _ => []
  end.
Definition encodeContent (blocks : list ContentBlock) (tools : ToolNameMap) : list value :=
  flat_map (encode_block tools) blocks.

Definition role_name (r : MessageRole) : string :=
  match r with RUser => "user" | RAssistant => "assistant" | RTool => "user" | RSystem => "system" end.

(** [artifact?.blocks] of the model's own artifact. *)
Definition own_blocks (message : CanonicalMessage) (ownKey : string) : option (list value) :=
  artifact ← artifactsForModel (c_providerArtifacts message) ownKey;
  match field "blocks" artifact with Some (VArray blocks) => Some blocks | _ => None end.

Definition message_content (message : CanonicalMessage) (ownKey : string) (tools : ToolNameMap) : list value :=
  let visible := encodeContent (List.filter (λ b, negb (isReasoning b)) (c_content message)) tools in
  match own_blocks message ownKey, c_role message with
  | Some blocks, RAssistant => blocks ++ visible
  | _, _ => visible
  end.

Definition encodeMessage (message : CanonicalMessage) (ownKey : string) (tools : ToolNameMap) : string * list value :=
  let content := message_content message ownKey tools in
  (role_name (c_role message),
   match content with [] => [VObject [("type", VString "text"); ("text", VString "")]] | _ => content end).

Definition encodeTools (declarations : list ToolDeclaration) (names : ToolNameMap) : list value :=
  map (λ t, VObject [("name", VString (wireNameOf names (td_name t))); ("description", VString (td_description t));
                     ("input_schema", td_inputSchema t)]) declarations.

(** [content.at(-1)['cache_control'] = ...] *)
Definition mark_last (content : list value) : list value :=
  match rev content with
  | VObject fields :: before => rev before ++ [VObject (jm_set "cache_control" (VObject [("type", VString "ephemeral")]) fields)]
  | _ => content
  end.

Definition mark_message (messages : list (string * list value)) (index : Z) : list (string * list value) :=
  if index <? 0 then messages else alter (λ m, (m.1, mark_last m.2)) (Z.to_nat index) messages.

(** [hints.slice(0, max)]; a descriptor's maximum is not negative. *)
Definition applyCacheBreakpoints (request : GenerationRequest) (capabilities : ModelCapabilities)
    (messages : list (string * list value)) : list (string * list value) :=
  if negb (bool_decide (pc_strategy (mc_promptCache capabilities) = explicit_breakpoints)) then messages
  else match gr_breakpointsAfter request with
       | None => messages
       | Some hints =>
           let max := default 4 (pc_maxBreakpoints (mc_promptCache capabilities)) in
           foldl mark_message messages (take (Z.to_nat max) hints)
       end.

Definition encode_choice (capabilities : ModelCapabilities) (toolNames : ToolNameMap) (choice : ToolChoice) : value :=
  match choice with
  | tc_none => VObject [("type", VString "none")]
  | tc_named name =>
      if ts_forcedChoice (mc_tools capabilities)
      then VObject [("type", VString "tool"); ("name", VString (wireNameOf toolNames name))]
      else VObject [("type", VString "auto")]
  | tc_auto => VObject [("type", VString "auto")]
  end.

Definition encode_thinking (reasoning : option value) (capabilities : ModelCapabilities) : list (string * value) :=
  match reasoning with
  | Some r =>
      if rs_supported (mc_reasoning capabilities) && bool_decide (rs_mode (mc_reasoning capabilities) = rm_adaptive)
      then [("thinking", VObject ([("type", VString "adaptive")] ++
              match field "display" r with Some VUndefined | None => [] | Some d => [("display", d)] end))]
      else []
  | None => []
  end.

(** The properties of [output_config], when it is set at all. *)
Definition output_config (request : GenerationRequest) (capabilities : ModelCapabilities) : list (string * value) :=
  let effort :=
    match OpenAI.effort_of (gr_reasoning request), rs_effortLevels (mc_reasoning capabilities) with
    | Some e, Some _ => if rs_supported (mc_reasoning capabilities) then [("effort", VString e)] else []
    | _, _ => []
    end in
  effort ++
  match gr_structuredOutput request with
  | Some schema => [("format", VObject [("type", VString "json_schema"); ("schema", default VUndefined (field "schema" schema))])]
  | None => []
  end.

Definition encode_body (request : GenerationRequest) (modelId : string) (capabilities : ModelCapabilities)
    (toolNames : ToolNameMap) : list (string * value) :=
  let messages := map (λ m, encodeMessage m (providerKey "anthropic" modelId) toolNames) (gr_messages request) in
  [("model", VString modelId);
   ("max_tokens", VNumber (gr_maxOutputTokens request `min` mc_maxOutputTokens capabilities));
   ("stream", VBool true);
   ("system", VArray (map (λ d, VObject [("type", VString "text"); ("text", VString (sd_text d))]) (gr_system request)));
   ("messages", VArray (map (λ m, VObject [("role", VString m.1); ("content", VArray m.2)])
                          (applyCacheBreakpoints request capabilities messages)))] ++
  match gr_tools request with
  | [] => []
  | tools => [("tools", VArray (encodeTools tools toolNames)); ("tool_choice", encode_choice capabilities toolNames (gr_toolChoice request))]
  end ++
  encode_thinking (gr_reasoning request) capabilities ++
  match output_config request capabilities with [] => [] | fields => [("output_config", VObject fields)] end ++
  match gr_stopSequences request with
  | Some (_ :: _ as stops) => [("stop_sequences", VArray (map VString stops))]
  | _ => []
  end.

Definition encodeRequest (request : GenerationRequest) (modelId : string) (capabilities : ModelCapabilities)
    : outcome IllegalName (value * ToolNameMap) :=
  match buildToolNameMap (map td_name (gr_tools request)) (OpenAI.rules_of capabilities) with
  | Ret toolNames => Ret (VObject (encode_body request modelId capabilities toolNames), toolNames)
  | Throw e => Throw e
  end.

(** ** The stream *)
Definition mapStopReason (raw : option string) : FinishReason :=
  match raw with
  | None => end_turn
  | Some r =>
      if String.eqb r "end_turn" then end_turn
      else if String.eqb r "tool_use" then tool_use
      else if String.eqb r "stop_sequence" then stop_sequence
      else if String.eqb r "max_tokens" then max_tokens
      else if String.eqb r "model_context_window_exceeded" then max_tokens
      else if String.eqb r "refusal" then refusal
      else if String.eqb r "pause_turn" then fr_error
      else fr_error
  end.

Definition mapUsage (raw : value) : Usage :=
  match raw with
  | VObject u =>
      {| inputTokens := field_number "input_tokens" u; outputTokens := field_number "output_tokens" u;
         cacheReadTokens := field_number "cache_read_input_tokens" u;
         cacheWriteTokens := field_number "cache_creation_input_tokens" u |}
  | _ => emptyUsage
  end.

Definition max_usage (a b : Usage) : Usage :=
  {| inputTokens := inputTokens a `max` inputTokens b; outputTokens := outputTokens a `max` outputTokens b;
     cacheReadTokens := cacheReadTokens a `max` cacheReadTokens b;
     cacheWriteTokens := cacheWriteTokens a `max` cacheWriteTokens b |}.

Inductive BlockDelta :=
| text_delta (text : string)
| input_json_delta (partial_json : string)
| thinking_delta (thinking : string)
| signature_delta (signature : value)
| other_delta.

(** [content_block_start] carries the block itself: its type, and for a tool
    its id and name. *)
Inductive StreamEvent :=
| message_start (id : string) (usage : value)
| content_block_start (index : Z) (type : string) (id name : string) (block : list (string * value))
| content_block_delta (index : Z) (delta : BlockDelta)
| content_block_stop (index : Z)
| message_delta (stop_reason : option string) (usage : value)
| message_stop
| other_event.

Record BlockState := {
  bs_type : string;
  bs_text : string;
  bs_tool : option (string * string);  (** [toolId], [toolName] *)
  bs_partialJson : string;
  bs_raw : option (list (string * value));
}.

Record Decoder := { a_blocks : list (Z * BlockState); a_usage : Usage; a_stopReason : option string; a_messageId : string }.
Definition new_decoder : Decoder := {| a_blocks := []; a_usage := emptyUsage; a_stopReason := None; a_messageId := "" |}.

Definition set_blocks (blocks : list (Z * BlockState)) (d : Decoder) : Decoder :=
  {| a_blocks := blocks; a_usage := a_usage d; a_stopReason := a_stopReason d; a_messageId := a_messageId d |}.
Definition set_text (text : string) (s : BlockState) : BlockState :=
  {| bs_type := bs_type s; bs_text := text; bs_tool := bs_tool s; bs_partialJson := bs_partialJson s; bs_raw := bs_raw s |}.
Definition set_json (json : string) (s : BlockState) : BlockState :=
  {| bs_type := bs_type s; bs_text := bs_text s; bs_tool := bs_tool s; bs_partialJson := json; bs_raw := bs_raw s |}.
Definition set_raw (k : string) (v : value) (s : BlockState) : BlockState :=
  {| bs_type := bs_type s; bs_text := bs_text s; bs_tool := bs_tool s; bs_partialJson := bs_partialJson s;
     bs_raw := jm_set k v <$> bs_raw s |}.

Definition by_index (a b : Z * BlockState) : bool := a.1 <=? b.1.

(** The block a state adds to the message and to the opaque reasoning. *)
Definition finished_block (s : BlockState) : list ContentBlock * list value :=
  if String.eqb (bs_type s) "text" && negb (String.eqb (bs_text s) "") then ([BText (bs_text s)], [])
  else match bs_tool s, bs_raw s with
       | Some (id, name), raw =>
           if String.eqb (bs_type s) "tool_use" then ([BToolUse id name (parseArguments (bs_partialJson s))], [])
           else match raw with
                | Some r => ([BReasoning (if String.eqb (bs_text s) "" then None else Some (bs_text s))
                                (String.eqb (bs_type s) "redacted_thinking")], [VObject r])
                | None => ([], [])
                end
       | None, Some r =>
           ([BReasoning (if String.eqb (bs_text s) "" then None else Some (bs_text s))
               (String.eqb (bs_type s) "redacted_thinking")], [VObject r])
       | None, None => ([], [])
       end.

Definition sorted_states (d : Decoder) : list BlockState := map snd (stable_sort by_index (a_blocks d)).
Definition finish_content (d : Decoder) : list ContentBlock := flat_map (λ s, (finished_block s).1) (sorted_states d).
Definition raw_reasoning (d : Decoder) : list value := flat_map (λ s, (finished_block s).2) (sorted_states d).
Definition finish_artifacts (providerKey : string) (d : Decoder) : option ProviderArtifacts :=
  match raw_reasoning d with [] => None | blocks => Some [(providerKey, VObject [("blocks", VArray blocks)])] end.

Definition finish (providerKey : string) (d : Decoder) : ProviderEvent :=
  ev_finish (mapStopReason (a_stopReason d)) (finish_content d) (finish_artifacts providerKey d) (a_usage d).

Section Decoding.
Context (toolNames : ToolNameMap) (key : string).

Definition start_block (index : Z) (type id name : string) (block : list (string * value)) (d : Decoder)
    : list ProviderEvent * Decoder :=
  let name' := canonicalNameOf toolNames name in
  let tool := if String.eqb type "tool_use" then Some (id, name') else None in
  let raw := if negb (String.eqb type "tool_use") && (String.eqb type "thinking" || String.eqb type "redacted_thinking")
             then Some block else None in
  (match tool with Some _ => [ev_tool_use_start id name'] | None => [] end,
   set_blocks (jm_set index {| bs_type := type; bs_text := ""; bs_tool := tool; bs_partialJson := ""; bs_raw := raw |}
                 (a_blocks d)) d).

Definition apply_delta (index : Z) (delta : BlockDelta) (s : BlockState) : list ProviderEvent * BlockState :=
  match delta with
  | text_delta text => ([ev_text_delta text], set_text (bs_text s +:+ text) s)
  | input_json_delta partial =>
      (match bs_tool s with Some (id, _) => [ev_tool_input_delta id partial] | None => [] end,
       set_json (bs_partialJson s +:+ partial) s)
  | thinking_delta text => ([ev_reasoning_delta text], set_text (bs_text s +:+ text) s)
  | signature_delta signature => ([], set_raw "signature" signature s)
  | other_delta => ([], s)
  end.

Definition handle (event : StreamEvent) (d : Decoder) : list ProviderEvent * Decoder :=
  match event with
  | message_start id usage =>
      ([ev_start id], {| a_blocks := a_blocks d; a_usage := mapUsage usage; a_stopReason := a_stopReason d; a_messageId := id |})
  | content_block_start index type id name block => start_block index type id name block d
  | content_block_delta index delta =>
      match jm_get index (a_blocks d) with
      | Some s => let '(events, s') := apply_delta index delta s in (events, set_blocks (jm_set index s' (a_blocks d)) d)
      | None => ([], d)
      end
  | content_block_stop index =>
      match jm_get index (a_blocks d) with
      | Some s =>
          (match bs_tool s with
           | Some (id, _) => if String.eqb (bs_type s) "tool_use" then [ev_tool_use_end id (parseArguments (bs_partialJson s))] else []
           | None => []
           end,
           set_blocks (jm_set index (set_raw "thinking" (VString (bs_text s)) s) (a_blocks d)) d)
      | None => ([], d)
      end
  | message_delta stop_reason usage =>
      let usage' := max_usage (a_usage d) (mapUsage usage) in
      ([ev_usage usage'],
       {| a_blocks := a_blocks d; a_usage := usage';
          a_stopReason := match stop_reason with Some r => Some r | None => a_stopReason d end; a_messageId := a_messageId d |})
  | message_stop => ([finish key d], d)
  | other_event => ([], d)
  end.

Fixpoint decode (events : list StreamEvent) (d : Decoder) : list ProviderEvent * Decoder :=
  match events with
  | [] => ([], d)
  | event :: rest =>
      let '(e1, d1) := handle event d in
      let '(e2, d2) := decode rest d1 in (e1 ++ e2, d2)
  end.
End Decoding.

Definition mapError (e : SdkError) : ProviderError :=
  let message := humanMessage e in
  let text := toLowerCase message in
  let named n := String.eqb (se_name e) n in
  let at_least n := match se_status e with Some s => n <=? s | None => false end in
  if bool_decide (se_status e = Some 429) || named "RateLimitError"
  then provider_error pe_rate_limit true ((λ s, s * 1000) <$> se_retryAfter e) message
  else if bool_decide (se_status e = Some 401) || bool_decide (se_status e = Some 403) ||
          named "AuthenticationError" || named "PermissionDeniedError"
  then provider_error pe_authentication false None message
  else if at_least 500 then provider_error pe_overloaded true None message
  else if bool_decide (se_status e = Some 400) || named "BadRequestError" then
    if str_includes "context" text || str_includes "too long" text || str_includes "max_tokens" text
    then provider_error pe_context_length false None message
    else provider_error pe_invalid_request false None message
  else if at_least 400 then provider_error pe_invalid_request false None message
  else if named "APIConnectionError" || named "APIConnectionTimeoutError" then provider_error pe_transport true None message
  else provider_error pe_unknown false None message.

(** ** Capabilities *)
Definition EFFORTS : list EffortLevel := [ef_low; ef_medium; ef_high; ef_xhigh; ef_max].
Record ModelProfile := { mp_maxIn : Z; mp_maxOut : Z; mp_mode : ReasoningMode; mp_forced : bool; mp_efforts : list EffortLevel }.
Definition large_profile (mode : ReasoningMode) (forced : bool) : ModelProfile :=
  {| mp_maxIn := 1000000; mp_maxOut := 128000; mp_mode := mode; mp_forced := forced; mp_efforts := EFFORTS |}.

Definition profile_of (modelId : string) : ModelProfile :=
  default {| mp_maxIn := 200000; mp_maxOut := 8192; mp_mode := rm_none; mp_forced := false; mp_efforts := [] |}
    (assoc_get modelId
       [("claude-opus-5", large_profile rm_adaptive true); ("claude-opus-4-8", large_profile rm_adaptive true);
        ("claude-sonnet-5", large_profile rm_adaptive true);
        ("claude-haiku-4-5", {| mp_maxIn := 200000; mp_maxOut := 64000; mp_mode := rm_budget; mp_forced := true; mp_efforts := [] |});
        ("claude-fable-5-1", large_profile rm_always_on false)]).

Definition capabilitiesFor (modelId : string) : ModelCapabilities :=
  let p := profile_of modelId in {|
  mc_modelId := modelId; mc_maxInputTokens := mp_maxIn p; mc_maxOutputTokens := mp_maxOut p;
  mc_tools := {| ts_supported := true; ts_parallelCalls := true; ts_forcedChoice := mp_forced p; ts_maxTools := None;
                 ts_namePattern := λ s, str_all OpenAI.name_char s && (1 <=? String.length s)%nat && (String.length s <=? 64)%nat;
                 ts_maxNameLength := 64; ts_strictMode := true |};
  mc_promptCache := {| pc_supported := true; pc_strategy := explicit_breakpoints; pc_maxBreakpoints := Some 4; pc_minPrefixTokens := Some 1024 |};
  mc_reasoning := {| rs_supported := negb (bool_decide (mp_mode p = rm_none)); rs_mode := mp_mode p;
                     rs_effortLevels := match mp_efforts p with [] => None | l => Some l end |} |}.

(** ** One call *)
Definition default_model : string := "claude-opus-5".

Record SdkStream := { ss_events : list StreamEvent; ss_error : option SdkError }.

Definition is_finish (e : ProviderEvent) : bool := match e with ev_finish _ _ _ _ => true | _ => false end.

Definition generate (sdk : value → SdkStream) (aborted : bool) (request : GenerationRequest)
    : outcome IllegalName (list ProviderEvent) :=
  let modelId := modelOf request default_model in
  match encodeRequest request modelId (capabilitiesFor modelId) with
  | Throw e => Throw e
  | Ret (body, toolNames) =>
      let stream := sdk body in
      let key := providerKey "anthropic" modelId in
      let '(events, d) := decode toolNames key (ss_events stream) new_decoder in
      Ret (events ++ match ss_error stream with
                     | None => if existsb is_finish events then [] else [finish key d]
                     | Some e => if aborted then [] else [ev_error (mapError e)]
                     end)
  end.

(** ** Reasoning goes back the way it came *)
Definition assistant_message (content : list ContentBlock) (artifacts : option ProviderArtifacts) : CanonicalMessage :=
  {| c_role := RAssistant; c_content := content; c_providerArtifacts := artifacts |}.

(** A turn that thinks, in any number of pieces, and then answers. *)
Definition thinking_turn (block : list (string * value)) (pieces : list string) (signature : value) (answer : string)
    : list StreamEvent :=
  [message_start "msg_1" VNull; content_block_start 0 "thinking" "" "" block] ++
  map (λ p, content_block_delta 0 (thinking_delta p)) pieces ++
  [content_block_delta 0 (signature_delta signature); content_block_stop 0;
   content_block_start 1 "text" "" "" [("type", VString "text")]; content_block_delta 1 (text_delta answer);
   content_block_stop 1; message_delta (Some "end_turn") VNull; message_stop].

Definition thinking_state (raw : list (string * value)) (text : string) : Decoder :=
  {| a_blocks := [(0, {| bs_type := "thinking"; bs_text := text; bs_tool := None; bs_partialJson := ""; bs_raw := Some raw |})];
     a_usage := emptyUsage; a_stopReason := None; a_messageId := "msg_1" |}.

Lemma decode_app toolNames key a b d :
  (decode toolNames key (a ++ b) d).2 = (decode toolNames key b (decode toolNames key a d).2).2.
Proof.
  revert d. induction a as [|e a IH]; intros d; [done|]. cbn [app decode].
  destruct (handle toolNames key e d) as [e1 d1]. specialize (IH d1).
  destruct (decode toolNames key (a ++ b) d1) as [e2 d2], (decode toolNames key a d1) as [e3 d3]. done.
Qed.

Lemma decode_thinking toolNames key raw pieces text :
  (decode toolNames key (map (λ p, content_block_delta 0 (thinking_delta p)) pieces) (thinking_state raw text)).2 =
  thinking_state raw (text +:+ join "" pieces).
Proof.
  revert text. induction pieces as [|p pieces IH]; intros text; [simpl; by rewrite str_app_nil_r|].
  rewrite map_cons. cbn [decode].
  change (handle toolNames key (content_block_delta 0 (thinking_delta p)) (thinking_state raw text))
    with ([ev_reasoning_delta p], thinking_state raw (text +:+ p)).
  specialize (IH (text +:+ p)).
  assert (E : join "" (p :: pieces) = p +:+ join "" pieces) by (by destruct pieces; rewrite ?str_app_nil_r).
  rewrite E, <- str_app_assoc, <- IH. by destruct (decode _ _ _ (thinking_state raw (text +:+ p))) as [e2 d2].
Qed.

(** The opaque block the vendor is sent back: what it sent, with its
    signature and the text of the deltas. *)
Definition sealed (block : list (string * value)) (pieces : list string) (signature : value) : value :=
  VObject (jm_set "thinking" (VString (join "" pieces)) (jm_set "signature" signature block)).

Lemma thinking_turn_decodes toolNames key block pieces signature answer :
  answer ≠ "" →
  let d := (decode toolNames key (thinking_turn block pieces signature answer) new_decoder).2 in
  raw_reasoning d = [sealed block pieces signature] ∧
  List.filter (λ b, negb (isReasoning b)) (finish_content d) = [BText answer].
Proof.
  intros Ha d. subst d. unfold thinking_turn. rewrite !decode_app.
  change (decode toolNames key [message_start "msg_1" VNull; content_block_start 0 "thinking" "" "" block] new_decoder).2
    with (thinking_state block "").
  rewrite decode_thinking. simpl ("" +:+ _). set (t := join "" pieces).
  unfold raw_reasoning, finish_content, sorted_states. simpl. fold t.
  unfold finished_block. simpl. destruct (String.eqb_spec answer ""); [done|]. simpl. by destruct (String.eqb t "").
Qed.

(** A turn of reasoning and text, decoded and sent back with the same model,
    carries the vendor's opaque block verbatim ahead of the text; sent to
    another model it carries the text alone. *)
Theorem reasoning_round_trips (toolNames tools : ToolNameMap) (key other : string) block pieces signature answer :
  answer ≠ "" → other ≠ key →
  let d := (decode toolNames key (thinking_turn block pieces signature answer) new_decoder).2 in
  let message := assistant_message (finish_content d) (finish_artifacts key d) in
  let text := VObject [("type", VString "text"); ("text", VString answer)] in
  encodeMessage message key tools = ("assistant", [sealed block pieces signature; text]) ∧
  encodeMessage message other tools = ("assistant", [text]).
Proof.
  intros Ha Hk d message text.
  destruct (thinking_turn_decodes toolNames key block pieces signature answer Ha) as [Hraw Hvis]. fold d in Hraw, Hvis.
  assert (Harts : finish_artifacts key d = Some [(key, VObject [("blocks", VArray [sealed block pieces signature])])])
    by (unfold finish_artifacts; by rewrite Hraw).
  unfold encodeMessage, message_content, own_blocks, message. simpl. rewrite Hvis, Harts. simpl.
  unfold artifactsForModel. simpl. rewrite String.eqb_refl.
  split; [done|]. by destruct (String.eqb_spec key other).
Qed.

Lemma reasoning_round_trips_witness :
  let d := (decode OpenAI.no_names "anthropic:claude-opus-5"
              (thinking_turn [("type", VString "thinking")] ["Let me "; "see."] (VString "sig") "Tea.") new_decoder).2 in
  encodeMessage (assistant_message (finish_content d) (finish_artifacts "anthropic:claude-opus-5" d)) "anthropic:claude-opus-5"
    OpenAI.no_names =
  ("assistant", [VObject [("type", VString "thinking"); ("signature", VString "sig"); ("thinking", VString "Let me see.")];
                 VObject [("type", VString "text"); ("text", VString "Tea.")]]).
Proof.
  destruct (reasoning_round_trips OpenAI.no_names OpenAI.no_names "anthropic:claude-opus-5" "openai:gpt-5"
              [("type", VString "thinking")] ["Let me "; "see."] (VString "sig") "Tea.") as [H0 _]; [discriminate..|].
  exact H0.
Defined.

(** The adapter's artifacts are already keyed by the model; the runtime files
    them under a key of its own, and the prompt assembler hands that back.
    The adapter then finds no blocks, whatever the keys: reasoning is never
    replayed. *)
Lemma stored_reasoning_is_not_replayed (m : Message) (modelId ctxKey ownKey : string) (d : Decoder) :
  m_providerArtifacts m = (λ a, [(ctxKey, VObject a)]) <$> finish_artifacts (providerKey "anthropic" modelId) d →
  own_blocks (ContextAssembler.toCanonical m ctxKey).1 ownKey = None.
Proof.
  intros Hm. unfold own_blocks, ContextAssembler.toCanonical. simpl. rewrite Hm.
  unfold finish_artifacts. destruct (raw_reasoning d) as [|r rs]; [done|]. simpl.
  rewrite String.eqb_refl. simpl. destruct (String.eqb ctxKey ownKey); done.
Qed.

Lemma anthropic_ignores_the_configured_model sdk sdk' aborted request :
  (∀ body, field "model" body = Some (VString default_model) → sdk body = sdk' body) →
  generate sdk aborted request = generate sdk' aborted request.
Proof.
  intros Hs. unfold generate, encodeRequest. destruct (buildToolNameMap _ _) as [m|]; [|done].
  rewrite Hs; [done|]. reflexivity.
Qed.
End Anthropic.
