(* ===== verification/Resolver.v ===== *)
(** * Resolving a run

    Models packages/runtime/src/resolver.ts, the provider registry of
    packages/providers/registry/src/index.ts, the reads of
    ModelBindingRepository (packages/db/src/repositories/catalog.ts) and the
    dependencies openSession gives the resolver in
    apps/web/src/lib/container.ts.  A dependency may fail; the computation
    keeps a log of the calls it made, because which calls are made before the
    principal is accepted is part of what the resolver promises.  The adapters
    and the decryption of credentials are parameters. *)
From S2P Require Import Prelude Json Entities Principal Budget Mongo RunQueue Model ModelCall AgentRuntime.

(** ** Stored models *)
Record ModelCost := { co_inputPerMTok : Q; co_outputPerMTok : Q; co_cacheReadPerMTok : option Q }.

Record ModelBindingDoc := {
  mb_id : string;
  mb_providerConfigId : string;
  mb_modelId : string;
  mb_role : string;
  mb_cost : ModelCost;
  mb_fallbackBindingId : option string;
  mb_enabled : bool;
}.

Record ProviderConfigDoc := { pv_id : string; pv_providerType : string; pv_enabled : bool }.

(** ** The resolver *)
Record ModelBinding := {
  bi_id : string;
  bi_providerType : string;
  bi_modelId : string;
  bi_rates : option ModelRates;
  bi_fallbackBindingId : option string;
  bi_maxOutputTokens : option Z;
}.

Definition keyOf (binding : ModelBinding) : string := providerKey (bi_providerType binding) (bi_modelId binding).

Inductive ResolveError :=
| PrincipalRevokedError (runId : string)
| ModelUnavailableError (bindingId detail : string)
| DependencyError (message : string).

(** The calls the resolver makes on its dependencies. *)
Inductive DepCall :=
| c_revalidatePrincipal (p : Principal)
| c_loadModelBinding (bindingId : string)
| c_has (providerType : string)
| c_credentialsFor (bindingId : string)
| c_create (providerType : string)
| c_describeModel (modelId : string)
| c_bindingIdByAlias (workspaceId : string)
| c_systemDirectives.

(** A computation that may fail and logs its calls. *)
Definition Res (A : Type) : Type := outcome ResolveError A * list DepCall.
Definition rret {A} (a : A) : Res A := (Ret a, []).
Definition rfail {A} (e : ResolveError) : Res A := (Throw e, []).
Definition rbind {A B} (m : Res A) (k : A → Res B) : Res B :=
  match m with
  | (Ret a, log) => let '(r, log') := k a in (r, log ++ log')
  | (Throw e, log) => (Throw e, log)
  end.
Arguments rbind : simpl never.
Notation "'let!' x := m 'in' k" := (rbind m (λ x, k)) (at level 200, x pattern, right associativity).

(** [.catch(() => undefined)]. *)
Definition rcatch {A} (m : Res A) : Res (option A) :=
  match m with (Ret a, log) => (Ret (Some a), log) | (Throw _, log) => (Ret None, log) end.

Section Resolver.
Context {Provider Credentials : Type}.

Record ResolverDeps := {
  rd_has : string → bool;
  rd_create : string → Credentials → outcome string Provider;
  rd_loadModelBinding : string → outcome string (option ModelBinding);
  rd_credentialsFor : ModelBinding → outcome string Credentials;
  rd_describeModel : Provider → string → outcome string ModelCapabilities;
  rd_revalidatePrincipal : Principal → outcome string (option Principal);
  rd_bindingIdByAlias : string → outcome string (gmap string string);
  rd_systemDirectives : RunDoc → outcome string (list SystemDirective);
}.

Definition ask_dep {A} (call : DepCall) (answer : outcome string A) : Res A :=
  (match answer with Ret a => Ret a | Throw m => Throw (DependencyError m) end, [call]).

Record Loaded := { ld_binding : ModelBinding; ld_provider : Provider; ld_capabilities : ModelCapabilities }.

Definition load (deps : ResolverDeps) (bindingId : string) : Res Loaded :=
  let! found := ask_dep (c_loadModelBinding bindingId) (rd_loadModelBinding deps bindingId) in
  match found with
  | None => rfail (ModelUnavailableError bindingId ("Model binding " +:+ bindingId +:+ " does not exist."))
  | Some binding =>
      let! known := ask_dep (c_has (bi_providerType binding)) (Ret (rd_has deps (bi_providerType binding))) in
      if negb known
      then rfail (ModelUnavailableError bindingId
                    ("No adapter is registered for provider type " +:+ dquote +:+ bi_providerType binding +:+ dquote +:+ "."))
      else
        let! credentials := ask_dep (c_credentialsFor (bi_id binding)) (rd_credentialsFor deps binding) in
        let! provider := ask_dep (c_create (bi_providerType binding)) (rd_create deps (bi_providerType binding) credentials) in
        let! capabilities := ask_dep (c_describeModel (bi_modelId binding)) (rd_describeModel deps provider (bi_modelId binding)) in
        rret {| ld_binding := binding; ld_provider := provider; ld_capabilities := capabilities |}
  end.

Definition context_of (run : RunDoc) (principal : Principal) (loaded : Loaded) : RunContext := {|
  rx_runId := run_id run; rx_workspaceId := sp_workspaceId (run_spec run);
  rx_conversationId := sp_conversationId (run_spec run); rx_agentId := sp_agentId (run_spec run);
  rx_agentSnapshot := sp_agentSnapshot (run_spec run); rx_modelBindingId := sp_modelBindingId (run_spec run);
  rx_providerKey := keyOf (ld_binding loaded); rx_capabilities := ld_capabilities loaded; rx_principal := principal;
  rx_budget := sp_budget (run_spec run); rx_consumed := run_consumed run; rx_stepSeq := run_nextStepSeq run |}.

Definition attempts (loaded : Loaded) (fallback_ : option Loaded) : list (Provider * string * AttemptLabel) :=
  (ld_provider loaded, bi_modelId (ld_binding loaded), primary) ::
  match fallback_ with
  | Some f => [(ld_provider f, bi_modelId (ld_binding f), fallback)]
  | None => []
  end.

(** The resolved run and the providers of its attempts. *)
Definition resolve (deps : ResolverDeps) (run : RunDoc) : Res (ResolvedRun * list (Provider * string * AttemptLabel)) :=
  let spec := run_spec run in
  let! revalidated := ask_dep (c_revalidatePrincipal (sp_principal spec)) (rd_revalidatePrincipal deps (sp_principal spec)) in
  match revalidated with
  | None => rfail (PrincipalRevokedError (run_id run))
  | Some principal =>
      let! loaded := load deps (sp_modelBindingId spec) in
      let! fallback_ :=
        match bi_fallbackBindingId (ld_binding loaded) with
        | Some id => rcatch (load deps id)
        | None => rret None
        end in
      let! aliases := ask_dep (c_bindingIdByAlias (sp_workspaceId spec)) (rd_bindingIdByAlias deps (sp_workspaceId spec)) in
      let! directives := ask_dep c_systemDirectives (rd_systemDirectives deps run) in
      let limit := mc_maxOutputTokens (ld_capabilities loaded) in
      rret ({| rr_ctx := context_of run principal loaded;
               rr_attemptsFor := λ _, map (λ a, (a.1.2, a.2)) (attempts loaded fallback_);
               rr_rates := bi_rates (ld_binding loaded);
               rr_bindingIdByAlias := aliases;
               rr_systemDirectives := directives;
               rr_maxOutputTokens := default limit (bi_maxOutputTokens (ld_binding loaded)) `min` limit |},
            attempts loaded fallback_)
  end.

(** ** The provider registry *)
Record AgentProviderFactory := { fa_providerType : string; fa_create : Credentials → Provider }.

(** [new Map(factories.map(...))]: a later factory of a type replaces an earlier one. *)
Definition factory_map (factories : list AgentProviderFactory) : list (string * AgentProviderFactory) :=
  foldl (λ m f, jm_set (fa_providerType f) f m) [] factories.
Definition registry_has (factories : list AgentProviderFactory) (providerType : string) : bool :=
  bool_decide (is_Some (jm_get providerType (factory_map factories))).
Definition registry_create (factories : list AgentProviderFactory) (providerType : string) (c : Credentials)
    : outcome string Provider :=
  match jm_get providerType (factory_map factories) with
  | Some f => Ret (fa_create f c)
  | None => Throw ("No adapter for provider type " +:+ dquote +:+ providerType +:+ dquote)
  end.
Definition knownTypes (factories : list AgentProviderFactory) : list string := (factory_map factories).*1.

(** ** The dependencies of a deployment *)
Section Container.
Context {CB CP : Type} `{CollectionLaws ModelBindingDoc CB, CollectionLaws ProviderConfigDoc CP}.
Context (bindings : CB) (providers : CP) (factories : list AgentProviderFactory).
Context (decrypt : ProviderConfigDoc → outcome string Credentials) (no_credentials : Credentials).
Context (describe : Provider → string → outcome string ModelCapabilities).
Context (aliases : gmap string string) (directives : RunDoc → list SystemDirective).

Definition findById (bindingId : string) : option ModelBindingDoc := docs bindings !! bindingId.
Definition providerFor (doc : ModelBindingDoc) : option ProviderConfigDoc := docs providers !! mb_providerConfigId doc.

Definition toModelBinding (doc : ModelBindingDoc) : ModelBinding := {|
  bi_id := mb_id doc; bi_providerType := mb_providerConfigId doc; bi_modelId := mb_modelId doc;
  bi_rates := Some {| inputPerMTok := co_inputPerMTok (mb_cost doc); outputPerMTok := co_outputPerMTok (mb_cost doc);
                      cacheReadPerMTok := co_cacheReadPerMTok (mb_cost doc); cacheWritePerMTok := None |};
  bi_fallbackBindingId := mb_fallbackBindingId doc; bi_maxOutputTokens := None |}.

Definition loadModelBinding (bindingId : string) : option ModelBinding :=
  doc ← findById bindingId;
  provider ← providerFor doc;
  Some {| bi_id := bi_id (toModelBinding doc); bi_providerType := pv_providerType provider;
          bi_modelId := bi_modelId (toModelBinding doc); bi_rates := bi_rates (toModelBinding doc);
          bi_fallbackBindingId := bi_fallbackBindingId (toModelBinding doc);
          bi_maxOutputTokens := bi_maxOutputTokens (toModelBinding doc) |}.

Definition credentialsFor (binding : ModelBinding) : outcome string Credentials :=
  match (doc ← findById (bi_id binding); providerFor doc) with
  | Some provider => decrypt provider
  | None => Ret no_credentials
  end.

Definition revalidatePrincipal (current : Principal) : option Principal := Some current.

Definition container_deps : ResolverDeps := {|
  rd_has := registry_has factories; rd_create := registry_create factories;
  rd_loadModelBinding := λ id, Ret (loadModelBinding id); rd_credentialsFor := credentialsFor;
  rd_describeModel := describe; rd_revalidatePrincipal := λ p, Ret (revalidatePrincipal p);
  rd_bindingIdByAlias := λ _, Ret aliases; rd_systemDirectives := λ run, Ret (directives run) |}.
End Container.
End Resolver.
Arguments ResolverDeps : clear implicits.
Arguments Loaded : clear implicits.

(** ** What resolution promises *)
Lemma rbind_ret {A B} (m : Res A) (k : A → Res B) b :
  (rbind m k).1 = Ret b ↔ ∃ a, m.1 = Ret a ∧ (k a).1 = Ret b.
Proof.
  unfold rbind. destruct m as [[a|e] log]; simpl; [|naive_solver].
  destruct (k a) as [r log'] eqn:E; simpl. split; [exists a; by rewrite E|].
  intros (a' & [= <-] & H). by rewrite E in H.
Qed.

Lemma rbind_throw {A B} (m : Res A) (k : A → Res B) e :
  (rbind m k).1 = Throw e ↔ m.1 = Throw e ∨ ∃ a, m.1 = Ret a ∧ (k a).1 = Throw e.
Proof.
  unfold rbind. destruct m as [[a|e'] log]; simpl; [|naive_solver].
  destruct (k a) as [r log'] eqn:E; simpl. split; [right; exists a; by rewrite E|].
  intros [|(a' & [= <-] & H)]; [done|]. by rewrite E in H.
Qed.

Section Promises.
Context {Provider Credentials : Type} (deps : ResolverDeps Provider Credentials).

Lemma ask_dep_ret {A} call (answer : outcome string A) a : (ask_dep call answer).1 = Ret a ↔ answer = Ret a.
Proof. destruct answer; simpl; naive_solver. Qed.

Lemma ask_dep_throw {A} call (answer : outcome string A) e :
  (ask_dep call answer).1 = Throw e ↔ ∃ m, answer = Throw m ∧ e = DependencyError m.
Proof. destruct answer; simpl; naive_solver. Qed.

Lemma rcatch_ret {A} (m : Res A) : ∃ r, (rcatch m).1 = Ret r ∧ (r = None ↔ ∃ e, m.1 = Throw e).
Proof. destruct m as [[a|e] log]; simpl; eexists; (split; [done|]); naive_solver. Qed.

(** A loaded binding is the stored one, with an adapter that exists. *)
Lemma load_ret id l :
  (load deps id).1 = Ret l →
  rd_loadModelBinding deps id = Ret (Some (ld_binding l)) ∧ rd_has deps (bi_providerType (ld_binding l)) = true.
Proof.
  unfold load. intros (found & Hf & H)%rbind_ret. apply ask_dep_ret in Hf.
  destruct found as [b|]; [|done]. apply rbind_ret in H as (known & Hk & H). apply ask_dep_ret in Hk.
  destruct known; [|done]. simpl in H. injection Hk as Hk.
  apply rbind_ret in H as (cr & _ & H). apply rbind_ret in H as (pr & _ & H).
  apply rbind_ret in H as (ca & _ & H). injection H as <-. simpl. done.
Qed.

(** The calls that touch a model or its credentials. *)
Definition touches_model (call : DepCall) : bool :=
  match call with c_revalidatePrincipal _ => false | _ => true end.

Lemma resolution_cases (run : RunDoc) (e : ResolveError) :
  (resolve deps run).1 = Throw e →
  let spec := run_spec run in
  (rd_revalidatePrincipal deps (sp_principal spec) = Ret None ∧ e = PrincipalRevokedError (run_id run) ∧
   Forall (λ call, touches_model call = false) (resolve deps run).2) ∨
  (∃ m, rd_revalidatePrincipal deps (sp_principal spec) = Throw m ∧ e = DependencyError m ∧
        Forall (λ call, touches_model call = false) (resolve deps run).2) ∨
  (load deps (sp_modelBindingId spec)).1 = Throw e ∨
  (∃ m, e = DependencyError m ∧
        (rd_bindingIdByAlias deps (sp_workspaceId spec) = Throw m ∨ rd_systemDirectives deps run = Throw m)).
Proof.
  intros H spec. unfold resolve in *. fold spec in H |- *.
  destruct (rd_revalidatePrincipal deps (sp_principal spec)) as [[p|]|m] eqn:Ep.
  - right. right. apply rbind_throw in H as [H|(p' & Hp & H)]; [done|].
    simpl in Hp. injection Hp as <-.
    apply rbind_throw in H as [H|(l & Hl & H)]; [by left|right].
    apply rbind_throw in H as [H|(f & Hf & H)].
    { destruct (bi_fallbackBindingId (ld_binding l)); [|done]. destruct (rcatch_ret (load deps s)) as (r & Hr & _). congruence. }
    apply rbind_throw in H as [H|(al & Hal & H)].
    { apply ask_dep_throw in H as (m & Hm & ->). eauto. }
    apply rbind_throw in H as [H|(d & Hd & H)]; [|done].
    apply ask_dep_throw in H as (m & Hm & ->). eauto.
  - left. unfold rbind in *. simpl in *. split; [done|]. split; [naive_solver|]. by repeat constructor.
  - right. left. exists m. unfold rbind in *. simpl in *. split; [done|]. split; [naive_solver|]. by repeat constructor.
Qed.

(** The ways resolution can fail: the principal lost its authority, and then
    nothing else was loaded and no credential decrypted; the primary model
    could not be loaded; or the aliases or the directives could not be read.
    A fallback that cannot be loaded never fails a run. *)
Theorem resolution_fails_only_for_the_primary (run : RunDoc) (e : ResolveError) :
  (resolve deps run).1 = Throw e →
  let spec := run_spec run in
  (rd_revalidatePrincipal deps (sp_principal spec) = Ret None ∧ e = PrincipalRevokedError (run_id run) ∧
   Forall (λ call, touches_model call = false) (resolve deps run).2) ∨
  (∃ m, rd_revalidatePrincipal deps (sp_principal spec) = Throw m ∧ e = DependencyError m ∧
        Forall (λ call, touches_model call = false) (resolve deps run).2) ∨
  (load deps (sp_modelBindingId spec)).1 = Throw e ∨
  (∃ m, e = DependencyError m ∧
        (rd_bindingIdByAlias deps (sp_workspaceId spec) = Throw m ∨ rd_systemDirectives deps run = Throw m)).
Proof. apply resolution_cases. Qed.

(** A resolved run keeps what was fixed when it was created: the agent
    snapshot, the budget and the conversation come from the run, the principal
    is the revalidated one, and the model is the run's binding.  Its output
    limit is at most the model's and the binding's; the first attempt is the
    primary, and there is a second exactly when the binding names a fallback
    that loads. *)
Theorem resolved_run_is_pinned (run : RunDoc) r tries :
  (resolve deps run).1 = Ret (r, tries) →
  let spec := run_spec run in let ctx := rr_ctx r in
  rx_agentSnapshot ctx = sp_agentSnapshot spec ∧ rx_budget ctx = sp_budget spec ∧ rx_consumed ctx = run_consumed run ∧
  rx_stepSeq ctx = run_nextStepSeq run ∧ rx_conversationId ctx = sp_conversationId spec ∧
  rd_revalidatePrincipal deps (sp_principal spec) = Ret (Some (rx_principal ctx)) ∧
  ∃ l, (load deps (sp_modelBindingId spec)).1 = Ret l ∧
    rd_loadModelBinding deps (sp_modelBindingId spec) = Ret (Some (ld_binding l)) ∧
    rr_maxOutputTokens r <= mc_maxOutputTokens (rx_capabilities ctx) ∧
    (∀ n, bi_maxOutputTokens (ld_binding l) = Some n → rr_maxOutputTokens r <= n) ∧
    tries !! 0%nat = Some (ld_provider l, bi_modelId (ld_binding l), primary) ∧ (length tries <= 2)%nat ∧
    ∀ f, tries !! 1%nat = Some f ↔
      ∃ id l', bi_fallbackBindingId (ld_binding l) = Some id ∧ (load deps id).1 = Ret l' ∧
        f = (ld_provider l', bi_modelId (ld_binding l'), fallback).
Proof.
  intros H spec ctx. unfold resolve in H. fold spec in H.
  apply rbind_ret in H as (p & Hp & H). apply ask_dep_ret in Hp. destruct p as [p|]; [|done].
  apply rbind_ret in H as (l & Hl & H). apply rbind_ret in H as (fb & Hfb & H).
  apply rbind_ret in H as (al & _ & H). apply rbind_ret in H as (di & _ & H).
  injection H as <- <-. split_and!; [done..|]. exists l. split; [done|].
  destruct (load_ret _ _ Hl) as [Hb _]. split_and!; [done| | |done| |]; simpl.
  - lia.
  - intros n Hn. rewrite Hn. simpl. lia.
  - destruct fb; simpl; lia.
  - intros f. destruct (bi_fallbackBindingId (ld_binding l)) as [id|] eqn:Ef.
    + destruct (load deps id) as [[l'|e'] log] eqn:El; simpl in Hfb; injection Hfb as <-; simpl.
      * split; [intros [= <-]; exists id, l'; by rewrite El|].
        intros (id' & l2 & [= <-] & H2 & ->). rewrite El in H2. by injection H2 as <-.
      * split; [done|]. intros (id' & l2 & [= <-] & H2 & ->). by rewrite El in H2.
    + simpl in Hfb. injection Hfb as <-. simpl. split; [done|]. by intros (? & ? & ? & _).
Qed.
End Promises.

(** ** A deployment *)
Definition haiku : ModelBindingDoc := {|
  mb_id := "mb_1"; mb_providerConfigId := "pc_1"; mb_modelId := "claude-haiku"; mb_role := "default";
  mb_cost := {| co_inputPerMTok := 1; co_outputPerMTok := 5; co_cacheReadPerMTok := None |};
  mb_fallbackBindingId := Some "mb_gone"; mb_enabled := true |}.

Definition no_tools : ToolSupport := {|
  ts_supported := false; ts_parallelCalls := false; ts_forcedChoice := false; ts_maxTools := None;
  ts_namePattern := λ _, true; ts_maxNameLength := 64; ts_strictMode := false |}.
Definition plain_model (modelId : string) : ModelCapabilities := {|
  mc_modelId := modelId; mc_maxInputTokens := 100000; mc_maxOutputTokens := 8192; mc_tools := no_tools;
  mc_promptCache := {| pc_supported := false; pc_strategy := no_cache; pc_maxBreakpoints := None; pc_minPrefixTokens := None |}; mc_reasoning := no_reasoning |}.

Definition deployment (bindings : gmap string ModelBindingDoc) : ResolverDeps string unit :=
  container_deps (CB := gmap string ModelBindingDoc) (CP := gmap string ProviderConfigDoc) bindings
    {["pc_1" := {| pv_id := "pc_1"; pv_providerType := "anthropic"; pv_enabled := true |}]}
    [{| fa_providerType := "anthropic"; fa_create := λ _, "adapter" |}] (λ _, Ret tt) tt
    (λ _ modelId, Ret (plain_model modelId)) ∅ (λ _, []).

Definition a_spec : RunSpec := {|
  sp_workspaceId := "ws_1"; sp_conversationId := "conv_1"; sp_agentId := "agent_1"; sp_agentVersionId := "av_1";
  sp_agentSnapshot := {| as_systemPrompt := "Be brief."; as_modelRole := mr_chat; as_capabilityBindings := [];
                         as_maxToolCallsPerTurn := 6 |};
  sp_modelBindingId := "mb_1"; sp_trigger := (tr_user, None); sp_principal := PUser "usr_1" "ws_1" admin;
  sp_budget := DEFAULT_BUDGET; sp_parentRunId := None; sp_depth := 0; sp_idempotencyKey := None; sp_queuedAt := 0 |}.
Definition a_run : RunDoc := new_run "run_1" a_spec None 0.

Lemma resolution_fails_only_for_the_primary_witness :
  (resolve (deployment ∅) a_run).1 = Throw (ModelUnavailableError "mb_1" "Model binding mb_1 does not exist.") ∧
  (load (deployment ∅) "mb_1").1 = Throw (ModelUnavailableError "mb_1" "Model binding mb_1 does not exist.").
Proof.
  assert (H : (resolve (deployment ∅) a_run).1 = Throw (ModelUnavailableError "mb_1" "Model binding mb_1 does not exist."))
    by (vm_compute; reflexivity).
  split; [exact H|].
  destruct (resolution_fails_only_for_the_primary (deployment ∅) a_run _ H) as [(E & _)|[(m & E & _)|[E|(m & E & _)]]];
    [discriminate..|exact E|discriminate].
Defined.

(** The fallback of the binding is gone; the run resolves with the primary. *)
Lemma resolved_run_is_pinned_witness :
  ∃ r, (resolve (deployment {["mb_1" := haiku]}) a_run).1 = Ret (r, [("adapter", "claude-haiku", primary)]) ∧
    rr_maxOutputTokens r = 8192 ∧ rx_agentSnapshot (rr_ctx r) = sp_agentSnapshot a_spec.
Proof.
  destruct (resolve (deployment {["mb_1" := haiku]}) a_run).1 as [[r tries]|e] eqn:E; [|vm_compute in E; discriminate].
  exists r. destruct (resolved_run_is_pinned (deployment {["mb_1" := haiku]}) a_run r tries E) as (Hs & _).
  vm_compute in E. injection E as <- <-. done.
Defined.

(** The revalidation a deployment wires in accepts every principal, so no run
    is ever stopped because its principal lost its authority. *)
Lemma container_never_revokes {Provider Credentials CB CP} `{CollectionLaws ModelBindingDoc CB, CollectionLaws ProviderConfigDoc CP}
    bindings providers (factories : list (@AgentProviderFactory Provider Credentials)) decrypt none describe aliases directives run e :
  (resolve (container_deps (CB := CB) (CP := CP) bindings providers factories decrypt none describe aliases directives) run).1
    = Throw e → e ≠ PrincipalRevokedError (run_id run).
Proof.
  intros Ht ->. apply resolution_cases in Ht as [(E & _)|[(m & E & _)|[E|(m & E & _)]]]; [discriminate..| |discriminate].
  unfold load in E. apply rbind_throw in E as [E|(f & _ & E)]; [by apply ask_dep_throw in E as (? & ? & ?)|].
  destruct f as [b|]; [|discriminate].
  apply rbind_throw in E as [E|(k & _ & E)]; [by apply ask_dep_throw in E as (? & ? & ?)|].
  destruct k; [|discriminate]. simpl in E.
  do 3 (apply rbind_throw in E as [E|(? & _ & E)]; [by apply ask_dep_throw in E as (? & ? & ?)|]). discriminate.
Qed.
