(* ===== verification/Guard.v ===== *)
(** * The tenancy guard and the scoped collections

    Models packages/db/src/guard.ts (the analysis of a command), scoped.ts
    (what each method of [ScopedCollection] hands to the driver) and the
    classification of packages/db/src/collections.ts.  What a filter selects is
    the business of the MongoDB server: the section [Query] takes the matching
    relation as a parameter and relies on the documented meaning of the
    operators the guard looks at, the class [QueryLaws].  Commands, filters and
    documents are JSON values; regular expressions are not among them. *)
From S2P Require Import Prelude Json Entities.

(** ** Classified collections (collections.ts) *)

Definition GLOBAL_COLLECTIONS : list string :=
  ["users"; "platformSettings"; "demoUsage"; "authSessions"; "identities"; "authChallenges"; "oauthClients"].
Definition TENANT_COLLECTIONS : list string :=
  ["workspaces"; "apiKeys"; "credentials"; "oauthConnections"; "oauthGrants"; "providerConfigs"; "modelBindings";
   "agents"; "agentVersions"; "mcpServerBindings"; "mcpCapabilities"; "policies"; "conversations"; "messages";
   "runs"; "runSteps"; "runEvents"; "approvals"; "channels"; "channelIdentities"; "channelEvents"; "auditLog";
   "usageDaily"; "subscriptions"; "schedules"; "memoryEntries"; "knowledgeDocuments"; "knowledgeChunks"; "media"].
Definition MIXED_COLLECTIONS : list string := ["mcpServers"].

Inductive Tenancy := ten_tenant | ten_global | ten_mixed | ten_unknown.
#[global] Instance Tenancy_eq_dec : EqDecision Tenancy.
Proof. solve_decision. Defined.

Definition tenancyOf (collection : string) : Tenancy :=
  if bool_decide (collection ∈ TENANT_COLLECTIONS) then ten_tenant
  else if bool_decide (collection ∈ GLOBAL_COLLECTIONS) then ten_global
  else if bool_decide (collection ∈ MIXED_COLLECTIONS) then ten_mixed
  else ten_unknown.
Definition isTenantCollection (c : string) : bool := bool_decide (c ∈ TENANT_COLLECTIONS).

(** ** The guard (guard.ts) *)

Definition PLATFORM_MARKER : string := "salvations:platform".
Definition TENANT_KEY : string := "workspaceId".

Inductive ViolationReason := missing_workspace_filter | missing_workspace_on_insert | unknown_collection.

Record GuardViolation := {
  gv_collection : string;
  gv_commandName : string;
  gv_reason : ViolationReason;
  gv_detail : string;
}.

Inductive GuardMode := mode_throw | mode_report.

Definition isPlainObject (v : value) : bool :=
  match v with VObject _ => true | _ => false end.

(** A property of an object; [undefined] when it is absent, or on anything
    else. *)
Definition own (v : value) (key : string) : value :=
  match v with VObject es => default VUndefined (assoc_get key es) | _ => VUndefined end.

(** A test of the value under a key, [false] when the key is absent. *)
Definition at_key (key : string) (test : value → bool) : list (string * value) → bool :=
  fix go es :=
    match es with
    | [] => false
    | (k, v) :: es' => if String.eqb k key then test v else go es'
    end.

(** What stands under [workspaceId] narrows it: a plain value, or operators
    among which [$eq] or a list of [$in] that is not empty. *)
Definition tenant_narrows (v : value) : bool :=
  match v with
  | VObject ops =>
      existsb (λ op, String.eqb op.1 "$eq" || String.eqb op.1 "$in") ops &&
      (negb (existsb (λ op, String.eqb op.1 "$in") ops) ||
       at_key "$in" (λ xs, match xs with VArray (_ :: _) => true | _ => false end) ops)
  | _ => true
  end.

Fixpoint filterConstrainsWorkspace (filter : value) : bool :=
  match filter with
  | VObject es =>
      if existsb (λ e, String.eqb e.1 TENANT_KEY) es then at_key TENANT_KEY tenant_narrows es
      else
        at_key "$and" (λ v, match v with VArray fs => existsb filterConstrainsWorkspace fs | _ => false end) es ||
        at_key "$or" (λ v, match v with
                           | VArray [] => false
                           | VArray fs => forallb filterConstrainsWorkspace fs
                           | _ => false
                           end) es ||
        at_key "$nor" (λ v, match v with
                            | VArray [] => false
                            | VArray fs => forallb filterConstrainsWorkspace fs
                            | _ => false
                            end) es
  | _ => false
  end.

(** The first search stage that is there with an object for its body. *)
Fixpoint search_body (first : value) (stages : list string) : option value :=
  match stages with
  | [] => None
  | s :: stages' => if isPlainObject (own first s) then Some (own first s) else search_body first stages'
  end.
Definition SEARCH_STAGES : list string := ["$search"; "$vectorSearch"; "$searchMeta"].

Definition pipelineConstrainsWorkspace (pipeline : value) : bool :=
  match pipeline with
  | VArray (first :: _) =>
      if negb (isPlainObject first) then false
      else if isPlainObject (own first "$match") then filterConstrainsWorkspace (own first "$match")
      else match search_body first SEARCH_STAGES with
           | Some body =>
               filterConstrainsWorkspace (own body "filter") || filterConstrainsWorkspace (own body "compound")
           | None => false
           end
  | _ => false
  end.

Definition declaresPlatformIntent (command : value) : bool :=
  match own command "comment" with
  | VString c => String.prefix PLATFORM_MARKER c
  | VObject _ as c => match own c "salvations" with VString m => String.prefix "platform" m | _ => false end
  | _ => false
  end.

Definition IGNORED_COMMANDS : list string :=
  ["ping"; "hello"; "ismaster"; "buildInfo"; "getMore"; "killCursors"; "endSessions"; "createIndexes"; "listIndexes";
   "dropIndexes"; "listCollections"; "listDatabases"; "create"; "drop"; "collMod"; "saslStart"; "saslContinue";
   "authenticate"; "logout"; "abortTransaction"; "commitTransaction"; "aggregate:admin"].

(** [a ?? b]. *)
Definition or_else (a b : value) : value :=
  match a with VUndefined | VNull => b | _ => a end.

(** The statements of an [update] or a [delete]. *)
Definition statements_constrained (us : list value) : bool :=
  forallb (λ u, isPlainObject u && filterConstrainsWorkspace (own u "q")) us.

Definition stamped (d : value) : bool :=
  isPlainObject d && match own d TENANT_KEY with VString w => negb (String.eqb w "") | _ => false end.

Definition analyzeCommand (commandName : string) (command : value) : option GuardViolation :=
  if bool_decide (commandName ∈ IGNORED_COMMANDS) then None
  else
    match own command commandName with
    | VString collection =>
        let violation reason detail :=
          Some {| gv_collection := collection; gv_commandName := commandName; gv_reason := reason; gv_detail := detail |} in
        let missing := violation missing_workspace_filter
          (commandName +:+ " on " +:+ dquote +:+ collection +:+ dquote +:+ " without a workspaceId constraint") in
        let unless (ok : bool) v := if ok then None else v in
        match tenancyOf collection with
        | ten_global => None
        | ten_unknown => violation unknown_collection
            ("Collection " +:+ dquote +:+ collection +:+ dquote +:+ " is not classified in collections.ts. " +:+
             "Classify it as tenant, global or mixed — an unclassified collection is unguarded.")
        | ten_tenant | ten_mixed =>
            if declaresPlatformIntent command then None
            else if bool_decide (commandName ∈ ["find"; "count"; "distinct"]) then
              unless (filterConstrainsWorkspace (or_else (own command "filter") (own command "query"))) missing
            else if String.eqb commandName "aggregate" then
              unless (pipelineConstrainsWorkspace (own command "pipeline"))
                (violation missing_workspace_filter
                  ("aggregate on " +:+ dquote +:+ collection +:+ dquote +:+ " must begin with a workspaceId $match, " +:+
                   "or carry the tenant filter inside its $search/$vectorSearch stage"))
            else if String.eqb commandName "findAndModify" then
              unless (filterConstrainsWorkspace (own command "query")) missing
            else if String.eqb commandName "update" then
              match own command "updates" with
              | VArray us => unless (statements_constrained us) missing
              | _ => None
              end
            else if String.eqb commandName "delete" then
              match own command "deletes" with
              | VArray us => unless (statements_constrained us) missing
              | _ => None
              end
            else if String.eqb commandName "insert" then
              match own command "documents" with
              | VArray ds => unless (forallb stamped ds)
                  (violation missing_workspace_on_insert
                    ("insert into " +:+ dquote +:+ collection +:+ dquote +:+ " with a document carrying no workspaceId"))
              | _ => None
              end
            else None
        end
    | _ => None
    end.

(** [handleCommandStarted]: what was reported, and whether it throws. *)
Definition handleCommandStarted (mode : GuardMode) (commandName : string) (command : value)
    : option GuardViolation * outcome GuardViolation unit :=
  match analyzeCommand commandName command with
  | None => (None, Ret ())
  | Some v => (Some v, match mode with mode_throw => Throw v | mode_report => Ret () end)
  end.

Definition defaultGuardMode (nodeEnv : option string) : GuardMode :=
  if bool_decide (nodeEnv = Some "production") then mode_report else mode_throw.

(** ** Scoped collections (scoped.ts) *)

Inductive ScopeError :=
| scope_violation (detail : string)
| not_tenant_scoped (name : string)
| ungateable_stage (stage : string).

Definition has_own (v : value) (key : string) : bool :=
  match v with VObject es => existsb (λ e, String.eqb e.1 key) es | _ => false end.

(** The own properties that a spread copies. *)
Definition entries_of (v : value) : list (string * value) :=
  match v with VObject es => es | _ => [] end.

(** [{ ...v, [key]: x }]: the property is set in place when it is there. *)
Fixpoint set_entry (key : string) (x : value) (es : list (string * value)) : list (string * value) :=
  match es with
  | [] => [(key, x)]
  | (k, v) :: es' => if String.eqb k key then (k, x) :: es' else (k, v) :: set_entry key x es'
  end.

Definition scopeFilter (workspaceId : string) (filter : value) : outcome ScopeError value :=
  if has_own filter TENANT_KEY then Throw (scope_violation "Filter must not specify workspaceId.")
  else Ret (VObject (set_entry TENANT_KEY (VString workspaceId) (entries_of filter))).

Definition scopeInsert (workspaceId : string) (doc : value) : outcome ScopeError value :=
  let stamp := VObject (set_entry TENANT_KEY (VString workspaceId) (entries_of doc)) in
  let claimed := own doc TENANT_KEY in
  if is_undefined claimed || match claimed with VString w => String.eqb w workspaceId | _ => false end then Ret stamp
  else Throw (scope_violation
    ("Document claims workspace " +:+ js_string claimed +:+ " but the scope is " +:+ workspaceId +:+ ".")).

(** The methods of [ScopedCollection] with their arguments; options that are left out are
    [undefined]. *)
Inductive ScopedCall :=
| sc_findOne (filter options : value)
| sc_find (filter options : value)
| sc_countDocuments (filter : value)
| sc_insertOne (doc : value)
| sc_insertMany (docs : list value)
| sc_updateOne (filter update options : value)
| sc_updateMany (filter update options : value)
| sc_findOneAndUpdate (filter update : value) (returnDocument : option string) (upsert : option bool)
| sc_deleteOne (filter : value)
| sc_deleteMany (filter : value)
| sc_aggregate (pipeline : list value)
| sc_watch (pipeline : list value) (resumeAfter : value).

(** What reaches the driver; nothing for an empty [insertMany]. *)
Inductive DriverCall :=
| dc_none
| dc_findOne (filter options : value)
| dc_find (filter options : value)
| dc_countDocuments (filter : value)
| dc_insert (docs : list value)
| dc_update (filter update options : value) (multi : bool)
| dc_findOneAndUpdate (filter update : value) (returnDocument : string) (upsert : bool)
| dc_delete (filter : value) (multi : bool)
| dc_aggregate (pipeline : list value)
| dc_watch (pipeline : list value) (options : value).

Definition gate (key workspaceId : string) (pipeline : list value) : list value :=
  VObject [("$match", VObject [(key, VString workspaceId)])] :: pipeline.

Fixpoint scope_inserts (workspaceId : string) (docs : list value) : outcome ScopeError (list value) :=
  match docs with
  | [] => Ret []
  | d :: docs' => obind (scopeInsert workspaceId d) (λ d',
                  obind (scope_inserts workspaceId docs') (λ ds, Ret (d' :: ds)))
  end.

Definition scoped_call (workspaceId : string) (c : ScopedCall) : outcome ScopeError DriverCall :=
  let filtered f k := obind (scopeFilter workspaceId f) (λ f', Ret (k f')) in
  match c with
  | sc_findOne f o => filtered f (λ f', dc_findOne f' o)
  | sc_find f o => filtered f (λ f', dc_find f' o)
  | sc_countDocuments f => filtered f dc_countDocuments
  | sc_insertOne d => obind (scopeInsert workspaceId d) (λ d', Ret (dc_insert [d']))
  | sc_insertMany [] => Ret dc_none
  | sc_insertMany ds => obind (scope_inserts workspaceId ds) (λ ds', Ret (dc_insert ds'))
  | sc_updateOne f u o => filtered f (λ f', dc_update f' u (or_else o (VObject [])) false)
  | sc_updateMany f u o => filtered f (λ f', dc_update f' u (or_else o (VObject [])) true)
  | sc_findOneAndUpdate f u r up => filtered f (λ f', dc_findOneAndUpdate f' u (default "after" r) (default false up))
  | sc_deleteOne f => filtered f (λ f', dc_delete f' false)
  | sc_deleteMany f => filtered f (λ f', dc_delete f' true)
  | sc_aggregate pipeline =>
      match pipeline with
      | first :: _ =>
          match List.find (has_own first) SEARCH_STAGES with
          | Some stage => Throw (ungateable_stage stage)
          | None => Ret (dc_aggregate (gate TENANT_KEY workspaceId pipeline))
          end
      | [] => Ret (dc_aggregate (gate TENANT_KEY workspaceId pipeline))
      end
  | sc_watch pipeline resumeAfter =>
      Ret (dc_watch (gate "fullDocument.workspaceId" workspaceId pipeline)
             (VObject ([("fullDocument", VString "updateLookup")] ++ if is_undefined resumeAfter then [] else [("resumeAfter", resumeAfter)])))
  end.

(** [ScopedDb.collection]. *)
Definition scoped_collection (name : string) : outcome ScopeError string :=
  if isTenantCollection name then Ret name else Throw (not_tenant_scoped name).

(** ** What a filter selects *)

(** The workspace a document belongs to. *)
Definition doc_tenant (d : value) : option string :=
  match own d TENANT_KEY with VString w => Some w | _ => None end.

(** The documented meaning of the operators the guard looks at: an object is a
    conjunction of its entries, the logical operators, equality with a plain
    value, [$eq] and [$in]. *)
Class QueryLaws (matches : value → value → bool) (holds : string → value → value → bool) : Prop := {
  q_object : ∀ es d, matches (VObject es) d = true ↔ ∀ k v, (k, v) ∈ es → holds k v d = true;
  q_and : ∀ fs d, holds "$and" (VArray fs) d = true ↔ ∀ f, f ∈ fs → matches f d = true;
  q_or : ∀ fs d, holds "$or" (VArray fs) d = true ↔ ∃ f, f ∈ fs ∧ matches f d = true;
  q_nor : ∀ fs d, holds "$nor" (VArray fs) d = true ↔ ∀ f, f ∈ fs → matches f d = false;
  q_tenant : ∀ v d w, doc_tenant d = Some w → holds TENANT_KEY v d = true →
    match v with
    | VObject ops => (∀ x, ("$eq", x) ∈ ops → x = VString w) ∧ (∀ xs, ("$in", VArray xs) ∈ ops → VString w ∈ xs)
    | _ => v = VString w
    end;
  q_tenant_eq : ∀ d w, doc_tenant d = Some w → holds TENANT_KEY (VString w) d = true;
}.

(** An update that may set the workspace of a document: one that names the field, renames
    another to it, or is a pipeline. *)
Definition names_tenant (update : value) : bool :=
  match update with
  | VObject ops =>
      existsb (λ op, match op.2 with
                     | VObject fs => existsb (λ f, String.eqb f.1 TENANT_KEY || match f.2 with VString t => String.eqb op.1 "$rename" && String.eqb t TENANT_KEY | _ => false end) fs
                     | _ => false
                     end) ops
  | _ => true
  end.
(** The documented meaning of an update: a field it does not name stays as it was, and a
    document that is upserted has the fields the filter asks to be equal to a value. *)
Class UpdateLaws (updated upserted : value → value → value) : Prop := {
  u_updated : ∀ d u, names_tenant u = false → doc_tenant (updated d u) = doc_tenant d;
  u_upserted : ∀ f u w, own f TENANT_KEY = VString w → names_tenant u = false → doc_tenant (upserted f u) = Some w;
}.
(** The options ask for a document to be made where none matches. *)
Definition upserts (options : value) : bool := match own options "upsert" with VBool b => b | _ => false end.

(** Every string that occurs in a value. *)
Fixpoint strings_of (v : value) : list string :=
  match v with
  | VString s => [s]
  | VArray xs => concat (map strings_of xs)
  | VObject es => concat (map (λ e, strings_of e.2) es)
  | _ => []
  end.

(** No [$nor] anywhere. *)
Fixpoint no_nor (v : value) : bool :=
  match v with
  | VArray xs => forallb no_nor xs
  | VObject es => forallb (λ e, negb (String.eqb e.1 "$nor") && no_nor e.2) es
  | _ => true
  end.

Lemma at_key_true key test es :
  at_key key test es = true → ∃ v, (key, v) ∈ es ∧ test v = true.
Proof.
  induction es as [|[k v] es IH]; simpl; [done|]. destruct (String.eqb k key) eqn:E; intros Ht.
  - apply String.eqb_eq in E as ->. exists v. split; [left|done].
  - destruct (IH Ht) as (v' & Hin & Hv). exists v'. split; [by right|done].
Qed.

Lemma strings_of_array xs x s : x ∈ xs → s ∈ strings_of x → s ∈ strings_of (VArray xs).
Proof.
  intros Hx Hs. simpl. induction Hx as [x xs|x y xs Hx IH]; simpl; apply elem_of_app; [by left|right; by apply IH].
Qed.

Lemma strings_of_object es k x s : (k, x) ∈ es → s ∈ strings_of x → s ∈ strings_of (VObject es).
Proof.
  intros Hx Hs. simpl. remember (k, x) as e eqn:He. induction Hx as [e' es|e' y es Hx IH]; simpl; apply elem_of_app.
  - left. by rewrite He.
  - right. by apply IH.
Qed.

(** ** The guard confines what it admits *)

Section Query.
Context (matches : value → value → bool) (holds : string → value → value → bool).
Context (updated upserted : value → value → value).
Context `{!QueryLaws matches holds} `{!UpdateLaws updated upserted}.

(** A filter that selects documents of workspaces it names, and no others. *)
Definition confines (f : value) : Prop :=
  ∀ d w, doc_tenant d = Some w → matches f d = true → w ∈ strings_of f.

Lemma tenant_narrows_names v d w :
  doc_tenant d = Some w → holds TENANT_KEY v d = true → tenant_narrows v = true → w ∈ strings_of v.
Proof.
  intros Hd Hh Hn. pose proof (q_tenant v d w Hd Hh) as Hq.
  destruct v as [| | | |s|xs|ops]; try (rewrite Hq; simpl; left).
  destruct Hq as [Heq Hin]. simpl in Hn. apply andb_true_iff in Hn as [Hex Hlist].
  apply orb_true_iff in Hlist as [Hno|Hlist].
  - apply negb_true_iff in Hno. apply existsb_exists in Hex as ([k x] & Hk & Ho). simpl in Ho.
    apply list_elem_of_In in Hk. apply orb_true_iff in Ho as [->%String.eqb_eq|Ho].
    + apply (strings_of_object _ _ _ _ Hk). rewrite (Heq x Hk). left.
    + assert (existsb (λ op : string * value, String.eqb op.1 "$in") ops = true) as Hc; [|congruence].
      apply existsb_exists. exists (k, x). split; [by apply list_elem_of_In|done].
  - apply at_key_true in Hlist as (xs & Hxs & Ht). destruct xs as [| | | | |xs|]; try done.
    apply (strings_of_object _ _ _ _ Hxs). apply (strings_of_array _ (VString w)); [by apply Hin|left].
Qed.

Lemma no_nor_key es k x : no_nor (VObject es) = true → (k, x) ∈ es → k ≠ "$nor" ∧ no_nor x = true.
Proof.
  simpl. rewrite forallb_forall. intros Hn Hx%list_elem_of_In. apply Hn in Hx. simpl in Hx. by bool_prop.
Qed.

Lemma no_nor_item xs x : no_nor (VArray xs) = true → x ∈ xs → no_nor x = true.
Proof. simpl. rewrite forallb_forall. intros Hn Hx%list_elem_of_In. by apply Hn. Qed.

(** By induction on the filter, together with the branches of its operators. *)
Lemma constrained_confines f :
  filterConstrainsWorkspace f = true → no_nor f = true → confines f.
Proof.
  pose (good g := filterConstrainsWorkspace g = true → no_nor g = true → confines g).
  enough (good f ∧ match f with VArray gs => Forall good gs | _ => True end) as [Hf _] by exact Hf.
  induction f as [| | | | |xs IH|es IH] using value_nested_ind; try (split; [by intros [=]|exact I]).
  { split; [by intros [=]|]. eapply Forall_impl; [exact IH|]. by intros g [? _]. }
  split; [|exact I]. intros Hc Hn d w Hd Hm. pose proof (proj1 (q_object es d) Hm) as Hall.
  simpl in Hc. destruct (existsb _ es).
  { apply at_key_true in Hc as (v & Hv & Ht). apply (strings_of_object _ _ _ _ Hv).
    eapply tenant_narrows_names; eauto. }
  apply orb_true_iff in Hc as [Hc|Hc]; [apply orb_true_iff in Hc as [Hc|Hc]|];
    apply at_key_true in Hc as (v & Hv & Ht); destruct (no_nor_key _ _ _ Hn Hv) as [Hk Hnv]; try done;
    specialize (Hall _ _ Hv); rewrite Forall_forall in IH; destruct (IH _ Hv) as [_ Hsub];
    destruct v as [| | | | |fs|]; try done; simpl in Hsub; rewrite Forall_forall in Hsub;
    apply (strings_of_object _ _ _ _ Hv).
  - apply existsb_exists in Ht as (g & Hg%list_elem_of_In & Hgc). apply (strings_of_array _ g); [done|].
    apply (Hsub g Hg Hgc (no_nor_item _ _ Hnv Hg) d w Hd). by apply (proj1 (q_and fs d) Hall).
  - apply q_or in Hall as (g & Hg & Hgm). apply (strings_of_array _ g); [done|].
    assert (forallb filterConstrainsWorkspace fs = true) as Hevery by (by destruct fs).
    rewrite forallb_forall in Hevery. apply (Hsub g Hg (Hevery g (proj1 (list_elem_of_In _ _) Hg))
      (no_nor_item _ _ Hnv Hg) d w Hd Hgm).
Qed.

(** The predicates of a command that the server evaluates. *)
Definition command_filters (commandName : string) (command : value) : list value :=
  if bool_decide (commandName ∈ ["find"; "count"; "distinct"]) then
    [or_else (own command "filter") (own command "query")]
  else if String.eqb commandName "findAndModify" then [own command "query"]
  else if String.eqb commandName "update" then
    match own command "updates" with VArray us => map (λ u, own u "q") us | _ => [] end
  else if String.eqb commandName "delete" then
    match own command "deletes" with VArray us => map (λ u, own u "q") us | _ => [] end
  else [].

Lemma statements_constrained_each us f :
  statements_constrained us = true → f ∈ map (λ u, own u "q") us → filterConstrainsWorkspace f = true.
Proof.
  unfold statements_constrained. rewrite forallb_forall.
  intros Hs (u & -> & Hu%list_elem_of_In)%list_elem_of_fmap. specialize (Hs u Hu). by bool_prop.
Qed.

Lemma admitted_filters_constrain commandName command collection f :
  own command commandName = VString collection →
  tenancyOf collection ∈ [ten_tenant; ten_mixed] → declaresPlatformIntent command = false →
  analyzeCommand commandName command = None →
  f ∈ command_filters commandName command → filterConstrainsWorkspace f = true.
Proof.
  intros Hc Ht Hp Ha Hf. unfold analyzeCommand, command_filters in *. rewrite Hc, Hp in Ha.
  assert (tenancyOf collection = ten_tenant ∨ tenancyOf collection = ten_mixed) as Ht'.
  { apply list_elem_of_In in Ht as [<-|[<-|[]]]; auto. }
  destruct (bool_decide (commandName ∈ IGNORED_COMMANDS)) eqn:Hi.
  { apply bool_decide_eq_true in Hi. exfalso. revert Hf. clear -Hi. unfold IGNORED_COMMANDS in Hi.
    repeat (apply elem_of_cons in Hi as [-> | Hi]; [vm_compute; by intros ?%elem_of_nil|]). by apply elem_of_nil in Hi. }
  destruct Ht' as [Ht'|Ht']; rewrite Ht' in Ha;
    repeat case_match; simplify_eq; try (apply list_elem_of_singleton in Hf as ->; done);
    try (by apply elem_of_nil in Hf); try (bool_prop; congruence); by eapply statements_constrained_each.
Qed.

(** The guard is sound: a command on a tenant collection that it lets
    through, without declaring itself a platform operation, selects through each
    of its filters only documents of workspaces named in that filter (filters
    with [$nor] apart), and inserts only documents that carry a workspace. *)
Theorem guarded_commands_are_confined commandName command collection :
  own command commandName = VString collection →
  tenancyOf collection ∈ [ten_tenant; ten_mixed] → declaresPlatformIntent command = false →
  analyzeCommand commandName command = None →
  (∀ f, f ∈ command_filters commandName command → no_nor f = true → confines f) ∧
  (∀ docs d, commandName = "insert" → own command "documents" = VArray docs → d ∈ docs →
     ∃ w, doc_tenant d = Some w ∧ w ≠ "").
Proof.
  intros Hc Ht Hp Ha. split.
  - intros f Hf Hn. apply constrained_confines; [|done]. by eapply admitted_filters_constrain.
  - intros docs d -> Hd Hin. unfold analyzeCommand in Ha. rewrite Hc, Hp, Hd in Ha. simpl in Ha.
    destruct (forallb stamped docs) eqn:Hs.
    + rewrite forallb_forall in Hs. apply list_elem_of_In, Hs in Hin. unfold stamped, doc_tenant in *.
      bool_prop. destruct (own d TENANT_KEY); try done. eexists. split; [done|]. by bool_prop.
    + apply list_elem_of_In in Ht as [E|[E|[]]]; by rewrite <-E in Ha.
Qed.

(** ** Scoped calls *)

Lemma elem_of_set_entry key x es e :
  existsb (λ e : string * value, String.eqb e.1 key) es = false →
  e ∈ set_entry key x es ↔ e ∈ es ∨ e = (key, x).
Proof.
  induction es as [|[k v] es IH]; simpl; [set_solver|]. intros [Hk He]%orb_false_iff. rewrite Hk.
  rewrite !elem_of_cons, IH by done. tauto.
Qed.

Lemma set_entry_get key x es : assoc_get key (set_entry key x es) = Some x.
Proof.
  induction es as [|[k v] es IH]; simpl; [by rewrite String.eqb_refl|].
  destruct (String.eqb k key) eqn:E; simpl; by rewrite E.
Qed.

(** A scoped filter selects what the caller's filter selects, within the
    workspace. *)
Lemma scopeFilter_matches ws filter f' :
  scopeFilter ws filter = Ret f' →
  filterConstrainsWorkspace f' = true ∧
  (∀ d w, doc_tenant d = Some w → matches f' d = true ↔ matches (VObject (entries_of filter)) d = true ∧ w = ws).
Proof.
  unfold scopeFilter. destruct (has_own filter TENANT_KEY) eqn:Ho; [done|]. intros [= <-].
  assert (existsb (λ e : string * value, String.eqb e.1 TENANT_KEY) (entries_of filter) = false) as E by (by destruct filter).
  clear Ho. revert E. generalize (entries_of filter). intros es E. split.
  - simpl. assert (existsb (λ e : string * value, String.eqb e.1 TENANT_KEY) (set_entry TENANT_KEY (VString ws) es) = true) as ->.
    { apply existsb_exists. exists (TENANT_KEY, VString ws). split; [|done]. apply list_elem_of_In, elem_of_set_entry; auto. }
    revert E. induction es as [|[k v] es IH]; simpl; [done|]. intros [Hk He]%orb_false_iff. rewrite Hk. simpl. rewrite Hk.
    by apply IH.
  - intros d w Hw. rewrite !q_object. split.
    + intros Hall. split; [intros k v Hkv; apply Hall, elem_of_set_entry; auto|].
      assert (holds TENANT_KEY (VString ws) d = true) as Ht by (apply Hall, elem_of_set_entry; auto).
      pose proof (q_tenant _ _ _ Hw Ht) as Hq. by injection Hq.
    + intros [Hall ->] k v [Hkv|[= -> ->]]%elem_of_set_entry; [by apply Hall| |done]. by apply q_tenant_eq.
Qed.

(** Within one workspace, and recognisably so. *)
Definition stays_in (ws : string) (f : value) : Prop :=
  filterConstrainsWorkspace f = true ∧ ∀ d w, doc_tenant d = Some w → matches f d = true → w = ws.

(** What an update does to the documents it may change, and to the one it may make. *)
Definition keeps_in (ws : string) (f u : value) (upsert : bool) : Prop :=
  names_tenant u = false →
  (∀ d, doc_tenant d = Some ws → doc_tenant (updated d u) = Some ws) ∧ (upsert = true → doc_tenant (upserted f u) = Some ws).

Definition call_confined (ws : string) (op : DriverCall) : Prop :=
  match op with
  | dc_none => True
  | dc_findOne f _ | dc_find f _ | dc_countDocuments f | dc_delete f _ => stays_in ws f
  | dc_update f u o _ => stays_in ws f ∧ keeps_in ws f u (upserts o)
  | dc_findOneAndUpdate f u _ upsert => stays_in ws f ∧ keeps_in ws f u upsert
  | dc_insert docs => ∀ d, d ∈ docs → doc_tenant d = Some ws
  | dc_aggregate p => ∃ f rest, p = VObject [("$match", f)] :: rest ∧ stays_in ws f
  | dc_watch p _ => ∃ rest, p = VObject [("$match", VObject [("fullDocument.workspaceId", VString ws)])] :: rest
  end.

(** The command a driver call becomes on the wire, as the driver documents
    it: what the guard sees of the call. *)
Definition carried_by (collection : string) (op : DriverCall) (name : string) (command : value) : Prop :=
  own command name = VString collection ∧
  match op with
  | dc_none => False
  | dc_findOne f _ | dc_find f _ => name = "find" ∧ own command "filter" = f
  | dc_countDocuments f => name = "aggregate" ∧ ∃ rest, own command "pipeline" = VArray (VObject [("$match", f)] :: rest)
  | dc_insert docs => name = "insert" ∧ own command "documents" = VArray docs
  | dc_update f _ _ _ => name = "update" ∧ ∃ u, own command "updates" = VArray [VObject u] ∧ own (VObject u) "q" = f
  | dc_findOneAndUpdate f _ _ _ => name = "findAndModify" ∧ own command "query" = f
  | dc_delete f _ => name = "delete" ∧ ∃ u, own command "deletes" = VArray [VObject u] ∧ own (VObject u) "q" = f
  | dc_aggregate p => name = "aggregate" ∧ own command "pipeline" = VArray p
  | dc_watch p o => name = "aggregate" ∧ own command "pipeline" = VArray (VObject [("$changeStream", o)] :: p)
  end.
Definition is_stream (op : DriverCall) : bool := match op with dc_watch _ _ => true | _ => false end.

Lemma scopeFilter_stays ws filter f' : scopeFilter ws filter = Ret f' → stays_in ws f'.
Proof.
  intros Hs. destruct (scopeFilter_matches _ _ _ Hs) as [Hc Hm]. split; [done|].
  intros d w Hw Hf. by apply (Hm d w Hw).
Qed.

Lemma workspace_match_stays ws : stays_in ws (VObject [(TENANT_KEY, VString ws)]).
Proof. by apply (scopeFilter_stays ws (VObject [])). Qed.

Lemma scopeInsert_stamps ws d d' : scopeInsert ws d = Ret d' → doc_tenant d' = Some ws.
Proof.
  unfold scopeInsert. destruct (_ || _); [|done]. intros [= <-]. unfold doc_tenant, own. by rewrite set_entry_get.
Qed.

Lemma scope_inserts_stamp ws docs docs' :
  scope_inserts ws docs = Ret docs' → ∀ d, d ∈ docs' → doc_tenant d = Some ws.
Proof.
  revert docs'. induction docs as [|d docs IH]; simpl; [by intros ? [= <-] ? ?%elem_of_nil|].
  intros docs'. destruct (scopeInsert ws d) as [d1|] eqn:Hd; simpl; [|done].
  destruct (scope_inserts ws docs) as [ds|]; simpl; [|done]. intros [= <-] x [->|Hx]%elem_of_cons.
  - by eapply scopeInsert_stamps.
  - by eapply IH.
Qed.

Lemma scopeFilter_own ws filter f' : scopeFilter ws filter = Ret f' → own f' TENANT_KEY = VString ws.
Proof. unfold scopeFilter. destruct (has_own _ _); [done|]. intros [= <-]. cbn [own]. by rewrite set_entry_get. Qed.
Lemma scopeFilter_keeps ws filter f' u upsert : scopeFilter ws filter = Ret f' → keeps_in ws f' u upsert.
Proof.
  intros Hf Hu. split; [intros d <-; by apply u_updated|]. intros _. by apply u_upserted; [eapply scopeFilter_own|].
Qed.

Lemma scoped_call_confined ws c op : scoped_call ws c = Ret op → call_confined ws op.
Proof.
  destruct c as [f o|f o|f|d|[|d ds]|f u o|f u o|f u r up|f|f|p|p ra]; cbn [scoped_call].
  all: try (destruct (scopeFilter ws f) as [f'|] eqn:Hf; cbn [obind]; [|done]; intros [= <-]; cbn [call_confined];
            first [eapply scopeFilter_stays; eassumption|split; [eapply scopeFilter_stays; eassumption|eapply scopeFilter_keeps; eassumption]]).
  - destruct (scopeInsert ws d) as [d'|] eqn:Hd; cbn [obind]; [|done]. intros [= <-] x ->%list_elem_of_singleton.
    by eapply scopeInsert_stamps.
  - by intros [= <-].
  - destruct (scope_inserts ws (d :: ds)) as [ds'|] eqn:Hd; cbn [obind]; [|done]. intros [= <-].
    exact (scope_inserts_stamp _ _ _ Hd).
  - assert (call_confined ws (dc_aggregate (gate TENANT_KEY ws p))) as Hg.
    { eexists _, _. split; [done|]. apply workspace_match_stays. }
    destruct p as [|first rest]; [by intros [= <-]|]. destruct (List.find _ _); [done|]. by intros [= <-].
  - intros [= <-]. by eexists.
Qed.

Lemma constrained_is_object f : filterConstrainsWorkspace f = true → isPlainObject f = true.
Proof. by destruct f. Qed.

(** C5.  The scope is the wall, for what it checks.  Whatever filter, documents and options a
    caller passes: a call that a scoped collection lets through finds, counts, changes and
    deletes documents of its own workspace only; it inserts only documents stamped with it;
    an update that does not name the field [workspaceId] leaves the documents where they
    are and, when it upserts, makes one of the workspace; the first stage of an aggregation
    selects documents of the workspace, and the first of a change stream events about them,
    while later stages are the caller's own.  The guard beneath does not object to the
    command, change streams apart.  What is not checked is shown on instances:
    [updates_may_move_documents], [later_stages_reach_others] and
    [change_streams_trip_the_guard]. *)
Theorem scoped_access_is_confined ws collection c op :
  scoped_call ws c = Ret op →
  call_confined ws op ∧
  (scoped_collection collection = Ret collection → ws ≠ "" → is_stream op = false →
   ∀ name command, carried_by collection op name command → analyzeCommand name command = None).
Proof.
  intros Hc%scoped_call_confined. split; [done|]. intros Ht Hws Hst name command [Hcoll Hop].
  assert (tenancyOf collection = ten_tenant) as Hten.
  { unfold scoped_collection, isTenantCollection in Ht. unfold tenancyOf. by destruct (bool_decide _). }
  assert (∀ f, filterConstrainsWorkspace f = true → or_else f (own command "query") = f) as Hor by (by intros []).
  unfold analyzeCommand.
  destruct op as [|f o|f o|f|docs|f u o m|f u r up|f m|p|p o]; cbn [call_confined] in Hc; try done; destruct Hop as [-> Hop];
    rewrite Hcoll, Hten; destruct (declaresPlatformIntent command); try done; cbn.
  - rewrite Hop. destruct Hc as [Hc _]. by rewrite Hor, Hc.
  - rewrite Hop. destruct Hc as [Hc _]. by rewrite Hor, Hc.
  - destruct Hop as [rest ->]. destruct Hc as [Hc _]. cbn. by rewrite (constrained_is_object f Hc), Hc.
  - rewrite Hop. assert (forallb stamped docs = true) as ->; [|done]. apply forallb_forall. intros d Hd%list_elem_of_In.
    specialize (Hc d Hd). unfold doc_tenant, stamped in *. destruct d; try done. cbn in *.
    destruct (default _ _); try done. injection Hc as ->. apply negb_true_iff. by apply String.eqb_neq.
  - destruct Hop as (u' & -> & Hq). destruct Hc as [[Hc _] _]. cbn. cbn in Hq. by rewrite Hq, Hc.
  - rewrite Hop. destruct Hc as [[Hc _] _]. by rewrite Hc.
  - destruct Hop as (u' & -> & Hq). destruct Hc as [Hc _]. cbn. cbn in Hq. by rewrite Hq, Hc.
  - rewrite Hop. destruct Hc as (f & rest & -> & Hc & _). cbn. by rewrite (constrained_is_object f Hc), Hc.
Qed.
End Query.

(** ** A matcher that obeys the laws *)

Definition scalar_eq (a b : value) : bool :=
  match a, b with
  | VUndefined, VUndefined | VNull, VNull | VNull, VUndefined => true
  | VBool x, VBool y => Bool.eqb x y
  | VNumber x, VNumber y => x =? y
  | VString x, VString y => String.eqb x y
  | _, _ => false
  end.

Definition op_test (op : string) (operand field : value) : bool :=
  if String.eqb op "$eq" then scalar_eq operand field
  else if String.eqb op "$ne" then negb (scalar_eq operand field)
  else if String.eqb op "$in" then
    match operand with VArray xs => existsb (λ x, scalar_eq x field) xs | _ => false end
  else if String.eqb op "$exists" then
    match operand with VBool b => Bool.eqb b (negb (is_undefined field)) | _ => false end
  else false.

Fixpoint simple_match (filter doc : value) : bool :=
  match filter with
  | VObject es =>
      forallb (λ e,
        if String.eqb e.1 "$and" then
          match e.2 with VArray fs => forallb (λ f, simple_match f doc) fs | _ => false end
        else if String.eqb e.1 "$or" then
          match e.2 with VArray fs => existsb (λ f, simple_match f doc) fs | _ => false end
        else if String.eqb e.1 "$nor" then
          match e.2 with VArray fs => forallb (λ f, negb (simple_match f doc)) fs | _ => false end
        else
          match e.2 with
          | VObject ops => forallb (λ op, op_test op.1 op.2 (own doc e.1)) ops
          | x => scalar_eq x (own doc e.1)
          end) es
  | _ => false
  end.

Definition simple_holds (k : string) (v doc : value) : bool := simple_match (VObject [(k, v)]) doc.

Lemma scalar_eq_string x w : scalar_eq x (VString w) = true → x = VString w.
Proof. destruct x; simpl; try done. by intros ->%String.eqb_eq. Qed.

#[global] Instance simple_laws : QueryLaws simple_match simple_holds.
Proof.
  split.
  - intros es d. cbn [simple_match]. rewrite forallb_forall. split.
    + intros Hall k v Hkv%list_elem_of_In. unfold simple_holds. cbn [simple_match forallb].
      rewrite andb_true_r. apply (Hall _ Hkv).
    + intros Hall [k v] Hkv%list_elem_of_In. specialize (Hall k v Hkv). unfold simple_holds in Hall.
      cbn [simple_match forallb] in Hall. by rewrite andb_true_r in Hall.
  - intros fs d. unfold simple_holds. cbn. rewrite andb_true_r, forallb_forall.
    split; intros Hall f Hf; apply Hall; by apply list_elem_of_In.
  - intros fs d. unfold simple_holds. cbn. rewrite andb_true_r, existsb_exists.
    split; intros (f & Hf & Hm); exists f; (split; [by apply list_elem_of_In|done]).
  - intros fs d. unfold simple_holds. cbn. rewrite andb_true_r, forallb_forall.
    split; intros Hall f Hf; apply negb_true_iff, Hall; by apply list_elem_of_In.
  - intros v d w Hd. unfold simple_holds, doc_tenant in *. cbn [simple_match forallb fst snd].
    rewrite andb_true_r. destruct (own d TENANT_KEY) as [| | | |w'| |] eqn:Ho; try done. injection Hd as ->.
    change (String.eqb TENANT_KEY "$and") with false. change (String.eqb TENANT_KEY "$or") with false.
    change (String.eqb TENANT_KEY "$nor") with false. cbn iota.
    destruct v as [| | | |s|xs|ops]; try (by intros ?%scalar_eq_string).
    rewrite forallb_forall. intros Hall. split.
    + intros x Hx%list_elem_of_In. apply Hall in Hx. cbn in Hx.
      by apply scalar_eq_string.
    + intros xs Hx%list_elem_of_In. apply Hall in Hx. cbn in Hx. apply existsb_exists in Hx as (x & Hx & Hs).
      apply scalar_eq_string in Hs as ->. by apply list_elem_of_In.
  - intros d w Hd. unfold simple_holds, doc_tenant in *. destruct d; try done. cbn in *.
    destruct (default _ _); try done. injection Hd as ->. by rewrite String.eqb_refl.
Qed.

(** ** The laws at work *)

Definition guarded_find : value :=
  VObject [("find", VString "runs");
           ("filter", VObject [("$or", VArray [VObject [("workspaceId", VString "ws_1"); ("status", VString "queued")];
                                               VObject [("workspaceId", VObject [("$in", VArray [VString "ws_2"])])]])])].

Definition other_run : value := VObject [("_id", VString "run_2"); ("workspaceId", VString "ws_2")].

Lemma guarded_commands_are_confined_witness :
  simple_match (own guarded_find "filter") other_run = true ∧ "ws_2" ∈ strings_of (own guarded_find "filter").
Proof.
  split; [vm_compute; reflexivity|].
  destruct (guarded_commands_are_confined simple_match simple_holds "find" guarded_find "runs") as [Hf _];
    [reflexivity|vm_compute; left|reflexivity|vm_compute; reflexivity|].
  apply (Hf (own guarded_find "filter")) with (d := other_run); [vm_compute; left|reflexivity|reflexivity|vm_compute; reflexivity].
Defined.

(** An update of one operator, [$set]; the others leave a document as it is. *)
Definition set_all (fields : list (string * value)) (es : list (string * value)) : list (string * value) :=
  foldl (λ es f, set_entry f.1 f.2 es) es fields.
Definition simple_updated (d u : value) : value := VObject (set_all (entries_of (own u "$set")) (entries_of d)).
Definition is_plain (v : value) : bool := match v with VArray _ | VObject _ => false | _ => true end.
Definition simple_upserted (f u : value) : value := simple_updated (VObject (List.filter (λ e, is_plain e.2) (entries_of f))) u.

Lemma set_entry_other key key' x es : key ≠ key' → assoc_get key (set_entry key' x es) = assoc_get key es.
Proof.
  intros Hne. induction es as [|[k v] es IH]; cbn.
  - destruct (String.eqb_spec key' key); [by destruct Hne|done].
  - destruct (String.eqb_spec k key') as [->|Hk]; cbn; [|by rewrite IH]. by destruct (String.eqb_spec key' key); [destruct Hne|].
Qed.
Lemma set_all_other key fields es : existsb (λ f : string * value, String.eqb f.1 key) fields = false → assoc_get key (set_all fields es) = assoc_get key es.
Proof.
  revert es. induction fields as [|[k v] fields IH]; intros es; cbn [set_all foldl existsb fst snd]; [done|]. intros [Hk Hf]%orb_false_iff.
  etrans; [by apply IH|]. apply set_entry_other. intros ->. by rewrite String.eqb_refl in Hk.
Qed.
Lemma set_silent u : names_tenant u = false → existsb (λ f : string * value, String.eqb f.1 TENANT_KEY) (entries_of (own u "$set")) = false.
Proof.
  destruct u as [| | | | | |ops]; try done. cbn [names_tenant own]. induction ops as [|[k v] ops IH]; cbn; [done|]. intros [Hv Ho]%orb_false_iff.
  destruct (String.eqb k "$set"); [|by apply IH]. cbn. destruct v as [| | | | | |fs]; try done. cbn [entries_of].
  revert Hv. induction fs as [|f fs IHf]; cbn; [done|]. intros [[-> _]%orb_false_iff Hfs]%orb_false_iff. by apply IHf.
Qed.
#[global] Instance simple_update_laws : UpdateLaws simple_updated simple_upserted.
Proof.
  split.
  - intros d u Hu%set_silent. unfold doc_tenant, simple_updated. cbn [own]. rewrite set_all_other by done. by destruct d.
  - intros f u w Hf Hu%set_silent. unfold doc_tenant, simple_upserted, simple_updated. cbn [own entries_of]. rewrite set_all_other by done.
    destruct f as [| | | | | |es]; try done. cbn [own entries_of] in *. induction es as [|[k v] es IH]; cbn in *; [done|].
    destruct (String.eqb k TENANT_KEY) eqn:Hk; cbn in Hf.
    + subst v. cbn. by rewrite Hk.
    + destruct (is_plain v); cbn; [rewrite Hk|]; by apply IH.
Qed.

Definition upserting : ScopedCall :=
  sc_updateOne (VObject [("key", VString "k")]) (VObject [("$set", VObject [("value", VNumber 1)])]) (VObject [("upsert", VBool true)]).
Lemma scoped_access_is_confined_witness :
  let f := VObject [("key", VString "k"); ("workspaceId", VString "ws_1")] in
  let u := VObject [("$set", VObject [("value", VNumber 1)])] in
  call_confined simple_match simple_updated simple_upserted "ws_1" (dc_update f u (VObject [("upsert", VBool true)]) false) ∧
  simple_upserted f u = VObject [("key", VString "k"); ("workspaceId", VString "ws_1"); ("value", VNumber 1)] ∧
  analyzeCommand "update" (VObject [("update", VString "runs"); ("updates", VArray [VObject [("q", f); ("u", u); ("upsert", VBool true)]])]) = None.
Proof.
  intros f u. destruct (scoped_access_is_confined simple_match simple_holds simple_updated simple_upserted "ws_1" "runs" upserting
    (dc_update f u (VObject [("upsert", VBool true)]) false)) as [Hc Hg]; [reflexivity|].
  split; [exact Hc|]. split; [reflexivity|]. apply Hg; [reflexivity|discriminate|reflexivity|].
  split; [reflexivity|]. split; [reflexivity|]. eexists. split; reflexivity.
Defined.

(** The update itself is not looked at: one that sets the field moves a document to another
    workspace, through the scope and past the guard. *)
Example updates_may_move_documents :
  let f := VObject [("_id", VString "run_1"); ("workspaceId", VString "ws_1")] in
  let u := VObject [("$set", VObject [("workspaceId", VString "ws_2")])] in
  scoped_call "ws_1" (sc_updateOne (VObject [("_id", VString "run_1")]) u VUndefined) = Ret (dc_update f u (VObject []) false) ∧
  analyzeCommand "update" (VObject [("update", VString "runs"); ("updates", VArray [VObject [("q", f); ("u", u)]])]) = None ∧
  doc_tenant (simple_updated (VObject [("_id", VString "run_1"); ("workspaceId", VString "ws_1")]) u) = Some "ws_2".
Proof. split_and!; vm_compute; reflexivity. Qed.

(** A stage after the first is not looked at either: one that unites with a collection reads
    all of it. *)
Example later_stages_reach_others :
  let stage := VObject [("$unionWith", VObject [("coll", VString "credentials")])] in
  let p := [VObject [("$match", VObject [("workspaceId", VString "ws_1")])]; stage] in
  scoped_call "ws_1" (sc_aggregate [stage]) = Ret (dc_aggregate p) ∧
  analyzeCommand "aggregate" (VObject [("aggregate", VString "runs"); ("pipeline", VArray p)]) = None.
Proof. split; vm_compute; reflexivity. Qed.

(** The command of a change stream begins with the stage that opens it, which is no match: the
    guard objects to the streams of scoped collections. *)
Theorem change_streams_trip_the_guard ws pipeline resumeAfter op collection command :
  scoped_call ws (sc_watch pipeline resumeAfter) = Ret op → scoped_collection collection = Ret collection →
  carried_by collection op "aggregate" command → declaresPlatformIntent command = false → is_Some (analyzeCommand "aggregate" command).
Proof.
  intros [= <-] Ht [Hcoll [_ Hp]] Hd. assert (tenancyOf collection = ten_tenant) as Hten.
  { unfold scoped_collection, isTenantCollection in Ht. unfold tenancyOf. by destruct (bool_decide _). }
  unfold analyzeCommand. rewrite Hcoll, Hten, Hd, Hp. cbn. by eexists.
Qed.

(** A [$nor] of workspace filters counts as a constraint but selects every
    other workspace: the guard lets a query through that reads all tenants but
    one. *)
Theorem nor_escapes_the_tenant :
  let filter := VObject [("$nor", VArray [VObject [("workspaceId", VString "ws_1")]])] in
  analyzeCommand "find" (VObject [("find", VString "runs"); ("filter", filter)]) = None ∧
  simple_match filter (VObject [("_id", VString "run_9"); ("workspaceId", VString "ws_2")]) = true ∧
  "ws_2" ∉ strings_of filter.
Proof. split; [vm_compute; reflexivity|]. split; [reflexivity|]. vm_compute. intros H. by repeat (inversion H as [|? ? ? H']; clear H; rename H' into H). Qed.
