(* ===== verification/ResponseCache.v ===== *)
(** * Connection scopes and the discovery cache

    Models packages/mcp/src/scope.ts and cache.ts.  The cache is a JavaScript
    [Map]: an association list in insertion order, where setting a key that is
    there keeps its place.  The clock is an argument. *)
From S2P Require Import Prelude Json Entities.

(** ** Scopes (scope.ts) *)

Inductive ConnectionScopeKey :=
| scope_workspace (workspaceId bindingId : string)
| scope_user (workspaceId bindingId userId : string).
#[global] Instance ConnectionScopeKey_eq_dec : EqDecision ConnectionScopeKey.
Proof. solve_decision. Defined.

Definition scope_workspaceId (s : ConnectionScopeKey) : string :=
  match s with scope_workspace w _ | scope_user w _ _ => w end.
Definition scope_bindingId (s : ConnectionScopeKey) : string :=
  match s with scope_workspace _ b | scope_user _ b _ => b end.

Definition scopeKeyString (s : ConnectionScopeKey) : string :=
  match s with
  | scope_user w b u => w +:+ "|" +:+ b +:+ "|user:" +:+ u
  | scope_workspace w b => w +:+ "|" +:+ b +:+ "|workspace"
  end.

Definition capabilityScopeKey (s : ConnectionScopeKey) : string :=
  match s with scope_user _ _ u => "user:" +:+ u | scope_workspace _ _ => "workspace" end.

Definition scopeFor (workspaceId bindingId : string) (perUserAuth : bool) (userId : option string)
    : outcome string ConnectionScopeKey :=
  if negb perUserAuth then Ret (scope_workspace workspaceId bindingId)
  else match userId with
       | None => Throw ("Binding " +:+ bindingId +:+ " requires per-user authentication, but no user was supplied. " +:+
                        "Falling back to a workspace scope would let one user act with another's tokens.")
       | Some u => Ret (scope_user workspaceId bindingId u)
       end.

(** ** The cache (cache.ts) *)

Inductive CacheScope := cs_public | cs_private | cs_unknown.
#[global] Instance CacheScope_eq_dec : EqDecision CacheScope.
Proof. solve_decision. Defined.

Definition parseCacheScope (raw : value) : CacheScope :=
  match raw with
  | VString s => if String.eqb s "public" then cs_public else if String.eqb s "private" then cs_private else cs_unknown
  | _ => cs_unknown
  end.

Definition isShareableAcrossUsers (s : CacheScope) : bool := bool_decide (s = cs_public).

Definition cacheKeyFor (scope : ConnectionScopeKey) (method : string) (cacheScope : CacheScope) : string :=
  (if isShareableAcrossUsers cacheScope
   then scope_workspaceId scope +:+ "|" +:+ scope_bindingId scope +:+ "|workspace"
   else scopeKeyString scope) +:+ "|" +:+ method.

Definition MAX_TTL_MS : Z := 10 * 60 * 1000.

Definition clampTtl (ttlMs : value) : Z :=
  match ttlMs with
  | VNumber n => if n <=? 0 then 0 else Z.min n MAX_TTL_MS
  | _ => 0
  end.

Record CacheEntry := { en_value : value; en_expiresAt : Z; en_cacheScope : CacheScope }.
Record ResponseCache := { rc_entries : list (string * CacheEntry); rc_maxEntries : Z }.

Definition new_cache (maxEntries : option Z) : ResponseCache :=
  {| rc_entries := []; rc_maxEntries := default 1000 maxEntries |}.

(** [Map.delete] and [Map.set]. *)
Definition map_delete (key : string) (es : list (string * CacheEntry)) : list (string * CacheEntry) :=
  List.filter (λ e, negb (String.eqb e.1 key)) es.
Fixpoint map_put (key : string) (x : CacheEntry) (es : list (string * CacheEntry)) : list (string * CacheEntry) :=
  match es with
  | [] => [(key, x)]
  | (k, y) :: es' => if String.eqb k key then (k, x) :: es' else (k, y) :: map_put key x es'
  end.

Definition with_entries (c : ResponseCache) (es : list (string * CacheEntry)) : ResponseCache :=
  {| rc_entries := es; rc_maxEntries := rc_maxEntries c |}.

(** The loop of [get] over the two keys. *)
Fixpoint get_keys (now : Z) (keys : list string) (es : list (string * CacheEntry))
    : option value * list (string * CacheEntry) :=
  match keys with
  | [] => (None, es)
  | key :: keys' =>
      match assoc_get key es with
      | None => get_keys now keys' es
      | Some entry =>
          if en_expiresAt entry <=? now then get_keys now keys' (map_delete key es)
          else (Some (en_value entry), es)
      end
  end.

Definition cache_get (now : Z) (scope : ConnectionScopeKey) (method : string) (c : ResponseCache)
    : option value * ResponseCache :=
  let '(r, es) := get_keys now (map (cacheKeyFor scope method) [cs_public; cs_private]) (rc_entries c) in
  (r, with_entries c es).

Definition cache_set (now : Z) (scope : ConnectionScopeKey) (method : string) (v ttlMs rawCacheScope : value)
    (c : ResponseCache) : ResponseCache :=
  let ttl := clampTtl ttlMs in
  if ttl =? 0 then c
  else
    let cacheScope := parseCacheScope rawCacheScope in
    let es := if rc_maxEntries c <=? Z.of_nat (length (rc_entries c)) then
                match rc_entries c with
                | [] => []
                | (oldest, _) :: _ => map_delete oldest (rc_entries c)
                end
              else rc_entries c in
    with_entries c (map_put (cacheKeyFor scope method cacheScope)
      {| en_value := v; en_expiresAt := now + ttl; en_cacheScope := cacheScope |} es).

(** The count of what was dropped, and the cache without it. *)
Definition invalidateBinding (workspaceId bindingId : string) (c : ResponseCache) : Z * ResponseCache :=
  let prefix := workspaceId +:+ "|" +:+ bindingId +:+ "|" in
  let '(gone, kept) := List.partition (λ e, String.prefix prefix e.1) (rc_entries c) in
  (Z.of_nat (length gone), with_entries c kept).

Definition cache_clear (c : ResponseCache) : ResponseCache := with_entries c [].

(** ** Keys *)

(** Identifiers hold no separator. *)
Definition plain_id (s : string) : bool := negb (str_has "|"%char s).
Definition plain_scope (s : ConnectionScopeKey) : bool :=
  match s with
  | scope_workspace w b => plain_id w && plain_id b
  | scope_user w b u => plain_id w && plain_id b && plain_id u
  end.

(** The text before the first separator determines itself. *)
Lemma bar_split a a' r r' :
  plain_id a = true → plain_id a' = true → a +:+ "|" +:+ r = a' +:+ "|" +:+ r' → a = a' ∧ r = r'.
Proof.
  unfold plain_id. revert a'. induction a as [|c a IH]; intros [|c' a']; simpl; intros Ha Ha' E.
  - by injection E.
  - injection E as <- _. by rewrite ?Ascii.eqb_refl in Ha'.
  - injection E as -> _. by rewrite ?Ascii.eqb_refl in Ha.
  - injection E as <- E. apply negb_true_iff, orb_false_iff in Ha as [_ Ha].
    apply negb_true_iff, orb_false_iff in Ha' as [_ Ha'].
    destruct (IH a') as [-> ->]; by rewrite ?Ha, ?Ha'.
Qed.

(** The third segment of a key: whose entry it is. *)
Definition owner_segment (s : ConnectionScopeKey) (cs : CacheScope) : string :=
  if isShareableAcrossUsers cs then "workspace" else capabilityScopeKey s.

Lemma cacheKeyFor_segments s m cs :
  cacheKeyFor s m cs = scope_workspaceId s +:+ "|" +:+ (scope_bindingId s +:+ "|" +:+ (owner_segment s cs +:+ "|" +:+ m)).
Proof.
  unfold cacheKeyFor, owner_segment, capabilityScopeKey, scopeKeyString.
  destruct (isShareableAcrossUsers cs), s; simpl; repeat (rewrite ?str_app_assoc; simpl); done.
Qed.

Lemma plain_id_app a b : plain_id (a +:+ b) = plain_id a && plain_id b.
Proof.
  unfold plain_id. induction a as [|c a IH]; [done|]. cbn [String.append str_has].
  destruct (Ascii.eqb "|" c); [done|]. exact IH.
Qed.

Lemma plain_owner s cs : plain_scope s = true → plain_id (owner_segment s cs) = true.
Proof.
  unfold owner_segment, plain_scope. destruct (isShareableAcrossUsers cs); [done|].
  destruct s as [w b|w b u]; cbn [capabilityScopeKey]; [done|]. intros ?. bool_prop. by rewrite plain_id_app.
Qed.

Lemma plain_scope_ids s :
  plain_scope s = true → plain_id (scope_workspaceId s) = true ∧ plain_id (scope_bindingId s) = true.
Proof. destruct s; simpl; intros ?; by bool_prop. Qed.

(** Equal keys: same workspace, binding and method, and the same owner. *)
Lemma cacheKeyFor_inj s s' m m' cs cs' :
  plain_scope s = true → plain_scope s' = true → cacheKeyFor s m cs = cacheKeyFor s' m' cs' →
  scope_workspaceId s = scope_workspaceId s' ∧ scope_bindingId s = scope_bindingId s' ∧ m = m' ∧
  owner_segment s cs = owner_segment s' cs'.
Proof.
  intros Hs Hs'. rewrite !cacheKeyFor_segments. intros E.
  destruct (plain_scope_ids s Hs) as [? ?], (plain_scope_ids s' Hs') as [? ?].
  apply bar_split in E as [? E]; [|done..]. apply bar_split in E as [? E]; [|done..].
  apply bar_split in E as [? E]; [done|by apply plain_owner..].
Qed.

(** ** Whose response is served *)

(** What callers do with the cache, and when. *)
Inductive cache_op :=
| CSet (now : Z) (scope : ConnectionScopeKey) (method : string) (v ttlMs rawCacheScope : value)
| CGet (now : Z) (scope : ConnectionScopeKey) (method : string)
| CInvalidate (workspaceId bindingId : string)
| CClear.

Definition cache_step (c : ResponseCache) (op : cache_op) : ResponseCache :=
  match op with
  | CSet now s m v ttl raw => cache_set now s m v ttl raw c
  | CGet now s m => (cache_get now s m c).2
  | CInvalidate w b => (invalidateBinding w b c).2
  | CClear => cache_clear c
  end.
Definition cache_run (ops : list cache_op) (c : ResponseCache) : ResponseCache := foldl cache_step c ops.

Definition plain_op (op : cache_op) : bool :=
  match op with CSet _ s _ _ _ _ | CGet _ s _ => plain_scope s | _ => true end.

(** The entry comes from a [set] of the history. *)
Definition came_from (ops : list cache_op) (key : string) (e : CacheEntry) : Prop :=
  ∃ now s m ttl raw, CSet now s m (en_value e) ttl raw ∈ ops ∧ key = cacheKeyFor s m (parseCacheScope raw) ∧
    en_cacheScope e = parseCacheScope raw ∧ en_expiresAt e = now + clampTtl ttl ∧ 0 < clampTtl ttl <= MAX_TTL_MS.

Definition all_from (ops : list cache_op) (es : list (string * CacheEntry)) : Prop :=
  ∀ k e, (k, e) ∈ es → came_from ops k e.

Lemma clampTtl_range ttl : clampTtl ttl = 0 ∨ 0 < clampTtl ttl <= MAX_TTL_MS.
Proof.
  unfold clampTtl, MAX_TTL_MS. destruct ttl; try by left. destruct (_ <=? _) eqn:E; [by left|]. bool_prop. right. lia.
Qed.

Lemma map_delete_subset k es : ∀ e, e ∈ map_delete k es → e ∈ es.
Proof. intros e. rewrite !list_elem_of_In. unfold map_delete. by intros [? _]%filter_In. Qed.

Lemma get_keys_subset now keys es : ∀ e, e ∈ (get_keys now keys es).2 → e ∈ es.
Proof.
  revert es. induction keys as [|k keys IH]; intros es e; simpl; [done|].
  destruct (assoc_get k es) as [x|]; [|by apply IH]. destruct (_ <=? _); [|done].
  intros He%IH. by eapply map_delete_subset.
Qed.

Lemma elem_of_map_put k x es e : e ∈ map_put k x es → e ∈ es ∨ e = (k, x).
Proof.
  induction es as [|[k' y] es IH]; simpl; [rewrite list_elem_of_singleton; auto|].
  destruct (String.eqb k' k) eqn:E; rewrite !elem_of_cons.
  - apply String.eqb_eq in E as ->. tauto.
  - intros [->|[?|?]%IH]; auto.
Qed.

Lemma assoc_get_elem {A} k (l : list (string * A)) v : assoc_get k l = Some v → (k, v) ∈ l.
Proof.
  induction l as [|[k' v'] l IH]; simpl; [done|]. destruct (String.eqb k' k) eqn:E.
  - apply String.eqb_eq in E as ->. intros [= ->]. left.
  - intros Hl%IH. by right.
Qed.

Lemma step_subset c op e :
  e ∈ rc_entries (cache_step c op) →
  e ∈ rc_entries c ∨ ∃ now s m v ttl raw, op = CSet now s m v ttl raw ∧ clampTtl ttl ≠ 0 ∧
    e = (cacheKeyFor s m (parseCacheScope raw),
         {| en_value := v; en_expiresAt := now + clampTtl ttl; en_cacheScope := parseCacheScope raw |}).
Proof.
  destruct op as [now s m v ttl raw|now s m|w b|]; cbn [cache_step].
  - unfold cache_set. destruct (clampTtl ttl =? 0) eqn:Et; [by left|]. bool_prop. simpl.
    intros [He|He]%elem_of_map_put; [left|right; naive_solver].
    destruct (_ <=? _); [|done]. destruct (rc_entries c) as [|[k x] es]; [done|]. by eapply map_delete_subset.
  - unfold cache_get. pose proof (get_keys_subset now (map (cacheKeyFor s m) [cs_public; cs_private]) (rc_entries c) e) as Hs.
    destruct (get_keys _ _ _) as [r es]. simpl in *. auto.
  - unfold invalidateBinding. destruct (List.partition _ (rc_entries c)) as [gone kept] eqn:Hp. simpl.
    rewrite !list_elem_of_In. intros He. left. apply (elements_in_partition _ _ Hp). by right.
  - simpl. intros He. by apply elem_of_nil in He.
Qed.

Lemma run_all_from ops c : all_from [] (rc_entries c) → all_from ops (rc_entries (cache_run ops c)).
Proof.
  intros Hc. induction ops as [|op ops IH] using rev_ind; [done|].
  unfold cache_run. rewrite foldl_snoc. fold (cache_run ops c). intros k e [He|He]%step_subset.
  - destruct (IH k e He) as (now & s & m & ttl & raw & Hin & ?). exists now, s, m, ttl, raw.
    split; [apply elem_of_app; by left|done].
  - destruct He as (now & s & m & v & ttl & raw & -> & Ht & [= -> ->]). exists now, s, m, ttl, raw.
    split; [apply elem_of_app; right; left|]. destruct (clampTtl_range ttl) as [?|[? ?]]; [done|]. by split_and!.
Qed.

Lemma get_keys_some now keys es v :
  (get_keys now keys es).1 = Some v → ∃ k e, k ∈ keys ∧ (k, e) ∈ es ∧ en_value e = v ∧ now < en_expiresAt e.
Proof.
  revert es. induction keys as [|k keys IH]; intros es; simpl; [done|].
  destruct (assoc_get k es) as [x|] eqn:Ha.
  - destruct (_ <=? _) eqn:Ee.
    + intros (k' & e & Hk & He & ?)%IH. exists k', e. split; [by right|]. split; [by eapply map_delete_subset|done].
    + simpl. intros [= <-]. exists k, x. bool_prop. split; [left|]. split; [by apply assoc_get_elem|]. split; [done|lia].
  - intros (k' & e & Hk & ?)%IH. exists k', e. split; [by right|done].
Qed.

(** Nobody is served another user's private response.  Whatever the history
    of the cache, a response served to a caller was stored for the same
    workspace, binding and method, within the last ten minutes and unexpired;
    and it was stored as public, or for the very scope that asks, or for the
    workspace as a whole. *)
Theorem private_responses_stay_private ops max now scope method v :
  forallb plain_op ops = true → plain_scope scope = true →
  (cache_get now scope method (cache_run ops (new_cache max))).1 = Some v →
  ∃ at_ s ttl raw, CSet at_ s method v ttl raw ∈ ops ∧
    scope_workspaceId s = scope_workspaceId scope ∧ scope_bindingId s = scope_bindingId scope ∧
    now < at_ + clampTtl ttl <= at_ + MAX_TTL_MS ∧
    (parseCacheScope raw = cs_public ∨ s = scope ∨ s = scope_workspace (scope_workspaceId scope) (scope_bindingId scope)).
Proof.
  intros Hops Hs. unfold cache_get. pose proof (run_all_from ops (new_cache max)) as Hall.
  destruct (get_keys _ _ _) as [r es] eqn:Hg. simpl. intros ->.
  destruct (get_keys_some now (map (cacheKeyFor scope method) [cs_public; cs_private])
    (rc_entries (cache_run ops (new_cache max))) v) as (k & e & Hk & He & <- & Hx); [by rewrite Hg|].
  destruct (Hall ltac:(by intros ? ? ?%elem_of_nil) k e He) as (at_ & s & m & ttl & raw & Hin & Hkey & _ & Hexp & Ht).
  assert (plain_scope s = true) as Hps.
  { rewrite forallb_forall in Hops. apply list_elem_of_In, Hops in Hin. done. }
  apply list_elem_of_fmap in Hk as (cs & -> & Hcs).
  apply cacheKeyFor_inj in Hkey as (Hw & Hb & -> & Ho); [|done..].
  exists at_, s, ttl, raw. split_and!; try done; [lia..|].
  unfold owner_segment, isShareableAcrossUsers in Ho.
  destruct (decide (parseCacheScope raw = cs_public)) as [?|Hr]; [by left|]. right.
  rewrite (bool_decide_eq_false_2 _ Hr) in Ho. case_bool_decide; [right|left];
    destruct s as [w b|w b u], scope as [w' b'|w' b' u']; simpl in *; by simplify_eq.
Qed.

(** ** Invalidation *)

Lemma prefix_iff p s : String.prefix p s = true ↔ ∃ r, s = p +:+ r.
Proof.
  revert s. induction p as [|c p IH]; intros s; simpl; [split; [by exists s|by destruct s]|].
  destruct s as [|c' s]; [split; [done|by intros [? ?]]|].
  cbn [String.prefix]. destruct (Ascii.ascii_dec c c') as [->|Hc].
  - rewrite IH. split; intros [r Hr]; exists r; congruence.
  - split; [done|]. intros [r Hr]. by injection Hr.
Qed.

Lemma binding_prefix w b s m cs :
  plain_id w = true → plain_id b = true → plain_scope s = true →
  String.prefix (w +:+ "|" +:+ b +:+ "|") (cacheKeyFor s m cs) = true ↔
  w = scope_workspaceId s ∧ b = scope_bindingId s.
Proof.
  intros Hw Hb Hs. destruct (plain_scope_ids s Hs) as [Hw' Hb']. rewrite prefix_iff, cacheKeyFor_segments.
  split.
  - intros [r E]. repeat (rewrite ?str_app_assoc in E; cbn in E).
    apply bar_split in E as [-> E]; [|done..]. cbn in E. by apply bar_split in E as [-> _].
  - intros [-> ->]. eexists. repeat (rewrite ?str_app_assoc; cbn). done.
Qed.

Definition outside (w b : string) (e : string * CacheEntry) : bool :=
  negb (String.prefix (w +:+ "|" +:+ b +:+ "|") e.1).

Lemma invalidate_entries w b c :
  rc_entries (invalidateBinding w b c).2 = List.filter (outside w b) (rc_entries c).
Proof. unfold invalidateBinding. rewrite partition_as_filter. done. Qed.

Lemma assoc_get_outside w b k (es : list (string * CacheEntry)) :
  assoc_get k (List.filter (outside w b) es) =
  if String.prefix (w +:+ "|" +:+ b +:+ "|") k then None else assoc_get k es.
Proof.
  induction es as [|[k' x] es IH]; simpl; [by destruct (String.prefix _ k)|]. unfold outside at 1. simpl.
  destruct (String.eqb k' k) eqn:Ek.
  - apply String.eqb_eq in Ek as ->. destruct (String.prefix _ k) eqn:Ep; simpl; [done|]. by rewrite String.eqb_refl.
  - destruct (String.prefix _ k'); simpl; rewrite ?Ek; done.
Qed.

Lemma filter_comm {A} (p q : A → bool) l : List.filter p (List.filter q l) = List.filter q (List.filter p l).
Proof.
  induction l as [|x l IH]; simpl; [done|].
  destruct (q x) eqn:Eq, (p x) eqn:Ep; simpl; rewrite ?Eq, ?Ep, ?IH; done.
Qed.

Lemma get_keys_outside w b now keys es :
  (∀ k, k ∈ keys → String.prefix (w +:+ "|" +:+ b +:+ "|") k = false) →
  (get_keys now keys (List.filter (outside w b) es)).1 = (get_keys now keys es).1.
Proof.
  revert es. induction keys as [|k keys IH]; intros es Hk; simpl; [done|].
  rewrite assoc_get_outside, Hk by left.
  assert (∀ k, k ∈ keys → String.prefix (w +:+ "|" +:+ b +:+ "|") k = false) as Hk' by (intros ? ?; apply Hk; by right).
  destruct (assoc_get k es); [|by apply IH]. destruct (_ <=? _); [|done].
  unfold map_delete. rewrite filter_comm. by apply IH.
Qed.

Lemma get_keys_gone w b now keys es :
  (∀ k, k ∈ keys → String.prefix (w +:+ "|" +:+ b +:+ "|") k = true) →
  (get_keys now keys (List.filter (outside w b) es)).1 = None.
Proof.
  induction keys as [|k keys IH]; intros Hk; simpl; [done|].
  rewrite assoc_get_outside, Hk by left. apply IH. intros ? ?. apply Hk. by right.
Qed.

(** Invalidating a binding drops its responses in every scope and touches no
    other: afterwards nobody is served anything of that binding, in no user's
    scope, while every other binding, of this workspace or another, is answered
    as before. *)
Theorem invalidation_is_exact w b c now scope method :
  plain_id w = true → plain_id b = true → plain_scope scope = true →
  (cache_get now scope method (invalidateBinding w b c).2).1 =
  if decide (scope_workspaceId scope = w ∧ scope_bindingId scope = b) then None
  else (cache_get now scope method c).1.
Proof.
  intros Hw Hb Hs. unfold cache_get. rewrite invalidate_entries.
  assert (∀ k, k ∈ map (cacheKeyFor scope method) [cs_public; cs_private] →
    String.prefix (w +:+ "|" +:+ b +:+ "|") k =
      bool_decide (scope_workspaceId scope = w ∧ scope_bindingId scope = b)) as Hk.
  { intros k (cs & -> & _)%list_elem_of_fmap. apply eq_iff_eq_true. rewrite bool_decide_eq_true.
    rewrite binding_prefix by done. naive_solver. }
  destruct (decide _) as [Hd|Hd].
  - pose proof (get_keys_gone w b now (map (cacheKeyFor scope method) [cs_public; cs_private]) (rc_entries c)) as Hg.
    destruct (get_keys _ _ _) as [r es]. simpl in *. apply Hg. intros k Hin. rewrite Hk by done. by apply bool_decide_eq_true_2.
  - pose proof (get_keys_outside w b now (map (cacheKeyFor scope method) [cs_public; cs_private]) (rc_entries c)) as Hg.
    destruct (get_keys _ _ (List.filter _ _)) as [r es], (get_keys _ _ (rc_entries c)) as [r' es']. simpl in *.
    apply Hg. intros k Hin. rewrite Hk by done. by apply bool_decide_eq_false_2.
Qed.

(** ** Size *)

Lemma length_map_put k x es : (length (map_put k x es) <= S (length es))%nat.
Proof. induction es as [|[k' y] es IH]; simpl; [lia|]. destruct (String.eqb k' k); simpl; lia. Qed.

Lemma length_filter_le {A} (p : A → bool) l : (length (List.filter p l) <= length l)%nat.
Proof. induction l; simpl; [lia|]. destruct (p _); simpl; lia. Qed.

Lemma length_delete_head k x es : (length (map_delete k ((k, x) :: es)) <= length es)%nat.
Proof. unfold map_delete. simpl. rewrite String.eqb_refl. apply length_filter_le. Qed.

Lemma length_get_keys now keys es : (length (get_keys now keys es).2 <= length es)%nat.
Proof.
  revert es. induction keys as [|k keys IH]; intros es; simpl; [lia|].
  destruct (assoc_get k es); [|apply IH]. destruct (_ <=? _); [|simpl; lia].
  specialize (IH (map_delete k es)). pose proof (length_filter_le (λ e : string * CacheEntry, negb (String.eqb e.1 k)) es).
  unfold map_delete in *. lia.
Qed.

(** The cache never outgrows its limit. *)
Theorem cache_is_bounded ops max :
  1 <= max → Z.of_nat (length (rc_entries (cache_run ops (new_cache (Some max))))) <= max.
Proof.
  intros Hm. enough (rc_maxEntries (cache_run ops (new_cache (Some max))) = max ∧
    Z.of_nat (length (rc_entries (cache_run ops (new_cache (Some max))))) <= max) as [_ ?] by done.
  induction ops as [|op ops IH] using rev_ind; [simpl; lia|].
  unfold cache_run. rewrite foldl_snoc. fold (cache_run ops (new_cache (Some max))).
  destruct IH as [Hmax Hlen]. set (c := cache_run ops (new_cache (Some max))) in *.
  destruct op as [now s m v ttl raw|now s m|w b|]; cbn [cache_step].
  - unfold cache_set. destruct (_ =? 0); [done|]. simpl. split; [done|].
    match goal with |- context [map_put ?k ?x ?es] => pose proof (length_map_put k x es) as Hp; set (es' := es) in * end.
    enough (Z.of_nat (length es') <= max - 1) by lia. unfold es'. rewrite Hmax.
    destruct (max <=? Z.of_nat (length (rc_entries c))) eqn:E; bool_prop; [|lia].
    destruct (rc_entries c) as [|[k x] es]; [simpl in *; lia|].
    pose proof (length_delete_head k x es). cbn [length] in *. lia.
  - unfold cache_get. pose proof (length_get_keys now (map (cacheKeyFor s m) [cs_public; cs_private]) (rc_entries c)).
    destruct (get_keys _ _ _) as [r es]. simpl in *. split; [done|lia].
  - rewrite invalidate_entries. pose proof (length_filter_le (outside w b) (rc_entries c)).
    split; [|lia]. unfold invalidateBinding. by destruct (List.partition _ _).
  - simpl. split; [done|lia].
Qed.

(** ** Witnesses *)

Definition alice : ConnectionScopeKey := scope_user "ws_1" "bnd_1" "usr_a".
Definition bob : ConnectionScopeKey := scope_user "ws_1" "bnd_1" "usr_b".
Definition cache_history : list cache_op :=
  [CSet 0 alice "tools/list" (VString "alice's tools") (VNumber 5000) (VString "private");
   CSet 1 bob "prompts/list" (VString "shared prompts") (VNumber 5000) (VString "public");
   CGet 2 bob "tools/list"].

Lemma private_responses_stay_private_witness :
  (cache_get 10 bob "tools/list" (cache_run cache_history (new_cache None))).1 = None ∧
  ∃ at_ s ttl raw, CSet at_ s "prompts/list" (VString "shared prompts") ttl raw ∈ cache_history ∧
    (parseCacheScope raw = cs_public ∨ s = alice ∨ s = scope_workspace "ws_1" "bnd_1").
Proof.
  split; [vm_compute; reflexivity|].
  destruct (private_responses_stay_private cache_history None 10 alice "prompts/list" (VString "shared prompts"))
    as (at_ & s & ttl & raw & Hin & _ & _ & _ & Ho); [reflexivity..|]. by exists at_, s, ttl, raw.
Defined.

Lemma invalidation_is_exact_witness :
  (cache_get 10 alice "tools/list" (invalidateBinding "ws_1" "bnd_1" (cache_run cache_history (new_cache None))).2).1 = None.
Proof. apply (invalidation_is_exact "ws_1" "bnd_1" _ 10 alice "tools/list"); reflexivity. Defined.

(** Two entries in a cache of one: the older is evicted. *)
Lemma cache_is_bounded_witness :
  length (rc_entries (cache_run [CSet 0 alice "tools/list" VNull (VNumber 1000) (VString "private");
                                 CSet 0 bob "tools/list" VNull (VNumber 1000) (VString "private")] (new_cache (Some 1)))) = 1%nat ∧
  Z.of_nat (length (rc_entries (cache_run [CSet 0 alice "tools/list" VNull (VNumber 1000) (VString "private");
                                 CSet 0 bob "tools/list" VNull (VNumber 1000) (VString "private")] (new_cache (Some 1))))) <= 1.
Proof.
  split; [vm_compute; reflexivity|].
  exact (cache_is_bounded [CSet 0 alice "tools/list" VNull (VNumber 1000) (VString "private");
                           CSet 0 bob "tools/list" VNull (VNumber 1000) (VString "private")] 1 (Z.le_refl 1)).
Defined.
