(* ===== verification/Resilience.v ===== *)
(** * Concurrency limit and circuit breaker of outbound calls

    Models packages/mcp/src/resilience.ts.  The semaphore is a state machine
    over callers: a caller asks for a permit, waits, gives its permit back, or
    aborts while it waits; [sem_live] is the set of permits handed out and not
    yet released, which the closures returned by [acquire] stand for.  The
    breaker's clock is an argument. *)
From S2P Require Import Prelude.

(** ** Semaphore *)

Record Semaphore := { sem_available : Z; sem_waiters : list nat; sem_live : gset nat }.

Inductive SemaphoreError := needs_a_permit.
Inductive AcquireResult := granted | queued | aborted.
#[global] Instance AcquireResult_eq_dec : EqDecision AcquireResult.
Proof. solve_decision. Defined.

Definition new_semaphore (permits : Z) : outcome SemaphoreError Semaphore :=
  if permits <? 1 then Throw needs_a_permit
  else Ret {| sem_available := permits; sem_waiters := []; sem_live := ∅ |}.

(** [acquire]: [queued] stands for the promise that is still pending. *)
Definition acquire (caller : nat) (alreadyAborted : bool) (s : Semaphore) : AcquireResult * Semaphore :=
  if alreadyAborted then (aborted, s)
  else if 0 <? sem_available s then
    (granted, {| sem_available := sem_available s - 1; sem_waiters := sem_waiters s;
                 sem_live := {[caller]} ∪ sem_live s |})
  else (queued, {| sem_available := sem_available s; sem_waiters := sem_waiters s ++ [caller];
                   sem_live := sem_live s |}).

(** The closure [#release] returns: the second call does nothing; the first
    wakes the longest waiter, or puts the permit back. *)
Definition release_permit (caller : nat) (s : Semaphore) : Semaphore :=
  if bool_decide (caller ∈ sem_live s) then
    match sem_waiters s with
    | next :: rest => {| sem_available := sem_available s; sem_waiters := rest;
                         sem_live := {[next]} ∪ (sem_live s ∖ {[caller]}) |}
    | [] => {| sem_available := sem_available s + 1; sem_waiters := [];
               sem_live := sem_live s ∖ {[caller]} |}
    end
  else s.

(** [onAbort]: the waiter leaves the queue, wherever it stands. *)
Fixpoint remove_first (caller : nat) (l : list nat) : list nat :=
  match l with
  | [] => []
  | x :: l' => if bool_decide (x = caller) then l' else x :: remove_first caller l'
  end.
Definition abort_wait (caller : nat) (s : Semaphore) : Semaphore :=
  {| sem_available := sem_available s; sem_waiters := remove_first caller (sem_waiters s); sem_live := sem_live s |}.

Inductive sem_op := SAcquire (caller : nat) | SRelease (caller : nat) | SAbort (caller : nat).

Definition sem_exec (s : Semaphore) (op : sem_op) : Semaphore :=
  match op with
  | SAcquire c => (acquire c false s).2
  | SRelease c => release_permit c s
  | SAbort c => abort_wait c s
  end.

(** Steps of any callers in any order; each call of [acquire] is a caller of
    its own. *)
Inductive sem_steps : Semaphore → gset nat → Semaphore → gset nat → Prop :=
| ss_refl s used : sem_steps s used s used
| ss_acquire s used s' used' c : sem_steps s used s' used' → c ∉ used' →
    sem_steps s used (sem_exec s' (SAcquire c)) ({[c]} ∪ used')
| ss_release s used s' used' c : sem_steps s used s' used' → sem_steps s used (sem_exec s' (SRelease c)) used'
| ss_abort s used s' used' c : sem_steps s used s' used' → sem_steps s used (sem_exec s' (SAbort c)) used'.

Record sem_ok (permits : Z) (s : Semaphore) (used : gset nat) : Prop := {
  so_conserved : sem_available s + Z.of_nat (size (sem_live s)) = permits;
  so_available : 0 <= sem_available s;
  so_waiting : sem_waiters s ≠ [] → sem_available s = 0;
  so_nodup : NoDup (sem_waiters s);
  so_disjoint : ∀ c, c ∈ sem_waiters s → c ∉ sem_live s;
  so_used : ∀ c, c ∈ sem_waiters s ∨ c ∈ sem_live s → c ∈ used;
}.

Lemma elem_of_remove_first c x l : x ∈ remove_first c l → x ∈ l.
Proof.
  induction l as [|y l IH]; simpl; [done|]. case_bool_decide; [by right|].
  rewrite !elem_of_cons. intros [->|?]; auto.
Qed.

Lemma NoDup_remove_first c l : NoDup l → NoDup (remove_first c l).
Proof.
  induction 1 as [|x l Hx Hl IH]; simpl; [constructor|]. case_bool_decide; [done|].
  constructor; [|done]. by intros ?%elem_of_remove_first.
Qed.

Lemma size_swap_live (next caller : nat) (live : gset nat) :
  caller ∈ live → next ∉ live → size ({[next]} ∪ (live ∖ {[caller]})) = size live.
Proof.
  intros Hc Hn. rewrite size_union by set_solver. rewrite size_singleton, size_difference by set_solver.
  rewrite size_singleton. assert (size live ≠ 0%nat); [|lia]. rewrite size_non_empty_iff. set_solver.
Qed.

Lemma sem_exec_ok permits s used op :
  sem_ok permits s used → (∀ c, op = SAcquire c → c ∉ used) →
  sem_ok permits (sem_exec s op) (match op with SAcquire c => {[c]} ∪ used | _ => used end).
Proof.
  intros [Hc Ha Hw Hn Hd Hu] Hfresh. destruct op as [c|c|c]; cbn [sem_exec].
  - assert (c ∉ used) as Hf by (by apply Hfresh). unfold acquire. destruct (0 <? sem_available s) eqn:E.
    + apply Z.ltb_lt in E. split; simpl; try done.
      * rewrite size_union, size_singleton; [lia|]. apply disjoint_singleton_l. intros Hl. by apply Hf, Hu; right.
      * lia.
      * intros Hq. apply Hw in Hq. lia.
      * intros x Hx. apply not_elem_of_union. split; [|by apply Hd].
        intros ->%elem_of_singleton. apply Hf, Hu. by left.
      * intros x [Hx|[->%elem_of_singleton|Hx]%elem_of_union]; apply elem_of_union; [right; apply Hu; auto|left; set_solver|right; apply Hu; auto].
    + apply Z.ltb_ge in E. split; simpl; try done.
      * lia.
      * apply NoDup_app. split; [done|]. split; [|apply NoDup_singleton].
        intros x Hx ->%list_elem_of_singleton. apply Hf, Hu. by left.
      * intros x [Hx| ->%list_elem_of_singleton]%elem_of_app; [by apply Hd|]. intros Hl. by apply Hf, Hu; right.
      * intros x [[Hx| ->%list_elem_of_singleton]%elem_of_app|Hx]; apply elem_of_union; [right; apply Hu; auto|left; set_solver|right; apply Hu; auto].
  - unfold release_permit. case_bool_decide as Hl; [|by split]. destruct (sem_waiters s) as [|next rest] eqn:Ew.
    + split; simpl.
      * rewrite size_difference, size_singleton by set_solver.
        assert (size (sem_live s) ≠ 0%nat); [|lia]. rewrite size_non_empty_iff. set_solver.
      * lia.
      * by intros [].
      * constructor.
      * by intros x ?%elem_of_nil.
      * intros x [?%elem_of_nil|Hx]; [done|]. apply Hu. right. set_solver.
    + apply NoDup_cons in Hn as [Hnr Hn].
      assert (next ∉ sem_live s) as Hnl by (apply Hd; left). split; simpl; try done.
      * by rewrite size_swap_live.
      * intros _. by apply Hw.
      * intros x Hx. apply not_elem_of_union. split; [set_solver|]. assert (x ∉ sem_live s) by (apply Hd; by right). set_solver.
      * intros x [Hx|[->%elem_of_singleton|Hx]%elem_of_union]; apply Hu; [left; by right|left; left|right; set_solver].
  - unfold abort_wait. split; simpl; try done.
    + intros Hne. apply Hw. intros E. by rewrite E in Hne.
    + by apply NoDup_remove_first.
    + intros x Hx%elem_of_remove_first. by apply Hd.
    + intros x [Hx%elem_of_remove_first|Hx]; apply Hu; auto.
Qed.

Lemma sem_steps_ok permits s used s' used' :
  sem_steps s used s' used' → sem_ok permits s used → sem_ok permits s' used'.
Proof.
  induction 1 as [|s used s' used' c H IH Hc|s used s' used' c H IH|s used s' used' c H IH]; intros Hok; [done|..].
  - apply (sem_exec_ok permits s' used' (SAcquire c)); [by apply IH|]. by intros ? [= <-].
  - by apply (sem_exec_ok permits s' used' (SRelease c)); [apply IH|].
  - by apply (sem_exec_ok permits s' used' (SAbort c)); [apply IH|].
Qed.

(** The limit holds in every interleaving: never more calls hold a permit than
    the semaphore has, permits are neither lost nor made, whatever is released
    twice or aborted, and nobody waits while a permit is free. *)
Theorem semaphore_keeps_its_limit permits s0 s used :
  new_semaphore permits = Ret s0 → sem_steps s0 ∅ s used →
  sem_available s + Z.of_nat (size (sem_live s)) = permits ∧ 0 <= sem_available s ∧
  (sem_waiters s ≠ [] → Z.of_nat (size (sem_live s)) = permits).
Proof.
  unfold new_semaphore. destruct (permits <? 1) eqn:E; [done|]. apply Z.ltb_ge in E. intros [= <-] Hs.
  apply (sem_steps_ok permits) in Hs as [Hc Ha Hw _ _ _].
  - split_and!; [done..|]. intros Hq%Hw. lia.
  - split; cbn [sem_available sem_waiters sem_live].
    + rewrite size_empty. lia.
    + lia.
    + by intros [].
    + constructor.
    + by intros ? ?%elem_of_nil.
    + intros c [?%elem_of_nil|?]; [done|set_solver].
Qed.

(** ** Circuit breaker *)

Inductive CircuitState := closed | open | half_open.
#[global] Instance CircuitState_eq_dec : EqDecision CircuitState.
Proof. solve_decision. Defined.

Record CircuitBreaker := {
  cb_state : CircuitState;
  cb_failures : Z;
  cb_openedAt : Z;
  cb_trialInFlight : bool;
  cb_threshold : Z;
  cb_openMs : Z;
}.

Definition new_breaker (failureThreshold openMs : option Z) : CircuitBreaker :=
  {| cb_state := closed; cb_failures := 0; cb_openedAt := 0; cb_trialInFlight := false;
     cb_threshold := default 5 failureThreshold; cb_openMs := default 30000 openMs |}.

Definition set_circuit (b : CircuitBreaker) (st : CircuitState) (failures openedAt : Z) (trial : bool) : CircuitBreaker :=
  {| cb_state := st; cb_failures := failures; cb_openedAt := openedAt; cb_trialInFlight := trial;
     cb_threshold := cb_threshold b; cb_openMs := cb_openMs b |}.

Definition cb_refresh (now : Z) (b : CircuitBreaker) : CircuitBreaker :=
  if bool_decide (cb_state b = open) && (cb_openMs b <=? now - cb_openedAt b)
  then set_circuit b half_open (cb_failures b) (cb_openedAt b) false else b.

Definition tryAcquire (now : Z) (b : CircuitBreaker) : bool * CircuitBreaker :=
  let b := cb_refresh now b in
  match cb_state b with
  | closed => (true, b)
  | open => (false, b)
  | half_open =>
      if cb_trialInFlight b then (false, b)
      else (true, set_circuit b (cb_state b) (cb_failures b) (cb_openedAt b) true)
  end.

Definition recordSuccess (b : CircuitBreaker) : CircuitBreaker := set_circuit b closed 0 (cb_openedAt b) false.

Definition recordFailure (now : Z) (b : CircuitBreaker) : CircuitBreaker :=
  let failures := cb_failures b + 1 in
  if bool_decide (cb_state b = half_open) || (cb_threshold b <=? failures)
  then set_circuit b open failures now false
  else set_circuit b (cb_state b) failures (cb_openedAt b) false.

Definition cb_reset (b : CircuitBreaker) : CircuitBreaker := set_circuit b closed 0 (cb_openedAt b) false.

(** What callers do, in any order: ask, report, or reset by hand. *)
Inductive cb_op := BTry (now : Z) | BSuccess | BFailure (now : Z) | BReset.
Definition cb_exec (b : CircuitBreaker) (op : cb_op) : CircuitBreaker :=
  match op with
  | BTry now => (tryAcquire now b).2
  | BSuccess => recordSuccess b
  | BFailure now => recordFailure now b
  | BReset => cb_reset b
  end.

(** The reference: failures since the last success or reset. *)
Fixpoint trailing_failures (history : list cb_op) (n : Z) : Z :=
  match history with
  | [] => n
  | BFailure _ :: h => trailing_failures h (n + 1)
  | BSuccess :: h | BReset :: h => trailing_failures h 0
  | BTry _ :: h => trailing_failures h n
  end.

Lemma trailing_snoc h op n :
  trailing_failures (h ++ [op]) n =
  match op with
  | BFailure _ => trailing_failures h n + 1
  | BSuccess | BReset => 0
  | BTry _ => trailing_failures h n
  end.
Proof. revert n. induction h as [|op' h IH]; intros n; simpl; [by destruct op|]. destruct op'; apply IH. Qed.

Lemma tryAcquire_frame now b :
  cb_failures (tryAcquire now b).2 = cb_failures b ∧ cb_threshold (tryAcquire now b).2 = cb_threshold b ∧
  cb_openMs (tryAcquire now b).2 = cb_openMs b ∧
  (cb_state (tryAcquire now b).2 = closed ↔ cb_state b = closed).
Proof.
  unfold tryAcquire, cb_refresh. destruct b as [[] f o [] t ms]; simpl; try done;
    destruct (ms <=? now - o); simpl; done.
Qed.

Lemma recordFailure_state now b :
  cb_state (recordFailure now b) =
  if bool_decide (cb_state b = half_open) || (cb_threshold b <=? cb_failures b + 1) then open else cb_state b.
Proof. unfold recordFailure. by destruct (_ || _). Qed.

(** The breaker is its failure count: whatever the order in which calls are
    admitted and finish, it counts the failures since the last success, and it
    is closed exactly while that count is below the threshold. *)
Theorem breaker_counts_failures history b0 :
  1 <= cb_threshold b0 → cb_state b0 = closed → cb_failures b0 = 0 →
  let b := foldl cb_exec b0 history in
  cb_failures b = trailing_failures history 0 ∧
  (cb_state b = closed ↔ trailing_failures history 0 < cb_threshold b0).
Proof.
  intros Ht Hs Hf. cbv zeta.
  enough (cb_threshold (foldl cb_exec b0 history) = cb_threshold b0 ∧
    cb_failures (foldl cb_exec b0 history) = trailing_failures history 0 ∧ 0 <= trailing_failures history 0 ∧
    (cb_state (foldl cb_exec b0 history) = closed ↔ trailing_failures history 0 < cb_threshold b0)) by tauto.
  induction history as [|op h IH] using rev_ind; [simpl; split_and!; [done|done|done|]; split; [lia|done]|].
  rewrite foldl_snoc, trailing_snoc. set (b := foldl cb_exec b0 h) in *. destruct IH as (It & If & I0 & Is).
  destruct op as [now| |now|]; cbn [cb_exec].
  - destruct (tryAcquire_frame now b) as (-> & -> & _ & ->). done.
  - simpl. split_and!; [done..|]. split; [lia|done].
  - rewrite recordFailure_state. unfold recordFailure.
    destruct (bool_decide (cb_state b = half_open) || (cb_threshold b <=? cb_failures b + 1)) eqn:E; simpl;
      (split_and!; [done|lia|lia|]).
    + split; [done|]. intros Hlt. apply orb_true_iff in E as [E|E]; bool_prop; [|lia].
      assert (cb_state b = closed) by (apply Is; lia). congruence.
    + bool_prop. rewrite Is. lia.
  - simpl. split_and!; [done..|]. split; [lia|done].
Qed.

(** The answers to a burst of requests with no report in between. *)
Fixpoint admissions (b : CircuitBreaker) (times : list Z) : list bool :=
  match times with
  | [] => []
  | now :: times' => let '(ok, b') := tryAcquire now b in ok :: admissions b' times'
  end.

Lemma trial_blocks b times :
  cb_state b = half_open → cb_trialInFlight b = true → Forall (λ ok, ok = false) (admissions b times).
Proof.
  intros Hs Ht. induction times as [|now times IH]; simpl; [constructor|].
  unfold tryAcquire, cb_refresh. rewrite Hs. simpl. rewrite Hs, Ht. by constructor.
Qed.

Lemma admissions_open b times :
  cb_state b ≠ closed →
  ∃ pre post, admissions b times = pre ++ post ∧ Forall (λ ok, ok = false) pre ∧
    (post = [] ∨ ∃ rest, post = true :: rest ∧ Forall (λ ok, ok = false) rest).
Proof.
  revert b. induction times as [|now times IH]; intros b Hb; simpl; [exists [], []; split_and!; [done|constructor|by left]|].
  destruct (tryAcquire now b) as [ok b'] eqn:E. pose proof (tryAcquire_frame now b) as (_ & _ & _ & Hc).
  rewrite E in Hc. simpl in Hc. destruct ok.
  - exists [], (true :: admissions b' times). split_and!; [done|constructor|]. right. exists (admissions b' times).
    split; [done|]. unfold tryAcquire in E. destruct (cb_state (cb_refresh now b)) eqn:Er; try done.
    + exfalso. injection E as <-. apply Hb, Hc, Er.
    + destruct (cb_trialInFlight _); [done|]. injection E as <-. by apply trial_blocks.
  - destruct (IH b') as (pre & post & -> & Hpre & Hpost); [by rewrite Hc|].
    exists (false :: pre), post. split_and!; [done|by constructor|done].
Qed.

(** A tripped breaker admits one trial: of all the requests that arrive before
    the next report, in whatever number and at whatever times, at most one is
    let through, and none earlier than [openMs] after it opened. *)
Theorem open_circuit_admits_one_trial b times :
  cb_state b ≠ closed →
  (length (List.filter id (admissions b times)) <= 1)%nat ∧
  (cb_state b = open → Forall (λ now, now < cb_openedAt b + cb_openMs b) times →
   Forall (λ ok, ok = false) (admissions b times)).
Proof.
  intros Hb. split.
  - destruct (admissions_open b times Hb) as (pre & post & -> & Hpre & Hpost).
    assert (∀ l, Forall (λ ok, ok = false) l → List.filter id l = []) as Hnone.
    { induction 1 as [|? ? -> ? IH]; [done|exact IH]. }
    rewrite List.filter_app, Hnone by done. destruct Hpost as [->|(rest & -> & Hr)]; simpl; [lia|].
    rewrite Hnone by done. simpl. lia.
  - intros Ho Ht. induction Ht as [|now times Hn Ht IH]; simpl; [constructor|].
    unfold tryAcquire, cb_refresh. rewrite Ho.
    assert (cb_openMs b <=? now - cb_openedAt b = false) as -> by (apply Z.leb_gt; lia).
    simpl. rewrite Ho. by constructor.
Qed.

(** ** Witnesses *)

(** Caller 0 holds the permit and gives it to caller 1; caller 2 waits. *)
Definition one_permit : Semaphore := {| sem_available := 1; sem_waiters := []; sem_live := ∅ |}.
Definition handed_over : Semaphore :=
  foldl sem_exec one_permit [SAcquire 0; SAcquire 1; SRelease 0; SAcquire 2].

Lemma semaphore_keeps_its_limit_witness :
  sem_waiters handed_over = [2%nat] ∧
  sem_available handed_over + Z.of_nat (size (sem_live handed_over)) = 1 ∧ 0 <= sem_available handed_over ∧
  (sem_waiters handed_over ≠ [] → Z.of_nat (size (sem_live handed_over)) = 1).
Proof.
  split; [reflexivity|].
  apply (semaphore_keeps_its_limit 1 one_permit handed_over
    ({[2%nat]} ∪ ({[1%nat]} ∪ ({[0%nat]} ∪ (∅ : gset nat))))); [reflexivity|].
  apply ss_acquire; [apply ss_release, ss_acquire; [apply ss_acquire; [apply ss_refl|]|]|]; set_solver.
Defined.

Lemma breaker_counts_failures_witness :
  let b := foldl cb_exec (new_breaker (Some 2) None) [BFailure 1; BSuccess; BFailure 2; BTry 3; BFailure 4] in
  cb_failures b = 2 ∧ (cb_state b = closed ↔ 2 < 2).
Proof.
  apply (breaker_counts_failures [BFailure 1; BSuccess; BFailure 2; BTry 3; BFailure 4] (new_breaker (Some 2) None));
    [done|reflexivity..].
Defined.

Lemma open_circuit_admits_one_trial_witness :
  let b := recordFailure 100 (new_breaker (Some 1) (Some 50)) in
  admissions b [120; 150; 151; 400] = [false; true; false; false] ∧
  (length (List.filter id (admissions b [120; 150; 151; 400]%Z)) <= 1)%nat.
Proof. split; [reflexivity|]. by apply open_circuit_admits_one_trial. Defined.
