(* ===== verification/Registry.v ===== *)
(** * Binding resolution and multi-round-trip requests

    Models packages/mcp/src/mrtr.ts (what an embedded request asks for and
    whether it is answered) and registry.ts (how a stored binding becomes a
    connection).  The store of bindings and the source of authentication headers
    are parameters, as in the code. *)
From S2P Require Import Prelude Json Entities Budget Guard ResponseCache.

(** ** Multi-round-trip requests (mrtr.ts) *)

Inductive InputRequestKind := ir_human | ir_inference | ir_roots | ir_unknown.
#[global] Instance InputRequestKind_eq_dec : EqDecision InputRequestKind.
Proof. solve_decision. Defined.

Record ClassifiedInputRequest := {
  ci_key : string;
  ci_kind : InputRequestKind;
  ci_method : string;
  ci_params : value;
}.

Definition classifyInputRequest (key : string) (request : value) : ClassifiedInputRequest :=
  let method := js_string (or_else (own request "method") (VString "")) in
  {| ci_key := key;
     ci_kind := if String.eqb method "elicitation/create" then ir_human
                else if String.eqb method "sampling/createMessage" then ir_inference
                else if String.eqb method "roots/list" then ir_roots
                else ir_unknown;
     ci_method := method;
     ci_params := own request "params" |}.

(** [Object.entries(requests ?? {})]. *)
Fixpoint string_entries (i : Z) (s : string) : list (string * value) :=
  match s with
  | EmptyString => []
  | String c s' => (pretty i, VString (String c "")) :: string_entries (i + 1) s'
  end.
Definition object_entries (v : value) : list (string * value) :=
  match v with
  | VObject es => es
  | VArray xs => imap (λ i x, (pretty (Z.of_nat i), x)) xs
  | VString s => string_entries 0 s
  | _ => []
  end.

Definition classifyInputRequests (requests : value) : list ClassifiedInputRequest :=
  map (λ e, classifyInputRequest e.1 e.2) (object_entries requests).

Record MrtrPolicy := { mp_allowInference : bool; mp_allowHumanInput : bool; mp_maxRounds : Z }.
Definition DEFAULT_MRTR_POLICY : MrtrPolicy :=
  {| mp_allowInference := false; mp_allowHumanInput := true; mp_maxRounds := 4 |}.

Inductive MrtrDecision :=
| md_auto (requests : list ClassifiedInputRequest)
| md_needs_human (requests : list ClassifiedInputRequest)
| md_refuse (reason : string).

(** Why one request is not answered, if it is not. *)
Definition request_refusal (policy : MrtrPolicy) (r : ClassifiedInputRequest) : option string :=
  match ci_kind r with
  | ir_inference =>
      if mp_allowInference policy then None
      else Some ("This server asked the host to run a model on its behalf. That is denied by default: " +:+
                 "it would spend the workspace budget on prompts the server controls. An administrator " +:+
                 "can enable it for this specific server.")
  | ir_human =>
      if mp_allowHumanInput policy then None
      else Some "This server asked to interrupt a person, which is disabled for it."
  | ir_roots => Some ("This server asked for filesystem roots. That capability is deprecated in the " +:+
                      "protocol and is not exposed by this host.")
  | ir_unknown => Some ("This server asked for " +:+ dquote +:+ ci_method r +:+ dquote +:+
                        ", which this host does not recognise. " +:+
                        "Answering an unrecognised request would mean guessing what it consents to.")
  end.

(** The loop over the requests: the first refusal. *)
Fixpoint first_refusal (policy : MrtrPolicy) (requests : list ClassifiedInputRequest) : option string :=
  match requests with
  | [] => None
  | r :: rs => match request_refusal policy r with Some reason => Some reason | None => first_refusal policy rs end
  end.

Definition decideMrtr (requests : list ClassifiedInputRequest) (policy : MrtrPolicy) (roundsSoFar : Z) : MrtrDecision :=
  if mp_maxRounds policy <=? roundsSoFar then
    md_refuse ("This tool asked for input " +:+ pretty roundsSoFar +:+ " times, which exceeds the limit of " +:+
               pretty (mp_maxRounds policy) +:+ ". A server that keeps asking is either misbehaving or stuck.")
  else
    match requests with
    | [] => md_refuse "The server asked for input but named no requests, so there is nothing to answer."
    | _ =>
        match first_refusal policy requests with
        | Some reason => md_refuse reason
        | None => if existsb (λ r, bool_decide (ci_kind r = ir_human)) requests
                  then md_needs_human requests else md_auto requests
        end
    end.

Definition requestStateFingerprint (state : option string) : string :=
  match state with
  | None => "none"
  | Some s => if String.eqb s "" then "none" else "len:" +:+ pretty (Z.of_nat (String.length s))
  end.

Definition isInputRequired (result : value) : bool :=
  match own result "resultType" with VString s => String.eqb s "input_required" | _ => false end.

(** ** The registry (registry.ts) *)

Inductive BindingStatus := bs_pending_auth | bs_connected | bs_error | bs_disabled.
#[global] Instance BindingStatus_eq_dec : EqDecision BindingStatus.
Proof. solve_decision. Defined.

Inductive McpTransportKind := tr_streamable_http | tr_stdio | tr_in_process.
#[global] Instance McpTransportKind_eq_dec : EqDecision McpTransportKind.
Proof. solve_decision. Defined.

Record BindingRecord := {
  br_id : string;
  br_workspaceId : string;
  br_mcpServerId : string;
  br_alias : string;
  br_enabled : bool;
  br_status : BindingStatus;
  br_perUserAuth : bool;
  br_credentialId : option string;
  br_allowInference : option bool;
  br_allowHumanInput : option bool;
  br_maxRounds : option Z;
  br_timeoutMs : option Z;
}.

Record ServerRecord := {
  sv_id : string;
  sv_slug : string;
  sv_transport : McpTransportKind;
  sv_url : option string;
  sv_authMode : string;
  sv_trustTier : TrustTier;
  sv_protocolVersionPin : option string;
}.

Record McpServerDefinition := {
  df_bindingId : string;
  df_serverId : string;
  df_alias : string;
  df_transport : McpTransportKind;
  df_url : option string;
  df_protocolVersionPin : option string;
  df_headers : option (list (string * string));
}.

Record ResolvedBinding := {
  rb_definition : McpServerDefinition;
  rb_scope : ConnectionScopeKey;
  rb_mrtrPolicy : MrtrPolicy;
  rb_timeoutMs : Z;
  rb_trustTier : TrustTier;
}.

Inductive UnavailableReason := ua_not_found | ua_disabled | ua_pending_auth | ua_errored | ua_unsupported_transport | ua_no_url.
Inductive ResolveError :=
| binding_unavailable (bindingId : string) (reason : UnavailableReason)
| resolve_other (message : string).

Definition MAY_REQUEST_INFERENCE (t : TrustTier) : bool :=
  match t with first_party | verified => true | community | untrusted => false end.

Definition effectiveMrtrPolicy (binding : BindingRecord) (server : ServerRecord) : MrtrPolicy :=
  let allowInference := default (mp_allowInference DEFAULT_MRTR_POLICY) (br_allowInference binding) in
  let maxRounds := default (mp_maxRounds DEFAULT_MRTR_POLICY) (br_maxRounds binding) in
  {| mp_allowInference := allowInference && MAY_REQUEST_INFERENCE (sv_trustTier server);
     mp_allowHumanInput := default (mp_allowHumanInput DEFAULT_MRTR_POLICY) (br_allowHumanInput binding);
     mp_maxRounds := Z.max 0 (Z.min maxRounds (mp_maxRounds DEFAULT_MRTR_POLICY * 4)) |}.

Definition assertUsable (binding : BindingRecord) (server : ServerRecord) : outcome ResolveError unit :=
  let unavailable reason := Throw (binding_unavailable (br_id binding) reason) in
  if negb (br_enabled binding) || bool_decide (br_status binding = bs_disabled) then unavailable ua_disabled
  else if bool_decide (br_status binding = bs_pending_auth) then unavailable ua_pending_auth
  else if bool_decide (br_status binding = bs_error) then unavailable ua_errored
  else match sv_transport server with
       | tr_in_process => Ret ()
       | tr_stdio => unavailable ua_unsupported_transport
       | tr_streamable_http =>
           match sv_url server with
           | None => unavailable ua_no_url
           | Some u => if String.eqb u "" then unavailable ua_no_url else Ret ()
           end
       end.

Lemma assertUsable_Ret binding server :
  assertUsable binding server = Ret () →
  br_enabled binding = true ∧ br_status binding = bs_connected ∧
  (sv_transport server = tr_in_process ∨
   sv_transport server = tr_streamable_http ∧ ∃ u, sv_url server = Some u ∧ u ≠ "").
Proof.
  unfold assertUsable. destruct (br_enabled binding), (br_status binding); simpl; try done.
  destruct (sv_transport server); try done; auto. destruct (sv_url server) as [u|]; [|done].
  destruct (String.eqb u "") eqn:E; [done|]. bool_prop. eauto 7.
Qed.

Lemma effectiveMrtrPolicy_bounds binding server :
  0 <= mp_maxRounds (effectiveMrtrPolicy binding server) <= 16 ∧
  (mp_allowInference (effectiveMrtrPolicy binding server) = true →
     br_allowInference binding = Some true ∧ (sv_trustTier server = first_party ∨ sv_trustTier server = verified)).
Proof.
  unfold effectiveMrtrPolicy. cbn [mp_maxRounds mp_allowInference DEFAULT_MRTR_POLICY]. split; [lia|].
  destruct (br_allowInference binding) as [[]|], (sv_trustTier server); simpl; auto; done.
Qed.

Section Registry.
(** [BindingSource] and [ConnectionAuthSource]. *)
Context (load : string → string → option (BindingRecord * ServerRecord)).
Context (listEnabled : string → list (BindingRecord * ServerRecord)).
Context (headersFor : BindingRecord → ServerRecord → ConnectionScopeKey → option (list (string * string))).

Definition resolve (workspaceId bindingId : string) (userId : option string) : outcome ResolveError ResolvedBinding :=
  match load workspaceId bindingId with
  | None => Throw (binding_unavailable bindingId ua_not_found)
  | Some (binding, server) =>
      obind (assertUsable binding server) (λ _,
      match scopeFor workspaceId (br_id binding) (br_perUserAuth binding) userId with
      | Throw message => Throw (resolve_other message)
      | Ret scope =>
          Ret {| rb_definition :=
                   {| df_bindingId := br_id binding; df_serverId := sv_id server; df_alias := br_alias binding;
                      df_transport := sv_transport server; df_url := sv_url server;
                      df_protocolVersionPin := sv_protocolVersionPin server;
                      df_headers := headersFor binding server scope |};
                 rb_scope := scope;
                 rb_mrtrPolicy := effectiveMrtrPolicy binding server;
                 rb_timeoutMs := Z.min (default DEFAULT_TOOL_TIMEOUT_MS (br_timeoutMs binding)) MAX_TOOL_TIMEOUT_MS;
                 rb_trustTier := sv_trustTier server |}
      end)
  end.

Fixpoint resolve_all (workspaceId : string) (userId : option string) (records : list (BindingRecord * ServerRecord))
    : outcome ResolveError (list ResolvedBinding) :=
  match records with
  | [] => Ret []
  | (binding, _) :: rest =>
      match resolve workspaceId (br_id binding) userId with
      | Ret r => obind (resolve_all workspaceId userId rest) (λ rs, Ret (r :: rs))
      | Throw (binding_unavailable _ _) => resolve_all workspaceId userId rest
      | Throw e => Throw e
      end
  end.
Definition listUsable (workspaceId : string) (userId : option string) : outcome ResolveError (list ResolvedBinding) :=
  resolve_all workspaceId userId (listEnabled workspaceId).

(** ** What a resolved binding may do *)

(** Configuration only tightens: whatever a binding's record says, a resolved
    binding is enabled and connected, is reached in process or over HTTP with a
    URL, times out within the host's ceiling, may ask back at most sixteen
    times, may have the host run a model only when its server is first-party or
    verified and the binding opted in, and acts in the scope of the calling user
    whenever its authentication is per user. *)
Theorem resolution_respects_ceilings workspaceId bindingId userId r :
  resolve workspaceId bindingId userId = Ret r →
  ∃ binding server, load workspaceId bindingId = Some (binding, server) ∧
    br_enabled binding = true ∧ br_status binding = bs_connected ∧
    (df_transport (rb_definition r) = tr_in_process ∨
     df_transport (rb_definition r) = tr_streamable_http ∧ ∃ u, df_url (rb_definition r) = Some u ∧ u ≠ "") ∧
    rb_timeoutMs r <= MAX_TOOL_TIMEOUT_MS ∧
    0 <= mp_maxRounds (rb_mrtrPolicy r) <= 16 ∧
    (mp_allowInference (rb_mrtrPolicy r) = true →
       br_allowInference binding = Some true ∧ (rb_trustTier r = first_party ∨ rb_trustTier r = verified)) ∧
    rb_scope r = (if br_perUserAuth binding
                  then scope_user workspaceId (br_id binding) (default "" userId)
                  else scope_workspace workspaceId (br_id binding)) ∧
    (br_perUserAuth binding = true → is_Some userId).
Proof.
  unfold resolve. destruct (load workspaceId bindingId) as [[b s]|]; [|done].
  destruct (assertUsable b s) as [[]|] eqn:Ha; [|done]. cbn [obind].
  destruct (scopeFor _ _ _ _) as [scope|] eqn:Hs; [|done]. intros [= <-]. exists b, s. split; [done|].
  destruct (assertUsable_Ret b s Ha) as (He & Hst & Htr).
  destruct (effectiveMrtrPolicy_bounds b s) as [Hr Hi].
  cbn [rb_definition rb_timeoutMs rb_mrtrPolicy rb_trustTier rb_scope df_transport df_url].
  split_and!; try done; try lia.
  - unfold scopeFor in Hs. destruct (br_perUserAuth b), userId; simpl in *; congruence.
  - intros Hp. unfold scopeFor in Hs. rewrite Hp in Hs. destruct userId; [by eexists|done].
Qed.
End Registry.

(** ** A binding that asks for more than it may have *)

Definition greedy_binding : BindingRecord := {|
  br_id := "bnd_1"; br_workspaceId := "ws_1"; br_mcpServerId := "srv_1"; br_alias := "crm"; br_enabled := true;
  br_status := bs_connected; br_perUserAuth := true; br_credentialId := None; br_allowInference := Some true;
  br_allowHumanInput := None; br_maxRounds := Some 1000; br_timeoutMs := Some 600000 |}.
Definition community_server : ServerRecord := {|
  sv_id := "srv_1"; sv_slug := "crm"; sv_transport := tr_streamable_http; sv_url := Some "https://crm.example";
  sv_authMode := "oauth2"; sv_trustTier := community; sv_protocolVersionPin := None |}.
Definition one_binding (workspaceId bindingId : string) : option (BindingRecord * ServerRecord) :=
  if String.eqb bindingId "bnd_1" then Some (greedy_binding, community_server) else None.

Lemma resolution_respects_ceilings_witness :
  ∃ r, resolve one_binding (λ _ _ _, None) "ws_1" "bnd_1" (Some "usr_a") = Ret r ∧
    rb_timeoutMs r <= MAX_TOOL_TIMEOUT_MS ∧ mp_maxRounds (rb_mrtrPolicy r) <= 16 ∧
    mp_allowInference (rb_mrtrPolicy r) = false.
Proof.
  eexists. split; [vm_compute; reflexivity|].
  edestruct (resolution_respects_ceilings one_binding (λ _ _ _, None) "ws_1" "bnd_1" (Some "usr_a"))
    as (b & s & _ & _ & _ & _ & Ht & [_ Hr] & _); [vm_compute; reflexivity|].
  split; [exact Ht|]. split; [exact Hr|reflexivity].
Defined.
