(* ===== verification/ClientPool.v ===== *)
(** * The pool of MCP clients

    Models [McpClientManager] of packages/mcp/src/client.ts.  [run] is split
    where it awaits: it asks the circuit breaker and looks for a client, a
    connection is made, a permit of the client's semaphore is obtained, the
    operation finishes.  Calls are numbered and may interleave at those points;
    the network, the operation and the SDK decide only how each await ends.
    Connections are numbered; [pl_opened] are those not closed yet. *)
From S2P Require Import Prelude Json Entities ResponseCache Resilience Registry.

Record Health := { hl_lastOkAt : option Z; hl_lastError : option string }.

Inductive CallState :=
| connecting (definition : McpServerDefinition) (scope : ConnectionScopeKey)
| in_process_call (definition : McpServerDefinition) (conn : nat)
| pooled_call (definition : McpServerDefinition) (scope : ConnectionScopeKey) (conn : nat).

Record Pool := {
  pl_clients : list (string * nat);
  pl_sems : gmap nat Semaphore;
  pl_breakers : list (string * CircuitBreaker);
  pl_health : list (string * Health);
  pl_opened : gset nat;
  pl_calls : gmap nat CallState;
}.

Definition new_pool : Pool :=
  {| pl_clients := []; pl_sems := ∅; pl_breakers := []; pl_health := []; pl_opened := ∅; pl_calls := ∅ |}.

Definition set_breaker (bindingId : string) (b : CircuitBreaker) (p : Pool) : Pool :=
  {| pl_clients := pl_clients p; pl_sems := pl_sems p; pl_breakers := jm_set bindingId b (pl_breakers p);
     pl_health := pl_health p; pl_opened := pl_opened p; pl_calls := pl_calls p |}.
Definition set_health (bindingId : string) (h : Health) (p : Pool) : Pool :=
  {| pl_clients := pl_clients p; pl_sems := pl_sems p; pl_breakers := pl_breakers p;
     pl_health := jm_set bindingId h (pl_health p); pl_opened := pl_opened p; pl_calls := pl_calls p |}.
Definition set_call (call : nat) (s : option CallState) (p : Pool) : Pool :=
  {| pl_clients := pl_clients p; pl_sems := pl_sems p; pl_breakers := pl_breakers p; pl_health := pl_health p;
     pl_opened := pl_opened p; pl_calls := match s with Some x => <[call := x]> (pl_calls p) | None => delete call (pl_calls p) end |}.
Definition set_sem (conn : nat) (s : Semaphore) (p : Pool) : Pool :=
  {| pl_clients := pl_clients p; pl_sems := <[conn := s]> (pl_sems p); pl_breakers := pl_breakers p; pl_health := pl_health p;
     pl_opened := pl_opened p; pl_calls := pl_calls p |}.
Definition set_opened (o : gset nat) (p : Pool) : Pool :=
  {| pl_clients := pl_clients p; pl_sems := pl_sems p; pl_breakers := pl_breakers p; pl_health := pl_health p;
     pl_opened := o; pl_calls := pl_calls p |}.
Definition set_clients (cs : list (string * nat)) (p : Pool) : Pool :=
  {| pl_clients := cs; pl_sems := pl_sems p; pl_breakers := pl_breakers p; pl_health := pl_health p;
     pl_opened := pl_opened p; pl_calls := pl_calls p |}.

Inductive PoolError :=
| circuit_open (bindingId : string) (failures : Z)
| pool_failed (message : string).

(** [#breaker]: the binding's breaker, a new one the first time. *)
Definition breaker_of (bindingId : string) (p : Pool) : CircuitBreaker :=
  default (new_breaker None None) (jm_get bindingId (pl_breakers p)).

Definition record_pool_failure (now : Z) (bindingId message : string) (p : Pool) : Pool :=
  set_health bindingId
    {| hl_lastOkAt := jm_get bindingId (pl_health p) ≫= hl_lastOkAt; hl_lastError := Some message |}
    (set_breaker bindingId (recordFailure now (breaker_of bindingId p)) p).

Definition record_pool_success (now : Z) (bindingId : string) (p : Pool) : Pool :=
  set_health bindingId {| hl_lastOkAt := Some now; hl_lastError := None |}
    (set_breaker bindingId (recordSuccess (breaker_of bindingId p)) p).

Definition evict (scope : ConnectionScopeKey) (p : Pool) : Pool :=
  match jm_get (scopeKeyString scope) (pl_clients p) with
  | None => p
  | Some conn => set_opened (pl_opened p ∖ {[conn]}) (set_clients (jm_delete (scopeKeyString scope) (pl_clients p)) p)
  end.

Definition closeAll (p : Pool) : Pool :=
  set_opened (pl_opened p ∖ list_to_set (map snd (pl_clients p))) (set_clients [] p).

Definition resetBinding (bindingId : string) (p : Pool) : Pool :=
  let p := match jm_get bindingId (pl_breakers p) with Some b => set_breaker bindingId (cb_reset b) p | None => p end in
  {| pl_clients := pl_clients p; pl_sems := pl_sems p; pl_breakers := pl_breakers p;
     pl_health := jm_delete bindingId (pl_health p); pl_opened := pl_opened p; pl_calls := pl_calls p |}.

Record BindingHealth := {
  bh_circuitState : CircuitState; bh_consecutiveFailures : Z; bh_lastOkAt : option Z; bh_lastError : option string }.

Definition healthOf (now : Z) (bindingId : string) (p : Pool) : BindingHealth * Pool :=
  let b := cb_refresh now (breaker_of bindingId p) in
  let h := jm_get bindingId (pl_health p) in
  ({| bh_circuitState := cb_state b; bh_consecutiveFailures := cb_failures b; bh_lastOkAt := h ≫= hl_lastOkAt;
      bh_lastError := h ≫= hl_lastError |}, set_breaker bindingId b p).

(** What [createClient] refuses before it touches the network. *)
Definition createClient (definition : McpServerDefinition) (canOpenInProcess : bool) (network : outcome string nat)
    : outcome string nat :=
  match df_transport definition with
  | tr_in_process =>
      if canOpenInProcess then network
      else Throw ("Binding " +:+ df_bindingId definition +:+ " is an in-process server, but this host was not " +:+
                  "configured to open one.")
  | tr_stdio =>
      Throw ("Transport " +:+ dquote +:+ "stdio" +:+ dquote +:+ " is not enabled. Streamable HTTP reaches a remote server and " +:+
             "in-process reaches a first-party one; stdio spawns a process with our filesystem " +:+
             "and network, and is gated behind sandboxing.")
  | tr_streamable_http =>
      match df_url definition with
      | None | Some EmptyString => Throw ("Binding " +:+ df_bindingId definition +:+ " has no URL.")
      | Some _ => network
      end
  end.

Section Pool.
(** [options.maxConcurrent ?? defaultConcurrency], one for all calls. *)
Context (permits : Z).

(** A permit is asked for; the call runs when the semaphore lists it as live. *)
Definition ask_permit (call conn : nat) (p : Pool) : Pool :=
  match pl_sems p !! conn with
  | Some s => set_sem conn (acquire call false s).2 p
  | None => p
  end.

Definition begin_call (now : Z) (call : nat) (definition : McpServerDefinition) (scope : ConnectionScopeKey) (p : Pool)
    : option PoolError * Pool :=
  let '(ok, b) := tryAcquire now (breaker_of (df_bindingId definition) p) in
  let p := set_breaker (df_bindingId definition) b p in
  if negb ok then (Some (circuit_open (df_bindingId definition) (cb_failures b)), p)
  else match df_transport definition, jm_get (scopeKeyString scope) (pl_clients p) with
       | tr_in_process, _ | _, None => (None, set_call call (Some (connecting definition scope)) p)
       | _, Some conn => (None, ask_permit call conn (set_call call (Some (pooled_call definition scope conn)) p))
       end.

(** The connection attempt of a call ends. *)
Definition connection_made (now : Z) (call : nat) (canOpenInProcess : bool) (network : outcome string nat) (p : Pool)
    : option PoolError * Pool :=
  match pl_calls p !! call with
  | Some (connecting definition scope) =>
      let fail m p := (Some (pool_failed m), set_call call None (record_pool_failure now (df_bindingId definition) m p)) in
      match createClient definition canOpenInProcess network with
      | Throw m => fail m p
      | Ret conn =>
          let p := set_opened ({[conn]} ∪ pl_opened p) p in
          match df_transport definition with
          | tr_in_process => (None, set_call call (Some (in_process_call definition conn)) p)
          | _ =>
              match new_semaphore permits with
              | Throw _ => fail "Semaphore needs at least one permit." p
              | Ret s =>
                  (None, ask_permit call conn
                    (set_call call (Some (pooled_call definition scope conn))
                      (set_clients (jm_set (scopeKeyString scope) conn (pl_clients p)) (set_sem conn s p))))
              end
          end
      end
  | _ => (None, p)
  end.

Definition release_call (call conn : nat) (p : Pool) : Pool :=
  match pl_sems p !! conn with
  | Some s => set_sem conn (release_permit call s) p
  | None => p
  end.

Definition holds_permit (call conn : nat) (p : Pool) : bool :=
  match pl_sems p !! conn with Some s => bool_decide (call ∈ sem_live s) | None => false end.

(** The operation of a call that was let through ends. *)
Definition operation_done (now : Z) (call : nat) (result : outcome string unit) (p : Pool) : option PoolError * Pool :=
  match pl_calls p !! call with
  | Some (in_process_call definition conn) =>
      let close p := set_call call None (set_opened (pl_opened p ∖ {[conn]}) p) in
      match result with
      | Ret _ => (None, close (record_pool_success now (df_bindingId definition) p))
      | Throw m => (Some (pool_failed m), close (record_pool_failure now (df_bindingId definition) m p))
      end
  | Some (pooled_call definition scope conn) =>
      if negb (holds_permit call conn p) then (None, p)
      else match result with
           | Ret _ => (None, release_call call conn (set_call call None (record_pool_success now (df_bindingId definition) p)))
           | Throw m =>
               (Some (pool_failed m),
                release_call call conn (set_call call None (evict scope (record_pool_failure now (df_bindingId definition) m p))))
           end
  | _ => (None, p)
  end.

(** ** Interleavings *)

Inductive pool_step : Pool → gset nat → gset nat → Pool → gset nat → gset nat → Prop :=
| ps_begin p used conns now call definition scope :
    call ∉ used → pool_step p used conns (begin_call now call definition scope p).2 ({[call]} ∪ used) conns
| ps_connected p used conns now call canOpen conn :
    conn ∉ conns → pool_step p used conns (connection_made now call canOpen (Ret conn) p).2 used ({[conn]} ∪ conns)
| ps_connect_failed p used conns now call canOpen m :
    pool_step p used conns (connection_made now call canOpen (Throw m) p).2 used conns
| ps_done p used conns now call result : pool_step p used conns (operation_done now call result p).2 used conns
| ps_evict p used conns scope : pool_step p used conns (evict scope p) used conns
| ps_closeAll p used conns : pool_step p used conns (closeAll p) used conns
| ps_reset p used conns bindingId : pool_step p used conns (resetBinding bindingId p) used conns
| ps_health p used conns now bindingId : pool_step p used conns (healthOf now bindingId p).2 used conns.

(** Calls and connections seen so far, and the pool reached. *)
Inductive pool_reachable : Pool → gset nat → gset nat → Prop :=
| pr_new : pool_reachable new_pool ∅ ∅
| pr_step p used conns p' used' conns' :
    pool_reachable p used conns → pool_step p used conns p' used' conns' → pool_reachable p' used' conns'.

Definition is_connecting (calls : gmap nat CallState) (call : nat) : Prop :=
  ∃ definition scope, calls !! call = Some (connecting definition scope).

(** Whoever a semaphore knows has begun and is past connecting. *)
Definition sem_inv (calls : gmap nat CallState) (used : gset nat) (s : Semaphore) : Prop :=
  ∃ asked, sem_ok permits s asked ∧ ∀ c, c ∈ asked → c ∈ used ∧ ¬ is_connecting calls c.

Record pool_ok (p : Pool) (used conns : gset nat) : Prop := {
  po_sems : map_Forall (λ _ s, sem_inv (pl_calls p) used s) (pl_sems p);
  po_conns : ∀ conn, is_Some (pl_sems p !! conn) → conn ∈ conns;
  po_calls : ∀ c, is_connecting (pl_calls p) c → c ∈ used;
}.

(** Steps that leave the semaphores alone and let only new calls connect. *)
Lemma pool_frame p p' used conns used' conns' :
  pl_sems p' = pl_sems p → used ⊆ used' → conns ⊆ conns' →
  (∀ c, is_connecting (pl_calls p') c → is_connecting (pl_calls p) c ∨ c ∉ used ∧ c ∈ used') →
  pool_ok p used conns → pool_ok p' used' conns'.
Proof.
  intros Es Hu Hco Hc [Hs Hd Hk]. split; rewrite ?Es.
  - intros conn s E. destruct (Hs conn s E) as (asked & Hok & Ha). exists asked. split; [done|].
    intros c [Hin Hn]%Ha. split; [by apply Hu|]. intros [?|[? _]]%Hc; done.
  - intros conn Hin. by apply Hco, Hd.
  - intros c [Hin%Hk|[_ Hin]]%Hc; [by apply Hu|done].
Qed.

Lemma sem_put p conn s used conns :
  pool_ok p used conns → conn ∈ conns → sem_inv (pl_calls p) used s → pool_ok (set_sem conn s p) used conns.
Proof.
  intros [Hs Hd Hk] Hc Hi. split; simpl; [by apply map_Forall_insert_2| |done].
  intros k. rewrite lookup_insert_is_Some. intros [<-|[_ Hin]]; [done|by apply Hd].
Qed.

Lemma ask_permit_ok call conn p used conns :
  call ∈ used → ¬ is_connecting (pl_calls p) call →
  (∀ k s, pl_sems p !! k = Some s → call ∉ sem_live s ∧ call ∉ sem_waiters s) →
  pool_ok p used conns → pool_ok (ask_permit call conn p) used conns.
Proof.
  intros Hu Hn Hfresh Hok. unfold ask_permit. destruct (pl_sems p !! conn) as [s|] eqn:E; [|done].
  apply sem_put; [done|by eapply po_conns|]. destruct (po_sems _ _ _ Hok conn s E) as (asked & Hs & Ha).
  destruct (Hfresh conn s E) as [Hl Hw].
  assert (sem_ok permits s (asked ∖ {[call]})) as Hs'.
  { destruct Hs as [H1 H2 H3 H4 H5 H6]. split; try done. intros c Hc. apply elem_of_difference. split; [by apply H6|].
    intros ->%elem_of_singleton. by destruct Hc. }
  exists ({[call]} ∪ asked ∖ {[call]}). split; [apply (sem_exec_ok _ _ _ (SAcquire call) Hs'); set_solver|].
  intros c [->%elem_of_singleton|[Hc _]%elem_of_difference]%elem_of_union; [done|by apply Ha].
Qed.

Lemma release_call_ok call conn p used conns : pool_ok p used conns → pool_ok (release_call call conn p) used conns.
Proof.
  intros Hok. unfold release_call. destruct (pl_sems p !! conn) as [s|] eqn:E; [|done].
  apply sem_put; [done|by eapply po_conns|]. destruct (po_sems _ _ _ Hok conn s E) as (asked & Hs & Ha).
  exists asked. split; [|done]. by apply (sem_exec_ok _ _ _ (SRelease call) Hs).
Qed.

(** A call nobody has begun, or that is connecting, is in no semaphore. *)
Lemma absent_call p used conns call k s :
  pool_ok p used conns → call ∉ used ∨ is_connecting (pl_calls p) call → pl_sems p !! k = Some s →
  call ∉ sem_live s ∧ call ∉ sem_waiters s.
Proof.
  intros Hok Hc E. destruct (po_sems _ _ _ Hok k s E) as (asked & Hs & Ha).
  split; intros Hin; (assert (call ∈ asked) as [? ?]%Ha by (apply (so_used _ _ _ Hs); auto)); naive_solver.
Qed.

Lemma connecting_insert calls call c x :
  is_connecting (<[call := x]> calls) c → c = call ∧ (∃ d sc, x = connecting d sc) ∨ is_connecting calls c.
Proof. intros (d & sc & [[<- ->]|[_ Hc]]%lookup_insert_Some); [left; eauto|right]. by exists d, sc. Qed.

Lemma connecting_delete calls call c : is_connecting (delete call calls) c → is_connecting calls c.
Proof. intros (d & sc & [_ Hc]%lookup_delete_Some). by exists d, sc. Qed.

Lemma begin_call_ok now call definition scope p used conns :
  call ∉ used → pool_ok p used conns → pool_ok (begin_call now call definition scope p).2 ({[call]} ∪ used) conns.
Proof.
  intros Hu Hok. unfold begin_call. destruct (tryAcquire _ _) as [ok b]. set (p1 := set_breaker _ b p).
  assert (∀ x, pool_ok (set_call call (Some x) p1) ({[call]} ∪ used) conns) as Hset.
  { intros x. apply (pool_frame p _ used conns); [done|set_solver|done| |done].
    intros c [[-> _]|?]%connecting_insert; [right; set_solver|by left]. }
  assert (∀ conn, pool_ok (ask_permit call conn (set_call call (Some (pooled_call definition scope conn)) p1)) ({[call]} ∪ used) conns) as Hask.
  { intros conn. apply ask_permit_ok; [set_solver| | |done].
    - intros (d & sc & E). simpl in E. by rewrite lookup_insert_eq in E.
    - intros k s E. by apply (absent_call p used conns call k s Hok); [left|]. }
  destruct ok; simpl; [|apply (pool_frame p _ used conns); [done|set_solver|done|by left|done]].
  destruct (df_transport definition); try apply Hset; destruct (jm_get (scopeKeyString scope) (pl_clients p)); simpl; auto.
Qed.

Lemma pooled_ok now call definition scope conn p s used conns conns' :
  conns ⊆ conns' → conn ∈ conns' → new_semaphore permits = Ret s → pl_calls p !! call = Some (connecting definition scope) →
  pool_ok p used conns →
  pool_ok (ask_permit call conn (set_call call (Some (pooled_call definition scope conn))
             (set_clients (jm_set (scopeKeyString scope) conn (pl_clients p)) (set_sem conn s (set_opened now p))))) used conns'.
Proof.
  intros Hsub Hin Hnew Ec Hok. assert (is_connecting (pl_calls p) call) as Hcon by (by exists definition, scope).
  unfold new_semaphore in Hnew. destruct (permits <? 1) eqn:Ep; [done|]. apply Z.ltb_ge in Ep. injection Hnew as <-.
  set (s := {| sem_available := permits; sem_waiters := []; sem_live := ∅ |}).
  assert (pool_ok (set_sem conn s (set_opened now p)) used conns') as Hput.
  { apply sem_put; [by apply (pool_frame p _ used conns); [..|by left|]|done|]. exists ∅. split; [|set_solver].
    split; cbn [s sem_available sem_waiters sem_live]; [rewrite size_empty; lia|lia|by intros []|constructor|by intros ? ?%elem_of_nil|].
    intros c [?%elem_of_nil|?]; [done|set_solver]. }
  apply ask_permit_ok; [by apply (po_calls _ _ _ Hok)| | |].
  - intros (d & sc & E). simpl in E. by rewrite lookup_insert_eq in E.
  - simpl. intros k s' [[<- <-]|[_ E]]%lookup_insert_Some; [split; [set_solver|apply not_elem_of_nil]|].
    by apply (absent_call p used conns call k s' Hok); [right|].
  - apply (pool_frame (set_sem conn s (set_opened now p)) _ used conns'); [done|done|done| |done].
    intros c [[_ (? & ? & ?)]|?]%connecting_insert; [done|by left].
Qed.

Lemma connection_made_ok now call canOpen network p used conns conns' :
  conns ⊆ conns' → (∀ conn, network = Ret conn → conn ∈ conns') →
  pool_ok p used conns → pool_ok (connection_made now call canOpen network p).2 used conns'.
Proof.
  intros Hsub Hnet Hok. unfold connection_made.
  destruct (pl_calls p !! call) as [[definition scope| |]|] eqn:Ec;
    try (by apply (pool_frame p _ used conns); [..|by left|]).
  assert (∀ m q, pl_sems q = pl_sems p → pl_calls q = pl_calls p →
    pool_ok (set_call call None (record_pool_failure now (df_bindingId definition) m q)) used conns') as Hfail.
  { intros m q Es Eq. apply (pool_frame p _ used conns); [done|done|done| |done]. simpl. rewrite Eq.
    intros c ?%connecting_delete. by left. }
  destruct (createClient definition canOpen network) as [conn|m] eqn:Ecr; [|by apply Hfail].
  assert (network = Ret conn) as Hn by (unfold createClient in Ecr; by repeat case_match).
  assert (∀ q, pl_sems q = pl_sems p → pl_calls q = pl_calls p →
    pool_ok (set_call call (Some (in_process_call definition conn)) q) used conns') as Hset.
  { intros q Es Eq. apply (pool_frame p _ used conns); [done|done|done| |done]. simpl. rewrite Eq.
    intros c [[_ (? & ? & ?)]|?]%connecting_insert; [done|by left]. }
  destruct (df_transport definition); try (by apply Hset);
    (destruct (new_semaphore permits) as [s|] eqn:Es; [|by apply Hfail]);
    by apply (pooled_ok _ _ _ _ _ p s used conns); auto.
Qed.

Lemma frame_call p q call used conns :
  pl_sems q = pl_sems p → pl_calls q = pl_calls p → pool_ok p used conns → pool_ok (set_call call None q) used conns.
Proof.
  intros Es Eq. apply pool_frame; [done|done|done|]. simpl. rewrite Eq. intros c ?%connecting_delete. by left.
Qed.

Lemma evict_frame scope p : pl_sems (evict scope p) = pl_sems p ∧ pl_calls (evict scope p) = pl_calls p.
Proof. unfold evict. by destruct (jm_get _ _). Qed.

Lemma operation_done_ok now call result p used conns :
  pool_ok p used conns → pool_ok (operation_done now call result p).2 used conns.
Proof.
  intros Hok. unfold operation_done. destruct (pl_calls p !! call) as [[|definition conn|definition scope conn]|]; try done.
  - destruct result; simpl; by apply (frame_call p).
  - destruct (negb _); [done|]. destruct result as [|m]; apply release_call_ok; [by apply (frame_call p)|].
    destruct (evict_frame scope (record_pool_failure now (df_bindingId definition) m p)) as [E1 E2].
    apply (frame_call p); [by rewrite E1|by rewrite E2|done].
Qed.

Lemma pool_reachable_ok p used conns : pool_reachable p used conns → pool_ok p used conns.
Proof.
  induction 1 as [|p used conns p' used' conns' _ IH Hstep].
  { split; [apply map_Forall_empty|by intros ? [? ?]|]. intros c (? & ? & ?). done. }
  destruct Hstep.
  - by apply begin_call_ok.
  - apply (connection_made_ok _ _ _ _ _ _ conns); [set_solver|intros ? [= <-]; set_solver|done].
  - by apply (connection_made_ok _ _ _ _ _ _ conns).
  - by apply operation_done_ok.
  - destruct (evict_frame scope p) as [E1 E2]. apply (pool_frame p _ used conns); [done|done|done|rewrite E2; by left|done].
  - by apply (pool_frame p _ used conns); [..|by left|].
  - unfold resetBinding. destruct (jm_get _ _); by apply (pool_frame p _ used conns); [..|by left|].
  - by apply (pool_frame p _ used conns); [..|by left|].
Qed.

(** However calls, failures, evictions and resets interleave, one connection
    never carries more operations at a time than its limit, no permit is lost or
    made when a connection is evicted under calls that still wait for it, and
    nobody waits while there is a free one. *)
Theorem connections_keep_their_limit p used conns conn s :
  pool_reachable p used conns → pl_sems p !! conn = Some s →
  sem_available s + Z.of_nat (size (sem_live s)) = permits ∧ 0 <= sem_available s ∧
  (sem_waiters s ≠ [] → Z.of_nat (size (sem_live s)) = permits).
Proof.
  intros Hr E. destruct (po_sems _ _ _ (pool_reachable_ok _ _ _ Hr) conn s E) as (asked & [Hc Ha Hw _ _ _] & _).
  split_and!; [done..|]. intros Hq%Hw. lia.
Qed.
End Pool.

(** While a binding's circuit is open nothing is started for it: no connection,
    no permit, no call. *)
Lemma paused_binding_starts_nothing now call definition scope p :
  let b := breaker_of (df_bindingId definition) p in
  cb_state b = open → now < cb_openedAt b + cb_openMs b →
  let '(e, p') := begin_call now call definition scope p in
  e = Some (circuit_open (df_bindingId definition) (cb_failures b)) ∧ pl_calls p' = pl_calls p ∧
  pl_sems p' = pl_sems p ∧ pl_clients p' = pl_clients p ∧ pl_opened p' = pl_opened p.
Proof.
  intros b Ho Hn. unfold begin_call, tryAcquire, cb_refresh. fold b. rewrite Ho.
  assert (cb_openMs b <=? now - cb_openedAt b = false) as -> by (apply Z.leb_gt; lia). simpl. by rewrite Ho.
Qed.

(** ** Witnesses *)

Definition remote_mail : McpServerDefinition := {|
  df_bindingId := "mcb_1"; df_serverId := "srv_1"; df_alias := "mail"; df_transport := tr_streamable_http;
  df_url := Some "https://mail.example"; df_protocolVersionPin := None; df_headers := None |}.
Definition mail_scope : ConnectionScopeKey := scope_workspace "wks_1" "mcb_1".

(** Two calls connect and run, with one permit each connection. *)
Definition one_call : Pool :=
  (connection_made 1 5 1 true (Ret 7%nat) (begin_call 0 1 remote_mail mail_scope new_pool).2).2.
Definition two_calls : Pool := (begin_call 6 2 remote_mail mail_scope one_call).2.

Lemma two_calls_reachable : pool_reachable 1 two_calls {[2%nat; 1%nat]} {[7%nat]}.
Proof.
  replace ({[2%nat; 1%nat]} : gset nat) with ({[2%nat]} ∪ ({[1%nat]} ∪ ∅) : gset nat) by set_solver.
  replace ({[7%nat]} : gset nat) with ({[7%nat]} ∪ ∅ : gset nat) by set_solver.
  eapply pr_step; [|apply ps_begin; set_solver]. eapply pr_step; [|apply ps_connected; set_solver].
  eapply pr_step; [apply pr_new|apply ps_begin; set_solver].
Qed.

Lemma connections_keep_their_limit_witness :
  (sem_waiters <$> (pl_sems two_calls !! 7%nat)) = Some [2%nat] ∧
  ∃ s, pl_sems two_calls !! 7%nat = Some s ∧ Z.of_nat (size (sem_live s)) = 1.
Proof.
  split; [vm_compute; reflexivity|].
  assert (is_Some (pl_sems two_calls !! 7%nat)) as [s Hs] by (vm_compute; eexists; reflexivity).
  assert (sem_waiters <$> (pl_sems two_calls !! 7%nat) = Some [2%nat]) as Hw by (vm_compute; reflexivity).
  rewrite Hs in Hw. apply (inj Some) in Hw.
  destruct (connections_keep_their_limit 1 two_calls _ _ 7%nat s two_calls_reachable Hs) as (_ & _ & Hq).
  exists s. split; [exact Hs|]. apply Hq. rewrite Hw. discriminate.
Defined.

(** Two calls that find no client both connect; the second connection takes the
    first one's place in the map, so the binding carries two operations at once
    with one permit, and [closeAll] leaves the first connection open. *)
Theorem racing_connects_double_the_limit :
  let raced := (connection_made 1 6 2 true (Ret 8%nat)
                 (connection_made 1 5 1 true (Ret 7%nat)
                   (begin_call 1 2 remote_mail mail_scope (begin_call 0 1 remote_mail mail_scope new_pool).2).2).2).2 in
  holds_permit 1 7 raced = true ∧ holds_permit 2 8 raced = true ∧ pl_clients raced = [(scopeKeyString mail_scope, 8%nat)] ∧
  pl_opened (closeAll raced) = {[7%nat]}.
Proof. by vm_compute. Qed.
