(* ===== verification/Results.v ===== *)
(** * Normalisation of tool results

    Models packages/mcp/src/results.ts.  The blob store is a parameter: storing
    under a key succeeds or throws a message; every store attempted is recorded.
    [base64Bytes] is the number of bytes a base64 text decodes to.  Sizes count
    UTF-8 bytes of the code units, which are those of Latin-1. *)
From S2P Require Import Prelude Json JsonText Entities Guard ContextAssembler.

Definition MAX_INLINE_RESULT_BYTES : Z := 64 * 1024.
Definition MAX_ACCEPTED_RESULT_BYTES : Z := 8 * 1024 * 1024.

Record NormalisedResult := {
  nr_content : list ContentBlock;
  nr_structured : option value;
  nr_isError : bool;
  nr_bytes : Z;
  nr_spilledTo : option string;
  nr_truncated : bool;
}.

Fixpoint utf8Bytes (s : string) : Z :=
  match s with
  | EmptyString => 0
  | String c s' => (if (Ascii.N_of_ascii c <? 128)%N then 1 else 2) + utf8Bytes s'
  end.

Definition sizeOf (v : value) : Z := utf8Bytes (stringify v).

Definition refusalResult (reason : string) : NormalisedResult :=
  {| nr_content := [BText reason]; nr_structured := None; nr_isError := true; nr_bytes := utf8Bytes reason;
     nr_spilledTo := None; nr_truncated := false |}.

(** A head of the content whose text fits a budget. *)
Fixpoint summarise (budgetBytes used : Z) (content : list ContentBlock) : list ContentBlock :=
  match content with
  | [] => []
  | BText t :: rest =>
      let remaining := budgetBytes - used in
      if remaining <=? 0 then []
      else
        let text := if remaining <? Z.of_nat (String.length t) then str_take (Z.to_nat remaining) t +:+ "…" else t in
        BText text :: summarise budgetBytes (used + utf8Bytes text) rest
  | b :: rest => b :: summarise budgetBytes used rest
  end.

(** What was stored, with its media type. *)
Record Put := { put_key : string; put_mime : string }.

(** Storing is the only effect: a result or an exception, and what was stored. *)
Definition storing (A : Type) : Type := outcome string A * list Put.
Definition st_ret {A} (a : A) : storing A := (Ret a, []).
Definition st_bind {A B} (m : storing A) (k : A → storing B) : storing B :=
  match m.1 with
  | Ret a => ((k a).1, m.2 ++ (k a).2)
  | Throw e => (Throw e, m.2)
  end.

Section Normalise.
Context (blobs : option (string → outcome string unit)) (base64Bytes : string → Z).

Definition put_blob (store : string → outcome string unit) (key mime : string) : storing unit :=
  (store key, [{| put_key := key; put_mime := mime |}]).

Definition text_prop (block : value) (key other : string) : string :=
  js_string (or_else (own block key) (VString other)).

Definition translateBlock (block : value) (keyPrefix : string) (index : nat) : storing ContentBlock :=
  let type := text_prop block "type" "" in
  if String.eqb type "text" then st_ret (BText (text_prop block "text" ""))
  else if String.eqb type "image" || String.eqb type "audio" then
    let data := text_prop block "data" "" in
    let mime := text_prop block "mimeType" "application/octet-stream" in
    match blobs with
    | Some store =>
        if String.eqb data "" then st_ret (BText ("[" +:+ type +:+ " omitted: " +:+ mime +:+ "]"))
        else
          let key := keyPrefix +:+ "/block-" +:+ pretty (Z.of_nat index) in
          st_bind (put_blob store key mime) (λ _, st_ret (BBlobRef key (base64Bytes data) mime))
    | None => st_ret (BText ("[" +:+ type +:+ " omitted: " +:+ mime +:+ "]"))
    end
  else if String.eqb type "resource_link" then
    let uri := text_prop block "uri" "" in
    let name := text_prop block "name" uri in
    st_ret (BText ("[resource: " +:+ name +:+ " <" +:+ uri +:+ ">]"))
  else if String.eqb type "resource" then
    let resource := own block "resource" in
    match own resource "text" with
    | VString t => st_ret (BText t)
    | _ => st_ret (BText ("[embedded resource <" +:+ text_prop resource "uri" "" +:+ ">]"))
    end
  else st_ret (BText ("[unsupported content block: " +:+ type +:+ "]")).

(** [block === null || typeof block !== 'object']. *)
Definition is_block (v : value) : bool :=
  match v with VObject _ | VArray _ => true | _ => false end.

Fixpoint translate_all (keyPrefix : string) (index : nat) (blocks : list value) : storing (list ContentBlock) :=
  match blocks with
  | [] => st_ret []
  | b :: rest =>
      if is_block b then
        st_bind (translateBlock b keyPrefix index) (λ c,
        st_bind (translate_all keyPrefix (S index) rest) (λ cs, st_ret (c :: cs)))
      else translate_all keyPrefix (S index) rest
  end.

Definition optional_value (v : value) : option value :=
  match v with VUndefined => None | _ => Some v end.

Definition rejected_notice (totalBytes : Z) : string :=
  "[tool result rejected: " +:+ pretty totalBytes +:+ " bytes exceeds the " +:+ pretty MAX_ACCEPTED_RESULT_BYTES +:+
  "-byte limit. Ask the tool for less, or for a resource reference.]".
Definition spilled_notice (totalBytes : Z) (key : string) : string :=
  "[result truncated: " +:+ pretty totalBytes +:+ " bytes stored at " +:+ key +:+ "]".

Definition normaliseToolResult (raw : value) (blobKeyPrefix : string) (maxInlineBytes : option Z)
    : storing NormalisedResult :=
  let result := or_else raw (VObject []) in
  let isError := match own result "isError" with VBool true => true | _ => false end in
  let rawBlocks := match own result "content" with VArray bs => bs | _ => [] end in
  let totalBytes := sizeOf result in
  let maxInline := default MAX_INLINE_RESULT_BYTES maxInlineBytes in
  if MAX_ACCEPTED_RESULT_BYTES <? totalBytes then
    st_ret {| nr_content := [BText (rejected_notice totalBytes)]; nr_structured := None; nr_isError := true;
              nr_bytes := totalBytes; nr_spilledTo := None; nr_truncated := true |}
  else
    st_bind (translate_all blobKeyPrefix 0 rawBlocks) (λ content,
    let structured := optional_value (own result "structuredContent") in
    let inline := st_ret {| nr_content := content; nr_structured := structured; nr_isError := isError;
                            nr_bytes := totalBytes; nr_spilledTo := None; nr_truncated := false |} in
    match blobs with
    | Some store =>
        if maxInline <? totalBytes then
          let key := blobKeyPrefix +:+ "/result.json" in
          st_bind (put_blob store key "application/json") (λ _,
          st_ret {| nr_content := summarise maxInline 0 content ++ [BText (spilled_notice totalBytes key)];
                    nr_structured := structured; nr_isError := isError; nr_bytes := totalBytes;
                    nr_spilledTo := Some key; nr_truncated := true |})
        else inline
    | None => inline
    end).

(** ** What the model is shown *)

(** The text of a result. *)
Definition text_length (content : list ContentBlock) : Z :=
  fold_right (λ b n, match b with BText t => Z.of_nat (String.length t) | _ => 0 end + n) 0 content.

Lemma utf8Bytes_length s : Z.of_nat (String.length s) <= utf8Bytes s.
Proof. induction s as [|c s IH]; simpl; [lia|]. destruct (_ <? _)%N; lia. Qed.

Lemma text_length_app a b : text_length (a ++ b) = text_length a + text_length b.
Proof. induction a as [|x a IH]; simpl; [done|]. rewrite IH. lia. Qed.

Lemma text_length_text t content :
  text_length (BText t :: content) = Z.of_nat (String.length t) + text_length content.
Proof. done. Qed.

Lemma summarise_spent budget used content : budget <= used → text_length (summarise budget used content) = 0.
Proof.
  intros Hu. induction content as [|b content IH]; [done|]. destruct b; try exact IH.
  cbn [summarise]. by assert (budget - used <=? 0 = true) as -> by (apply Z.leb_le; lia).
Qed.

Lemma summarise_bound budget used content :
  text_length (summarise budget used content) <= Z.max 0 (budget - used) + Z.of_nat (String.length "…").
Proof.
  revert used. induction content as [|b content IH]; intros used; [simpl; lia|].
  destruct b as [t| | | | | |]; try exact (IH used).
  cbn [summarise]. destruct (budget - used <=? 0) eqn:Er; bool_prop; [simpl; lia|]. rewrite text_length_text.
  destruct (budget - used <? Z.of_nat (String.length t)) eqn:El.
  - apply Z.ltb_lt in El.
    assert (Z.of_nat (String.length (str_take (Z.to_nat (budget - used)) t +:+ "…")) =
            budget - used + Z.of_nat (String.length "…")) as Hl by (rewrite str_length_app, str_take_length; lia).
    pose proof (utf8Bytes_length (str_take (Z.to_nat (budget - used)) t +:+ "…")).
    rewrite summarise_spent by lia. lia.
  - apply Z.ltb_ge in El. specialize (IH (used + utf8Bytes t)). pose proof (utf8Bytes_length t). lia.
Qed.

(** A result cannot flood the prompt: beyond eight megabytes it is replaced by
    a notice that says so and nothing is stored; with a blob store, a result
    over the inline limit is stored whole and the model sees text of at most
    that limit, and a notice naming where the rest is; otherwise every block is
    there.  What a server flags as an error stays one. *)
Theorem results_are_bounded raw blobKeyPrefix maxInlineBytes r puts :
  normaliseToolResult raw blobKeyPrefix maxInlineBytes = (Ret r, puts) →
  let result := or_else raw (VObject []) in
  let maxInline := default MAX_INLINE_RESULT_BYTES maxInlineBytes in
  nr_bytes r = sizeOf result ∧
  (own result "isError" = VBool true → nr_isError r = true) ∧
  if MAX_ACCEPTED_RESULT_BYTES <? sizeOf result then
    nr_content r = [BText (rejected_notice (sizeOf result))] ∧ nr_isError r = true ∧ puts = []
  else if (maxInline <? sizeOf result) && bool_decide (is_Some blobs) then
    ∃ key shown, nr_spilledTo r = Some key ∧ {| put_key := key; put_mime := "application/json" |} ∈ puts ∧
      nr_content r = shown ++ [BText (spilled_notice (sizeOf result) key)] ∧
      text_length shown <= Z.max 0 maxInline + Z.of_nat (String.length "…")
  else
    nr_spilledTo r = None ∧
    (translate_all blobKeyPrefix 0 (match own result "content" with VArray bs => bs | _ => [] end)).1 = Ret (nr_content r).
Proof.
  unfold normaliseToolResult. cbv zeta. set (result := or_else raw (VObject [])).
  destruct (MAX_ACCEPTED_RESULT_BYTES <? sizeOf result); [intros [= <- <-]; by split_and!|].
  destruct (translate_all _ _ _) as [[content|e] p] eqn:Ht; unfold st_bind; cbn [fst snd]; [|done].
  destruct blobs as [store|].
  - rewrite (bool_decide_eq_true_2 (is_Some (Some store))) by done. rewrite andb_true_r.
    destruct (default MAX_INLINE_RESULT_BYTES maxInlineBytes <? sizeOf result).
    + unfold put_blob. cbn [fst snd]. destruct (store _) as [u|e]; [|done]. intros [= <- <-].
      split_and!; [done|by intros ->|]. eexists _, _. split_and!; [done| |done|].
      * apply elem_of_app. right. left.
      * eapply Z.le_trans; [apply summarise_bound|]. lia.
    + intros [= <- <-]. by split_and!; [|intros ->|..].
  - rewrite (bool_decide_eq_false_2 (is_Some None)) by (by intros [? ?]). rewrite andb_false_r.
    intros [= <- <-]. by split_and!; [|intros ->|..].
Qed.
End Normalise.

(** A result of one long text over a small inline limit. *)
Definition long_result : value :=
  VObject [("content", VArray [VObject [("type", VString "text"); ("text", VString "0123456789abcdefghij")]])].

Definition spilled : storing NormalisedResult :=
  normaliseToolResult (Some (λ _, Ret ())) (λ _, 0) long_result "runs/run_1" (Some 8).
Definition spilled_result : NormalisedResult := match spilled.1 with Ret r => r | Throw e => refusalResult e end.

Lemma results_are_bounded_witness :
  spilled = (Ret spilled_result, spilled.2) ∧
  nr_content spilled_result =
    [BText "01234567…"; BText "[result truncated: 59 bytes stored at runs/run_1/result.json]"] ∧
  nr_bytes spilled_result = sizeOf (or_else long_result (VObject [])).
Proof.
  assert (spilled = (Ret spilled_result, spilled.2)) as E by (vm_compute; reflexivity).
  split; [exact E|]. split; [vm_compute; reflexivity|].
  exact (proj1 (results_are_bounded (Some (λ _, Ret ())) (λ _, 0) long_result "runs/run_1" (Some 8) _ _ E)).
Defined.
