(* ===== verification/Gateway.v ===== *)
(** * The tool gateway

    Models packages/mcp/src/gateway.ts and validation.ts.  The collaborators of the gateway are
    the record [GatewayDeps], as in the code; the SDK client, the Ajv compiler
    and the sampler are functions in it.  What the gateway does to the outside
    (approvals it files, audit records, calls that reach a server) is its state.
    Failures of the audit log are swallowed by the code and so are not an
    outcome. *)
From S2P Require Import Prelude Json Entities Principal Pattern Permission Budget Model Guard ResponseCache.
From S2P Require Import Registry Results ToolPhase.

(** ** What the gateway needs *)

(** What [manager.run] under [withTimeout] throws. *)
Inductive ServerError :=
| sve_timeout
| sve_circuit_open
| sve_other (name message : string).

Record PermissionOutcome := { pm_effect : PermissionEffect; pm_reason : string; pm_matchedRuleId : option string }.

Record Resolved := {
  rs_capability : McpCapability;
  rs_definition : McpServerDefinition;
  rs_scope : ConnectionScopeKey;
  rs_mrtrPolicy : option MrtrPolicy;
  rs_timeoutMs : option Z;
}.

(** A call as the server receives it. *)
Record ServerCall := {
  cl_definition : McpServerDefinition;
  cl_scope : ConnectionScopeKey;
  cl_name : string;
  cl_arguments : value;
  cl_inputResponses : option (list (string * value));
  cl_requestState : option string;
  cl_timeoutMs : Z;
}.

Inductive ApprovalKind := ak_tool_call | ak_mrtr_input.

(** A compiled schema: the arguments as Ajv leaves them, or its errors (path
    and message). *)
Definition Validator : Type := value → outcome (list (string * option string)) value.

Record InvocationContext := {
  ic_workspaceId : string;
  ic_runId : string;
  ic_agentId : option string;
  ic_principalType : string;
  ic_principalId : option string;
  ic_callsThisRun : Z;
}.

Record AuditRecord := {
  au_actorType : string;
  au_actorId : option string;
  au_action : string;
  au_subject : string;
  au_metadata : list (string * value);
}.

Record GatewayDeps := {
  gd_resolveCapability : string → outcome string (option Resolved);
  gd_decidePermission : McpCapability → value → InvocationContext → outcome string PermissionOutcome;
  gd_requestApproval : nat → ApprovalKind → value → outcome string string;
  gd_runInference : option (ClassifiedInputRequest → outcome ServerError value);
  gd_callTool : nat → ServerCall → outcome ServerError value;
  gd_compile : value → option Validator;
  gd_blobs : option (string → outcome string unit);
  gd_base64Bytes : string → Z;
  gd_started : Z;
  gd_elapsed : Z;
}.

(** What a gateway has done so far. *)
Record GatewayState := {
  gs_approvals : list (ApprovalKind * value);
  gs_audit : list AuditRecord;
  gs_calls : list ServerCall;
  gs_inferences : list ClassifiedInputRequest;
  gs_compiled : gmap string (option Validator);
}.
Definition fresh_gateway : GatewayState :=
  {| gs_approvals := []; gs_audit := []; gs_calls := []; gs_inferences := []; gs_compiled := ∅ |}.

Inductive GatewayOutcome :=
| go_result (result : NormalisedResult) (durationMs mrtrRounds : Z) (permission : option PermissionOutcome)
| go_needs_approval (approvalId reason : string)
| go_needs_input (approvalId : string) (requestState : option string).

(** An exception of a collaborator, or a loop cut short. *)
Inductive GatewayError := ge_thrown (message : string) | ge_fuel.

Definition gw (A : Type) : Type := GatewayState → outcome GatewayError A * GatewayState.
#[global] Instance gw_ret : MRet gw := λ A a s, (Ret a, s).
#[global] Instance gw_bind : MBind gw := λ A B k m s,
  match m s with
  | (Ret a, s') => k a s'
  | (Throw e, s') => (Throw e, s')
  end.
Definition gw_lift {A} (m : outcome string A) : gw A :=
  λ s, (match m with Ret a => Ret a | Throw e => Throw (ge_thrown e) end, s).

Section Gateway.
Context (deps : GatewayDeps) (ctx : InvocationContext).

(** ** Recording *)

Definition audit (action canonicalName : string) (metadata : list (string * value)) : gw unit := λ s,
  (Ret (), {| gs_approvals := gs_approvals s;
              gs_audit := gs_audit s ++
                [{| au_actorType := ic_principalType ctx; au_actorId := ic_principalId ctx; au_action := action;
                    au_subject := canonicalName; au_metadata := ("runId", VString (ic_runId ctx)) :: metadata |}];
              gs_calls := gs_calls s; gs_inferences := gs_inferences s; gs_compiled := gs_compiled s |}).

Definition request_approval (kind : ApprovalKind) (payload : value) : gw string := λ s,
  match gd_requestApproval deps (length (gs_approvals s)) kind payload with
  | Throw e => (Throw (ge_thrown e), s)
  | Ret id => (Ret id, {| gs_approvals := gs_approvals s ++ [(kind, payload)]; gs_audit := gs_audit s;
                          gs_calls := gs_calls s; gs_inferences := gs_inferences s; gs_compiled := gs_compiled s |})
  end.

(** The outcome of a server call is a value: [#call] catches it. *)
Definition call_server (c : ServerCall) : gw (outcome ServerError value) := λ s,
  (Ret (gd_callTool deps (length (gs_calls s)) c),
   {| gs_approvals := gs_approvals s; gs_audit := gs_audit s; gs_calls := gs_calls s ++ [c];
      gs_inferences := gs_inferences s; gs_compiled := gs_compiled s |}).

Definition infer (sampler : ClassifiedInputRequest → outcome ServerError value) (r : ClassifiedInputRequest)
    : gw (outcome ServerError value) := λ s,
  (Ret (sampler r),
   {| gs_approvals := gs_approvals s; gs_audit := gs_audit s; gs_calls := gs_calls s;
      gs_inferences := gs_inferences s ++ [r]; gs_compiled := gs_compiled s |}).

(** ** Validation (validation.ts) *)

(** [#compile]: once per definition hash, failures included. *)
Definition compile_schema (schemaKey : string) (schema : value) : gw (option Validator) := λ s,
  match gs_compiled s !! schemaKey with
  | Some cached => (Ret cached, s)
  | None =>
      let compiled := gd_compile deps schema in
      (Ret compiled, {| gs_approvals := gs_approvals s; gs_audit := gs_audit s; gs_calls := gs_calls s;
                        gs_inferences := gs_inferences s; gs_compiled := <[schemaKey := compiled]> (gs_compiled s) |})
  end.

Definition schema_error (e : string * option string) : string :=
  (if String.eqb e.1 "" then "(root)" else e.1) +:+ " " +:+ default "is invalid" e.2.

(** The arguments as validation leaves them, or the errors. *)
Definition validate (schemaKey : string) (schema : option value) (args : value) : gw (outcome (list string) value) :=
  match schema with
  | None | Some VNull | Some VUndefined => mret (Ret args)
  | Some sch =>
      v ← compile_schema schemaKey sch;
      mret match v with
           | None => Throw ["The tool's input schema could not be compiled, so arguments cannot be checked. " +:+
                            "This is a fault in the server's tool definition."]
           | Some check => match check args with
                           | Ret args' => Ret args'
                           | Throw errors => Throw (map schema_error errors)
                           end
           end
  end.

(** ** Refusals and failures are results *)

Definition refuse (canonicalName reason : string) (matchedRuleId : option string) : gw GatewayOutcome :=
  audit "mcp.tool.refused" canonicalName
    (("reason", VString reason) :: match matchedRuleId with Some r => [("matchedRuleId", VString r)] | None => [] end) ≫=
  λ _, mret (go_result (refusalResult reason) (gd_elapsed deps) 0 None).

Definition failure_reason (e : ServerError) : string :=
  match e with
  | sve_timeout => "The tool did not respond in time. It may still be running on the server."
  | sve_circuit_open => "This server is currently failing and calls to it are paused."
  | sve_other _ message => "The tool call failed: " +:+ message
  end.
Definition error_name (e : ServerError) : string :=
  match e with sve_timeout => "ToolTimeoutError" | sve_circuit_open => "CircuitOpenError" | sve_other n _ => n end.

Definition failure (canonicalName : string) (e : ServerError) (rounds : Z) : gw GatewayOutcome :=
  audit "mcp.tool.failed" canonicalName [("error", VString (error_name e)); ("mrtrRounds", VNumber rounds)] ≫=
  λ _, mret (go_result (refusalResult (failure_reason e)) (gd_elapsed deps) rounds None).

Definition blockedReason (b : BlockReason) : string :=
  match b with
  | br_removed => "This tool is no longer offered by its server."
  | br_not_approved => "This tool has not been approved for use in this workspace yet."
  | br_capability_changed =>
      "This tool's definition changed since it was approved, so it is blocked pending review."
  end.

(** ** The call and its round trips *)

Definition kind_text (k : InputRequestKind) : string :=
  match k with ir_human => "human" | ir_inference => "inference" | ir_roots => "roots" | ir_unknown => "unknown" end.
Definition decision_text (d : MrtrDecision) : string :=
  match d with md_auto _ => "auto" | md_needs_human _ => "needs_human" | md_refuse _ => "refuse" end.

Definition text_of_value (v : value) : option string :=
  match v with VString s => Some s | _ => None end.

(** The answers of the sampler, filed under the server's keys. *)
Fixpoint answer_all (sampler : ClassifiedInputRequest → outcome ServerError value)
    (requests : list ClassifiedInputRequest) (answers : list (string * value))
    : gw (outcome ServerError (list (string * value))) :=
  match requests with
  | [] => mret (Ret answers)
  | r :: rest =>
      a ← infer sampler r;
      match a with
      | Throw e => mret (Throw e)
      | Ret v => answer_all sampler rest (set_entry (ci_key r) v answers)
      end
  end.

Definition no_sampler : string :=
  "This server is permitted to ask the host to run a model, but no sampler is " +:+
  "configured on this host, so the request cannot be answered.".

(** The payload of the approval that carries a server's question. *)
Definition question_payload (canonicalName : string) (classified : list ClassifiedInputRequest) (requestState : value) : value :=
  VObject [("canonicalName", VString canonicalName);
           ("requests", VArray (map (λ c, VObject [("key", VString (ci_key c)); ("kind", VString (kind_text (ci_kind c)));
                                                   ("params", ci_params c)]) classified));
           ("requestState", requestState)].

(** The [for (;;)] of [#call]. *)
Fixpoint call_loop (fuel : nat) (canonicalName : string) (resolved : Resolved) (args : value)
    (permission : PermissionOutcome) (rounds : Z) (requestState : option string)
    (inputResponses : option (list (string * value))) : gw GatewayOutcome :=
  match fuel with
  | O => λ s, (Throw ge_fuel, s)
  | S fuel' =>
      let policy := default DEFAULT_MRTR_POLICY (rs_mrtrPolicy resolved) in
      raw ← call_server
        {| cl_definition := rs_definition resolved; cl_scope := rs_scope resolved;
           cl_name := cap_name (rs_capability resolved); cl_arguments := or_else args (VObject []);
           cl_inputResponses := inputResponses; cl_requestState := requestState;
           cl_timeoutMs := default DEFAULT_TOOL_TIMEOUT_MS (rs_timeoutMs resolved) |};
      match raw with
      | Throw e => failure canonicalName e rounds
      | Ret raw =>
          if negb (isInputRequired raw) then
            result ← gw_lift (normaliseToolResult (gd_blobs deps) (gd_base64Bytes deps) raw
              ("runs/" +:+ ic_runId ctx +:+ "/tools/" +:+ canonicalName +:+ "-" +:+ pretty (gd_started deps)) None).1;
            _ ← audit "mcp.tool.invoked" canonicalName
              ([("isError", VBool (nr_isError result)); ("bytes", VNumber (nr_bytes result)); ("mrtrRounds", VNumber rounds)] ++
               match nr_spilledTo result with Some k => [("spilledTo", VString k)] | None => [] end);
            mret (go_result result (gd_elapsed deps) rounds (Some permission))
          else
            let classified := classifyInputRequests (own raw "inputRequests") in
            let decision := decideMrtr classified policy rounds in
            let state := text_of_value (own raw "requestState") in
            _ ← audit "mcp.tool.input_required" canonicalName
              [("decision", VString (decision_text decision));
               ("kinds", VArray (map (λ c, VString (kind_text (ci_kind c))) classified));
               ("requestState", VString (requestStateFingerprint state)); ("round", VNumber rounds)];
            match decision with
            | md_refuse reason => mret (go_result (refusalResult reason) (gd_elapsed deps) rounds None)
            | md_needs_human _ =>
                id ← request_approval ak_mrtr_input (question_payload canonicalName classified (own raw "requestState"));
                mret (go_needs_input id state)
            | md_auto requests =>
                match gd_runInference deps with
                | None => mret (go_result (refusalResult no_sampler) (gd_elapsed deps) rounds None)
                | Some sampler =>
                    answers ← answer_all sampler requests [];
                    match answers with
                    | Throw e => failure canonicalName e rounds
                    | Ret a => call_loop fuel' canonicalName resolved args permission (rounds + 1) state (Some a)
                    end
                end
            end
      end
  end.

(** Enough for every round the policy admits, and the refusal after them. *)
Definition call_fuel (resolved : Resolved) : nat :=
  S (S (Z.to_nat (mp_maxRounds (default DEFAULT_MRTR_POLICY (rs_mrtrPolicy resolved))))).

(** ** Invocation *)

Definition invoke_tool (canonicalName : string) (args : value) : gw GatewayOutcome :=
  match splitCanonicalName canonicalName with
  | None => refuse canonicalName
      (dquote +:+ canonicalName +:+ dquote +:+ " is not a valid tool name. Tools are named <server>__<tool>.") None
  | Some _ =>
      resolved ← gw_lift (gd_resolveCapability deps canonicalName);
      match resolved with
      | None => refuse canonicalName
          ("No tool named " +:+ dquote +:+ canonicalName +:+ dquote +:+ " is available to this agent.") None
      | Some resolved =>
          let capability := rs_capability resolved in
          match capabilityBlockReason capability with
          | Some blocked => refuse canonicalName (blockedReason blocked) None
          | None =>
              decision ← gw_lift (gd_decidePermission deps capability args ctx);
              match pm_effect decision with
              | deny => refuse canonicalName ("Denied by policy (" +:+ pm_reason decision +:+ ").") (pm_matchedRuleId decision)
              | ask =>
                  id ← request_approval ak_tool_call
                    (VObject [("canonicalName", VString canonicalName); ("capabilityName", VString (cap_name capability));
                              ("bindingId", VString (cap_bindingId capability)); ("reason", VString (pm_reason decision))]);
                  _ ← audit "mcp.tool.approval_requested" canonicalName
                    [("approvalId", VString id); ("reason", VString (pm_reason decision))];
                  mret (go_needs_approval id (pm_reason decision))
              | allow =>
                  valid ← validate (cap_definitionHash capability) (cap_inputSchema capability) args;
                  match valid with
                  | Throw errors => refuse canonicalName ("Arguments are invalid: " +:+ join "; " errors) None
                  | Ret args' => call_loop (call_fuel resolved) canonicalName resolved args' decision 0 None None
                  end
              end
          end
      end
  end.

(** ** The tools on offer *)

Definition declaration_of (c : McpCapability) : ToolDeclaration :=
  {| td_name := cap_canonicalName c; td_description := default "" (cap_description c);
     td_inputSchema := default (VObject [("type", VString "object"); ("properties", VObject [])]) (cap_inputSchema c);
     td_outputSchema := cap_outputSchema c; td_annotations := VObject <$> cap_annotations c |}.

Fixpoint listAvailable (capabilities : list McpCapability) : outcome string (list ToolDeclaration) :=
  match capabilities with
  | [] => Ret []
  | c :: rest =>
      if negb (bool_decide (cap_kind c = KTool)) || negb (isCapabilityUsable c) then listAvailable rest
      else
        obind (gd_decidePermission deps c VUndefined ctx) (λ decision,
        if bool_decide (pm_effect decision = deny) then listAvailable rest
        else obind (listAvailable rest) (λ ds, Ret (declaration_of c :: ds)))
  end.

(** ** How the round trips end *)

(** A call to the resolved tool, with the arguments validation left. *)
Definition call_of (resolved : Resolved) (args : value) (c : ServerCall) : Prop :=
  cl_name c = cap_name (rs_capability resolved) ∧ cl_definition c = rs_definition resolved ∧
  cl_scope c = rs_scope resolved ∧ cl_arguments c = or_else args (VObject []).

Definition policy_of (resolved : Resolved) : MrtrPolicy := default DEFAULT_MRTR_POLICY (rs_mrtrPolicy resolved).

(** What a stretch of gateway code did to servers and to the sampler. *)
Definition did (s s' : GatewayState) (calls : list ServerCall) (inferences : list ClassifiedInputRequest) : Prop :=
  gs_calls s' = gs_calls s ++ calls ∧ gs_inferences s' = gs_inferences s ++ inferences.

Lemma did_nothing s : did s s [] [].
Proof. split; by rewrite app_nil_r. Qed.

Lemma did_trans s1 s2 s3 c1 c2 i1 i2 :
  did s1 s2 c1 i1 → did s2 s3 c2 i2 → did s1 s3 (c1 ++ c2) (i1 ++ i2).
Proof. intros [E1 E2] [E3 E4]. split; by rewrite ?E3, ?E4, ?E1, ?E2, app_assoc. Qed.

Lemma answer_all_did sampler requests answers s :
  ∃ r s' inferences, answer_all sampler requests answers s = (Ret r, s') ∧ did s s' [] inferences ∧
    (inferences ≠ [] → requests ≠ []).
Proof.
  revert answers s. induction requests as [|q rest IH]; intros answers s; simpl.
  - eexists _, s, []. split_and!; [done|apply did_nothing|done].
  - unfold mbind, gw_bind, infer at 1. set (s1 := {| gs_approvals := _ |}).
    assert (did s s1 [] [q]) as H1 by (split; simpl; by rewrite ?app_nil_r).
    destruct (sampler q) as [v|e].
    + destruct (IH (set_entry (ci_key q) v answers) s1) as (r & s' & inf & E & Hd & _).
      eexists r, s', (q :: inf). split_and!; [exact E|exact (did_trans _ _ _ [] [] [q] inf H1 Hd)|done].
    + eexists _, s1, [q]. by split_and!.
Qed.

(** An automatic round answers inference requests only, which the policy
    admits. *)
Lemma decide_auto requests policy rounds qs :
  decideMrtr requests policy rounds = md_auto qs →
  rounds < mp_maxRounds policy ∧ qs ≠ [] ∧ mp_allowInference policy = true.
Proof.
  unfold decideMrtr. destruct (_ <=? _) eqn:E; [done|]. bool_prop.
  destruct requests as [|q rest]; [done|]. destruct (first_refusal policy (q :: rest)) eqn:Hf; [done|].
  destruct (existsb _ _) eqn:Hh; [done|]. intros [= <-]. split; [lia|]. split; [done|].
  simpl in Hf, Hh. apply orb_false_iff in Hh as [Hq _]. bool_prop. unfold request_refusal in Hf.
  destruct (ci_kind q); try done. by destruct (mp_allowInference policy).
Qed.

(** The end of a call: never for want of fuel, and a result that carries the
    permission came from the server. *)
Definition ends_well (permission : PermissionOutcome) (r : outcome GatewayError GatewayOutcome) : Prop :=
  r ≠ Throw ge_fuel ∧
  ∀ result duration rounds p, r = Ret (go_result result duration rounds (Some p)) → p = permission.

Lemma failure_ends canonicalName e rounds permission s :
  ends_well permission (failure canonicalName e rounds s).1 ∧ did s (failure canonicalName e rounds s).2 [] [].
Proof. split; [by split|]. split; simpl; by rewrite app_nil_r. Qed.

Lemma call_loop_ends fuel canonicalName resolved args permission rounds state responses s :
  (Z.to_nat (mp_maxRounds (policy_of resolved) - rounds) < fuel)%nat →
  let '(r, s') := call_loop fuel canonicalName resolved args permission rounds state responses s in
  ends_well permission r ∧
  ∃ calls inferences, did s s' calls inferences ∧ Forall (call_of resolved args) calls ∧
    (1 <= length calls <= S (Z.to_nat (mp_maxRounds (policy_of resolved) - rounds)))%nat ∧
    (inferences ≠ [] → mp_allowInference (policy_of resolved) = true).
Proof.
  revert rounds state responses s. induction fuel as [|fuel IH]; intros rounds state responses s Hf; [lia|].
  cbn [call_loop]. cbv zeta. change (default DEFAULT_MRTR_POLICY (rs_mrtrPolicy resolved)) with (policy_of resolved).
  unfold mbind at 1, gw_bind at 1, call_server at 1.
  set (c := {| cl_definition := _ |}). set (s1 := {| gs_approvals := _ |}).
  assert (did s s1 [c] []) as H1 by (split; simpl; by rewrite ?app_nil_r).
  assert (Forall (call_of resolved args) [c]) as Hc by (repeat constructor).
  (* ending here, after this one call *)
  assert (∀ (r : outcome GatewayError GatewayOutcome) s', ends_well permission r → did s1 s' [] [] →
    ends_well permission r ∧ ∃ calls inferences, did s s' calls inferences ∧ Forall (call_of resolved args) calls ∧
      (1 <= length calls <= S (Z.to_nat (mp_maxRounds (policy_of resolved) - rounds)))%nat ∧
      (inferences ≠ [] → mp_allowInference (policy_of resolved) = true)) as Hend.
  { intros r s' Hr Hd. split; [done|]. exists [c], []. split_and!; [exact (did_trans _ _ _ [c] [] [] [] H1 Hd)|done|simpl; lia..|done]. }
  destruct (gd_callTool deps (length (gs_calls s)) c) as [raw|e]; cycle 1.
  { pose proof (failure_ends canonicalName e rounds permission s1) as [? ?].
    destruct (failure canonicalName e rounds s1) as [r s']. by apply Hend. }
  destruct (negb (isInputRequired raw)).
  { unfold mbind, gw_bind, gw_lift. destruct (normaliseToolResult _ _ _ _ _).1 as [result|e].
    - apply Hend; [split; [done|by intros ? ? ? ? [= _ _ _ <-]]|]. split; simpl; by rewrite app_nil_r.
    - apply Hend; [by split|apply did_nothing]. }
  unfold mbind at 1, gw_bind at 1, audit at 1. set (s2 := {| gs_approvals := _ |}).
  assert (did s1 s2 [] []) as H2 by (split; simpl; by rewrite app_nil_r).
  destruct (decideMrtr _ _ _) as [qs|qs|reason] eqn:Hdec.
  - apply decide_auto in Hdec as (Hr & Hq & Ha). destruct (gd_runInference deps) as [sampler|]; [|by apply Hend].
    unfold mbind at 1, gw_bind at 1.
    destruct (answer_all_did sampler qs [] s2) as (ans & s3 & inf & -> & H3 & Hinf).
    assert (did s s3 [c] inf) as H03.
    { pose proof (did_trans _ _ _ _ _ _ _ H1 (did_trans _ _ _ _ _ _ _ H2 H3)) as H. simpl in H. by rewrite ?app_nil_r in H. }
    destruct ans as [a|e].
    + specialize (IH (rounds + 1) (text_of_value (own raw "requestState")) (Some a) s3 ltac:(lia)).
      destruct (call_loop fuel _ _ _ _ _ _ _ s3) as [r s']. destruct IH as (Hr' & calls & inf' & Hd & Hcs & Hl & Hi).
      split; [done|]. exists (c :: calls), (inf ++ inf').
      split_and!; [exact (did_trans _ _ _ [c] calls inf inf' H03 Hd)|by constructor|simpl; lia..|done].
    + pose proof (failure_ends canonicalName e rounds permission s3) as [Hr' Hd].
      destruct (failure canonicalName e rounds s3) as [r s']. split; [done|]. exists [c], inf.
      pose proof (did_trans _ _ _ _ _ _ _ H03 Hd) as H. simpl in H. rewrite app_nil_r in H. by split_and!; [| |simpl; lia..|].
  - unfold mbind, gw_bind, request_approval. destruct (gd_requestApproval _ _ _ _); apply Hend; try (by split);
      destruct H2 as [E1 E2]; split; simpl; by rewrite app_nil_r.
  - by apply Hend.
Qed.

Lemma refuse_ends canonicalName reason rule s :
  ∃ r s', refuse canonicalName reason rule s = (Ret r, s') ∧ did s s' [] [].
Proof. eexists _, _. split; [done|]. split; simpl; by rewrite app_nil_r. Qed.

Lemma validate_did hash schema args s :
  ∃ v s', validate hash schema args s = (Ret v, s') ∧ did s s' [] [].
Proof.
  unfold validate. destruct schema as [[]|]; try (eexists _, s; split; [done|apply did_nothing]);
    unfold mbind, gw_bind, compile_schema; destruct (gs_compiled s !! hash);
    (eexists _, _; split; [done|]; split; simpl; by rewrite app_nil_r).
Qed.

(** The tool, the decision and the validated arguments behind a call. *)
Definition permitted (canonicalName : string) (args : value) (resolved : Resolved) (decision : PermissionOutcome)
    (args' : value) (s : GatewayState) : Prop :=
  is_Some (splitCanonicalName canonicalName) ∧
  gd_resolveCapability deps canonicalName = Ret (Some resolved) ∧
  isCapabilityUsable (rs_capability resolved) = true ∧
  gd_decidePermission deps (rs_capability resolved) args ctx = Ret decision ∧ pm_effect decision = allow ∧
  (validate (cap_definitionHash (rs_capability resolved)) (cap_inputSchema (rs_capability resolved)) args s).1 = Ret (Ret args').

(** Servers and the sampler are either left alone, or reached as permitted. *)
Definition reaches_as_permitted (canonicalName : string) (args : value) (s : GatewayState)
    (r : outcome GatewayError GatewayOutcome) (s' : GatewayState) : Prop :=
  r ≠ Throw ge_fuel ∧
  ∃ calls inferences, did s s' calls inferences ∧
    (calls = [] ∧ inferences = [] ∨
     ∃ resolved decision args', permitted canonicalName args resolved decision args' s ∧
       Forall (call_of resolved args') calls ∧
       (1 <= length calls <= S (Z.to_nat (mp_maxRounds (policy_of resolved))))%nat ∧
       (inferences ≠ [] → mp_allowInference (policy_of resolved) = true)).

Lemma reaches_nothing canonicalName args s r s' :
  r ≠ Throw ge_fuel → did s s' [] [] → reaches_as_permitted canonicalName args s r s'.
Proof. intros Hr Hd. split; [done|]. exists [], []. auto. Qed.

Lemma refuse_reaches canonicalName args reason rule s :
  let '(r, s') := refuse canonicalName reason rule s in reaches_as_permitted canonicalName args s r s'.
Proof. destruct (refuse_ends canonicalName reason rule s) as (? & ? & -> & ?). by apply reaches_nothing. Qed.

Lemma invoke_cases canonicalName args s :
  let '(r, s') := invoke_tool canonicalName args s in reaches_as_permitted canonicalName args s r s'.
Proof.
  unfold invoke_tool. destruct (splitCanonicalName canonicalName) as [parts|] eqn:Hsplit; [|apply refuse_reaches].
  unfold mbind at 1, gw_bind at 1, gw_lift at 1.
  destruct (gd_resolveCapability deps canonicalName) as [[resolved|]|e] eqn:Hres;
    [|apply refuse_reaches|by apply reaches_nothing; [|apply did_nothing]].
  destruct (capabilityBlockReason (rs_capability resolved)) as [b|] eqn:Hblock; [apply refuse_reaches|].
  unfold mbind at 1, gw_bind at 1, gw_lift at 1.
  destruct (gd_decidePermission deps (rs_capability resolved) args ctx) as [decision|e] eqn:Hdec;
    [|by apply reaches_nothing; [|apply did_nothing]].
  destruct (pm_effect decision) eqn:He; [|..|apply refuse_reaches].
  - unfold mbind at 1, gw_bind at 1.
    destruct (validate_did (cap_definitionHash (rs_capability resolved)) (cap_inputSchema (rs_capability resolved)) args s)
      as (v & s1 & Hv & H1). rewrite Hv. destruct v as [args'|errors]; cycle 1.
    + destruct (refuse_ends canonicalName ("Arguments are invalid: " +:+ join "; " errors) None s1) as (r & s' & -> & H2).
      apply reaches_nothing; [done|]. exact (did_trans _ _ _ [] [] [] [] H1 H2).
    + pose proof (call_loop_ends (call_fuel resolved) canonicalName resolved args' decision 0 None None s1) as Hl.
      destruct (call_loop _ _ _ _ _ _ _ _ s1) as [r s'].
      destruct Hl as ([Hr _] & calls & inf & Hd & Hc & Hlen & Hi); [unfold call_fuel; fold (policy_of resolved); lia|].
      split; [done|]. exists calls, inf. split; [exact (did_trans _ _ _ [] calls [] inf H1 Hd)|]. right.
      exists resolved, decision, args'. rewrite Z.sub_0_r in Hlen. split; [|done].
      split; [by eexists|]. split; [done|]. split; [by apply usable_iff_not_blocked|].
      split; [done|]. split; [done|]. by rewrite Hv.
  - unfold mbind, gw_bind, request_approval. destruct (gd_requestApproval _ _ _ _).
    + apply reaches_nothing; [done|]. split; simpl; by rewrite app_nil_r.
    + apply reaches_nothing; [done|apply did_nothing].
Qed.

(** One path to a server.  However an invocation ends, the calls it sent name
    the tool that was asked for and carry the validated arguments; and it sent
    any at all only if the name resolved, the tool is approved at its current
    definition, policy allowed this call with these arguments and the arguments
    passed the tool's schema.  The round trips are bounded by the binding's
    policy, and the host runs a model for a server only if that policy says so. *)
Theorem calls_are_permitted canonicalName args s :
  let '(r, s') := invoke_tool canonicalName args s in
  r ≠ Throw ge_fuel ∧
  ∃ calls inferences, gs_calls s' = gs_calls s ++ calls ∧ gs_inferences s' = gs_inferences s ++ inferences ∧
    (calls ≠ [] ∨ inferences ≠ [] →
     ∃ resolved decision args', permitted canonicalName args resolved decision args' s ∧
       Forall (call_of resolved args') calls ∧
       (length calls <= S (Z.to_nat (mp_maxRounds (policy_of resolved))))%nat ∧
       (inferences ≠ [] → mp_allowInference (policy_of resolved) = true)).
Proof.
  pose proof (invoke_cases canonicalName args s) as Hi. destruct (invoke_tool canonicalName args s) as [r s'].
  destruct Hi as (Hr & calls & inf & [Hc Hf] & Hcase). split; [done|]. exists calls, inf. split_and!; [done..|].
  destruct Hcase as [[-> ->]|(resolved & decision & args' & ? & ? & [_ ?] & ?)]; [tauto|].
  intros _. by exists resolved, decision, args'.
Qed.

(** What the model is offered it may call: every declared tool is an approved
    capability of kind tool that policy does not deny to this principal. *)
Theorem offered_tools_are_callable capabilities ds :
  listAvailable capabilities = Ret ds →
  ∀ t, t ∈ ds → ∃ c decision, c ∈ capabilities ∧ t = declaration_of c ∧ cap_kind c = KTool ∧
    isCapabilityUsable c = true ∧ gd_decidePermission deps c VUndefined ctx = Ret decision ∧ pm_effect decision ≠ deny.
Proof.
  revert ds. induction capabilities as [|c rest IH]; intros ds; simpl; [by intros [= <-] t ?%elem_of_nil|].
  assert (∀ ds, listAvailable rest = Ret ds → ∀ t, t ∈ ds → ∃ c0 decision, c0 ∈ c :: rest ∧ t = declaration_of c0 ∧
    cap_kind c0 = KTool ∧ isCapabilityUsable c0 = true ∧
    gd_decidePermission deps c0 VUndefined ctx = Ret decision ∧ pm_effect decision ≠ deny) as Hrest.
  { intros ds' Hds t Ht. destruct (IH ds' Hds t Ht) as (c0 & d & ? & ?). exists c0, d. split; [by right|done]. }
  destruct (_ || _) eqn:Ek; [by apply Hrest|].
  destruct (gd_decidePermission deps c VUndefined ctx) as [decision|] eqn:Hd; simpl; [|done].
  destruct (bool_decide (pm_effect decision = deny)) eqn:He; [by apply Hrest|].
  destruct (listAvailable rest) as [ds'|]; simpl; [|done]. intros [= <-] t [->|Ht]%elem_of_cons; [|by apply (Hrest ds')].
  exists c, decision. bool_prop. split; [left|]. by split_and!.
Qed.
End Gateway.
