(* ===== verification/Approvals.v ===== *)
(** * Approvals

    Models the approvals of packages/db/src/repositories/runs.ts: questions to
    a person, the decision on them, and the list of those still worth
    answering.  The collection is any that obeys [CollectionLaws]; the status of
    a run is a parameter of the listing. *)
From S2P Require Import Prelude Json Entities Mongo.

Inductive Decision := approve | deny_it.
#[global] Instance Decision_eq_dec : EqDecision Decision.
Proof. solve_decision. Defined.

Record Announcement := { an_channelId : string; an_messageRef : string; an_at : Z }.

Record ApprovalDoc := {
  apv_id : string;
  apv_runId : string;
  apv_runStepSeq : Z;
  apv_kind : string;
  apv_payload : value;
  apv_requestedAt : Z;
  apv_expiresAt : Z;
  apv_decision : option Decision;
  apv_decidedBy : option string;
  apv_decidedAt : option Z;
  apv_response : option value;
  apv_announced : option Announcement;
}.

Definition set_decision (d : Decision) (by_ : string) (at_ : Z) (response : option value) (a : ApprovalDoc) : ApprovalDoc :=
  {| apv_id := apv_id a; apv_runId := apv_runId a; apv_runStepSeq := apv_runStepSeq a; apv_kind := apv_kind a;
     apv_payload := apv_payload a; apv_requestedAt := apv_requestedAt a; apv_expiresAt := apv_expiresAt a;
     apv_decision := Some d; apv_decidedBy := Some by_; apv_decidedAt := Some at_;
     apv_response := match response with Some r => Some r | None => apv_response a end;
     apv_announced := apv_announced a |}.

Definition set_announced (an : Announcement) (a : ApprovalDoc) : ApprovalDoc :=
  {| apv_id := apv_id a; apv_runId := apv_runId a; apv_runStepSeq := apv_runStepSeq a; apv_kind := apv_kind a;
     apv_payload := apv_payload a; apv_requestedAt := apv_requestedAt a; apv_expiresAt := apv_expiresAt a;
     apv_decision := apv_decision a; apv_decidedBy := apv_decidedBy a; apv_decidedAt := apv_decidedAt a;
     apv_response := apv_response a; apv_announced := Some an |}.

Definition undecided (a : ApprovalDoc) : bool := bool_decide (apv_decision a = None).

(** [sort: { requestedAt: -1 }]. *)
Definition newest_first (a b : ApprovalDoc) : bool := apv_requestedAt b <=? apv_requestedAt a.
#[global] Instance newest_first_order : SortOrder newest_first.
Proof. split; unfold newest_first; intros; bool_prop; apply Z.leb_le; lia. Qed.

(** The status starts with [waiting_]. *)
Definition is_waiting (s : option RunStatus) : bool :=
  bool_decide (s ∈ [Some waiting_approval; Some waiting_input; Some waiting_tool]).

Section Approvals.
Context {C : Type} `{CollectionLaws ApprovalDoc C}.

(** Two approvals clash on nothing but their id. *)
Definition createApproval (a : ApprovalDoc) (c : C) : bool * C := insertOne (λ _ _, false) (apv_id a) a c.

Definition decideApproval (now : Z) (approvalId : string) (decision : Decision) (decidedBy : string)
    (response : option value) (c : C) : bool * C :=
  updateOne approvalId undecided (set_decision decision decidedBy now response) c.

Definition findApproval (approvalId : string) (c : C) : option ApprovalDoc := docs c !! approvalId.

Definition pendingApprovalForRun (runId : string) (c : C) : option (string * ApprovalDoc) :=
  head (find_docs (λ a, undecided a && String.eqb (apv_runId a) runId) newest_first 1 c).

Definition markAnnounced (now : Z) (approvalId channelId messageRef : string) (c : C) : bool * C :=
  updateOne approvalId (λ a, bool_decide (apv_announced a = None))
    (set_announced {| an_channelId := channelId; an_messageRef := messageRef; an_at := now |}) c.

(** Why an undecided approval can no longer be answered. *)
Definition stale_reason (now : Z) (status : string → option RunStatus) (a : ApprovalDoc) : option string :=
  if apv_expiresAt a <=? now then Some "system:expired"
  else if negb (is_waiting (status (apv_runId a))) then Some "system:run_moved_on"
  else None.

Fixpoint close_stale (now : Z) (status : string → option RunStatus) (found : list (string * ApprovalDoc)) (c : C) : C :=
  match found with
  | [] => c
  | (id, a) :: rest =>
      close_stale now status rest
        match stale_reason now status a with
        | Some why => (updateOne id undecided (set_decision deny_it why now None) c).2
        | None => c
        end
  end.

Definition pendingApprovals (now : Z) (status : string → option RunStatus) (limit : nat) (c : C)
    : list (string * ApprovalDoc) * C :=
  let found := find_docs undecided newest_first (limit * 2) c in
  (take limit (List.filter (λ e, bool_decide (stale_reason now status e.2 = None)) found),
   close_stale now status found c).

(** ** Histories *)

Inductive aop :=
| ACreate (a : ApprovalDoc)
| ADecide (now : Z) (id : string) (decision : Decision) (by_ : string) (response : option value)
| AAnnounce (now : Z) (id channelId messageRef : string)
| APending (now : Z) (status : string → option RunStatus) (limit : nat).

Definition aexec (c : C) (op : aop) : C :=
  match op with
  | ACreate a => (createApproval a c).2
  | ADecide now id d b r => (decideApproval now id d b r c).2
  | AAnnounce now id ch m => (markAnnounced now id ch m c).2
  | APending now status limit => (pendingApprovals now status limit c).2
  end.

(** Two states of one approval that agree on the answer. *)
Definition same_answer (a b : ApprovalDoc) : Prop :=
  apv_decision a = apv_decision b ∧ apv_decidedBy a = apv_decidedBy b ∧ apv_decidedAt a = apv_decidedAt b ∧
  apv_response a = apv_response b.

Definition answered_in (c : C) (id : string) (a : ApprovalDoc) : Prop :=
  ∃ a', docs c !! id = Some a' ∧ same_answer a a'.

Lemma decide_keeps id0 a0 id f (c : C) :
  apv_decision a0 ≠ None → answered_in c id0 a0 → answered_in (updateOne id undecided f c).2 id0 a0.
Proof.
  intros Hd (a' & Ha & Hs). unfold answered_in. destruct (updateOne_cases id undecided f c) as [(d & Hl & Hp & _ & ->)|(_ & _ & ->)]; [|by exists a'].
  destruct (decide (id = id0)) as [->|Hne].
  - exfalso. unfold undecided in Hp. bool_prop. destruct Hs as [E _]. congruence.
  - exists a'. by rewrite lookup_insert_ne.
Qed.

Lemma close_stale_keeps id0 a0 now status found (c : C) :
  apv_decision a0 ≠ None → answered_in c id0 a0 → answered_in (close_stale now status found c) id0 a0.
Proof.
  intros Hd. revert c. induction found as [|[id a] rest IH]; intros c Hc; simpl; [done|].
  apply IH. destruct (stale_reason now status a); [by apply decide_keeps|done].
Qed.

Lemma aexec_keeps id0 a0 op (c : C) :
  apv_decision a0 ≠ None → answered_in c id0 a0 → answered_in (aexec c op) id0 a0.
Proof.
  intros Hd Hc. destruct op as [a|now id d b r|now id ch m|now status limit]; cbn [aexec].
  - destruct Hc as (a' & Ha & Hs). unfold createApproval, answered_in. destruct (docs c !! apv_id a) eqn:E.
    + destruct (insertOne_dup (λ _ _, false) (apv_id a) a c) as [_ ->]; [left; by eexists|]. by exists a'.
    + destruct (insertOne_ok (λ _ _, false) (apv_id a) a c) as [_ ->]; [done..|].
      exists a'. split; [|done]. rewrite lookup_insert_ne; [done|]. intros Heq. rewrite Heq in E. congruence.
  - by apply decide_keeps.
  - destruct Hc as (a' & Ha & Hs). unfold markAnnounced, answered_in.
    match goal with |- context [updateOne id ?p ?f c] =>
      destruct (updateOne_cases id p f c) as [(d & Hl & _ & _ & ->)|(_ & _ & ->)]; [|by exists a'] end.
    destruct (decide (id = id0)) as [->|Hne].
    + rewrite lookup_insert_eq. eexists. split; [done|]. rewrite Ha in Hl. by injection Hl as <-.
    + exists a'. by rewrite lookup_insert_ne.
  - by apply close_stale_keeps.
Qed.

(** The first answer stands: once an approval is decided, no double click, no
    second reviewer, no listing and no announcement changes the decision, who
    made it, when, or the response; a later decision is reported as refused. *)
Theorem first_decision_stands ops (c : C) id a now d by_ response :
  docs c !! id = Some a → apv_decision a ≠ None →
  (∃ a', docs (foldl aexec c ops) !! id = Some a' ∧ same_answer a a') ∧
  (decideApproval now id d by_ response (foldl aexec c ops)).1 = false.
Proof.
  intros Ha Hd. assert (answered_in (foldl aexec c ops) id a) as Hall.
  { assert (answered_in c id a) as Hc by (by exists a). clear Ha. revert c Hc.
    induction ops as [|op ops IH]; intros c Hc; simpl; [done|]. apply IH. by apply aexec_keeps. }
  split; [done|]. destruct Hall as (a' & Ha' & [E _]). unfold decideApproval.
  apply (updateOne_miss id undecided). intros x Hx. rewrite Ha' in Hx. injection Hx as <-.
  unfold undecided. apply bool_decide_eq_false_2. congruence.
Qed.

(** *** The list of pending approvals *)

Lemma close_stale_docs now status found (c : C) id :
  NoDup found.*1 →
  docs (close_stale now status found c) !! id =
  match docs c !! id with
  | Some a =>
      match assoc_get id found with
      | Some a0 => match stale_reason now status a0 with
                   | Some why => if undecided a then Some (set_decision deny_it why now None a) else Some a
                   | None => Some a
                   end
      | None => Some a
      end
  | None => None
  end.
Proof.
  revert c. induction found as [|[id1 a1] rest IH]; intros c Hn; simpl; [by destruct (docs c !! id)|].
  apply NoDup_cons in Hn as [Hni Hn]. rewrite IH by done.
  assert (id1 = id → assoc_get id rest = None) as Hno.
  { intros ->. clear -Hni. induction rest as [|[k v] rest IHr]; simpl in *; [done|].
    apply not_elem_of_cons in Hni as [Hk Hr]. destruct (String.eqb k id) eqn:E; [bool_prop; congruence|auto]. }
  destruct (stale_reason now status a1) as [why|] eqn:Hs; cycle 1.
  { destruct (docs c !! id); [|done]. destruct (String.eqb id1 id) eqn:E; [|done]. bool_prop. subst.
    by rewrite Hno, Hs. }
  destruct (updateOne_cases id1 undecided (set_decision deny_it why now None) c) as [(d & Hl & Hp & _ & ->)|(Hno' & _ & ->)].
  - destruct (String.eqb id1 id) eqn:E; bool_prop.
    + subst. rewrite lookup_insert_eq, Hl, Hno, Hs, Hp by done. done.
    + by rewrite lookup_insert_ne.
  - destruct (docs c !! id) as [a|] eqn:Ha; [|done]. destruct (String.eqb id1 id) eqn:E; [|done]. bool_prop. subst.
    rewrite Hno, Hs by done. by rewrite (Hno' _ Ha).
Qed.

Lemma assoc_get_nodup {A} (l : list (string * A)) id x :
  NoDup l.*1 → (id, x) ∈ l → assoc_get id l = Some x.
Proof.
  induction l as [|[k v] l IH]; simpl; [by intros _ ?%elem_of_nil|]. intros [Hk Hn]%NoDup_cons [[= -> ->]|Hx]%elem_of_cons.
  - by rewrite String.eqb_refl.
  - destruct (String.eqb k id) eqn:E; [|by apply IH]. bool_prop. subst. exfalso. apply Hk.
    apply list_elem_of_fmap. by exists (id, x).
Qed.

(** Nobody is shown a question that cannot be answered: what the list returns
    is undecided, has not expired and belongs to a run that still waits, and
    stays so in the database.  When the listing reads all that is undecided, it
    leaves nothing undecided that cannot be answered, decides nothing that can,
    and denies the rest in the name of the system; a decided approval is never
    touched. *)
Theorem pending_list_is_answerable now status limit (c : C) :
  let '(live, c') := pendingApprovals now status limit c in
  (∀ id a, (id, a) ∈ live → docs c' !! id = Some a ∧ apv_decision a = None ∧ now < apv_expiresAt a ∧
     is_waiting (status (apv_runId a)) = true) ∧
  (∀ id a, docs c !! id = Some a → apv_decision a ≠ None → docs c' !! id = Some a) ∧
  ((length (find_docs undecided newest_first (limit * 2) c) < limit * 2)%nat →
   ∀ id a, docs c !! id = Some a → apv_decision a = None →
     match stale_reason now status a with
     | Some why => docs c' !! id = Some (set_decision deny_it why now None a)
     | None => docs c' !! id = Some a
     end).
Proof.
  unfold pendingApprovals. set (found := find_docs undecided newest_first (limit * 2) c).
  assert (NoDup found.*1) as Hn by (apply find_docs_nodup; apply _).
  split_and!.
  - intros id a Hin. apply elem_of_take in Hin as (i & Hi & _). apply list_elem_of_lookup_2 in Hi.
    apply list_elem_of_In, filter_In in Hi as [Hi Hs]. apply list_elem_of_In in Hi. simpl in Hs. bool_prop.
    destruct (find_docs_sound undecided newest_first (limit * 2) c id a _ Hi) as [Hd Hu].
    rewrite close_stale_docs, Hd, (assoc_get_nodup found id a Hn Hi), Hs by done.
    unfold undecided in Hu. bool_prop. unfold stale_reason in Hs.
    destruct (apv_expiresAt a <=? now) eqn:Ee; [done|]. bool_prop. split_and!; [done..|lia|].
    by destruct (is_waiting _).
  - intros id a Hd Hdec. rewrite close_stale_docs, Hd by done.
    destruct (assoc_get id found); [|done]. destruct (stale_reason _ _ _); [|done].
    unfold undecided. by rewrite bool_decide_eq_false_2.
  - intros Hlen id a Hd Hu. rewrite close_stale_docs, Hd by done.
    assert (undecided a = true) as Hu' by (by apply bool_decide_eq_true_2).
    destruct (find_docs_complete undecided newest_first (limit * 2) c id a _ Hd Hu') as [Hin|[Hl _]];
      [|fold found in Hl; unfold found in Hlen, Hl; lia].
    rewrite (assoc_get_nodup found id a Hn Hin), Hu'. by destruct (stale_reason now status a).
Qed.
End Approvals.

(** ** Witnesses *)

#[local] Abbreviation approvals := (gmap string ApprovalDoc).

Definition sample_approval (id runId : string) (expiresAt : Z) : ApprovalDoc := {|
  apv_id := id; apv_runId := runId; apv_runStepSeq := 1; apv_kind := "tool_call"; apv_payload := VNull;
  apv_requestedAt := 0; apv_expiresAt := expiresAt; apv_decision := None; apv_decidedBy := None; apv_decidedAt := None;
  apv_response := None; apv_announced := None |}.

Definition answered_approvals : approvals :=
  foldl aexec ∅ [ACreate (sample_approval "apr_1" "run_1" 100); ADecide 5 "apr_1" deny_it "usr_a" None].

Lemma first_decision_stands_witness :
  ∃ a a', answered_approvals !! "apr_1" = Some a ∧ apv_decision a = Some deny_it ∧
    docs (foldl aexec answered_approvals [ADecide 6 "apr_1" approve "usr_b" None]) !! "apr_1" = Some a' ∧ same_answer a a'.
Proof.
  eexists. destruct (first_decision_stands [ADecide 6 "apr_1" approve "usr_b" None] answered_approvals "apr_1"
    (set_decision deny_it "usr_a" 5 None (sample_approval "apr_1" "run_1" 100)) 7 approve "usr_c" None) as [(a' & Ha & Hs) _];
    [vm_compute; reflexivity|discriminate|].
  exists a'. split; [vm_compute; reflexivity|]. split; [reflexivity|]. split; [exact Ha|exact Hs].
Defined.

Lemma pending_list_is_answerable_witness :
  let c := foldl aexec (∅ : approvals) [ACreate (sample_approval "apr_1" "run_1" 100); ACreate (sample_approval "apr_2" "run_2" 10)] in
  let res := pendingApprovals 50 (λ _, Some waiting_approval) 5 c in
  map fst res.1 = ["apr_1"] ∧
  ∀ id a, (id, a) ∈ res.1 → docs res.2 !! id = Some a ∧ apv_decision a = None.
Proof.
  intros c res. split; [vm_compute; reflexivity|].
  pose proof (pending_list_is_answerable 50 (λ _, Some waiting_approval) 5 c) as Hp. fold res in Hp.
  clearbody res. destruct res as [live c']. destruct Hp as [Hl _]. intros id a Hin.
  destruct (Hl id a Hin) as (H1 & H2 & _). exact (conj H1 H2).
Defined.
