(* ===== verification/Broker.v ===== *)
(** * The host's gateway: permission broker and adapter

    Models packages/db/src/services/permission-broker.ts (how the inputs of a
    decision are loaded), the loading of policies in
    packages/db/src/repositories/policies.ts, the capability listing of
    capabilities.ts, and apps/web/src/lib/gateway-adapter.ts, which builds the
    [ToolGateway] of a run out of them.  [HostDb] holds what the queries read. *)
From S2P Require Import Prelude Json Entities Principal Pattern Permission Budget Model Mongo Guard ResponseCache.
From S2P Require Import Registry Results ToolPhase Gateway Approvals.

(** What the broker and the adapter read of one workspace's collections. *)
Record HostDb := {
  hd_capabilities : list McpCapability;
  hd_policies : list PolicyDocument;
  (** Bindings by id with the id of their server, and the tier on a server's row. *)
  hd_bindingServer : string → option string;
  hd_serverTier : string → option TrustTier;
  hd_defaultToolEffect : option PermissionEffect;
  (** [BindingSource.load]. *)
  hd_load : string → string → option (BindingRecord * ServerRecord);
}.

(** ** Loading (permission-broker.ts, policies.ts) *)

Record BrokerInput := {
  bi_principal : Principal;
  bi_agentId : option string;
  bi_bindingId : string;
  bi_scopeKey : string;
  bi_capabilityName : string;
  bi_args : value;
  bi_callsThisRun : Z;
}.

Definition ScopeRef : Type := PolicyScopeType * option string.

Definition scopesFor (principal : Principal) (agentId : option string) : list ScopeRef :=
  let actor := match principal with PAgent _ _ _ p => p | p => p end in
  [(ps_workspace, None)] ++
  match agentId with Some a => [(ps_agent, Some a)] | None => [] end ++
  match actor with
  | PUser userId _ _ => [(ps_member, Some userId)]
  | PApiKey apiKeyId _ _ => [(ps_apiKey, Some apiKeyId)]
  | PChannelIdentity identityId _ _ _ => [(ps_channel, Some identityId)]
  | PAgent _ _ _ _ | PSystem _ _ => []
  end.

Definition loadForDecision (scopes : list ScopeRef) (policies : list PolicyDocument) : list PolicyDocument :=
  List.filter (λ d, existsb (λ s, bool_decide (s = (pd_scopeType d, pd_scopeId d))) scopes) policies.

Definition trustTierOf (known : string → option TrustTier) (db : HostDb) (bindingId : string) : TrustTier :=
  match known bindingId with
  | Some t => t
  | None => match hd_bindingServer db bindingId with
            | None => untrusted
            | Some server => default untrusted (hd_serverTier db server)
            end
  end.

Definition find_capability (db : HostDb) (bindingId scopeKey name : string) : option McpCapability :=
  List.find (λ c, String.eqb (cap_bindingId c) bindingId && String.eqb (cap_scopeKey c) scopeKey &&
                  String.eqb (cap_name c) name) (hd_capabilities db).

(** What [decidePermission] is asked, once the capability is found. *)
Definition decision_input (known : string → option TrustTier) (now : Z) (db : HostDb) (input : BrokerInput)
    (capability : McpCapability) : PermissionInput :=
  {| pi_capability := capability; pi_bindingId := cap_bindingId capability;
     pi_trustTier := trustTierOf known db (bi_bindingId input); pi_args := bi_args input;
     pi_policies := loadForDecision (scopesFor (bi_principal input) (bi_agentId input)) (hd_policies db);
     pi_now := now; pi_defaultEffect := default ask (hd_defaultToolEffect db);
     pi_callsThisRun := bi_callsThisRun input |}.

Definition broker_decide (known : string → option TrustTier) (now : Z) (db : HostDb) (input : BrokerInput)
    : PermissionDecision :=
  match find_capability db (bi_bindingId input) (bi_scopeKey input) (bi_capabilityName input) with
  | None => {| d_effect := deny; d_matchedRuleId := None; d_reason := "unknown_capability"; d_tightenedByFloor := false |}
  | Some capability => decidePermission (decision_input known now db input capability)
  end.

(** ** The adapter (gateway-adapter.ts) *)

Definition FIRST_PARTY_IDS : list string :=
  ["mcb_first_party_memory"; "mcb_first_party_conversation"; "mcb_first_party_knowledge"; "mcb_first_party_web";
   "mcb_first_party_studio"].
Definition isFirstParty (bindingId : string) : bool := bool_decide (bindingId ∈ FIRST_PARTY_IDS).
Definition known_tier (bindingId : string) : option TrustTier :=
  if isFirstParty bindingId then Some first_party else None.

Record AdapterDeps := {
  ad_workspaceId : string;
  ad_principal : Principal;
  ad_agentId : option string;
  ad_userId : option string;
  ad_runId : string;
  (** The clock, the ids of new approvals, and what the gateway reaches. *)
  ad_now : Z;
  ad_newApprovalId : nat → outcome string string;
  ad_runInference : option (ClassifiedInputRequest → outcome ServerError value);
  ad_callTool : nat → ServerCall → outcome ServerError value;
  ad_compile : value → option Validator;
  ad_base64Bytes : string → Z;
  ad_elapsed : Z;
}.

Section Adapter.
Context (deps : AdapterDeps) (db : HostDb).

Definition scopeKeys : list string :=
  match ad_userId deps with Some u => ["workspace"; "user:" +:+ u] | None => ["workspace"] end.

(** [load]: [listForScope] leaves removed capabilities out. *)
Definition load_capabilities : list McpCapability :=
  List.filter (λ c, bool_decide (cap_scopeKey c ∈ scopeKeys) && bool_decide (cap_removedAt c = None)) (hd_capabilities db).

Definition resolveCapability (canonicalName : string) : outcome string (option Resolved) :=
  Ret match splitCanonicalName canonicalName with
      | None => None
      | Some _ =>
          match List.find (λ c, String.eqb (cap_canonicalName c) canonicalName) load_capabilities with
          | None => None
          | Some found =>
              match resolve (hd_load db) (λ _ _ _, None) (ad_workspaceId deps) (cap_bindingId found) (ad_userId deps) with
              | Throw _ => None
              | Ret r => Some {| rs_capability := found; rs_definition := rb_definition r; rs_scope := rb_scope r;
                                 rs_mrtrPolicy := Some (rb_mrtrPolicy r); rs_timeoutMs := Some (rb_timeoutMs r) |}
              end
          end
      end.

Definition broker_input (capability : McpCapability) (args : value) (callsThisRun : Z) : BrokerInput :=
  {| bi_principal := ad_principal deps; bi_agentId := ad_agentId deps; bi_bindingId := cap_bindingId capability;
     bi_scopeKey := cap_scopeKey capability; bi_capabilityName := cap_name capability; bi_args := args;
     bi_callsThisRun := callsThisRun |}.

Definition decide_for (capability : McpCapability) (args : value) (ctx : InvocationContext) : outcome string PermissionOutcome :=
  let outcome := broker_decide known_tier (ad_now deps) db (broker_input capability args (ic_callsThisRun ctx)) in
  Ret {| pm_effect := d_effect outcome; pm_reason := d_reason outcome; pm_matchedRuleId := d_matchedRuleId outcome |}.

Definition gatewayDeps : GatewayDeps := {|
  gd_resolveCapability := resolveCapability;
  gd_decidePermission := decide_for;
  gd_requestApproval := λ n _ _, ad_newApprovalId deps n;
  gd_runInference := ad_runInference deps;
  gd_callTool := ad_callTool deps;
  gd_compile := ad_compile deps;
  gd_blobs := None;
  gd_base64Bytes := ad_base64Bytes deps;
  gd_started := ad_now deps;
  gd_elapsed := ad_elapsed deps;
|}.

Definition principal_type (p : Principal) : string :=
  match p with
  | PUser _ _ _ => "user" | PApiKey _ _ _ => "api_key" | PChannelIdentity _ _ _ _ => "channel_identity"
  | PAgent _ _ _ _ => "agent" | PSystem _ _ => "system"
  end.

Definition contextFor (consumedToolCalls : Z) : InvocationContext :=
  {| ic_workspaceId := ad_workspaceId deps; ic_runId := ad_runId deps; ic_agentId := ad_agentId deps;
     ic_principalType := principal_type (ad_principal deps); ic_principalId := None;
     ic_callsThisRun := consumedToolCalls |}.

Definition adapter_listAvailable (consumedToolCalls : Z) : outcome string (list ToolDeclaration) :=
  listAvailable gatewayDeps (contextFor consumedToolCalls) load_capabilities.

Definition alias_of (canonicalName : string) : string := from_option fst "" (splitCanonicalName canonicalName).

(** A gateway outcome as the runtime's port knows it. *)
Definition to_port (canonicalName : string) (o : GatewayOutcome) : ToolOutcome :=
  match o with
  | go_result result durationMs mrtrRounds permission =>
      to_result (nr_content result) (nr_structured result) (nr_isError result) (alias_of canonicalName) durationMs mrtrRounds
        ((λ p, {| cp_effect := pm_effect p; cp_reason := Some (pm_reason p); cp_matchedRuleId := pm_matchedRuleId p |}) <$> permission)
  | go_needs_approval id reason => to_needs_approval id reason
  | go_needs_input id requestState => to_needs_input id (default "" requestState)
  end.

Definition adapter_invoke (consumedToolCalls : Z) (canonicalName : string) (args : value) (s : GatewayState)
    : outcome GatewayError ToolOutcome * GatewayState :=
  let '(r, s') := invoke_tool gatewayDeps (contextFor consumedToolCalls) canonicalName args s in
  (match r with Ret o => Ret (to_port canonicalName o) | Throw e => Throw e end, s').

(** ** End to end *)

(** What stands behind a call that reached a server: a capability row of the
    workspace, visible to the caller and approved as it is now, and a decision
    of the stored policies in which no applicable rule denies. *)
Definition allowed_by_policy (consumedToolCalls : Z) (canonicalName : string) (args : value) : Prop :=
  ∃ found row,
    found ∈ hd_capabilities db ∧ cap_canonicalName found = canonicalName ∧ cap_scopeKey found ∈ scopeKeys ∧
    isCapabilityUsable found = true ∧
    find_capability db (cap_bindingId found) (cap_scopeKey found) (cap_name found) = Some row ∧
    let input := decision_input known_tier (ad_now deps) db (broker_input found args consumedToolCalls) row in
    d_effect (decidePermission input) = allow ∧
    isCapabilityUsable row = true ∧
    ∀ doc rule, doc ∈ hd_policies db →
      (pd_scopeType doc, pd_scopeId doc) ∈ scopesFor (ad_principal deps) (ad_agentId deps) →
      rule ∈ pd_rules doc → rule_applies rule input = true → r_effect rule ≠ deny.

Lemma loaded_rule_is_candidate input doc rule :
  doc ∈ pi_policies input → rule ∈ pd_rules doc → rule_applies rule input = true →
  ∃ c, c ∈ collect_candidates input ∧ k_rule c = rule.
Proof.
  intros Hd Hr Ha.
  exists {| k_rule := rule; k_scope := pd_scopeType doc; k_specificity := specificityOf rule (pd_scopeType doc) |}.
  split; [|reflexivity]. apply list_elem_of_In, in_flat_map.
  exists doc. split; [by apply list_elem_of_In|]. unfold candidates_of_doc. apply in_map_iff.
  exists rule. split; [reflexivity|]. apply filter_In. split; [by apply list_elem_of_In|done].
Qed.

Lemma resolved_found canonicalName resolved :
  resolveCapability canonicalName = Ret (Some resolved) →
  rs_capability resolved ∈ hd_capabilities db ∧ cap_canonicalName (rs_capability resolved) = canonicalName ∧
  cap_scopeKey (rs_capability resolved) ∈ scopeKeys ∧
  ∃ p, rs_mrtrPolicy resolved = Some p ∧ mp_maxRounds p <= 16.
Proof.
  unfold resolveCapability. destruct (splitCanonicalName canonicalName); [|done].
  destruct (List.find _ load_capabilities) as [found|] eqn:Hf; [|done].
  destruct (resolve _ _ _ _ _) as [r|] eqn:Hr; [|done]. intros [= <-]. cbn [rs_capability rs_mrtrPolicy].
  apply find_some in Hf as [Hin Hn]. apply filter_In in Hin as [Hin Hp]. bool_prop.
  split_and!; [by apply list_elem_of_In|done..|]. eexists. split; [done|].
  unfold resolve in Hr. destruct (hd_load db _ _) as [[b sv]|]; [|done]. destruct (assertUsable b sv); [|done].
  cbn [obind] in Hr. destruct (scopeFor _ _ _ _); [|done]. injection Hr as <-. cbn [rb_mrtrPolicy].
  by destruct (effectiveMrtrPolicy_bounds b sv) as [[_ ?] _].
Qed.

(** C4.  From the model's request to the server and back, nothing runs against
    policy: an invocation that sent anything to a server did so for a tool of
    this workspace that the caller can see and that is approved as it stands,
    and no rule stored for the scopes of the decision (the workspace, the agent,
    the principal or whoever it directly acts for) that applies to the call
    denies it; it sent at most seventeen calls. *)
Theorem nothing_runs_against_policy consumedToolCalls canonicalName args s :
  let s' := (adapter_invoke consumedToolCalls canonicalName args s).2 in
  gs_calls s' = gs_calls s ∨
  ∃ calls, gs_calls s' = gs_calls s ++ calls ∧ (length calls <= 17)%nat ∧
    allowed_by_policy consumedToolCalls canonicalName args.
Proof.
  unfold adapter_invoke. pose proof (invoke_cases gatewayDeps (contextFor consumedToolCalls) canonicalName args s) as Hi.
  destruct (invoke_tool _ _ _ _ s) as [r s']. cbn [snd]. destruct Hi as (_ & calls & inf & [Hc _] & Hcase).
  destruct Hcase as [[-> _]|(resolved & decision & args' & Hp & _ & [_ Hl] & _)]; [left; by rewrite Hc, app_nil_r|].
  right. exists calls. split; [done|]. destruct Hp as (_ & Hres & Hu & Hdec & He & _). cbn in Hres, Hdec.
  destruct (resolved_found _ _ Hres) as (Hin & Hname & Hscope & p & Hp & Hmax).
  unfold policy_of in Hl. rewrite Hp in Hl. cbn [default] in Hl. split; [simpl in Hl; lia|].
  unfold decide_for, broker_decide in Hdec. cbn [bi_bindingId bi_scopeKey bi_capabilityName broker_input] in Hdec.
  destruct (find_capability db _ _ _) as [row|] eqn:Hrow; injection Hdec as <-; [|done]. cbn [pm_effect] in He.
  exists (rs_capability resolved), row. cbv zeta. split_and!; try done.
  - apply (allow_no_deny _ He).
  - intros doc rule Hd Hs Hr Ha Hdeny.
    assert (doc ∈ pi_policies (decision_input known_tier (ad_now deps) db
      (broker_input (rs_capability resolved) args consumedToolCalls) row)) as Hload.
    { cbn [pi_policies decision_input]. apply list_elem_of_In, filter_In. split; [by apply list_elem_of_In|].
      apply existsb_exists. exists (pd_scopeType doc, pd_scopeId doc).
      split; [by apply list_elem_of_In|by apply bool_decide_eq_true_2]. }
    destruct (loaded_rule_is_candidate _ doc rule Hload Hr Ha) as (c & Hcand & <-).
    exact (proj2 (allow_no_deny _ He) c Hcand Hdeny).
Qed.
End Adapter.

(** ** A host with one installed server *)

Definition mail_binding : BindingRecord := {|
  br_id := "mcb_1"; br_workspaceId := "wks_1"; br_mcpServerId := "srv_1"; br_alias := "mail"; br_enabled := true;
  br_status := bs_connected; br_perUserAuth := false; br_credentialId := None; br_allowInference := None;
  br_allowHumanInput := None; br_maxRounds := None; br_timeoutMs := None |}.
Definition mail_server : ServerRecord := {|
  sv_id := "srv_1"; sv_slug := "mail"; sv_transport := tr_streamable_http; sv_url := Some "https://mail.example";
  sv_authMode := "none"; sv_trustTier := verified; sv_protocolVersionPin := None |}.

Definition mail_host (rules : list PolicyDocument) : HostDb := {|
  hd_capabilities := [ex_capability read_only_hint];
  hd_policies := rules;
  hd_bindingServer := λ b, if String.eqb b "mcb_1" then Some "srv_1" else None;
  hd_serverTier := λ _, Some verified;
  hd_defaultToolEffect := None;
  hd_load := λ _ b, if String.eqb b "mcb_1" then Some (mail_binding, mail_server) else None |}.

Definition mail_deps (principal : Principal) : AdapterDeps := {|
  ad_workspaceId := "wks_1"; ad_principal := principal; ad_agentId := Some "agt_1"; ad_userId := Some "usr_a";
  ad_runId := "run_1"; ad_now := 1000; ad_newApprovalId := λ n, Ret ("apr_" +:+ pretty (Z.of_nat n));
  ad_runInference := None;
  ad_callTool := λ _ _, Ret (VObject [("content", VArray [VObject [("type", VString "text"); ("text", VString "3 mails")]])]);
  ad_compile := λ _, None; ad_base64Bytes := λ _, 0; ad_elapsed := 12 |}.

Definition alice_user : Principal := PUser "usr_a" "wks_1" member.

Definition member_rule (e : PermissionEffect) : PolicyDocument :=
  {| pd_id := "pol_m"; pd_workspaceId := "wks_1"; pd_scopeType := ps_member; pd_scopeId := Some "usr_a";
     pd_rules := [ex_rule "r1" "search" e 0 None] |}.

(** A read-only tool of a verified server runs; the same call is refused, and
    nothing reaches the server, once the member's own policy denies it. *)
Example member_policy_decides :
  (adapter_invoke (mail_deps alice_user) (mail_host []) 0 "mail__search" VNull fresh_gateway).1 =
    Ret (to_result [BText "3 mails"] None false "mail" 12 0
      (Some {| cp_effect := allow; cp_reason := Some "policy:default+read_only"; cp_matchedRuleId := None |})) ∧
  gs_calls (adapter_invoke (mail_deps alice_user) (mail_host [member_rule deny]) 0 "mail__search" VNull fresh_gateway).2 = [].
Proof. by vm_compute. Qed.

(** Delegated twice, the person's own policy is not loaded: the broker looks
    one level behind an agent, so a rule that denies the member a tool does not
    bind an agent that acts for an agent that acts for the member. *)
Theorem nested_delegation_skips_member_policy :
  let nested := PAgent "agt_2" "run_2" "wks_1" (PAgent "agt_1" "run_1" "wks_1" alice_user) in
  let once := PAgent "agt_1" "run_1" "wks_1" alice_user in
  let calls p := length (gs_calls (adapter_invoke (mail_deps p) (mail_host [member_rule deny]) 0 "mail__search" VNull
                                     fresh_gateway).2) in
  rootUserId nested = Some "usr_a" ∧ calls once = 0%nat ∧ calls nested = 1%nat.
Proof. by vm_compute. Qed.

(** An approval is never consulted.  The call that asks is approved, the run
    resumes and makes the same call; the gateway asks again, files a second
    approval and calls nothing, so the approved tool never runs. *)
Theorem approved_call_asks_again :
  let host := mail_host [member_rule ask] in
  let first := adapter_invoke (mail_deps alice_user) host 0 "mail__search" VNull fresh_gateway in
  let asked := createApproval {| apv_id := "apr_0"; apv_runId := "run_1"; apv_runStepSeq := 1; apv_kind := "tool_call";
    apv_payload := VNull; apv_requestedAt := 1000; apv_expiresAt := 86401000; apv_decision := None; apv_decidedBy := None;
    apv_decidedAt := None; apv_response := None; apv_announced := None |} (∅ : gmap string ApprovalDoc) in
  let approved := decideApproval 2000 "apr_0" approve "usr_a" None asked.2 in
  let second := adapter_invoke (mail_deps alice_user) host 0 "mail__search" VNull first.2 in
  first.1 = Ret (to_needs_approval "apr_0" "policy:ask") ∧
  approved.1 = true ∧ apv_decision <$> (approved.2 !! "apr_0") = Some (Some approve) ∧
  second.1 = Ret (to_needs_approval "apr_1" "policy:ask") ∧
  length (gs_approvals second.2) = 2%nat ∧ gs_calls second.2 = [].
Proof. by vm_compute. Qed.
