(* ===== verification/Discovery.v ===== *)
(** * Discovery

    Models packages/mcp/src/discovery.ts (what a server is asked and how the
    freshness of several answers combines) and
    apps/web/src/lib/discovery-service.ts (recording the result on the
    capabilities and the binding).  What the SDK client answers is the record
    [ServerSurface].  Schemas and annotations are objects, as the SDK's own
    validation of a list result guarantees. *)
From S2P Require Import Prelude Json Entities Mongo Capabilities Guard ResponseCache Registry Broker.

Inductive ProtocolEra := era_modern | era_legacy | era_unknown.

Record ServerSurface := {
  sf_discover : option value;
  sf_listTools : outcome string value;
  sf_listPrompts : outcome string value;
  sf_listResources : outcome string value;
  sf_listResourceTemplates : outcome string value;
  sf_era : ProtocolEra;
  sf_version : option string;
  sf_instructions : option string;
}.

Record DiscoveryOutcome := {
  do_capabilities : list DiscoveredCapability;
  do_scopeKey : string;
  do_protocolEra : ProtocolEra;
  do_version : option string;
  do_instructions : option string;
  do_ttlMs : Z;
  do_cacheScope : CacheScope;
  do_servedFromCache : bool;
  do_skipped : list (string * string);
}.

(** The loop of [combine]; [None] is the infinity the minimum starts from. *)
Fixpoint combine_from (results : list value) (ttlMs : option Z) (cacheScope : CacheScope) : option Z * CacheScope :=
  match results with
  | [] => (ttlMs, cacheScope)
  | r :: rest =>
      let t := clampTtl (own r "ttlMs") in
      let ttl' := match ttlMs with Some m => Z.min m t | None => t end in
      let scope := parseCacheScope (own r "cacheScope") in
      combine_from rest (Some ttl')
        match scope with cs_public => cacheScope | cs_private => cs_private | cs_unknown => cs_unknown end
  end.

Definition combine (results : list value) : Z * CacheScope :=
  let '(ttlMs, cacheScope) := combine_from results None cs_public in
  (default 0 ttlMs, match results with [] => cs_unknown | _ => cacheScope end).

Definition as_text (v : value) : option string := match v with VString s => Some s | _ => None end.
Definition asRecord (v : value) : option (list (string * value)) := match v with VObject fs => Some fs | _ => None end.
(** [String(v ?? '')]. *)
Definition text_or_empty (v : value) : string := match v with VUndefined | VNull => "" | _ => js_string v end.
Definition nullish (a b : value) : value := match a with VUndefined | VNull => b | _ => a end.

Definition toCapability (kind : CapabilityKind) (alias : string) (raw : value) : DiscoveredCapability :=
  let name := text_or_empty (own raw "name") in
  {| dc_kind := kind; dc_name := name; dc_canonicalName := canonicalCapabilityName alias name;
     dc_title := as_text (own raw "title"); dc_description := as_text (own raw "description");
     dc_inputSchema := VObject <$> asRecord (own raw "inputSchema");
     dc_outputSchema := VObject <$> asRecord (own raw "outputSchema"); dc_annotations := asRecord (own raw "annotations") |}.

Definition toResourceCapability (kind : CapabilityKind) (alias : string) (raw : value) : DiscoveredCapability :=
  let uri := text_or_empty (nullish (own raw "uri") (own raw "uriTemplate")) in
  {| dc_kind := kind; dc_name := uri; dc_canonicalName := canonicalCapabilityName alias uri;
     dc_title := as_text (nullish (own raw "title") (own raw "name")); dc_description := as_text (own raw "description");
     dc_inputSchema := None; dc_outputSchema := None; dc_annotations := asRecord (own raw "annotations") |}.

(** [result.tools ?? []]. *)
Definition listed (result : value) (key : string) : list value := match own result key with VArray l => l | _ => [] end.

Record Collected := { cl_capabilities : list DiscoveredCapability; cl_skipped : list (string * string); cl_cacheables : list value }.

(** One list verb: what it adds, or why it was skipped. *)
Definition collect_verb (wanted : bool) (answer : outcome string value) (verb key : string) (read : value → DiscoveredCapability)
    (k : Collected) : Collected :=
  if negb wanted then k
  else match answer with
       | Ret result => {| cl_capabilities := cl_capabilities k ++ map read (listed result key); cl_skipped := cl_skipped k;
                          cl_cacheables := cl_cacheables k ++ [result] |}
       | Throw m => {| cl_capabilities := cl_capabilities k; cl_skipped := cl_skipped k ++ [(verb, m)];
                       cl_cacheables := cl_cacheables k |}
       end.

Definition collect (surface : ServerSurface) (alias : string) (scope : ConnectionScopeKey) (kinds : list CapabilityKind)
    : DiscoveryOutcome :=
  let wants k := bool_decide (k ∈ kinds) in
  let k := {| cl_capabilities := []; cl_skipped := []; cl_cacheables := option_list (sf_discover surface) |} in
  let k := collect_verb (wants KTool) (sf_listTools surface) "tools/list" "tools" (toCapability KTool alias) k in
  let k := collect_verb (wants KPrompt) (sf_listPrompts surface) "prompts/list" "prompts" (toCapability KPrompt alias) k in
  let k := collect_verb (wants KResource) (sf_listResources surface) "resources/list" "resources"
             (toResourceCapability KResource alias) k in
  let k := collect_verb (wants KResourceTemplate) (sf_listResourceTemplates surface) "resources/templates/list" "resourceTemplates"
             (toResourceCapability KResourceTemplate alias) k in
  let '(ttlMs, cacheScope) := combine (cl_cacheables k) in
  {| do_capabilities := cl_capabilities k; do_scopeKey := capabilityScopeKey scope; do_protocolEra := sf_era surface;
     do_version := sf_version surface; do_instructions := sf_instructions surface; do_ttlMs := ttlMs;
     do_cacheScope := cacheScope; do_servedFromCache := false; do_skipped := cl_skipped k |}.

Definition served_from_cache (o : DiscoveryOutcome) : DiscoveryOutcome :=
  {| do_capabilities := do_capabilities o; do_scopeKey := do_scopeKey o; do_protocolEra := do_protocolEra o;
     do_version := do_version o; do_instructions := do_instructions o; do_ttlMs := do_ttlMs o; do_cacheScope := do_cacheScope o;
     do_servedFromCache := true; do_skipped := do_skipped o |}.

(** What a discovery ends with besides an outcome: consent is wanted, or an
    error message. *)
Inductive DiscoverError := needs_consent (authorizationUrl : string) | discover_failed (message : string).

(** [discover]: the cache's answer, else the pool's; also what is put in the
    cache. *)
Definition discover (refresh : bool) (cached : option DiscoveryOutcome) (run : outcome DiscoverError DiscoveryOutcome)
    : outcome DiscoverError DiscoveryOutcome * option DiscoveryOutcome :=
  match (if refresh then None else cached) with
  | Some o => (Ret (served_from_cache o), None)
  | None => match run with Ret o => (Ret o, Some o) | Throw e => (Throw e, None) end
  end.

(** ** Recording it (discovery-service.ts) *)

Record BindingRow := {
  bw_status : BindingStatus;
  (** lastAt, ttlMs, cacheScope, capabilityCount. *)
  bw_discovery : option (Z * Z * CacheScope * Z);
  bw_lastOkAt : option Z;
  bw_consecutiveFailures : Z;
  bw_lastError : option string;
}.

Record DiscoverInput := {
  di_workspaceId : string;
  di_definition : McpServerDefinition;
  di_userId : option string;
  di_autoApprove : bool;
}.

Record DiscoverOutcome := {
  ds_added : Z; ds_changed : Z; ds_removed : Z; ds_total : Z; ds_error : option string; ds_authorizationUrl : option string }.

Definition discovery_scope (input : DiscoverInput) : ConnectionScopeKey :=
  match di_userId input with
  | None => scope_workspace (di_workspaceId input) (df_bindingId (di_definition input))
  | Some u => scope_user (di_workspaceId input) (df_bindingId (di_definition input)) u
  end.

(** A first-party binding has no row; for a stored one the update applies to the
    row that is there. *)
Definition on_binding (input : DiscoverInput) (f : BindingRow → BindingRow) (row : option BindingRow) : option BindingRow :=
  if isFirstParty (df_bindingId (di_definition input)) then row else f <$> row.

Definition recordOnBinding (now : Z) (input : DiscoverInput) (o : DiscoveryOutcome) : option BindingRow → option BindingRow :=
  on_binding input (λ _,
    {| bw_status := bs_connected;
       bw_discovery := Some (now, do_ttlMs o, do_cacheScope o, Z.of_nat (length (do_capabilities o)));
       bw_lastOkAt := Some now; bw_consecutiveFailures := 0; bw_lastError := None |}).

Definition noteFailure (input : DiscoverInput) (message : string) : option BindingRow → option BindingRow :=
  on_binding input (λ r,
    {| bw_status := bs_error; bw_discovery := bw_discovery r; bw_lastOkAt := bw_lastOkAt r;
       bw_consecutiveFailures := bw_consecutiveFailures r + 1; bw_lastError := Some (str_take 500 message) |}).

Definition awaitingConsent (input : DiscoverInput) : option BindingRow → option BindingRow :=
  on_binding input (λ r,
    {| bw_status := bs_pending_auth; bw_discovery := bw_discovery r; bw_lastOkAt := bw_lastOkAt r;
       bw_consecutiveFailures := bw_consecutiveFailures r; bw_lastError := None |}).

Definition no_change (error url : option string) : DiscoverOutcome :=
  {| ds_added := 0; ds_changed := 0; ds_removed := 0; ds_total := 0; ds_error := error; ds_authorizationUrl := url |}.

Section Service.
Context {C : Type} `{CollectionLaws McpCapability C}.
Context (sha256 : string → string) (genId : C → string) (genId_fresh : ∀ c, docs c !! genId c = None).

Definition discoverAndRecord (now : Z) (input : DiscoverInput) (discovered : outcome DiscoverError DiscoveryOutcome)
    (row : option BindingRow) (c : C) : DiscoverOutcome * option BindingRow * C :=
  match discovered with
  | Ret o =>
      let '(diff, c') := reconcile sha256 (di_workspaceId input) genId (df_bindingId (di_definition input)) (do_scopeKey o)
                           (do_capabilities o) now (di_autoApprove input) c in
      ({| ds_added := Z.of_nat (length (df_added diff)); ds_changed := Z.of_nat (length (df_changed diff));
          ds_removed := Z.of_nat (length (df_removed diff)); ds_total := Z.of_nat (length (do_capabilities o));
          ds_error := None; ds_authorizationUrl := None |}, recordOnBinding now input o row, c')
  | Throw (needs_consent url) => (no_change None (Some url), awaitingConsent input row, c)
  | Throw (discover_failed m) => (no_change (Some m) None, noteFailure input m row, c)
  end.

(** Whatever a discovery ends with, the counts it reports add up: the added and
    changed capabilities are among the ones found, the rest are unchanged. *)
Lemma discovery_counts now input discovered row c :
  let '(out, _, _) := discoverAndRecord now input discovered row c in
  0 <= ds_added out ∧ 0 <= ds_changed out ∧ ds_added out + ds_changed out <= ds_total out.
Proof.
  unfold discoverAndRecord. destruct discovered as [o|[url|m]]; simpl; [|lia..].
  pose proof (diff_accounts sha256 (di_workspaceId input) genId (df_bindingId (di_definition input)) (do_scopeKey o)
    (do_capabilities o) now (di_autoApprove input) c) as Hp.
  destruct (reconcile _ _ _ _ _ _ _ _ c) as [diff c']. simpl in *. apply Permutation_length in Hp.
  rewrite !length_app, length_map in Hp. lia.
Qed.

(** A discovery that fails takes nothing away: the capabilities stay as they
    are, the binding of a stored server is marked (awaiting consent without
    counting as a failure, or in error with the count raised), a first-party
    binding is untouched, and the caller gets the reason instead of an
    exception. *)
Theorem failed_discovery_keeps_the_tools now input e row c :
  let '(out, row', c') := discoverAndRecord now input (Throw e) row c in
  c' = c ∧ ds_total out = 0 ∧
  match e with
  | needs_consent url => ds_authorizationUrl out = Some url ∧ ds_error out = None
  | discover_failed m => ds_error out = Some m ∧ ds_authorizationUrl out = None
  end ∧
  (if isFirstParty (df_bindingId (di_definition input)) then row' = row
   else ∀ r, row = Some r → ∃ r', row' = Some r' ∧ bw_discovery r' = bw_discovery r ∧
     match e with
     | needs_consent _ => bw_status r' = bs_pending_auth ∧ bw_consecutiveFailures r' = bw_consecutiveFailures r
     | discover_failed _ => bw_status r' = bs_error ∧ bw_consecutiveFailures r' = bw_consecutiveFailures r + 1
     end).
Proof.
  destruct e as [url|m]; simpl; (split_and!; [done..|]); unfold awaitingConsent, noteFailure, on_binding;
    (destruct (isFirstParty _); [done|]); intros r ->; by eexists.
Qed.
End Service.

(** ** The freshness of several answers *)

Lemma combine_from_spec results ttl scope :
  let '(t, s) := combine_from results ttl scope in
  (∀ r m, r ∈ results → t = Some m → m <= clampTtl (own r "ttlMs")) ∧
  (∀ m0, ttl = Some m0 → ∃ m, t = Some m ∧ m <= m0) ∧
  (results ≠ [] → is_Some t) ∧
  (s = cs_public ↔ scope = cs_public ∧ ∀ r, r ∈ results → parseCacheScope (own r "cacheScope") = cs_public).
Proof.
  revert ttl scope. induction results as [|r rest IH]; intros ttl scope; simpl.
  { split_and!; [by intros ? ? ?%elem_of_nil|intros m ->; exists m; split; [done|lia]|done|].
    split; [intros ->; split; [done|by intros ? ?%elem_of_nil]|by intros []]. }
  match goal with |- context [combine_from rest (Some ?x) ?y] => specialize (IH (Some x) y);
    destruct (combine_from rest (Some x) y) as [t s] end.
  destruct IH as (I1 & I2 & _ & I4). destruct (I2 _ eq_refl) as (m & -> & Hm). split_and!.
  - intros r' m' [->|Hin]%elem_of_cons [= <-]; [destruct ttl; lia|by apply (I1 r')].
  - intros m0 ->. exists m. split; [done|lia].
  - by eexists.
  - rewrite I4. setoid_rewrite elem_of_cons. destruct (parseCacheScope (own r "cacheScope")) eqn:E; naive_solver congruence.
Qed.

(** The strictest answer wins: the combined lifetime is at most that of each
    answer, and the result is shareable only if every answer said so. *)
Theorem combined_freshness_is_strictest results :
  let '(ttlMs, cacheScope) := combine results in
  (∀ r, r ∈ results → ttlMs <= clampTtl (own r "ttlMs")) ∧ 0 <= ttlMs <= MAX_TTL_MS ∧
  (cacheScope = cs_public ↔ results ≠ [] ∧ ∀ r, r ∈ results → parseCacheScope (own r "cacheScope") = cs_public).
Proof.
  unfold combine. pose proof (combine_from_spec results None cs_public) as Hc.
  assert (∀ v, 0 <= clampTtl v <= MAX_TTL_MS) as Hb.
  { intros v. unfold clampTtl, MAX_TTL_MS. destruct v; try lia. destruct (_ <=? _) eqn:E; bool_prop; lia. }
  assert (∀ l t s, 0 <= default 0 t <= MAX_TTL_MS → 0 <= default 0 (combine_from l t s).1 <= MAX_TTL_MS) as Hr.
  { induction l as [|r l IH]; intros t s Ht; simpl; [done|]. apply IH. simpl. pose proof (Hb (own r "ttlMs")). destruct t; simpl in *; lia. }
  specialize (Hr results None cs_public). destruct (combine_from results None cs_public) as [t s]. simpl in Hr.
  destruct Hc as (H1 & _ & H3 & H4). split_and!.
  - intros r Hin. destruct H3 as [m ->]; [by intros ->; apply elem_of_nil in Hin|]. simpl. by apply (H1 r m).
  - apply Hr. unfold MAX_TTL_MS. lia.
  - apply Hr. unfold MAX_TTL_MS. lia.
  - destruct results as [|r results]; [naive_solver|]. rewrite H4. naive_solver.
Qed.

Example one_private_answer_keeps_all_private :
  combine [VObject [("ttlMs", VNumber 60000); ("cacheScope", VString "public")];
           VObject [("ttlMs", VNumber 5000); ("cacheScope", VString "private")]] = (5000, cs_private).
Proof. reflexivity. Qed.
