(* ===== verification/Chunk.v ===== *)
(** * Cutting documents into chunks

    Models packages/knowledge/src/chunk.ts.  A text is the list of its UTF-16
    code units, so that white space and the opening quotation mark outside the
    8-bit range are the ones the regular expressions name.  The loop of
    [hardCut] takes fuel; [None] is a loop that does not end. *)
From S2P Require Import Prelude.

Definition text := list Z.
Definition len (s : text) : Z := Z.of_nat (length s).

Definition is_ws (c : Z) : bool :=
  ((9 <=? c) && (c <=? 13)) || (c =? 32) || (c =? 160) || (c =? 5760) ||
  ((8192 <=? c) && (c <=? 8202)) || (c =? 8232) || (c =? 8233) || (c =? 8239) ||
  (c =? 8287) || (c =? 12288) || (c =? 65279).

(** [String.prototype.trimStart], [trim], [slice], [indexOf] and [lastIndexOf]
    of a space. *)
Fixpoint trimStart (s : text) : text :=
  match s with
  | [] => []
  | c :: s' => if is_ws c then trimStart s' else s
  end.
Definition trimEnd (s : text) : text := rev (trimStart (rev s)).
Definition trim (s : text) : text := trimEnd (trimStart s).

Definition slice_index (s : text) (k : Z) : nat :=
  Z.to_nat (if k <? 0 then len s + k else k).
Definition slice_to (k : Z) (s : text) : text := take (slice_index s k) s.
Definition slice_from (k : Z) (s : text) : text := drop (slice_index s k) s.

Fixpoint indexOf_space (s : text) : Z :=
  match s with
  | [] => -1
  | c :: s' =>
      if c =? 32 then 0
      else let i := indexOf_space s' in if i =? -1 then -1 else i + 1
  end.
Definition lastIndexOf_space (s : text) : Z :=
  let i := indexOf_space (rev s) in if i =? -1 then -1 else len s - 1 - i.

(** The longest prefix of the units that satisfy [p]. *)
Fixpoint run_length (p : Z → bool) (s : text) : nat :=
  match s with
  | [] => 0
  | c :: s' => if p c then S (run_length p s') else 0
  end.

(** [s.split(re)]: [m prev s] is the length of the match of [re] at the front
    of [s] when [prev] is the unit before it. *)
Section split.
Context (m : option Z → text → option nat).

Fixpoint split_re (prev : option Z) (skip : nat) (acc s : text) : list text :=
  match s with
  | [] => [rev acc]
  | c :: s' =>
      match skip with
      | S k => split_re (Some c) k acc s'
      | O =>
          match m prev s with
          | Some (S k) => rev acc :: split_re (Some c) k [] s'
          | _ => split_re (Some c) O (c :: acc) s'
          end
      end
  end.
End split.

(** A line feed, spaces and tabs, and one or more line feeds. *)
Definition blank_line (_ : option Z) (s : text) : option nat :=
  match s with
  | 10 :: s1 =>
      let w := run_length (λ c, (c =? 32) || (c =? 9)) s1 in
      match run_length (Z.eqb 10) (drop w s1) with
      | O => None
      | n => Some (S (w + n))
      end
  | _ => None
  end.

(** White space after a full stop, an exclamation or a question mark and
    before a capital, a digit, an opening quotation mark or a parenthesis. *)
Definition ends_sentence (c : Z) : bool := (c =? 46) || (c =? 33) || (c =? 63).
Definition opens_sentence (c : Z) : bool :=
  ((65 <=? c) && (c <=? 90)) || ((48 <=? c) && (c <=? 57)) || (c =? 34) || (c =? 8220) || (c =? 40).
Definition sentence_break (prev : option Z) (s : text) : option nat :=
  let w := run_length is_ws s in
  match prev, w, head (drop w s) with
  | Some p, S _, Some c => if ends_sentence p && opens_sentence c then Some w else None
  | _, _, _ => None
  end.

Definition nonempty (s : text) : bool := negb (bool_decide (s = [])).

Definition paragraphs (s : text) : list text :=
  List.filter nonempty (map trim (split_re blank_line None 0 [] s)).
Definition sentences (paragraph : text) : list text :=
  List.filter nonempty (map trim (split_re sentence_break None 0 [] paragraph)).

Record ChunkOptions := { target : Z; overlap : Z }.
Definition DEFAULT_CHUNKING : ChunkOptions := {| target := 1500; overlap := 200 |}.
Definition maxChunkLength (options : ChunkOptions) : Z := target options + overlap options + 2.
Definition MAX_CHUNKS_PER_DOCUMENT : Z := 800.

Record TextChunk := { tc_index : nat; tc_content : text }.

Definition cut_point (limit : Z) (rest : text) : Z :=
  let at_ := lastIndexOf_space (slice_to limit rest) in
  if limit <? 2 * at_ then at_ else limit.

Fixpoint cut_loop (fuel : nat) (limit : Z) (rest : text) : option (list text) :=
  if len rest <=? limit then Some (if nonempty rest then [rest] else [])
  else
    match fuel with
    | O => None
    | S fuel' =>
        let cut := cut_point limit rest in
        parts ← cut_loop fuel' limit (trim (slice_from cut rest));
        Some (trim (slice_to cut rest) :: parts)
    end.

Definition hardCut (s : text) (limit : Z) : option (list text) :=
  if len s <=? limit then Some [s] else cut_loop (length s) limit s.

(** The packing loop of [split] over the parts of all its sentences. *)
Definition join_space (current part : text) : text :=
  if nonempty current then current ++ [32] ++ part else part.

Fixpoint pack (limit : Z) (current : text) (parts : list text) : list text :=
  match parts with
  | [] => if nonempty current then [current] else []
  | part :: parts' =>
      let joined := join_space current part in
      if (limit <? len joined) && nonempty current
      then current :: pack limit part parts'
      else pack limit joined parts'
  end.

Definition split (paragraph : text) (limit : Z) : option (list text) :=
  if len paragraph <=? limit then Some [paragraph]
  else
    parts ← mapM (λ sentence, hardCut sentence limit) (sentences paragraph);
    Some (pack limit [] (concat parts)).

Definition tail (s : text) (length : Z) : text :=
  if (length <=? 0) || (len s <=? length) then (if length <=? 0 then [] else s)
  else
    let window := slice_from (- length) s in
    let at_ := indexOf_space window in
    trimStart (if at_ =? -1 then window else slice_from (at_ + 1) window).

Definition join_blank (current piece : text) : text :=
  if nonempty current then current ++ [10; 10] ++ piece else piece.

(** [flush]: what it pushes, and the tail that starts the next chunk. *)
Definition flush (options : ChunkOptions) (current : text) : list text * text :=
  (if nonempty (trim current) then [trim current] else [], tail current (overlap options)).

Fixpoint assemble (options : ChunkOptions) (pieces : list text) (current : text) : list text :=
  match pieces with
  | [] => if nonempty (trim current) then [trim current] else []
  | piece :: pieces' =>
      let joined := join_blank current piece in
      if (target options <? len joined) && nonempty (trim current) then
        let '(pushed, rest) := flush options current in
        pushed ++ assemble options pieces' (join_blank rest piece)
      else assemble options pieces' joined
  end.

Definition pieces_of (s : text) (limit : Z) : option (list text) :=
  @concat text <$> mapM (λ paragraph, split paragraph limit) (paragraphs s).

Definition chunkText (s : text) (options : ChunkOptions) : option (list TextChunk) :=
  pieces ← pieces_of s (target options);
  Some (if bool_decide (pieces = []) then []
        else imap (λ index content, {| tc_index := index; tc_content := content |})
               (assemble options pieces [])).

(** ** White space and trimming *)
Definition solid_start (s : text) : Prop := ∃ c s', s = c :: s' ∧ is_ws c = false.
Definition solid (s : text) : Prop := solid_start s ∧ solid_start (rev s).
Definition infix (p s : text) : Prop := ∃ a b, s = a ++ p ++ b.

(** What is left of a text without its white space. *)
Definition ink (s : text) : text := List.filter (λ c, negb (is_ws c)) s.
Definition inks (l : list text) : text := concat (map ink l).

Lemma ink_app a b : ink (a ++ b) = ink a ++ ink b.
Proof. apply List.filter_app. Qed.

Lemma inks_app a b : inks (a ++ b) = inks a ++ inks b.
Proof. unfold inks. by rewrite map_app, concat_app. Qed.

Lemma ink_rev s : ink (rev s) = rev (ink s).
Proof.
  induction s as [|c s IH]; [done|]. simpl. rewrite ink_app, IH. simpl.
  destruct (is_ws c); simpl; [by rewrite app_nil_r|done].
Qed.

Lemma ink_trimStart s : ink (trimStart s) = ink s.
Proof. induction s as [|c s IH]; [done|]. simpl. by destruct (is_ws c) eqn:E; simpl; rewrite ?E. Qed.

Lemma ink_trim s : ink (trim s) = ink s.
Proof. unfold trim, trimEnd. by rewrite ink_rev, ink_trimStart, ink_rev, rev_involutive, ink_trimStart. Qed.

Lemma trimStart_length s : (length (trimStart s) <= length s)%nat.
Proof. induction s as [|c s IH]; simpl; [lia|]. destruct (is_ws c); simpl; lia. Qed.

Lemma trim_len s : len (trim s) <= len s.
Proof.
  unfold len, trim, trimEnd. rewrite length_rev.
  pose proof (trimStart_length (rev (trimStart s))) as H. rewrite length_rev in H.
  pose proof (trimStart_length s). lia.
Qed.

Lemma trimStart_solid s : trimStart s = [] ∨ solid_start (trimStart s).
Proof.
  induction s as [|c s IH]; [by left|]. simpl. destruct (is_ws c) eqn:E; [done|].
  right. by exists c, s.
Qed.

Lemma trimStart_keeps s : solid_start s → trimStart s = s.
Proof. intros (c & s' & -> & H). simpl. by rewrite H. Qed.

Lemma trimStart_split s : ∃ w, s = w ++ trimStart s.
Proof.
  induction s as [|c s [w IH]]; [by exists []|]. simpl. destruct (is_ws c); [|by exists []].
  exists (c :: w). simpl. by f_equal.
Qed.

(** A text is trimmed to nothing or to one without white space at its ends. *)
Lemma trim_solid s : trim s = [] ∨ solid (trim s).
Proof.
  unfold trim, trimEnd. destruct (trimStart_solid s) as [->|H]; [by left|].
  destruct (trimStart_solid (rev (trimStart s))) as [E|H2].
  { left. by rewrite E. }
  right. split; [|by rewrite rev_involutive].
  destruct H as (c & s' & E & Hc). rewrite E in *.
  destruct (trimStart_split (rev (c :: s'))) as [w Hw].
  set (t := trimStart (rev (c :: s'))) in *.
  apply (f_equal (@rev Z)) in Hw. rewrite rev_involutive, rev_app_distr in Hw.
  destruct (rev t) as [|d t'] eqn:Et.
  { destruct H2 as (x & y & H2 & _). apply (f_equal (@rev Z)) in Et. rewrite rev_involutive, H2 in Et. done. }
  simpl in Hw. exists d, t'. split; [done|]. by injection Hw as <- _.
Qed.

Lemma infix_rev p s : infix p s → infix (rev p) (rev s).
Proof. intros (a & b & ->). exists (rev b), (rev a). by rewrite !rev_app_distr, <- app_assoc. Qed.

Lemma infix_trimStart p s : solid_start p → infix p s → infix p (trimStart s).
Proof.
  intros Hp (a & b & ->). induction a as [|c a IH]; simpl.
  - rewrite trimStart_keeps; [by exists [], b|]. destruct Hp as (c & p' & -> & Hc). by exists c, (p' ++ b).
  - destruct (is_ws c); [done|]. by exists (c :: a), b.
Qed.

Lemma infix_trim p s : solid p → infix p s → infix p (trim s).
Proof.
  intros [Hs He] H. unfold trim, trimEnd. rewrite <- (rev_involutive p).
  by apply infix_rev, infix_trimStart, infix_rev, infix_trimStart.
Qed.

Lemma solid_nonempty s : solid s → s ≠ [].
Proof. by intros [(c & s' & -> & _) _]. Qed.

Lemma nonempty_true s : nonempty s = true ↔ s ≠ [].
Proof. unfold nonempty. case_bool_decide; naive_solver. Qed.

Lemma nonempty_false s : nonempty s = false ↔ s = [].
Proof. unfold nonempty. case_bool_decide; naive_solver. Qed.

Lemma solid_join a m b : solid a → solid b → solid (a ++ m ++ b).
Proof.
  intros [(c & a' & -> & Hc) _] [_ (d & b' & E & Hd)]. split; [by exists c, (a' ++ m ++ b)|].
  rewrite !rev_app_distr, E. by eexists d, _.
Qed.

Lemma trimmed_pieces l : Forall solid (List.filter nonempty (map trim l)).
Proof.
  apply Forall_forall. intros s Hs. apply list_elem_of_In, filter_In in Hs as [Hs Hne].
  apply in_map_iff in Hs as (t & <- & _). apply nonempty_true in Hne.
  by destruct (trim_solid t).
Qed.

Lemma inks_trimmed l : inks (List.filter nonempty (map trim l)) = inks l.
Proof.
  induction l as [|s l IH]; [done|]. simpl. destruct (nonempty (trim s)) eqn:E.
  - unfold inks in *. simpl. by rewrite IH, ink_trim.
  - apply nonempty_false in E. rewrite IH. unfold inks. simpl.
    by rewrite <- (ink_trim s), E.
Qed.

(** ** Splitting loses white space only *)
Lemma run_length_take p s : Forall (λ c, p c = true) (take (run_length p s) s).
Proof. induction s as [|c s IH]; simpl; [constructor|]. destruct (p c) eqn:E; simpl; constructor; auto. Qed.

Definition blank (s : text) : Prop := ink s = [].

Lemma blank_forall s : Forall (λ c, is_ws c = true) s → blank s.
Proof. induction 1 as [|c s Hc _ IH]; [done|]. unfold blank. simpl. by rewrite Hc. Qed.

Lemma blank_line_ws prev s k : blank_line prev s = Some k → blank (take k s).
Proof.
  unfold blank_line. intros H. repeat (case_match; try discriminate). simplify_eq.
  apply blank_forall. simpl. constructor; [done|].
  match goal with H : run_length _ (drop ?w ?s) = S ?n |- _ =>
    pose proof (run_length_take (λ c, (c =? 32) || (c =? 9)) s) as H1;
    pose proof (run_length_take (Z.eqb 10) (drop w s)) as H2; rewrite H in H2;
    rewrite <- (take_drop w s) at 2; rewrite take_app, length_take end.
  apply Forall_app. split.
  - apply Forall_take. eapply Forall_impl; [exact H1|]. simpl.
    by intros c [->%Z.eqb_eq| ->%Z.eqb_eq]%orb_true_iff.
  - match goal with |- Forall _ (take ?n _) => eapply (Forall_impl (λ c, (10 =? c) = true)) end.
    + eapply incl_Forall; [|exact H2].
      intros c Hc. apply list_elem_of_In. apply list_elem_of_In in Hc.
      apply elem_of_take in Hc as (i & Hi & Hlt). apply elem_of_take. exists i. split; [done|].
      pose proof (lookup_lt_Some _ _ _ Hi) as Hd. rewrite length_drop in Hd. lia.
    + intros c Hc. by apply Z.eqb_eq in Hc as <-.
Qed.

Lemma sentence_break_ws prev s k : sentence_break prev s = Some k → blank (take k s).
Proof.
  unfold sentence_break. intros H. destruct prev; [|discriminate].
  pose proof (run_length_take is_ws s) as Hw.
  destruct (run_length is_ws s) as [|w]; [discriminate|].
  repeat (case_match; try discriminate). simplify_eq. by apply blank_forall.
Qed.

Lemma inks_split m (Hm : ∀ prev s k, m prev s = Some k → blank (take k s)) :
  ∀ s prev skip acc, blank (take skip s) →
    inks (split_re m prev skip acc s) = ink (rev acc) ++ ink s.
Proof.
  induction s as [|c s IH]; intros prev skip acc Hs; simpl.
  { unfold inks. simpl. done. }
  destruct skip as [|k].
  - destruct (m prev (c :: s)) as [[|k]|] eqn:E.
    1, 3: rewrite IH by done; simpl; rewrite ink_app, <- app_assoc; f_equal; simpl; by destruct (is_ws c).
    apply Hm in E. unfold blank in E. simpl in E. destruct (is_ws c) eqn:Ec; [|discriminate].
    simpl in *. change (inks (rev acc :: ?l)) with (ink (rev acc) ++ inks l).
    by rewrite IH.
  - unfold blank in Hs. simpl in Hs. destruct (is_ws c) eqn:Ec; [|discriminate].
    simpl in *. by rewrite IH.
Qed.

Lemma inks_paragraphs s : inks (paragraphs s) = ink s.
Proof. unfold paragraphs. rewrite inks_trimmed. by rewrite (inks_split _ blank_line_ws). Qed.

Lemma inks_sentences s : inks (sentences s) = ink s.
Proof. unfold sentences. rewrite inks_trimmed. by rewrite (inks_split _ sentence_break_ws). Qed.

(** ** The hard cut ends, and its parts fit *)
Lemma indexOf_space_bound s : -1 <= indexOf_space s < len s ∨ s = [] ∧ indexOf_space s = -1.
Proof.
  unfold len. induction s as [|c s IH]; [by right|]. left. simpl.
  destruct (c =? 32); [lia|]. destruct IH as [IH|[-> IH]]; simpl.
  - destruct (Z.eqb_spec (indexOf_space s) (-1)); lia.
  - simpl. lia.
Qed.

Lemma slice_to_len k s : 0 <= k → len (slice_to k s) = k `min` len s.
Proof.
  intros Hk. unfold slice_to, slice_index, len. replace (k <? 0) with false by lia.
  rewrite length_take. lia.
Qed.

Lemma cut_point_bound limit rest : 1 <= limit → 1 <= cut_point limit rest <= limit.
Proof.
  intros Hl. unfold cut_point. case_match eqn:E; bool_prop; [|lia].
  revert E. unfold lastIndexOf_space. set (w := slice_to limit rest).
  assert (len w <= limit) by (unfold w; rewrite slice_to_len by lia; lia).
  pose proof (indexOf_space_bound (rev w)) as Hb. unfold len in *. rewrite length_rev in Hb.
  destruct (Z.eqb_spec (indexOf_space (rev w)) (-1)); [lia|].
  destruct Hb as [Hb|[_ Hb]]; lia.
Qed.

Lemma slice_split k s : 0 <= k → slice_to k s ++ slice_from k s = s.
Proof. intros _. apply take_drop. Qed.

Lemma slice_from_len k s : 0 <= k → len (slice_from k s) = (len s - k) `max` 0.
Proof.
  intros Hk. unfold slice_from, slice_index, len. replace (k <? 0) with false by lia.
  rewrite length_drop. lia.
Qed.

Definition fits (limit : Z) (s : text) : Prop := solid s ∧ len s <= limit.

Lemma cut_loop_spec limit fuel rest :
  1 <= limit → rest = [] ∨ solid rest → (length rest <= fuel)%nat →
  ∃ parts, cut_loop fuel limit rest = Some parts ∧ Forall (fits limit) parts ∧ inks parts = ink rest.
Proof.
  intros Hl. revert rest. induction fuel as [|fuel IH]; intros rest Hr Hf; simpl.
  - destruct rest; [|simpl in Hf; lia]. rewrite (proj2 (Z.leb_le (len []) limit)) by (unfold len; simpl; lia).
    exists []. split; [done|]. split; [constructor|done].
  - destruct (Z.leb_spec (len rest) limit) as [Hle|Hgt].
    { eexists. split; [done|]. destruct (nonempty rest) eqn:E.
      - apply nonempty_true in E. split; [|unfold inks; simpl; by rewrite app_nil_r].
        constructor; [|done]. split; [by destruct Hr|done].
      - apply nonempty_false in E as ->. done. }
    pose proof (cut_point_bound limit rest Hl) as Hc. set (cut := cut_point limit rest) in *.
    destruct Hr as [->|Hr]; [unfold len in Hgt; simpl in Hgt; lia|].
    destruct (IH (trim (slice_from cut rest))) as (parts & -> & Hp & Hi).
    { apply trim_solid. }
    { pose proof (trim_len (slice_from cut rest)) as Ht. rewrite slice_from_len in Ht by lia.
      unfold len in *. lia. }
    exists (trim (slice_to cut rest) :: parts). split; [done|]. split.
    + constructor; [|done].
      pose proof (trim_len (slice_to cut rest)) as Ht. rewrite slice_to_len in Ht by lia.
      split; [|lia]. destruct (trim_solid (slice_to cut rest)) as [E|]; [|done]. exfalso.
      destruct Hr as [(c & r & -> & Hcw) _].
      assert (Hink : ink (slice_to cut (c :: r)) = []) by (by rewrite <- ink_trim, E).
      unfold slice_to, slice_index in Hink. replace (cut <? 0) with false in Hink by lia.
      destruct (Z.to_nat cut) eqn:Ez; [lia|]. simpl in Hink. by rewrite Hcw in Hink.
    + change (inks (?a :: parts)) with (ink a ++ inks parts).
      rewrite Hi, !ink_trim, <- ink_app, slice_split by lia. done.
Qed.

Lemma hardCut_spec limit s :
  1 <= limit → solid s →
  ∃ parts, hardCut s limit = Some parts ∧ Forall (fits limit) parts ∧ inks parts = ink s.
Proof.
  intros Hl Hs. unfold hardCut. destruct (Z.leb_spec (len s) limit).
  - eexists. split; [done|]. split; [by apply Forall_singleton|].
    unfold inks. simpl. by rewrite app_nil_r.
  - apply cut_loop_spec; auto.
Qed.

(** With a limit of zero the loop never ends. *)
Lemma cut_loop_zero fuel : cut_loop fuel 0 [97; 98] = None.
Proof. 
  induction fuel as [|fuel IH]; [done|].
  change (cut_loop (S fuel) 0 [97; 98]) with (parts ← cut_loop fuel 0 [97; 98]; Some (@nil Z :: parts)).
  by rewrite IH.
Qed.

(** A fallible map all of whose images satisfy a predicate and keep the ink. *)
Lemma mapM_pieces (f : text → option (list text)) (Q P : text → Prop) l :
  (∀ s, Q s → ∃ parts, f s = Some parts ∧ Forall P parts ∧ inks parts = ink s) →
  Forall Q l →
  ∃ parts, mapM f l = Some parts ∧ Forall P (concat parts) ∧ inks (concat parts) = inks l.
Proof.
  intros Hf. induction 1 as [|s l Hs _ IH]; [by exists []|].
  destruct (Hf s Hs) as (p & Ep & HP & Hi). destruct IH as (ps & Eps & HPs & His).
  exists (p :: ps). simpl. rewrite Ep. simpl. rewrite Eps. split; [done|].
  rewrite inks_app, His, Hi. split; [|done]. by apply Forall_app.
Qed.

Lemma pack_spec limit parts current :
  Forall (fits limit) parts → current = [] ∨ fits limit current →
  Forall (fits limit) (pack limit current parts) ∧
  inks (pack limit current parts) = ink current ++ inks parts.
Proof.
  intros Hp. revert current. induction Hp as [|p parts [Hp Hpl] _ IH]; intros current Hc; simpl.
  - destruct (nonempty current) eqn:E.
    + apply nonempty_true in E. split; [constructor; [by destruct Hc|done]|done].
    + apply nonempty_false in E as ->. done.
  - unfold join_space. destruct (nonempty current) eqn:E.
    + apply nonempty_true in E. destruct Hc as [|[Hc Hcl]]; [done|].
      rewrite andb_true_r. destruct (Z.ltb_spec limit (len (current ++ [32] ++ p))).
      * destruct (IH p) as [H1 H2]; [by right|]. split; [by constructor|].
        unfold inks in *. simpl. by rewrite H2.
      * destruct (IH (current ++ [32] ++ p)) as [H1 H2]; [right; split; [by apply solid_join|done]|].
        split; [done|]. rewrite H2, !ink_app. unfold inks. simpl. by rewrite <- app_assoc.
    + apply nonempty_false in E as ->. rewrite andb_false_r.
      destruct (IH p) as [H1 H2]; [by right|]. split; [done|]. by rewrite H2.
Qed.

Lemma split_spec limit s :
  1 <= limit → solid s →
  ∃ pieces, split s limit = Some pieces ∧ Forall (fits limit) pieces ∧ inks pieces = ink s.
Proof.
  intros Hl Hs. unfold split. destruct (Z.leb_spec (len s) limit).
  - eexists. split; [done|]. split; [by apply Forall_singleton|].
    unfold inks. simpl. by rewrite app_nil_r.
  - destruct (mapM_pieces (λ x, hardCut x limit) solid (fits limit) (sentences s)) as (ps & -> & Hp & Hi).
    { intros x. by apply hardCut_spec. }
    { apply trimmed_pieces. }
    destruct (pack_spec limit (concat ps) []) as [H1 H2]; [done|by left|].
    eexists. split; [done|]. split; [done|]. by rewrite H2, Hi, inks_sentences.
Qed.

Lemma pieces_of_spec limit s :
  1 <= limit →
  ∃ pieces, pieces_of s limit = Some pieces ∧ Forall (fits limit) pieces ∧ inks pieces = ink s.
Proof.
  intros Hl.
  destruct (mapM_pieces (λ x, split x limit) solid (fits limit) (paragraphs s)) as (ps & E & Hp & Hi).
  { intros x. by apply split_spec. }
  { apply trimmed_pieces. }
  exists (concat ps). unfold pieces_of. rewrite E. split; [done|]. split; [done|].
  by rewrite Hi, inks_paragraphs.
Qed.

(** ** Assembling the chunks *)
Lemma infix_refl_r p a : infix p (a ++ p).
Proof. exists a, []. by rewrite app_nil_r. Qed.

Lemma infix_app_r p a b : infix p a → infix p (a ++ b).
Proof. intros (x & y & ->). exists x, (y ++ b). by rewrite !app_assoc. Qed.

Lemma join_blank_piece current piece : infix piece (join_blank current piece).
Proof.
  unfold join_blank. destruct (nonempty current); [rewrite app_assoc; apply infix_refl_r|].
  exists [], []. by rewrite app_nil_r.
Qed.

Lemma join_blank_current p current piece : p ≠ [] → infix p current → infix p (join_blank current piece).
Proof.
  intros Hp Hi. unfold join_blank. destruct (nonempty current) eqn:E; [by apply infix_app_r|].
  apply nonempty_false in E as ->. destruct Hi as (a & b & Hi). destruct a, p; done.
Qed.

Lemma join_blank_len current piece : len (join_blank current piece) <= len current + 2 + len piece.
Proof. unfold join_blank, len. destruct (nonempty current); rewrite ?length_app; simpl; lia. Qed.

Lemma tail_len s n : len (tail s n) <= n `max` 0.
Proof.
  unfold tail. destruct (Z.leb_spec n 0); simpl; [unfold len; simpl; lia|].
  destruct (Z.leb_spec (len s) n); [lia|].
  set (w := slice_from (- n) s).
  assert (Hw : len w = n).
  { unfold w, slice_from, slice_index, len in *. replace (- n <? 0) with true by lia.
    rewrite length_drop. lia. }
  set (t := if indexOf_space w =? -1 then w else slice_from (indexOf_space w + 1) w).
  assert (length t <= length w)%nat.
  { unfold t. destruct (indexOf_space w =? -1); [done|]. unfold slice_from. rewrite length_drop. lia. }
  pose proof (trimStart_length t). unfold len in *. lia.
Qed.

Lemma infix_nonempty p s : p ≠ [] → infix p s → s ≠ [].
Proof. intros Hp (a & b & ->). destruct a, p; done. Qed.

Lemma trim_with_piece current piece : solid piece → trim (join_blank current piece) ≠ [].
Proof.
  intros Hp. apply (infix_nonempty piece); [by apply solid_nonempty|].
  apply infix_trim; [done|]. apply join_blank_piece.
Qed.

Lemma assemble_covers o pieces current p :
  Forall solid pieces → solid p → p ∈ pieces ∨ infix p current →
  ∃ c, c ∈ assemble o pieces current ∧ infix p c.
Proof.
  intros Hs Hp. revert current. induction Hs as [|piece pieces Hpc _ IH]; intros current Hin; simpl.
  - destruct Hin as [Hin|Hin]; [by apply elem_of_nil in Hin|].
    apply infix_trim in Hin; [|done]. exists (trim current). split; [|done].
    rewrite (proj2 (nonempty_true _)); [by apply list_elem_of_singleton|].
    eapply infix_nonempty; [by apply solid_nonempty|done].
  - assert (Hnext : p ∈ piece :: pieces → ∀ cur, p ∈ pieces ∨ infix p (join_blank cur piece)).
    { intros [->|?]%elem_of_cons cur; [right; apply join_blank_piece|by left]. }
    destruct (target o <? len (join_blank current piece)); simpl.
    + destruct (nonempty (trim current)) eqn:E; simpl.
      * destruct Hin as [Hin|Hin].
        -- destruct (IH (join_blank (tail current (overlap o)) piece)) as (c & Hc & Hi); [by apply Hnext|].
           exists c. split; [by right|done].
        -- exists (trim current). split; [by left|by apply infix_trim].
      * apply IH. destruct Hin as [Hin|Hin]; [by apply Hnext|].
        right. apply join_blank_current; [by apply solid_nonempty|done].
    + apply IH. destruct Hin as [Hin|Hin]; [by apply Hnext|].
      right. apply join_blank_current; [by apply solid_nonempty|done].
Qed.

Lemma assemble_bound o pieces current :
  0 <= overlap o → Forall (fits (target o)) pieces →
  current = [] ∨ trim current ≠ [] ∧ len current <= maxChunkLength o →
  Forall (λ c, c ≠ [] ∧ trim c = c ∧ len c <= maxChunkLength o) (assemble o pieces current).
Proof.
  intros Ho Hf. unfold maxChunkLength.
  assert (Hgood : ∀ s, trim s ≠ [] → len s <= target o + overlap o + 2 →
            trim s ≠ [] ∧ trim (trim s) = trim s ∧ len (trim s) <= target o + overlap o + 2).
  { intros s Hne Hl. split; [done|]. pose proof (trim_len s). split; [|lia].
    destruct (trim_solid s) as [|[H1 H2]]; [done|].
    set (u := trim s) in *. unfold trim at 1, trimEnd.
    rewrite (trimStart_keeps u), (trimStart_keeps (rev u)) by done. apply rev_involutive. }
  revert current. induction Hf as [|piece pieces [Hp Hpl] _ IH]; intros current Hc; simpl.
  - destruct (nonempty (trim current)) eqn:E; [|constructor].
    apply nonempty_true in E. apply Forall_singleton. apply Hgood; [done|].
    destruct Hc as [->|[_ Hc]]; [by contradiction E|done].
  - destruct (Z.ltb_spec (target o) (len (join_blank current piece))); simpl.
    + destruct (nonempty (trim current)) eqn:E; simpl.
      * apply nonempty_true in E. destruct Hc as [->|[_ Hc]]; [by contradiction E|].
        constructor; [by apply Hgood|]. apply IH. right. split; [by apply trim_with_piece|].
        pose proof (join_blank_len (tail current (overlap o)) piece).
        pose proof (tail_len current (overlap o)). lia.
      * apply nonempty_false in E. destruct Hc as [->|[Hc _]]; [|done].
        apply IH. right. split; [by apply trim_with_piece|]. unfold join_blank. simpl. lia.
    + apply IH. right. split; [by apply trim_with_piece|]. lia.
Qed.

(** C37.  Chunking always finishes when the target is positive, and loses nothing:
    the pieces it cuts a document into hold every character of it that is not
    white space, in order, and each piece stands whole in some chunk.  The
    chunks are numbered from zero; each is non-empty, trimmed and at most
    [maxChunkLength] long. *)
Theorem chunks_cover_the_document (s : text) (o : ChunkOptions) :
  1 <= target o → 0 <= overlap o →
  ∃ pieces chunks,
    pieces_of s (target o) = Some pieces ∧ chunkText s o = Some chunks ∧
    concat (map ink pieces) = ink s ∧
    (∀ p, p ∈ pieces → ∃ c, c ∈ chunks ∧ infix p (tc_content c)) ∧
    map tc_index chunks = seq 0 (length chunks) ∧
    Forall (λ c, tc_content c ≠ [] ∧ trim (tc_content c) = tc_content c ∧
                 len (tc_content c) <= maxChunkLength o) chunks.
Proof.
  intros Ht Ho. destruct (pieces_of_spec (target o) s Ht) as (pieces & E & Hf & Hi).
  set (mk := λ i c, {| tc_index := i; tc_content := c |}).
  exists pieces, (imap mk (assemble o pieces [])). rewrite E. split; [done|].
  assert (Hs : Forall solid pieces) by (eapply Forall_impl; [exact Hf|by intros ? [? _]]).
  split.
  { unfold chunkText. rewrite E. simpl. by case_bool_decide as He; [rewrite He|]. }
  split; [exact Hi|]. split; [|split].
  - intros p Hp. assert (Hps : solid p) by (by eapply Forall_forall in Hs).
    destruct (assemble_covers o pieces [] p Hs Hps) as (c & Hc & Hinf); [by left|].
    apply list_elem_of_lookup_1 in Hc as [i Hc]. exists (mk i c). split; [|done].
    apply list_elem_of_lookup_2 with i. by rewrite list_lookup_imap, Hc.
  - rewrite length_imap. apply list_eq. intros i. rewrite list_lookup_fmap, list_lookup_imap.
    destruct (assemble o pieces [] !! i) eqn:Ei; simpl.
    + symmetry. apply lookup_seq. split; [done|]. by apply lookup_lt_Some in Ei.
    + symmetry. apply lookup_seq_ge. by apply lookup_ge_None in Ei.
  - apply Forall_lookup. intros i c Hc. rewrite list_lookup_imap in Hc.
    destruct (assemble o pieces [] !! i) eqn:Ei; [|done]. injection Hc as <-. simpl.
    pose proof (assemble_bound o pieces [] Ho Hf (or_introl eq_refl)) as Hb.
    by eapply Forall_lookup in Hb.
Qed.

(** The text One. Two. Three. in chunks of at most six characters. *)
Definition sample : text := [79; 110; 101; 46; 32; 84; 119; 111; 46; 10; 10; 84; 104; 114; 101; 101; 101; 101; 46].

Example sample_chunks :
  map tc_content <$> chunkText sample {| target := 6; overlap := 2 |} =
  Some [[79; 110; 101; 46]; [101; 46; 10; 10; 84; 119; 111; 46]; [111; 46; 10; 10; 84; 104; 114; 101; 101; 101];
        [101; 101; 10; 10; 101; 46]].
Proof. vm_compute. reflexivity. Qed.

Lemma chunks_cover_the_document_witness :
  1 <= 6 ∧
  ∃ chunks, chunkText sample {| target := 6; overlap := 2 |} = Some chunks ∧ length chunks = 4%nat ∧
    Forall (λ c, len (tc_content c) <= 10) chunks.
Proof.
  split; [done|].
  destruct (chunks_cover_the_document sample {| target := 6; overlap := 2 |}) as
    (pieces & chunks & _ & E & _ & _ & _ & Hb); [done|done|].
  exists chunks. split; [exact E|]. split.
  - assert (H : length <$> chunkText sample {| target := 6; overlap := 2 |} = Some 4%nat)
      by (vm_compute; reflexivity).
    rewrite E in H. by apply (inj Some) in H.
  - eapply Forall_impl; [exact Hb|]. by intros c (_ & _ & H).
Defined.
