(* ===== verification/Ranking.v ===== *)
(** * Ranking memories and knowledge

    Models packages/memory/src/ranking.ts and similarity.ts and
    packages/knowledge/src/retrieval.ts.  Scores are rationals where the code
    has doubles; [Math.pow(0.5, .)] and [Math.sqrt] are parameters. *)
From Stdlib Require Import Qminmax.
From S2P Require Import Prelude Text.

#[local] Open Scope Q_scope.

(** ** Words *)
Definition apostrophe : Ascii.ascii := Ascii.ascii_of_nat 39.

Definition word_char (c : Ascii.ascii) : bool := is_lower c || is_digit c || Ascii.eqb c apostrophe.

(** [s.split(/[^...]+/)]: one boundary per maximal run of separators. *)
Fixpoint split_runs (keep : Ascii.ascii → bool) (in_sep : bool) (acc s : string) : list string :=
  match s with
  | EmptyString => [acc]
  | String c s' =>
      if keep c then split_runs keep false (acc +:+ String c EmptyString) s'
      else if in_sep then split_runs keep true acc s'
      else acc :: split_runs keep true EmptyString s'
  end.

Fixpoint drop_quotes (s : string) : string :=
  match s with
  | String c s' => if Ascii.eqb c apostrophe then drop_quotes s' else s
  | EmptyString => EmptyString
  end.
Definition strip_quotes (s : string) : string := String.rev (drop_quotes (String.rev (drop_quotes s))).

Definition STOP_WORDS : list string :=
  ["the"; "a"; "an"; "and"; "or"; "but"; "is"; "are"; "was"; "were"; "be"; "been";
   "to"; "of"; "in"; "on"; "at"; "for"; "with"; "about"; "as"; "by"; "from";
   "that"; "this"; "it"; "i"; "you"; "my"; "your"; "me"; "we"; "do"; "does"; "did";
   "what"; "when"; "where"; "who"; "how"; "why"].

Definition tokenise (text : string) : list string :=
  List.filter (λ word, (1 <? String.length word)%nat && negb (existsb (String.eqb word) STOP_WORDS))
    (map strip_quotes (split_runs word_char false EmptyString (toLowerCase text))).

Definition overlap (queryTerms contentTerms : list string) : Q :=
  if bool_decide (queryTerms = []) then 0
  else
    let hits := List.filter (λ term, existsb (String.eqb term) contentTerms) queryTerms in
    inject_Z (Z.of_nat (length hits)) / inject_Z (Z.of_nat (length queryTerms)).

(** ** Vectors *)
Inductive EmbeddingMismatchError := mismatch (left right : nat).

Definition dot (a b : list Q) : Q := foldr Qplus 0 (zip_with Qmult a b).

Definition cosine (sqrt : Q → Q) (a b : list Q) : outcome EmbeddingMismatchError Q :=
  if negb (length a =? length b)%nat then Throw (mismatch (length a) (length b))
  else if (length a =? 0)%nat then Ret 0
  else if Qeq_bool (dot a a) 0 || Qeq_bool (dot b b) 0 then Ret 0
  else Ret (dot a b / (sqrt (dot a a) * sqrt (dot b b))).

(** The similarity of retrieval.ts and memory-service.ts: absent unless both
    vectors are there and have the same length. *)
Definition similarityOf (sqrt : Q → Q) (stored query : option (list Q)) : option Q :=
  match stored, query with
  | Some s, Some q => if negb (length s =? length q)%nat then None else ret_value (cosine sqrt s q)
  | _, _ => None
  end.

Definition key_char (c : Ascii.ascii) : bool := is_lower c || is_digit c.

(** [replace(/[^a-z0-9]+/g, '_')]. *)
Fixpoint underscore_runs (in_run : bool) (s : string) : string :=
  match s with
  | EmptyString => EmptyString
  | String c s' =>
      if key_char c then String c (underscore_runs false s')
      else if in_run then underscore_runs true s'
      else String "_" (underscore_runs true s')
  end.
Definition embeddingKey (providerType modelId : string) : string :=
  underscore_runs false (toLowerCase (providerType +:+ "_" +:+ modelId)).

(** ** Scores *)
Record Weights := { w_similarity : Q; w_lexical : Q; w_recency : Q }.
Record Parts := { p_similarity : Q; p_lexical : Q; p_recency : Q }.
Definition base_score (w : Weights) (p : Parts) : Q :=
  p_similarity p * w_similarity w + p_lexical p * w_lexical w + p_recency p * w_recency w.

Definition MEMORY_WEIGHTS : Weights := {| w_similarity := 6 # 10; w_lexical := 3 # 10; w_recency := 1 # 10 |}.
Definition MEMORY_WEIGHTS_WITHOUT_VECTORS : Weights :=
  {| w_similarity := 0; w_lexical := 85 # 100; w_recency := 15 # 100 |}.
Definition HALF_LIFE_DAYS : Q := 30.

Definition clamp01 (v : Q) : Q := Qmin 1 (Qmax 0 v).
Definition nudge (importance : Q) : Q := (8 # 10) + (4 # 10) * clamp01 importance.

Record RankInput := { ri_content : string; ri_importance : Q; ri_validFrom : Z; ri_similarity : option Q }.
Record Scored (T : Type) := { sc_item : T; sc_score : Q; sc_parts : Parts }.
Arguments sc_item {T} _.
Arguments sc_score {T} _.
Arguments sc_parts {T} _.

(** Descending by score; JavaScript's sort is stable. *)
Definition by_score {T} (a b : Scored T) : bool := Qle_bool (sc_score b) (sc_score a).

Section rank.
Context (pow_half : Q → Q) {T : Type} (view : T → RankInput).

Definition decay (at_ now : Z) : Q :=
  let days := Qmax 0 (inject_Z (now - at_) / 86400000) in
  pow_half (days / HALF_LIFE_DAYS).

Definition parts_of (terms : list string) (now : Z) (item : T) : Parts := {|
  p_similarity := Qmax 0 (default 0 (ri_similarity (view item)));
  p_lexical := overlap terms (tokenise (ri_content (view item)));
  p_recency := decay (ri_validFrom (view item)) now |}.

Definition weights_for (items : list T) : Weights :=
  if existsb (λ item, bool_decide (is_Some (ri_similarity (view item)))) items
  then MEMORY_WEIGHTS else MEMORY_WEIGHTS_WITHOUT_VECTORS.

Definition score_item (w : Weights) (terms : list string) (now : Z) (item : T) : Scored T :=
  let parts := parts_of terms now item in
  {| sc_item := item; sc_score := base_score w parts * nudge (ri_importance (view item)); sc_parts := parts |}.

Definition rank (query : string) (items : list T) (now : Z) : list (Scored T) :=
  stable_sort by_score (map (score_item (weights_for items) (tokenise query) now) items).
End rank.

(** ** Chunks of documents *)
Definition CHUNK_WEIGHTS : Weights := {| w_similarity := 7 # 10; w_lexical := 3 # 10; w_recency := 0 |}.
Definition CHUNK_WEIGHTS_WITHOUT_VECTORS : Weights := {| w_similarity := 0; w_lexical := 1; w_recency := 0 |}.
Definition CHUNK_RELEVANCE_FLOOR : Q := 12 # 100.

Section rankChunks.
Context {T : Type} (content : T → string) (similarity : T → option Q).

(** A chunk has no recency part. *)
Definition score_chunk (w : Weights) (terms : list string) (item : T) : Scored T :=
  let parts := {| p_similarity := Qmax 0 (default 0 (similarity item));
                  p_lexical := overlap terms (tokenise (content item)); p_recency := 0 |} in
  {| sc_item := item; sc_score := base_score w parts; sc_parts := parts |}.

Definition rankChunks (query : string) (items : list T) : list (Scored T) :=
  let terms := tokenise query in
  let w := if existsb (λ item, bool_decide (is_Some (similarity item))) items
           then CHUNK_WEIGHTS else CHUNK_WEIGHTS_WITHOUT_VECTORS in
  stable_sort by_score
    (List.filter (λ r, Qle_bool CHUNK_RELEVANCE_FLOOR (sc_score r)) (map (score_chunk w terms) items)).
End rankChunks.

(** ** Lemmas *)
Lemma by_score_total {T} (a b : Scored T) : by_score a b = false → by_score b a = true.
Proof.
  unfold by_score. intros H. apply Qle_bool_iff. destruct (Qlt_le_dec (sc_score a) (sc_score b)) as [|Hle].
  - by apply Qlt_le_weak.
  - apply Qle_bool_iff in Hle. congruence.
Qed.

Lemma by_score_trans {T} (a b c : Scored T) : by_score a b = true → by_score b c = true → by_score a c = true.
Proof. unfold by_score. rewrite !Qle_bool_iff. intros. by eapply Qle_trans. Qed.

(** Best first: whatever follows scores no higher. *)
Lemma by_score_sorted {T} (l : list (Scored T)) :
  StronglySorted (λ a b, sc_score b <= sc_score a) (stable_sort by_score l).
Proof.
  assert (Hs : StronglySorted (λ a b, by_score a b = true) (stable_sort by_score l)).
  { apply Sorted_StronglySorted; [intros ? ? ?; apply by_score_trans|].
    apply stable_sort_sorted. intros ? ?. apply by_score_total. }
  induction Hs as [|x l' _ IH Hf]; constructor; [done|].
  eapply Forall_impl; [exact Hf|]. intros y. apply Qle_bool_iff.
Qed.

Lemma filter_length_le {A} (p : A → bool) l : (length (List.filter p l) <= length l)%nat.
Proof. induction l as [|x l IH]; simpl; [lia|]. destruct (p x); simpl; lia. Qed.

Lemma overlap_range q c : 0 <= overlap q c <= 1.
Proof.
  unfold overlap. case_bool_decide as E; [split; discriminate|].
  set (h := List.filter _ _). pose proof (filter_length_le (λ term, existsb (String.eqb term) c) q) as Hl.
  fold h in Hl. assert (0 < Z.of_nat (length q))%Z by (destruct q; [done|simpl; lia]).
  split.
  - apply Qle_shift_div_l; [by rewrite <- (Zlt_Qlt 0)|]. rewrite Qmult_0_l. rewrite <- (Zle_Qle 0). lia.
  - apply Qle_shift_div_r; [by rewrite <- (Zlt_Qlt 0)|]. rewrite Qmult_1_l. rewrite <- Zle_Qle. lia.
Qed.

Lemma nudge_range i : (8 # 10) <= nudge i <= (12 # 10).
Proof.
  unfold nudge, clamp01.
  pose proof (Q.le_min_l 1 (Qmax 0 i)). pose proof (Q.le_max_l 0 i).
  assert (0 <= Qmin 1 (Qmax 0 i)) by (apply Q.min_glb; [discriminate|done]).
  split; lra.
Qed.

Section rank_lemmas.
Context (pow_half : Q → Q) (pow_half_pos : ∀ x, 0 <= pow_half x) {T : Type} (view : T → RankInput).

Lemma base_nonneg terms now items item : 0 <= base_score (weights_for view items) (parts_of pow_half view terms now item).
Proof.
  pose proof (Q.le_max_l 0 (default 0 (ri_similarity (view item)))) as H1.
  pose proof (proj1 (overlap_range terms (tokenise (ri_content (view item))))) as H2.
  pose proof (pow_half_pos (Qmax 0 (inject_Z (now - ri_validFrom (view item)) / 86400000) / HALF_LIFE_DAYS)) as H3.
  unfold base_score, weights_for, parts_of, decay. destruct (existsb _ items); simpl; lra.
Qed.

Lemma rank_elem query items now r :
  r ∈ rank pow_half view query items now →
  sc_item r ∈ items ∧ r = score_item pow_half view (weights_for view items) (tokenise query) now (sc_item r).
Proof.
  unfold rank. rewrite elem_of_stable_sort. intros (item & -> & Hin)%list_elem_of_fmap. done.
Qed.

Lemma rank_sorted query items now :
  StronglySorted (λ a b, sc_score b <= sc_score a) (rank pow_half view query items now).
Proof. apply by_score_sorted. Qed.

Lemma rank_perm query items now : map sc_item (rank pow_half view query items now) ≡ₚ items.
Proof.
  unfold rank. rewrite (stable_sort_perm by_score). rewrite map_map. simpl. by rewrite map_id.
Qed.
End rank_lemmas.

Lemma sorted_lookup {A} (R : A → A → Prop) l i j a b :
  StronglySorted R l → (i < j)%nat → l !! i = Some a → l !! j = Some b → R a b.
Proof.
  intros Hs. revert i j. induction Hs as [|x l _ IH Hf]; intros i j Hij Hi Hj; [done|].
  destruct i as [|i], j as [|j]; try lia; simpl in *; simplify_eq.
  - rewrite Forall_forall in Hf. apply Hf. by eapply list_elem_of_lookup_2.
  - apply (IH i j); [lia|done..].
Qed.

(** Ranking keeps every memory and orders them by score; importance only
    reorders comparable ones: a memory whose relevance is more than one and a
    half times that of another comes before it, whatever their importance. *)
Theorem importance_only_nudges (pow_half : Q → Q) {T} (view : T → RankInput) query items now :
  (∀ x, 0 <= pow_half x) →
  let results := rank pow_half view query items now in
  let relevance r := base_score (weights_for view items) (sc_parts r) in
  map sc_item results ≡ₚ items ∧
  StronglySorted (λ a b, sc_score b <= sc_score a) results ∧
  ∀ i j a b, results !! i = Some a → results !! j = Some b →
    (3 # 2) * relevance b < relevance a → (i < j)%nat.
Proof.
  intros Hpow results relevance. split; [apply rank_perm|]. split; [apply rank_sorted|].
  intros i j a b Hi Hj Hr. destruct (decide (i < j)%nat) as [|Hij]; [done|]. exfalso.
  assert (Hab : sc_score a <= sc_score b).
  { destruct (decide (i = j)) as [->|]; [simplify_eq; apply Qle_refl|].
    apply (sorted_lookup _ results j i b a (rank_sorted pow_half view query items now)); [lia|done..]. }
  apply list_elem_of_lookup_2, rank_elem in Hi as [_ Ea].
  apply list_elem_of_lookup_2, rank_elem in Hj as [_ Eb].
  unfold relevance in Hr. rewrite Ea, Eb in Hab, Hr. simpl in Hab, Hr.
  pose proof (base_nonneg pow_half Hpow view (tokenise query) now items (sc_item b)) as Hb0.
  pose proof (base_nonneg pow_half Hpow view (tokenise query) now items (sc_item a)) as Ha0.
  revert Hab Hr Hb0 Ha0. generalize (base_score (weights_for view items) (parts_of pow_half view (tokenise query) now (sc_item a))).
  generalize (base_score (weights_for view items) (parts_of pow_half view (tokenise query) now (sc_item b))).
  intros x y Hab Hr Hx Hy.
  pose proof (nudge_range (ri_importance (view (sc_item a)))) as [Hna _].
  pose proof (nudge_range (ri_importance (view (sc_item b)))) as [_ Hnb].
  assert (y * (8 # 10) <= y * nudge (ri_importance (view (sc_item a)))) by (rewrite !(Qmult_comm y); by apply Qmult_le_compat_r).
  assert (x * nudge (ri_importance (view (sc_item b))) <= x * (12 # 10)) by (rewrite !(Qmult_comm x); by apply Qmult_le_compat_r).
  lra.
Qed.

(** Halving once per whole unit: a function with the shape of [0.5 ** x]. *)
Definition halvings (x : Q) : Q := if Qle_bool x 0 then 1 else 1 / inject_Z (2 ^ Qceiling x).

Lemma halvings_nonneg x : 0 <= halvings x.
Proof.
  unfold halvings. destruct (Qle_bool x 0); [discriminate|].
  destruct (Z.le_gt_cases 0 (Qceiling x)) as [H|H].
  - pose proof (Z.pow_pos_nonneg 2 (Qceiling x) eq_refl H).
    apply Qle_shift_div_l; [by rewrite <- (Zlt_Qlt 0)|]. rewrite Qmult_0_l. discriminate.
  - rewrite Z.pow_neg_r by done. discriminate.
Qed.

Definition henderson : RankInput :=
  {| ri_content := "The Henderson account renews in May"; ri_importance := 0; ri_validFrom := 0; ri_similarity := None |}.
Definition tables : RankInput :=
  {| ri_content := "Prefers tables in reports"; ri_importance := 1; ri_validFrom := 0; ri_similarity := None |}.

Lemma importance_only_nudges_witness :
  (∀ x, 0 <= halvings x) ∧
  map sc_item (rank halvings id "When does the Henderson account renew?" [tables; henderson] 0) = [henderson; tables].
Proof.
  split; [exact halvings_nonneg|].
  destruct (importance_only_nudges halvings id "When does the Henderson account renew?" [tables; henderson] 0 halvings_nonneg)
    as (_ & _ & H).
  set (score := score_item halvings id MEMORY_WEIGHTS_WITHOUT_VECTORS (tokenise "When does the Henderson account renew?") 0).
  assert (0 < 1)%nat as _ by (apply (H 0%nat 1%nat (score henderson) (score tables)); vm_compute; reflexivity).
  vm_compute. reflexivity.
Defined.

(** Two models of a provider whose names differ in punctuation only share the
    key their vectors are stored under. *)
Lemma embedding_keys_collide :
  embeddingKey "openai" "text-embedding.3" = embeddingKey "openai" "text-embedding-3" ∧
  embeddingKey "voyage_3" "large" = embeddingKey "voyage" "3-large".
Proof. split; vm_compute; reflexivity. Qed.

(** An entry without a vector scores exactly as one whose similarity is zero
    as soon as any other entry has a vector. *)
Lemma missing_vector_counts_as_zero pow_half terms now item :
  ri_similarity item = None →
  sc_score (score_item pow_half id MEMORY_WEIGHTS terms now item) =
  sc_score (score_item pow_half id MEMORY_WEIGHTS terms now
    {| ri_content := ri_content item; ri_importance := ri_importance item;
       ri_validFrom := ri_validFrom item; ri_similarity := Some 0 |}).
Proof. intros H. unfold score_item, parts_of. simpl. unfold id. by rewrite H. Qed.
