(* ===== verification/Memory.v ===== *)
(** * What an agent remembers

    Models packages/memory/src/entry.ts, packages/db/src/repositories/memory.ts
    and the memory source of apps/web/src/lib/memory-service.ts.  An entry is
    never rewritten, only closed; the partial unique index of indexes.ts (lines
    273-281) allows one current entry for each agent and key.  Closing and
    inserting are two writes, so [remember] takes, for every attempt, the
    writes other sessions make in between. *)
From S2P Require Import Prelude Mongo Ranking.

Record MemoryEntryDoc := {
  me_id : string;
  me_agentId : string;
  me_kind : string;
  me_key : option string;
  me_content : string;
  me_importance : Q;
  me_sourceRunId : option string;
  me_createdBy : option string;
  me_validFrom : Z;
  me_validTo : option Z;
  me_supersededBy : option string;
  me_embeddings : option (list (string * list Q));
}.

Record RememberInput := {
  rm_agentId : string;
  rm_kind : string;
  rm_key : option string;
  rm_content : string;
  rm_importance : Q;
  rm_sourceRunId : option string;
  rm_createdBy : option string;
  rm_embeddings : option (list (string * list Q));
}.

Definition DEFAULT_IMPORTANCE : Q := 1 # 2.
Definition MAX_SUPERSEDE_ATTEMPTS : nat := 3.
Definition RECALL_CANDIDATES : nat := 500.
Definition RELEVANCE_FLOOR : Q := 8 # 100.

Definition isCurrent (d : MemoryEntryDoc) : bool := bool_decide (me_validTo d = None).

(** entry.ts: only an explicit key replaces. *)
Definition keyed (key : option string) : bool :=
  match key with Some k => negb (String.eqb k "") | None => false end.
Definition supersedes (incoming existing : option string) : bool :=
  keyed incoming && bool_decide (incoming = existing).

(** The partial unique index on agent and key. *)
Definition key_clash (a b : MemoryEntryDoc) : bool :=
  isCurrent a && isCurrent b && bool_decide (is_Some (me_key a)) &&
  String.eqb (me_agentId a) (me_agentId b) && bool_decide (me_key a = me_key b).

Definition new_entry (input : RememberInput) (id : string) (now : Z) : MemoryEntryDoc := {|
  me_id := id; me_agentId := rm_agentId input; me_kind := rm_kind input; me_key := rm_key input;
  me_content := rm_content input; me_importance := rm_importance input; me_sourceRunId := rm_sourceRunId input;
  me_createdBy := rm_createdBy input; me_validFrom := now; me_validTo := None; me_supersededBy := None;
  me_embeddings := Some (default [] (rm_embeddings input)) |}.

Definition close_entry (now : Z) (by_ : option string) (d : MemoryEntryDoc) : MemoryEntryDoc := {|
  me_id := me_id d; me_agentId := me_agentId d; me_kind := me_kind d; me_key := me_key d; me_content := me_content d;
  me_importance := me_importance d; me_sourceRunId := me_sourceRunId d; me_createdBy := me_createdBy d;
  me_validFrom := me_validFrom d; me_validTo := Some now;
  me_supersededBy := match by_ with Some id => Some id | None => me_supersededBy d end; me_embeddings := me_embeddings d |}.

Definition with_embedding (modelKey : string) (vector : list Q) (d : MemoryEntryDoc) : MemoryEntryDoc := {|
  me_id := me_id d; me_agentId := me_agentId d; me_kind := me_kind d; me_key := me_key d; me_content := me_content d;
  me_importance := me_importance d; me_sourceRunId := me_sourceRunId d; me_createdBy := me_createdBy d;
  me_validFrom := me_validFrom d; me_validTo := me_validTo d; me_supersededBy := me_supersededBy d;
  me_embeddings := Some (jm_set modelKey vector (default [] (me_embeddings d))) |}.

Section Repository.
Context {C : Type} `{CollectionLaws MemoryEntryDoc C}.
Implicit Types (c : C) (d : MemoryEntryDoc).

Definition believes (agentId : string) (key : option string) d : bool :=
  String.eqb (me_agentId d) agentId && bool_decide (me_key d = key) && isCurrent d.

(** Closing the current entry of a key: whether there was one. *)
Definition close_current (agentId : string) (key : option string) (now : Z) (id : string) c : bool * C :=
  let '(before, c') := findOneAndUpdate (believes agentId key) any_order (close_entry now (Some id)) c in
  (bool_decide (is_Some before), c').

(** [#insert]; [false] is a duplicate-key error. *)
Definition insert_entry (input : RememberInput) (id : string) (now : Z) c : bool * C :=
  insertOne key_clash id (new_entry input id now) c.

Definition forget (agentId entryId : string) (now : Z) c : bool * C :=
  updateOne entryId (λ d, String.eqb (me_agentId d) agentId && isCurrent d) (close_entry now None) c.

Definition attachEmbedding (entryId modelKey : string) (vector : list Q) c : C :=
  (updateOne entryId (λ _, true) (with_embedding modelKey vector) c).2.

(** The writes of any session, in any order. *)
Inductive MemoryWrite :=
| w_close (agentId : string) (key : option string) (now : Z) (id : string)
| w_insert (input : RememberInput) (id : string) (now : Z)
| w_forget (agentId entryId : string) (now : Z)
| w_attach (entryId modelKey : string) (vector : list Q).

Definition apply_write (w : MemoryWrite) c : C :=
  match w with
  | w_close agentId key now id => (close_current agentId key now id c).2
  | w_insert input id now => (insert_entry input id now c).2
  | w_forget agentId entryId now => (forget agentId entryId now c).2
  | w_attach entryId modelKey vector => attachEmbedding entryId modelKey vector c
  end.
Definition apply_writes (ws : list MemoryWrite) c : C := foldl (λ c w, apply_write w c) c ws.

(** One attempt of the loop: the id and time it draws, and what the others
    write between its close and its insert. *)
Record Attempt := { at_id : string; at_now : Z; at_between : list MemoryWrite }.

Inductive RememberError := duplicate_key | rewritten_continuously (key : string).
Definition Remembered : Type := MemoryEntryDoc * bool.

Fixpoint supersede_loop (input : RememberInput) (attempts : list Attempt) c : outcome RememberError Remembered * C :=
  match attempts with
  | [] => (Throw (rewritten_continuously (default "" (rm_key input))), c)
  | a :: rest =>
      let '(closed, c1) := close_current (rm_agentId input) (rm_key input) (at_now a) (at_id a) c in
      let c2 := apply_writes (at_between a) c1 in
      match insert_entry input (at_id a) (at_now a) c2 with
      | (true, c3) => (Ret (new_entry input (at_id a) (at_now a), closed), c3)
      | (false, c3) => supersede_loop input rest c3
      end
  end.

(** [attempts] lists what the clock and the id generator answer; the loop runs
    at most three times. *)
Definition remember (input : RememberInput) (attempts : list Attempt) c : outcome RememberError Remembered * C :=
  if keyed (rm_key input) then supersede_loop input (take MAX_SUPERSEDE_ATTEMPTS attempts) c
  else match attempts with
       | [] => (Throw duplicate_key, c)
       | a :: _ =>
           match insert_entry input (at_id a) (at_now a) c with
           | (true, c') => (Ret (new_entry input (at_id a) (at_now a), false), c')
           | (false, c') => (Throw duplicate_key, c')
           end
       end.

Definition newest_first (a b : MemoryEntryDoc) : bool := me_validFrom b <=? me_validFrom a.

Definition current (agentId : string) (limit : nat) c : list MemoryEntryDoc :=
  map snd (find_docs (λ d, String.eqb (me_agentId d) agentId && isCurrent d) newest_first limit c).
Definition history (agentId key : string) (limit : nat) c : list MemoryEntryDoc :=
  map snd (find_docs (λ d, String.eqb (me_agentId d) agentId && bool_decide (me_key d = Some key)) newest_first limit c).
Definition countCurrent (agentId : string) c : Z :=
  Z.of_nat (length (find_all (λ d, String.eqb (me_agentId d) agentId && isCurrent d) c)).

(** ** The memory source of a run *)

(** What the model of the workspace's embedding role answers, if it has one. *)
Record Embedder := { em_key : string; em_embed : string → option (list Q) }.

Definition entry_similarity (sqrt : Q → Q) (model : option Embedder) (queryVector : option (list Q)) d : option Q :=
  match model with
  | Some m => similarityOf sqrt (jm_get (em_key m) (default [] (me_embeddings d))) queryVector
  | None => None
  end.

Definition entry_view (sqrt : Q → Q) (model : option Embedder) (queryVector : option (list Q)) d : RankInput := {|
  ri_content := me_content d; ri_importance := me_importance d; ri_validFrom := me_validFrom d;
  ri_similarity := entry_similarity sqrt model queryVector d |}.

Definition ranked_entries (sqrt pow_half : Q → Q) (model : option Embedder) (query : string) (now : Z)
    (candidates : list MemoryEntryDoc) : list (Scored MemoryEntryDoc) :=
  let queryVector := m ← model; em_embed m query in
  rank pow_half (entry_view sqrt model queryVector) query candidates now.

Definition recall (sqrt pow_half : Q → Q) (model : option Embedder) (agentId query : string) (limit : nat) (now : Z) c
    : list MemoryEntryDoc :=
  let candidates := current agentId RECALL_CANDIDATES c in
  map sc_item (take limit (List.filter (λ r, Qle_bool RELEVANCE_FLOOR (sc_score r))
                             (ranked_entries sqrt pow_half model query now candidates))).

Definition result_of (result : outcome RememberError Remembered) : outcome RememberError (string * bool) :=
  match result with Ret (entry, superseded) => Ret (me_id entry, superseded) | Throw e => Throw e end.

Definition source_remember (model : option Embedder) (agentId runId : string) (createdBy : option string)
    (kind : string) (key : option string) (content : string) (importance : option Q) (attempts : list Attempt) c
    : outcome RememberError (string * bool) * C :=
  let input := {|
    rm_agentId := agentId; rm_kind := kind; rm_key := key; rm_content := content;
    rm_importance := default DEFAULT_IMPORTANCE importance; rm_sourceRunId := Some runId; rm_createdBy := createdBy;
    rm_embeddings := m ← model; vector ← em_embed m content; Some [(em_key m, vector)] |} in
  let '(result, c') := remember input attempts c in
  (result_of result, c').

(** ** One belief per key, and history is kept *)
Definition one_current c : Prop :=
  ∀ id1 id2 d1 d2, docs c !! id1 = Some d1 → docs c !! id2 = Some d2 → key_clash d1 d2 = true → id1 = id2.

(** What no write may change. *)
Definition frozen d :=
  (me_id d, me_agentId d, me_kind d, me_key d, me_content d, me_importance d, me_sourceRunId d, me_createdBy d, me_validFrom d).

Definition history_kept c c' : Prop :=
  ∀ id d, docs c !! id = Some d →
    ∃ d', docs c' !! id = Some d' ∧ frozen d' = frozen d ∧
      (isCurrent d = false → me_validTo d' = me_validTo d ∧ me_supersededBy d' = me_supersededBy d).

Lemma key_clash_spec a b :
  key_clash a b = true ↔
  isCurrent a = true ∧ isCurrent b = true ∧ is_Some (me_key a) ∧ me_agentId a = me_agentId b ∧ me_key a = me_key b.
Proof.
  unfold key_clash. rewrite !andb_true_iff, !bool_decide_eq_true, String.eqb_eq. naive_solver.
Qed.

Lemma key_clash_sym a b : key_clash a b = true → key_clash b a = true.
Proof. rewrite !key_clash_spec. intros (? & ? & ? & ? & Hk). rewrite <- Hk. naive_solver. Qed.

Lemma history_refl c : history_kept c c.
Proof. intros id d Hd. by exists d. Qed.

Lemma history_eq c c' : docs c' = docs c → history_kept c c'.
Proof. intros E id d Hd. exists d. by rewrite E. Qed.

Lemma history_trans c1 c2 c3 : history_kept c1 c2 → history_kept c2 c3 → history_kept c1 c3.
Proof.
  intros H12 H23 id d Hd. destruct (H12 id d Hd) as (d2 & Hd2 & Hf2 & Hc2).
  destruct (H23 id d2 Hd2) as (d3 & Hd3 & Hf3 & Hc3). exists d3. split; [done|].
  split; [congruence|]. intros Hcl. destruct (Hc2 Hcl) as [Hv Hs].
  assert (isCurrent d2 = false) as Hcl2 by (unfold isCurrent in *; by rewrite Hv).
  destruct (Hc3 Hcl2). split; congruence.
Qed.

(** An update that changes neither the frozen fields nor reopens an entry. *)
Lemma update_consistent c c' id d d' :
  docs c !! id = Some d → docs c' = <[id := d']> (docs c) → frozen d' = frozen d →
  (isCurrent d' = true → isCurrent d = true) →
  (isCurrent d = false → me_validTo d' = me_validTo d ∧ me_supersededBy d' = me_supersededBy d) →
  one_current c → one_current c' ∧ history_kept c c'.
Proof.
  intros Hd E Hf Hcur Hcl Hone.
  assert (Hclash : ∀ x, key_clash d' x = true → key_clash d x = true).
  { intros x. unfold frozen in Hf. simplify_eq. rewrite !key_clash_spec.
    intros (? & ? & ? & ? & ?). split_and!; congruence || auto. }
  split.
  - intros id1 id2 d1 d2. rewrite E, !lookup_insert_Some.
    intros [[<- <-]|[Hn1 H1]] [[<- <-]|[Hn2 H2]] Hk; [done| | |by eapply Hone].
    + by eapply Hone; [exact Hd|exact H2|apply Hclash].
    + eapply Hone; [exact H1|exact Hd|]. by apply key_clash_sym, Hclash, key_clash_sym.
  - intros k e He. rewrite E. destruct (decide (k = id)) as [->|Hne].
    + rewrite lookup_insert_eq. rewrite Hd in He. injection He as <-. by exists d'.
    + rewrite lookup_insert_ne by done. by exists e.
Qed.

Lemma close_consistent now by_ c c' id d :
  docs c !! id = Some d → isCurrent d = true → docs c' = <[id := close_entry now by_ d]> (docs c) →
  one_current c → one_current c' ∧ history_kept c c'.
Proof. intros Hd Hcur E. apply (update_consistent c c' id d _ Hd E); [done|done|congruence]. Qed.

Lemma insert_entry_cases input id now c :
  ((insert_entry input id now c).1 = true ∧ docs c !! id = None ∧
   (∀ id' d', docs c !! id' = Some d' → key_clash (new_entry input id now) d' = false) ∧
   docs (insert_entry input id now c).2 = <[id := new_entry input id now]> (docs c)) ∨
  ((insert_entry input id now c).1 = false ∧ docs (insert_entry input id now c).2 = docs c).
Proof. apply insertOne_cases. Qed.

Lemma close_current_cases agentId key now id c :
  (∃ k d, docs c !! k = Some d ∧ believes agentId key d = true ∧ (close_current agentId key now id c).1 = true ∧
     docs (close_current agentId key now id c).2 = <[k := close_entry now (Some id) d]> (docs c)) ∨
  ((∀ k d, docs c !! k = Some d → believes agentId key d = false) ∧ (close_current agentId key now id c).1 = false ∧
   docs (close_current agentId key now id c).2 = docs c).
Proof.
  unfold close_current.
  destruct (findOneAndUpdate _ _ _ c) as [[[k d]|] c'] eqn:E; simpl.
  - apply findOneAndUpdate_hit in E as (Hk & Hp & _ & E); [|apply _]. left. by exists k, d.
  - apply findOneAndUpdate_miss in E as (Hk & E); [|apply _]. by right.
Qed.

Lemma believes_current agentId key d : believes agentId key d = true → isCurrent d = true.
Proof. unfold believes. rewrite !andb_true_iff. naive_solver. Qed.

Lemma believes_spec agentId key d :
  believes agentId key d = true ↔ me_agentId d = agentId ∧ me_key d = key ∧ isCurrent d = true.
Proof. unfold believes. rewrite !andb_true_iff, String.eqb_eq, bool_decide_eq_true. naive_solver. Qed.

Lemma insert_consistent input id now c :
  one_current c → one_current (insert_entry input id now c).2 ∧ history_kept c (insert_entry input id now c).2.
Proof.
  intros Hone. destruct (insert_entry_cases input id now c) as [(_ & Hid & Hno & E)|[_ E]].
  - split.
    + intros id1 id2 d1 d2. rewrite E, !lookup_insert_Some.
      intros [[<- <-]|[Hn1 H1]] [[<- <-]|[Hn2 H2]] Hk; [done| | |by eapply Hone].
      * by rewrite (Hno id2 d2) in Hk.
      * apply key_clash_sym in Hk. by rewrite (Hno id1 d1) in Hk.
    + intros k d Hd. rewrite E, lookup_insert_ne by congruence. by exists d.
  - split; [unfold one_current; by rewrite E|by apply history_eq].
Qed.

Lemma close_current_consistent agentId key now id c :
  one_current c →
  one_current (close_current agentId key now id c).2 ∧ history_kept c (close_current agentId key now id c).2.
Proof.
  intros Hone. destruct (close_current_cases agentId key now id c) as [(k & d & Hk & Hb & _ & E)|(_ & _ & E)].
  - eapply close_consistent; eauto using believes_current.
  - split; [unfold one_current; by rewrite E|by apply history_eq].
Qed.

Lemma write_consistent w c : one_current c → one_current (apply_write w c) ∧ history_kept c (apply_write w c).
Proof.
  intros Hone. destruct w as [agentId key now id|input id now|agentId entryId now|entryId modelKey vector]; simpl.
  - by apply close_current_consistent.
  - by apply insert_consistent.
  - unfold forget. match goal with |- context [updateOne ?i ?p ?f c] => destruct (updateOne_cases i p f c)
      as [(d & Hd & Hp & _ & E)|(_ & _ & E)] end.
    + apply andb_true_iff in Hp as [_ Hp]. by eapply close_consistent.
    + split; [unfold one_current; by rewrite E|by apply history_eq].
  - unfold attachEmbedding. match goal with |- context [updateOne ?i ?p ?f c] => destruct (updateOne_cases i p f c)
      as [(d & Hd & Hp & _ & E)|(_ & _ & E)] end.
    + by eapply update_consistent.
    + split; [unfold one_current; by rewrite E|by apply history_eq].
Qed.

Lemma writes_consistent ws c : one_current c → one_current (apply_writes ws c) ∧ history_kept c (apply_writes ws c).
Proof.
  revert c. induction ws as [|w ws IH]; intros c Hone; simpl; [split; [done|apply history_refl]|].
  destruct (write_consistent w c Hone) as [H1 H2]. destruct (IH _ H1) as [H3 H4].
  split; [done|]. by eapply history_trans.
Qed.

Lemma supersede_consistent input attempts c :
  one_current c →
  one_current (supersede_loop input attempts c).2 ∧ history_kept c (supersede_loop input attempts c).2.
Proof.
  revert c. induction attempts as [|a rest IH]; intros c Hone; simpl; [split; [done|apply history_refl]|].
  destruct (close_current_consistent (rm_agentId input) (rm_key input) (at_now a) (at_id a) c Hone) as [H1 K1].
  destruct (close_current _ _ _ _ c) as [closed c1]. simpl in *.
  destruct (writes_consistent (at_between a) c1 H1) as [H2 K2].
  destruct (insert_consistent input (at_id a) (at_now a) _ H2) as [H3 K3].
  destruct (insert_entry _ _ _ _) as [[|] c3]; simpl in *.
  - split; [done|]. eauto using history_trans.
  - destruct (IH c3 H3) as [H4 K4]. split; [done|]. eauto using history_trans.
Qed.

(** A stored entry of the key stands alone. *)
Lemma entry_alone c id d :
  one_current c → docs c !! id = Some d → isCurrent d = true → is_Some (me_key d) →
  ∀ id' d', docs c !! id' = Some d' → believes (me_agentId d) (me_key d) d' = true → id' = id.
Proof.
  intros Hone Hd Hcur Hk id' d' Hd' (Ha & Hkey & Hc)%believes_spec.
  symmetry. eapply (Hone id id' d d'); [done..|]. apply key_clash_spec. split_and!; done || congruence.
Qed.

Lemma supersede_result input attempts c entry superseded c' :
  one_current c → is_Some (rm_key input) → supersede_loop input attempts c = (Ret (entry, superseded), c') →
  docs c' !! me_id entry = Some entry ∧ isCurrent entry = true ∧
  me_content entry = rm_content input ∧ me_agentId entry = rm_agentId input ∧ me_key entry = rm_key input.
Proof.
  intros Hone Hk. revert c Hone. induction attempts as [|a rest IH]; intros c Hone E; [discriminate|]. simpl in E.
  destruct (close_current_consistent (rm_agentId input) (rm_key input) (at_now a) (at_id a) c Hone) as [H1 _].
  destruct (close_current _ _ _ _ c) as [closed c1]. simpl in *.
  destruct (writes_consistent (at_between a) c1 H1) as [H2 _].
  destruct (insert_consistent input (at_id a) (at_now a) _ H2) as [H3 _].
  pose proof (insert_entry_cases input (at_id a) (at_now a) (apply_writes (at_between a) c1)) as Hi.
  destruct (insert_entry _ _ _ _) as [[|] c3]; simpl in *; [|by eapply IH].
  simplify_eq. destruct Hi as [(_ & _ & _ & Hdocs)|[? _]]; [|done].
  rewrite Hdocs. simpl. by rewrite lookup_insert_eq.
Qed.

(** An attempt nobody disturbs succeeds, and reports whether it replaced. *)
Lemma undisturbed_attempt input a rest c :
  one_current c → is_Some (rm_key input) → docs c !! at_id a = None → at_between a = [] →
  ∃ c', supersede_loop input (a :: rest) c =
    (Ret (new_entry input (at_id a) (at_now a),
          bool_decide (map_Exists (λ _ d, believes (rm_agentId input) (rm_key input) d = true) (docs c))), c').
Proof.
  intros Hone Hk Hid Hb. simpl.
  pose proof (close_current_cases (rm_agentId input) (rm_key input) (at_now a) (at_id a) c) as Hc.
  destruct (close_current _ _ _ _ c) as [closed c1]. simpl in Hc. rewrite Hb. simpl.
  assert (Hfree : docs c1 !! at_id a = None ∧ ∀ k d, docs c1 !! k = Some d → believes (rm_agentId input) (rm_key input) d = false).
  { destruct Hc as [(k & d & Hd & Hbel & _ & E)|(Hno & _ & E)]; rewrite E; [|done]. split.
    - rewrite lookup_insert_ne; [done|]. congruence.
    - intros k' d'. rewrite lookup_insert_Some. intros [[<- <-]|[Hne Hd']].
      + unfold believes. simpl. by rewrite andb_false_r.
      + destruct (believes _ _ d') eqn:Hb'; [|done]. exfalso. apply Hne.
        apply believes_spec in Hbel as (Ha & Hkey & Hcur). rewrite <- Ha, <- Hkey in Hb'. rewrite <- Hkey in Hk.
        by rewrite (entry_alone c k d Hone Hd Hcur Hk k' d' Hd' Hb'). }
  destruct Hfree as [Hid1 Hno1].
  assert (Hclosed : closed = bool_decide (map_Exists (λ _ d, believes (rm_agentId input) (rm_key input) d = true) (docs c))).
  { destruct Hc as [(k & d & Hd & Hbel & -> & _)|(Hno & -> & _)]; symmetry.
    - apply bool_decide_eq_true. by exists k, d.
    - apply bool_decide_eq_false. intros (k & d & Hd & Hbel). simpl in Hbel. by rewrite (Hno k d Hd) in Hbel. }
  pose proof (insert_entry_cases input (at_id a) (at_now a) c1) as Hi.
  destruct (insert_entry _ _ _ _) as [[|] c3] eqn:Ei; simpl in *; [rewrite <- Hclosed; by exists c3|].
  exfalso. unfold insert_entry in Ei.
  destruct (insertOne_ok key_clash (at_id a) (new_entry input (at_id a) (at_now a)) c1 Hid1) as [Hok _];
    [|by rewrite Ei in Hok].
  intros id' d' Hd'. destruct (key_clash _ d') eqn:Hcl; [|done]. exfalso.
  apply key_clash_spec in Hcl as (_ & Hcur & _ & Ha & Hkey). simpl in Ha, Hkey.
  assert (believes (rm_agentId input) (rm_key input) d' = true) as Hbel by (by apply believes_spec).
  by rewrite (Hno1 id' d' Hd') in Hbel.
Qed.

Lemma keyed_some key : keyed key = true → is_Some key.
Proof. destruct key; [by eexists|discriminate]. Qed.

(** C32.  However the writes of concurrent sessions interleave, an agent holds at
    most one current entry under a key, no stored entry is ever rewritten or
    deleted, and a closed entry stays closed as it was. *)
Theorem beliefs_are_consistent (ws : list MemoryWrite) (c : C) :
  one_current c → one_current (apply_writes ws c) ∧ history_kept c (apply_writes ws c).
Proof. apply writes_consistent. Qed.

(** Remembering under a key, whatever other sessions write between its close
    and its insert: when it returns, its entry is stored, current and the only
    one the agent believes under that key, and the history is kept.  When
    nobody disturbs the first attempt it does return, and reports a
    replacement exactly when the agent believed something under the key. *)
Theorem remember_replaces_the_belief (input : RememberInput) (attempts : list Attempt) (c : C) :
  one_current c → keyed (rm_key input) = true →
  (∀ entry superseded c', remember input attempts c = (Ret (entry, superseded), c') →
     docs c' !! me_id entry = Some entry ∧ me_content entry = rm_content input ∧
     believes (rm_agentId input) (rm_key input) entry = true ∧
     (∀ id d, docs c' !! id = Some d → believes (rm_agentId input) (rm_key input) d = true → id = me_id entry)) ∧
  history_kept c (remember input attempts c).2 ∧
  (∀ a rest, attempts = a :: rest → docs c !! at_id a = None → at_between a = [] →
     (remember input attempts c).1 =
       Ret (new_entry input (at_id a) (at_now a),
            bool_decide (map_Exists (λ _ d, believes (rm_agentId input) (rm_key input) d = true) (docs c)))).
Proof.
  intros Hone Hk. pose proof (keyed_some _ Hk) as Hks. unfold remember. rewrite Hk.
  destruct (supersede_consistent input (take MAX_SUPERSEDE_ATTEMPTS attempts) c Hone) as [H1 H2].
  split; [|split; [done|]].
  - intros entry superseded c' E.
    destruct (supersede_result _ _ _ _ _ _ Hone Hks E) as (Hd & Hcur & Hct & Ha & Hkey).
    rewrite E in H1. simpl in H1. split; [done|]. split; [done|]. rewrite <- Ha, <- Hkey.
    split; [by apply believes_spec|]. apply entry_alone; [done..|by rewrite Hkey].
  - intros a rest -> Hid Hb. destruct (undisturbed_attempt input a (take 2 rest) c Hone Hks Hid Hb) as [c' E].
    change (take MAX_SUPERSEDE_ATTEMPTS (a :: rest)) with (a :: take 2 rest). by rewrite E.
Qed.

(** ** Recall *)
#[global] Instance newest_first_sort : SortOrder newest_first.
Proof. split; unfold newest_first; intros *; rewrite ?Z.leb_gt, ?Z.leb_le; lia. Qed.

Lemma elem_of_current agentId limit c d :
  d ∈ current agentId limit c → ∃ id, docs c !! id = Some d ∧ me_agentId d = agentId ∧ isCurrent d = true.
Proof.
  unfold current. intros ([id e] & -> & Hin)%list_elem_of_fmap. apply find_docs_sound in Hin as [Hd Hp]; [|apply _].
  apply andb_true_iff in Hp as [Ha Hc]. apply String.eqb_eq in Ha. by exists id.
Qed.

Lemma current_complete agentId limit c id d :
  docs c !! id = Some d → me_agentId d = agentId → isCurrent d = true →
  (length (current agentId limit c) < limit)%nat → d ∈ current agentId limit c.
Proof.
  intros Hd Ha Hc Hl. unfold current in *. rewrite length_map in Hl.
  destruct (find_docs_complete (λ d, String.eqb (me_agentId d) agentId && isCurrent d) newest_first limit c id d _ Hd)
    as [Hin|[Hlen _]]; [by rewrite Ha, String.eqb_refl, Hc| |lia].
  apply list_elem_of_fmap. by exists (id, d).
Qed.

Lemma take_best {T} (l : list (Scored T)) limit x y :
  StronglySorted (λ a b, (sc_score b <= sc_score a)%Q) l → x ∈ l → x ∉ take limit l → y ∈ take limit l →
  (sc_score x <= sc_score y)%Q.
Proof.
  intros Hs Hx Hnx Hy. rewrite <- (take_drop limit l) in Hx.
  apply elem_of_app in Hx as [|Hx]; [done|].
  by apply (StronglySorted_take_drop (λ a b, (sc_score b <= sc_score a)%Q) limit l y x).
Qed.

(** Recall returns at most [limit] entries, each of them current and the
    agent's own.  While the agent has fewer current entries than one recall
    considers, it returns the best: a current entry left out scored below the
    floor or no higher than every entry returned. *)
Theorem recall_returns_the_best (sqrt pow_half : Q → Q) model agentId query limit now (c : C) :
  let scored := ranked_entries sqrt pow_half model query now (current agentId RECALL_CANDIDATES c) in
  let result := recall sqrt pow_half model agentId query limit now c in
  (length result <= limit)%nat ∧
  (∀ d, d ∈ result → ∃ id, docs c !! id = Some d ∧ me_agentId d = agentId ∧ isCurrent d = true) ∧
  ((length (current agentId RECALL_CANDIDATES c) < RECALL_CANDIDATES)%nat →
   ∀ id d, docs c !! id = Some d → me_agentId d = agentId → isCurrent d = true → d ∉ result →
     ∃ r, r ∈ scored ∧ sc_item r = d ∧
       ((sc_score r < RELEVANCE_FLOOR)%Q ∨
        ∀ e, e ∈ result → ∃ r', r' ∈ scored ∧ sc_item r' = e ∧ (sc_score r <= sc_score r')%Q)).
Proof.
  intros scored result. set (kept := List.filter (λ r, Qle_bool RELEVANCE_FLOOR (sc_score r)) scored).
  assert (Hres : result = map sc_item (take limit kept)) by done.
  split; [rewrite Hres, length_map, length_take; lia|]. split.
  - intros d Hd. rewrite Hres in Hd. apply list_elem_of_fmap in Hd as (r & -> & Hr).
    apply subseteq_take in Hr. apply list_elem_of_In, filter_In in Hr as [Hr _]. apply list_elem_of_In in Hr.
    apply rank_elem in Hr as [Hr _]. by eapply elem_of_current.
  - intros Hfew id d Hd Ha Hc Hnot.
    pose proof (current_complete agentId RECALL_CANDIDATES c id d Hd Ha Hc Hfew) as Hin.
    unfold scored, ranked_entries in *. set (view := entry_view _ _ _) in *.
    assert (d ∈ map sc_item (rank pow_half view query (current agentId RECALL_CANDIDATES c) now)) as Hr
      by (by rewrite rank_perm).
    apply list_elem_of_fmap in Hr as (r & -> & Hr). exists r. split; [done|]. split; [done|].
    destruct (Qle_bool RELEVANCE_FLOOR (sc_score r)) eqn:Hfloor.
    + right. intros e He. rewrite Hres in He. apply list_elem_of_fmap in He as (r' & -> & Hr'). exists r'.
      assert (r' ∈ kept) as Hk' by (by eapply subseteq_take).
      assert (r' ∈ rank pow_half view query (current agentId RECALL_CANDIDATES c) now) as Hin'
        by (apply list_elem_of_In, filter_In in Hk' as [? _]; by apply list_elem_of_In).
      split; [done|]. split; [done|]. apply (take_best kept limit); [|..|done].
      * apply sorted_filter, rank_sorted.
      * apply list_elem_of_In, filter_In. by split; [apply list_elem_of_In|].
      * intros Hk. apply Hnot. rewrite Hres. by apply list_elem_of_fmap; exists r.
    + left. apply Qnot_le_lt. intros Hle. apply Qle_bool_iff in Hle. congruence.
Qed.
End Repository.

(** ** Concrete histories *)
Definition zone (content : string) (key : option string) : RememberInput := {|
  rm_agentId := "agent_1"; rm_kind := "fact"; rm_key := key; rm_content := content; rm_importance := 1 # 2;
  rm_sourceRunId := None; rm_createdBy := None; rm_embeddings := None |}.

Definition Store := gmap string MemoryEntryDoc.
Definition lagos : MemoryEntryDoc := new_entry (zone "Lives in Lagos" (Some "timezone")) "mem_1" 100.
Definition store_lagos : Store := {["mem_1" := lagos]}.
Definition undisturbed (id : string) (now : Z) : Attempt := {| at_id := id; at_now := now; at_between := [] |}.

Lemma store_lagos_one : one_current store_lagos.
Proof.
  intros id1 id2 d1 d2. change (docs store_lagos) with store_lagos. unfold store_lagos.
  by intros [<- _]%lookup_singleton_Some [<- _]%lookup_singleton_Some _.
Qed.

Lemma beliefs_are_consistent_witness :
  one_current store_lagos ∧
  ∃ d, (apply_writes [w_close "agent_1" (Some "timezone") 200 "mem_2"; w_forget "agent_1" "mem_1" 300] store_lagos : Store)
         !! "mem_1" = Some d ∧ me_content d = "Lives in Lagos" ∧ me_validTo d = Some 200.
Proof.
  split; [exact store_lagos_one|].
  destruct (beliefs_are_consistent
              [w_close "agent_1" (Some "timezone") 200 "mem_2"; w_forget "agent_1" "mem_1" 300] store_lagos store_lagos_one)
    as [_ Hk].
  destruct (Hk "mem_1" lagos eq_refl) as (d & Hd & Hf & _). exists d. split; [exact Hd|].
  split; [by injection Hf|].
  assert (Hv : me_validTo <$> docs (apply_writes [w_close "agent_1" (Some "timezone") 200 "mem_2"; w_forget "agent_1" "mem_1" 300]
                                 store_lagos) !! "mem_1" = Some (Some 200)) by (vm_compute; reflexivity).
  rewrite Hd in Hv. by apply (inj Some) in Hv.
Defined.

Lemma remember_replaces_the_belief_witness :
  one_current store_lagos ∧
  (remember (zone "Moved to Lisbon" (Some "timezone")) [undisturbed "mem_2" 200] store_lagos).1 =
    Ret (new_entry (zone "Moved to Lisbon" (Some "timezone")) "mem_2" 200, true).
Proof.
  split; [exact store_lagos_one|].
  destruct (remember_replaces_the_belief (zone "Moved to Lisbon" (Some "timezone")) [undisturbed "mem_2" 200] store_lagos
              store_lagos_one eq_refl) as (_ & _ & H).
  rewrite (H (undisturbed "mem_2" 200) [] eq_refl eq_refl eq_refl). f_equal.
Defined.

Lemma recall_returns_the_best_witness :
  recall (λ q, q) halvings None "agent_1" "Where does she live, Lagos?" 5 100 store_lagos = [lagos] ∧
  ∀ d, d ∈ recall (λ q, q) halvings None "agent_1" "Where does she live, Lagos?" 5 100 store_lagos → isCurrent d = true.
Proof.
  split; [vm_compute; reflexivity|]. intros d Hd.
  destruct (recall_returns_the_best (λ q, q) halvings None "agent_1" "Where does she live, Lagos?" 5 100 store_lagos)
    as (_ & H & _).
  destruct (H d Hd) as (id & _ & _ & Hc). exact Hc.
Defined.

(** A correction that loses its first race leaves the old entry superseded by
    an id that was never stored: the retry draws a new one. *)
Lemma superseded_by_nobody :
  let attempts :=
    [ {| at_id := "mem_2"; at_now := 200; at_between := [w_insert (zone "Moved to Porto" (Some "timezone")) "mem_9" 201] |};
      undisturbed "mem_3" 202 ] in
  let c := (remember (zone "Moved to Lisbon" (Some "timezone")) attempts store_lagos).2 : Store in
  (d ← c !! "mem_1"; me_supersededBy d) = Some "mem_2" ∧ c !! "mem_2" = None ∧
  (d ← c !! "mem_9"; me_supersededBy d) = Some "mem_3".
Proof. vm_compute. done. Qed.

(** An empty key counts as no key, so nothing is closed, but the index does
    not know that: the second memory is refused. *)
Lemma empty_key_collides :
  let c := (remember (zone "Likes tea" (Some "")) [undisturbed "mem_1" 100] (∅ : Store)).2 in
  (remember (zone "Likes tables" (Some "")) [undisturbed "mem_2" 200] c).1 = Throw duplicate_key.
Proof. vm_compute. reflexivity. Qed.
