(* ===== verification/OAuthServer.v ===== *)
(** * The platform as an OAuth authorization server

    Models packages/crypto/src/oauth-tokens.ts and
    packages/db/src/repositories/oauth-server.ts.  A code becomes a pair of
    tokens once, a refresh token becomes a new pair once, and a grant seen
    twice revokes its family.  SHA-256 and its encodings are parameters; fresh
    ids and random tokens are arguments.  The rows are one collection with a
    unique index on the token hash (indexes.ts, lines 73-75); the removal of
    expired rows by the database is not modelled.  [redeemCode] and
    [rotateRefreshToken] are several commands, so they take the writes other
    requests make in between. *)
From S2P Require Import Prelude Mongo ToolNames.

(** ** Tokens *)
Inductive OpaqueTokenKind := k_code | k_access | k_refresh.
#[global] Instance OpaqueTokenKind_eq_dec : EqDecision OpaqueTokenKind.
Proof. solve_decision. Defined.

Definition PREFIXES (kind : OpaqueTokenKind) : string :=
  match kind with k_code => "hive_ac_" | k_access => "hive_at_" | k_refresh => "hive_rt_" end.

Definition claims_kind (token : string) (kind : OpaqueTokenKind) : bool :=
  String.prefix (PREFIXES kind) token && (String.length (PREFIXES kind) <? String.length token)%nat.

Definition opaqueTokenKind (token : string) : option OpaqueTokenKind := find (claims_kind token) [k_code; k_access; k_refresh].

(** [mintOpaqueToken]: the token for the random text drawn. *)
Definition mint_token (kind : OpaqueTokenKind) (random : string) : string := PREFIXES kind +:+ random.

Definition verifier_char (c : Ascii.ascii) : bool :=
  is_word c && negb (Ascii.eqb c "_") || Ascii.eqb c "-" || Ascii.eqb c "." || Ascii.eqb c "_" || Ascii.eqb c "~".
Definition VERIFIER (s : string) : bool :=
  str_all verifier_char s && (43 <=? String.length s)%nat && (String.length s <=? 128)%nat.

(** ** Grants *)
Record GrantContext := {
  gc_workspaceId : string; gc_userId : string; gc_agentId : string; gc_clientId : string; gc_scope : string; gc_resource : string }.

Record OAuthGrantDoc := {
  gd_kind : OpaqueTokenKind;
  gd_tokenHash : string;
  gd_context : GrantContext;
  gd_familyId : string;
  gd_redirectUri : option string;
  gd_codeChallenge : option string;
  gd_createdAt : Z;
  gd_expiresAt : Z;
  gd_usedAt : option Z;
  gd_revokedAt : option Z;
}.

Inductive GrantFailure := g_invalid | g_expired | g_used | g_client_mismatch | g_redirect_mismatch | g_pkce.

(** The error an insert under a taken id or hash throws. *)
Inductive DuplicateKey := duplicate_key.

Record IssuedTokens := { it_accessToken : string; it_refreshToken : string; it_expiresIn : Z; it_scope : string }.

Definition CODE_TTL_MS : Z := 10 * 60 * 1000.
Definition ACCESS_TTL_MS : Z := 60 * 60 * 1000.
Definition REFRESH_TTL_MS : Z := 30 * 24 * 60 * 60 * 1000.

Definition mark_used (now : Z) (d : OAuthGrantDoc) : OAuthGrantDoc := {|
  gd_kind := gd_kind d; gd_tokenHash := gd_tokenHash d; gd_context := gd_context d; gd_familyId := gd_familyId d;
  gd_redirectUri := gd_redirectUri d; gd_codeChallenge := gd_codeChallenge d; gd_createdAt := gd_createdAt d;
  gd_expiresAt := gd_expiresAt d; gd_usedAt := Some now; gd_revokedAt := gd_revokedAt d |}.
Definition mark_revoked (now : Z) (d : OAuthGrantDoc) : OAuthGrantDoc := {|
  gd_kind := gd_kind d; gd_tokenHash := gd_tokenHash d; gd_context := gd_context d; gd_familyId := gd_familyId d;
  gd_redirectUri := gd_redirectUri d; gd_codeChallenge := gd_codeChallenge d; gd_createdAt := gd_createdAt d;
  gd_expiresAt := gd_expiresAt d; gd_usedAt := gd_usedAt d; gd_revokedAt := Some now |}.

Definition same_hash (a b : OAuthGrantDoc) : bool := String.eqb (gd_tokenHash a) (gd_tokenHash b).
Definition unused (d : OAuthGrantDoc) : bool := bool_decide (gd_usedAt d = None).
Definition unrevoked (d : OAuthGrantDoc) : bool := bool_decide (gd_revokedAt d = None).
Definition in_workspace (workspaceId : string) (d : OAuthGrantDoc) : bool := String.eqb (gc_workspaceId (gd_context d)) workspaceId.

Section Repository.
Context {C : Type} `{CollectionLaws OAuthGrantDoc C}.
Context (sha256 : string → string) (challenge_of : string → string).
Implicit Types (c : C) (d : OAuthGrantDoc).

Definition hashOpaqueToken (token : string) : string := sha256 token.

Definition verifyPkce (verifier challenge : string) : bool :=
  VERIFIER verifier && String.eqb (challenge_of verifier) challenge.

(** What a request draws: ids and random texts for an access and a refresh token. *)
Record Draw := { dr_accessId : string; dr_access : string; dr_refreshId : string; dr_refresh : string }.

(** The single commands requests are made of. *)
Inductive GrantWrite :=
| g_insert (id : string) (d : OAuthGrantDoc)
| g_claim (id : string) (now : Z)
| g_revokeFamily (workspaceId familyId : string) (now : Z)
| g_revokeAccess (workspaceId familyId : string) (now : Z)
| g_revokeForUser (workspaceId userId : string) (clientId : option string) (now : Z).

Definition claim_grant (id : string) (now : Z) c : bool * C := updateOne id unused (mark_used now) c.
Definition revokeFamily (workspaceId familyId : string) (now : Z) c : C :=
  (updateMany (λ d, in_workspace workspaceId d && String.eqb (gd_familyId d) familyId && unrevoked d) (mark_revoked now) c).2.
Definition revokeAccess (workspaceId familyId : string) (now : Z) c : C :=
  (updateMany (λ d, in_workspace workspaceId d && String.eqb (gd_familyId d) familyId &&
                    bool_decide (gd_kind d = k_access) && unrevoked d) (mark_revoked now) c).2.
Definition revokeForUser (workspaceId userId : string) (clientId : option string) (now : Z) c : Z * C :=
  updateMany (λ d, in_workspace workspaceId d && String.eqb (gc_userId (gd_context d)) userId && unrevoked d &&
                   match clientId with Some id => String.eqb (gc_clientId (gd_context d)) id | None => true end)
    (mark_revoked now) c.

Definition apply_write (w : GrantWrite) c : C :=
  match w with
  | g_insert id d => (insertOne same_hash id d c).2
  | g_claim id now => (claim_grant id now c).2
  | g_revokeFamily ws fam now => revokeFamily ws fam now c
  | g_revokeAccess ws fam now => revokeAccess ws fam now c
  | g_revokeForUser ws user client now => (revokeForUser ws user client now c).2
  end.
Definition apply_writes (ws : list GrantWrite) c : C := foldl (λ c w, apply_write w c) c ws.

(** [findOne({ tokenHash, kind })]. *)
Definition find_grant (token : string) (kind : OpaqueTokenKind) c : option (string * OAuthGrantDoc) :=
  find_one (λ d, String.eqb (gd_tokenHash d) (hashOpaqueToken token) && bool_decide (gd_kind d = kind)) c.

Definition new_grant (kind : OpaqueTokenKind) (token : string) (ctx : GrantContext) (familyId : string)
    (redirectUri codeChallenge : option string) (now ttl : Z) : OAuthGrantDoc := {|
  gd_kind := kind; gd_tokenHash := hashOpaqueToken token; gd_context := ctx; gd_familyId := familyId;
  gd_redirectUri := redirectUri; gd_codeChallenge := codeChallenge; gd_createdAt := now; gd_expiresAt := now + ttl;
  gd_usedAt := None; gd_revokedAt := None |}.

Definition issueCode (ctx : GrantContext) (redirectUri codeChallenge id familyId random : string) (now : Z) c
    : outcome DuplicateKey string * C :=
  let token := mint_token k_code random in
  match insertOne same_hash id (new_grant k_code token ctx familyId (Some redirectUri) (Some codeChallenge) now CODE_TTL_MS) c with
  | (true, c') => (Ret token, c')
  | (false, c') => (Throw duplicate_key, c')
  end.

Definition issueTokens (ctx : GrantContext) (familyId : string) (draw : Draw) (now : Z) c : outcome DuplicateKey IssuedTokens * C :=
  let access := mint_token k_access (dr_access draw) in
  let refresh := mint_token k_refresh (dr_refresh draw) in
  match insertOne same_hash (dr_accessId draw) (new_grant k_access access ctx familyId None None now ACCESS_TTL_MS) c with
  | (false, c1) => (Throw duplicate_key, c1)
  | (true, c1) =>
      match insertOne same_hash (dr_refreshId draw) (new_grant k_refresh refresh ctx familyId None None now REFRESH_TTL_MS) c1 with
      | (false, c2) => (Throw duplicate_key, c2)
      | (true, c2) =>
          (Ret {| it_accessToken := access; it_refreshToken := refresh; it_expiresIn := ACCESS_TTL_MS / 1000; it_scope := gc_scope ctx |},
           c2)
      end
  end.

Record Presented := { pr_clientId : string; pr_redirectUri : string; pr_codeVerifier : string }.

(** The checks of [redeemCode] on the row it read. *)
Definition code_refusal (presented : Presented) (now : Z) d : option GrantFailure :=
  if (gd_expiresAt d <=? now) || negb (unrevoked d) then Some g_expired
  else if negb (String.eqb (gc_clientId (gd_context d)) (pr_clientId presented)) then Some g_client_mismatch
  else if negb (bool_decide (gd_redirectUri d = Some (pr_redirectUri presented))) then Some g_redirect_mismatch
  else match gd_codeChallenge d with
       | Some challenge => if verifyPkce (pr_codeVerifier presented) challenge then None else Some g_pkce
       | None => Some g_pkce
       end.

(** [meanwhile] is what others write between the read and the claim, and
    between the claim and the tokens. *)
Definition redeemCode (code : string) (presented : Presented) (draw : Draw) (now : Z) (meanwhile : list GrantWrite * list GrantWrite) c
    : outcome DuplicateKey (GrantFailure + IssuedTokens * GrantContext) * C :=
  if negb (bool_decide (opaqueTokenKind code = Some k_code)) then (Ret (inl g_invalid), c)
  else match find_grant code k_code c with
  | None => (Ret (inl g_invalid), c)
  | Some (id, d) =>
      if negb (unused d) then (Ret (inl g_used), revokeFamily (gc_workspaceId (gd_context d)) (gd_familyId d) now c)
      else match code_refusal presented now d with
      | Some reason => (Ret (inl reason), c)
      | None =>
          match claim_grant id now (apply_writes meanwhile.1 c) with
          | (false, c1) => (Ret (inl g_used), revokeFamily (gc_workspaceId (gd_context d)) (gd_familyId d) now c1)
          | (true, c1) =>
              match issueTokens (gd_context d) (gd_familyId d) draw now (apply_writes meanwhile.2 c1) with
              | (Ret tokens, c2) => (Ret (inr (tokens, gd_context d)), c2)
              | (Throw e, c2) => (Throw e, c2)
              end
          end
      end
  end.

Definition resolveAccessToken (token : string) (now : Z) c : option GrantContext :=
  if negb (bool_decide (opaqueTokenKind token = Some k_access)) then None
  else match find_grant token k_access c with
       | Some (_, d) => if (gd_expiresAt d <=? now) || negb (unrevoked d) then None else Some (gd_context d)
       | None => None
       end.

Definition rotateRefreshToken (token clientId : string) (draw : Draw) (now : Z)
    (meanwhile : list GrantWrite * list GrantWrite * list GrantWrite) c
    : outcome DuplicateKey (GrantFailure + IssuedTokens) * C :=
  if negb (bool_decide (opaqueTokenKind token = Some k_refresh)) then (Ret (inl g_invalid), c)
  else match find_grant token k_refresh c with
  | None => (Ret (inl g_invalid), c)
  | Some (id, d) =>
      let ws := gc_workspaceId (gd_context d) in
      if negb (String.eqb (gc_clientId (gd_context d)) clientId) then (Ret (inl g_client_mismatch), c)
      else if negb (unused d) then (Ret (inl g_used), revokeFamily ws (gd_familyId d) now c)
      else if (gd_expiresAt d <=? now) || negb (unrevoked d) then (Ret (inl g_expired), c)
      else
        let '(first, second, third) := meanwhile in
        match claim_grant id now (apply_writes first c) with
        | (false, c1) => (Ret (inl g_used), revokeFamily ws (gd_familyId d) now c1)
        | (true, c1) =>
            let c2 := revokeAccess ws (gd_familyId d) now (apply_writes second c1) in
            match issueTokens (gd_context d) (gd_familyId d) draw now (apply_writes third c2) with
            | (Ret tokens, c3) => (Ret (inr tokens), c3)
            | (Throw e, c3) => (Throw e, c3)
            end
        end
  end.

(** ** What no write undoes *)
Definition evolves d d' : Prop :=
  gd_kind d' = gd_kind d ∧ gd_tokenHash d' = gd_tokenHash d ∧ gd_context d' = gd_context d ∧ gd_familyId d' = gd_familyId d ∧
  gd_expiresAt d' = gd_expiresAt d ∧
  (∀ t, gd_usedAt d = Some t → gd_usedAt d' = Some t) ∧ (∀ t, gd_revokedAt d = Some t → gd_revokedAt d' = Some t).

Definition hashes_unique c : Prop :=
  ∀ id1 id2 d1 d2, docs c !! id1 = Some d1 → docs c !! id2 = Some d2 → gd_tokenHash d1 = gd_tokenHash d2 → id1 = id2.

Definition grows c c' : Prop := ∀ id d, docs c !! id = Some d → ∃ d', docs c' !! id = Some d' ∧ evolves d d'.

Lemma evolves_refl d : evolves d d.
Proof. unfold evolves. naive_solver. Qed.

Lemma evolves_trans a b d : evolves a b → evolves b d → evolves a d.
Proof. unfold evolves. intros (?&?&?&?&?&?&?) (?&?&?&?&?&?&?). split_and!; try congruence; auto. Qed.

Lemma grows_refl c : grows c c.
Proof. intros id d Hd. exists d. split; [done|apply evolves_refl]. Qed.

Lemma grows_trans c1 c2 c3 : grows c1 c2 → grows c2 c3 → grows c1 c3.
Proof.
  intros H1 H2 id d Hd. destruct (H1 id d Hd) as (d2 & Hd2 & E2). destruct (H2 id d2 Hd2) as (d3 & Hd3 & E3).
  exists d3. split; [done|]. by eapply evolves_trans.
Qed.

Lemma used_evolves now d : unused d = true → evolves d (mark_used now d).
Proof. unfold unused, evolves. intros Hu%bool_decide_eq_true. simpl. split_and!; try done. intros t. congruence. Qed.

Lemma revoked_evolves now d : unrevoked d = true → evolves d (mark_revoked now d).
Proof. unfold unrevoked, evolves. intros Hu%bool_decide_eq_true. simpl. split_and!; try done. intros t. congruence. Qed.

(** An update of many that only revokes unrevoked rows. *)
Lemma revoke_many p now c :
  (∀ d, p d = true → unrevoked d = true) → hashes_unique c →
  hashes_unique (updateMany p (mark_revoked now) c).2 ∧ grows c (updateMany p (mark_revoked now) c).2.
Proof.
  intros Hp Hu. destruct (updateMany_docs p (mark_revoked now) c) as [_ E]. split.
  - intros id1 id2 d1 d2. rewrite E, !lookup_fmap_Some. intros (a & <- & Ha) (b & <- & Hb) Hh.
    apply (Hu id1 id2 a b Ha Hb). by destruct (p a), (p b).
  - intros id d Hd. rewrite E, lookup_fmap, Hd. simpl. eexists. split; [done|].
    destruct (p d) eqn:Ep; [by apply revoked_evolves, Hp|apply evolves_refl].
Qed.

Lemma claim_grows id now c :
  hashes_unique c → hashes_unique (claim_grant id now c).2 ∧ grows c (claim_grant id now c).2.
Proof.
  intros Hu. unfold claim_grant. destruct (updateOne_cases id unused (mark_used now) c) as [(d & Hd & Hp & _ & E)|(_ & _ & E)].
  - split.
    + intros id1 id2 d1 d2. rewrite E, !lookup_insert_Some.
      intros [[<- <-]|[Hn1 H1]] [[<- <-]|[Hn2 H2]] Hh; [done| | |by apply (Hu id1 id2 d1 d2)].
      * by apply (Hu id id2 d d2).
      * by apply (Hu id1 id d1 d).
    + intros k e He. rewrite E. destruct (decide (k = id)) as [->|Hne].
      * rewrite lookup_insert_eq. rewrite Hd in He. injection He as <-. eexists. split; [done|by apply used_evolves].
      * rewrite lookup_insert_ne by done. exists e. split; [done|apply evolves_refl].
  - split; [unfold hashes_unique; by rewrite E|]. intros k e He. rewrite E. exists e. split; [done|apply evolves_refl].
Qed.

Lemma insert_cases id d c :
  ((insertOne same_hash id d c).1 = true ∧ docs c !! id = None ∧
   (∀ id' d', docs c !! id' = Some d' → gd_tokenHash d' ≠ gd_tokenHash d) ∧
   docs (insertOne same_hash id d c).2 = <[id := d]> (docs c)) ∨
  ((insertOne same_hash id d c).1 = false ∧ docs (insertOne same_hash id d c).2 = docs c).
Proof.
  destruct (insertOne_cases same_hash id d c) as [(H1 & Hid & Hall & H2)|H1]; [left|by right]. split_and!; try done.
  intros id' d' Hd' E. pose proof (Hall id' d' Hd') as Hs. unfold same_hash in Hs. by rewrite E, String.eqb_refl in Hs.
Qed.

Lemma insert_grows id d c :
  hashes_unique c → hashes_unique (insertOne same_hash id d c).2 ∧ grows c (insertOne same_hash id d c).2.
Proof.
  intros Hu. destruct (insert_cases id d c) as [(_ & Hid & Hno & E)|[_ E]].
  - split.
    + intros id1 id2 d1 d2. rewrite E, !lookup_insert_Some.
      intros [[<- <-]|[Hn1 H1]] [[<- <-]|[Hn2 H2]] Hh; [done| | |by apply (Hu id1 id2 d1 d2)].
      * by destruct (Hno id2 d2 H2).
      * by destruct (Hno id1 d1 H1).
    + intros k e He. rewrite E, lookup_insert_ne by congruence. exists e. split; [done|apply evolves_refl].
  - split; [unfold hashes_unique; by rewrite E|]. intros k e He. rewrite E. exists e. split; [done|apply evolves_refl].
Qed.

Lemma write_grows w c : hashes_unique c → hashes_unique (apply_write w c) ∧ grows c (apply_write w c).
Proof.
  intros Hu. destruct w; simpl; [by apply insert_grows|by apply claim_grows|apply revoke_many..]; try done;
    intros d; rewrite !andb_true_iff; naive_solver.
Qed.

Lemma writes_grow ws c : hashes_unique c → hashes_unique (apply_writes ws c) ∧ grows c (apply_writes ws c).
Proof.
  revert c. induction ws as [|w ws IH]; intros c Hu; simpl; [split; [done|apply grows_refl]|].
  destruct (write_grows w c Hu) as [H1 G1]. destruct (IH _ H1) as [H2 G2]. split; [done|]. by eapply grows_trans.
Qed.

(** ** Looking a token up *)
Lemma find_grant_some token kind c id d :
  find_grant token kind c = Some (id, d) → docs c !! id = Some d ∧ gd_tokenHash d = hashOpaqueToken token ∧ gd_kind d = kind.
Proof.
  intros [Hd Hp]%find_one_some. apply andb_true_iff in Hp as [Hp1 Hp2].
  apply String.eqb_eq in Hp1. by apply bool_decide_eq_true in Hp2.
Qed.

Lemma find_grant_complete token kind c id d :
  hashes_unique c → docs c !! id = Some d → gd_tokenHash d = hashOpaqueToken token → gd_kind d = kind →
  find_grant token kind c = Some (id, d).
Proof.
  intros Hu Hd Hh Hk. apply find_one_unique; [done|by rewrite Hh, String.eqb_refl, bool_decide_eq_true_2|].
  intros id' d' Hd' [Hh' _]%andb_true_iff. apply String.eqb_eq in Hh'. apply (Hu id' id d' d Hd' Hd). congruence.
Qed.

(** A claimed grant stays claimed through every later write. *)
Lemma claim_true id now c :
  (claim_grant id now c).1 = true → ∃ d, docs c !! id = Some d ∧ unused d = true ∧
    docs (claim_grant id now c).2 = <[id := mark_used now d]> (docs c).
Proof. apply updateOne_true. Qed.

Lemma used_stays id d t ws c :
  hashes_unique c → docs c !! id = Some d → gd_usedAt d = Some t →
  ∃ d', docs (apply_writes ws c) !! id = Some d' ∧ evolves d d' ∧ unused d' = false.
Proof.
  intros Hu Hd Ht. destruct (writes_grow ws c Hu) as [_ Hg]. destruct (Hg id d Hd) as (d' & Hd' & He).
  exists d'. split; [done|]. split; [done|]. unfold evolves in He. destruct He as (_ & _ & _ & _ & _ & Hused & _).
  unfold unused. by rewrite (Hused t Ht).
Qed.

(** ** Exchanges that run at once *)

(** What a client presents at the token endpoint. *)
Inductive Ask := ask_code (code : string) (presented : Presented) | ask_refresh (token clientId : string).
Record Exchange := { x_ask : Ask; x_draw : Draw; x_now : Z }.
Definition asked_token (a : Ask) : string := match a with ask_code code _ => code | ask_refresh token _ => token end.
Definition asked_kind (a : Ask) : OpaqueTokenKind := match a with ask_code _ _ => k_code | ask_refresh _ _ => k_refresh end.

(** Where an exchange is between its commands to the database. *)
Inductive Progress :=
| x_begun | x_read (id : string) (d : OAuthGrantDoc) | x_claimed (id : string) (d : OAuthGrantDoc) | x_ready (id : string) (d : OAuthGrantDoc)
| x_issued (id : string) (d : OAuthGrantDoc) (tokens : IssuedTokens) | x_refused (reason : GrantFailure) | x_failed.

(** The checks on the row that was read, in the order of each handler. *)
Definition ask_refusal (x : Exchange) d : option GrantFailure :=
  match x_ask x with
  | ask_code _ presented => if negb (unused d) then Some g_used else code_refusal presented (x_now x) d
  | ask_refresh _ clientId =>
      if negb (String.eqb (gc_clientId (gd_context d)) clientId) then Some g_client_mismatch
      else if negb (unused d) then Some g_used
      else if (gd_expiresAt d <=? x_now x) || negb (unrevoked d) then Some g_expired else None
  end.
Definition revoke_for (x : Exchange) d c : C := revokeFamily (gc_workspaceId (gd_context d)) (gd_familyId d) (x_now x) c.

(** The next command of an exchange: look up and check, claim, revoke the family's access
    tokens (a refresh only), issue. *)
Definition advance (x : Exchange) (p : Progress) c : Progress * C :=
  match p with
  | x_begun =>
      if negb (bool_decide (opaqueTokenKind (asked_token (x_ask x)) = Some (asked_kind (x_ask x)))) then (x_refused g_invalid, c)
      else match find_grant (asked_token (x_ask x)) (asked_kind (x_ask x)) c with
           | None => (x_refused g_invalid, c)
           | Some (id, d) =>
               match ask_refusal x d with
               | Some g_used => (x_refused g_used, revoke_for x d c)
               | Some reason => (x_refused reason, c)
               | None => (x_read id d, c)
               end
           end
  | x_read id d =>
      match claim_grant id (x_now x) c with
      | (false, c1) => (x_refused g_used, revoke_for x d c1)
      | (true, c1) => (match x_ask x with ask_code _ _ => x_ready id d | ask_refresh _ _ => x_claimed id d end, c1)
      end
  | x_claimed id d => (x_ready id d, revokeAccess (gc_workspaceId (gd_context d)) (gd_familyId d) (x_now x) c)
  | x_ready id d =>
      match issueTokens (gd_context d) (gd_familyId d) (x_draw x) (x_now x) c with
      | (Ret tokens, c2) => (x_issued id d tokens, c2)
      | (Throw _, c2) => (x_failed, c2)
      end
  | _ => (p, c)
  end.
Definition finished (p : Progress) : bool := match p with x_issued _ _ _ | x_refused _ | x_failed => true | _ => false end.

(** One exchange by itself, with what others write before each of its commands. *)
Fixpoint drive (x : Exchange) (p : Progress) (meanwhile : list (list GrantWrite)) c : Progress * C :=
  match meanwhile with
  | [] => (p, c)
  | m :: rest => if finished p then (p, c) else let '(p', c') := advance x p (apply_writes m c) in drive x p' rest c'
  end.

(** What the handler returns. *)
Definition answer_of {A} (f : GrantContext → IssuedTokens → A) (p : Progress) : outcome DuplicateKey (GrantFailure + A) :=
  match p with x_issued _ d tokens => Ret (inr (f (gd_context d) tokens)) | x_refused r => Ret (inl r) | _ => Throw duplicate_key end.

Lemma drive_finished x p ms c : finished p = true → drive x p ms c = (p, c).
Proof. intros Hp. destruct ms; cbn [drive]; [done|]. by rewrite Hp. Qed.

Lemma redeemCode_drive code presented draw now m1 m2 c :
  let '(p, c') := drive {| x_ask := ask_code code presented; x_draw := draw; x_now := now |} x_begun [[]; m1; m2] c in
  redeemCode code presented draw now (m1, m2) c = (answer_of (λ ctx tokens, (tokens, ctx)) p, c').
Proof.
  cbn [drive finished]. unfold redeemCode. cbn [advance x_ask x_draw x_now asked_token asked_kind fst snd]. change (apply_writes [] c) with c.
  destruct (negb (bool_decide _)); [done|]. destruct (find_grant code k_code c) as [[id d]|]; [|done].
  unfold ask_refusal. cbn [x_ask x_now]. destruct (negb (unused d)); [done|].
  destruct (code_refusal presented now d) as [[]|] eqn:Er; try done.
  { exfalso. revert Er. unfold code_refusal. by repeat case_match. }
  cbn [drive finished advance x_now x_ask x_draw revoke_for answer_of]. destruct (claim_grant id now (apply_writes m1 c)) as [[|] c1]; [|done].
  cbn [drive finished advance x_now x_draw x_ask]. destruct (issueTokens _ _ _ _ _) as [[tokens|[]] c2]; cbn; done.
Qed.

Lemma rotate_drive token clientId draw now m1 m2 m3 c :
  let '(p, c') := drive {| x_ask := ask_refresh token clientId; x_draw := draw; x_now := now |} x_begun [[]; m1; m2; m3] c in
  rotateRefreshToken token clientId draw now (m1, m2, m3) c = (answer_of (λ _ tokens, tokens) p, c').
Proof.
  cbn [drive finished]. unfold rotateRefreshToken. cbn [advance x_ask x_draw x_now asked_token asked_kind]. change (apply_writes [] c) with c.
  destruct (negb (bool_decide _)); [done|]. destruct (find_grant token k_refresh c) as [[id d]|]; [|done].
  unfold ask_refusal. cbn [x_ask x_now]. destruct (negb (String.eqb _ _)); [done|]. destruct (negb (unused d)); [done|].
  destruct (_ || _); [done|].
  cbn [drive finished advance x_now x_ask x_draw revoke_for answer_of]. destruct (claim_grant id now (apply_writes m1 c)) as [[|] c1]; [|done].
  cbn [drive finished advance x_now x_draw x_ask]. destruct (issueTokens _ _ _ _ _) as [[tokens|[]] c2]; cbn; done.
Qed.

(** The token endpoint with every exchange that ever began, and the rest of the program. *)
Inductive Act := act_begin (x : Exchange) | act_advance (i : nat) | act_write (w : GrantWrite).
Definition Endpoint : Type := list (Exchange * Progress) * C.
Definition act (e : Endpoint) (a : Act) : Endpoint :=
  let '(xs, c) := e in
  match a with
  | act_begin x => (xs ++ [(x, x_begun)], c)
  | act_advance i =>
      match xs !! i with
      | Some (x, p) => let '(p', c') := advance x p c in (<[i := (x, p')]> xs, c')
      | None => (xs, c)
      end
  | act_write w => (xs, apply_write w c)
  end.

(** The grant an exchange has read, and the one it has claimed. *)
Definition read_of (p : Progress) : option string :=
  match p with x_read id _ | x_claimed id _ | x_ready id _ | x_issued id _ _ => Some id | _ => None end.
Definition claim_of (p : Progress) : option string :=
  match p with x_claimed id _ | x_ready id _ | x_issued id _ _ => Some id | _ => None end.

(** Whoever read a grant read the one of its token; a claimed grant is used, and one
    exchange claimed it. *)
Record endpoint_ok (e : Endpoint) : Prop := {
  eo_hashes : hashes_unique e.2;
  eo_read i x p id : e.1 !! i = Some (x, p) → read_of p = Some id →
    ∃ d, docs e.2 !! id = Some d ∧ gd_tokenHash d = hashOpaqueToken (asked_token (x_ask x));
  eo_used i x p id : e.1 !! i = Some (x, p) → claim_of p = Some id → ∃ d, docs e.2 !! id = Some d ∧ unused d = false;
  eo_one i j x y p q id : e.1 !! i = Some (x, p) → e.1 !! j = Some (y, q) → claim_of p = Some id → claim_of q = Some id → i = j;
}.

Lemma evolves_used d d' : evolves d d' → unused d = false → unused d' = false.
Proof.
  intros (_ & _ & _ & _ & _ & Hu & _). unfold unused. rewrite !bool_decide_eq_false. intros Hn E. apply Hn.
  destruct (gd_usedAt d) as [t|]; [|done]. rewrite (Hu t eq_refl) in E. discriminate.
Qed.

(** The rows evolve and one exchange moves on without claiming. *)
Lemma endpoint_moves xs c c' i x p p' :
  endpoint_ok (xs, c) → hashes_unique c' → grows c c' → xs !! i = Some (x, p) → (∀ id, claim_of p' = Some id → claim_of p = Some id) →
  (∀ id, read_of p' = Some id → read_of p = Some id ∨ ∃ d, docs c' !! id = Some d ∧ gd_tokenHash d = hashOpaqueToken (asked_token (x_ask x))) →
  endpoint_ok (<[i := (x, p')]> xs, c').
Proof.
  intros [Hh Hr Hu Ho] Hh' Hg Hi Hc Hread.
  assert (∀ j y q, <[i := (x, p')]> xs !! j = Some (y, q) → ∃ q0, xs !! j = Some (y, q0) ∧ (∀ id, claim_of q = Some id → claim_of q0 = Some id) ∧
    (∀ id, read_of q = Some id → read_of q0 = Some id ∨ ∃ d, docs c' !! id = Some d ∧ gd_tokenHash d = hashOpaqueToken (asked_token (x_ask y)))) as Hback.
  { intros j y q. rewrite list_lookup_insert_Some. intros [(<- & [= <- <-] & _)|(_ & Hj)]; [by exists p|]. exists q. split_and!; try done. by left. }
  split; cbn [fst snd] in *.
  - done.
  - intros j y q id (q0 & Hj & _ & Hq)%Hback Hid. destruct (Hq id Hid) as [Hid0|?]; [|done].
    destruct (Hr j y q0 id Hj Hid0) as (d & Hd & Hhash). destruct (Hg id d Hd) as (d' & Hd' & (_ & Hh2 & _)). exists d'. split; [done|congruence].
  - intros j y q id (q0 & Hj & Hq & _)%Hback Hid%Hq. destruct (Hu j y q0 id Hj Hid) as (d & Hd & Hused).
    destruct (Hg id d Hd) as (d' & Hd' & He). exists d'. split; [done|by eapply evolves_used].
  - intros j k y z q r id (q0 & Hj & Hq & _)%Hback (r0 & Hk & Hr0 & _)%Hback ?%Hq ?%Hr0. by eapply Ho.
Qed.

Lemma endpoint_writes xs c c' : endpoint_ok (xs, c) → hashes_unique c' → grows c c' → endpoint_ok (xs, c').
Proof.
  intros [Hh Hr Hu Ho] Hh' Hg. split; cbn [fst snd] in *; [done| | |done].
  - intros j y q id Hj Hid. destruct (Hr j y q id Hj Hid) as (d & Hd & Hhash). destruct (Hg id d Hd) as (d' & Hd' & (_ & Hh2 & _)). exists d'. split; [done|congruence].
  - intros j y q id Hj Hid. destruct (Hu j y q id Hj Hid) as (d & Hd & Hused).
    destruct (Hg id d Hd) as (d' & Hd' & He). exists d'. split; [done|by eapply evolves_used].
Qed.

Lemma revoke_for_grows x d c : hashes_unique c → hashes_unique (revoke_for x d c) ∧ grows c (revoke_for x d c).
Proof. apply (write_grows (g_revokeFamily _ _ _)). Qed.

Lemma issue_grows ctx fam draw now c :
  hashes_unique c → hashes_unique (issueTokens ctx fam draw now c).2 ∧ grows c (issueTokens ctx fam draw now c).2.
Proof.
  intros Hu. unfold issueTokens. cbn zeta. match goal with |- context [insertOne same_hash ?i ?d c] =>
    pose proof (insert_grows i d c Hu) as [U1 G1]; destruct (insertOne same_hash i d c) as [[|] c1] end; cbn [snd] in *; [|done].
  match goal with |- context [insertOne same_hash ?i ?d c1] =>
    pose proof (insert_grows i d c1 U1) as [U2 G2]; destruct (insertOne same_hash i d c1) as [[|] c2] end; cbn [snd] in *; (split; [done|by eapply grows_trans]).
Qed.

(** The claim: the grant was not used, so nobody had claimed it. *)
Lemma endpoint_claims xs c i x id d p' :
  endpoint_ok (xs, c) → xs !! i = Some (x, x_read id d) → read_of p' = Some id → claim_of p' = Some id →
  (claim_grant id (x_now x) c).1 = true → endpoint_ok (<[i := (x, p')]> xs, (claim_grant id (x_now x) c).2).
Proof.
  intros Hok Hi Hrd Hcl Ht. destruct (claim_grows id (x_now x) c (eo_hashes _ Hok)) as [Hh Hg].
  destruct (claim_true _ _ _ Ht) as (d0 & Hd0 & Hun & E). pose proof (endpoint_writes _ _ _ Hok Hh Hg) as Hw.
  assert (∀ j y q, xs !! j = Some (y, q) → claim_of q = Some id → False) as Hfree.
  { intros j y q Hj Hq. destruct (eo_used _ Hok j y q id Hj Hq) as (d1 & Hd1 & Hused). cbn [snd] in Hd1. congruence. }
  split; cbn [fst snd] in *.
  - done.
  - intros j y q k. rewrite list_lookup_insert_Some. intros [(<- & [= <- <-] & _)|(_ & Hj)] Hk; [|by eapply (eo_read _ Hw)].
    eapply (eo_read _ Hw i x (x_read id d)); [done|]. cbn. congruence.
  - intros j y q k. rewrite list_lookup_insert_Some. intros [(<- & [= <- <-] & _)|(_ & Hj)] Hk; [|by eapply (eo_used _ Hw)].
    rewrite Hcl in Hk. injection Hk as <-. rewrite E, lookup_insert_eq. by eexists.
  - intros j k y z q r g. rewrite !list_lookup_insert_Some. intros [(<- & [= <- <-] & _)|(Hne & Hj)] [(<- & [= <- <-] & _)|(Hne' & Hk)] Hq Hr; try done.
    + exfalso. eapply Hfree; [done|]. congruence.
    + exfalso. eapply Hfree; [done|]. congruence.
    + by eapply (eo_one _ Hw).
Qed.

Lemma endpoint_step e a : endpoint_ok e → endpoint_ok (act e a).
Proof.
  destruct e as [xs c]. intros Hok. pose proof (eo_hashes _ Hok) as Hh. cbn [snd] in Hh. destruct a as [x|i|w]; cbn [act].
  - destruct Hok as [_ Hr Hu Ho]. cbn [fst snd] in *.
    assert (∀ j y q, (xs ++ [(x, x_begun)]) !! j = Some (y, q) → xs !! j = Some (y, q) ∨ q = x_begun) as Hback.
    { intros j y q [Hj|[_ Hj]]%lookup_app_Some; [by left|]. apply list_lookup_singleton_Some in Hj as [_ [= _ <-]]. by right. }
    split; cbn [fst snd]; [done|..].
    + intros j y q id [Hj| ->]%Hback; [by eapply Hr|done].
    + intros j y q id [Hj| ->]%Hback; [by eapply Hu|done].
    + intros j k y z q r id [Hj| ->]%Hback [Hk| ->]%Hback; [by eapply Ho|done..].
  - destruct (xs !! i) as [[x p]|] eqn:Hi; [|done]. destruct p as [|id d|id d|id d|id d tokens|r|]; cbn [advance].
    + destruct (negb (bool_decide _)); [by eapply endpoint_moves; eauto using grows_refl|].
      destruct (find_grant _ _ c) as [[id d]|] eqn:Ef; [|by eapply endpoint_moves; eauto using grows_refl].
      destruct (ask_refusal x d) as [r|].
      * destruct (revoke_for_grows x d c Hh). destruct r; by eapply endpoint_moves; eauto using grows_refl.
      * apply find_grant_some in Ef as (Hd & Hhash & _). eapply endpoint_moves; eauto using grows_refl. cbn. intros ? [= <-]. right. eauto.
    + destruct (claim_grant id (x_now x) c) as [b c1] eqn:Ec. pose proof (claim_grows id (x_now x) c Hh) as [H1 G1]. rewrite Ec in H1, G1. cbn [snd] in *. destruct b.
      * pose proof (endpoint_claims xs c i x id d (match x_ask x with ask_code _ _ => x_ready id d | ask_refresh _ _ => x_claimed id d end) Hok Hi) as Hcl.
        rewrite Ec in Hcl. apply Hcl; [by destruct (x_ask x)..|done].
      * destruct (revoke_for_grows x d c1 H1). eapply endpoint_moves; [done|done|by eapply grows_trans|done|done|done].
    + destruct (write_grows (g_revokeAccess (gc_workspaceId (gd_context d)) (gd_familyId d) (x_now x)) c Hh). by eapply endpoint_moves; eauto.
    + pose proof (issue_grows (gd_context d) (gd_familyId d) (x_draw x) (x_now x) c Hh) as [H1 G1].
      destruct (issueTokens _ _ _ _ _) as [[tokens|e] c2]; cbn [snd] in *; by eapply endpoint_moves; eauto.
    + rewrite list_insert_id; done.
    + rewrite list_insert_id; done.
    + rewrite list_insert_id; done.
  - destruct (write_grows w c Hh). by eapply endpoint_writes.
Qed.

Lemma endpoint_reached acts e : endpoint_ok e → endpoint_ok (foldl act e acts).
Proof. revert e. induction acts as [|a acts IH]; intros e Hok; cbn [foldl]; [done|]. by apply IH, endpoint_step. Qed.

(** C9.  A code and a refresh token are worth one pair of tokens.  Any number of exchanges,
    begun and advanced command by command in any order, with any other writes in between
    (inserts, claims, revocations): of those that present one code or one refresh token at
    most one gets tokens, and once one has claimed the grant, every other attempt to claim
    it fails.  The commands are those of [redeemCode] and [rotateRefreshToken]: each of the
    two is one exchange driven to its end.  Tokens of the same hash are the same here, and
    the two inserts of an issue are one command. *)
Theorem grants_are_claimed_once :
  (∀ acts (c : C), hashes_unique c → let e := foldl act ([], c) acts in
     ∀ i x id d tokens, e.1 !! i = Some (x, x_issued id d tokens) →
       (∀ j y id' d' tokens', e.1 !! j = Some (y, x_issued id' d' tokens') → asked_token (x_ask y) = asked_token (x_ask x) → j = i) ∧
       (∀ now, (claim_grant id now e.2).1 = false)) ∧
  (∀ code presented draw now m1 m2 (c : C),
     let '(p, c') := drive {| x_ask := ask_code code presented; x_draw := draw; x_now := now |} x_begun [[]; m1; m2] c in
     redeemCode code presented draw now (m1, m2) c = (answer_of (λ ctx tokens, (tokens, ctx)) p, c')) ∧
  (∀ token clientId draw now m1 m2 m3 (c : C),
     let '(p, c') := drive {| x_ask := ask_refresh token clientId; x_draw := draw; x_now := now |} x_begun [[]; m1; m2; m3] c in
     rotateRefreshToken token clientId draw now (m1, m2, m3) c = (answer_of (λ _ tokens, tokens) p, c')).
Proof.
  split_and!; [|exact redeemCode_drive|exact rotate_drive].
  intros acts c Hh e i x id d tokens Hi.
  assert (endpoint_ok e) as Hok by (apply endpoint_reached; split; cbn; [done|by intros ????..]). split.
  - intros j y id' d' tokens' Hj Ht. destruct (eo_read _ Hok i x _ id Hi eq_refl) as (a & Ha & Hha).
    destruct (eo_read _ Hok j y _ id' Hj eq_refl) as (b & Hb & Hhb).
    assert (id' = id) as -> by (apply (eo_hashes _ Hok id' id b a Hb Ha); congruence). by eapply (eo_one _ Hok).
  - intros now. destruct (eo_used _ Hok i x _ id Hi eq_refl) as (a & Ha & Hu). apply updateOne_miss. intros b Hb. congruence.
Qed.

Lemma issue_ok ctx fam draw now c tokens c' :
  hashes_unique c → issueTokens ctx fam draw now c = (Ret tokens, c') →
  hashes_unique c' ∧ grows c c' ∧ it_scope tokens = gc_scope ctx ∧
  it_accessToken tokens = mint_token k_access (dr_access draw) ∧
  docs c' !! dr_accessId draw = Some (new_grant k_access (it_accessToken tokens) ctx fam None None now ACCESS_TTL_MS).
Proof.
  unfold issueTokens. intros Hu E. cbn zeta in E.
  set (a := new_grant k_access (mint_token k_access (dr_access draw)) ctx fam None None now ACCESS_TTL_MS) in *.
  set (r := new_grant k_refresh (mint_token k_refresh (dr_refresh draw)) ctx fam None None now REFRESH_TTL_MS) in *.
  pose proof (insert_grows (dr_accessId draw) a c Hu) as [U1 G1].
  pose proof (insert_cases (dr_accessId draw) a c) as I1.
  destruct (insertOne same_hash (dr_accessId draw) a c) as [[|] c1]; [|discriminate]. simpl in *.
  pose proof (insert_grows (dr_refreshId draw) r c1 U1) as [U2 G2].
  pose proof (insert_cases (dr_refreshId draw) r c1) as I2.
  destruct (insertOne same_hash (dr_refreshId draw) r c1) as [[|] c2]; [|discriminate]. simpl in *.
  injection E as <- <-. simpl. split; [done|]. split; [by eapply grows_trans|]. split; [done|]. split; [done|].
  destruct I1 as [(_ & _ & _ & E1)|[? _]]; [|done]. destruct I2 as [(_ & Hid & _ & E2)|[? _]]; [|done].
  rewrite E2, lookup_insert_ne, E1, lookup_insert_eq; [done|]. intros Heq. rewrite Heq, E1, lookup_insert_eq in Hid. done.
Qed.

Lemma minted_kind random : random ≠ "" → opaqueTokenKind (mint_token k_access random) = Some k_access.
Proof. intros Hr. destruct random; [done|]. reflexivity. Qed.

(** A redeemed code: it was known, unused, live and unrevoked, the client and
    the redirect address were the ones it was issued to and the verifier
    matched its challenge; the tokens are for exactly what was consented to;
    and however others write afterwards, the code is refused from then on. *)
Theorem redeemed_codes_were_earned code presented draw now meanwhile (c c' : C) tokens ctx :
  hashes_unique c → dr_access draw ≠ "" →
  redeemCode code presented draw now meanwhile c = (Ret (inr (tokens, ctx)), c') →
  (∃ id d, docs c !! id = Some d ∧ gd_tokenHash d = hashOpaqueToken code ∧ gd_kind d = k_code ∧ gd_context d = ctx ∧
     gd_usedAt d = None ∧ gd_revokedAt d = None ∧ now < gd_expiresAt d ∧
     gc_clientId ctx = pr_clientId presented ∧ gd_redirectUri d = Some (pr_redirectUri presented) ∧
     ∃ challenge, gd_codeChallenge d = Some challenge ∧ challenge_of (pr_codeVerifier presented) = challenge ∧
       VERIFIER (pr_codeVerifier presented) = true) ∧
  resolveAccessToken (it_accessToken tokens) now c' = Some ctx ∧
  (∀ ws presented' draw' now' meanwhile',
     (redeemCode code presented' draw' now' meanwhile' (apply_writes ws c')).1 = Ret (inl g_used)).
Proof.
  intros Hu Hne E. unfold redeemCode in E.
  destruct (bool_decide (opaqueTokenKind code = Some k_code)) eqn:Ek; [|done]. simpl in E.
  destruct (find_grant code k_code c) as [[id d]|] eqn:Ef; [|done].
  apply find_grant_some in Ef as (Hd & Hh & Hkind).
  destruct (unused d) eqn:Eu; [|done]. simpl in E.
  destruct (code_refusal presented now d) eqn:Er; [done|].
  destruct (writes_grow meanwhile.1 c Hu) as [Hu1 Hg1].
  destruct (claim_grows id now (apply_writes meanwhile.1 c) Hu1) as [Hu2 _].
  pose proof (claim_true id now (apply_writes meanwhile.1 c)) as Hct.
  destruct (claim_grant id now (apply_writes meanwhile.1 c)) as [[|] c1]; [|done]. simpl in *.
  destruct (Hct eq_refl) as (d1 & Hd1 & _ & Hdocs).
  destruct (writes_grow meanwhile.2 c1 Hu2) as [Hu3 Hg3].
  destruct (issueTokens _ _ _ _ _) as [[tk|] c2] eqn:Ei; [|done]. injection E as <- <- <-.
  destruct (issue_ok _ _ _ _ _ _ _ Hu3 Ei) as (Hu4 & Hg4 & _ & Hat & Hrow).
  split; [|split].
  - exists id, d. unfold code_refusal in Er. repeat (case_match; try discriminate). bool_prop.
    unfold unused, unrevoked, verifyPkce in *. bool_prop. split_and!; try done. eexists. split_and!; try done.
  - unfold resolveAccessToken. rewrite Hat, minted_kind by done. rewrite bool_decide_eq_true_2 by done. simpl.
    rewrite (find_grant_complete _ k_access _ _ _ Hu4 Hrow); [|simpl; by rewrite Hat|done]. simpl.
    replace (now + ACCESS_TTL_MS <=? now) with false by (unfold ACCESS_TTL_MS; lia). done.
  - intros ws presented' draw' now' meanwhile'.
    assert (Hused : docs c1 !! id = Some (mark_used now d1)) by (by rewrite Hdocs, lookup_insert_eq).
    destruct (Hg3 _ _ Hused) as (d3 & Hd3 & Ev3). destruct (Hg4 _ _ Hd3) as (d4 & Hd4 & Ev4).
    pose proof (evolves_trans _ _ _ Ev3 Ev4) as Ev. destruct (Hg1 _ _ Hd) as (d1' & Hd1' & Ev1).
    rewrite Hd1 in Hd1'. injection Hd1' as <-.
    destruct (used_stays id d4 now ws _ Hu4 Hd4) as (d5 & Hd5 & Ev5 & Hun).
    { destruct Ev as (_ & _ & _ & _ & _ & Hx & _). by apply Hx. }
    destruct (writes_grow ws _ Hu4) as [Hu5 _].
    unfold evolves in *. unfold redeemCode. rewrite Ek. simpl.
    rewrite (find_grant_complete code k_code _ id d5 Hu5 Hd5); [by rewrite Hun|..];
      destruct Ev as (K1 & H1 & _), Ev1 as (K2 & H2 & _), Ev5 as (K5 & H5 & _); simpl in *; congruence.
Qed.

(** A code seen again: the request is refused and every token its family had
    in the workspace resolves to nothing, now and after any further writes. *)
Theorem replay_revokes_the_family code presented draw now meanwhile (c : C) id d :
  hashes_unique c → opaqueTokenKind code = Some k_code → find_grant code k_code c = Some (id, d) → gd_usedAt d ≠ None →
  let ctx := gd_context d in
  (redeemCode code presented draw now meanwhile c).1 = Ret (inl g_used) ∧
  ∀ ws token k t at_, let c' := apply_writes ws (redeemCode code presented draw now meanwhile c).2 in
    docs c !! k = Some t → gd_kind t = k_access → gd_tokenHash t = hashOpaqueToken token →
    gd_familyId t = gd_familyId d → gc_workspaceId (gd_context t) = gc_workspaceId ctx →
    resolveAccessToken token at_ c' = None.
Proof.
  intros Hu Hk Hf Hused ctx.
  assert (Eq : redeemCode code presented draw now meanwhile c =
               (Ret (inl g_used), revokeFamily (gc_workspaceId ctx) (gd_familyId d) now c)).
  { unfold redeemCode. rewrite Hk, bool_decide_eq_true_2, Hf by done. simpl. unfold unused.
    by rewrite bool_decide_eq_false_2. }
  rewrite Eq. split; [done|]. intros ws token k t at_ c' Ht Hkind Hhash Hfam Hws. subst c'. simpl.
  destruct (write_grows (g_revokeFamily (gc_workspaceId ctx) (gd_familyId d) now) c Hu) as [Hu1 Hg1]. simpl in Hu1, Hg1.
  assert (Hrev : ∃ t1, docs (revokeFamily (gc_workspaceId ctx) (gd_familyId d) now c) !! k = Some t1 ∧ evolves t t1 ∧
                   gd_revokedAt t1 ≠ None).
  { destruct (Hg1 k t Ht) as (t1 & Ht1 & Ev). exists t1. split; [done|]. split; [done|].
    unfold revokeFamily in Ht1. rewrite (proj2 (updateMany_docs _ _ c)), lookup_fmap, Ht in Ht1. simpl in Ht1.
    injection Ht1 as <-. unfold in_workspace. rewrite Hws, Hfam, !String.eqb_refl. simpl.
    unfold unrevoked. by case_bool_decide. }
  destruct Hrev as (t1 & Ht1 & Ev1 & Hr1). destruct (writes_grow ws _ Hu1) as [Hu2 Hg2].
  destruct (Hg2 k t1 Ht1) as (t2 & Ht2 & Ev2). pose proof (evolves_trans _ _ _ Ev1 Ev2) as (K & Hh & _).
  unfold resolveAccessToken. destruct (negb _); [done|].
  rewrite (find_grant_complete token k_access _ k t2 Hu2 Ht2) by congruence.
  destruct (gd_revokedAt t1) as [r|] eqn:Er; [|done]. destruct Ev2 as (_ & _ & _ & _ & _ & _ & Hx).
  unfold unrevoked. rewrite (Hx r Er). simpl. by rewrite orb_true_r.
Qed.
End Repository.

(** ** Concrete requests *)
Definition Store := gmap string OAuthGrantDoc.
Definition consent : GrantContext := {|
  gc_workspaceId := "ws_1"; gc_userId := "usr_1"; gc_agentId := "agent_1"; gc_clientId := "client_1"; gc_scope := "assistant";
  gc_resource := "https://host/mcp/w/ws_1/assistants/agent_1" |}.
Definition a_verifier : string := "0123456789012345678901234567890123456789abc".
Definition a_code : string := mint_token k_code "xyz".
Definition code_row : OAuthGrantDoc :=
  new_grant id k_code a_code consent "fam_1" (Some "https://client/cb") (Some a_verifier) 0 CODE_TTL_MS.
Definition one_code : Store := {["grant_1" := code_row]}.
Definition the_client : Presented := {| pr_clientId := "client_1"; pr_redirectUri := "https://client/cb"; pr_codeVerifier := a_verifier |}.
Definition a_draw (n : string) : Draw :=
  {| dr_accessId := "access_" +:+ n; dr_access := "a" +:+ n; dr_refreshId := "refresh_" +:+ n; dr_refresh := "r" +:+ n |}.

Lemma singleton_unique id d : hashes_unique ({[id := d]} : Store).
Proof.
  intros id1 id2 d1 d2. change (docs ({[id := d]} : Store)) with ({[id := d]} : Store).
  by intros [<- _]%lookup_singleton_Some [<- _]%lookup_singleton_Some _.
Qed.

(** Two exchanges of one code that both read it before either claims. *)
Definition race : list Act :=
  [act_begin {| x_ask := ask_code a_code the_client; x_draw := a_draw "1"; x_now := 10 |};
   act_begin {| x_ask := ask_code a_code the_client; x_draw := a_draw "2"; x_now := 11 |};
   act_advance 0; act_advance 1; act_advance 1; act_advance 0; act_advance 1; act_advance 0].
Definition raced : Endpoint (C := Store) := foldl (act id id) ([], one_code) race.

Lemma grants_are_claimed_once_witness :
  (∃ d tokens, snd <$> raced.1 !! 1%nat = Some (x_issued "grant_1" d tokens)) ∧ snd <$> raced.1 !! 0%nat = Some (x_refused g_used) ∧
  (claim_grant "grant_1" 30 raced.2).1 = false.
Proof.
  split; [do 2 eexists; vm_compute; reflexivity|]. split; [vm_compute; reflexivity|].
  assert (∃ x d tokens, raced.1 !! 1%nat = Some (x, x_issued "grant_1" d tokens)) as (x & d & tokens & Hx) by (do 3 eexists; vm_compute; reflexivity).
  destruct (grants_are_claimed_once (C := Store) id id) as [Hg _]. by apply (Hg race one_code (singleton_unique _ _) 1%nat x "grant_1" d tokens Hx).
Defined.

Lemma redeemed_codes_were_earned_witness :
  ∃ tokens c', redeemCode id id a_code the_client (a_draw "1") 10 ([], []) one_code = (Ret (inr (tokens, consent)), c') ∧
    resolveAccessToken id (it_accessToken tokens) 10 c' = Some consent.
Proof.
  set (r := redeemCode id id a_code the_client (a_draw "1") 10 ([], []) one_code).
  assert (Hr : match r.1 with Ret (inr (_, ctx)) => Some ctx | _ => None end = Some consent) by (vm_compute; reflexivity).
  destruct r as [[[e|[tokens ctx]]|e] c'] eqn:E; [discriminate| |discriminate].
  simpl in Hr. apply (inj Some) in Hr as ->. exists tokens, c'. split; [done|].
  apply (redeemed_codes_were_earned id id a_code the_client (a_draw "1") 10 ([], []) one_code c' tokens consent);
    [apply singleton_unique|discriminate|exact E].
Defined.

Definition used_code : Store := {["grant_1" := mark_used 10 code_row]}.

Lemma replay_revokes_the_family_witness :
  find_grant id a_code k_code used_code = Some ("grant_1", mark_used 10 code_row) ∧
  (redeemCode id id a_code the_client (a_draw "2") 20 ([], []) used_code).1 = Ret (inl g_used).
Proof.
  assert (Hf : find_grant id a_code k_code used_code = Some ("grant_1", mark_used 10 code_row)) by (vm_compute; reflexivity).
  split; [exact Hf|].
  destruct (replay_revokes_the_family id id a_code the_client (a_draw "2") 20 ([], []) used_code "grant_1" (mark_used 10 code_row)) as [H0 _];
    [apply singleton_unique|vm_compute; reflexivity|exact Hf|discriminate|exact H0].
Defined.

(** Two callers race with one code.  The loser sees the code used and revokes
    the family before the winner has stored its tokens: the winner's tokens
    work all the same. *)
Lemma replay_misses_tokens_in_flight :
  let loser := [g_revokeFamily "ws_1" "fam_1" 20] in
  let winner := redeemCode id id a_code the_client (a_draw "1") 10 ([], loser) one_code in
  (redeemCode id id a_code the_client (a_draw "2") 20 ([], []) (claim_grant "grant_1" 10 one_code).2 : _ * Store) =
    (Ret (inl g_used), apply_writes loser (claim_grant "grant_1" 10 one_code).2) ∧
  resolveAccessToken id (mint_token k_access "a1") 30 winner.2 = Some consent.
Proof. vm_compute. done. Qed.
