(* ===== verification/Access.v ===== *)
(** * Who may act in a workspace

    Models packages/db/src/repositories/workspaces.ts (members and
    invitations), packages/db/src/repositories/api-keys.ts with
    packages/crypto/src/api-key.ts, the resolution of a request's principal in
    apps/web/src/lib/principal.ts and oauth-server.ts, the guard of
    apps/web/src/lib/route.ts and the handlers of the members route.
    Verification of a session token, SHA-256 and what a key draws at random
    are parameters or arguments.  The workspaces collection is scoped, so a
    document is found by its own id alone. *)
From S2P Require Import Prelude Text Mongo Principal Pattern ToolNames OAuthServer.

(** ** Workspaces *)
Inductive MemberStatus := active | suspended.
#[global] Instance MemberStatus_eq_dec : EqDecision MemberStatus.
Proof. solve_decision. Defined.

Record WorkspaceMember := {
  wm_userId : string; wm_role : Role; wm_status : MemberStatus; wm_joinedAt : Z; wm_invitedBy : option string }.
Record WorkspaceInvitation := {
  wi_id : string; wi_email : string; wi_role : Role; wi_tokenHash : string; wi_invitedBy : string; wi_expiresAt : Z }.
Record Trial := { tr_startedAt : Z; tr_endsAt : Z; tr_startedBy : string }.

(** The default effect of a tool is kept as its name. *)
Record WorkspaceSettings := { ws_defaultToolEffect : string; ws_maxConcurrentRuns : Z; ws_dailyCostCapUsd : Q; ws_tiers : list string }.

Record WorkspaceDoc := {
  w_slug : string; w_name : string; w_plan : string; w_settings : WorkspaceSettings;
  w_members : list WorkspaceMember; w_invitations : list WorkspaceInvitation; w_trial : option Trial;
  w_createdBy : string; w_createdAt : Z; w_updatedAt : Z; w_deletedAt : option Z;
}.

Definition MAX_EMBEDDED_MEMBERS : nat := 500.

Definition new_workspace (name slug createdBy : string) (now : Z) : WorkspaceDoc := {|
  w_slug := slug; w_name := name; w_plan := "free";
  w_settings := {| ws_defaultToolEffect := "ask"; ws_maxConcurrentRuns := 4; ws_dailyCostCapUsd := 25;
                   ws_tiers := ["first_party"; "verified"] |};
  w_members := [{| wm_userId := createdBy; wm_role := owner; wm_status := active; wm_joinedAt := now; wm_invitedBy := None |}];
  w_invitations := []; w_trial := None; w_createdBy := createdBy; w_createdAt := now; w_updatedAt := now; w_deletedAt := None |}.

Definition set_people (members : list WorkspaceMember) (invitations : list WorkspaceInvitation) (now : Z) (d : WorkspaceDoc) : WorkspaceDoc := {|
  w_slug := w_slug d; w_name := w_name d; w_plan := w_plan d; w_settings := w_settings d; w_members := members;
  w_invitations := invitations; w_trial := w_trial d; w_createdBy := w_createdBy d; w_createdAt := w_createdAt d;
  w_updatedAt := now; w_deletedAt := w_deletedAt d |}.
Definition set_meta (name : string) (settings : WorkspaceSettings) (trial : option Trial) (now : Z) (d : WorkspaceDoc) : WorkspaceDoc := {|
  w_slug := w_slug d; w_name := name; w_plan := w_plan d; w_settings := settings; w_members := w_members d;
  w_invitations := w_invitations d; w_trial := trial; w_createdBy := w_createdBy d; w_createdAt := w_createdAt d;
  w_updatedAt := now; w_deletedAt := w_deletedAt d |}.

Definition is_member (userId : string) (d : WorkspaceDoc) : bool := existsb (λ m, String.eqb (wm_userId m) userId) (w_members d).
Definition active_owner (m : WorkspaceMember) : bool := bool_decide (wm_role m = owner) && bool_decide (wm_status m = active).
Definition with_role (role : Role) (m : WorkspaceMember) : WorkspaceMember :=
  {| wm_userId := wm_userId m; wm_role := role; wm_status := wm_status m; wm_joinedAt := wm_joinedAt m; wm_invitedBy := wm_invitedBy m |}.

Inductive MemberError := workspace_not_found | member_limit (workspaceId : string).

Section Workspaces.
Context {C : Type} `{CollectionLaws WorkspaceDoc C}.
Implicit Types (c : C) (d : WorkspaceDoc).

Definition findWorkspace (workspaceId : string) c : option WorkspaceDoc := docs c !! workspaceId.

(** [members.$] projects the element the filter matched. *)
Definition membershipOf (workspaceId userId : string) c : option Role :=
  d ← findWorkspace workspaceId c;
  m ← find (λ m, String.eqb (wm_userId m) userId) (w_members d);
  if bool_decide (wm_status m = active) then Some (wm_role m) else None.

(** The workspaces [listForUser] selects: its two conditions on the elements
    of an array may be met by different elements. *)
Definition listForUser (userId : string) c : list string :=
  map fst (find_all (λ d, is_member userId d && existsb (λ m, bool_decide (wm_status m = active)) (w_members d) &&
                          bool_decide (w_deletedAt d = None)) c).

Definition create_workspace (id name slug createdBy : string) (now : Z) c : bool * C :=
  insertOne (λ a b, String.eqb (w_slug a) (w_slug b)) id (new_workspace name slug createdBy now) c.

Definition startTrial (workspaceId startedBy : string) (days now : Z) c : option Z * C :=
  let endsAt := now + days * 24 * 60 * 60 * 1000 in
  let '(matched, c') :=
    updateOne workspaceId (λ d, bool_decide (w_trial d = None))
      (λ d, set_meta (w_name d) (w_settings d) (Some {| tr_startedAt := now; tr_endsAt := endsAt; tr_startedBy := startedBy |}) now d) c in
  (if matched then Some endsAt else None, c').

Definition rename (workspaceId name : string) (now : Z) c : bool * C :=
  updateOne workspaceId (λ _, true) (λ d, set_meta name (w_settings d) (w_trial d) now d) c.

Definition updateSettings (workspaceId : string) (cap : option Q) (runs : option Z) (effect : option string) (now : Z) c : bool * C :=
  updateOne workspaceId (λ _, true)
    (λ d, set_meta (w_name d)
            {| ws_defaultToolEffect := default (ws_defaultToolEffect (w_settings d)) effect;
               ws_maxConcurrentRuns := default (ws_maxConcurrentRuns (w_settings d)) runs;
               ws_dailyCostCapUsd := default (ws_dailyCostCapUsd (w_settings d)) cap; ws_tiers := ws_tiers (w_settings d) |}
            (w_trial d) now d) c.

Definition createInvitation (workspaceId : string) (invitation : WorkspaceInvitation) (now : Z) c : C :=
  let pulled := (updateOne workspaceId (λ _, true)
    (λ d, set_people (w_members d) (List.filter (λ i, negb (String.eqb (wi_email i) (wi_email invitation))) (w_invitations d))
            (w_updatedAt d) d) c).2 in
  (updateOne workspaceId (λ _, true) (λ d, set_people (w_members d) (w_invitations d ++ [invitation]) now d) pulled).2.

Definition revokeInvitation (workspaceId invitationId : string) (now : Z) c : C :=
  (updateOne workspaceId (λ _, true)
     (λ d, set_people (w_members d) (List.filter (λ i, negb (String.eqb (wi_id i) invitationId)) (w_invitations d)) now d) c).2.

Definition findInvitation (workspaceId tokenHash : string) (now : Z) c : option WorkspaceInvitation :=
  d ← findWorkspace workspaceId c;
  i ← find (λ i, String.eqb (wi_tokenHash i) tokenHash) (w_invitations d);
  if wi_expiresAt i <? now then None else Some i.

Definition addMember (workspaceId : string) (m : WorkspaceMember) (now : Z) c : outcome MemberError unit * C :=
  match findWorkspace workspaceId c with
  | None => (Throw workspace_not_found, c)
  | Some d =>
      if (MAX_EMBEDDED_MEMBERS <=? length (w_members d))%nat then (Throw (member_limit workspaceId), c)
      else (Ret tt, (updateOne workspaceId (λ d, negb (is_member (wm_userId m) d))
                       (λ d, set_people (w_members d ++ [m]) (w_invitations d) now d) c).2)
  end.

Definition acceptInvitation (workspaceId : string) (i : WorkspaceInvitation) (userId : string) (now : Z) c : outcome MemberError unit * C :=
  match addMember workspaceId {| wm_userId := userId; wm_role := wi_role i; wm_status := active; wm_joinedAt := now;
                                 wm_invitedBy := Some (wi_invitedBy i) |} now c with
  | (Ret _, c') => (Ret tt, revokeInvitation workspaceId (wi_id i) now c')
  | (Throw e, c') => (Throw e, c')
  end.

Definition setMemberRole (workspaceId userId : string) (role : Role) (now : Z) c : bool * C :=
  updateOne workspaceId (λ _, true)
    (λ d, set_people (map (λ m, if String.eqb (wm_userId m) userId then with_role role m else m) (w_members d)) (w_invitations d) now d) c.

Definition removeMember (workspaceId userId : string) (now : Z) c : C :=
  (updateOne workspaceId (λ _, true)
     (λ d, set_people (List.filter (λ m, negb (String.eqb (wm_userId m) userId)) (w_members d)) (w_invitations d) now d) c).2.

Definition isLastOwner (workspaceId userId : string) c : bool :=
  match findWorkspace workspaceId c with
  | None => false
  | Some d =>
      match List.filter active_owner (w_members d) with
      | [m] => String.eqb (wm_userId m) userId
      | _ => false
      end
  end.

(** ** The members route *)
Inductive MemberResponse := r_ok | r_not_found | r_forbidden | r_conflict.

Definition caller_role (p : Principal) : option Role := match p with PUser _ _ role => Some role | _ => None end.

(** The checks of PATCH and DELETE, before their write. *)
Definition patch_refusal (p : Principal) (workspaceId userId : string) (role : Role) c : option MemberResponse :=
  match membershipOf workspaceId userId c with
  | None => Some r_not_found
  | Some current =>
      if (bool_decide (role = owner) || bool_decide (current = owner)) && negb (bool_decide (caller_role p = Some owner))
      then Some r_forbidden
      else if negb (bool_decide (role = owner)) && isLastOwner workspaceId userId c then Some r_conflict
      else None
  end.
Definition delete_refusal (p : Principal) (workspaceId userId : string) c : option MemberResponse :=
  match membershipOf workspaceId userId c with
  | None => Some r_not_found
  | Some current =>
      if bool_decide (current = owner) && negb (bool_decide (caller_role p = Some owner)) then Some r_forbidden
      else if isLastOwner workspaceId userId c then Some r_conflict
      else None
  end.

Definition patch_member (p : Principal) (workspaceId userId : string) (role : Role) (now : Z) c : MemberResponse * C :=
  match patch_refusal p workspaceId userId role c with
  | Some refusal => (refusal, c)
  | None => (r_ok, (setMemberRole workspaceId userId role now c).2)
  end.
Definition delete_member (p : Principal) (workspaceId userId : string) (now : Z) c : MemberResponse * C :=
  match delete_refusal p workspaceId userId c with
  | Some refusal => (refusal, c)
  | None => (r_ok, removeMember workspaceId userId now c)
  end.
End Workspaces.

(** ** API keys *)
Record ApiKeyDoc := {
  ak_workspaceId : string; ak_name : string; ak_prefix : string; ak_keyHash : string; ak_scopes : list Permission;
  ak_createdBy : string; ak_createdAt : Z; ak_lastUsedAt : option Z; ak_expiresAt : option Z; ak_revokedAt : option Z;
}.

Record ResolvedApiKey := { rk_apiKeyId : string; rk_workspaceId : string; rk_scopes : list Permission }.
Inductive ApiKeyRejection := malformed | unknown | revoked | expired | bad_secret.

Definition alnum (c : Ascii.ascii) : bool := is_word c && negb (Ascii.eqb c "_").

Fixpoint take_run (p : Ascii.ascii → bool) (s : string) : string * string :=
  match s with
  | String c s' => if p c then let '(a, b) := take_run p s' in (String c a, b) else (EmptyString, s)
  | EmptyString => (EmptyString, EmptyString)
  end.

(** The part of [KEY_PATTERN] after the environment. *)
Definition parse_tail (s : string) : option string :=
  let '(prefix, rest) := take_run alnum s in
  if (1 <=? String.length prefix)%nat && (String.length prefix <=? 32)%nat then
    match rest with
    | String "_" (String _ _ as secret) => if str_all (λ c, negb (is_line_terminator c)) secret then Some prefix else None
    | _ => None
    end
  else None.

Inductive KeyEnvironment := env_live | env_test.
Definition environment_name (e : KeyEnvironment) : string := match e with env_live => "sk_live_" | env_test => "sk_test_" end.

Definition parseApiKey (key : string) : option (KeyEnvironment * string) :=
  if String.eqb (str_take 8 key) "sk_live_" then pair env_live <$> parse_tail (str_drop 8 key)
  else if String.eqb (str_take 8 key) "sk_test_" then pair env_test <$> parse_tail (str_drop 8 key)
  else None.

(** [mintApiKey] with the prefix and the secret it draws. *)
Definition minted_key (e : KeyEnvironment) (prefix secret : string) : string := environment_name e +:+ prefix +:+ "_" +:+ secret.

Section ApiKeys.
Context {C : Type} `{CollectionLaws ApiKeyDoc C} (sha256 : string → string).
Implicit Types (c : C) (d : ApiKeyDoc).

Definition verifyApiKey (presented storedHash : string) : bool := String.eqb (sha256 presented) storedHash.

Definition find_key (prefix : string) c : option (string * ApiKeyDoc) :=
  find_one (λ d, String.eqb (ak_prefix d) prefix) c.

Definition resolve_key (presented : string) (now : Z) c : ApiKeyRejection + ResolvedApiKey :=
  match parseApiKey presented with
  | None => inl malformed
  | Some (_, prefix) =>
      match find_key prefix c with
      | None => inl unknown
      | Some (id, d) =>
          if negb (verifyApiKey presented (ak_keyHash d)) then inl bad_secret
          else if negb (bool_decide (ak_revokedAt d = None)) then inl revoked
          else match ak_expiresAt d with
               | Some t => if t <=? now then inl expired
                           else inr {| rk_apiKeyId := id; rk_workspaceId := ak_workspaceId d; rk_scopes := ak_scopes d |}
               | None => inr {| rk_apiKeyId := id; rk_workspaceId := ak_workspaceId d; rk_scopes := ak_scopes d |}
               end
      end
  end.

Definition same_prefix (a b : ApiKeyDoc) : bool := String.eqb (ak_prefix a) (ak_prefix b).

Definition mint_key (workspaceId name : string) (scopes : list Permission) (createdBy : string) (expiresAt : option Z)
    (id prefix secret : string) (now : Z) c : bool * C :=
  insertOne same_prefix id
    {| ak_workspaceId := workspaceId; ak_name := name; ak_prefix := prefix; ak_keyHash := sha256 (minted_key env_live prefix secret);
       ak_scopes := scopes; ak_createdBy := createdBy; ak_createdAt := now; ak_lastUsedAt := None; ak_expiresAt := expiresAt;
       ak_revokedAt := None |} c.

Definition set_key_times (lastUsedAt revokedAt : option Z) d : ApiKeyDoc := {|
  ak_workspaceId := ak_workspaceId d; ak_name := ak_name d; ak_prefix := ak_prefix d; ak_keyHash := ak_keyHash d;
  ak_scopes := ak_scopes d; ak_createdBy := ak_createdBy d; ak_createdAt := ak_createdAt d; ak_lastUsedAt := lastUsedAt;
  ak_expiresAt := ak_expiresAt d; ak_revokedAt := revokedAt |}.

Definition revoke_key (workspaceId apiKeyId : string) (now : Z) c : bool * C :=
  updateOne apiKeyId (λ d, String.eqb (ak_workspaceId d) workspaceId && bool_decide (ak_revokedAt d = None))
    (λ d, set_key_times (ak_lastUsedAt d) (Some now) d) c.

Definition touch (apiKeyId workspaceId : string) (now : Z) c : C :=
  (updateOne apiKeyId (λ d, String.eqb (ak_workspaceId d) workspaceId) (λ d, set_key_times (Some now) (ak_revokedAt d) d) c).2.
End ApiKeys.

(** ** The principal of a request *)
Inductive RequestError := unauthenticated | not_found | forbidden (missing : Permission).

(** [raw.split(' ')]: the scheme and the token. *)
Definition bearerOf (lower : string → string) (authorization : option string) : option string :=
  raw ← authorization;
  match str_split " " raw with
  | scheme :: token :: _ => if String.eqb (lower scheme) "bearer" then Some token else None
  | _ => None
  end.

Section Principals.
Context {CW CK CG : Type} `{CollectionLaws WorkspaceDoc CW, CollectionLaws ApiKeyDoc CK, CollectionLaws OAuthGrantDoc CG}.
Context (sha256 lower : string → string).

(** [readCaller]: the user of the request's verified session, if any. *)
Record Request := { rq_authorization : option string; rq_caller : option string }.

Definition resolvePrincipal (request : Request) (workspaceId : string) (now : Z) (keys : CK) (workspaces : CW)
    : outcome RequestError Principal :=
  match bearerOf lower (rq_authorization request) with
  | Some token =>
      match resolve_key sha256 token now keys with
      | inl _ => Throw unauthenticated
      | inr key => if negb (String.eqb (rk_workspaceId key) workspaceId) then Throw unauthenticated
                   else Ret (PApiKey (rk_apiKeyId key) workspaceId (rk_scopes key))
      end
  | None =>
      match rq_caller request with
      | None => Throw unauthenticated
      | Some userId =>
          match membershipOf workspaceId userId workspaces with
          | None => Throw not_found
          | Some role => Ret (PUser userId workspaceId role)
          end
      end
  end.

Definition requirePermission (p : Principal) (permission : Permission) : outcome RequestError unit :=
  if hasPermission p permission then Ret tt else Throw (forbidden permission).

(** [workspaceRoute]: what reaches the handler. *)
Definition workspaceRoute (permission : Permission) (request : Request) (workspaceId : string) (now : Z) (keys : CK) (workspaces : CW)
    : outcome RequestError Principal :=
  match resolvePrincipal request workspaceId now keys workspaces with
  | Throw e => Throw e
  | Ret p => match requirePermission p permission with Ret _ => Ret p | Throw e => Throw e end
  end.

Fixpoint actorIdOf (p : Principal) : string :=
  match p with
  | PUser userId _ _ => userId
  | PApiKey id _ _ => id
  | PChannelIdentity id _ _ _ => id
  | PAgent _ _ _ q => actorIdOf q
  | PSystem sys_sweeper _ => "system:sweeper"
  | PSystem sys_migration _ => "system:migration"
  end.

(** [None] is a token of another kind, left to the caller. *)
Definition resolveOAuthPrincipal (token workspaceId agentId : string) (now : Z) (grants : CG) (workspaces : CW)
    : outcome RequestError (option Principal) :=
  if negb (bool_decide (opaqueTokenKind token = Some k_access)) then Ret None
  else match resolveAccessToken sha256 token now grants with
       | None => Throw unauthenticated
       | Some access =>
           if negb (String.eqb (gc_workspaceId access) workspaceId) || negb (String.eqb (gc_agentId access) agentId)
           then Throw unauthenticated
           else match membershipOf workspaceId (gc_userId access) workspaces with
                | None => Throw unauthenticated
                | Some role => Ret (Some (PUser (gc_userId access) workspaceId role))
                end
       end.
End Principals.

(** ** A workspace keeps an owner *)
Definition distinct_members (d : WorkspaceDoc) : Prop := NoDup (map wm_userId (w_members d)).
Definition has_owner (d : WorkspaceDoc) : Prop := ∃ m, m ∈ w_members d ∧ active_owner m = true.
Definition well_owned (d : WorkspaceDoc) : Prop := distinct_members d ∧ has_owner d.

Lemma active_owner_spec m : active_owner m = true ↔ wm_role m = owner ∧ wm_status m = active.
Proof. unfold active_owner. by rewrite andb_true_iff, !bool_decide_eq_true. Qed.

(** Who is not the last owner leaves another one behind. *)
Lemma another_owner d userId :
  well_owned d → (∀ m, List.filter active_owner (w_members d) = [m] → wm_userId m ≠ userId) →
  ∃ m, m ∈ w_members d ∧ active_owner m = true ∧ wm_userId m ≠ userId.
Proof.
  intros [Hd (m & Hm & Ho)] Hlast.
  destruct (decide (wm_userId m = userId)) as [<-|Hne]; [|by exists m].
  assert (Hin : m ∈ List.filter active_owner (w_members d)) by (by apply list_elem_of_In, filter_In; split; [apply list_elem_of_In|]).
  destruct (List.filter active_owner (w_members d)) as [|a [|b l]] eqn:Ef; [by apply elem_of_nil in Hin| |].
  - apply list_elem_of_singleton in Hin as ->. by destruct (Hlast a eq_refl).
  - assert (Hnd : NoDup (map wm_userId (a :: b :: l))) by (rewrite <- Ef; by apply NoDup_map_filter).
    assert (Hsub : ∀ x, x ∈ a :: b :: l → x ∈ w_members d ∧ active_owner x = true).
    { intros x Hx. rewrite <- Ef in Hx. apply list_elem_of_In, filter_In in Hx as [? ?]. by rewrite list_elem_of_In. }
    destruct (decide (wm_userId a = wm_userId m)) as [Ea|Ea].
    + exists b. destruct (Hsub b) as [Hb Hbo]; [by right; left|]. split_and!; [done..|].
      intros Eb. apply NoDup_cons in Hnd as [Hni _]. apply Hni. simpl. rewrite Ea, <- Eb. by left.
    + exists a. destruct (Hsub a) as [Ha Hao]; [by left|]. done.
Qed.

Lemma removed_distinct d userId : distinct_members d →
  NoDup (map wm_userId (List.filter (λ m, negb (String.eqb (wm_userId m) userId)) (w_members d))).
Proof. apply NoDup_map_filter. Qed.

Section Owners.
Context {C : Type} `{CollectionLaws WorkspaceDoc C}.
Implicit Types c : C.

(** What a handler or a service does to the workspaces. *)
Inductive WorkspaceOp :=
| op_create (id name slug createdBy : string) (now : Z)
| op_patch (p : Principal) (workspaceId userId : string) (role : Role) (now : Z)
| op_delete (p : Principal) (workspaceId userId : string) (now : Z)
| op_invite (workspaceId : string) (i : WorkspaceInvitation) (now : Z)
| op_revokeInvitation (workspaceId invitationId : string) (now : Z)
| op_accept (workspaceId : string) (i : WorkspaceInvitation) (userId : string) (now : Z)
| op_trial (workspaceId startedBy : string) (days now : Z)
| op_rename (workspaceId name : string) (now : Z)
| op_settings (workspaceId : string) (cap : option Q) (runs : option Z) (effect : option string) (now : Z).

Definition apply_op (op : WorkspaceOp) c : C :=
  match op with
  | op_create id name slug createdBy now => (create_workspace id name slug createdBy now c).2
  | op_patch p ws userId role now => (patch_member p ws userId role now c).2
  | op_delete p ws userId now => (delete_member p ws userId now c).2
  | op_invite ws i now => createInvitation ws i now c
  | op_revokeInvitation ws id now => revokeInvitation ws id now c
  | op_accept ws i userId now => (acceptInvitation ws i userId now c).2
  | op_trial ws startedBy days now => (startTrial ws startedBy days now c).2
  | op_rename ws name now => (rename ws name now c).2
  | op_settings ws cap runs effect now => (updateSettings ws cap runs effect now c).2
  end.

Definition all_owned c : Prop := map_Forall (λ _ d, well_owned d) (docs c).

Lemma update_owned id p f c :
  (∀ d, docs c !! id = Some d → p d = true → well_owned d → well_owned (f d)) → all_owned c → all_owned (updateOne id p f c).2.
Proof.
  intros Hf Hall. unfold all_owned. destruct (updateOne_cases id p f c) as [(d & Hd & Hp & _ & ->)|(_ & _ & ->)]; [|done].
  apply map_Forall_insert_2; [|done]. apply Hf; [done..|]. by apply (Hall id d).
Qed.

(** An update that keeps the members keeps their owner. *)
Lemma same_members id p f c :
  (∀ d, w_members (f d) = w_members d) → all_owned c → all_owned (updateOne id p f c).2.
Proof.
  intros Hf. apply update_owned. intros d _ _ [Hd Ho]. unfold well_owned, distinct_members, has_owner. by rewrite Hf.
Qed.

Lemma last_owner_false ws userId c d :
  docs c !! ws = Some d → isLastOwner ws userId c = false →
  ∀ m, List.filter active_owner (w_members d) = [m] → wm_userId m ≠ userId.
Proof. unfold isLastOwner, findWorkspace. intros -> Hl m E <-. by rewrite E, String.eqb_refl in Hl. Qed.

Lemma patch_owned p ws userId role now c : all_owned c → all_owned (patch_member p ws userId role now c).2.
Proof.
  intros Hall. unfold patch_member. destruct (patch_refusal p ws userId role c) eqn:Er; [done|].
  unfold setMemberRole. apply update_owned; [|done]. intros d Hd _ [Hnd Ho].
  unfold patch_refusal in Er. destruct (membershipOf ws userId c) as [current|] eqn:Em; [|done].
  destruct (_ && negb _); [done|].
  split.
  - unfold distinct_members. simpl. rewrite map_map.
    erewrite map_ext; [exact Hnd|]. intros m. by destruct (String.eqb _ _).
  - destruct (decide (role = owner)) as [->|Hr].
    + unfold has_owner. simpl. destruct Ho as (m & Hm & Ha).
      exists (if String.eqb (wm_userId m) userId then with_role owner m else m). split; [by apply list_elem_of_fmap; exists m|].
      apply active_owner_spec in Ha as [Hr Hs]. apply active_owner_spec. by destruct (String.eqb _ _).
    + rewrite bool_decide_eq_false_2 in Er by done. simpl in Er. destruct (isLastOwner ws userId c) eqn:El; [done|].
      destruct (another_owner d userId (conj Hnd Ho)) as (m & Hm & Ha & Hne); [by eapply last_owner_false|].
      exists m. split; [|done]. simpl. apply list_elem_of_fmap. exists m. split; [|done].
      by destruct (String.eqb_spec (wm_userId m) userId).
Qed.

Lemma delete_owned p ws userId now c : all_owned c → all_owned (delete_member p ws userId now c).2.
Proof.
  intros Hall. unfold delete_member. destruct (delete_refusal p ws userId c) eqn:Er; [done|].
  unfold removeMember. apply update_owned; [|done]. intros d Hd _ [Hnd Ho].
  unfold delete_refusal in Er. destruct (membershipOf ws userId c) as [current|]; [|done].
  destruct (_ && negb _); [done|]. destruct (isLastOwner ws userId c) eqn:El; [done|].
  destruct (another_owner d userId (conj Hnd Ho)) as (m & Hm & Ha & Hne); [by eapply last_owner_false|].
  split; [by apply removed_distinct|]. exists m. split; [|done]. simpl. apply list_elem_of_In, filter_In.
  split; [by apply list_elem_of_In|]. by destruct (String.eqb_spec (wm_userId m) userId).
Qed.

Lemma accept_owned ws i userId now c : all_owned c → all_owned (acceptInvitation ws i userId now c).2.
Proof.
  intros Hall. unfold acceptInvitation, addMember. destruct (findWorkspace ws c); [|done]. destruct (_ <=? _)%nat; [done|].
  simpl. apply same_members; [done|]. apply update_owned; [|done]. intros d Hd Hnew [Hnd (m & Hm & Ha)]. split.
  - unfold distinct_members. simpl. rewrite map_app. apply NoDup_app. split; [done|]. split; [|apply NoDup_singleton].
    intros u Hu ->%list_elem_of_singleton. apply negb_true_iff in Hnew. unfold is_member in Hnew.
    apply list_elem_of_fmap in Hu as (m' & E & Hm'). simpl in E, Hnew.
    rewrite existsb_false in Hnew. specialize (Hnew m' Hm'). by rewrite E, String.eqb_refl in Hnew.
  - exists m. split; [|done]. simpl. apply elem_of_app. by left.
Qed.

Lemma op_owned op c : all_owned c → all_owned (apply_op op c).
Proof.
  intros Hall. destruct op; simpl; try (by apply same_members);
    [ |by apply patch_owned|by apply delete_owned| |by apply accept_owned| ].
  - unfold create_workspace, all_owned.
    destruct (insertOne_cases (λ a b, String.eqb (w_slug a) (w_slug b)) id (new_workspace name slug createdBy now) c)
      as [(_ & _ & _ & ->)|[_ ->]]; [|done].
    apply map_Forall_insert_2; [|done]. split; [apply NoDup_singleton|]. eexists. split; [by left|done].
  - unfold createInvitation. by do 2 (apply same_members; [done|]).
  - unfold startTrial. destruct (updateOne _ _ _ _) as [b c'] eqn:E. simpl.
    assert (Hc : c' = (updateOne workspaceId (λ d, bool_decide (w_trial d = None))
      (λ d, set_meta (w_name d) (w_settings d) (Some {| tr_startedAt := now; tr_endsAt := now + days * 24 * 60 * 60 * 1000;
                                                        tr_startedBy := startedBy |}) now d) c).2) by (by rewrite E).
    rewrite Hc. by apply same_members.
Qed.

(** Whatever sequence of requests changes the workspaces, one after another,
    every workspace keeps distinct members and at least one active owner. *)
Theorem workspaces_keep_an_owner (ops : list WorkspaceOp) (c : C) :
  all_owned c → all_owned (foldl (λ c op, apply_op op c) c ops).
Proof. revert c. induction ops as [|op ops IH]; intros c Hall; [done|]. simpl. by apply IH, op_owned. Qed.
End Owners.

(** ** Keys round trip *)
Lemma take_run_stops p s t c : str_all p s = true → p c = false → take_run p (s +:+ String c t) = (s, String c t).
Proof.
  intros Hs Hc. induction s as [|d s IH]; simpl; [by rewrite Hc|].
  simpl in Hs. apply andb_true_iff in Hs as [Hd Hs]. by rewrite Hd, IH.
Qed.

Definition good_prefix (prefix : string) : Prop := str_all alnum prefix = true ∧ (1 ≤ String.length prefix ≤ 32)%nat.
Definition good_secret (secret : string) : Prop :=
  secret ≠ "" ∧ str_all (λ c, negb (is_line_terminator c)) secret = true.

Lemma parse_minted e prefix secret :
  good_prefix prefix → good_secret secret → parseApiKey (minted_key e prefix secret) = Some (e, prefix).
Proof.
  intros [Ha Hl] [Hne Hs].
  assert (Ht : parse_tail (prefix +:+ "_" +:+ secret) = Some prefix).
  { unfold parse_tail. change ("_" +:+ secret) with (String "_" secret). rewrite take_run_stops by done.
    destruct Hl as [Hl1 Hl2]. apply Nat.leb_le in Hl1, Hl2. rewrite Hl1, Hl2. simpl.
    destruct secret as [|c s]; [done|]. by rewrite Hs. }
  unfold parseApiKey, minted_key. set (t := prefix +:+ "_" +:+ secret) in *.
  by destruct e; simpl; rewrite Ht.
Qed.

Section KeyTheorems.
Context {C : Type} `{CollectionLaws ApiKeyDoc C} (sha256 : string → string).
Implicit Types c : C.

(** The unique index of the prefix. *)
Definition prefixes_unique c : Prop :=
  ∀ i j d e, docs c !! i = Some d → docs c !! j = Some e → ak_prefix d = ak_prefix e → i = j.

(** What a resolved key proves of the store. *)
Lemma resolved_key presented now c key :
  resolve_key sha256 presented now c = inr key →
  ∃ d, docs c !! rk_apiKeyId key = Some d ∧ rk_workspaceId key = ak_workspaceId d ∧ rk_scopes key = ak_scopes d ∧
       ak_keyHash d = sha256 presented ∧ ak_revokedAt d = None ∧ (∀ t, ak_expiresAt d = Some t → now < t).
Proof.
  unfold resolve_key. destruct (parseApiKey presented) as [[e prefix]|]; [|done].
  destruct (find_key prefix c) as [[id d]|] eqn:Ef; [|done]. apply find_one_some in Ef as [Hd _].
  unfold verifyApiKey. destruct (String.eqb_spec (sha256 presented) (ak_keyHash d)) as [Eh|]; [|done].
  case_bool_decide as Hr; [|done]. simpl.
  destruct (ak_expiresAt d) as [t|] eqn:Et.
  - destruct (Z.leb_spec t now); [done|]. intros [= <-]. exists d. naive_solver.
  - intros [= <-]. exists d. naive_solver.
Qed.

Lemma find_key_unique prefix c id d :
  prefixes_unique c → docs c !! id = Some d → ak_prefix d = prefix → find_key prefix c = Some (id, d).
Proof.
  intros Hu Hd <-. apply find_one_unique; [done|apply String.eqb_refl|].
  intros id' d' Hd' He%String.eqb_eq. by apply (Hu id' id d' d).
Qed.

(** A minted key resolves to the workspace and the scopes it was minted for,
    until it expires or is revoked; from its revocation on it is refused.  The
    index of the prefixes is what makes the lookup find it. *)
Theorem minted_keys_live_until_revoked workspaceId name scopes createdBy expiresAt id prefix secret now later c :
  let key := minted_key env_live prefix secret in
  let minted := mint_key sha256 workspaceId name scopes createdBy expiresAt id prefix secret now c in
  prefixes_unique c → good_prefix prefix → good_secret secret → minted.1 = true →
  resolve_key sha256 key later minted.2 =
    match expiresAt with
    | Some t => if t <=? later then inl expired
                else inr {| rk_apiKeyId := id; rk_workspaceId := workspaceId; rk_scopes := scopes |}
    | None => inr {| rk_apiKeyId := id; rk_workspaceId := workspaceId; rk_scopes := scopes |}
    end ∧
  (∀ at' later', resolve_key sha256 key later' (revoke_key workspaceId id at' minted.2).2 = inl revoked).
Proof.
  intros key minted Hu Hp Hs Hm.
  unfold minted, mint_key in Hm |- *. set (row := Build_ApiKeyDoc _ _ _ _ _ _ _ _ _ _) in Hm |- *.
  apply insertOne_true in Hm as (Hnew & Hclash & Hdocs).
  set (c' := (insertOne same_prefix id row c).2) in *.
  assert (Hid : docs c' !! id = Some row) by (by rewrite Hdocs, lookup_insert_eq).
  assert (Hu' : prefixes_unique c').
  { assert (Hother : ∀ j e, docs c !! j = Some e → ak_prefix row ≠ ak_prefix e).
    { intros j e He E. specialize (Hclash j e He). unfold same_prefix in Hclash. by rewrite E, String.eqb_refl in Hclash. }
    intros i j d e. rewrite Hdocs, !lookup_insert_Some.
    intros [[<- <-]|[? Hd]] [[<- <-]|[? He]] E; [done|by destruct (Hother j e)|by destruct (Hother i d)|by apply (Hu i j d e)]. }
  assert (Hparse : parseApiKey key = Some (env_live, prefix)) by (by apply parse_minted).
  split.
  - unfold resolve_key. rewrite Hparse, (find_key_unique prefix c' id row) by done.
    unfold verifyApiKey. simpl. fold key. by rewrite String.eqb_refl.
  - intros at' later'. unfold revoke_key.
    set (dead := set_key_times (ak_lastUsedAt row) (Some at') row).
    assert (Hr : docs (updateOne id (λ d, String.eqb (ak_workspaceId d) workspaceId && bool_decide (ak_revokedAt d = None))
                        (λ d, set_key_times (ak_lastUsedAt d) (Some at') d) c').2 = <[id := dead]> (docs c')).
    { destruct (updateOne_cases id (λ d, String.eqb (ak_workspaceId d) workspaceId && bool_decide (ak_revokedAt d = None))
                  (λ d, set_key_times (ak_lastUsedAt d) (Some at') d) c') as [(d & Hd & _ & _ & ->)|(Hno & _)].
      - rewrite Hid in Hd. by injection Hd as <-.
      - specialize (Hno row Hid). simpl in Hno. by rewrite String.eqb_refl in Hno. }
    set (c'' := (updateOne id _ _ c').2) in *.
    assert (Hu'' : prefixes_unique c'').
    { intros i j d e. rewrite Hr, !lookup_insert_Some.
      intros [[<- <-]|[? Hd]] [[<- <-]|[? He]] E; [done|by apply (Hu' id j row e)|by apply (Hu' i id d row)|by apply (Hu' i j d e)]. }
    unfold resolve_key. rewrite Hparse, (find_key_unique prefix c'' id dead) by (done || by rewrite Hr, lookup_insert_eq).
    unfold verifyApiKey. simpl. fold key. by rewrite String.eqb_refl.
Qed.
End KeyTheorems.

(** ** Who reaches a handler *)
Section Admission.
Context {CW CK CG : Type} `{CollectionLaws WorkspaceDoc CW, CollectionLaws ApiKeyDoc CK, CollectionLaws OAuthGrantDoc CG}.
Context (sha256 lower : string → string).

(** The store vouches for a principal: an active member in their present role,
    or a live key whose hash is that of the token the request carried. *)
Definition vouched (request : Request) (workspaceId : string) (now : Z) (keys : CK) (workspaces : CW) (p : Principal) : Prop :=
  match p with
  | PUser userId ws role =>
      ws = workspaceId ∧ rq_caller request = Some userId ∧ bearerOf lower (rq_authorization request) = None ∧
      ∃ d m, docs workspaces !! workspaceId = Some d ∧ m ∈ w_members d ∧ wm_userId m = userId ∧ wm_role m = role ∧ wm_status m = active
  | PApiKey id ws scopes =>
      ws = workspaceId ∧ ∃ token d, bearerOf lower (rq_authorization request) = Some token ∧ docs keys !! id = Some d ∧
        ak_workspaceId d = workspaceId ∧ ak_scopes d = scopes ∧ ak_keyHash d = sha256 token ∧ ak_revokedAt d = None ∧
        (∀ t, ak_expiresAt d = Some t → now < t)
  | _ => False
  end.

Lemma member_of workspaceId userId (c : CW) role :
  membershipOf workspaceId userId c = Some role →
  ∃ d m, docs c !! workspaceId = Some d ∧ m ∈ w_members d ∧ wm_userId m = userId ∧ wm_role m = role ∧ wm_status m = active.
Proof.
  unfold membershipOf, findWorkspace. destruct (docs c !! workspaceId) as [d|] eqn:Hd; [|done]. simpl.
  destruct (find _ _) as [m|] eqn:Hm; [|done]. simpl. case_bool_decide as Hs; [|done]. intros [= <-].
  apply find_some in Hm as [Hin He%String.eqb_eq]. exists d, m. rewrite list_elem_of_In. naive_solver.
Qed.

Lemma resolved_principal request workspaceId now keys workspaces p :
  resolvePrincipal sha256 lower request workspaceId now keys workspaces = Ret p →
  vouched request workspaceId now keys workspaces p.
Proof.
  unfold resolvePrincipal. destruct (bearerOf lower (rq_authorization request)) as [token|] eqn:Eb.
  - destruct (resolve_key sha256 token now keys) as [|key] eqn:Ek; [done|].
    destruct (String.eqb_spec (rk_workspaceId key) workspaceId) as [Ew|]; [|done]. simpl. intros [= <-].
    apply resolved_key in Ek as (d & Hd & Hw & Hsc & Hh & Hr & Ht). split; [done|]. exists token, d. naive_solver congruence.
  - destruct (rq_caller request) as [userId|] eqn:Ec; [|done].
    destruct (membershipOf workspaceId userId workspaces) as [role|] eqn:Em; [|done]. intros [= <-].
    split_and!; [done..|]. by apply member_of.
Qed.

(** C8.  A handler behind [workspaceRoute] runs only for a principal of the
    workspace in its path, who holds the permission the route names and whom
    the store vouches for at that moment: a user with an active membership in
    that role, or the bearer of a stored, live API key with those scopes.  An
    agent, a channel identity or the system never enters this way. *)
Theorem admitted_principals_are_current permission request workspaceId now keys workspaces p :
  workspaceRoute sha256 lower permission request workspaceId now keys workspaces = Ret p →
  hasPermission p permission = true ∧ workspaceOf p = Some workspaceId ∧ vouched request workspaceId now keys workspaces p.
Proof.
  unfold workspaceRoute. destruct (resolvePrincipal _ _ _ _ _ _ _) as [q|] eqn:Er; [|done].
  unfold requirePermission. destruct (hasPermission q permission) eqn:Hp; [|done]. intros [= <-].
  apply resolved_principal in Er. split_and!; [done| |done]. by destruct q; destruct Er as [-> _] || destruct Er.
Qed.

(** An access token admits its user to the workspace and the agent it was
    issued for, while that user is an active member, in the role of now. *)
Lemma oauth_principals_are_members token workspaceId agentId now (grants : CG) (workspaces : CW) p :
  resolveOAuthPrincipal sha256 token workspaceId agentId now grants workspaces = Ret (Some p) →
  ∃ access role, resolveAccessToken sha256 token now grants = Some access ∧ gc_workspaceId access = workspaceId ∧
    gc_agentId access = agentId ∧ membershipOf workspaceId (gc_userId access) workspaces = Some role ∧
    p = PUser (gc_userId access) workspaceId role.
Proof.
  unfold resolveOAuthPrincipal. case_bool_decide; [|done]. simpl.
  destruct (resolveAccessToken sha256 token now grants) as [access|]; [|done].
  destruct (String.eqb_spec (gc_workspaceId access) workspaceId) as [<-|]; [|done].
  destruct (String.eqb_spec (gc_agentId access) agentId) as [<-|]; [|done]. simpl.
  destruct (membershipOf _ _ workspaces) as [role|] eqn:Em; [|done]. intros [= <-]. by exists access, role.
Qed.
End Admission.

(** ** Instances *)
Notation Workspaces := (gmap string WorkspaceDoc).
Notation Keys := (gmap string ApiKeyDoc).

Definition one_workspace : Workspaces := {["wks_1" := new_workspace "Acme" "acme" "usr_1" 0]}.
Definition colleague : WorkspaceInvitation := {|
  wi_id := "inv_1"; wi_email := "b@acme.test"; wi_role := member; wi_tokenHash := "h"; wi_invitedBy := "usr_1"; wi_expiresAt := 1000 |}.
Definition the_owner : Principal := PUser "usr_1" "wks_1" owner.

Lemma one_workspace_owned : all_owned one_workspace.
Proof.
  apply map_Forall_singleton. split; [apply NoDup_singleton|]. eexists. split; [by left|done].
Defined.

Lemma workspaces_keep_an_owner_witness :
  all_owned one_workspace ∧
  all_owned (foldl (λ c op, apply_op op c) one_workspace
    [op_invite "wks_1" colleague 1; op_accept "wks_1" colleague "usr_2" 2; op_delete the_owner "wks_1" "usr_1" 3;
     op_patch the_owner "wks_1" "usr_2" owner 4; op_delete the_owner "wks_1" "usr_1" 5]).
Proof. split; [apply one_workspace_owned|]. apply (workspaces_keep_an_owner _ one_workspace), one_workspace_owned. Defined.

(** In that history the first removal is refused and the second one succeeds. *)
Example last_owner_stays :
  let joined : Workspaces := foldl (λ c op, apply_op op c) one_workspace [op_invite "wks_1" colleague 1; op_accept "wks_1" colleague "usr_2" 2] in
  (delete_member the_owner "wks_1" "usr_1" 3 joined).1 = r_conflict ∧
  (delete_member the_owner "wks_1" "usr_1" 5 (patch_member the_owner "wks_1" "usr_2" owner 4 joined).2).1 = r_ok.
Proof. vm_compute. done. Qed.

(** Two owners step down at once: both requests pass the check before either
    writes, and the workspace is left with none. *)
Definition two_owners : Workspaces :=
  foldl (λ c op, apply_op op c) one_workspace [op_accept "wks_1" colleague "usr_2" 2; op_patch the_owner "wks_1" "usr_2" owner 4].
Example concurrent_demotions_orphan :
  patch_refusal the_owner "wks_1" "usr_1" member two_owners = None ∧
  patch_refusal (PUser "usr_2" "wks_1" owner) "wks_1" "usr_2" member two_owners = None ∧
  (setMemberRole "wks_1" "usr_2" member 6 (setMemberRole "wks_1" "usr_1" member 5 two_owners).2).1 = true ∧
  (d ← findWorkspace "wks_1" (setMemberRole "wks_1" "usr_2" member 6 (setMemberRole "wks_1" "usr_1" member 5 two_owners).2).2;
   Some (List.filter active_owner (w_members d))) = Some [].
Proof. vm_compute. done. Qed.

(** A suspended member is not a member to [membershipOf], but [listForUser]
    still lists the workspace: another member's status meets its condition. *)
Definition with_suspended : Workspaces :=
  {["wks_1" := set_people [{| wm_userId := "usr_1"; wm_role := owner; wm_status := active; wm_joinedAt := 0; wm_invitedBy := None |};
                           {| wm_userId := "usr_2"; wm_role := member; wm_status := suspended; wm_joinedAt := 1; wm_invitedBy := None |}]
                 [] 2 (new_workspace "Acme" "acme" "usr_1" 0)]}.
Example suspended_members_see_the_workspace :
  membershipOf "wks_1" "usr_2" with_suspended = None ∧ listForUser "usr_2" with_suspended = ["wks_1"].
Proof. vm_compute. done. Qed.

Definition a_key : string := minted_key env_live "abc123" "s3_cr-et".
Definition no_keys : Keys := ∅.
Definition one_key : Keys := (mint_key id "wks_1" "ci" [runs_create] "usr_1" (Some 100) "key_1" "abc123" "s3_cr-et" 5 no_keys).2.

Lemma minted_keys_live_until_revoked_witness :
  resolve_key id a_key 50 one_key = inr {| rk_apiKeyId := "key_1"; rk_workspaceId := "wks_1"; rk_scopes := [runs_create] |} ∧
  resolve_key id a_key 60 (revoke_key "wks_1" "key_1" 55 one_key).2 = inl revoked.
Proof.
  destruct (minted_keys_live_until_revoked id "wks_1" "ci" [runs_create] "usr_1" (Some 100) "key_1" "abc123" "s3_cr-et" 5 50 no_keys) as [H1 H2].
  - intros i j d e Hd. discriminate Hd.
  - split; [reflexivity|simpl; lia].
  - split; [discriminate|reflexivity].
  - vm_compute. reflexivity.
  - split; [exact H1|apply H2].
Defined.

Definition the_request : Request := {| rq_authorization := Some ("Bearer " +:+ a_key); rq_caller := None |}.
Definition lower_bearer (s : string) : string := if String.eqb s "Bearer" then "bearer" else s.

Lemma admitted_principals_are_current_witness :
  workspaceRoute id lower_bearer runs_create the_request "wks_1" 50 one_key one_workspace = Ret (PApiKey "key_1" "wks_1" [runs_create]) ∧
  vouched id lower_bearer the_request "wks_1" 50 one_key one_workspace (PApiKey "key_1" "wks_1" [runs_create]).
Proof.
  assert (Hr : workspaceRoute id lower_bearer runs_create the_request "wks_1" 50 one_key one_workspace = Ret (PApiKey "key_1" "wks_1" [runs_create]))
    by (vm_compute; reflexivity).
  split; [exact Hr|]. apply (admitted_principals_are_current id lower_bearer runs_create the_request "wks_1" 50 one_key one_workspace _ Hr).
Defined.
