(* ===== verification/OAuthRoutes.v ===== *)
(** * The endpoints of the authorization server

    Models apps/web/src/lib/oauth-server.ts and the routes under
    apps/web/src/app/api/oauth: registration of a client, the authorization
    request a person answers, and the token endpoint.  The rows of codes and
    tokens are those of [OAuthServer].  The parsers of URLs and forms are
    parameters; the session of the caller, the members and the agents are what a
    request finds. *)
From S2P Require Import Prelude Json JsonText Text Entities Mongo Guard Principal ToolNames OAuthServer Access.

(** ** URLs *)

(** What the code reads of a parsed URL. *)
Record Url := { u_protocol : string; u_origin : string; u_hostname : string; u_host : string; u_pathname : string; u_hash : string }.

Definition ASSISTANT_SCOPE : string := "assistant".
Definition id_char (c : Ascii.ascii) : bool := is_alnum c || Ascii.eqb c "_" || Ascii.eqb c "-".
(** [ASSISTANT_PATH.exec(pathname)]. *)
Definition ASSISTANT_PATH (path : string) : option (string * string) :=
  r1 ← eat "/mcp/w/" path;
  let '(ws, r2) := span id_char r1 in
  r3 ← eat "/assistants/" r2;
  let '(agent, r4) := span id_char r3 in
  if String.eqb ws "" || String.eqb agent "" || negb (String.eqb r4 "") then None else Some (ws, agent).

(** A scheme and its colon, for the [i] flag. *)
Definition scheme_char (c : Ascii.ascii) : bool :=
  is_alnum c || Ascii.eqb c "+" || Ascii.eqb c "." || Ascii.eqb c "-".
Definition native_scheme (protocol : string) : bool :=
  match protocol with
  | String c r => (is_upper c || is_lower c) && let '(_, rest) := span scheme_char r in String.eqb rest ":"
  | EmptyString => false
  end.

Section Addresses.
Context (parse_url : string → option Url) (issuer : string).

Definition assistantPath (workspaceId agentId : string) : string := "/mcp/w/" +:+ workspaceId +:+ "/assistants/" +:+ agentId.
Definition assistantResource (workspaceId agentId : string) : string := issuer +:+ assistantPath workspaceId agentId.
Definition parseAssistantResource (resource : string) : option (string * string) :=
  url ← parse_url resource;
  if negb (String.eqb (u_origin url) issuer) then None else ASSISTANT_PATH (u_pathname url).
Definition protectedResourceMetadataUrl (workspaceId agentId : string) : string :=
  issuer +:+ "/.well-known/oauth-protected-resource" +:+ assistantPath workspaceId agentId.

Definition isAcceptableRedirectUri (raw : string) : bool :=
  match parse_url raw with
  | None => false
  | Some url =>
      if negb (String.eqb (u_hash url) "") then false
      else if String.eqb (u_protocol url) "https:" then true
      else if String.eqb (u_protocol url) "http:"
      then String.eqb (u_hostname url) "127.0.0.1" || String.eqb (u_hostname url) "localhost" || String.eqb (u_hostname url) "[::1]"
      else native_scheme (u_protocol url) && negb (String.eqb (u_protocol url) "javascript:") && negb (String.eqb (u_protocol url) "data:")
  end.
End Addresses.

Definition redirectUriRegistered (registered : list string) (presented : string) : bool := bool_decide (presented ∈ registered).

(** ** Registration *)

Record OAuthClientDoc := {
  oc_name : string; oc_redirectUris : list string; oc_clientUri : option string; oc_logoUri : option string; oc_createdAt : Z }.

(** A member of the schema: absent, present, or not valid. *)
Definition optional {A} (read : value → option A) (v : value) : option (option A) :=
  match v with VUndefined => Some None | _ => Some <$> read v end.
Definition a_string (ok : string → bool) (v : value) : option string := match v with VString s => if ok s then Some s else None | _ => None end.
Definition up_to (n : nat) (s : string) : bool := (String.length s <=? n)%nat.
Definition trimmed_name (v : value) : option string :=
  match v with VString s => let t := js_trim s in if negb (String.eqb t "") && up_to 120 t then Some t else None | _ => None end.
Definition strings (ok : string → bool) (v : value) : option (list string) :=
  match v with VArray l => mapM (a_string ok) l | _ => None end.
Definition redirect_list (v : value) : option (list string) :=
  uris ← strings (up_to 2048) v;
  if (1 <=? length uris)%nat && (length uris <=? 10)%nat then Some uris else None.

Record Registration := {
  rg_name : option string; rg_redirectUris : list string; rg_clientUri : option string; rg_logoUri : option string; rg_method : option string }.

Section Endpoints.
Context {CC CG CW : Type} `{CollectionLaws OAuthClientDoc CC, CollectionLaws OAuthGrantDoc CG, CollectionLaws WorkspaceDoc CW}.
Context (sha256 challenge_of : string → string) (parse_url : string → option Url) (is_url : string → bool) (issuer : string).
Context (decode_form : string → list (string * string)).

(** [registration.safeParse(body)]; [is_url] is the check of [z.string().url()]. *)
Definition registration (body : value) : option Registration :=
  match body with
  | VObject _ =>
      name ← optional trimmed_name (own body "client_name");
      uris ← redirect_list (own body "redirect_uris");
      uri ← optional (a_string (λ s, is_url s && up_to 2048 s)) (own body "client_uri");
      logo ← optional (a_string (λ s, is_url s && up_to 2048 s)) (own body "logo_uri");
      method ← optional (a_string (λ _, true)) (own body "token_endpoint_auth_method");
      _ ← optional (strings (λ _, true)) (own body "grant_types");
      _ ← optional (strings (λ _, true)) (own body "response_types");
      _ ← optional (a_string (λ _, true)) (own body "scope");
      Some {| rg_name := name; rg_redirectUris := uris; rg_clientUri := uri; rg_logoUri := logo; rg_method := method |}
  | _ => None
  end.

Inductive RegisterAnswer := ra_invalid_metadata | ra_invalid_redirect (uri : string) | ra_created (clientId : string) (client : OAuthClientDoc) | ra_thrown.

Definition registerClient (newId : string) (doc : OAuthClientDoc) (c : CC) : bool * CC := insertOne (λ _ _, false) newId doc c.
Definition client_doc (input : Registration) (now : Z) : OAuthClientDoc := {|
  oc_name := match rg_name input with
             | Some name => name
             | None => default "" (u_hostname <$> (head (rg_redirectUris input) ≫= parse_url))
             end;
  oc_redirectUris := rg_redirectUris input; oc_clientUri := rg_clientUri input; oc_logoUri := rg_logoUri input; oc_createdAt := now |}.

(** POST of register/route.ts, for the text of the body. *)
Definition register_POST (body newId : string) (now : Z) (c : CC) : RegisterAnswer * CC :=
  match json_parse body ≫= registration with
  | None => (ra_invalid_metadata, c)
  | Some input =>
      match find (λ uri, negb (isAcceptableRedirectUri parse_url uri)) (rg_redirectUris input) with
      | Some bad => (ra_invalid_redirect bad, c)
      | None =>
          match rg_method input with
          | Some m => if String.eqb m "none" then
                        let '(ok, c') := registerClient newId (client_doc input now) c in
                        (if ok then ra_created newId (client_doc input now) else ra_thrown, c')
                      else (ra_invalid_metadata, c)
          | None => let '(ok, c') := registerClient newId (client_doc input now) c in
                    (if ok then ra_created newId (client_doc input now) else ra_thrown, c')
          end
      end
  end.

(** ** The authorization request *)

Record AuthorizeRequest := {
  aq_client_id : string; aq_redirect_uri : string; aq_code_challenge : string; aq_state : option string; aq_scope : option string; aq_resource : string }.

Definition S256_challenge (s : string) : bool := str_all id_char s && (String.length s =? 43)%nat.
Definition non_empty (s : string) : bool := negb (String.eqb s "").
Definition checked_by (ok : string → bool) (v : option string) : option string := s ← v; if ok s then Some s else None.
(** [authorizeRequest.safeParse(input)], for the parameters of the request. *)
Definition authorizeRequest (input : string → option string) : option AuthorizeRequest :=
  _ ← checked_by (String.eqb "code") (input "response_type");
  client ← checked_by non_empty (input "client_id");
  redirect ← checked_by non_empty (input "redirect_uri");
  challenge ← checked_by S256_challenge (input "code_challenge");
  _ ← checked_by (String.eqb "S256") (input "code_challenge_method");
  resource ← checked_by non_empty (input "resource");
  if match input "state" with Some s => up_to 1024 s | None => true end
  then Some {| aq_client_id := client; aq_redirect_uri := redirect; aq_code_challenge := challenge; aq_state := input "state";
               aq_scope := input "scope"; aq_resource := resource |}
  else None.

Definition scope_offered (scope : option string) : bool :=
  match scope with
  | Some s => forallb (λ part, String.eqb part "" || String.eqb part ASSISTANT_SCOPE) (str_split " " s)
  | None => true
  end.

Record AgentFace := { af_name : string; af_color : option string; af_description : option string }.

(** What a request to the authorization endpoint finds. *)
Record Asking := {
  ak_caller : option string; ak_input : string → option string; ak_workspaces : CW; ak_agents : string → string → option AgentFace;
  ak_origin : string; ak_now : Z; ak_ids : string * string * string }.

Record Checked := {
  kd_request : AuthorizeRequest; kd_clientId : string; kd_client : OAuthClientDoc; kd_workspaceId : string; kd_agentId : string;
  kd_agent : AgentFace; kd_userId : string }.
Inductive AuthorizeRefusal :=
| az_unauthenticated | az_invalid_request | az_invalid_target | az_invalid_scope | az_invalid_client | az_unregistered_redirect | az_not_a_member | az_no_assistant.

Definition check (a : Asking) (clients : CC) : AuthorizeRefusal + Checked :=
  match ak_caller a with
  | None => inl az_unauthenticated
  | Some userId =>
  match authorizeRequest (ak_input a) with
  | None => inl az_invalid_request
  | Some req =>
  match parseAssistantResource parse_url issuer (aq_resource req) with
  | None => inl az_invalid_target
  | Some (workspaceId, agentId) =>
  if negb (scope_offered (aq_scope req)) then inl az_invalid_scope else
  match docs clients !! aq_client_id req with
  | None => inl az_invalid_client
  | Some client =>
  if negb (redirectUriRegistered (oc_redirectUris client) (aq_redirect_uri req)) then inl az_unregistered_redirect else
  match membershipOf workspaceId userId (ak_workspaces a), findWorkspace workspaceId (ak_workspaces a) with
  | Some _, Some _ =>
      match ak_agents a workspaceId agentId with
      | None => inl az_no_assistant
      | Some agent => inr {| kd_request := req; kd_clientId := aq_client_id req; kd_client := client; kd_workspaceId := workspaceId;
                             kd_agentId := agentId; kd_agent := agent; kd_userId := userId |}
      end
  | _, _ => inl az_not_a_member
  end end end end end.

(** An address to send the person to: a URL and the parameters set on it. *)
Record Redirect := { rd_base : string; rd_params : list (string * string) }.
Inductive AuthorizeAnswer := ax_refused (r : AuthorizeRefusal) | ax_described (c : Checked) (redirectHost : string) | ax_back (r : Redirect) | ax_thrown.

Definition authorize_GET (a : Asking) (clients : CC) : AuthorizeAnswer :=
  match check a clients with
  | inl r => ax_refused r
  | inr c => match parse_url (aq_redirect_uri (kd_request c)) with Some url => ax_described c (u_host url) | None => ax_thrown end
  end.

Definition consent_context (c : Checked) : GrantContext := {|
  gc_workspaceId := kd_workspaceId c; gc_userId := kd_userId c; gc_agentId := kd_agentId c; gc_clientId := kd_clientId c; gc_scope := ASSISTANT_SCOPE;
  gc_resource := assistantResource issuer (kd_workspaceId c) (kd_agentId c) |}.

Definition authorize_POST (allow : bool) (a : Asking) (clients : CC) (c : CG) : AuthorizeAnswer * CG :=
  match check a clients with
  | inl r => (ax_refused r, c)
  | inr k =>
      match parse_url (aq_redirect_uri (kd_request k)) with
      | None => (ax_thrown, c)
      | Some _ =>
          let state := match aq_state (kd_request k) with Some s => [("state", s)] | None => [] end in
          let back params := ax_back {| rd_base := aq_redirect_uri (kd_request k); rd_params := state ++ params |} in
          if negb allow then (back [("error", "access_denied"); ("error_description", "The person declined.")], c)
          else
            let '(id, familyId, random) := ak_ids a in
            match issueCode sha256 (consent_context k) (aq_redirect_uri (kd_request k)) (aq_code_challenge (kd_request k)) id familyId random (ak_now a) c with
            | (Ret code, c') => (back [("code", code); ("iss", ak_origin a)], c')
            | (Throw _, c') => (ax_thrown, c')
            end
      end
  end.

(** ** The token endpoint *)

Record Posted := { po_contentType : option string; po_body : string }.

(** The string members of a JSON body, as form fields.  The members of an array
    or of a string are numbered, and no field the endpoint reads is. *)
Definition json_fields (v : value) : option (list (string * string)) :=
  match v with
  | VNull | VUndefined => None
  | VObject es => Some (omap (λ kv, match kv.2 with VString s => Some (kv.1, s) | _ => None end) es)
  | _ => Some []
  end.
Definition readForm (p : Posted) : option (list (string * string)) :=
  let type := default "" (po_contentType p) in
  if String.prefix "application/x-www-form-urlencoded" type then Some (decode_form (po_body p))
  else if String.prefix "application/json" type then json_parse (po_body p) ≫= json_fields
  else None.

Definition REASONS (f : GrantFailure) : string :=
  match f with
  | g_invalid => "The grant is not recognised."
  | g_expired => "The grant has expired."
  | g_used => "The grant was already used. Every token from it has been revoked."
  | g_client_mismatch => "The grant belongs to another client."
  | g_redirect_mismatch => "The redirect URI does not match the one the code was issued for."
  | g_pkce => "The code verifier does not match the challenge."
  end.

Inductive TokenAnswer := tk_fail (error description : string) (status : Z) | tk_issued (tokens : IssuedTokens) | tk_thrown.

(** What others write while the request runs, between its commands. *)
Record Meanwhile := { mw_first : list GrantWrite; mw_second : list GrantWrite; mw_third : list GrantWrite }.

Definition code_grant (form : list (string * string)) (clientId : string) (draw : Draw) (now : Z) (mw : Meanwhile) (c : CG) : TokenAnswer * CG :=
  match assoc_get "code" form, assoc_get "redirect_uri" form, assoc_get "code_verifier" form with
  | Some code, Some redirectUri, Some verifier =>
      match redeemCode sha256 challenge_of code {| pr_clientId := clientId; pr_redirectUri := redirectUri; pr_codeVerifier := verifier |} draw now
              (mw_first mw, mw_second mw) c with
      | (Throw _, c') => (tk_thrown, c')
      | (Ret (inl reason), c') => (tk_fail "invalid_grant" (REASONS reason) 400, c')
      | (Ret (inr (tokens, grant)), c') =>
          match assoc_get "resource" form with
          | Some resource => if negb (String.eqb resource (gc_resource grant))
                             then (tk_fail "invalid_target" "The resource does not match the one authorised." 400, c')
                             else (tk_issued tokens, c')
          | None => (tk_issued tokens, c')
          end
      end
  | _, _, _ => (tk_fail "invalid_request" "code, redirect_uri and code_verifier are required." 400, c)
  end.

Definition refresh_grant (form : list (string * string)) (clientId : string) (draw : Draw) (now : Z) (mw : Meanwhile) (c : CG) : TokenAnswer * CG :=
  match assoc_get "refresh_token" form with
  | None => (tk_fail "invalid_request" "refresh_token is required." 400, c)
  | Some token =>
      match rotateRefreshToken sha256 token clientId draw now (mw_first mw, mw_second mw, mw_third mw) c with
      | (Throw _, c') => (tk_thrown, c')
      | (Ret (inl reason), c') => (tk_fail "invalid_grant" (REASONS reason) 400, c')
      | (Ret (inr tokens), c') => (tk_issued tokens, c')
      end
  end.

Definition token_POST (p : Posted) (draw : Draw) (now : Z) (mw : Meanwhile) (clients : CC) (c : CG) : TokenAnswer * CG :=
  match readForm p with
  | None => (tk_fail "invalid_request" "Send application/x-www-form-urlencoded." 400, c)
  | Some form =>
      match assoc_get "client_id" form with
      | None => (tk_fail "invalid_client" "client_id is required." 401, c)
      | Some clientId =>
          if String.eqb clientId "" then (tk_fail "invalid_client" "client_id is required." 401, c)
          else match docs clients !! clientId with
          | None => (tk_fail "invalid_client" "Unknown client." 401, c)
          | Some _ =>
              if bool_decide (assoc_get "grant_type" form = Some "authorization_code") then code_grant form clientId draw now mw c
              else if bool_decide (assoc_get "grant_type" form = Some "refresh_token") then refresh_grant form clientId draw now mw c
              else (tk_fail "unsupported_grant_type" "Use authorization_code or refresh_token." 400, c)
          end
      end
  end.

(** ** Resources *)

Lemma assistant_path_reads workspaceId agentId :
  str_all id_char workspaceId = true → str_all id_char agentId = true → workspaceId ≠ "" → agentId ≠ "" →
  ASSISTANT_PATH (assistantPath workspaceId agentId) = Some (workspaceId, agentId).
Proof.
  intros Hw Ha Hw0 Ha0. unfold ASSISTANT_PATH, assistantPath. rewrite eat_app. cbn [mbind option_bind]. rewrite span_app by done.
  rewrite eat_app. cbn [mbind option_bind]. rewrite span_all by done. apply String.eqb_neq in Hw0, Ha0. by rewrite Hw0, Ha0.
Qed.

(** The resource a consent is recorded for names its assistant and no other. *)
Theorem resources_name_their_assistant workspaceId agentId :
  (∀ path, ∃ url, parse_url (issuer +:+ path) = Some url ∧ u_origin url = issuer ∧ u_pathname url = path) →
  str_all id_char workspaceId = true → str_all id_char agentId = true → workspaceId ≠ "" → agentId ≠ "" →
  parseAssistantResource parse_url issuer (assistantResource issuer workspaceId agentId) = Some (workspaceId, agentId).
Proof.
  intros Hurl Hw Ha Hw0 Ha0. unfold parseAssistantResource, assistantResource.
  destruct (Hurl (assistantPath workspaceId agentId)) as (url & -> & Ho & Hp). cbn [mbind option_bind].
  rewrite Ho, String.eqb_refl, Hp. by apply assistant_path_reads.
Qed.

(** ** What every row of the grants satisfies *)

Section Rows.
Context (P : OAuthGrantDoc → Prop).
Context (P_used : ∀ now d, P d → P (mark_used now d)) (P_revoked : ∀ now d, P d → P (mark_revoked now d)).
Context (P_tokens : ∀ kind token fam now ttl d, kind ≠ k_code → P d → P (new_grant sha256 kind token (gd_context d) fam None None now ttl)).

Definition rows_ok (c : CG) : Prop := ∀ id d, docs c !! id = Some d → P d.
Definition write_ok (w : GrantWrite) : Prop := match w with g_insert _ d => P d | _ => True end.

Lemma oauth_insert_rows id d c : P d → rows_ok c → rows_ok (insertOne same_hash id d c).2.
Proof.
  intros Hd Hc. destruct (insert_cases id d c) as [(_ & _ & _ & E)|[_ E]]; intros k e; rewrite E; [|apply Hc].
  intros [[_ <-]|[_ ?]]%lookup_insert_Some; [done|by eapply Hc].
Qed.
Lemma claim_rows id now c : rows_ok c → rows_ok (claim_grant id now c).2.
Proof.
  intros Hc. unfold claim_grant. destruct (updateOne_cases id unused (mark_used now) c) as [(d & Hd & _ & _ & E)|(_ & _ & E)];
    intros k e; rewrite E; [|apply Hc]. intros [[_ <-]|[_ ?]]%lookup_insert_Some; [apply P_used|]; by eapply Hc.
Qed.
Lemma oauth_revoke_rows p now c : rows_ok c → rows_ok (updateMany p (mark_revoked now) c).2.
Proof.
  intros Hc k e. rewrite (proj2 (updateMany_docs p (mark_revoked now) c)), lookup_fmap_Some. intros (d & <- & Hd).
  destruct (p d); [apply P_revoked|]; by eapply Hc.
Qed.
Lemma write_rows w c : write_ok w → rows_ok c → rows_ok (apply_write w c).
Proof. destruct w; cbn [apply_write write_ok]; auto using oauth_insert_rows, claim_rows; intros _; apply oauth_revoke_rows. Qed.
Lemma writes_rows ws c : Forall write_ok ws → rows_ok c → rows_ok (apply_writes ws c).
Proof. intros Hw. revert c. induction Hw as [|w ws Hw _ IH]; intros c Hc; [done|]. by apply IH, write_rows. Qed.

Lemma issue_rows d fam draw now c : P d → rows_ok c → rows_ok (issueTokens sha256 (gd_context d) fam draw now c).2.
Proof.
  intros Hd Hc. unfold issueTokens.
  pose proof (oauth_insert_rows (dr_accessId draw) _ c (P_tokens k_access (mint_token k_access (dr_access draw)) fam now ACCESS_TTL_MS d ltac:(done) Hd) Hc) as H1'.
  destruct (insertOne _ (dr_accessId draw) _ c) as [[] c1]; [|done].
  pose proof (oauth_insert_rows (dr_refreshId draw) _ c1 (P_tokens k_refresh (mint_token k_refresh (dr_refresh draw)) fam now REFRESH_TTL_MS d ltac:(done) Hd) H1') as H2'.
  by destruct (insertOne _ (dr_refreshId draw) _ c1) as [[] c2].
Qed.

Lemma redeem_rows code presented draw now mw c :
  Forall write_ok mw.1 → Forall write_ok mw.2 → rows_ok c → rows_ok (redeemCode sha256 challenge_of code presented draw now mw c).2.
Proof.
  intros Hm1 Hm2 Hc. unfold redeemCode. destruct (negb _); [done|]. destruct (find_grant _ _ _ _) as [[id d]|] eqn:Hf; [|done].
  apply find_grant_some in Hf as (Hd & _ & _). destruct (negb _); [by apply oauth_revoke_rows|]. destruct (code_refusal _ _ _ _); [done|].
  pose proof (claim_rows id now (apply_writes mw.1 c) (writes_rows _ _ Hm1 Hc)) as Hcl.
  destruct (claim_grant _ _ _) as [[] c1]; [|by apply oauth_revoke_rows].
  pose proof (issue_rows d (gd_familyId d) draw now (apply_writes mw.2 c1) (Hc id d Hd) (writes_rows _ _ Hm2 Hcl)) as Hi.
  by destruct (issueTokens _ _ _ _ _ _) as [[] c2].
Qed.

Lemma rotate_rows token clientId draw now mw c :
  Forall write_ok mw.1.1 → Forall write_ok mw.1.2 → Forall write_ok mw.2 → rows_ok c → rows_ok (rotateRefreshToken sha256 token clientId draw now mw c).2.
Proof.
  destruct mw as [[m1 m2] m3]. cbn [fst snd]. intros Hm1 Hm2 Hm3 Hc. unfold rotateRefreshToken. destruct (negb _); [done|].
  destruct (find_grant _ _ _ _) as [[id d]|] eqn:Hf; [|done]. apply find_grant_some in Hf as (Hd & _ & _).
  destruct (negb _); [done|]. destruct (negb _); [by apply oauth_revoke_rows|]. destruct (_ || _); [done|].
  pose proof (claim_rows id now (apply_writes m1 c) (writes_rows _ _ Hm1 Hc)) as Hcl.
  destruct (claim_grant _ _ _) as [[] c1]; [|by apply oauth_revoke_rows].
  assert (rows_ok (apply_writes m3 (revokeAccess (gc_workspaceId (gd_context d)) (gd_familyId d) now (apply_writes m2 c1)))) as H3'
    by (apply writes_rows; [done|]; apply oauth_revoke_rows; by apply writes_rows).
  pose proof (issue_rows d (gd_familyId d) draw now _ (Hc id d Hd) H3') as Hi. by destruct (issueTokens _ _ _ _ _ _) as [[] c2].
Qed.

Definition meanwhile_ok (mw : Meanwhile) : Prop := Forall write_ok (mw_first mw) ∧ Forall write_ok (mw_second mw) ∧ Forall write_ok (mw_third mw).

Lemma token_rows p draw now mw clients c : meanwhile_ok mw → rows_ok c → rows_ok (token_POST p draw now mw clients c).2.
Proof.
  intros (Hm1 & Hm2 & Hm3) Hc. unfold token_POST. destruct (readForm p) as [form|]; [|done]. destruct (assoc_get "client_id" form) as [client|]; [|done].
  destruct (String.eqb _ _); [done|]. destruct (docs clients !! client); [|done]. destruct (bool_decide _).
  - unfold code_grant. destruct (assoc_get "code" form) as [code|], (assoc_get "redirect_uri" form) as [uri|], (assoc_get "code_verifier" form) as [v|]; try done.
    pose proof (redeem_rows code {| pr_clientId := client; pr_redirectUri := uri; pr_codeVerifier := v |} draw now (mw_first mw, mw_second mw) c Hm1 Hm2 Hc) as Hr.
    destruct (redeemCode _ _ _ _ _ _ _ _) as [[[?|[??]]|] c']; [done| |done]. destruct (assoc_get "resource" form) as [res|]; [|done]. by destruct (negb _).
  - destruct (bool_decide _); [|done]. unfold refresh_grant. destruct (assoc_get "refresh_token" form) as [tok|]; [|done].
    pose proof (rotate_rows tok client draw now (mw_first mw, mw_second mw, mw_third mw) c Hm1 Hm2 Hm3 Hc) as Hr.
    by destruct (rotateRefreshToken _ _ _ _ _ _ _) as [[[]|] c'].
Qed.
End Rows.

(** ** Every token traces back to a consent *)

(** An approval: what the person was shown, and the code it was turned into. *)
Record Consent := { cs_asking : Asking; cs_checked : Checked; cs_code : string }.

Definition consents_of (allow : bool) (a : Asking) (clients : CC) : list Consent :=
  match check a clients with
  | inr k => if allow then [{| cs_asking := a; cs_checked := k; cs_code := mint_token k_code (ak_ids a).2 |}] else []
  | inl _ => []
  end.

(** The person who gave it was signed in and a member of the workspace of an
    assistant that existed, and the client asked to be answered at an acceptable
    address it had registered. *)
Definition given (cs : Consent) : Prop :=
  let k := cs_checked cs in let a := cs_asking cs in
  ak_caller a = Some (kd_userId k) ∧ is_Some (membershipOf (kd_workspaceId k) (kd_userId k) (ak_workspaces a)) ∧
  is_Some (ak_agents a (kd_workspaceId k) (kd_agentId k)) ∧ aq_redirect_uri (kd_request k) ∈ oc_redirectUris (kd_client k) ∧
  isAcceptableRedirectUri parse_url (aq_redirect_uri (kd_request k)) = true ∧
  parseAssistantResource parse_url issuer (aq_resource (kd_request k)) = Some (kd_workspaceId k, kd_agentId k).

Definition traced (log : list Consent) (d : OAuthGrantDoc) : Prop :=
  ∃ cs, cs ∈ log ∧ gd_context d = consent_context (cs_checked cs) ∧
    (gd_kind d = k_code → gd_tokenHash d = sha256 (cs_code cs) ∧ gd_redirectUri d = Some (aq_redirect_uri (kd_request (cs_checked cs))) ∧
                          gd_codeChallenge d = Some (aq_code_challenge (kd_request (cs_checked cs)))).

(** The requests the endpoints served, one after another; while a token is asked
    for, others consent and write, and what they insert is traced as well. *)
Inductive reach : CC → CG → list Consent → Prop :=
| reach_start clients c : docs clients = ∅ → docs c = ∅ → reach clients c []
| reach_register clients c log body newId now : reach clients c log → reach (register_POST body newId now clients).2 c log
| reach_decide clients c log allow a : reach clients c log → reach clients (authorize_POST allow a clients c).2 (consents_of allow a clients ++ log)
| reach_token clients c log p draw now mw others :
    reach clients c log → (∀ cs, cs ∈ others → ∃ allow a, cs ∈ consents_of allow a clients) → meanwhile_ok (traced (others ++ log)) mw →
    reach clients (token_POST p draw now mw clients c).2 (others ++ log)
| reach_write clients c log w : reach clients c log → write_ok (traced log) w → reach clients (apply_write w c) log.

Definition clients_ok (clients : CC) : Prop :=
  ∀ id client, docs clients !! id = Some client → ∀ uri, uri ∈ oc_redirectUris client → isAcceptableRedirectUri parse_url uri = true.

Lemma traced_grows more log d : traced log d → traced (more ++ log) d.
Proof. intros (cs & Hin & Hr). exists cs. split; [set_solver|done]. Qed.
Lemma traced_used log now d : traced log d → traced log (mark_used now d). Proof. done. Qed.
Lemma traced_revoked log now d : traced log d → traced log (mark_revoked now d). Proof. done. Qed.
Lemma traced_tokens log kind token fam now ttl d :
  kind ≠ k_code → traced log d → traced log (new_grant sha256 kind token (gd_context d) fam None None now ttl).
Proof. intros Hk (cs & Hin & Hc & _). exists cs. split; [done|]. split; [done|]. intros ?. done. Qed.
#[local] Hint Resolve traced_used traced_revoked traced_tokens : host.

Lemma register_clients body newId now clients : clients_ok clients → clients_ok (register_POST body newId now clients).2.
Proof.
  intros Hc. assert (∀ input, find (λ uri, negb (isAcceptableRedirectUri parse_url uri)) (rg_redirectUris input) = None →
    clients_ok (registerClient newId (client_doc input now) clients).2) as Hins.
  { intros input Hf id client. unfold registerClient.
    destruct (insertOne_cases (λ _ _ : OAuthClientDoc, false) newId (client_doc input now) clients) as [(_ & _ & _ & E)|[_ E]]; rewrite E; [|apply Hc].
    intros [[_ <-]|[_ ?]]%lookup_insert_Some; [|by eapply Hc]. intros uri Huri. apply list_elem_of_In in Huri.
    by apply (find_none _ _ Hf), negb_false_iff in Huri. }
  unfold register_POST. destruct (_ ≫= registration) as [input|]; [|done]. destruct (find _ _) eqn:Hf; [done|]. specialize (Hins input Hf).
  destruct (rg_method input) as [m|]; [destruct (String.eqb m "none"); [|done]|]; by destruct (registerClient _ _ _).
Qed.

Lemma check_given allow a clients cs : clients_ok clients → cs ∈ consents_of allow a clients → given cs.
Proof.
  intros Hok. unfold consents_of. destruct (check a clients) as [r|k] eqn:Hk; [set_solver|]. destruct allow; [|set_solver].
  intros ->%list_elem_of_singleton. unfold given. cbn [cs_checked cs_asking]. unfold check in Hk.
  destruct (ak_caller a) as [user|] eqn:Hcaller; [|done]. destruct (authorizeRequest _) as [req|]; [|done].
  destruct (parseAssistantResource _ _ _) as [[ws agent]|] eqn:Hp; [|done]. destruct (negb (scope_offered _)); [done|].
  destruct (docs clients !! aq_client_id req) as [client|] eqn:Hcl; [|done]. destruct (redirectUriRegistered _ _) eqn:Hr; [|done]. cbn [negb] in Hk.
  destruct (membershipOf ws user _) as [role|] eqn:Hm; [|done]. destruct (findWorkspace _ _) as [w|]; [|done].
  destruct (ak_agents a ws agent) as [face|] eqn:Hf; [|done]. injection Hk as <-. cbn. apply bool_decide_eq_true in Hr.
  split_and!; [done|by eexists|by eexists|done|by eapply Hok|done].
Qed.

Lemma decide_rows allow a clients c log :
  rows_ok (traced log) c → rows_ok (traced (consents_of allow a clients ++ log)) (authorize_POST allow a clients c).2.
Proof.
  intros Hc. assert (∀ more, rows_ok (traced (more ++ log)) c) as Hmore by (intros more id d Hd; by apply traced_grows, (Hc id)).
  unfold authorize_POST, consents_of. destruct (check a clients) as [r|k]; [apply (Hmore [])|].
  destruct (parse_url _); [|apply Hmore]. destruct allow; [|apply (Hmore [])]. cbn [negb].
  destruct (ak_ids a) as [[id fam] random]. cbn [snd]. unfold issueCode. set (row := new_grant _ _ _ _ _ _ _ _ _).
  pose proof (oauth_insert_rows (traced ([{| cs_asking := a; cs_checked := k; cs_code := mint_token k_code random |}] ++ log)) id row c) as Hi.
  destruct (insertOne _ id row c) as [[] c']; apply Hi; try apply Hmore; (eexists; split; [by left|]; by split_and!).
Qed.

Lemma oauth_reach_inv clients c log : reach clients c log → clients_ok clients ∧ Forall given log ∧ rows_ok (traced log) c.
Proof.
  induction 1 as [clients c Hcl Hc|clients c log body newId now _ (IH1 & IH2 & IH3)|clients c log allow a _ (IH1 & IH2 & IH3)
                 |clients c log p draw now mw others _ (IH1 & IH2 & IH3) Hoth Hmw|clients c log w _ (IH1 & IH2 & IH3) Hw].
  - split_and!; [intros id cl; by rewrite Hcl|done|intros id d; by rewrite Hc].
  - split_and!; [by apply register_clients|done..].
  - split_and!; [done| |by apply decide_rows]. apply Forall_app. split; [|done]. apply Forall_forall. intros cs Hcs. by eapply check_given.
  - split_and!; [done|apply Forall_app; split; [|done]|].
    + apply Forall_forall. intros cs Hcs. destruct (Hoth cs Hcs) as (allow & a & Hin). by eapply check_given.
    + apply token_rows; auto with host. intros id d Hd. apply traced_grows. by eapply IH3.
  - split_and!; [done..|]. apply write_rows; auto with host.
Qed.

(** However clients register, people consent and tokens are asked for, refreshed
    and revoked, an access token that resolves is for exactly what a person agreed
    to: signed in, a member of the workspace, for an assistant that existed there,
    asked by a client whose answer went to an acceptable address it registered. *)
Theorem tokens_trace_to_a_consent clients c log token now ctx :
  reach clients c log → resolveAccessToken sha256 token now c = Some ctx →
  ∃ cs, cs ∈ log ∧ given cs ∧ ctx = consent_context (cs_checked cs).
Proof.
  intros (_ & Hlog & Hrows)%oauth_reach_inv. unfold resolveAccessToken. destruct (negb _); [done|].
  destruct (find_grant _ _ _ _) as [[id d]|] eqn:Hf; [|done]. destruct (_ || _); [done|]. intros [= <-].
  apply find_grant_some in Hf as (Hd & _ & _). destruct (Hrows id d Hd) as (cs & Hin & Hc & _). exists cs. split; [done|].
  split; [|done]. rewrite Forall_forall in Hlog. by apply Hlog.
Qed.

(** Tokens are handed out for a code only to the client the person agreed to, at
    the address it was sent to, with the verifier of the challenge it was asked
    with. *)
Theorem codes_pay_their_client clients c log form clientId draw now mw tokens c' :
  reach clients c log → code_grant form clientId draw now mw c = (tk_issued tokens, c') →
  ∃ cs code verifier, cs ∈ log ∧ given cs ∧ assoc_get "code" form = Some code ∧ sha256 code = sha256 (cs_code cs) ∧
    kd_clientId (cs_checked cs) = clientId ∧ assoc_get "redirect_uri" form = Some (aq_redirect_uri (kd_request (cs_checked cs))) ∧
    assoc_get "code_verifier" form = Some verifier ∧ challenge_of verifier = aq_code_challenge (kd_request (cs_checked cs)) ∧
    it_scope tokens = ASSISTANT_SCOPE.
Proof.
  intros (_ & Hlog & Hrows)%oauth_reach_inv. unfold code_grant.
  destruct (assoc_get "code" form) as [code|] eqn:Hcode, (assoc_get "redirect_uri" form) as [uri|] eqn:Huri, (assoc_get "code_verifier" form) as [v|] eqn:Hv; try done.
  destruct (redeemCode _ _ _ _ _ _ _ _) as [[[?|[tk grant]]|] c1] eqn:Hr; try done. intros Heq.
  assert (tk = tokens) as -> by (destruct (assoc_get "resource" form); [destruct (negb _)|]; by injection Heq). clear Heq.
  unfold redeemCode in Hr. destruct (negb _); [done|]. destruct (find_grant _ _ _ _) as [[id d]|] eqn:Hf; [|done].
  apply find_grant_some in Hf as (Hd & Hhash & Hkind). destruct (negb (unused d)); [done|].
  destruct (code_refusal _ _ _ _) eqn:Href; [done|]. destruct (claim_grant _ _ _) as [[] c2]; [|done].
  destruct (issueTokens _ _ _ _ _ _) as [[tk|] c3] eqn:Hi; [|done]. injection Hr as -> <- <-.
  destruct (Hrows id d Hd) as (cs & Hin & Hctx & Hof). destruct (Hof Hkind) as (Hh & Hu & Hch).
  assert (it_scope tokens = gc_scope (gd_context d)) as Hsc.
  { unfold issueTokens in Hi. destruct (insertOne _ _ _ _) as [[] ?]; [|done]. destruct (insertOne _ _ _ _) as [[] ?]; [|done]. by injection Hi as <-. }
  unfold code_refusal, verifyPkce in Href. rewrite Hu, Hch in Href. cbn in Href. repeat (case_match; try discriminate). bool_prop.
  exists cs, code, v. rewrite Forall_forall in Hlog. rewrite Hctx in *. cbn in *. simplify_eq. unfold hashOpaqueToken in Hhash.
  split_and!; try done; try by apply Hlog. congruence.
Qed.

(** A person is only ever sent to an address the client registered. *)
Theorem answers_go_where_registered clients c log allow a r c' :
  reach clients c log → authorize_POST allow a clients c = (ax_back r, c') →
  ∃ id client, docs clients !! id = Some client ∧ rd_base r ∈ oc_redirectUris client ∧ isAcceptableRedirectUri parse_url (rd_base r) = true.
Proof.
  intros (Hok & _ & _)%oauth_reach_inv. unfold authorize_POST, check.
  destruct (ak_caller a) as [user|]; [|done]. destruct (authorizeRequest _) as [req|]; [|done].
  destruct (parseAssistantResource _ _ _) as [[ws agent]|]; [|done]. destruct (negb (scope_offered _)); [done|].
  destruct (docs clients !! aq_client_id req) as [client|] eqn:Hcl; [|done]. destruct (redirectUriRegistered _ _) eqn:Hr; [|done]. cbn [negb].
  destruct (membershipOf ws user _); [|done]. destruct (findWorkspace _ _); [|done]. destruct (ak_agents a ws agent); [|done].
  cbn [kd_request]. apply bool_decide_eq_true in Hr. destruct (parse_url _); [|done]. intros Heq.
  assert (rd_base r = aq_redirect_uri req) as ->.
  { destruct allow; cbn [negb] in Heq; [|by injection Heq as <- _]. destruct (ak_ids a) as [[id fam] random].
    destruct (issueCode _ _ _ _ _ _ _ _ _) as [[code|] ?]; [by injection Heq as <- _|done]. }
  exists (aq_client_id req), client. split_and!; [done..|by eapply Hok].
Qed.

(** ** The assistant's own server *)

Context {CK : Type} `{CollectionLaws ApiKeyDoc CK} (lower : string → string).

(** Both kinds of bearer of the route under /mcp/w/: a token of this server, or a key or session. *)
Definition principalFor (request : Request) (workspaceId agentId : string) (now : Z) (keys : CK) (grants : CG) (workspaces : CW) : outcome RequestError Principal :=
  match bearerOf lower (rq_authorization request) with
  | Some token =>
      match resolveOAuthPrincipal sha256 token workspaceId agentId now grants workspaces with
      | Throw e => Throw e
      | Ret (Some p) => Ret p
      | Ret None => resolvePrincipal sha256 lower request workspaceId now keys workspaces
      end
  | None => resolvePrincipal sha256 lower request workspaceId now keys workspaces
  end.

Inductive ServeAnswer := sv_refused (status : Z) (challenge : option string) | sv_no_assistant | sv_served (p : Principal) (agent : AgentFace).
Definition status_of_error (e : RequestError) : Z := match e with unauthenticated => 401 | not_found => 404 | _ => 403 end.
Definition bearerChallenge (workspaceId agentId : string) : string :=
  "Bearer realm=" +:+ dquote +:+ "hive" +:+ dquote +:+ ", resource_metadata=" +:+ dquote +:+
  protectedResourceMetadataUrl issuer workspaceId agentId +:+ dquote.
Definition serve (request : Request) (workspaceId agentId : string) (now : Z) (agents : string → string → option AgentFace) (keys : CK) (grants : CG) (workspaces : CW) : ServeAnswer :=
  match (match principalFor request workspaceId agentId now keys grants workspaces with
         | Throw e => Throw e
         | Ret p => match requirePermission p runs_create with Throw e => Throw e | Ret _ => Ret p end
         end) with
  | Throw e => sv_refused (status_of_error e) (if status_of_error e =? 401 then Some (bearerChallenge workspaceId agentId) else None)
  | Ret p => match agents workspaceId agentId with Some agent => sv_served p agent | None => sv_no_assistant end
  end.

(** A client that shows an access token is served as the person who agreed, only
    for the assistant they agreed to, and only while they are a member. *)
Theorem clients_act_for_who_agreed clients c log request workspaceId agentId now agents keys workspaces token p agent :
  reach clients c log → bearerOf lower (rq_authorization request) = Some token → opaqueTokenKind token = Some k_access →
  serve request workspaceId agentId now agents keys c workspaces = sv_served p agent →
  ∃ cs role, cs ∈ log ∧ given cs ∧ kd_workspaceId (cs_checked cs) = workspaceId ∧ kd_agentId (cs_checked cs) = agentId ∧
    p = PUser (kd_userId (cs_checked cs)) workspaceId role ∧ membershipOf workspaceId (kd_userId (cs_checked cs)) workspaces = Some role.
Proof.
  intros (_ & Hlog & Hrows)%oauth_reach_inv Hb Hk. unfold serve, principalFor, resolveOAuthPrincipal. rewrite Hb, Hk, bool_decide_eq_true_2 by done. cbn [negb].
  unfold resolveAccessToken. rewrite Hk, bool_decide_eq_true_2 by done. cbn [negb].
  destruct (find_grant _ _ _ _) as [[id d]|] eqn:Hf; [|done]. destruct ((_ <=? _) || _); [done|].
  apply find_grant_some in Hf as (Hd & _ & _). destruct (Hrows id d Hd) as (cs & Hin & -> & _). cbn.
  destruct (String.eqb_spec (kd_workspaceId (cs_checked cs)) workspaceId) as [Hw|]; [|done].
  destruct (String.eqb_spec (kd_agentId (cs_checked cs)) agentId) as [Ha|]; [|done]. cbn.
  destruct (membershipOf workspaceId _ workspaces) as [role|] eqn:Hm; [|done]. destruct (requirePermission _ _); [|done].
  destruct (agents _ _); [|done]. intros [= <- _]. exists cs, role. rewrite Forall_forall in Hlog. split_and!; auto.
Qed.

End Endpoints.

(** ** Concrete requests *)
Notation ClientRows := (gmap string OAuthClientDoc).
Notation GrantRows := (gmap string OAuthGrantDoc).
Definition host : string := "https://h.example".
Definition toy_url (s : string) : option Url :=
  match eat host s, eat "https://" s with
  | Some path, _ => Some {| u_protocol := "https:"; u_origin := host; u_hostname := "h.example"; u_host := "h.example"; u_pathname := path; u_hash := "" |}
  | None, Some rest => Some {| u_protocol := "https:"; u_origin := s; u_hostname := rest; u_host := rest; u_pathname := "/"; u_hash := "" |}
  | None, None => None
  end.
Definition key (k : string) (v : value) : string * value := (k, v).
Definition register_body : string := stringify (VObject [key "client_name" (VString "Claude"); key "redirect_uris" (VArray [VString "https://client/cb"])]).
Definition one_client : ClientRows := (register_POST toy_url (λ _, true) register_body "client_1" 5 (∅ : ClientRows)).2.
Definition asked (k : string) : option string :=
  assoc_get k [("response_type", "code"); ("client_id", "client_1"); ("redirect_uri", "https://client/cb"); ("code_challenge", a_verifier);
               ("code_challenge_method", "S256"); ("state", "s1"); ("resource", assistantResource host "wks_1" "agt_1")].
Definition a_face : AgentFace := {| af_name := "Ada"; af_color := None; af_description := None |}.
Definition an_asking : @Asking Workspaces := {|
  ak_caller := Some "usr_1"; ak_input := asked; ak_workspaces := one_workspace; ak_agents := λ w a, if String.eqb a "agt_1" then Some a_face else None;
  ak_origin := host; ak_now := 10; ak_ids := ("ogr_1", "fam_1", "xyz") |}.
Definition after_consent : GrantRows := (authorize_POST id toy_url host true an_asking one_client (∅ : GrantRows)).2.
Definition exchange_form (resource : string) : string :=
  stringify (VObject [key "grant_type" (VString "authorization_code"); key "client_id" (VString "client_1"); key "code" (VString (mint_token k_code "xyz"));
    key "redirect_uri" (VString "https://client/cb"); key "code_verifier" (VString a_verifier); key "resource" (VString resource)]).
Definition exchange (resource : string) : TokenAnswer * GrantRows :=
  token_POST id id (λ _, []) {| po_contentType := Some "application/json"; po_body := exchange_form resource |} (a_draw "1") 20
    {| mw_first := []; mw_second := []; mw_third := [] |} one_client after_consent.
Definition the_log : list Consent := consents_of toy_url host true an_asking one_client ++ [].

Lemma consent_reached : reach id id toy_url (λ _, true) host (λ _, []) one_client after_consent the_log.
Proof. apply reach_decide. apply (reach_register id id toy_url (λ _, true) host (λ _, []) (∅ : ClientRows)). by apply reach_start. Defined.
Lemma exchange_reached resource : reach id id toy_url (λ _, true) host (λ _, []) one_client (exchange resource).2 ([] ++ the_log).
Proof. apply reach_token; [exact consent_reached|set_solver|by split_and!]. Defined.

Lemma tokens_trace_to_a_consent_witness :
  let c := (exchange (assistantResource host "wks_1" "agt_1")).2 in
  ∃ ctx, resolveAccessToken id (mint_token k_access "a1") 30 c = Some ctx ∧
    ∃ cs, cs ∈ [] ++ the_log ∧ given toy_url host cs ∧ ctx = consent_context host (cs_checked cs).
Proof.
  intros c. eexists.
  assert (resolveAccessToken id (mint_token k_access "a1") 30 c = Some
    {| gc_workspaceId := "wks_1"; gc_userId := "usr_1"; gc_agentId := "agt_1"; gc_clientId := "client_1"; gc_scope := "assistant";
       gc_resource := assistantResource host "wks_1" "agt_1" |}) as Hr by (vm_compute; reflexivity).
  split; [exact Hr|].
  exact (tokens_trace_to_a_consent id id toy_url (λ _, true) host (λ _, []) one_client c ([] ++ the_log) _ 30 _ (exchange_reached _) Hr).
Defined.

(** A token request that names another resource is refused after the code was
    redeemed: the code is spent, and the tokens nobody received are live. *)
Example refused_target_leaves_live_tokens :
  let '(answer, c) := exchange "https://elsewhere" in
  answer = tk_fail "invalid_target" "The resource does not match the one authorised." 400 ∧
  is_Some (resolveAccessToken id (mint_token k_access "a1") 30 c) ∧
  (redeemCode id id (mint_token k_code "xyz") the_client (a_draw "2") 25 ([], []) c).1 = Ret (inl g_used).
Proof. vm_compute. split_and!; [reflexivity|by eexists|reflexivity]. Qed.

Definition with_token : Request := {| rq_authorization := Some ("Bearer " +:+ mint_token k_access "a1"); rq_caller := None |}.
Definition serve_with_token : ServeAnswer :=
  serve id host toLowerCase with_token "wks_1" "agt_1" 30 (ak_agents an_asking) (∅ : gmap string ApiKeyDoc)
    (exchange (assistantResource host "wks_1" "agt_1")).2 one_workspace.
Lemma clients_act_for_who_agreed_witness :
  serve_with_token = sv_served (PUser "usr_1" "wks_1" owner) a_face ∧
  ∃ cs role, cs ∈ [] ++ the_log ∧ given toy_url host cs ∧ kd_workspaceId (cs_checked cs) = "wks_1" ∧ kd_agentId (cs_checked cs) = "agt_1" ∧
    PUser "usr_1" "wks_1" owner = PUser (kd_userId (cs_checked cs)) "wks_1" role ∧
    membershipOf "wks_1" (kd_userId (cs_checked cs)) one_workspace = Some role.
Proof.
  assert (serve_with_token = sv_served (PUser "usr_1" "wks_1" owner) a_face) as Hs by (vm_compute; reflexivity).
  split; [exact Hs|].
  apply (clients_act_for_who_agreed id id toy_url (λ _, true) host (λ _, []) toLowerCase one_client
    (exchange (assistantResource host "wks_1" "agt_1")).2 ([] ++ the_log) with_token "wks_1" "agt_1" 30 (ak_agents an_asking)
    (∅ : gmap string ApiKeyDoc) one_workspace (mint_token k_access "a1") _ a_face (exchange_reached _)); [vm_compute; reflexivity..|exact Hs].
Defined.
