(* ===== verification/Jwt.v ===== *)
(** * Session tokens

    Models packages/auth/src/jwt.ts (HS256) and the access tokens of
    packages/auth/src/session.ts, with the cookie that carries one and how
    apps/web/src/lib/session.ts reads the caller from it.  The hash function and
    base64url are parameters: what is used of them is that base64url decodes to
    what it encoded and writes no dots. *)
From S2P Require Import Prelude Json JsonText Text Guard.

#[local] Open Scope host_scope.

Inductive JwtError :=
| je_malformed | je_algorithm | je_signature | je_issuer | je_audience | je_expiry | je_expired | je_not_yet_valid
| je_subject | je_nonce | je_type | je_missing_claims.

Record SignOptions := {
  so_issuer : string; so_audience : string; so_subject : string; so_expiresInSeconds : Z; so_claims : list (string * value) }.

Record VerifyOptions := {
  vo_issuer : list string; vo_audience : string; vo_clockToleranceSeconds : option Z; vo_nonce : option string }.

Definition DEFAULT_CLOCK_TOLERANCE : Z := 60.
Definition ACCESS_TOKEN_TTL_SECONDS : Z := 15 * 60.
Definition REFRESH_TOKEN_TTL_MS : Z := 30 * 24 * 60 * 60 * 1000.
Definition REFRESH_IDLE_TTL_MS : Z := 7 * 24 * 60 * 60 * 1000.
Definition AUDIENCE : string := "salvations".

Definition seconds (nowMs : Z) : Z := nowMs / 1000.

(** [parsed.claims.iss]: a property of null is a TypeError. *)
Definition prop (v : value) (key : string) : outcome JwtError value :=
  match v with VNull | VUndefined => Throw je_type | _ => Ret (own v key) end.

Definition is_string (s : string) (v : value) : bool := match v with VString t => String.eqb t s | _ => false end.

Definition audiences (aud : value) : list value := match aud with VArray items => items | v => [v] end.

(** [checkClaims], with the clock in milliseconds. *)
Definition checkClaims (claims : value) (options : VerifyOptions) (nowMs : Z) : outcome JwtError unit :=
  let now := seconds nowMs in
  let tolerance := default DEFAULT_CLOCK_TOLERANCE (vo_clockToleranceSeconds options) in
  do iss <- prop claims "iss";
  if negb (existsb (λ i, is_string i iss) (vo_issuer options)) then Throw je_issuer
  else if negb (existsb (is_string (vo_audience options)) (audiences (own claims "aud"))) then Throw je_audience
  else match own claims "exp" with
  | VNumber exp =>
      if exp + tolerance <? now then Throw je_expired
      else if match own claims "nbf" with VNumber nbf => now + tolerance <? nbf | _ => false end then Throw je_not_yet_valid
      else if match own claims "sub" with VString sub => String.eqb sub "" | _ => true end then Throw je_subject
      else match vo_nonce options with
           | Some nonce => if is_string nonce (own claims "nonce") then Ret tt else Throw je_nonce
           | None => Ret tt
           end
  | _ => Throw je_expiry
  end.

Section Tokens.
Context (b64url unb64url : string → string) (hmac : string → string → string).

Record Parsed := { pa_header : value; pa_claims : value; pa_signingInput : string; pa_signature : string }.

Definition decodeSegment (segment : string) : outcome JwtError value :=
  match json_parse (unb64url segment) with Some v => Ret v | None => Throw je_malformed end.

Definition parse (token : string) : outcome JwtError Parsed :=
  match str_split "." token with
  | [headerPart; payloadPart; signaturePart] =>
      do header <- decodeSegment headerPart;
      do claims <- decodeSegment payloadPart;
      Ret {| pa_header := header; pa_claims := claims; pa_signingInput := headerPart +:+ "." +:+ payloadPart;
             pa_signature := unb64url signaturePart |}
  | _ => Throw je_malformed
  end.

Definition HEADER : value := VObject [("alg", VString "HS256"); ("typ", VString "JWT")].

(** The spread of the caller's claims comes first, so the registered ones win:
    a claim of the same name keeps its place and gets the new value. *)
Definition payload_of (options : SignOptions) (nowMs : Z) : value :=
  let issuedAt := seconds nowMs in
  VObject (foldl (λ es kv, set_entry kv.1 kv.2 es) (so_claims options)
    [("iss", VString (so_issuer options)); ("aud", VString (so_audience options)); ("sub", VString (so_subject options));
     ("iat", VNumber issuedAt); ("exp", VNumber (issuedAt + so_expiresInSeconds options))]).

Definition signHs256 (secret : string) (options : SignOptions) (nowMs : Z) : string :=
  let signingInput := b64url (stringify HEADER) +:+ "." +:+ b64url (stringify (payload_of options nowMs)) in
  signingInput +:+ "." +:+ b64url (hmac secret signingInput).

Definition verifyHs256 (token secret : string) (options : VerifyOptions) (nowMs : Z) : outcome JwtError value :=
  do parsed <- parse token;
  do alg <- prop (pa_header parsed) "alg";
  if negb (is_string "HS256" alg) then Throw je_algorithm
  else if negb (String.eqb (pa_signature parsed) (hmac secret (pa_signingInput parsed))) then Throw je_signature
  else do _ <- checkClaims (pa_claims parsed) options nowMs;
       Ret (pa_claims parsed).

(** ** Access tokens *)
Record Caller := { ca_userId : string; ca_sessionId : string; ca_email : string }.

Definition issueAccessToken (secret issuer : string) (caller : Caller) (nowMs : Z) : string :=
  signHs256 secret
    {| so_issuer := issuer; so_audience := AUDIENCE; so_subject := ca_userId caller; so_expiresInSeconds := ACCESS_TOKEN_TTL_SECONDS;
       so_claims := [("sid", VString (ca_sessionId caller)); ("email", VString (ca_email caller))] |} nowMs.

Definition verifyAccessToken (token secret issuer : string) (nowMs : Z) : outcome JwtError value :=
  do claims <- verifyHs256 token secret
    {| vo_issuer := [issuer]; vo_audience := AUDIENCE; vo_clockToleranceSeconds := None; vo_nonce := None |} nowMs;
  match own claims "sid", own claims "email" with
  | VString _, VString _ => Ret claims
  | _, _ => Throw je_missing_claims
  end.

(** ** Cookies *)
Definition ACCESS_COOKIE : string := "salv_at".
Definition REFRESH_COOKIE : string := "salv_rt".

Definition sessionCookie (name val : string) (maxAgeSeconds : Z) (secure : bool) (path : option string) : string :=
  join "; " ([name +:+ "=" +:+ val; "Path=" +:+ default "/" path; "Max-Age=" +:+ pretty maxAgeSeconds; "HttpOnly"; "SameSite=Lax"] ++
             (if secure then ["Secure"] else [])).

Definition clearCookie (name : string) (secure : bool) (path : option string) : string := sessionCookie name "" 0 secure path.

Fixpoint split_at_eq (part : string) : option (string * string) :=
  match part with
  | EmptyString => None
  | String c rest => if Ascii.eqb c "=" then Some ("", rest) else '(a, b) ← split_at_eq rest; Some (String c a, b)
  end.

(** [decodeURIComponent] is a parameter; [None] is the URIError it throws. *)
Definition readCookie (decodeURIComponent : string → option string) (header : option string) (name : string) : outcome unit (option string) :=
  match header with
  | None => Ret None
  | Some h =>
      (fix go parts :=
         match parts with
         | [] => Ret None
         | part :: rest =>
             match split_at_eq part with
             | None => go rest
             | Some (k, v) => if String.eqb (js_trim k) name
                              then match decodeURIComponent (js_trim v) with Some d => Ret (Some d) | None => Throw tt end
                              else go rest
             end
         end) (str_split ";" h)
  end.

(** [callerFromCookieHeader]. *)
Definition callerFromCookieHeader (decodeURIComponent : string → option string) (secret issuer : string) (header : option string) (nowMs : Z)
    : outcome unit (option Caller) :=
  do token <- readCookie decodeURIComponent header ACCESS_COOKIE;
  match token with
  | None => Ret None
  | Some token =>
      match verifyAccessToken token secret issuer nowMs with
      | Ret claims =>
          match own claims "sub", own claims "sid", own claims "email" with
          | VString sub, VString sid, VString email => Ret (Some {| ca_userId := sub; ca_sessionId := sid; ca_email := email |})
          | _, _, _ => Ret None
          end
      | Throw _ => Ret None
      end
  end.
End Tokens.

(** ** Facts *)
Lemma split_join s : join "." (str_split "." s) = s.
Proof.
  induction s as [|c s IH]; [done|]. cbn [str_split]. destruct (Ascii.eqb "." c) eqn:Ec.
  - apply Ascii.eqb_eq in Ec as <-. rewrite <- IH at 2. by destruct (str_split "." s) as [|p [|q l]] eqn:E; [destruct s; simpl in E; repeat case_match|..].
  - rewrite <- IH at 2. by destruct (str_split "." s) as [|p [|q l]].
Qed.

Section Theorems.
Context (b64url unb64url : string → string) (hmac : string → string → string).

(** What a signature and claims that pass prove of the token. *)
Definition vouched_for (token secret : string) (options : VerifyOptions) (nowMs : Z) (claims : value) : Prop :=
  (∃ h p s header, token = h +:+ "." +:+ p +:+ "." +:+ s ∧ json_parse (unb64url h) = Some header ∧
     own header "alg" = VString "HS256" ∧ json_parse (unb64url p) = Some claims ∧ unb64url s = hmac secret (h +:+ "." +:+ p)) ∧
  (∃ i, i ∈ vo_issuer options ∧ own claims "iss" = VString i) ∧
  VString (vo_audience options) ∈ audiences (own claims "aud") ∧
  (∃ exp, own claims "exp" = VNumber exp ∧ seconds nowMs <= exp + default DEFAULT_CLOCK_TOLERANCE (vo_clockToleranceSeconds options)) ∧
  (∃ sub, own claims "sub" = VString sub ∧ sub ≠ "").

Lemma is_string_spec s v : is_string s v = true → v = VString s.
Proof. destruct v; try done. simpl. by intros ->%String.eqb_eq. Qed.

Lemma checked_claims claims options nowMs :
  checkClaims claims options nowMs = Ret tt →
  (∃ i, i ∈ vo_issuer options ∧ own claims "iss" = VString i) ∧
  VString (vo_audience options) ∈ audiences (own claims "aud") ∧
  (∃ exp, own claims "exp" = VNumber exp ∧ seconds nowMs <= exp + default DEFAULT_CLOCK_TOLERANCE (vo_clockToleranceSeconds options)) ∧
  (∃ sub, own claims "sub" = VString sub ∧ sub ≠ "").
Proof.
  unfold checkClaims. destruct (prop claims "iss") as [iss|] eqn:Ep; [|done]. cbn [obind].
  assert (own claims "iss" = iss) as -> by (by destruct claims; simpl in Ep; try done; injection Ep as <-).
  destruct (existsb _ (vo_issuer options)) eqn:Ei; [|done]. destruct (existsb _ (audiences _)) eqn:Ea; [|done]. cbn [negb].
  destruct (own claims "exp") as [| | |exp| | |]; try done.
  destruct (Z.ltb_spec (exp + default DEFAULT_CLOCK_TOLERANCE (vo_clockToleranceSeconds options)) (seconds nowMs)); [done|].
  destruct (match own claims "nbf" with VNumber nbf => _ | _ => _ end); [done|].
  destruct (own claims "sub") as [| | | |sub| |]; try done. destruct (String.eqb_spec sub ""); [done|]. intros _.
  apply existsb_exists in Ei as (i & Hi & Eq%is_string_spec). apply existsb_exists in Ea as (a & Ha & ->%is_string_spec).
  split_and!; [exists i; by rewrite list_elem_of_In|by rewrite list_elem_of_In|by exists exp|by exists sub].
Qed.

(** A token that is accepted has our signature over exactly its header and
    payload, names HS256, and its claims come from an expected issuer, are for
    this audience, have an expiry that has not passed and a subject: nothing
    the token says chooses the algorithm or skips a check. *)
Theorem accepted_tokens_are_signed token secret options nowMs claims :
  verifyHs256 unb64url hmac token secret options nowMs = Ret claims → vouched_for token secret options nowMs claims.
Proof.
  unfold verifyHs256, parse. destruct (str_split "." token) as [|h [|p [|s [|? ?]]]] eqn:Es; try done.
  unfold decodeSegment at 1. destruct (json_parse (unb64url h)) as [header|] eqn:Eh; [|done]. cbn [obind].
  unfold decodeSegment. destruct (json_parse (unb64url p)) as [claims'|] eqn:Ep; [|done]. cbn [obind pa_header pa_signature pa_signingInput pa_claims].
  destruct (prop header "alg") as [alg|] eqn:Ea; [|done]. cbn [obind].
  destruct (is_string "HS256" alg) eqn:Ealg; [|done]. apply is_string_spec in Ealg as ->. cbn [negb].
  destruct (String.eqb_spec (unb64url s) (hmac secret (h +:+ "." +:+ p))) as [Esig|]; [|done]. cbn [negb].
  destruct (checkClaims claims' options nowMs) as [[]|] eqn:Ec; [|done]. cbn [obind]. intros [= <-].
  split; [|by apply checked_claims]. exists h, p, s, header.
  split_and!; [|done| |done|done].
  - rewrite <- (split_join token), Es. done.
  - by destruct header; simpl in Ea; try done; injection Ea.
Qed.

Context (unb64_b64 : ∀ s, unb64url (b64url s) = s) (b64_no_dot : ∀ s, lacks "." (b64url s) = true).

Lemma parse_signed secret options nowMs :
  plain (payload_of options nowMs) →
  parse unb64url (signHs256 b64url hmac secret options nowMs) =
  Ret {| pa_header := HEADER; pa_claims := payload_of options nowMs;
         pa_signingInput := b64url (stringify HEADER) +:+ "." +:+ b64url (stringify (payload_of options nowMs));
         pa_signature := hmac secret (b64url (stringify HEADER) +:+ "." +:+ b64url (stringify (payload_of options nowMs))) |}.
Proof.
  intros Hp. unfold parse, signHs256. set (h := b64url (stringify HEADER)). set (p := b64url (stringify (payload_of options nowMs))).
  set (sg := b64url (hmac secret (h +:+ "." +:+ p))).
  assert (E : (h +:+ "." +:+ p) +:+ "." +:+ sg = h +:+ String "." (p +:+ String "." sg)) by (by rewrite !str_app_assoc).
  rewrite E, (split_first "." h), (split_first "." p), split_last by apply b64_no_dot. unfold h, p, sg.
  unfold decodeSegment. rewrite !unb64_b64, (parse_stringify (payload_of options nowMs)) by done.
  change (json_parse (stringify HEADER)) with (Some HEADER). reflexivity.
Qed.

(** The access token a sign-in issues verifies, with the same user, session and
    address, for its fifteen minutes and the clock tolerance after them, and is
    refused as expired from then on. *)
Theorem access_tokens_round_trip secret issuer caller nowMs later :
  ca_userId caller ≠ "" →
  let verified := verifyAccessToken unb64url hmac (issueAccessToken b64url hmac secret issuer caller nowMs) secret issuer later in
  if seconds nowMs + ACCESS_TOKEN_TTL_SECONDS + DEFAULT_CLOCK_TOLERANCE <? seconds later then verified = Throw je_expired
  else ∃ claims, verified = Ret claims ∧ own claims "sub" = VString (ca_userId caller) ∧
         own claims "sid" = VString (ca_sessionId caller) ∧ own claims "email" = VString (ca_email caller).
Proof.
  intros Hsub. cbv zeta. unfold verifyAccessToken, issueAccessToken, verifyHs256.
  set (opts := Build_SignOptions _ _ _ _ _). set (claims := payload_of opts nowMs).
  assert (Hplain : plain claims).
  { unfold claims, payload_of. simpl. split; [|done].
    repeat (apply NoDup_cons; split; [intros Hin; repeat (apply elem_of_cons in Hin as [Hin|Hin]; [discriminate Hin|]); by apply elem_of_nil in Hin|]).
    apply NoDup_nil_2. }
  rewrite parse_signed by done. cbn [obind pa_header pa_claims pa_signature pa_signingInput].
  change (prop HEADER "alg") with (@Ret JwtError _ (VString "HS256")). cbn [obind is_string String.eqb negb].
  rewrite String.eqb_refl. cbn [negb]. fold claims.
  assert (Hcheck : checkClaims claims {| vo_issuer := [issuer]; vo_audience := AUDIENCE; vo_clockToleranceSeconds := None; vo_nonce := None |} later =
    if seconds nowMs + ACCESS_TOKEN_TTL_SECONDS + DEFAULT_CLOCK_TOLERANCE <? seconds later then Throw je_expired else Ret tt).
  { unfold checkClaims, claims, payload_of. simpl. rewrite String.eqb_refl. simpl.
    destruct (_ <? _); [done|]. by destruct (String.eqb_spec (ca_userId caller) ""). }
  rewrite Hcheck. destruct (_ <? _); [done|]. cbn [obind]. exists claims. done.
Qed.
End Theorems.

(** ** Instances *)

(** An encoding with the two properties used of base64url. *)
Fixpoint hex_encode (s : string) : string :=
  match s with
  | EmptyString => ""
  | String c s' => String (hex_digit (code_of c / 16)) (String (hex_digit (code_of c mod 16)) (hex_encode s'))
  end.
Fixpoint hex_decode (s : string) : string :=
  match s with
  | String a (String b s') =>
      match hex_of a, hex_of b with Some x, Some y => String (char_of (16 * x + y)) (hex_decode s') | _, _ => "" end
  | _ => ""
  end.

Lemma hex_char c :
  match hex_of (hex_digit (code_of c / 16)), hex_of (hex_digit (code_of c mod 16)) with
  | Some x, Some y => char_of (16 * x + y) = c
  | _, _ => False
  end ∧ Ascii.eqb "." (hex_digit (code_of c / 16)) = false ∧ Ascii.eqb "." (hex_digit (code_of c mod 16)) = false.
Proof. by destruct c as [[] [] [] [] [] [] [] []]. Qed.

Lemma hex_round s : hex_decode (hex_encode s) = s.
Proof.
  induction s as [|c s IH]; [done|]. cbn [hex_encode hex_decode]. destruct (hex_char c) as [Hc _].
  repeat case_match; try done. by rewrite Hc, IH.
Qed.
Lemma hex_no_dot s : lacks "." (hex_encode s) = true.
Proof.
  unfold lacks. induction s as [|c s IH]; [done|]. cbn [hex_encode str_all]. destruct (hex_char c) as (_ & -> & ->). exact IH.
Qed.

Definition clear_hmac (secret input : string) : string := secret +:+ ":" +:+ input.
Definition ada : Caller := {| ca_userId := "usr_1"; ca_sessionId := "ses_1"; ca_email := "ada@acme.test" |}.

Lemma access_tokens_round_trip_witness :
  ∃ claims, verifyAccessToken hex_decode clear_hmac (issueAccessToken hex_encode clear_hmac "key" "https://a.test" ada 1000000) "key" "https://a.test" 1500000 = Ret claims ∧
    own claims "sub" = VString "usr_1" ∧ own claims "sid" = VString "ses_1" ∧ own claims "email" = VString "ada@acme.test".
Proof.
  exact (access_tokens_round_trip hex_encode hex_decode clear_hmac hex_round hex_no_dot "key" "https://a.test" ada 1000000 1500000 ltac:(discriminate)).
Defined.

Definition our_options : VerifyOptions := {| vo_issuer := ["https://a.test"]; vo_audience := AUDIENCE; vo_clockToleranceSeconds := None; vo_nonce := None |}.
Definition a_token : string := issueAccessToken hex_encode clear_hmac "key" "https://a.test" ada 1000000.

Lemma accepted_tokens_are_signed_witness :
  ∃ claims, verifyHs256 hex_decode clear_hmac a_token "key" our_options 1500000 = Ret claims ∧
    vouched_for hex_decode clear_hmac a_token "key" our_options 1500000 claims.
Proof.
  assert (∃ claims, verifyHs256 hex_decode clear_hmac a_token "key" our_options 1500000 = Ret claims) as [claims Hv]
    by (vm_compute; eexists; reflexivity).
  exists claims. split; [exact Hv|]. exact (accepted_tokens_are_signed hex_decode clear_hmac a_token "key" our_options 1500000 claims Hv).
Defined.

(** A token signed with another key, or one that says it needs no signature, is
    refused. *)
Example forged_tokens_are_refused :
  verifyHs256 hex_decode clear_hmac (issueAccessToken hex_encode clear_hmac "other" "https://a.test" ada 1000000) "key" our_options 1500000 = Throw je_signature ∧
  verifyHs256 hex_decode clear_hmac
    (hex_encode (stringify (VObject [("alg", VString "none")])) +:+ "." +:+ hex_encode "{}" +:+ ".") "key" our_options 1500000 = Throw je_algorithm.
Proof. vm_compute. done. Qed.
