(* ===== verification/Accounts.v ===== *)
(** * People, sessions and challenges

    Models packages/db/src/repositories/users.ts and the routes under
    apps/web/src/app/api/auth that sign people up, in and out, refresh a session
    and confirm an address, with startSession of apps/web/src/lib/session.ts and
    verification.ts.  Password hashing, the digest of a token and what is drawn
    at random are parameters or arguments; so is the identity Google asserts. *)
From S2P Require Import Prelude Json Text Mongo Jwt.

(** ** Documents *)
Record UserDoc := {
  u_email : string; u_emailDisplay : string; u_emailVerifiedAt : option Z; u_name : option string; u_imageUrl : option string;
  u_passwordHash : option string; u_sessionEpoch : Z; u_disabledAt : option Z; u_walkthroughSeenAt : option Z;
  u_createdAt : Z; u_updatedAt : Z; u_lastSignedInAt : option Z;
}.
Record AuthSessionDoc := {
  s_userId : string; s_refreshTokenHash : string; s_sessionEpoch : Z; s_rotatedAt : Z; s_createdAt : Z; s_expiresAt : Z;
  s_idleExpiresAt : Z; s_userAgent : option string; s_revokedAt : option Z; s_revokedReason : option string;
}.
Inductive ChallengeKind := email_verification | password_reset | chat_link.
#[global] Instance ChallengeKind_eq_dec : EqDecision ChallengeKind.
Proof. solve_decision. Defined.
Record AuthChallengeDoc := {
  q_userId : string; q_kind : ChallengeKind; q_tokenHash : string; q_expiresAt : Z; q_consumedAt : option Z; q_attempts : Z;
  q_createdAt : Z;
}.
Record IdentityDoc := {
  i_userId : string; i_provider : string; i_subject : string; i_email : string; i_emailVerified : bool;
  i_hostedDomain : option string; i_createdAt : Z; i_lastUsedAt : Z;
}.

Definition normaliseEmail (email : string) : string := toLowerCase (js_trim email).

Definition set_account (verified : option Z) (password : option string) (epoch : Z) (walkthrough signedIn : option Z) (now : Z)
    (d : UserDoc) : UserDoc := {|
  u_email := u_email d; u_emailDisplay := u_emailDisplay d; u_emailVerifiedAt := verified; u_name := u_name d; u_imageUrl := u_imageUrl d;
  u_passwordHash := password; u_sessionEpoch := epoch; u_disabledAt := u_disabledAt d; u_walkthroughSeenAt := walkthrough;
  u_createdAt := u_createdAt d; u_updatedAt := now; u_lastSignedInAt := signedIn |}.
Definition set_session (hash : string) (rotatedAt idle : Z) (revokedAt : option Z) (reason : option string) (d : AuthSessionDoc) : AuthSessionDoc := {|
  s_userId := s_userId d; s_refreshTokenHash := hash; s_sessionEpoch := s_sessionEpoch d; s_rotatedAt := rotatedAt;
  s_createdAt := s_createdAt d; s_expiresAt := s_expiresAt d; s_idleExpiresAt := idle; s_userAgent := s_userAgent d;
  s_revokedAt := revokedAt; s_revokedReason := reason |}.
Definition set_challenge (consumedAt : option Z) (attempts : Z) (d : AuthChallengeDoc) : AuthChallengeDoc := {|
  q_userId := q_userId d; q_kind := q_kind d; q_tokenHash := q_tokenHash d; q_expiresAt := q_expiresAt d; q_consumedAt := consumedAt;
  q_attempts := attempts; q_createdAt := q_createdAt d |}.

(** ** Users *)
Record CreateUserInput := {
  cu_email : string; cu_name : option string; cu_passwordHash : option string; cu_emailVerified : bool; cu_imageUrl : option string }.

Definition new_user (input : CreateUserInput) (now : Z) : UserDoc := {|
  u_email := normaliseEmail (cu_email input); u_emailDisplay := js_trim (cu_email input);
  u_emailVerifiedAt := if cu_emailVerified input then Some now else None; u_name := cu_name input; u_imageUrl := cu_imageUrl input;
  u_passwordHash := cu_passwordHash input; u_sessionEpoch := 1; u_disabledAt := None; u_walkthroughSeenAt := None;
  u_createdAt := now; u_updatedAt := now; u_lastSignedInAt := None |}.

(** The index [email_unique]. *)
Definition same_email (a b : UserDoc) : bool := String.eqb (u_email a) (u_email b).

Section Users.
Context {C : Type} `{CollectionLaws UserDoc C}.
Implicit Types c : C.

Definition find_user (userId : string) c : option UserDoc := docs c !! userId.
Definition findByEmail (email : string) c : option (string * UserDoc) :=
  find_one (λ d, String.eqb (u_email d) (normaliseEmail email)) c.
Definition create_user (id : string) (input : CreateUserInput) (now : Z) c : bool * C :=
  insertOne same_email id (new_user input now) c.
Definition markEmailVerified (userId : string) (now : Z) c : C :=
  (updateOne userId (λ d, bool_decide (u_emailVerifiedAt d = None))
     (λ d, set_account (Some now) (u_passwordHash d) (u_sessionEpoch d) (u_walkthroughSeenAt d) (u_lastSignedInAt d) now d) c).2.
Definition setPassword (userId passwordHash : string) (now : Z) c : C :=
  (updateOne userId (λ _, true)
     (λ d, set_account (u_emailVerifiedAt d) (Some passwordHash) (u_sessionEpoch d + 1) (u_walkthroughSeenAt d) (u_lastSignedInAt d) now d) c).2.
(** The first of the two writes of [revokeAllSessions]. *)
Definition bump_epoch (userId : string) (now : Z) c : C :=
  (updateOne userId (λ _, true)
     (λ d, set_account (u_emailVerifiedAt d) (u_passwordHash d) (u_sessionEpoch d + 1) (u_walkthroughSeenAt d) (u_lastSignedInAt d) now d) c).2.
Definition markWalkthroughSeen (userId : string) (now : Z) c : C :=
  (updateOne userId (λ _, true)
     (λ d, set_account (u_emailVerifiedAt d) (u_passwordHash d) (u_sessionEpoch d) (Some now) (u_lastSignedInAt d) now d) c).2.
Definition recordSignIn (userId : string) (now : Z) c : C :=
  (updateOne userId (λ _, true)
     (λ d, set_account (u_emailVerifiedAt d) (u_passwordHash d) (u_sessionEpoch d) (u_walkthroughSeenAt d) (Some now) (u_updatedAt d) d) c).2.
End Users.

(** ** Sessions *)

(** The index [refresh_hash_unique]. *)
Definition same_refresh (a b : AuthSessionDoc) : bool := String.eqb (s_refreshTokenHash a) (s_refreshTokenHash b).
Definition by_creation (a b : AuthSessionDoc) : bool := s_createdAt b <=? s_createdAt a.
#[global] Instance by_creation_order : SortOrder by_creation.
Proof. split; unfold by_creation; intros; bool_prop; apply Z.leb_le; lia. Qed.

Section Sessions.
Context {C : Type} `{CollectionLaws AuthSessionDoc C}.
Implicit Types c : C.

Definition createSession (id userId hash : string) (epoch expiresAt idleExpiresAt : Z) (userAgent : option string) (now : Z) c : bool * C :=
  insertOne same_refresh id
    {| s_userId := userId; s_refreshTokenHash := hash; s_sessionEpoch := epoch; s_rotatedAt := now; s_createdAt := now;
       s_expiresAt := expiresAt; s_idleExpiresAt := idleExpiresAt; s_userAgent := userAgent; s_revokedAt := None;
       s_revokedReason := None |} c.
Definition findSession (sessionId : string) c : option AuthSessionDoc := docs c !! sessionId.
Definition findSessionByRefreshHash (hash : string) c : option (string * AuthSessionDoc) :=
  find_one (λ d, String.eqb (s_refreshTokenHash d) hash) c.
Definition rotateSession (sessionId oldHash newHash : string) (idleExpiresAt now : Z) c : bool * C :=
  updateOne sessionId (λ d, String.eqb (s_refreshTokenHash d) oldHash && bool_decide (s_revokedAt d = None))
    (λ d, set_session newHash now idleExpiresAt (s_revokedAt d) (s_revokedReason d) d) c.
Definition revokeSession (sessionId reason : string) (now : Z) c : C :=
  (updateOne sessionId (λ _, true)
     (λ d, set_session (s_refreshTokenHash d) (s_rotatedAt d) (s_idleExpiresAt d) (Some now) (Some reason) d) c).2.
(** The second write of [revokeAllSessions]. *)
Definition revoke_sessions_of (userId reason : string) (now : Z) c : C :=
  (updateMany (λ d, String.eqb (s_userId d) userId && bool_decide (s_revokedAt d = None))
     (λ d, set_session (s_refreshTokenHash d) (s_rotatedAt d) (s_idleExpiresAt d) (Some now) (Some reason) d) c).2.
Definition listSessions (userId : string) c : list (string * AuthSessionDoc) :=
  find_docs (λ d, String.eqb (s_userId d) userId && bool_decide (s_revokedAt d = None)) by_creation 50 c.
(** The index [expiry_ttl]. *)
Definition reap_sessions (now : Z) c : C := (deleteMany (λ d, s_expiresAt d <=? now) c).2.
End Sessions.

(** ** Challenges *)

(** The index [token_hash_unique]. *)
Definition same_token (a b : AuthChallengeDoc) : bool := String.eqb (q_tokenHash a) (q_tokenHash b).

Section Challenges.
Context {C : Type} `{CollectionLaws AuthChallengeDoc C}.
Implicit Types c : C.

Definition open_for (userId : string) (kind : ChallengeKind) (d : AuthChallengeDoc) : bool :=
  String.eqb (q_userId d) userId && bool_decide (q_kind d = kind) && bool_decide (q_consumedAt d = None).
Definition issueChallenge (id userId : string) (kind : ChallengeKind) (tokenHash : string) (ttlMs now : Z) c : bool * C :=
  insertOne same_token id
    {| q_userId := userId; q_kind := kind; q_tokenHash := tokenHash; q_expiresAt := now + ttlMs; q_consumedAt := None; q_attempts := 0;
       q_createdAt := now |} (deleteMany (open_for userId kind) c).2.
Definition openChallenge (userId : string) (kind : ChallengeKind) (now : Z) c : option (string * AuthChallengeDoc) :=
  find_one (λ d, open_for userId kind d && (now <? q_expiresAt d)) c.
Definition findOpenChallengeByToken (kind : ChallengeKind) (tokenHash : string) (now : Z) c : option (string * AuthChallengeDoc) :=
  find_one (λ d, bool_decide (q_kind d = kind) && String.eqb (q_tokenHash d) tokenHash && bool_decide (q_consumedAt d = None) &&
                 (now <? q_expiresAt d)) c.
Definition recordChallengeAttempt (challengeId : string) c : Z * C :=
  let c' := (updateOne challengeId (λ _, true) (λ d, set_challenge (q_consumedAt d) (q_attempts d + 1) d) c).2 in
  (from_option q_attempts 0 (docs c' !! challengeId), c').
Definition consumeChallenge (challengeId : string) (now : Z) c : bool * C :=
  updateOne challengeId (λ d, bool_decide (q_consumedAt d = None)) (λ d, set_challenge (Some now) (q_attempts d) d) c.
End Challenges.

(** ** Links to an identity provider *)

(** The unique index of [identities]: the provider and the subject. *)
Definition same_subject (a b : IdentityDoc) : bool := String.eqb (i_provider a) (i_provider b) && String.eqb (i_subject a) (i_subject b).

Record GoogleIdentity := {
  g_subject : string; g_email : string; g_emailVerified : bool; g_name : option string; g_picture : option string;
  g_hostedDomain : option string }.

Section Identities.
Context {C : Type} `{CollectionLaws IdentityDoc C}.
Implicit Types c : C.

Definition find_link (subject : string) c : option (string * IdentityDoc) :=
  find_one (λ d, String.eqb (i_provider d) "google" && String.eqb (i_subject d) subject) c.
Definition link_account (id userId : string) (g : GoogleIdentity) (now : Z) c : bool * C :=
  insertOne same_subject id
    {| i_userId := userId; i_provider := "google"; i_subject := g_subject g; i_email := normaliseEmail (g_email g);
       i_emailVerified := g_emailVerified g; i_hostedDomain := g_hostedDomain g; i_createdAt := now; i_lastUsedAt := now |} c.
Definition touchIdentity (identityId email : string) (now : Z) c : C :=
  (updateOne identityId (λ _, true)
     (λ d, {| i_userId := i_userId d; i_provider := i_provider d; i_subject := i_subject d; i_email := normaliseEmail email;
              i_emailVerified := i_emailVerified d; i_hostedDomain := i_hostedDomain d; i_createdAt := i_createdAt d;
              i_lastUsedAt := now |}) c).2.
End Identities.

(** ** Routes *)
Definition MAX_ATTEMPTS : Z := 5.
Definition isCodeShaped (code : string) : bool := let t := js_trim code in (String.length t =? 6)%nat && str_all is_digit t.

Inductive AuthError := ae_duplicate.
Record SessionDraw := { sd_id : string; sd_token : string }.
Record Started := { st_caller : Caller; st_refreshToken : string; st_expiresAt : Z }.
Inductive AuthResponse := ar_ok (s : Started) | ar_unauthenticated | ar_disabled | ar_conflict | ar_failed.
Inductive ConfirmResponse := cr_verified | cr_wrong | cr_malformed | cr_unauthenticated.

Section Routes.
Context {CU CS CC CI : Type}.
Context `{CollectionLaws UserDoc CU, CollectionLaws AuthSessionDoc CS, CollectionLaws AuthChallengeDoc CC, CollectionLaws IdentityDoc CI}.
Context (sha256 : string → string).

Record AccountDb := { adb_users : CU; adb_sessions : CS; adb_challenges : CC; adb_identities : CI }.
Implicit Types db : AccountDb.
Definition on_users (c : CU) db : AccountDb :=
  {| adb_users := c; adb_sessions := adb_sessions db; adb_challenges := adb_challenges db; adb_identities := adb_identities db |}.
Definition on_sessions (c : CS) db : AccountDb :=
  {| adb_users := adb_users db; adb_sessions := c; adb_challenges := adb_challenges db; adb_identities := adb_identities db |}.
Definition on_challenges (c : CC) db : AccountDb :=
  {| adb_users := adb_users db; adb_sessions := adb_sessions db; adb_challenges := c; adb_identities := adb_identities db |}.
Definition on_identities (c : CI) db : AccountDb :=
  {| adb_users := adb_users db; adb_sessions := adb_sessions db; adb_challenges := adb_challenges db; adb_identities := c |}.

(** What other requests write to users and sessions. *)
Inductive AccountWrite :=
| aw_createUser (id : string) (input : CreateUserInput) (now : Z)
| aw_verified (userId : string) (now : Z)
| aw_setPassword (userId hash : string) (now : Z)
| aw_bump (userId : string) (now : Z)
| aw_signIn (userId : string) (now : Z)
| aw_createSession (id userId hash : string) (epoch expiresAt idle : Z) (agent : option string) (now : Z)
| aw_rotate (sessionId oldHash newHash : string) (idle now : Z)
| aw_revoke (sessionId reason : string) (now : Z)
| aw_revokeAll (userId reason : string) (now : Z)
| aw_reap (now : Z).

Definition account_write db (w : AccountWrite) : AccountDb :=
  match w with
  | aw_createUser id input now => on_users (create_user id input now (adb_users db)).2 db
  | aw_verified id now => on_users (markEmailVerified id now (adb_users db)) db
  | aw_setPassword id hash now => on_users (setPassword id hash now (adb_users db)) db
  | aw_bump id now => on_users (bump_epoch id now (adb_users db)) db
  | aw_signIn id now => on_users (recordSignIn id now (adb_users db)) db
  | aw_createSession id user hash epoch exp idle agent now =>
      on_sessions (createSession id user hash epoch exp idle agent now (adb_sessions db)).2 db
  | aw_rotate sid old new idle now => on_sessions (rotateSession sid old new idle now (adb_sessions db)).2 db
  | aw_revoke sid reason now => on_sessions (revokeSession sid reason now (adb_sessions db)) db
  | aw_revokeAll user reason now => on_sessions (revoke_sessions_of user reason now (adb_sessions db)) db
  | aw_reap now => on_sessions (reap_sessions now (adb_sessions db)) db
  end.

(** [startSession], for the document of the user the caller has read. *)
Definition startSession (userId : string) (user : UserDoc) (agent : option string) (draw : SessionDraw) (now : Z) db
    : outcome AuthError Started * AccountDb :=
  let expiresAt := now + REFRESH_TOKEN_TTL_MS in
  match createSession (sd_id draw) userId (sha256 (sd_token draw)) (u_sessionEpoch user) expiresAt (now + REFRESH_IDLE_TTL_MS) agent now
          (adb_sessions db) with
  | (false, c) => (Throw ae_duplicate, on_sessions c db)
  | (true, c) =>
      (Ret {| st_caller := {| ca_userId := userId; ca_sessionId := sd_id draw; ca_email := u_email user |};
              st_refreshToken := sd_token draw; st_expiresAt := expiresAt |},
       on_users (recordSignIn userId now (adb_users db)) (on_sessions c db))
  end.

Definition respond (r : outcome AuthError Started * AccountDb) : AuthResponse * AccountDb :=
  match r with (Ret s, db) => (ar_ok s, db) | (Throw _, db) => (ar_failed, db) end.

Definition dead (s : AuthSessionDoc) (now : Z) : bool :=
  negb (bool_decide (s_revokedAt s = None)) || (s_expiresAt s <? now) || (s_idleExpiresAt s <? now).

(** POST /api/auth/refresh.  [meanwhile] is what others write after the read of
    the session, after the read of the user and after the rotation. *)
Definition refresh (presented : option string) (next : string) (agent : option string) (draw : SessionDraw) (now : Z)
    (meanwhile : list AccountWrite * list AccountWrite * list AccountWrite) db : AuthResponse * AccountDb :=
  match presented with
  | None => (ar_unauthenticated, db)
  | Some token =>
      match findSessionByRefreshHash (sha256 token) (adb_sessions db) with
      | None => (ar_unauthenticated, db)
      | Some (sid, s) =>
          if dead s now then (ar_unauthenticated, db)
          else let db1 := foldl account_write db meanwhile.1.1 in
          match find_user (s_userId s) (adb_users db1) with
          | None => (ar_unauthenticated, db1)
          | Some user =>
              if negb (bool_decide (u_disabledAt user = None)) then (ar_unauthenticated, db1)
              else if negb (u_sessionEpoch user =? s_sessionEpoch s)
              then (ar_unauthenticated, on_sessions (revokeSession sid "epoch_bumped" now (adb_sessions db1)) db1)
              else let db2 := foldl account_write db1 meanwhile.1.2 in
                match rotateSession sid (s_refreshTokenHash s) (sha256 next) (now + REFRESH_IDLE_TTL_MS) now (adb_sessions db2) with
                | (false, c) => (ar_unauthenticated, on_sessions (revokeSession sid "refresh_reuse" now c) db2)
                | (true, c) => respond (startSession (s_userId s) user agent draw now (foldl account_write (on_sessions c db2) meanwhile.2))
                end
          end
      end
  end.

(** POST /api/auth/signin; [verify] and [needsRehash] are those of password.ts,
    [rehashed] the new hash of the password. *)
Definition signin (verify : string → string → bool) (needsRehash : string → bool) (DUMMY_HASH rehashed : string)
    (email password : string) (agent : option string) (draw : SessionDraw) (now : Z) db : AuthResponse * AccountDb :=
  let found := findByEmail email (adb_users db) in
  let hash := default DUMMY_HASH (found ≫= λ f, u_passwordHash f.2) in
  match found with
  | Some (userId, user) =>
      if bool_decide (u_passwordHash user = None) || negb (verify password hash) then (ar_unauthenticated, db)
      else if negb (bool_decide (u_disabledAt user = None)) then (ar_disabled, db)
      else let db1 := if needsRehash hash then on_users (setPassword userId rehashed now (adb_users db)) db else db in
           respond (startSession userId user agent draw now db1)
  | None => (ar_unauthenticated, db)
  end.

(** POST /api/auth/signup. *)
Definition signup (userId email passwordHash : string) (name : option string) (agent : option string) (draw : SessionDraw) (now : Z) db
    : AuthResponse * AccountDb :=
  let input := {| cu_email := email; cu_name := name; cu_passwordHash := Some passwordHash; cu_emailVerified := false; cu_imageUrl := None |} in
  match create_user userId input now (adb_users db) with
  | (false, c) => (ar_conflict, on_users c db)
  | (true, c) => respond (startSession userId (new_user input now) agent draw now (on_users c db))
  end.

(** POST /api/auth/signout. *)
Definition signout (caller : option Caller) (now : Z) db : AccountDb :=
  match caller with
  | Some c => on_sessions (revokeSession (ca_sessionId c) "signed_out" now (adb_sessions db)) db
  | None => db
  end.

Definition codeHash (userId code : string) : string := sha256 (userId +:+ ":" +:+ js_trim code).

(** POST /api/auth/verify/confirm. *)
Definition confirm (userId code : string) (now : Z) db : ConfirmResponse * AccountDb :=
  match find_user userId (adb_users db) with
  | None => (cr_unauthenticated, db)
  | Some user =>
      if negb (bool_decide (u_emailVerifiedAt user = None)) then (cr_verified, db)
      else if negb (isCodeShaped code) then (cr_malformed, db)
      else match openChallenge userId email_verification now (adb_challenges db) with
      | None => (cr_wrong, db)
      | Some (qid, q) =>
          if negb (String.eqb (q_tokenHash q) (codeHash userId code)) then
            let '(attempts, c1) := recordChallengeAttempt qid (adb_challenges db) in
            (cr_wrong, on_challenges (if MAX_ATTEMPTS <=? attempts then (consumeChallenge qid now c1).2 else c1) db)
          else match consumeChallenge qid now (adb_challenges db) with
               | (false, c1) => (cr_wrong, on_challenges c1 db)
               | (true, c1) => (cr_verified, on_users (markEmailVerified userId now (adb_users db)) (on_challenges c1 db))
               end
      end
  end.

(** GET /api/auth/google/callback, from the identity it has verified on. *)
Inductive GoogleResponse := gr_ok (s : Started) | gr_unverified | gr_disabled | gr_failed.

Definition google_session (r : outcome AuthError Started * AccountDb) : GoogleResponse * AccountDb :=
  match r with (Ret s, db) => (gr_ok s, db) | (Throw _, db) => (gr_failed, db) end.
Definition sign_in_as (userId : string) (user : UserDoc) (agent : option string) (draw : SessionDraw) (now : Z) db : GoogleResponse * AccountDb :=
  if negb (bool_decide (u_disabledAt user = None)) then (gr_disabled, db)
  else google_session (startSession userId user agent draw now db).

Definition google_callback (identity : GoogleIdentity) (newUserId newLinkId : string) (agent : option string) (draw : SessionDraw) (now : Z) db
    : GoogleResponse * AccountDb :=
  let link := find_link (g_subject identity) (adb_identities db) in
  match link ≫= λ l, (λ u, (l, u)) <$> find_user (i_userId l.2) (adb_users db) with
  | Some ((linkId, l), user) =>
      sign_in_as (i_userId l) user agent draw now (on_identities (touchIdentity linkId (g_email identity) now (adb_identities db)) db)
  | None =>
      if negb (g_emailVerified identity) then (gr_unverified, db)
      else
        let input := {| cu_email := g_email identity; cu_name := g_name identity; cu_passwordHash := None; cu_emailVerified := true;
                        cu_imageUrl := g_picture identity |} in
        match findByEmail (g_email identity) (adb_users db) with
        | Some (userId, user) =>
            let db1 := if bool_decide (u_emailVerifiedAt user = None)
                       then on_users (markEmailVerified userId now (adb_users db)) db else db in
            match link_account newLinkId userId identity now (adb_identities db1) with
            | (false, c) => (gr_failed, on_identities c db1)
            | (true, c) => sign_in_as userId user agent draw now (on_identities c db1)
            end
        | None =>
            match create_user newUserId input now (adb_users db) with
            | (false, c) => (gr_failed, on_users c db)
            | (true, c) =>
                let db1 := on_users c db in
                match link_account newLinkId newUserId identity now (adb_identities db1) with
                | (false, c) => (gr_failed, on_identities c db1)
                | (true, c) => sign_in_as newUserId (new_user input now) agent draw now (on_identities c db1)
                end
            end
        end
  end.
End Routes.

(** ** Histories of users and sessions *)

(** What may put a refresh hash into a row, and what may create a row. *)
Definition draws (h : string) (w : AccountWrite) : Prop :=
  match w with
  | aw_createSession _ _ hash _ _ _ _ _ => hash = h
  | aw_rotate _ _ new _ _ => new = h
  | _ => False
  end.
Definition creates (sid : string) (w : AccountWrite) : Prop :=
  match w with aw_createSession id _ _ _ _ _ _ _ => id = sid | _ => False end.

Section AccountHistory.
Context {CU CS CC CI : Type}.
Context `{CollectionLaws UserDoc CU, CollectionLaws AuthSessionDoc CS, CollectionLaws AuthChallengeDoc CC, CollectionLaws IdentityDoc CI}.
Context (sha256 : string → string).
Notation Adb := (@AccountDb CU CS CC CI).
Implicit Types db : Adb.

(** What a write makes of a session: the row of before with a new hash or
    another end, or a new row. *)
Inductive session_step (w : AccountWrite) (id : string) : option AuthSessionDoc → AuthSessionDoc → Prop :=
| ss_same d : session_step w id (Some d) d
| ss_end d r why idle rot : session_step w id (Some d) (set_session (s_refreshTokenHash d) rot idle r why d)
| ss_rotate d old new idle now r why : w = aw_rotate id old new idle now →
    session_step w id (Some d) (set_session new now idle r why d)
| ss_new userId hash epoch exp idle agent now r : w = aw_createSession id userId hash epoch exp idle agent now →
    session_step w id None
      {| s_userId := userId; s_refreshTokenHash := hash; s_sessionEpoch := epoch; s_rotatedAt := now; s_createdAt := now;
         s_expiresAt := exp; s_idleExpiresAt := idle; s_userAgent := agent; s_revokedAt := None; s_revokedReason := r |}.

Lemma session_update w id k p f (c : CS) d' :
  (∀ d, p d = true → k = id → session_step w id (Some d) (f d)) →
  docs (updateOne k p f c).2 !! id = Some d' → session_step w id (docs c !! id) d'.
Proof.
  intros Hf. destruct (updateOne_cases k p f c) as [(d & Hd & Hp & _ & ->)|(_ & _ & ->)]; [|intros ->; constructor].
  intros [[<- <-]|[_ ->]]%lookup_insert_Some; [|constructor]. rewrite Hd. by apply Hf.
Qed.

Lemma session_steps w db id d' :
  docs (adb_sessions (account_write db w)) !! id = Some d' → session_step w id (docs (adb_sessions db) !! id) d'.
Proof.
  destruct w; simpl; try (intros ->; constructor).
  - unfold createSession. set (row := Build_AuthSessionDoc _ _ _ _ _ _ _ _ _ _).
    destruct (insertOne_cases same_refresh id0 row (adb_sessions db)) as [(_ & Hn & _ & E)|[_ E]]; rewrite E; [|intros ->; constructor].
    intros [[<- <-]|[_ ->]]%lookup_insert_Some; [|constructor]. rewrite Hn. by econstructor.
  - apply session_update. intros d _ <-. by econstructor.
  - apply session_update. intros d _ <-. by econstructor.
  - unfold revoke_sessions_of. rewrite (proj2 (updateMany_docs _ _ _)), lookup_fmap.
    destruct (docs (adb_sessions db) !! id) as [d|]; [|done]. simpl. destruct (_ && _); intros [= <-]; constructor.
  - unfold reap_sessions. rewrite (proj2 (deleteMany_docs _ _)). intros [-> _]%map_lookup_filter_Some. constructor.
Qed.

(** A hash is held by no row but those of [S]. *)
Definition only_at (h : string) (S : string → Prop) (c : CS) : Prop :=
  ∀ id d, docs c !! id = Some d → s_refreshTokenHash d = h → S id.

Lemma write_only_at h S w db : ¬ draws h w → only_at h S (adb_sessions db) → only_at h S (adb_sessions (account_write db w)).
Proof.
  intros Hno Hin id d' Hd. apply session_steps in Hd. remember (docs (adb_sessions db) !! id) as prior eqn:E.
  destruct Hd as [d|d r why idle rot|d old new idle now r why ->|userId hash epoch exp idle agent now r ->]; simpl.
  - by apply Hin.
  - by apply Hin.
  - intros <-. by destruct Hno.
  - intros <-. by destruct Hno.
Qed.

Lemma writes_only_at h S ws db : Forall (λ w, ¬ draws h w) ws → only_at h S (adb_sessions db) → only_at h S (adb_sessions (foldl account_write db ws)).
Proof. revert db. induction ws as [|w ws IH]; intros db Hno Hin; [done|]. apply Forall_cons in Hno as [Hw Hws]. simpl. by apply IH, write_only_at. Qed.

Lemma absent_unauthenticated token next agent draw now meanwhile db :
  only_at (sha256 token) (λ _, False) (adb_sessions db) →
  (refresh sha256 (Some token) next agent draw now meanwhile db).1 = ar_unauthenticated.
Proof.
  intros Ha. unfold refresh. destruct (findSessionByRefreshHash (sha256 token) (adb_sessions db)) as [[sid s]|] eqn:Ef; [|done].
  apply find_one_some in Ef as [Hs Hh%String.eqb_eq]. by destruct (Ha sid s Hs Hh).
Qed.

Definition refresh_hashes_unique (c : CS) : Prop :=
  ∀ i j d e, docs c !! i = Some d → docs c !! j = Some e → s_refreshTokenHash d = s_refreshTokenHash e → i = j.

(** C21.  After a refresh has succeeded its token is dead: presented again at any
    time and in any interleaving it is refused, unless the very same digest is
    drawn for another session. *)
Theorem refresh_tokens_work_once token next agent draw now meanwhile db s db' ws next' agent' draw' now' meanwhile' :
  refresh_hashes_unique (adb_sessions db) →
  refresh sha256 (Some token) next agent draw now meanwhile db = (ar_ok s, db') →
  sha256 next ≠ sha256 token → sha256 (sd_token draw) ≠ sha256 token →
  Forall (λ w, ¬ draws (sha256 token) w) (meanwhile.1.1 ++ meanwhile.1.2 ++ meanwhile.2 ++ ws) →
  (refresh sha256 (Some token) next' agent' draw' now' meanwhile' (foldl account_write db' ws)).1 = ar_unauthenticated.
Proof.
  intros Hu Hr Hn Hdraw Hno. apply Forall_app in Hno as [H11 Hno]. apply Forall_app in Hno as [H12 Hno]. apply Forall_app in Hno as [H13 Hws].
  apply absent_unauthenticated, writes_only_at; [done|]. unfold refresh in Hr.
  destruct (findSessionByRefreshHash (sha256 token) (adb_sessions db)) as [[sid d]|] eqn:Ef; [|done].
  apply find_one_some in Ef as [Hd Hh%String.eqb_eq]. destruct (dead d now); [done|].
  set (db1 := foldl account_write db meanwhile.1.1) in *.
  destruct (find_user (s_userId d) (adb_users db1)) as [user|]; [|done]. destruct (negb (bool_decide _)); [done|].
  destruct (negb (_ =? _)); [done|]. set (db2 := foldl account_write db1 meanwhile.1.2) in *.
  assert (Honly : only_at (sha256 token) (λ id, id = sid) (adb_sessions db2)).
  { apply writes_only_at; [done|]. apply writes_only_at; [done|]. intros id e He Hhe. apply (Hu id sid e d He Hd). congruence. }
  unfold rotateSession in Hr.
  match type of Hr with context [updateOne sid ?p ?f ?c] => destruct (updateOne_cases sid p f c) as [(e & He & Hp & Eb & E)|(_ & Eb & _)];
    destruct (updateOne sid p f c) as [b c1]; cbn [fst snd] in *; subst b; [|done] end.
  set (db3 := foldl account_write (on_sessions c1 db2) meanwhile.2) in *.
  assert (Hdb3 : only_at (sha256 token) (λ _, False) (adb_sessions db3)).
  { apply writes_only_at; [done|]. intros id e' He' Hhe. simpl in He'. rewrite E in He'.
    apply lookup_insert_Some in He' as [[_ <-]|[Hne He']]; [by apply Hn|]. by apply Hne; rewrite (Honly id e' He' Hhe). }
  unfold startSession, createSession in Hr.
  match type of Hr with context [insertOne same_refresh ?i ?r ?c] =>
    destruct (insertOne_cases same_refresh i r c) as [(Ei & _ & _ & E3)|[Ei _]]; destruct (insertOne same_refresh i r c) as [b c3];
    cbn [fst snd] in *; subst b; [|done] end.
  simpl in Hr. injection Hr as _ <-. simpl. intros id e'. rewrite E3. intros [[<- <-]|[_ He']]%lookup_insert_Some; [done|]. by apply (Hdb3 id e').
Qed.

(** *** The epoch *)
Lemma write_epochs w db id u :
  docs (adb_users db) !! id = Some u →
  ∃ u', docs (adb_users (account_write db w)) !! id = Some u' ∧ u_sessionEpoch u <= u_sessionEpoch u'.
Proof.
  intros Hu.
  assert (Hup : ∀ k p f, (∀ d, u_sessionEpoch d <= u_sessionEpoch (f d)) →
    ∃ u', docs (updateOne k p f (adb_users db)).2 !! id = Some u' ∧ u_sessionEpoch u <= u_sessionEpoch u').
  { intros k p f Hf. destruct (updateOne_cases k p f (adb_users db)) as [(d & Hd & _ & _ & ->)|(_ & _ & ->)]; [|by exists u; split; [|lia]].
    destruct (decide (k = id)) as [->|Hne].
    - exists (f d). rewrite lookup_insert_eq. rewrite Hu in Hd. injection Hd as <-. by split.
    - exists u. rewrite lookup_insert_ne by done. split; [done|lia]. }
  destruct w; simpl; try (by exists u; split; [|lia]); try (apply Hup; simpl; lia).
  unfold create_user. destruct (insertOne_cases same_email id0 (new_user input now) (adb_users db)) as [(_ & Hn & _ & ->)|[_ ->]];
    exists u; [|split; [done|lia]]. rewrite lookup_insert_ne; [split; [done|lia]|congruence].
Qed.

Lemma writes_epochs ws db id u :
  docs (adb_users db) !! id = Some u →
  ∃ u', docs (adb_users (foldl account_write db ws)) !! id = Some u' ∧ u_sessionEpoch u <= u_sessionEpoch u'.
Proof.
  revert db u. induction ws as [|w ws IH]; intros db u Hu; [exists u; split; [done|lia]|]. simpl.
  destruct (write_epochs w db id u Hu) as (u1 & Hu1 & Hle). destruct (IH _ u1 Hu1) as (u2 & Hu2 & Hle2). exists u2. split; [done|lia].
Qed.

Definition of_epoch (sid userId : string) (epoch : Z) db : Prop :=
  ∀ d, docs (adb_sessions db) !! sid = Some d → s_userId d = userId ∧ s_sessionEpoch d = epoch.

Lemma writes_keep_epoch ws db sid userId epoch :
  Forall (λ w, ¬ creates sid w) ws → of_epoch sid userId epoch db → of_epoch sid userId epoch (foldl account_write db ws).
Proof.
  revert db. induction ws as [|w ws IH]; intros db Hno He; [done|]. apply Forall_cons in Hno as [Hw Hws]. simpl. apply IH; [done|].
  intros d' Hd. apply session_steps in Hd. remember (docs (adb_sessions db) !! sid) as prior eqn:E.
  destruct Hd as [d|d| |? ? ? ? ? ? ? ? ->]; simpl; try (by apply He). by destruct Hw.
Qed.

(** Changing a password ends every session that existed: whatever happens
    afterwards, none of them can be refreshed again. *)
Theorem password_change_ends_sessions db sid s u hash now ws token s' next agent draw now' meanwhile :
  docs (adb_sessions db) !! sid = Some s → docs (adb_users db) !! s_userId s = Some u → s_sessionEpoch s <= u_sessionEpoch u →
  Forall (λ w, ¬ creates sid w) ws →
  let after := foldl account_write (account_write db (aw_setPassword (s_userId s) hash now)) ws in
  findSessionByRefreshHash (sha256 token) (adb_sessions after) = Some (sid, s') →
  (refresh sha256 (Some token) next agent draw now' meanwhile after).1 = ar_unauthenticated.
Proof.
  intros Hs Hu Hle Hno after Hf.
  assert (Hep : of_epoch sid (s_userId s) (s_sessionEpoch s) after).
  { apply writes_keep_epoch; [done|]. intros d Hd. simpl in Hd. rewrite Hs in Hd. by injection Hd as <-. }
  assert (Hu1 : ∃ u1, docs (adb_users (account_write db (aw_setPassword (s_userId s) hash now))) !! s_userId s = Some u1 ∧ s_sessionEpoch s < u_sessionEpoch u1).
  { simpl. unfold setPassword. match goal with |- context [updateOne ?k ?p ?f ?c] => destruct (updateOne_hit k p f c u Hu eq_refl) as [_ ->] end.
    rewrite lookup_insert_eq. eexists. split; [done|]. simpl. lia. }
  destruct Hu1 as (u1 & Hu1 & Hlt). destruct (writes_epochs ws _ _ u1 Hu1) as (u2 & Hu2 & Hle2). fold after in Hu2.
  pose proof Hf as Hd%find_one_some. destruct Hd as [Hd _]. destruct (Hep s' Hd) as [Eu Ee].
  unfold refresh. rewrite Hf. destruct (dead s' now'); [done|].
  destruct (writes_epochs meanwhile.1.1 after _ u2 Hu2) as (u3 & Hu3 & Hle3). unfold find_user. rewrite Eu, Hu3.
  destruct (negb (bool_decide _)); [done|]. rewrite Ee. destruct (Z.eqb_spec (u_sessionEpoch u3) (s_sessionEpoch s)); [lia|]. done.
Qed.
End AccountHistory.

(** ** Codes and guesses *)
Section Guessing.
Context {CU CS CC CI : Type}.
Context `{CollectionLaws UserDoc CU, CollectionLaws AuthSessionDoc CS, CollectionLaws AuthChallengeDoc CC, CollectionLaws IdentityDoc CI}.
Context (sha256 : string → string) (userId qid tokenHash : string).
Notation Adb := (@AccountDb CU CS CC CI).
Implicit Types db : Adb.

Definition guess db (g : string * Z) : Adb := (confirm sha256 userId g.1 g.2 db).2.

Definition the_challenge (attempts : Z) (spent : bool) (c : CC) : Prop :=
  (∃ q, docs c !! qid = Some q ∧ q_tokenHash q = tokenHash ∧ q_attempts q = attempts ∧
        (if spent then q_consumedAt q ≠ None else open_for userId email_verification q = true)) ∧
  ∀ id q, docs c !! id = Some q → open_for userId email_verification q = true → id = qid.

Lemma opened now c id q : openChallenge userId email_verification now c = Some (id, q) →
  docs c !! id = Some q ∧ open_for userId email_verification q = true.
Proof. intros [Hq Ho]%find_one_some. by apply andb_true_iff in Ho as [? _]. Qed.

Lemma nothing_open attempts now c : the_challenge attempts true c → openChallenge userId email_verification now c = None.
Proof.
  intros [(q & Hq & _ & _ & Hs) Hu]. destruct (openChallenge _ _ now c) as [[id q']|] eqn:E; [|done].
  apply opened in E as [Hq' Ho]. rewrite (Hu id q' Hq' Ho) in Hq'. rewrite Hq in Hq'. injection Hq' as <-.
  unfold open_for in Ho. rewrite !andb_true_iff, !bool_decide_eq_true in Ho. by destruct Ho as [_ ?].
Qed.

(** A change of the row that keeps its token keeps the others apart. *)
Lemma challenge_updated (c c' : CC) q q' attempts attempts' spent :
  the_challenge attempts false c → docs c !! qid = Some q → docs c' = <[qid := q']> (docs c) →
  q_tokenHash q' = q_tokenHash q → q_attempts q' = attempts' →
  (if spent : bool then q_consumedAt q' ≠ None else open_for userId email_verification q' = true) → the_challenge attempts' spent c'.
Proof.
  intros [(q0 & Hq0 & Ht & _) Hu] Hq E Et Ea Hs. rewrite Hq in Hq0. injection Hq0 as <-. split.
  - exists q'. rewrite E, lookup_insert_eq. split_and!; [done|congruence|done|done].
  - intros id d. rewrite E, lookup_insert_Some. intros [[<- _]|[_ Hd]] Ho; [done|by apply (Hu id d)].
Qed.

Definition wrong (g : string * Z) : Prop := codeHash sha256 userId g.1 ≠ tokenHash.

(** A guess counts when the route compares it with the code. *)
Definition compared db (g : string * Z) : bool :=
  match find_user userId (adb_users db), openChallenge userId email_verification g.2 (adb_challenges db) with
  | Some user, Some _ => bool_decide (u_emailVerifiedAt user = None) && isCodeShaped g.1
  | _, _ => false
  end.

Lemma guess_step db g attempts :
  wrong g → the_challenge attempts false (adb_challenges db) →
  if compared db g then the_challenge (attempts + 1) (MAX_ATTEMPTS <=? attempts + 1) (adb_challenges (guess db g))
  else guess db g = db.
Proof.
  intros Hw Hc. unfold guess, confirm, compared. destruct (find_user userId (adb_users db)) as [user|]; [|done].
  destruct (bool_decide (u_emailVerifiedAt user = None)); cbn [negb andb]; [|by destruct (openChallenge _ _ _ _)].
  destruct (openChallenge _ _ g.2 (adb_challenges db)) as [[id q]|] eqn:Eo; [|by destruct (negb (isCodeShaped g.1))].
  destruct (isCodeShaped g.1); cbn [negb]; [|done].
  apply opened in Eo as [Hq Ho]. pose proof Hc as [(q0 & Hq0 & Ht & Ha & _) Hu]. pose proof (Hu id q Hq Ho) as ->.
  rewrite Hq in Hq0. injection Hq0 as <-.
  destruct (String.eqb_spec (q_tokenHash q) (codeHash sha256 userId g.1)) as [Eh|_]; [by destruct Hw; congruence|]. cbn [negb].
  unfold recordChallengeAttempt.
  set (f := λ d, set_challenge (q_consumedAt d) (q_attempts d + 1) d). set (c1 := (updateOne qid (λ _, true) f (adb_challenges db)).2).
  assert (E1 : docs c1 = <[qid := f q]> (docs (adb_challenges db))) by (by apply updateOne_hit).
  assert (Hc1 : the_challenge (attempts + 1) false c1) by (apply (challenge_updated _ c1 q (f q) attempts _ false Hc Hq E1); [done|simpl; lia|exact Ho]).
  assert (Hq1 : docs c1 !! qid = Some (f q)) by (by rewrite E1, lookup_insert_eq). rewrite Hq1. simpl. rewrite Ha.
  destruct (MAX_ATTEMPTS <=? attempts + 1); [|done]. simpl. unfold consumeChallenge.
  assert (Hopen : q_consumedAt (f q) = None) by (unfold open_for in Ho; rewrite !andb_true_iff, !bool_decide_eq_true in Ho; by destruct Ho).
  set (f' := λ d, set_challenge (Some g.2) (q_attempts d) d).
  assert (E2 : docs (updateOne qid (λ d, bool_decide (q_consumedAt d = None)) f' c1).2 = <[qid := f' (f q)]> (docs c1)).
  { apply updateOne_hit; [done|by rewrite Hopen]. }
  apply (challenge_updated c1 _ (f q) (f' (f q)) (attempts + 1) _ true Hc1 Hq1 E2); [done|simpl; lia|done].
Qed.

Fixpoint comparisons db (gs : list (string * Z)) : Z :=
  match gs with [] => 0 | g :: rest => (if compared db g then 1 else 0) + comparisons (guess db g) rest end.

Lemma spent_stays db g attempts : the_challenge attempts true (adb_challenges db) →
  the_challenge attempts true (adb_challenges (guess db g)) ∧ compared db g = false.
Proof.
  intros Hc. pose proof (nothing_open attempts g.2 _ Hc) as Hn. unfold guess, confirm, compared. rewrite Hn.
  destruct (find_user userId (adb_users db)); [|done]. destruct (negb (bool_decide _)); [done|]. by destruct (negb (isCodeShaped g.1)).
Qed.

Lemma spent_run gs db a : the_challenge a true (adb_challenges db) →
  comparisons db gs = 0 ∧ the_challenge a true (adb_challenges (foldl guess db gs)).
Proof.
  revert db. induction gs as [|g gs IH]; intros db Hc; [done|]. simpl. destruct (spent_stays db g a Hc) as [Hc' ->].
  by destruct (IH _ Hc') as [-> ?].
Qed.

(** However many wrong codes are tried, at most five of them are compared with
    the one that was mailed, and after five it is worthless: the right code is
    refused as well. *)
Theorem guesses_are_limited db gs attempts :
  0 <= attempts < MAX_ATTEMPTS → the_challenge attempts false (adb_challenges db) → Forall wrong gs →
  comparisons db gs <= MAX_ATTEMPTS - attempts ∧
  (comparisons db gs = MAX_ATTEMPTS - attempts →
   ∀ code now, openChallenge userId email_verification now (adb_challenges (foldl guess db gs)) = None ∧
     (confirm sha256 userId code now (foldl guess db gs)).2 = foldl guess db gs).
Proof.
  revert db attempts. induction gs as [|g gs IH]; intros db attempts Ha Hc Hw.
  { simpl. unfold MAX_ATTEMPTS in *. split; lia. }
  apply Forall_cons in Hw as [Hg Hw]. simpl.
  pose proof (guess_step db g attempts Hg Hc) as Hstep. destruct (compared db g).
  - destruct (Z.leb_spec MAX_ATTEMPTS (attempts + 1)) as [Hle|Hlt].
    + destruct (spent_run gs (guess db g) _ Hstep) as [-> Hend]. split; [lia|]. intros _ code now.
      pose proof (nothing_open _ now _ Hend) as Hn. split; [done|]. unfold confirm. rewrite Hn.
      destruct (find_user _ _); [|done]. destruct (negb (bool_decide _)); [done|]. by destruct (negb (isCodeShaped code)).
    + destruct (IH (guess db g) (attempts + 1) ltac:(lia) Hstep Hw) as [Hle Hend]. split; [lia|]. intros E. apply Hend. lia.
  - rewrite Hstep. by apply IH.
Qed.
End Guessing.

(** ** Signing in with Google *)
Section Google.
Context {CU CS CC CI : Type}.
Context `{CollectionLaws UserDoc CU, CollectionLaws AuthSessionDoc CS, CollectionLaws AuthChallengeDoc CC, CollectionLaws IdentityDoc CI}.
Context (sha256 : string → string).
Notation Adb := (@AccountDb CU CS CC CI).
Implicit Types db : Adb.

Lemma signed_in_as userId user agent draw now db s db' :
  sign_in_as sha256 userId user agent draw now db = (gr_ok s, db') → ca_userId (st_caller s) = userId ∧ u_disabledAt user = None.
Proof.
  unfold sign_in_as. case_bool_decide as Hd; [|done]. cbn [negb]. unfold startSession.
  destruct (createSession _ _ _ _ _ _ _ _ _) as [[] c]; [|done]. simpl. intros [= <- _]. done.
Qed.

(** Whoever Google signs in as an account either was linked to it by the
    provider's own subject, or holds an address that Google has verified: an
    asserted, unverified address never reaches the account behind it, and a
    disabled account is not entered. *)
Theorem google_signs_in_the_owner identity newUserId newLinkId agent draw now db s db' :
  google_callback sha256 identity newUserId newLinkId agent draw now db = (gr_ok s, db') →
  let userId := ca_userId (st_caller s) in
  (∃ linkId l u, docs (adb_identities db) !! linkId = Some l ∧ i_provider l = "google" ∧ i_subject l = g_subject identity ∧
     i_userId l = userId ∧ docs (adb_users db) !! userId = Some u ∧ u_disabledAt u = None) ∨
  (g_emailVerified identity = true ∧
   ((∃ u, docs (adb_users db) !! userId = Some u ∧ u_email u = normaliseEmail (g_email identity) ∧ u_disabledAt u = None) ∨
    (userId = newUserId ∧ docs (adb_users db) !! userId = None))).
Proof.
  unfold google_callback. destruct (_ ≫= _) as [[[linkId l] user]|] eqn:El.
  - intros Hs. left. destruct (signed_in_as _ _ _ _ _ _ _ _ Hs) as [-> Hd].
    destruct (find_link _ _) as [[k l']|] eqn:Ef; [|done]. simpl in El.
    destruct (find_user (i_userId l') (adb_users db)) as [u|] eqn:Eu; [|done]. simpl in El. injection El as <- <- <-.
    apply find_one_some in Ef as [Hl Hp]. apply andb_true_iff in Hp as [Hp%String.eqb_eq Hsub%String.eqb_eq].
    exists k, l', u. done.
  - destruct (g_emailVerified identity); [|done]. cbn [negb]. intros Hs. right. split; [done|].
    destruct (findByEmail (g_email identity) (adb_users db)) as [[uid u]|] eqn:Eu.
    + destruct (link_account _ _ _ _ _) as [[] c]; [|done]. destruct (signed_in_as _ _ _ _ _ _ _ _ Hs) as [-> Hd].
      apply find_one_some in Eu as [Hu He%String.eqb_eq]. left. by exists u.
    + destruct (create_user _ _ _ _) as [b c] eqn:Ec. destruct b; [|done].
      destruct (link_account _ _ _ _ _) as [[] c2]; [|done]. destruct (signed_in_as _ _ _ _ _ _ _ _ Hs) as [-> Hd].
      right. split; [done|]. unfold create_user in Ec.
      match type of Ec with insertOne ?cl ?i ?d ?c0 = _ => destruct (insertOne_true cl i d c0) as [Hn _]; [by rewrite Ec|exact Hn] end.
Qed.
End Google.

(** ** Instances *)
Notation Accounts := (@AccountDb (gmap string UserDoc) (gmap string AuthSessionDoc) (gmap string AuthChallengeDoc) (gmap string IdentityDoc)).
Definition no_accounts : Accounts := {| adb_users := ∅; adb_sessions := ∅; adb_challenges := ∅; adb_identities := ∅ |}.
Definition draw (n : string) : SessionDraw := {| sd_id := "ses_" +:+ n; sd_token := "tok_" +:+ n |}.
Definition no_interference : list AccountWrite * list AccountWrite * list AccountWrite := ([], [], []).

Definition signed_up : Accounts := (signup id "usr_1" "ada@acme.test" "hash_1" None None (draw "1") 0 no_accounts).2.

Lemma one_session_unique : refresh_hashes_unique (adb_sessions signed_up).
Proof.
  intros i j d e Hi Hj _. change (docs (adb_sessions signed_up)) with ({["ses_1" := {| s_userId := "usr_1"; s_refreshTokenHash := "tok_1";
    s_sessionEpoch := 1; s_rotatedAt := 0; s_createdAt := 0; s_expiresAt := REFRESH_TOKEN_TTL_MS; s_idleExpiresAt := REFRESH_IDLE_TTL_MS;
    s_userAgent := None; s_revokedAt := None; s_revokedReason := None |}]} : gmap string AuthSessionDoc) in Hi, Hj.
  apply lookup_singleton_Some in Hi as [<- _]. apply lookup_singleton_Some in Hj as [<- _]. reflexivity.
Defined.

Definition refreshed : AuthResponse * Accounts := refresh id (Some "tok_1") "next_1" None (draw "2") 1000 no_interference signed_up.

Lemma refresh_tokens_work_once_witness :
  ∃ s, refreshed.1 = ar_ok s ∧
  (refresh id (Some "tok_1") "next_2" None (draw "3") 2000 no_interference (foldl account_write refreshed.2 [aw_signIn "usr_1" 1500])).1 = ar_unauthenticated.
Proof.
  assert (∃ s, refreshed.1 = ar_ok s) as [s Hs] by (vm_compute; eexists; reflexivity).
  exists s. split; [exact Hs|].
  apply (refresh_tokens_work_once id "tok_1" "next_1" None (draw "2") 1000 no_interference signed_up s refreshed.2 [aw_signIn "usr_1" 1500]);
    [apply one_session_unique| |discriminate|discriminate|constructor; [intros []|constructor]].
  rewrite <- Hs. unfold refreshed. destruct (refresh _ _ _ _ _ _ _ _). reflexivity.
Defined.

Lemma password_change_ends_sessions_witness :
  ∃ s', findSessionByRefreshHash "tok_1" (adb_sessions (account_write signed_up (aw_setPassword "usr_1" "hash_2" 500))) = Some ("ses_1", s') ∧
  (refresh id (Some "tok_1") "next_1" None (draw "2") 1000 no_interference (account_write signed_up (aw_setPassword "usr_1" "hash_2" 500))).1 = ar_unauthenticated.
Proof.
  assert (∃ s, docs (adb_sessions signed_up) !! "ses_1" = Some s ∧ s_userId s = "usr_1" ∧ s_sessionEpoch s = 1) as (s & Hs & Eu & Ee)
    by (vm_compute; eexists; split; [reflexivity|split; reflexivity]).
  assert (∃ u, docs (adb_users signed_up) !! "usr_1" = Some u ∧ u_sessionEpoch u = 1) as (u & Hu & Eu1)
    by (vm_compute; eexists; split; reflexivity).
  assert (∃ s', findSessionByRefreshHash "tok_1" (adb_sessions (account_write signed_up (aw_setPassword "usr_1" "hash_2" 500))) = Some ("ses_1", s')) as [s' Hs']
    by (vm_compute; eexists; reflexivity).
  exists s'. split; [exact Hs'|]. rewrite <- Eu in Hu.
  pose proof (password_change_ends_sessions id signed_up "ses_1" s u "hash_2" 500 [] "tok_1" s' "next_1" None (draw "2") 1000 no_interference
    Hs Hu ltac:(rewrite Ee, Eu1; lia) ltac:(constructor)) as Hend.
  rewrite Eu in Hend. exact (Hend Hs').
Defined.

Definition with_code : Accounts :=
  on_challenges (issueChallenge "chl_1" "usr_1" email_verification (codeHash id "usr_1" "123456") 600000 0 ∅).2 signed_up.
Definition tries : list (string * Z) := [("000000", 1); ("000001", 2); ("000002", 3); ("000003", 4); ("000004", 5); ("000005", 6)].

Lemma guesses_are_limited_witness :
  comparisons id "usr_1" with_code tries = 5 ∧
  openChallenge "usr_1" email_verification 9 (adb_challenges (foldl (guess id "usr_1") with_code tries)) = None.
Proof.
  assert (Hn : comparisons id "usr_1" with_code tries = 5) by (vm_compute; reflexivity). split; [exact Hn|].
  refine (proj1 (proj2 (guesses_are_limited id "usr_1" "chl_1" (codeHash id "usr_1" "123456") with_code tries 0 _ _ _) _ "123456" 9)).
  - unfold MAX_ATTEMPTS. lia.
  - split; [vm_compute; eexists; split_and!; reflexivity|].
    intros i q Hi _. change (docs (adb_challenges with_code)) with ({["chl_1" := {| q_userId := "usr_1"; q_kind := email_verification;
      q_tokenHash := codeHash id "usr_1" "123456"; q_expiresAt := 600000; q_consumedAt := None; q_attempts := 0; q_createdAt := 0 |}]} : gmap string AuthChallengeDoc) in Hi.
    apply lookup_singleton_Some in Hi as [<- _]. reflexivity.
  - repeat constructor; discriminate.
  - exact Hn.
Defined.

Definition ada_at_google : GoogleIdentity := {|
  g_subject := "g_77"; g_email := "Ada@Acme.test"; g_emailVerified := true; g_name := None; g_picture := None; g_hostedDomain := None |}.

Lemma google_signs_in_the_owner_witness :
  ∃ s db', google_callback id ada_at_google "usr_9" "idn_1" None (draw "2") 100 signed_up = (gr_ok s, db') ∧
    g_emailVerified ada_at_google = true.
Proof.
  set (r := google_callback id ada_at_google "usr_9" "idn_1" None (draw "2") 100 signed_up).
  assert (∃ s, r.1 = gr_ok s) as [s Hs] by (vm_compute; eexists; reflexivity).
  exists s, r.2. assert (Hr : r = (gr_ok s, r.2)) by (rewrite <- Hs; by destruct r). split; [exact Hr|].
  destruct (google_signs_in_the_owner id ada_at_google "usr_9" "idn_1" None (draw "2") 100 signed_up s r.2 Hr) as [(k & l & u & Hl & _)|[Hv _]];
    [vm_compute in Hl; discriminate Hl|exact Hv].
Defined.

(** *** Where the routes depart from what they say *)

(** A refresh starts a new session with thirty more days, instead of carrying
    the old one on: the hard stop never comes. *)
Example refresh_restarts_the_hard_stop :
  match refreshed.1 with ar_ok s => st_expiresAt s = 1000 + REFRESH_TOKEN_TTL_MS | _ => False end ∧
  (s_expiresAt <$> (adb_sessions refreshed.2 !! "ses_1")) = Some REFRESH_TOKEN_TTL_MS.
Proof. vm_compute. done. Qed.

(** The token the rotation stores is handed to nobody, and its session stays
    live beside the new one. *)
Example rotated_session_is_orphaned :
  (s_refreshTokenHash <$> (adb_sessions refreshed.2 !! "ses_1")) = Some "next_1" ∧
  match refreshed.1 with ar_ok s => st_refreshToken s | _ => "" end = "tok_2" ∧
  length (listSessions "usr_1" (adb_sessions refreshed.2)) = 2%nat.
Proof. vm_compute. done. Qed.

(** A token presented twice is refused, but no session is killed: the one that
    the first use started goes on. *)
Example reused_token_kills_nothing :
  let replay := refresh id (Some "tok_1") "next_2" None (draw "3") 2000 no_interference refreshed.2 in
  replay.1 = ar_unauthenticated ∧
  match (refresh id (Some "tok_2") "next_3" None (draw "4") 3000 no_interference replay.2).1 with ar_ok _ => True | _ => False end.
Proof. vm_compute. done. Qed.

(** Signing out ends the session of the access token only; the sessions that
    earlier refreshes left behind stay live. *)
Example signout_leaves_the_rotated_sessions :
  let out := signout (match refreshed.1 with ar_ok s => Some (st_caller s) | _ => None end) 2000 refreshed.2 in
  map fst (listSessions "usr_1" (adb_sessions out)) = ["ses_1"].
Proof. vm_compute. done. Qed.

(** Signing in with a password whose hash is upgraded bumps the epoch and then
    starts the session with the epoch of before: its first refresh is refused. *)
Example rehash_kills_the_new_session :
  let signed := signin id (λ _ _, true) (λ _, true) "dummy" "hash_2" "ada@acme.test" "pw" None (draw "5") 100 signed_up in
  match signed.1 with ar_ok _ => True | _ => False end ∧
  (refresh id (Some "tok_5") "next" None (draw "6") 200 no_interference signed.2).1 = ar_unauthenticated.
Proof. vm_compute. done. Qed.

(** Somebody who registered an address without proving it keeps their password
    on the account when its owner arrives through Google. *)
Example squatter_keeps_the_password :
  let linked := (google_callback id ada_at_google "usr_9" "idn_1" None (draw "2") 100 signed_up).2 in
  (λ u, (u_emailVerifiedAt u, u_passwordHash u)) <$> (adb_users linked !! "usr_1") = Some (Some 100, Some "hash_1").
Proof. vm_compute. done. Qed.
