(* ===== verification/GoogleSignIn.v ===== *)
(** * Signing in with Google

    Models packages/auth/src/google.ts, the verification of foreign tokens in
    packages/auth/src/jwt.ts, and the callback route from its request to the
    account of [Accounts].  Google is asked over a network that is an argument of
    every request; RSA verification, SHA-256, base64url and the decoding of
    cookies are parameters. *)
From S2P Require Import Prelude Json JsonText Text Entities Mongo Guard Jwt Accounts.

#[local] Open Scope host_scope.

Definition GOOGLE_ISSUERS : list string := ["https://accounts.google.com"; "accounts.google.com"].
Definition SIGN_IN_TTL_MS : Z := 10 * 60 * 1000.
Definition KEYS_TTL_MS : Z := 60 * 60 * 1000.

Record GoogleConfig := { gf_clientId : string; gf_clientSecret : string; gf_redirectUri : string }.
Record OidcMetadata := { om_issuer : string; om_authorization_endpoint : string; om_token_endpoint : string; om_jwks_uri : string }.
Record Jwk := { jk_kty : string; jk_kid : option string; jk_n : option string; jk_e : option string }.
(** The members the sign-in cookie may carry. *)
Record PendingGoogleSignIn := {
  ps_state : option string; ps_nonce : option string; ps_codeVerifier : option string; ps_createdAt : option Z; ps_returnTo : option string }.

Inductive GoogleAuthError := ge_discovery | ge_jwks | ge_state | ge_exchange | ge_jwt (e : JwtError) | ge_key | ge_email | ge_thrown.

(** An answer of Google: whether it is a success, and its body read as JSON. *)
Record HttpAnswer := { ha_ok : bool; ha_json : option value }.
Record GoogleNet := {
  gn_discovery : HttpAnswer; gn_jwks : string → HttpAnswer; gn_token : string → list (string * string) → HttpAnswer }.

Definition beginSignIn (returnTo : option string) (state nonce codeVerifier : string) (now : Z) : PendingGoogleSignIn := {|
  ps_state := Some state; ps_nonce := Some nonce; ps_codeVerifier := Some codeVerifier; ps_createdAt := Some now; ps_returnTo := returnTo |}.
Definition statesMatch (expected received : string) : bool :=
  (String.length expected =? String.length received)%nat && String.eqb expected received.
(** [now - undefined] is not a number, and compares as not greater. *)
Definition signInExpired (pending : PendingGoogleSignIn) (now : Z) : bool :=
  match ps_createdAt pending with Some t => SIGN_IN_TTL_MS <? now - t | None => false end.

(** ** Keys *)

Definition text_of (v : value) (k : string) : string := match own v k with VString s => s | _ => "undefined" end.
Definition optional_text (v : value) (k : string) : option string := match own v k with VString s => Some s | _ => None end.
Definition metadata_of (v : value) : OidcMetadata := {|
  om_issuer := text_of v "issuer"; om_authorization_endpoint := text_of v "authorization_endpoint"; om_token_endpoint := text_of v "token_endpoint";
  om_jwks_uri := text_of v "jwks_uri" |}.
Definition jwk_of (v : value) : Jwk := {|
  jk_kty := text_of v "kty"; jk_kid := optional_text v "kid"; jk_n := optional_text v "n"; jk_e := optional_text v "e" |}.
Definition keys_in (v : value) : list Jwk := match own v "keys" with VArray items => map jwk_of items | _ => [] end.

Record GoogleKeys := { gk_metadata : option (OidcMetadata * Z); gk_jwks : option (list Jwk * Z) }.
Definition no_keys : GoogleKeys := {| gk_metadata := None; gk_jwks := None |}.

(** The body of an answer, when a property of it can be read. *)
Definition body_of (a : HttpAnswer) : option value := match ha_json a with Some VNull | Some VUndefined | None => None | b => b end.

Definition cached_metadata (now : Z) (k : GoogleKeys) : option OidcMetadata :=
  match gk_metadata k with Some (m, expiresAt) => if now <? expiresAt then Some m else None | None => None end.
Definition fetch_metadata (net : GoogleNet) (now : Z) (k : GoogleKeys) : outcome GoogleAuthError OidcMetadata * GoogleKeys :=
  if negb (ha_ok (gn_discovery net)) then (Throw ge_discovery, k)
  else match body_of (gn_discovery net) with
  | None => (Throw ge_thrown, k)
  | Some body =>
      let m := metadata_of body in
      if bool_decide (om_issuer m ∈ GOOGLE_ISSUERS) then (Ret m, {| gk_metadata := Some (m, now + KEYS_TTL_MS); gk_jwks := gk_jwks k |})
      else (Throw ge_discovery, k)
  end.
Definition metadata (net : GoogleNet) (now : Z) (k : GoogleKeys) : outcome GoogleAuthError OidcMetadata * GoogleKeys :=
  match cached_metadata now k with Some m => (Ret m, k) | None => fetch_metadata net now k end.

Definition pick (keys : list Jwk) (kid : option string) : option Jwk :=
  match kid with
  | Some id => find (λ key, bool_decide (jk_kid key = Some id)) keys
  | None => match keys with [key] => Some key | _ => None end
  end.

(** The keys that are cached and fresh, and the one among them that is named. *)
Definition cached_key (kid : option string) (now : Z) (k : GoogleKeys) : option Jwk :=
  match gk_jwks k with Some (keys, expiresAt) => if now <? expiresAt then pick keys kid else None | None => None end.
Definition keyFor (net : GoogleNet) (kid : option string) (now : Z) (k : GoogleKeys) : outcome GoogleAuthError Jwk * GoogleKeys :=
  match cached_key kid now k with
  | Some key => (Ret key, k)
  | None =>
      match metadata net now k with
      | (Throw e, k1) => (Throw e, k1)
      | (Ret m, k1) =>
          if negb (ha_ok (gn_jwks net (om_jwks_uri m))) then (Throw ge_jwks, k1)
          else match body_of (gn_jwks net (om_jwks_uri m)) with
          | None => (Throw ge_thrown, k1)
          | Some body =>
              let keys := keys_in body in
              let k2 := {| gk_metadata := gk_metadata k1; gk_jwks := Some (keys, now + KEYS_TTL_MS) |} in
              match pick keys kid with Some key => (Ret key, k2) | None => (Throw ge_jwks, k2) end
          end
      end
  end.

(** ** The sign-in *)

Section SignIn.
Context (unb64url challenge_of : string → string) (rsa_verify : Jwk → string → string → bool).

Definition unverifiedKeyId (token : string) : outcome JwtError (option string) :=
  do parsed <- parse unb64url token;
  do kid <- prop (pa_header parsed) "kid";
  Ret (match kid with VString s => Some s | _ => None end).

(** [verifyRs256]; the error of a key that is not RSA is kept apart. *)
Definition verifyRs256 (token : string) (jwk : Jwk) (options : VerifyOptions) (nowMs : Z) : outcome GoogleAuthError value :=
  match parse unb64url token with
  | Throw e => Throw (ge_jwt e)
  | Ret parsed =>
      match prop (pa_header parsed) "alg" with
      | Throw e => Throw (ge_jwt e)
      | Ret alg =>
          if negb (is_string "RS256" alg) then Throw (ge_jwt je_algorithm)
          else if negb (String.eqb (jk_kty jwk) "RSA") then Throw ge_key
          else if negb (rsa_verify jwk (pa_signingInput parsed) (pa_signature parsed)) then Throw (ge_jwt je_signature)
          else match checkClaims (pa_claims parsed) options nowMs with Throw e => Throw (ge_jwt e) | Ret _ => Ret (pa_claims parsed) end
      end
  end.

(** The parameters of the address the person is sent to. *)
Definition authorization_params (config : GoogleConfig) (state nonce codeVerifier : string) (prompt loginHint : option string) : list (string * string) :=
  [("response_type", "code"); ("client_id", gf_clientId config); ("redirect_uri", gf_redirectUri config); ("scope", "openid email profile");
   ("state", state); ("nonce", nonce); ("code_challenge", challenge_of codeVerifier); ("code_challenge_method", "S256")] ++
  match prompt with Some p => [("prompt", p)] | None => [] end ++ match loginHint with Some h => [("login_hint", h)] | None => [] end.

(** [URLSearchParams] writes a missing member as the word undefined. *)
Definition exchange_params (config : GoogleConfig) (pending : PendingGoogleSignIn) (code : string) : list (string * string) :=
  [("grant_type", "authorization_code"); ("code", code); ("client_id", gf_clientId config); ("client_secret", gf_clientSecret config);
   ("redirect_uri", gf_redirectUri config); ("code_verifier", default "undefined" (ps_codeVerifier pending))].

Definition verify_options (config : GoogleConfig) (pending : PendingGoogleSignIn) : VerifyOptions := {|
  vo_issuer := GOOGLE_ISSUERS; vo_audience := gf_clientId config; vo_clockToleranceSeconds := None; vo_nonce := ps_nonce pending |}.

Definition identity_of (claims : value) : option GoogleIdentity :=
  match own claims "email" with
  | VString email => Some {|
      g_subject := text_of claims "sub"; g_email := email; g_emailVerified := match own claims "email_verified" with VBool true => true | _ => false end;
      g_name := optional_text claims "name"; g_picture := optional_text claims "picture"; g_hostedDomain := optional_text claims "hd" |}
  | _ => None
  end.

Definition completeSignIn (config : GoogleConfig) (net : GoogleNet) (pending : PendingGoogleSignIn) (code state : string) (now : Z) (k : GoogleKeys)
    : outcome GoogleAuthError GoogleIdentity * GoogleKeys :=
  match ps_state pending with
  | None => (Throw ge_thrown, k)
  | Some expected =>
  if negb (statesMatch expected state) then (Throw ge_state, k) else
  match metadata net now k with
  | (Throw e, k1) => (Throw e, k1)
  | (Ret m, k1) =>
      let answer := gn_token net (om_token_endpoint m) (exchange_params config pending code) in
      if negb (ha_ok answer) then (Throw ge_exchange, k1)
      else match body_of answer with
      | None => (Throw ge_thrown, k1)
      | Some body =>
          match own body "id_token" with
          | VString token =>
              match unverifiedKeyId token with
              | Throw e => (Throw (ge_jwt e), k1)
              | Ret kid =>
                  match keyFor net kid now k1 with
                  | (Throw e, k2) => (Throw e, k2)
                  | (Ret key, k2) =>
                      (match verifyRs256 token key (verify_options config pending) now with
                       | Throw e => Throw e
                       | Ret claims => match identity_of claims with Some i => Ret i | None => Throw ge_email end
                       end, k2)
                  end
              end
          | _ => (Throw ge_exchange, k1)
          end
      end
  end end.
End SignIn.

(** ** The route *)

Definition safeReturnTo (raw : option string) : string :=
  match raw with
  | Some path => if negb (String.prefix "/" path) || String.prefix "//" path then "/" else path
  | None => "/"
  end.

(** The cookie's text, decoded and read as JSON; [None] is what cannot be read. *)
Definition pending_of (v : value) : option PendingGoogleSignIn :=
  match v with
  | VNull | VUndefined => None
  | _ => Some {| ps_state := optional_text v "state"; ps_nonce := optional_text v "nonce"; ps_codeVerifier := optional_text v "codeVerifier";
                 ps_createdAt := match own v "createdAt" with VNumber n => Some n | _ => None end; ps_returnTo := optional_text v "returnTo" |}
  end.

Inductive CallbackAnswer := cb_unsupported | cb_rejected (reason : string) | cb_signed_in (s : Started) (location : string).

Record CallbackRequest := { cq_error : option string; cq_code : option string; cq_state : option string; cq_cookie : option string; cq_agent : option string }.

Section Callback.
Context {CU CS CC CI : Type}.
Context `{CollectionLaws UserDoc CU, CollectionLaws AuthSessionDoc CS, CollectionLaws AuthChallengeDoc CC, CollectionLaws IdentityDoc CI}.
Context (sha256 unb64url : string → string) (rsa_verify : Jwk → string → string → bool) (decodeURIComponent : string → option string).
Notation Db := (@AccountDb CU CS CC CI).

Definition PENDING_COOKIE : string := "salv_oauth".
(** What a request finds: the configuration, the network, the clock, fresh ids. *)
Record CallbackEnv := { ce_config : option GoogleConfig; ce_net : GoogleNet; ce_now : Z; ce_userId : string; ce_linkId : string; ce_draw : SessionDraw }.

(** The steps between the parameters and the account, each with its refusal. *)
Definition pending_sign_in (e : CallbackEnv) (rq : CallbackRequest) : string + PendingGoogleSignIn :=
  match readCookie decodeURIComponent (cq_cookie rq) PENDING_COOKIE with
  | Throw _ => inl "google_failed"
  | Ret None => inl "google_expired"
  | Ret (Some raw) =>
      match json_parse (unb64url raw) with
      | None => inl "google_expired"
      | Some v =>
          match pending_of v with
          | None => inl "google_failed"
          | Some pending => if signInExpired pending (ce_now e) then inl "google_expired" else inr pending
          end
      end
  end.

Definition google_GET (e : CallbackEnv) (rq : CallbackRequest) (k : GoogleKeys) (db : Db) : CallbackAnswer * GoogleKeys * Db :=
  match ce_config e with
  | None => (cb_unsupported, k, db)
  | Some config =>
      match cq_error rq, cq_code rq, cq_state rq with
      | Some _, _, _ => (cb_rejected "google_denied", k, db)
      | None, Some code, Some state =>
          match pending_sign_in e rq with
          | inl reason => (cb_rejected reason, k, db)
          | inr pending =>
              match completeSignIn unb64url rsa_verify config (ce_net e) pending code state (ce_now e) k with
              | (Throw _, k') => (cb_rejected "google_failed", k', db)
              | (Ret identity, k') =>
                  match google_callback sha256 identity (ce_userId e) (ce_linkId e) (cq_agent rq) (ce_draw e) (ce_now e) db with
                  | (gr_ok s, db') => (cb_signed_in s (safeReturnTo (ps_returnTo pending)), k', db')
                  | (gr_unverified, db') => (cb_rejected "google_unverified", k', db')
                  | (gr_disabled, db') => (cb_rejected "account_disabled", k', db')
                  | (gr_failed, db') => (cb_rejected "google_failed", k', db')
                  end
              end
          end
      | None, _, _ => (cb_rejected "google_incomplete", k, db)
      end
  end.

(** ** What a sign-in proves *)

(** Keys that came from Google: from the address its discovery document gives. *)
Section Trust.
Context (published : Jwk → Prop) (google : OidcMetadata → Prop).

(** The cached document and keys are Google's. *)
Definition keys_trusted (k : GoogleKeys) : Prop :=
  (∀ m t, gk_metadata k = Some (m, t) → google m) ∧ (∀ ks t, gk_jwks k = Some (ks, t) → ∀ key, key ∈ ks → published key).
(** What the network says of Google is true: a document that names Google as its
    issuer is Google's, and the keys at the address it gives are published. *)
Definition net_trusted (net : GoogleNet) : Prop :=
  (∀ body, body_of (gn_discovery net) = Some body → om_issuer (metadata_of body) ∈ GOOGLE_ISSUERS → google (metadata_of body)) ∧
  (∀ m body, google m → body_of (gn_jwks net (om_jwks_uri m)) = Some body → ∀ key, key ∈ keys_in body → published key).

Lemma metadata_trusted net now k r k' :
  net_trusted net → keys_trusted k → metadata net now k = (r, k') → keys_trusted k' ∧ ∀ m, r = Ret m → google m.
Proof.
  intros [Hdisc _] [Hm Hk]. unfold metadata, cached_metadata, fetch_metadata.
  destruct (match gk_metadata k with Some _ => _ | None => _ end) as [m|] eqn:Hc.
  - intros [= <- <-]. split; [done|]. intros m' [= <-]. destruct (gk_metadata k) as [[m0 t]|] eqn:Hg; [|done].
    destruct (now <? t); [|done]. injection Hc as ->. by eapply Hm.
  - destruct (negb _); [by intros [= <- <-]|]. destruct (body_of _) as [body|] eqn:Hb; [|by intros [= <- <-]].
    cbn zeta. case_bool_decide as Hi; intros [= <- <-]; [|done]. specialize (Hdisc body eq_refl Hi).
    split; [|by intros m [= <-]]. split; [|exact Hk]. by intros m t [= <- _].
Qed.

Lemma pick_in keys kid key : pick keys kid = Some key → key ∈ keys ∧ ∀ id, kid = Some id → jk_kid key = Some id.
Proof.
  unfold pick. destruct kid as [id|].
  - intros [Hin Hid]%find_some_elem. apply bool_decide_eq_true in Hid. split; [done|]. by intros id' [= <-].
  - destruct keys as [|k [|]]; [done| |done]. intros [= <-]. split; [by left|done].
Qed.

Lemma keyFor_trusted net kid now k r k' :
  net_trusted net → keys_trusted k → keyFor net kid now k = (r, k') →
  keys_trusted k' ∧ ∀ key, r = Ret key → published key ∧ ∀ id, kid = Some id → jk_kid key = Some id.
Proof.
  intros Hnet Hkeys. unfold keyFor. destruct (cached_key kid now k) as [key|] eqn:Hc.
  { intros [= <- <-]. split; [done|]. intros key' [= <-]. unfold cached_key in Hc. destruct (gk_jwks k) as [[ks t]|] eqn:Hg; [|done].
    destruct (now <? t); [|done]. apply pick_in in Hc as [Hin Hid]. split; [by eapply (proj2 Hkeys)|done]. }
  destruct (metadata net now k) as [r1 k1] eqn:Hm. apply metadata_trusted in Hm as [Hk1 Hg]; [|done..]. destruct r1 as [m|e]; [|by intros [= <- <-]].
  destruct (negb _); [by intros [= <- <-]|]. destruct (body_of _) as [body|] eqn:Hb; [|by intros [= <- <-]]. cbn zeta.
  assert (∀ key, key ∈ keys_in body → published key) as Hpub by (eapply (proj2 Hnet); eauto).
  assert (keys_trusted {| gk_metadata := gk_metadata k1; gk_jwks := Some (keys_in body, now + KEYS_TTL_MS) |}) as Hk2
    by (split; [apply Hk1|by intros ks t [= <- _]]).
  destruct (pick (keys_in body) kid) as [key|] eqn:Hp; intros [= <- <-]; (split; [done|]); [|done].
  intros key' [= <-]. apply pick_in in Hp as [Hin Hid]. auto.
Qed.

(** What is known of an identity: the response belongs to the request the browser
    began, and the token says so under a published key, for this application, this
    attempt and this moment. *)
Definition vouched_identity (config : GoogleConfig) (net : GoogleNet) (pending : PendingGoogleSignIn) (code state : string) (now : Z) (i : GoogleIdentity) : Prop :=
  ps_state pending = Some state ∧
  ∃ m token body key parsed, google m ∧
    body_of (gn_token net (om_token_endpoint m) (exchange_params config pending code)) = Some body ∧ own body "id_token" = VString token ∧
    published key ∧ parse unb64url token = Ret parsed ∧ own (pa_header parsed) "alg" = VString "RS256" ∧
    (∀ kid, own (pa_header parsed) "kid" = VString kid → jk_kid key = Some kid) ∧
    rsa_verify key (pa_signingInput parsed) (pa_signature parsed) = true ∧
    checkClaims (pa_claims parsed) (verify_options config pending) now = Ret tt ∧ identity_of (pa_claims parsed) = Some i.

(** What such a token claims: Google issued it, for this application, it has not expired
    (a minute's tolerance), it names the nonce of this attempt if the attempt has one, and
    it holds the subject and the address of the identity, verified or not. *)
Definition claims_identity (config : GoogleConfig) (pending : PendingGoogleSignIn) (now : Z) (claims : value) (i : GoogleIdentity) : Prop :=
  (own claims "iss" = VString "https://accounts.google.com" ∨ own claims "iss" = VString "accounts.google.com") ∧
  VString (gf_clientId config) ∈ audiences (own claims "aud") ∧
  (∃ exp, own claims "exp" = VNumber exp ∧ seconds now <= exp + DEFAULT_CLOCK_TOLERANCE) ∧
  (∀ nonce, ps_nonce pending = Some nonce → own claims "nonce" = VString nonce) ∧
  own claims "sub" = VString (g_subject i) ∧ g_subject i ≠ "" ∧ own claims "email" = VString (g_email i) ∧
  (g_emailVerified i = true ↔ own claims "email_verified" = VBool true).

Lemma checked_nonce claims options now nonce : checkClaims claims options now = Ret tt → vo_nonce options = Some nonce → own claims "nonce" = VString nonce.
Proof.
  unfold checkClaims. destruct (prop claims "iss"); [|done]. cbn [obind]. intros Hc Hn. rewrite Hn in Hc. revert Hc.
  repeat (case_match; try done); intros _; by apply is_string_spec.
Qed.
Lemma checked_identity config pending now claims i :
  checkClaims claims (verify_options config pending) now = Ret tt → identity_of claims = Some i → claims_identity config pending now claims i.
Proof.
  intros Hc Hi. pose proof (checked_claims _ _ _ Hc) as ((iss & Hiss & Hown) & Haud & Hexp & (sub & Hsub & Hne)).
  unfold identity_of, text_of in Hi. destruct (own claims "email") as [| | | |email| |] eqn:He; try done. injection Hi as <-. cbn. unfold claims_identity. cbn.
  rewrite Hsub. split_and!; try done.
  - cbn [verify_options vo_issuer] in Hiss. unfold GOOGLE_ISSUERS in Hiss. rewrite Hown.
    apply elem_of_cons in Hiss as [->|Hiss]; [by left|]. apply list_elem_of_singleton in Hiss as ->. by right.
  - intros nonce Hn. by eapply checked_nonce.
  - destruct (own claims "email_verified") as [| |[]| | | |]; split; congruence.
Qed.

Lemma prop_own v k x : prop v k = Ret x → x = own v k.
Proof. by destruct v; simpl; try done; intros [= <-]. Qed.

Lemma completed_is_vouched config net pending code state now k i k' :
  net_trusted net → keys_trusted k → completeSignIn unb64url rsa_verify config net pending code state now k = (Ret i, k') →
  keys_trusted k' ∧ vouched_identity config net pending code state now i.
Proof.
  intros Hnet Hk. unfold completeSignIn. destruct (ps_state pending) as [expected|] eqn:Hstate; [|done].
  destruct (statesMatch expected state) eqn:Hs; [|done]. cbn [negb]. unfold statesMatch in Hs. apply andb_true_iff in Hs as [_ ->%String.eqb_eq].
  destruct (metadata net now k) as [[m|e] k1] eqn:Hm; [|done]. apply metadata_trusted in Hm as [Hk1 Hg]; [|done..]. cbn zeta.
  destruct (negb _); [done|]. destruct (body_of _) as [body|] eqn:Hb; [|done]. destruct (own body "id_token") as [| | | |token| |] eqn:Ht; try done.
  unfold unverifiedKeyId. destruct (parse unb64url token) as [parsed|e] eqn:Hp; [|done]. cbn [obind].
  destruct (prop (pa_header parsed) "kid") as [kid|] eqn:Hkid; [|done]. apply prop_own in Hkid as ->. cbn [obind].
  destruct (keyFor _ _ _ _) as [[key|] k2] eqn:Hkey; [|done]. apply keyFor_trusted in Hkey as [Hk2 Hpub]; [|done..]. destruct (Hpub key eq_refl) as [Hp1 Hp2].
  unfold verifyRs256. rewrite Hp. destruct (prop (pa_header parsed) "alg") as [alg|] eqn:Halg; [|done]. apply prop_own in Halg as ->.
  destruct (is_string "RS256" _) eqn:His; [|done]. apply is_string_spec in His. cbn [negb].
  destruct (String.eqb (jk_kty key) "RSA"); [|done]. cbn [negb]. destruct (rsa_verify _ _ _) eqn:Hr; [|done]. cbn [negb].
  destruct (checkClaims _ _ _) as [[]|] eqn:Hc; [|done]. destruct (identity_of _) as [i'|] eqn:Hi; [|done]. intros [= <- <-].
  split; [done|]. split; [done|]. exists m, token, body, key, parsed. split_and!; try done; [by apply Hg|]. intros id Hid. apply Hp2. by rewrite Hid.
Qed.

(** The account a session was started for is not disabled, and is one that had been linked
    to the subject, or, where the address is verified, the one with this address or a new
    one. *)
Definition owns_account (i : GoogleIdentity) (newUserId : string) (s : Started) (db : Db) : Prop :=
  let userId := ca_userId (st_caller s) in
  (∃ linkId l u, docs (adb_identities db) !! linkId = Some l ∧ i_provider l = "google" ∧ i_subject l = g_subject i ∧
     i_userId l = userId ∧ docs (adb_users db) !! userId = Some u ∧ u_disabledAt u = None) ∨
  (g_emailVerified i = true ∧
   ((∃ u, docs (adb_users db) !! userId = Some u ∧ u_email u = normaliseEmail (g_email i) ∧ u_disabledAt u = None) ∨
    (userId = newUserId ∧ docs (adb_users db) !! userId = None))).

(** C23.  A browser that comes back from Google is signed in only with an unexpired
    attempt of its own, whose state it repeats, and with an identity token that Google's
    token endpoint gave for the code and is signed under a published key.  The token was
    issued by Google for this application and has not expired; it carries the nonce of
    the attempt if the attempt's cookie has one (a cookie without a nonce is not checked
    for one, [missing_nonce_is_not_checked]).  The account is then one that was linked to
    the token's subject before, or, only if the token says the address is verified, the
    account of that address or a new one; a disabled account is not entered.  That
    Google's documents and keys are Google's is assumed of the network. *)
Theorem google_sign_ins_are_fresh e rq k db s location k' db' :
  net_trusted (ce_net e) → keys_trusted k → google_GET e rq k db = (cb_signed_in s location, k', db') →
  keys_trusted k' ∧
  ∃ config code state pending i m token body key parsed,
    ce_config e = Some config ∧ cq_error rq = None ∧ cq_code rq = Some code ∧ cq_state rq = Some state ∧
    pending_sign_in e rq = inr pending ∧ signInExpired pending (ce_now e) = false ∧ ps_state pending = Some state ∧
    google m ∧ body_of (gn_token (ce_net e) (om_token_endpoint m) (exchange_params config pending code)) = Some body ∧
    own body "id_token" = VString token ∧ parse unb64url token = Ret parsed ∧ own (pa_header parsed) "alg" = VString "RS256" ∧
    published key ∧ rsa_verify key (pa_signingInput parsed) (pa_signature parsed) = true ∧
    claims_identity config pending (ce_now e) (pa_claims parsed) i ∧
    location = safeReturnTo (ps_returnTo pending) ∧ owns_account i (ce_userId e) s db.
Proof.
  intros Hnet Hk. unfold google_GET. destruct (ce_config e) as [config|] eqn:Hcfg; [|done].
  destruct (cq_error rq) eqn:Herr; [done|]. destruct (cq_code rq) as [code|] eqn:Hcode; [|done]. destruct (cq_state rq) as [state|] eqn:Hstate; [|done].
  destruct (pending_sign_in e rq) as [|pending] eqn:Hpend; [done|].
  destruct (completeSignIn _ _ _ _ _ _ _ _ _) as [[i|] k1] eqn:Hc; [|done]. apply completed_is_vouched in Hc as [Hk1 Hv]; [|done..].
  destruct (google_callback _ _ _ _ _ _ _ _) as [[] db1] eqn:Hg; try done. intros [= <- <- <- <-]. split; [done|].
  destruct Hv as (Hps & m & token & body & key & parsed & Hm & Hb & Ht & Hpub & Hp & Halg & _ & Hr & Hcl & Hi).
  exists config, code, state, pending, i, m, token, body, key, parsed. split_and!; try done.
  - unfold pending_sign_in in Hpend. destruct (readCookie _ _ _) as [[raw|]|]; try done. destruct (json_parse _); [|done].
    destruct (pending_of _) as [p|]; [|done]. destruct (signInExpired p (ce_now e)) eqn:He; [done|]. by injection Hpend as <-.
  - by apply checked_identity.
  - by eapply google_signs_in_the_owner.
Qed.
End Trust.
End Callback.

(** ** A sign-in from beginning to end *)
Definition dots (s : string) : string := str_map (λ c, if Ascii.eqb c "~" then Ascii.ascii_of_nat 46 else c) s.
Definition member_of (k : string) (v : value) : string * value := (k, v).
Definition a_google_config : GoogleConfig := {| gf_clientId := "cid"; gf_clientSecret := "sec"; gf_redirectUri := "https://h.example/api/auth/google/callback" |}.
Definition the_discovery : value := VObject [member_of "issuer" (VString "https://accounts.google.com"); member_of "token_endpoint" (VString "https://g/token"); member_of "jwks_uri" (VString "https://g/keys")].
Definition the_keys : value := VObject [member_of "keys" (VArray [VObject [member_of "kty" (VString "RSA"); member_of "kid" (VString "k1"); member_of "n" (VString "mod")]])].
Definition id_token : string :=
  stringify (VObject [member_of "alg" (VString "RS256"); member_of "kid" (VString "k1")]) +:+ "." +:+
  stringify (VObject [member_of "iss" (VString "accounts~google~com"); member_of "aud" (VString "cid"); member_of "exp" (VNumber 4000); member_of "sub" (VString "g_77");
                      member_of "email" (VString "Ada@Acme~test"); member_of "email_verified" (VBool true); member_of "nonce" (VString "n1")]) +:+ ".signed".
Definition google_net : GoogleNet := {|
  gn_discovery := {| ha_ok := true; ha_json := Some the_discovery |}; gn_jwks := λ _, {| ha_ok := true; ha_json := Some the_keys |};
  gn_token := λ _ params, {| ha_ok := bool_decide (("code_verifier", "v1") ∈ params); ha_json := Some (VObject [member_of "id_token" (VString id_token)]) |} |}.
Definition toy_rsa (key : Jwk) (input signature : string) : bool := String.eqb signature "signed".
Definition pending_cookie (nonce : list (string * value)) : string :=
  PENDING_COOKIE +:+ "=" +:+ stringify (VObject ([member_of "state" (VString "s1"); member_of "codeVerifier" (VString "v1"); member_of "createdAt" (VNumber 0)] ++ nonce)).
Definition back_from_google (cookie : string) : CallbackRequest := {|
  cq_error := None; cq_code := Some "c1"; cq_state := Some "s1"; cq_cookie := Some cookie; cq_agent := None |}.
Definition google_env : CallbackEnv := {| ce_config := Some a_google_config; ce_net := google_net; ce_now := 100; ce_userId := "usr_9"; ce_linkId := "idn_1"; ce_draw := draw "2" |}.
Definition sign_in_with (cookie : string) := google_GET id dots toy_rsa Some google_env (back_from_google cookie) no_keys signed_up.
Definition whole_cookie : string := pending_cookie [member_of "nonce" (VString "n1")].

Definition the_attempt : PendingGoogleSignIn :=
  {| ps_state := Some "s1"; ps_nonce := Some "n1"; ps_codeVerifier := Some "v1"; ps_createdAt := Some 0; ps_returnTo := None |}.
Lemma google_sign_ins_are_fresh_witness :
  ∃ s k' db', sign_in_with whole_cookie = (cb_signed_in s "/", k', db') ∧
    ∃ i claims, claims_identity a_google_config the_attempt 100 claims i ∧ own claims "nonce" = VString "n1" ∧ owns_account i "usr_9" s signed_up.
Proof.
  set (r := sign_in_with whole_cookie).
  assert (∃ s, r.1.1 = cb_signed_in s "/") as [s Hs] by (vm_compute; eexists; reflexivity).
  assert (r = (cb_signed_in s "/", r.1.2, r.2)) as Hr by (rewrite <-Hs; by destruct r as [[]]).
  exists s, r.1.2, r.2. split; [exact Hr|].
  destruct (google_sign_ins_are_fresh id dots toy_rsa Some (λ key, jk_kid key = Some "k1") (λ _, True) google_env (back_from_google whole_cookie) no_keys signed_up
    s "/" r.1.2 r.2) as [_ (config & code & state & pending & i & m & token & body & key & parsed & Hcfg & _ & _ & _ & Hp & _ & _ & _ & _ & _ & _ & _ & _ & _ & Hcl & _ & Ho)].
  - split; [done|]. intros m body _ Hb key Hkey. injection Hb as <-. vm_compute in Hkey. by apply list_elem_of_singleton in Hkey as ->.
  - split; [intros m t Hm; discriminate Hm|intros ks t Hks; discriminate Hks].
  - exact Hr.
  - exists i, (pa_claims parsed). injection Hcfg as <-.
    assert (pending_sign_in dots Some google_env (back_from_google whole_cookie) = inr the_attempt) as Hp' by (vm_compute; reflexivity).
    rewrite Hp in Hp'. injection Hp' as ->. split; [exact Hcl|]. split; [|exact Ho]. by apply (proj1 (proj2 (proj2 (proj2 Hcl)))).
Defined.

(** A cookie that carries no nonce is accepted, and the token is then not tied to
    the attempt. *)
Example missing_nonce_is_not_checked :
  match (sign_in_with (pending_cookie [])).1.1 with cb_signed_in _ _ => true | _ => false end = true.
Proof. vm_compute. reflexivity. Qed.

(** A path that begins with a slash and a backslash is returned as it is, and
    browsers read it as the address of another host. *)
Example backslash_leaves_the_site :
  let path := String "/" (String (Ascii.ascii_of_nat 92) "evil.example") in safeReturnTo (Some path) = path.
Proof. reflexivity. Qed.
