(* ===== verification/Billing.v ===== *)
(** * Plans, trials and spending caps

    Models packages/billing/src/entitlements.ts with the plans of
    packages/catalog/src/plans.ts, the subscription on file
    (packages/db/src/repositories/subscriptions.ts), the webhook that keeps it
    (apps/web/src/app/api/billing/webhook/route.ts over
    packages/billing/src/stripe.ts), the free trial's route, the usage rollup of
    packages/db/src/repositories/telemetry.ts and the gates of
    apps/web/src/lib/billing.ts and limits.ts.  HMAC-SHA256 in hexadecimal and
    [Number] on a timestamp are parameters; the sentences a refusal is worded in
    are constructors that carry their numbers. *)
From Stdlib Require Import Qabs.
From stdpp Require Import stringmap.
From S2P Require Import Prelude Json JsonText Text Entities Mongo Guard Resolver OAuthServer Access.

(** ** Plans *)
Record PlanLimits := { pl_agents : Z; pl_channels : Z; pl_mcpServers : Z; pl_monthlyUsdCap : Z }.
Record Plan := {
  plan_id : string; plan_name : string; plan_amountCents : Z; plan_currency : string; plan_interval : string; plan_limits : PlanLimits }.

Definition PLANS : list Plan := [
  {| plan_id := "standard"; plan_name := "Standard"; plan_amountCents := 6700; plan_currency := "usd"; plan_interval := "month";
     plan_limits := {| pl_agents := 25; pl_channels := 10; pl_mcpServers := 50; pl_monthlyUsdCap := 250 |} |}].
Definition planById (id : string) : option Plan := find (λ p, String.eqb (plan_id p) id) PLANS.
Definition DEFAULT_PLAN_ID : string := "standard".

(** ** Entitlements *)
Inductive SubscriptionStatus := ss_active | ss_cancelling | ss_past_due | ss_ended | ss_incomplete.
#[global] Instance SubscriptionStatus_eq_dec : EqDecision SubscriptionStatus.
Proof. solve_decision. Defined.

Record Subscription := {
  su_externalId : string; su_planId : string; su_status : SubscriptionStatus; su_currentPeriodEnd : option Z; su_cancelAtPeriodEnd : bool }.

Inductive EntitlementState := exempt | subscribed | trial | trial_ended | no_entitlement.
#[global] Instance EntitlementState_eq_dec : EqDecision EntitlementState.
Proof. solve_decision. Defined.

Record Entitlements := {
  en_planId : option string; en_active : bool; en_limits : option PlanLimits; en_unconfigured : bool;
  en_state : EntitlementState; en_trialEndsAt : option Z }.

Definition TRIAL_DAYS : Z := 10.
Definition UNCONFIGURED : Entitlements := {|
  en_planId := None; en_active := true; en_limits := None; en_unconfigured := true; en_state := exempt; en_trialEndsAt := None |}.
Definition NONE : Entitlements := {|
  en_planId := None; en_active := false; en_limits := None; en_unconfigured := false; en_state := no_entitlement; en_trialEndsAt := None |}.

Definition keeps_access (status : SubscriptionStatus) : bool :=
  match status with ss_active | ss_cancelling | ss_past_due => true | _ => false end.

Definition entitlementsOf (subscription : option Subscription) : Entitlements :=
  match subscription with
  | None => NONE
  | Some s =>
      let active := keeps_access (su_status s) in
      {| en_planId := Some (su_planId s); en_active := active; en_limits := plan_limits <$> planById (su_planId s);
         en_unconfigured := false; en_state := if active then subscribed else no_entitlement; en_trialEndsAt := None |}
  end.

Definition trialEntitlements (endsAt now : Z) : Entitlements :=
  let live := now <? endsAt in
  {| en_planId := if live then Some DEFAULT_PLAN_ID else None; en_active := live;
     en_limits := if live then plan_limits <$> planById DEFAULT_PLAN_ID else None; en_unconfigured := false;
     en_state := if live then trial else trial_ended; en_trialEndsAt := Some endsAt |}.

(** ** Limits on counts *)
Inductive LimitName := lim_agents | lim_channels | lim_mcpServers | lim_monthlyUsdCap.
Definition limit_of (l : LimitName) (p : PlanLimits) : Z :=
  match l with
  | lim_agents => pl_agents p | lim_channels => pl_channels p | lim_mcpServers => pl_mcpServers p
  | lim_monthlyUsdCap => pl_monthlyUsdCap p
  end.

Inductive Refusal :=
| inactive (state : EntitlementState)
| count_full (limit : LimitName) (ceiling current adding : Z)
| daily_cap (cap : Q)
| monthly_cap (cap : Z)
| allowance_used (cap : Q).

(** [None] allows. *)
Definition withinLimit (e : Entitlements) (limit : LimitName) (current : Z) : option Refusal :=
  if en_unconfigured e then None
  else if negb (en_active e) then Some (inactive (en_state e))
  else match limit_of limit <$> en_limits e with
       | None => None
       | Some ceiling => if current <? ceiling then None else Some (count_full limit ceiling current 1)
       end.

Definition countGateFor (e : Entitlements) (limit : LimitName) (current adding : Z) : option Refusal :=
  match withinLimit e limit (current + adding - 1) with
  | None => None
  | Some reason =>
      match limit_of limit <$> en_limits e with
      | None => Some reason
      | Some ceiling => Some (count_full limit ceiling current adding)
      end
  end.

(** ** The subscription on file *)
Record SubscriptionDoc := {
  sb_workspaceId : string; sb_planId : string; sb_externalId : string; sb_processor : string; sb_status : SubscriptionStatus;
  sb_currentPeriodEnd : option Z; sb_cancelAtPeriodEnd : bool; sb_createdAt : Z; sb_updatedAt : Z }.

Section Subscriptions.
Context {C : Type} `{CollectionLaws SubscriptionDoc C} (genId : C → string) (workspaceId : string).
Implicit Types (c : C) (d : SubscriptionDoc).

Definition of_workspace d : bool := String.eqb (sb_workspaceId d) workspaceId.
Definition current c : option (string * SubscriptionDoc) := find_one of_workspace c.

Definition record (input : Subscription) (processor : string) (now : Z) c : C :=
  upsertOne of_workspace (genId c)
    (λ prior, {| sb_workspaceId := from_option sb_workspaceId workspaceId prior; sb_planId := su_planId input;
                 sb_externalId := su_externalId input; sb_processor := processor; sb_status := su_status input;
                 sb_currentPeriodEnd := su_currentPeriodEnd input; sb_cancelAtPeriodEnd := su_cancelAtPeriodEnd input;
                 sb_createdAt := from_option sb_createdAt now prior; sb_updatedAt := now |}) c.

Definition end_row (now : Z) d : SubscriptionDoc := {|
  sb_workspaceId := sb_workspaceId d; sb_planId := sb_planId d; sb_externalId := sb_externalId d; sb_processor := sb_processor d;
  sb_status := ss_ended; sb_currentPeriodEnd := sb_currentPeriodEnd d; sb_cancelAtPeriodEnd := sb_cancelAtPeriodEnd d;
  sb_createdAt := sb_createdAt d; sb_updatedAt := now |}.

Definition markEnded (now : Z) c : C :=
  match current c with Some (id, _) => (updateOne id of_workspace (end_row now) c).2 | None => c end.
End Subscriptions.

(** ** Deliveries of the payment processor *)
Inductive BillingEvent :=
| be_subscription_changed (reference : string) (subscription : Subscription)
| be_subscription_ended (reference : string)
| be_ignored
| be_rejected.

Definition MAX_SKEW_SECONDS : Z := 300.

Definition STATUS (status : string) : option SubscriptionStatus :=
  assoc_get status [("active", ss_active); ("trialing", ss_active); ("past_due", ss_past_due); ("unpaid", ss_past_due);
                    ("incomplete", ss_incomplete); ("incomplete_expired", ss_ended); ("canceled", ss_ended); ("paused", ss_ended)].

(** A field the interface declares a string; another value does not occur in what the processor sends. *)
Definition text_or (fallback : string) (v : value) : string := match v with VString s => s | _ => fallback end.

Definition toSubscription (row : value) (planId : string) : Subscription := {|
  su_externalId := text_or "" (own row "id"); su_planId := planId;
  su_status := match own row "status" with VString s => default ss_ended (STATUS s) | _ => ss_ended end;
  su_currentPeriodEnd := match own row "current_period_end" with VNumber n => Some (n * 1000) | VNull => Some 0 | _ => None end;
  su_cancelAtPeriodEnd := match own row "cancel_at_period_end" with VBool b => b | _ => false end |}.

(** The parsed header: the timestamp of its first [t], and the value of every [v1]. *)
Definition header_parts (header : string) : list (list string) := map (λ p, str_split "=" (js_trim p)) (str_split "," header).
Definition has_name (name : string) (part : list string) : bool := match part with k :: _ => String.eqb k name | [] => false end.
Definition timestamp_of (parts : list (list string)) : option string := part ← find (has_name "t") parts; part !! 1%nat.
Definition signatures_of (parts : list (list string)) : list string :=
  map (λ part, default "" (part !! 1%nat)) (List.filter (has_name "v1") parts).

Section Receive.
Context (hmac : string → string → string) (Number : string → option Q) (webhookSecret : string).

(** What the body says, once it is known to be the processor's; [None] is a TypeError. *)
Definition read_event (event : value) : option BillingEvent :=
  match event with
  | VNull | VUndefined => None
  | _ =>
      let object := own (own event "data") "object" in
      match own (own object "metadata") "reference" with
      | VUndefined => Some be_ignored
      | VString reference =>
          match own event "type" with
          | VString type =>
              if String.eqb type "customer.subscription.created" || String.eqb type "customer.subscription.updated" then
                Some (be_subscription_changed reference
                        (toSubscription object (text_or "standard" (own (own object "metadata") "planId"))))
              else if String.eqb type "customer.subscription.deleted" then Some (be_subscription_ended reference)
              else Some be_ignored
          | _ => Some be_ignored
          end
      | _ => None
      end
  end.

Definition fresh_enough (timestamp : string) (nowMs : Z) : bool :=
  match Number timestamp with
  | Some t => Qle_bool (Qabs (inject_Z (nowMs / 1000) - t)) (inject_Z MAX_SKEW_SECONDS)
  | None => false
  end.

Definition receive (raw : string) (header : option string) (nowMs : Z) : option BillingEvent :=
  match header with
  | None => Some be_rejected
  | Some header =>
      let parts := header_parts header in
      match timestamp_of parts, signatures_of parts with
      | None, _ | _, [] => Some be_rejected
      | Some timestamp, signatures =>
          if negb (fresh_enough timestamp nowMs) then Some be_rejected
          else if negb (existsb (String.eqb (hmac webhookSecret (timestamp +:+ "." +:+ raw))) signatures) then Some be_rejected
          else match json_parse raw with None => Some be_rejected | Some event => read_event event end
      end
  end.

Context {C : Type} `{CollectionLaws SubscriptionDoc C} (genId : C → string).

(** POST /api/billing/webhook, where a processor is configured: the status and the subscriptions. *)
Definition webhook (raw : string) (header : option string) (nowMs : Z) (c : C) : Z * C :=
  match receive raw header nowMs with
  | None => (500, c)
  | Some be_rejected => (401, c)
  | Some be_ignored => (200, c)
  | Some (be_subscription_changed reference s) =>
      let status := if su_cancelAtPeriodEnd s && bool_decide (su_status s = ss_active) then ss_cancelling else su_status s in
      (200, record genId reference {| su_externalId := su_externalId s; su_planId := su_planId s; su_status := status;
                                      su_currentPeriodEnd := su_currentPeriodEnd s; su_cancelAtPeriodEnd := su_cancelAtPeriodEnd s |}
              "stripe" nowMs c)
  | Some (be_subscription_ended reference) => (200, markEnded reference nowMs c)
  end.
End Receive.

(** ** Usage *)
Record UsageDailyDoc := { ud_day : string; ud_modelBindingId : string; ud_usage : Usage; ud_costUsd : Q; ud_runCount : Z }.

(** One call of [record]: [iso] is the text of its instant. *)
Record UsageEntry := { ue_modelBindingId : string; ue_usage : Usage; ue_costUsd : Q; ue_iso : string }.
Definition day_of (iso : string) : string := str_take 10 iso.
Definition monthOf (iso : string) : string := str_take 7 iso.

Definition total_cost (rows : list (string * UsageDailyDoc)) : Q := foldr (λ row acc, ud_costUsd row.2 + acc)%Q 0%Q rows.

Section Usage.
Context {C : Type} `{CollectionLaws UsageDailyDoc C} (workspaceId : string).
Implicit Types (c : C) (d : UsageDailyDoc).

Definition usage_id (day modelBindingId : string) : string := workspaceId +:+ ":" +:+ day +:+ ":" +:+ modelBindingId.

Definition add_entry (e : UsageEntry) (prior : option UsageDailyDoc) : UsageDailyDoc := {|
  ud_day := from_option ud_day (day_of (ue_iso e)) prior;
  ud_modelBindingId := from_option ud_modelBindingId (ue_modelBindingId e) prior;
  ud_usage := from_option (λ d, addUsage (ud_usage d) (ue_usage e)) (ue_usage e) prior;
  ud_costUsd := from_option (λ d, ud_costUsd d + ue_costUsd e)%Q (ue_costUsd e) prior;
  ud_runCount := from_option (λ d, ud_runCount d + 1) 1 prior |}.

(** [UsageRepository.record]: an upsert by id. *)
Definition record_usage c (e : UsageEntry) : C :=
  let id := usage_id (day_of (ue_iso e)) (ue_modelBindingId e) in
  match updateOne id (λ _, true) (λ d, add_entry e (Some d)) c with
  | (true, c') => c'
  | (false, c') => (insertOne (λ _ _, false) id (add_entry e None) c').2
  end.

Definition spendOnDay (day : string) c : Q := total_cost (find_all (λ d, String.eqb (ud_day d) day) c).
Definition in_month (month : string) d : bool := String.prefix (month +:+ "-") (ud_day d).
Definition spendInMonth (month : string) c : Q := total_cost (find_all (in_month month) c).
Definition spendInMonthByBindings (month : string) (bindingIds : list string) c : Q :=
  match bindingIds with
  | [] => 0%Q
  | _ => total_cost (find_all (λ d, in_month month d && bool_decide (ud_modelBindingId d ∈ bindingIds)) c)
  end.

(** *** The cache alert *)
Record CacheHitRate := { hr_day : string; hr_cacheReadTokens : Z; hr_freshInputTokens : Z; hr_rate : option Q }.
Definition cacheHitRate (day : string) c : CacheHitRate :=
  let rows := find_all (λ d, String.eqb (ud_day d) day) c in
  let cacheRead := foldr (λ row acc, cacheReadTokens (ud_usage row.2) + acc) 0 rows in
  let fresh := foldr (λ row acc, inputTokens (ud_usage row.2) + acc) 0 rows in
  {| hr_day := day; hr_cacheReadTokens := cacheRead; hr_freshInputTokens := fresh;
     hr_rate := if cacheRead + fresh =? 0 then None else Some (inject_Z cacheRead / inject_Z (cacheRead + fresh))%Q |}.
End Usage.

Definition CACHE_HIT_RATE_FLOOR : Q := 4 # 10.
Definition CACHE_ALERT_MIN_TOKENS : Z := 100000.
Definition cacheAlert (m : CacheHitRate) : bool :=
  match hr_rate m with
  | None => false
  | Some rate =>
      if hr_cacheReadTokens m + hr_freshInputTokens m <? CACHE_ALERT_MIN_TOKENS then false
      else negb (Qle_bool CACHE_HIT_RATE_FLOOR rate)
  end.

(** ** The gates *)
Record ProviderRow := { pr_id : string; pr_platform : bool }.
Definition isPlatformProvider (p : ProviderRow) : bool := pr_platform p.

Definition platformBindingIds (providers : list ProviderRow) (bindings : list ModelBindingDoc) : list string :=
  let platform := map pr_id (List.filter isPlatformProvider providers) in
  match platform with
  | [] => []
  | _ => map mb_id (List.filter (λ b, bool_decide (mb_providerConfigId b ∈ platform)) bindings)
  end.

Definition forRole (role : string) (bindings : list ModelBindingDoc) : option ModelBindingDoc :=
  find (λ b, String.eqb (mb_role b) role && mb_enabled b) bindings.

Definition spendsIncludedAi (providers : list ProviderRow) (bindings : list ModelBindingDoc) (modelBindingId : option string) : bool :=
  match platformBindingIds providers bindings with
  | [] => false
  | ids =>
      match modelBindingId with
      | Some id => bool_decide (id ∈ ids)
      | None => match forRole "chat" bindings with Some chat => bool_decide (mb_id chat ∈ ids) | None => false end
      end
  end.

Inductive Gate := g_open | g_closed (reason : Refusal) (paymentRequired : bool).

Section Gates.
Context {CS CW CU : Type} `{CollectionLaws SubscriptionDoc CS, CollectionLaws WorkspaceDoc CW, CollectionLaws UsageDailyDoc CU}.

Record BillingDb := {
  bd_subscriptions : CS; bd_workspaces : CW; bd_usage : CU; bd_providers : list ProviderRow; bd_bindings : list ModelBindingDoc }.
Implicit Types db : BillingDb.

(** The deployment: the workspaces it exempts, whether a processor is
    configured, and the monthly allowance of its own model, if it has one
    (reading that configuration may fail). *)
Context (COMPLIMENTARY_WORKSPACES : list string) (billingConfigured : bool) (platformAi : outcome unit (option Q)).

Definition subscription_of (row : SubscriptionDoc) : Subscription := {|
  su_externalId := sb_externalId row; su_planId := sb_planId row; su_status := sb_status row;
  su_currentPeriodEnd := sb_currentPeriodEnd row; su_cancelAtPeriodEnd := sb_cancelAtPeriodEnd row |}.

Definition entitlements (workspaceId : string) (now : Z) db : Entitlements :=
  if bool_decide (workspaceId ∈ COMPLIMENTARY_WORKSPACES) then UNCONFIGURED
  else
    let subscribed := if billingConfigured
                      then match current workspaceId (bd_subscriptions db) with
                           | Some (_, row) => let e := entitlementsOf (Some (subscription_of row)) in if en_active e then Some e else None
                           | None => None
                           end
                      else None in
    match subscribed with
    | Some e => e
    | None =>
        match findWorkspace workspaceId (bd_workspaces db) ≫= w_trial with
        | Some tr => trialEntitlements (tr_endsAt tr) now
        | None => NONE
        end
    end.

Definition month_gate (plan : Entitlements) (month : string) db : outcome unit Gate :=
  match pl_monthlyUsdCap <$> en_limits plan with
  | Some cap => if Qle_bool (inject_Z cap) (spendInMonth month (bd_usage db)) then Ret (g_closed (monthly_cap cap) false) else Ret g_open
  | None => Ret g_open
  end.

(** [spendGate]; [now] and [iso] are the same instant. *)
Definition spendGate (workspaceId : string) (modelBindingId : option string) (now : Z) (iso : string) db : outcome unit Gate :=
  let dailyCap := from_option (λ w, ws_dailyCostCapUsd (w_settings w)) 0%Q (findWorkspace workspaceId (bd_workspaces db)) in
  if negb (Qle_bool dailyCap 0) && Qle_bool dailyCap (spendOnDay (day_of iso) (bd_usage db)) then Ret (g_closed (daily_cap dailyCap) false)
  else
    let plan := entitlements workspaceId now db in
    let included := spendsIncludedAi (bd_providers db) (bd_bindings db) modelBindingId in
    if en_unconfigured plan && negb included then Ret g_open
    else if negb (en_unconfigured plan) && negb (en_active plan) then Ret (g_closed (inactive (en_state plan)) true)
    else match platformAi with
    | Throw e => Throw e
    | Ret platform =>
        let used := spendInMonthByBindings (monthOf iso) (platformBindingIds (bd_providers db) (bd_bindings db)) (bd_usage db) in
        match platform with
        | Some cap =>
            if included && Qle_bool cap used then Ret (g_closed (allowance_used cap) false)
            else if en_unconfigured plan then Ret g_open
            else month_gate plan (monthOf iso) db
        | None => if en_unconfigured plan then Ret g_open else month_gate plan (monthOf iso) db
        end
    end.

Definition countGate (workspaceId : string) (limit : LimitName) (current adding now : Z) db : option Refusal :=
  countGateFor (entitlements workspaceId now db) limit current adding.

(** POST .../billing/trial, after the permission is checked: the end of the
    trial that was started, or nothing for a conflict. *)
Definition start_trial (workspaceId actor : string) (now : Z) db : option Z * BillingDb :=
  match en_state (entitlements workspaceId now db) with
  | no_entitlement =>
      let '(started, c) := startTrial workspaceId actor TRIAL_DAYS now (bd_workspaces db) in
      (started, {| bd_subscriptions := bd_subscriptions db; bd_workspaces := c; bd_usage := bd_usage db;
                   bd_providers := bd_providers db; bd_bindings := bd_bindings db |})
  | _ => (None, db)
  end.
End Gates.

(** ** What the rollup adds up to *)

Lemma total_cost_perm l l' : l ≡ₚ l' → total_cost l == total_cost l'.
Proof. induction 1; simpl; [reflexivity|by rewrite IHPermutation|ring|by etrans]. Qed.

Section Rollup.
Context {C : Type} `{CollectionLaws UsageDailyDoc C} (workspaceId : string).
Implicit Types (c : C) (d : UsageDailyDoc) (p : Filter UsageDailyDoc).

Definition matching_cost p (m : gmap string UsageDailyDoc) : Q := total_cost (map_matches p m).

Lemma find_all_cost p c : total_cost (find_all p c) == matching_cost p (docs c).
Proof.
  apply total_cost_perm, NoDup_Permutation.
  - eapply NoDup_fmap_1, find_all_nodup.
  - apply NoDup_ListNoDup, List.NoDup_filter, NoDup_ListNoDup, NoDup_map_to_list.
  - intros [id d]. by rewrite elem_of_find_all, elem_of_map_matches.
Qed.

Lemma matching_cost_insert p m id d :
  m !! id = None → matching_cost p (<[id := d]> m) == (if p d then ud_costUsd d else 0) + matching_cost p m.
Proof.
  intros Hm. unfold matching_cost, map_matches.
  rewrite (total_cost_perm _ (List.filter (λ kd, p kd.2) ((id, d) :: map_to_list m))).
  - simpl. destruct (p d); simpl; ring.
  - by apply filter_perm, map_to_list_insert.
Qed.

Lemma matching_cost_update p m id d d' :
  m !! id = Some d → p d' = p d →
  matching_cost p (<[id := d']> m) == (if p d then ud_costUsd d' - ud_costUsd d else 0) + matching_cost p m.
Proof.
  intros Hm Hp. rewrite <-insert_delete_eq, matching_cost_insert by apply lookup_delete_eq.
  rewrite <-(insert_delete_id m id d) at 2 by done. rewrite matching_cost_insert by apply lookup_delete_eq.
  rewrite Hp. destruct (p d); ring.
Qed.

(** Every row sits under the id made of its day and its binding. *)
Definition rows_in_place c : Prop :=
  map_Forall (λ id d, id = usage_id workspaceId (ud_day d) (ud_modelBindingId d) ∧ String.length (ud_day d) = 10%nat) (docs c).

Lemma usage_id_inj day day' b b' :
  String.length day = String.length day' → usage_id workspaceId day b = usage_id workspaceId day' b' → day = day' ∧ b = b'.
Proof.
  unfold usage_id. intros Hl E. apply str_app_inj_l in E. injection E as E.
  apply str_app_inj_length in E as [-> E]; [|done]. by injection E.
Qed.

Context (of_row : string → string → bool).
Notation here := (λ d, of_row (ud_day d) (ud_modelBindingId d)).

(** One entry adds its cost wherever its day and its binding are counted. *)
Lemma record_usage_spent c e :
  rows_in_place c → (10 <= String.length (ue_iso e))%nat →
  rows_in_place (record_usage workspaceId c e) ∧
  matching_cost here (docs (record_usage workspaceId c e)) ==
    (if of_row (day_of (ue_iso e)) (ue_modelBindingId e) then ue_costUsd e else 0) + matching_cost here (docs c).
Proof.
  intros Hc Hlen. assert (String.length (day_of (ue_iso e)) = 10%nat) as Hday by (unfold day_of; rewrite str_take_length; lia).
  unfold record_usage, rows_in_place. set (id := usage_id workspaceId _ _).
  pose proof (updateOne_cases id (λ _, true) (λ d, add_entry e (Some d)) c) as Hu.
  destruct (updateOne id _ _ c) as [[] c']; simpl in Hu.
  - destruct Hu as [(d & Hd & _ & _ & ->)|(_ & ? & _)]; [|done].
    destruct (Hc id d Hd) as [Hid Hl]. apply usage_id_inj in Hid as [E1 E2]; [|by rewrite Hl]. split.
    + apply map_Forall_insert_2; [|done]. simpl. by rewrite <-E1, <-E2.
    + rewrite (matching_cost_update _ _ _ d) by done. rewrite E1, E2. simpl. destruct (of_row _ _); ring.
  - destruct Hu as [(? & _ & _ & ? & _)|(Hmiss & _ & Hdocs)]; [done|].
    assert (docs c' !! id = None) as Hnone.
    { rewrite Hdocs. destruct (docs c !! id) eqn:E; [|done]. by specialize (Hmiss _ eq_refl). }
    destruct (insertOne_ok (λ _ _, false) id (add_entry e None) c') as [_ ->]; [done..|].
    rewrite Hdocs in *. split; [by apply map_Forall_insert_2|]. by rewrite matching_cost_insert.
Qed.

Definition cost_of (entries : list UsageEntry) : Q :=
  foldr (λ e acc, (if of_row (day_of (ue_iso e)) (ue_modelBindingId e) then ue_costUsd e else 0) + acc)%Q 0%Q entries.

Lemma rollup_adds_up entries c :
  docs c = ∅ → Forall (λ e, (10 <= String.length (ue_iso e))%nat) entries →
  total_cost (find_all here (foldl (record_usage workspaceId) c entries)) == cost_of entries.
Proof.
  intros Hc Hlen. rewrite find_all_cost.
  assert (rows_in_place c) as Hp by (unfold rows_in_place; rewrite Hc; apply map_Forall_empty).
  assert (matching_cost here (docs c) == 0) as Hz by (unfold matching_cost; by rewrite Hc).
  rewrite <-(Qplus_0_r (cost_of entries)), <-Hz. clear Hz Hc. revert c Hp.
  induction Hlen as [|e entries He _ IH]; intros c Hp; simpl; [ring|].
  destruct (record_usage_spent c e Hp He) as [Hp' Hs]. rewrite IH, Hs by done. ring.
Qed.
End Rollup.

(** ** Who gets through the gate *)
Section GateTheorems.
Context {CS CW CU : Type} `{CollectionLaws SubscriptionDoc CS, CollectionLaws WorkspaceDoc CW, CollectionLaws UsageDailyDoc CU}.
Context (COMPLIMENTARY_WORKSPACES : list string) (billingConfigured : bool) (platformAi : outcome unit (option Q)).
Notation Bdb := (@BillingDb CS CW CU).
Implicit Types db : Bdb.
Notation plan_of := (entitlements COMPLIMENTARY_WORKSPACES billingConfigured).

(** A subscription on file that keeps access, where a processor is configured, or a trial that lasts. *)
Definition entitled (workspaceId : string) (now : Z) db : Prop :=
  (billingConfigured = true ∧ ∃ id row, current workspaceId (bd_subscriptions db) = Some (id, row) ∧ keeps_access (sb_status row) = true) ∨
  (∃ w tr, findWorkspace workspaceId (bd_workspaces db) = Some w ∧ w_trial w = Some tr ∧ now < tr_endsAt tr).

Lemma entitlements_cases ws now db :
  (ws ∈ COMPLIMENTARY_WORKSPACES ∧ plan_of ws now db = UNCONFIGURED) ∨
  (ws ∉ COMPLIMENTARY_WORKSPACES ∧ en_unconfigured (plan_of ws now db) = false ∧
   (en_active (plan_of ws now db) = true → entitled ws now db)).
Proof.
  unfold entitlements, entitled. case_bool_decide as Hin; [by left|right]. split; [done|].
  destruct billingConfigured; [destruct (current _ _) as [[id row]|]; [simpl; destruct (keeps_access (sb_status row)) eqn:K; [by naive_solver|]|]|];
    (destruct (findWorkspace _ _) as [w|]; [|done]; simpl; destruct (w_trial w) as [tr|] eqn:T; [|done]; split; [done|]; simpl;
     intros Hlive%Z.ltb_lt; right; by exists w, tr).
Qed.

Lemma Qle_bool_gt x y : Qle_bool x y = false → (y < x)%Q.
Proof. intros Hf. apply Qnot_le_lt. rewrite <-Qle_bool_iff. congruence. Qed.

Lemma rollup_caps (of_row : string → string → bool) ws c entries (x : Q) :
  docs c = ∅ → Forall (λ e, (10 <= String.length (ue_iso e))%nat) entries →
  Qle_bool x (total_cost (find_all (λ d, of_row (ud_day d) (ud_modelBindingId d)) (foldl (record_usage (C := CU) ws) c entries))) = false →
  (cost_of of_row entries < x)%Q.
Proof. intros Hc Hlen Hq%Qle_bool_gt. by rewrite rollup_adds_up in Hq. Qed.

Definition on_day (iso day bindingId : string) : bool := String.eqb day (day_of iso).
Definition this_month (iso day bindingId : string) : bool := String.prefix (monthOf iso +:+ "-") day.
Definition through (ids : list string) (iso day bindingId : string) : bool := this_month iso day bindingId && bool_decide (bindingId ∈ ids).

Lemma month_gate_open plan month db limits :
  month_gate plan month db = Ret g_open → en_limits plan = Some limits →
  Qle_bool (inject_Z (pl_monthlyUsdCap limits)) (spendInMonth month (bd_usage db)) = false.
Proof. unfold month_gate. intros Hg Hl. rewrite Hl in Hg. simpl in Hg. by destruct (Qle_bool _ _). Qed.

(** The tests an open gate has passed. *)
Lemma spendGate_open ws binding now iso db :
  spendGate COMPLIMENTARY_WORKSPACES billingConfigured platformAi ws binding now iso db = Ret g_open →
  let plan := plan_of ws now db in
  let cap := from_option (λ w, ws_dailyCostCapUsd (w_settings w)) 0%Q (findWorkspace ws (bd_workspaces db)) in
  (Qle_bool cap 0 = true ∨ Qle_bool cap (spendOnDay (day_of iso) (bd_usage db)) = false) ∧
  (en_unconfigured plan = true ∨ en_active plan = true ∧ month_gate plan (monthOf iso) db = Ret g_open) ∧
  (∀ cap, spendsIncludedAi (bd_providers db) (bd_bindings db) binding = true → platformAi = Ret (Some cap) →
     Qle_bool cap (spendInMonthByBindings (monthOf iso) (platformBindingIds (bd_providers db) (bd_bindings db)) (bd_usage db)) = false).
Proof.
  intros Hg plan cap. subst plan cap. unfold spendGate in Hg. case_match eqn:Hday; [done|]. split.
  { apply andb_false_iff in Hday as [?%negb_false_iff|?]; auto. }
  clear Hday. set (plan := plan_of ws now db) in *.
  destruct (en_unconfigured plan) eqn:U, (spendsIncludedAi _ _ _) eqn:I, (en_active plan) eqn:A; simpl in Hg; try done;
    try (split; [by auto|]; naive_solver); destruct platformAi as [[pcap|]|]; try done; try (split; [by auto|]; done);
    split; try (by auto);
    repeat case_match; try done; naive_solver.
Qed.

(** C24.  Once the gate lets a run start, the workspace is exempt, subscribed or on a
    trial that has not ended; everything that was ever recorded for today is
    below the workspace's daily cap and everything recorded for this month
    below the plan's cap; and a run on the included model is below the
    allowance, counted over the bindings that spend it. *)
Theorem open_gate_is_within_caps ws binding now iso db (c : CU) entries :
  docs c = ∅ → Forall (λ e, (10 <= String.length (ue_iso e))%nat) entries →
  bd_usage db = foldl (record_usage ws) c entries →
  spendGate COMPLIMENTARY_WORKSPACES billingConfigured platformAi ws binding now iso db = Ret g_open →
  (∀ w, findWorkspace ws (bd_workspaces db) = Some w → 0 < ws_dailyCostCapUsd (w_settings w) →
        cost_of (on_day iso) entries < ws_dailyCostCapUsd (w_settings w))%Q ∧
  (ws ∈ COMPLIMENTARY_WORKSPACES ∨
   entitled ws now db ∧
   ∀ limits, en_limits (plan_of ws now db) = Some limits → (cost_of (this_month iso) entries < inject_Z (pl_monthlyUsdCap limits))%Q) ∧
  (∀ cap, spendsIncludedAi (bd_providers db) (bd_bindings db) binding = true → platformAi = Ret (Some cap) →
          (cost_of (through (platformBindingIds (bd_providers db) (bd_bindings db)) iso) entries < cap)%Q).
Proof.
  intros Hc Hlen Hu Hg. destruct (spendGate_open _ _ _ _ _ Hg) as (Hday & Hplan & Hincl). rewrite Hu in *. split_and!.
  - intros w Hw Hpos. rewrite Hw in Hday. simpl in Hday. destruct Hday as [Hle%Qle_bool_iff|Hday].
    + by apply Qle_not_lt in Hle.
    + by eapply (rollup_caps (on_day iso)).
  - destruct (entitlements_cases ws now db) as [[? _]|(_ & Hun & Hent)]; [by left|right].
    destruct Hplan as [?|[Ha Hm]]; [congruence|]. split; [by auto|]. intros limits Hl.
    eapply (rollup_caps (this_month iso)); [done..|]. eapply month_gate_open in Hm; [|done]. by rewrite Hu in Hm.
  - intros cap Hi Hp. specialize (Hincl cap Hi Hp).
    unfold spendInMonthByBindings in Hincl. destruct (platformBindingIds _ _) as [|b ids] eqn:E.
    + unfold spendsIncludedAi in Hi. by rewrite E in Hi.
    + by eapply (rollup_caps (through (b :: ids) iso)).
Qed.
End GateTheorems.

(** ** A trial is granted once *)
Section Trials.
Context {C : Type} `{CollectionLaws WorkspaceDoc C} (ws : string) (tr : Trial).
Implicit Types c : C.

Definition has_trial c : Prop := ∃ d, docs c !! ws = Some d ∧ w_trial d = Some tr.

Lemma update_trial id p f c :
  (∀ d, p d = true → w_trial d = Some tr → w_trial (f d) = Some tr) → has_trial c → has_trial (updateOne id p f c).2.
Proof.
  intros Hf (d & Hd & Ht). unfold has_trial.
  destruct (updateOne_cases id p f c) as [(d' & Hd' & Hp & _ & ->)|(_ & _ & ->)]; [|by exists d].
  destruct (decide (id = ws)) as [->|Hne].
  - rewrite Hd in Hd'. injection Hd' as <-. exists (f d). rewrite lookup_insert_eq. auto.
  - exists d. by rewrite lookup_insert_ne.
Qed.

Lemma startTrial_keeps ws' by_ days now c : has_trial c → has_trial (startTrial ws' by_ days now c).2.
Proof.
  intros Hc. unfold startTrial.
  rewrite (surjective_pairing (updateOne ws' _ _ c)). simpl. apply update_trial; [|done].
  intros d Hp. apply bool_decide_eq_true in Hp. congruence.
Qed.

Lemma op_trial_kept op c : has_trial c → has_trial (apply_op op c).
Proof.
  intros Hc. destruct op; simpl; try (by apply update_trial).
  - unfold create_workspace, has_trial.
    destruct (insertOne_cases (λ a b, String.eqb (w_slug a) (w_slug b)) id (new_workspace name slug createdBy now) c)
      as [(_ & Hnone & _ & ->)|[_ ->]]; [|done].
    destruct Hc as (d & Hd & Ht). exists d. rewrite lookup_insert_ne; [done|]. intros ->. congruence.
  - unfold patch_member. destruct (patch_refusal _ _ _ _ _); [done|]. by apply update_trial.
  - unfold delete_member. destruct (delete_refusal _ _ _ _); [done|]. by apply update_trial.
  - unfold createInvitation. by do 2 (apply update_trial; [done|]).
  - unfold acceptInvitation, addMember. destruct (findWorkspace workspaceId c); [|done]. destruct (_ <=? _)%nat; [done|].
    simpl. by do 2 (apply update_trial; [done|]).
  - by apply startTrial_keeps.
Qed.

Lemma ops_trial_kept ops c : has_trial c → has_trial (foldl (λ c op, apply_op op c) c ops).
Proof. revert c. induction ops as [|op ops IH]; intros c Hc; [done|]. simpl. by apply IH, op_trial_kept. Qed.
End Trials.

Section TrialOnce.
Context {CS CW CU : Type} `{CollectionLaws SubscriptionDoc CS, CollectionLaws WorkspaceDoc CW, CollectionLaws UsageDailyDoc CU}.
Context (COMPLIMENTARY_WORKSPACES : list string) (billingConfigured : bool).
Notation Bdb := (@BillingDb CS CW CU).
Implicit Types db : Bdb.
Notation plan_of := (entitlements COMPLIMENTARY_WORKSPACES billingConfigured).
Notation begin_trial := (start_trial COMPLIMENTARY_WORKSPACES billingConfigured).

(** A trial that was started ends ten days after the click, whatever requests
    change the workspace afterwards and whatever happens to its subscription:
    another trial is never granted, and without an exemption or a subscription
    in force the workspace is active exactly until that instant. *)
Theorem trials_are_granted_once ws actor now db db1 endsAt ops db2 :
  begin_trial ws actor now db = (Some endsAt, db1) →
  bd_workspaces db2 = foldl (λ c op, apply_op op c) (bd_workspaces db1) ops →
  endsAt = now + 10 * 24 * 60 * 60 * 1000 ∧
  (∀ actor' later, (begin_trial ws actor' later db2).1 = None) ∧
  (∀ later, ws ∉ COMPLIMENTARY_WORKSPACES → ¬ (∃ id row, current ws (bd_subscriptions db2) = Some (id, row) ∧ keeps_access (sb_status row) = true) →
            en_active (plan_of ws later db2) = (later <? endsAt)).
Proof.
  intros Hs Hws. set (tr := {| tr_startedAt := now; tr_endsAt := now + TRIAL_DAYS * 24 * 60 * 60 * 1000; tr_startedBy := actor |}).
  assert (endsAt = tr_endsAt tr ∧ has_trial ws tr (bd_workspaces db1)) as [-> Ht].
  { unfold start_trial in Hs. destruct (en_state _); try done. unfold startTrial in Hs.
    pose proof (updateOne_cases ws (λ d, bool_decide (w_trial d = None))
                  (λ d, set_meta (w_name d) (w_settings d) (Some tr) now d) (bd_workspaces db)) as Hu.
    fold tr in Hs. destruct (updateOne ws _ _ _) as [[] c]; [|by injection Hs]. injection Hs as <- <-. split; [done|].
    destruct Hu as [(d & _ & _ & _ & Hd)|(_ & ? & _)]; [|done]. simpl in *. eexists. by rewrite Hd, lookup_insert_eq. }
  apply (ops_trial_kept ws tr ops) in Ht. rewrite <-Hws in Ht. destruct Ht as (d & Hd & Htr).
  split; [done|]. split.
  - intros actor' later. unfold start_trial. destruct (en_state _); try done. unfold startTrial.
    destruct (updateOne_cases ws (λ d, bool_decide (w_trial d = None))
      (λ d, set_meta (w_name d) (w_settings d) (Some {| tr_startedAt := later; tr_endsAt := later + TRIAL_DAYS * 24 * 60 * 60 * 1000;
                                                        tr_startedBy := actor' |}) later d) (bd_workspaces db2))
      as [(d' & Hd' & Hp%bool_decide_eq_true & _)|(_ & Hf & _)]; [congruence|].
    destruct (updateOne ws _ _ _) as [b c]. simpl in Hf. by subst b.
  - intros later Hex Hsub. unfold entitlements, findWorkspace. rewrite bool_decide_eq_false_2, Hd by done. simpl. rewrite Htr.
    destruct billingConfigured; [|done]. destruct (current _ _) as [[id row]|]; [|done]. simpl.
    destruct (keeps_access (sb_status row)) eqn:K; [|done]. exfalso. eauto.
Qed.
End TrialOnce.

(** ** Only the processor changes a plan *)
Section Signed.
Context (hmac : string → string → string) (Number : string → option Q) (webhookSecret : string).
Context {C : Type} `{CollectionLaws SubscriptionDoc C} (genId : C → string) (genId_fresh : ∀ c : C, docs c !! genId c = None).
Implicit Types c : C.

(** The delivery is signed with the endpoint's secret over its timestamp and its bytes, and is recent. *)
Definition signed (raw : string) (header : option string) (nowMs : Z) : Prop :=
  ∃ h timestamp,
    header = Some h ∧ timestamp_of (header_parts h) = Some timestamp ∧ fresh_enough Number timestamp nowMs = true ∧
    hmac webhookSecret (timestamp +:+ "." +:+ raw) ∈ signatures_of (header_parts h).

Definition names (raw ws : string) : Prop :=
  ∃ event, json_parse raw = Some event ∧ own (own (own (own event "data") "object") "metadata") "reference" = VString ws.

Lemma read_event_names event ev ws :
  read_event event = Some ev → (ev = be_subscription_ended ws ∨ ∃ s, ev = be_subscription_changed ws s) →
  own (own (own (own event "data") "object") "metadata") "reference" = VString ws.
Proof. unfold read_event. intros Hr Hev. repeat case_match; simplify_eq; naive_solver. Qed.

Lemma receive_signed raw header nowMs ev ws :
  receive hmac Number webhookSecret raw header nowMs = Some ev →
  (ev = be_subscription_ended ws ∨ ∃ s, ev = be_subscription_changed ws s) → signed raw header nowMs ∧ names raw ws.
Proof.
  unfold receive. intros Hr Hev. destruct header as [h|]; [|naive_solver].
  destruct (timestamp_of _) as [ts|] eqn:Ht; [|naive_solver]. destruct (signatures_of _) as [|sg sgs] eqn:Hs; [naive_solver|].
  destruct (fresh_enough _ _ _) eqn:Hf; [|naive_solver]. rewrite <-Hs in Hr.
  destruct (existsb _ _) eqn:He; [|naive_solver]. simpl in Hr.
  destruct (json_parse raw) as [event|] eqn:Hj; [|naive_solver]. split.
  - exists h, ts. split_and!; [done..|]. apply existsb_exists in He as (x & Hx & ->%String.eqb_eq). by apply list_elem_of_In.
  - exists event. split; [done|]. by eapply read_event_names.
Qed.

Definition others_kept (ws : string) c c' : Prop :=
  ∀ id d, sb_workspaceId d ≠ ws → docs c !! id = Some d ↔ docs c' !! id = Some d.

Lemma insert_others ws c c' id d :
  docs c' = <[id := d]> (docs c) → sb_workspaceId d = ws → (∀ d0, docs c !! id = Some d0 → sb_workspaceId d0 = ws) → others_kept ws c c'.
Proof.
  intros Hc Hd Hold k e He. rewrite Hc. destruct (decide (k = id)) as [->|]; [|by rewrite lookup_insert_ne].
  rewrite lookup_insert_eq. naive_solver.
Qed.

Lemma record_others ws s processor now c : others_kept ws c (record genId ws s processor now c).
Proof.
  unfold record. set (f := λ prior : option SubscriptionDoc, _).
  destruct (upsertOne_cases (of_workspace ws) (genId c) f c (genId_fresh c)) as [(id & d & Hd & Hp & Hc)|[_ Hc]].
  - apply String.eqb_eq in Hp. eapply insert_others; [done|done|]. naive_solver.
  - eapply insert_others; [done|done|]. by rewrite genId_fresh.
Qed.

Lemma markEnded_others ws now c : others_kept ws c (markEnded ws now c).
Proof.
  unfold markEnded, current. destruct (find_one _ c) as [[id d]|] eqn:E; [|by intros ???].
  apply find_one_some in E as [Hd Hp].
  destruct (updateOne_hit id (of_workspace ws) (end_row now) c d Hd Hp) as [_ Hc]. apply String.eqb_eq in Hp.
  eapply insert_others; [done|done|]. naive_solver.
Qed.

(** Whatever is posted to the webhook, a subscription changes only when the
    bytes were signed with the endpoint's secret less than five minutes ago, and
    then only the subscription of the workspace those bytes name. *)
Theorem plans_change_only_by_signature raw header nowMs c :
  let c' := (webhook hmac Number webhookSecret genId raw header nowMs c).2 in
  docs c' = docs c ∨ ∃ ws, signed raw header nowMs ∧ names raw ws ∧ others_kept ws c c'.
Proof.
  unfold webhook. destruct (receive _ _ _ _ _ _) as [ev|] eqn:Hr; [|by left].
  destruct ev as [ws s|ws| |]; simpl; [right; exists ws|right; exists ws|by left|by left];
    (destruct (receive_signed _ _ _ _ ws Hr) as [Hs Hn]; [eauto|]); split_and!; auto using record_others, markEnded_others.
Qed.
End Signed.

(** ** Examples *)
Definition the_workspace : WorkspaceDoc := new_workspace "Acme" "acme" "usr_1" 0.
Notation Bills := (@BillingDb (gmap string SubscriptionDoc) (gmap string WorkspaceDoc) (gmap string UsageDailyDoc)).
Definition spend_entry (cost : Q) (iso : string) : UsageEntry :=
  {| ue_modelBindingId := "bnd_1"; ue_usage := emptyUsage; ue_costUsd := cost; ue_iso := iso |}.
Definition some_entries : list UsageEntry := [spend_entry 3 "2025-03-01T08:00:00.000Z"; spend_entry 4 "2025-03-02T08:00:00.000Z"].
Definition billed : Bills := {|
  bd_subscriptions := ∅; bd_workspaces := {["wks_1" := the_workspace]};
  bd_usage := foldl (record_usage "wks_1") (∅ : gmap string UsageDailyDoc) some_entries; bd_providers := []; bd_bindings := [] |}.
Definition on_trial : Bills := (start_trial [] true "wks_1" "usr_1" 1000 billed).2.

Lemma open_gate_is_within_caps_witness :
  spendGate [] true (Ret (Some 25%Q)) "wks_1" None 2000 "2025-03-02T09:00:00.000Z" on_trial = Ret g_open ∧
  (cost_of (this_month "2025-03-02T09:00:00.000Z") some_entries < inject_Z 250)%Q.
Proof.
  assert (spendGate [] true (Ret (Some 25%Q)) "wks_1" None 2000 "2025-03-02T09:00:00.000Z" on_trial = Ret g_open) as Hg by (vm_compute; reflexivity).
  split; [exact Hg|].
  destruct (open_gate_is_within_caps [] true (Ret (Some 25%Q)) "wks_1" None 2000 "2025-03-02T09:00:00.000Z" on_trial ∅ some_entries)
    as (_ & [Hin|[_ Hm]] & _).
  - reflexivity.
  - repeat constructor; simpl; lia.
  - reflexivity.
  - exact Hg.
  - by apply elem_of_nil in Hin.
  - apply (Hm {| pl_agents := 25; pl_channels := 10; pl_mcpServers := 50; pl_monthlyUsdCap := 250 |}). vm_compute. reflexivity.
Defined.

Lemma trials_are_granted_once_witness :
  (start_trial [] true "wks_1" "usr_1" 1000 billed).1 = Some 864001000 ∧
  (start_trial [] true "wks_1" "usr_2" 864002000 on_trial).1 = None.
Proof.
  assert (start_trial [] true "wks_1" "usr_1" 1000 billed = (Some 864001000, on_trial)) as Hs by (vm_compute; reflexivity).
  split; [by rewrite Hs|].
  destruct (trials_are_granted_once [] true "wks_1" "usr_1" 1000 billed on_trial 864001000 [] on_trial Hs eq_refl) as (_ & Hn & _). apply Hn.
Defined.

(** A processor that signs with a hash of its secret and its text. *)
Definition hash_mac (secret text : string) : string := js_string (VNumber (fnv1a 0 (secret +:+ text))).
Definition delivery (type id status : string) : string :=
  stringify (VObject [("type", VString type);
    ("data", VObject [("object", VObject [("id", VString id); ("status", VString status);
       ("metadata", VObject [("reference", VString "wks_1"); ("planId", VString "standard")])])])]).
Definition sign (secret : string) (raw : string) : option string := Some ("t=100,v1=" +:+ hash_mac secret ("100." +:+ raw)).
Definition no_plan : gmap string SubscriptionDoc := ∅.
Definition fresh_row (c : gmap string SubscriptionDoc) : string := fresh_string "sub" c.
Lemma fresh_row_fresh c : docs c !! fresh_row c = None.
Proof. apply fresh_string_fresh. Defined.
Definition post (raw : string) (header : option string) (c : gmap string SubscriptionDoc) : Z * gmap string SubscriptionDoc :=
  webhook hash_mac (λ _, Some 100%Q) "whsec" fresh_row raw header 100000 c.
Definition created : string := delivery "customer.subscription.created" "sub_ext_1" "active".

Lemma plans_change_only_by_signature_witness :
  (post created (sign "other" created) no_plan).1 = 401 ∧
  (post created (sign "whsec" created) no_plan).1 = 200 ∧
  ∃ ws, signed hash_mac (λ _, Some 100%Q) "whsec" created (sign "whsec" created) 100000 ∧ names created ws ∧
        others_kept ws no_plan (post created (sign "whsec" created) no_plan).2.
Proof.
  split; [vm_compute; reflexivity|]. split; [vm_compute; reflexivity|].
  destruct (plans_change_only_by_signature hash_mac (λ _, Some 100%Q) "whsec" fresh_row fresh_row_fresh created (sign "whsec" created) 100000 no_plan) as [Hc|Hw].
  - exfalso. apply (f_equal size) in Hc. vm_compute in Hc. discriminate Hc.
  - exact Hw.
Defined.

Definition status_on_file (c : gmap string SubscriptionDoc) : option SubscriptionStatus := (λ row, sb_status row.2) <$> current "wks_1" c.
Definition deliver (raws : list string) : gmap string SubscriptionDoc :=
  foldl (λ c raw, (post raw (sign "whsec" raw) c).2) no_plan raws.

(** The end of an earlier subscription, reported once a new one is in force, ends the new one:
    the row is found by its workspace and the id in the event is not read. *)
Example late_deletion_ends_the_new_plan :
  status_on_file (deliver [created; delivery "customer.subscription.created" "sub_ext_2" "active"]) = Some ss_active ∧
  status_on_file (deliver [created; delivery "customer.subscription.created" "sub_ext_2" "active";
                           delivery "customer.subscription.deleted" "sub_ext_1" "canceled"]) = Some ss_ended.
Proof. split; vm_compute; reflexivity. Qed.

(** An update that arrives after the deletion gives access back. *)
Example stale_update_revives_the_plan :
  status_on_file (deliver [created; delivery "customer.subscription.deleted" "sub_ext_1" "canceled"]) = Some ss_ended ∧
  status_on_file (deliver [created; delivery "customer.subscription.deleted" "sub_ext_1" "canceled";
                           delivery "customer.subscription.updated" "sub_ext_1" "active"]) = Some ss_active.
Proof. split; vm_compute; reflexivity. Qed.
