(* ===== verification/Conversations.v ===== *)
(** * Conversations and their messages

    Models packages/db/src/repositories/conversations.ts: the conversation row
    with its counter, the append-only log of messages, and how the two are
    written one after the other.  The collections are those of one workspace, as
    the scoped collections of [Guard] select them.  [RunStore] has the calls the
    runtime makes; here is the whole repository, with the identifiers that make a
    retried message collide.  SHA-256 is a parameter. *)
From S2P Require Import Prelude Json Entities Mongo.

(** ** Documents *)
Inductive ConversationStatus := cv_active | cv_archived.
#[global] Instance ConversationStatus_eq_dec : EqDecision ConversationStatus.
Proof. solve_decision. Defined.

Record LastMessage := { lm_role : MessageRole; lm_preview : string; lm_at : Z }.
Record CompactionMark := { cm_upToSeq : Z; cm_summaryMessageId : string }.
Record ConversationDoc := {
  cv_agentId : string; cv_channelId : option string; cv_externalRef : option string; cv_title : option string;
  cv_status : ConversationStatus; cv_messageCount : Z; cv_nextSeq : Z; cv_lastMessage : option LastMessage;
  cv_compaction : option CompactionMark; cv_modelBindingId : string; cv_createdBy : option string;
  cv_createdAt : Z; cv_updatedAt : Z }.

Definition set_log (count seq : Z) (lastm : option LastMessage) (now : Z) (d : ConversationDoc) : ConversationDoc := {|
  cv_agentId := cv_agentId d; cv_channelId := cv_channelId d; cv_externalRef := cv_externalRef d; cv_title := cv_title d;
  cv_status := cv_status d; cv_messageCount := count; cv_nextSeq := seq; cv_lastMessage := lastm; cv_compaction := cv_compaction d;
  cv_modelBindingId := cv_modelBindingId d; cv_createdBy := cv_createdBy d; cv_createdAt := cv_createdAt d; cv_updatedAt := now |}.
Definition set_face (title : option string) (binding : string) (compaction : option CompactionMark) (now : Z) (d : ConversationDoc)
    : ConversationDoc := {|
  cv_agentId := cv_agentId d; cv_channelId := cv_channelId d; cv_externalRef := cv_externalRef d; cv_title := title;
  cv_status := cv_status d; cv_messageCount := cv_messageCount d; cv_nextSeq := cv_nextSeq d; cv_lastMessage := cv_lastMessage d;
  cv_compaction := compaction; cv_modelBindingId := binding; cv_createdBy := cv_createdBy d; cv_createdAt := cv_createdAt d;
  cv_updatedAt := now |}.

Record CreateConversation := {
  nc_agentId : string; nc_modelBindingId : string; nc_title : option string; nc_channelId : option string;
  nc_externalRef : option string; nc_createdBy : option string }.

Definition new_conversation (input : CreateConversation) (now : Z) : ConversationDoc := {|
  cv_agentId := nc_agentId input; cv_channelId := nc_channelId input; cv_externalRef := nc_externalRef input; cv_title := nc_title input;
  cv_status := cv_active; cv_messageCount := 0; cv_nextSeq := 1; cv_lastMessage := None; cv_compaction := None;
  cv_modelBindingId := nc_modelBindingId input; cv_createdBy := nc_createdBy input; cv_createdAt := now; cv_updatedAt := now |}.

Fixpoint previewOf (content : list ContentBlock) : string :=
  match content with
  | [] => ""
  | BText text :: _ => if (140 <? String.length text)%nat then str_take 140 text +:+ "…" else text
  | _ :: content' => previewOf content'
  end.

(** ** The conversation row *)
Section Rows.
Context {C : Type} `{CollectionLaws ConversationDoc C}.
Implicit Types c : C.

Definition find_conversation (conversationId : string) c : option ConversationDoc := docs c !! conversationId.
Definition rename_conversation (conversationId title : string) (now : Z) c : bool * C :=
  updateOne conversationId (λ _, true) (λ d, set_face (Some title) (cv_modelBindingId d) (cv_compaction d) now d) c.
Definition create_conversation (newId : string) (input : CreateConversation) (now : Z) c : bool * C :=
  insertOne (λ _ _, false) newId (new_conversation input now) c.

(** [#allocateSeq]; [None] is the error of a conversation that is not there. *)
Definition allocateSeq (conversationId : string) c : option Z * C :=
  (cv_nextSeq <$> docs c !! conversationId,
   (updateOne conversationId (λ _, true) (λ d, set_log (cv_messageCount d) (cv_nextSeq d + 1) (cv_lastMessage d) (cv_updatedAt d) d) c).2).

Definition note_message (conversationId : string) (role : MessageRole) (content : list ContentBlock) (now : Z) c : C :=
  (updateOne conversationId (λ _, true)
     (λ d, set_log (cv_messageCount d + 1) (cv_nextSeq d) (Some {| lm_role := role; lm_preview := previewOf content; lm_at := now |}) now d) c).2.

Definition setModelBinding (conversationId modelBindingId : string) (now : Z) c : C :=
  (updateOne conversationId (λ _, true) (λ d, set_face (cv_title d) modelBindingId (cv_compaction d) now d) c).2.
Definition recordCompaction (conversationId : string) (upToSeq : Z) (summaryMessageId : string) (now : Z) c : C :=
  (updateOne conversationId (λ _, true)
     (λ d, set_face (cv_title d) (cv_modelBindingId d)
             (Some {| cm_upToSeq := upToSeq; cm_summaryMessageId := summaryMessageId |}) now d) c).2.

Definition recently_updated (a b : ConversationDoc) : bool := cv_updatedAt b <=? cv_updatedAt a.
#[global] Instance recently_updated_order : SortOrder recently_updated.
Proof. split; unfold recently_updated; intros; bool_prop; apply Z.leb_le; lia. Qed.
Definition list_conversations (limit : nat) c : list (string * ConversationDoc) :=
  find_docs (λ d, bool_decide (cv_status d = cv_active)) recently_updated limit c.
End Rows.

(** ** The messages *)
Definition same_number (a b : Message) : bool :=
  String.eqb (m_conversationId a) (m_conversationId b) && (m_seq a =? m_seq b).
Definition of_conversation (conversationId : string) (m : Message) : bool := String.eqb (m_conversationId m) conversationId.
Definition newest_seq (a b : Message) : bool := m_seq b <=? m_seq a.
Definition oldest_seq (a b : Message) : bool := m_seq a <=? m_seq b.
#[global] Instance newest_seq_order : SortOrder newest_seq.
Proof. split; unfold newest_seq; intros; bool_prop; apply Z.leb_le; lia. Qed.
#[global] Instance oldest_seq_order : SortOrder oldest_seq.
Proof. split; unfold oldest_seq; intros; bool_prop; apply Z.leb_le; lia. Qed.

Definition set_superseded (summaryMessageId : string) (m : Message) : Message := {|
  m_id := m_id m; m_conversationId := m_conversationId m; m_seq := m_seq m; m_role := m_role m; m_content := m_content m;
  m_providerArtifacts := m_providerArtifacts m; m_runId := m_runId m; m_tokenEstimate := m_tokenEstimate m;
  m_createdAt := m_createdAt m; m_supersededBy := Some summaryMessageId |}.

Section Log.
Context {C : Type} `{CollectionLaws Message C}.
Implicit Types c : C.

Definition insert_message (m : Message) c : bool * C := insertOne same_number (m_id m) m c.
Definition recent_messages (conversationId : string) (limit : nat) c : list Message :=
  rev (map snd (find_docs (λ m, of_conversation conversationId m && live_message m) newest_seq limit c)).
Definition messagesSince (conversationId : string) (afterSeq : Z) c : list Message :=
  map snd (find_docs (λ m, of_conversation conversationId m && (afterSeq <? m_seq m) && live_message m) oldest_seq (size (docs c)) c).
Definition supersede (conversationId : string) (messageIds : list string) (summaryMessageId : string) c : Z * C :=
  match messageIds with
  | [] => (0, c)
  | _ => updateMany (λ m, of_conversation conversationId m && bool_decide (m_id m ∈ messageIds) && live_message m)
           (set_superseded summaryMessageId) c
  end.
Definition delete_messages (conversationId : string) c : Z * C := deleteMany (of_conversation conversationId) c.
End Log.

(** ** The repository *)
Record AppendInput := {
  ai_conversationId : string; ai_role : MessageRole; ai_content : list ContentBlock; ai_providerArtifacts : option ProviderArtifacts;
  ai_runId : option string; ai_tokenEstimate : option Z; ai_clientMessageId : option string }.

Inductive AppendError := conversation_not_found (conversationId : string) | duplicate_message.

Section Repository.
Context {CV CM : Type} `{CollectionLaws ConversationDoc CV, CollectionLaws Message CM} (sha256 : string → string).
Record ConversationDb := { cd_conversations : CV; cd_messages : CM }.
Implicit Types db : ConversationDb.

(** [#messageId]; [newId] is what is drawn when the caller gives no key. *)
Definition messageId (newId conversationId : string) (clientMessageId : option string) : string :=
  match clientMessageId with
  | None => newId
  | Some key => "msg_" +:+ str_take 32 (sha256 (conversationId +:+ "|" +:+ key))
  end.

Definition message_doc (newId : string) (input : AppendInput) (seq now : Z) : Message := {|
  m_id := messageId newId (ai_conversationId input) (ai_clientMessageId input); m_conversationId := ai_conversationId input;
  m_seq := seq; m_role := ai_role input; m_content := ai_content input; m_providerArtifacts := ai_providerArtifacts input;
  m_runId := ai_runId input; m_tokenEstimate := ai_tokenEstimate input; m_createdAt := now; m_supersededBy := None |}.

(** The commands of [appendMessage], one after another: the number, the insert, the preview. *)
Definition append_message (newId : string) (input : AppendInput) (now : Z) db : outcome AppendError Message * ConversationDb :=
  match allocateSeq (ai_conversationId input) (cd_conversations db) with
  | (None, cv) => (Throw (conversation_not_found (ai_conversationId input)), {| cd_conversations := cv; cd_messages := cd_messages db |})
  | (Some seq, cv) =>
      let m := message_doc newId input seq now in
      match insert_message m (cd_messages db) with
      | (false, cm) => (Throw duplicate_message, {| cd_conversations := cv; cd_messages := cm |})
      | (true, cm) =>
          (Ret m, {| cd_conversations := note_message (ai_conversationId input) (ai_role input) (ai_content input) now cv; cd_messages := cm |})
      end
  end.

Definition remove_conversation (conversationId : string) db : bool * ConversationDb :=
  let cm := (delete_messages conversationId (cd_messages db)).2 in
  let '(gone, cv) := deleteOne conversationId (λ _, true) (cd_conversations db) in
  (gone, {| cd_conversations := cv; cd_messages := cm |}).

Definition clear_conversation (conversationId : string) (now : Z) db : Z * ConversationDb :=
  let '(count, cm) := delete_messages conversationId (cd_messages db) in
  (count, {| cd_conversations := (updateOne conversationId (λ _, true)
               (λ d, set_log (cv_messageCount d) (cv_nextSeq d) None now d) (cd_conversations db)).2;
             cd_messages := cm |}).
End Repository.

(** ** Appends that interleave

    A state is the two collections and the numbers handed out whose messages are
    not written yet.  Every step is one command; a caller may also fail between
    its commands and leave a gap. *)
Section Interleaving.
Context {CV CM : Type} `{CollectionLaws ConversationDoc CV, CollectionLaws Message CM}.

Record LogState := { ls_rows : CV; ls_log : CM; ls_reserved : list (string * Z) }.
Definition number_of (m : Message) : string * Z := (m_conversationId m, m_seq m).

Inductive log_step (s : LogState) : LogState → Prop :=
| step_allocate conversationId seq cv :
    allocateSeq conversationId (ls_rows s) = (Some seq, cv) →
    log_step s {| ls_rows := cv; ls_log := ls_log s; ls_reserved := (conversationId, seq) :: ls_reserved s |}
| step_insert m before after :
    ls_reserved s = before ++ number_of m :: after →
    log_step s {| ls_rows := ls_rows s; ls_log := (insert_message m (ls_log s)).2; ls_reserved := before ++ after |}
| step_give_up r before after :
    ls_reserved s = before ++ r :: after →
    log_step s {| ls_rows := ls_rows s; ls_log := ls_log s; ls_reserved := before ++ after |}
| step_row conversationId f :
    (∀ d, cv_nextSeq (f d) = cv_nextSeq d) →
    log_step s {| ls_rows := (updateOne conversationId (λ _, true) f (ls_rows s)).2; ls_log := ls_log s; ls_reserved := ls_reserved s |}
| step_create conversationId input now :
    (∀ id m, docs (ls_log s) !! id = Some m → m_conversationId m ≠ conversationId) →
    (∀ seq, (conversationId, seq) ∉ ls_reserved s) →
    log_step s {| ls_rows := (create_conversation conversationId input now (ls_rows s)).2; ls_log := ls_log s; ls_reserved := ls_reserved s |}
| step_remove conversationId :
    log_step s {| ls_rows := (deleteOne conversationId (λ _, true) (ls_rows s)).2; ls_log := ls_log s; ls_reserved := ls_reserved s |}
| step_supersede conversationId ids summary :
    log_step s {| ls_rows := ls_rows s; ls_log := (supersede conversationId ids summary (ls_log s)).2; ls_reserved := ls_reserved s |}
| step_delete conversationId :
    log_step s {| ls_rows := ls_rows s; ls_log := (delete_messages conversationId (ls_log s)).2; ls_reserved := ls_reserved s |}.

Definition below (cv : CV) (r : string * Z) : Prop := ∀ d, docs cv !! r.1 = Some d → r.2 < cv_nextSeq d.

Record log_ok (s : LogState) : Prop := {
  reserved_apart : NoDup (ls_reserved s);
  reserved_below : ∀ r, r ∈ ls_reserved s → below (ls_rows s) r;
  written_below : ∀ id m, docs (ls_log s) !! id = Some m → below (ls_rows s) (number_of m);
  written_not_reserved : ∀ id m, docs (ls_log s) !! id = Some m → number_of m ∉ ls_reserved s;
  written_apart : ∀ id id' m m', docs (ls_log s) !! id = Some m → docs (ls_log s) !! id' = Some m' → number_of m = number_of m' → id = id';
}.

(** What was below a counter stays below it while the counters do not go down. *)
Lemma below_mono cv cv' r :
  (∀ d', docs cv' !! r.1 = Some d' → ∃ d, docs cv !! r.1 = Some d ∧ cv_nextSeq d <= cv_nextSeq d') → below cv r → below cv' r.
Proof. intros Hmono Hb d' Hd'. destruct (Hmono d' Hd') as (d & Hd & ?). specialize (Hb d Hd). lia. Qed.

Lemma rows_ok s cv :
  (∀ k d', docs cv !! k = Some d' → ∃ d, docs (ls_rows s) !! k = Some d ∧ cv_nextSeq d <= cv_nextSeq d') →
  log_ok s → log_ok {| ls_rows := cv; ls_log := ls_log s; ls_reserved := ls_reserved s |}.
Proof. intros Hmono []. split; simpl; eauto using below_mono. Qed.

(** A log whose every message was there, with the same number, under the same id. *)
Lemma log_shrinks s cm :
  (∀ id m', docs cm !! id = Some m' → ∃ m, docs (ls_log s) !! id = Some m ∧ number_of m = number_of m') →
  log_ok s → log_ok {| ls_rows := ls_rows s; ls_log := cm; ls_reserved := ls_reserved s |}.
Proof.
  intros Hsub [A B Wb Wr Wa]. split; simpl; [done|done|..].
  - intros id m' (m & Hm & <-)%Hsub. eauto.
  - intros id m' (m & Hm & <-)%Hsub. eauto.
  - intros id id' m1 m2 (n1 & Hn1 & E1)%Hsub (n2 & Hn2 & E2)%Hsub E. eapply Wa; [done..|congruence].
Qed.

Lemma update_rows_mono conversationId f (cv : CV) k d' :
  (∀ d, cv_nextSeq d <= cv_nextSeq (f d)) → docs (updateOne conversationId (λ _, true) f cv).2 !! k = Some d' →
  ∃ d, docs cv !! k = Some d ∧ cv_nextSeq d <= cv_nextSeq d'.
Proof.
  intros Hf. destruct (updateOne_cases conversationId (λ _, true) f cv) as [(d & Hd & _ & _ & ->)|(_ & _ & ->)].
  - intros [[<- <-]|[_ Hk]]%lookup_insert_Some; [eauto|]. exists d'. split; [done|lia].
  - intros Hk. exists d'. split; [done|lia].
Qed.

Lemma allocate_ok s conversationId seq cv :
  allocateSeq conversationId (ls_rows s) = (Some seq, cv) → log_ok s →
  log_ok {| ls_rows := cv; ls_log := ls_log s; ls_reserved := (conversationId, seq) :: ls_reserved s |}.
Proof.
  unfold allocateSeq. intros [= Hseq <-] Hok. destruct (docs (ls_rows s) !! conversationId) as [d|] eqn:Hd; [|done].
  injection Hseq as <-. set (f := λ d : ConversationDoc, set_log _ _ _ _ _).
  destruct (updateOne_hit conversationId (λ _, true) f (ls_rows s) d Hd eq_refl) as [_ Hrows].
  destruct (rows_ok s (updateOne conversationId (λ _, true) f (ls_rows s)).2) as [A B Wb Wr Wa]; simpl in *; [|done|].
  { intros k d'. apply update_rows_mono. intros; simpl; lia. }
  split; simpl; [|..|done].
  - apply NoDup_cons. split; [|done]. intros Hin. apply (reserved_below s Hok) in Hin. specialize (Hin d Hd). simpl in Hin. lia.
  - intros r [->|Hr]%elem_of_cons; [|by apply B]. intros d'. rewrite Hrows. simpl. rewrite lookup_insert_eq. intros [= <-]. simpl. lia.
  - done.
  - intros id m Hm [E|Hin]%elem_of_cons; [|by eapply Wr].
    assert (below (ls_rows s) (number_of m)) as Hlt by (by eapply written_below).
    rewrite E in Hlt. specialize (Hlt d Hd). simpl in Hlt. lia.
Qed.

Lemma insert_message_cases m (cm : CM) :
  (insert_message m cm).1 = true ∧ docs cm !! m_id m = None ∧ docs (insert_message m cm).2 = <[m_id m := m]> (docs cm) ∨
  (insert_message m cm).1 = false ∧ docs (insert_message m cm).2 = docs cm.
Proof. unfold insert_message. destruct (insertOne_cases same_number (m_id m) m cm) as [(? & ? & ? & ?)|[? ?]]; auto. Qed.

Lemma drop_reserved s before r after :
  ls_reserved s = before ++ r :: after → log_ok s →
  log_ok {| ls_rows := ls_rows s; ls_log := ls_log s; ls_reserved := before ++ after |} ∧ r ∉ before ++ after ∧ below (ls_rows s) r ∧
  (∀ id m, docs (ls_log s) !! id = Some m → number_of m ≠ r).
Proof.
  intros E [A B Wb Wr Wa]. rewrite E in *. rewrite <-Permutation_middle in A. apply NoDup_cons in A as [Hr A].
  split_and!; [split; simpl; [done| |done| |done]|done|apply B; set_solver|].
  - intros x Hx. apply B. set_solver.
  - intros id m Hm Hx. apply (Wr id m Hm). set_solver.
  - intros id m Hm E'. apply (Wr id m Hm). rewrite E'. set_solver.
Qed.

Lemma log_step_ok s s' : log_step s s' → log_ok s → log_ok s'.
Proof.
  intros Hstep Hok. destruct Hstep as [conv seq cv E|m before after E|r before after E|conv f Hf|conv input now Hlog Hres|conv|conv ids summary|conv].
  - by eapply allocate_ok.
  - destruct (drop_reserved s before _ after E Hok) as ([A B Wb Wr Wa] & Hout & Hb & Hne). simpl in *.
    destruct (insert_message_cases m (ls_log s)) as [(_ & Hnone & Hdocs)|[_ Hdocs]]; [|by split; simpl; rewrite ?Hdocs].
    split; simpl; rewrite ?Hdocs; [done|done|..].
    + intros id m' [[<- <-]|[_ Hm]]%lookup_insert_Some; eauto.
    + intros id m' [[<- <-]|[_ Hm]]%lookup_insert_Some; eauto.
    + intros id id' m1 m2 [[<- <-]|[_ H1']]%lookup_insert_Some [[<- <-]|[_ H2']]%lookup_insert_Some E'; [done| | |by eauto];
        exfalso; [by eapply (Hne id' m2)|by eapply (Hne id m1)].
  - by destruct (drop_reserved s before r after E Hok).
  - apply rows_ok; [|done]. intros k d'. apply update_rows_mono. intros d. by rewrite Hf.
  - destruct Hok as [A B Wb Wr Wa]. unfold create_conversation.
    destruct (insertOne_cases (λ _ _, false) conv (new_conversation input now) (ls_rows s)) as [(_ & _ & _ & Hd)|[_ Hd]];
      split; simpl; try done; unfold below; rewrite Hd; [|..]; try done.
    + intros [k n] Hr d. simpl. rewrite lookup_insert_ne by (intros <-; by eapply Hres). by apply (B (k, n)).
    + intros id m Hm d. simpl. rewrite lookup_insert_ne by (intros E; by eapply Hlog). by apply (Wb id m).
  - apply rows_ok; [|done]. intros k d' Hk%deleteOne_sub. exists d'. split; [done|lia].
  - apply log_shrinks; [|done]. intros id m'. unfold supersede. destruct ids as [|i ids]; [by eauto|].
    set (p := λ m : Message, _ && _). destruct (updateMany_docs p (set_superseded summary) (ls_log s)) as [_ ->].
    rewrite lookup_fmap. destruct (docs (ls_log s) !! id) as [m|]; simpl; [|done]. intros [= <-]. exists m. by destruct (p m).
  - apply log_shrinks; [|done]. intros id m'. unfold delete_messages.
    destruct (deleteMany_docs (of_conversation conv) (ls_log s)) as [_ ->]. unfold selected.
    intros [Hm _]%map_lookup_filter_Some. eauto.
Qed.

Lemma reachable_log_ok s s' : rtc log_step s s' → log_ok s → log_ok s'.
Proof. induction 1; eauto using log_step_ok. Qed.

(** C28.  However the commands of appends, retries, compactions, clearings and
    deletions interleave, two messages of one conversation never share a number,
    and an append that holds its number is refused only when a message with its
    id is already there, which is what makes a retry collide. *)
Theorem appends_never_collide s s' :
  docs (ls_log s) = ∅ → ls_reserved s = [] → rtc log_step s s' →
  (∀ id id' m m', docs (ls_log s') !! id = Some m → docs (ls_log s') !! id' = Some m' → number_of m = number_of m' → id = id') ∧
  (∀ m, number_of m ∈ ls_reserved s' → docs (ls_log s') !! m_id m = None →
        (insert_message m (ls_log s')).1 = true ∧ docs (insert_message m (ls_log s')).2 = <[m_id m := m]> (docs (ls_log s'))).
Proof.
  intros Hlog Hres Hsteps.
  assert (log_ok s) as Hok by (split; rewrite ?Hlog, ?Hres; try (by constructor); try set_solver; by intros * ?%lookup_empty_Some).
  destruct (reachable_log_ok s s' Hsteps Hok) as [A B Wb Wr Wa]. split; [done|].
  intros m Hin Hnone. apply insertOne_ok; [done|]. intros id' m' Hm'. unfold same_number.
  destruct (String.eqb_spec (m_conversationId m) (m_conversationId m')) as [Ec|]; [|done].
  destruct (Z.eqb_spec (m_seq m) (m_seq m')) as [Es|]; [|done]. exfalso. apply (Wr id' m' Hm').
  unfold number_of in *. by rewrite <-Ec, <-Es.
Qed.
End Interleaving.

(** ** Examples *)
Notation Rows := (gmap string ConversationDoc).
Notation Messages := (gmap string Message).
Notation Log := (@LogState Rows Messages).
Definition first_input : CreateConversation := {|
  nc_agentId := "agt_1"; nc_modelBindingId := "bnd_1"; nc_title := None; nc_channelId := None; nc_externalRef := None; nc_createdBy := None |}.
Definition said (text : string) (key : option string) : AppendInput := {|
  ai_conversationId := "cnv_1"; ai_role := RUser; ai_content := [BText text]; ai_providerArtifacts := None; ai_runId := None;
  ai_tokenEstimate := None; ai_clientMessageId := key |}.
Definition one_row : Rows := (create_conversation "cnv_1" first_input 0 (∅ : Rows)).2.
Definition fresh_log : Log := {| ls_rows := one_row; ls_log := ∅; ls_reserved := [] |}.
Definition two_numbers : Log := {|
  ls_rows := (allocateSeq "cnv_1" (allocateSeq "cnv_1" one_row).2).2; ls_log := ∅; ls_reserved := [("cnv_1", 2); ("cnv_1", 1)] |}.

Lemma two_appends : rtc log_step fresh_log two_numbers.
Proof.
  eapply rtc_l; [apply (step_allocate fresh_log "cnv_1" 1); vm_compute; reflexivity|].
  eapply rtc_l; [eapply (step_allocate _ "cnv_1" 2); vm_compute; reflexivity|]. apply rtc_refl.
Qed.

Lemma appends_never_collide_witness :
  rtc log_step fresh_log two_numbers ∧
  (insert_message (message_doc id "msg_1" (said "hello" None) 2 5) (ls_log two_numbers)).1 = true.
Proof.
  split; [exact two_appends|].
  destruct (appends_never_collide fresh_log two_numbers) as [_ Hin]; [vm_compute; reflexivity|reflexivity|exact two_appends|].
  apply Hin; [left|vm_compute; reflexivity].
Defined.

(** A retry under the same key collides and appends nothing. *)
Example retried_message_collides :
  let db := {| cd_conversations := one_row; cd_messages := (∅ : Messages) |} in
  let once := (append_message id "msg_1" (said "hello" (Some "key")) 5 db).2 in
  let twice := append_message id "msg_2" (said "hello" (Some "key")) 6 once in
  twice.1 = Throw duplicate_message ∧ size (cd_messages twice.2) = 1%nat.
Proof. split; vm_compute; reflexivity. Qed.

(** An emptied conversation still counts the messages it had, and still names its deleted summary. *)
Example cleared_conversation_keeps_its_count :
  let db := {| cd_conversations := one_row; cd_messages := (∅ : Messages) |} in
  let once := (append_message id "msg_1" (said "hello" None) 5 db).2 in
  let marked := {| cd_conversations := recordCompaction "cnv_1" 1 "msg_1" 6 (cd_conversations once); cd_messages := cd_messages once |} in
  let '(count, cleared) := clear_conversation "cnv_1" 7 marked in
  count = 1 ∧ cd_messages cleared = ∅ ∧
  (λ d, (cv_messageCount d, cv_compaction d)) <$> find_conversation "cnv_1" (cd_conversations cleared) =
    Some (1, Some {| cm_upToSeq := 1; cm_summaryMessageId := "msg_1" |}).
Proof. split_and!; vm_compute; reflexivity. Qed.
