(* ===== verification/Channels.v ===== *)
(** * Connected chat platforms

    Models packages/db/src/repositories/channels.ts: connections and the
    handshake that proves a chat, the claims of inbound deliveries, and the
    threads of the people who write.  The three collections are any that obey
    [CollectionLaws]; the unique indexes are those of packages/db/src/indexes.ts.
    The repository reaches deliveries and people through the scoped collections
    of its workspace; the collections given for them are what those select ([Guard]
    shows that it lies in one workspace), so every row in them is the workspace's. *)
From stdpp Require Import stringmap.
From S2P Require Import Prelude Mongo.

Inductive ChannelStatus := pending_verification | connected | in_error | disabled.
#[global] Instance ChannelStatus_eq_dec : EqDecision ChannelStatus.
Proof. solve_decision. Defined.

Record BotIdentity := { bi_handle : string; bi_displayName : string; bi_botRef : string }.
Record Connect := { cn_code : string; cn_expiresAt : Z }.
Record Install := { in_teamRef : string; in_teamName : string; in_installerRef : string; in_appRef : string; in_accountRef : option string }.
Record ChannelHealth := {
  ch_lastOkAt : option Z; ch_lastDeliveryAt : option Z; ch_consecutiveFailures : Z; ch_lastError : option string }.

Record ChannelDoc := {
  ch_workspaceId : string; ch_type : string; ch_agentId : string; ch_modelBindingId : option string;
  ch_tokenCredentialId : string; ch_secretCredentialId : option string; ch_status : ChannelStatus;
  ch_identity : BotIdentity; ch_connect : option Connect; ch_verifiedChatRef : option string;
  ch_install : option Install; ch_webhookUrl : option string; ch_webhookSpec : option Z; ch_health : ChannelHealth;
  ch_createdBy : string; ch_createdAt : Z; ch_updatedAt : Z;
}.

(** [$set] of the fields an operation changes together. *)
Definition set_proof (status : ChannelStatus) (chat : option string) (connect : option Connect) (health : ChannelHealth) (now : Z)
    (d : ChannelDoc) : ChannelDoc := {|
  ch_workspaceId := ch_workspaceId d; ch_type := ch_type d; ch_agentId := ch_agentId d; ch_modelBindingId := ch_modelBindingId d;
  ch_tokenCredentialId := ch_tokenCredentialId d; ch_secretCredentialId := ch_secretCredentialId d; ch_status := status;
  ch_identity := ch_identity d; ch_connect := connect; ch_verifiedChatRef := chat; ch_install := ch_install d;
  ch_webhookUrl := ch_webhookUrl d; ch_webhookSpec := ch_webhookSpec d; ch_health := health; ch_createdBy := ch_createdBy d;
  ch_createdAt := ch_createdAt d; ch_updatedAt := now |}.
Definition set_route (token : string) (install : option Install) (url : option string) (spec : option Z) (now : Z)
    (d : ChannelDoc) : ChannelDoc := {|
  ch_workspaceId := ch_workspaceId d; ch_type := ch_type d; ch_agentId := ch_agentId d; ch_modelBindingId := ch_modelBindingId d;
  ch_tokenCredentialId := token; ch_secretCredentialId := ch_secretCredentialId d; ch_status := ch_status d;
  ch_identity := ch_identity d; ch_connect := ch_connect d; ch_verifiedChatRef := ch_verifiedChatRef d; ch_install := install;
  ch_webhookUrl := url; ch_webhookSpec := spec; ch_health := ch_health d; ch_createdBy := ch_createdBy d;
  ch_createdAt := ch_createdAt d; ch_updatedAt := now |}.
Definition ok_at (now : Z) (h : ChannelHealth) : ChannelHealth := {|
  ch_lastOkAt := Some now; ch_lastDeliveryAt := ch_lastDeliveryAt h; ch_consecutiveFailures := ch_consecutiveFailures h;
  ch_lastError := ch_lastError h |}.

Record CreateChannelInput := {
  cc_type : string; cc_agentId : string; cc_modelBindingId : option string; cc_tokenCredentialId : string;
  cc_secretCredentialId : option string; cc_identity : BotIdentity; cc_connectCode : option string;
  cc_connectCodeTtlMs : option Z; cc_install : option Install; cc_createdBy : string;
}.

Inductive ChannelError := ce_needs_code | ce_duplicate | ce_null_path | ce_vanished.

(** The code of a connection that has to be proved, with its lifetime. *)
Definition connect_code_of (input : CreateChannelInput) : option (string * Z) :=
  code ← cc_connectCode input; ttl ← cc_connectCodeTtlMs input; Some (code, ttl).
Definition is_install (input : CreateChannelInput) : bool :=
  bool_decide (is_Some (cc_install input)) && bool_decide (connect_code_of input = None).

Definition new_channel (workspaceId : string) (input : CreateChannelInput) (now : Z) : ChannelDoc := {|
  ch_workspaceId := workspaceId; ch_type := cc_type input; ch_agentId := cc_agentId input;
  ch_modelBindingId := cc_modelBindingId input; ch_tokenCredentialId := cc_tokenCredentialId input;
  ch_secretCredentialId := cc_secretCredentialId input;
  ch_status := if is_install input then connected else pending_verification; ch_identity := cc_identity input;
  ch_connect := if is_install input then None
                else (λ ct, {| cn_code := ct.1; cn_expiresAt := now + ct.2 |}) <$> connect_code_of input;
  ch_verifiedChatRef := None; ch_install := cc_install input; ch_webhookUrl := None; ch_webhookSpec := None;
  ch_health := {| ch_lastOkAt := if is_install input then Some now else None; ch_lastDeliveryAt := None;
                  ch_consecutiveFailures := 0; ch_lastError := None |};
  ch_createdBy := cc_createdBy input; ch_createdAt := now; ch_updatedAt := now |}.

(** The index [ws_type]. *)
Definition same_type (a b : ChannelDoc) : bool :=
  String.eqb (ch_workspaceId a) (ch_workspaceId b) && String.eqb (ch_type a) (ch_type b).

Section Connections.
Context {C : Type} `{CollectionLaws ChannelDoc C} (workspaceId : string).
Implicit Types (c : C) (d : ChannelDoc).

Definition in_ws d : bool := String.eqb (ch_workspaceId d) workspaceId.

Definition count_channels c : nat := length (find_all in_ws c).
Definition findByType (type : string) c : option (string * ChannelDoc) :=
  find_one (λ d, in_ws d && String.eqb (ch_type d) type) c.
Definition findById (channelId : string) c : option ChannelDoc :=
  d ← docs c !! channelId; if in_ws d then Some d else None.

(** [connect]: the old connection of the platform goes before the checks of the
    input. *)
Definition connect (newId : string) (input : CreateChannelInput) (now : Z) c : outcome ChannelError ChannelDoc * C :=
  let c1 := match findByType (cc_type input) c with
            | Some (id, _) => (deleteOne id in_ws c).2
            | None => c
            end in
  if negb (is_install input) && bool_decide (connect_code_of input = None) then (Throw ce_needs_code, c1)
  else match insertOne same_type newId (new_channel workspaceId input now) c1 with
       | (true, c2) => (Ret (new_channel workspaceId input now), c2)
       | (false, c2) => (Throw ce_duplicate, c2)
       end.

Definition code_matches (code : string) (now : Z) d : bool :=
  in_ws d && match ch_connect d with
             | Some cn => String.eqb (cn_code cn) code && (now <? cn_expiresAt cn)
             | None => false
             end.

(** [claim]: the document after the update, when the code was the right one. *)
Definition claim_update (chatRef : string) (now : Z) d : ChannelDoc :=
  set_proof connected (Some chatRef) None (ok_at now (ch_health d)) now d.
Definition claim (channelId code chatRef : string) (now : Z) c : option ChannelDoc * C :=
  let '(matched, c') := updateOne channelId (code_matches code now) (claim_update chatRef now) c in
  (if matched then docs c' !! channelId else None, c').

Definition reissueCode (channelId code : string) (ttlMs now : Z) c : option ChannelDoc * C :=
  let '(matched, c') := updateOne channelId in_ws
    (λ d, set_proof pending_verification None (Some {| cn_code := code; cn_expiresAt := now + ttlMs |}) (ch_health d) now d) c in
  (if matched then docs c' !! channelId else None, c').

(** A dotted path does not go through null. *)
Definition bindInstall (channelId teamRef teamName : string) (now : Z) c : outcome ChannelError unit * C :=
  match findById channelId c with
  | None => (Ret tt, c)
  | Some d =>
      match ch_install d with
      | None => (Throw ce_null_path, c)
      | Some i =>
          (Ret tt, (updateOne channelId in_ws
             (λ d, set_route (ch_tokenCredentialId d)
                     (Some {| in_teamRef := teamRef; in_teamName := teamName; in_installerRef := in_installerRef i;
                              in_appRef := in_appRef i; in_accountRef := in_accountRef i |})
                     (ch_webhookUrl d) (ch_webhookSpec d) now d) c).2)
      end
  end.

Definition replaceToken (channelId tokenCredentialId : string) (now : Z) c : C :=
  (updateOne channelId in_ws (λ d, set_route tokenCredentialId (ch_install d) (ch_webhookUrl d) (ch_webhookSpec d) now d) c).2.

Definition recordWebhook (channelId url : string) (spec : option Z) (now : Z) c : C :=
  (updateOne channelId in_ws
     (λ d, set_route (ch_tokenCredentialId d) (ch_install d) (Some url)
             (match spec with Some s => Some s | None => ch_webhookSpec d end) now d) c).2.

Definition recordDelivery (channelId : string) (now : Z) c : C :=
  (updateOne channelId in_ws
     (λ d, set_proof (ch_status d) (ch_verifiedChatRef d) (ch_connect d)
             {| ch_lastOkAt := ch_lastOkAt (ch_health d); ch_lastDeliveryAt := Some now; ch_consecutiveFailures := 0;
                ch_lastError := None |} (ch_updatedAt d) d) c).2.

Definition recordFailure (channelId message : string) (now : Z) c : C :=
  (updateOne channelId in_ws
     (λ d, set_proof in_error (ch_verifiedChatRef d) (ch_connect d)
             {| ch_lastOkAt := ch_lastOkAt (ch_health d); ch_lastDeliveryAt := ch_lastDeliveryAt (ch_health d);
                ch_consecutiveFailures := ch_consecutiveFailures (ch_health d) + 1;
                ch_lastError := Some (str_take 500 message) |} now d) c).2.

(** [disconnect]'s delete of the connection; that of the people is below. *)
Definition delete_channel (channelId : string) c : C := (deleteOne channelId in_ws c).2.
End Connections.

(** ** Deliveries *)
Record ChannelEventDoc := {
  ce_channelId : string; ce_externalEventId : string; ce_runId : option string; ce_receivedAt : Z }.

(** The index [channel_event_unique]. *)
Definition same_event (a b : ChannelEventDoc) : bool :=
  String.eqb (ce_channelId a) (ce_channelId b) && String.eqb (ce_externalEventId a) (ce_externalEventId b).
Definition is_event (channelId externalEventId : string) (d : ChannelEventDoc) : bool :=
  String.eqb (ce_channelId d) channelId && String.eqb (ce_externalEventId d) externalEventId.

(** Rows expire seven days after they were received. *)
Definition EVENT_TTL_MS : Z := 7 * 24 * 60 * 60 * 1000.

Section Deliveries.
Context {C : Type} `{CollectionLaws ChannelEventDoc C}.
Implicit Types (c : C) (d : ChannelEventDoc).

Definition claimDelivery (newId channelId externalEventId : string) (now : Z) c : bool * C :=
  insertOne same_event newId
    {| ce_channelId := channelId; ce_externalEventId := externalEventId; ce_runId := None; ce_receivedAt := now |} c.

Definition releaseDelivery (channelId externalEventId : string) c : C :=
  match find_one (is_event channelId externalEventId) c with
  | Some (id, _) => (deleteOne id (λ _, true) c).2
  | None => c
  end.

Definition attachRun (channelId externalEventId runId : string) c : C :=
  match find_one (is_event channelId externalEventId) c with
  | Some (id, _) =>
      (updateOne id (λ _, true)
         (λ d, {| ce_channelId := ce_channelId d; ce_externalEventId := ce_externalEventId d; ce_runId := Some runId;
                  ce_receivedAt := ce_receivedAt d |}) c).2
  | None => c
  end.

(** The index [ttl]. *)
Definition expire (now : Z) c : C := (deleteMany (λ d, ce_receivedAt d + EVENT_TTL_MS <=? now) c).2.
End Deliveries.

(** ** People *)
Record ChannelIdentityDoc := {
  ci_workspaceId : string; ci_channelId : string; ci_externalUserId : string; ci_chatRef : string; ci_conversationId : string;
  ci_label : string; ci_userId : option string; ci_createdAt : Z; ci_lastSeenAt : Z;
}.

Record LinkInput := {
  li_channelId : string; li_externalUserId : string; li_chatRef : string; li_conversationId : string; li_label : string }.

(** [$set] and [$setOnInsert] of [linkIdentity]. *)
Definition link_update (workspaceId : string) (input : LinkInput) (now : Z) (prior : option ChannelIdentityDoc) : ChannelIdentityDoc := {|
  ci_workspaceId := from_option ci_workspaceId workspaceId prior;
  ci_channelId := from_option ci_channelId (li_channelId input) prior;
  ci_externalUserId := from_option ci_externalUserId (li_externalUserId input) prior;
  ci_chatRef := li_chatRef input; ci_conversationId := from_option ci_conversationId (li_conversationId input) prior;
  ci_label := li_label input; ci_userId := from_option ci_userId None prior;
  ci_createdAt := from_option ci_createdAt now prior; ci_lastSeenAt := now |}.

Definition seen_later (a b : ChannelIdentityDoc) : bool := ci_lastSeenAt b <=? ci_lastSeenAt a.
#[global] Instance seen_later_order : SortOrder seen_later.
Proof. split; unfold seen_later; intros; bool_prop; apply Z.leb_le; lia. Qed.

Section People.
Context {C : Type} `{CollectionLaws ChannelIdentityDoc C} (workspaceId : string) (genId : C → string).
Implicit Types (c : C) (d : ChannelIdentityDoc).

Definition is_person (channelId externalUserId : string) d : bool :=
  String.eqb (ci_channelId d) channelId && String.eqb (ci_externalUserId d) externalUserId.

Definition findIdentityById (identityId : string) c : option ChannelIdentityDoc := docs c !! identityId.
Definition findIdentity (channelId externalUserId : string) c : option (string * ChannelIdentityDoc) :=
  find_one (is_person channelId externalUserId) c.
Definition findIdentityByConversation (conversationId : string) c : option (string * ChannelIdentityDoc) :=
  find_one (λ d, String.eqb (ci_conversationId d) conversationId) c.
Definition listIdentitiesForUser (userId : string) c : list (string * ChannelIdentityDoc) :=
  find_docs (λ d, bool_decide (ci_userId d = Some userId)) seen_later (size (docs c)) c.

Definition setIdentityUser (identityId : string) (userId : option string) c : bool * C :=
  updateOne identityId (λ _, true)
    (λ d, {| ci_workspaceId := ci_workspaceId d; ci_channelId := ci_channelId d; ci_externalUserId := ci_externalUserId d;
             ci_chatRef := ci_chatRef d; ci_conversationId := ci_conversationId d; ci_label := ci_label d; ci_userId := userId;
             ci_createdAt := ci_createdAt d; ci_lastSeenAt := ci_lastSeenAt d |}) c.

Definition link_once (input : LinkInput) (now : Z) c : C :=
  upsertOne (is_person (li_channelId input) (li_externalUserId input)) (genId c) (link_update workspaceId input now) c.

Definition delete_people (channelId : string) c : C := (deleteMany (λ d, String.eqb (ci_channelId d) channelId) c).2.

Inductive PeopleWrite :=
| pw_link (input : LinkInput) (now : Z)
| pw_setUser (identityId : string) (userId : option string)
| pw_disconnect (channelId : string).

Definition people_write (c : C) (w : PeopleWrite) : C :=
  match w with
  | pw_link input now => link_once input now c
  | pw_setUser id userId => (setIdentityUser id userId c).2
  | pw_disconnect channelId => delete_people channelId c
  end.

(** [linkIdentity].  A first attempt that lost the race raised a duplicate-key
    error without writing; what others wrote meanwhile is then given, and the
    second attempt follows.  [after] is what they write before the row is read. *)
Definition linkIdentity (input : LinkInput) (now : Z) (lost : option (list PeopleWrite)) (after : list PeopleWrite) c
    : outcome ChannelError (string * ChannelIdentityDoc) * C :=
  let c1 := link_once input now (match lost with Some ws => foldl people_write c ws | None => c end) in
  let c2 := foldl people_write c1 after in
  (match findIdentity (li_channelId input) (li_externalUserId input) c2 with
   | Some row => Ret row
   | None => Throw ce_vanished
   end, c2).
End People.

(** ** Histories of connections *)
Inductive ChannelOp :=
| ch_connect_op (ws newId : string) (input : CreateChannelInput) (now : Z)
| ch_claim_op (ws channelId code chatRef : string) (now : Z)
| ch_reissue_op (ws channelId code : string) (ttlMs now : Z)
| ch_bind_op (ws channelId teamRef teamName : string) (now : Z)
| ch_token_op (ws channelId credentialId : string) (now : Z)
| ch_webhook_op (ws channelId url : string) (spec : option Z) (now : Z)
| ch_delivery_op (ws channelId : string) (now : Z)
| ch_failure_op (ws channelId message : string) (now : Z)
| ch_disconnect_op (ws channelId : string).

(** A code somebody was shown for a connection. *)
Definition offers (id code : string) (op : ChannelOp) : Prop :=
  match op with
  | ch_connect_op _ id' input _ => id' = id ∧ ∃ ttl, connect_code_of input = Some (code, ttl)
  | ch_reissue_op _ id' code' _ _ => id' = id ∧ code' = code
  | _ => False
  end.
Definition installs (id : string) (op : ChannelOp) : Prop :=
  match op with ch_connect_op _ id' input _ => id' = id ∧ is_install input = true | _ => False end.
Definition claims (id chat code : string) (op : ChannelOp) : Prop :=
  match op with ch_claim_op _ id' code' chat' _ => id' = id ∧ chat' = chat ∧ code' = code | _ => False end.

Section ConnectionHistory.
Context {C : Type} `{CollectionLaws ChannelDoc C}.
Implicit Types (c : C) (d : ChannelDoc).

Definition ch_apply c (op : ChannelOp) : C :=
  match op with
  | ch_connect_op ws id input now => (connect ws id input now c).2
  | ch_claim_op ws id code chat now => (claim ws id code chat now c).2
  | ch_reissue_op ws id code ttl now => (reissueCode ws id code ttl now c).2
  | ch_bind_op ws id ref name now => (bindInstall ws id ref name now c).2
  | ch_token_op ws id cred now => replaceToken ws id cred now c
  | ch_webhook_op ws id url spec now => recordWebhook ws id url spec now c
  | ch_delivery_op ws id now => recordDelivery ws id now c
  | ch_failure_op ws id m now => recordFailure ws id m now c
  | ch_disconnect_op ws id => delete_channel ws id c
  end.

(** What one operation makes of one row. *)
Inductive row_step (op : ChannelOp) (id : string) : option ChannelDoc → ChannelDoc → Prop :=
| rs_same d : row_step op id (Some d) d
| rs_new ws input now prior : op = ch_connect_op ws id input now → row_step op id prior (new_channel ws input now)
| rs_claim ws code chat now d : op = ch_claim_op ws id code chat now → code_matches ws code now d = true →
    row_step op id (Some d) (claim_update chat now d)
| rs_reissue ws code ttl now h d : op = ch_reissue_op ws id code ttl now →
    row_step op id (Some d) (set_proof pending_verification None (Some {| cn_code := code; cn_expiresAt := now + ttl |}) h now d)
| rs_route token install url spec now d : row_step op id (Some d) (set_route token install url spec now d)
| rs_health h now d : row_step op id (Some d) (set_proof (ch_status d) (ch_verifiedChatRef d) (ch_connect d) h now d)
| rs_failure h now d : row_step op id (Some d) (set_proof in_error (ch_verifiedChatRef d) (ch_connect d) h now d).

Lemma channel_update_rows op id k p f c d' :
  (∀ d, docs c !! k = Some d → p d = true → k = id → row_step op id (Some d) (f d)) →
  docs (updateOne k p f c).2 !! id = Some d' → row_step op id (docs c !! id) d'.
Proof.
  intros Hf. destruct (updateOne_cases k p f c) as [(d & Hd & Hp & _ & ->)|(_ & _ & ->)]; [|intros ->; constructor].
  intros [[<- <-]|[_ ->]]%lookup_insert_Some; [|constructor]. rewrite Hd. by apply Hf.
Qed.

Lemma delete_rows op id k p c d' : docs (deleteOne k p c).2 !! id = Some d' → row_step op id (docs c !! id) d'.
Proof. intros ->%deleteOne_sub. constructor. Qed.

Lemma op_rows op c id d' : docs (ch_apply c op) !! id = Some d' → row_step op id (docs c !! id) d'.
Proof.
  destruct op; simpl.
  - unfold connect. set (c1 := match _ with Some _ => _ | None => _ end).
    assert (H1 : ∀ d, docs c1 !! id = Some d → row_step (ch_connect_op ws newId input now) id (docs c !! id) d).
    { intros d. unfold c1. destruct (findByType ws (cc_type input) c) as [[k ?]|]; [apply delete_rows|intros ->; constructor]. }
    destruct (_ && _); [apply H1|].
    destruct (insertOne_cases same_type newId (new_channel ws input now) c1) as [(Eb & _ & _ & E)|[Eb E]];
      destruct (insertOne _ _ _ c1) as [b c2]; simpl in *; subst b; simpl; rewrite E; [|apply H1].
    intros [[<- <-]|[_ Hd]]%lookup_insert_Some; [by econstructor|by apply H1].
  - unfold claim. destruct (updateOne _ _ _ c) as [b c'] eqn:E. simpl. rewrite (eq_sym (f_equal snd E) : c' = _). simpl.
    apply channel_update_rows. intros d _ Hp ->. by econstructor.
  - unfold reissueCode. destruct (updateOne _ _ _ c) as [b c'] eqn:E. simpl. rewrite (eq_sym (f_equal snd E) : c' = _). simpl.
    apply channel_update_rows. intros d _ Hp ->. by econstructor.
  - unfold bindInstall. destruct (findById ws channelId c) as [d|]; [|simpl; intros ->; constructor].
    destruct (ch_install d); [|simpl; intros ->; constructor]. simpl. apply channel_update_rows. intros; constructor.
  - apply channel_update_rows. intros; constructor.
  - apply channel_update_rows. intros; constructor.
  - apply channel_update_rows. intros; constructor.
  - apply channel_update_rows. intros; constructor.
  - apply delete_rows.
Qed.

(** ** A connected row was proved *)
Definition claimed (ops : list ChannelOp) (id chat : string) : Prop :=
  ∃ code, Exists (offers id code) ops ∧ Exists (claims id chat code) ops.

Definition proved (ops : list ChannelOp) (id : string) (d : ChannelDoc) : Prop :=
  match ch_verifiedChatRef d with Some chat => claimed ops id chat | None => Exists (installs id) ops end.

Definition row_inv (ops : list ChannelOp) (id : string) (d : ChannelDoc) : Prop :=
  (∀ cn, ch_connect d = Some cn → Exists (offers id (cn_code cn)) ops) ∧
  (∀ chat, ch_verifiedChatRef d = Some chat → claimed ops id chat) ∧
  (ch_status d = connected → ch_connect d = None ∧ proved ops id d).

Lemma Exists_snoc_l {A} (P : A → Prop) l x : Exists P l → Exists P (l ++ [x]).
Proof. rewrite Exists_app. by left. Qed.
Lemma Exists_snoc_r {A} (P : A → Prop) l x : P x → Exists P (l ++ [x]).
Proof. rewrite Exists_app. right. by left. Qed.

Lemma row_inv_grows ops op id d : row_inv ops id d → row_inv (ops ++ [op]) id d.
Proof.
  intros (H1 & H2 & H3).
  assert (Hc : ∀ chat, claimed ops id chat → claimed (ops ++ [op]) id chat).
  { intros chat (code & Ho & Hcl). exists code. by split; apply Exists_snoc_l. }
  split_and!; [intros; by apply Exists_snoc_l, H1|naive_solver|].
  intros Hs. destruct (H3 Hs) as [Hn Hp]. split; [done|]. unfold proved in *.
  destruct (ch_verifiedChatRef d); [by apply Hc|by apply Exists_snoc_l].
Qed.

Lemma row_step_inv ops op id prior d' :
  row_step op id prior d' → (∀ d, prior = Some d → row_inv ops id d) → row_inv (ops ++ [op]) id d'.
Proof.
  intros Hs Hp. destruct Hs as [d|ws input now prior ->|ws code chat now d -> Hm|ws code ttl now h d ->| | |];
    try (pose proof (row_inv_grows ops op id d (Hp d eq_refl)) as (H1 & H2 & H3)).
  - by apply row_inv_grows, Hp.
  - unfold row_inv, proved. simpl. destruct (is_install input) eqn:Ei; split_and!; try done.
    + intros _. split; [done|]. by apply Exists_snoc_r.
    + intros cn. destruct (connect_code_of input) as [[code ttl]|] eqn:Ec; [|done]. simpl. intros [= <-]. simpl.
      apply Exists_snoc_r. split; [done|]. by exists ttl.
  - destruct (Hp d eq_refl) as (Hcode & _ & _). unfold code_matches in Hm. bool_prop.
    destruct (ch_connect d) as [cn|] eqn:Ec; [|done]. bool_prop. specialize (Hcode cn eq_refl).
    assert (Hcl : claimed (ops ++ [ch_claim_op ws id code chat now]) id chat).
    { exists code. split; [apply Exists_snoc_l; congruence|by apply Exists_snoc_r]. }
    unfold row_inv, proved. simpl. split_and!; [done|by intros ? [= <-]|done].
  - unfold row_inv. simpl. split_and!; [|done..]. intros cn [= <-]. by apply Exists_snoc_r.
  - done.
  - done.
  - unfold row_inv. simpl. done.
Qed.

Lemma history_inv ops c id d : docs c = ∅ → docs (foldl ch_apply c ops) !! id = Some d → row_inv ops id d.
Proof.
  intros Hc. revert id d. induction ops as [|op ops IH] using rev_ind; intros id d.
  - simpl. by rewrite Hc, lookup_empty.
  - rewrite foldl_app. simpl. intros Hd. apply op_rows in Hd. apply (row_step_inv ops op id _ d Hd). intros d0. apply IH.
Qed.

(** In every history from an empty store, a connection that answers has no open
    code left, and either a code that was shown for it came back from the very
    chat it is bound to, or it is an install that needs no code. *)
Theorem connected_chats_are_proved ops c id d :
  docs c = ∅ → docs (foldl ch_apply c ops) !! id = Some d → ch_status d = connected →
  ch_connect d = None ∧ proved ops id d.
Proof. intros Hc Hd. apply (history_inv ops c id d Hc Hd). Qed.

(** ** A code connects once *)
Definition closed_to (id code : string) c : Prop :=
  ∀ d cn, docs c !! id = Some d → ch_connect d = Some cn → cn_code cn ≠ code.

Lemma op_keeps_closed op c id code : ¬ offers id code op → closed_to id code c → closed_to id code (ch_apply c op).
Proof.
  intros Ho Hcl d' cn Hd. apply op_rows in Hd. remember (docs c !! id) as prior eqn:E.
  destruct Hd as [d|ws input now prior ->|ws k chat now d -> Hm|ws k ttl now h d ->| | |]; simpl;
    try (by apply (Hcl _ cn (eq_sym E))); [|done|].
  - destruct (is_install input); [done|]. destruct (connect_code_of input) as [[k ttl]|] eqn:Ec; [|done].
    simpl. intros [= <-] <-. apply Ho. split; [done|]. by exists ttl.
  - intros [= <-] <-. by apply Ho.
Qed.

(** A code that has connected a chat connects nothing afterwards, whatever
    happens in between, unless the very same code is issued again for that
    connection. *)
Theorem codes_connect_once ops c ws id code chat now ws' chat' now' :
  (claim ws id code chat now c).1 ≠ None → Forall (λ op, ¬ offers id code op) ops →
  (claim ws' id code chat' now' (foldl ch_apply (claim ws id code chat now c).2 ops)).1 = None.
Proof.
  intros Hok Hno.
  assert (Hcl0 : closed_to id code (claim ws id code chat now c).2).
  { unfold claim in *. destruct (updateOne_cases id (code_matches ws code now) (claim_update chat now) c)
      as [(d & Hd & _ & Eb & E)|(_ & Eb & _)]; destruct (updateOne _ _ _ c) as [b c']; simpl in *; subst b; [|done].
    intros d' cn Hd'. rewrite E, lookup_insert_eq in Hd'. by injection Hd' as <-. }
  assert (Hend : closed_to id code (foldl ch_apply (claim ws id code chat now c).2 ops)).
  { revert Hcl0. generalize (claim ws id code chat now c).2 as c0. clear Hok.
    induction Hno as [|op ops Hop _ IH]; intros c0 Hcl0; [done|]. simpl. by apply IH, op_keeps_closed. }
  set (c1 := foldl _ _ _) in *. clearbody c1. unfold claim.
  destruct (updateOne_cases id (code_matches ws' code now') (claim_update chat' now') c1) as [(d & Hd & Hm & _)|(_ & Eb & _)];
    [|by destruct (updateOne _ _ _ c1) as [b c']; simpl in *; subst b].
  exfalso. unfold code_matches in Hm. bool_prop. destruct (ch_connect d) as [cn|] eqn:Ec; [|done]. bool_prop.
  by apply (Hend d cn Hd Ec).
Qed.
End ConnectionHistory.

(** ** A delivery is acted on once *)
Inductive EventOp :=
| ev_claim_op (newId channelId externalEventId : string) (now : Z)
| ev_release_op (channelId externalEventId : string)
| ev_attach_op (channelId externalEventId runId : string)
| ev_expire_op (now : Z).

(** What gives a delivery received at [at_] back. *)
Definition gives_back (channelId externalEventId : string) (at_ : Z) (op : EventOp) : Prop :=
  match op with
  | ev_release_op ch ev => ch = channelId ∧ ev = externalEventId
  | ev_expire_op now => at_ + EVENT_TTL_MS <= now
  | _ => False
  end.

Section DeliveryHistory.
Context {C : Type} `{CollectionLaws ChannelEventDoc C}.
Implicit Types (c : C) (d : ChannelEventDoc).

Definition ev_apply c (op : EventOp) : C :=
  match op with
  | ev_claim_op id ch ev now => (claimDelivery id ch ev now c).2
  | ev_release_op ch ev => releaseDelivery ch ev c
  | ev_attach_op ch ev run => attachRun ch ev run c
  | ev_expire_op now => expire now c
  end.

Definition held (channelId externalEventId : string) (at_ : Z) c : Prop :=
  ∃ id d, docs c !! id = Some d ∧ is_event channelId externalEventId d = true ∧ ce_receivedAt d = at_.

Lemma is_event_key channelId externalEventId d :
  is_event channelId externalEventId d = true ↔ ce_channelId d = channelId ∧ ce_externalEventId d = externalEventId.
Proof. unfold is_event. by rewrite andb_true_iff, !String.eqb_eq. Qed.

Lemma op_keeps_held op c ch ev at_ : ¬ gives_back ch ev at_ op → held ch ev at_ c → held ch ev at_ (ev_apply c op).
Proof.
  intros Hno (id & d & Hd & Hk & Ht). destruct op as [newId ch' ev' now|ch' ev'|ch' ev' run|now]; simpl in *.
  - unfold claimDelivery. destruct (insertOne_cases same_event newId
      {| ce_channelId := ch'; ce_externalEventId := ev'; ce_runId := None; ce_receivedAt := now |} c) as [(_ & Hn & _ & E)|[_ E]];
      exists id, d; rewrite E; [|done]. rewrite lookup_insert_ne; [done|congruence].
  - unfold releaseDelivery. destruct (find_one (is_event ch' ev') c) as [[k e]|] eqn:Ef; [|by exists id, d].
    apply find_one_some in Ef as [He Hke].
    destruct (deleteOne_cases k (λ _, true) c) as [(? & _ & _ & _ & E)|(_ & _ & E)]; exists id, d; rewrite E; [|done].
    rewrite lookup_delete_ne; [done|]. intros ->. apply Hno. rewrite Hd in He. injection He as <-.
    rewrite is_event_key in Hk, Hke. naive_solver congruence.
  - unfold attachRun. destruct (find_one (is_event ch' ev') c) as [[k e]|] eqn:Ef; [|by exists id, d].
    set (f := λ d, Build_ChannelEventDoc _ _ _ _).
    destruct (updateOne_cases k (λ _, true) f c) as [(d0 & Hd0 & _ & _ & E)|(_ & _ & E)]; [|exists id, d; by rewrite E].
    destruct (decide (k = id)) as [->|Hne].
    + exists id, (f d0). rewrite E, lookup_insert_eq. rewrite Hd in Hd0. injection Hd0 as <-. done.
    + exists id, d. by rewrite E, lookup_insert_ne.
  - exists id, d. unfold expire. rewrite (proj2 (deleteMany_docs _ c)). split; [|done].
    apply map_lookup_filter_Some. split; [done|]. simpl. apply negb_true_iff, Z.leb_gt. lia.
Qed.

(** The caller whose claim of a delivery succeeds is the only one: every later
    claim of the same delivery fails, in any interleaving, until it is given
    back or a week has passed. *)
Theorem deliveries_are_claimed_once ops c newId newId' ch ev now later :
  (claimDelivery newId ch ev now c).1 = true → Forall (λ op, ¬ gives_back ch ev now op) ops →
  (claimDelivery newId' ch ev later (foldl ev_apply (claimDelivery newId ch ev now c).2 ops)).1 = false.
Proof.
  intros Hok Hno.
  assert (Hheld : held ch ev now (claimDelivery newId ch ev now c).2).
  { apply insertOne_true in Hok as (_ & _ & E). unfold claimDelivery. eexists newId, _. rewrite E, lookup_insert_eq.
    split; [done|]. by rewrite is_event_key. }
  revert Hheld. generalize (claimDelivery newId ch ev now c).2 as c0. clear Hok.
  induction Hno as [|op ops Hop _ IH]; intros c0 Hheld; simpl; [|by apply IH, op_keeps_held].
  destruct Hheld as (id & d & Hd & Hk & _). apply insertOne_dup. right. exists id, d. split; [done|].
  unfold same_event. simpl. apply is_event_key in Hk as [-> ->]. by rewrite !String.eqb_refl.
Qed.
End DeliveryHistory.

(** ** A person keeps one thread *)
Section PeopleHistory.
Context {C : Type} `{CollectionLaws ChannelIdentityDoc C} (workspaceId : string) (genId : C → string).
Context (genId_fresh : ∀ c, docs c !! genId c = None).
Implicit Types (c : C) (d : ChannelIdentityDoc).

Definition person_of d : string * string := (ci_channelId d, ci_externalUserId d).
Definition people_unique c : Prop :=
  ∀ i j d e, docs c !! i = Some d → docs c !! j = Some e → person_of d = person_of e → i = j.
Definition same_thread (d d' : ChannelIdentityDoc) : Prop :=
  person_of d' = person_of d ∧ ci_conversationId d' = ci_conversationId d ∧ ci_createdAt d' = ci_createdAt d.
Definition cuts (channelId : string) (w : PeopleWrite) : Prop :=
  match w with pw_disconnect ch => ch = channelId | _ => False end.

Lemma is_person_key ch u d : is_person ch u d = true ↔ person_of d = (ch, u).
Proof. unfold is_person, person_of. rewrite andb_true_iff, !String.eqb_eq. naive_solver. Qed.

(** One write keeps the threads: rows change without changing whose they are. *)
Lemma write_keeps_threads w c :
  people_unique c →
  people_unique (people_write workspaceId genId c w) ∧
  ∀ id d, docs c !! id = Some d → ¬ cuts (ci_channelId d) w →
    ∃ d', docs (people_write workspaceId genId c w) !! id = Some d' ∧ same_thread d d'.
Proof.
  intros Hu.
  assert (Hupd : ∀ k e e' m, docs c !! k = Some e → same_thread e e' → m = <[k := e']> (docs c) →
    (∀ i j x y, m !! i = Some x → m !! j = Some y → person_of x = person_of y → i = j) ∧
    ∀ id d, docs c !! id = Some d → ∃ d', m !! id = Some d' ∧ same_thread d d').
  { intros k e e' m He (Hp & Hc & Hat) ->. split.
    - intros i j x y. rewrite !lookup_insert_Some.
      intros [[<- <-]|[? Hx]] [[<- <-]|[? Hy]] Exy; [done|apply (Hu k j e y)|apply (Hu i k x e)|apply (Hu i j x y)]; congruence.
    - intros id d Hd. destruct (decide (k = id)) as [->|Hne].
      + exists e'. rewrite lookup_insert_eq. rewrite Hd in He. by injection He as ->.
      + exists d. by rewrite lookup_insert_ne. }
  destruct w as [input now|id0 user|ch]; simpl.
  - unfold link_once.
    destruct (upsertOne_cases (is_person (li_channelId input) (li_externalUserId input)) (genId c)
                (link_update workspaceId input now) c (genId_fresh c)) as [(k & e & He & _ & E)|[Hmiss E]].
    + destruct (Hupd k e (link_update workspaceId input now (Some e)) _ He ltac:(done) E) as [H1 H2]. split; [exact H1|].
      intros id d Hd _. by apply H2.
    + assert (Hother : ∀ j y, docs c !! j = Some y → person_of y ≠ (li_channelId input, li_externalUserId input)).
      { intros j y Hy Ey%is_person_key. by rewrite (Hmiss j y Hy) in Ey. }
      split.
      * intros i j x y. rewrite E, !lookup_insert_Some.
        intros [[<- <-]|[? Hx]] [[<- <-]|[? Hy]] Exy; [done|by destruct (Hother j y Hy)|by destruct (Hother i x Hx)|by apply (Hu i j x y)].
      * intros id d Hd _. exists d. rewrite E, lookup_insert_ne; [done|]. intros Eid. by rewrite <- Eid, genId_fresh in Hd.
  - unfold setIdentityUser. set (f := λ d, Build_ChannelIdentityDoc _ _ _ _ _ _ _ _ _).
    destruct (updateOne_cases id0 (λ _, true) f c) as [(e & He & _ & _ & E)|(_ & _ & E)].
    + destruct (Hupd id0 e (f e) _ He ltac:(done) E) as [H1 H2]. split; [exact H1|]. intros id d Hd _. by apply H2.
    + unfold people_unique. rewrite E. split; [done|]. intros id d Hd _. by exists d.
  - unfold delete_people, people_unique. rewrite (proj2 (deleteMany_docs _ c)). split.
    + intros i j x y [Hx _]%map_lookup_filter_Some [Hy _]%map_lookup_filter_Some. by apply (Hu i j x y).
    + intros id d Hd Hc. exists d. split; [|done]. apply map_lookup_filter_Some. split; [done|]. simpl.
      apply negb_true_iff. destruct (String.eqb_spec (ci_channelId d) ch) as [Heq|]; [|done]. by destruct Hc.
Qed.

Lemma writes_keep_threads ws c :
  people_unique c →
  people_unique (foldl (people_write workspaceId genId) c ws) ∧
  ∀ id d, docs c !! id = Some d → Forall (λ w, ¬ cuts (ci_channelId d) w) ws →
    ∃ d', docs (foldl (people_write workspaceId genId) c ws) !! id = Some d' ∧ same_thread d d'.
Proof.
  revert c. induction ws as [|w ws IH]; intros c Hu; simpl; [split; [done|]; intros id d Hd _; by exists d|].
  destruct (write_keeps_threads w c Hu) as [Hu1 Hk1]. destruct (IH _ Hu1) as [Hu2 Hk2]. split; [done|].
  intros id d Hd Hno. apply Forall_cons in Hno as [Hw Hws]. destruct (Hk1 id d Hd Hw) as (d1 & Hd1 & P1 & C1 & T1).
  destruct (Hk2 id d1 Hd1) as (d2 & Hd2 & P2 & C2 & T2).
  - unfold person_of in P1. injection P1 as -> _. done.
  - exists d2. split; [done|]. split_and!; congruence.
Qed.

(** Linking somebody who has written before returns their row with the thread
    it has had from the start, also when the upsert loses a race and is tried
    again, as long as the connection is not cut meanwhile; nobody ever gets a
    second row. *)
Theorem people_keep_their_thread input now lost after c id d :
  people_unique c → docs c !! id = Some d → person_of d = (li_channelId input, li_externalUserId input) →
  Forall (λ w, ¬ cuts (li_channelId input) w) (default [] lost ++ after) →
  ∃ d', (linkIdentity workspaceId genId input now lost after c).1 = Ret (id, d') ∧ same_thread d d' ∧
        people_unique (linkIdentity workspaceId genId input now lost after c).2.
Proof.
  intros Hu Hd Hp Hno. unfold linkIdentity.
  set (writes := default [] lost ++ [pw_link input now] ++ after).
  assert (E : foldl (people_write workspaceId genId)
                (link_once workspaceId genId input now (match lost with Some ws => foldl (people_write workspaceId genId) c ws | None => c end)) after
              = foldl (people_write workspaceId genId) c writes).
  { unfold writes. rewrite !foldl_app. by destruct lost. }
  rewrite E. destruct (writes_keep_threads writes c Hu) as [Hu' Hk].
  destruct (Hk id d Hd) as (d' & Hd' & Hs).
  { unfold person_of in Hp. injection Hp as -> _. apply Forall_app in Hno as [H1 H2].
    unfold writes. apply Forall_app. split; [done|]. constructor; [by intros []|done]. }
  exists d'. simpl. split; [|done]. unfold findIdentity.
  rewrite (find_one_unique _ _ id d' Hd'); [done|apply is_person_key; by rewrite (proj1 Hs)|].
  intros id' e He Hke. apply (Hu' id' id e d' He Hd'). apply is_person_key in Hke. destruct Hs as [-> _]. congruence.
Qed.
End PeopleHistory.

(** ** Instances *)
Notation ChannelRows := (gmap string ChannelDoc).
Notation EventRows := (gmap string ChannelEventDoc).
Notation PeopleRows := (gmap string ChannelIdentityDoc).

Definition a_bot : BotIdentity := {| bi_handle := "@helper_bot"; bi_displayName := "Helper"; bi_botRef := "bot_1" |}.
Definition telegram_input : CreateChannelInput := {|
  cc_type := "telegram"; cc_agentId := "agt_1"; cc_modelBindingId := None; cc_tokenCredentialId := "crd_1";
  cc_secretCredentialId := None; cc_identity := a_bot; cc_connectCode := Some "ABCD2345"; cc_connectCodeTtlMs := Some 1000;
  cc_install := None; cc_createdBy := "usr_1" |}.
Definition pairing : list ChannelOp :=
  [ch_connect_op "wks_1" "chn_1" telegram_input 0; ch_claim_op "wks_1" "chn_1" "ABCD2345" "chat_9" 10].
Definition paired : ChannelRows := foldl ch_apply (∅ : ChannelRows) pairing.

Lemma connected_chats_are_proved_witness :
  ∃ d, paired !! "chn_1" = Some d ∧ ch_status d = connected ∧ ch_verifiedChatRef d = Some "chat_9" ∧ proved pairing "chn_1" d.
Proof.
  assert (is_Some (paired !! "chn_1")) as [d Hd] by (vm_compute; eexists; reflexivity).
  assert ((λ d, (ch_status d, ch_verifiedChatRef d)) <$> (paired !! "chn_1") = Some (connected, Some "chat_9")) as Hp
    by (vm_compute; reflexivity).
  rewrite Hd in Hp. injection Hp as Hs Hv. exists d. split; [exact Hd|]. split; [exact Hs|]. split; [exact Hv|].
  exact (proj2 (connected_chats_are_proved pairing (∅ : ChannelRows) "chn_1" d eq_refl Hd Hs)).
Defined.

Definition offered_row : ChannelRows := ch_apply (∅ : ChannelRows) (ch_connect_op "wks_1" "chn_1" telegram_input 0).

Lemma codes_connect_once_witness :
  (claim "wks_1" "chn_1" "ABCD2345" "chat_9" 10 offered_row).1 ≠ None ∧
  (claim "wks_1" "chn_1" "ABCD2345" "chat_7" 20
     (foldl ch_apply (claim "wks_1" "chn_1" "ABCD2345" "chat_9" 10 offered_row).2 [ch_failure_op "wks_1" "chn_1" "unreachable" 15])).1 = None.
Proof.
  assert (H1 : (claim "wks_1" "chn_1" "ABCD2345" "chat_9" 10 offered_row).1 ≠ None) by (vm_compute; discriminate).
  split; [exact H1|].
  apply (codes_connect_once [ch_failure_op "wks_1" "chn_1" "unreachable" 15] offered_row "wks_1" "chn_1" "ABCD2345" "chat_9" 10 "wks_1" "chat_7" 20 H1).
  constructor; [intros []|constructor].
Defined.

Lemma deliveries_are_claimed_once_witness :
  (claimDelivery "evt_1" "chn_1" "m_1" 5 (∅ : EventRows)).1 = true ∧
  (claimDelivery "evt_2" "chn_1" "m_1" 9
     (foldl ev_apply (claimDelivery "evt_1" "chn_1" "m_1" 5 (∅ : EventRows)).2 [ev_attach_op "chn_1" "m_1" "run_1"; ev_release_op "chn_1" "m_2"])).1 = false.
Proof.
  assert (H1 : (claimDelivery "evt_1" "chn_1" "m_1" 5 (∅ : EventRows)).1 = true) by (vm_compute; reflexivity).
  split; [exact H1|].
  apply (deliveries_are_claimed_once [ev_attach_op "chn_1" "m_1" "run_1"; ev_release_op "chn_1" "m_2"] (∅ : EventRows) "evt_1" "evt_2" "chn_1" "m_1" 5 9 H1).
  repeat constructor; simpl; [intros []|intros [_ E]; discriminate E].
Defined.

Definition hello (conversation : string) : LinkInput := {|
  li_channelId := "chn_1"; li_externalUserId := "tg_42"; li_chatRef := "chat_9"; li_conversationId := conversation; li_label := "Ada" |}.
Definition known_person : PeopleRows := {["idn_1" := link_update "wks_1" (hello "cnv_1") 5 None]}.
Definition fresh_person (c : PeopleRows) : string := fresh_string "idn" c.
Lemma fresh_person_spec (c : PeopleRows) : docs c !! fresh_person c = None.
Proof. apply fresh_string_fresh. Defined.

Lemma people_keep_their_thread_witness :
  ∃ d', (linkIdentity "wks_1" fresh_person (hello "cnv_2") 9 (Some [pw_setUser "idn_1" (Some "usr_1")]) [] known_person).1 = Ret ("idn_1", d') ∧
        ci_conversationId d' = "cnv_1".
Proof.
  destruct (people_keep_their_thread "wks_1" fresh_person fresh_person_spec (hello "cnv_2") 9 (Some [pw_setUser "idn_1" (Some "usr_1")]) []
              known_person "idn_1" (link_update "wks_1" (hello "cnv_1") 5 None)) as (d' & Hr & (_ & Hc & _) & _).
  - intros i j d e Hi Hj _. unfold known_person in Hi, Hj. simpl in Hi, Hj. apply lookup_singleton_Some in Hi as [<- _]. apply lookup_singleton_Some in Hj as [<- _]. reflexivity.
  - reflexivity.
  - reflexivity.
  - repeat constructor. intros [].
  - exists d'. split; [exact Hr|exact Hc].
Defined.

(** A connection that is refused for want of a code has already lost its
    predecessor. *)
Example refused_reconnect_disconnects :
  let '(r, c) := connect "wks_1" "chn_2" {| cc_type := "telegram"; cc_agentId := "agt_1"; cc_modelBindingId := None;
    cc_tokenCredentialId := "crd_2"; cc_secretCredentialId := None; cc_identity := a_bot; cc_connectCode := None;
    cc_connectCodeTtlMs := None; cc_install := None; cc_createdBy := "usr_1" |} 30 paired in
  r = Throw ce_needs_code ∧ c !! "chn_1" = None.
Proof. vm_compute. done. Qed.

(** Nothing but a new handshake brings a connection back from an error: a
    delivery that works afterwards resets its failures and leaves the status. *)
Example errors_outlive_deliveries :
  let c := foldl ch_apply paired [ch_failure_op "wks_1" "chn_1" "timeout" 20; ch_delivery_op "wks_1" "chn_1" 30] in
  (λ d, (ch_status d, ch_consecutiveFailures (ch_health d), ch_connect d)) <$> (c !! "chn_1") = Some (in_error, 0, None).
Proof. vm_compute. done. Qed.
