(* ===== verification/ChatApprovals.v ===== *)
(** * Answering from a chat

    Models apps/web/src/lib/channel-approvals.ts (the button data, the wording of
    a question, the decision a press makes) and apps/web/src/lib/chat-link.ts (the
    code that ties a chat account to a person).  The collections are those of the
    components that own them; SHA-256 is a parameter, and waking an executor is
    part of the result. *)
From S2P Require Import Prelude Json Text Entities Mongo RunQueue Approvals Principal Access Accounts Channels.

(** ** Buttons *)
Record InboundChoice := {
  ic_chatRef : string; ic_senderRef : string; ic_senderLabel : string; ic_data : string; ic_callbackRef : string;
  ic_messageRef : string; ic_deliveryRef : string }.

Definition encodeDecision (approvalId : string) (decision : Decision) : string :=
  "a:" +:+ approvalId +:+ ":" +:+ match decision with approve => "y" | deny_it => "n" end.

Definition id_char (c : Ascii.ascii) : bool := is_alnum c || Ascii.eqb c "_" || Ascii.eqb c "-".
Definition id_shaped (s : string) : bool := str_all id_char s && (3 <=? String.length s)%nat && (String.length s <=? 80)%nat.

(** The expression [^a:([A-Za-z0-9_-]{3,80}):([yn])$]: no colon is in the class, so the parts are those between colons. *)
Definition decodeDecision (data : string) : option (string * Decision) :=
  match str_split ":" data with
  | [prefix; approvalId; answer] =>
      if String.eqb prefix "a" && id_shaped approvalId then
        if String.eqb answer "y" then Some (approvalId, approve) else if String.eqb answer "n" then Some (approvalId, deny_it) else None
      else None
  | _ => None
  end.

(** Who is recorded as having decided. *)
Definition by_chat (channelId : string) (choice : InboundChoice) : string := "channel:" +:+ channelId +:+ ":" +:+ ic_senderRef choice.

(** ** The question *)

(** [/^policy\b/i]: the word, at the start. *)
Definition is_word (c : Ascii.ascii) : bool := is_alnum c || Ascii.eqb c "_".
Definition names_policy (s : string) : bool :=
  String.eqb (toLowerCase (str_take 6 s)) "policy" && match str_drop 6 s with String c _ => negb (is_word c) | EmptyString => true end.
Definition isForPeople (reason : option string) : bool :=
  match reason with
  | None => false
  | Some r => let t := js_trim r in negb (String.eqb t "") && negb (names_policy t)
  end.

Definition last_char (s : string) : option Ascii.ascii := String.get (String.length s - 1) s.
Definition sentence (text : string) : string :=
  let t := js_trim text in
  let capitalised := toUpperCase (str_take 1 t) +:+ str_drop 1 t in
  match last_char capitalised with
  | Some ("." | "!" | "?")%char => capitalised
  | _ => capitalised +:+ "."
  end.

Record QuestionPayload := {
  qp_capabilityName : option string; qp_canonicalName : option string; qp_reason : option string; qp_question : option string }.

Definition questionOf (kind : string) (payload : QuestionPayload) (canPress : bool) : string :=
  if String.eqb kind "tool_call" then
    let tool := match qp_capabilityName payload with
                | Some n => n
                | None => default "a tool that changes something" (qp_canonicalName payload)
                end in
    let why := if isForPeople (qp_reason payload) then " " +:+ sentence (default "" (qp_reason payload)) else "" in
    "Before I go on, I need your go-ahead to use " +:+ tool +:+ "." +:+ why +:+
      (if canPress then "" else " Approve it on the Approvals page.")
  else
    let asked := match qp_question payload with
                 | Some q => if String.eqb q "" then "" else " " +:+ sentence q
                 | None => ""
                 end in
    "I need something from you before I can go on." +:+ asked +:+ " Answer on the Approvals page.".

(** ** A press *)
Inductive ChatDecision :=
| cd_unknown_button | cd_question_gone | cd_run_gone | cd_moment_passed | cd_not_the_asker | cd_already (d : Decision) | cd_expired
| cd_answered_meanwhile | cd_decided (d : Decision).

Section Press.
Context {CA CR CP : Type} `{CollectionLaws ApprovalDoc CA, CollectionLaws RunDoc CR, CollectionLaws ChannelIdentityDoc CP}.

(** The conversation's identity is the person who pressed, on this connection. *)
Definition is_asker (channelId : string) (choice : InboundChoice) (conversationId : string) (people : CP) : bool :=
  match findIdentityByConversation conversationId people with
  | Some (_, identity) => String.eqb (ci_channelId identity) channelId && String.eqb (ci_externalUserId identity) (ic_senderRef choice)
  | None => false
  end.

(** [decideFromChat].  [meanwhile] is what others do to the approvals between
    the reads and the decision; a decision that was recorded queues the run and
    wakes an executor for it. *)
Definition decideFromChat (channelId : string) (choice : InboundChoice) (now : Z) (meanwhile : list aop) (people : CP) (runs : CR) (approvals : CA)
    : ChatDecision * CR * CA :=
  match decodeDecision (ic_data choice) with
  | None => (cd_unknown_button, runs, approvals)
  | Some (approvalId, decision) =>
      match findApproval approvalId approvals with
      | None => (cd_question_gone, runs, approvals)
      | Some approval =>
          match docs runs !! apv_runId approval with
          | None => (cd_run_gone, runs, approvals)
          | Some run =>
              if negb (is_waiting (Some (run_status run))) then (cd_moment_passed, runs, approvals)
              else if negb (is_asker channelId choice (sp_conversationId (run_spec run)) people) then (cd_not_the_asker, runs, approvals)
              else match apv_decision approval with
              | Some d => (cd_already d, runs, approvals)
              | None =>
                  if apv_expiresAt approval <? now then (cd_expired, runs, approvals)
                  else
                    let c1 := foldl aexec approvals meanwhile in
                    match decideApproval now approvalId decision (by_chat channelId choice) None c1 with
                    | (false, c2) => (cd_answered_meanwhile, runs, c2)
                    | (true, c2) => (cd_decided decision, (enqueue now (apv_runId approval) None None runs).2, c2)
                    end
              end
          end
      end
  end.

(** The press came from the person the conversation belongs to, on the connection it came in on. *)
Definition asked_by (channelId senderRef conversationId : string) (people : CP) : Prop :=
  ∃ id identity, docs people !! id = Some identity ∧ ci_conversationId identity = conversationId ∧
    ci_channelId identity = channelId ∧ ci_externalUserId identity = senderRef.

Lemma is_asker_spec channelId choice conversationId people :
  is_asker channelId choice conversationId people = true → asked_by channelId (ic_senderRef choice) conversationId people.
Proof.
  unfold is_asker. destruct (findIdentityByConversation _ _) as [[id identity]|] eqn:Hf; [|done].
  apply find_one_some in Hf as [Hidn Hconv]. intros Heq. bool_prop. by exists id, identity.
Qed.

Lemma enqueue_waiting now runId run (runs : CR) :
  docs runs !! runId = Some run → is_waiting (Some (run_status run)) = true →
  ∃ run', docs (enqueue now runId None None runs).2 !! runId = Some run' ∧ run_status run' = queued ∧ run_lease run' = None.
Proof.
  intros Hrun Hw. unfold enqueue.
  match goal with |- context [updateOne ?i ?p ?f ?c] => destruct (updateOne_hit i p f c run Hrun) as [_ ->] end;
    [|by eexists; rewrite lookup_insert_eq].
  apply bool_decide_eq_true in Hw. apply bool_decide_eq_true. set_solver.
Qed.

(** C25.  A press decides an approval only when it carries the approval's own button,
    comes from the person whose conversation the waiting run answers, on the
    connection they wrote on, and the approval is neither decided nor expired;
    the answer recorded is the button's and the run goes back to the queue.  A
    press that does not decide changes neither the run nor the approval. *)
Theorem only_the_asker_decides channelId choice now meanwhile people runs approvals :
  let '(r, runs', approvals') := decideFromChat channelId choice now meanwhile people runs approvals in
  match r with
  | cd_decided d =>
      ∃ approvalId a run a', decodeDecision (ic_data choice) = Some (approvalId, d) ∧
        docs approvals !! approvalId = Some a ∧ apv_decision a = None ∧ now <= apv_expiresAt a ∧
        docs runs !! apv_runId a = Some run ∧ is_waiting (Some (run_status run)) = true ∧
        asked_by channelId (ic_senderRef choice) (sp_conversationId (run_spec run)) people ∧
        docs approvals' !! approvalId = Some a' ∧ apv_decision a' = Some d ∧
        apv_decidedBy a' = Some (by_chat channelId choice) ∧
        (∃ run', docs runs' !! apv_runId a = Some run' ∧ run_status run' = queued ∧ run_lease run' = None)
  | cd_answered_meanwhile => runs' = runs ∧ docs approvals' = docs (foldl aexec approvals meanwhile)
  | _ => runs' = runs ∧ approvals' = approvals
  end.
Proof.
  unfold decideFromChat, findApproval. destruct (decodeDecision _) as [[aid d]|] eqn:Hdec; [|done].
  destruct (docs approvals !! aid) as [a|] eqn:Ha; [|done]. destruct (docs runs !! apv_runId a) as [run|] eqn:Hrun; [|done].
  destruct (is_waiting _) eqn:Hw; [|done]. destruct (is_asker _ _ _ _) eqn:Hid; [apply is_asker_spec in Hid|done].
  destruct (apv_decision a) eqn:Hd; [done|]. simpl negb. cbv iota.
  destruct (Z.ltb_spec (apv_expiresAt a) now); [done|].
  destruct (decideApproval now aid d _ None _) as [[] c2] eqn:Hdo; unfold decideApproval in Hdo.
  - destruct (updateOne_cases aid undecided (set_decision d (by_chat channelId choice) now None)
                (foldl aexec approvals meanwhile)) as [(a1 & Ha1 & _ & _ & Hdocs)|(_ & Hf & _)]; rewrite Hdo in *; simpl in *; [|done].
    exists aid, a, run, (set_decision d (by_chat channelId choice) now None a1).
    split_and!; try done.
    + by rewrite Hdocs, lookup_insert_eq.
    + by eapply enqueue_waiting.
  - destruct (updateOne_cases aid undecided (set_decision d (by_chat channelId choice) now None)
                (foldl aexec approvals meanwhile)) as [(? & _ & _ & Ht & _)|(_ & _ & Hdocs)]; rewrite Hdo in *; simpl in *; done.
Qed.
End Press.

(** ** Linking a chat account *)
Definition LINK_CODE_TTL_MS : Z := 10 * 60 * 1000.
Definition MAX_WRONG_GUESSES : Z := 5.

(** The alphabet of the codes. *)
Definition code_alphabet : string := "ABCDEFGHJKMNPQRSTUVWXYZ23456789".
Definition code_shaped (s : string) : bool := (String.length s =? 8)%nat && str_all (λ c, str_has c code_alphabet) s.

(** After [link], at least one blank. *)
Definition after_link (s : string) : option string :=
  if String.eqb (toLowerCase (str_take 4 s)) "link" then
    match str_drop 4 s with String c r => if is_space c then Some (trim_start r) else None | EmptyString => None end
  else None.

(** [offeredLinkCode]: eight letters or digits, with the word before them or without. *)
Definition offeredLinkCode (text : string) : option string :=
  let t := js_trim text in
  let eight s := (String.length s =? 8)%nat && str_all is_alnum s in
  let code := if eight t then Some t else match after_link t with Some r => if eight r then Some r else None | None => None end in
  match code with
  | Some c => let upper := toUpperCase c in if code_shaped upper then Some upper else None
  | None => None
  end.

Record InboundAudio := { au_fileRef : string; au_mimeType : string; au_durationSeconds : option Z; au_sizeBytes : option Z }.
Record InboundMessage := {
  im_chatRef : string; im_senderRef : string; im_senderLabel : string; im_text : string; im_audio : option InboundAudio;
  im_messageRef : string }.

Inductive LinkAttempt :=
| la_wrong | la_too_often | la_not_a_member | la_say_hello | la_just_used | la_linked (who : string).

Section Linking.
Context {CQ CW CP CU : Type}.
Context `{CollectionLaws AuthChallengeDoc CQ, CollectionLaws WorkspaceDoc CW, CollectionLaws ChannelIdentityDoc CP, CollectionLaws UserDoc CU}.
Context (sha256 : string → string).

Definition hashLinkCode (code : string) : string := sha256 ("chat_link:" +:+ toUpperCase (js_trim code)).

Definition issueLinkCode (challengeId code userId : string) (now : Z) (c : CQ) : bool * CQ :=
  issueChallenge challengeId userId chat_link (hashLinkCode code) LINK_CODE_TTL_MS now c.

Record LinkDb := { ld_challenges : CQ; ld_people : CP }.

(** [linkFromChat]; nothing when the message offers no code. *)
Definition linkFromChat (workspaceId channelId : string) (message : InboundMessage) (now : Z) (workspaces : CW) (users : CU) (db : LinkDb)
    : option LinkAttempt * LinkDb :=
  match offeredLinkCode (im_text message) with
  | None => (None, db)
  | Some code =>
      match findOpenChallengeByToken chat_link (hashLinkCode code) now (ld_challenges db) with
      | None => (Some la_wrong, db)
      | Some (challengeId, challenge) =>
          if MAX_WRONG_GUESSES <=? q_attempts challenge then (Some la_too_often, db)
          else match membershipOf workspaceId (q_userId challenge) workspaces with
          | None => (Some la_not_a_member,
                     {| ld_challenges := (recordChallengeAttempt challengeId (ld_challenges db)).2; ld_people := ld_people db |})
          | Some _ =>
              match findIdentity channelId (im_senderRef message) (ld_people db) with
              | None => (Some la_say_hello, db)
              | Some (identityId, _) =>
                  match consumeChallenge challengeId now (ld_challenges db) with
                  | (false, cq) => (Some la_just_used, {| ld_challenges := cq; ld_people := ld_people db |})
                  | (true, cq) =>
                      let cp := (setIdentityUser identityId (Some (q_userId challenge)) (ld_people db)).2 in
                      let who := match find_user (q_userId challenge) users with
                                 | Some u => default (u_emailDisplay u) (u_name u)
                                 | None => "your account"
                                 end in
                      (Some (la_linked who), {| ld_challenges := cq; ld_people := cp |})
                  end
              end
          end
      end
  end.
End Linking.

(** ** What a button and a code prove *)

Lemma id_char_no_colon s : id_shaped s = true → lacks ":" s = true.
Proof.
  unfold id_shaped, lacks. rewrite !andb_true_iff. intros [[Hs _] _]. induction s as [|c s IH]; [done|].
  cbn [str_all] in *. apply andb_true_iff in Hs as [Hc Hs]. rewrite (IH Hs), andb_true_r.
  destruct (Ascii.eqb_spec ":" c) as [<-|]; done.
Qed.

(** Every button made for an approval names that approval and its answer when it is pressed. *)
Theorem buttons_round_trip approvalId decision :
  id_shaped approvalId = true → decodeDecision (encodeDecision approvalId decision) = Some (approvalId, decision).
Proof.
  intros Hid. unfold decodeDecision.
  assert (encodeDecision approvalId decision =
          "a" +:+ String ":" (approvalId +:+ String ":" (match decision with approve => "y" | deny_it => "n" end))) as -> by done.
  rewrite (split_first ":" "a") by done.
  rewrite (split_first ":" approvalId) by (by apply id_char_no_colon). rewrite split_last by (by destruct decision). rewrite Hid.
  by destruct decision.
Qed.

Lemma buttons_round_trip_witness : decodeDecision (encodeDecision "apv_1x-Z" approve) = Some ("apv_1x-Z", approve).
Proof. apply buttons_round_trip. vm_compute. reflexivity. Defined.

Section Earned.
Context {CQ CW CP CU : Type}.
Context `{CollectionLaws AuthChallengeDoc CQ, CollectionLaws WorkspaceDoc CW, CollectionLaws ChannelIdentityDoc CP, CollectionLaws UserDoc CU}.
Context (sha256 : string → string).
Notation Links := (@LinkDb CQ CP).

(** The unique index on the hashes of codes. *)
Definition tokens_unique (c : CQ) : Prop :=
  ∀ id id' d d', docs c !! id = Some d → docs c !! id' = Some d' → q_tokenHash d = q_tokenHash d' → id = id'.

(** The code is an open, unexpired one of a person who is an active member of the chat's workspace. *)
Definition proves (workspaceId code userId : string) (now : Z) (workspaces : CW) (c : CQ) (challengeId : string) (q : AuthChallengeDoc) : Prop :=
  docs c !! challengeId = Some q ∧ q_kind q = chat_link ∧ q_tokenHash q = hashLinkCode sha256 code ∧ q_consumedAt q = None ∧
  now < q_expiresAt q ∧ q_userId q = userId ∧ is_Some (membershipOf workspaceId userId workspaces).

Lemma open_by_token code now (c : CQ) qid q :
  findOpenChallengeByToken chat_link (hashLinkCode sha256 code) now c = Some (qid, q) →
  docs c !! qid = Some q ∧ q_kind q = chat_link ∧ q_tokenHash q = hashLinkCode sha256 code ∧ q_consumedAt q = None ∧ now < q_expiresAt q.
Proof. intros [Hd Hp]%find_one_some. rewrite !andb_true_iff in Hp. destruct Hp as [[[Hk Ht] Hc] He]. apply Z.ltb_lt in He.
  apply bool_decide_eq_true in Hk, Hc. apply String.eqb_eq in Ht. done.
Qed.

(** A chat account becomes a person's only when somebody sends, from that
    account, an open code of that person, who is an active member of the chat's
    workspace; and the code is then spent: whoever sends it again, in whatever
    chat and at whatever time, links nothing. *)
Theorem links_are_earned workspaceId channelId message now (workspaces : CW) (users : CU) (db db' : Links) who :
  tokens_unique (ld_challenges db) →
  linkFromChat sha256 workspaceId channelId message now workspaces users db = (Some (la_linked who), db') →
  (∃ code challengeId q identityId identity,
     offeredLinkCode (im_text message) = Some code ∧ proves workspaceId code (q_userId q) now workspaces (ld_challenges db) challengeId q ∧
     docs (ld_people db) !! identityId = Some identity ∧ is_person channelId (im_senderRef message) identity = true ∧
     ci_userId <$> docs (ld_people db') !! identityId = Some (Some (q_userId q)) ∧
     (∀ other, other ≠ identityId → docs (ld_people db') !! other = docs (ld_people db) !! other)) ∧
  (∀ ws ch m later (workspaces' : CW) (users' : CU) (people : CP), offeredLinkCode (im_text m) = offeredLinkCode (im_text message) →
     (linkFromChat sha256 ws ch m later workspaces' users' {| ld_challenges := ld_challenges db'; ld_people := people |}).1 = Some la_wrong).
Proof.
  intros Huniq Hl. unfold linkFromChat in Hl. destruct (offeredLinkCode (im_text message)) as [code|] eqn:Hcode; [|done].
  destruct (findOpenChallengeByToken _ _ _ _) as [[qid q]|] eqn:Hq; [|done]. apply open_by_token in Hq as (Hqd & Hk & Ht & Hc & He).
  destruct (MAX_WRONG_GUESSES <=? q_attempts q); [done|]. destruct (membershipOf _ _ _) as [role|] eqn:Hm; [|done].
  destruct (findIdentity _ _ _) as [[iid identity]|] eqn:Hi; [|done]. apply find_one_some in Hi as [Hid Hperson].
  pose proof (updateOne_cases qid (λ d, bool_decide (q_consumedAt d = None)) (λ d, set_challenge (Some now) (q_attempts d) d) (ld_challenges db)) as Hu.
  unfold consumeChallenge in Hl. destruct (updateOne qid _ _ _) as [[] cq]; [|done]. injection Hl as _ <-. simpl.
  destruct Hu as [(q' & Hq' & _ & _ & Hcq)|(_ & ? & _)]; [|done]. simpl in Hcq. rewrite Hqd in Hq'. injection Hq' as <-.
  split.
  - exists code, qid, q, iid, identity. split; [done|]. split; [by split_and!; try done; eexists|].
    unfold setIdentityUser. split_and!; try done;
      match goal with |- context [updateOne ?i ?p ?f ?c] => destruct (updateOne_hit i p f c identity Hid eq_refl) as [_ ->] end.
    + by rewrite lookup_insert_eq.
    + intros other Hne. by rewrite lookup_insert_ne.
  - intros ws ch m later wk us people Hsame. unfold linkFromChat. rewrite Hsame. simpl.
    destruct (findOpenChallengeByToken _ _ later cq) as [[k e]|] eqn:Hf; [|done]. exfalso.
    apply open_by_token in Hf as (Hk' & _ & Ht' & Hc' & _). rewrite Hcq in Hk'.
    apply lookup_insert_Some in Hk' as [[<- <-]|[Hne Hk']]; [done|].
    apply Hne. eapply Huniq; [done..|]. congruence.
Qed.
End Earned.

(** ** Examples *)
Definition a_person : ChannelIdentityDoc := {|
  ci_workspaceId := "wks_1"; ci_channelId := "chn_1"; ci_externalUserId := "tg_7"; ci_chatRef := "chat_7"; ci_conversationId := "cnv_1";
  ci_label := "Ada"; ci_userId := None; ci_createdAt := 0; ci_lastSeenAt := 0 |}.
Definition code_message (text : string) : InboundMessage := {|
  im_chatRef := "chat_7"; im_senderRef := "tg_7"; im_senderLabel := "Ada"; im_text := text; im_audio := None; im_messageRef := "m1" |}.
Notation LinkRows := (@LinkDb (gmap string AuthChallengeDoc) (gmap string ChannelIdentityDoc)).
Definition link_rows : LinkRows := {|
  ld_challenges := (issueLinkCode id "ach_1" "ABCD2345" "usr_1" 0 (∅ : gmap string AuthChallengeDoc)).2; ld_people := {["idn_1" := a_person]} |}.
Definition acme_rows : gmap string WorkspaceDoc := {["wks_1" := new_workspace "Acme" "acme" "usr_1" 0]}.
Definition no_users : gmap string UserDoc := ∅.
Definition linked_rows : LinkRows := (linkFromChat id "wks_1" "chn_1" (code_message "link abcd2345") 1000 acme_rows no_users link_rows).2.

Lemma link_rows_unique : tokens_unique (ld_challenges link_rows).
Proof.
  assert (ld_challenges link_rows =
    {["ach_1" := {| q_userId := "usr_1"; q_kind := chat_link; q_tokenHash := hashLinkCode id "ABCD2345"; q_expiresAt := LINK_CODE_TTL_MS;
                    q_consumedAt := None; q_attempts := 0; q_createdAt := 0 |}]}) as -> by (vm_compute; reflexivity).
  intros id1 id2 d1 d2 H1 H2 _. cbn [docs map_collection] in H1, H2. apply lookup_singleton_Some in H1 as [<- _], H2 as [<- _]. done.
Qed.

Lemma links_are_earned_witness :
  ci_userId <$> ld_people linked_rows !! "idn_1" = Some (Some "usr_1") ∧
  (linkFromChat id "wks_1" "chn_1" (code_message "ABCD2345") 2000 acme_rows no_users linked_rows).1 = Some la_wrong.
Proof.
  assert (linkFromChat id "wks_1" "chn_1" (code_message "link abcd2345") 1000 acme_rows no_users link_rows =
          (Some (la_linked "your account"), linked_rows)) as Hl by (vm_compute; reflexivity).
  split; [vm_compute; reflexivity|].
  destruct (links_are_earned id "wks_1" "chn_1" (code_message "link abcd2345") 1000 acme_rows no_users link_rows linked_rows "your account"
              link_rows_unique Hl) as [_ Hspent].
  apply (Hspent "wks_1" "chn_1" (code_message "ABCD2345") 2000 acme_rows no_users (ld_people linked_rows)). vm_compute. reflexivity.
Defined.

(** However many wrong codes are sent, no challenge counts a guess: a wrong code finds none. *)
Example wrong_codes_are_not_counted :
  let guess db text := (linkFromChat id "wks_1" "chn_1" (code_message text) 1000 acme_rows no_users db).2 in
  let db := foldl guess link_rows ["AAAA2222"; "AAAA2223"; "AAAA2224"; "AAAA2225"; "AAAA2226"; "AAAA2227"] in
  q_attempts <$> ld_challenges db !! "ach_1" = Some 0 ∧
  (linkFromChat id "wks_1" "chn_1" (code_message "ABCD2345") 1000 acme_rows no_users db).1 = Some (la_linked "your account").
Proof. split; vm_compute; reflexivity. Qed.

(** A run waits for an approval; a press from its own chat decides it, a stranger's does not. *)
Definition waiting_runs : gmap string RunDoc := {["run_1" := set_status waiting_approval (new_run "run_1" sample_spec None 0)]}.
Definition waiting_approvals : gmap string ApprovalDoc := {["apv_1" := sample_approval "apv_1" "run_1" 100]}.
Definition press_by (sender : string) : InboundChoice := {|
  ic_chatRef := "chat_7"; ic_senderRef := sender; ic_senderLabel := "Ada"; ic_data := encodeDecision "apv_1" approve; ic_callbackRef := "cb";
  ic_messageRef := "m9"; ic_deliveryRef := "d9" |}.
Definition chat_people : gmap string ChannelIdentityDoc := {["idn_1" := a_person]}.

Example a_press_decides :
  (decideFromChat "chn_1" (press_by "tg_7") 50 [] chat_people waiting_runs waiting_approvals).1.1 = cd_decided approve ∧
  (decideFromChat "chn_1" (press_by "tg_8") 50 [] chat_people waiting_runs waiting_approvals).1.1 = cd_not_the_asker ∧
  (decideFromChat "chn_1" (press_by "tg_7") 101 [] chat_people waiting_runs waiting_approvals).1.1 = cd_expired.
Proof. split_and!; vm_compute; reflexivity. Qed.

Lemma only_the_asker_decides_witness :
  asked_by "chn_1" "tg_7" "cnv_1" chat_people ∧
  (∃ run', (decideFromChat "chn_1" (press_by "tg_7") 50 [] chat_people waiting_runs waiting_approvals).1.2 !! "run_1" = Some run' ∧
     run_status run' = queued).
Proof.
  pose proof (only_the_asker_decides "chn_1" (press_by "tg_7") 50 [] chat_people waiting_runs waiting_approvals) as Hd.
  destruct (decideFromChat "chn_1" (press_by "tg_7") 50 [] chat_people waiting_runs waiting_approvals) as [[r rs] aps] eqn:Hrun.
  assert (r = cd_decided approve) as -> by (transitivity (r, rs, aps).1.1; [done|rewrite <-Hrun; vm_compute; reflexivity]).
  destruct Hd as (aid & a & run & a' & Hdec & Ha & _ & _ & Hr & _ & Hask & _ & _ & _ & run' & Hr' & Hq & _).
  assert (decodeDecision (ic_data (press_by "tg_7")) = Some ("apv_1", approve)) as Hb by (vm_compute; reflexivity).
  rewrite Hb in Hdec. injection Hdec as <-.
  assert (waiting_approvals !! "apv_1" = Some (sample_approval "apv_1" "run_1" 100)) as Hap by apply lookup_singleton_eq.
  cbn [docs map_collection] in Ha, Hr, Hr'. rewrite Hap in Ha. injection Ha as <-.
  change (apv_runId _) with "run_1" in Hr, Hr'. split; [|exists run'; split; [exact Hr'|exact Hq]].
  assert (waiting_runs !! "run_1" = Some (set_status waiting_approval (new_run "run_1" sample_spec None 0))) as Hw by apply lookup_singleton_eq.
  rewrite Hw in Hr. injection Hr as <-. exact Hask.
Defined.
