(* ===== verification/Inbound.v ===== *)
(** * From a chat message to a run

    Models apps/web/src/lib/channel-inbound.ts for the connections of one
    workspace: judging a delivery, claiming it, the handshake, the bound chat,
    linking, hearing and starting a run, with apps/web/src/lib/agent-model.ts.
    What the platform adapters, the transcriber, the spending gate and the
    executor's trigger answer is given per delivery ([Env]); so is where a
    command fails, and whether it had taken effect by then.  What leaves the
    handler besides its response is a list of effects.  A reply never throws, so
    it cannot fail a delivery; the sentences are constructors. *)
From S2P Require Import Prelude Json Text Entities Principal Mongo RunQueue Approvals Resolver Access Accounts Billing Conversations Channels ChatApprovals.

(** ** Deliveries *)
Inductive InboundResult :=
| ir_message (message : InboundMessage) (ack : option string)
| ir_choice (choice : InboundChoice)
| ir_ignored
| ir_challenge (body : string)
| ir_rejected.

Record DeliveryOutcome := { do_status : Z; do_body : string }.
Definition plain_outcome (status : Z) (body : string) : DeliveryOutcome := {| do_status := status; do_body := body |}.

(** [offeredCode]: the last word, in upper case. *)
Definition offeredCode (text : string) : string := toUpperCase (default "" (last (fields_of (js_trim text)))).

(** What the transcriber and the platform make of a recording. *)
Inductive EarResult := ear_no_fetch | ear_no_token | ear_fetch_failed | ear_unconfigured | ear_failed (message : string) | ear_heard (text : string).

Inductive Reply :=
| rp_connected | rp_bad_code | rp_other_chat | rp_link (attempt : LinkAttempt) | rp_ear (r : EarResult) | rp_no_agent | rp_no_model
| rp_refused | rp_decision (d : ChatDecision).

Inductive Effect :=
| ef_reply (chatRef : string) (reply : Reply)
| ef_typing (chatRef : string)
| ef_run (runId : string)
| ef_wake (runId : string).

(** The commands that may fail. *)
Inductive FailPoint :=
| fp_claim | fp_record | fp_handshake | fp_link | fp_hear | fp_agent | fp_gate | fp_identity | fp_conversation | fp_person
| fp_append | fp_snapshot | fp_create | fp_trigger | fp_attach | fp_release | fp_failure | fp_decide.
Inductive Fault := works | fails (landed : bool).

Record AgentRow := { ag_modelBindingId : option string; ag_versionId : string; ag_modelRole : string; ag_snapshot : AgentSnapshot }.

Record Env := {
  ev_now : Z;
  ev_ids : string * string * string * string;   (* event, conversation, message, run *)
  ev_confirm : option bool;
  ev_ear : EarResult;
  ev_agent : option AgentRow;
  ev_bindings : list ModelBindingDoc;
  ev_allowed : bool;
  ev_lost : option (list PeopleWrite);
  ev_refreshed : option string;
  ev_faults : FailPoint → Fault;
}.
Definition ev_eventId (e : Env) : string := (ev_ids e).1.1.1.
Definition ev_conversationId (e : Env) : string := (ev_ids e).1.1.2.
Definition ev_messageId (e : Env) : string := (ev_ids e).1.2.
Definition ev_runId (e : Env) : string := (ev_ids e).2.

(** ** Which model an assistant thinks with *)
Definition find_binding (bindingId : string) (bindings : list ModelBindingDoc) : option ModelBindingDoc :=
  find (λ b, String.eqb (mb_id b) bindingId) bindings.
Definition modelForAgent (bindings : list ModelBindingDoc) (agent : AgentRow) : option ModelBindingDoc :=
  match ag_modelBindingId agent ≫= λ id, find_binding id bindings with
  | Some chosen => if mb_enabled chosen then Some chosen else forRole (ag_modelRole agent) bindings
  | None => forRole (ag_modelRole agent) bindings
  end.

Declare Scope inbound_scope.
Delimit Scope inbound_scope with inbound.

Section Inbound.
Context {CC CE CP CV CM CR CA CQ CW CU : Type}.
Context `{CollectionLaws ChannelDoc CC, CollectionLaws ChannelEventDoc CE, CollectionLaws ChannelIdentityDoc CP,
          CollectionLaws ConversationDoc CV, CollectionLaws Message CM, CollectionLaws RunDoc CR, CollectionLaws ApprovalDoc CA,
          CollectionLaws AuthChallengeDoc CQ, CollectionLaws WorkspaceDoc CW, CollectionLaws UserDoc CU}.
Context (sha256 : string → string) (genId : CP → string) (workspaceId : string) (workspaces : CW) (users : CU).

Record InboundDb := {
  ib_channels : CC; ib_events : CE; ib_people : CP; ib_conversations : @ConversationDb CV CM; ib_runs : CR; ib_approvals : CA; ib_challenges : CQ }.
Implicit Types db : InboundDb.

Definition on_channels (c : CC) db : InboundDb := {|
  ib_channels := c; ib_events := ib_events db; ib_people := ib_people db; ib_conversations := ib_conversations db; ib_runs := ib_runs db;
  ib_approvals := ib_approvals db; ib_challenges := ib_challenges db |}.
Definition on_events (c : CE) db : InboundDb := {|
  ib_channels := ib_channels db; ib_events := c; ib_people := ib_people db; ib_conversations := ib_conversations db; ib_runs := ib_runs db;
  ib_approvals := ib_approvals db; ib_challenges := ib_challenges db |}.
Definition on_people (c : CP) db : InboundDb := {|
  ib_channels := ib_channels db; ib_events := ib_events db; ib_people := c; ib_conversations := ib_conversations db; ib_runs := ib_runs db;
  ib_approvals := ib_approvals db; ib_challenges := ib_challenges db |}.
Definition on_conversations (c : @ConversationDb CV CM) db : InboundDb := {|
  ib_channels := ib_channels db; ib_events := ib_events db; ib_people := ib_people db; ib_conversations := c; ib_runs := ib_runs db;
  ib_approvals := ib_approvals db; ib_challenges := ib_challenges db |}.
Definition on_runs (c : CR) db : InboundDb := {|
  ib_channels := ib_channels db; ib_events := ib_events db; ib_people := ib_people db; ib_conversations := ib_conversations db; ib_runs := c;
  ib_approvals := ib_approvals db; ib_challenges := ib_challenges db |}.
Definition on_approvals (c : CA) db : InboundDb := {|
  ib_channels := ib_channels db; ib_events := ib_events db; ib_people := ib_people db; ib_conversations := ib_conversations db; ib_runs := ib_runs db;
  ib_approvals := c; ib_challenges := ib_challenges db |}.
Definition on_challenges_of (c : CQ) db : InboundDb := {|
  ib_channels := ib_channels db; ib_events := ib_events db; ib_people := ib_people db; ib_conversations := ib_conversations db; ib_runs := ib_runs db;
  ib_approvals := ib_approvals db; ib_challenges := c |}.

(** ** Handlers: state, effects, and an exception that escapes *)
Definition H_ (A : Type) : Type := InboundDb → outcome unit A * list Effect * InboundDb.
Definition hret {A} (a : A) : H_ A := λ db, (Ret a, [], db).
Definition hthrow {A} : H_ A := λ db, (Throw (), [], db).
Definition hbind {A B} (m : H_ A) (k : A → H_ B) : H_ B :=
  λ db, match m db with
        | (Ret a, es, db1) => let '(r, es', db2) := k a db1 in (r, es ++ es', db2)
        | (Throw e, es, db1) => (Throw e, es, db1)
        end.
Definition say (es : list Effect) : H_ unit := λ db, (Ret (), es, db).

Context (e : Env).
(** A command that may fail, before it took effect or after. *)
Definition cmd {A} (p : FailPoint) (f : InboundDb → A * InboundDb) : H_ A :=
  λ db, match ev_faults e p with
        | works => let '(a, db') := f db in (Ret a, [], db')
        | fails landed => (Throw (), [], if landed then (f db).2 else db)
        end.
Definition write (p : FailPoint) (f : InboundDb → InboundDb) : H_ unit := cmd p (λ db, ((), f db)).
Definition reply (chatRef : string) (r : Reply) : H_ unit := say [ef_reply chatRef r].

Local Notation "'fetch' x := m 'in' k" := (hbind m (λ x, k)) (at level 200, x name, m at level 100, k at level 200) : inbound_scope.
Local Notation "m '>>' k" := (hbind m (λ _, k)) (at level 100, k at level 200, right associativity) : inbound_scope.
Open Scope inbound_scope.

(** *** The handshake *)
Definition completeHandshake (channelId : string) (message : InboundMessage) : H_ unit :=
  fetch claimed := cmd fp_handshake (λ db,
      let '(r, c) := Channels.claim workspaceId channelId (offeredCode (im_text message)) (im_chatRef message) (ev_now e) (ib_channels db) in
      (r, on_channels c db)) in
  match claimed with
  | None => reply (im_chatRef message) rp_bad_code
  | Some _ => reply (im_chatRef message) rp_connected
  end.

(** *** Words *)
Definition hear (message : InboundMessage) : H_ (option InboundMessage) :=
  match im_audio message with
  | None => hret (Some message)
  | Some _ =>
      cmd fp_hear (λ db, ((), db)) >>
      reply (im_chatRef message) (rp_ear (ev_ear e)) >>
      match ev_ear e with
      | ear_heard text =>
          let typed := js_trim (im_text message) in
          hret (Some {| im_chatRef := im_chatRef message; im_senderRef := im_senderRef message; im_senderLabel := im_senderLabel message;
                        im_text := if String.eqb typed "" then text else typed +:+ String "010" (String "010" "") +:+ text;
                        im_audio := im_audio message; im_messageRef := im_messageRef message |})
      | _ => hret None
      end
  end.

(** *** The run *)
Definition principal_of (identityId : string) (identity : ChannelIdentityDoc) : Principal :=
  PChannelIdentity identityId workspaceId (ci_userId identity) (match ci_userId identity with None => unlinked | Some _ => linked end).

Definition run_spec_of (row : ChannelDoc) (message : InboundMessage) (agent : AgentRow) (binding : ModelBindingDoc) (conversationId : string)
    (principal : Principal) : RunSpec := {|
  sp_workspaceId := workspaceId; sp_conversationId := conversationId; sp_agentId := ch_agentId row; sp_agentVersionId := ag_versionId agent;
  sp_agentSnapshot := ag_snapshot agent; sp_modelBindingId := mb_id binding;
  sp_trigger := (tr_channel, Some (ch_type row +:+ ":" +:+ im_senderRef message)); sp_principal := principal; sp_budget := DEFAULT_BUDGET;
  sp_parentRunId := None; sp_depth := 0; sp_idempotencyKey := None; sp_queuedAt := ev_now e |}.

Definition user_message (channelId conversationId : string) (message : InboundMessage) : AppendInput := {|
  ai_conversationId := conversationId; ai_role := RUser; ai_content := [BText (im_text message)]; ai_providerArtifacts := None;
  ai_runId := None; ai_tokenEstimate := None; ai_clientMessageId := Some (channelId +:+ ":" +:+ im_messageRef message) |}.

Definition thread_of (row : ChannelDoc) (channelId : string) (message : InboundMessage) (binding : ModelBindingDoc) : H_ string :=
  fetch existing := cmd fp_identity (λ db, (findIdentity channelId (im_senderRef message) (ib_people db), db)) in
  match existing with
  | Some (_, identity) => hret (ci_conversationId identity)
  | None =>
      fetch created := cmd fp_conversation (λ db,
          let '(ok, cv) := create_conversation (ev_conversationId e)
              {| nc_agentId := ch_agentId row; nc_modelBindingId := mb_id binding;
                 nc_title := Some (im_senderLabel message +:+ " on " +:+ ch_type row); nc_channelId := Some channelId;
                 nc_externalRef := Some (im_chatRef message); nc_createdBy := None |} (ev_now e) (cd_conversations (ib_conversations db)) in
          (ok, on_conversations {| cd_conversations := cv; cd_messages := cd_messages (ib_conversations db) |} db)) in
      if created then hret (ev_conversationId e) else hthrow
  end.

(** The insert of the run, an effect as soon as it lands. *)
Definition create_run (spec : RunSpec) : H_ bool := λ db,
  let '(ok, c) := insertOne idempotency_clash (ev_runId e) (new_run (ev_runId e) spec None (ev_now e)) (ib_runs db) in
  let es := if ok : bool then [ef_run (ev_runId e)] else [] in
  match ev_faults e fp_create with
  | works => (Ret ok, es, on_runs c db)
  | fails true => (Throw (), es, on_runs c db)
  | fails false => (Throw (), [], db)
  end.

(** The run is queued and an executor woken. *)
Definition queue_run (spec : RunSpec) : H_ (option string) :=
  cmd fp_snapshot (λ db, ((), db)) >>
  fetch created := create_run spec in
  if negb created then hthrow
  else cmd fp_trigger (λ db, ((), db)) >> say [ef_wake (ev_runId e)] >> hret (Some (ev_runId e)).

(** The thread, the person, the message, the run. *)
Definition converse (row : ChannelDoc) (channelId : string) (message : InboundMessage) (agent : AgentRow) (binding : ModelBindingDoc)
    : H_ (option string) :=
  fetch conversationId := thread_of row channelId message binding in
  fetch linked := cmd fp_person (λ db,
      let '(r, c) := linkIdentity workspaceId genId
          {| li_channelId := channelId; li_externalUserId := im_senderRef message; li_chatRef := im_chatRef message;
             li_conversationId := conversationId; li_label := im_senderLabel message |} (ev_now e) (ev_lost e) [] (ib_people db) in
      (r, on_people c db)) in
  match linked with
  | Throw _ => hthrow
  | Ret (identityId, identity) =>
      fetch appended := cmd fp_append (λ db,
          let '(r, c) := append_message sha256 (ev_messageId e) (user_message channelId conversationId message) (ev_now e) (ib_conversations db) in
          (r, on_conversations c db)) in
      match appended with
      | Throw _ => hthrow
      | Ret _ => queue_run (run_spec_of row message agent binding conversationId (principal_of identityId identity))
      end
  end.

Definition startRun (row : ChannelDoc) (channelId : string) (message : InboundMessage) : H_ (option string) :=
  cmd fp_agent (λ db, ((), db)) >>
  match ev_agent e with
  | None => reply (im_chatRef message) rp_no_agent >> hret None
  | Some agent =>
      match match ch_modelBindingId row with
            | Some id => find_binding id (ev_bindings e)
            | None => modelForAgent (ev_bindings e) agent
            end with
      | None => reply (im_chatRef message) rp_no_model >> hret None
      | Some binding =>
          cmd fp_gate (λ db, ((), db)) >>
          if negb (ev_allowed e) then reply (im_chatRef message) rp_refused >> hret None
          else converse row channelId message agent binding
      end
  end.

(** *** One delivery *)
Definition ok_outcome : DeliveryOutcome := plain_outcome 200 "ok".

(** A command whose failure is swallowed. *)
Definition attempt (p : FailPoint) (f : InboundDb → InboundDb) : H_ unit := λ db,
  (Ret (), [], match ev_faults e p with works | fails true => f db | fails false => db end).

(** The catch block: the claim is given back, the failure recorded, the error rethrown. *)
Definition after_failure (channelId messageRef : string) : H_ unit :=
  attempt fp_release (λ db, on_events (releaseDelivery channelId messageRef (ib_events db)) db) >>
  attempt fp_failure (λ db, on_channels (recordFailure workspaceId channelId "error" (ev_now e) (ib_channels db)) db).

Definition giving_back {A} (channelId messageRef : string) (m : H_ A) : H_ A := λ db,
  match m db with
  | (Throw err, es, db1) => (Throw err, es, (after_failure channelId messageRef db1).2)
  | r => r
  end.

Definition claim_delivery (channelId externalEventId : string) : H_ bool :=
  cmd fp_claim (λ db, let '(mine, c) := claimDelivery (ev_eventId e) channelId externalEventId (ev_now e) (ib_events db) in (mine, on_events c db)).

Definition link_attempt (channelId : string) (message : InboundMessage) : H_ (option LinkAttempt) :=
  cmd fp_link (λ db,
    let '(r, l) := linkFromChat sha256 workspaceId channelId message (ev_now e) workspaces users
                     {| ld_challenges := ib_challenges db; ld_people := ib_people db |} in
    (r, on_challenges_of (ld_challenges l) (on_people (ld_people l) db))).

(** What is done with a message once its delivery is claimed. *)
Definition act_on_message (row : ChannelDoc) (channelId : string) (message : InboundMessage) : H_ unit :=
  if negb (bool_decide (ch_status row = connected)) then completeHandshake channelId message
  else if match ch_verifiedChatRef row with Some chat => negb (String.eqb chat (im_chatRef message)) | None => false end then
    reply (im_chatRef message) rp_other_chat
  else
    fetch link := link_attempt channelId message in
    match link with
    | Some attempt => reply (im_chatRef message) (rp_link attempt)
    | None =>
        fetch heard := hear message in
        match heard with
        | None => hret ()
        | Some message =>
            say [ef_typing (im_chatRef message)] >>
            fetch run := startRun row channelId message in
            match run with
            | Some runId => write fp_attach (λ db, on_events (attachRun channelId (im_messageRef message) runId (ib_events db)) db)
            | None => hret ()
            end
        end
    end.

(** The press of a button. *)
Definition act_on_choice (row : ChannelDoc) (channelId : string) (choice : InboundChoice) : H_ DeliveryOutcome :=
  fetch mine := claim_delivery channelId (ic_deliveryRef choice) in
  if negb mine || negb (bool_decide (ch_status row = connected)) then hret ok_outcome
  else
    fetch decided := cmd fp_decide (λ db,
        let '(r, runs, approvals) := decideFromChat channelId choice (ev_now e) [] (ib_people db) (ib_runs db) (ib_approvals db) in
        (r, on_runs runs (on_approvals approvals db))) in
    say [ef_reply (ic_chatRef choice) (rp_decision decided)] >> hret ok_outcome.

Definition act (row : ChannelDoc) (channelId : string) (judged : InboundResult) : H_ DeliveryOutcome :=
  match judged with
  | ir_rejected => hret (plain_outcome 401 "unauthorized")
  | ir_challenge body => hret (plain_outcome 200 body)
  | ir_ignored => hret ok_outcome
  | ir_choice choice => act_on_choice row channelId choice
  | ir_message message ack =>
      match ev_confirm e with
      | Some false => hret (plain_outcome 401 "unauthorized")
      | _ =>
          let done_ := match ack with None => ok_outcome | Some body => plain_outcome 200 body end in
          fetch mine := claim_delivery channelId (im_messageRef message) in
          if negb mine then hret done_
          else
            write fp_record (λ db, on_channels (recordDelivery workspaceId channelId (ev_now e) (ib_channels db)) db) >>
            giving_back channelId (im_messageRef message) (act_on_message row channelId message) >>
            hret done_
      end
  end.

Definition WEBHOOK_SPEC : Z := 3.

(** [handleDelivery], for what the adapter has judged the request to be. *)
Definition handleDelivery (type channelId : string) (judged : InboundResult) : H_ DeliveryOutcome := λ db,
  match findById workspaceId channelId (ib_channels db) with
  | Some row =>
      if String.eqb (ch_type row) type then
        let db1 := match judged, ev_refreshed e with
                   | ir_rejected, _ | _, None => db
                   | _, Some url => on_channels (recordWebhook workspaceId channelId url (Some WEBHOOK_SPEC) (ev_now e) (ib_channels db)) db
                   end in
        act row channelId judged db1
      else (Ret (plain_outcome 404 "unknown channel"), [], db)
  | None => (Ret (plain_outcome 404 "unknown channel"), [], db)
  end.

(** ** What a delivery keeps

    People keep their threads and messages stay, whatever a handler does and
    wherever it fails. *)
Context (genId_fresh : ∀ c : CP, docs c !! genId c = None).

Record grows (db db' : InboundDb) : Prop := {
  grows_unique : people_unique (ib_people db) → people_unique (ib_people db');
  grows_threads : people_unique (ib_people db) → ∀ id d, docs (ib_people db) !! id = Some d →
    ∃ d', docs (ib_people db') !! id = Some d' ∧ same_thread d d';
  grows_messages : ∀ id, is_Some (docs (cd_messages (ib_conversations db)) !! id) → is_Some (docs (cd_messages (ib_conversations db')) !! id);
}.

#[local] Instance grows_refl : Reflexive grows.
Proof. split; [done| |done]. intros _ id d Hd. by exists d. Qed.
#[local] Instance grows_trans : Transitive grows.
Proof.
  intros x y z [U1 T1 M1] [U2 T2 M2]. split; [by auto| |by auto].
  intros Hu id d Hd. destruct (T1 Hu id d Hd) as (d1 & Hd1 & P1 & C1 & A1). destruct (T2 (U1 Hu) id d1 Hd1) as (d2 & Hd2 & P2 & C2 & A2).
  exists d2. split; [done|]. split_and!; congruence.
Qed.

(** Handlers that stay within a preorder on states, wherever they fail. *)
Record Frame := { frame_rel :> InboundDb → InboundDb → Prop; frame_refl :: Reflexive frame_rel; frame_trans :: Transitive frame_rel }.

Section Within.
Context (R : Frame).
Definition keeps {A} (m : H_ A) : Prop := ∀ db, R db (m db).2.

Lemma keeps_ret {A} (a : A) : keeps (hret a). Proof. intros db. reflexivity. Qed.
Lemma keeps_throw {A} : keeps (@hthrow A). Proof. intros db. reflexivity. Qed.
Lemma keeps_say es : keeps (say es). Proof. intros db. reflexivity. Qed.
Lemma keeps_reply chat r : keeps (reply chat r). Proof. apply keeps_say. Qed.
Lemma keeps_bind {A B} (m : H_ A) (k : A → H_ B) : keeps m → (∀ a, keeps (k a)) → keeps (hbind m k).
Proof.
  intros Hm Hk db. unfold hbind. specialize (Hm db). destruct (m db) as [[[a|err] es] db1]; [|done].
  specialize (Hk a db1). destruct (k a db1) as [[r es'] db2]. simpl in *. by etrans.
Qed.
Lemma keeps_cmd {A} p (f : InboundDb → A * InboundDb) : (∀ db, R db (f db).2) → keeps (cmd p f).
Proof. intros Hf db. unfold cmd. specialize (Hf db). destruct (ev_faults e p) as [|[]], (f db) as [a db']; simpl in *; [done|done|reflexivity]. Qed.
Lemma keeps_attempt p f : (∀ db, R db (f db)) → keeps (attempt p f).
Proof. intros Hf db. unfold attempt. destruct (ev_faults e p) as [|[]]; simpl; [apply Hf|apply Hf|reflexivity]. Qed.
Lemma keeps_nothing p : keeps (cmd p (λ db, ((), db))).
Proof. apply keeps_cmd. intros db. reflexivity. Qed.
Lemma keeps_answer {A} chat r (a : A) : keeps (hbind (reply chat r) (λ _, hret a)).
Proof. apply keeps_bind; [apply keeps_reply|intros _; apply keeps_ret]. Qed.
Lemma keeps_hear message : keeps (hear message).
Proof.
  unfold hear. destruct (im_audio message); [|apply keeps_ret]. apply keeps_bind; [apply keeps_nothing|intros _].
  apply keeps_bind; [apply keeps_reply|intros _]. destruct (ev_ear e); apply keeps_ret.
Qed.

(** What it takes of the commands that a started run consists of. *)
Lemma keeps_startRun row channelId message :
  (∀ agent binding, keeps (converse row channelId message agent binding)) → keeps (startRun row channelId message).
Proof.
  intros Hc. apply keeps_bind; [apply keeps_nothing|intros _]. destruct (ev_agent e) as [agent|]; [|apply keeps_answer].
  destruct (match ch_modelBindingId row with Some _ => _ | None => _ end) as [binding|]; [|apply keeps_answer].
  apply keeps_bind; [apply keeps_nothing|intros _]. destruct (negb (ev_allowed e)); [apply keeps_answer|apply Hc].
Qed.
End Within.

Definition growing : Frame := {| frame_rel := grows; frame_refl := grows_refl; frame_trans := grows_trans |}.

Lemma grows_channels c db : grows db (on_channels c db). Proof. split; [done| |done]. intros _ id d Hd. by exists d. Qed.
Lemma grows_events c db : grows db (on_events c db). Proof. split; [done| |done]. intros _ id d Hd. by exists d. Qed.
Lemma grows_runs c db : grows db (on_runs c db). Proof. split; [done| |done]. intros _ id d Hd. by exists d. Qed.
Lemma grows_approvals c db : grows db (on_approvals c db). Proof. split; [done| |done]. intros _ id d Hd. by exists d. Qed.
Lemma grows_challenges c db : grows db (on_challenges_of c db). Proof. split; [done| |done]. intros _ id d Hd. by exists d. Qed.

Lemma grows_people ws db :
  Forall (λ w, match w with pw_disconnect _ => False | _ => True end) ws →
  grows db (on_people (foldl (people_write workspaceId genId) (ib_people db) ws) db).
Proof.
  intros Hws. split; simpl; [|..|done].
  - intros Hu. by apply (writes_keep_threads workspaceId genId genId_fresh).
  - intros Hu id d Hd. destruct (writes_keep_threads workspaceId genId genId_fresh ws (ib_people db) Hu) as [_ Hk].
    apply (Hk id d Hd). eapply Forall_impl; [done|]. intros w Hw Hc. by destruct w.
Qed.

Lemma grows_messages_only cd db :
  (∀ id, is_Some (docs (cd_messages (ib_conversations db)) !! id) → is_Some (docs (cd_messages cd) !! id)) → grows db (on_conversations cd db).
Proof. intros Hm. split; [done| |done]. intros _ id d Hd. by exists d. Qed.

Lemma append_grows newId input now db :
  grows db (on_conversations (append_message sha256 newId input now (ib_conversations db)).2 db).
Proof.
  apply grows_messages_only. intros id Hid. unfold append_message. destruct (allocateSeq _ _) as [[seq|] cv]; [|done].
  destruct (insert_message_cases (message_doc sha256 newId input seq now) (cd_messages (ib_conversations db))) as [(_ & _ & Hd)|[_ Hd]];
    destruct (insert_message _ _) as [[] cm]; simpl in *; rewrite Hd; try done; apply lookup_insert_is_Some'; auto.
Qed.

Lemma link_people channelId message now db :
  ∃ ws, Forall (λ w, match w with pw_disconnect _ => False | _ => True end) ws ∧
    ld_people (linkFromChat sha256 workspaceId channelId message now workspaces users
                 {| ld_challenges := ib_challenges db; ld_people := ib_people db |}).2 = foldl (people_write workspaceId genId) (ib_people db) ws.
Proof.
  unfold linkFromChat. repeat case_match; simplify_eq/=; try (by exists []).
  all: match goal with |- context [setIdentityUser ?i ?u _] => by exists [pw_setUser i u]; repeat constructor end.
Qed.

Lemma keeps_link channelId message : keeps growing (link_attempt channelId message).
Proof.
  apply keeps_cmd. intros db. destruct (link_people channelId message (ev_now e) db) as (ws & Hws & Hp).
  destruct (linkFromChat _ _ _ _ _ _ _ _) as [r l]. simpl in *. rewrite Hp.
  etrans; [by apply grows_people|apply grows_challenges].
Qed.

Context (alone : ev_lost e = None).

Lemma linkIdentity_alone input now c :
  linkIdentity workspaceId genId input now (ev_lost e) [] c =
  (match findIdentity (li_channelId input) (li_externalUserId input) (link_once workspaceId genId input now c) with
   | Some row => Ret row
   | None => Throw ce_vanished
   end, link_once workspaceId genId input now c).
Proof. unfold linkIdentity. by rewrite alone. Qed.

Lemma keeps_handshake channelId message : keeps growing (completeHandshake channelId message).
Proof.
  apply keeps_bind; [apply keeps_cmd; intros db|intros []; apply keeps_reply].
  destruct (Channels.claim _ _ _ _ _ _) as [r c]. apply grows_channels.
Qed.

Lemma keeps_thread row channelId message binding : keeps growing (thread_of row channelId message binding).
Proof.
  apply keeps_bind; [apply keeps_cmd; intros db; reflexivity|]. intros [[id d]|]; [apply keeps_ret|].
  apply keeps_bind; [apply keeps_cmd; intros db|intros []; [apply keeps_ret|apply keeps_throw]].
  destruct (create_conversation _ _ _ _) as [ok cv]. by apply grows_messages_only.
Qed.

Lemma keeps_create spec : keeps growing (create_run spec).
Proof.
  intros db. unfold create_run. destruct (insertOne _ _ _ _) as [ok c].
  destruct (ev_faults e fp_create) as [|[]]; simpl; [apply grows_runs|apply grows_runs|reflexivity].
Qed.

Lemma keeps_queue spec : keeps growing (queue_run spec).
Proof.
  apply keeps_bind; [apply keeps_nothing|intros _]. apply keeps_bind; [apply keeps_create|]. intros []; [|apply keeps_throw].
  apply keeps_bind; [apply keeps_nothing|intros _]. apply keeps_bind; [apply keeps_say|intros _; apply keeps_ret].
Qed.

Lemma keeps_converse row channelId message agent binding : keeps growing (converse row channelId message agent binding).
Proof.
  apply keeps_bind; [apply keeps_thread|intros conv]. apply keeps_bind.
  { apply keeps_cmd. intros db. rewrite linkIdentity_alone. simpl.
    apply (grows_people [pw_link _ (ev_now e)]). by repeat constructor. }
  intros [[iid idn]|]; [|apply keeps_throw]. apply keeps_bind.
  { apply keeps_cmd. intros db. pose proof (append_grows (ev_messageId e) (user_message channelId conv message) (ev_now e) db) as Hg.
    by destruct (append_message _ _ _ _ _). }
  intros [m|]; [apply keeps_queue|apply keeps_throw].
Qed.

Lemma keeps_giving_back {A} channelId ref (m : H_ A) : keeps growing m → keeps growing (giving_back channelId ref m).
Proof.
  intros Hm db. unfold giving_back. specialize (Hm db). destruct (m db) as [[[a|err] es] db1]; [done|]. simpl in *.
  etrans; [done|]. apply (keeps_bind growing (attempt fp_release _) (λ _, attempt fp_failure _)); [|intros _]; apply keeps_attempt; intros;
    [apply grows_events|apply grows_channels].
Qed.

Lemma keeps_act_on_message row channelId message : keeps growing (act_on_message row channelId message).
Proof.
  unfold act_on_message. destruct (negb _); [apply keeps_handshake|].
  destruct (match ch_verifiedChatRef row with Some _ => _ | None => _ end); [apply keeps_reply|].
  apply keeps_bind; [apply keeps_link|]. intros [att|]; [apply keeps_reply|].
  apply keeps_bind; [apply keeps_hear|]. intros [m|]; [|apply keeps_ret].
  apply keeps_bind; [apply keeps_say|intros _]. apply keeps_bind; [apply keeps_startRun; intros; apply keeps_converse|].
  intros [rid|]; [|apply keeps_ret]. apply keeps_cmd. intros db. apply grows_events.
Qed.

Lemma keeps_claim channelId ref : keeps growing (claim_delivery channelId ref).
Proof. apply keeps_cmd. intros db. destruct (claimDelivery _ _ _ _ _). apply grows_events. Qed.

Lemma keeps_act row channelId judged : keeps growing (act row channelId judged).
Proof.
  destruct judged as [message ack|choice| | |]; simpl; try apply keeps_ret.
  - destruct (ev_confirm e) as [[]|]; try apply keeps_ret;
      (apply keeps_bind; [apply keeps_claim|]; intros []; [|apply keeps_ret]; simpl;
       apply keeps_bind; [apply keeps_cmd; intros db; apply grows_channels|intros _];
       apply keeps_bind; [apply keeps_giving_back, keeps_act_on_message|intros _; apply keeps_ret]).
  - apply keeps_bind; [apply keeps_claim|]. intros mine. destruct (_ || _); [apply keeps_ret|].
    apply keeps_bind; [|intros d; apply keeps_bind; [apply keeps_say|intros _; apply keeps_ret]].
    apply keeps_cmd. intros db. destruct (decideFromChat _ _ _ _ _ _ _) as [[r runs] approvals]. simpl.
    etrans; [apply grows_approvals|apply grows_runs].
Qed.

Lemma keeps_handleDelivery type channelId judged : keeps growing (handleDelivery type channelId judged).
Proof.
  intros db. unfold handleDelivery. destruct (findById _ _ _) as [row|]; [|reflexivity]. destruct (String.eqb _ _); [|reflexivity].
  etrans; [|apply keeps_act]. destruct judged, (ev_refreshed e); try reflexivity; apply grows_channels.
Qed.

(** *** Claims: handling a message leaves them as they are *)
Definition claims_in (c : CE) : gmap string (string * string * Z) :=
  (λ d, (ce_channelId d, ce_externalEventId d, ce_receivedAt d)) <$> docs c.
Definition same_claims (db db' : InboundDb) : Prop := claims_in (ib_events db) = claims_in (ib_events db').
#[local] Instance same_claims_refl : Reflexive same_claims. Proof. by intros db. Qed.
#[local] Instance same_claims_trans : Transitive same_claims. Proof. intros x y z. unfold same_claims. congruence. Qed.
Definition claiming : Frame := {| frame_rel := same_claims; frame_refl := same_claims_refl; frame_trans := same_claims_trans |}.

Lemma attach_claims channelId ref runId (c : CE) : claims_in c = claims_in (attachRun channelId ref runId c).
Proof.
  unfold attachRun, claims_in. destruct (find_one _ c) as [[id d]|] eqn:Hf; [|done]. apply find_one_some in Hf as [Hd _].
  set (f := λ d, Build_ChannelEventDoc _ _ _ _). destruct (updateOne_hit id (λ _, true) f c d Hd eq_refl) as [_ ->].
  rewrite fmap_insert. symmetry. apply insert_id. rewrite lookup_fmap, Hd. done.
Qed.

Lemma claiming_converse row channelId message agent binding : keeps claiming (converse row channelId message agent binding).
Proof.
  apply keeps_bind.
  { apply keeps_bind; [apply keeps_cmd; by intros db|]. intros [[id d]|]; [apply keeps_ret|].
    apply keeps_bind; [apply keeps_cmd; intros db|intros []; [apply keeps_ret|apply keeps_throw]]. by destruct (create_conversation _ _ _ _). }
  intros conv. apply keeps_bind; [apply keeps_cmd; intros db; by destruct (linkIdentity _ _ _ _ _ _ _)|].
  intros [[iid idn]|]; [|apply keeps_throw].
  apply keeps_bind; [apply keeps_cmd; intros db; by destruct (append_message _ _ _ _ _)|]. intros [m|]; [|apply keeps_throw].
  apply keeps_bind; [apply keeps_nothing|intros _]. apply keeps_bind.
  { intros db. unfold create_run. by destruct (insertOne _ _ _ _) as [ok c], (ev_faults e fp_create) as [|[]]. }
  intros []; [|apply keeps_throw]. apply keeps_bind; [apply keeps_nothing|intros _]. apply keeps_bind; [apply keeps_say|intros _; apply keeps_ret].
Qed.

Lemma claiming_message row channelId message : keeps claiming (act_on_message row channelId message).
Proof.
  unfold act_on_message. destruct (negb _).
  { apply keeps_bind; [apply keeps_cmd; intros db|intros []; apply keeps_reply]. by destruct (Channels.claim _ _ _ _ _ _). }
  destruct (match ch_verifiedChatRef row with Some _ => _ | None => _ end); [apply keeps_reply|].
  apply keeps_bind; [apply keeps_cmd; intros db; by destruct (linkFromChat _ _ _ _ _ _ _ _)|]. intros [att|]; [apply keeps_reply|].
  apply keeps_bind; [apply keeps_hear|]. intros [m|]; [|apply keeps_ret].
  apply keeps_bind; [apply keeps_say|intros _]. apply keeps_bind; [apply keeps_startRun; intros; apply claiming_converse|].
  intros [rid|]; [|apply keeps_ret]. apply keeps_cmd. intros db. apply attach_claims.
Qed.

(** The claim that was added is the one given back. *)
Lemma release_undoes channelId ref now id (c c' : CE) :
  docs c !! id = None → (∀ k d, docs c !! k = Some d → is_event channelId ref d = false) →
  claims_in c' = <[id := (channelId, ref, now)]> (claims_in c) → claims_in (releaseDelivery channelId ref c') = claims_in c.
Proof.
  intros Hid Hnone Hc'. unfold releaseDelivery.
  assert (∀ k d, docs c' !! k = Some d → is_event channelId ref d = true → k = id) as Honly.
  { intros k d Hd Hev. destruct (decide (k = id)) as [|Hne]; [done|].
    assert (claims_in c' !! k = Some (ce_channelId d, ce_externalEventId d, ce_receivedAt d)) as Hk by (unfold claims_in; by rewrite lookup_fmap, Hd).
    rewrite Hc', lookup_insert_ne in Hk by done. unfold claims_in in Hk. rewrite lookup_fmap in Hk.
    destruct (docs c !! k) as [d0|] eqn:Hd0; [|done]. injection Hk as E1 E2 _.
    specialize (Hnone k d0 Hd0). unfold is_event in *. by rewrite E1, E2, Hev in Hnone. }
  assert (∃ d, docs c' !! id = Some d ∧ is_event channelId ref d = true) as (d & Hd & Hev).
  { assert (claims_in c' !! id = Some (channelId, ref, now)) as Hk by (by rewrite Hc', lookup_insert_eq).
    unfold claims_in in Hk. rewrite lookup_fmap in Hk. destruct (docs c' !! id) as [d|]; [|done]. injection Hk as E1 E2 _.
    exists d. unfold is_event. by rewrite E1, E2, !String.eqb_refl. }
  rewrite (find_one_unique _ _ id d) by eauto. unfold claims_in in *.
  destruct (deleteOne_hit id (λ _, true) c' d Hd eq_refl) as [_ ->]. rewrite fmap_delete, Hc', delete_insert_id; [done|].
  by rewrite lookup_fmap, Hid.
Qed.

Lemma failed_act row channelId message ack db err es db' :
  ev_faults e fp_claim = works → ev_faults e fp_record = works → ev_faults e fp_release = works →
  act row channelId (ir_message message ack) db = (Throw err, es, db') → claims_in (ib_events db') = claims_in (ib_events db).
Proof.
  intros Hfc Hfr Hfl. simpl. assert (∀ done0 : DeliveryOutcome, hbind (claim_delivery channelId (im_messageRef message)) (λ mine,
    if negb mine then hret done0
    else hbind (write fp_record (λ db, on_channels (recordDelivery workspaceId channelId (ev_now e) (ib_channels db)) db)) (λ _,
         hbind (giving_back channelId (im_messageRef message) (act_on_message row channelId message)) (λ _, hret done0))) db = (Throw err, es, db') →
    claims_in (ib_events db') = claims_in (ib_events db)) as Hgo; [|by destruct (ev_confirm e) as [[]|]; [apply Hgo| |apply Hgo]].
  intros done0. unfold hbind, claim_delivery, write, cmd, claimDelivery. rewrite Hfc, Hfr.
  pose proof (insertOne_true same_event (ev_eventId e)
    {| ce_channelId := channelId; ce_externalEventId := im_messageRef message; ce_runId := None; ce_receivedAt := ev_now e |} (ib_events db)) as Hi.
  destruct (insertOne _ _ _ _) as [[] c]; [|done]. destruct (Hi eq_refl) as (Hid & Hclash & Hdocs). simpl in Hdocs. simpl.
  match goal with |- context [giving_back _ _ _ ?x] => set (db2 := x) end.
  unfold giving_back. pose proof (claiming_message row channelId message db2) as Hk.
  destruct (act_on_message row channelId message db2) as [[[[]|err'] es1] db3]; [done|]. intros [= _ _ <-].
  unfold after_failure, hbind, attempt. rewrite Hfl. simpl.
  assert (claims_in (releaseDelivery channelId (im_messageRef message) (ib_events db3)) = claims_in (ib_events db)) as Hrel.
  { apply (release_undoes channelId (im_messageRef message) (ev_now e) (ev_eventId e)); [done| |].
    - intros k d Hd. specialize (Hclash k d Hd). unfold same_event in Hclash. unfold is_event. simpl in Hclash.
      by rewrite (String.eqb_sym channelId), (String.eqb_sym (im_messageRef message)) in Hclash.
    - simpl in Hk. unfold same_claims in Hk. rewrite <-Hk. unfold claims_in. simpl. by rewrite Hdocs, fmap_insert. }
  by destruct (ev_faults e fp_failure) as [|[]].
Qed.

(** ** One run for one message *)
Definition is_run (ef : Effect) : bool := match ef with ef_run _ => true | _ => false end.
Definition runs_in (es : list Effect) : nat := length (List.filter is_run es).
Lemma runs_in_app es es' : runs_in (es ++ es') = (runs_in es + runs_in es')%nat.
Proof. unfold runs_in. by rewrite List.filter_app, length_app. Qed.

(** The message of a person is written in their thread. *)
Definition key_of (channelId ref : string) : option string := Some (channelId +:+ ":" +:+ ref).
Definition settled (channelId sender ref : string) db : Prop :=
  ∃ id d, docs (ib_people db) !! id = Some d ∧ person_of d = (channelId, sender) ∧
    is_Some (docs (cd_messages (ib_conversations db)) !! messageId sha256 "" (ci_conversationId d) (key_of channelId ref)).

Lemma settled_grows channelId sender ref db db' :
  people_unique (ib_people db) → grows db db' → settled channelId sender ref db → settled channelId sender ref db'.
Proof.
  intros Hu [_ Ht Hm] (id & d & Hd & Hp & Hmsg). destruct (Ht Hu id d Hd) as (d' & Hd' & Hp' & Hc & _).
  exists id, d'. split; [done|]. split; [congruence|]. rewrite Hc. by apply Hm.
Qed.

Lemma thread_of_spec row channelId message binding db :
  match thread_of row channelId message binding db with
  | (Ret conv, es, db1) =>
      es = [] ∧ ib_people db1 = ib_people db ∧ cd_messages (ib_conversations db1) = cd_messages (ib_conversations db) ∧
      ((∃ id d, docs (ib_people db) !! id = Some d ∧ person_of d = (channelId, im_senderRef message) ∧ ci_conversationId d = conv) ∨
       (∀ id d, docs (ib_people db) !! id = Some d → person_of d ≠ (channelId, im_senderRef message)))
  | (Throw _, es, _) => es = []
  end.
Proof.
  unfold thread_of, hbind, cmd. destruct (ev_faults e fp_identity) as [|[]]; [|done..].
  destruct (findIdentity channelId (im_senderRef message) (ib_people db)) as [[id d]|] eqn:Hf.
  - apply find_one_some in Hf as [Hd Hp%is_person_key]. simpl. split_and!; [done..|]. left. by exists id, d.
  - destruct (ev_faults e fp_conversation) as [|[]]; [|done..]. destruct (create_conversation _ _ _ _) as [[] cv]; [|done]. simpl.
    split_and!; [done..|]. right. intros id d Hd Hp%is_person_key. by rewrite (find_one_none _ _ id d Hf Hd) in Hp.
Qed.

(** Linking in a thread that is theirs, or new, gives their row with that thread. *)
Lemma link_gives_thread input now (c : CP) :
  people_unique c →
  (∃ id d, docs c !! id = Some d ∧ person_of d = (li_channelId input, li_externalUserId input) ∧ ci_conversationId d = li_conversationId input) ∨
  (∀ id d, docs c !! id = Some d → person_of d ≠ (li_channelId input, li_externalUserId input)) →
  ∃ id d, findIdentity (li_channelId input) (li_externalUserId input) (link_once workspaceId genId input now c) = Some (id, d) ∧
    docs (link_once workspaceId genId input now c) !! id = Some d ∧
    person_of d = (li_channelId input, li_externalUserId input) ∧ ci_conversationId d = li_conversationId input.
Proof.
  intros Hu Hthread. destruct (write_keeps_threads workspaceId genId genId_fresh (pw_link input now) c Hu) as [Hu' Hk]. simpl in *.
  assert (∃ id d, docs (link_once workspaceId genId input now c) !! id = Some d ∧
            person_of d = (li_channelId input, li_externalUserId input) ∧ ci_conversationId d = li_conversationId input) as (id & d & Hd & Hp & Hc).
  { destruct Hthread as [(id & d & Hd & Hp & Hc)|Hnone].
    - destruct (Hk id d Hd (λ f, f)) as (d' & Hd' & Hp' & Hc' & _). exists id, d'. split_and!; congruence.
    - exists (genId c), (link_update workspaceId input now None). unfold link_once.
      rewrite upsertOne_miss; [by rewrite lookup_insert_eq| |apply genId_fresh].
      intros id d Hd. apply not_true_iff_false. intros Hp%is_person_key. by eapply Hnone. }
  exists id, d. split_and!; try done. apply find_one_unique; [done|by apply is_person_key|].
  intros id' d' Hd' Hp'%is_person_key. eapply Hu'; [done..|congruence].
Qed.

#[local] Arguments messageId : simpl never.

Lemma append_spec newId input key now (cd : @ConversationDb CV CM) :
  ai_clientMessageId input = Some key →
  match append_message sha256 newId input now cd with
  | (Ret _, cd') => docs (cd_messages cd) !! messageId sha256 "" (ai_conversationId input) (Some key) = None ∧
                    is_Some (docs (cd_messages cd') !! messageId sha256 "" (ai_conversationId input) (Some key))
  | (Throw _, _) => True
  end.
Proof.
  intros Hkey. unfold append_message. destruct (allocateSeq _ _) as [[seq|] cv]; [|done].
  destruct (insert_message_cases (message_doc sha256 newId input seq now) (cd_messages cd)) as [(Hok & Hnone & Hd)|[Hok _]];
    destruct (insert_message _ _) as [ok cm]; simpl in *; subst ok; [|done].
  rewrite Hkey in *. simpl in *. split; [done|]. rewrite Hd. by eexists; rewrite lookup_insert_eq.
Qed.

Lemma queue_run_once spec db : (runs_in (queue_run spec db).1.2 <= 1)%nat.
Proof.
  unfold runs_in, queue_run, hbind, cmd, create_run, say, hret, hthrow. destruct (ev_faults e fp_snapshot) as [|[]]; [|simpl; lia..].
  destruct (insertOne _ _ _ _) as [[] c], (ev_faults e fp_create) as [|[]]; simpl; try lia;
    destruct (ev_faults e fp_trigger) as [|[]]; simpl; lia.
Qed.

Lemma converse_once row channelId message agent binding db :
  people_unique (ib_people db) →
  let '(_, es, db') := converse row channelId message agent binding db in
  (runs_in es <= 1)%nat ∧
  (runs_in es ≠ 0%nat → ¬ settled channelId (im_senderRef message) (im_messageRef message) db ∧
                        settled channelId (im_senderRef message) (im_messageRef message) db').
Proof.
  intros Hu. unfold converse. unfold hbind at 1. pose proof (thread_of_spec row channelId message binding db) as Ht.
  destruct (thread_of _ _ _ _ db) as [[[conv|err] es1] db1]; [|subst es1; by split; [apply le_S, le_n|]].
  destruct Ht as (-> & Hp1 & Hm1 & Hthread). unfold hbind at 1, cmd at 1.
  destruct (ev_faults e fp_person); [|by split; [apply le_S, le_n|]]. rewrite linkIdentity_alone, Hp1.
  match goal with |- context [link_once _ _ ?i _ _] => set (input := i) end.
  destruct (link_gives_thread input (ev_now e) (ib_people db) Hu Hthread) as (iid & idn & -> & Hidn & Hkey & Hconv). simpl in Hconv.
  unfold hbind at 1, cmd at 1. destruct (ev_faults e fp_append); [|by split; [apply le_S, le_n|]]. simpl.
  pose proof (append_spec (ev_messageId e) (user_message channelId conv message) _ (ev_now e) (ib_conversations db1) eq_refl) as Ha.
  simpl in Ha. destruct (append_message _ _ _ _ _) as [[m|err] cd]; [|by split; [apply le_S, le_n|]]. destruct Ha as [Hnew Hin].
  set (db3 := on_conversations cd _). set (spec := run_spec_of _ _ _ _ _ _).
  pose proof (queue_run_once spec db3) as Honce. pose proof (keeps_queue spec db3) as Hk.
  destruct (queue_run spec db3) as [[r es] db']. simpl in *. rewrite Hm1 in Hnew. split; [done|]. intros _. split.
  - intros (id & d & Hd & Hp & Hmsg).
    assert (ci_conversationId d = conv) as Hc.
    { destruct Hthread as [(id0 & d0 & Hd0 & Hp0 & <-)|Hno]; [|by destruct (Hno id d Hd)].
      assert (id = id0) as -> by (eapply Hu; [done..|congruence]). congruence. }
    rewrite Hc in Hmsg. apply eq_None_not_Some in Hnew. apply Hnew. exact Hmsg.
  - apply (settled_grows _ _ _ db3); [|done|].
    + by apply (write_keeps_threads workspaceId genId genId_fresh (pw_link input (ev_now e)) (ib_people db)).
    + exists iid, idn. split; [exact Hidn|]. split; [exact Hkey|]. rewrite Hconv. exact Hin.
Qed.

Definition quiet {A} (m : H_ A) : Prop := ∀ db, runs_in (m db).1.2 = 0%nat.
Lemma quiet_ret {A} (a : A) : quiet (hret a). Proof. done. Qed.
Lemma quiet_reply chat r : quiet (reply chat r). Proof. done. Qed.
Lemma quiet_cmd {A} p (f : InboundDb → A * InboundDb) : quiet (cmd p f).
Proof. intros db. unfold cmd. by destruct (ev_faults e p), (f db). Qed.
Lemma quiet_bind {A B} (m : H_ A) (k : A → H_ B) : quiet m → (∀ a, quiet (k a)) → quiet (hbind m k).
Proof.
  intros Hm Hk db. unfold hbind. specialize (Hm db). destruct (m db) as [[[a|err] es] db1]; [|done].
  specialize (Hk a db1). destruct (k a db1) as [[r es'] db2]. simpl in *. by rewrite runs_in_app, Hm, Hk.
Qed.

Lemma quiet_answer {A} chat r (a : A) : quiet (hbind (reply chat r) (λ _, hret a)).
Proof. apply quiet_bind; [apply quiet_reply|intros _; apply quiet_ret]. Qed.

Lemma quiet_hear message : quiet (hear message).
Proof.
  unfold hear. destruct (im_audio message); [|apply quiet_ret]. apply quiet_bind; [apply quiet_cmd|intros _].
  apply quiet_bind; [apply quiet_reply|intros _]. destruct (ev_ear e); apply quiet_ret.
Qed.

Lemma loud_bind {A B} (m : H_ A) (k : A → H_ B) db :
  quiet m → runs_in (hbind m k db).1.2 ≠ 0%nat → ∃ a es db1, m db = (Ret a, es, db1) ∧ runs_in (k a db1).1.2 ≠ 0%nat.
Proof.
  intros Hq. unfold hbind. specialize (Hq db). destruct (m db) as [[[a|err] es] db1]; [|done].
  destruct (k a db1) as [[r es'] db2] eqn:Hk. simpl in *. rewrite runs_in_app, Hq. simpl. intros Hn. exists a, es, db1. by rewrite Hk.
Qed.

Lemma loud_startRun row channelId message db :
  runs_in (startRun row channelId message db).1.2 ≠ 0%nat → is_Some (ev_agent e) ∧ ev_allowed e = true.
Proof.
  intros (_ & _ & db1 & _ & Hn)%loud_bind; [|apply quiet_cmd]. destruct (ev_agent e) as [agent|]; [|by rewrite (quiet_answer _ _ _ db1) in Hn].
  split; [done|]. destruct (match ch_modelBindingId row with Some _ => _ | None => _ end); [|by rewrite (quiet_answer _ _ _ db1) in Hn].
  apply loud_bind in Hn as (_ & _ & db2 & _ & Hn); [|apply quiet_cmd].
  destruct (ev_allowed e); [done|]. exfalso. by apply Hn.
Qed.

Lemma loud_message row channelId message db :
  runs_in (act_on_message row channelId message db).1.2 ≠ 0%nat →
  ch_status row = connected ∧ (ch_verifiedChatRef row = None ∨ ch_verifiedChatRef row = Some (im_chatRef message)) ∧
  is_Some (ev_agent e) ∧ ev_allowed e = true.
Proof.
  unfold act_on_message. destruct (decide (ch_status row = connected)) as [Hst|Hst].
  - rewrite bool_decide_eq_true_2 by done. simpl.
    destruct (ch_verifiedChatRef row) as [chat|]; [destruct (String.eqb_spec chat (im_chatRef message)) as [->|]; [|done]|]; simpl;
      (intros ([att|] & _ & db1 & _ & Hn)%loud_bind; [done| |apply quiet_cmd];
       apply loud_bind in Hn as ([m|] & _ & db2 & _ & Hn); [|done|apply quiet_hear];
       apply loud_bind in Hn as ([] & _ & db3 & _ & Hn); [|done];
       split; [done|]; split; [by auto|]; apply (loud_startRun row channelId m db3);
       unfold hbind in Hn; destruct (startRun row channelId m db3) as [[[r|?] es] db4]; [|done];
       destruct r as [rid|]; simpl in Hn).
    all: rewrite ?app_nil_r in Hn; try done.
    all: unfold write, cmd in Hn; destruct (ev_faults e fp_attach); simpl in Hn; by rewrite app_nil_r in Hn.
  - rewrite bool_decide_eq_false_2 by done. simpl.
    intros (r & _ & db1 & _ & Hn)%loud_bind; [by destruct r|apply quiet_cmd].
Qed.

Lemma quiet_choice row channelId choice : quiet (act_on_choice row channelId choice).
Proof.
  apply quiet_bind; [apply quiet_cmd|]. intros mine. destruct (_ || _); [apply quiet_ret|].
  apply quiet_bind; [apply quiet_cmd|]. intros d. apply quiet_bind; [done|intros _; apply quiet_ret].
Qed.

Lemma loud_giving_back {A} channelId ref (m : H_ A) db : runs_in (giving_back channelId ref m db).1.2 = runs_in (m db).1.2.
Proof. unfold giving_back. by destruct (m db) as [[[a|err] es] db1]. Qed.

Lemma loud_act row channelId judged db :
  runs_in (act row channelId judged db).1.2 ≠ 0%nat →
  ∃ message ack es db1, judged = ir_message message ack ∧ ev_confirm e ≠ Some false ∧
    claim_delivery channelId (im_messageRef message) db = (Ret true, es, db1) ∧
    ch_status row = connected ∧ (ch_verifiedChatRef row = None ∨ ch_verifiedChatRef row = Some (im_chatRef message)) ∧
    is_Some (ev_agent e) ∧ ev_allowed e = true.
Proof.
  destruct judged as [message ack|choice| | |]; simpl; try done; [|by rewrite (quiet_choice row channelId choice db)].
  destruct (ev_confirm e) as [[]|]; [|done|];
    (intros ([] & es & db1 & Hc & Hn)%loud_bind; [|done|apply quiet_cmd]; simpl in Hn;
     apply loud_bind in Hn as (_ & _ & db2 & _ & Hn); [|apply quiet_cmd];
     exists message, ack, es, db1; split; [done|]; split; [done|]; split; [done|];
     apply (loud_message row channelId message db2); rewrite <-(loud_giving_back channelId (im_messageRef message));
     unfold hbind in Hn; destruct (giving_back _ _ _ db2) as [[[u|?] es'] db3]; [|done]; simpl in *; by rewrite app_nil_r in Hn).
Qed.

Section Once.
Context (channelId sender ref : string).
Notation done_ := (settled channelId sender ref).

(** At most one run, and only for a message that was not settled and is settled now. *)
Definition once {A} (m : H_ A) : Prop := ∀ db,
  people_unique (ib_people db) → (runs_in (m db).1.2 <= 1)%nat ∧ (runs_in (m db).1.2 ≠ 0%nat → ¬ done_ db ∧ done_ (m db).2).

Lemma quiet_once {A} (m : H_ A) : quiet m → once m.
Proof. intros Hm db _. rewrite Hm. split; [apply le_S, le_n|done]. Qed.

Lemma once_after {A B} (m : H_ A) (k : A → H_ B) :
  quiet m → keeps growing m → (∀ db a es db1, m db = (Ret a, es, db1) → once (k a)) → once (hbind m k).
Proof.
  intros Hq Hm Hk db Hu. unfold hbind. specialize (Hq db). specialize (Hm db). specialize (Hk db).
  destruct (m db) as [[[a|err] es] db1]; simpl in *; [|rewrite Hq; split; [apply le_S, le_n|done]].
  destruct (Hk a es db1 eq_refl db1) as [H1' H2']; [by apply (grows_unique db)|].
  destruct (k a db1) as [[r es'] db2]. simpl in *. rewrite runs_in_app, Hq. simpl. split; [done|].
  intros Hr. destruct (H2' Hr) as [Hn Hs]. split; [|done]. intros Hd. apply Hn. by eapply settled_grows.
Qed.

Lemma once_before {A B} (m : H_ A) (k : A → H_ B) : once m → keeps growing m → (∀ a, quiet (k a)) → (∀ a, keeps growing (k a)) → once (hbind m k).
Proof.
  intros Ho Hm Hq Hk db Hu. unfold hbind. specialize (Ho db Hu). specialize (Hm db).
  destruct (m db) as [[[a|err] es] db1]; simpl in *; [|done]. specialize (Hq a db1). specialize (Hk a db1).
  destruct (k a db1) as [[r es'] db2]. simpl in *. rewrite runs_in_app, Hq, Nat.add_0_r. destruct Ho as [H1' H2']. split; [done|].
  intros Hr. destruct (H2' Hr) as [Hn Hs]. split; [done|]. eapply (settled_grows _ _ _ db1); [by apply (grows_unique db)|done..].
Qed.

Lemma once_giving_back {A} ref' (m : H_ A) : once m → keeps growing m → once (giving_back channelId ref' m).
Proof.
  intros Ho Hm db Hu. pose proof (keeps_giving_back channelId ref' m Hm db) as Hk. unfold giving_back in *.
  specialize (Ho db Hu). specialize (Hm db). destruct (m db) as [[[a|err] es] db1] eqn:Hmd; simpl in *; [done|].
  destruct Ho as [H1' H2']. split; [done|]. intros Hr. destruct (H2' Hr) as [Hn Hs]. split; [done|].
  eapply (settled_grows _ _ _ db1); [by apply (grows_unique db)| |done].
  apply (keeps_bind growing (attempt fp_release _) (λ _, attempt fp_failure _)); [|intros _]; apply keeps_attempt; intros;
    [apply grows_events|apply grows_channels].
Qed.

Lemma once_converse row message agent binding :
  im_senderRef message = sender → im_messageRef message = ref → once (converse row channelId message agent binding).
Proof.
  intros Hs Hr db Hu. pose proof (converse_once row channelId message agent binding db Hu) as Hc. rewrite Hs, Hr in Hc.
  destruct (converse _ _ _ _ _ db) as [[r es] db']. exact Hc.
Qed.

Lemma once_startRun row message :
  im_senderRef message = sender → im_messageRef message = ref → once (startRun row channelId message).
Proof.
  intros Hs Hr. apply once_after; [apply quiet_cmd|apply keeps_nothing|]. intros db [] es db1 _.
  destruct (ev_agent e) as [agent|]; [|apply quiet_once, quiet_answer].
  destruct (match ch_modelBindingId row with Some _ => _ | None => _ end) as [binding|]; [|apply quiet_once, quiet_answer].
  apply once_after; [apply quiet_cmd|apply keeps_nothing|]. intros _ [] _ _ _.
  destruct (negb (ev_allowed e)); [apply quiet_once, quiet_answer|by apply once_converse].
Qed.

Lemma hear_same message db m es db1 :
  hear message db = (Ret (Some m), es, db1) → im_senderRef m = im_senderRef message ∧ im_messageRef m = im_messageRef message.
Proof.
  unfold hear, hbind, cmd, reply, say, hret. destruct (im_audio message); [|by intros [= <- _ _]].
  destruct (ev_faults e fp_hear); [|done]. destruct (ev_ear e); try done. by intros [= <- _ _].
Qed.

Lemma once_act_on_message row message :
  im_senderRef message = sender → im_messageRef message = ref → once (act_on_message row channelId message).
Proof.
  intros Hs Hr. unfold act_on_message. destruct (negb _).
  { apply quiet_once, quiet_bind; [apply quiet_cmd|intros []; apply quiet_reply]. }
  destruct (match ch_verifiedChatRef row with Some _ => _ | None => _ end); [apply quiet_once, quiet_reply|].
  apply once_after; [apply quiet_cmd|apply keeps_link|]. intros _ [att|] _ _ _; [apply quiet_once, quiet_reply|].
  apply once_after; [apply quiet_hear|apply keeps_hear|]. intros db [m|] es db1 Hh; [|apply quiet_once, quiet_ret].
  apply hear_same in Hh as [Hs' Hr']. apply once_after; [done|apply keeps_say|]. intros _ [] _ _ _.
  apply once_before; [apply once_startRun; congruence|apply keeps_startRun; intros; apply keeps_converse|..].
  - intros [rid|]; [apply quiet_cmd|apply quiet_ret].
  - intros [rid|]; [|apply keeps_ret]. apply keeps_cmd. intros db'. apply grows_events.
Qed.

Lemma once_act row message ack :
  im_senderRef message = sender → im_messageRef message = ref → once (act row channelId (ir_message message ack)).
Proof.
  intros Hs Hr. simpl. assert (∀ done0 : DeliveryOutcome, once (hbind (claim_delivery channelId (im_messageRef message)) (λ mine,
    if negb mine then hret done0
    else hbind (write fp_record (λ db, on_channels (recordDelivery workspaceId channelId (ev_now e) (ib_channels db)) db)) (λ _,
         hbind (giving_back channelId (im_messageRef message) (act_on_message row channelId message)) (λ _, hret done0))))) as Ho.
  { intros done0. apply once_after; [apply quiet_cmd|apply keeps_claim|]. intros _ [] _ _ _; [|apply quiet_once, quiet_ret]. simpl.
    apply once_after; [apply quiet_cmd|apply keeps_cmd; intros db; apply grows_channels|]. intros _ [] _ _ _.
    apply once_before; [apply once_giving_back| |intros _; apply quiet_ret|intros _; apply keeps_ret];
      auto using once_act_on_message, keeps_act_on_message, keeps_giving_back. }
  destruct (ev_confirm e) as [[]|]; [apply Ho|apply quiet_once, quiet_ret|apply Ho].
Qed.

Lemma once_handleDelivery type message ack :
  im_senderRef message = sender → im_messageRef message = ref → once (handleDelivery type channelId (ir_message message ack)).
Proof.
  intros Hs Hr db Hu. unfold handleDelivery.
  destruct (findById _ _ _) as [row|]; [|by apply (quiet_once (hret _) (quiet_ret (plain_outcome 404 "unknown channel")))].
  destruct (String.eqb _ _); [|by apply (quiet_once (hret _) (quiet_ret (plain_outcome 404 "unknown channel")))].
  pose proof (once_act row message ack Hs Hr) as Ho. destruct (ev_refreshed e) as [url|]; [|by apply Ho].
  set (db1 := on_channels _ db). destruct (Ho db1 Hu) as [H1' H2']. split; [done|]. intros Hn. by apply H2' in Hn.
Qed.
End Once.
End Inbound.

(** ** Histories *)
Record Delivery := { dv_type : string; dv_channelId : string; dv_judged : InboundResult; dv_env : Env }.

Section History.
Context {CC CE CP CV CM CR CA CQ CW CU : Type}.
Context `{CollectionLaws ChannelDoc CC, CollectionLaws ChannelEventDoc CE, CollectionLaws ChannelIdentityDoc CP,
          CollectionLaws ConversationDoc CV, CollectionLaws Message CM, CollectionLaws RunDoc CR, CollectionLaws ApprovalDoc CA,
          CollectionLaws AuthChallengeDoc CQ, CollectionLaws WorkspaceDoc CW, CollectionLaws UserDoc CU}.
Context (sha256 : string → string) (genId : CP → string) (workspaceId : string) (workspaces : CW) (users : CU).
Context (genId_fresh : ∀ c : CP, docs c !! genId c = None).
Notation Idb := (@InboundDb CC CE CP CV CM CR CA CQ).
Implicit Types db : Idb.

Definition deliver (d : Delivery) db : outcome unit DeliveryOutcome * list Effect * Idb :=
  handleDelivery sha256 genId workspaceId workspaces users (dv_env d) (dv_type d) (dv_channelId d) (dv_judged d) db.

(** A delivery, or something else that happens between deliveries. *)
Inductive InboundStep := st_delivery (d : Delivery) | st_between (g : Idb → Idb).

Definition is_delivery_of (channelId ref : string) (d : Delivery) : bool :=
  String.eqb (dv_channelId d) channelId && match dv_judged d with ir_message m _ => String.eqb (im_messageRef m) ref | _ => false end.

(** The runs that deliveries of one message start. *)
Fixpoint runs_of_message (channelId ref : string) (steps : list InboundStep) db : nat :=
  match steps with
  | [] => 0%nat
  | st_between g :: steps' => runs_of_message channelId ref steps' (g db)
  | st_delivery d :: steps' =>
      let '(_, es, db') := deliver d db in
      ((if is_delivery_of channelId ref d then runs_in es else 0) + runs_of_message channelId ref steps' db')%nat
  end.

(** Nothing races the upsert of a person, the platform gives a message one
    sender, and what happens in between neither deletes messages nor moves people
    to other threads. *)
Definition fair (channelId sender ref : string) (s : InboundStep) : Prop :=
  match s with
  | st_delivery d => ev_lost (dv_env d) = None ∧
      ∀ m ack, dv_judged d = ir_message m ack → is_delivery_of channelId ref d = true → im_senderRef m = sender
  | st_between g => ∀ db, grows db (g db)
  end.

Lemma deliver_once channelId sender ref d db :
  fair channelId sender ref (st_delivery d) → people_unique (ib_people db) →
  people_unique (ib_people (deliver d db).2) ∧
  (settled sha256 channelId sender ref db → settled sha256 channelId sender ref (deliver d db).2) ∧
  (is_delivery_of channelId ref d = true → (runs_in (deliver d db).1.2 <= 1)%nat ∧
     (runs_in (deliver d db).1.2 ≠ 0%nat → ¬ settled sha256 channelId sender ref db ∧ settled sha256 channelId sender ref (deliver d db).2)).
Proof.
  intros [Halone Hsender] Hu.
  pose proof (keeps_handleDelivery sha256 genId workspaceId workspaces users (dv_env d) genId_fresh Halone
                (dv_type d) (dv_channelId d) (dv_judged d) db) as Hk.
  unfold deliver. split; [by apply (grows_unique db)|]. split; [by apply settled_grows|].
  intros Hof. pose proof Hof as Hof'. unfold is_delivery_of in Hof. apply andb_true_iff in Hof as [<-%String.eqb_eq Hm].
  destruct (dv_judged d) as [m ack| | | |] eqn:Hj; try done. apply String.eqb_eq in Hm.
  apply (once_handleDelivery sha256 genId workspaceId workspaces users (dv_env d) genId_fresh Halone); eauto.
Qed.

Lemma settled_stays_quiet channelId sender ref steps db :
  Forall (fair channelId sender ref) steps → people_unique (ib_people db) → settled sha256 channelId sender ref db →
  runs_of_message channelId ref steps db = 0%nat.
Proof.
  intros Hf. revert db. induction Hf as [|[d|g] steps Hs _ IH]; intros db Hu Hd; simpl; [done| |].
  - destruct (deliver_once channelId sender ref d db Hs Hu) as (Hu' & Hd' & Ho).
    destruct (deliver d db) as [[r es] db']. simpl in *. rewrite IH by auto.
    destruct (is_delivery_of channelId ref d); [|done]. destruct (Ho eq_refl) as [_ Hn].
    destruct (runs_in es); [done|]. by destruct (Hn ltac:(done)).
  - apply IH; [by eapply grows_unique|by eapply settled_grows].
Qed.

(** C11.  One message, one run, as long as its thread is left in place.  However often a
    platform delivers a message (always under the one sender), wherever its handling
    fails and whether or not the failed command took effect, all its deliveries together
    start at most one run: a retry that slips past the claim collides with the message it
    has already written.  In between anything may happen (claims that expire, other
    deliveries, connections that change) that does not delete messages and does not move
    a person to another thread; and no delivery loses the race to create the person's
    row.  Both conditions are needed: clearing the thread lets a retry start a second run
    ([cleared_thread_runs_again]), and so does a lost race ([lost_race_runs_again]). *)
Theorem one_message_one_run channelId sender ref steps db :
  people_unique (ib_people db) → Forall (fair channelId sender ref) steps → (runs_of_message channelId ref steps db <= 1)%nat.
Proof.
  intros Hu Hf. revert db Hu. induction Hf as [|[d|g] steps Hs Hf IH]; intros db Hu; simpl; [lia| |].
  - destruct (deliver_once channelId sender ref d db Hs Hu) as (Hu' & _ & Ho).
    destruct (deliver d db) as [[r es] db']. simpl in *.
    destruct (is_delivery_of channelId ref d); [|by apply IH]. destruct (Ho eq_refl) as [H1' H2'].
    destruct (decide (runs_in es = 0%nat)) as [->|Hn]; [by apply IH|].
    rewrite (settled_stays_quiet channelId sender ref steps db') by (auto; by apply H2'). lia.
  - apply IH. by apply (grows_unique db).
Qed.

Lemma claim_is_new (e : Env) channelId ref db r es db1 :
  claim_delivery e channelId ref db = (Ret r, es, db1) → r = true →
  ∀ id ev, docs (ib_events db) !! id = Some ev → is_event channelId ref ev = false.
Proof.
  unfold claim_delivery, cmd, claimDelivery. destruct (ev_faults e fp_claim); [|done].
  pose proof (insertOne_true same_event (ev_eventId e)
    {| ce_channelId := channelId; ce_externalEventId := ref; ce_runId := None; ce_receivedAt := ev_now e |} (ib_events db)) as Hi.
  destruct (insertOne _ _ _ _) as [ok c]. intros [= -> _ _] ->. destruct (Hi eq_refl) as (_ & Hclash & _). intros id ev Hev.
  specialize (Hclash id ev Hev). unfold same_event in Hclash. unfold is_event. simpl in Hclash.
  by rewrite (String.eqb_sym channelId), (String.eqb_sym ref) in Hclash.
Qed.

(** A delivery starts a run only for a message, not rejected by its platform,
    that no one has claimed before, on a connection that has completed its
    handshake, from the chat that completed it when one did, for an agent that
    exists and a workspace whose spending gate is open. *)
Theorem runs_need_a_proved_chat d db :
  runs_in (deliver d db).1.2 ≠ 0%nat →
  ∃ row message ack, findById workspaceId (dv_channelId d) (ib_channels db) = Some row ∧ ch_type row = dv_type d ∧
    dv_judged d = ir_message message ack ∧ ev_confirm (dv_env d) ≠ Some false ∧
    (∀ id ev, docs (ib_events db) !! id = Some ev → is_event (dv_channelId d) (im_messageRef message) ev = false) ∧
    ch_status row = connected ∧ (ch_verifiedChatRef row = None ∨ ch_verifiedChatRef row = Some (im_chatRef message)) ∧
    is_Some (ev_agent (dv_env d)) ∧ ev_allowed (dv_env d) = true.
Proof.
  unfold deliver, handleDelivery. destruct (findById _ _ _) as [row|]; [|done].
  destruct (String.eqb_spec (ch_type row) (dv_type d)) as [Ht|]; [|done].
  intros (message & ack & es & db1 & Hj & Hconf & Hclaim & Hst & Hchat & Hag & Hal)%loud_act.
  exists row, message, ack. split_and!; try done.
  assert (Hev := claim_is_new _ _ _ _ _ _ _ Hclaim eq_refl). rewrite Hj in Hev. by destruct (ev_refreshed (dv_env d)).
Qed.

(** C30.  A message whose handling throws, wherever it does, leaves the claims as they
    were, so that the platform's retry is not taken for a duplicate; all that is
    needed is that the claim itself, the note of the delivery and the release
    reach the database. *)
Theorem failed_deliveries_are_given_back d message ack db err es db' :
  dv_judged d = ir_message message ack →
  ev_faults (dv_env d) fp_claim = works → ev_faults (dv_env d) fp_record = works → ev_faults (dv_env d) fp_release = works →
  deliver d db = (Throw err, es, db') → claims_in (ib_events db') = claims_in (ib_events db).
Proof.
  unfold deliver, handleDelivery. intros Hj Hc Hr Hl. destruct (findById _ _ _) as [row|]; [|done].
  destruct (String.eqb _ _); [|done]. rewrite Hj. destruct (ev_refreshed (dv_env d)); intros Hact; by apply failed_act in Hact.
Qed.
End History.

(** ** Examples *)
Notation InboundRows := (@InboundDb (gmap string ChannelDoc) (gmap string ChannelEventDoc) (gmap string ChannelIdentityDoc) (gmap string ConversationDoc)
  (gmap string Message) (gmap string RunDoc) (gmap string ApprovalDoc) (gmap string AuthChallengeDoc)).
Definition connected_row : ChannelDoc := {|
  ch_workspaceId := "wks_1"; ch_type := "telegram"; ch_agentId := "agt_1"; ch_modelBindingId := None; ch_tokenCredentialId := "crd_1";
  ch_secretCredentialId := None; ch_status := connected; ch_identity := a_bot; ch_connect := None; ch_verifiedChatRef := Some "chat_7";
  ch_install := None; ch_webhookUrl := None; ch_webhookSpec := None;
  ch_health := {| ch_lastOkAt := None; ch_lastDeliveryAt := None; ch_consecutiveFailures := 0; ch_lastError := None |};
  ch_createdBy := "usr_1"; ch_createdAt := 0; ch_updatedAt := 0 |}.
Definition inbound_rows : InboundRows := {|
  ib_channels := {["chn_1" := connected_row]}; ib_events := ∅; ib_people := ∅;
  ib_conversations := {| cd_conversations := ∅; cd_messages := ∅ |}; ib_runs := waiting_runs; ib_approvals := waiting_approvals; ib_challenges := ∅ |}.
Definition chat_binding : ModelBindingDoc := {|
  mb_id := "bnd_1"; mb_providerConfigId := "prv_1"; mb_modelId := "m"; mb_role := "chat";
  mb_cost := {| co_inputPerMTok := 1; co_outputPerMTok := 1; co_cacheReadPerMTok := None |}; mb_fallbackBindingId := None; mb_enabled := true |}.
Definition env_at (n : string) (faults : FailPoint → Fault) (lost : option (list PeopleWrite)) : Env := {|
  ev_now := 1000; ev_ids := ("evt_" +:+ n, "cnv_" +:+ n, "msg_" +:+ n, "run_x" +:+ n); ev_confirm := None; ev_ear := ear_no_fetch;
  ev_agent := Some {| ag_modelBindingId := None; ag_versionId := "ver_1"; ag_modelRole := "chat"; ag_snapshot := sp_agentSnapshot sample_spec |};
  ev_bindings := [chat_binding]; ev_allowed := true; ev_lost := lost; ev_refreshed := None; ev_faults := faults |}.
Definition no_faults (p : FailPoint) : Fault := works.
Definition fail_create (p : FailPoint) : Fault := match p with fp_create => fails false | _ => works end.
Definition fail_trigger (p : FailPoint) : Fault := match p with fp_trigger => fails false | _ => works end.
Definition fail_gate (p : FailPoint) : Fault := match p with fp_gate => fails false | _ => works end.
Definition fail_record (p : FailPoint) : Fault := match p with fp_record => fails false | _ => works end.
Definition fail_decide (p : FailPoint) : Fault := match p with fp_decide => fails false | _ => works end.
Definition hello_delivery (n : string) (faults : FailPoint → Fault) (lost : option (list PeopleWrite)) : Delivery := {|
  dv_type := "telegram"; dv_channelId := "chn_1"; dv_judged := ir_message (code_message "hello there") None; dv_env := env_at n faults lost |}.
Definition receive_hello (n : string) (faults : FailPoint → Fault) (lost : option (list PeopleWrite)) (db : InboundRows)
    : outcome unit DeliveryOutcome * list Effect * InboundRows :=
  deliver id fresh_person "wks_1" acme_rows no_users (hello_delivery n faults lost) db.
Definition status_of (db : InboundRows) : option ChannelStatus := ch_status <$> ib_channels db !! "chn_1".
Definition reconnect (db : InboundRows) : InboundRows := on_channels {["chn_1" := connected_row]} db.

Lemma reconnect_grows db : grows db (reconnect db).
Proof. apply grows_channels. Defined.

Lemma one_message_one_run_witness :
  let steps := [st_delivery (hello_delivery "1" fail_trigger None); st_between reconnect; st_delivery (hello_delivery "2" no_faults None)] in
  (receive_hello "1" fail_trigger None inbound_rows).1.2 = [ef_typing "chat_7"; ef_run "run_x1"] ∧
  (runs_of_message id fresh_person "wks_1" acme_rows no_users "chn_1" "m1" steps inbound_rows <= 1)%nat.
Proof.
  split; [vm_compute; reflexivity|].
  apply (one_message_one_run id fresh_person "wks_1" acme_rows no_users fresh_person_spec "chn_1" "tg_7" "m1").
  - intros i j d d' Hi. vm_compute in Hi. by destruct i.
  - apply Forall_cons. split; [split; [reflexivity|intros m ack [= <- _] _; reflexivity]|].
    apply Forall_cons. split; [exact reconnect_grows|].
    apply Forall_singleton. split; [reflexivity|intros m ack [= <- _] _; reflexivity].
Defined.

Lemma runs_need_a_proved_chat_witness :
  ∃ row, findById "wks_1" "chn_1" (ib_channels inbound_rows) = Some row ∧ ch_status row = connected.
Proof.
  destruct (runs_need_a_proved_chat id fresh_person "wks_1" acme_rows no_users (hello_delivery "1" no_faults None) inbound_rows)
    as (row & m & ack & Hrow & _ & _ & _ & _ & Hst & _); [vm_compute; discriminate|]. exists row. split; [exact Hrow|exact Hst].
Defined.

Lemma failed_deliveries_are_given_back_witness :
  claims_in (ib_events (receive_hello "1" fail_create None inbound_rows).2) = claims_in (ib_events inbound_rows).
Proof.
  eapply (failed_deliveries_are_given_back id fresh_person "wks_1" acme_rows no_users (hello_delivery "1" fail_create None)
            (code_message "hello there") None inbound_rows ()); [reflexivity..|].
  vm_compute. reflexivity.
Defined.

(** One failure leaves the connection in error, and the redelivery of the same
    message, which is what the released claim is for, is read as a wrong code. *)
Example retry_meets_the_handshake :
  let first := receive_hello "1" fail_gate None inbound_rows in
  let again := receive_hello "2" no_faults None first.2 in
  first.1.1 = Throw () ∧ claims_in (ib_events first.2) = ∅ ∧ status_of first.2 = Some in_error ∧
  again.1 = (Ret ok_outcome, [ef_reply "chat_7" rp_bad_code]).
Proof. split_and!; vm_compute; reflexivity. Qed.

(** When the message was written and the run was not, every retry collides with the message: no run is ever started for it. *)
Example retry_collides_with_its_own_message :
  let first := receive_hello "1" fail_create None inbound_rows in
  let again := receive_hello "2" no_faults None (reconnect first.2) in
  first.1.1 = Throw () ∧ again.1.1 = Throw () ∧ runs_in (first.1.2 ++ again.1.2) = 0%nat ∧
  size (cd_messages (ib_conversations again.2)) = 1%nat.
Proof. split_and!; vm_compute; reflexivity. Qed.

(** When the note of the delivery fails, the claim is kept: the redelivery is acknowledged and nothing answers it. *)
Example claim_survives_a_failed_note :
  let first := receive_hello "1" fail_record None inbound_rows in
  let again := receive_hello "2" no_faults None first.2 in
  first.1.1 = Throw () ∧ again.1 = (Ret ok_outcome, []).
Proof. split; vm_compute; reflexivity. Qed.

(** A first message that loses the race for the person's row is written, and answered, in a conversation that is not theirs. *)
Example lost_race_answers_in_another_thread :
  let winner := {| li_channelId := "chn_1"; li_externalUserId := "tg_7"; li_chatRef := "chat_7"; li_conversationId := "cnv_0"; li_label := "Ada" |} in
  let r := receive_hello "1" no_faults (Some [pw_link winner 999]) inbound_rows in
  ci_conversationId <$> (snd <$> findIdentity "chn_1" "tg_7" (ib_people r.2)) = Some "cnv_0" ∧
  (λ d, sp_conversationId (run_spec d)) <$> ib_runs r.2 !! "run_x1" = Some "cnv_1".
Proof. split; vm_compute; reflexivity. Qed.

(** The two ways past the limit of one run for a message: the thread is cleared before the retry, or the first delivery lost the race. *)
Definition clear_threads (db : InboundRows) : InboundRows :=
  on_conversations (clear_conversation "cnv_1" 1500 (ib_conversations db)).2 db.
Example cleared_thread_runs_again :
  runs_of_message id fresh_person "wks_1" acme_rows no_users "chn_1" "m1"
    [st_delivery (hello_delivery "1" fail_trigger None); st_between (λ db, reconnect (clear_threads db)); st_delivery (hello_delivery "2" no_faults None)]
    inbound_rows = 2%nat.
Proof. vm_compute. reflexivity. Qed.
Example lost_race_runs_again :
  let winner := {| li_channelId := "chn_1"; li_externalUserId := "tg_7"; li_chatRef := "chat_7"; li_conversationId := "cnv_0"; li_label := "Ada" |} in
  let with_thread (c : @ConversationDb (gmap string ConversationDoc) (gmap string Message)) :=
    {| cd_conversations := partial_alter (λ _, cd_conversations c !! "cnv_1") "cnv_0" (cd_conversations c); cd_messages := cd_messages c |} in
  let thread := st_between (λ db, reconnect (on_conversations (with_thread (ib_conversations db)) db)) in
  runs_of_message id fresh_person "wks_1" acme_rows no_users "chn_1" "m1"
    [st_delivery (hello_delivery "1" fail_trigger (Some [pw_link winner 999])); thread; st_delivery (hello_delivery "2" no_faults None)]
    inbound_rows = 2%nat.
Proof. vm_compute. reflexivity. Qed.

(** A press whose decision fails keeps its claim: the redelivered press is acknowledged and the approval stays open. *)
Definition press_delivery (n : string) (faults : FailPoint → Fault) : Delivery := {|
  dv_type := "telegram"; dv_channelId := "chn_1"; dv_judged := ir_choice (press_by "tg_7"); dv_env := env_at n faults None |}.
Example failed_press_is_dropped :
  let press d db := deliver id fresh_person "wks_1" acme_rows no_users d db in
  let first := press (press_delivery "1" fail_decide) (on_people chat_people inbound_rows) in
  let again := press (press_delivery "2" no_faults) first.2 in
  first.1.1 = Throw () ∧ again.1 = (Ret ok_outcome, []) ∧ apv_decision <$> ib_approvals again.2 !! "apv_1" = Some None.
Proof. split_and!; vm_compute; reflexivity. Qed.
