(* ===== verification/Cron.v ===== *)
(** * Cron expressions

    Models packages/schedule/src/cron.ts.  The wall clock of a time zone comes
    from the runtime's time-zone data and is a parameter.  Instants are
    milliseconds since the epoch.  Numerals are read exactly, whatever their
    length: [Number] rounds to a double, so that it takes 59.00000000000000001 for 59,
    which is refused here. *)
From S2P Require Import Prelude Json Text Entities ToolNames Model ContextAssembler Redaction.

(** ** [Number(text)], when it is an integer *)

Definition digit_val (c : Ascii.ascii) : option Z :=
  let n := code_of c in
  if (48 <=? n) && (n <=? 57) then Some (n - 48)
  else if (97 <=? n) && (n <=? 102) then Some (n - 87)
  else if (65 <=? n) && (n <=? 70) then Some (n - 55)
  else None.

(** Digits of a base from the front: their value, how many, and the rest. *)
Fixpoint digits (base acc : Z) (count : nat) (s : string) : Z * nat * string :=
  match s with
  | EmptyString => (acc, count, s)
  | String c s' =>
      match digit_val c with
      | Some d => if d <? base then digits base (acc * base + d) (S count) s' else (acc, count, s)
      | None => (acc, count, s)
      end
  end.

(** The exponent part: none, or [e] with a signed integer. *)
Definition exponent (s : string) : option Z :=
  match s with
  | EmptyString => Some 0
  | String c s' =>
      if Ascii.eqb c "e" || Ascii.eqb c "E" then
        let '(negative, s2) := match s' with
                               | String "-" r => (true, r)
                               | String "+" r => (false, r)
                               | _ => (false, s')
                               end in
        match digits 10 0 0 s2 with
        | (n, S _, EmptyString) => Some (if negative : bool then - n else n)
        | _ => None
        end
      else None
  end.

(** An unsigned decimal literal that denotes an integer. *)
Definition decimal_integer (s : string) : option Z :=
  let '(whole, n1, rest) := digits 10 0 0 s in
  let '(mantissa, n2, rest2) := match rest with
                                | String "." r => digits 10 whole 0 r
                                | _ => (whole, 0%nat, rest)
                                end in
  match (n1 + n2)%nat with
  | O => None
  | _ =>
      match exponent rest2 with
      | None => None
      | Some e =>
          let e := e - Z.of_nat n2 in
          if 0 <=? e then Some (mantissa * 10 ^ e)
          else if mantissa mod 10 ^ (- e) =? 0 then Some (mantissa / 10 ^ (- e)) else None
      end
  end.

Definition radix_integer (base : Z) (s : string) : option Z :=
  match digits base 0 0 s with (n, S _, EmptyString) => Some n | _ => None end.

(** For a text without white space. *)
Definition number_integer (s : string) : option Z :=
  match s with
  | EmptyString => Some 0
  | String "0" (String ("x" | "X") r) => radix_integer 16 r
  | String "0" (String ("o" | "O") r) => radix_integer 8 r
  | String "0" (String ("b" | "B") r) => radix_integer 2 r
  | String "-" r => Z.opp <$> decimal_integer r
  | String "+" r => decimal_integer r
  | _ => decimal_integer s
  end.

(** ** Fields *)

Record Bound := { bd_min : Z; bd_max : Z; bd_names : list (string * Z) }.

Definition MONTHS : list (string * Z) :=
  [("jan", 1); ("feb", 2); ("mar", 3); ("apr", 4); ("may", 5); ("jun", 6);
   ("jul", 7); ("aug", 8); ("sep", 9); ("oct", 10); ("nov", 11); ("dec", 12)].
Definition DAYS : list (string * Z) :=
  [("sun", 0); ("mon", 1); ("tue", 2); ("wed", 3); ("thu", 4); ("fri", 5); ("sat", 6)].

Definition minute_bound : Bound := {| bd_min := 0; bd_max := 59; bd_names := [] |}.
Definition hour_bound : Bound := {| bd_min := 0; bd_max := 23; bd_names := [] |}.
Definition dayOfMonth_bound : Bound := {| bd_min := 1; bd_max := 31; bd_names := [] |}.
Definition month_bound : Bound := {| bd_min := 1; bd_max := 12; bd_names := MONTHS |}.
Definition dayOfWeek_bound : Bound := {| bd_min := 0; bd_max := 7; bd_names := DAYS |}.

Definition ALIASES : list (string * string) :=
  [("@hourly", "0 * * * *"); ("@daily", "0 0 * * *"); ("@midnight", "0 0 * * *"); ("@weekly", "0 0 * * 0");
   ("@monthly", "0 0 1 * *"); ("@yearly", "0 0 1 1 *"); ("@annually", "0 0 1 1 *")].

Definition CronError : Type := string.
Record FieldValues := { fv_values : gset Z; fv_restricted : bool }.

Definition not_between (text : string) (b : Bound) : CronError :=
  dquote +:+ text +:+ dquote +:+ " is not between " +:+ pretty (bd_min b) +:+ " and " +:+ pretty (bd_max b) +:+ ".".

(** [resolve], on a text without white space. *)
Definition resolve_value (text : string) (b : Bound) : outcome CronError Z :=
  let trimmed := str_map lower text in
  let v := match assoc_get (str_take 3 trimmed) (bd_names b) with
           | Some n => Some n
           | None => number_integer trimmed
           end in
  match v with
  | Some n => if (n <? bd_min b) || (bd_max b <? n) then Throw (not_between text b) else Ret n
  | None => Throw (not_between text b)
  end.

(** [for (let v = from; v <= to; v += step)]. *)
Definition stepped (from to step : Z) : list Z :=
  if to <? from then [] else map (λ i, from + i * step) (seqZ 0 ((to - from) / step + 1)).

(** The values of one piece, and whether it restricts. *)
Definition parse_piece (raw piece : string) (b : Bound) : outcome CronError (list Z * bool) :=
  match str_split "/"%char piece with
  | [] => Throw (dquote +:+ raw +:+ dquote +:+ " is not a valid field.")
  | range :: rest =>
      if String.eqb range "" then Throw (dquote +:+ raw +:+ dquote +:+ " is not a valid field.")
      else
        let stepText := head rest in
        let bad_step := dquote +:+ piece +:+ dquote +:+ " has a step that is not a positive whole number." in
        match match stepText with None => Some 1 | Some t => number_integer t end with
        | None => Throw bad_step
        | Some step =>
            if step <? 1 then Throw bad_step
            else if String.eqb range "*" then
              Ret (stepped (bd_min b) (bd_max b) step, bool_decide (is_Some stepText))
            else
              let ends := str_split "-"%char range in
              obind (resolve_value (default "" (head ends)) b) (λ from,
              obind (match head (tail ends) with None => Ret from | Some e => resolve_value e b end) (λ to,
              if to <? from then Ret (stepped from (bd_max b) 1 ++ stepped (bd_min b) to 1, true)
              else Ret (stepped from to step, true)))
        end
  end.

Fixpoint parse_pieces (raw : string) (pieces : list string) (b : Bound) : outcome CronError (list Z * bool) :=
  match pieces with
  | [] => Ret ([], false)
  | p :: rest =>
      obind (parse_piece raw p b) (λ a,
      obind (parse_pieces raw rest b) (λ r, Ret (a.1 ++ r.1, a.2 || r.2)))
  end.

Definition parseField (raw : string) (b : Bound) : outcome CronError FieldValues :=
  obind (parse_pieces raw (str_split ","%char raw) b) (λ r,
  match r.1 with
  | [] => Throw (dquote +:+ raw +:+ dquote +:+ " matches nothing.")
  | vs => Ret {| fv_values := list_to_set vs; fv_restricted := r.2 |}
  end).

(** ** Expressions *)

Record CronFields := {
  cf_minute : gset Z;
  cf_hour : gset Z;
  cf_dayOfMonth : gset Z;
  cf_month : gset Z;
  cf_dayOfWeek : gset Z;
  cf_restrictsDayOfMonth : bool;
  cf_restrictsDayOfWeek : bool;
}.

Definition parseCron (expression : string) : outcome CronError CronFields :=
  let normalised := js_trim (default expression (assoc_get (str_map lower (js_trim expression)) ALIASES)) in
  match fields_of normalised with
  | [f0; f1; f2; f3; f4] =>
      obind (parseField f0 minute_bound) (λ minute,
      obind (parseField f1 hour_bound) (λ hour,
      obind (parseField f2 dayOfMonth_bound) (λ dayOfMonth,
      obind (parseField f3 month_bound) (λ month,
      obind (parseField f4 dayOfWeek_bound) (λ dayOfWeek,
      let days := if bool_decide (7 ∈ fv_values dayOfWeek) then {[0]} ∪ fv_values dayOfWeek else fv_values dayOfWeek in
      Ret {| cf_minute := fv_values minute; cf_hour := fv_values hour; cf_dayOfMonth := fv_values dayOfMonth;
             cf_month := fv_values month; cf_dayOfWeek := days ∖ {[7]};
             cf_restrictsDayOfMonth := fv_restricted dayOfMonth;
             cf_restrictsDayOfWeek := fv_restricted dayOfWeek |})))))
  | fields => Throw ("A cron expression has five fields (minute hour day month weekday); " +:+ dquote +:+ expression +:+
                     dquote +:+ " has " +:+ pretty (Z.of_nat (length fields)) +:+ ".")
  end.

Definition isValidCron (expression : string) : bool :=
  match parseCron expression with Ret _ => true | Throw _ => false end.

(** ** Matching and due minutes *)

Record WallClock := { wc_minute : Z; wc_hour : Z; wc_dayOfMonth : Z; wc_month : Z; wc_dayOfWeek : Z }.

Definition MINUTE_MS : Z := 60000.

Section Due.
(** [wallClockIn]. *)
Context (wallClockIn : string → Z → WallClock).

Definition cron_matches (fields : CronFields) (timeZone : string) (at_ : Z) : bool :=
  let now := wallClockIn timeZone at_ in
  if negb (bool_decide (wc_minute now ∈ cf_minute fields)) then false
  else if negb (bool_decide (wc_hour now ∈ cf_hour fields)) then false
  else if negb (bool_decide (wc_month now ∈ cf_month fields)) then false
  else
    let byDayOfMonth := bool_decide (wc_dayOfMonth now ∈ cf_dayOfMonth fields) in
    let byDayOfWeek := bool_decide (wc_dayOfWeek now ∈ cf_dayOfWeek fields) in
    if cf_restrictsDayOfMonth fields && cf_restrictsDayOfWeek fields then byDayOfMonth || byDayOfWeek
    else if cf_restrictsDayOfMonth fields then byDayOfMonth
    else if cf_restrictsDayOfWeek fields then byDayOfWeek
    else true.

(** The loop over the minutes still to visit: [found] has [n] elements. *)
Fixpoint due_walk (fields : CronFields) (timeZone : string) (cap n : Z) (minutes : list Z) : list Z :=
  match minutes with
  | [] => []
  | at_ :: rest =>
      if cron_matches fields timeZone at_ then
        at_ :: (if cap <=? n + 1 then [] else due_walk fields timeZone cap (n + 1) rest)
      else due_walk fields timeZone cap n rest
  end.

(** The instants of the [for] loop from [cursor] to [end_]. *)
Definition minutes_from (cursor end_ : Z) : list Z :=
  if end_ <? cursor then [] else map (λ i, cursor + i * MINUTE_MS) (seqZ 0 ((end_ - cursor) / MINUTE_MS + 1)).

Definition dueBetween (fields : CronFields) (timeZone : string) (after until cap : Z) : list Z :=
  let cursor := after / MINUTE_MS * MINUTE_MS + MINUTE_MS in
  let end_ := until / MINUTE_MS * MINUTE_MS in
  let earliest := end_ - cap * 24 * 60 * MINUTE_MS in
  let cursor := if cursor <? earliest then earliest / MINUTE_MS * MINUTE_MS else cursor in
  due_walk fields timeZone cap 0 (minutes_from cursor end_).
End Due.

(** ** What an accepted expression admits *)

Definition within (b : Bound) (v : Z) : Prop := bd_min b <= v <= bd_max b.

Lemma elem_of_stepped from to step v : 1 <= step → v ∈ stepped from to step → from <= v <= to.
Proof.
  intros Hs. unfold stepped. destruct (to <? from) eqn:E; [by intros ?%elem_of_nil|]. apply Z.ltb_ge in E.
  intros (i & -> & Hi%elem_of_seqZ)%list_elem_of_fmap. split; [nia|].
  pose proof (Z.mul_div_le (to - from) step ltac:(lia)). nia.
Qed.

Lemma stepped_nonempty from to step : 1 <= step → from <= to → stepped from to step ≠ [].
Proof.
  intros Hs Hf. unfold stepped. assert (to <? from = false) as -> by (apply Z.ltb_ge; lia).
  assert (0 <= (to - from) / step) by (apply Z.div_pos; lia).
  rewrite seqZ_cons by lia. done.
Qed.

Lemma resolve_value_within text b n : resolve_value text b = Ret n → within b n.
Proof.
  unfold resolve_value, within. destruct (match assoc_get _ _ with Some _ => _ | None => _ end) as [m|]; [|done].
  destruct (_ || _) eqn:E; [done|]. intros [= <-]. apply orb_false_iff in E as [?%Z.ltb_ge ?%Z.ltb_ge]. lia.
Qed.

Lemma parse_piece_within raw piece b vs r :
  bd_min b <= bd_max b → parse_piece raw piece b = Ret (vs, r) → vs ≠ [] ∧ ∀ v, v ∈ vs → within b v.
Proof.
  intros Hb. unfold parse_piece. destruct (str_split "/" piece) as [|range rest]; [done|].
  destruct (String.eqb range ""); [done|].
  destruct (match head rest with None => Some 1 | Some t => number_integer t end) as [step|]; [|done].
  destruct (step <? 1) eqn:Hs; [done|]. apply Z.ltb_ge in Hs. destruct (String.eqb range "*").
  { intros [= <- _]. split; [by apply stepped_nonempty|]. intros v. by apply elem_of_stepped. }
  destruct (resolve_value _ b) as [from|] eqn:Hf; cbn [obind]; [|done]. apply resolve_value_within in Hf.
  destruct (match head (tail _) with None => _ | Some _ => _ end) as [to|] eqn:Ht; cbn [obind]; [|done].
  assert (within b to) as Hto.
  { destruct (head (tail _)); [by apply resolve_value_within in Ht|]. by injection Ht as <-. }
  unfold within in *. destruct (to <? from) eqn:Hlt; intros [= <- _].
  - split.
    + intros [? _]%app_eq_nil. by apply (stepped_nonempty from (bd_max b) 1) in H; [|lia..].
    + intros v [Hv|Hv]%elem_of_app; apply elem_of_stepped in Hv; lia.
  - apply Z.ltb_ge in Hlt. split; [by apply stepped_nonempty|]. intros v Hv. apply elem_of_stepped in Hv; lia.
Qed.

Lemma parse_pieces_within raw pieces b vs r :
  bd_min b <= bd_max b → parse_pieces raw pieces b = Ret (vs, r) → ∀ v, v ∈ vs → within b v.
Proof.
  intros Hb. revert vs r. induction pieces as [|p rest IH]; intros vs r; simpl; [by intros [= <- _] v ?%elem_of_nil|].
  destruct (parse_piece raw p b) as [[vs1 r1]|] eqn:Hp; simpl; [|done].
  destruct (parse_pieces raw rest b) as [[vs2 r2]|]; simpl; [|done]. intros [= <- _] v [Hv|Hv]%elem_of_app.
  - by apply (parse_piece_within _ _ _ _ _ Hb Hp).
  - by eapply IH.
Qed.

Lemma parseField_within raw b f :
  bd_min b <= bd_max b → parseField raw b = Ret f → fv_values f ≠ ∅ ∧ ∀ v, v ∈ fv_values f → within b v.
Proof.
  intros Hb. unfold parseField. destruct (parse_pieces raw _ b) as [[vs r]|] eqn:Hp; simpl; [|done].
  destruct vs as [|v0 vs]; [done|]. intros [= <-]. cbn [fv_values]. split.
  - clear. set_solver.
  - intros v Hv. eapply parse_pieces_within; [done..|]. clear -Hv. set_solver.
Qed.

(** A field that can hold: some value, all of them in range. *)
Definition field_ok (s : gset Z) (lo hi : Z) : Prop := s ≠ ∅ ∧ ∀ v, v ∈ s → lo <= v <= hi.

(** C40.  Every accepted expression is sound: each of its five fields admits at least
    one value and only values of its range, with Sunday written 0 even where the
    expression wrote 7, so no accepted schedule is dead for want of a minute,
    an hour, a month or a day. *)
Theorem accepted_expressions_are_in_range expression f :
  parseCron expression = Ret f →
  field_ok (cf_minute f) 0 59 ∧ field_ok (cf_hour f) 0 23 ∧ field_ok (cf_dayOfMonth f) 1 31 ∧
  field_ok (cf_month f) 1 12 ∧ field_ok (cf_dayOfWeek f) 0 6.
Proof.
  unfold parseCron. destruct (fields_of _) as [|f0 [|f1 [|f2 [|f3 [|f4 [|]]]]]]; try done.
  destruct (parseField f0 minute_bound) as [v0|] eqn:H0; cbn [obind]; [|done].
  destruct (parseField f1 hour_bound) as [v1|] eqn:H1; cbn [obind]; [|done].
  destruct (parseField f2 dayOfMonth_bound) as [v2|] eqn:H2; cbn [obind]; [|done].
  destruct (parseField f3 month_bound) as [v3|] eqn:H3; cbn [obind]; [|done].
  destruct (parseField f4 dayOfWeek_bound) as [v4|] eqn:H4; cbn [obind]; [|done].
  apply parseField_within in H0; [|done]. apply parseField_within in H1; [|done].
  apply parseField_within in H2; [|done]. apply parseField_within in H3; [|done].
  apply parseField_within in H4 as [Hne Hin]; [|done].
  intros [= <-]. cbn [cf_minute cf_hour cf_dayOfMonth cf_month cf_dayOfWeek].
  split; [exact H0|]. split; [exact H1|]. split; [exact H2|]. split; [exact H3|].
  unfold within in Hin. cbn [dayOfWeek_bound bd_min bd_max] in Hin. case_bool_decide as H7; split.
  - assert (0 ∈ ({[0]} ∪ fv_values v4) ∖ {[7]}); set_solver.
  - intros v [[->%elem_of_singleton|Hv]%elem_of_union Hn]%elem_of_difference; [lia|].
    apply Hin in Hv. assert (v ≠ 7) by set_solver. lia.
  - apply set_choose_L in Hne as [v Hv]. assert (v ∈ fv_values v4 ∖ {[7]}); set_solver.
  - intros v [Hv Hn]%elem_of_difference. apply Hin in Hv. assert (v ≠ 7) by set_solver. lia.
Qed.

(** ** The due minutes of a window *)

Section DueSpec.
Context (wallClockIn : string → Z → WallClock) (fields : CronFields) (timeZone : string).
#[local] Abbreviation hit := (cron_matches wallClockIn fields timeZone).

Lemma due_walk_take cap n l :
  n < cap → due_walk wallClockIn fields timeZone cap n l = take (Z.to_nat (cap - n)) (List.filter hit l).
Proof.
  revert n. induction l as [|t l IH]; intros n Hn; simpl; [by rewrite take_nil|]. destruct (hit t).
  - replace (Z.to_nat (cap - n)) with (S (Z.to_nat (cap - (n + 1)))) by lia. simpl. f_equal.
    destruct (cap <=? n + 1) eqn:E.
    + apply Z.leb_le in E. by replace (Z.to_nat (cap - (n + 1))) with 0%nat by lia.
    + apply Z.leb_gt in E. by apply IH.
  - by apply IH.
Qed.

(** The minutes with index [i] to [j]. *)
Definition minute_range (i j : Z) : list Z := map (λ k, k * MINUTE_MS) (seqZ i (j - i + 1)).

Lemma minutes_from_range i j : minutes_from (i * MINUTE_MS) (j * MINUTE_MS) = minute_range i j.
Proof.
  unfold minutes_from, minute_range, MINUTE_MS. destruct (_ <? _) eqn:E.
  - apply Z.ltb_lt in E. by rewrite seqZ_nil by lia.
  - apply Z.ltb_ge in E. replace ((j * 60000 - i * 60000) / 60000 + 1) with (j - i + 1);
      [|rewrite <-Z.mul_sub_distr_r, Z.div_mul by lia; lia].
    replace (seqZ i (j - i + 1)) with (Z.add i <$> seqZ 0 (j - i + 1)) by (rewrite fmap_add_seqZ; f_equal; lia).
    rewrite map_map. apply map_ext. intros k. lia.
Qed.

(** The first minute visited. *)
Definition first_minute (after until cap : Z) : Z :=
  Z.max (after / MINUTE_MS + 1) (until / MINUTE_MS - cap * 1440).

Lemma dueBetween_take after until cap :
  1 <= cap →
  dueBetween wallClockIn fields timeZone after until cap =
  take (Z.to_nat cap) (List.filter hit (minute_range (first_minute after until cap) (until / MINUTE_MS))).
Proof.
  intros Hc. unfold dueBetween. rewrite due_walk_take by lia. rewrite Z.sub_0_r. do 2 f_equal.
  rewrite <-minutes_from_range. unfold first_minute. f_equal.
  replace (until / MINUTE_MS * MINUTE_MS - cap * 24 * 60 * MINUTE_MS)
    with ((until / MINUTE_MS - cap * 1440) * MINUTE_MS) by lia.
  replace (after / MINUTE_MS * MINUTE_MS + MINUTE_MS) with ((after / MINUTE_MS + 1) * MINUTE_MS) by lia.
  unfold MINUTE_MS in *. destruct (_ <? _) eqn:E.
  - apply Z.ltb_lt in E. rewrite Z.div_mul by lia. lia.
  - apply Z.ltb_ge in E. lia.
Qed.

Lemma elem_of_minute_range i j t : t ∈ minute_range i j ↔ ∃ k, t = k * MINUTE_MS ∧ i <= k <= j.
Proof.
  unfold minute_range. rewrite list_elem_of_fmap. split; intros (k & -> & Hk); exists k; (split; [done|]).
  - apply elem_of_seqZ in Hk. lia.
  - apply elem_of_seqZ. lia.
Qed.

Lemma minute_range_app i m j : i <= m + 1 → m <= j → minute_range i j = minute_range i m ++ minute_range (m + 1) j.
Proof.
  intros Hi Hj. unfold minute_range. rewrite <-map_app. f_equal.
  replace (j - i + 1) with ((m - i + 1) + (j - (m + 1) + 1)) by lia. rewrite seqZ_app by lia. do 2 f_equal. lia.
Qed.

Lemma minute_window t after until k :
  t = k * MINUTE_MS → after / MINUTE_MS + 1 <= k <= until / MINUTE_MS → after < t <= until.
Proof. unfold MINUTE_MS. intros -> Hk. pose proof (Z.div_mod after 60000). pose proof (Z.div_mod until 60000).
  pose proof (Z.mod_pos_bound after 60000). pose proof (Z.mod_pos_bound until 60000). lia. Qed.

Lemma due_sound after until cap t :
  1 <= cap → t ∈ dueBetween wallClockIn fields timeZone after until cap →
  (∃ k, t = k * MINUTE_MS) ∧ after < t <= until ∧ hit t = true.
Proof.
  intros Hc. rewrite dueBetween_take by done. unfold first_minute. intros (i & Hi & _)%elem_of_take.
  apply list_elem_of_lookup_2, list_elem_of_In, filter_In in Hi as [Hi Hm].
  apply list_elem_of_In, elem_of_minute_range in Hi as (k & -> & Hk). split; [by exists k|]. split; [|done].
  apply (minute_window _ _ _ k); [done|lia].
Qed.

(** What is due is exact: every instant returned is a whole minute after the
    last one considered and not in the future, and matches; and when fewer than
    [cap] are returned, every matching minute of the window that lies within the
    last [cap] days is among them. *)
Theorem due_minutes_are_exact after until cap :
  1 <= cap →
  let due := dueBetween wallClockIn fields timeZone after until cap in
  (∀ t, t ∈ due → (∃ k, t = k * MINUTE_MS) ∧ after < t <= until ∧ hit t = true) ∧
  Z.of_nat (length due) <= cap ∧
  (Z.of_nat (length due) < cap → ∀ k, let t := k * MINUTE_MS in
     after < t <= until → until / MINUTE_MS - cap * 1440 <= k → hit t = true → t ∈ due).
Proof.
  intros Hc. cbv zeta. split; [intros t; by apply due_sound|]. rewrite dueBetween_take by done. unfold first_minute. split.
  - rewrite length_take. lia.
  - rewrite length_take. intros Hl k Ht Hk Hm. rewrite take_ge by lia. apply list_elem_of_In, filter_In. split; [|done].
    apply list_elem_of_In, elem_of_minute_range. exists k. split; [done|]. split.
    + apply Z.max_lub; [|done]. pose proof (Z.div_lt_upper_bound after MINUTE_MS k). unfold MINUTE_MS in *. lia.
    + unfold MINUTE_MS in *. apply Z.div_le_lower_bound; lia.
Qed.

(** Consecutive windows tile: a scheduler that looks at (a, b] and then at
    (b, c] finds the same minutes, in the same order, as one that looks at
    (a, c] once: no minute is fired twice and none is skipped, wherever within a
    minute the ticks fall, as long as the catch-up cap is not reached. *)
Theorem due_windows_tile a b c cap :
  1 <= cap → a <= b <= c → c / MINUTE_MS - a / MINUTE_MS <= cap * 1440 →
  Z.of_nat (length (dueBetween wallClockIn fields timeZone a c cap)) < cap →
  dueBetween wallClockIn fields timeZone a b cap ++ dueBetween wallClockIn fields timeZone b c cap =
  dueBetween wallClockIn fields timeZone a c cap.
Proof.
  intros Hc Hab Hspan. rewrite !dueBetween_take by done. unfold first_minute.
  assert (a / MINUTE_MS <= b / MINUTE_MS <= c / MINUTE_MS) as Hdiv by (split; apply Z.div_le_mono; unfold MINUTE_MS; lia).
  rewrite !Z.max_l by lia. rewrite (minute_range_app (a / MINUTE_MS + 1) (b / MINUTE_MS) (c / MINUTE_MS)) by lia.
  rewrite List.filter_app, length_take, length_app. intros Hl. rewrite !take_ge; [done|rewrite length_app; lia|lia..].
Qed.

(** The due minutes come in order, all after [after]. *)
Lemma minute_range_sorted i j : StronglySorted Z.lt (minute_range i j).
Proof.
  unfold minute_range. remember (j - i + 1) as n eqn:En. clear En. destruct (Z_lt_le_dec n 0) as [Hn|Hn].
  { rewrite seqZ_nil by lia. constructor. }
  revert i. pattern n. apply natlike_ind; [intros i; rewrite seqZ_nil by lia; constructor| |done]. clear n Hn.
  intros n Hn IH i. rewrite seqZ_cons by lia. replace (Z.pred (Z.succ n)) with n by lia. simpl. constructor; [apply IH|].
  apply Forall_forall. intros t (k & -> & Hk%elem_of_seqZ)%list_elem_of_fmap. unfold MINUTE_MS. lia.
Qed.

Lemma due_sorted after until cap :
  1 <= cap → StronglySorted Z.lt (after :: dueBetween wallClockIn fields timeZone after until cap).
Proof.
  intros Hc. constructor.
  - rewrite dueBetween_take by done. apply sorted_take, sorted_filter, minute_range_sorted.
  - apply Forall_forall. intros t Ht. apply due_sound in Ht; [lia|done].
Qed.
End DueSpec.

(** ** Witnesses *)

(** UTC, on a Monday in January. *)
Definition utc (_ : string) (at_ : Z) : WallClock :=
  {| wc_minute := at_ / 60000 mod 60; wc_hour := at_ / 3600000 mod 24; wc_dayOfMonth := 5; wc_month := 1; wc_dayOfWeek := 1 |}.

Definition every_quarter : CronFields :=
  match parseCron "*/15 * * * *" with
  | Ret f => f
  | Throw _ => {| cf_minute := ∅; cf_hour := ∅; cf_dayOfMonth := ∅; cf_month := ∅; cf_dayOfWeek := ∅;
                  cf_restrictsDayOfMonth := false; cf_restrictsDayOfWeek := false |}
  end.

Lemma accepted_expressions_are_in_range_witness :
  field_ok (cf_minute every_quarter) 0 59 ∧ field_ok (cf_dayOfWeek every_quarter) 0 6.
Proof.
  destruct (accepted_expressions_are_in_range "*/15 * * * *" every_quarter) as (H1 & _ & _ & _ & H2);
    [vm_compute; reflexivity|]. exact (conj H1 H2).
Defined.

Lemma due_minutes_are_exact_witness :
  dueBetween utc every_quarter "UTC" 0 1900000 5 = [900000; 1800000] ∧
  Z.of_nat (length (dueBetween utc every_quarter "UTC" 0 1900000 5)) <= 5.
Proof. split; [vm_compute; reflexivity|]. apply (due_minutes_are_exact utc every_quarter "UTC" 0 1900000 5). lia. Defined.

Lemma due_windows_tile_witness :
  dueBetween utc every_quarter "UTC" 0 1000000 5 ++ dueBetween utc every_quarter "UTC" 1000000 1900000 5 =
  dueBetween utc every_quarter "UTC" 0 1900000 5.
Proof. apply (due_windows_tile utc every_quarter "UTC" 0 1000000 1900000 5); vm_compute; [discriminate|split; discriminate|discriminate|reflexivity]. Defined.

(** A step on a range that wraps is dropped: hours 22 to 4 by twos are all seven
    hours, while 4 to 22 by twos are ten. *)
Theorem wrapped_range_drops_its_step :
  (elements ∘ fv_values <$> ret_value (parseField "22-4/2" hour_bound)) =
    (elements ∘ fv_values <$> ret_value (parseField "22-4" hour_bound)) ∧
  (size ∘ fv_values <$> ret_value (parseField "22-4/2" hour_bound)) = Some 7%nat ∧
  (size ∘ fv_values <$> ret_value (parseField "4-22/2" hour_bound)) = Some 10%nat.
Proof. by vm_compute. Qed.

(** An open range is read as a wrap around everything: [Number('')] is 0, so
    [1-] in the minute field is accepted and means every minute. *)
Theorem open_range_means_every_minute :
  (size ∘ fv_values <$> ret_value (parseField "1-" minute_bound)) = Some 60%nat ∧ isValidCron "1- * * * *" = true.
Proof. by vm_compute. Qed.
