(* ===== verification/Schedule.v ===== *)
(** * Firing schedules

    Models packages/db/src/repositories/schedules.ts (claiming an occurrence,
    recording runs and failures) and the tick of
    apps/web/src/lib/schedule-tick.ts.  Starting the run of an occurrence is a
    parameter; what it returns or throws decides what is recorded.  Deleting a
    schedule is not modelled. *)
From S2P Require Import Prelude Json Entities Mongo Guard Cron.

Record ScheduleDoc := {
  sd_id : string;
  sd_workspaceId : string;
  sd_name : string;
  sd_expression : string;
  sd_timeZone : string;
  sd_agentId : string;
  sd_modelBindingId : string;
  sd_prompt : string;
  sd_createdBy : string;
  sd_createdAt : Z;
  sd_enabled : bool;
  sd_lastFiredFor : option Z;
  sd_lastRunId : option string;
  sd_consecutiveFailures : Z;
  sd_lastError : option string;
  sd_updatedAt : Z;
}.

(** The fields an update sets. *)
Definition sched_set (enabled : bool) (lastFiredFor : option Z) (lastRunId : option string) (failures : Z)
    (lastError : option string) (updatedAt : Z) (d : ScheduleDoc) : ScheduleDoc :=
  {| sd_id := sd_id d; sd_workspaceId := sd_workspaceId d; sd_name := sd_name d; sd_expression := sd_expression d;
     sd_timeZone := sd_timeZone d; sd_agentId := sd_agentId d; sd_modelBindingId := sd_modelBindingId d;
     sd_prompt := sd_prompt d; sd_createdBy := sd_createdBy d; sd_createdAt := sd_createdAt d;
     sd_enabled := enabled; sd_lastFiredFor := lastFiredFor; sd_lastRunId := lastRunId;
     sd_consecutiveFailures := failures; sd_lastError := lastError; sd_updatedAt := updatedAt |}.

Definition FAILURE_LIMIT : Z := 10.
Definition CATCH_UP_LIMIT : Z := 5.

Definition fired_before (occurrence : Z) (d : ScheduleDoc) : bool :=
  match sd_lastFiredFor d with Some l => l <? occurrence | None => false end.

Section Schedules.
Context {C : Type} `{CollectionLaws ScheduleDoc C}.

(** ** The repository *)

(** The collection is the one of all workspaces; a repository adds its
    workspace to every filter it builds, and to what it inserts. *)
Definition owned_by (workspaceId : string) (d : ScheduleDoc) : bool := String.eqb (sd_workspaceId d) workspaceId.

Definition create_schedule (workspaceId : string) (d : ScheduleDoc) (now : Z) (c : C) : bool * C :=
  insertOne (λ _ _, false) (sd_id d)
    {| sd_id := sd_id d; sd_workspaceId := workspaceId; sd_name := sd_name d; sd_expression := sd_expression d;
       sd_timeZone := sd_timeZone d; sd_agentId := sd_agentId d; sd_modelBindingId := sd_modelBindingId d;
       sd_prompt := sd_prompt d; sd_createdBy := sd_createdBy d; sd_createdAt := now; sd_enabled := true;
       sd_lastFiredFor := Some now; sd_lastRunId := None; sd_consecutiveFailures := 0; sd_lastError := None;
       sd_updatedAt := now |} c.

Definition setEnabled (workspaceId : string) (now : Z) (id : string) (enabled : bool) (c : C) : C :=
  (updateOne id (owned_by workspaceId)
    (λ d, sched_set enabled (sd_lastFiredFor d) (sd_lastRunId d) 0 None now d) c).2.

(** A match always moves [lastFiredFor], so [modifiedCount] is [matchedCount]. *)
Definition claimOccurrence (workspaceId : string) (now : Z) (id : string) (occurrence : Z) (c : C) : bool * C :=
  updateOne id (λ d, owned_by workspaceId d && fired_before occurrence d)
    (λ d, sched_set (sd_enabled d) (Some occurrence) (sd_lastRunId d) (sd_consecutiveFailures d) (sd_lastError d) now d) c.

Definition recordRun (workspaceId : string) (id runId : string) (c : C) : C :=
  (updateOne id (owned_by workspaceId)
    (λ d, sched_set (sd_enabled d) (sd_lastFiredFor d) (Some runId) 0 None (sd_updatedAt d) d) c).2.

Definition find_schedule (workspaceId id : string) (c : C) : option ScheduleDoc :=
  match docs c !! id with
  | Some d => if owned_by workspaceId d then Some d else None
  | None => None
  end.

Definition recordScheduleFailure (workspaceId : string) (now : Z) (id message : string) (c : C) : C :=
  let failures := from_option sd_consecutiveFailures 0 (find_schedule workspaceId id c) + 1 in
  (updateOne id (owned_by workspaceId)
    (λ d, sched_set (if FAILURE_LIMIT <=? failures then false else sd_enabled d) (sd_lastFiredFor d) (sd_lastRunId d)
            failures (Some (str_take 500 message)) now d) c).2.

Definition any_schedule (a b : ScheduleDoc) : bool := true.
#[global] Instance any_schedule_order : SortOrder any_schedule.
Proof. by split. Qed.

Definition enabledSchedules (limit : nat) (c : C) : list (string * ScheduleDoc) :=
  find_docs sd_enabled any_schedule limit c.

(** ** The tick *)

Section Tick.
Context (wallClockIn : string → Z → WallClock).
Context (startRun : ScheduleDoc → Z → outcome string (option string)).

(** The loop over the occurrences: how many were fired, the collection, and
    the occurrences for which a run was started. *)
Fixpoint fire_all (now : Z) (schedule : ScheduleDoc) (occurrences : list Z) (fired : Z) (c : C)
    : outcome string Z * C * list Z :=
  match occurrences with
  | [] => (Ret fired, c, [])
  | o :: rest =>
      match claimOccurrence (sd_workspaceId schedule) now (sd_id schedule) o c with
      | (false, c1) => fire_all now schedule rest fired c1
      | (true, c1) =>
          match startRun schedule o with
          | Throw e => (Throw e, c1, [])
          | Ret None => fire_all now schedule rest fired c1
          | Ret (Some runId) =>
              let '(r, c2, started) :=
                fire_all now schedule rest (fired + 1) (recordRun (sd_workspaceId schedule) (sd_id schedule) runId c1) in
              (r, c2, o :: started)
          end
      end
  end.

Definition fireDue (now : Z) (schedule : ScheduleDoc) (c : C) : outcome string Z * C * list Z :=
  match parseCron (sd_expression schedule) with
  | Throw e => (Throw e, c, [])
  | Ret fields =>
      fire_all now schedule
        (dueBetween wallClockIn fields (sd_timeZone schedule) (default now (sd_lastFiredFor schedule)) now CATCH_UP_LIMIT) 0 c
  end.

Record TickResult := { tk_considered : Z; tk_fired : Z; tk_failed : Z }.

Fixpoint tick_each (now : Z) (schedules : list (string * ScheduleDoc)) (fired failed : Z) (c : C) : Z * Z * C :=
  match schedules with
  | [] => (fired, failed, c)
  | (_, schedule) :: rest =>
      match fireDue now schedule c with
      | (Ret n, c1, _) => tick_each now rest (fired + n) failed c1
      | (Throw e, c1, _) =>
          tick_each now rest fired (failed + 1)
            (recordScheduleFailure (sd_workspaceId schedule) now (sd_id schedule) e c1)
      end
  end.

Definition tickSchedules (now : Z) (c : C) : TickResult * C :=
  let schedules := enabledSchedules 500 c in
  let '(fired, nfailed, c') := tick_each now schedules 0 0 c in
  ({| tk_considered := Z.of_nat (length schedules); tk_fired := fired; tk_failed := nfailed |}, c').
End Tick.

(** ** At most once *)

(** What any number of overlapping ticks, and people, do to the collection. *)
Inductive sop :=
| SCreate (ws : string) (d : ScheduleDoc) (now : Z)
| SClaim (ws : string) (now : Z) (id : string) (occurrence : Z)
| SRun (ws : string) (id runId : string)
| SFail (ws : string) (now : Z) (id message : string)
| SEnable (ws : string) (now : Z) (id : string) (enabled : bool).

(** The claims that succeeded, in order. *)
Fixpoint claims (ops : list sop) (c : C) : list (string * Z) :=
  match ops with
  | [] => []
  | SCreate ws d now :: rest => claims rest (create_schedule ws d now c).2
  | SClaim ws now id o :: rest =>
      let '(ok, c') := claimOccurrence ws now id o c in
      (if ok : bool then [(id, o)] else []) ++ claims rest c'
  | SRun ws id runId :: rest => claims rest (recordRun ws id runId c)
  | SFail ws now id m :: rest => claims rest (recordScheduleFailure ws now id m c)
  | SEnable ws now id e :: rest => claims rest (setEnabled ws now id e c)
  end.

Definition last_fired (c : C) (id : string) : option Z := docs c !! id ≫= sd_lastFiredFor.

Lemma keeps_last_fired id p f (c : C) :
  (∀ d, sd_lastFiredFor (f d) = sd_lastFiredFor d) → ∀ id', last_fired (updateOne id p f c).2 id' = last_fired c id'.
Proof.
  intros Hf id'. unfold last_fired. destruct (updateOne_cases id p f c) as [(d & Hd & _ & _ & ->)|(_ & _ & ->)]; [|done].
  destruct (decide (id = id')) as [->|Hne]; [|by rewrite lookup_insert_ne]. rewrite lookup_insert_eq, Hd. simpl. apply Hf.
Qed.

(** Creating a schedule leaves the ones that exist alone. *)
Lemma create_keeps_last_fired ws d now (c : C) id l :
  last_fired c id = Some l → last_fired (create_schedule ws d now c).2 id = Some l.
Proof.
  unfold last_fired, create_schedule. intros Hl. destruct (docs c !! sd_id d) as [e|] eqn:E.
  - match goal with |- context [insertOne ?cl ?i ?x c] => destruct (insertOne_dup cl i x c) as [_ ->] end; [left; by exists e|done].
  - match goal with |- context [insertOne ?cl ?i ?x c] => destruct (insertOne_ok cl i x c) as [_ ->] end; [done|done|].
    rewrite lookup_insert_ne; [done|]. intros <-. by rewrite E in Hl.
Qed.

Lemma occurrence_cases ws now id o (c : C) :
  (∃ l, (claimOccurrence ws now id o c).1 = true ∧ last_fired c id = Some l ∧ l < o ∧
     ∀ id', last_fired (claimOccurrence ws now id o c).2 id' = if decide (id' = id) then Some o else last_fired c id') ∨
  ((claimOccurrence ws now id o c).1 = false ∧ ∀ id', last_fired (claimOccurrence ws now id o c).2 id' = last_fired c id').
Proof.
  unfold claimOccurrence, last_fired. match goal with |- context [updateOne id ?p ?f c] =>
    destruct (updateOne_cases id p f c) as [(d & Hd & Hp & -> & ->)|(_ & -> & ->)]; [left|by right] end.
  apply andb_true_iff in Hp as [_ Hp]. unfold fired_before in Hp.
  destruct (sd_lastFiredFor d) as [l|] eqn:El; [|done]. apply Z.ltb_lt in Hp.
  exists l. split; [done|]. split; [by rewrite Hd|]. split; [done|]. intros id'. case_decide as E.
  - subst. by rewrite lookup_insert_eq.
  - by rewrite lookup_insert_ne.
Qed.

(** Nothing is claimed at or before the last occurrence fired. *)
Lemma claims_after ops (c : C) id o l : last_fired c id = Some l → (id, o) ∈ claims ops c → l < o.
Proof.
  revert c l. induction ops as [|op ops IH]; intros c l Hl; simpl; [by intros ?%elem_of_nil|].
  destruct op as [ws d now|ws now id1 o1|ws id1 r|ws now id1 m|ws now id1 e].
  - apply IH. by apply create_keeps_last_fired.
  - pose proof (occurrence_cases ws now id1 o1 c) as Hc. destruct (claimOccurrence ws now id1 o1 c) as [ok c']. simpl in Hc.
    destruct Hc as [(l1 & -> & Hl1 & Hlt & Hf)|[-> Hf]].
    + intros [[= -> ->]%list_elem_of_singleton|Hin]%elem_of_app; [rewrite Hl in Hl1; by injection Hl1 as ->|].
      specialize (Hf id). case_decide as E.
      * subst. apply (IH c' o1 Hf) in Hin. rewrite Hl in Hl1. injection Hl1 as ->. lia.
      * rewrite Hl in Hf. by apply (IH c' l Hf).
    + apply IH. by rewrite Hf.
  - apply IH. unfold recordRun. by rewrite keeps_last_fired.
  - apply IH. unfold recordScheduleFailure. by rewrite keeps_last_fired.
  - apply IH. unfold setEnabled. by rewrite keeps_last_fired.
Qed.

(** An occurrence is claimed at most once: however many ticks overlap, retry or
    interleave with failures, runs and people creating schedules and switching
    them on and off, no occurrence of a schedule is claimed twice, and those of
    one schedule are claimed in order. *)
Theorem occurrences_are_claimed_once ops (c : C) :
  NoDup (claims ops c) ∧
  ∀ pre id o post, claims ops c = pre ++ (id, o) :: post → ∀ o', (id, o') ∈ post → o < o'.
Proof.
  revert c. induction ops as [|op ops IH]; intros c; simpl.
  { split; [constructor|]. intros [] ? ? ? [=]. }
  destruct op as [ws d now|ws now id1 o1|ws id1 r|ws now id1 m|ws now id1 e]; try apply IH.
  pose proof (occurrence_cases ws now id1 o1 c) as Hc. destruct (claimOccurrence ws now id1 o1 c) as [ok c']. simpl in Hc.
  destruct Hc as [(l1 & -> & Hl1 & Hlt & Hf)|[-> Hf]]; [|apply IH].
  specialize (Hf id1). rewrite decide_True in Hf by done. destruct (IH c') as [Hn Ho]. simpl. split.
  - constructor; [|done]. intros Hin. apply (claims_after _ _ _ _ _ Hf) in Hin. lia.
  - intros [|x pre] id o post [= E1 E2].
    + intros o' Hin. subst. by apply (claims_after ops c' id o' o).
    + by apply (Ho pre).
Qed.

(** ** What one tick fires *)

Section OneTick.
Context (wallClockIn : string → Z → WallClock) (startRun : ScheduleDoc → Z → outcome string (option string)).
Implicit Types (s : ScheduleDoc) (c : C).

(** The row of [s] is still there, last fired for [l]. *)
Definition row_at s (l : Z) c : Prop :=
  ∃ d, docs c !! sd_id s = Some d ∧ sd_workspaceId d = sd_workspaceId s ∧ sd_lastFiredFor d = Some l.

Lemma claim_row s l o now c :
  row_at s l c →
  if l <? o
  then (claimOccurrence (sd_workspaceId s) now (sd_id s) o c).1 = true ∧
       row_at s o (claimOccurrence (sd_workspaceId s) now (sd_id s) o c).2
  else (claimOccurrence (sd_workspaceId s) now (sd_id s) o c).1 = false ∧
       docs (claimOccurrence (sd_workspaceId s) now (sd_id s) o c).2 = docs c.
Proof.
  intros (d & Hd & Hw & Hl). unfold claimOccurrence. destruct (l <? o) eqn:E.
  - match goal with |- context [updateOne ?i ?p ?f c] => destruct (updateOne_hit i p f c d Hd) as [H1 H2] end.
    { unfold owned_by, fired_before. by rewrite Hw, String.eqb_refl, Hl. }
    split; [done|]. eexists. rewrite H2, lookup_insert_eq. done.
  - apply updateOne_miss. intros d' Hd'. rewrite Hd in Hd'. injection Hd' as <-.
    unfold fired_before. rewrite Hl, E. apply andb_false_r.
Qed.

Lemma record_row s l runId c : row_at s l c → row_at s l (recordRun (sd_workspaceId s) (sd_id s) runId c).
Proof.
  intros (d & Hd & Hw & Hl). unfold recordRun.
  match goal with |- context [updateOne ?i ?p ?f c] => destruct (updateOne_hit i p f c d Hd) as [_ H2] end.
  { unfold owned_by. by rewrite Hw, String.eqb_refl. }
  eexists. rewrite H2, lookup_insert_eq. done.
Qed.

Lemma row_docs s l c c' : docs c = docs c' → row_at s l c → row_at s l c'.
Proof. unfold row_at. by intros ->. Qed.

(** Occurrences later than the last one fired, in order, are all fired. *)
Lemma fire_all_fires s now occurrences n l c :
  (∀ o, ∃ r, startRun s o = Ret (Some r)) →
  StronglySorted Z.lt (l :: occurrences) → row_at s l c →
  ∃ c', fire_all startRun now s occurrences n c = (Ret (n + Z.of_nat (length occurrences)), c', occurrences) ∧
        row_at s (List.last occurrences l) c'.
Proof.
  intros Hrun. revert n l c. induction occurrences as [|o rest IH]; intros n l c Hs Hr; simpl.
  { exists c. by rewrite Z.add_0_r. }
  inversion Hs as [|? ? Hs' Hf]; subst. apply Forall_cons in Hf as [Hlo _].
  pose proof (claim_row s l o now c Hr) as Hc. rewrite (proj2 (Z.ltb_lt _ _) Hlo) in Hc.
  destruct (claimOccurrence _ _ _ _ c) as [ok c1]. simpl in Hc. destruct Hc as [-> Hr1].
  destruct (Hrun o) as [r ->]. destruct (IH (n + 1) o _ Hs' (record_row s o r c1 Hr1)) as (c' & -> & Hr').
  exists c'. split; [do 3 f_equal; lia|].
  change (row_at s (List.last (o :: rest) l) c'). by rewrite last_cons_default.
Qed.

(** Occurrences no later than the last one fired are left alone. *)
Lemma fire_all_stale s now occurrences n l c :
  Forall (λ o, o <= l) occurrences → row_at s l c →
  ∃ c', fire_all startRun now s occurrences n c = (Ret n, c', []) ∧ docs c' = docs c.
Proof.
  intros Ho. revert n c. induction Ho as [|o rest Hle _ IH]; intros n c Hr; simpl; [by exists c|].
  pose proof (claim_row s l o now c Hr) as Hc. rewrite (proj2 (Z.ltb_ge _ _) Hle) in Hc.
  destruct (claimOccurrence _ _ _ _ c) as [ok c1]. simpl in Hc. destruct Hc as [-> Hd].
  destruct (IH n c1 (row_docs _ _ _ _ (eq_sym Hd) Hr)) as (c' & -> & Hd'). exists c'. by rewrite Hd', Hd.
Qed.

(** A tick fires exactly what is due: when every run starts, [fireDue] starts
    one run for each of the due minutes, in order, and leaves the schedule fired
    for the last of them; a second tick that works from the row as the first one
    read it (an overlapping instance, a retry) starts nothing and changes
    nothing. *)
Theorem tick_fires_what_is_due s fields l now c :
  parseCron (sd_expression s) = Ret fields →
  docs c !! sd_id s = Some s → sd_lastFiredFor s = Some l →
  (∀ o, ∃ r, startRun s o = Ret (Some r)) →
  let due := dueBetween wallClockIn fields (sd_timeZone s) l now CATCH_UP_LIMIT in
  ∃ c' c'', fireDue wallClockIn startRun now s c = (Ret (Z.of_nat (length due)), c', due) ∧
    last_fired c' (sd_id s) = Some (List.last due l) ∧
    fireDue wallClockIn startRun now s c' = (Ret 0, c'', []) ∧ docs c'' = docs c'.
Proof.
  intros Hp Hd Hl Hrun due. unfold fireDue. rewrite Hp, Hl. cbn [default from_option id]. fold due.
  assert (StronglySorted Z.lt (l :: due)) as Hs by (apply due_sorted; done).
  destruct (fire_all_fires s now due 0 l c Hrun Hs) as (c' & E1 & Hr); [by exists s|].
  destruct (fire_all_stale s now due 0 (List.last due l) c') as (c'' & E2 & Hd''); [apply sorted_below_last; by inversion Hs|done|].
  exists c', c''. destruct Hr as (d & Hd' & _ & Hl'). unfold last_fired. by rewrite E1, E2, Hd'.
Qed.
End OneTick.
End Schedules.

(** ** Witnesses *)

Definition morning : ScheduleDoc :=
  {| sd_id := "sch_1"; sd_workspaceId := "wsp_1"; sd_name := "digest"; sd_expression := "*/15 * * * *"; sd_timeZone := "UTC";
     sd_agentId := "agt_1"; sd_modelBindingId := "mdb_1"; sd_prompt := "Summarise"; sd_createdBy := "usr_1"; sd_createdAt := 0;
     sd_enabled := true; sd_lastFiredFor := Some 0; sd_lastRunId := None; sd_consecutiveFailures := 0; sd_lastError := None;
     sd_updatedAt := 0 |}.

Definition schedules_on_file : gmap string ScheduleDoc := {[ "sch_1" := morning ]}.

Definition started_run (s : ScheduleDoc) (at_ : Z) : outcome string (option string) := Ret (Some "run_1").

(** Two overlapping ticks, with a failure between their claims. *)
Definition overlapping_ticks : list sop :=
  [SClaim "wsp_1" 1 "sch_1" 900000; SClaim "wsp_1" 1 "sch_1" 900000; SFail "wsp_1" 2 "sch_1" "no such agent";
   SClaim "wsp_1" 3 "sch_1" 1800000; SClaim "wsp_2" 3 "sch_1" 2700000; SClaim "wsp_1" 3 "sch_1" 900000].

Lemma occurrences_are_claimed_once_witness :
  claims overlapping_ticks schedules_on_file = [("sch_1", 900000); ("sch_1", 1800000)] ∧
  NoDup (claims overlapping_ticks schedules_on_file).
Proof.
  split; [vm_compute; reflexivity|]. exact (proj1 (occurrences_are_claimed_once overlapping_ticks schedules_on_file)).
Defined.

Lemma tick_fires_what_is_due_witness :
  ∃ c', fireDue utc started_run 1900000 morning schedules_on_file = (Ret 2, c', [900000; 1800000]) ∧
    last_fired c' "sch_1" = Some 1800000.
Proof.
  destruct (tick_fires_what_is_due utc started_run morning every_quarter 0 1900000 schedules_on_file)
    as (c' & c'' & H1 & H2 & _);
    [vm_compute; reflexivity|vm_compute; reflexivity|reflexivity|intros o; exists "run_1"; reflexivity|].
  assert (dueBetween utc every_quarter (sd_timeZone morning) 0 1900000 CATCH_UP_LIMIT = [900000; 1800000]) as E
    by (vm_compute; reflexivity).
  rewrite E in H1, H2. exists c'. exact (conj H1 H2).
Defined.

(** The scan for enabled schedules names no workspace and carries no platform
    marker, so the guard reports it. *)
Example schedule_scan_trips_the_guard :
  is_Some (analyzeCommand "find" (VObject [("find", VString "schedules"); ("filter", VObject [("enabled", VBool true)])])).
Proof. vm_compute. eexists. reflexivity. Qed.
