(* ===== verification/OAuthStore.v ===== *)
(** * Where the tokens of MCP servers live

    Models the interface [OAuthCredentialStore] of packages/mcp/src/oauth.ts,
    its implementation in memory there, and the one on MongoDB in
    packages/db/src/repositories/oauth-store.ts.  An operation names the scope
    it is for; the class [ScopedStore] states what the provider relies on: an
    operation on one scope neither reads nor writes another.  Both stores
    discharge it.  Of a MongoDB update this file uses that [$set] on a path
    below a null or through an empty name is refused. *)
From S2P Require Import Prelude Json JsonText Text Numbers Envelope Mongo Entities ResponseCache.

(** ** The interface *)

Record PendingAuthorization := {
  pa_state : string; pa_codeVerifier : string; pa_authorizationUrl : option string; pa_createdAt : Z }.

Inductive CredentialClass := cc_all | cc_client | cc_tokens | cc_verifier | cc_discovery.
#[global] Instance CredentialClass_eq_dec : EqDecision CredentialClass.
Proof. solve_decision. Defined.

(** The operations; a save carries what its encryption draws. *)
Inductive StoreOp :=
| op_loadClient (issuer : string)
| op_saveClient (issuer : string) (info : value)
| op_loadTokens (issuer : option string)
| op_saveTokens (issuer : string) (tokens : value) (draws : Draws)
| op_loadPending
| op_savePending (pending : PendingAuthorization) (draws : Draws)
| op_clearPending
| op_loadDiscovery
| op_saveDiscovery (state : value)
| op_invalidate (what : CredentialClass).

Inductive StoreReply :=
| re_value (v : option value)
| re_pending (p : option PendingAuthorization)
| re_done.

Inductive StoreError := se_path | se_key (e : KeyError) | se_decryption | se_json.

(** What is filed under a scope, as far as an implementation can tell. *)
Class ScopedStore (S V : Type) := {
  store_exec : StoreOp → string → S → outcome StoreError StoreReply * S;
  store_view : S → string → V;
  store_key : string → Prop;        (* the keys the store is used with *)
  store_ok : S → Prop;
}.

Class ScopedStoreLaws (S V : Type) `{ScopedStore S V} : Prop := {
  exec_ok op k (s : S) : store_key k → store_ok s → store_ok (store_exec op k s).2;
  exec_frame op k k' (s : S) :
    store_key k → store_key k' → store_ok s → k ≠ k' → store_view (store_exec op k s).2 k' = store_view s k';
  exec_local op k (s s' : S) :
    store_key k → store_ok s → store_ok s' → store_view s k = store_view s' k →
    (store_exec op k s).1 = (store_exec op k s').1 ∧ store_view (store_exec op k s).2 k = store_view (store_exec op k s').2 k;
  load_pending_pure k (s : S) : (store_exec op_loadPending k s).2 = s;
  cleared_pending k (s : S) :
    store_key k → store_ok s →
    (store_exec op_clearPending k s).1 = Ret re_done ∧
    (store_exec op_loadPending k (store_exec op_clearPending k s).2).1 = Ret (re_pending None);
}.

Definition drops (what this : CredentialClass) : bool := bool_decide (what = cc_all) || bool_decide (what = this).

(** ** In memory *)

Module InMemory.
Record Store := {
  m_clients : gmap string value; m_tokens : gmap string value; m_latest : gmap string string;
  m_pending : gmap string PendingAuthorization; m_discovery : gmap string value }.

Definition filed (scopeKey issuer : string) : string := scopeKey +:+ "|" +:+ issuer.
Definition of_scope (scopeKey key : string) : bool := String.eqb key scopeKey || String.prefix (scopeKey +:+ "|") key.
(** [dropFrom]: the keys of a scope, whichever issuer they are for. *)
Definition dropFrom {A} (scopeKey : string) (m : gmap string A) : gmap string A := filter (λ kv, of_scope scopeKey kv.1 = false) m.

Definition invalidate (scopeKey : string) (what : CredentialClass) (s : Store) : Store := {|
  m_clients := if drops what cc_client then dropFrom scopeKey (m_clients s) else m_clients s;
  m_tokens := if drops what cc_tokens then dropFrom scopeKey (m_tokens s) else m_tokens s;
  m_latest := if drops what cc_tokens then delete scopeKey (m_latest s) else m_latest s;
  m_pending := if drops what cc_verifier then delete scopeKey (m_pending s) else m_pending s;
  m_discovery := if drops what cc_discovery then dropFrom scopeKey (m_discovery s) else m_discovery s |}.

Definition exec (op : StoreOp) (k : string) (s : Store) : outcome StoreError StoreReply * Store :=
  match op with
  | op_loadClient issuer => (Ret (re_value (m_clients s !! filed k issuer)), s)
  | op_saveClient issuer info =>
      (Ret re_done, {| m_clients := <[filed k issuer := info]> (m_clients s); m_tokens := m_tokens s; m_latest := m_latest s;
                       m_pending := m_pending s; m_discovery := m_discovery s |})
  | op_loadTokens (Some issuer) => (Ret (re_value (m_tokens s !! filed k issuer)), s)
  | op_loadTokens None => (Ret (re_value (key ← m_latest s !! k; m_tokens s !! key)), s)
  | op_saveTokens issuer tokens _ =>
      (Ret re_done, {| m_clients := m_clients s; m_tokens := <[filed k issuer := tokens]> (m_tokens s);
                       m_latest := <[k := filed k issuer]> (m_latest s); m_pending := m_pending s; m_discovery := m_discovery s |})
  | op_loadPending => (Ret (re_pending (m_pending s !! k)), s)
  | op_savePending p _ =>
      (Ret re_done, {| m_clients := m_clients s; m_tokens := m_tokens s; m_latest := m_latest s;
                       m_pending := <[k := p]> (m_pending s); m_discovery := m_discovery s |})
  | op_clearPending =>
      (Ret re_done, {| m_clients := m_clients s; m_tokens := m_tokens s; m_latest := m_latest s;
                       m_pending := delete k (m_pending s); m_discovery := m_discovery s |})
  | op_loadDiscovery => (Ret (re_value (m_discovery s !! k)), s)
  | op_saveDiscovery v =>
      (Ret re_done, {| m_clients := m_clients s; m_tokens := m_tokens s; m_latest := m_latest s;
                       m_pending := m_pending s; m_discovery := <[k := v]> (m_discovery s) |})
  | op_invalidate what => (Ret re_done, invalidate k what s)
  end.

(** What a scope has: the entries under its keys. *)
Definition slice {A} (k : string) (m : gmap string A) : gmap string A := filter (λ kv, of_scope k kv.1 = true) m.
Record View := {
  v_clients : gmap string value; v_tokens : gmap string value; v_latest : option string;
  v_pending : option PendingAuthorization; v_discovery : gmap string value }.
Definition view (s : Store) (k : string) : View := {|
  v_clients := slice k (m_clients s); v_tokens := slice k (m_tokens s); v_latest := m_latest s !! k;
  v_pending := m_pending s !! k; v_discovery := slice k (m_discovery s) |}.
(** The latest tokens of a scope are tokens of that scope. *)
Definition ok (s : Store) : Prop := ∀ k key, m_latest s !! k = Some key → of_scope k key = true.
End InMemory.

(** ** On MongoDB *)

(** A field that holds a document: absent, null, or a document. *)
Inductive sub (A : Type) := sub_missing | sub_null | sub_doc (m : gmap string A).
Arguments sub_missing {A}.
Arguments sub_null {A}.
Arguments sub_doc {A} m.

(** [$set: { 'field.key': v }]. *)
Definition set_path {A} (key : string) (v : A) (f : sub A) : option (sub A) :=
  if String.eqb key "" then None
  else match f with
       | sub_missing => Some (sub_doc {[key := v]})
       | sub_null => None
       | sub_doc m => Some (sub_doc (<[key := v]> m))
       end.
Definition get_path {A} (key : string) (f : sub A) : option A := match f with sub_doc m => m !! key | _ => None end.

Record StoredPending := { sp_state : string; sp_codeVerifier : EncryptedPayload; sp_authorizationUrl : option string; sp_createdAt : Z }.

Record OAuthConnectionDoc := {
  oc_scopeKey : string; oc_bindingId : string; oc_userId : string; oc_clients : sub value; oc_tokens : sub EncryptedPayload;
  oc_latestIssuer : option string; oc_pending : option StoredPending; oc_discovery : option value }.

(** [partsOf]: what the scope key is made of. *)
Definition partsOf (scopeKey : string) : string * string :=
  let parts := str_split "|" scopeKey in
  let who := default "workspace" (parts !! 2%nat) in
  (default "" (parts !! 1%nat), if String.prefix "user:" who then str_drop 5 who else "workspace").

(** [issuer.replace(/[.$]/g, '_')]. *)
Definition field (issuer : string) : string := str_map (λ c, if Ascii.eqb c "." || Ascii.eqb c "$" then "_"%char else c) issuer.

Definition empty_row (scopeKey : string) : OAuthConnectionDoc := {|
  oc_scopeKey := scopeKey; oc_bindingId := (partsOf scopeKey).1; oc_userId := (partsOf scopeKey).2; oc_clients := sub_missing;
  oc_tokens := sub_missing; oc_latestIssuer := None; oc_pending := None; oc_discovery := None |}.

Definition with_clients (f : sub value) (d : OAuthConnectionDoc) : OAuthConnectionDoc := {|
  oc_scopeKey := oc_scopeKey d; oc_bindingId := oc_bindingId d; oc_userId := oc_userId d; oc_clients := f; oc_tokens := oc_tokens d;
  oc_latestIssuer := oc_latestIssuer d; oc_pending := oc_pending d; oc_discovery := oc_discovery d |}.
Definition with_tokens (f : sub EncryptedPayload) (latest : option string) (d : OAuthConnectionDoc) : OAuthConnectionDoc := {|
  oc_scopeKey := oc_scopeKey d; oc_bindingId := oc_bindingId d; oc_userId := oc_userId d; oc_clients := oc_clients d; oc_tokens := f;
  oc_latestIssuer := latest; oc_pending := oc_pending d; oc_discovery := oc_discovery d |}.
Definition with_pending (p : option StoredPending) (d : OAuthConnectionDoc) : OAuthConnectionDoc := {|
  oc_scopeKey := oc_scopeKey d; oc_bindingId := oc_bindingId d; oc_userId := oc_userId d; oc_clients := oc_clients d; oc_tokens := oc_tokens d;
  oc_latestIssuer := oc_latestIssuer d; oc_pending := p; oc_discovery := oc_discovery d |}.
Definition with_discovery (v : option value) (d : OAuthConnectionDoc) : OAuthConnectionDoc := {|
  oc_scopeKey := oc_scopeKey d; oc_bindingId := oc_bindingId d; oc_userId := oc_userId d; oc_clients := oc_clients d; oc_tokens := oc_tokens d;
  oc_latestIssuer := oc_latestIssuer d; oc_pending := oc_pending d; oc_discovery := v |}.

(** [invalidate] sets the fields to null. *)
Definition nulled (what : CredentialClass) (d : OAuthConnectionDoc) : OAuthConnectionDoc :=
  let d1 := if drops what cc_client then with_clients sub_null d else d in
  let d2 := if drops what cc_tokens then with_tokens sub_null None d1 else d1 in
  let d3 := if drops what cc_verifier then with_pending None d2 else d2 in
  if drops what cc_discovery then with_discovery None d3 else d3.

Section MongoStore.
Context {C : Type} `{CollectionLaws OAuthConnectionDoc C}.
Context (aead : Aead) (kp : KeyProvider) (workspaceId : string).

Definition under (scopeKey : string) (d : OAuthConnectionDoc) : bool := String.eqb (oc_scopeKey d) scopeKey.
Definition row (scopeKey : string) (c : C) : option OAuthConnectionDoc := snd <$> find_one (under scopeKey) c.

(** [#upsert]: the update of one row, or of a new one; an update the server
    refuses changes nothing. *)
Definition upsert (scopeKey : string) (update : OAuthConnectionDoc → option OAuthConnectionDoc) (c : C)
    : outcome StoreError StoreReply * C :=
  match update (default (empty_row scopeKey) (row scopeKey c)) with
  | None => (Throw se_path, c)
  | Some _ => (Ret re_done, upsertOne (under scopeKey) ("oac_" +:+ scopeKey)
                 (λ d, let base := default (empty_row scopeKey) d in default base (update base)) c)
  end.

Definition seal_binding (scopeKey kind : string) : CredentialBinding :=
  {| cb_workspaceId := workspaceId; cb_credentialId := scopeKey; cb_kind := kind |}.

Definition open_blob (blob : EncryptedPayload) (scopeKey kind : string) : outcome StoreError string :=
  match decrypt aead kp blob (seal_binding scopeKey kind) with Ret s => Ret (expose_secret s) | Throw _ => Throw se_decryption end.

Definition mongo_exec (op : StoreOp) (k : string) (c : C) : outcome StoreError StoreReply * C :=
  match op with
  | op_loadClient issuer => (Ret (re_value (d ← row k c; get_path (field issuer) (oc_clients d))), c)
  | op_saveClient issuer info =>
      upsert k (λ d, f ← set_path (field issuer) info (oc_clients d); Some (with_clients f d)) c
  | op_loadTokens issuer =>
      (match row k c with
       | None => Ret (re_value None)
       | Some d =>
           match match issuer with Some i => Some (field i) | None => oc_latestIssuer d end with
           | None => Ret (re_value None)
           | Some key =>
               match get_path key (oc_tokens d) with
               | None => Ret (re_value None)
               | Some blob =>
                   match open_blob blob k "oauth_tokens" with
                   | Throw e => Throw e
                   | Ret text => match json_parse text with Some v => Ret (re_value (Some v)) | None => Throw se_json end
                   end
               end
           end
       end, c)
  | op_saveTokens issuer tokens draws =>
      match encrypt aead kp draws (stringify tokens) (seal_binding k "oauth_tokens") with
      | Throw e => (Throw (se_key e), c)
      | Ret blob => upsert k (λ d, f ← set_path (field issuer) blob (oc_tokens d); Some (with_tokens f (Some (field issuer)) d)) c
      end
  | op_loadPending =>
      (match (d ← row k c; oc_pending d) with
       | None => Ret (re_pending None)
       | Some p =>
           match open_blob (sp_codeVerifier p) k "oauth_verifier" with
           | Throw e => Throw e
           | Ret verifier => Ret (re_pending (Some {| pa_state := sp_state p; pa_codeVerifier := verifier;
                                                      pa_authorizationUrl := sp_authorizationUrl p; pa_createdAt := sp_createdAt p |}))
           end
       end, c)
  | op_savePending p draws =>
      match encrypt aead kp draws (pa_codeVerifier p) (seal_binding k "oauth_verifier") with
      | Throw e => (Throw (se_key e), c)
      | Ret blob => upsert k (λ d, Some (with_pending (Some {| sp_state := pa_state p; sp_codeVerifier := blob;
                                                               sp_authorizationUrl := pa_authorizationUrl p; sp_createdAt := pa_createdAt p |}) d)) c
      end
  | op_clearPending => upsert k (λ d, Some (with_pending None d)) c
  | op_loadDiscovery => (Ret (re_value (d ← row k c; oc_discovery d)), c)
  | op_saveDiscovery v => upsert k (λ d, Some (with_discovery (Some v) d)) c
  | op_invalidate what => upsert k (λ d, Some (nulled what d)) c
  end.

(** [scopeKeyForState]. *)
Definition scopeKeyForState (state : string) (c : C) : option string :=
  (λ kd, oc_scopeKey kd.2) <$> find_one (λ d, match oc_pending d with Some p => String.eqb (sp_state p) state | None => false end) c.

(** One row per scope, under the identifier made of it. *)
Definition rows_ok (c : C) : Prop := ∀ id d, docs c !! id = Some d → id = "oac_" +:+ oc_scopeKey d.
End MongoStore.

(** ** Keys that cannot be mistaken for one another *)

Lemma split_app sep a b : str_split sep (a +:+ String sep b) = str_split sep a ++ str_split sep b.
Proof.
  induction a as [|c a IH]; cbn [String.append str_split]; [by rewrite Ascii.eqb_refl|].
  destruct (Ascii.eqb sep c); cbn [str_split] in *; rewrite IH; [done|]. destruct (str_split sep a) eqn:E; [|done].
  by destruct a as [|x a]; cbn in E; repeat case_match.
Qed.

Lemma split_nonempty sep s : str_split sep s ≠ [].
Proof. destruct s; cbn; [done|]. repeat case_match; done. Qed.

Lemma split_inj sep a b : str_split sep a = str_split sep b → a = b.
Proof.
  revert b. induction a as [|c a IH]; intros [|d b]; cbn [str_split]; try done.
  - destruct (Ascii.eqb sep d); [|by destruct (str_split sep b)]. intros [= E]. by destruct (split_nonempty sep b).
  - destruct (Ascii.eqb sep c); [|by destruct (str_split sep a)]. intros [= E]. by destruct (split_nonempty sep a).
  - destruct (Ascii.eqb_spec sep c) as [<-|], (Ascii.eqb_spec sep d) as [<-|].
    + intros [= E]. f_equal. by apply IH.
    + destruct (str_split sep b) eqn:Eb; [by destruct (split_nonempty sep b)|done].
    + destruct (str_split sep a) eqn:Ea; [by destruct (split_nonempty sep a)|done].
    + destruct (str_split sep a) eqn:Ea; [by destruct (split_nonempty sep a)|].
      destruct (str_split sep b) eqn:Eb; [by destruct (split_nonempty sep b)|]. intros [= -> -> ->]. f_equal. by apply IH.
Qed.

(** A scope key has three parts. *)
Definition three_parts (k : string) : Prop := length (str_split "|" k) = 3%nat.

Lemma plain_id_lacks s : plain_id s = lacks "|" s.
Proof.
  unfold plain_id, lacks. induction s as [|c s IH]; [done|]. cbn [str_has str_all]. by rewrite negb_orb, IH.
Qed.

Lemma scope_three_parts s : plain_scope s = true → three_parts (scopeKeyString s).
Proof.
  unfold three_parts. destruct s as [w b|w b u]; cbn [plain_scope scopeKeyString]; rewrite !plain_id_lacks, ?andb_true_iff.
  - intros [Hw Hb]. cbn [String.append]. rewrite (split_first "|" w), (split_first "|" b) by done. done.
  - intros [[Hw Hb] Hu]. cbn [String.append]. rewrite (split_first "|" w), (split_first "|" b) by done.
    cbn [str_split Ascii.eqb Bool.eqb]. by rewrite split_last by done.
Qed.

Module InMemoryLaws.
Import InMemory.

Lemma of_scope_parts k key : three_parts k → of_scope k key = true → take 3 (str_split "|" key) = str_split "|" k.
Proof.
  intros H3 Ho. unfold of_scope in Ho. apply orb_true_iff in Ho as [->%String.eqb_eq|Hp].
  - rewrite take_ge; [done|]. unfold three_parts in H3. lia.
  - apply prefix_app in Hp. rewrite Hp, str_app_assoc. cbn [String.append]. rewrite split_app, take_app_length'; [done|]. by rewrite H3.
Qed.

Lemma of_scope_filed k issuer : of_scope k (filed k issuer) = true.
Proof. apply orb_true_iff. right. apply prefix_iff. exists issuer. unfold filed. by rewrite str_app_assoc. Qed.

Lemma of_scope_self k : of_scope k k = true.
Proof. unfold of_scope. by rewrite String.eqb_refl. Qed.

Lemma of_scope_apart k k' key : three_parts k → three_parts k' → k ≠ k' → of_scope k key = true → of_scope k' key = false.
Proof.
  intros H3 H3' Hne Ho. apply not_true_iff_false. intros Ho'. apply Hne.
  apply (split_inj "|"). rewrite <-(of_scope_parts k key), <-(of_scope_parts k' key) by done. done.
Qed.

Section Slices.
Context {A : Type}.
Implicit Types m : gmap string A.

Lemma slice_lookup k key m : of_scope k key = true → slice k m !! key = m !! key.
Proof.
  intros Ho. unfold slice. destruct (m !! key) as [v|] eqn:E; [by apply map_lookup_filter_Some|].
  apply map_lookup_filter_None. by left.
Qed.
Lemma slice_insert_other k key (v : A) m : of_scope k key = false → slice k (<[key := v]> m) = slice k m.
Proof.
  intros Ho. unfold slice. rewrite map_filter_insert_not'; [done|simpl; congruence|]. simpl. intros ? _. congruence.
Qed.
Lemma slice_insert_own k key (v : A) m : of_scope k key = true → slice k (<[key := v]> m) = <[key := v]> (slice k m).
Proof. intros Ho. unfold slice. by rewrite map_filter_insert_True. Qed.
Lemma slice_drop_other k k' m : (∀ key, of_scope k' key = true → of_scope k key = false) → slice k' (dropFrom k m) = slice k' m.
Proof.
  intros Ha. unfold slice, dropFrom. rewrite map_filter_filter. apply map_filter_ext. intros i x Hi. simpl. naive_solver.
Qed.
Lemma slice_drop_own k m : slice k (dropFrom k m) = ∅.
Proof.
  unfold slice, dropFrom. apply map_empty. intros i. apply map_lookup_filter_None. right. intros x [_ Hf]%map_lookup_filter_Some. simpl in *. congruence.
Qed.
End Slices.

#[global] Instance memory_store : ScopedStore Store View :=
  {| store_exec := exec; store_view := view; store_key := three_parts; store_ok := ok |}.

Lemma memory_frame op k k' s : three_parts k → three_parts k' → k ≠ k' → view (exec op k s).2 k' = view s k'.
Proof.
  intros H3 H3' Hne.
  assert (∀ key, of_scope k key = true → of_scope k' key = false) as Ha by (intros; by apply (of_scope_apart k k')).
  assert (∀ key, of_scope k' key = true → of_scope k key = false) as Ha' by (intros; by apply (of_scope_apart k' k)).
  destruct op as [i|i v|[i|]|i v dr| |p dr| | |v|what]; cbn [exec snd]; try done; unfold view; cbn;
    rewrite ?slice_insert_other by (apply Ha; auto using of_scope_filed, of_scope_self);
    rewrite ?lookup_insert_ne, ?lookup_delete_ne by done; try done.
  f_equal; repeat case_match; rewrite ?slice_drop_other, ?lookup_delete_ne by done; done.
Qed.

Lemma memory_ok op k s : ok s → ok (exec op k s).2.
Proof.
  intros Hok. destruct op as [i|i v|[i|]|i v dr| |p dr| | |v|what]; cbn [exec snd]; try done; intros j key; cbn; try apply Hok.
  - intros [[<- <-]|[Hne Hl]]%lookup_insert_Some; [apply of_scope_filed|by apply Hok].
  - destruct (drops what cc_tokens); [|apply Hok]. intros [_ Hl]%lookup_delete_Some. by apply Hok.
Qed.

Lemma memory_local op k s s' : ok s → ok s' → view s k = view s' k →
  (exec op k s).1 = (exec op k s').1 ∧ view (exec op k s).2 k = view (exec op k s').2 k.
Proof.
  intros Hok Hok' E. unfold view in E. injection E as Ec Et El Ep Ed.
  destruct op as [i|i v|[i|]|i v dr| |p dr| | |v|what]; cbn [exec fst snd]; unfold view; cbn.
  - split; [|by rewrite Ec, Et, El, Ep, Ed].
    rewrite <-(slice_lookup k (filed k i) (m_clients s)), <-(slice_lookup k (filed k i) (m_clients s')), Ec by apply of_scope_filed. done.
  - split; [done|]. rewrite !slice_insert_own by apply of_scope_filed. by rewrite Ec, Et, El, Ep, Ed.
  - split; [|by rewrite Ec, Et, El, Ep, Ed].
    rewrite <-(slice_lookup k (filed k i) (m_tokens s)), <-(slice_lookup k (filed k i) (m_tokens s')), Et by apply of_scope_filed. done.
  - split; [|by rewrite Ec, Et, El, Ep, Ed]. rewrite El. destruct (m_latest s' !! k) as [key|] eqn:Hl; [|done]. cbn.
    rewrite <-(slice_lookup k key (m_tokens s)), <-(slice_lookup k key (m_tokens s')), Et by (by apply Hok'). done.
  - split; [done|]. rewrite !slice_insert_own, !lookup_insert_eq by apply of_scope_filed. by rewrite Ec, Et, Ep, Ed.
  - split; [by rewrite Ep|by rewrite Ec, Et, El, Ep, Ed].
  - split; [done|]. rewrite !lookup_insert_eq. by rewrite Ec, Et, El, Ed.
  - split; [done|]. rewrite !lookup_delete_eq. by rewrite Ec, Et, El, Ed.
  - split; [|by rewrite Ec, Et, El, Ep, Ed].
    rewrite <-(slice_lookup k k (m_discovery s)), <-(slice_lookup k k (m_discovery s')), Ed by apply of_scope_self. done.
  - split; [done|]. rewrite !slice_insert_own by apply of_scope_self. by rewrite Ec, Et, El, Ep, Ed.
  - split; [done|]. f_equal; repeat case_match; rewrite ?slice_drop_own, ?lookup_delete_eq; congruence.
Qed.

#[global] Instance memory_store_laws : ScopedStoreLaws Store View.
Proof.
  split; cbn [store_exec store_view store_key store_ok memory_store]; intros.
  - by apply memory_ok.
  - by apply memory_frame.
  - by apply memory_local.
  - done.
  - cbn. by rewrite lookup_delete_eq.
Qed.
End InMemoryLaws.

(** ** The rows of MongoDB are separate too *)

Section MongoLaws.
Context {C : Type} `{CollectionLaws OAuthConnectionDoc C}.
Context (aead : Aead) (kp : KeyProvider) (workspaceId : string).
Notation rid k := ("oac_" +:+ k).

Lemma row_lookup k (c : C) : rows_ok c → row k c = docs c !! rid k.
Proof.
  intros Hok. unfold row. destruct (find_one (under k) c) as [[id d]|] eqn:Hf; cbn.
  - apply find_one_some in Hf as [Hd Hu%String.eqb_eq]. pose proof (Hok id d Hd) as Hid. rewrite Hu in Hid. by subst id.
  - destruct (docs c !! rid k) as [d|] eqn:Hd; [|done]. pose proof (find_one_none _ _ _ _ Hf Hd) as Hu.
    apply Hok in Hd as Hid. apply str_app_inj_l in Hid. unfold under in Hu. by rewrite <-Hid, String.eqb_refl in Hu.
Qed.

Lemma upsert_docs k f (c : C) : rows_ok c →
  docs (upsertOne (under k) (rid k) f c) = <[rid k := f (docs c !! rid k)]> (docs c).
Proof.
  intros Hok. destruct (docs c !! rid k) as [d|] eqn:Hd.
  - apply Hok in Hd as Hid. apply str_app_inj_l in Hid.
    destruct (upsertOne_hit (under k) (rid k) f c (rid k) d Hd) as (id' & d' & Hd' & Hu%String.eqb_eq & ->).
    { unfold under. by rewrite <-Hid, String.eqb_refl. }
    apply Hok in Hd' as Hid'. rewrite Hu in Hid'. subst id'. by rewrite Hd in Hd'; injection Hd' as <-.
  - apply upsertOne_miss; [|done]. intros id e He. apply not_true_iff_false. intros Hu%String.eqb_eq.
    apply Hok in He as Hid. rewrite Hu in Hid. congruence.
Qed.

(** An update that keeps the key: what it does to the row of its scope, and that it leaves the others alone. *)
Definition keeps_key (update : OAuthConnectionDoc → option OAuthConnectionDoc) : Prop :=
  ∀ d d', update d = Some d' → oc_scopeKey d' = oc_scopeKey d.

Lemma upsert_spec k update (c : C) : rows_ok c → keeps_key update →
  match update (default (empty_row k) (row k c)) with
  | None => upsert k update c = (Throw se_path, c)
  | Some d' => (upsert k update c).1 = Ret re_done ∧ docs (upsert k update c).2 = <[rid k := d']> (docs c) ∧ oc_scopeKey d' = k
  end.
Proof.
  intros Hok Hkeep. unfold upsert. rewrite row_lookup by done.
  destruct (update (default (empty_row k) (docs c !! rid k))) as [d'|] eqn:Hu; [|done]. cbn [fst snd].
  rewrite upsert_docs by done. rewrite Hu. split_and!; [done|done|]. apply Hkeep in Hu as ->.
  destruct (docs c !! rid k) as [d|] eqn:Hd; [|done]. apply Hok in Hd. by apply str_app_inj_l in Hd.
Qed.

Lemma upsert_ok k update (c : C) : rows_ok c → keeps_key update → rows_ok (upsert k update c).2.
Proof.
  intros Hok Hkeep. pose proof (upsert_spec k update c Hok Hkeep) as Hs.
  destruct (update _) as [d'|]; [|by rewrite Hs]. destruct Hs as (_ & Hd & Hk). intros id d. rewrite Hd.
  intros [[<- <-]|[_ Hl]]%lookup_insert_Some; [by rewrite Hk|by apply Hok].
Qed.

Lemma rid_ne k k' : k ≠ k' → rid k ≠ rid k'.
Proof. intros Hne E. by apply str_app_inj_l in E. Qed.

Lemma upsert_frame k k' update (c : C) : rows_ok c → keeps_key update → k ≠ k' → row k' (upsert k update c).2 = row k' c.
Proof.
  intros Hok Hkeep Hne. pose proof (upsert_ok k update c Hok Hkeep) as Hok'. rewrite !row_lookup by done.
  pose proof (upsert_spec k update c Hok Hkeep) as Hs. destruct (update _) as [d'|]; [|by rewrite Hs].
  destruct Hs as (_ & -> & _). by rewrite lookup_insert_ne by (by apply rid_ne).
Qed.

Lemma upsert_local k update (c c' : C) : rows_ok c → rows_ok c' → keeps_key update → row k c = row k c' →
  (upsert k update c).1 = (upsert k update c').1 ∧ row k (upsert k update c).2 = row k (upsert k update c').2.
Proof.
  intros Hok Hok' Hkeep E. pose proof (upsert_spec k update c Hok Hkeep) as Hs. pose proof (upsert_spec k update c' Hok' Hkeep) as Hs'.
  rewrite (row_lookup k (upsert k update c).2), (row_lookup k (upsert k update c').2) by (by apply upsert_ok).
  rewrite <-E in Hs'. destruct (update (default (empty_row k) (row k c))) as [d'|].
  - destruct Hs as (-> & -> & _), Hs' as (-> & -> & _). by rewrite !lookup_insert_eq.
  - rewrite Hs, Hs'. cbn [fst snd]. rewrite <-!row_lookup by done. done.
Qed.

(** Reading leaves the rows alone; writing is one update. *)

Lemma mongo_exec_cases op k :
  (∃ read : option OAuthConnectionDoc → outcome StoreError StoreReply, ∀ c : C, mongo_exec aead kp workspaceId op k c = (read (row k c), c)) ∨
  (∃ e, ∀ c : C, mongo_exec aead kp workspaceId op k c = (Throw e, c)) ∨
  (∃ update, keeps_key update ∧ ∀ c : C, mongo_exec aead kp workspaceId op k c = upsert k update c).
Proof.
  destruct op as [i|i v|i|i v dr| |p dr| | |v|what]; cbn [mongo_exec].
  - left. by exists (λ r, Ret (re_value (d ← r; get_path (field i) (oc_clients d)))).
  - right; right. eexists. split; [|done]. intros d d'. cbn. destruct (set_path _ _ _); [|done]. by intros [= <-].
  - left. exists (λ r, match r with
       | None => Ret (re_value None)
       | Some d =>
           match match i with Some i => Some (field i) | None => oc_latestIssuer d end with
           | None => Ret (re_value None)
           | Some key =>
               match get_path key (oc_tokens d) with
               | None => Ret (re_value None)
               | Some blob =>
                   match open_blob aead kp workspaceId blob k "oauth_tokens" with
                   | Throw e => Throw e
                   | Ret text => match json_parse text with Some v => Ret (re_value (Some v)) | None => Throw se_json end
                   end
               end
           end
       end). done.
  - right. destruct (encrypt _ _ _ _ _) as [blob|e]; [right|left; by eexists]. eexists. split; [|done].
    intros d d'. cbn. destruct (set_path _ _ _); [|done]. by intros [= <-].
  - left. exists (λ r, match (d ← r; oc_pending d) with
       | None => Ret (re_pending None)
       | Some p =>
           match open_blob aead kp workspaceId (sp_codeVerifier p) k "oauth_verifier" with
           | Throw e => Throw e
           | Ret verifier => Ret (re_pending (Some {| pa_state := sp_state p; pa_codeVerifier := verifier;
                                                      pa_authorizationUrl := sp_authorizationUrl p; pa_createdAt := sp_createdAt p |}))
           end
       end). done.
  - right. destruct (encrypt _ _ _ _ _) as [blob|e]; [right|left; by eexists]. eexists. split; [|done]. by intros d d' [= <-].
  - right; right. eexists. split; [|done]. by intros d d' [= <-].
  - left. by exists (λ r, Ret (re_value (d ← r; oc_discovery d))).
  - right; right. eexists. split; [|done]. by intros d d' [= <-].
  - right; right. eexists. split; [|done]. intros d d' [= <-]. unfold nulled. by repeat case_match.
Qed.

#[global] Instance mongo_store : ScopedStore C (option OAuthConnectionDoc) :=
  {| store_exec := mongo_exec aead kp workspaceId; store_view := λ c k, row k c; store_key := λ _, True; store_ok := rows_ok |}.

#[global] Instance mongo_store_laws : ScopedStoreLaws C (option OAuthConnectionDoc).
Proof.
  split; cbn [store_exec store_view store_key store_ok mongo_store].
  - intros op k c _ Hok. destruct (mongo_exec_cases op k) as [[r Hr]|[[e He]|(u & Hk & Hu)]]; [by rewrite Hr|by rewrite He|].
    rewrite Hu. by apply upsert_ok.
  - intros op k k' c _ _ Hok Hne. destruct (mongo_exec_cases op k) as [[r Hr]|[[e He]|(u & Hk & Hu)]]; [by rewrite Hr|by rewrite He|].
    rewrite Hu. by apply upsert_frame.
  - intros op k c c' _ Hok Hok' E. destruct (mongo_exec_cases op k) as [[r Hr]|[[e He]|(u & Hk & Hu)]].
    + by rewrite !Hr, E.
    + by rewrite !He.
    + rewrite !Hu. by apply upsert_local.
  - done.
  - intros k c _ Hok. cbn [mongo_exec].
    assert (keeps_key (λ d, Some (with_pending None d))) as Hk by (by intros d d' [= <-]).
    pose proof (upsert_spec k (λ d, Some (with_pending None d)) c Hok Hk) as (-> & Hd & _). split; [done|]. cbn [fst].
    rewrite row_lookup by (by apply upsert_ok). by rewrite Hd, lookup_insert_eq.
Qed.
End MongoLaws.

(** ** What is saved comes back, sealed to its scope *)

Section RoundTrips.
Context {C : Type} `{CollectionLaws OAuthConnectionDoc C}.
Context (aead : Aead) `{!AeadLaws aead} (kp : KeyProvider) `{!HonestProvider kp} (workspaceId : string).
Notation run := (mongo_exec aead kp workspaceId).

Lemma upsert_row k update (c : C) d' : rows_ok c → keeps_key update →
  update (default (empty_row k) (row k c)) = Some d' → (upsert k update c).1 = Ret re_done ∧ row k (upsert k update c).2 = Some d'.
Proof.
  intros Hok Hkeep Hu. pose proof (upsert_spec k update c Hok Hkeep) as Hs. rewrite Hu in Hs. destruct Hs as (-> & Hd & _).
  split; [done|]. rewrite row_lookup by (by apply upsert_ok). by rewrite Hd, lookup_insert_eq.
Qed.

Lemma keeps_tokens key blob latest : keeps_key (λ d, f ← set_path key blob (oc_tokens d); Some (with_tokens f latest d)).
Proof. intros d d'. cbn. destruct (set_path _ _ _); [|done]. by intros [= <-]. Qed.

(** C20.  Tokens saved for an issuer are read back for that issuer and when no issuer
    is named, in every scope whose tokens were never invalidated. *)
Theorem saved_tokens_come_back k issuer tokens draws (c : C) :
  rows_ok c → plain tokens → String.length (dr_wrapIv draws) = IV_BYTES → issuer ≠ "" →
  (∀ d, row k c = Some d → oc_tokens d ≠ sub_null) →
  ∃ c', run (op_saveTokens issuer tokens draws) k c = (Ret re_done, c') ∧
    (run (op_loadTokens (Some issuer)) k c').1 = Ret (re_value (Some tokens)) ∧
    (run (op_loadTokens None) k c').1 = Ret (re_value (Some tokens)).
Proof.
  intros Hok Hplain Hiv Hne Hnull. cbn [mongo_exec].
  destruct (decrypt_encrypt aead kp draws (stringify tokens) (seal_binding workspaceId k "oauth_tokens") Hiv) as (blob & -> & Hdec).
  assert (field issuer ≠ "") as Hf by (by destruct issuer).
  assert (∃ m, set_path (field issuer) blob (oc_tokens (default (empty_row k) (row k c))) = Some (sub_doc m) ∧ m !! field issuer = Some blob) as (m & Hset & Hm).
  { unfold set_path. destruct (String.eqb_spec (field issuer) ""); [done|].
    destruct (row k c) as [d|] eqn:Hr; cbn; [|eexists; split; [done|apply lookup_singleton_eq]].
    pose proof (Hnull d eq_refl). destruct (oc_tokens d); [|done|]; eexists; (split; [done|]); [apply lookup_singleton_eq|apply lookup_insert_eq]. }
  destruct (upsert_row k (λ d, f ← set_path (field issuer) blob (oc_tokens d); Some (with_tokens f (Some (field issuer)) d)) c
              (with_tokens (sub_doc m) (Some (field issuer)) (default (empty_row k) (row k c))) Hok (keeps_tokens _ _ _)) as [Hr Hrow].
  { by rewrite Hset. }
  destruct (upsert _ _ c) as [r c']. cbn [fst snd] in Hr, Hrow. subst r. exists c'. split; [done|].
  rewrite Hrow. cbn [oc_tokens oc_latestIssuer with_tokens get_path]. rewrite Hm. unfold open_blob. rewrite Hdec.
  cbn [expose_secret sec_value]. by rewrite parse_stringify.
Qed.

(** An authorization in flight is read back as it was filed. *)
Lemma pending_round_trip k p draws (c : C) : rows_ok c → String.length (dr_wrapIv draws) = IV_BYTES →
  ∃ c', run (op_savePending p draws) k c = (Ret re_done, c') ∧ rows_ok c' ∧ (run op_loadPending k c').1 = Ret (re_pending (Some p)).
Proof.
  intros Hok Hiv. cbn [mongo_exec].
  destruct (decrypt_encrypt aead kp draws (pa_codeVerifier p) (seal_binding workspaceId k "oauth_verifier") Hiv) as (blob & -> & Hdec).
  set (sp := {| sp_state := pa_state p; sp_codeVerifier := blob; sp_authorizationUrl := pa_authorizationUrl p; sp_createdAt := pa_createdAt p |}).
  destruct (upsert_row k (λ d, Some (with_pending (Some sp) d)) c (with_pending (Some sp) (default (empty_row k) (row k c))) Hok) as [Hr Hrow];
    [by intros d d' [= <-]|done|].
  pose proof (upsert_ok k (λ d, Some (with_pending (Some sp) d)) c Hok ltac:(by intros d d' [= <-])) as Hok'.
  destruct (upsert _ _ c) as [r c']. cbn [fst snd] in *. subst r. exists c'. split_and!; [done|done|].
  rewrite Hrow. cbn [mbind option_bind oc_pending with_pending]. unfold open_blob. cbn [sp_codeVerifier sp]. rewrite Hdec. by destruct p.
Qed.

(** Once the tokens of a scope have been invalidated, no tokens can be saved
    there again: the field is null, and the server refuses a path below it. *)
Theorem invalidated_tokens_cannot_be_replaced k issuer tokens draws (c : C) :
  rows_ok c → String.length (dr_wrapIv draws) = IV_BYTES →
  let c' := (run (op_invalidate cc_tokens) k c).2 in
  (run (op_invalidate cc_tokens) k c).1 = Ret re_done ∧ run (op_saveTokens issuer tokens draws) k c' = (Throw se_path, c').
Proof.
  intros Hok Hiv. cbn [mongo_exec].
  assert (keeps_key (λ d, Some (nulled cc_tokens d))) as Hk by (by intros d d' [= <-]).
  destruct (upsert_row k (λ d, Some (nulled cc_tokens d)) c (nulled cc_tokens (default (empty_row k) (row k c))) Hok Hk eq_refl) as [Hr Hrow].
  pose proof (upsert_ok k _ c Hok Hk) as Hok'.
  destruct (upsert k _ c) as [r c']. cbn [fst snd] in *. split; [done|].
  destruct (encrypt_total aead kp draws (stringify tokens) (seal_binding workspaceId k "oauth_tokens") Hiv) as (blob & -> & _).
  pose proof (upsert_spec k _ c' Hok' (keeps_tokens (field issuer) blob (Some (field issuer)))) as Hs. rewrite Hrow in Hs.
  assert (set_path (field issuer) blob (oc_tokens (default (empty_row k) (Some (nulled cc_tokens (default (empty_row k) (row k c)))))) = None) as E
    by (unfold set_path; by destruct (String.eqb _ _)).
  rewrite E in Hs. exact Hs.
Qed.
End RoundTrips.

(** ** Examples *)

Notation Connections := (gmap string OAuthConnectionDoc).
Definition plain_run := mongo_exec (C := Connections) toy_aead (toy_provider one_key 1) "wks_1".
Definition no_rows : Connections := ∅.
Lemma no_rows_ok : rows_ok no_rows.
Proof. intros id d Hd. change ((∅ : Connections) !! id = Some d) in Hd. by rewrite lookup_empty in Hd. Qed.
Definition bearer (t : string) : value := VObject [("access_token", VString t)].
Definition shared_key : string := scopeKeyString (scope_workspace "wks_1" "bnd_1").

Lemma saved_tokens_come_back_witness :
  ∃ c', plain_run (op_saveTokens "https://auth.example" (bearer "t1") sample_draws) shared_key no_rows = (Ret re_done, c') ∧
    (plain_run (op_loadTokens None) shared_key c').1 = Ret (re_value (Some (bearer "t1"))).
Proof.
  destruct (saved_tokens_come_back toy_aead (toy_provider one_key 1) "wks_1" shared_key "https://auth.example" (bearer "t1") sample_draws no_rows
              no_rows_ok) as (c' & Hs & _ & Hl).
  - cbn. split; [apply NoDup_singleton|done].
  - reflexivity.
  - done.
  - intros d Hd. by rewrite row_lookup in Hd by apply no_rows_ok.
  - exists c'. split; [exact Hs|exact Hl].
Defined.

Lemma invalidated_tokens_cannot_be_replaced_witness :
  let c' := (plain_run (op_invalidate cc_tokens) shared_key no_rows).2 in
  plain_run (op_saveTokens "https://auth.example" (bearer "t1") sample_draws) shared_key c' = (Throw se_path, c').
Proof.
  apply (invalidated_tokens_cannot_be_replaced toy_aead (toy_provider one_key 1) "wks_1" shared_key "https://auth.example" (bearer "t1") sample_draws
           no_rows no_rows_ok eq_refl).
Defined.

(** Two issuers whose names differ in a dot share one slot, and each is handed the other's tokens. *)
Example issuers_share_a_slot :
  let c' := (plain_run (op_saveTokens "https://a.b" (bearer "of a.b") sample_draws) shared_key no_rows).2 in
  (plain_run (op_loadTokens (Some "https://a_b")) shared_key c').1 = Ret (re_value (Some (bearer "of a.b"))).
Proof. vm_compute. reflexivity. Qed.
