(* ===== verification/McpOAuth.v ===== *)
(** * Consent for MCP servers

    Models the provider and the flow of packages/mcp/src/oauth.ts, the routes
    that begin and finish consent
    (apps/web/src/app/api/workspaces/[workspaceId]/mcp/bindings/[bindingId]/authorize
    and api/mcp/callback) and apps/web/src/lib/oauth-config.ts, over the store
    interface of [OAuthStore].  The SDK's [auth] is foreign: it is any program
    that calls the provider, an [AuthProg], and every theorem holds for all of
    them.  URL parsing, base64url and the vendors' token endpoints are parameters. *)
From S2P Require Import Prelude Json JsonText Text Numbers Envelope Mongo Entities Guard ResponseCache OAuthStore.

(** ** Who we are *)

Record RegisteredClient := { rc_client_id : string; rc_client_secret : option string }.
Record OAuthClientConfig := {
  oc_clientMetadataUrl : option string; oc_redirectUri : string; oc_clientName : string; oc_clientUri : option string; oc_scope : option string;
  oc_logoUri : option string; oc_contacts : option (list string); oc_registeredClients : option (list (string * RegisteredClient)) }.

Definition ends_with (suffix s : string) : bool :=
  let n := (String.length s - String.length suffix)%nat in String.eqb (str_drop n s) suffix && (String.length suffix <=? String.length s)%nat.

Section Identity.
Context (hostname : string → option string).

(** [registeredClientFor]: the first domain the issuer's host is or lies in. *)
Definition registeredClientFor (clients : option (list (string * RegisteredClient))) (issuer : option string) : option RegisteredClient :=
  match clients, issuer with
  | Some cs, Some i =>
      if String.eqb i "" then None
      else match toLowerCase <$> hostname i with
           | None => None
           | Some host =>
               snd <$> find (λ dc : string * RegisteredClient,
                 let key := toLowerCase dc.1 in String.eqb host key || ends_with ("." +:+ key) host) cs
           end
  | _, _ => None
  end.
End Identity.

Definition optional (key : string) (v : option value) : list (string * value) := match v with Some x => [(key, x)] | None => [] end.
Definition str_list (l : list string) : value := VArray (map VString l).

(** The [clientMetadata] of the provider. *)
Definition clientMetadata (c : OAuthClientConfig) : value := VObject (
  [("redirect_uris", str_list [oc_redirectUri c]); ("client_name", VString (oc_clientName c))] ++
  optional "client_uri" (VString <$> oc_clientUri c) ++ optional "logo_uri" (VString <$> oc_logoUri c) ++
  optional "scope" (VString <$> oc_scope c) ++ optional "contacts" (str_list <$> oc_contacts c) ++
  [("grant_types", str_list ["authorization_code"; "refresh_token"]); ("response_types", str_list ["code"]);
   ("token_endpoint_auth_method", VString "none"); ("application_type", VString "web")]).

(** [clientMetadataDocument]: nothing to serve without a public address. *)
Definition clientMetadataDocument (c : OAuthClientConfig) : option value :=
  match oc_clientMetadataUrl c with
  | None => None
  | Some url => Some (VObject (
      [("client_id", VString url); ("client_name", VString (oc_clientName c)); ("redirect_uris", str_list [oc_redirectUri c]);
       ("grant_types", str_list ["authorization_code"; "refresh_token"]); ("response_types", str_list ["code"]);
       ("token_endpoint_auth_method", VString "none"); ("application_type", VString "web")] ++
      optional "client_uri" (VString <$> oc_clientUri c) ++ optional "logo_uri" (VString <$> oc_logoUri c) ++
      optional "scope" (VString <$> oc_scope c) ++ optional "contacts" (str_list <$> oc_contacts c)))
  end.

Definition CLIENT_METADATA_PATH : string := "/.well-known/mcp-client-metadata.json".
Definition OAUTH_CALLBACK_PATH : string := "/api/mcp/callback".
Definition OAUTH_PENDING_COOKIE_SECONDS : Z := 10 * 60.
Definition PENDING_AUTHORIZATION_TTL_MS : Z := 10 * 60 * 1000.

(** [base.replace(/\/$/, '')]. *)
Definition drop_slash (s : string) : string := if ends_with "/" s then str_take (String.length s - 1) s else s.

Definition oauthClientConfig (publicBaseUrl : string) (registered : option (list (string * RegisteredClient))) : OAuthClientConfig :=
  let base := drop_slash publicBaseUrl in {|
  oc_clientMetadataUrl := if String.prefix "https://" base then Some (base +:+ CLIENT_METADATA_PATH) else None;
  oc_redirectUri := base +:+ OAUTH_CALLBACK_PATH; oc_clientName := "YASHAYAH"; oc_clientUri := Some base; oc_scope := None;
  oc_logoUri := None; oc_contacts := None; oc_registeredClients := registered |}.

(** ** Comparing states *)

(** The loop of [safeEqual]: the differences of the code units, gathered. *)
Fixpoint gather (a b : string) (diff : Z) : Z :=
  match a, b with
  | String x a', String y b' => gather a' b' (Z.lor diff (Z.lxor (code_of x) (code_of y)))
  | _, _ => diff
  end.
Definition constant_time_equal (a b : string) : bool :=
  if negb (String.length a =? String.length b)%nat then false else gather a b 0 =? 0.

Lemma gather_zero a b diff : String.length a = String.length b → 0 <= diff → gather a b diff = 0 ↔ diff = 0 ∧ a = b.
Proof.
  revert b diff. induction a as [|x a IH]; intros [|y b] diff Hl Hd; try done; cbn [gather]; [naive_solver|].
  injection Hl as Hl. assert (0 <= code_of x ∧ 0 <= code_of y) as [Hx Hy] by (unfold code_of; lia).
  assert (0 <= Z.lxor (code_of x) (code_of y)) as Hxor by (by apply Z.lxor_nonneg).
  rewrite IH by (try done; by apply Z.lor_nonneg). rewrite Z.lor_eq_0_iff, Z.lxor_eq_0_iff.
  assert (code_of x = code_of y ↔ x = y) as ->.
  { split; [|by intros ->]. unfold code_of. intros E%N2Z.inj. by rewrite <-(Ascii.ascii_N_embedding x), E, Ascii.ascii_N_embedding. }
  split; [by intros [[-> ->] ->]|by intros [-> [= -> ->]]].
Qed.

(** The comparison that takes as long whatever it compares is equality. *)
Theorem constant_time_equal_is_equality a b : constant_time_equal a b = String.eqb a b.
Proof.
  unfold constant_time_equal. destruct (Nat.eqb_spec (String.length a) (String.length b)) as [Hl|Hl]; cbn [negb].
  - pose proof (gather_zero a b 0 Hl ltac:(lia)) as Hg. destruct (String.eqb_spec a b) as [->|Hne].
    + apply Z.eqb_eq. by apply Hg.
    + apply Z.eqb_neq. intros E%Hg. naive_solver.
  - destruct (String.eqb_spec a b) as [->|]; done.
Qed.

(** ** The provider *)

Record Provider := { pv_scopeKey : string; pv_config : OAuthClientConfig; pv_pendingState : option string; pv_redirectedTo : option string }.

Inductive ProviderError := pe_no_pending | pe_too_late | pe_mismatch | pe_store (e : StoreError) | pe_no_url | pe_sdk.

Inductive ProviderCall :=
| c_state (draw : string)
| c_saveCodeVerifier (verifier draw : string) (draws : Draws)
| c_codeVerifier
| c_redirectToAuthorization (url : string) (draws : Draws)
| c_clientInformation (issuer : option string)
| c_saveClientInformation (info : value) (issuer : option string)
| c_tokens (issuer : option string)
| c_saveTokens (tokens : value) (issuer : option string) (draws : Draws)
| c_invalidateCredentials (what : CredentialClass)
| c_saveDiscoveryState (state : value)
| c_discoveryState.

Inductive ProviderReply := pr_string (s : string) | pr_value (v : option value) | pr_done.

(** [ctx?.issuer ?? info.issuer ?? '']. *)
Definition issuer_of (ctx : option string) (info : value) : string :=
  match ctx with Some i => i | None => match own info "issuer" with VString i => i | _ => "" end end.

(** The SDK: what it asks the provider, depending on the answers, and how it ends. *)
Inductive AuthProg :=
| ap_authorized
| ap_redirect
| ap_throw
| ap_call (now : Z) (c : ProviderCall) (k : outcome ProviderError ProviderReply → AuthProg).

Section Flow.
Context {S V : Type} `{ScopedStoreLaws S V}.
Context (hostname : string → option string).

(** A write to the store, answered with nothing. *)
Definition stored (op : StoreOp) (pv : Provider) (s : S) : outcome ProviderError ProviderReply * (Provider * S) :=
  match store_exec op (pv_scopeKey pv) s with
  | (Ret _, s') => (Ret pr_done, (pv, s'))
  | (Throw e, s') => (Throw (pe_store e), (pv, s'))
  end.

Definition loaded (op : StoreOp) (pv : Provider) (s : S) : outcome ProviderError ProviderReply * (Provider * S) :=
  match store_exec op (pv_scopeKey pv) s with
  | (Ret (re_value v), s') => (Ret (pr_value v), (pv, s'))
  | (Ret _, s') => (Ret (pr_value None), (pv, s'))
  | (Throw e, s') => (Throw (pe_store e), (pv, s'))
  end.

Definition provider_call (now : Z) (c : ProviderCall) (pv : Provider) (s : S) : outcome ProviderError ProviderReply * (Provider * S) :=
  let key := pv_scopeKey pv in
  match c with
  | c_state draw =>
      (Ret (pr_string draw),
       ({| pv_scopeKey := key; pv_config := pv_config pv; pv_pendingState := Some draw; pv_redirectedTo := pv_redirectedTo pv |}, s))
  | c_saveCodeVerifier verifier draw draws =>
      stored (op_savePending {| pa_state := default draw (pv_pendingState pv); pa_codeVerifier := verifier;
                                pa_authorizationUrl := pv_redirectedTo pv; pa_createdAt := now |} draws) pv s
  | c_codeVerifier =>
      match store_exec op_loadPending key s with
      | (Throw e, s1) => (Throw (pe_store e), (pv, s1))
      | (Ret (re_pending (Some p)), s1) =>
          if PENDING_AUTHORIZATION_TTL_MS <? now - pa_createdAt p then
            match store_exec op_clearPending key s1 with
            | (Throw e, s2) => (Throw (pe_store e), (pv, s2))
            | (Ret _, s2) => (Throw pe_too_late, (pv, s2))
            end
          else (Ret (pr_string (pa_codeVerifier p)), (pv, s1))
      | (Ret _, s1) => (Throw pe_no_pending, (pv, s1))
      end
  | c_redirectToAuthorization url draws =>
      let pv' := {| pv_scopeKey := key; pv_config := pv_config pv; pv_pendingState := pv_pendingState pv; pv_redirectedTo := Some url |} in
      match store_exec op_loadPending key s with
      | (Throw e, s1) => (Throw (pe_store e), (pv', s1))
      | (Ret (re_pending (Some p)), s1) =>
          stored (op_savePending {| pa_state := pa_state p; pa_codeVerifier := pa_codeVerifier p; pa_authorizationUrl := Some url;
                                    pa_createdAt := pa_createdAt p |} draws) pv' s1
      | (Ret _, s1) => (Ret pr_done, (pv', s1))
      end
  | c_clientInformation issuer =>
      match registeredClientFor hostname (oc_registeredClients (pv_config pv)) issuer with
      | Some rc => (Ret (pr_value (Some (VObject ([("client_id", VString (rc_client_id rc))] ++
                      optional "client_secret" (VString <$> rc_client_secret rc) ++ optional "issuer" (VString <$> issuer))))), (pv, s))
      | None => loaded (op_loadClient (default "" issuer)) pv s
      end
  | c_saveClientInformation info issuer => stored (op_saveClient (issuer_of issuer info) info) pv s
  | c_tokens issuer => loaded (op_loadTokens issuer) pv s
  | c_saveTokens tokens issuer draws =>
      match stored (op_saveTokens (issuer_of issuer tokens) tokens draws) pv s with
      | (Throw e, w) => (Throw e, w)
      | (Ret _, (pv1, s1)) => stored op_clearPending pv1 s1
      end
  | c_invalidateCredentials what => stored (op_invalidate what) pv s
  | c_saveDiscoveryState state => stored (op_saveDiscovery state) pv s
  | c_discoveryState => loaded op_loadDiscovery pv s
  end.

Inductive AuthResult := AUTHORIZED | REDIRECT.

Fixpoint run_auth (p : AuthProg) (pv : Provider) (s : S) : outcome ProviderError AuthResult * (Provider * S) :=
  match p with
  | ap_authorized => (Ret AUTHORIZED, (pv, s))
  | ap_redirect => (Ret REDIRECT, (pv, s))
  | ap_throw => (Throw pe_sdk, (pv, s))
  | ap_call now c k => let '(r, (pv', s')) := provider_call now c pv s in run_auth (k r) pv' s'
  end.

(** [beginAuthorization]: nothing to visit, or where to go. *)
Definition beginAuthorization (auth : AuthProg) (pv : Provider) (s : S) : outcome ProviderError (option string) * (Provider * S) :=
  match run_auth auth pv s with
  | (Throw e, w) => (Throw e, w)
  | (Ret AUTHORIZED, w) => (Ret None, w)
  | (Ret REDIRECT, (pv', s')) =>
      (match pv_redirectedTo pv' with Some url => Ret (Some url) | None => Throw pe_no_url end, (pv', s'))
  end.

Record Callback := { cb_code : string; cb_state : string; cb_iss : option string }.

(** [completeAuthorization], with the codes it gave the SDK to redeem. *)
Definition completeAuthorization (auth : string → option string → AuthProg) (cb : Callback) (pv : Provider) (s : S)
    : outcome ProviderError unit * list string * (Provider * S) :=
  match store_exec op_loadPending (pv_scopeKey pv) s with
  | (Throw e, s1) => (Throw (pe_store e), [], (pv, s1))
  | (Ret (re_pending (Some p)), s1) =>
      if negb (constant_time_equal (pa_state p) (cb_state cb)) then
        match store_exec op_clearPending (pv_scopeKey pv) s1 with
        | (Throw e, s2) => (Throw (pe_store e), [], (pv, s2))
        | (Ret _, s2) => (Throw pe_mismatch, [], (pv, s2))
        end
      else
        let '(r, w) := run_auth (auth (cb_code cb) (cb_iss cb)) pv s1 in
        (match r with Ret _ => Ret tt | Throw e => Throw e end, [cb_code cb], w)
  | (Ret _, s1) => (Throw pe_no_pending, [], (pv, s1))
  end.
End Flow.

(** ** A flow stays in its scope *)

Section Scope.
Context {S V : Type} `{ScopedStoreLaws S V}.
Context (hostname : string → option string).

(** Two stores that a scope cannot tell apart; a store that changed in one scope only. *)
Definition alike (k : string) (s s' : S) : Prop := store_ok s ∧ store_ok s' ∧ store_view s k = store_view s' k.
Definition framed (k : string) (s t : S) : Prop := store_ok t ∧ ∀ k', store_key k' → k' ≠ k → store_view t k' = store_view s k'.

Lemma framed_refl k s : store_ok s → framed k s s.
Proof. by split. Qed.
Lemma framed_trans k s t u : framed k s t → framed k t u → framed k s u.
Proof. intros [_ H1] [Hu H2]. split; [done|]. intros k' Hk Hne. by rewrite H2, H1. Qed.

(** What a computation on the store must satisfy to stay in scope [k]. *)
Definition in_scope {A} (k : string) (f : S → A * S) : Prop :=
  ∀ s s', alike k s s' → (f s).1 = (f s').1 ∧ alike k (f s).2 (f s').2 ∧ framed k s (f s).2 ∧ framed k s' (f s').2.

Lemma in_scope_ret {A} k (a : A) : in_scope k (λ s, (a, s)).
Proof. intros s s' Hal. pose proof Hal as (Hs & Hs' & _). split; [done|]. split; [done|]. by split; apply framed_refl. Qed.

Lemma in_scope_exec k op : store_key k → in_scope k (store_exec op k).
Proof.
  intros Hk s s' (Hs & Hs' & Hv). destruct (exec_local op k s s' Hk Hs Hs' Hv) as [Hr Hv2].
  split; [done|]. split; [split; [by apply exec_ok|split; [by apply exec_ok|done]]|].
  split; (split; [by apply exec_ok|]); intros k' Hk' Hne; by apply exec_frame.
Qed.

Lemma in_scope_bind {A B} k (f : S → A * S) (g : A → S → B * S) :
  in_scope k f → (∀ a, in_scope k (g a)) → in_scope k (λ s, let '(a, t) := f s in g a t).
Proof.
  intros Hf Hg s s' Hal. destruct (Hf s s' Hal) as (E & Hal2 & F & F').
  destruct (f s) as [a t], (f s') as [a' t']. cbn in *. subst a'.
  destruct (Hg a t t' Hal2) as (E2 & Hal3 & G & G'). split; [done|]. split; [done|]. by split; eapply framed_trans.
Qed.

Lemma in_scope_ext {A} k (f g : S → A * S) : (∀ s, f s = g s) → in_scope k f → in_scope k g.
Proof. intros E Hf s s' Hal. rewrite <-!E. by apply Hf. Qed.

(** The same computation, with the provider it leaves next to its result. *)
Definition paired {A} (x : outcome ProviderError A * (Provider * S)) : (outcome ProviderError A * Provider) * S := ((x.1, x.2.1), x.2.2).

Lemma in_scope_paired {A} k (r : outcome ProviderError A) pv : in_scope k (λ s, paired (r, (pv, s))).
Proof. exact (in_scope_ret k (r, pv)). Qed.

Lemma stored_in_scope op pv : store_key (pv_scopeKey pv) → in_scope (pv_scopeKey pv) (λ s, paired (stored op pv s)).
Proof.
  intros Hk. eapply in_scope_ext, (in_scope_bind _ (store_exec op (pv_scopeKey pv))
    (λ r s, ((match r with Ret _ => Ret pr_done | Throw e => Throw (pe_store e) end, pv), s))); [|by apply in_scope_exec|intros; apply in_scope_ret].
  intros s. unfold stored. by destruct (store_exec _ _ s) as [[?|?] ?].
Qed.

Lemma loaded_in_scope op pv : store_key (pv_scopeKey pv) → in_scope (pv_scopeKey pv) (λ s, paired (loaded op pv s)).
Proof.
  intros Hk. eapply in_scope_ext, (in_scope_bind _ (store_exec op (pv_scopeKey pv))
    (λ r s, ((match r with Ret (re_value v) => Ret (pr_value v) | Ret _ => Ret (pr_value None) | Throw e => Throw (pe_store e) end, pv), s)));
    [|by apply in_scope_exec|intros; apply in_scope_ret].
  intros s. unfold loaded. by destruct (store_exec _ _ s) as [[[]|?] ?].
Qed.

Lemma stored_provider op pv s : (stored op pv s).2.1 = pv.
Proof. unfold stored. by destruct (store_exec _ _ s) as [[?|?] ?]. Qed.

Lemma stored_provider_in_scope op pv :
  store_key (pv_scopeKey pv) → in_scope (pv_scopeKey pv) (λ s, ((stored op pv s).1, (stored op pv s).2.2)).
Proof.
  intros Hk. eapply in_scope_ext, (in_scope_bind _ _ (λ r s, (r.1, s)) (stored_in_scope op pv Hk)); [|intros; apply in_scope_ret]. done.
Qed.

Lemma provider_call_in_scope now c pv : store_key (pv_scopeKey pv) → in_scope (pv_scopeKey pv) (λ s, paired (provider_call hostname now c pv s)).
Proof.
  intros Hk. destruct c as [draw|v draw dr| |url dr|i|info i|i|t i dr|what|v|]; cbn [provider_call].
  - apply in_scope_paired.
  - by apply stored_in_scope.
  - eapply in_scope_ext, (in_scope_bind _ (store_exec op_loadPending (pv_scopeKey pv)) (λ r s,
      match r with
      | Throw e => ((Throw (pe_store e), pv), s)
      | Ret (re_pending (Some p)) =>
          if PENDING_AUTHORIZATION_TTL_MS <? now - pa_createdAt p then
            let '(r2, s2) := store_exec op_clearPending (pv_scopeKey pv) s in
            ((match r2 with Throw e => Throw (pe_store e) | Ret _ => Throw pe_too_late end, pv), s2)
          else ((Ret (pr_string (pa_codeVerifier p)), pv), s)
      | Ret _ => ((Throw pe_no_pending, pv), s)
      end)); [|by apply in_scope_exec|].
    + intros s. cbv beta. destruct (store_exec _ _ s) as [[[?|[p|]|]|?] ?]; try done. destruct (_ <? _); [|done].
      by destruct (store_exec op_clearPending _ _) as [[?|?] ?].
    + intros [[?|[p|]|]|?]; try apply in_scope_ret. destruct (_ <? _); [|apply in_scope_ret].
      apply in_scope_bind; [by apply in_scope_exec|intros; apply in_scope_ret].
  - set (pv' := {| pv_scopeKey := pv_scopeKey pv; pv_config := pv_config pv; pv_pendingState := pv_pendingState pv; pv_redirectedTo := Some url |}).
    eapply in_scope_ext, (in_scope_bind _ (store_exec op_loadPending (pv_scopeKey pv)) (λ r s,
      match r with
      | Throw e => ((Throw (pe_store e), pv'), s)
      | Ret (re_pending (Some p)) =>
          paired (stored (op_savePending {| pa_state := pa_state p; pa_codeVerifier := pa_codeVerifier p; pa_authorizationUrl := Some url;
                                            pa_createdAt := pa_createdAt p |} dr) pv' s)
      | Ret _ => ((Ret pr_done, pv'), s)
      end)); [|by apply in_scope_exec|].
    + intros s. cbv beta. by destruct (store_exec _ _ s) as [[[?|[p|]|]|?] ?].
    + intros [[?|[p|]|]|?]; try apply in_scope_ret. by apply (stored_in_scope _ pv').
  - destruct (registeredClientFor _ _ _); [apply in_scope_paired|by apply loaded_in_scope].
  - by apply stored_in_scope.
  - by apply loaded_in_scope.
  - eapply in_scope_ext, (in_scope_bind _ _ (λ r s, match r with (Throw e, pv1) => ((Throw e, pv1), s) | (Ret _, pv1) => paired (stored op_clearPending pv s) end)
      (stored_in_scope (op_saveTokens (issuer_of i t) t dr) pv Hk)).
    + intros s. cbv beta. pose proof (stored_provider (op_saveTokens (issuer_of i t) t dr) pv s) as E.
      unfold paired at 1. destruct (stored (op_saveTokens _ _ _) pv s) as [[r|e] [pv1 s1]]; cbn [fst snd] in *; by subst pv1.
    + intros [[r|e] pv1]; [by apply stored_in_scope|apply in_scope_ret].
  - by apply stored_in_scope.
  - by apply stored_in_scope.
  - by apply loaded_in_scope.
Qed.

Lemma provider_call_key now c pv s : pv_scopeKey (provider_call hostname now c pv s).2.1 = pv_scopeKey pv.
Proof.
  destruct c as [draw|v draw dr| |url dr|i|info i|i|t i dr|what|v|]; cbn [provider_call]; unfold loaded, stored; try done;
    repeat case_match; simplify_eq; done.
Qed.

(** Whatever the SDK does with the provider of one scope, what it sees depends
    only on what is filed under that scope, and nothing filed under another
    scope changes. *)
Theorem sdk_stays_in_its_scope auth pv : store_key (pv_scopeKey pv) → in_scope (pv_scopeKey pv) (λ s, paired (run_auth hostname auth pv s)).
Proof.
  revert pv. induction auth as [| | |now c k IH]; intros pv Hk; cbn [run_auth]; try apply in_scope_paired.
  eapply in_scope_ext, (in_scope_bind _ _ (λ r s, if String.eqb (pv_scopeKey r.2) (pv_scopeKey pv) then paired (run_auth hostname (k r.1) r.2 s) else ((Throw pe_sdk, pv), s))
    (provider_call_in_scope now c pv Hk)).
  - intros s. unfold paired at 1. pose proof (provider_call_key now c pv s) as E. destruct (provider_call _ now c pv s) as [r [pv1 s1]]. cbn in *.
    by rewrite E, String.eqb_refl.
  - intros [r pv1]. cbn. destruct (String.eqb_spec (pv_scopeKey pv1) (pv_scopeKey pv)) as [E|]; [|apply in_scope_ret].
    rewrite <-E. apply IH. by rewrite E.
Qed.

(** A code is handed over for redemption only when the scope has an
    authorization in flight with the callback's state.  A callback with another
    state ends that authorization: whatever comes after it, no code is
    redeemed until consent is begun again. *)
Theorem codes_are_redeemed_for_their_state auth cb cb' auth' pv pv' s :
  store_key (pv_scopeKey pv) → store_ok s → pv_scopeKey pv' = pv_scopeKey pv →
  let '(r, codes, (_, t)) := completeAuthorization hostname auth cb pv s in
  (codes ≠ [] → ∃ p, (store_exec op_loadPending (pv_scopeKey pv) s).1 = Ret (re_pending (Some p)) ∧ pa_state p = cb_state cb ∧ codes = [cb_code cb]) ∧
  (r = Throw pe_mismatch ∧ codes = [] → (completeAuthorization hostname auth' cb' pv' t).1 = (Throw pe_no_pending, [])).
Proof.
  intros Hk Hs E. unfold completeAuthorization at 1. pose proof (load_pending_pure (pv_scopeKey pv) s) as Hpure.
  destruct (store_exec op_loadPending (pv_scopeKey pv) s) as [[[?|[p|]|]|e] s1]; cbn in Hpure; subst s1; try (split; [done|by intros [? ?]]).
  rewrite constant_time_equal_is_equality. destruct (String.eqb_spec (pa_state p) (cb_state cb)) as [Hst|Hst]; cbn [negb].
  - destruct (run_auth _ _ pv s) as [r [pv1 t]]. split; [intros _; by exists p|by intros [_ ?]].
  - destruct (cleared_pending (pv_scopeKey pv) s Hk Hs) as [Hc Hl]. destruct (store_exec op_clearPending _ s) as [[?|?] t]; [|done].
    split; [done|]. intros _. unfold completeAuthorization. rewrite E. cbn [fst snd] in Hl. by destruct (store_exec op_loadPending _ t) as [? ?]; cbn in Hl; subst.
Qed.
End Scope.

(** ** The routes *)

Record PendingConsent := { pc_workspaceId : string; pc_bindingId : string; pc_userId : option string }.
Record ServerBinding := { sb_id : string; sb_mcpServerId : string; sb_agentId : option string; sb_alias : string; sb_perUserAuth : bool }.
Record ServerRow := { sr_transport : string; sr_catalogId : option string; sr_url : option string }.

Definition consent_scope (workspaceId bindingId : string) (userId : option string) : ConnectionScopeKey :=
  match userId with None => scope_workspace workspaceId bindingId | Some u => scope_user workspaceId bindingId u end.

(** The vendors whose adapter is this program's own. *)
Definition native_issuer (server : option ServerRow) : option string :=
  match server with
  | Some sv =>
      if negb (String.eqb (sr_transport sv) "in_process") then None
      else match sr_catalogId sv with
           | Some "google_workspace" => Some "https://accounts.google.com"
           | Some "meta_publishing" => Some "https://www.facebook.com"
           | Some "linkedin" => Some "https://www.linkedin.com"
           | _ => None
           end
  | None => None
  end.

(** Where the person lands, and why. *)
Inductive Landing :=
| l_no_pending | l_denied | l_incomplete | l_signed_out | l_wrong_person | l_gone | l_failed | l_discovery (error : string) | l_connected (tools : Z).

Section Routes.
Context {S V : Type} `{ScopedStoreLaws S V}.
Context (hostname : string → option string) (unb64url : string → string).

(** [readPending]: the connection the cookie names. *)
Definition readPending (cookie : option string) : option PendingConsent :=
  match cookie with
  | None => None
  | Some raw =>
      match json_parse (unb64url raw) with
      | None => None
      | Some parsed =>
          match own parsed "workspaceId", own parsed "bindingId" with
          | VString w, VString b =>
              Some {| pc_workspaceId := w; pc_bindingId := b; pc_userId := match own parsed "userId" with VString u => Some u | _ => None end |}
          | _, _ => None
          end
      end
  end.

(** What a vendor's exchange of a code gives, and what discovery reports. *)
Definition Exchange := string → string → outcome string value.
Context (discover : option string * Z).

Definition landed : Landing := match discover.1 with Some e => l_discovery (str_take 240 e) | None => l_connected discover.2 end.

(** [finishNative], with the codes that were exchanged. *)
Definition finishNative (key issuer code state : string) (exchange : option Exchange) (draws : Draws) (s : S) : Landing * list string * S :=
  match store_exec op_loadPending key s with
  | (Ret (re_pending (Some filed)), s1) =>
      if negb (String.eqb (pa_state filed) state) then (l_failed, [], s1)
      else match exchange with
      | None => (l_failed, [], s1)
      | Some ex =>
          match ex code (pa_codeVerifier filed) with
          | Throw _ => (l_failed, [code], s1)
          | Ret tokens =>
              match store_exec (op_saveTokens issuer tokens draws) key s1 with
              | (Throw _, s2) => (l_failed, [code], s2)
              | (Ret _, s2) =>
                  match store_exec op_clearPending key s2 with
                  | (Throw _, s3) => (l_failed, [code], s3)
                  | (Ret _, s3) => (landed, [code], s3)
                  end
              end
          end
      end
  | (Ret _, s1) => (l_failed, [], s1)
  | (Throw _, s1) => (l_failed, [], s1)
  end.

Record CallbackRequest := { rq_code : option string; rq_state : option string; rq_iss : option string; rq_error : option string }.

(** [GET /api/mcp/callback]: the store is the one of the workspace the cookie names. *)
Definition callback (cookie : option string) (rq : CallbackRequest) (caller : option string)
    (bindings : string → string → option ServerBinding) (servers : string → string → option ServerRow)
    (exchange : string → option Exchange) (config : OAuthClientConfig) (auth : string → string → option string → AuthProg) (draws : Draws) (s : S)
    : Landing * list string * S :=
  match readPending cookie with
  | None => (l_no_pending, [], s)
  | Some pending =>
      match rq_error rq with
      | Some _ => (l_denied, [], s)
      | None =>
          match rq_code rq, rq_state rq with
          | Some code, Some state =>
              match caller with
              | None => (l_signed_out, [], s)
              | Some userId =>
                  if match pc_userId pending with Some u => negb (String.eqb u userId) | None => false end then (l_wrong_person, [], s)
                  else match bindings (pc_workspaceId pending) (pc_bindingId pending) with
                  | None => (l_gone, [], s)
                  | Some binding =>
                      let server := servers (pc_workspaceId pending) (sb_mcpServerId binding) in
                      let key := scopeKeyString (consent_scope (pc_workspaceId pending) (sb_id binding) (pc_userId pending)) in
                      match native_issuer server with
                      | Some issuer => finishNative key issuer code state (exchange issuer) draws s
                      | None =>
                          match server ≫= sr_url with
                          | None => (l_gone, [], s)
                          | Some url =>
                              let pv := {| pv_scopeKey := key; pv_config := config; pv_pendingState := None; pv_redirectedTo := None |} in
                              match completeAuthorization hostname (auth url) {| cb_code := code; cb_state := state; cb_iss := rq_iss rq |} pv s with
                              | (Throw _, codes, (_, s')) => (l_failed, codes, s')
                              | (Ret _, codes, (_, s')) => (landed, codes, s')
                              end
                          end
                      end
                  end
              end
          | _, _ => (l_incomplete, [], s)
          end
      end
  end.

(** What beginning consent answers. *)
Inductive AuthorizeReply :=
| ar_not_found | ar_not_configured | ar_unsupported | ar_pending_auth (url : string) (cookie : PendingConsent) | ar_connected (capabilities : Z)
| ar_error (capabilities : Z) | ar_no_url | ar_thrown.

Record Begun := { bg_authorizationUrl : string; bg_state : string; bg_codeVerifier : string }.

(** [POST .../authorize]; [begun] is what a vendor's [begin...Consent] makes,
    nothing where the deployment has no client for it; [rediscovered] is where
    discovery says to go after all, if anywhere. *)
Definition authorize (workspaceId bindingId actorId : string) (bindings : string → string → option ServerBinding)
    (servers : string → string → option ServerRow) (begun : string → option Begun) (config : OAuthClientConfig)
    (auth : string → AuthProg) (rediscovered : option string) (now : Z) (draws : Draws) (s : S) : AuthorizeReply * S :=
  match bindings workspaceId bindingId with
  | None => (ar_not_found, s)
  | Some binding =>
      let server := servers workspaceId (sb_mcpServerId binding) in
      let userId := if sb_perUserAuth binding then Some actorId else None in
      let key := scopeKeyString (consent_scope workspaceId (sb_id binding) userId) in
      let cookie := {| pc_workspaceId := workspaceId; pc_bindingId := sb_id binding; pc_userId := userId |} in
      match native_issuer server with
      | Some issuer =>
          match begun issuer with
          | None => (ar_not_configured, s)
          | Some b =>
              match store_exec (op_savePending {| pa_state := bg_state b; pa_codeVerifier := bg_codeVerifier b;
                                                  pa_authorizationUrl := Some (bg_authorizationUrl b); pa_createdAt := now |} draws) key s with
              | (Throw _, s') => (ar_thrown, s')
              | (Ret _, s') => (ar_pending_auth (bg_authorizationUrl b) cookie, s')
              end
          end
      | None =>
          match server ≫= sr_url with
          | None | Some "" => (ar_unsupported, s)
          | Some url =>
              let pv := {| pv_scopeKey := key; pv_config := config; pv_pendingState := None; pv_redirectedTo := None |} in
              match beginAuthorization hostname (auth url) pv s with
              | (Throw _, (_, s')) => (ar_thrown, s')
              | (Ret (Some u), (_, s')) => (ar_pending_auth u cookie, s')
              | (Ret None, (_, s')) =>
                  match rediscovered with
                  | Some u => (ar_pending_auth u cookie, s')
                  | None => (match discover.1 with None => ar_connected discover.2 | Some _ => ar_error discover.2 end, s')
                  end
              end
          end
      end
  end.
End Routes.

(** ** Whose consent a callback can finish *)

Section Consent.
Context {S V : Type} `{ScopedStoreLaws S V}.
Context (hostname : string → option string) (unb64url : string → string) (discover : option string * Z).
Context (Hkeys : ∀ w b u, store_key (scopeKeyString (consent_scope w b u))).

Lemma in_scope_framed {A} k (f : S → A * S) s : in_scope k f → store_ok s → framed k s (f s).2.
Proof. intros Hf Hs. by destruct (Hf s s) as (_ & _ & Hfr & _). Qed.

Lemma exec_framed op k s : store_key k → store_ok s → framed k s (store_exec op k s).2.
Proof. intros Hk. by apply in_scope_framed, in_scope_exec. Qed.

(** The code goes to the vendor only for the state on file, and nothing outside the scope changes. *)
Definition proper_finish (key state code : string) (s : S) (codes : list string) (t : S) : Prop :=
  framed key s t ∧
  (codes ≠ [] → codes = [code] ∧ ∃ p, (store_exec op_loadPending key s).1 = Ret (re_pending (Some p)) ∧ pa_state p = state).

Lemma finishNative_proper key issuer code state exchange draws s : store_key key → store_ok s →
  proper_finish key state code s (finishNative discover key issuer code state exchange draws s).1.2 (finishNative discover key issuer code state exchange draws s).2.
Proof.
  intros Hk Hs. unfold finishNative. pose proof (load_pending_pure key s) as Hp. pose proof (framed_refl key s Hs) as Hrefl.
  destruct (store_exec op_loadPending key s) as [[[?|[filed|]|]|e] s1] eqn:Hl; cbn in Hp; subst s1; try (by split).
  destruct (String.eqb_spec (pa_state filed) state) as [Hst|]; cbn [negb]; [|by split].
  assert (∀ t, framed key s t → proper_finish key state code s [code] t) as Hok.
  { intros t Ht. split; [done|]. intros _. split; [done|]. exists filed. by rewrite Hl. }
  destruct exchange as [ex|]; [|by split]. destruct (ex code _) as [tokens|]; [|by apply Hok].
  pose proof (exec_framed (op_saveTokens issuer tokens draws) key s Hk Hs) as Hf1.
  destruct (store_exec (op_saveTokens _ _ _) key s) as [[?|?] s2]; [|by apply Hok]. cbn [snd] in Hf1.
  pose proof (exec_framed op_clearPending key s2 Hk (proj1 Hf1)) as Hf2.
  destruct (store_exec op_clearPending key s2) as [[?|?] s3]; cbn [snd fst] in *; apply Hok; by eapply framed_trans.
Qed.

Lemma complete_proper auth cb pv s : store_key (pv_scopeKey pv) → store_ok s →
  proper_finish (pv_scopeKey pv) (cb_state cb) (cb_code cb) s (completeAuthorization hostname auth cb pv s).1.2 (completeAuthorization hostname auth cb pv s).2.2.
Proof.
  intros Hk Hs. unfold completeAuthorization. pose proof (load_pending_pure (pv_scopeKey pv) s) as Hp.
  destruct (store_exec op_loadPending (pv_scopeKey pv) s) as [[[?|[p|]|]|e] s1] eqn:Hl; cbn in Hp; subst s1;
    try (split; [by apply framed_refl|done]).
  rewrite constant_time_equal_is_equality. destruct (String.eqb_spec (pa_state p) (cb_state cb)) as [Hst|Hst]; cbn [negb].
  - pose proof (in_scope_framed _ _ s (sdk_stays_in_its_scope hostname (auth (cb_code cb) (cb_iss cb)) pv Hk) Hs) as Hf. unfold paired in Hf.
    destruct (run_auth _ _ pv s) as [r [pv1 t]]. cbn [fst snd] in *. split; [done|]. intros _. split; [done|]. exists p. by rewrite Hl.
  - pose proof (exec_framed op_clearPending (pv_scopeKey pv) s Hk Hs) as Hf.
    destruct (store_exec op_clearPending _ s) as [[?|?] t]; cbn [fst snd] in *; by split.
Qed.

(** C14.  A callback changes nothing outside the scope of the connection its cookie
    names, and redeems a code only for a signed-in person (the very person, on
    a connection of one's own), an existing connection, and the state that was
    filed when its consent began. *)
Theorem consent_attaches_to_its_request cookie rq caller bindings servers exchange config auth draws s :
  store_ok s →
  let '(_, codes, t) := callback hostname unb64url discover cookie rq caller bindings servers exchange config auth draws s in
  (codes = [] ∧ t = s) ∨
  ∃ pending userId binding code state,
    readPending unb64url cookie = Some pending ∧ caller = Some userId ∧ (pc_userId pending = None ∨ pc_userId pending = Some userId) ∧
    bindings (pc_workspaceId pending) (pc_bindingId pending) = Some binding ∧ rq_code rq = Some code ∧ rq_state rq = Some state ∧
    proper_finish (scopeKeyString (consent_scope (pc_workspaceId pending) (sb_id binding) (pc_userId pending))) state code s codes t.
Proof.
  intros Hs. unfold callback. destruct (readPending unb64url cookie) as [pending|] eqn:Hp; [|by left]. destruct (rq_error rq); [by left|].
  destruct (rq_code rq) as [code|] eqn:Hc; [|by left]. destruct (rq_state rq) as [state|] eqn:Hst; [|by left].
  destruct caller as [userId|]; [|by left].
  destruct (match pc_userId pending with Some u => negb (String.eqb u userId) | None => false end) eqn:Hu; [by left|].
  destruct (bindings _ _) as [binding|] eqn:Hb; [|by left]. cbv zeta.
  set (key := scopeKeyString (consent_scope (pc_workspaceId pending) (sb_id binding) (pc_userId pending))).
  assert (pc_userId pending = None ∨ pc_userId pending = Some userId) as Hwho.
  { destruct (pc_userId pending) as [u|]; [|by left]. apply negb_false_iff, String.eqb_eq in Hu as ->. by right. }
  destruct (native_issuer _) as [issuer|].
  - pose proof (finishNative_proper key issuer code state (exchange issuer) draws s (Hkeys _ _ _) Hs) as Hf.
    destruct (finishNative _ _ _ _ _ _ _ _) as [[l codes] t]. right. by exists pending, userId, binding, code, state.
  - destruct (_ ≫= sr_url) as [url|]; [|by left].
    pose proof (complete_proper (auth url) {| cb_code := code; cb_state := state; cb_iss := rq_iss rq |}
      {| pv_scopeKey := key; pv_config := config; pv_pendingState := None; pv_redirectedTo := None |} s (Hkeys _ _ _) Hs) as Hf.
    destruct (completeAuthorization _ _ _ _ _) as [[[u|e] codes] [pv1 t]]; right; by exists pending, userId, binding, code, state.
Qed.
End Consent.

(** ** Histories *)

#[local] Existing Instance mongo_store.
Notation MongoS := (gmap string OAuthConnectionDoc).
Definition the_store : ScopedStore MongoS (option OAuthConnectionDoc) := mongo_store toy_aead (toy_provider one_key 1) "wks_1".
#[local] Existing Instance the_store.
Definition the_laws : ScopedStoreLaws MongoS (option OAuthConnectionDoc) := mongo_store_laws toy_aead (toy_provider one_key 1) "wks_1".

Definition a_config : OAuthClientConfig := oauthClientConfig "https://host.example/" None.
Definition a_binding (perUser : bool) (w b : string) : option ServerBinding :=
  Some {| sb_id := b; sb_mcpServerId := "srv_1"; sb_agentId := None; sb_alias := "github"; sb_perUserAuth := perUser |}.
Definition remote_server (w b : string) : option ServerRow :=
  Some {| sr_transport := "streamable_http"; sr_catalogId := None; sr_url := Some "https://mcp.example/mcp" |}.
Definition google_server (w b : string) : option ServerRow :=
  Some {| sr_transport := "in_process"; sr_catalogId := Some "google_workspace"; sr_url := None |}.

(** An SDK that files a verifier and asks for consent, and one that redeems. *)
Definition sdk_begin (url : string) : AuthProg :=
  ap_call 0 (c_state "st-1") (λ _, ap_call 0 (c_saveCodeVerifier "ver-1" "unused" sample_draws) (λ _,
  ap_call 0 (c_redirectToAuthorization (url +:+ "?consent") sample_draws) (λ _, ap_redirect))).
Definition sdk_redeem (url code : string) (iss : option string) : AuthProg :=
  ap_call 0 c_codeVerifier (λ _, ap_call 0 (c_saveTokens (bearer code) (Some "https://auth.example") sample_draws) (λ _, ap_authorized)).
Definition sdk_refuses (url code : string) (iss : option string) : AuthProg := ap_throw.

Definition cookie_text (w b : string) (u : option string) : string :=
  stringify (VObject ([("workspaceId", VString w); ("bindingId", VString b)] ++ optional "userId" (VString <$> u))).
Definition answer (code state : string) : CallbackRequest := {| rq_code := Some code; rq_state := Some state; rq_iss := None; rq_error := None |}.

Definition begun_rows : MongoS :=
  (authorize (H := the_store) (λ _, None) (None, 0) "wks_1" "bnd_1" "usr_1" (a_binding false) remote_server (λ _, None) a_config sdk_begin None 0 sample_draws no_rows).2.
Definition finish_with (auth : string → string → option string → AuthProg) (caller code state : string) (s : MongoS) :=
  callback (H := the_store) (λ _, None) id (None, 3) (Some (cookie_text "wks_1" "bnd_1" None)) (answer code state) (Some caller) (a_binding false) remote_server
    (λ _, None) a_config auth sample_draws s.

Lemma begun_ok : store_ok (ScopedStore := the_store) begun_rows.
Proof.
  set (pv := {| pv_scopeKey := shared_key; pv_config := a_config; pv_pendingState := None; pv_redirectedTo := None |}).
  assert (begun_rows = (run_auth (H := the_store) (λ _, None) (sdk_begin "https://mcp.example/mcp") pv no_rows).2.2) as -> by (vm_compute; reflexivity).
  exact (proj1 (in_scope_framed (H := the_store) _ _ no_rows
    (sdk_stays_in_its_scope (H := the_store) (H0 := the_laws) (λ _, None) (sdk_begin "https://mcp.example/mcp") pv I) no_rows_ok)).
Qed.

Lemma consent_attaches_to_its_request_witness :
  (finish_with sdk_redeem "usr_1" "code-1" "st-1" begun_rows).1 = (l_connected 3, ["code-1"]) ∧
  ∃ p, (store_exec (ScopedStore := the_store) op_loadPending shared_key begun_rows).1 = Ret (re_pending (Some p)) ∧ pa_state p = "st-1".
Proof.
  assert ((finish_with sdk_redeem "usr_1" "code-1" "st-1" begun_rows).1 = (l_connected 3, ["code-1"])) as Hr by (vm_compute; reflexivity).
  split; [exact Hr|].
  pose proof begun_ok as Hok.
  pose proof (consent_attaches_to_its_request (H := the_store) (H0 := the_laws) (λ _, None) id (None, 3) (λ _ _ _, I)
    (Some (cookie_text "wks_1" "bnd_1" None)) (answer "code-1" "st-1") (Some "usr_1") (a_binding false) remote_server
    (λ _, None) a_config sdk_redeem sample_draws begun_rows Hok) as Ht.
  change (callback _ _ _ _ _ _ _ _ _ _ _ _ _) with (finish_with sdk_redeem "usr_1" "code-1" "st-1" begun_rows) in Ht.
  destruct (finish_with sdk_redeem "usr_1" "code-1" "st-1" begun_rows) as [[l codes] t]. cbn [fst] in Hr. injection Hr as -> ->.
  destruct Ht as [[? _]|(pending & u & b & code & state & Hp & _ & _ & Hb & _ & Hst & _ & Hcodes)]; [done|].
  destruct (Hcodes ltac:(done)) as [_ (p & Hl & Hs)]. exists p.
  vm_compute in Hp. injection Hp as <-. injection Hb as <-. injection Hst as <-. split; [exact Hl|exact Hs].
Defined.

(** A state that matched is good for another try when the redemption fails, and
    a person who is not the one who began consent can finish it on a connection
    the workspace shares. *)
Example failed_redemption_keeps_the_state :
  (finish_with sdk_refuses "usr_1" "code-1" "st-1" begun_rows).1 = (l_failed, ["code-1"]) ∧
  (finish_with sdk_redeem "usr_2" "code-2" "st-1" (finish_with sdk_refuses "usr_1" "code-1" "st-1" begun_rows).2).1 = (l_connected 3, ["code-2"]).
Proof. split; vm_compute; reflexivity. Qed.

(** With a vendor's own adapter a wrong state is not consumed either: guesses
    can be made until one is right. *)
Definition google_begun : MongoS :=
  (authorize (H := the_store) (λ _, None) (None, 0) "wks_1" "bnd_1" "usr_1" (a_binding false) google_server
     (λ _, Some {| bg_authorizationUrl := "https://accounts.google.com/x"; bg_state := "st-g"; bg_codeVerifier := "ver-g" |}) a_config sdk_begin None 0 sample_draws no_rows).2.
Definition google_back (state : string) (s : MongoS) :=
  callback (H := the_store) (λ _, None) id (None, 3) (Some (cookie_text "wks_1" "bnd_1" None)) (answer "code-g" state) (Some "usr_1") (a_binding false) google_server
    (λ _, Some (λ code verifier, Ret (bearer (code +:+ verifier)))) a_config sdk_redeem sample_draws s.
Example native_states_survive_a_mismatch :
  (google_back "guess" google_begun).1 = (l_failed, []) ∧
  (google_back "st-g" (google_back "guess" google_begun).2).1 = (l_connected 3, ["code-g"]).
Proof. split; vm_compute; reflexivity. Qed.

(** On a remote server the wrong state ends the authorization. *)
Lemma codes_are_redeemed_for_their_state_witness :
  let pv := {| pv_scopeKey := shared_key; pv_config := a_config; pv_pendingState := None; pv_redirectedTo := None |} in
  let cb := {| cb_code := "code-1"; cb_state := "guess"; cb_iss := None |} in
  let right := {| cb_code := "code-1"; cb_state := "st-1"; cb_iss := None |} in
  let s' := (completeAuthorization (H := the_store) (λ _, None) (sdk_redeem "") cb pv begun_rows).2.2 in
  (completeAuthorization (H := the_store) (λ _, None) (sdk_redeem "") right pv s').1 = (Throw pe_no_pending, []).
Proof.
  intros pv cb right s'.
  pose proof begun_ok as Hok.
  pose proof (codes_are_redeemed_for_their_state (H := the_store) (H0 := the_laws) (λ _, None) (sdk_redeem "") cb right (sdk_redeem "") pv pv begun_rows I Hok eq_refl) as Ht.
  subst s'. destruct (completeAuthorization (λ _, None) (sdk_redeem "") cb pv begun_rows) as [[r codes] [pv1 t]] eqn:E.
  destruct Ht as [_ Ht]. apply Ht. split.
  - change r with (r, codes, (pv1, t)).1.1. rewrite <-E. vm_compute. reflexivity.
  - change codes with (r, codes, (pv1, t)).1.2. rewrite <-E. vm_compute. reflexivity.
Defined.

Lemma sdk_stays_in_its_scope_witness :
  let pv := {| pv_scopeKey := shared_key; pv_config := a_config; pv_pendingState := None; pv_redirectedTo := None |} in
  framed (H := the_store) shared_key no_rows (run_auth (H := the_store) (λ _, None) (sdk_begin "https://mcp.example/mcp") pv no_rows).2.2.
Proof.
  intros pv. destruct (sdk_stays_in_its_scope (H := the_store) (H0 := the_laws) (λ _, None) (sdk_begin "https://mcp.example/mcp") pv I no_rows no_rows) as (_ & _ & Hf & _).
  - split; [exact no_rows_ok|]. split; [exact no_rows_ok|done].
  - exact Hf.
Defined.
