(* ===== verification/Adapters.v ===== *)
(** * The chat platforms

    Models packages/channels/src: what each adapter makes of a request
    ([receive], [verify], [confirm]), which connection a request on a shared
    address is for, how a stored token is taken apart, and how an answer is cut
    into messages and sent.  The bodies are as the platforms document them: a
    field has its declared type or is absent.  HMAC-SHA256 in hexadecimal, the
    check of an Ed25519 signature, form decoding and URL parsing are
    parameters. *)
From S2P Require Import Prelude Json JsonText Text Numbers Envelope Guard ChatApprovals Inbound McpOAuth.

(** ** The port *)

Record Ack := { ak_body : string; ak_contentType : string }.
Definition json_ack (v : value) : Ack := {| ak_body := stringify v; ak_contentType := "application/json" |}.

Inductive Received :=
| rv_message (message : InboundMessage) (ack : option Ack)
| rv_choice (choice : InboundChoice)
| rv_ignored (reason : string)
| rv_challenge (body contentType : string)
| rv_rejected (reason : string).

Record VerifyContext := { vc_webhookUrl : string; vc_webhookSecret : string }.
Definition Headers := string → option string.

(** What the handler of deliveries is told. *)
Definition verdict (r : Received) : InboundResult :=
  match r with
  | rv_message m ack => ir_message m (ak_body <$> ack)
  | rv_choice c => ir_choice c
  | rv_ignored _ => ir_ignored
  | rv_challenge body _ => ir_challenge body
  | rv_rejected _ => ir_rejected
  end.

Definition timingSafeEqualString (a b : string) : bool := if negb (String.length a =? String.length b)%nat then false else String.eqb a b.

(** A declared field: its text, its number, whether it is there. *)
Definition str_of (v : value) (key : string) : option string := match own v key with VString s => Some s | _ => None end.
Definition num_of (v : value) (key : string) : option Z := match own v key with VNumber n => Some n | _ => None end.
Definition obj_of (v : value) (key : string) : option value := match own v key with VObject es => Some (VObject es) | _ => None end.
Definition list_of (v : value) (key : string) : list value := match own v key with VArray l => l | _ => [] end.
Definition is_true (v : value) (key : string) : bool := match own v key with VBool b => b | _ => false end.

(** ** Cutting an answer *)

Definition is_newline (c : Ascii.ascii) : bool := Ascii.eqb c (Ascii.ascii_of_nat 10).
(** [window.lastIndexOf('\n')], -1 when there is none. *)
Fixpoint last_newline (i found : Z) (s : string) : Z :=
  match s with EmptyString => found | String c r => last_newline (i + 1) (if is_newline c then i else found) r end.

Definition drop_newline (s : string) : string := match s with String c r => if is_newline c then r else s | EmptyString => "" end.

(** Where to cut: a line break in the last quarter of the window, or its end. *)
Definition cut_at (limit : nat) (rest : string) : nat :=
  let b := last_newline 0 (-1) (str_take limit rest) in
  if 3 * Z.of_nat limit <? 4 * b then Z.to_nat b else limit.

(** The loop of [split] and of Telegram's [chunk]; every round takes at least
    one character, so the length is fuel enough. *)
Fixpoint split_loop (fuel limit : nat) (rest : string) : list string :=
  match fuel with
  | O => [rest]
  | S fuel' =>
      if (limit <? String.length rest)%nat then
        str_take (cut_at limit rest) rest :: split_loop fuel' limit (drop_newline (str_drop (cut_at limit rest) rest))
      else if String.eqb rest "" then [] else [rest]
  end.
Definition split (text : string) (limit : nat) : list string :=
  if (String.length text <=? limit)%nat then [text] else split_loop (String.length text) limit text.
(** [split(text, limit)[0] ?? text]. *)
Definition first_part (text : string) (limit : nat) : string := default text (head (split text limit)).

Definition MAX_AUDIO_BYTES : Z := 20 * 1024 * 1024.

(** ** Telegram *)
Module Telegram.
Definition TELEGRAM_MAX_MESSAGE_LENGTH : nat := 4096.
Definition SECRET_HEADER : string := "x-telegram-bot-api-secret-token".

(** An id of a chat in an update, as text. *)
Definition id_text (v : value) : option string :=
  match own v "id" with VNumber n => Some (pretty n) | VString s => Some s | _ => None end.
(** [telegramChatOf]. *)
Definition telegramChatOf (raw : string) : option string :=
  match json_parse raw with
  | None => None
  | Some update =>
      match own (own (own update "message") "chat") "id" with
      | VUndefined | VNull => id_text (own (own (own update "callback_query") "message") "chat")
      | _ => id_text (own (own update "message") "chat")
      end
  end.

Record TelegramUser := { u_ref : Z; u_isBot : bool; u_first : option string; u_handle : option string }.
Definition telegram_user_of (v : value) (key : string) : option TelegramUser :=
  match obj_of v key with
  | Some u => (λ id, {| u_ref := id; u_isBot := is_true u "is_bot"; u_first := str_of u "first_name"; u_handle := str_of u "username" |}) <$> num_of u "id"
  | None => None
  end.
Definition label (u : TelegramUser) : string :=
  match u_handle u with Some h => "@" +:+ h | None => default (pretty (u_ref u)) (u_first u) end.

(** A press: what it was under, who telegram_pressed, what the button carried. *)
Definition telegram_pressed (query : value) : Received :=
  match obj_of query "message" with
  | None => rv_ignored "A button press with nothing to act on."
  | Some m =>
      match obj_of m "chat" ≫= (λ c, num_of c "id"), str_of query "data", telegram_user_of query "from", str_of query "id", num_of m "message_id" with
      | Some chat, Some data, Some from, Some id, Some messageId =>
          rv_choice {| ic_chatRef := pretty chat; ic_senderRef := pretty (u_ref from); ic_senderLabel := label from; ic_data := data;
                       ic_callbackRef := id; ic_messageRef := pretty messageId; ic_deliveryRef := "press:" +:+ id |}
      | _, _, _, _, _ => rv_ignored "A button press with nothing to act on."
      end
  end.

Definition audio_of (v : value) : option InboundAudio :=
  (λ file, {| au_fileRef := file; au_mimeType := default "audio/ogg" (str_of v "mime_type"); au_durationSeconds := num_of v "duration";
              au_sizeBytes := num_of v "file_size" |}) <$> str_of v "file_id".

Definition spoken (message : value) : option value :=
  match obj_of message "voice" with Some v => Some v | None => obj_of message "audio" end.

Definition telegram_said (message : value) : Received :=
  match obj_of message "chat" ≫= (λ c, num_of c "id"), telegram_user_of message "from", num_of message "message_id" with
  | Some chat, Some from, Some messageId =>
      if u_isBot from then rv_ignored "Sent by a bot."
      else
        let typed := match str_of message "text" with Some t => t | None => default "" (str_of message "caption") end in
        if String.eqb (js_trim typed) "" && match spoken message with None => true | Some _ => false end
        then rv_ignored "Nothing to read — a photo, sticker or file."
        else if match spoken message with Some v => MAX_AUDIO_BYTES <? default 0 (num_of v "file_size") | None => false end
        then rv_ignored "The recording is too large to fetch."
        else rv_message {| im_chatRef := pretty chat; im_senderRef := pretty (u_ref from); im_senderLabel := label from; im_text := typed;
                           im_audio := spoken message ≫= audio_of; im_messageRef := pretty messageId |} None
  | _, _, _ => rv_ignored "Not a chat message."
  end.

Definition telegram_receive (raw : string) (headers : Headers) (context : VerifyContext) : Received :=
  match headers SECRET_HEADER with
  | Some presented =>
      if negb (timingSafeEqualString presented (vc_webhookSecret context))
      then rv_rejected "The delivery did not carry this connection's secret."
      else match json_parse raw with
           | None => rv_rejected "The delivery was not JSON."
           | Some update =>
               match own update "callback_query" with
               | VUndefined => match obj_of update "message" with Some m => telegram_said m | None => rv_ignored "Not a chat message." end
               | query => telegram_pressed query
               end
           end
  | None => rv_rejected "The delivery did not carry this connection's secret."
  end.

(** The requests of [telegram_send], in order. *)
Definition telegram_send (chatRef text : string) : list value :=
  map (λ part, VObject [("chat_id", VString chatRef); ("text", VString part)]) (split text TELEGRAM_MAX_MESSAGE_LENGTH).
End Telegram.

(** ** Slack *)
Module Slack.
Definition SLACK_MAX_MESSAGE_LENGTH : nat := 3000.
Definition MAX_SKEW_SECONDS : Z := 300.
Definition SLACK_SIGNATURE_HEADER : string := "x-slack-signature".
Definition SLACK_TIMESTAMP_HEADER : string := "x-slack-request-timestamp".

Section Slack.
Context (hmac : string → string → string) (form_payload : string → option string).

Definition signature_of (secret timestamp raw : string) : string := "v0=" +:+ hmac secret ("v0:" +:+ timestamp +:+ ":" +:+ raw).

(** [slackTeamOf]. *)
Definition slackTeamOf (raw : string) : option string :=
  let text := if String.prefix "payload=" raw then form_payload raw else Some raw in
  match text ≫= json_parse with
  | None => None
  | Some body => match str_of body "team_id" with Some t => Some t | None => str_of (own body "team") "id" end
  end.

Definition is_audio (f : value) : bool := match str_of f "mimetype" with Some m => String.prefix "audio/" m | None => false end.
(** [slack_audioIn]: the first audio file, when it can be fetched; a duration in whole seconds. *)
Definition slack_audioIn (files : list value) : option InboundAudio :=
  match find is_audio files with
  | None => None
  | Some f =>
      match (match str_of f "url_private_download" with Some u => Some u | None => str_of f "url_private" end) with
      | None => None
      | Some url => Some {| au_fileRef := url; au_mimeType := default "" (str_of f "mimetype");
                            au_durationSeconds := (λ ms, ms / 1000) <$> num_of f "duration_ms"; au_sizeBytes := num_of f "size" |}
      end
  end.

Definition slack_pressed (body : value) : Received :=
  match head (list_of body "actions") ≫= (λ a, str_of a "value"), str_of (own body "channel") "id", str_of (own body "user") "id",
        str_of (own body "message") "ts", str_of body "trigger_id" with
  | Some data, Some chatRef, Some senderRef, Some messageRef, Some trigger =>
      rv_choice {| ic_chatRef := chatRef; ic_senderRef := senderRef;
                   ic_senderLabel := match str_of (own body "user") "username" with
                                     | Some u => "@" +:+ u
                                     | None => default senderRef (str_of (own body "user") "name")
                                     end;
                   ic_data := data; ic_callbackRef := default "" (str_of body "response_url"); ic_messageRef := messageRef;
                   ic_deliveryRef := "press:" +:+ trigger |}
  | _, _, _, _, _ => rv_ignored "A press with nothing to act on."
  end.

Definition slack_said (event : value) (nowMs : Z) : Received :=
  if negb (match str_of event "type" with Some t => String.eqb t "message" || String.eqb t "app_mention" | None => false end)
  then rv_ignored "Not a message."
  else match str_of event "bot_id" with
  | Some _ => rv_ignored "Sent by a bot."
  | None =>
      match str_of event "channel", str_of event "user" with
      | Some channel, Some user =>
          let ref := default (channel +:+ ":" +:+ pretty nowMs) (str_of event "ts") in
          let message text audio := {| im_chatRef := channel; im_senderRef := user; im_senderLabel := user; im_text := text;
                                       im_audio := audio; im_messageRef := ref |} in
          match slack_audioIn (list_of event "files") with
          | Some audio =>
              if MAX_AUDIO_BYTES <? default 0 (au_sizeBytes audio) then rv_ignored "A recording too large to fetch."
              else rv_message (message (default "" (str_of event "text")) (Some audio)) None
          | None =>
              match str_of event "subtype" with
              | Some sub => rv_ignored ("Message subtype " +:+ sub +:+ ".")
              | None =>
                  match str_of event "text" with
                  | Some text => if String.eqb (js_trim text) "" then rv_ignored "No text." else rv_message (message text None) None
                  | None => rv_ignored "No text."
                  end
              end
          end
      | _, _ => rv_ignored "A message with no channel or sender."
      end
  end.

Definition fresh (timestamp : string) (nowMs : Z) : bool :=
  match js_number timestamp with
  | None => false
  | Some t => within MAX_SKEW_SECONDS (nowMs / 1000) t
  end.

Definition slack_receive (raw : string) (headers : Headers) (context : VerifyContext) (nowMs : Z) : Received :=
  match headers SLACK_SIGNATURE_HEADER, headers SLACK_TIMESTAMP_HEADER with
  | Some signature, Some timestamp =>
      if negb (fresh timestamp nowMs) then rv_rejected "The delivery is too old to accept."
      else if negb (timingSafeEqualString signature (signature_of (vc_webhookSecret context) timestamp raw))
      then rv_rejected "The signature did not verify."
      else
        let isForm := String.prefix "application/x-www-form-urlencoded" (default "" (headers "content-type")) || String.prefix "payload=" raw in
        match (if isForm then form_payload raw else Some raw) with
        | None => rv_ignored "A form with no payload."
        | Some text =>
            match json_parse text with
            | None => rv_rejected "The delivery was not JSON."
            | Some body =>
                match str_of body "type", str_of body "challenge" with
                | Some "url_verification", Some challenge => rv_challenge challenge "text/plain"
                | Some "block_actions", _ => slack_pressed body
                | _, _ => slack_said (own body "event") nowMs
                end
            end
        end
  | _, _ => rv_rejected "The delivery was not signed."
  end.

Definition slack_send (chatRef text : string) : list value :=
  map (λ part, VObject [("channel", VString chatRef); ("text", VString part)]) (split text SLACK_MAX_MESSAGE_LENGTH).

(** [fetchAudio]: the token goes only to a host of Slack's. *)
Definition slack_may_fetch (host : string → option string) (fileRef : string) : bool :=
  let h := default "" (toLowerCase <$> host fileRef) in String.eqb h "slack.com" || ends_with ".slack.com" h.
End Slack.
End Slack.

(** ** Discord *)
Module Discord.
Definition DISCORD_MAX_MESSAGE_LENGTH : nat := 2000.
Definition DISCORD_SIGNATURE_HEADER : string := "x-signature-ed25519".
Definition DISCORD_TIMESTAMP_HEADER : string := "x-signature-timestamp".
Definition COMMAND_NAME : string := "yashayah".
Definition COMMAND_OPTION : string := "message".
Definition COMMAND_ACK : string := "On it.".

Section Discord.
(** Whether a signature in hexadecimal is one of the public key in hexadecimal
    on a text; false for a malformed key. *)
Context (ed25519 : string → string → string → bool).

Definition discordGuildOf (raw : string) : option string := json_parse raw ≫= (λ body, str_of body "guild_id").

Definition NOT_IN_SERVER : Ack := json_ack (VObject [("type", VNumber 4); ("data", VObject [
  ("content", VString "Use /yashayah in a server where the assistant was added. Direct messages are not connected."); ("flags", VNumber 64)])]).

Record DiscordUser := { u_id : string; u_username : string }.
Definition discord_user_of (v : value) (key : string) : option DiscordUser :=
  match obj_of v key with
  | Some u => match str_of u "id", str_of u "username" with Some i, Some n => Some {| u_id := i; u_username := n |} | _, _ => None end
  | None => None
  end.
Definition labelOf (u : DiscordUser) : string := "@" +:+ u_username u.

(** [body.member?.user ?? body.user]. *)
Definition asker (body : value) : option DiscordUser := match discord_user_of (own body "member") "user" with Some u => Some u | None => discord_user_of body "user" end.

Definition discord_pressed (body : value) : Received :=
  match asker body, str_of body "channel_id", str_of (own body "data") "custom_id", str_of (own body "message") "id", str_of body "id" with
  | Some user, Some chat, Some data, Some messageRef, Some id =>
      rv_choice {| ic_chatRef := chat; ic_senderRef := u_id user; ic_senderLabel := labelOf user; ic_data := data; ic_callbackRef := id;
                   ic_messageRef := messageRef; ic_deliveryRef := "press:" +:+ id |}
  | _, _, _, _, _ => rv_ignored "A press with nothing to act on."
  end.

Definition commanded (body : value) (nowMs : Z) : Received :=
  let option_ := find (λ o, match str_of o "name" with Some n => String.eqb n COMMAND_OPTION | None => false end) (list_of (own body "data") "options") in
  match asker body, str_of body "channel_id", option_ ≫= (λ o, str_of o "value") with
  | Some user, Some chat, Some text =>
      rv_message {| im_chatRef := chat; im_senderRef := u_id user; im_senderLabel := labelOf user; im_text := text; im_audio := None;
                    im_messageRef := default (chat +:+ ":" +:+ pretty nowMs) (str_of body "id") |}
        (Some (json_ack (VObject [("type", VNumber 4); ("data", VObject [("content", VString COMMAND_ACK)])])))
  | _, _, _ => rv_ignored "A command with nothing to say."
  end.

Definition discord_receive (raw : string) (headers : Headers) (context : VerifyContext) (nowMs : Z) : Received :=
  match headers DISCORD_SIGNATURE_HEADER, headers DISCORD_TIMESTAMP_HEADER with
  | Some signature, Some timestamp =>
      if negb (ed25519 (vc_webhookSecret context) (timestamp +:+ raw) signature) then rv_rejected "The signature did not verify."
      else match json_parse raw with
           | None => rv_rejected "The delivery was not JSON."
           | Some body =>
               match num_of body "type" with
               | Some 1 => rv_challenge (stringify (VObject [("type", VNumber 1)])) "application/json"
               | Some 3 => discord_pressed body
               | Some 2 => commanded body nowMs
               | _ => rv_ignored "Not a command."
               end
           end
  | _, _ => rv_rejected "The delivery was not signed."
  end.

Definition discord_send (text : string) : list value := map (λ part, VObject [("content", VString part)]) (split text DISCORD_MAX_MESSAGE_LENGTH).
Definition ackChoice (text : string) : Ack :=
  json_ack (VObject [("type", VNumber 7); ("data", VObject [("content", VString (first_part text DISCORD_MAX_MESSAGE_LENGTH)); ("components", VArray [])])]).
End Discord.
End Discord.

(** ** WhatsApp *)
Module WhatsApp.
Definition WHATSAPP_MAX_MESSAGE_LENGTH : nat := 4096.
Definition MAX_CAPTION : nat := 1024.
Definition MAX_BUTTON_LABEL : nat := 20.
Definition MAX_BUTTON_ID : nat := 256.
Definition MAX_BUTTONS : nat := 3.
Definition WHATSAPP_SIGNATURE_HEADER : string := "x-hub-signature-256".
Definition MEDIA_HOSTS : list string := [".fbsbx.com"; ".facebook.com"; ".whatsapp.net"].

(** The text before the first separator and the text after it; nothing when the separator leads or is missing. *)
Fixpoint split_once (sep : Ascii.ascii) (s : string) : option (string * string) :=
  match s with
  | EmptyString => None
  | String c r => if Ascii.eqb c sep then Some ("", r) else (λ ab, (String c ab.1, ab.2)) <$> split_once sep r
  end.
Definition whatsapp_parts (token : string) : option (string * string) :=
  match split_once ":" token with Some ("", _) => None | r => r end.
Definition whatsapp_composeToken (token extra : string) : string := js_trim extra +:+ ":" +:+ js_trim token.
(** [/^\d{5,25}$/]. *)
Definition phone_id_shaped (s : string) : bool := numeral s && (5 <=? String.length s)%nat && (String.length s <=? 25)%nat.

Section WhatsApp.
Context (hmac : string → string → string).

Definition verifyTokenOf (context : VerifyContext) : string := str_take 32 (hmac (vc_webhookSecret context) "hive-whatsapp-verify").

(** [verify]: the answer to the probe, nothing when it is not genuine. *)
Definition verify (query : Headers) (context : VerifyContext) : option Ack :=
  match query "hub.mode", query "hub.verify_token", query "hub.challenge" with
  | Some mode, Some presented, Some challenge =>
      if negb (String.eqb mode "subscribe") then None
      else if timingSafeEqualString (verifyTokenOf context) presented then Some {| ak_body := challenge; ak_contentType := "text/plain" |} else None
  | _, _, _ => None
  end.

(** The changes of every entry. *)
Definition changes (body : value) : list value := flat_map (λ e, list_of e "changes") (list_of body "entry").
Definition field_is (name : string) (c : value) : bool := match str_of c "field" with Some f => String.eqb f name | None => false end.
Definition type_is (name : string) (m : value) : bool := match str_of m "type" with Some t => String.eqb t name | None => false end.

(** [whatsappPhoneOf]. *)
Definition whatsappPhoneOf (raw : string) : option string :=
  match json_parse raw with
  | None => None
  | Some body => head (omap (λ c, str_of (own (own c "value") "metadata") "phone_number_id") (changes body))
  end.

Definition sender_label (v : value) (from : string) : string :=
  match find (λ c, match str_of c "wa_id" with Some w => String.eqb w from | None => false end) (list_of v "contacts") with
  | Some c => default ("+" +:+ from) (str_of (own c "profile") "name")
  | None => "+" +:+ from
  end.

(** The data of the button that was tapped. *)
Definition tapped (m : value) : option string :=
  if type_is "interactive" m && type_is "button_reply" (own m "interactive") then str_of (own (own m "interactive") "button_reply") "id"
  else if type_is "button" m then str_of (own m "button") "payload" else None.

Definition message_of (v m : value) (from id : string) : Received :=
  let label := sender_label v from in
  let message text audio := {| im_chatRef := from; im_senderRef := from; im_senderLabel := label; im_text := text; im_audio := audio; im_messageRef := id |} in
  match tapped m with
  | Some data => rv_choice {| ic_chatRef := from; ic_senderRef := from; ic_senderLabel := label; ic_data := data; ic_callbackRef := id;
                              ic_messageRef := default "" (str_of (own m "context") "id"); ic_deliveryRef := "press:" +:+ id |}
  | None =>
      match (if type_is "audio" m then str_of (own m "audio") "id" else None) with
      | Some file => rv_message (message "" (Some {| au_fileRef := file; au_mimeType := default "audio/ogg" (str_of (own m "audio") "mime_type");
                                                     au_durationSeconds := None; au_sizeBytes := None |})) None
      | None =>
          match (if type_is "text" m then str_of (own m "text") "body" else None) with
          | Some text =>
              if String.eqb (js_trim text) "" then rv_ignored "A text message, which has no words." else rv_message (message text None) None
          | None => rv_ignored ("A " +:+ default "typeless" (str_of m "type") +:+ " message, which has no words.")
          end
      end
  end.

Definition whatsapp_receive (raw : string) (headers : Headers) (context : VerifyContext) : Received :=
  match headers WHATSAPP_SIGNATURE_HEADER with
  | Some signature =>
      if negb (String.prefix "sha256=" signature) then rv_rejected "The delivery was not signed."
      else if negb (timingSafeEqualString (hmac (vc_webhookSecret context) raw) (str_drop 7 signature)) then rv_rejected "The signature did not verify."
      else match json_parse raw with
           | None => rv_rejected "The delivery was not JSON."
           | Some body =>
               if negb (match str_of body "object" with Some o => String.eqb o "whatsapp_business_account" | None => false end)
               then rv_ignored "Not a WhatsApp delivery."
               else match find (field_is "messages") (changes body) ≫= (λ c, obj_of c "value") with
                    | None => rv_ignored "A status update, not a message."
                    | Some v =>
                        match head (list_of v "messages") with
                        | None => rv_ignored "A status update, not a message."
                        | Some m =>
                            match str_of m "from", str_of m "id" with
                            | Some from, Some id => message_of v m from id
                            | _, _ => rv_ignored "A message with no sender."
                            end
                        end
                    end
           end
  | None => rv_rejected "The delivery was not signed."
  end.

Definition envelope (to : string) : list (string * value) :=
  [("messaging_product", VString "whatsapp"); ("recipient_type", VString "individual"); ("to", VString to)].
Definition whatsapp_send (chatRef text : string) : list value :=
  map (λ part, VObject (envelope chatRef ++ [("type", VString "text"); ("text", VObject [("body", VString part); ("preview_url", VBool true)])]))
    (split text WHATSAPP_MAX_MESSAGE_LENGTH).
(** The buttons of a question: at most three, cut to what Meta allows. *)
Definition buttons (choices : list (string * string)) : list (string * string) :=
  map (λ c, (str_take MAX_BUTTON_LABEL c.1, str_take MAX_BUTTON_ID c.2)) (take MAX_BUTTONS choices).
Definition whatsapp_may_fetch (host : string → option string) (url : string) : bool :=
  existsb (λ suffix, ends_with suffix (default "" (toLowerCase <$> host url))) MEDIA_HOSTS.
End WhatsApp.
End WhatsApp.

(** ** iMessage *)
Module IMessage.
Definition IMESSAGE_MAX_MESSAGE_LENGTH : nat := 4000.
Definition NEW_MESSAGE_EVENT : string := "new-message".
Definition imessage_composeToken (token extra : string) : string := js_trim extra +:+ " " +:+ js_trim token.

Fixpoint drop_slashes (s : string) : string :=
  match s with EmptyString => "" | String c r => let t := drop_slashes r in if Ascii.eqb c "/" && String.eqb t "" then "" else String c t end.
(** The server's address and the password; [web] tells an http or https URL. *)
Definition imessage_parts (web : string → bool) (token : string) : option (string * string) :=
  match WhatsApp.split_once " " token with
  | Some ("", _) | None => None
  | Some (address, password) => let base := drop_slashes address in if web base then Some (base, password) else None
  end.

Definition is_voice (a : value) : bool :=
  match str_of a "mimeType", str_of a "guid" with Some m, Some _ => String.prefix "audio/" m | _, _ => false end.
Definition imessage_audioIn (attachments : list value) : option InboundAudio :=
  match find is_voice attachments with
  | Some f => (λ g, {| au_fileRef := g; au_mimeType := "audio/mpeg"; au_durationSeconds := None; au_sizeBytes := num_of f "totalBytes" |}) <$> str_of f "guid"
  | None => None
  end.

(** The words of a message; the placeholder of an attachment is no 8-bit
    character, so there is none to take out. *)
Definition words (m : value) : string := js_trim (default "" (str_of m "text")).

Definition imessage_receive (raw : string) : Received :=
  match json_parse raw with
  | None => rv_rejected "The delivery was not JSON."
  | Some event =>
      if negb (match str_of event "type" with Some t => String.eqb t NEW_MESSAGE_EVENT | None => false end)
      then rv_ignored ("A " +:+ default "typeless" (str_of event "type") +:+ " event.")
      else match obj_of event "data" with
      | None => rv_ignored "An event with no message."
      | Some m =>
          match str_of m "guid" with
          | None => rv_ignored "An event with no message."
          | Some guid =>
              if is_true m "isFromMe" then rv_ignored "Sent by this Mac."
              else match head (list_of m "chats") ≫= (λ c, str_of c "guid"), str_of (own m "handle") "address" with
              | Some chat, Some from =>
                  if str_includes ";+;" chat then rv_ignored "A group chat."
                  else
                    let audio := imessage_audioIn (list_of m "attachments") in
                    if match audio with Some a => MAX_AUDIO_BYTES <? default 0 (au_sizeBytes a) | None => false end
                    then rv_ignored "A recording too large to fetch."
                    else if match audio with None => String.eqb (words m) "" | Some _ => false end then rv_ignored "No text."
                    else rv_message {| im_chatRef := chat; im_senderRef := from; im_senderLabel := from; im_text := words m; im_audio := audio;
                                       im_messageRef := guid |} None
              | _, _ => rv_ignored "A message with no chat or sender."
              end
          end
      end
  end.

(** [confirm], for what the Mac answers when asked for the message. *)
Definition confirm (found : option value) (message : InboundMessage) : bool :=
  match found with
  | None => false
  | Some f =>
      if negb (match str_of f "guid" with Some g => String.eqb g (im_messageRef message) | None => false end) || is_true f "isFromMe" then false
      else if negb (match str_of (own f "handle") "address" with Some a => String.eqb a (im_senderRef message) | None => false end) then false
      else String.eqb (words f) (im_text message) ||
           (match im_audio message with Some _ => true | None => false end && String.eqb (words f) "")
  end.

Definition imessage_send (text : string) : list string := split text IMESSAGE_MAX_MESSAGE_LENGTH.
End IMessage.

(** ** The registry *)
Definition CHANNEL_IDS : list string := ["telegram"; "whatsapp"; "imessage"; "slack"; "discord"].

Section Registry.
Context (hmac : string → string → string) (ed25519 : string → string → string → bool) (form_payload : string → option string).

(** [channelAdapter(id)?.receive]. *)
Definition receive (type raw : string) (headers : Headers) (context : VerifyContext) (nowMs : Z) : option Received :=
  match type with
  | "telegram" => Some (Telegram.telegram_receive raw headers context)
  | "slack" => Some (Slack.slack_receive hmac form_payload raw headers context nowMs)
  | "discord" => Some (Discord.discord_receive ed25519 raw headers context nowMs)
  | "whatsapp" => Some (WhatsApp.whatsapp_receive hmac raw headers context)
  | "imessage" => Some (IMessage.imessage_receive raw)
  | _ => None
  end.

(** What proves that a request comes from the platform. *)
Definition authentic (type raw : string) (headers : Headers) (context : VerifyContext) (nowMs : Z) : Prop :=
  match type with
  | "telegram" => headers Telegram.SECRET_HEADER = Some (vc_webhookSecret context)
  | "slack" => ∃ ts t, headers Slack.SLACK_TIMESTAMP_HEADER = Some ts ∧ js_number ts = Some t ∧ within Slack.MAX_SKEW_SECONDS (nowMs / 1000) t = true ∧
      headers Slack.SLACK_SIGNATURE_HEADER = Some ("v0=" +:+ hmac (vc_webhookSecret context) ("v0:" +:+ ts +:+ ":" +:+ raw))
  | "discord" => ∃ sg ts, headers Discord.DISCORD_SIGNATURE_HEADER = Some sg ∧ headers Discord.DISCORD_TIMESTAMP_HEADER = Some ts ∧
      ed25519 (vc_webhookSecret context) (ts +:+ raw) sg = true
  | "whatsapp" => headers WhatsApp.WHATSAPP_SIGNATURE_HEADER = Some ("sha256=" +:+ hmac (vc_webhookSecret context) raw)
  | _ => True
  end.
End Registry.

(** ** Who a delivery comes from *)

Lemma timing_safe_eqb a b : timingSafeEqualString a b = String.eqb a b.
Proof.
  unfold timingSafeEqualString. destruct (Nat.eqb_spec (String.length a) (String.length b)) as [|Hl]; [done|]. cbn [negb].
  by destruct (String.eqb_spec a b) as [->|].
Qed.

Section Authentic.
Context (hmac : string → string → string) (ed25519 : string → string → string → bool) (form_payload : string → option string).

Definition is_rejected (r : Received) : bool := match r with rv_rejected _ => true | _ => false end.

Lemma telegram_authentic raw headers context :
  is_rejected (Telegram.telegram_receive raw headers context) = false →
  headers Telegram.SECRET_HEADER = Some (vc_webhookSecret context).
Proof.
  unfold Telegram.telegram_receive. destruct (headers Telegram.SECRET_HEADER) as [p|]; [|done]. rewrite timing_safe_eqb.
  by destruct (String.eqb_spec p (vc_webhookSecret context)) as [->|].
Qed.

Lemma discord_authentic raw headers context nowMs :
  is_rejected (Discord.discord_receive ed25519 raw headers context nowMs) = false →
  authentic hmac ed25519 "discord" raw headers context nowMs.
Proof.
  unfold Discord.discord_receive. destruct (headers Discord.DISCORD_SIGNATURE_HEADER) as [sg|] eqn:Hs; [|done].
  destruct (headers Discord.DISCORD_TIMESTAMP_HEADER) as [ts|] eqn:Ht; [|done].
  destruct (ed25519 _ _ _) eqn:He; [|done]. by exists sg, ts.
Qed.

Lemma slack_authentic raw headers context nowMs :
  is_rejected (Slack.slack_receive hmac form_payload raw headers context nowMs) = false →
  authentic hmac ed25519 "slack" raw headers context nowMs.
Proof.
  unfold Slack.slack_receive. destruct (headers Slack.SLACK_SIGNATURE_HEADER) as [sg|] eqn:Hs; [|done].
  destruct (headers Slack.SLACK_TIMESTAMP_HEADER) as [ts|] eqn:Hts; [|done]. unfold Slack.fresh.
  destruct (js_number ts) as [t|] eqn:Ht; [|done].
  destruct (within _ _ t) eqn:Hw; [|done]. cbn [negb]. rewrite timing_safe_eqb.
  destruct (String.eqb_spec sg (Slack.signature_of hmac (vc_webhookSecret context) ts raw)) as [->|]; [|done]. by exists ts, t.
Qed.

Lemma whatsapp_authentic raw headers context :
  is_rejected (WhatsApp.whatsapp_receive hmac raw headers context) = false →
  headers WhatsApp.WHATSAPP_SIGNATURE_HEADER = Some ("sha256=" +:+ hmac (vc_webhookSecret context) raw).
Proof.
  unfold WhatsApp.whatsapp_receive. destruct (headers WhatsApp.WHATSAPP_SIGNATURE_HEADER) as [sg|]; [|done].
  destruct (String.prefix "sha256=" sg) eqn:Hp; [|done]. cbn [negb]. rewrite timing_safe_eqb.
  destruct (String.eqb_spec (hmac (vc_webhookSecret context) raw) (str_drop 7 sg)) as [->|]; [|done].
  intros _. change 7%nat with (String.length "sha256="). f_equal. by apply prefix_app.
Qed.

Lemma receive_authentic type raw headers context nowMs r :
  receive hmac ed25519 form_payload type raw headers context nowMs = Some r → is_rejected r = false →
  authentic hmac ed25519 type raw headers context nowMs.
Proof.
  unfold receive. repeat (case_match; try done); intros [= <-] Hr; subst;
    first [by eapply telegram_authentic|by eapply discord_authentic|by eapply slack_authentic|by eapply whatsapp_authentic|done].
Qed.
End Authentic.

(** ** Long answers *)

Inductive glued : list string → string → Prop :=
| glued_nil : glued [] ""
| glued_next p ps t : glued ps t → glued (p :: ps) (p +:+ t)
| glued_break p ps t : glued ps t → glued (p :: ps) (p +:+ String (Ascii.ascii_of_nat 10) t).

Lemma last_newline_bound i f s : last_newline i f s <= Z.max f (i + Z.of_nat (String.length s) - 1).
Proof.
  revert i f. induction s as [|c s IH]; intros i f; cbn [last_newline String.length]; [lia|].
  specialize (IH (i + 1) (if is_newline c then i else f)). destruct (is_newline c); lia.
Qed.

Lemma cut_at_bound limit rest : (0 < limit)%nat → (1 <= cut_at limit rest <= limit)%nat.
Proof.
  intros Hl. unfold cut_at. pose proof (last_newline_bound 0 (-1) (str_take limit rest)) as Hb. rewrite str_take_length in Hb.
  destruct (Z.ltb_spec (3 * Z.of_nat limit) (4 * last_newline 0 (-1) (str_take limit rest))); lia.
Qed.


Lemma drop_newline_cases s : drop_newline s = s ∨ s = String (Ascii.ascii_of_nat 10) (drop_newline s).
Proof. destruct s as [|c s]; [by left|]. cbn. unfold is_newline. destruct (Ascii.eqb_spec c (Ascii.ascii_of_nat 10)) as [->|]; [by right|by left]. Qed.

Lemma drop_newline_length s : (String.length (drop_newline s) <= String.length s)%nat.
Proof. destruct s as [|c s]; cbn; [done|]. destruct (is_newline c); cbn; lia. Qed.

Definition fits (limit : nat) (p : string) : Prop := (0 < String.length p <= limit)%nat.

Lemma split_loop_ok limit fuel rest : (0 < limit)%nat → (String.length rest <= fuel)%nat →
  Forall (fits limit) (split_loop fuel limit rest) ∧ glued (split_loop fuel limit rest) rest ∨ (fuel = 0%nat ∧ rest = "").
Proof.
  intros Hl. revert rest. induction fuel as [|fuel IH]; intros rest Hf; [right; destruct rest; cbn in Hf; [done|lia]|]. left.
  cbn [split_loop]. destruct (Nat.ltb_spec limit (String.length rest)) as [Hlt|Hge].
  - pose proof (cut_at_bound limit rest Hl) as Hcut. set (n := cut_at limit rest) in *.
    pose proof (drop_newline_length (str_drop n rest)) as Hd. rewrite str_drop_length in Hd.
    assert (fits limit (str_take n rest)) as Hfit by (unfold fits; rewrite str_take_length; lia).
    assert (∀ ps, glued ps (drop_newline (str_drop n rest)) → glued (str_take n rest :: ps) rest) as Hglue.
    { intros ps Hps. destruct (drop_newline_cases (str_drop n rest)) as [E|E].
      - rewrite E in Hps. rewrite <-(str_take_drop n rest) at 2. by constructor.
      - rewrite <-(str_take_drop n rest) at 2. rewrite E. by constructor. }
    destruct (IH (drop_newline (str_drop n rest)) ltac:(lia)) as [[Hall Hgl]|[-> E]].
    + split; [by constructor|by apply Hglue].
    + exfalso. lia.
  - destruct (String.eqb_spec rest "") as [->|Hne]; [split; constructor|]. split.
    + constructor; [|done]. unfold fits. destruct rest; [done|]. cbn in *. lia.
    + rewrite <-(str_app_nil_r rest) at 2. constructor. constructor.
Qed.

Lemma text_split_spec text limit : (0 < limit)%nat → text ≠ "" → Forall (fits limit) (split text limit) ∧ glued (split text limit) text.
Proof.
  intros Hl Hne. unfold split. destruct (Nat.leb_spec (String.length text) limit) as [Hle|Hgt].
  - split; [|rewrite <-(str_app_nil_r text) at 2; repeat constructor]. constructor; [|done].
    unfold fits. destruct text; [done|]. cbn in *. lia.
  - destruct (split_loop_ok limit (String.length text) text Hl (le_n _)) as [?|[E _]]; [done|]. rewrite E in Hgt. lia.
Qed.

Lemma split_glued text limit : (0 < limit)%nat → text ≠ "" → glued (split text limit) text.
Proof. intros Hl Hne. by apply text_split_spec. Qed.

(** Cutting an answer for a platform loses nothing but line breaks at the cuts:
    the parts, glued in order with at most one line break after each, are the
    answer; none is empty or longer than the platform allows. *)
Theorem answers_are_cut_without_loss text limit :
  (0 < limit)%nat → text ≠ "" → Forall (fits limit) (split text limit) ∧ glued (split text limit) text.
Proof. apply text_split_spec. Qed.

(** ** Tokens in two parts *)

Lemma split_once_app sep a b : lacks sep a = true → WhatsApp.split_once sep (a +:+ String sep b) = Some (a, b).
Proof.
  unfold lacks. induction a as [|c a IH]; cbn [str_all]; intros Ha; cbn [String.append WhatsApp.split_once]; [by rewrite Ascii.eqb_refl|].
  apply andb_true_iff in Ha as [Hc Ha]. rewrite Ascii.eqb_sym in Hc. apply negb_true_iff in Hc. rewrite Hc, (IH Ha). done.
Qed.

(** What the form composed is what the calls take apart. *)
Theorem composed_tokens_come_apart token extra :
  lacks ":" (js_trim extra) = true → js_trim extra ≠ "" →
  WhatsApp.whatsapp_parts (WhatsApp.whatsapp_composeToken token extra) = Some (js_trim extra, js_trim token).
Proof.
  intros Hl Hne. unfold WhatsApp.whatsapp_parts, WhatsApp.whatsapp_composeToken. cbn [String.append]. rewrite split_once_app by done.
  by destruct (js_trim extra).
Qed.

(** ** Histories *)

Definition toy_hmac (secret text : string) : string := secret +:+ "|" +:+ text.

(** A line break in the last quarter of the window is where the text is cut, and is dropped. *)
Lemma answers_are_cut_without_loss_witness :
  let text := "abcdefg" +:+ String (Ascii.ascii_of_nat 10) "hijk" in
  split text 8 = ["abcdefg"; "hijk"] ∧ Forall (fits 8) (split text 8) ∧ glued (split text 8) text.
Proof.
  intros text. split; [vm_compute; reflexivity|]. apply (answers_are_cut_without_loss text 8); [lia|discriminate].
Defined.

Lemma composed_tokens_come_apart_witness :
  WhatsApp.whatsapp_parts (WhatsApp.whatsapp_composeToken "EAAG:x" " 106540352242922 ") = Some ("106540352242922", "EAAG:x").
Proof.
  apply (composed_tokens_come_apart "EAAG:x" " 106540352242922 "); [vm_compute; reflexivity|vm_compute; discriminate].
Defined.

(** The message as the Mac has it. *)
Definition mac_message : value := VObject [("guid", VString "g1"); ("text", VString "pay the invoice"); ("isFromMe", VBool false);
  ("handle", VObject [("address", VString "+155501")]); ("chats", VArray [VObject [("guid", VString "iMessage;-;+155501")]])].
Definition mac_recording : value := VObject [("guid", VString "g2"); ("isFromMe", VBool false); ("handle", VObject [("address", VString "+155501")])].
(** A delivery nobody signed. *)
Definition forged (guid chat text : string) (attachments : list value) : string := stringify (VObject [("type", VString IMessage.NEW_MESSAGE_EVENT);
  ("data", VObject [("guid", VString guid); ("text", VString text); ("handle", VObject [("address", VString "+155501")]);
                    ("chats", VArray [VObject [("guid", VString chat)]]); ("attachments", VArray attachments)])]).
Definition confirmed (raw : string) (found : option value) : option (string * string) :=
  match IMessage.imessage_receive raw with
  | rv_message m _ => if IMessage.confirm found m then Some (im_chatRef m, im_text m) else None
  | _ => None
  end.

(** The chat of a delivery is not compared with the chat of the message it
    names: a delivery that repeats a real message under another chat is
    confirmed. *)
Example confirm_ignores_the_chat :
  confirmed (forged "g1" "iMessage;-;+199999" "pay the invoice" []) (Some mac_message) = Some ("iMessage;-;+199999", "pay the invoice").
Proof. vm_compute. reflexivity. Qed.

(** Nor are its words, when the message it names has none and the delivery
    claims a recording. *)
Example confirm_takes_other_words_with_a_recording :
  confirmed (forged "g2" "iMessage;-;+155501" "wire everything" [VObject [("guid", VString "a"); ("mimeType", VString "audio/mp4")]]) (Some mac_recording)
    = Some ("iMessage;-;+155501", "wire everything").
Proof. vm_compute. reflexivity. Qed.

Definition wa_text (id body : string) : value := VObject [("from", VString "155501"); ("id", VString id); ("type", VString "text");
  ("text", VObject [("body", VString body)])].
Definition wa_batch : string := stringify (VObject [("object", VString "whatsapp_business_account"); ("entry", VArray [VObject [("changes", VArray [
  VObject [("field", VString "messages"); ("value", VObject [("messages", VArray [wa_text "w1" "first"; wa_text "w2" "second"])])]])]])]).
Definition wa_headers : Headers := λ k, if String.eqb k WhatsApp.WHATSAPP_SIGNATURE_HEADER then Some ("sha256=" +:+ toy_hmac "app" wa_batch) else None.

(** A delivery with two messages gives the first; the second is acknowledged and lost. *)
Example batched_messages_are_dropped :
  WhatsApp.whatsapp_receive toy_hmac wa_batch wa_headers {| vc_webhookUrl := ""; vc_webhookSecret := "app" |} =
    rv_message {| im_chatRef := "155501"; im_senderRef := "155501"; im_senderLabel := "+155501"; im_text := "first"; im_audio := None;
                  im_messageRef := "w1" |} None.
Proof. vm_compute. reflexivity. Qed.
