(* ===== verification/Webhooks.v ===== *)
(** * Addresses of the chat platforms

    Models the entry points of apps/web/src/lib/channel-inbound.ts (the address
    of one connection, the address all installs of this deployment's own app
    share, the probes) and channel-webhook.ts (which address a connection has,
    and the daily sweep that keeps every bot pointed at it).  A request goes
    through the platform's adapter (Adapters) and then through the handler of
    deliveries (Inbound).  [resolve] is what the workspace's credentials say a
    credential holds; the platform's own API and the settings of the deployment
    are parameters.  The commands of [claimTelegramChat] do not fail midway. *)
From stdpp Require Import stringmap.
From S2P Require Import Prelude Json JsonText Text Numbers Envelope Entities Guard Mongo RunQueue Approvals Principal Access Accounts Conversations Channels ChatApprovals Inbound McpOAuth Adapters.

(** ** Addresses *)

Definition webhookUrl (base type channelId : string) : string := drop_slash base +:+ "/api/channels/" +:+ type +:+ "/" +:+ channelId.
Definition app_path (type : string) : option string :=
  match type with
  | "slack" => Some "/api/channels/slack/app"
  | "discord" => Some "/api/channels/discord/app"
  | "whatsapp" => Some "/api/channels/whatsapp/app"
  | "telegram" => Some "/api/channels/telegram/app"
  | _ => None
  end.
Definition deliveryUrlOf (base id : string) (row : ChannelDoc) : string :=
  match ch_install row, app_path (ch_type row) with
  | Some _, Some path => drop_slash base +:+ path
  | _, _ => webhookUrl base (ch_type row) id
  end.

(** [deliveredToOldAddress], for the host of the configured address. *)
Definition deliveredToOldAddress (ownHost : string) (headers : Headers) : bool :=
  let named := match headers "x-forwarded-host" with Some h => h | None => default "" (headers "host") end in
  let presented := toLowerCase (js_trim (default "" (head (str_split "," named)))) in
  if String.eqb presented "" then false else negb (String.eqb presented ownHost).

Definition set_env (e : Env) (confirm : option bool) (refreshed : option string) : Env := {|
  ev_now := ev_now e; ev_ids := ev_ids e; ev_confirm := confirm; ev_ear := ev_ear e; ev_agent := ev_agent e; ev_bindings := ev_bindings e;
  ev_allowed := ev_allowed e; ev_lost := ev_lost e; ev_refreshed := refreshed; ev_faults := ev_faults e |}.

(** ** The daily sweep *)

Section Sweep.
Context {CC : Type} `{CollectionLaws ChannelDoc CC}.
(** The configured address of the deployment, what [credentials.resolve] says
    in a workspace, and what the platform answers when it is told an address. *)
Context (base : string) (resolve : string → string → option string) (register : ChannelDoc → string → bool).

(** Whether the platform accepts the current address for a connection. *)
Definition bot_answers (id : string) (row : ChannelDoc) : bool :=
  bool_decide (ch_type row ∈ CHANNEL_IDS) &&
  match resolve (ch_workspaceId row) (ch_tokenCredentialId row) with Some _ => register row (deliveryUrlOf base id row) | None => false end.
(** [registerWebhook]. *)
Definition registerWebhook (id : string) (row : ChannelDoc) (now : Z) (c : CC) : option string * CC :=
  if bot_answers id row
  then (Some (deliveryUrlOf base id row), recordWebhook (ch_workspaceId row) id (deliveryUrlOf base id row) (Some WEBHOOK_SPEC) now c)
  else (None, c).

Definition enabled (d : ChannelDoc) : bool := negb (bool_decide (ch_status d = disabled)).
Definition stale_address (id : string) (row : ChannelDoc) : bool :=
  negb (bool_decide (ch_webhookUrl row = Some (deliveryUrlOf base id row))) || negb (default 1 (ch_webhookSpec row) =? WEBHOOK_SPEC).

(** The first loop of [refreshStaleWebhooks]: how many were updated, how many failed. *)
Fixpoint repoint (now : Z) (rows : list (string * ChannelDoc)) (c : CC) : Z * Z * CC :=
  match rows with
  | [] => (0, 0, c)
  | (id, row) :: rest =>
      match registerWebhook id row now c with
      | (Some _, c1) => let '(updated, missed, c2) := repoint now rest c1 in (updated + 1, missed, c2)
      | (None, c1) => let '(updated, missed, c2) := repoint now rest c1 in (updated, missed + 1, c2)
      end
  end.
Definition stale_channels (c : CC) : list (string * ChannelDoc) := List.filter (λ kr, stale_address kr.1 kr.2) (find_all enabled c).
Definition refreshAddresses (now : Z) (c : CC) : Z * Z * CC := repoint now (stale_channels c) c.

Lemma updateOne_mine (f : ChannelDoc → ChannelDoc) id (c : CC) d :
  docs c !! id = Some d → docs (updateOne id (in_ws (ch_workspaceId d)) f c).2 = <[id := f d]> (docs c).
Proof. intros Hd. apply updateOne_hit; [done|]. unfold in_ws. apply String.eqb_refl. Qed.

(** Two updates of one connection, one after the other. *)
Lemma updateOne_mine2 (f g : ChannelDoc → ChannelDoc) id ws (c : CC) d :
  (∀ d, ch_workspaceId (f d) = ch_workspaceId d) → ws = ch_workspaceId d → docs c !! id = Some d →
  docs (updateOne id (in_ws ws) g (updateOne id (in_ws ws) f c).2).2 = <[id := g (f d)]> (docs c).
Proof.
  intros Hf -> Hd. rewrite <-Hf. rewrite (updateOne_mine g id _ (f d)).
  - rewrite Hf, (updateOne_mine f id c d Hd). apply insert_insert_eq.
  - rewrite Hf, (updateOne_mine f id c d Hd). apply lookup_insert_eq.
Qed.

(** *** What the sweep leaves *)

Definition repointed (id : string) (now : Z) (row : ChannelDoc) : ChannelDoc :=
  set_route (ch_tokenCredentialId row) (ch_install row) (Some (deliveryUrlOf base id row)) (Some WEBHOOK_SPEC) now row.

Lemma repointed_fresh id now row : stale_address id (repointed id now row) = false.
Proof. unfold stale_address. change (deliveryUrlOf base id (repointed id now row)) with (deliveryUrlOf base id row). by rewrite bool_decide_eq_true_2. Qed.

Lemma registerWebhook_cases id row now c : docs c !! id = Some row →
  bot_answers id row = true ∧ (∃ c', registerWebhook id row now c = (Some (deliveryUrlOf base id row), c') ∧
                                     docs c' = <[id := repointed id now row]> (docs c)) ∨
  bot_answers id row = false ∧ registerWebhook id row now c = (None, c).
Proof.
  intros Hrow. unfold registerWebhook. destruct (bot_answers id row); [left|by right]. split; [done|]. eexists. split; [done|].
  unfold recordWebhook. by erewrite updateOne_mine by done.
Qed.

Lemma repoint_rows now rows c : NoDup rows.*1 → (∀ id row, (id, row) ∈ rows → docs c !! id = Some row) →
  let '(updated, missed, c') := repoint now rows c in
  updated = Z.of_nat (length (List.filter (λ kr, bot_answers kr.1 kr.2) rows)) ∧ updated + missed = Z.of_nat (length rows) ∧
  (∀ id, id ∉ rows.*1 → docs c' !! id = docs c !! id) ∧
  (∀ id row, (id, row) ∈ rows → docs c' !! id = Some (if bot_answers id row then repointed id now row else row)).
Proof.
  revert c. induction rows as [|[id row] rows IH]; intros c Hnd Hin; cbn [repoint].
  { split_and!; try done. intros id row Hx. by apply not_elem_of_nil in Hx. }
  apply NoDup_cons in Hnd as [Hni Hnd]. pose proof (Hin id row ltac:(by left)) as Hrow.
  assert (∀ id' row', (id', row') ∈ rows → id' ≠ id) as Hother.
  { intros id' row' Hx ->. apply Hni. apply list_elem_of_fmap. by exists (id, row'). }
  destruct (registerWebhook_cases id row now c Hrow) as [(Hb & c' & -> & Hc')|(Hb & ->)].
  - specialize (IH c' Hnd). destruct (repoint now rows c') as [[updated missed] c2].
    destruct IH as (Hu & Hum & Hout & Hrows).
    { intros id' row' Hx. rewrite Hc', lookup_insert_ne by (intros E; by eapply Hother). by apply Hin; right. }
    cbn [List.filter fst snd length]. rewrite Hb. cbn [length]. split_and!; [lia|lia| |].
    + intros k Hk. apply not_elem_of_cons in Hk as [Hk1 Hk2]. by rewrite Hout, Hc', lookup_insert_ne.
    + intros id' row' Hx. apply elem_of_cons in Hx as [[= -> ->]|Hx]; [|by apply Hrows].
      rewrite (Hout id Hni), Hc', lookup_insert_eq, Hb. done.
  - specialize (IH c Hnd (λ id' row' Hx, Hin id' row' ltac:(by right))). destruct (repoint now rows c) as [[updated missed] c2].
    destruct IH as (Hu & Hum & Hout & Hrows). cbn [List.filter fst snd length]. rewrite Hb. split_and!; [lia|lia| |].
    + intros k Hk. apply not_elem_of_cons in Hk as [Hk1 Hk2]. by apply Hout.
    + intros id' row' Hx. apply elem_of_cons in Hx as [[= -> ->]|Hx]; [|by apply Hrows]. by rewrite (Hout id Hni), Hb.
Qed.

Lemma stale_channels_rows c id row : (id, row) ∈ stale_channels c ↔ docs c !! id = Some row ∧ enabled row = true ∧ stale_address id row = true.
Proof. unfold stale_channels. rewrite list_elem_of_In, filter_In, <-list_elem_of_In, elem_of_find_all. cbn [fst snd]. split; [intros [[? ?] ?]|intros (? & ? & ?)]; auto. Qed.

(** After the sweep every enabled connection is recorded under its current
    address and registration, but for those whose platform would not take it,
    which stay as they were; the counts it reports are of these two kinds; and
    disabled connections are left alone. *)
Theorem sweep_repoints_every_bot now (c c' : CC) updated missed :
  refreshAddresses now c = (updated, missed, c') →
  (∀ id d', docs c' !! id = Some d' → enabled d' = true → stale_address id d' = false ∨ docs c !! id = Some d' ∧ bot_answers id d' = false) ∧
  (∀ id d', docs c' !! id = Some d' → docs c !! id = Some d' ∨ ∃ d, docs c !! id = Some d ∧ enabled d = true ∧ d' = repointed id now d) ∧
  updated + missed = Z.of_nat (length (stale_channels c)).
Proof.
  unfold refreshAddresses. intros Hrun. pose proof (repoint_rows now (stale_channels c) c) as Hspec. rewrite Hrun in Hspec.
  destruct Hspec as (_ & Hcount & Hout & Hin).
  { unfold stale_channels. apply NoDup_map_filter, find_all_nodup. }
  { intros id row Hx. by apply stale_channels_rows in Hx as [? _]. }
  assert (∀ id d', docs c' !! id = Some d' →
            (∃ d, docs c !! id = Some d ∧ enabled d = true ∧ bot_answers id d = true ∧ d' = repointed id now d) ∨
            docs c !! id = Some d' ∧ (enabled d' = true → stale_address id d' = true → bot_answers id d' = false)) as Hcases.
  { intros id d' Hd'. destruct (decide (id ∈ (stale_channels c).*1)) as [Hx|Hx].
    - apply list_elem_of_fmap in Hx as [[id' row] [Heq Hx]]. simpl in Heq. subst id'. specialize (Hin id row Hx).
      apply stale_channels_rows in Hx as (Hrow & Hen & _). rewrite Hd' in Hin. injection Hin as ->.
      destruct (bot_answers id row) eqn:Hb; [left; by exists row|right; done].
    - right. rewrite (Hout id Hx) in Hd'. split; [done|]. intros He Hs. exfalso. apply Hx. apply list_elem_of_fmap. exists (id, d').
      split; [done|]. by apply stale_channels_rows. }
  split_and!; [| |done]; intros id d' Hd'; specialize (Hcases id d' Hd').
  - intros He. destruct Hcases as [(d & _ & _ & _ & ->)|[Hd Hb]]; [left; apply repointed_fresh|].
    destruct (stale_address id d') eqn:Hs; [right; auto|by left].
  - destruct Hcases as [(d & Hd & He & _ & ->)|[Hd _]]; [right; by exists d|by left].
Qed.
End Sweep.

(** ** Requests *)

(** The deployment's own application for a platform. *)
Record SharedApp := {
  sa_webhookUrl : string; sa_webhookSecret : string; sa_teamOf : string → option string; sa_notHere : option Ack; sa_claims : bool }.
(** What the platform settings hold of it, when they hold all it needs. *)
Record AppSettings := { as_slackSigning : option string; as_discordKey : option string; as_metaSecret : option string; as_telegramToken : option string }.

Definition DISCORD_ONE_PRESS : bool := false.

Inductive SharedReply := sr_hello | sr_bad_code | sr_connected.

Section Webhooks.
Context {CC CE CP CV CM CR CA CQ CW CU : Type}.
Context `{CollectionLaws ChannelDoc CC, CollectionLaws ChannelEventDoc CE, CollectionLaws ChannelIdentityDoc CP,
          CollectionLaws ConversationDoc CV, CollectionLaws Message CM, CollectionLaws RunDoc CR, CollectionLaws ApprovalDoc CA,
          CollectionLaws AuthChallengeDoc CQ, CollectionLaws WorkspaceDoc CW, CollectionLaws UserDoc CU}.
Context (sha256 : string → string) (genId : CP → string) (workspaces : CW) (users : CU).
(** HMAC-SHA256 in hexadecimal and in base64url. *)
Context (hmac hmac64 : string → string → string) (ed25519 : string → string → string → bool) (form_payload : string → option string).
Context (base ownHost : string) (settings : AppSettings).
(** [credentials.resolve] in a workspace; what [register] answers; what the
    person's Mac has of a message. *)
Context (resolve : string → string → option string) (register : ChannelDoc → string → bool) (on_mac : string → string → option value).
Notation Idb := (@InboundDb CC CE CP CV CM CR CA CQ).
Notation adapter_receive := (receive hmac ed25519 form_payload).

Definition secret_of (row : ChannelDoc) : string := default "" (ch_secretCredentialId row ≫= resolve (ch_workspaceId row)).
Definition context_of (id : string) (row : ChannelDoc) : VerifyContext :=
  {| vc_webhookUrl := webhookUrl base (ch_type row) id; vc_webhookSecret := secret_of row |}.

(** What a platform that cannot sign says of a message; nothing for the others. *)
Definition confirmed_by (row : ChannelDoc) (judged : Received) : option bool :=
  match judged with
  | rv_message m _ =>
      if String.eqb (ch_type row) "imessage" then
        Some (match resolve (ch_workspaceId row) (ch_tokenCredentialId row) with
              | Some token => IMessage.confirm (on_mac token (im_messageRef m)) m
              | None => false
              end)
      else None
  | _ => None
  end.

Definition unknown : DeliveryOutcome := plain_outcome 404 "unknown channel".

(** The address of one connection: [handleDelivery]. *)
Definition handle_request (type channelId raw : string) (headers : Headers) (e : Env) (db : Idb) : outcome unit DeliveryOutcome * list Effect * Idb :=
  match docs (ib_channels db) !! channelId with
  | Some row =>
      if String.eqb (ch_type row) type then
        match adapter_receive type raw headers (context_of channelId row) (ev_now e) with
        | Some judged =>
            let stale := deliveredToOldAddress ownHost headers || negb (default 1 (ch_webhookSpec row) =? WEBHOOK_SPEC) in
            let refreshed := if negb (is_rejected judged) && stale && bot_answers base resolve register channelId row then Some (deliveryUrlOf base channelId row) else None in
            handleDelivery sha256 genId (ch_workspaceId row) workspaces users (set_env e (confirmed_by row judged) refreshed)
              type channelId (verdict judged) db
        | None => (Ret unknown, [], db)
        end
      else (Ret unknown, [], db)
  | None => (Ret unknown, [], db)
  end.

(** [handleProbe]: only WhatsApp's adapter has a [verify]. *)
Definition handleProbe (type channelId : string) (query : Headers) (c : CC) : DeliveryOutcome :=
  if negb (bool_decide (type ∈ CHANNEL_IDS)) then unknown
  else if negb (String.eqb type "whatsapp") then ok_outcome
  else match docs c !! channelId with
       | Some row =>
           if String.eqb (ch_type row) type then
             match WhatsApp.verify hmac query (context_of channelId row) with
             | Some ack => plain_outcome 200 (ak_body ack)
             | None => plain_outcome 403 "forbidden"
             end
           else unknown
       | None => unknown
       end.

(** ** The shared addresses *)

Definition telegramWebhookSecret (token : string) : string := hmac64 token "hive-telegram-webhook".
Definition sharedAppOf (type : string) : option SharedApp :=
  let app secret teamOf notHere claims :=
    (λ s, {| sa_webhookUrl := drop_slash base +:+ default "" (app_path type); sa_webhookSecret := s; sa_teamOf := teamOf; sa_notHere := notHere;
             sa_claims := claims |}) <$> secret in
  match type with
  | "slack" => app (as_slackSigning settings) (Slack.slackTeamOf form_payload) None false
  | "discord" => app (if DISCORD_ONE_PRESS then as_discordKey settings else None) Discord.discordGuildOf (Some Discord.NOT_IN_SERVER) false
  | "whatsapp" => app (as_metaSecret settings) WhatsApp.whatsappPhoneOf None false
  | "telegram" => app (telegramWebhookSecret <$> as_telegramToken settings) Telegram.telegramChatOf None true
  | _ => None
  end.

Definition code_shaped (code : string) : bool :=
  str_all (λ c, is_upper c || is_digit c) code && (6 <=? String.length code)%nat && (String.length code <=? 12)%nat.
Definition awaits (code : string) (now : Z) (d : ChannelDoc) : bool :=
  String.eqb (ch_type d) "telegram" &&
  match ch_connect d with Some cn => String.eqb (cn_code cn) code && (now <? cn_expiresAt cn) | None => false end &&
  match ch_install d with Some _ => true | None => false end.

(** [claimTelegramChat]. *)
Definition claimTelegramChat (chatRef : string) (message : InboundMessage) (e : Env) (c : CC)
    : outcome unit DeliveryOutcome * list (string * SharedReply) * CC :=
  let offered := offeredCode (im_text message) in
  match (if code_shaped offered then find_one (awaits offered (ev_now e)) c else None) with
  | None => (Ret ok_outcome, [(chatRef, sr_hello)], c)
  | Some (id, waiting) =>
      match Channels.claim (ch_workspaceId waiting) id offered chatRef (ev_now e) c with
      | (None, c1) => (Ret ok_outcome, [(chatRef, sr_bad_code)], c1)
      | (Some _, c1) =>
          match bindInstall (ch_workspaceId waiting) id chatRef (im_senderLabel message) (ev_now e) c1 with
          | (Throw _, c2) => (Throw (), [], c2)
          | (Ret _, c2) =>
              (Ret ok_outcome, [(chatRef, sr_connected)],
               recordWebhook (ch_workspaceId waiting) id (drop_slash base +:+ default "" (app_path "telegram")) (Some WEBHOOK_SPEC) (ev_now e) c2)
          end
      end
  end.

Definition of_team (type teamRef : string) (d : ChannelDoc) : bool :=
  String.eqb (ch_type d) type && match ch_install d with Some i => String.eqb (in_teamRef i) teamRef | None => false end &&
  negb (bool_decide (ch_status d = disabled)).

Definition handleSharedDelivery (type raw : string) (headers : Headers) (e : Env) (db : Idb)
    : outcome unit DeliveryOutcome * (list Effect * list (string * SharedReply)) * Idb :=
  let answer o := (Ret o, ([], []), db) in
  match sharedAppOf type with
  | None => answer unknown
  | Some shared =>
      match adapter_receive type raw headers {| vc_webhookUrl := sa_webhookUrl shared; vc_webhookSecret := sa_webhookSecret shared |} (ev_now e) with
      | None => answer unknown
      | Some (rv_rejected _) => answer (plain_outcome 401 "unauthorized")
      | Some (rv_challenge body _) => answer (plain_outcome 200 body)
      | Some (rv_ignored _) => answer ok_outcome
      | Some judged =>
          match sa_teamOf shared raw with
          | None => answer (match sa_notHere shared with Some ack => plain_outcome 200 (ak_body ack) | None => ok_outcome end)
          | Some teamRef =>
              match find_one (of_team type teamRef) (ib_channels db) with
              | Some (id, row) =>
                  let '(r, es, db1) := act sha256 genId (ch_workspaceId row) workspaces users (set_env e (confirmed_by row judged) None)
                                         row id (verdict judged) db in
                  (r, (es, []), db1)
              | None =>
                  match judged with
                  | rv_message m _ =>
                      if sa_claims shared then
                        let '(r, said, c1) := claimTelegramChat teamRef m e (ib_channels db) in (r, ([], said), on_channels c1 db)
                      else answer ok_outcome
                  | _ => answer ok_outcome
                  end
              end
          end
      end
  end.

(** [handleSharedProbe], with the verify token an operator may have set. *)
Definition handleSharedProbe (type : string) (query : Headers) (verifyToken : option string) : DeliveryOutcome :=
  if negb (String.eqb type "whatsapp") then ok_outcome
  else match as_metaSecret settings with
       | None => unknown
       | Some secret =>
           let expected := default (WhatsApp.verifyTokenOf hmac {| vc_webhookUrl := ""; vc_webhookSecret := secret |}) verifyToken in
           match query "hub.mode", query "hub.verify_token", query "hub.challenge" with
           | Some mode, Some presented, Some challenge =>
               if String.eqb mode "subscribe" && timingSafeEqualString expected presented then plain_outcome 200 challenge else plain_outcome 403 "forbidden"
           | _, _, _ => plain_outcome 403 "forbidden"
           end
       end.

(** ** Who starts a run *)

(** At the address of a connection a run is started only on that connection, connected
    and of the platform of the address, by a message that is proved under its secret. *)
Lemma own_runs_are_proved type channelId raw headers e (db : Idb) :
  runs_in (handle_request type channelId raw headers e db).1.2 ≠ 0%nat →
  ∃ row message ack, docs (ib_channels db) !! channelId = Some row ∧ ch_type row = type ∧ ch_status row = connected ∧
    adapter_receive type raw headers (context_of channelId row) (ev_now e) = Some (rv_message message ack) ∧
    authentic hmac ed25519 type raw headers (context_of channelId row) (ev_now e) ∧
    (type = "imessage" → ∃ token, resolve (ch_workspaceId row) (ch_tokenCredentialId row) = Some token ∧
       IMessage.confirm (on_mac token (im_messageRef message)) message = true).
Proof.
  unfold handle_request. destruct (docs _ !! channelId) as [row|] eqn:Hrow; [|done].
  destruct (String.eqb_spec (ch_type row) type) as [Ht|]; [|done].
  destruct (adapter_receive _ _ _ _ _) as [judged|] eqn:Hr; [|done].
  unfold handleDelivery, findById, in_ws. rewrite Hrow. cbn [mbind option_bind]. rewrite String.eqb_refl, Ht, String.eqb_refl.
  intros (message & ack & es & db1 & Hj & Hconf & _ & Hst & _)%loud_act.
  destruct judged as [m a| | | |]; try done. injection Hj as <- <-.
  exists row, m, a. split_and!; try done.
  - by apply (receive_authentic _ _ _ _ _ _ _ _ _ Hr).
  - intros ->. cbn in Hconf. rewrite Ht in Hconf. cbn in Hconf. destruct (resolve _ _) as [token|]; [|done]. exists token. split; [done|].
    by destruct (IMessage.confirm _ _).
Qed.

(** A request to the address the installs share starts a run only under the
    deployment's own secret, and only for the connection of the team the
    request names. *)
Theorem shared_runs_are_placed type raw headers e (db : Idb) :
  runs_in (handleSharedDelivery type raw headers e db).1.2.1 ≠ 0%nat →
  ∃ shared team id row i message ack, sharedAppOf type = Some shared ∧ sa_teamOf shared raw = Some team ∧
    adapter_receive type raw headers {| vc_webhookUrl := sa_webhookUrl shared; vc_webhookSecret := sa_webhookSecret shared |} (ev_now e) = Some (rv_message message ack) ∧
    authentic hmac ed25519 type raw headers {| vc_webhookUrl := sa_webhookUrl shared; vc_webhookSecret := sa_webhookSecret shared |} (ev_now e) ∧
    docs (ib_channels db) !! id = Some row ∧ ch_type row = type ∧ ch_install row = Some i ∧ in_teamRef i = team ∧ ch_status row = connected.
Proof.
  unfold handleSharedDelivery. destruct (sharedAppOf type) as [shared|]; [|done].
  destruct (adapter_receive _ _ _ _ _) as [judged|] eqn:Hr; [|done].
  assert (is_rejected judged = false → authentic hmac ed25519 type raw headers
            {| vc_webhookUrl := sa_webhookUrl shared; vc_webhookSecret := sa_webhookSecret shared |} (ev_now e)) as Ha
    by apply (receive_authentic _ _ _ _ _ _ _ _ _ Hr).
  destruct judged as [m a|ch| | |]; try done; (destruct (sa_teamOf shared raw) as [team|] eqn:Hteam; [|done]);
    (destruct (find_one _ _) as [[id row]|] eqn:Hrow; [|by (try destruct (sa_claims shared)); try destruct (claimTelegramChat _ _ _ _) as [[]]]);
    apply find_one_some in Hrow as [Hrow Hp]; unfold of_team in Hp; apply andb_true_iff in Hp as [[Htype Hi]%andb_true_iff _];
    (destruct (ch_install row) as [i|] eqn:Hinst; [|done]); apply String.eqb_eq in Htype, Hi;
    destruct (act _ _ _ _ _ _ _ _ _ _) as [[r es] db1] eqn:Hact; cbn [fst snd]; intros Hruns;
    (edestruct loud_act as (message & ack & es' & db2 & Hj & _ & _ & Hst & _); [by rewrite Hact|]); try done.
  exists shared, team, id, row, i, m, a. split_and!; try done. by apply Ha.
Qed.

(** The key the deployment's own app of a platform is verified with. *)
Definition deployment_secret (type secret : string) : Prop :=
  type = "slack" ∧ as_slackSigning settings = Some secret ∨
  type = "whatsapp" ∧ as_metaSecret settings = Some secret ∨
  type = "telegram" ∧ ∃ token, as_telegramToken settings = Some token ∧ secret = hmac64 token "hive-telegram-webhook".
Lemma sharedAppOf_secret type shared : sharedAppOf type = Some shared → deployment_secret type (sa_webhookSecret shared).
Proof.
  intros Hs. unfold sharedAppOf in Hs. unfold deployment_secret. repeat case_match; try done; apply fmap_Some in Hs as (k & Hk & ->); cbn [sa_webhookSecret]; auto.
  apply fmap_Some in Hk as (t & Ht & ->). right; right. eauto.
Qed.

(** C12.  Nobody but the platform starts a run, at either address.  At the address of one
    connection the connection is connected and of the platform of the address; at the
    address all installs share it is also the one installed for the team, number or chat
    the request names.  Either way the request was read as a message under a key, and the
    platform's proof holds under that key: the key itself in the header (Telegram), a
    signature over the time and the body, the time within five minutes of now (Slack), a
    signature over the time and the body, of whatever age (Discord), a signature over the
    body (WhatsApp); an iMessage is one the person's own Mac confirms.  The key is the
    deployment's at the shared address.  At the connection's own it is the secret on file,
    and the empty string where none is on file or it does not resolve, which proves
    nothing ([installs_accept_the_empty_key]). *)
Theorem runs_come_from_the_platform type channelId raw headers e (db : Idb) :
  (runs_in (handle_request type channelId raw headers e db).1.2 ≠ 0%nat →
   ∃ row message ack secret, docs (ib_channels db) !! channelId = Some row ∧ ch_type row = type ∧ ch_status row = connected ∧
     secret = default "" (ch_secretCredentialId row ≫= resolve (ch_workspaceId row)) ∧
     let context := {| vc_webhookUrl := webhookUrl base type channelId; vc_webhookSecret := secret |} in
     adapter_receive type raw headers context (ev_now e) = Some (rv_message message ack) ∧
     authentic hmac ed25519 type raw headers context (ev_now e) ∧
     (type = "imessage" → ∃ token, resolve (ch_workspaceId row) (ch_tokenCredentialId row) = Some token ∧
        IMessage.confirm (on_mac token (im_messageRef message)) message = true)) ∧
  (runs_in (handleSharedDelivery type raw headers e db).1.2.1 ≠ 0%nat →
   ∃ shared team id row i message ack, sharedAppOf type = Some shared ∧ deployment_secret type (sa_webhookSecret shared) ∧
     docs (ib_channels db) !! id = Some row ∧ ch_type row = type ∧ ch_status row = connected ∧
     sa_teamOf shared raw = Some team ∧ ch_install row = Some i ∧ in_teamRef i = team ∧
     let context := {| vc_webhookUrl := sa_webhookUrl shared; vc_webhookSecret := sa_webhookSecret shared |} in
     adapter_receive type raw headers context (ev_now e) = Some (rv_message message ack) ∧
     authentic hmac ed25519 type raw headers context (ev_now e)).
Proof.
  split.
  - intros (row & m & a & Hrow & Ht & Hst & Hr & Ha & Hi)%own_runs_are_proved. exists row, m, a. eexists. unfold context_of in Hr, Ha. rewrite Ht in Hr, Ha.
    by split_and!.
  - intros (shared & team & id & row & i & m & a & Hs & Hteam & Hr & Ha & Hrow & Ht & Hi & Hit & Hst)%shared_runs_are_placed.
    pose proof (sharedAppOf_secret type shared Hs). exists shared, team, id, row, i, m, a. by split_and!.
Qed.

(** A chat that talks to the shared bot for the first time changes at most one
    connection: one that waits for its chat, with the code the message ends in,
    before the code expires.  The code is spent, and the connection answers in
    that chat. *)
Theorem first_hello_binds_its_code chatRef message e (c : CC) id d' :
  docs (claimTelegramChat chatRef message e c).2 !! id = Some d' → docs c !! id ≠ Some d' →
  ∃ d cn, docs c !! id = Some d ∧ ch_type d = "telegram" ∧ ch_connect d = Some cn ∧ cn_code cn = offeredCode (im_text message) ∧
    ev_now e < cn_expiresAt cn ∧ ch_connect d' = None ∧ ch_verifiedChatRef d' = Some chatRef ∧ ch_status d' = connected ∧
    (in_teamRef <$> ch_install d') = Some chatRef ∧ ch_workspaceId d' = ch_workspaceId d ∧ ch_tokenCredentialId d' = ch_tokenCredentialId d.
Proof.
  unfold claimTelegramChat. destruct (if code_shaped _ then _ else _) as [[wid waiting]|] eqn:Hw; [|done].
  destruct (code_shaped _); [|done]. apply find_one_some in Hw as [Hrow Hp].
  unfold awaits in Hp. apply andb_true_iff in Hp as [[Ht Hc]%andb_true_iff Hi]. apply String.eqb_eq in Ht.
  destruct (ch_connect waiting) as [cn|] eqn:Hcn; [|done]. apply andb_true_iff in Hc as [Hcode Hexp].
  destruct (ch_install waiting) as [i|] eqn:Hinst; [|done].
  unfold Channels.claim.
  destruct (updateOne_hit (C := CC) wid (code_matches (ch_workspaceId waiting) (offeredCode (im_text message)) (ev_now e))
              (claim_update chatRef (ev_now e)) c waiting Hrow) as [Hok Hd].
  { unfold code_matches, in_ws. rewrite String.eqb_refl, Hcn, Hcode, Hexp. done. }
  destruct (updateOne wid _ _ c) as [ok c1]. cbn in Hok, Hd. subst ok.
  set (d1 := claim_update chatRef (ev_now e) waiting) in *.
  assert (docs c1 !! wid = Some d1) as Hd1 by (rewrite Hd; apply lookup_insert_eq). rewrite Hd1.
  unfold bindInstall, findById. rewrite Hd1. cbn [mbind option_bind]. change (ch_workspaceId waiting) with (ch_workspaceId d1).
  unfold in_ws at 1. rewrite String.eqb_refl. change (ch_install d1) with (ch_install waiting). rewrite Hinst. cbn [fst snd].
  unfold recordWebhook. erewrite updateOne_mine2 by (done || exact Hd1). rewrite Hd, !insert_insert_eq. intros Hd' Hne.
  destruct (decide (wid = id)) as [->|Hneq]; [|rewrite lookup_insert_ne in Hd' by done; contradiction].
  rewrite lookup_insert_eq in Hd'. injection Hd' as <-. exists waiting, cn. apply String.eqb_eq in Hcode. apply Z.ltb_lt in Hexp.
  by split_and!.
Qed.

End Webhooks.

(** ** The deployment's own tokens

    A connection through the deployment's Discord application or Telegram bot
    holds a copy of its token; the sweep brings the copies up to date.  What it
    needs of the workspaces' credentials is an interface. *)
Class SecretStore (S : Type) := {
  held : S → string → string → option string;
  (** Whether a credential was ever stored under an id, revoked since or not. *)
  known : S → string → string → bool;
  keep : string → string → S → option string * S;
  revoke : string → string → S → S;
}.
Class SecretStoreLaws (S : Type) `{SecretStore S} : Prop := {
  keep_stored ws secret s s' id : keep ws secret s = (Some id, s') →
    known s ws id = false ∧
    ∀ ws' id', held s' ws' id' = (if decide ((ws', id') = (ws, id)) then Some secret else held s ws' id') ∧
               (known s ws' id' = true → known s' ws' id' = true);
  keep_refused ws secret s s' : keep ws secret s = (None, s') → ∀ ws' id', held s' ws' id' = held s ws' id' ∧ known s' ws' id' = known s ws' id';
  revoke_drops ws id s ws' id' :
    held (revoke ws id s) ws' id' = (if decide ((ws', id') = (ws, id)) then None else held s ws' id') ∧
    known (revoke ws id s) ws' id' = known s ws' id';
  held_known s ws id secret : held s ws id = Some secret → known s ws id = true;
}.

Section Rotation.
Context {CC S : Type} `{CollectionLaws ChannelDoc CC, SecretStoreLaws S}.
Context (base : string) (register : ChannelDoc → string → bool) (bots : string → option string).

Definition shared_token (row : ChannelDoc) : option string := match ch_install row with Some _ => bots (ch_type row) | None => None end.

(** One round of the second loop of [refreshStaleWebhooks]: updated, failed. *)
Definition retoken_row (now : Z) (id : string) (row : ChannelDoc) (s : S) (c : CC) : Z * Z * S * CC :=
  match shared_token row with
  | None => (0, 0, s, c)
  | Some token =>
      if bool_decide (held s (ch_workspaceId row) (ch_tokenCredentialId row) = Some token) then (0, 0, s, c)
      else match keep (ch_workspaceId row) token s with
           | (None, s1) => (0, 1, s1, c)
           | (Some fresh, s1) => (1, 0, revoke (ch_workspaceId row) (ch_tokenCredentialId row) s1, replaceToken (ch_workspaceId row) id fresh now c)
           end
  end.
Fixpoint retoken (now : Z) (rows : list (string * ChannelDoc)) (s : S) (c : CC) : Z * Z * S * CC :=
  match rows with
  | [] => (0, 0, s, c)
  | (id, row) :: rest =>
      let '(u, m, s1, c1) := retoken_row now id row s c in
      let '(updated, missed, s2, c2) := retoken now rest s1 c1 in (u + updated, m + missed, s2, c2)
  end.

Definition installedShared (rows : list (string * ChannelDoc)) : list (string * ChannelDoc) :=
  List.filter (λ kr, match shared_token kr.2 with Some _ => true | None => false end) rows.

Record WebhookRefresh := { wr_considered : Z; wr_updated : Z; wr_failed : Z }.
Definition refreshStaleWebhooks (now : Z) (s : S) (c : CC) : WebhookRefresh * S * CC :=
  let rows := find_all enabled c in
  let stale := List.filter (λ kr, stale_address base kr.1 kr.2) rows in
  let '(u1, m1, c1) := repoint base (held s) register now stale c in
  let '(u2, m2, s2, c2) := retoken now (installedShared rows) s c1 in
  ({| wr_considered := Z.of_nat (length stale + length (installedShared rows)); wr_updated := u1 + u2; wr_failed := m1 + m2 |}, s2, c2).

Notation copy_of row := (ch_workspaceId row, ch_tokenCredentialId row).

(** The token a connection holds is the deployment's current one, where it is a shared one. *)
Definition current_copy (s : S) (d : ChannelDoc) : Prop :=
  ∀ token, shared_token d = Some token → held s (ch_workspaceId d) (ch_tokenCredentialId d) = Some token.

(** The rows still to do, against the connections and the credentials as they
    are: each has a copy of its own, under an id that was stored. *)
Record to_do (rows : list (string * ChannelDoc)) (s : S) (c : CC) : Prop := {
  td_ids : NoDup rows.*1;
  td_copies : NoDup (map (λ kr, copy_of kr.2) rows);
  td_known id row : (id, row) ∈ rows → known s (ch_workspaceId row) (ch_tokenCredentialId row) = true;
  td_rows id row : (id, row) ∈ rows → ∃ url spec at_, docs c !! id = Some (set_route (ch_tokenCredentialId row) (ch_install row) url spec at_ row) }.

Lemma replaceToken_docs now id row fresh c url spec at_ :
  docs c !! id = Some (set_route (ch_tokenCredentialId row) (ch_install row) url spec at_ row) →
  docs (replaceToken (ch_workspaceId row) id fresh now c) = <[id := set_route fresh (ch_install row) url spec now row]> (docs c).
Proof.
  intros Hd. unfold replaceToken. change (ch_workspaceId row) with (ch_workspaceId (set_route (ch_tokenCredentialId row) (ch_install row) url spec at_ row)).
  by rewrite (updateOne_mine (H := H) (H0 := H0) _ _ _ _ Hd).
Qed.

Lemma retoken_failures now rows s c : 0 <= (retoken now rows s c).1.1.2.
Proof.
  revert s c. induction rows as [|[id row] rows IH]; intros s c; cbn [retoken]; [done|].
  assert (0 <= (retoken_row now id row s c).1.1.2) as Hm by (unfold retoken_row; repeat case_match; simpl; lia).
  destruct (retoken_row now id row s c) as [[[u1 m1] s1] c1]. specialize (IH s1 c1). destruct (retoken now rows s1 c1) as [[[u2 m2] s2] c2].
  cbn in *. lia.
Qed.

(** What one round, or the whole loop, leaves alone. *)
Definition leaves (ids : list string) (copies : list (string * string)) (s : S) (c : CC) (s' : S) (c' : CC) : Prop :=
  (∀ id, id ∉ ids → docs c' !! id = docs c !! id) ∧
  (∀ ws id, known s ws id = true → known s' ws id = true) ∧
  (∀ ws id, known s ws id = true → (ws, id) ∉ copies → held s' ws id = held s ws id).

(** A connection with its current copy, which is nobody else's. *)
Definition renewed (rest : list (string * ChannelDoc)) (row : ChannelDoc) (before : option ChannelDoc) (s' : S) (after : option ChannelDoc) : Prop :=
  ∀ url spec at_, before = Some (set_route (ch_tokenCredentialId row) (ch_install row) url spec at_ row) →
  ∃ token at', after = Some (set_route token (ch_install row) url spec at' row) ∧ known s' (ch_workspaceId row) token = true ∧
    (∀ bot, shared_token row = Some bot → held s' (ch_workspaceId row) token = Some bot) ∧ (ch_workspaceId row, token) ∉ map (λ kr, copy_of kr.2) rest.

Lemma leaves_refl ids copies s c : leaves ids copies s c s c.
Proof. by split_and!. Qed.

Lemma retoken_row_spec now id row rest s c u m s1 c1 :
  to_do ((id, row) :: rest) s c → retoken_row now id row s c = (u, m, s1, c1) →
  to_do rest s1 c1 ∧ leaves [id] [copy_of row] s c s1 c1 ∧ 0 <= m ∧ (m = 0 → renewed rest row (docs c !! id) s1 (docs c1 !! id)).
Proof.
  intros [Hids Hcopies Hknown Hrows]. apply NoDup_cons in Hids as [Hni Hids]. apply NoDup_cons in Hcopies as [Hnc Hcopies]. cbn [fst snd] in Hni, Hnc.
  pose proof (Hknown id row ltac:(by left)) as Hkn.
  assert (to_do rest s c) as Hrest by (constructor; auto; intros; [eapply Hknown|eapply Hrows]; by right).
  assert (∀ s', (∀ bot, shared_token row = Some bot → held s' (ch_workspaceId row) (ch_tokenCredentialId row) = Some bot) →
            known s' (ch_workspaceId row) (ch_tokenCredentialId row) = true → renewed rest row (docs c !! id) s' (docs c !! id)) as Hstays.
  { intros s' Hbot Hk url spec at_ Hd. by exists (ch_tokenCredentialId row), at_. }
  unfold retoken_row. destruct (shared_token row) as [bot|] eqn:Hbot.
  2:{ intros [= <- <- <- <-]. split_and!; auto using leaves_refl. lia. intros _. by apply Hstays. }
  case_bool_decide as Hheld.
  { intros [= <- <- <- <-]. split_and!; auto using leaves_refl. lia. intros _. apply Hstays; [by intros ? [= ->]|done]. }
  destruct (keep _ _ _) as [[fresh|] s0] eqn:Hk; intros [= <- <- <- <-].
  - destruct (keep_stored _ _ _ _ _ Hk) as [Hfresh Hstored].
    destruct (Hrows id row ltac:(by left)) as (url & spec & at_ & Hd). pose proof (replaceToken_docs now id row fresh c url spec at_ Hd) as Hdocs.
    assert (∀ ws k, known s ws k = true → known (revoke (ch_workspaceId row) (ch_tokenCredentialId row) s0) ws k = true) as Hmono.
    { intros ws k Hx. destruct (revoke_drops (ch_workspaceId row) (ch_tokenCredentialId row) s0 ws k) as [_ ->]. by apply Hstored. }
    assert (fresh ≠ ch_tokenCredentialId row) as Hne by (intros ->; congruence).
    assert (held (revoke (ch_workspaceId row) (ch_tokenCredentialId row) s0) (ch_workspaceId row) fresh = Some bot) as Hnew.
    { destruct (revoke_drops (ch_workspaceId row) (ch_tokenCredentialId row) s0 (ch_workspaceId row) fresh) as [-> _].
      rewrite decide_False by congruence. destruct (Hstored (ch_workspaceId row) fresh) as [-> _]. by rewrite decide_True. }
    split_and!; [| |lia|].
    + constructor; auto.
      * intros k r Hx. apply Hmono. by eapply Hknown; right.
      * intros k r Hx. destruct (Hrows k r ltac:(by right)) as (url' & spec' & at' & Hd'). exists url', spec', at'.
        rewrite Hdocs, lookup_insert_ne; [done|]. intros ->. apply Hni, list_elem_of_fmap. by exists (k, r).
    + split_and!; [|done|].
      { intros k Hx. rewrite Hdocs, lookup_insert_ne; [done|]. intros ->. apply Hx. by left. }
      intros ws k Hx Hn. destruct (revoke_drops (ch_workspaceId row) (ch_tokenCredentialId row) s0 ws k) as [-> _].
      rewrite decide_False by (intros E; apply Hn; rewrite E; by left). destruct (Hstored ws k) as [-> _].
      rewrite decide_False; [done|]. intros [= -> ->]. congruence.
    + intros _ url' spec' at' Hd'. rewrite Hd in Hd'. injection Hd' as -> -> ->. exists fresh, now. rewrite Hdocs, lookup_insert_eq.
      split_and!; [done|exact (held_known _ _ _ _ Hnew)|intros ? Hb; rewrite Hbot in Hb; by injection Hb as <-|].
      intros Hx. apply list_elem_of_In, in_map_iff in Hx as ([k r] & [= Hw Ht] & Hx). apply list_elem_of_In in Hx.
      pose proof (Hknown k r ltac:(by right)) as Hr. cbn in Hw, Ht. congruence.
  - pose proof (keep_refused _ _ _ _ Hk) as Hsame. split_and!; [| |lia|intros; lia].
    + constructor; auto; [|by intros; eapply Hrows; right]. intros k r Hx. destruct (Hsame (ch_workspaceId r) (ch_tokenCredentialId r)) as [_ ->].
      by eapply Hknown; right.
    + split_and!; [done|intros ws k Hx; by destruct (Hsame ws k) as [_ ->]|]. intros ws k Hx _. by destruct (Hsame ws k) as [-> _].
Qed.

Lemma leaves_trans ids1 ids2 copies1 copies2 s c s1 c1 s2 c2 :
  leaves ids1 copies1 s c s1 c1 → leaves ids2 copies2 s1 c1 s2 c2 → leaves (ids1 ++ ids2) (copies1 ++ copies2) s c s2 c2.
Proof.
  intros (Hd1 & Hk1 & Hh1) (Hd2 & Hk2 & Hh2). split_and!; [|auto|].
  - intros id [Hx Hy]%not_elem_of_app. by rewrite Hd2, Hd1.
  - intros ws id Hk [Hx Hy]%not_elem_of_app. by rewrite Hh2, Hh1 by auto.
Qed.

Lemma retoken_spec now rows s c u m s' c' :
  to_do rows s c → retoken now rows s c = (u, m, s', c') →
  leaves rows.*1 (map (λ kr, copy_of kr.2) rows) s c s' c' ∧ 0 <= m ∧
  (m = 0 → ∀ id row, (id, row) ∈ rows → renewed [] row (docs c !! id) s' (docs c' !! id)).
Proof.
  revert s c u m s' c'. induction rows as [|[id row] rows IH]; intros s c u m s' c' Htd; cbn [retoken].
  { intros [= <- <- <- <-]. split_and!; [apply leaves_refl|lia|]. intros _ id row Hx. by apply not_elem_of_nil in Hx. }
  destruct (retoken_row now id row s c) as [[[u1 m1] s1] c1] eqn:Hrow. destruct (retoken_row_spec _ _ _ _ _ _ _ _ _ _ Htd Hrow) as (Htd1 & Hl1 & Hm1 & Hr1).
  destruct (retoken now rows s1 c1) as [[[u2 m2] s2] c2] eqn:Hrec. destruct (IH _ _ _ _ _ _ Htd1 Hrec) as (Hl2 & Hm2 & Hr2).
  intros [= <- <- <- <-]. split_and!; [exact (leaves_trans [id] rows.*1 [copy_of row] _ s c s1 c1 s2 c2 Hl1 Hl2)|lia|].
  intros Hm id' row' Hx. pose proof (td_ids _ _ _ Htd) as [Hni _]%NoDup_cons.
  apply elem_of_cons in Hx as [[= -> ->]|Hx].
  - intros url spec at_ Hd. destruct (Hr1 ltac:(lia) url spec at_ Hd) as (token & at' & Ha & Hk & Hh & Hn). exists token, at'.
    destruct Hl2 as (Hd2 & Hk2 & Hh2). rewrite Hd2 by done. split_and!; auto; [|apply not_elem_of_nil]. intros bot Hbot. rewrite Hh2 by done. auto.
  - destruct Hl1 as (Hd1 & _). rewrite <-(Hd1 id'); [by apply Hr2; [lia|]|]. intros Hid. apply list_elem_of_singleton in Hid as ->.
    apply Hni, list_elem_of_fmap. by exists (id, row').
Qed.

Lemma route_eta row : row = set_route (ch_tokenCredentialId row) (ch_install row) (ch_webhookUrl row) (ch_webhookSpec row) (ch_updatedAt row) row.
Proof. by destruct row. Qed.

Lemma elem_of_installedShared rows id row : (id, row) ∈ installedShared rows ↔ (id, row) ∈ rows ∧ is_Some (shared_token row).
Proof.
  unfold installedShared. rewrite list_elem_of_In, filter_In, <-list_elem_of_In. cbn.
  destruct (shared_token row); split; intros [? Hs]; (split; [done|]); first [done|by eexists|by destruct Hs].
Qed.

(** The connections between the two loops, when no registration failed. *)
Lemma repoint_clean now s c u c1 :
  repoint base (held s) register now (List.filter (λ kr, stale_address base kr.1 kr.2) (find_all enabled c)) c = (u, 0, c1) →
  ∀ id, docs c1 !! id = docs c !! id ∧ (∀ row, docs c !! id = Some row → enabled row = true → stale_address base id row = false) ∨
        ∃ row, docs c !! id = Some row ∧ enabled row = true ∧ docs c1 !! id = Some (repointed base id now row).
Proof.
  intros Hrun id. pose proof (repoint_rows base (held s) register now (stale_channels base c) c) as Hspec. unfold stale_channels in Hspec.
  rewrite Hrun in Hspec. destruct Hspec as (Hu & Hcount & Hout & Hin).
  { apply NoDup_map_filter, find_all_nodup. }
  { intros k row Hx. exact (proj1 (proj1 (stale_channels_rows base c k row) Hx)). }
  rewrite Z.add_0_r, Hu in Hcount. apply Nat2Z.inj, filter_length_forallb in Hcount. rewrite forallb_true in Hcount.
  clear Hu. change (List.filter (λ kr, stale_address base kr.1 kr.2) (find_all enabled c)) with (stale_channels base c) in Hcount, Hout, Hin.
  destruct (decide (id ∈ (stale_channels base c).*1)) as [Hx|Hx].
  - right. apply list_elem_of_fmap in Hx as [[id' row] [Heq Hx]]. simpl in Heq. subst id'. exists row.
    pose proof (Hin id row Hx) as Hd. pose proof (Hcount _ Hx) as Hb. cbn [fst snd] in Hb. rewrite Hb in Hd. apply stale_channels_rows in Hx as (Hrow & Hen & _). done.
  - left. split; [by apply Hout|]. intros row Hrow Hen. destruct (stale_address base id row) eqn:Hs; [|done].
    exfalso. apply Hx, list_elem_of_fmap. exists (id, row). split; [done|]. by apply stale_channels_rows.
Qed.

(** The second loop starts from connections with copies of their own. *)
Lemma repointed_to_do now s c c1 :
  (∀ id d id' d', docs c !! id = Some d → docs c !! id' = Some d' → copy_of d = copy_of d' → id = id') →
  (∀ id d, docs c !! id = Some d → known s (ch_workspaceId d) (ch_tokenCredentialId d) = true) →
  (∀ id, docs c1 !! id = docs c !! id ∧ (∀ row, docs c !! id = Some row → enabled row = true → stale_address base id row = false) ∨
         ∃ row, docs c !! id = Some row ∧ enabled row = true ∧ docs c1 !! id = Some (repointed base id now row)) →
  to_do (installedShared (find_all enabled c)) s c1.
Proof.
  intros Hown Hknown Hclean.
  assert (∀ id row, (id, row) ∈ installedShared (find_all enabled c) → docs c !! id = Some row) as Hfound.
  { intros id row [Hx _]%elem_of_installedShared. by apply elem_of_find_all in Hx as [? _]. }
  assert (NoDup (installedShared (find_all enabled c)).*1) as Hids by (apply NoDup_map_filter, find_all_nodup).
  constructor; [done| | |].
  - revert Hfound Hids. generalize (installedShared (find_all enabled c)). intros rows. induction rows as [|[id row] rows IH]; intros Hfound Hids; [constructor|].
    apply NoDup_cons in Hids as [Hni Hids]. cbn [map snd]. apply NoDup_cons. split; [|apply IH; [intros; apply Hfound; by right|done]].
    intros Hx. apply list_elem_of_In, in_map_iff in Hx as ([id' row'] & Heq & Hx). apply list_elem_of_In in Hx.
    apply Hni, list_elem_of_fmap. exists (id', row'). split; [|done]. apply (Hown id row id' row'); [by apply Hfound; left|by apply Hfound; right|done].
  - intros id row Hx. eapply Hknown, Hfound, Hx.
  - intros id row Hx. pose proof (Hfound id row Hx) as Hrow. destruct (Hclean id) as [[Hsame _]|(row' & Hrow' & _ & Hc1)].
    + exists (ch_webhookUrl row), (ch_webhookSpec row), (ch_updatedAt row). by rewrite Hsame, <-route_eta.
    + rewrite Hrow in Hrow'. injection Hrow' as <-. by eexists _, _, _.
Qed.

(** A sweep that reports no failure leaves every enabled connection recorded
    under its current address and registration, and, where it goes through the
    deployment's own bot, holding the bot's current token. *)
Theorem sweep_leaves_nothing_stale now s (c : CC) r s' c' :
  (∀ id d id' d', docs c !! id = Some d → docs c !! id' = Some d' → copy_of d = copy_of d' → id = id') →
  (∀ id d, docs c !! id = Some d → known s (ch_workspaceId d) (ch_tokenCredentialId d) = true) →
  refreshStaleWebhooks now s c = (r, s', c') → wr_failed r = 0 →
  ∀ id d', docs c' !! id = Some d' → enabled d' = true → stale_address base id d' = false ∧ current_copy s' d'.
Proof.
  intros Hown Hknown. unfold refreshStaleWebhooks.
  pose proof (repoint_rows base (held s) register now (stale_channels base c) c) as Hspec. unfold stale_channels in Hspec.
  destruct (repoint _ _ _ _ _ c) as [[u1 m1] c1] eqn:Hrep.
  destruct Hspec as (Hu & Hcount & _).
  { apply NoDup_map_filter, find_all_nodup. }
  { intros k row Hx. exact (proj1 (proj1 (stale_channels_rows base c k row) Hx)). }
  destruct (retoken _ _ _ _) as [[[u2 m2] s2] c2] eqn:Hret. intros [= <- <- <-]. cbn [wr_failed]. intros Hm.
  assert (0 <= m1) as Hm1.
  { pose proof (filter_length_le (λ kr, bot_answers base (held s) register kr.1 kr.2) (List.filter (λ kr, stale_address base kr.1 kr.2) (find_all enabled c))). lia. }
  pose proof (retoken_failures now (installedShared (find_all enabled c)) s c1) as Hm2. rewrite Hret in Hm2. cbn in Hm2.
  assert (m1 = 0) as -> by lia. assert (m2 = 0) as -> by lia. pose proof (repoint_clean _ _ _ _ _ Hrep) as Hclean.
  assert (∀ id row, (id, row) ∈ installedShared (find_all enabled c) → docs c !! id = Some row ∧ enabled row = true) as Hfound.
  { intros id row [Hx _]%elem_of_installedShared. by apply elem_of_find_all in Hx. }
  destruct (retoken_spec _ _ _ _ _ _ _ _ (repointed_to_do _ _ _ _ Hown Hknown Hclean) Hret) as ((Hdocs & _) & _ & Hnew). specialize (Hnew eq_refl).
  intros id d' Hd' Hen. destruct (decide (id ∈ (installedShared (find_all enabled c)).*1)) as [Hx|Hx].
  - apply list_elem_of_fmap in Hx as [[id' row] [Heq Hx]]. simpl in Heq. subst id'. destruct (Hfound id row Hx) as [Hrow Hrowen].
    destruct (Hclean id) as [[Hsame Hfresh]|(row' & Hrow' & _ & Hc1)].
    + destruct (Hnew id row Hx (ch_webhookUrl row) (ch_webhookSpec row) (ch_updatedAt row)) as (token & at' & Ha & _ & Hh & _).
      { by rewrite Hsame, Hrow, <-route_eta. }
      rewrite Hd' in Ha. injection Ha as ->. split; [|done]. by apply (Hfresh row).
    + rewrite Hrow in Hrow'. injection Hrow' as <-.
      destruct (Hnew id row Hx (Some (deliveryUrlOf base id row)) (Some WEBHOOK_SPEC) now Hc1) as (token & at' & Ha & _ & Hh & _).
      rewrite Hd' in Ha. injection Ha as ->. split; [|done]. apply (repointed_fresh base id now row).
  - rewrite (Hdocs id Hx) in Hd'. assert (∀ row, docs c !! id = Some row → enabled row = true → shared_token row = None) as Hnone.
    { intros row Hrow He. destruct (shared_token row) eqn:Hs; [|done]. exfalso. apply Hx, list_elem_of_fmap. exists (id, row). split; [done|].
      apply elem_of_installedShared. split; [by apply elem_of_find_all|by eexists]. }
    destruct (Hclean id) as [[Hsame Hfresh]|(row & Hrow & He & Hc1)].
    + rewrite Hsame in Hd'. split; [by apply (Hfresh d')|]. intros token Ht. by rewrite (Hnone d' Hd' Hen) in Ht.
    + rewrite Hc1 in Hd'. injection Hd' as <-. split; [apply repointed_fresh|]. intros token Ht.
      change (shared_token row = Some token) in Ht. by rewrite (Hnone row Hrow He) in Ht.
Qed.
End Rotation.

(** Credentials by workspace and id; a revoked one keeps its id. *)
Notation Shelf := (gmap string (gmap string (option string))).
Definition shelf_of (s : Shelf) (ws : string) : gmap string (option string) := default ∅ (s !! ws).
#[export] Instance shelf_store : SecretStore Shelf := {|
  held s ws id := mjoin (shelf_of s ws !! id);
  known s ws id := bool_decide (is_Some (shelf_of s ws !! id));
  keep ws secret s := let id := fresh_string "crd" (shelf_of s ws) in (Some id, <[ws := <[id := Some secret]> (shelf_of s ws)]> s);
  revoke ws id s := <[ws := alter (λ _, None) id (shelf_of s ws)]> s |}.

Lemma shelf_of_insert ws ws' m (s : Shelf) : shelf_of (<[ws := m]> s) ws' = if decide (ws' = ws) then m else shelf_of s ws'.
Proof. unfold shelf_of. destruct (decide (ws' = ws)) as [->|]; [by rewrite lookup_insert_eq|by rewrite lookup_insert_ne]. Qed.

#[export] Instance shelf_laws : SecretStoreLaws Shelf.
Proof.
  constructor; cbn.
  - intros ws secret s s' id [= <- <-]. split; [by rewrite bool_decide_eq_false_2; [|rewrite fresh_string_fresh; intros []]|].
    intros ws' id'. rewrite shelf_of_insert. destruct (decide (ws' = ws)) as [->|Hne].
    + destruct (decide (id' = fresh_string "crd" (shelf_of s ws))) as [->|Hid].
      * rewrite decide_True, lookup_insert_eq by done. split; [done|]. intros _. by apply bool_decide_eq_true_2.
      * rewrite decide_False, lookup_insert_ne by congruence. done.
    + rewrite decide_False by congruence. done.
  - intros ws secret s s' [=].
  - intros ws id s ws' id'. rewrite shelf_of_insert. destruct (decide (ws' = ws)) as [->|Hne]; [|by rewrite decide_False by congruence].
    destruct (decide (id' = id)) as [->|Hid].
    + rewrite decide_True by done. rewrite lookup_alter_eq. destruct (shelf_of s ws !! id) as [[?|]|]; cbn; split; try done;
        by rewrite !bool_decide_eq_true_2 by (by eexists).
    + rewrite decide_False by congruence. by rewrite lookup_alter_ne.
  - intros s ws id secret. destruct (shelf_of s ws !! id) eqn:E; [|done]. intros _. by apply bool_decide_eq_true_2.
Qed.

(** ** Histories *)

Definition tg_headers (secret : string) : Headers := λ k, if String.eqb k Telegram.SECRET_HEADER then Some secret else None.
Definition tg_update (text : string) : string := stringify (VObject [("message", VObject [
  ("message_id", VNumber 11); ("chat", VObject [("id", VNumber 7)]); ("text", VString text);
  ("from", VObject [("id", VNumber 7); ("is_bot", VBool false); ("username", VString "ada")])])]).
Definition install_of (team : string) : Install :=
  {| in_teamRef := team; in_teamName := "Acme"; in_installerRef := "usr_1"; in_appRef := "bot_1"; in_accountRef := None |}.
Definition a_row (type : string) (secret : option string) (status : ChannelStatus) (chat : option string) (code : option Connect) (team : option string)
    (url : option string) : ChannelDoc := {|
  ch_workspaceId := "wks_1"; ch_type := type; ch_agentId := "agt_1"; ch_modelBindingId := None; ch_tokenCredentialId := "crd_1";
  ch_secretCredentialId := secret; ch_status := status; ch_identity := a_bot; ch_connect := code; ch_verifiedChatRef := chat;
  ch_install := install_of <$> team; ch_webhookUrl := url; ch_webhookSpec := Some 3; ch_health := ch_health connected_row;
  ch_createdBy := "usr_1"; ch_createdAt := 0; ch_updatedAt := 0 |}.
Definition rows_with (row : ChannelDoc) : InboundRows := {|
  ib_channels := {["chn_1" := row]}; ib_events := ∅; ib_people := ∅;
  ib_conversations := {| cd_conversations := ∅; cd_messages := ∅ |}; ib_runs := waiting_runs; ib_approvals := waiting_approvals; ib_challenges := ∅ |}.
Definition no_ed25519 (key text signature : string) : bool := false.
Definition no_form (raw : string) : option string := None.
Definition secrets (ws id : string) : option string := if String.eqb id "crd_s" then Some "s3cret" else if String.eqb id "crd_1" then Some "tok" else None.
Definition takes_it (row : ChannelDoc) (url : string) : bool := true.
Definition no_mac (token ref : string) : option value := None.
Definition app_settings : AppSettings :=
  {| as_slackSigning := Some "app_signing"; as_discordKey := None; as_metaSecret := None; as_telegramToken := Some "bot_token" |}.
Definition at_own_address (row : ChannelDoc) (raw : string) (headers : Headers) : outcome unit DeliveryOutcome * list Effect * InboundRows :=
  handle_request id fresh_person acme_rows no_users toy_hmac no_ed25519 no_form "https://h.example/" "h.example" secrets takes_it no_mac
    (ch_type row) "chn_1" raw headers (env_at "1" no_faults None) (rows_with row).
Definition at_shared_address (type : string) (row : ChannelDoc) (raw : string) (headers : Headers)
    : outcome unit DeliveryOutcome * (list Effect * list (string * SharedReply)) * InboundRows :=
  handleSharedDelivery id fresh_person acme_rows no_users toy_hmac toy_hmac no_ed25519 no_form "https://h.example/" app_settings secrets no_mac
    type raw headers (env_at "1" no_faults None) (rows_with row).
Definition own_bot : ChannelDoc := a_row "telegram" (Some "crd_s") connected (Some "7") None None (Some "https://h.example/api/channels/telegram/chn_1").
Definition bound_chat : ChannelDoc := a_row "telegram" (Some "crd_s") connected (Some "7") None (Some "7") (Some "https://h.example/api/channels/telegram/app").
Definition shared_secret : string := toy_hmac "bot_token" "hive-telegram-webhook".

Lemma runs_come_from_the_platform_witness :
  (at_own_address own_bot (tg_update "hello there") (tg_headers "s3cret")).1.2 = [ef_typing "7"; ef_run "run_x1"; ef_wake "run_x1"] ∧
  (at_own_address own_bot (tg_update "hello there") (tg_headers "guess")).1.2 = [] ∧
  (∃ row, docs (ib_channels (rows_with own_bot)) !! "chn_1" = Some row ∧ ch_status row = connected) ∧
  (at_shared_address "telegram" bound_chat (tg_update "hello there") (tg_headers shared_secret)).1.2.1 = [ef_typing "7"; ef_run "run_x1"; ef_wake "run_x1"] ∧
  ∃ id row, docs (ib_channels (rows_with bound_chat)) !! id = Some row ∧ ch_status row = connected.
Proof.
  split; [vm_compute; reflexivity|]. split; [vm_compute; reflexivity|].
  destruct (runs_come_from_the_platform id fresh_person acme_rows no_users toy_hmac toy_hmac no_ed25519 no_form "https://h.example/" "h.example" app_settings secrets takes_it
              no_mac "telegram" "chn_1" (tg_update "hello there") (tg_headers "s3cret") (env_at "1" no_faults None) (rows_with own_bot)) as [Hown _].
  destruct Hown as (row & _ & _ & _ & Hrow & _ & Hst & _); [vm_compute; discriminate|]. split; [by exists row|]. split; [vm_compute; reflexivity|].
  destruct (runs_come_from_the_platform id fresh_person acme_rows no_users toy_hmac toy_hmac no_ed25519 no_form "https://h.example/" "h.example" app_settings secrets takes_it
              no_mac "telegram" "chn_1" (tg_update "hello there") (tg_headers shared_secret) (env_at "1" no_faults None) (rows_with bound_chat)) as [_ Hsh].
  destruct Hsh as (_ & _ & rid & row' & _ & _ & _ & _ & _ & Hrow' & _ & Hst' & _); [vm_compute; discriminate|]. by exists rid, row'.
Defined.

Lemma shared_runs_are_placed_witness :
  (at_shared_address "telegram" bound_chat (tg_update "hello there") (tg_headers shared_secret)).1.2.1 = [ef_typing "7"; ef_run "run_x1"; ef_wake "run_x1"] ∧
  ∃ id row i, docs (ib_channels (rows_with bound_chat)) !! id = Some row ∧ ch_install row = Some i ∧ in_teamRef i = "7".
Proof.
  split; [vm_compute; reflexivity|].
  destruct (shared_runs_are_placed id fresh_person acme_rows no_users toy_hmac toy_hmac no_ed25519 no_form "https://h.example/" app_settings secrets
              no_mac "telegram" (tg_update "hello there") (tg_headers shared_secret) (env_at "1" no_faults None) (rows_with bound_chat))
    as (shared & team & rid & row & i & _ & _ & Hs & Ht & _ & _ & Hrow & _ & Hi & Hteam & _); [vm_compute; discriminate|].
  exists rid, row, i. split; [done|]. split; [done|]. rewrite Hteam. unfold sharedAppOf in Hs. cbn [as_telegramToken app_settings fmap option_fmap option_map] in Hs.
  injection Hs as <-. vm_compute in Ht. by injection Ht as <-.
Defined.

Definition waiting_chat : ChannelDoc :=
  a_row "telegram" (Some "crd_s") pending_verification None (Some {| cn_code := "ABCD2345"; cn_expiresAt := 5000 |}) (Some "") None.
Definition first_hello (text : string) : InboundMessage :=
  {| im_chatRef := "7"; im_senderRef := "7"; im_senderLabel := "@ada"; im_text := text; im_audio := None; im_messageRef := "11" |}.

Definition bound_now : ChannelDoc :=
  set_route "crd_1" (Some {| in_teamRef := "7"; in_teamName := "@ada"; in_installerRef := "usr_1"; in_appRef := "bot_1"; in_accountRef := None |})
    (Some "https://h.example/api/channels/telegram/app") (Some 3) 1000 (claim_update "7" 1000 waiting_chat).
Definition hello_claim : outcome unit DeliveryOutcome * list (string * SharedReply) * gmap string ChannelDoc :=
  claimTelegramChat "https://h.example/" "7" (first_hello "/start abcd2345") (env_at "1" no_faults None) {["chn_1" := waiting_chat]}.

Lemma first_hello_binds_its_code_witness :
  hello_claim.1.2 = [("7", sr_connected)] ∧ hello_claim.2 !! "chn_1" = Some bound_now ∧ ch_verifiedChatRef bound_now = Some "7".
Proof.
  split; [vm_compute; reflexivity|]. split; [vm_compute; reflexivity|].
  destruct (first_hello_binds_its_code "https://h.example/" "7" (first_hello "/start abcd2345") (env_at "1" no_faults None)
              ({["chn_1" := waiting_chat]} : gmap string ChannelDoc) "chn_1" bound_now)
    as (d & cn & _ & _ & _ & _ & _ & Hc & Hv & _); [vm_compute; reflexivity|vm_compute; discriminate|done].
Defined.

(** *** The sweep *)

Definition moved_rows : gmap string ChannelDoc := {["chn_1" := a_row "telegram" (Some "crd_s") connected (Some "7") None (Some "7") (Some "https://old.example")]}.
Definition shelf : Shelf := {["wks_1" := {["crd_1" := Some "old_token"]}]}.
Definition one_bot (type : string) : option string := if String.eqb type "telegram" then Some "bot_token" else None.
Definition swept : WebhookRefresh * Shelf * gmap string ChannelDoc := refreshStaleWebhooks "https://h.example/" takes_it one_bot 9 shelf moved_rows.

Lemma sweep_repoints_every_bot_witness :
  let '(updated, missed, c') := refreshAddresses "https://h.example/" secrets takes_it 9 moved_rows in
  updated = 1 ∧ missed = 0 ∧ ∀ id d', docs c' !! id = Some d' → enabled d' = true →
    stale_address "https://h.example/" id d' = false ∨ docs moved_rows !! id = Some d' ∧ bot_answers "https://h.example/" secrets takes_it id d' = false.
Proof.
  destruct (refreshAddresses "https://h.example/" secrets takes_it 9 moved_rows) as [[updated missed] c'] eqn:Hrun.
  split; [vm_compute in Hrun; congruence|]. split; [vm_compute in Hrun; congruence|].
  apply (sweep_repoints_every_bot "https://h.example/" secrets takes_it 9 moved_rows c' updated missed Hrun).
Defined.

Lemma sweep_leaves_nothing_stale_witness :
  swept.1.1 = {| wr_considered := 2; wr_updated := 2; wr_failed := 0 |} ∧
  ∀ id d', docs swept.2 !! id = Some d' → enabled d' = true → stale_address "https://h.example/" id d' = false ∧ current_copy one_bot swept.1.2 d'.
Proof.
  split; [vm_compute; reflexivity|].
  apply (sweep_leaves_nothing_stale "https://h.example/" takes_it one_bot 9 shelf moved_rows swept.1.1 swept.1.2 swept.2).
  - intros id d id' d'. cbn. unfold moved_rows. rewrite !lookup_singleton_Some. by intros [<- _] [<- _].
  - intros id d. cbn. unfold moved_rows. rewrite lookup_singleton_Some. intros [<- <-]. vm_compute. reflexivity.
  - unfold swept. by destruct (refreshStaleWebhooks _ _ _ _ _ _) as [[r s'] c'].
  - vm_compute. reflexivity.
Defined.

(** *** A secret nobody set *)

Definition slack_event : string := stringify (VObject [("type", VString "event_callback"); ("team_id", VString "T1"); ("event", VObject [
  ("type", VString "message"); ("channel", VString "C1"); ("user", VString "U1"); ("text", VString "wire everything"); ("ts", VString "1.1")])]).
Definition slack_headers (key : string) : Headers := λ k,
  if String.eqb k Slack.SLACK_SIGNATURE_HEADER then Some (Slack.signature_of toy_hmac key "1" slack_event)
  else if String.eqb k Slack.SLACK_TIMESTAMP_HEADER then Some "1" else None.
(** What installing the deployment's Slack app stores: no secret of its own. *)
Definition slack_install : ChannelDoc := a_row "slack" None connected None None (Some "T1") (Some "https://h.example/api/channels/slack/app").

(** An install has no delivery secret, and the address of its own still
    answers: there a signature under the empty key passes, and anyone who knows
    the connection's id starts a run.  The shared address refuses the same
    request. *)
Example installs_accept_the_empty_key :
  (at_own_address slack_install slack_event (slack_headers "")).1.2 = [ef_typing "C1"; ef_run "run_x1"; ef_wake "run_x1"] ∧
  (at_shared_address "slack" slack_install slack_event (slack_headers "")).1.1 = Ret (plain_outcome 401 "unauthorized").
Proof. split; vm_compute; reflexivity. Qed.
