(* ===== verification/Outbound.v ===== *)
(** * Calls to the chat platforms

    Models what the adapters of packages/channels/src ask of their platforms:
    identifying a bot, registering an address, sending answers, media,
    questions and drafts, fetching recordings.  An operation is a program of
    HTTP requests ([Prog]), run against whatever the network answers.  URL
    parsing and encoding, and the random identifiers of outgoing iMessages, are
    parameters; a reply has the types its platform documents. *)
From S2P Require Import Prelude Json JsonText Text Numbers Guard ChatApprovals Channels McpOAuth Adapters.

(** ** Programs *)

Inductive Body := bd_none | bd_json (v : value) | bd_form (fields : list (string * string)) | bd_file (name : string) (fields : list (string * string)).
Record Request := { rq_method : string; rq_url : string; rq_auth : option string; rq_body : Body }.
Record Response := { rs_status : Z; rs_json : option value; rs_text : string; rs_type : option string }.
(** What [fetch] gives: a response, or the text of what it threw. *)
Notation Reply := (outcome string Response).
Definition is_ok (r : Response) : bool := in_range 200 299 (rs_status r).

(** [ChannelError], and anything else a call can throw. *)
Inductive PlatformError := pe_channel (channelId message : string) (status : option Z) | pe_other (message : string).
Definition message_of_error (e : PlatformError) : string := match e with pe_channel _ m _ => m | pe_other m => m end.

Inductive Prog (A : Type) : Type :=
| Done (a : A)
| Fail (e : PlatformError)
| Fetch (r : Request) (k : Reply → Prog A).
Arguments Done {A} a.
Arguments Fail {A} e.
Arguments Fetch {A} r k.

Fixpoint pbind {A B} (m : Prog A) (k : A → Prog B) : Prog B :=
  match m with
  | Done a => k a
  | Fail e => Fail e
  | Fetch r c => Fetch r (λ reply, pbind (c reply) k)
  end.
(** [try { m } catch (e) { h(e) }]. *)
Fixpoint pcatch {A} (m : Prog A) (h : PlatformError → Prog A) : Prog A :=
  match m with
  | Done a => Done a
  | Fail e => h e
  | Fetch r c => Fetch r (λ reply, pcatch (c reply) h)
  end.
Declare Scope prog_scope.
Delimit Scope prog_scope with prog.
Notation "'let*' x := m 'in' k" := (pbind m (λ x, k)) (at level 200, x name, m at level 100, k at level 200) : prog_scope.
Notation "m ;; k" := (pbind m (λ _, k)) (at level 100, k at level 200, right associativity) : prog_scope.
Open Scope prog_scope.

Fixpoint each {A} (l : list A) (f : A → Prog unit) : Prog unit :=
  match l with [] => Done tt | x :: r => f x ;; each r f end.

(** One request, and what is made of its reply. *)
Definition ask {A} (r : Request) (judge : Reply → outcome PlatformError A) : Prog A :=
  Fetch r (λ reply, match judge reply with Ret a => Done a | Throw e => Fail e end).

Definition post_json (url : string) (auth : option string) (body : value) : Request :=
  {| rq_method := "POST"; rq_url := url; rq_auth := auth; rq_body := bd_json body |}.
Definition get_url (url : string) (auth : option string) : Request := {| rq_method := "GET"; rq_url := url; rq_auth := auth; rq_body := bd_none |}.

Definition js_show (n : Z) : string := pretty n.
Definition find_error {K} `{EqDecision K} (k : K) (table : list (K * string)) : option string := jm_get k table.

(** A message's reference, as the number it was made from. *)
Definition number_of_ref (ref : string) : value := match js_number ref with Some q => VNumber (Qround.Qfloor q) | None => VNull end.

Record OutboundMedia := { md_kind : string; md_url : string; md_caption : option string }.
Record Choice := { cho_label : string; cho_data : string }.
Definition is_video (m : OutboundMedia) : bool := String.eqb (md_kind m) "video".

(** A field that is there only when it has a value. *)
Definition field_if (key : string) (v : option string) : list (string * value) := match v with Some s => [(key, VString s)] | None => [] end.

(** A recording fetched with a token. *)
Definition fetch_file (channelId words url : string) (auth : option string) : Prog string :=
  ask (get_url url auth) (λ reply,
    match reply with
    | Throw e => Throw (pe_other e)
    | Ret r => if is_ok r then Ret (rs_text r)
               else Throw (pe_channel channelId (words +:+ " (" +:+ js_show (rs_status r) +:+ ").") (Some (rs_status r)))
    end).

(** ** Telegram *)
Module TelegramApi.
Definition TELEGRAM_API : string := "https://api.telegram.org".

Definition telegram_judge (reply : Reply) : outcome PlatformError value :=
  match reply with
  | Throw e => Throw (pe_channel "telegram" ("Could not reach Telegram: " +:+ e) None)
  | Ret r =>
      let parsed := default VUndefined (rs_json r) in
      let refused := Throw (pe_channel "telegram" (default ("Telegram refused the request (" +:+ js_show (rs_status r) +:+ ").") (str_of parsed "description"))
                              (Some (rs_status r))) in
      match own parsed "ok", own parsed "result" with
      | VBool true, VUndefined => refused
      | VBool true, result => Ret result
      | _, _ => refused
      end
  end.
Definition telegram_call (token method : string) (body : list (string * value)) : Prog value :=
  ask (post_json (TELEGRAM_API +:+ "/bot" +:+ token +:+ "/" +:+ method) None (VObject body)) telegram_judge.

Definition chunk (text : string) : list string := split text Telegram.TELEGRAM_MAX_MESSAGE_LENGTH.
Definition first_chunk (text : string) : string := default text (head (chunk text)).
Definition message_ref (sent : value) : string := match num_of sent "message_id" with Some n => js_show n | None => "undefined" end.

Definition telegram_identify (token : string) : Prog BotIdentity :=
  let* me := telegram_call token "getMe" [] in
  if negb (is_true me "is_bot") then Fail (pe_channel "telegram" "That token does not belong to a bot." None)
  else
    let id := match num_of me "id" with Some n => js_show n | None => "undefined" end in
    Done {| bi_handle := match str_of me "username" with Some u => "@" +:+ u | None => id end;
            bi_displayName := match str_of me "first_name" with Some f => f | None => default "Bot" (str_of me "username") end; bi_botRef := id |}.

Definition telegram_register (token : string) (context : VerifyContext) : Prog unit :=
  telegram_call token "setWebhook" [("url", VString (vc_webhookUrl context)); ("secret_token", VString (vc_webhookSecret context));
    ("allowed_updates", VArray [VString "message"; VString "callback_query"]); ("drop_pending_updates", VBool true)] ;; Done tt.
Definition telegram_unregister (token : string) : Prog unit := pcatch (telegram_call token "deleteWebhook" [] ;; Done tt) (λ _, Done tt).

Definition send_parts (token chatRef text : string) : Prog unit :=
  each (chunk text) (λ part, telegram_call token "sendMessage" [("chat_id", VString chatRef); ("text", VString part)] ;; Done tt).

Definition caption_of (m : OutboundMedia) : option string :=
  match md_caption m with Some c => if (String.length c <=? 1024)%nat then Some c else None | None => None end.
Definition telegram_sendMedia (token chatRef : string) (media : OutboundMedia) : Prog unit :=
  telegram_call token (if is_video media then "sendVideo" else "sendPhoto")
    (("chat_id", VString chatRef) :: (if is_video media then ("video", VString (md_url media)) else ("photo", VString (md_url media))) ::
     field_if "caption" (caption_of media)) ;; Done tt.

Definition telegram_sendChoices (token chatRef text : string) (choices : list Choice) : Prog string :=
  let* sent := telegram_call token "sendMessage" [("chat_id", VString chatRef); ("text", VString (first_chunk text));
    ("reply_markup", VObject [("inline_keyboard", VArray [VArray (map (λ c,
      VObject [("text", VString (cho_label c)); ("callback_data", VString (cho_data c))]) choices)])])] in
  Done (message_ref sent).

(** The same text twice is not a failure. *)
Definition unless_unmodified (m : Prog unit) : Prog unit :=
  pcatch m (λ e, match e with
                 | pe_channel _ message _ => if str_includes "not modified" (toLowerCase message) then Done tt else Fail e
                 | pe_other _ => Fail e
                 end).
Definition telegram_editDraft (token chatRef messageRef text : string) : Prog unit :=
  unless_unmodified (telegram_call token "editMessageText"
    [("chat_id", VString chatRef); ("message_id", number_of_ref messageRef); ("text", VString (first_chunk text))] ;; Done tt).
Definition telegram_settleChoice (token : string) (choice : InboundChoice) (text : string) : Prog unit :=
  pcatch (telegram_call token "answerCallbackQuery" [("callback_query_id", VString (ic_callbackRef choice))] ;; Done tt) (λ _, Done tt) ;;
  telegram_editDraft token (ic_chatRef choice) (ic_messageRef choice) text.
Definition telegram_indicate (token chatRef : string) : Prog unit :=
  telegram_call token "sendChatAction" [("chat_id", VString chatRef); ("action", VString "typing")] ;; Done tt.
Definition telegram_sendDraft (token chatRef text : string) : Prog string :=
  let* sent := telegram_call token "sendMessage" [("chat_id", VString chatRef); ("text", VString (first_chunk text))] in Done (message_ref sent).

Definition telegram_fetchAudio (token : string) (audio : InboundAudio) : Prog string :=
  let* file := telegram_call token "getFile" [("file_id", VString (au_fileRef audio))] in
  match str_of file "file_path" with
  | None => Fail (pe_channel "telegram" "Telegram would not say where that file is." None)
  | Some path =>
      if MAX_AUDIO_BYTES <? default 0 (num_of file "file_size") then Fail (pe_channel "telegram" "That recording is too large to fetch." None)
      else fetch_file "telegram" "Telegram would not serve that file" (TELEGRAM_API +:+ "/file/bot" +:+ token +:+ "/" +:+ path) None
  end.
End TelegramApi.

(** ** Slack *)
Module SlackApi.
Definition SLACK_API : string := "https://slack.com/api".
Definition SCOPES : string := "chat:write, im:history, app_mentions:read, files:read and files:write".
Definition quoted (s : string) : string := String (Ascii.ascii_of_nat 34) s +:+ String (Ascii.ascii_of_nat 34) "".
Definition SLACK_ERRORS : list (string * string) := [
  ("invalid_auth", "Slack rejected that token. Check it starts with " +:+ quoted "xoxb-" +:+ "."); ("account_inactive", "That token belongs to a deactivated app.");
  ("missing_scope", "The app is missing a scope. It needs " +:+ SCOPES +:+ ".");
  ("channel_not_found", "Slack cannot see that channel. The bot may need inviting to it."); ("not_in_channel", "The bot is not in that channel yet.")].

Definition slack_judge (reply : Reply) : outcome PlatformError value :=
  match reply with
  | Throw e => Throw (pe_channel "slack" ("Could not reach Slack: " +:+ e) None)
  | Ret r =>
      let parsed := default VUndefined (rs_json r) in
      if is_true parsed "ok" then Ret parsed
      else
        let code := default ("http_" +:+ js_show (rs_status r)) (str_of parsed "error") in
        Throw (pe_channel "slack" (default ("Slack refused the request: " +:+ code +:+ ".") (find_error code SLACK_ERRORS)) (Some (rs_status r)))
  end.
Definition bearer (token : string) : option string := Some ("Bearer " +:+ token).
Definition slack_call (token method : string) (body : list (string * value)) : Prog value :=
  ask (post_json (SLACK_API +:+ "/" +:+ method) (bearer token) (VObject body)) slack_judge.
Definition slack_callForm (token method : string) (fields : list (string * string)) : Prog value :=
  ask {| rq_method := "POST"; rq_url := SLACK_API +:+ "/" +:+ method; rq_auth := bearer token; rq_body := bd_form fields |} slack_judge.

Definition slack_first (text : string) : string := first_part text Slack.SLACK_MAX_MESSAGE_LENGTH.
Definition revokeSlackToken (token : string) : Prog unit := slack_callForm token "auth.revoke" [] ;; Done tt.

Definition plain_text (text : string) : value := VObject [("type", VString "plain_text"); ("text", VString text); ("emoji", VBool true)].
Definition section (text : string) : value := VObject [("type", VString "section"); ("text", plain_text text)].
Definition button (i : nat) (c : Choice) : value :=
  VObject ([("type", VString "button"); ("action_id", VString ("choice_" +:+ js_show (Z.of_nat i))); ("text", plain_text (cho_label c)); ("value", VString (cho_data c))] ++
           (if (i =? 0)%nat then [("style", VString "primary")] else [])).
Definition blocksFor (text : string) (choices : list Choice) : value :=
  VArray [section text; VObject [("type", VString "actions"); ("elements", VArray (imap button choices))]].

Definition slack_identify (token : string) : Prog BotIdentity :=
  let* me := slack_call token "auth.test" [] in
  match str_of me "user_id" with
  | None => Fail (pe_channel "slack" "Slack accepted the token but did not say who it is." None)
  | Some id =>
      let user := default "bot" (str_of me "user") in
      Done {| bi_handle := match str_of me "user" with Some u => "@" +:+ u | None => id end;
              bi_displayName := match str_of me "team" with Some t => user +:+ String " " (String (Ascii.ascii_of_nat 183) " ") +:+ t | None => user end; bi_botRef := id |}
  end.

Definition slack_post (token chatRef text : string) : Prog value := slack_call token "chat.postMessage" [("channel", VString chatRef); ("text", VString text)].
Definition slack_send_parts (token chatRef text : string) : Prog unit :=
  each (split text Slack.SLACK_MAX_MESSAGE_LENGTH) (λ part, slack_post token chatRef part ;; Done tt).

Definition send_picture (token chatRef url : string) (caption : option string) : Prog unit :=
  slack_call token "chat.postMessage" [("channel", VString chatRef); ("text", VString (default "A picture" caption));
    ("blocks", VArray (match caption with Some c => [section c] | None => [] end ++
       [VObject [("type", VString "image"); ("image_url", VString url); ("alt_text", VString (default "A picture from your assistant" caption))]]))] ;; Done tt.
(** A clip is fetched, uploaded where Slack says, and completed. *)
Definition send_clip (token chatRef url : string) (caption : option string) : Prog unit :=
  let* bytes := fetch_file "slack" "Could not fetch the clip to upload" url None in
  let* ticket := slack_callForm token "files.getUploadURLExternal" [("filename", "clip.mp4"); ("length", js_show (Z.of_nat (String.length bytes)))] in
  match str_of ticket "upload_url", str_of ticket "file_id" with
  | Some upload, Some file =>
      ask {| rq_method := "POST"; rq_url := upload; rq_auth := None; rq_body := bd_file "clip.mp4" [] |} (λ reply,
        match reply with
        | Throw e => Throw (pe_other e)
        | Ret r => if is_ok r then Ret tt else Throw (pe_channel "slack" ("Slack refused the clip (" +:+ js_show (rs_status r) +:+ ").") (Some (rs_status r)))
        end) ;;
      slack_call token "files.completeUploadExternal"
        ([("files", VArray [VObject [("id", VString file); ("title", VString (default "A clip from your assistant" caption))]]); ("channel_id", VString chatRef)] ++
         field_if "initial_comment" caption) ;; Done tt
  | _, _ => Fail (pe_channel "slack" "Slack did not say where to upload the clip." None)
  end.
Definition slack_sendMedia (token chatRef : string) (media : OutboundMedia) : Prog unit :=
  let caption := slack_first <$> md_caption media in
  if is_video media then send_clip token chatRef (md_url media) caption else send_picture token chatRef (md_url media) caption.

Definition ts_of (sent : value) : string := default "" (str_of sent "ts").
Definition slack_sendChoices (token chatRef text : string) (choices : list Choice) : Prog string :=
  let* sent := slack_call token "chat.postMessage" [("channel", VString chatRef); ("text", VString (slack_first text)); ("blocks", blocksFor (slack_first text) choices)] in
  Done (ts_of sent).
Definition slack_settleChoice (token : string) (choice : InboundChoice) (text : string) : Prog unit :=
  slack_call token "chat.update" [("channel", VString (ic_chatRef choice)); ("ts", VString (ic_messageRef choice)); ("text", VString (slack_first text));
    ("blocks", VArray [section (slack_first text)])] ;; Done tt.
Definition slack_sendDraft (token chatRef text : string) : Prog string := let* sent := slack_post token chatRef (slack_first text) in Done (ts_of sent).
Definition slack_editDraft (token chatRef messageRef text : string) : Prog unit :=
  slack_call token "chat.update" [("channel", VString chatRef); ("ts", VString messageRef); ("text", VString (slack_first text))] ;; Done tt.
Definition slack_fetchAudio (host : string → option string) (token : string) (audio : InboundAudio) : Prog string :=
  if negb (Slack.slack_may_fetch host (au_fileRef audio)) then Fail (pe_channel "slack" "That recording is not on Slack." None)
  else fetch_file "slack" "Slack would not serve that file" (au_fileRef audio) (bearer token).
End SlackApi.

(** ** Discord *)
Module DiscordApi.
Definition DISCORD_API : string := "https://discord.com/api/v10".

Definition discord_judge (reply : Reply) : outcome PlatformError value :=
  match reply with
  | Throw e => Throw (pe_channel "discord" ("Could not reach Discord: " +:+ e) None)
  | Ret r =>
      if negb (is_ok r) then
        Throw (pe_channel "discord" (if rs_status r =? 401 then "Discord rejected that bot token."
                                     else "Discord refused the request (" +:+ js_show (rs_status r) +:+ "). " +:+ str_take 200 (rs_text r)) (Some (rs_status r)))
      else if rs_status r =? 204 then Ret VUndefined
      else match rs_json r with Some v => Ret v | None => Throw (pe_other "not JSON") end
  end.
Definition discord_call (token method path : string) (body : Body) : Prog value :=
  ask {| rq_method := method; rq_url := DISCORD_API +:+ path; rq_auth := Some ("Bot " +:+ token); rq_body := body |} discord_judge.
Definition discord_first (text : string) : string := first_part text Discord.DISCORD_MAX_MESSAGE_LENGTH.
Definition messages_path (chatRef : string) : string := "/channels/" +:+ chatRef +:+ "/messages".
Definition discord_post (token chatRef : string) (body : list (string * value)) : Prog value :=
  discord_call token "POST" (messages_path chatRef) (bd_json (VObject body)).
Definition id_of (sent : value) : string := default "undefined" (str_of sent "id").

Definition discord_identify (token : string) : Prog BotIdentity :=
  let* me := discord_call token "GET" "/users/@me" bd_none in
  if negb (is_true me "bot") then Fail (pe_channel "discord" "That token belongs to a user, not a bot." None)
  else
    let username := default "undefined" (str_of me "username") in
    Done {| bi_handle := "@" +:+ username; bi_displayName := default username (str_of me "global_name"); bi_botRef := id_of me |}.
Definition command_definition : value := VObject [("name", VString Discord.COMMAND_NAME);
  ("description", VString "Ask your assistant, or tell it something"); ("type", VNumber 1);
  ("options", VArray [VObject [("type", VNumber 3); ("name", VString Discord.COMMAND_OPTION); ("description", VString "What to ask or tell it"); ("required", VBool true)]]);
  ("contexts", VArray [VNumber 0; VNumber 1])].
Definition discord_register (token : string) : Prog unit :=
  let* app := discord_call token "GET" "/oauth2/applications/@me" bd_none in
  match str_of app "id" with
  | None => Fail (pe_channel "discord" "Discord would not say which application this bot belongs to." None)
  | Some id => discord_call token "POST" ("/applications/" +:+ id +:+ "/commands") (bd_json command_definition) ;; Done tt
  end.
Definition discord_send_parts (token chatRef text : string) : Prog unit :=
  each (split text Discord.DISCORD_MAX_MESSAGE_LENGTH) (λ part, discord_post token chatRef [("content", VString part)] ;; Done tt).
Definition discord_sendMedia (token chatRef : string) (media : OutboundMedia) : Prog unit :=
  let caption := discord_first <$> md_caption media in
  discord_post token chatRef
    (if is_video media
     then [("content", VString (match caption with Some c => c +:+ String (Ascii.ascii_of_nat 10) (md_url media) | None => md_url media end))]
     else field_if "content" caption ++ [("embeds", VArray [VObject [("image", VObject [("url", VString (md_url media))])]])]) ;; Done tt.
Definition component (i : nat) (c : Choice) : value :=
  VObject [("type", VNumber 2); ("style", VNumber (if (i =? 0)%nat then 1 else 2)); ("label", VString (cho_label c)); ("custom_id", VString (cho_data c))].
Definition discord_sendChoices (token chatRef text : string) (choices : list Choice) : Prog string :=
  let* sent := discord_post token chatRef [("content", VString (discord_first text));
    ("components", VArray [VObject [("type", VNumber 1); ("components", VArray (imap component choices))]])] in
  Done (id_of sent).
Definition discord_indicate (token chatRef : string) : Prog unit := discord_call token "POST" ("/channels/" +:+ chatRef +:+ "/typing") bd_none ;; Done tt.
Definition discord_sendDraft (token chatRef text : string) : Prog string :=
  let* sent := discord_post token chatRef [("content", VString (discord_first text))] in Done (id_of sent).
Definition discord_editDraft (token chatRef messageRef text : string) : Prog unit :=
  discord_call token "PATCH" (messages_path chatRef +:+ "/" +:+ messageRef) (bd_json (VObject [("content", VString (discord_first text))])) ;; Done tt.
End DiscordApi.

(** ** WhatsApp *)
Module WhatsAppApi.
Definition GRAPH_VERSION : string := "v22.0".
Definition GRAPH : string := "https://graph.facebook.com/" +:+ GRAPH_VERSION.
Definition GRAPH_ERRORS : list (Z * string) := [
  (190, "Meta rejected the access token. It may have expired: make a permanent one from a system user.");
  (131047, "WhatsApp only lets me reply within 24 hours of your last message. Send me anything and I will answer.");
  (131030, "That number is not on this test number's recipient list. Add it under WHATSAPP_API Setup in your Meta app.");
  (131026, "WhatsApp says that number cannot receive messages.");
  (131056, "WhatsApp is pacing messages to that number. Try again in a moment.");
  (100, "Meta rejected the request as malformed. Check the phone number id.")].

Definition whatsapp_judge (reply : Reply) : outcome PlatformError value :=
  match reply with
  | Throw e => Throw (pe_channel "whatsapp" ("Could not reach Meta: " +:+ e) None)
  | Ret r =>
      let body := default VUndefined (rs_json r) in
      match is_ok r, own body "error" with
      | true, VUndefined => Ret body
      | _, error =>
          let known := num_of error "code" ≫= λ c, find_error c GRAPH_ERRORS in
          Throw (pe_channel "whatsapp"
            (default (js_trim ("Meta refused the request (" +:+ js_show (rs_status r) +:+ "). " +:+ default "" (str_of error "message"))) known) (Some (rs_status r)))
      end
  end.

(** [parts(token)], which a call makes before anything is sent. *)
Definition with_parts {A} (token : string) (k : string → string → Prog A) : Prog A :=
  match WhatsApp.whatsapp_parts token with
  | Some (phoneId, accessToken) => k phoneId accessToken
  | None => Fail (pe_channel "whatsapp" "This connection is missing its phone number id. Reconnect WhatsApp." None)
  end.
Definition graph_get (accessToken path : string) : Prog value := ask (get_url (GRAPH +:+ path) (Some ("Bearer " +:+ accessToken))) whatsapp_judge.
Definition graph_post (accessToken path : string) (body : list (string * value)) : Prog value :=
  ask (post_json (GRAPH +:+ path) (Some ("Bearer " +:+ accessToken)) (VObject body)) whatsapp_judge.
Definition say (phoneId accessToken : string) (body : list (string * value)) : Prog value := graph_post accessToken ("/" +:+ phoneId +:+ "/messages") body.
Definition sentId (sent : value) : string := default "" (head (list_of sent "messages") ≫= λ m, str_of m "id").
Definition drop_spaces (s : string) : string := String.concat "" (fields_of s).

Definition whatsapp_identify (token : string) : Prog BotIdentity := with_parts token (λ phoneId accessToken,
  if negb (WhatsApp.phone_id_shaped phoneId)
  then Fail (pe_channel "whatsapp" "The phone number id should be a number, the one Meta shows beside your phone number." None)
  else
    let* number := graph_get accessToken ("/" +:+ phoneId +:+ "?fields=display_phone_number,verified_name") in
    let display := default phoneId (str_of number "display_phone_number") in
    Done {| bi_handle := if String.prefix "+" display then display else "+" +:+ drop_spaces display;
            bi_displayName := default display (str_of number "verified_name"); bi_botRef := default phoneId (str_of number "id") |}).

Definition whatsapp_send_parts (token chatRef text : string) : Prog unit := with_parts token (λ phoneId accessToken,
  each (split text WhatsApp.WHATSAPP_MAX_MESSAGE_LENGTH) (λ part,
    say phoneId accessToken (WhatsApp.envelope chatRef ++ [("type", VString "text"); ("text", VObject [("body", VString part); ("preview_url", VBool true)])]) ;; Done tt)).
Definition whatsapp_sendMedia (token chatRef : string) (media : OutboundMedia) : Prog unit := with_parts token (λ phoneId accessToken,
  let caption := (λ c, first_part c WhatsApp.MAX_CAPTION) <$> md_caption media in
  say phoneId accessToken (WhatsApp.envelope chatRef ++
    [("type", VString (md_kind media)); (md_kind media, VObject (("link", VString (md_url media)) :: field_if "caption" caption))]) ;; Done tt).
Definition reply_button (c : string * string) : value :=
  VObject [("type", VString "reply"); ("reply", VObject [("id", VString c.2); ("title", VString c.1)])].
Definition whatsapp_sendChoices (token chatRef text : string) (choices : list Choice) : Prog string := with_parts token (λ phoneId accessToken,
  let* sent := say phoneId accessToken (WhatsApp.envelope chatRef ++ [("type", VString "interactive"); ("interactive", VObject [
      ("type", VString "button"); ("body", VObject [("text", VString (first_part text WhatsApp.MAX_CAPTION))]);
      ("action", VObject [("buttons", VArray (map reply_button (WhatsApp.buttons (map (λ c, (cho_label c, cho_data c)) choices))))])])]) in
  Done (sentId sent)).
Definition whatsapp_indicate (token : string) (messageRef : option string) : Prog unit :=
  match messageRef with
  | None => Done tt
  | Some ref => with_parts token (λ phoneId accessToken,
      say phoneId accessToken [("messaging_product", VString "whatsapp"); ("status", VString "read"); ("message_id", VString ref);
        ("typing_indicator", VObject [("type", VString "text")])] ;; Done tt)
  end.
(** [Number(file_size ?? 0)]: Meta gives a number or a numeral. *)
Definition size_above (limit : Z) (v : value) : bool :=
  match v with
  | VNumber n => limit <? n
  | VString s => match js_number s with Some q => negb (Qle_bool q (inject_Z limit)) | None => false end
  | _ => false
  end.
Definition whatsapp_fetchAudio (host : string → option string) (token : string) (audio : InboundAudio) : Prog string := with_parts token (λ _ accessToken,
  let* media := graph_get accessToken ("/" +:+ au_fileRef audio) in
  match str_of media "url" with
  | None => Fail (pe_channel "whatsapp" "Meta would not say where that recording is." None)
  | Some url =>
      if size_above MAX_AUDIO_BYTES (own media "file_size") then Fail (pe_channel "whatsapp" "That recording is too large to fetch." None)
      else if negb (WhatsApp.whatsapp_may_fetch host url) then Fail (pe_channel "whatsapp" "That recording is not on Meta's servers." None)
      else fetch_file "whatsapp" "Meta would not serve that recording" url (Some ("Bearer " +:+ accessToken))
  end).
End WhatsAppApi.

(** ** iMessage *)
Module IMessageApi.
Section IMessage.
(** An http or https URL, [new URL(x).host], [URLSearchParams] and
    [encodeURIComponent], the identifier of an outgoing message. *)
Context (web : string → bool) (host : string → option string) (search : list (string * string) → string) (encode : string → string) (uuid : string → string).

Definition imessage_judge (reply : Reply) : outcome PlatformError value :=
  match reply with
  | Throw e => Throw (pe_channel "imessage" ("Could not reach your Mac: " +:+ e) None)
  | Ret r =>
      let body := default VUndefined (rs_json r) in
      if negb (is_ok r) then
        Throw (pe_channel "imessage" (if rs_status r =? 401 then "Your Mac rejected the password."
          else js_trim ("Your Mac refused the request (" +:+ js_show (rs_status r) +:+ "). " +:+ default "" (str_of body "message"))) (Some (rs_status r)))
      else match own body "data" with
           | VUndefined => Throw (pe_channel "imessage" "Your Mac answered with nothing." None)
           | v => Ret v
           end
  end.
Definition mac_url (base password path : string) (query : list (string * string)) : string :=
  base +:+ "/api/v1/" +:+ path +:+ "?" +:+ search (query ++ [("password", password)]).
(** [parts(token)]; the password goes into the address of every call. *)
Definition with_mac {A} (token : string) (k : string → string → Prog A) : Prog A :=
  match IMessage.imessage_parts web token, WhatsApp.split_once " " token with
  | Some (base, password), _ => k base password
  | None, Some (String _ _, _) => Fail (pe_channel "imessage" "The server address should be a URL, like https://my-mac.example.com." None)
  | None, _ => Fail (pe_channel "imessage" "This connection is missing the Mac's address. Reconnect iMessage." None)
  end.
Definition mac_get (token path : string) (query : list (string * string)) : Prog value :=
  with_mac token (λ base password, ask (get_url (mac_url base password path query) None) imessage_judge).
Definition mac_post (token path : string) (body : list (string * value)) : Prog value :=
  with_mac token (λ base password, ask (post_json (mac_url base password path []) None (VObject body)) imessage_judge).

Definition imessage_identify (token : string) : Prog BotIdentity :=
  let* info := mac_get token "server/info" [] in
  with_mac token (λ base _,
    let h := default "" (host base) in
    Done (match str_of info "detected_imessage" with
          | Some "" | None => {| bi_handle := h; bi_displayName := "Messages on " +:+ h; bi_botRef := h |}
          | Some a => {| bi_handle := a; bi_displayName := "Messages, signed in as " +:+ a; bi_botRef := a |}
          end)).
Definition hooks_of (v : value) : list value := match v with VArray l => l | _ => [] end.
Definition imessage_register (token : string) (context : VerifyContext) : Prog unit :=
  let* existing := mac_get token "webhook" [] in
  if existsb (λ w, match str_of w "url" with Some u => String.eqb u (vc_webhookUrl context) | None => false end) (hooks_of existing) then Done tt
  else mac_post token "webhook" [("url", VString (vc_webhookUrl context)); ("events", VArray [VString IMessage.NEW_MESSAGE_EVENT])] ;; Done tt.
Definition is_ours (hook : value) : option string :=
  match num_of hook "id", str_of hook "url" with
  | Some id, Some url => if str_includes "/api/channels/imessage/" url then Some (js_show id) else None
  | _, _ => None
  end.
Definition imessage_unregister (token : string) : Prog unit :=
  let* existing := pcatch (mac_get token "webhook" []) (λ _, Done (VArray [])) in
  each (omap is_ours (hooks_of existing)) (λ id,
    pcatch (with_mac token (λ base password,
      ask {| rq_method := "DELETE"; rq_url := mac_url base password ("webhook/" +:+ id) []; rq_auth := None; rq_body := bd_none |} imessage_judge ;; Done tt)) (λ _, Done tt)).

(** [confirm]: whatever goes wrong is a no. *)
Definition imessage_confirm (token : string) (message : InboundMessage) : Prog bool :=
  pcatch (let* found := mac_get token ("message/" +:+ encode (im_messageRef message)) [("with", "chats")] in Done (IMessage.confirm (Some found) message))
    (λ _, Done false).

Definition imessage_send_parts (token chatRef text : string) : Prog unit :=
  each (IMessage.imessage_send text) (λ part,
    mac_post token "message/text" [("chatGuid", VString chatRef); ("tempGuid", VString (uuid part)); ("message", VString part); ("method", VString "apple-script")] ;; Done tt).
Definition imessage_sendMedia (token chatRef : string) (media : OutboundMedia) : Prog unit :=
  let* bytes := fetch_file "imessage" ("Could not fetch the " +:+ md_kind media +:+ " to send") (md_url media) None in
  let name := if is_video media then "clip.mp4" else "picture.png" in
  with_mac token (λ base password,
    ask {| rq_method := "POST"; rq_url := mac_url base password "message/attachment" []; rq_auth := None;
           rq_body := bd_file name [("chatGuid", chatRef); ("tempGuid", uuid bytes); ("name", name); ("method", "apple-script")] |} imessage_judge) ;;
  match md_caption media with
  | Some c => if String.eqb (js_trim c) "" then Done tt else imessage_send_parts token chatRef c
  | None => Done tt
  end.
Definition imessage_indicate (token chatRef : string) : Prog unit :=
  with_mac token (λ base password,
    ask {| rq_method := "POST"; rq_url := mac_url base password ("chat/" +:+ encode chatRef +:+ "/typing") []; rq_auth := None; rq_body := bd_none |} imessage_judge) ;; Done tt.
Definition imessage_fetchAudio (token : string) (audio : InboundAudio) : Prog string :=
  with_mac token (λ base password,
    fetch_file "imessage" "Your Mac would not serve that recording" (mac_url base password ("attachment/" +:+ encode (au_fileRef audio) +:+ "/download") []) None).
End IMessage.
End IMessageApi.

(** ** The port *)

Inductive Op :=
| op_identify
| op_register (context : VerifyContext)
| op_unregister
| op_confirm (message : InboundMessage)
| op_send (chatRef text : string)
| op_sendMedia (chatRef : string) (media : OutboundMedia)
| op_indicate (chatRef : string) (messageRef : option string)
| op_sendDraft (chatRef text : string)
| op_editDraft (chatRef messageRef text : string)
| op_sendChoices (chatRef text : string) (choices : list Choice)
| op_settleChoice (choice : InboundChoice) (text : string)
| op_fetchAudio (audio : InboundAudio).
Inductive Result := r_done | r_text (s : string) | r_identity (i : BotIdentity) | r_bool (b : bool).
Definition giving {A} (f : A → Result) (m : Prog A) : option (Prog Result) := Some (let* a := m in Done (f a)).
Definition done_ (m : Prog unit) : option (Prog Result) := giving (λ _, r_done) m.

Section Port.
Context (web : string → bool) (host : string → option string) (search : list (string * string) → string) (encode : string → string) (uuid : string → string).

(** What an adapter does, nothing for an operation it does not have. *)
Definition telegram_perform (token : string) (op : Op) : option (Prog Result) :=
  match op with
  | op_identify => giving r_identity (TelegramApi.telegram_identify token)
  | op_register context => done_ (TelegramApi.telegram_register token context)
  | op_unregister => done_ (TelegramApi.telegram_unregister token)
  | op_confirm _ => None
  | op_send chat text => done_ (TelegramApi.send_parts token chat text)
  | op_sendMedia chat media => done_ (TelegramApi.telegram_sendMedia token chat media)
  | op_indicate chat _ => done_ (TelegramApi.telegram_indicate token chat)
  | op_sendDraft chat text => giving r_text (TelegramApi.telegram_sendDraft token chat text)
  | op_editDraft chat ref text => done_ (TelegramApi.telegram_editDraft token chat ref text)
  | op_sendChoices chat text choices => giving r_text (TelegramApi.telegram_sendChoices token chat text choices)
  | op_settleChoice choice text => done_ (TelegramApi.telegram_settleChoice token choice text)
  | op_fetchAudio audio => giving r_text (TelegramApi.telegram_fetchAudio token audio)
  end.
Definition slack_perform (token : string) (op : Op) : option (Prog Result) :=
  match op with
  | op_identify => giving r_identity (SlackApi.slack_identify token)
  | op_register _ | op_unregister => done_ (Done tt)
  | op_confirm _ | op_indicate _ _ => None
  | op_send chat text => done_ (SlackApi.slack_send_parts token chat text)
  | op_sendMedia chat media => done_ (SlackApi.slack_sendMedia token chat media)
  | op_sendDraft chat text => giving r_text (SlackApi.slack_sendDraft token chat text)
  | op_editDraft chat ref text => done_ (SlackApi.slack_editDraft token chat ref text)
  | op_sendChoices chat text choices => giving r_text (SlackApi.slack_sendChoices token chat text choices)
  | op_settleChoice choice text => done_ (SlackApi.slack_settleChoice token choice text)
  | op_fetchAudio audio => giving r_text (SlackApi.slack_fetchAudio host token audio)
  end.
Definition discord_perform (token : string) (op : Op) : option (Prog Result) :=
  match op with
  | op_identify => giving r_identity (DiscordApi.discord_identify token)
  | op_register _ => done_ (DiscordApi.discord_register token)
  | op_unregister => done_ (Done tt)
  | op_confirm _ | op_settleChoice _ _ | op_fetchAudio _ => None
  | op_send chat text => done_ (DiscordApi.discord_send_parts token chat text)
  | op_sendMedia chat media => done_ (DiscordApi.discord_sendMedia token chat media)
  | op_indicate chat _ => done_ (DiscordApi.discord_indicate token chat)
  | op_sendDraft chat text => giving r_text (DiscordApi.discord_sendDraft token chat text)
  | op_editDraft chat ref text => done_ (DiscordApi.discord_editDraft token chat ref text)
  | op_sendChoices chat text choices => giving r_text (DiscordApi.discord_sendChoices token chat text choices)
  end.
Definition whatsapp_perform (token : string) (op : Op) : option (Prog Result) :=
  match op with
  | op_identify => giving r_identity (WhatsAppApi.whatsapp_identify token)
  | op_register _ | op_unregister => done_ (Done tt)
  | op_confirm _ | op_sendDraft _ _ | op_editDraft _ _ _ | op_settleChoice _ _ => None
  | op_send chat text => done_ (WhatsAppApi.whatsapp_send_parts token chat text)
  | op_sendMedia chat media => done_ (WhatsAppApi.whatsapp_sendMedia token chat media)
  | op_indicate _ ref => done_ (WhatsAppApi.whatsapp_indicate token ref)
  | op_sendChoices chat text choices => giving r_text (WhatsAppApi.whatsapp_sendChoices token chat text choices)
  | op_fetchAudio audio => giving r_text (WhatsAppApi.whatsapp_fetchAudio host token audio)
  end.
Definition imessage_perform (token : string) (op : Op) : option (Prog Result) :=
  match op with
  | op_identify => giving r_identity (IMessageApi.imessage_identify web host search token)
  | op_register context => done_ (IMessageApi.imessage_register web search token context)
  | op_unregister => done_ (IMessageApi.imessage_unregister web search token)
  | op_confirm message => giving r_bool (IMessageApi.imessage_confirm web search encode token message)
  | op_send chat text => done_ (IMessageApi.imessage_send_parts web search uuid token chat text)
  | op_sendMedia chat media => done_ (IMessageApi.imessage_sendMedia web search uuid token chat media)
  | op_indicate chat _ => done_ (IMessageApi.imessage_indicate web search encode token chat)
  | op_sendDraft _ _ | op_editDraft _ _ _ | op_sendChoices _ _ _ | op_settleChoice _ _ => None
  | op_fetchAudio audio => giving r_text (IMessageApi.imessage_fetchAudio web search encode token audio)
  end.
Definition perform (type token : string) (op : Op) : option (Prog Result) :=
  match type with
  | "telegram" => telegram_perform token op
  | "slack" => slack_perform token op
  | "discord" => discord_perform token op
  | "whatsapp" => whatsapp_perform token op
  | "imessage" => imessage_perform token op
  | _ => None
  end.
End Port.

(** ** Where a token goes *)

Fixpoint sends_only {A} (P : Request → Prop) (m : Prog A) : Prop :=
  match m with
  | Done _ | Fail _ => True
  | Fetch r k => P r ∧ ∀ reply, sends_only P (k reply)
  end.

Section SendsOnly.
Context (P : Request → Prop).
Lemma sends_only_bind {A B} (m : Prog A) (k : A → Prog B) : sends_only P m → (∀ a, sends_only P (k a)) → sends_only P (pbind m k).
Proof. intros Hm Hk. induction m as [a|e|r c IH]; cbn in *; [apply Hk|done|]. destruct Hm as [Hr Hc]. split; auto. Qed.
Lemma sends_only_catch {A} (m : Prog A) h : sends_only P m → (∀ e, sends_only P (h e)) → sends_only P (pcatch m h).
Proof. intros Hm Hh. induction m as [a|e|r c IH]; cbn in *; [done|apply Hh|]. destruct Hm as [Hr Hc]. split; auto. Qed.
Lemma sends_only_each {A} (l : list A) f : (∀ x, sends_only P (f x)) → sends_only P (each l f).
Proof. intros Hf. induction l as [|x l IH]; cbn; [done|]. by apply sends_only_bind. Qed.
Lemma sends_only_ask {A} r (judge : Reply → outcome PlatformError A) : P r → sends_only P (ask r judge).
Proof. intros Hr. split; [done|]. intros reply. by destruct (judge reply). Qed.
End SendsOnly.

(** The same, with what the network has answered so far. *)
Fixpoint sends_after {A} (P : list Reply → Request → Prop) (seen : list Reply) (m : Prog A) : Prop :=
  match m with
  | Done _ | Fail _ => True
  | Fetch r k => P seen r ∧ ∀ reply, sends_after P (reply :: seen) (k reply)
  end.

Section SendsAfter.
Context (P : list Reply → Request → Prop).
Lemma sends_only_after {A} (m : Prog A) seen : sends_only (λ r, ∀ seen, P seen r) m → sends_after P seen m.
Proof. revert seen. induction m as [a|e|r c IH]; intros seen; cbn; [done|done|]. intros [Hr Hc]. split; auto. Qed.
Lemma after_ask {A B} seen r judge (k : A → Prog B) :
  P seen r → (∀ reply a, judge reply = Ret a → sends_after P (reply :: seen) (k a)) → sends_after P seen (pbind (ask r judge) k).
Proof. intros Hr Hk. split; [done|]. intros reply. destruct (judge reply) eqn:Hj; cbn; [by apply Hk|done]. Qed.
Lemma after_giving {A B} seen (m : Prog A) (f : A → B) : sends_after P seen m → sends_after P seen (pbind m (λ a, Done (f a))).
Proof. revert seen. induction m as [a|e|r c IH]; intros seen; cbn; [done|done|]. intros [Hr Hc]. split; auto. Qed.
End SendsAfter.

Definition links_of (op : Op) : list string := match op with op_sendMedia _ m => [md_url m] | _ => [] end.

Section GoesHome.
Context (web : string → bool) (host : string → option string) (search : list (string * string) → string) (encode : string → string) (uuid : string → string).
(** The address an earlier reply of Slack's named for an upload. *)
Definition named_upload (url : string) (reply : Reply) : Prop :=
  ∃ resp, reply = Ret resp ∧ str_of (default VUndefined (rs_json resp)) "upload_url" = Some url.
(** A request the token has no part in: it fetches the link the operation was given, or
    uploads that file, with nothing beside it, where Slack said. *)
Definition without_token (op : Op) (seen : list Reply) (r : Request) : Prop :=
  rq_auth r = None ∧
  (rq_method r = "GET" ∧ rq_url r ∈ links_of op ∧ rq_body r = bd_none ∨
   rq_method r = "POST" ∧ Exists (named_upload (rq_url r)) seen ∧ ∃ name, rq_body r = bd_file name []).
(** Where a request may go. *)
Definition goes_home (type token : string) (op : Op) (seen : list Reply) (r : Request) : Prop :=
  match type with
  | "telegram" => String.prefix "https://api.telegram.org/" (rq_url r) = true
  | "slack" => String.prefix "https://slack.com/api/" (rq_url r) = true ∨ Slack.slack_may_fetch host (rq_url r) = true ∨ without_token op seen r
  | "discord" => String.prefix "https://discord.com/api/v10/" (rq_url r) = true
  | "whatsapp" => String.prefix "https://graph.facebook.com/" (rq_url r) = true ∨ WhatsApp.whatsapp_may_fetch host (rq_url r) = true
  | "imessage" => (∃ base password rest, IMessage.imessage_parts web token = Some (base, password) ∧ rq_url r = base +:+ "/api/v1/" +:+ rest) ∨
                  without_token op seen r
  | _ => True
  end.

Ltac follow :=
  repeat first
    [ done
    | apply sends_only_bind; [|intros ?]
    | apply sends_only_catch; [|intros ?]
    | apply sends_only_each; intros ?
    | apply sends_only_ask
    | match goal with |- sends_only _ (if ?b then _ else _) => destruct b eqn:? end
    | match goal with |- sends_only _ (match ?x with _ => _ end) => destruct x eqn:? end ].

Definition all_home (type token : string) (op : Op) (m : option (Prog Result)) : Prop :=
  match m with Some p => sends_after (goes_home type token op) [] p | None => True end.

Lemma telegram_home token op : all_home "telegram" token op (telegram_perform token op).
Proof.
  destruct op; cbn [telegram_perform all_home done_ giving]; try done; apply sends_only_after;
    unfold TelegramApi.telegram_identify, TelegramApi.telegram_register, TelegramApi.telegram_unregister, TelegramApi.send_parts,
      TelegramApi.telegram_sendMedia, TelegramApi.telegram_indicate, TelegramApi.telegram_sendDraft, TelegramApi.telegram_settleChoice,
      TelegramApi.telegram_editDraft, TelegramApi.unless_unmodified, TelegramApi.telegram_sendChoices, TelegramApi.telegram_fetchAudio,
      TelegramApi.telegram_call, fetch_file; follow; intros ?; reflexivity.
Qed.

Lemma clip_home token chatRef media caption :
  sends_after (goes_home "slack" token (op_sendMedia chatRef media)) [] (SlackApi.send_clip token chatRef (md_url media) caption).
Proof.
  unfold SlackApi.send_clip, fetch_file, SlackApi.slack_callForm.
  apply after_ask; [right; right; split; [done|]; left; split_and!; [done|by left|done]|]. intros fetched bytes _.
  apply after_ask; [by left|]. intros reply ticket Hj.
  destruct (str_of ticket "upload_url") as [upload|] eqn:Hu; [|done]. destruct (str_of ticket "file_id") as [file|]; [|done].
  apply after_ask; [|intros; apply sends_only_after; unfold SlackApi.slack_call; follow; intros ?; left; reflexivity].
  right; right. split; [done|]. right. split_and!; [done| |by eexists]. apply Exists_cons_hd. unfold SlackApi.slack_judge in Hj.
  destruct reply as [resp|e]; [|done]. exists resp. split; [done|]. destruct (is_true _ _); [|done]. by injection Hj as ->.
Qed.

Lemma slack_media_home token chatRef media :
  sends_after (goes_home "slack" token (op_sendMedia chatRef media)) [] (pbind (SlackApi.slack_sendMedia token chatRef media) (λ _, Done r_done)).
Proof.
  apply after_giving. unfold SlackApi.slack_sendMedia. destruct (is_video media); [apply clip_home|].
  apply sends_only_after. unfold SlackApi.send_picture, SlackApi.slack_call. follow. intros ?. left. reflexivity.
Qed.

Lemma slack_home token op : all_home "slack" token op (slack_perform host token op).
Proof.
  destruct op; cbn [slack_perform all_home done_ giving]; try done; try (apply slack_media_home); apply sends_only_after;
    unfold SlackApi.slack_identify, SlackApi.slack_send_parts,
      SlackApi.slack_sendDraft, SlackApi.slack_editDraft, SlackApi.slack_sendChoices, SlackApi.slack_settleChoice, SlackApi.slack_fetchAudio,
      SlackApi.slack_post, SlackApi.slack_call, SlackApi.slack_callForm, fetch_file; follow; intros ?;
    first [left; reflexivity|right; left]. by apply negb_false_iff.
Qed.

Lemma discord_home token op : all_home "discord" token op (discord_perform token op).
Proof.
  destruct op; cbn [discord_perform all_home done_ giving]; try done; apply sends_only_after;
    unfold DiscordApi.discord_identify, DiscordApi.discord_register, DiscordApi.discord_send_parts, DiscordApi.discord_sendMedia,
      DiscordApi.discord_indicate, DiscordApi.discord_sendDraft, DiscordApi.discord_editDraft, DiscordApi.discord_sendChoices,
      DiscordApi.discord_post, DiscordApi.discord_call; follow; intros ?; reflexivity.
Qed.

Lemma whatsapp_home token op : all_home "whatsapp" token op (whatsapp_perform host token op).
Proof.
  destruct op; cbn [whatsapp_perform all_home done_ giving]; try done; apply sends_only_after;
    unfold WhatsAppApi.whatsapp_identify, WhatsAppApi.whatsapp_send_parts, WhatsAppApi.whatsapp_sendMedia, WhatsAppApi.whatsapp_indicate,
      WhatsAppApi.whatsapp_sendChoices, WhatsAppApi.whatsapp_fetchAudio, WhatsAppApi.with_parts, WhatsAppApi.say, WhatsAppApi.graph_post,
      WhatsAppApi.graph_get, fetch_file; follow; intros ?; first [left; reflexivity|right]. by apply negb_false_iff.
Qed.

Lemma mac_home {A} token op (m : string → string → Prog A) :
  (∀ base password, IMessage.imessage_parts web token = Some (base, password) → sends_only (λ r, ∀ seen, goes_home "imessage" token op seen r) (m base password)) →
  sends_only (λ r, ∀ seen, goes_home "imessage" token op seen r) (IMessageApi.with_mac web token m).
Proof. intros Hm. unfold IMessageApi.with_mac. destruct (IMessage.imessage_parts web token) as [[base password]|]; [by apply Hm|]. by repeat case_match. Qed.

Lemma mac_link_home token op seen base password method path query body :
  IMessage.imessage_parts web token = Some (base, password) →
  goes_home "imessage" token op seen {| rq_method := method; rq_url := IMessageApi.mac_url search base password path query; rq_auth := None; rq_body := body |}.
Proof. intros Hp. left. by eexists _, _, _. Qed.

Lemma imessage_home token op : all_home "imessage" token op (imessage_perform web host search encode uuid token op).
Proof.
  destruct op; cbn [imessage_perform all_home done_ giving]; try done; apply sends_only_after;
    unfold IMessageApi.imessage_identify, IMessageApi.imessage_register, IMessageApi.imessage_unregister, IMessageApi.imessage_confirm,
      IMessageApi.imessage_send_parts, IMessageApi.imessage_sendMedia, IMessageApi.imessage_send_parts, IMessageApi.imessage_indicate,
      IMessageApi.imessage_fetchAudio, IMessageApi.mac_get, IMessageApi.mac_post, fetch_file;
    repeat (follow; try (apply mac_home; intros ? ? ?));
    intros ?; first [by apply mac_link_home|right; split; [done|left; split_and!; [done|by left|done]]].
Qed.

(** C15.  Whatever an adapter is asked to do, and whatever the network answers, a
    connection's token is sent to no one but its platform.  Every request goes to the
    platform's API, to one of its own file hosts, or, for iMessage, to the person's own
    Mac, but for two that have no part of the token in their address, their headers or
    their body: the one that fetches the very link the operation was given (Slack and
    iMessage, for a file to be uploaded), and the upload of that file, alone, to the
    address Slack itself named in an earlier reply. *)
Theorem tokens_go_home type token op p :
  perform web host search encode uuid type token op = Some p → sends_after (goes_home type token op) [] p.
Proof.
  pose proof (telegram_home token op) as Ht. pose proof (slack_home token op) as Hs. pose proof (discord_home token op) as Hd.
  pose proof (whatsapp_home token op) as Hw. pose proof (imessage_home token op) as Hi.
  unfold perform. repeat (case_match; try done); intros Hp; rewrite Hp in *; done.
Qed.
End GoesHome.

(** ** What reaches the platform *)

(** The requests made, with their replies, and how the program ended; the
    network may answer the same request differently each time. *)
Fixpoint run {A} (net : nat → Request → Reply) (n : nat) (m : Prog A) : list (Request * Reply) * outcome PlatformError A :=
  match m with
  | Done a => ([], Ret a)
  | Fail e => ([], Throw e)
  | Fetch r k => let '(trace, out) := run net (S n) (k (net n r)) in ((r, net n r) :: trace, out)
  end.

Lemma run_bind {A B} net n (m : Prog A) (k : A → Prog B) :
  run net n (pbind m k) =
    match run net n m with
    | (trace, Ret a) => let '(trace', out) := run net (n + length trace) (k a) in (trace ++ trace', out)
    | (trace, Throw e) => (trace, Throw e)
    end.
Proof.
  revert n. induction m as [a|e|r c IH]; intros n; cbn [pbind run].
  - rewrite Nat.add_0_r. by destruct (run net n (k a)).
  - done.
  - rewrite IH. destruct (run net (S n) (c (net n r))) as [trace [a|e]]; [|done]. cbn [length]. rewrite <-Nat.add_succ_comm.
    by destruct (run net _ (k a)).
Qed.

(** The words a request puts into a chat. *)
Definition said_in (type : string) (body : value) : option string :=
  match type with
  | "telegram" | "slack" => str_of body "text"
  | "discord" => str_of body "content"
  | "whatsapp" => str_of (own body "text") "body"
  | "imessage" => str_of body "message"
  | _ => None
  end.
Definition said (type : string) (x : Request * Reply) : option string := match rq_body x.1 with bd_json v => said_in type v | _ => None end.

Definition message_limit (type : string) : nat :=
  if String.eqb type "slack" then Slack.SLACK_MAX_MESSAGE_LENGTH
  else if String.eqb type "discord" then Discord.DISCORD_MAX_MESSAGE_LENGTH
  else if String.eqb type "imessage" then IMessage.IMESSAGE_MAX_MESSAGE_LENGTH
  else Telegram.TELEGRAM_MAX_MESSAGE_LENGTH.

Lemma message_limit_pos type : (0 < message_limit type)%nat.
Proof.
  apply Nat.ltb_lt. unfold message_limit. destruct (String.eqb type "slack"); [reflexivity|].
  destruct (String.eqb type "discord"); [reflexivity|]. destruct (String.eqb type "imessage"); reflexivity.
Qed.

Section Says.
Context (type : string).
(** A program that puts one text into the chat, or throws before it does. *)
Definition says_one (t : string) (m : Prog unit) : Prop :=
  ∀ net n, omap (said type) (run net n m).1 = [t] ∨ omap (said type) (run net n m).1 = [] ∧ ∃ e, (run net n m).2 = Throw e.
Definition says_in_order (parts : list string) {A} (m : Prog A) : Prop :=
  ∀ net n, ∃ rest, parts = omap (said type) (run net n m).1 ++ rest ∧ ((∃ a, (run net n m).2 = Ret a) → rest = []).

Lemma says_each parts f : (∀ t, says_one t (f t)) → says_in_order parts (each parts f).
Proof.
  intros Hf. induction parts as [|t parts IH]; intros net n; cbn [each]; [by exists []|].
  rewrite run_bind. specialize (Hf t net n). destruct (run net n (f t)) as [trace [a|e]]; cbn [fst snd] in Hf.
  - destruct Hf as [Hf|[_ [e He]]]; [|done]. destruct (IH net (n + length trace)%nat) as (rest & Hr & Hd).
    destruct (run net _ (each parts f)) as [trace' out]. cbn [fst snd] in *. exists rest. split; [|done].
    rewrite omap_app, Hf. cbn. by rewrite Hr.
  - cbn [fst snd]. destruct Hf as [Hf|[Hf _]]; rewrite Hf; [exists parts|exists (t :: parts)]; (split; [done|by intros [? ?]]).
Qed.

Lemma says_fail parts {A} e : says_in_order parts (Fail (A := A) e).
Proof. intros net n. exists parts. split; [done|by intros [? ?]]. Qed.

Lemma says_bind_done parts {A B} (m : Prog A) (k : A → B) : says_in_order parts m → says_in_order parts (pbind m (λ a, Done (k a))).
Proof.
  intros Hm net n. destruct (Hm net n) as (rest & Hr & Hd). rewrite run_bind.
  destruct (run net n m) as [trace [a|e]]; cbn [fst snd run app] in *; [rewrite app_nil_r|]; exists rest; (split; [done|]); intros [? ?]; [apply Hd; by eexists|done].
Qed.

Lemma says_done parts m p : says_in_order parts m → done_ m = Some p → says_in_order parts p.
Proof. intros Hm [= <-]. apply (says_bind_done parts m (λ _, r_done) Hm). Qed.

Lemma says_ask t r (judge : Reply → outcome PlatformError value) v :
  rq_body r = bd_json v → said_in type v = Some t → says_one t (ask r judge ;; Done tt).
Proof.
  intros Hb Hs net n. left. assert (said type (r, net n r) = Some t) as E by (unfold said; cbn [fst]; by rewrite Hb).
  cbn [ask pbind run]. destruct (judge (net n r)); cbn [pbind run fst omap list_omap]; by rewrite E.
Qed.
End Says.

Section Arrives.
Context (web : string → bool) (host : string → option string) (search : list (string * string) → string) (encode : string → string) (uuid : string → string).

Lemma mac_says chat token t : says_one "imessage" t (IMessageApi.mac_post web search token "message/text"
  [("chatGuid", VString chat); ("tempGuid", VString (uuid t)); ("message", VString t); ("method", VString "apple-script")] ;; Done tt).
Proof.
  unfold IMessageApi.mac_post, IMessageApi.with_mac. destruct (IMessage.imessage_parts web token) as [[base password]|]; [by eapply says_ask|].
  intros net n. right. repeat case_match; cbn; (split; [done|by eexists]).
Qed.

Lemma send_says type token chat text p :
  perform web host search encode uuid type token (op_send chat text) = Some p → says_in_order type (split text (message_limit type)) p.
Proof.
  unfold perform. repeat (case_match; try done); cbn [telegram_perform slack_perform discord_perform whatsapp_perform imessage_perform]; apply says_done.
  all: try by apply says_each; intros t; eapply says_ask.
  all: try by apply says_each; intros t; apply mac_says.
  unfold WhatsAppApi.whatsapp_send_parts, WhatsAppApi.with_parts. destruct (WhatsApp.whatsapp_parts token) as [[]|]; [|apply says_fail].
  apply says_each. intros t. by eapply says_ask.
Qed.

(** *** What is posted where, and what counts as taken *)

(** The chat a request names in its body. *)
Definition chat_in (type : string) (body : value) : option string :=
  match type with
  | "telegram" => str_of body "chat_id"
  | "slack" => str_of body "channel"
  | "whatsapp" => str_of body "to"
  | "imessage" => str_of body "chatGuid"
  | _ => None
  end.
(** The request posts the text into the chat, with the connection's token. *)
Definition posts (type token chat part : string) (r : Request) : Prop :=
  rq_method r = "POST" ∧ ∃ v, rq_body r = bd_json v ∧ said_in type v = Some part ∧ (type ≠ "discord" → chat_in type v = Some chat) ∧
  match type with
  | "telegram" => rq_url r = "https://api.telegram.org/bot" +:+ token +:+ "/sendMessage"
  | "slack" => rq_url r = "https://slack.com/api/chat.postMessage" ∧ rq_auth r = Some ("Bearer " +:+ token)
  | "discord" => rq_url r = "https://discord.com/api/v10/channels/" +:+ chat +:+ "/messages" ∧ rq_auth r = Some ("Bot " +:+ token)
  | "whatsapp" => ∃ phoneId accessToken, WhatsApp.whatsapp_parts token = Some (phoneId, accessToken) ∧
      rq_url r = "https://graph.facebook.com/v22.0/" +:+ phoneId +:+ "/messages" ∧ rq_auth r = Some ("Bearer " +:+ accessToken)
  | "imessage" => ∃ base password, IMessage.imessage_parts web token = Some (base, password) ∧
      rq_url r = base +:+ "/api/v1/message/text?" +:+ search [("password", password)]
  | _ => False
  end.
(** The platform said it took the message. *)
Definition took (type : string) (reply : Reply) : Prop :=
  ∃ resp, reply = Ret resp ∧
  let body := default VUndefined (rs_json resp) in
  match type with
  | "telegram" | "slack" => is_true body "ok" = true
  | "discord" => is_ok resp = true
  | "whatsapp" => is_ok resp = true ∧ own body "error" = VUndefined
  | "imessage" => is_ok resp = true ∧ own body "data" ≠ VUndefined
  | _ => False
  end.

Lemma telegram_took reply v : TelegramApi.telegram_judge reply = Ret v → took "telegram" reply.
Proof.
  destruct reply as [r|e]; [|done]. unfold TelegramApi.telegram_judge, took, is_true. intros Hj. exists r. split; [done|]. cbv zeta in *.
  destruct (own (default VUndefined (rs_json r)) "ok") as [| |[]| | | |]; done.
Qed.
Lemma slack_took reply v : SlackApi.slack_judge reply = Ret v → took "slack" reply.
Proof. destruct reply as [r|e]; [|done]. unfold SlackApi.slack_judge, took. cbv zeta. intros Hj. exists r. split; [done|]. by destruct (is_true _ _). Qed.
Lemma discord_took reply v : DiscordApi.discord_judge reply = Ret v → took "discord" reply.
Proof. destruct reply as [r|e]; [|done]. unfold DiscordApi.discord_judge, took. cbv zeta. intros Hj. exists r. split; [done|]. by destruct (is_ok r). Qed.
Lemma whatsapp_took reply v : WhatsAppApi.whatsapp_judge reply = Ret v → took "whatsapp" reply.
Proof. destruct reply as [r|e]; [|done]. unfold WhatsAppApi.whatsapp_judge, took. cbv zeta. intros Hj. exists r. split; [done|]. destruct (is_ok r); [|done]. split; [done|]. by destruct (own _ _). Qed.
Lemma imessage_took reply v : IMessageApi.imessage_judge reply = Ret v → took "imessage" reply.
Proof. destruct reply as [r|e]; [|done]. unfold IMessageApi.imessage_judge, took. cbv zeta. intros Hj. exists r. split; [done|]. destruct (is_ok r); [|done]. split; [done|]. by destruct (own _ _). Qed.

(** A program that, when it returns, has made one request, of this kind and taken. *)
Definition lands {A} (Q : Request * Reply → Prop) (m : Prog A) : Prop :=
  ∀ net n a, (run net n m).2 = Ret a → ∃ x, (run net n m).1 = [x] ∧ Q x.
Lemma lands_ask {A B} (Q : Request * Reply → Prop) r (judge : Reply → outcome PlatformError A) (b : B) :
  (∀ reply v, judge reply = Ret v → Q (r, reply)) → lands Q (ask r judge ;; Done b).
Proof. intros Hq net n a. cbn [ask pbind run]. destruct (judge (net n r)) as [v|e] eqn:Hj; cbn [pbind run fst snd]; [|done]. intros _. eexists. split; [done|by eapply Hq]. Qed.
Lemma each_lands (Q : string → Request * Reply → Prop) parts f : (∀ t, lands (Q t) (f t)) →
  ∀ net n a, (run net n (each parts f)).2 = Ret a → Forall2 Q parts (run net n (each parts f)).1.
Proof.
  intros Hf net. induction parts as [|t parts IH]; intros n a; cbn [each]; [by constructor|]. rewrite run_bind.
  specialize (Hf t net n). destruct (run net n (f t)) as [trace [u|e]]; cbn [fst snd] in *; [|done].
  destruct (Hf u eq_refl) as (x & -> & Hx). specialize (IH (n + length [x])%nat). destruct (run net _ (each parts f)) as [trace' out]. cbn [fst snd app] in *.
  intros Ho. constructor; [done|by eapply IH].
Qed.

Lemma send_posts type token chat text p net n a :
  perform web host search encode uuid type token (op_send chat text) = Some p → (run net n p).2 = Ret a →
  Forall2 (λ part x, posts type token chat part x.1 ∧ took type x.2) (split text (message_limit type)) (run net n p).1.
Proof.
  intros Hp Ha.
  assert (∃ m : Prog unit, p = (let* _ := m in Done r_done) ∧
    ∀ u, (run net n m).2 = Ret u → Forall2 (λ part x, posts type token chat part x.1 ∧ took type x.2) (split text (message_limit type)) (run net n m).1) as (m & -> & Hm).
  2:{ rewrite run_bind in *. destruct (run net n m) as [trace [u|e]]; cbn [run fst snd] in *; [rewrite app_nil_r; by eapply Hm|done]. }
  clear Ha. unfold perform in Hp.
  repeat (case_match; try done); cbn [telegram_perform slack_perform discord_perform whatsapp_perform imessage_perform done_ giving] in Hp; injection Hp as <-;
    eexists; (split; [done|]); intros u Hu.
  all: match goal with
    | Hu : context [WhatsAppApi.whatsapp_send_parts] |- _ =>
        unfold WhatsAppApi.whatsapp_send_parts, WhatsAppApi.with_parts in *; destruct (WhatsApp.whatsapp_parts token) as [[ph at_]|] eqn:Ht; [|done]
    | _ => idtac
    end; (eapply each_lands; [|exact Hu]); intros t.
  all: try (apply lands_ask; intros reply v Hj;
    (split; [|first [by eapply telegram_took|by eapply slack_took|by eapply discord_took|by eapply whatsapp_took]]); (split; [done|]);
    eexists; split_and!; try done; by eexists _, _).
  unfold IMessageApi.mac_post, IMessageApi.with_mac. destruct (IMessage.imessage_parts web token) as [[base password]|] eqn:Ht; [|by repeat case_match].
  apply lands_ask. intros reply v Hj. split; [|by eapply imessage_took]. split; [done|]. eexists. split_and!; try done. by eexists _, _.
Qed.

(** Sending an answer puts its parts into the chat in order, none twice; when it
    returns, all of them are there, and glued together they are the answer; when
    it throws, a first part of them is. *)
Theorem answers_arrive_whole type token chat text p net :
  perform web host search encode uuid type token (op_send chat text) = Some p → text ≠ "" →
  ∃ rest, split text (message_limit type) = omap (said type) (run net 0 p).1 ++ rest ∧
    (∀ a, (run net 0 p).2 = Ret a → rest = [] ∧ glued (omap (said type) (run net 0 p).1) text).
Proof.
  intros Hp Hne. destruct (send_says _ _ _ _ _ Hp net 0%nat) as (rest & Hs & Hd). exists rest. split; [done|]. intros a Ha.
  assert (rest = []) as -> by (apply Hd; by exists a). split; [done|]. rewrite app_nil_r in Hs. rewrite <-Hs.
  apply split_glued; [apply message_limit_pos|done].
Qed.
End Arrives.

(** ** Histories *)

Definition as_form (fields : list (string * string)) : string := String.concat "&" (map (λ kv, kv.1 +:+ "=" +:+ kv.2) fields).
Definition host_named (url : string) : option string := match str_split "/" url with [_; _; h] | _ :: _ :: h :: _ => Some h | _ => None end.
Definition accepts (n : nat) (r : Request) : Reply :=
  Ret {| rs_status := 200; rs_json := Some (VObject [("ok", VBool true); ("result", VObject [("message_id", VNumber 5)])]); rs_text := ""; rs_type := None |}.
Definition breaks_at (k : nat) (n : nat) (r : Request) : Reply := if (n <? k)%nat then accepts n r else Throw "socket hang up".
Fixpoint times (n : nat) (s : string) : string := match n with O => "" | S m => s +:+ times m s end.

Definition a_clip : OutboundMedia := {| md_kind := "video"; md_url := "https://files.example/clip"; md_caption := None |}.
Definition uploads (n : nat) (r : Request) : Reply :=
  Ret {| rs_status := 200; rs_json := Some (VObject [("ok", VBool true); ("upload_url", VString "https://up.example/1"); ("file_id", VString "F1")]);
         rs_text := "abc"; rs_type := None |}.
Lemma tokens_go_home_witness :
  ∃ p, perform (λ _, true) host_named as_form id id "slack" "xoxb-1" (op_sendMedia "C1" a_clip) = Some p ∧
       map (λ r, (rq_url r, rq_auth r)) (run uploads 0 p).1.*1 =
         [("https://files.example/clip", None); ("https://slack.com/api/files.getUploadURLExternal", Some "Bearer xoxb-1");
          ("https://up.example/1", None); ("https://slack.com/api/files.completeUploadExternal", Some "Bearer xoxb-1")] ∧
       sends_after (goes_home (λ _, true) host_named "slack" "xoxb-1" (op_sendMedia "C1" a_clip)) [] p.
Proof.
  eexists. split; [reflexivity|]. split; [vm_compute; reflexivity|].
  apply (tokens_go_home (λ _, true) host_named as_form id id "slack" "xoxb-1"). reflexivity.
Defined.

Definition two_parts : string := times 2000 "a" +:+ times 10 "b".
Lemma answers_arrive_whole_witness :
  ∃ p, perform (λ _, true) host_named as_form id id "discord" "tok" (op_send "C1" two_parts) = Some p ∧
       omap (said "discord") (run accepts 0 p).1 = [times 2000 "a"; times 10 "b"] ∧
       omap (said "discord") (run (breaks_at 1) 0 p).1 = [times 2000 "a"; times 10 "b"] ∧
       glued (omap (said "discord") (run accepts 0 p).1) two_parts.
Proof.
  eexists. split; [reflexivity|]. split; [vm_compute; reflexivity|]. split; [vm_compute; reflexivity|].
  destruct (answers_arrive_whole (λ _, true) host_named as_form id id "discord" "tok" "C1" two_parts _ accepts eq_refl) as (rest & _ & Hd);
    [discriminate|]. apply (Hd r_done). vm_compute. reflexivity.
Defined.

(** A caption too long for Telegram is not sent: neither with the picture nor as
    a message of its own. *)
Example long_captions_are_dropped :
  let p := TelegramApi.telegram_sendMedia "tok" "7" {| md_kind := "image"; md_url := "https://h/p.png"; md_caption := Some (times 1025 "a") |} in
  map rq_body (run accepts 0 p).1.*1 = [bd_json (VObject [("chat_id", VString "7"); ("photo", VString "https://h/p.png")])].
Proof. vm_compute. reflexivity. Qed.
