(* ===== verification/Delivery.v ===== *)
(** * Answers back to the chat

    Models apps/web/src/lib/channel-delivery.ts and media-links.ts: which chat a
    finished run answers in, what it says there, how a draft becomes the answer,
    and what is recorded.  The network is as in Outbound; [resolve] is what the
    workspace's credentials hold and [ready] whether a picture or clip is. *)
From S2P Require Import Prelude Json JsonText Text Numbers Guard Entities Mongo RunQueue Conversations Channels ChatApprovals McpOAuth Adapters Outbound.

(** ** Links to pictures and clips *)

Record MediaLink := { ml_id : string; ml_kind : string; ml_url : string }.
Definition MEDIA_PATH : string := "/api/media/".
Definition link_char (c : Ascii.ascii) : bool := is_alnum c || Ascii.eqb c "_" || Ascii.eqb c "-".
(** One match of the pattern at the front of a text, and what follows it; the
    characters that end an id or a token belong to neither. *)
Definition link_at (origin s : string) : option (MediaLink * string) :=
  r1 ← eat (origin +:+ MEDIA_PATH) s;
  let '(id, r2) := span link_char r1 in
  if String.eqb id "" then None else
  r3 ← eat "?t=" r2;
  let '(token, r4) := span link_char r3 in
  if String.eqb token "" then None else
  r5 ← eat "&k=" r4;
  let found kind rest := Some ({| ml_id := id; ml_kind := kind;
    ml_url := origin +:+ MEDIA_PATH +:+ id +:+ "?t=" +:+ token +:+ "&k=" +:+ kind |}, rest) in
  match eat "image" r5, eat "video" r5 with
  | Some rest, _ => found "image" rest
  | None, Some rest => found "video" rest
  | None, None => None
  end.

(** [text.matchAll(pattern)]; a match is never empty, so the length is fuel enough. *)
Fixpoint links_from (fuel : nat) (origin s : string) : list MediaLink :=
  match fuel, s with
  | O, _ | _, EmptyString => []
  | S fuel', String _ r =>
      match link_at origin s with
      | Some (l, rest) => l :: links_from fuel' origin rest
      | None => links_from fuel' origin r
      end
  end.
Fixpoint once (seen : list string) (ls : list MediaLink) : list MediaLink :=
  match ls with
  | [] => []
  | l :: r => if bool_decide (ml_id l ∈ seen) then once seen r else l :: once (ml_id l :: seen) r
  end.
Definition mediaLinksIn (text base : string) : list MediaLink := once [] (links_from (String.length text) (drop_slash base) text).

(** ** What to say *)

Definition newline : string := String (Ascii.ascii_of_nat 10) "".
Definition RECENT_MESSAGES : nat := 10.

(** [raw.replace(/^\d{3}\s+/, '')]. *)
Definition drop_status (raw : string) : string :=
  match raw with
  | String a (String b (String c (String d r))) =>
      if is_digit a && is_digit b && is_digit c && is_space d then trim_start r else raw
  | _ => raw
  end.
Definition sentence (raw : string) : string :=
  let body := drop_status raw in
  match json_parse body with
  | None => body
  | Some v =>
      let inner := match str_of (own (own v "error") "error") "message", str_of (own v "error") "message" with
                   | Some m, _ => Some m
                   | None, Some m => Some m
                   | None, None => str_of v "message"
                   end in
      match inner with Some "" | None => body | Some m => m end
  end.

Definition assistant_text (runId : string) (m : Message) : list string :=
  if bool_decide (m_runId m = Some runId) && bool_decide (m_role m = RAssistant)
  then omap (λ b, match b with BText t => Some t | _ => None end) (m_content m) else [].

Definition answer_text (runId : string) (recent : list Message) : string := js_trim (String.concat newline (flat_map (assistant_text runId) recent)).
Definition answerOf (runId : string) (status : RunStatus) (failure : option string) (recent : list Message) : option string :=
  let text := answer_text runId recent in
  if negb (String.eqb text "") then Some text
  else match status with
       | succeeded => None
       | cancelled => Some "That was cancelled before it finished."
       | _ => match failure with
              | Some f => if String.eqb (js_trim f) "" then Some "Something went wrong on my end and I could not finish that. Try again?"
                          else Some ("I could not answer that: " +:+ sentence f)
              | None => Some "Something went wrong on my end and I could not finish that. Try again?"
              end
       end.

(** What did not fit in the draft's one message: Telegram's cut, whatever the platform. *)
Definition remainderBeyondFirst (text : string) : option string :=
  match TelegramApi.chunk text with
  | _ :: p :: ps => Some (String.concat newline (p :: ps))
  | _ => None
  end.

(** ** Delivering *)

Inductive Delivery := dl_sent | dl_skipped (reason : string).
Record ChannelTarget := { ct_run : RunDoc; ct_conversationId : string; ct_channelId : string; ct_row : ChannelDoc; ct_chatRef : string; ct_token : string }.

Definition status_text (s : ChannelStatus) : string :=
  match s with pending_verification => "pending_verification" | connected => "connected" | in_error => "error" | disabled => "disabled" end.
Definition run_status_text (s : RunStatus) : string :=
  match s with
  | queued => "queued" | running => "running" | waiting_approval => "waiting_approval" | waiting_input => "waiting_input" | waiting_tool => "waiting_tool"
  | succeeded => "succeeded" | failed => "failed" | cancelled => "cancelled" | expired => "expired"
  end.

Section Deliver.
Context {CR CV CM CC CP : Type} `{CollectionLaws RunDoc CR, CollectionLaws ConversationDoc CV, CollectionLaws Message CM,
  CollectionLaws ChannelDoc CC, CollectionLaws ChannelIdentityDoc CP}.
Context (web : string → bool) (host : string → option string) (search : list (string * string) → string) (encode : string → string) (uuid : string → string).
Context (base : string) (resolve : string → string → option string) (ready : string → bool).
Notation perform := (perform web host search encode uuid).

Definition channelTargetOf (runId : string) (runs : CR) (cv : CV) (channels : CC) (people : CP) : outcome string ChannelTarget :=
  match docs runs !! runId with
  | None => Throw "no such run"
  | Some r =>
      let ws := sp_workspaceId (run_spec r) in
      let conversationId := sp_conversationId (run_spec r) in
      match find_conversation conversationId cv ≫= λ d, (λ ch, (d, ch)) <$> cv_channelId d with
      | None => Throw "not a channel conversation"
      | Some (d, channelId) =>
          match findById ws channelId channels with
          | None => Throw "channel row missing"
          | Some row =>
              if negb (bool_decide (ch_status row = connected)) then Throw ("channel is " +:+ status_text (ch_status row))
              else match (match findIdentityByConversation conversationId people with Some (_, i) => Some (ci_chatRef i) | None => cv_externalRef d end) with
                   | None => Throw "no chat to send to"
                   | Some chatRef =>
                       if negb (bool_decide (ch_type row ∈ CHANNEL_IDS)) then Throw ("no adapter for " +:+ ch_type row)
                       else match resolve ws (ch_tokenCredentialId row) with
                            | None => Throw "bot token missing or revoked"
                            | Some token => Ret {| ct_run := r; ct_conversationId := conversationId; ct_channelId := channelId; ct_row := row;
                                                   ct_chatRef := chatRef; ct_token := token |}
                            end
                   end
          end
      end
  end.

(** [adapter.op(token, …)], nothing when the adapter does not have it. *)
Definition doing (t : ChannelTarget) (op : Op) : Prog unit :=
  match perform (ch_type (ct_row t)) (ct_token t) op with Some p => pbind p (λ _, Done tt) | None => Done tt end.
Definition can (t : ChannelTarget) (op : Op) : bool := match perform (ch_type (ct_row t)) (ct_token t) op with Some _ => true | None => false end.

Definition sendMediaIn (t : ChannelTarget) (text : string) : Prog unit :=
  each (List.filter (λ l, ready (ml_id l)) (mediaLinksIn text base)) (λ l,
    pcatch (doing t (op_sendMedia (ct_chatRef t) {| md_kind := ml_kind l; md_url := ml_url l; md_caption := None |})) (λ _, Done tt)).

(** The words: over the draft when there is one to rewrite. *)
Definition send_words (t : ChannelTarget) (draft : option string) (text : string) : Prog unit :=
  match draft with
  | Some ref =>
      if can t (op_editDraft (ct_chatRef t) ref text) then
        doing t (op_editDraft (ct_chatRef t) ref text) ;;
        match remainderBeyondFirst text with Some rest => doing t (op_send (ct_chatRef t) rest) | None => Done tt end
      else doing t (op_send (ct_chatRef t) text)
  | None => doing t (op_send (ct_chatRef t) text)
  end.

(** [deliver]: the result, the requests, the connections after it. *)
Definition deliver (net : nat → Request → Reply) (runId : string) (draft : option string) (now : Z) (runs : CR) (db : @ConversationDb CV CM) (people : CP)
    (channels : CC) : Delivery * list (Request * Reply) * CC :=
  match channelTargetOf runId runs (cd_conversations db) channels people with
  | Throw reason => (dl_skipped reason, [], channels)
  | Ret t =>
      let recent := recent_messages (ct_conversationId t) RECENT_MESSAGES (cd_messages db) in
      match answerOf runId (run_status (ct_run t)) (e_message <$> run_error (ct_run t)) recent with
      | None => (dl_skipped ("nothing to say (run " +:+ run_status_text (run_status (ct_run t)) +:+ ", no assistant text for this run)"), [], channels)
      | Some text =>
          let ws := sp_workspaceId (run_spec (ct_run t)) in
          match run net 0 (send_words t draft text ;; sendMediaIn t text) with
          | (trace, Ret _) => (dl_sent, trace, recordDelivery ws (ct_channelId t) now channels)
          | (trace, Throw e) => (dl_skipped ("send failed: " +:+ message_of_error e), trace, recordFailure ws (ct_channelId t) (message_of_error e) now channels)
          end
      end
  end.

(** ** What is said *)

Lemma sentence_prefix s : "I could not answer that: " +:+ s ≠ "".
Proof. done. Qed.

Lemma answer_nonempty runId status failure recent text : answerOf runId status failure recent = Some text → text ≠ "".
Proof.
  unfold answerOf. destruct (String.eqb_spec (answer_text runId recent) "") as [|Hne]; cbn [negb]; [|by intros [= <-]].
  destruct status; try (intros [= <-]; discriminate); try discriminate; destruct failure as [f|]; try (intros [= <-]; discriminate);
    destruct (String.eqb (js_trim f) ""); intros [= <-]; apply sentence_prefix || discriminate.
Qed.

(** A run is left without a word only when it succeeded and wrote none; what is
    said is never empty, and is the assistant's own text whenever there is one. *)
Theorem silence_means_success runId status failure recent :
  match answerOf runId status failure recent with
  | None => status = succeeded ∧ answer_text runId recent = ""
  | Some text => text ≠ "" ∧ (answer_text runId recent ≠ "" → text = answer_text runId recent)
  end.
Proof.
  pose proof (answer_nonempty runId status failure recent) as Hne. destruct (answerOf runId status failure recent) as [text|] eqn:E; unfold answerOf in E.
  - split; [by apply Hne|]. intros Hx. apply String.eqb_neq in Hx. rewrite Hx in E. by injection E.
  - destruct (String.eqb_spec (answer_text runId recent) ""); [|done]. cbn in E. destruct status; try done; by repeat case_match.
Qed.

Lemma known_sends t chat text : bool_decide (ch_type (ct_row t) ∈ CHANNEL_IDS) = true → perform (ch_type (ct_row t)) (ct_token t) (op_send chat text) ≠ None.
Proof.
  intros Ht Hp. apply bool_decide_eq_true in Ht. unfold CHANNEL_IDS in Ht. revert Hp. generalize (ct_token t). intros token.
  repeat (apply elem_of_cons in Ht as [->|Ht]; [done|]). by apply not_elem_of_nil in Ht.
Qed.
Lemma doing_send_says t text : bool_decide (ch_type (ct_row t) ∈ CHANNEL_IDS) = true →
  says_in_order (ch_type (ct_row t)) (split text (message_limit (ch_type (ct_row t)))) (doing t (op_send (ct_chatRef t) text)).
Proof.
  intros Ht. unfold doing. destruct (perform _ _ _) as [p|] eqn:Hp.
  - apply (says_bind_done _ _ p (λ _, ())). by eapply send_says.
  - exfalso. by eapply known_sends.
Qed.

Lemma target_known runId runs cv channels people t :
  channelTargetOf runId runs cv channels people = Ret t → bool_decide (ch_type (ct_row t) ∈ CHANNEL_IDS) = true ∧ ch_status (ct_row t) = connected.
Proof.
  unfold channelTargetOf. intros Ht. repeat (case_match; try done). all: injection Ht as <-; cbn.
  all: repeat match goal with H : negb _ = false |- _ => apply negb_false_iff in H end. all: split; [done|by eapply bool_decide_eq_true_1].
Qed.

Lemma deliver_sent net runId draft now runs db people channels trace channels' :
  deliver net runId draft now runs db people channels = (dl_sent, trace, channels') →
  ∃ t text, channelTargetOf runId runs (cd_conversations db) channels people = Ret t ∧
    answerOf runId (run_status (ct_run t)) (e_message <$> run_error (ct_run t)) (recent_messages (ct_conversationId t) RECENT_MESSAGES (cd_messages db)) = Some text ∧
    run net 0 (send_words t draft text ;; sendMediaIn t text) = (trace, Ret tt) ∧
    channels' = recordDelivery (sp_workspaceId (run_spec (ct_run t))) (ct_channelId t) now channels.
Proof.
  unfold deliver. destruct (channelTargetOf _ _ _ _ _) as [t|] eqn:Ht; [|done]. destruct (answerOf _ _ _ _) as [text|] eqn:Ha; [|done].
  destruct (run net 0 _) as [trace' [[]|e]] eqn:Hrun; [|done]. intros [= <- <-]. exists t, text. by split_and!.
Qed.

(** Where a run's answer goes: to the chat of the person of its conversation, or else the
    one the conversation was started from, on the conversation's connection, which is
    connected and whose token is on file. *)
Definition answers_in (runId : string) (runs : CR) (cv : CV) (channels : CC) (people : CP) (t : ChannelTarget) : Prop :=
  docs runs !! runId = Some (ct_run t) ∧ ct_conversationId t = sp_conversationId (run_spec (ct_run t)) ∧
  (∃ d, find_conversation (ct_conversationId t) cv = Some d ∧ cv_channelId d = Some (ct_channelId t) ∧
     Some (ct_chatRef t) = match findIdentityByConversation (ct_conversationId t) people with Some (_, i) => Some (ci_chatRef i) | None => cv_externalRef d end) ∧
  findById (sp_workspaceId (run_spec (ct_run t))) (ct_channelId t) channels = Some (ct_row t) ∧ ch_status (ct_row t) = connected ∧
  resolve (sp_workspaceId (run_spec (ct_run t))) (ch_tokenCredentialId (ct_row t)) = Some (ct_token t).

Lemma target_answers runId runs cv channels people t :
  channelTargetOf runId runs cv channels people = Ret t → answers_in runId runs cv channels people t.
Proof.
  unfold channelTargetOf. destruct (docs runs !! runId) as [r|] eqn:Hr; [|done].
  destruct (find_conversation _ cv ≫= _) as [[d ch]|] eqn:Hc; [|done]. apply bind_Some in Hc as (d0 & Hd0 & Hc). apply fmap_Some in Hc as (ch0 & Hch & [= -> ->]).
  destruct (findById _ _ _) as [row|] eqn:Hrow; [|done]. destruct (negb (bool_decide (ch_status row = connected))) eqn:Hst; [done|].
  apply negb_false_iff, bool_decide_eq_true in Hst. destruct (match findIdentityByConversation _ people with Some _ => _ | None => _ end) as [chat|] eqn:Hchat; [|done].
  destruct (negb _); [done|]. destruct (resolve _ _) as [token|] eqn:Htok; [|done]. intros [= <-]. unfold answers_in. cbn. split_and!; try done.
  exists d0. by split_and!.
Qed.

(** C17.  An answer that is reported as sent, and replaces no draft, is in the chat of
    the run's conversation in full.  The requests before the pictures are the parts of the
    answer, in order and nothing else: each is the platform's call to post, made with the
    connection's token, naming that chat and holding that part, and the platform took it.
    Put together they are the answer, but for line breaks at the cuts, and the delivery is
    recorded on the connection.  (Pictures and clips that fail are passed over.) *)
Theorem sent_answers_are_whole net runId now runs db people channels trace channels' :
  deliver net runId None now runs db people channels = (dl_sent, trace, channels') →
  ∃ t text parts words media, answers_in runId runs (cd_conversations db) channels people t ∧ trace = words ++ media ∧
    answerOf runId (run_status (ct_run t)) (e_message <$> run_error (ct_run t)) (recent_messages (ct_conversationId t) RECENT_MESSAGES (cd_messages db)) = Some text ∧
    glued parts text ∧
    Forall2 (λ part x, posts web search (ch_type (ct_row t)) (ct_token t) (ct_chatRef t) part x.1 ∧ took (ch_type (ct_row t)) x.2) parts words ∧
    channels' = recordDelivery (sp_workspaceId (run_spec (ct_run t))) (ct_channelId t) now channels.
Proof.
  intros (t & text & Ht & Htext & Hrun & Hch)%deliver_sent. destruct (target_known _ _ _ _ _ _ Ht) as [Hknown _].
  rewrite run_bind in Hrun. cbn [send_words] in Hrun.
  assert (∀ out, (run net 0 (doing t (op_send (ct_chatRef t) text))).2 = Ret out →
    Forall2 (λ part x, posts web search (ch_type (ct_row t)) (ct_token t) (ct_chatRef t) part x.1 ∧ took (ch_type (ct_row t)) x.2)
      (split text (message_limit (ch_type (ct_row t)))) (run net 0 (doing t (op_send (ct_chatRef t) text))).1) as Hposts.
  { intros out. unfold doing. destruct (perform _ _ _) as [p|] eqn:Hp; [|intros; exfalso; by eapply known_sends].
    rewrite run_bind. pose proof (λ a, send_posts web host search encode uuid _ _ _ _ p net 0%nat a Hp) as Hs.
    destruct (run net 0 p) as [tr [a|e]]; cbn [run fst snd] in *; [|done]. intros _. rewrite app_nil_r. by apply (Hs a). }
  destruct (run net 0 (doing t _)) as [words [[]|e]]; [|done]. destruct (run net _ (sendMediaIn t text)) as [media out].
  injection Hrun as <- _. cbn [fst snd] in Hposts. exists t, text, (split text (message_limit (ch_type (ct_row t)))), words, media.
  split_and!; try done; [by apply target_answers|apply split_glued; [apply message_limit_pos|by eapply answer_nonempty]|by eapply Hposts].
Qed.
End Deliver.

(** ** Drafts *)

(** A text without its line breaks. *)
Fixpoint squeeze (s : string) : string := match s with EmptyString => "" | String c r => if is_newline c then squeeze r else String c (squeeze r) end.

Lemma squeeze_app a b : squeeze (a +:+ b) = squeeze a +:+ squeeze b.
Proof. induction a as [|c a IH]; cbn; [done|]. destruct (is_newline c); cbn; by rewrite IH. Qed.

Lemma concat_cons p ps : String.concat "" (p :: ps) = p +:+ String.concat "" ps.
Proof. destruct ps as [|q qs]; cbn; [by rewrite str_app_nil_r|done]. Qed.

Lemma squeeze_glued ps t : glued ps t → squeeze (String.concat "" ps) = squeeze t.
Proof.
  induction 1 as [|p ps t _ IH|p ps t _ IH]; [done| |]; rewrite concat_cons, !squeeze_app, IH; done.
Qed.

Lemma squeeze_join ps : squeeze (String.concat newline ps) = squeeze (String.concat "" ps).
Proof.
  induction ps as [|p [|q qs] IH]; [done|done|]. change (String.concat newline (p :: q :: qs)) with (p +:+ newline +:+ String.concat newline (q :: qs)).
  change (String.concat "" (p :: q :: qs)) with (p +:+ "" +:+ String.concat "" (q :: qs)). rewrite !squeeze_app, IH. done.
Qed.

Lemma telegram_edit_says token chat ref text net n :
  omap (said "telegram") (run net n (TelegramApi.telegram_editDraft token chat ref text)).1 = [TelegramApi.first_chunk text].
Proof.
  unfold TelegramApi.telegram_editDraft, TelegramApi.unless_unmodified, TelegramApi.telegram_call, ask. cbn [pbind pcatch run].
  destruct (TelegramApi.telegram_judge _) as [v|[c m st|m]]; cbn [pbind pcatch run]; [|destruct (str_includes _ _)|]; reflexivity.
Qed.

(** What the draft shows and what follows it are the answer, but for line breaks. *)
Lemma remainder_spec text : text ≠ "" →
  squeeze (TelegramApi.first_chunk text +:+ default "" (remainderBeyondFirst text)) = squeeze text ∧ remainderBeyondFirst text ≠ Some "".
Proof.
  intros Hne. destruct (text_split_spec text Telegram.TELEGRAM_MAX_MESSAGE_LENGTH (message_limit_pos "telegram") Hne) as [Hfit Hglue].
  apply squeeze_glued in Hglue. unfold remainderBeyondFirst, TelegramApi.first_chunk, TelegramApi.chunk.
  destruct (split text Telegram.TELEGRAM_MAX_MESSAGE_LENGTH) as [|p [|q qs]]; cbn [default head] in *.
  - split; [|done]. by rewrite str_app_nil_r.
  - split; [|done]. by rewrite str_app_nil_r.
  - split.
    + cbn [from_option id]. rewrite squeeze_app, squeeze_join, <-squeeze_app. exact Hglue.
    + apply Forall_inv_tail, Forall_inv in Hfit. destruct q as [|c q]; [unfold fits in Hfit; cbn in Hfit; lia|]. by destruct qs.
Qed.

Section Drafts.
Context {CR CV CM CC CP : Type} `{CollectionLaws RunDoc CR, CollectionLaws ConversationDoc CV, CollectionLaws Message CM,
  CollectionLaws ChannelDoc CC, CollectionLaws ChannelIdentityDoc CP}.
Context (web : string → bool) (host : string → option string) (search : list (string * string) → string) (encode : string → string) (uuid : string → string).
Context (base : string) (resolve : string → string → option string) (ready : string → bool).
Notation doing := (doing web host search encode uuid).

Lemma doing_edit_says t ref text net n : ch_type (ct_row t) = "telegram" →
  omap (said "telegram") (run net n (doing t (op_editDraft (ct_chatRef t) ref text))).1 = [TelegramApi.first_chunk text].
Proof.
  intros Ht. unfold Delivery.doing. rewrite Ht. cbn [perform telegram_perform done_ giving]. rewrite !run_bind.
  pose proof (telegram_edit_says (ct_token t) (ct_chatRef t) ref text net n) as Hs.
  destruct (run net n (TelegramApi.telegram_editDraft _ _ _ _)) as [trace [[]|e]]; cbn [run fst snd app] in *; rewrite ?app_nil_r; done.
Qed.

(** On Telegram an answer that is reported as sent over a draft keeps every word:
    what the draft is rewritten to and what follows it differ from the answer
    in line breaks alone. *)
Theorem drafts_keep_every_word net runId ref now runs db people channels trace channels' :
  deliver web host search encode uuid base resolve ready net runId (Some ref) now runs db people channels = (dl_sent, trace, channels') →
  ∃ t text words media, channelTargetOf resolve runId runs (cd_conversations db) channels people = Ret t ∧ trace = words ++ media ∧
    answerOf runId (run_status (ct_run t)) (e_message <$> run_error (ct_run t)) (recent_messages (ct_conversationId t) RECENT_MESSAGES (cd_messages db)) = Some text ∧
    (ch_type (ct_row t) = "telegram" → squeeze (String.concat "" (omap (said "telegram") words)) = squeeze text).
Proof.
  intros (t & text & Ht & Htext & Hrun & _)%deliver_sent. destruct (target_known _ _ _ _ _ _ _ Ht) as [Hknown _].
  rewrite run_bind in Hrun. destruct (run net 0 (send_words _ _ _ _ _ t (Some ref) text)) as [words [[]|e]] eqn:Hw; [|done].
  destruct (run net _ (sendMediaIn _ _ _ _ _ _ _ t text)) as [media out]. injection Hrun as <- _.
  exists t, text, words, media. split_and!; try done. intros Htg. pose proof (answer_nonempty _ _ _ _ _ Htext) as Hne.
  assert (can web host search encode uuid t (op_editDraft (ct_chatRef t) ref text) = true) as Hcan by (unfold can; by rewrite Htg).
  unfold send_words in Hw. rewrite Hcan, run_bind in Hw. pose proof (doing_edit_says t ref text net 0 Htg) as Hedit.
  destruct (run net 0 (doing t (op_editDraft _ _ _))) as [w1 [[]|e]]; [|done]. cbn [fst] in Hedit.
  destruct (remainder_spec text Hne) as [Hsq Hrest]. destruct (remainderBeyondFirst text) as [rest|]; cbn [from_option id] in Hsq.
  - pose proof (doing_send_says web host search encode uuid t rest Hknown net (0 + length w1)%nat) as (left & Hs & Hd).
    destruct (run net (0 + length w1)%nat (doing t (op_send _ rest))) as [w2 o2]. injection Hw as <- ->. cbn [fst snd] in Hs, Hd.
    rewrite (Hd ltac:(by eexists)), app_nil_r, Htg in Hs. rewrite omap_app, Hedit, <-Hs, <-Hsq, !squeeze_app. cbn [app].
    rewrite concat_cons, squeeze_app, (squeeze_glued _ rest); [done|]. apply split_glued; [apply message_limit_pos|congruence].
  - cbn [run] in Hw. injection Hw as <-. rewrite app_nil_r, Hedit. rewrite str_app_nil_r in Hsq. exact Hsq.
Qed.
End Drafts.

(** ** Histories *)

Definition finished_run : RunDoc := set_status succeeded (new_run "run_1" {|
  sp_workspaceId := "wks_1"; sp_conversationId := "cnv_1"; sp_agentId := "agt_1"; sp_agentVersionId := "ver_1"; sp_agentSnapshot := sp_agentSnapshot sample_spec;
  sp_modelBindingId := "bnd_1"; sp_trigger := sp_trigger sample_spec; sp_principal := sp_principal sample_spec; sp_budget := sp_budget sample_spec;
  sp_parentRunId := None; sp_depth := 0; sp_idempotencyKey := None; sp_queuedAt := 0 |} None 0).
Definition chat_conversation : ConversationDoc := new_conversation {|
  nc_agentId := "agt_1"; nc_modelBindingId := "bnd_1"; nc_title := None; nc_channelId := Some "chn_1"; nc_externalRef := Some "7"; nc_createdBy := None |} 0.
Definition answer_message (text : string) : Message := {|
  m_id := "msg_2"; m_conversationId := "cnv_1"; m_seq := 2; m_role := RAssistant; m_content := [BText text]; m_providerArtifacts := None;
  m_runId := Some "run_1"; m_tokenEstimate := None; m_createdAt := 1; m_supersededBy := None |}.
Definition channel_of (type : string) : ChannelDoc := {|
  ch_workspaceId := "wks_1"; ch_type := type; ch_agentId := "agt_1"; ch_modelBindingId := None; ch_tokenCredentialId := "crd_1";
  ch_secretCredentialId := None; ch_status := connected; ch_identity := a_bot; ch_connect := None; ch_verifiedChatRef := Some "7";
  ch_install := None; ch_webhookUrl := None; ch_webhookSpec := None;
  ch_health := {| ch_lastOkAt := None; ch_lastDeliveryAt := None; ch_consecutiveFailures := 0; ch_lastError := None |};
  ch_createdBy := "usr_1"; ch_createdAt := 0; ch_updatedAt := 0 |}.
Definition deliver_to (type : string) (draft : option string) (text : string)
    : Delivery * list (Request * Reply) * gmap string ChannelDoc :=
  deliver (λ _, true) host_named as_form id id "https://h.example/" (λ _ _, Some "tok") (λ _, true) accepts "run_1" draft 9
    ({["run_1" := finished_run]} : gmap string RunDoc)
    {| cd_conversations := ({["cnv_1" := chat_conversation]} : gmap string ConversationDoc); cd_messages := ({["msg_2" := answer_message text]} : gmap string Message) |}
    (∅ : gmap string ChannelIdentityDoc) {["chn_1" := channel_of type]}.
Definition words_said (type : string) (r : Delivery * list (Request * Reply) * gmap string ChannelDoc) : list string := omap (said type) r.1.2.
Definition long_answer : string := times 1000 "abc".

Lemma sent_answers_are_whole_witness :
  words_said "discord" (deliver_to "discord" None long_answer) = [str_take 2000 long_answer; str_drop 2000 long_answer] ∧
  ∃ t text parts words media, (deliver_to "discord" None long_answer).1.2 = words ++ media ∧ text ≠ "" ∧ glued parts text ∧
    Forall2 (λ part x, posts (λ _, true) as_form (ch_type (ct_row t)) (ct_token t) (ct_chatRef t) part x.1 ∧ took (ch_type (ct_row t)) x.2) parts words.
Proof.
  split; [vm_compute; reflexivity|]. destruct (deliver_to "discord" None long_answer) as [[res trace] c'] eqn:E.
  assert (res = dl_sent) as -> by (transitivity (deliver_to "discord" None long_answer).1.1; [by rewrite E|vm_compute; reflexivity]).
  destruct (sent_answers_are_whole (λ _, true) host_named as_form id id "https://h.example/" (λ _ _, Some "tok") (λ _, true) accepts "run_1" 9 _ _ _ _ _ _ E)
    as (t & text & parts & words & media & _ & Htrace & Ha & Hg & Hp & _).
  exists t, text, parts, words, media. split; [done|]. split; [by eapply answer_nonempty|exact (conj Hg Hp)].
Defined.

Lemma drafts_keep_every_word_witness :
  words_said "telegram" (deliver_to "telegram" (Some "5") (times 5000 "a")) = [times 4096 "a"; times 904 "a"] ∧
  ∃ text words media, (deliver_to "telegram" (Some "5") (times 5000 "a")).1.2 = words ++ media ∧ text ≠ "".
Proof.
  split; [vm_compute; reflexivity|]. destruct (deliver_to "telegram" (Some "5") (times 5000 "a")) as [[res trace] c'] eqn:E.
  assert (res = dl_sent) as -> by (transitivity (deliver_to "telegram" (Some "5") (times 5000 "a")).1.1; [by rewrite E|vm_compute; reflexivity]).
  destruct (drafts_keep_every_word (λ _, true) host_named as_form id id "https://h.example/" (λ _ _, Some "tok") (λ _, true) accepts "run_1" "5" 9 _ _ _ _ _ _ E)
    as (t & text & words & media & _ & Htrace & Ha & Hg).
  exists text, words, media. split; [done|]. by eapply answer_nonempty.
Defined.

(** On Discord the draft holds two thousand characters and what follows it starts
    where Telegram's four thousand would end: an answer of three thousand loses
    its last thousand, and is reported as sent. *)
Example discord_drafts_lose_the_end :
  (deliver_to "discord" (Some "5") long_answer).1.1 = dl_sent ∧
  words_said "discord" (deliver_to "discord" (Some "5") long_answer) = [str_take 2000 long_answer].
Proof. split; vm_compute; reflexivity. Qed.

Example links_are_found_once :
  mediaLinksIn "see https://h.example/api/media/m1?t=abc&k=image and https://h.example/api/media/m1?t=abc&k=image" "https://h.example/" =
    [{| ml_id := "m1"; ml_kind := "image"; ml_url := "https://h.example/api/media/m1?t=abc&k=image" |}].
Proof. vm_compute. reflexivity. Qed.
