(* ===== verification/Sending.v ===== *)
(** * Saying something to a conversation

    Models apps/web/src/lib/send-message.ts, agent-snapshot.ts, the conversation's
    messages route, and [create] and [listForConversation] of
    packages/db/src/repositories/runs.ts: the model a turn runs on, the waiting
    run the message overtakes, the message, and the run it starts.  The verdict
    of the spending gate, the agents and the model bindings of the workspace are
    arguments; waking an executor is an effect that cannot fail the request. *)
From S2P Require Import Prelude Json JsonText Text Numbers Entities Model Principal Budget Mongo RunQueue Approvals Resolver Access Billing Conversations ChatApprovals Inbound.

(** ** What an agent may reach *)

Definition attach_all (bindingId : string) : AgentCapabilityBinding := {| acb_bindingId := bindingId; acb_mode := bm_all; acb_tools := [] |}.
Definition with_bindings (bindings : list AgentCapabilityBinding) (v : AgentSnapshot) : AgentSnapshot := {|
  as_systemPrompt := as_systemPrompt v; as_modelRole := as_modelRole v; as_capabilityBindings := bindings;
  as_maxToolCallsPerTurn := as_maxToolCallsPerTurn v |}.
(** [agentSnapshotFor], for the first-party servers of the workspace and what is
    enabled for the agent. *)
Definition agentSnapshotFor (firstParty enabled : list string) (version : AgentSnapshot) : AgentSnapshot :=
  match as_capabilityBindings version with
  | [] => with_bindings (map attach_all enabled) version
  | narrowed =>
      match List.filter (λ id, negb (bool_decide (id ∈ map acb_bindingId narrowed))) firstParty with
      | [] => version
      | missing => with_bindings (narrowed ++ map attach_all missing) version
      end
  end.

(** ** Runs of a conversation *)

Definition queued_later (a b : RunDoc) : bool := sp_queuedAt (run_spec b) <=? sp_queuedAt (run_spec a).
#[export] Instance queued_later_order : SortOrder queued_later.
Proof. split; unfold queued_later; intros; bool_prop; apply Z.leb_le; lia. Qed.

Record SendInput := { sn_content : string; sn_modelBindingId : option string; sn_budget : option RequestedBudget; sn_idempotencyKey : option string }.
Record SendOutcome := { so_runId : string; so_status : RunStatus; so_modelBindingId : string }.
Inductive SendError :=
| sd_no_conversation | sd_no_agent | sd_no_binding | sd_no_model | sd_payment_required | sd_budget_exhausted | sd_append (e : AppendError) | sd_duplicate.

(** What the request finds around the database: the caller, the clock, fresh
    identifiers, the workspace's agents, bindings and gate. *)
Record SendEnv := {
  sx_principal : Principal; sx_now : Z; sx_messageId : string; sx_runId : string; sx_agents : string → option AgentRow;
  sx_bindings : list ModelBindingDoc; sx_gate : Gate; sx_firstParty : list string; sx_enabled : string → list string }.

Section Sending.
Context {CV CM CR CA : Type} `{CollectionLaws ConversationDoc CV, CollectionLaws Message CM, CollectionLaws RunDoc CR, CollectionLaws ApprovalDoc CA}.
Context (sha256 : string → string) (workspaceId : string).

Record SendDb := { sb_conversations : @ConversationDb CV CM; sb_runs : CR; sb_approvals : CA }.
Implicit Types db : SendDb.

Definition on_log (c : @ConversationDb CV CM) db : SendDb := {| sb_conversations := c; sb_runs := sb_runs db; sb_approvals := sb_approvals db |}.
Definition on_runs_of (c : CR) db : SendDb := {| sb_conversations := sb_conversations db; sb_runs := c; sb_approvals := sb_approvals db |}.

(** *** RunRepository *)
Definition in_workspace (d : RunDoc) : bool := String.eqb (sp_workspaceId (run_spec d)) workspaceId.
Definition listForConversation (conversationId : string) (limit : nat) (c : CR) : list (string * RunDoc) :=
  find_docs (λ d, String.eqb (sp_conversationId (run_spec d)) conversationId && in_workspace d) queued_later limit c.
Definition has_key (key : string) (d : RunDoc) : bool := in_workspace d && bool_decide (sp_idempotencyKey (run_spec d) = Some key).
Definition by_key (key : option string) (c : CR) : option (string * RunDoc) := k ← key; find_one (has_key k) c.
(** [create]: the run of the same key when there is one, before or after the insert. *)
Definition create_run (newId : string) (spec : RunSpec) (now : Z) (c : CR) : outcome SendError (string * RunDoc) * CR :=
  match by_key (sp_idempotencyKey spec) c with
  | Some existing => (Ret existing, c)
  | None =>
      match insertOne idempotency_clash newId (new_run newId spec None now) c with
      | (true, c') => (Ret (newId, new_run newId spec None now), c')
      | (false, c') => (match by_key (sp_idempotencyKey spec) c' with Some existing => Ret existing | None => Throw sd_duplicate end, c')
      end
  end.

(** *** The model of the turn *)
Definition usable (bindings : list ModelBindingDoc) (id : option string) : option string :=
  match id ≫= λ i, find_binding i bindings with
  | Some b => if mb_enabled b then Some (mb_id b) else None
  | None => None
  end.
Definition winner (bindings : list ModelBindingDoc) (requested : option string) (agent : AgentRow) (pinned : string) : option string :=
  match usable bindings requested with
  | Some id => Some id
  | None =>
      match usable bindings (ag_modelBindingId agent) with
      | Some id => Some id
      | None =>
          match usable bindings (Some pinned) with
          | Some id => Some id
          | None => mb_id <$> forRole (ag_modelRole agent) bindings
          end
      end
  end.
Definition set_binding (conversationId bindingId : string) (now : Z) db : SendDb :=
  on_log {| cd_conversations := setModelBinding conversationId bindingId now (cd_conversations (sb_conversations db));
            cd_messages := cd_messages (sb_conversations db) |} db.
Definition usableModel (e : SendEnv) (conversationId : string) (requested : option string) (pinned : string) (agent : AgentRow) db
    : outcome SendError string * SendDb :=
  match winner (sx_bindings e) requested agent pinned with
  | None => (Throw sd_no_model, db)
  | Some w => (Ret w, if String.eqb w pinned then db else set_binding conversationId w (sx_now e) db)
  end.

(** *** The run it overtakes *)
Definition supersedeWaitingRun (e : SendEnv) (conversationId : string) db : SendDb :=
  match head (listForConversation conversationId 1 (sb_runs db)) with
  | Some (runId, latest) =>
      if is_waiting (Some (run_status latest)) then
        let approvals := match pendingApprovalForRun runId (sb_approvals db) with
                         | Some (id, _) => (decideApproval (sx_now e) id deny_it (actorIdOf (sx_principal e)) None (sb_approvals db)).2
                         | None => sb_approvals db
                         end in
        {| sb_conversations := sb_conversations db; sb_runs := (cancel workspaceId (sx_now e) runId (sb_runs db)).2; sb_approvals := approvals |}
      else db
  | None => db
  end.

(** *** The message and its run *)
Definition typed (conversationId : string) (input : SendInput) : AppendInput := {|
  ai_conversationId := conversationId; ai_role := RUser; ai_content := [BText (sn_content input)]; ai_providerArtifacts := None;
  ai_runId := None; ai_tokenEstimate := None; ai_clientMessageId := sn_idempotencyKey input |}.
Definition spec_of (e : SendEnv) (conversationId : string) (conversation : ConversationDoc) (agent : AgentRow) (bindingId : string) (input : SendInput) : RunSpec := {|
  sp_workspaceId := workspaceId; sp_conversationId := conversationId; sp_agentId := cv_agentId conversation; sp_agentVersionId := ag_versionId agent;
  sp_agentSnapshot := agentSnapshotFor (sx_firstParty e) (sx_enabled e (cv_agentId conversation)) (ag_snapshot agent); sp_modelBindingId := bindingId;
  sp_trigger := (tr_user, Some (actorIdOf (sx_principal e))); sp_principal := sx_principal e; sp_budget := clampBudget (sn_budget input) DEFAULT_BUDGET;
  sp_parentRunId := None; sp_depth := 0; sp_idempotencyKey := sn_idempotencyKey input; sp_queuedAt := sx_now e |}.

(** A model named in the request is looked up and set before anything else. *)
Definition switch_model (e : SendEnv) (conversationId : string) (conversation : ConversationDoc) (input : SendInput) db : outcome SendError SendDb :=
  match sn_modelBindingId input with
  | Some id =>
      if String.eqb id (cv_modelBindingId conversation) then Ret db
      else match find_binding id (sx_bindings e) with
           | None => Throw sd_no_binding
           | Some _ => Ret (set_binding conversationId id (sx_now e) db)
           end
  | None => Ret db
  end.

Definition refusal_of (g : Gate) : option SendError :=
  match g with g_open => None | g_closed _ true => Some sd_payment_required | g_closed _ false => Some sd_budget_exhausted end.

(** The part of [sendUserMessage] after the gate; the wake-up is the run's id. *)
Definition say_it (e : SendEnv) (conversationId : string) (conversation : ConversationDoc) (agent : AgentRow) (bindingId : string) (input : SendInput) db
    : outcome SendError SendOutcome * list string * SendDb :=
  let db1 := supersedeWaitingRun e conversationId db in
  match append_message sha256 (sx_messageId e) (typed conversationId input) (sx_now e) (sb_conversations db1) with
  | (Throw err, log) => (Throw (sd_append err), [], on_log log db1)
  | (Ret _, log) =>
      let db2 := on_log log db1 in
      match create_run (sx_runId e) (spec_of e conversationId conversation agent bindingId input) (sx_now e) (sb_runs db2) with
      | (Throw err, c) => (Throw err, [], on_runs_of c db2)
      | (Ret (id, d), c) => (Ret {| so_runId := id; so_status := run_status d; so_modelBindingId := bindingId |}, [id], on_runs_of c db2)
      end
  end.

Definition sendUserMessage (e : SendEnv) (conversationId : string) (input : SendInput) db : outcome SendError SendOutcome * list string * SendDb :=
  match find_conversation conversationId (cd_conversations (sb_conversations db)) with
  | None => (Throw sd_no_conversation, [], db)
  | Some conversation =>
      match sx_agents e (cv_agentId conversation) with
      | None => (Throw sd_no_agent, [], db)
      | Some agent =>
          match switch_model e conversationId conversation input db with
          | Throw err => (Throw err, [], db)
          | Ret db1 =>
              match usableModel e conversationId (sn_modelBindingId input) (cv_modelBindingId conversation) agent db1 with
              | (Throw err, db2) => (Throw err, [], db2)
              | (Ret bindingId, db2) =>
                  match refusal_of (sx_gate e) with
                  | Some err => (Throw err, [], db2)
                  | None => say_it e conversationId conversation agent bindingId input db2
                  end
              end
          end
      end
  end.

(** *** Reading a conversation *)
(** The window of the messages route, for the text of the [after] parameter. *)
Definition message_window (conversationId : string) (after : option string) (c : CM) : list Message :=
  match Numbers.js_number (default "" after) with
  | Some q => messagesSince conversationId (Qround.Qfloor q) c
  | None => recent_messages conversationId 200 c
  end.

(** ** What a submission leaves *)

Lemma usable_enabled bindings id w : usable bindings id = Some w → ∃ b, b ∈ bindings ∧ mb_id b = w ∧ mb_enabled b = true.
Proof.
  unfold usable. destruct (id ≫= _) as [b|] eqn:Hb; [|done]. destruct (mb_enabled b) eqn:He; [|done]. intros [= <-].
  destruct id as [i|]; [|done]. cbn in Hb. unfold find_binding in Hb. apply find_some_elem in Hb as [Hb _]. by exists b.
Qed.

Lemma winner_enabled bindings requested agent pinned w :
  winner bindings requested agent pinned = Some w → ∃ b, b ∈ bindings ∧ mb_id b = w ∧ mb_enabled b = true.
Proof.
  unfold winner. destruct (usable bindings requested) eqn:H1'; [intros [= <-]; by eapply usable_enabled|].
  destruct (usable bindings (ag_modelBindingId agent)) eqn:H2'; [intros [= <-]; by eapply usable_enabled|].
  destruct (usable bindings (Some pinned)) eqn:H3'; [intros [= <-]; by eapply usable_enabled|].
  destruct (forRole _ _) as [b|] eqn:Hb; [|done]. intros [= <-]. unfold forRole in Hb. apply find_some_elem in Hb as [Hb Hp].
  apply andb_true_iff in Hp as [_ He]. by exists b.
Qed.

(** What choosing a model may change: the model of the conversation. *)
Definition only_model (db db' : SendDb) : Prop :=
  sb_runs db' = sb_runs db ∧ sb_approvals db' = sb_approvals db ∧ cd_messages (sb_conversations db') = cd_messages (sb_conversations db).

Lemma switch_only e conversationId conversation input db db' : switch_model e conversationId conversation input db = Ret db' → only_model db db'.
Proof. unfold switch_model. repeat case_match; intros [= <-] || intros [=]; done. Qed.
Lemma usableModel_only e conversationId requested pinned agent db r db' :
  usableModel e conversationId requested pinned agent db = (r, db') → only_model db db'.
Proof. unfold usableModel. repeat case_match; intros [= <- <-]; done. Qed.

(** A workspace whose gate is closed is told so, and neither a message, a run nor
    an approval is touched: nothing is said that nobody would answer. *)
Theorem refused_sends_write_nothing e conversationId input db :
  sx_gate e ≠ g_open →
  let '(r, woken, db') := sendUserMessage e conversationId input db in
  woken = [] ∧ (∃ err, r = Throw err) ∧ only_model db db'.
Proof.
  intros Hg. unfold sendUserMessage. destruct (find_conversation _ _) as [conversation|]; [|split_and!; [done|by eexists|done]].
  destruct (sx_agents _ _) as [agent|]; [|split_and!; [done|by eexists|done]].
  destruct (switch_model _ _ _ _ _) as [db1|err] eqn:Hs; [|split_and!; [done|by eexists|done]]. apply switch_only in Hs.
  destruct (usableModel _ _ _ _ _ _) as [[w|err] db2] eqn:Hu; apply usableModel_only in Hu.
  all: assert (only_model db db2) as Hm by (destruct Hs as (? & ? & ?), Hu as (? & ? & ?); split_and!; congruence).
  2: split; [done|split; [by eexists|exact Hm]].
  destruct (sx_gate e) as [|reason [|]]; [done| |]; cbn [refusal_of]; (split; [done|split; [by eexists|exact Hm]]).
Qed.

(** *** What an accepted submission leaves *)

(** The run a conversation was last given, when it waits. *)
Definition waiting_latest (conversationId : string) db : option (string * RunDoc) :=
  head (listForConversation conversationId 1 (sb_runs db)) ≫= λ ir, if is_waiting (Some (run_status ir.2)) then Some ir else None.

Lemma listed_is_there conversationId db id d :
  head (listForConversation conversationId 1 (sb_runs db)) = Some (id, d) →
  docs (sb_runs db) !! id = Some d ∧ sp_conversationId (run_spec d) = conversationId ∧ sp_workspaceId (run_spec d) = workspaceId.
Proof.
  intros Hh. apply head_Some_elem_of in Hh. unfold listForConversation in Hh. apply find_docs_sound in Hh as [Hd Hp]; [|apply _].
  unfold in_workspace in Hp. apply andb_true_iff in Hp as [?%String.eqb_eq ?%String.eqb_eq]. by split_and!.
Qed.

Lemma waiting_not_terminal s : is_waiting (Some s) = true → isTerminal s = false.
Proof. by destruct s. Qed.

Lemma supersede_log e conversationId db : sb_conversations (supersedeWaitingRun e conversationId db) = sb_conversations db.
Proof. unfold supersedeWaitingRun. by destruct (head _) as [[id d]|]; [destruct (is_waiting _)|]. Qed.

(** The waiting run is cancelled; every other run is as it was. *)
Lemma supersede_runs e conversationId db :
  docs (sb_runs (supersedeWaitingRun e conversationId db)) =
  match waiting_latest conversationId db with
  | Some (id, d) => <[id := set_status cancelled (set_finishedAt (Some (sx_now e)) d)]> (docs (sb_runs db))
  | None => docs (sb_runs db)
  end.
Proof.
  unfold supersedeWaitingRun, waiting_latest. destruct (head _) as [[id d]|] eqn:Hh; [|done]. cbn [mbind option_bind snd].
  apply listed_is_there in Hh as (Hd & _ & Hw). destruct (is_waiting _) eqn:Hs; [|done]. cbn [sb_runs].
  unfold cancel. refine (proj2 (updateOne_hit id _ _ (sb_runs db) d Hd _)).
  unfold scoped. rewrite Hw, String.eqb_refl, (waiting_not_terminal _ Hs). done.
Qed.

(** Its question is closed, as refused by the person who moved on. *)
Lemma supersede_denies e conversationId db id d apv a :
  waiting_latest conversationId db = Some (id, d) → pendingApprovalForRun id (sb_approvals db) = Some (apv, a) →
  docs (sb_approvals (supersedeWaitingRun e conversationId db)) =
    <[apv := set_decision deny_it (actorIdOf (sx_principal e)) (sx_now e) None a]> (docs (sb_approvals db)).
Proof.
  unfold supersedeWaitingRun, waiting_latest. destruct (head (listForConversation _ _ _)) as [[id' d']|]; [|done]. cbn [mbind option_bind snd].
  destruct (is_waiting _); [|done]. intros [= -> ->] Hp. rewrite Hp. cbn [sb_approvals].
  unfold pendingApprovalForRun in Hp. apply head_Some_elem_of, find_docs_sound in Hp as [Hd Hu]; [|apply _].
  apply andb_true_iff in Hu as [Hu _]. by apply (updateOne_hit apv undecided _ (sb_approvals db) a).
Qed.

(** A conversation numbers what it is told above what it holds. *)
Definition numbered_below (conversationId : string) (next : Z) (cm : CM) : Prop :=
  ∀ id m, docs cm !! id = Some m → m_conversationId m = conversationId → m_seq m < next.

Lemma append_fresh newId input now (cd : @ConversationDb CV CM) d :
  docs (cd_conversations cd) !! ai_conversationId input = Some d →
  docs (cd_messages cd) !! messageId sha256 newId (ai_conversationId input) (ai_clientMessageId input) = None →
  numbered_below (ai_conversationId input) (cv_nextSeq d) (cd_messages cd) →
  let m := message_doc sha256 newId input (cv_nextSeq d) now in
  let '(r, cd') := append_message sha256 newId input now cd in
  r = Ret m ∧ docs (cd_messages cd') = <[m_id m := m]> (docs (cd_messages cd)).
Proof.
  intros Hd Hnew Hseq m. unfold append_message, allocateSeq. rewrite Hd. cbn [fmap option_fmap option_map].
  assert ((insert_message m (cd_messages cd)).1 = true ∧ docs (insert_message m (cd_messages cd)).2 = <[m_id m := m]> (docs (cd_messages cd))) as [Hok Hdocs].
  { apply insertOne_ok; [done|]. intros id' m' Hm'. apply not_true_iff_false. unfold same_number.
    intros [He%String.eqb_eq Hs%Z.eqb_eq]%andb_true_iff. specialize (Hseq id' m' Hm' (eq_sym He)). cbn in Hs. lia. }
  fold m. destruct (insert_message m _) as [ok cm]. cbn [fst snd] in *. by subst ok.
Qed.

Lemma create_fresh newId spec now (c : CR) :
  docs c !! newId = None → sp_workspaceId spec = workspaceId →
  (∀ id d key, docs c !! id = Some d → sp_idempotencyKey spec = Some key → has_key key d = false) →
  let '(r, c') := create_run newId spec now c in
  r = Ret (newId, new_run newId spec None now) ∧ docs c' = <[newId := new_run newId spec None now]> (docs c).
Proof.
  intros Hnew Hws Hkey. unfold create_run. destruct (by_key _ c) as [[id d]|] eqn:Hb.
  { destruct (sp_idempotencyKey spec) as [key|] eqn:Hk; [|done]. apply find_one_some in Hb as [Hd Hp]. by rewrite (Hkey id d key) in Hp. }
  destruct (insertOne_ok idempotency_clash newId (new_run newId spec None now) c Hnew) as [Hok Hd].
  { intros id' d' Hd'. apply not_true_iff_false. unfold idempotency_clash. cbn [run_spec new_run]. rewrite Hws.
    intros [Hw%String.eqb_eq Hk]%andb_true_iff. destruct (sp_idempotencyKey spec) as [key|] eqn:Hspec; [|done].
    destruct (sp_idempotencyKey (run_spec d')) as [key'|] eqn:Hd''; [|done]. apply String.eqb_eq in Hk as <-.
    specialize (Hkey id' d' key Hd' eq_refl). unfold has_key, in_workspace in Hkey. rewrite Hd'', <-Hw, String.eqb_refl in Hkey.
    by rewrite bool_decide_eq_true_2 in Hkey. }
  destruct (insertOne _ _ _ _) as [ok c']. cbn [fst snd] in *. by subst ok.
Qed.

(** The submission the rest of the system can act on. *)
Definition answerable (e : SendEnv) (conversationId : string) (input : SendInput) db (conversation : ConversationDoc) (agent : AgentRow) (w : string) : Prop :=
  docs (cd_conversations (sb_conversations db)) !! conversationId = Some conversation ∧
  sx_agents e (cv_agentId conversation) = Some agent ∧
  (∀ id, sn_modelBindingId input = Some id → is_Some (find_binding id (sx_bindings e))) ∧
  winner (sx_bindings e) (sn_modelBindingId input) agent (cv_modelBindingId conversation) = Some w ∧
  sx_gate e = g_open.

(** Nothing was said, and no run was started, under this submission before. *)
Definition unsaid (e : SendEnv) (conversationId : string) (input : SendInput) db (conversation : ConversationDoc) : Prop :=
  docs (cd_messages (sb_conversations db)) !! messageId sha256 (sx_messageId e) conversationId (sn_idempotencyKey input) = None ∧
  numbered_below conversationId (cv_nextSeq conversation) (cd_messages (sb_conversations db)) ∧
  docs (sb_runs db) !! sx_runId e = None ∧
  (∀ id d key, docs (sb_runs db) !! id = Some d → sn_idempotencyKey input = Some key → has_key key d = false).

(** Choosing a model keeps the conversation's place in its log. *)
Definition same_place (conversationId : string) (seq : Z) db : Prop :=
  ∃ d, docs (cd_conversations (sb_conversations db)) !! conversationId = Some d ∧ cv_nextSeq d = seq.
Lemma set_binding_place conversationId seq binding now db :
  same_place conversationId seq db → same_place conversationId seq (set_binding conversationId binding now db).
Proof.
  intros (d & Hd & Hs). unfold same_place, set_binding. cbn. unfold setModelBinding.
  destruct (updateOne_hit conversationId (λ _, true) (λ d, set_face (cv_title d) binding (cv_compaction d) now d) _ d Hd eq_refl) as [_ ->].
  eexists. rewrite lookup_insert_eq. by split.
Qed.

Lemma head_waiting conversationId db id d : waiting_latest conversationId db = Some (id, d) → docs (sb_runs db) !! id = Some d.
Proof.
  unfold waiting_latest. destruct (head _) as [[id' d']|] eqn:Hh; [|done]. cbn [mbind option_bind snd].
  destruct (is_waiting _); [|done]. intros [= -> ->]. by apply listed_is_there in Hh as [? _].
Qed.

(** The runs once the waiting one is overtaken. *)
Definition overtaken (e : SendEnv) (conversationId : string) db : gmap string RunDoc :=
  match waiting_latest conversationId db with
  | Some (id, d) => <[id := set_status cancelled (set_finishedAt (Some (sx_now e)) d)]> (docs (sb_runs db))
  | None => docs (sb_runs db)
  end.

Lemma overtaken_old e conversationId db id d :
  overtaken e conversationId db !! id = Some d → ∃ d0, docs (sb_runs db) !! id = Some d0 ∧ run_spec d = run_spec d0.
Proof.
  unfold overtaken. destruct (waiting_latest _ _) as [[id' d']|] eqn:Hw; [|eauto].
  intros [[<- <-]|[_ ?]]%lookup_insert_Some; [|eauto]. exists d'. split; [by eapply head_waiting|done].
Qed.

Lemma say_it_spec e conversationId conversation agent w input db :
  same_place conversationId (cv_nextSeq conversation) db → unsaid e conversationId input db conversation →
  let '(r, woken, db') := say_it e conversationId conversation agent w input db in
  let m := message_doc sha256 (sx_messageId e) (typed conversationId input) (cv_nextSeq conversation) (sx_now e) in
  r = Ret {| so_runId := sx_runId e; so_status := queued; so_modelBindingId := w |} ∧ woken = [sx_runId e] ∧
  docs (cd_messages (sb_conversations db')) = <[m_id m := m]> (docs (cd_messages (sb_conversations db))) ∧
  docs (sb_runs db') = <[sx_runId e := new_run (sx_runId e) (spec_of e conversationId conversation agent w input) None (sx_now e)]> (overtaken e conversationId db).
Proof.
  intros (d & Hd & Hseq) (Hnew & Hbelow & Hrun & Hkey). unfold say_it. set (db1 := supersedeWaitingRun _ _ _).
  pose proof (supersede_runs e conversationId db) as Hruns. fold db1 (overtaken e conversationId db) in Hruns.
  pose proof (append_fresh (sx_messageId e) (typed conversationId input) (sx_now e) (sb_conversations db1) d) as Ha.
  unfold db1 in Ha. rewrite supersede_log in Ha. fold db1 in Ha. rewrite <-Hseq in Hbelow. specialize (Ha Hd Hnew Hbelow).
  unfold db1 at 1. rewrite supersede_log. destruct (append_message _ _ _ _ _) as [r log]. destruct Ha as [-> Hlog]. cbn [on_log sb_runs].
  pose proof (create_fresh (sx_runId e) (spec_of e conversationId conversation agent w input) (sx_now e) (sb_runs db1)) as Hc.
  destruct (create_run _ _ _ _) as [r c]. destruct Hc as [-> Hdocs].
  - rewrite Hruns. apply eq_None_not_Some. intros (d0 & (d1 & Hd1 & _)%overtaken_old). congruence.
  - done.
  - intros id0 d0 key. rewrite Hruns. intros (d1 & Hd1 & Hs)%overtaken_old Hk. unfold has_key, in_workspace. rewrite Hs. by apply (Hkey id0 d1).
  - rewrite <-Hseq. split_and!; [done..|]. by rewrite <-Hruns.
Qed.

Lemma say_again e conversationId conversation agent w input db m :
  same_place conversationId (cv_nextSeq conversation) db →
  docs (cd_messages (sb_conversations db)) !! messageId sha256 (sx_messageId e) conversationId (sn_idempotencyKey input) = Some m →
  let '(r, woken, db') := say_it e conversationId conversation agent w input db in
  r = Throw (sd_append duplicate_message) ∧ woken = [] ∧
  docs (cd_messages (sb_conversations db')) = docs (cd_messages (sb_conversations db)) ∧ docs (sb_runs db') = overtaken e conversationId db.
Proof.
  intros (d & Hd & _) Hm. unfold say_it. set (db1 := supersedeWaitingRun _ _ _).
  pose proof (supersede_runs e conversationId db) as Hruns. fold db1 (overtaken e conversationId db) in Hruns.
  assert (sb_conversations db1 = sb_conversations db) as Hlog by apply supersede_log. rewrite Hlog. unfold append_message, allocateSeq.
  cbn [typed ai_conversationId]. rewrite Hd. cbn [fmap option_fmap option_map].
  match goal with |- context [insert_message ?x _] => destruct (insert_message_cases x (cd_messages (sb_conversations db))) as [(_ & Hn & _)|[Hf Hdocs]] end.
  { change (m_id _) with (messageId sha256 (sx_messageId e) conversationId (sn_idempotencyKey input)) in Hn. congruence. }
  destruct (insert_message _ _) as [ok cm]. cbn [fst snd] in *. subst ok. by split_and!.
Qed.

(** Up to the message itself a send only chooses the model. *)
Lemma send_reaches e conversationId input db conversation agent w :
  answerable e conversationId input db conversation agent w →
  ∃ db2, only_model db db2 ∧ same_place conversationId (cv_nextSeq conversation) db2 ∧
    sendUserMessage e conversationId input db = say_it e conversationId conversation agent w input db2.
Proof.
  intros (Hcv & Hag & Hreq & Hw & Hgate). unfold sendUserMessage, find_conversation. rewrite Hcv, Hag.
  assert (∃ db1, switch_model e conversationId conversation input db = Ret db1 ∧ only_model db db1 ∧ same_place conversationId (cv_nextSeq conversation) db1)
    as (db1 & Hs & Hm1 & Hp1).
  { assert (same_place conversationId (cv_nextSeq conversation) db) as Hp by by exists conversation.
    unfold switch_model. destruct (sn_modelBindingId input) as [id|]; [|by exists db]. destruct (String.eqb _ _); [by exists db|].
    destruct (Hreq id eq_refl) as [b ->]. eexists. split; [done|]. split; [done|by apply set_binding_place]. }
  rewrite Hs. unfold usableModel. rewrite Hw, Hgate. cbn [refusal_of]. eexists (if String.eqb _ _ then _ else _). split_and!; [| |done].
  - destruct (String.eqb _ _); exact Hm1.
  - destruct (String.eqb _ _); [done|by apply set_binding_place].
Qed.


End Sending.

(** ** Examples *)
Notation SendRows := (@SendDb (gmap string ConversationDoc) (gmap string Message) (gmap string RunDoc) (gmap string ApprovalDoc)).
Definition paused_run : RunDoc := set_status waiting_approval (new_run "run_1" sample_spec None 0).
Definition paused_rows : SendRows := {|
  sb_conversations := {| cd_conversations := one_row; cd_messages := ∅ |};
  sb_runs := {["run_1" := paused_run]}; sb_approvals := {["apv_1" := sample_approval "apv_1" "run_1" 100]} |}.
Definition an_agent : AgentRow := {| ag_modelBindingId := None; ag_versionId := "ver_1"; ag_modelRole := "chat"; ag_snapshot := sp_agentSnapshot sample_spec |}.
Definition at_desk (n : string) : SendEnv := {|
  sx_principal := PUser "usr_1" "ws_1" member; sx_now := 9; sx_messageId := "msg_" +:+ n; sx_runId := "run_" +:+ n;
  sx_agents := λ id, if String.eqb id "agt_1" then Some an_agent else None; sx_bindings := [chat_binding]; sx_gate := g_open;
  sx_firstParty := ["cap_memory"]; sx_enabled := λ _, ["cap_memory"; "cap_web"] |}.
Definition words (text : string) (key : option string) : SendInput := {|
  sn_content := text; sn_modelBindingId := None; sn_budget := None; sn_idempotencyKey := key |}.
Definition statuses (db : SendRows) : list (string * RunStatus) := map (λ ir, (ir.1, run_status ir.2)) (map_to_list (sb_runs db)).


Definition in_debt : SendEnv := {|
  sx_principal := sx_principal (at_desk "2"); sx_now := 9; sx_messageId := "msg_2"; sx_runId := "run_2"; sx_agents := sx_agents (at_desk "2");
  sx_bindings := [chat_binding]; sx_gate := g_closed (daily_cap 5) true; sx_firstParty := []; sx_enabled := λ _, [] |}.
Lemma refused_sends_write_nothing_witness :
  let '(r, woken, db') := sendUserMessage id "ws_1" in_debt "cnv_1" (words "hello" None) paused_rows in
  r = Throw sd_payment_required ∧ woken = [] ∧ sb_runs db' = sb_runs paused_rows.
Proof.
  pose proof (refused_sends_write_nothing (CA := gmap string ApprovalDoc) id "ws_1" in_debt "cnv_1" (words "hello" None) paused_rows) as Ht.
  assert ((sendUserMessage id "ws_1" in_debt "cnv_1" (words "hello" None) paused_rows).1.1 = Throw sd_payment_required) as Hr by (vm_compute; reflexivity).
  destruct (sendUserMessage _ _ _ _ _ _) as [[r woken] db']. destruct Ht as (-> & _ & Hm & _); [done|]. by split_and!.
Defined.

(** A submission sent twice: the second fails on the message it finds, but only
    after it has cancelled the run of the first, which was waiting for its person. *)
Definition first_time : SendRows := (sendUserMessage id "ws_1" (at_desk "2") "cnv_1" (words "hello" (Some "k1")) paused_rows).2.
Definition now_waiting (db : SendRows) : SendRows := on_runs_of (alter (set_status waiting_approval) "run_2" (sb_runs db)) db.
Example retry_cancels_its_own_run :
  let '(r, woken, db') := sendUserMessage id "ws_1" (at_desk "3") "cnv_1" (words "hello" (Some "k1")) (now_waiting first_time) in
  r = Throw (sd_append duplicate_message) ∧ woken = [] ∧ run_status <$> sb_runs db' !! "run_2" = Some cancelled.
Proof. vm_compute. split_and!; reflexivity. Qed.

(** A key used in one conversation answers for another: the second message is
    written and the run it is given belongs to the first conversation. *)
Definition second_thread : SendRows := on_log
  {| cd_conversations := <["cnv_2" := new_conversation first_input 0]> (cd_conversations (sb_conversations first_time));
     cd_messages := cd_messages (sb_conversations first_time) |} first_time.
Example shared_key_leaves_a_message_unanswered :
  let '(r, _, db') := sendUserMessage id "ws_1" (at_desk "3") "cnv_2" (words "and here?" (Some "k1")) second_thread in
  (so_runId <$> match r with Ret o => Some o | Throw _ => None end) = Some "run_2" ∧
  length (recent_messages "cnv_2" 200 (cd_messages (sb_conversations db'))) = 1%nat ∧
  listForConversation "ws_1" "cnv_2" 20 (sb_runs db') = [].
Proof. vm_compute. split_and!; reflexivity. Qed.

(** Without [after] the route reads the whole log: the text of an absent
    parameter is a number, so the window of 200 messages is never taken. *)
Example absent_cursor_reads_everything {CM} `{CollectionLaws Message CM} (conversationId : string) (c : CM) :
  message_window conversationId None c = messagesSince conversationId 0 c.
Proof. reflexivity. Qed.
