(* ===== verification/EventBus.v ===== *)
(** * Following a run from the browser

    Models packages/db/src/event-bus.ts, the events route of a run and the
    reducer of apps/web/src/lib/client/use-run-stream.ts.  Events are read from a
    collection that others append to, by a change stream or by polling; what the
    reader is shown is a fold over the frames it receives.  The collection is the
    class of [Mongo]; a change stream is the list of the inserts since it was
    opened. *)
From S2P Require Import Prelude Json Text Numbers Entities Mongo Guard.

Record RunEventDoc := { re_runId : string; re_workspaceId : string; re_seq : Z; re_type : string; re_payload : value; re_createdAt : Z }.

Definition TERMINAL_EVENTS : list string := ["run_finished"; "run_suspended"; "run_yielded"].
Definition isTerminalEvent (type : string) : bool := bool_decide (type ∈ TERMINAL_EVENTS).

Definition by_seq (a b : RunEventDoc) : bool := re_seq a <=? re_seq b.
#[export] Instance by_seq_order : SortOrder by_seq.
Proof. split; unfold by_seq; intros; bool_prop; apply Z.leb_le; lia. Qed.
Definition REPLAY_LIMIT : nat := Z.to_nat 1000.

(** ** The two readers *)

Section Bus.
Context {C : Type} `{CollectionLaws RunEventDoc C} (runId workspaceId : string).
Implicit Types c : C.

Definition of_run (d : RunEventDoc) : bool := String.eqb (re_runId d) runId && String.eqb (re_workspaceId d) workspaceId.
Definition replay (afterSeq : Z) c : list RunEventDoc :=
  map snd (find_docs (λ d, of_run d && (afterSeq <? re_seq d)) by_seq REPLAY_LIMIT c).

(** The loop over what was read: what is yielded, the cursor, and whether a
    terminal event ended the subscription. *)
Fixpoint yield_all (lastSeq : Z) (ds : list RunEventDoc) : list RunEventDoc * Z * bool :=
  match ds with
  | [] => ([], lastSeq, false)
  | d :: r => if isTerminalEvent (re_type d) then ([d], re_seq d, true)
              else let '(ys, s, ended) := yield_all (re_seq d) r in (d :: ys, s, ended)
  end.

(** The loop over a change stream: each change with whether the signal was
    aborted when it came, and its document. *)
Fixpoint follow (lastSeq : Z) (changes : list (bool * option RunEventDoc)) : list RunEventDoc :=
  match changes with
  | [] => []
  | (aborted, doc) :: r =>
      if aborted : bool then []
      else match doc with
           | None => follow lastSeq r
           | Some d =>
               if negb (of_run d) then follow lastSeq r
               else if re_seq d <=? lastSeq then follow lastSeq r
               else if isTerminalEvent (re_type d) then [d] else d :: follow (re_seq d) r
           end
  end.

(** [ChangeStreamEventBus.subscribe], for the collection the replay reads. *)
Definition change_subscribe (afterSeq : Z) c (changes : list (bool * option RunEventDoc)) : list RunEventDoc :=
  let '(ys, lastSeq, ended) := yield_all afterSeq (replay afterSeq c) in
  if ended then ys else ys ++ follow lastSeq changes.

(** [PollingEventBus.subscribe]: every poll reads the collection as it is then;
    the list ends when the signal is aborted. *)
Fixpoint poll_subscribe (lastSeq : Z) (polls : list C) : list RunEventDoc :=
  match polls with
  | [] => []
  | c :: r =>
      let '(ys, s, ended) := yield_all lastSeq (replay lastSeq c) in
      if ended then ys else ys ++ poll_subscribe s r
  end.

Inductive BusKind := change_stream | polling.
Definition createEventBus (supportsChangeStreams : bool) : BusKind := if supportsChangeStreams then change_stream else polling.

(** ** The log of a run *)

(** The events of the run that a collection holds, in the order of their numbers. *)
Definition holds c (log : list RunEventDoc) : Prop :=
  StronglySorted (λ a b, re_seq a < re_seq b) log ∧
  (∀ d, d ∈ log ↔ of_run d = true ∧ ∃ id, docs c !! id = Some d) ∧
  (∀ i j a b, docs c !! i = Some a → docs c !! j = Some b → of_run a = true → of_run b = true → re_seq a = re_seq b → i = j).

Definition since (afterSeq : Z) (log : list RunEventDoc) : list RunEventDoc := List.filter (λ d, afterSeq <? re_seq d) log.
Fixpoint until_terminal (log : list RunEventDoc) : list RunEventDoc :=
  match log with
  | [] => []
  | d :: r => if isTerminalEvent (re_type d) then [d] else d :: until_terminal r
  end.
Definition ends (log : list RunEventDoc) : bool := existsb (λ d, isTerminalEvent (re_type d)) log.

Notation ascending := (StronglySorted (λ a b, re_seq a < re_seq b)).

Lemma ascending_head d r : ascending (d :: r) → ascending r ∧ ∀ e, e ∈ r → re_seq d < re_seq e.
Proof. inversion 1 as [|? ? Hs Hf]; subst. rewrite Forall_forall in Hf. by split. Qed.

Lemma ascending_unique l a b : ascending l → a ∈ l → b ∈ l → re_seq a = re_seq b → a = b.
Proof.
  induction l as [|d r IH]; [set_solver|]. intros [Hs Hd]%ascending_head Ha Hb He.
  apply elem_of_cons in Ha as [->|Ha], Hb as [->|Hb]; [done| | |by apply IH].
  - specialize (Hd b Hb). lia.
  - specialize (Hd a Ha). lia.
Qed.

(** A sorted selection of a sorted list that leaves out only what comes after. *)
Lemma selection_is_a_prefix (part all : list RunEventDoc) :
  ascending part → ascending all → (∀ d, d ∈ part → d ∈ all) →
  (∀ d, d ∈ all → d ∈ part ∨ ∀ e, e ∈ part → re_seq e <= re_seq d) →
  part = take (length part) all.
Proof.
  revert part. induction all as [|f all IH]; intros part Hp Ha Hsub Hout.
  { destruct part as [|d part]; [done|]. exfalso. specialize (Hsub d). set_solver. }
  destruct part as [|r part]; [done|]. pose proof (ascending_head _ _ Ha) as [Ha' Hf]. pose proof (ascending_head _ _ Hp) as [Hp' Hr].
  assert (r = f) as ->.
  { assert (r ∈ f :: all) as Hin by (apply Hsub; by left). apply elem_of_cons in Hin as [->|Hin]; [done|]. specialize (Hf r Hin).
    destruct (Hout f ltac:(by left)) as [Hfp|Hle]; [|specialize (Hle r ltac:(by left)); lia].
    apply elem_of_cons in Hfp as [->|Hfp]; [done|]. specialize (Hr f Hfp). lia. }
  simpl. f_equal. apply IH; [done..| |].
  - intros d Hd. specialize (Hr d Hd). assert (d ∈ f :: all) as Hin by (apply Hsub; by right). apply elem_of_cons in Hin as [->|?]; [lia|done].
  - intros d Hd. destruct (Hout d ltac:(by right)) as [[->|?]%elem_of_cons|Hle]; [|by left|right; intros e He; apply Hle; by right].
    specialize (Hf f Hd). lia.
Qed.

Lemma ascending_filter p l : ascending l → ascending (List.filter p l).
Proof.
  induction l as [|d r IH]; [done|]. intros [Hs Hd]%ascending_head. simpl. destruct (p d); [|by apply IH].
  constructor; [by apply IH|]. apply Forall_forall. intros e He. apply list_elem_of_In, filter_In in He as [He _]. by apply Hd, list_elem_of_In.
Qed.

Lemma replay_spec afterSeq c log : holds c log → replay afterSeq c = take REPLAY_LIMIT (since afterSeq log).
Proof.
  intros (Hasc & Hin & Hid). set (p := λ d, of_run d && (afterSeq <? re_seq d)).
  assert (∀ d, d ∈ since afterSeq log ↔ p d = true ∧ ∃ id, docs c !! id = Some d) as Hsince.
  { intros d. unfold since, p. rewrite list_elem_of_In, filter_In, <-list_elem_of_In, Hin, andb_true_iff. naive_solver. }
  pose proof (find_docs_sorted p by_seq REPLAY_LIMIT c _) as Hs. pose proof (find_docs_nodup p by_seq REPLAY_LIMIT c _) as Hn.
  pose proof (find_docs_sound p by_seq REPLAY_LIMIT c) as Hsound. pose proof (find_docs_limit p by_seq REPLAY_LIMIT c _) as Hl.
  pose proof (find_docs_complete p by_seq REPLAY_LIMIT c) as Hc. unfold replay. fold p.
  set (found := find_docs p by_seq REPLAY_LIMIT c) in *.
  assert (ascending (map snd found)) as Hf.
  { clear Hl Hc. induction found as [|[i a] r IH]; [constructor|]. inversion Hs as [|? ? Hs' Hall]; subst. simpl in *. apply NoDup_cons in Hn as [Hi Hn].
    constructor; [apply IH; [done..|intros; apply Hsound; [done|by right]]|].
    apply Forall_forall. intros b Hb. apply list_elem_of_fmap in Hb as ([j b'] & -> & Hb). rewrite Forall_forall in Hall. specialize (Hall _ Hb).
    unfold by_seq in Hall. simpl in *. destruct (Hsound i a _ ltac:(by left)) as [Hda Hpa]. destruct (Hsound j b' _ ltac:(by right)) as [Hdb Hpb].
    unfold p in Hpa, Hpb. apply andb_true_iff in Hpa as [Hpa _], Hpb as [Hpb _]. bool_prop.
    assert (re_seq a ≠ re_seq b'); [|lia]. intros He. apply Hi. rewrite (Hid i j a b' Hda Hdb Hpa Hpb He). by apply (list_elem_of_fmap_2 fst _ (j, b')). }
  assert (∀ d, d ∈ map snd found → d ∈ since afterSeq log) as Hsub.
  { intros d Hd. apply list_elem_of_fmap in Hd as ([i d'] & -> & Hd). apply Hsince. destruct (Hsound i d' _ Hd). eauto. }
  assert (∀ d, d ∈ since afterSeq log → d ∈ map snd found ∨ length found = REPLAY_LIMIT ∧ ∀ e, e ∈ map snd found → re_seq e <= re_seq d) as Hout.
  { intros d [Hp (id & Hd)]%Hsince. destruct (Hc id d _ Hd Hp) as [Hi|[Hlen Hle]]; [left; by apply (list_elem_of_fmap_2 snd _ (id, d))|right].
    split; [done|]. intros e He. apply list_elem_of_fmap in He as ([j e'] & -> & He). specialize (Hle _ _ He). unfold by_seq in Hle. simpl. by bool_prop. }
  rewrite (selection_is_a_prefix (map snd found) (since afterSeq log)); [|done|by apply ascending_filter|done|].
  2: { intros d Hd. destruct (Hout d Hd) as [?|[_ ?]]; auto. }
  rewrite length_map. destruct (decide (length found = REPLAY_LIMIT)) as [->|Hne]; [done|].
  assert (since afterSeq log = map snd found) as ->.
  { symmetry. rewrite (selection_is_a_prefix (map snd found) (since afterSeq log)); [|done|by apply ascending_filter|done|].
    - apply take_ge. assert (NoDup (since afterSeq log)) as Hnd.
      { apply (NoDup_fmap_1 re_seq). clear -Hasc. unfold since. induction log as [|d r IH]; [constructor|]. apply ascending_head in Hasc as [Hs Hd]. simpl.
        destruct (_ <? _); [|by apply IH]. simpl. constructor; [|by apply IH]. intros (e & He & Hin)%list_elem_of_fmap.
        apply list_elem_of_In, filter_In in Hin as [Hin _]. apply list_elem_of_In in Hin. specialize (Hd e Hin). lia. }
      apply (submseteq_length (since afterSeq log)). apply NoDup_submseteq; [done|]. intros d Hd. destruct (Hout d Hd) as [?|[? _]]; done.
    - intros d Hd. destruct (Hout d Hd) as [?|[_ ?]]; auto. }
  rewrite !take_ge; [done|rewrite length_map; lia..].
Qed.

(** ** What a subscriber is sent *)

(** The number of the last event yielded. *)
Definition cursor (s : Z) (ys : list RunEventDoc) : Z := default s (re_seq <$> last ys).

Lemma yield_all_spec s ds : yield_all s ds = (until_terminal ds, cursor s (until_terminal ds), ends ds).
Proof.
  revert s. induction ds as [|d r IH]; intros s; simpl; [done|]. destruct (isTerminalEvent _) eqn:Ht; simpl; [done|].
  rewrite IH. unfold cursor. destruct (until_terminal r) as [|e r'] eqn:Hr; simpl; [done|]. by destruct (last (e :: r')) eqn:Hl; [|apply last_None in Hl].
Qed.

Lemma until_app a b : until_terminal (a ++ b) = if ends a then until_terminal a else a ++ until_terminal b.
Proof. induction a as [|d a IH]; simpl; [done|]. destruct (isTerminalEvent _); simpl; [done|]. rewrite IH. by destruct (ends a). Qed.
Lemma until_all a : ends a = false → until_terminal a = a.
Proof. induction a as [|d a IH]; simpl; [done|]. destruct (isTerminalEvent _); simpl; [done|]. intros He. by rewrite (IH He). Qed.

Lemma since_app s a b : since s (a ++ b) = since s a ++ since s b.
Proof. apply List.filter_app. Qed.
Lemma since_since s s' l : s <= s' → since s' (since s l) = since s' l.
Proof.
  intros Hs. unfold since. induction l as [|d r IH]; simpl; [done|].
  destruct (Z.ltb_spec s (re_seq d)); simpl; [by rewrite IH|]. destruct (Z.ltb_spec s' (re_seq d)); [lia|done].
Qed.
Lemma since_nothing s l : (∀ d, d ∈ l → re_seq d <= s) → since s l = [].
Proof.
  intros Hl. unfold since. induction l as [|d r IH]; simpl; [done|]. destruct (Z.ltb_spec s (re_seq d)); [specialize (Hl d ltac:(by left)); lia|].
  apply IH. intros e He. apply Hl. by right.
Qed.
Lemma since_everything s l : (∀ d, d ∈ l → s < re_seq d) → since s l = l.
Proof.
  intros Hl. unfold since. induction l as [|d r IH]; simpl; [done|]. destruct (Z.ltb_spec s (re_seq d)); [|specialize (Hl d ltac:(by left)); lia].
  f_equal. apply IH. intros e He. apply Hl. by right.
Qed.
Lemma since_above s l d : d ∈ since s l → s < re_seq d.
Proof. unfold since. rewrite list_elem_of_In, filter_In. intros [_ ?]. lia. Qed.

Lemma ascending_split a b : ascending (a ++ b) → ascending a ∧ ascending b ∧ ∀ d e, d ∈ a → e ∈ b → re_seq d < re_seq e.
Proof.
  induction a as [|d a IH]; simpl; [intros Hb; split_and!; [constructor|done|set_solver]|]. intros [Hs Hd]%ascending_head.
  destruct (IH Hs) as (Ha & Hb & Hab). split_and!; [|done|].
  - constructor; [done|]. apply Forall_forall. intros e He. apply Hd. set_solver.
  - intros x y [->|Hx]%elem_of_cons Hy; [apply Hd; set_solver|by apply Hab].
Qed.

(** What is left after a first part was yielded. *)
Lemma since_cursor s log part rest : ascending log → since s log = part ++ rest → since (cursor s part) log = rest.
Proof.
  intros Hasc Hs. pose proof (ascending_filter (λ d, s <? re_seq d) log Hasc) as Hf. fold (since s log) in Hf. rewrite Hs in Hf.
  apply ascending_split in Hf as (Hp & Hr & Hpr). unfold cursor. destruct (last part) as [d|] eqn:Hl; simpl.
  - apply last_Some in Hl as (part' & ->). assert (s < re_seq d) as Hd by (apply (since_above s log); rewrite Hs; set_solver).
    rewrite <-(since_since s) by lia. rewrite Hs, since_app, since_nothing, since_everything; [done| |].
    + intros e He. apply Hpr; set_solver.
    + intros e [He| ->%list_elem_of_singleton]%elem_of_app; [|lia]. apply ascending_split in Hp as (_ & _ & Hp). specialize (Hp e d He ltac:(set_solver)). lia.
  - apply last_None in Hl as ->. done.
Qed.

Lemma since_prefix s a b : a `prefix_of` b → since s a `prefix_of` since s b.
Proof. intros (k & ->). rewrite since_app. by eexists. Qed.

(** One poll, for the log as it will be. *)
Lemma poll_step s c log whole :
  holds c log → ascending whole → log `prefix_of` whole →
  ∃ rest, since s whole = take REPLAY_LIMIT (since s log) ++ rest ∧ replay s c = take REPLAY_LIMIT (since s log) ∧
    since (cursor s (take REPLAY_LIMIT (since s log))) whole = rest.
Proof.
  intros Hh Hasc Hp. rewrite (replay_spec s c log Hh). destruct (since_prefix s _ _ Hp) as (k & Hk).
  exists (drop REPLAY_LIMIT (since s log) ++ k). rewrite Hk. assert (since s whole = take REPLAY_LIMIT (since s log) ++ drop REPLAY_LIMIT (since s log) ++ k) as Hw
    by (rewrite Hk, app_assoc, take_drop; done).
  split_and!; [rewrite app_assoc, take_drop; done|done|by apply since_cursor].
Qed.

(** Polling yields the events of the log in order, none twice and none left out,
    up to the first terminal one, however the log grows between the polls. *)
Lemma polls_yield_a_prefix s polls whole :
  ascending whole → Forall (λ c, ∃ log, holds c log ∧ log `prefix_of` whole) polls →
  poll_subscribe s polls `prefix_of` until_terminal (since s whole).
Proof.
  intros Hasc Hp. revert s. induction Hp as [|c r (log & Hh & Hpre) _ IH]; intros s; simpl; [apply prefix_nil|].
  destruct (poll_step s c log whole Hh Hasc Hpre) as (rest & Hs & -> & Hrest). rewrite yield_all_spec, Hs, until_app.
  destruct (ends _) eqn:He; [done|]. rewrite (until_all _ He). apply list.prefix_app. rewrite <-Hrest. apply IH.
Qed.

Lemma polls_catch_up s c log k :
  holds c log → (length (since s log) <= k * REPLAY_LIMIT)%nat → poll_subscribe s (replicate k c) = until_terminal (since s log).
Proof.
  intros Hh. pose proof Hh as (Hasc & _). revert s. induction k as [|k IH]; intros s Hk; cbn [replicate poll_subscribe].
  { by rewrite (nil_length_inv (since s log)) by lia. }
  destruct (poll_step s c log log Hh Hasc) as (rest & Hs & -> & Hrest); [by exists []; rewrite app_nil_r|].
  remember (take REPLAY_LIMIT (since s log)) as part eqn:Hpart. rewrite yield_all_spec, Hs, until_app. destruct (ends _) eqn:He; [done|]. rewrite (until_all _ He). f_equal. rewrite <-Hrest. apply IH. rewrite Hrest.
  apply (f_equal length) in Hs. rewrite length_app, Hpart, length_take in Hs. lia.
Qed.

Definition inserted (changes : list (bool * option RunEventDoc)) : list RunEventDoc := List.filter of_run (omap snd changes).

Lemma follow_spec s changes :
  Forall (λ ch, ch.1 = false) changes → ascending (inserted changes) → follow s changes = until_terminal (since s (inserted changes)).
Proof.
  intros Hf. revert s. induction Hf as [|[ab doc] r Hab _ IH]; intros s Hasc; [done|]. simpl in Hab. subst ab. cbn [follow].
  destruct doc as [d|]; [|by apply IH]. unfold inserted in *. cbn [omap list_omap snd] in *. cbn [List.filter] in *.
  destruct (of_run d) eqn:Hd; cbn [negb]; [|by apply IH]. apply ascending_head in Hasc as [Hs Hd']. cbn [since List.filter]. fold (since s (List.filter of_run (omap snd r))).
  destruct (Z.leb_spec (re_seq d) s), (Z.ltb_spec s (re_seq d)); try lia; [by apply IH|]. cbn [until_terminal].
  destruct (isTerminalEvent _); [done|]. f_equal. rewrite IH by done. f_equal. rewrite !since_everything; [done| |]; intros e He; specialize (Hd' e He); lia.
Qed.

(** A change stream opened before the replay misses nothing and repeats nothing,
    as long as the replay fits its limit. *)
Lemma changes_yield_the_log s c changes before during after :
  ascending (before ++ during ++ after) → holds c (before ++ during) → (length (since s (before ++ during)) <= REPLAY_LIMIT)%nat →
  Forall (λ ch, ch.1 = false) changes → inserted changes = during ++ after →
  change_subscribe s c changes = until_terminal (since s (before ++ during ++ after)).
Proof.
  intros Hasc Hh Hlim Hf Hins. unfold change_subscribe. rewrite (replay_spec s c _ Hh), take_ge by done. rewrite yield_all_spec.
  rewrite app_assoc, (since_app s (before ++ during)), (until_app (since s (before ++ during))). destruct (ends _) eqn:He; [done|]. rewrite (until_all _ He). f_equal.
  pose proof (ascending_split _ _ Hasc) as (_ & Hda & _). rewrite follow_spec, Hins by (done || by rewrite Hins). f_equal.
  set (part := since s (before ++ during)). pose proof Hasc as Hasc'. rewrite app_assoc in Hasc'.
  pose proof (ascending_split _ _ Hasc') as (Hbd & _ & _).
  assert (since (cursor s part) (before ++ during) = []) as Hnone by (apply (since_cursor s _ part []); [done|by rewrite app_nil_r]).
  assert (since (cursor s part) ((before ++ during) ++ after) = since s after) as Hall by (apply (since_cursor s _ part); [done|apply since_app]).
  rewrite since_app in Hnone, Hall. rewrite since_app in *. apply app_eq_nil in Hnone as [Hn1 Hn2]. rewrite Hn1, Hn2 in Hall. by rewrite Hn2.
Qed.

(** C18.  The two readers are the same reader: on a log that has stopped growing, a
    change stream whose replay fits and enough polls yield the same events. *)
Theorem readers_agree s c c' changes before during after k :
  ascending (before ++ during ++ after) → holds c (before ++ during) → holds c' (before ++ during ++ after) →
  (length (since s (before ++ during)) <= REPLAY_LIMIT)%nat → (length (since s (before ++ during ++ after)) <= k * REPLAY_LIMIT)%nat →
  Forall (λ ch, ch.1 = false) changes → inserted changes = during ++ after →
  change_subscribe s c changes = poll_subscribe s (replicate k c') ∧
  change_subscribe s c changes = until_terminal (since s (before ++ during ++ after)).
Proof.
  intros Hasc Hh Hh' Hlim Hk Hf Hins. rewrite (changes_yield_the_log s c changes before during after), (polls_catch_up s c' _ k Hh' Hk) by done. done.
Qed.

Lemma replay_of_run s c d : d ∈ replay s c → of_run d = true.
Proof.
  unfold replay. intros ([i e] & -> & He)%list_elem_of_fmap. apply find_docs_sound in He as [_ Hp]; [|apply _]. by apply andb_true_iff in Hp as [? _].
Qed.
Lemma until_in l d : d ∈ until_terminal l → d ∈ l.
Proof. induction l as [|e r IH]; simpl; [done|]. destruct (isTerminalEvent _); set_solver. Qed.
Lemma follow_of_run s changes d : d ∈ follow s changes → of_run d = true.
Proof.
  revert s. induction changes as [|[[] [e|]] r IH]; intros s; simpl; [set_solver..| |apply IH]. destruct (of_run e) eqn:He; simpl; [|apply IH].
  destruct (_ <=? _); [apply IH|]. destruct (isTerminalEvent _); [by intros ->%list_elem_of_singleton|].
  intros [->|Hd]%elem_of_cons; [done|by eapply IH].
Qed.

(** Whatever a change stream or a poll is handed, what is yielded belongs to the
    run and to its workspace. *)
Theorem streams_stay_in_the_workspace s c changes polls d :
  d ∈ change_subscribe s c changes ++ poll_subscribe s polls → re_runId d = runId ∧ re_workspaceId d = workspaceId.
Proof.
  assert (of_run d = true → re_runId d = runId ∧ re_workspaceId d = workspaceId) as Hof.
  { unfold of_run. intros [?%String.eqb_eq ?%String.eqb_eq]%andb_true_iff. done. }
  intros [Hd|Hd]%elem_of_app; apply Hof.
  - unfold change_subscribe in Hd. rewrite yield_all_spec in Hd.
    destruct (ends _); [|apply elem_of_app in Hd as [Hd|Hd]; [|by eapply follow_of_run]]; by eapply replay_of_run, until_in.
  - revert s Hd. induction polls as [|c' r IH]; intros s; simpl; [set_solver|]. rewrite yield_all_spec.
    destruct (ends _); [|intros [Hd|Hd]%elem_of_app; [|by eapply IH]]; intros; by eapply replay_of_run, until_in.
Qed.

End Bus.

(** ** The route and the page *)

(** What is written to the response, comments aside. *)
Inductive Frame := fr_event (d : RunEventDoc) | fr_failed.
(** The loop of the route: it breaks at a terminal event by itself; a reader that
    throws is announced. *)
Fixpoint frames_of (yielded : list RunEventDoc) (threw : bool) : list Frame :=
  match yielded with
  | [] => if threw then [fr_failed] else []
  | d :: r => fr_event d :: if isTerminalEvent (re_type d) then [] else frames_of r threw
  end.
(** [eventStreamQuerySchema] on the parameter; [None] is a refused request. *)
Definition after_of (after : option string) : option Z :=
  match after with
  | None => Some (-1)
  | Some text => q ← Numbers.js_number text; if Qeq_bool q (inject_Z (Qfloor q)) && (-1 <=? Qfloor q) then Some (Qfloor q) else None
  end.

Record StreamedToolCall := { tc_id : string; tc_name : string; tc_isError : option bool; tc_finished : bool }.
Inductive StreamStatus := ss_connecting | ss_streaming | ss_suspended | ss_finished | ss_error.
(** [lastSeq] is [None] once a frame without a number was taken. *)
Record RunStreamState := {
  rs_text : string; rs_reasoning : string; rs_toolCalls : list StreamedToolCall; rs_status : StreamStatus;
  rs_suspension : option (string * option string); rs_finish : option (option string * option string); rs_lastSeq : option Z }.
Definition EMPTY : RunStreamState := {|
  rs_text := ""; rs_reasoning := ""; rs_toolCalls := []; rs_status := ss_connecting; rs_suspension := None; rs_finish := None; rs_lastSeq := Some (-1) |}.

(** [String(v ?? fallback)]. *)
Definition text_or (fallback : string) (v : value) : string := match v with VUndefined | VNull => fallback | _ => js_string v end.
Definition string_or_none (v : value) : option string := match v with VString s => Some s | _ => None end.
(** [a <= b] when either may be undefined. *)
Definition no_later (a b : option Z) : bool := match a, b with Some x, Some y => x <=? y | _, _ => false end.

Definition finish_call (payload : value) (call : StreamedToolCall) : StreamedToolCall :=
  if match own payload "id" with VString id => String.eqb (tc_id call) id | _ => false end
  then {| tc_id := tc_id call; tc_name := tc_name call; tc_finished := true;
          tc_isError := Some (match own payload "isError" with VBool true => true | _ => false end) |}
  else call.

(** [next], for the number and payload of a frame; payloads are objects. *)
Definition next (s : RunStreamState) (type : string) (seq : option Z) (payload : value) : RunStreamState :=
  if no_later seq (rs_lastSeq s) then s
  else
    let base text reasoning calls status suspension finish := {|
      rs_text := text; rs_reasoning := reasoning; rs_toolCalls := calls; rs_status := status; rs_suspension := suspension; rs_finish := finish; rs_lastSeq := seq |} in
    if String.eqb type "text_delta" then
      base (rs_text s +:+ text_or "" (own payload "text")) (rs_reasoning s) (rs_toolCalls s) ss_streaming (rs_suspension s) (rs_finish s)
    else if String.eqb type "reasoning_delta" then
      base (rs_text s) (rs_reasoning s +:+ text_or "" (own payload "text")) (rs_toolCalls s) ss_streaming (rs_suspension s) (rs_finish s)
    else if String.eqb type "tool_call_started" then
      base (rs_text s) (rs_reasoning s) (rs_toolCalls s ++ [{| tc_id := text_or "" (own payload "id"); tc_name := text_or "tool" (own payload "name");
                                                               tc_isError := None; tc_finished := false |}]) ss_streaming (rs_suspension s) (rs_finish s)
    else if String.eqb type "tool_call_finished" then
      base (rs_text s) (rs_reasoning s) (map (finish_call payload) (rs_toolCalls s)) ss_streaming (rs_suspension s) (rs_finish s)
    else if String.eqb type "run_suspended" then
      base (rs_text s) (rs_reasoning s) (rs_toolCalls s) ss_suspended
        (Some (text_or "approval" (own payload "reason"), string_or_none (own payload "approvalId"))) (rs_finish s)
    else if String.eqb type "run_finished" || String.eqb type "run_yielded" then
      base (rs_text s) (rs_reasoning s) (rs_toolCalls s) ss_finished (rs_suspension s)
        (Some (string_or_none (own payload "reason"), string_or_none (own payload "message")))
    else base (rs_text s) (rs_reasoning s) (rs_toolCalls s) (if String.eqb type "error" then ss_error else ss_streaming) (rs_suspension s) (rs_finish s).

Definition LISTENED : list string :=
  ["text_delta"; "reasoning_delta"; "tool_call_started"; "tool_call_finished"; "step_started"; "approval_requested"; "run_suspended"; "run_yielded"; "run_finished"; "error"].

(** One frame reaching the page: the state and whether the source is closed.  The
    frame of a failed stream is an [error] event without a number. *)
Definition receive_frame (st : RunStreamState * bool) (f : Frame) : RunStreamState * bool :=
  let '(s, closed) := st in
  if closed : bool then st
  else match f with
       | fr_failed => (next s "error" None VUndefined, false)
       | fr_event d => if bool_decide (re_type d ∈ LISTENED) then (next s (re_type d) (Some (re_seq d)) (re_payload d), isTerminalEvent (re_type d)) else st
       end.
Definition receive_all (st : RunStreamState * bool) (fs : list Frame) : RunStreamState * bool := fold_left receive_frame fs st.
(** The page after some connections, each from the beginning of the log. *)
Definition page (connections : list (list Frame)) : RunStreamState * bool := receive_all (EMPTY, false) (concat connections).

Notation ascending := (StronglySorted (λ a b, re_seq a < re_seq b)).

(** The words an event adds to the answer. *)
Definition said (d : RunEventDoc) : string := if String.eqb (re_type d) "text_delta" then text_or "" (own (re_payload d) "text") else "".
Fixpoint words_of (log : list RunEventDoc) : string := match log with [] => "" | d :: r => said d +:+ words_of r end.

Lemma terminal_listened d : isTerminalEvent (re_type d) = true → bool_decide (re_type d ∈ LISTENED) = true.
Proof. unfold isTerminalEvent. intros Ht%bool_decide_eq_true. apply bool_decide_eq_true. unfold TERMINAL_EVENTS, LISTENED in *. set_solver. Qed.

Lemma said_unheard d : bool_decide (re_type d ∈ LISTENED) = false → said d = "".
Proof.
  unfold said. intros Hd%bool_decide_eq_false. destruct (String.eqb_spec (re_type d) "text_delta") as [He|]; [|done].
  exfalso. apply Hd. rewrite He. unfold LISTENED. set_solver.
Qed.

Lemma next_new s d n : rs_lastSeq s = Some n → n < re_seq d →
  rs_text (next s (re_type d) (Some (re_seq d)) (re_payload d)) = rs_text s +:+ said d ∧
  rs_lastSeq (next s (re_type d) (Some (re_seq d)) (re_payload d)) = Some (re_seq d).
Proof.
  intros Hs Hn. unfold next, said, no_later. rewrite Hs. destruct (Z.leb_spec (re_seq d) n); [lia|].
  destruct (String.eqb (re_type d) "text_delta"); [done|]. rewrite str_app_nil_r.
  repeat (match goal with |- context [if ?b then _ else _] => destruct b end; try done).
Qed.

Lemma receive_closed s fs : receive_all (s, true) fs = (s, true).
Proof. induction fs; [done|]. simpl. done. Qed.

(** What a page that follows the log from somewhere shows. *)
Lemma receive_new s n A :
  rs_lastSeq s = Some n → ascending A → (∀ d, d ∈ A → n < re_seq d) → until_terminal A = A →
  let '(s', closed) := receive_all (s, false) (map fr_event A) in
  rs_text s' = rs_text s +:+ words_of A ∧ closed = ends A ∧
  ∃ m, rs_lastSeq s' = Some m ∧ n <= m ∧ ∀ d, d ∈ A → bool_decide (re_type d ∈ LISTENED) = true → re_seq d <= m.
Proof.
  revert s n. induction A as [|d A IH]; intros s n Hs Hasc Hn Hu; cbn [map receive_all fold_left words_of].
  { rewrite str_app_nil_r. split_and!; [done..|]. exists n. split_and!; [done|lia|set_solver]. }
  pose proof (Hn d ltac:(by left)) as Hd. apply ascending_head in Hasc as [Hasc Hlt]. cbn [until_terminal] in Hu.
  cbn [receive_frame]. destruct (bool_decide (re_type d ∈ LISTENED)) eqn:Hl.
  - destruct (next_new s d n Hs Hd) as [Htext Hlast]. cbn [ends existsb]. destruct (isTerminalEvent (re_type d)) eqn:Ht.
    + injection Hu as <-. fold (receive_all (next s (re_type d) (Some (re_seq d)) (re_payload d), true) (map fr_event [])).
      cbn. rewrite Htext, Hlast, str_app_nil_r. split_and!; [done..|]. exists (re_seq d). split_and!; [done|lia|]. intros e ->%list_elem_of_singleton _. lia.
    + injection Hu as Hu. fold (receive_all (next s (re_type d) (Some (re_seq d)) (re_payload d), false) (map fr_event A)).
      specialize (IH _ (re_seq d) Hlast Hasc Hlt Hu). destruct (receive_all _ _) as [s' closed]. destruct IH as (-> & -> & m & Hm & Hle & Hall).
      rewrite Htext, str_app_assoc. split_and!; [done..|]. exists m. split_and!; [done|lia|]. intros e [->|He]%elem_of_cons Hel; [lia|by apply Hall].
  - assert (isTerminalEvent (re_type d) = false) as Ht by (destruct (isTerminalEvent _) eqn:Ht; [by rewrite (terminal_listened d Ht) in Hl|done]).
    rewrite Ht in Hu. injection Hu as Hu. fold (receive_all (s, false) (map fr_event A)). specialize (IH s n Hs Hasc). cbn [ends existsb]. rewrite Ht.
    assert (∀ e, e ∈ A → n < re_seq e) as Hn' by (intros e He; apply Hn; by right). specialize (IH Hn' Hu).
    destruct (receive_all _ _) as [s' closed]. destruct IH as (-> & -> & m & Hm & Hle & Hall). rewrite (said_unheard d Hl). split_and!; [done..|].
    exists m. split_and!; [done..|]. intros e [->|He]%elem_of_cons Hel; [congruence|by apply Hall].
Qed.

(** Frames of events the page has seen change nothing. *)
Lemma receive_old s m B :
  rs_lastSeq s = Some m → ends B = false → (∀ d, d ∈ B → bool_decide (re_type d ∈ LISTENED) = true → re_seq d <= m) →
  receive_all (s, false) (map fr_event B) = (s, false).
Proof.
  intros Hs. induction B as [|d B IH]; intros He Hb; [done|]. cbn [ends existsb] in He. apply orb_false_iff in He as [Ht He].
  cbn [map receive_all fold_left receive_frame]. destruct (bool_decide _) eqn:Hl.
  - assert (next s (re_type d) (Some (re_seq d)) (re_payload d) = s) as Hnext.
    { unfold next, no_later. rewrite Hs. specialize (Hb d ltac:(by left) Hl). by destruct (Z.leb_spec (re_seq d) m); [|lia]. }
    rewrite Hnext, Ht. apply IH; [done|]. intros e Hin. apply Hb. by right.
  - apply IH; [done|]. intros e Hin. apply Hb. by right.
Qed.

Section Watching.
Context (log : list RunEventDoc) (log_ascending : ascending log) (log_numbered : ∀ d, d ∈ log → 0 <= re_seq d).
Notation shown := (until_terminal log).

Lemma until_prefix l A : A `prefix_of` until_terminal l → until_terminal A = A ∧ (ends A = true → A = until_terminal l).
Proof.
  revert A. induction l as [|d l IH]; intros A (k & Hk); simpl in *.
  { symmetry in Hk. by apply app_eq_nil in Hk as [-> ->]. }
  destruct A as [|e A]; [done|]. destruct (isTerminalEvent (re_type d)) eqn:Ht; simpl in Hk; injection Hk as <- Hk.
  - symmetry in Hk. apply app_eq_nil in Hk as [-> ->]. simpl. by rewrite Ht.
  - destruct (IH A) as [IH1 IH2]; [by eexists|]. simpl. rewrite Ht, IH1. split; [done|]. intros He. by rewrite (IH2 He).
Qed.

Lemma shown_ascending A : A `prefix_of` shown → ascending A ∧ ∀ d, d ∈ A → -1 < re_seq d.
Proof.
  assert (∃ rest, log = shown ++ rest) as (rest & Hlog).
  { clear. induction log as [|d l (rest & IH)]; [by exists []|]. simpl. destruct (isTerminalEvent _); [by exists l|]. exists rest. simpl. by f_equal. }
  intros (k & Hk). pose proof log_ascending as Hasc. rewrite Hlog, Hk, <-app_assoc in Hasc. split; [by apply ascending_split in Hasc as [? _]|].
  intros d Hd. assert (0 <= re_seq d); [|lia]. apply log_numbered. rewrite Hlog, Hk. set_solver.
Qed.

Lemma frames_shown A : A `prefix_of` shown → frames_of A false = map fr_event A.
Proof.
  intros [Hu _]%until_prefix. induction A as [|d A IH]; [done|]. simpl in *. destruct (isTerminalEvent _); [by injection Hu as <-|].
  injection Hu as Hu. by rewrite IH.
Qed.

(** A connection that gets no further changes nothing, and one that gets further
    goes on where the page was. *)
Lemma no_further A B :
  A `prefix_of` shown → B `prefix_of` A →
  receive_all (receive_all (EMPTY, false) (map fr_event A)) (map fr_event B) = receive_all (EMPTY, false) (map fr_event A).
Proof.
  intros HA (k & HB). destruct (shown_ascending A HA) as [Hasc Hpos]. destruct (until_prefix log A HA) as [Hu Hend].
  pose proof (receive_new EMPTY (-1) A eq_refl Hasc Hpos Hu) as Hnew.
  destruct (receive_all (EMPTY, false) (map fr_event A)) as [s closed]. destruct Hnew as (_ & -> & m & Hm & _ & Hall).
  destruct (ends A) eqn:He; [apply receive_closed|]. apply (receive_old s m); [done| |].
  - rewrite HB in He. unfold ends in *. rewrite existsb_app in He. by apply orb_false_iff in He as [? _].
  - intros d Hd. apply Hall. rewrite HB. set_solver.
Qed.
Lemma further A B :
  A `prefix_of` shown → A `prefix_of` B →
  receive_all (receive_all (EMPTY, false) (map fr_event A)) (map fr_event B) = receive_all (EMPTY, false) (map fr_event B).
Proof.
  intros HA (k & ->). rewrite map_app. unfold receive_all at 1 3. rewrite !fold_left_app.
  change (fold_left receive_frame (map fr_event A) (receive_all (EMPTY, false) (map fr_event A)))
    with (receive_all (receive_all (EMPTY, false) (map fr_event A)) (map fr_event A)). by rewrite no_further.
Qed.

(** However often a connection drops and is opened again from the beginning, the
    page shows what it would show had it kept the one that got furthest: no word
    twice, none out of order, none missing before the last one it received. *)
Theorem reconnecting_repeats_nothing As :
  Forall (λ A, A `prefix_of` shown) As →
  ∃ A, A `prefix_of` shown ∧ (∀ B, B ∈ As → B `prefix_of` A) ∧ (A = [] ∨ A ∈ As) ∧
    page (map (λ A, frames_of A false) As) = page [frames_of A false] ∧
    rs_text (page (map (λ A, frames_of A false) As)).1 = words_of A.
Proof.
  intros HAs. assert (∃ A, A `prefix_of` shown ∧ (∀ B, B ∈ As → B `prefix_of` A) ∧ (A = [] ∨ A ∈ As) ∧
    page (map (λ A, frames_of A false) As) = receive_all (EMPTY, false) (map fr_event A)) as (A & HA & Hall & Hin & Hpage).
  { induction As as [|B As IH] using rev_ind; [exists []; split_and!; [apply prefix_nil|set_solver|by left|done]|].
    apply Forall_app in HAs as [HAs [HB _]%Forall_cons]. destruct (IH HAs) as (A & HA & Hall & Hin & Hpage).
    unfold page in *. rewrite map_app, concat_app. unfold receive_all at 1. rewrite fold_left_app. fold (receive_all (EMPTY, false) (concat (map (λ A, frames_of A false) As))).
    rewrite Hpage. cbn [map concat]. rewrite app_nil_r, (frames_shown B HB). fold (receive_all (receive_all (EMPTY, false) (map fr_event A)) (map fr_event B)).
    assert (B `prefix_of` A ∨ A `prefix_of` B) as Hcmp by (destruct (prefix_weak_total A B shown); auto).
    destruct Hcmp as [HBA|HAB]; [exists A; rewrite no_further by done|exists B; rewrite further by done].
    - split_and!; [done| |set_solver|done]. intros X [HX| ->%list_elem_of_singleton]%elem_of_app; [by apply Hall|done].
    - split_and!; [done| |set_solver|done]. intros X [HX| ->%list_elem_of_singleton]%elem_of_app; [by etrans; [apply Hall|]|done]. }
  exists A. split_and!; [done..| |].
  - rewrite Hpage. unfold page. cbn [concat]. by rewrite app_nil_r, frames_shown.
  - rewrite Hpage. destruct (shown_ascending A HA) as [Hasc Hpos].
    pose proof (receive_new EMPTY (-1) A eq_refl Hasc Hpos (proj1 (until_prefix log A HA))) as Hnew.
    destruct (receive_all _ _) as [s closed]. cbn [fst]. by destruct Hnew as (-> & _).
Qed.
End Watching.

(** ** Concrete logs *)
Notation EventRows := (gmap string RunEventDoc).
Definition an_event (seq : Z) (type text : string) : RunEventDoc := {|
  re_runId := "run_1"; re_workspaceId := "wks_1"; re_seq := seq; re_type := type; re_payload := VObject [("text", VString text)]; re_createdAt := seq |}.
Definition a_log : list RunEventDoc := [an_event 0 "text_delta" "Good "; an_event 1 "text_delta" "morning"; an_event 2 "run_finished" ""].
Definition rows (log : list RunEventDoc) : EventRows := list_to_map (map (λ d, (pretty (re_seq d), d)) log).
Definition live (log : list RunEventDoc) : list (bool * option RunEventDoc) := map (λ d, (false, Some d)) log.

Lemma a_log_ascending : ascending a_log.
Proof. unfold a_log. repeat (constructor; simpl; try lia). Qed.

(** What [holds] asks of a collection of some events, checked row by row. *)
Lemma rows_hold (log : list RunEventDoc) :
  ascending log → Forall (λ d, of_run "run_1" "wks_1" d = true) log → NoDup (map (λ d, pretty (re_seq d)) log) → holds "run_1" "wks_1" (rows log) log.
Proof.
  intros Hasc Hof Hnd. rewrite Forall_forall in Hof.
  assert (∀ i d, rows log !! i = Some d ↔ d ∈ log ∧ i = pretty (re_seq d)) as Hrows.
  { intros i d. unfold rows. rewrite <-elem_of_list_to_map; [|by rewrite map_map]. rewrite list_elem_of_fmap. naive_solver. }
  split_and!; [done| |].
  - intros d. split; [intros Hd; split; [by apply Hof|]; exists (pretty (re_seq d)); by apply Hrows|]. intros [_ (id & Hd)]. by apply Hrows in Hd as [? _].
  - intros i j a b [_ ->]%Hrows [_ ->]%Hrows _ _ He. by rewrite He.
Qed.

Lemma readers_agree_witness :
  let opened := [an_event 0 "text_delta" "Good "] in let meanwhile := [an_event 1 "text_delta" "morning"] in let later := [an_event 2 "run_finished" ""] in
  change_subscribe "run_1" "wks_1" (-1) (rows (opened ++ meanwhile)) (live (meanwhile ++ later)) = a_log.
Proof.
  intros opened meanwhile later.
  destruct (readers_agree "run_1" "wks_1" (-1) (rows (opened ++ meanwhile)) (rows a_log) (live (meanwhile ++ later)) opened meanwhile later 1) as [_ ->].
  - exact a_log_ascending.
  - apply rows_hold; [repeat (constructor; simpl; try lia)|repeat constructor|vm_compute; repeat constructor; set_solver].
  - apply rows_hold; [exact a_log_ascending|repeat constructor|vm_compute; repeat constructor; set_solver].
  - vm_compute. lia.
  - vm_compute. lia.
  - repeat constructor.
  - reflexivity.
  - reflexivity.
Defined.

Lemma reconnecting_repeats_nothing_witness :
  rs_text (page (map (λ A, frames_of A false) [take 1 a_log; a_log; take 2 a_log])).1 = "Good morning".
Proof.
  destruct (reconnecting_repeats_nothing a_log a_log_ascending) with (As := [take 1 a_log; a_log; take 2 a_log]) as (A & HA & Hall & _ & _ & ->).
  - intros d Hd. unfold a_log in Hd. repeat (apply elem_of_cons in Hd as [->|Hd]; [simpl; lia|]). by apply elem_of_nil in Hd.
  - repeat constructor; vm_compute; [eexists; reflexivity..|]. eexists. reflexivity.
  - assert (a_log `prefix_of` A) as (k & Hk) by (apply Hall; right; left). destruct HA as (k' & Hk').
    assert (A = a_log) as ->; [|reflexivity]. apply (f_equal length) in Hk' as Hlen. rewrite length_app, Hk, length_app in Hlen. simpl in Hlen.
    rewrite Hk. destruct k; [by rewrite app_nil_r|simpl in Hlen; lia].
Defined.

(** A backlog beyond the limit of the replay is skipped: the change stream only
    carries what was inserted after it was opened. *)
Definition backlog : list RunEventDoc := map (λ n, an_event (Z.of_nat n) "text_delta" "w") (seq 0 1003).
Example long_backlogs_have_a_gap :
  let sent := change_subscribe "run_1" "wks_1" (-1) (rows backlog) (live [an_event 1003 "run_finished" ""]) in
  map re_seq (drop 998 sent) = [998; 999; 1003] ∧ map re_seq (drop 998 (poll_subscribe "run_1" "wks_1" (-1) [rows backlog; rows backlog])) = [998; 999; 1000; 1001; 1002].
Proof. split; vm_compute; reflexivity. Qed.

(** A run that waited for an approval is followed to its suspension and no
    further: reading from the beginning, the reader meets the suspension again. *)
Definition resumed_log : list RunEventDoc :=
  [an_event 0 "text_delta" "May I?"; an_event 1 "run_suspended" ""; an_event 2 "text_delta" "Done."; an_event 3 "run_finished" ""].
Example resumed_runs_are_not_followed :
  poll_subscribe "run_1" "wks_1" (-1) [rows resumed_log; rows resumed_log] = take 2 resumed_log ∧
  change_subscribe "run_1" "wks_1" (-1) (rows (take 2 resumed_log)) (live (drop 2 resumed_log)) = take 2 resumed_log.
Proof. split; vm_compute; reflexivity. Qed.

(** The frame that announces a failed stream carries no number: the page forgets
    what it has seen, and the next connection repeats the answer. *)
Example failed_streams_repeat_the_answer :
  rs_text (page [frames_of (take 2 a_log) true; frames_of a_log false]).1 = "Good morningGood morning".
Proof. vm_compute. reflexivity. Qed.
