(* ===== verification/WebReader.v ===== *)
(** * Reading a web page for an assistant

    Models apps/web/src/lib/web-service.ts and the read_page and search tools of
    packages/servers/src/web.ts: which addresses may be reached, the redirects,
    how much is read, and the parts a long page comes in.  The text of node's
    isIP is translated; name resolution, the network, the URL parser and the
    decoder of UTF-8 are parameters, and the words of a page are an argument of
    the tool. *)
From S2P Require Import Prelude Json JsonText Text Entities Guard.

(** ** Addresses *)

(** The value of a byte written in decimal, without leading zeros. *)
Definition dec_byte (s : string) : option Z :=
  match read_digits 0 s with
  | (n, EmptyString) =>
      match s with
      | EmptyString => None
      | String c rest => if (Ascii.eqb c "0" && negb (String.eqb rest "")) || (255 <? n) then None else Some n
      end
  | _ => None
  end.
Definition ipv4_of (s : string) : option (Z * Z * Z * Z) :=
  match map dec_byte (str_split "." s) with
  | [Some a; Some b; Some c; Some d] => Some (a, b, c, d)
  | _ => None
  end.

Definition is_hex (c : Ascii.ascii) : bool := bool_decide (is_Some (hex_of c)).
Definition hextet (s : string) : bool := str_all is_hex s && (1 <=? String.length s)%nat && (String.length s <=? 4)%nat.
(** The number of groups of a run of hextets; the last may be an IPv4 address. *)
Fixpoint groups (v4_last : bool) (parts : list string) : option nat :=
  match parts with
  | [] => Some 0%nat
  | [p] => if hextet p then Some 1%nat else if v4_last && bool_decide (is_Some (ipv4_of p)) then Some 2%nat else None
  | p :: r => if hextet p then S <$> groups v4_last r else None
  end.
Definition run_of (v4_last : bool) (s : string) : option nat := if String.eqb s "" then Some 0%nat else groups v4_last (str_split ":" s).
(** The text before and after the first [::]. *)
Fixpoint at_gap (s : string) : option (string * string) :=
  match s with
  | String ":" (String ":" r) => Some ("", r)
  | String c r => '(a, b) ← at_gap r; Some (String c a, b)
  | EmptyString => None
  end.
Definition zone_char (c : Ascii.ascii) : bool := is_alnum c || Ascii.eqb c "-" || Ascii.eqb c "." || Ascii.eqb c ":".
Definition is_ipv6 (s : string) : bool :=
  match str_split "%" s with
  | [addr] | [addr; _] =>
      match str_split "%" s with [_; zone] => str_all zone_char zone && negb (String.eqb zone "") | _ => true end &&
      match at_gap addr with
      | Some (a, b) => match run_of false a, run_of true b with Some m, Some n => (m + n <=? 7)%nat | _, _ => false end
      | None => bool_decide (run_of true addr = Some 8%nat)
      end
  | _ => false
  end.
(** [isIP] of node:net. *)
Definition isIP (s : string) : Z := if ipv4_of s then 4 else if is_ipv6 s then 6 else 0.

Definition private_v4 (a b : Z) : bool :=
  (a =? 0) || (a =? 10) || (a =? 127)
  || (a =? 100) && (64 <=? b) && (b <=? 127)
  || (a =? 169) && (b =? 254)
  || (a =? 172) && (16 <=? b) && (b <=? 31)
  || (a =? 192) && (b =? 168)
  || (a =? 192) && (b =? 0)
  || (a =? 198) && ((b =? 18) || (b =? 19))
  || (224 <=? a).
Definition private_prefixes : list string := ["fc"; "fd"; "fe8"; "fe9"; "fea"; "feb"; "ff"].
(** [isPrivateAddress]; the text after a mapped prefix is shorter, so its length is fuel enough. *)
Fixpoint private_address (fuel : nat) (ip : string) : bool :=
  match ipv4_of ip with
  | Some (a, b, _, _) => private_v4 a b
  | None =>
      if is_ipv6 ip then
        let low := toLowerCase ip in
        if String.eqb low "::" || String.eqb low "::1" then true
        else if String.prefix "::ffff:" low
             then match fuel with S fuel' => private_address fuel' (str_drop 7 low) | O => true end
        else existsb (λ p, String.prefix p low) private_prefixes
      else true
  end.
Definition isPrivateAddress (ip : string) : bool := private_address (String.length ip) ip.

(** ** What may be reached *)

Record WebUrl := { wu_protocol : string; wu_hostname : string; wu_href : string }.
Inductive WebError :=
| we_not_a_url | we_scheme | we_private | we_unknown_host (host : string) | we_too_slow | we_unreachable (reason : string) | we_nowhere | we_not_a_page (type : string) | we_too_many.

(** [hostname.replace(/^\[|\]$/g, '')]. *)
Fixpoint drop_last_bracket (s : string) : string :=
  match s with
  | EmptyString => ""
  | String "]" EmptyString => ""
  | String c r => String c (drop_last_bracket r)
  end.
Definition unbracket (s : string) : string := drop_last_bracket (match s with String "[" r => r | _ => s end).
Definition ends_with (suffix s : string) : bool :=
  (String.length suffix <=? String.length s)%nat && String.eqb (str_drop (String.length s - String.length suffix) s) suffix.

(** What the name resolves to when it is looked up; [None] is a failure. *)
Definition assertPublic (lookup : string → option (list string)) (target : WebUrl) : outcome WebError unit :=
  if negb (String.eqb (wu_protocol target) "http:") && negb (String.eqb (wu_protocol target) "https:") then Throw we_scheme
  else
    let host := unbracket (wu_hostname target) in
    if String.eqb host "localhost" || ends_with ".localhost" host || ends_with ".internal" host then Throw we_private
    else match (if negb (isIP host =? 0) then Some [host] else lookup host) with
         | None => Throw (we_unknown_host host)
         | Some addresses => match addresses with
                             | [] => Throw we_private
                             | _ => if existsb isPrivateAddress addresses then Throw we_private else Ret ()
                             end
         end.

(** ** How much is read *)

Definition MAX_BYTES : Z := 2000000.
Definition MAX_REDIRECTS : nat := 5.

(** The loop of [readUpTo]: the chunks taken and their total. *)
Fixpoint take_chunks (limit total : Z) (chunks : list (list Z)) : list (list Z) * Z :=
  match chunks with
  | [] => ([], total)
  | v :: r =>
      let total' := total + Z.of_nat (length v) in
      if limit <=? total' then ([v], total') else let '(vs, t) := take_chunks limit total' r in (v :: vs, t)
  end.
(** The loop of [concat], into an array of the given length, zeros where nothing is set. *)
Fixpoint fill (length_ offset : nat) (chunks : list (list Z)) : list Z :=
  match chunks with
  | [] => replicate (length_ - offset) 0
  | chunk :: r =>
      let n := Nat.min (length chunk) (length_ - offset) in
      take n chunk ++ if (length_ <=? offset + n)%nat then replicate (length_ - (offset + n)) 0 else fill length_ (offset + n) r
  end.
Definition concat_chunks (chunks : list (list Z)) (length_ : nat) : list Z := fill length_ 0 chunks.

Record WebResponse := { wr_status : Z; wr_location : option string; wr_contentType : option string; wr_body : option (list (list Z)); wr_text : string }.
Record FetchedPage := { fp_url : string; fp_status : Z; fp_contentType : string; fp_body : string }.

Section Reading.
Context (decode : list Z → string).
Definition readUpTo (response : WebResponse) (limit : Z) : string :=
  match wr_body response with
  | None => wr_text response
  | Some chunks => let '(taken, total) := take_chunks limit 0 chunks in decode (concat_chunks taken (Z.to_nat (Z.min total limit)))
  end.

Definition readable (contentType : string) : bool :=
  let low := toLowerCase contentType in
  String.eqb contentType "" || str_includes "text/" low || str_includes "html" low || str_includes "xml" low || str_includes "json" low.

(** What the network does with the n-th request. *)
Inductive NetAnswer := na_response (r : WebResponse) | na_failed (aborted : bool) (reason : string).

Context (parse_url : string → option WebUrl) (resolve_url : string → WebUrl → option WebUrl).
Context (lookup : nat → string → option (list string)) (network : nat → WebUrl → NetAnswer).

(** The loop over the hops: the page and the addresses that were requested. *)
Fixpoint hops (left : nat) (hop : nat) (current : WebUrl) : outcome WebError FetchedPage * list WebUrl :=
  match left with
  | O => (Throw we_too_many, [])
  | S left' =>
      match assertPublic (lookup hop) current with
      | Throw e => (Throw e, [])
      | Ret _ =>
          match network hop current with
          | na_failed aborted reason => (Throw (if aborted : bool then we_too_slow else we_unreachable reason), [current])
          | na_response response =>
              if (300 <=? wr_status response) && (wr_status response <? 400) then
                match wr_location response with
                | None => (Throw we_nowhere, [current])
                | Some location =>
                    match resolve_url location current with
                    | None => (Throw we_not_a_url, [current])
                    | Some next => let '(r, asked) := hops left' (S hop) next in (r, current :: asked)
                    end
                end
              else
                let contentType := default "" (wr_contentType response) in
                if negb (readable contentType) then (Throw (we_not_a_page (default "" (head (str_split ";" contentType)))), [current])
                else (Ret {| fp_url := wu_href current; fp_status := wr_status response; fp_contentType := contentType; fp_body := readUpTo response MAX_BYTES |},
                      [current])
          end
      end
  end.
Definition fetch_page (url : string) : outcome WebError FetchedPage * list WebUrl :=
  match parse_url url with
  | None => (Throw we_not_a_url, [])
  | Some current => hops (S MAX_REDIRECTS) 0 current
  end.
End Reading.

(** ** Search *)

Record SearchResult := { sr_title : string; sr_url : string; sr_snippet : string }.
Definition collapse (s : string) : string := join " " (runs_of "" s).
Definition clamp_count (count : Z) : Z := Z.min (Z.max count 1) 10.
Definition string_field (v : value) (k : string) : option string := match own v k with VString s => Some s | _ => None end.
(** The items of the search engine's answer that have an address. *)
Definition search_results (body : value) : list SearchResult :=
  match own body "items" with
  | VArray items => omap (λ item,
      match string_field item "link" with
      | Some link => if String.eqb link "" then None else
          Some {| sr_title := js_trim (default link (string_field item "title")); sr_url := link; sr_snippet := collapse (default "" (string_field item "snippet")) |}
      | None => None
      end) items
  | _ => []
  end.

(** ** The parts of a page *)

Definition MAX_CHARS : nat := Z.to_nat 12000.
(** The slice that starts at an offset, and the offset of the next one. *)
Definition page_part (text : string) (from : nat) : string * option nat :=
  let from' := Nat.min from (String.length text) in
  let slice := str_take MAX_CHARS (str_drop from' text) in
  let remaining := (String.length text - (from' + String.length slice))%nat in
  (slice, if (0 <? remaining)%nat then Some (from' + String.length slice)%nat else None).

(** ** No address inside the network *)

(** The number of an IPv4 address, and the blocks that are not public. *)
Definition v4_number (q : Z * Z * Z * Z) : Z := let '(a, b, c, d) := q in ((a * 256 + b) * 256 + c) * 256 + d.
Definition in_block (n : Z) (block : (Z * Z * Z * Z) * Z) : Prop := n / 2 ^ (32 - block.2) = v4_number block.1 / 2 ^ (32 - block.2).
Definition NOT_PUBLIC : list ((Z * Z * Z * Z) * Z) :=
  [((0, 0, 0, 0), 8); ((10, 0, 0, 0), 8); ((127, 0, 0, 0), 8); ((100, 64, 0, 0), 10); ((169, 254, 0, 0), 16); ((172, 16, 0, 0), 12);
   ((192, 168, 0, 0), 16); ((192, 0, 0, 0), 16); ((198, 18, 0, 0), 15); ((224, 0, 0, 0), 3)].

Lemma read_digits_nonneg acc s n r : 0 <= acc → read_digits acc s = (n, r) → 0 <= n.
Proof.
  revert acc. induction s as [|c s IH]; intros acc Ha; simpl; [intros [= <- _]; done|]. unfold digit_of.
  destruct (_ && _) eqn:Hd; [|intros [= <- _]; done]. apply IH. apply andb_true_iff in Hd as [? ?]. lia.
Qed.
Lemma dec_byte_range s n : dec_byte s = Some n → 0 <= n < 256.
Proof.
  unfold dec_byte. destruct (read_digits 0 s) as [m [|]] eqn:Hr; [|done]. destruct s as [|c rest]; [done|].
  destruct (_ || _) eqn:Ho; [done|]. intros [= <-]. apply orb_false_iff in Ho as [_ Ho]. apply read_digits_nonneg in Hr; lia.
Qed.
Lemma ipv4_range s a b c d : ipv4_of s = Some (a, b, c, d) → 0 <= a < 256 ∧ 0 <= b < 256 ∧ 0 <= c < 256 ∧ 0 <= d < 256.
Proof.
  unfold ipv4_of. destruct (str_split "." s) as [|p [|q [|r [|t [|]]]]]; simpl; try done; [repeat case_match; done..| |repeat case_match; done].
  destruct (dec_byte p) eqn:Hp, (dec_byte q) eqn:Hq, (dec_byte r) eqn:Hr, (dec_byte t) eqn:Ht; try done. intros [= <- <- <- <-].
  split_and!; eapply dec_byte_range; done.
Qed.

(** A block of at most sixteen bits is decided by the first two bytes. *)
Lemma block_number a b c d len p q :
  0 <= c < 256 → 0 <= d < 256 → 0 <= len <= 16 →
  in_block (v4_number (a, b, c, d)) ((p, q, 0, 0), len) ↔ (a * 256 + b) / 2 ^ (16 - len) = (p * 256 + q) / 2 ^ (16 - len).
Proof.
  intros Hc Hd Hl. unfold in_block, v4_number. cbn [fst snd].
  assert (∀ x y z, 0 <= y < 256 → 0 <= z < 256 → ((x * 256 + y) * 256 + z) / 2 ^ (32 - len) = x / 2 ^ (16 - len)) as Hdiv.
  { intros x y z Hy Hz. replace (32 - len) with (16 + (16 - len)) by lia. rewrite Z.pow_add_r by lia. rewrite <-Z.div_div by lia. f_equal.
    change (2 ^ 16) with 65536. symmetry. apply (Z.div_unique _ _ _ (y * 256 + z)); lia. }
  rewrite !Hdiv by lia. done.
Qed.

Lemma quotient_is n m k : 0 < m → n / m = k ↔ k * m <= n < (k + 1) * m.
Proof.
  intros Hm. split.
  - intros <-. pose proof (Z.mul_div_le n m Hm). pose proof (Z.mul_succ_div_gt n m Hm). lia.
  - intros Hk. symmetry. apply (Z.div_unique _ _ _ (n - k * m)); lia.
Qed.

(** The test on the first two bytes is membership in the blocks. *)
Theorem private_v4_is_the_blocks s a b c d :
  ipv4_of s = Some (a, b, c, d) → isPrivateAddress s = true ↔ Exists (in_block (v4_number (a, b, c, d))) NOT_PUBLIC.
Proof.
  intros Hs. pose proof (ipv4_range s a b c d Hs) as (Ha & Hb & Hc & Hd).
  assert (isPrivateAddress s = private_v4 a b) as -> by (unfold isPrivateAddress; destruct (String.length s); cbn [private_address]; by rewrite Hs).
  unfold NOT_PUBLIC. rewrite !Exists_cons, Exists_nil.
  rewrite !block_number by lia. unfold private_v4.
  rewrite !orb_true_iff, !andb_true_iff, !orb_true_iff, !Z.eqb_eq, !Z.leb_le.
  repeat match goal with |- context [2 ^ ?k] => let v := eval vm_compute in (2 ^ k) in change (2 ^ k) with v end.
  repeat match goal with |- context [?k / ?m] => let v := eval vm_compute in (k / m) in lazymatch v with Z0 => idtac | Zpos _ => idtac end; change (k / m) with v end.
  rewrite !quotient_is, !Logic.or_assoc by lia. repeat (apply Morphisms_Prop.or_iff_morphism; [lia|]). lia.
Qed.

(** *** IPv6 *)

(** The first group of an address, when it is written with four digits. *)
Definition leading_group (s : string) : option Z :=
  match s with
  | String a (String b (String c (String d (String ":" _)))) =>
      h1 ← hex_of a; h2 ← hex_of b; h3 ← hex_of c; h4 ← hex_of d; Some (((h1 * 16 + h2) * 16 + h3) * 16 + h4)
  | _ => None
  end.
(** Unique local, link-local and multicast addresses, by their first group. *)
Definition V6_NOT_PUBLIC : list (Z * Z) := [(0xfc00, 0xfdff); (0xfe80, 0xfebf); (0xff00, 0xffff)].

(** What the check says of an address: an IPv4 address, alone or behind [::ffff:], is in
    none of the blocks; an IPv6 address is not written [::] or [::1] and does not begin
    with a group of four digits from the ranges. *)
Definition public_address (a : string) : Prop :=
  isIP a ≠ 0 ∧ (∀ q, ipv4_of a = Some q → ¬ Exists (in_block (v4_number q)) NOT_PUBLIC) ∧
  (ipv4_of a = None → toLowerCase a ≠ "::" ∧ toLowerCase a ≠ "::1" ∧
     (∀ q, String.prefix "::ffff:" (toLowerCase a) = true → ipv4_of (str_drop 7 (toLowerCase a)) = Some q → ¬ Exists (in_block (v4_number q)) NOT_PUBLIC) ∧
     (∀ n, leading_group a = Some n → ¬ Exists (λ range, range.1 <= n <= range.2) V6_NOT_PUBLIC)).

Lemma hex_range c h : hex_of c = Some h → 0 <= h < 16.
Proof. unfold hex_of. repeat case_match; try done; intros [= <-]; bool_prop; lia. Qed.
Lemma hex_lower c h : hex_of c = Some h → 8 <= h → lower c =
  match h with 8 => "8" | 9 => "9" | 10 => "a" | 11 => "b" | 12 => "c" | 13 => "d" | 14 => "e" | _ => "f" end%char.
Proof. destruct c as [[] [] [] [] [] [] [] []]; vm_compute; intros [= <-] H; (reflexivity || (exfalso; by apply H)). Qed.
Lemma hex_no_colon c h : hex_of c = Some h → lower c ≠ ":"%char.
Proof. destruct c as [[] [] [] [] [] [] [] []]; vm_compute; intros Hh Hc; discriminate. Qed.

(** A group from the ranges is seen in its first digits. *)
Lemma group_prefix a n : leading_group a = Some n → Exists (λ range, range.1 <= n <= range.2) V6_NOT_PUBLIC →
  existsb (λ p, String.prefix p (toLowerCase a)) private_prefixes = true.
Proof.
  unfold leading_group. destruct a as [|c1 [|c2 [|c3 [|c4 [|c5 r]]]]]; try done.
  destruct (Ascii.eqb_spec c5 ":") as [->|Hne]; [|by destruct c5 as [[] [] [] [] [] [] [] []]].
  destruct (hex_of c1) as [h1|] eqn:E1; [|done]. destruct (hex_of c2) as [h2|] eqn:E2; [|done]. destruct (hex_of c3) as [h3|] eqn:E3; [|done].
  destruct (hex_of c4) as [h4|] eqn:E4; [|done]. cbn [mbind option_bind]. intros [= <-]. unfold V6_NOT_PUBLIC. rewrite !Exists_cons, Exists_nil. cbn [fst snd].
  pose proof (hex_range _ _ E1). pose proof (hex_range _ _ E2). pose proof (hex_range _ _ E3). pose proof (hex_range _ _ E4).
  intros Hn. assert (h1 = 15) as -> by lia. pose proof (hex_lower _ _ E1 ltac:(lia)) as L1.
  assert (12 <= h2) as Hh2 by lia. pose proof (hex_lower _ _ E2 ltac:(lia)) as L2.
  unfold toLowerCase, private_prefixes. cbn [str_map existsb String.prefix]. rewrite L1.
  assert (h2 = 12 ∨ h2 = 13 ∨ h2 = 14 ∧ 8 <= h3 <= 11 ∨ h2 = 15) as Hcase by lia.
  destruct Hcase as [->|[->|[[-> H3]| ->]]]; rewrite L2; try reflexivity.
  pose proof (hex_lower _ _ E3 ltac:(lia)) as L3. rewrite L3. assert (h3 = 8 ∨ h3 = 9 ∨ h3 = 10 ∨ h3 = 11) as [->|[->|[->| ->]]] by lia; reflexivity.
Qed.

Lemma not_private_v4 fuel s q : private_address fuel s = false → ipv4_of s = Some q → ¬ Exists (in_block (v4_number q)) NOT_PUBLIC.
Proof.
  destruct q as [[[a b] c] d]. intros Hp Hq Hblk. apply (private_v4_is_the_blocks s a b c d Hq) in Hblk.
  unfold isPrivateAddress in Hblk. destruct (String.length s), fuel; cbn [private_address] in *; rewrite Hq in *; congruence.
Qed.

Lemma not_private_public a : isPrivateAddress a = false → public_address a.
Proof.
  intros Hp. pose proof (not_private_v4 (String.length a) a) as Hv4. unfold isPrivateAddress in Hp. unfold public_address, isIP.
  destruct (ipv4_of a) as [q|] eqn:Hq.
  { split; [by destruct q as [[[]]]|]. split; [|done]. intros q' [= <-]. by eapply Hv4. }
  assert (is_ipv6 a = true) as H6 by (destruct (String.length a); cbn [private_address] in Hp; rewrite Hq in Hp; by destruct (is_ipv6 a)).
  rewrite H6. split; [done|]. split; [done|]. intros _.
  assert (∃ fuel, (if String.eqb (toLowerCase a) "::" || String.eqb (toLowerCase a) "::1" then true
     else if String.prefix "::ffff:" (toLowerCase a) then match fuel with S f => private_address f (str_drop 7 (toLowerCase a)) | O => true end
     else existsb (λ p, String.prefix p (toLowerCase a)) private_prefixes) = false) as [fuel Hf]
    by (exists (String.length a); destruct (String.length a); cbn [private_address] in Hp; rewrite Hq, H6 in Hp; exact Hp).
  destruct (String.eqb_spec (toLowerCase a) "::") as [|N1]; [done|]. destruct (String.eqb_spec (toLowerCase a) "::1") as [|N2]; [done|]. cbn [orb] in Hf.
  split; [done|]. split; [done|]. split.
  - intros q Hpre Hmapped. rewrite Hpre in Hf. destruct fuel as [|f]; [done|]. by eapply not_private_v4.
  - intros n Hn Hr. destruct (String.prefix "::ffff:" (toLowerCase a)) eqn:Hpre.
    + unfold leading_group in Hn. destruct a as [|c1 r]; [done|]. destruct (hex_of c1) as [h1|] eqn:E1.
      * apply hex_no_colon in E1. unfold toLowerCase in Hpre. cbn [str_map String.prefix] in Hpre. by destruct (Ascii.ascii_dec ":" (lower c1)).
      * destruct r as [|c2 [|c3 [|c4 [|c5 r]]]]; try done. by destruct c5 as [[] [] [] [] [] [] [] []].
    + by rewrite (group_prefix a n Hn Hr) in Hf.
Qed.

(** The addresses a request was allowed for. *)
Definition checked_addresses (lookup : string → option (list string)) (target : WebUrl) : option (list string) :=
  let host := unbracket (wu_hostname target) in if negb (isIP host =? 0) then Some [host] else lookup host.

Lemma public_target lookup target :
  assertPublic lookup target = Ret () →
  (wu_protocol target = "http:" ∨ wu_protocol target = "https:") ∧
  ∃ addresses, checked_addresses lookup target = Some addresses ∧ addresses ≠ [] ∧ ∀ a, a ∈ addresses → isPrivateAddress a = false.
Proof.
  unfold assertPublic, checked_addresses. destruct (String.eqb_spec (wu_protocol target) "http:") as [?|], (String.eqb_spec (wu_protocol target) "https:") as [?|];
    cbn [negb andb]; try done; intros H; (split; [by auto|]); destruct (_ || _ || _); try done;
    (destruct (if negb (isIP _ =? 0) then _ else _) as [[|a addrs]|]; try done);
    (destruct (existsb isPrivateAddress (a :: addrs)) eqn:He; [done|]); exists (a :: addrs); (split_and!; [done..|]);
    intros x Hx; apply not_true_iff_false; intros Ht; apply not_true_iff_false in He; apply He, existsb_exists; exists x; by rewrite <-list_elem_of_In.
Qed.

Section Requests.
Context (decode : list Z → string) (parse_url : string → option WebUrl) (resolve_url : string → WebUrl → option WebUrl).
Context (lookup : nat → string → option (list string)) (network : nat → WebUrl → NetAnswer).

(** What is true of the n-th request, counted from a hop. *)
Definition outside (n : nat) (u : WebUrl) : Prop :=
  (wu_protocol u = "http:" ∨ wu_protocol u = "https:") ∧
  ∃ addresses, checked_addresses (lookup n) u = Some addresses ∧ addresses ≠ [] ∧
    ∀ a, a ∈ addresses → public_address a.

Lemma hops_outside left hop current :
  let '(_, asked) := hops decode resolve_url lookup network left hop current in
  (length asked <= left)%nat ∧ ∀ i u, asked !! i = Some u → outside (hop + i) u.
Proof.
  revert hop current. induction left as [|left IH]; intros hop current; cbn [hops]; [by split; [simpl; lia|]|].
  destruct (assertPublic (lookup hop) current) as [[]|e] eqn:Ha; [|by split; [simpl; lia|]].
  apply public_target in Ha as (Hp & addrs & Hc & Hne & Hpub).
  assert (outside (hop + 0) current) as Hout.
  { rewrite Nat.add_0_r. split; [done|]. exists addrs. split_and!; [done..|]. intros a Hin. by apply not_private_public, Hpub. }
  assert (∀ r : outcome WebError FetchedPage, let '(_, asked) := (r, [current]) in (length asked <= S left)%nat ∧ ∀ i u, asked !! i = Some u → outside (hop + i) u) as Hone.
  { intros _. split; [simpl; lia|]. intros [|i] u Hi; [by injection Hi as <-|done]. }
  destruct (network hop current) as [response|]; [|apply Hone; exact (Throw we_nowhere)].
  destruct (_ && _).
  - destruct (wr_location response); [|apply Hone; exact (Throw we_nowhere)]. destruct (resolve_url _ _) as [next|]; [|apply Hone; exact (Throw we_nowhere)].
    specialize (IH (S hop) next). destruct (hops _ _ _ _ left (S hop) next) as [r asked]. destruct IH as [Hlen Hall].
    split; [simpl; lia|]. intros [|i] u Hi; [by injection Hi as <-|]. rewrite Nat.add_succ_r. by apply (Hall i u).
  - destruct (negb _); apply Hone; exact (Throw we_nowhere).
Qed.

(** C26.  Every request a page costs, the redirects of hostile servers included, is for
    http or https and goes to a host whose every address, as it resolved at that hop, was
    checked: an IPv4 address, alone or behind [::ffff:], lies in none of the private and
    reserved blocks, and an IPv6 address is not written [::] or [::1] and does not begin
    with a group from the unique local, link-local and multicast ranges, which is where
    the usual spelling shows them.  There are at most six requests.  An IPv6 address in
    another spelling, and one that translates to a private IPv4 address, is not
    recognised ([ipv6_is_judged_by_its_spelling]); and the connection itself resolves the
    name once more. *)
Theorem requests_stay_outside url :
  let '(_, asked) := fetch_page decode parse_url resolve_url lookup network url in
  (length asked <= 6)%nat ∧ ∀ i u, asked !! i = Some u → outside i u.
Proof.
  unfold fetch_page. destruct (parse_url url) as [current|]; [|by split; [simpl; lia|]].
  pose proof (hops_outside (S MAX_REDIRECTS) 0 current) as Hh. by destruct (hops _ _ _ _ _ _ _).
Qed.
End Requests.

(** ** What is kept of a body *)

Lemma fill_spec length_ offset chunks :
  (offset <= length_)%nat → fill length_ offset chunks = take (length_ - offset) (concat chunks ++ replicate (length_ - offset) 0).
Proof.
  revert offset. induction chunks as [|v r IH]; intros offset Ho; cbn [fill concat].
  { simpl. rewrite take_ge; [done|]. rewrite length_replicate. lia. }
  set (n := Nat.min (length v) (length_ - offset)). rewrite <-app_assoc, take_app. fold n.
  assert (take (length_ - offset) v = take n v) as ->.
  { unfold n. destruct (le_dec (length v) (length_ - offset)); [rewrite Nat.min_l by lia|by rewrite Nat.min_r by lia]. by rewrite !take_ge by lia. }
  f_equal. destruct (Nat.leb_spec length_ (offset + n)).
  - replace (length_ - (offset + n))%nat with 0%nat by lia. replace (length_ - offset - length v)%nat with 0%nat by (unfold n in *; lia). done.
  - rewrite IH by lia. replace (length_ - (offset + n))%nat with (length_ - offset - length v)%nat by (unfold n in *; lia).
    assert (replicate (length_ - offset) 0 = replicate (length_ - offset - length v) 0 ++ replicate (length v) 0) as ->
      by (rewrite <-replicate_add; f_equal; unfold n in *; lia).
    rewrite app_assoc, (take_app_le (concat r ++ _)); [done|]. rewrite length_app, length_replicate. lia.
Qed.

Lemma take_chunks_spec limit total chunks :
  0 <= total < limit →
  let '(taken, t) := take_chunks limit total chunks in
  t = total + Z.of_nat (length (concat taken)) ∧ take (Z.to_nat (limit - total)) (concat taken) = take (Z.to_nat (limit - total)) (concat chunks).
Proof.
  revert total. induction chunks as [|v r IH]; intros total Ht; cbn [take_chunks concat]; [simpl; split; [lia|done]|].
  destruct (Z.leb_spec limit (total + Z.of_nat (length v))).
  - cbn [concat]. rewrite app_nil_r. split; [done|]. rewrite take_app_le; [done|lia].
  - specialize (IH (total + Z.of_nat (length v)) ltac:(lia)). destruct (take_chunks _ _ r) as [taken t]. destruct IH as [-> IH].
    cbn [concat]. rewrite length_app. split; [lia|]. rewrite !take_app. f_equal.
    replace (Z.to_nat (limit - total) - length v)%nat with (Z.to_nat (limit - (total + Z.of_nat (length v)))) by lia. exact IH.
Qed.

(** A body is read to its limit and cut there, however it is chunked. *)
Theorem bodies_are_cut_at_the_limit decode response chunks :
  wr_body response = Some chunks → readUpTo decode response MAX_BYTES = decode (take (Z.to_nat MAX_BYTES) (concat chunks)).
Proof.
  intros Hb. unfold readUpTo. rewrite Hb. pose proof (take_chunks_spec MAX_BYTES 0 chunks ltac:(unfold MAX_BYTES; lia)) as Ht.
  destruct (take_chunks _ _ _) as [taken t]. destruct Ht as [-> Ht]. rewrite Z.sub_0_r in Ht. rewrite <-Ht. f_equal.
  unfold concat_chunks. rewrite fill_spec by lia. rewrite Nat.sub_0_r, Z.add_0_l.
  destruct (Z.leb_spec (Z.of_nat (length (concat taken))) MAX_BYTES).
  - rewrite Z.min_l, Nat2Z.id, take_app_length by lia. by rewrite take_ge by lia.
  - rewrite Z.min_r by lia. by rewrite take_app_le by lia.
Qed.

(** ** Reading a long page part by part *)

(** The parts a reader gets that asks for the next one until there is none. *)
Fixpoint all_parts (fuel : nat) (text : string) (from : nat) : list string :=
  match fuel with
  | O => []
  | S fuel' => let '(slice, next) := page_part text from in slice :: match next with Some n => all_parts fuel' text n | None => [] end
  end.

(** The parts of a page, joined, are the page; no reader asks more often than the
    page is long. *)
Theorem parts_make_the_page text : String.concat "" (all_parts (S (String.length text)) text 0) = text.
Proof.
  assert (∀ fuel from, (String.length text - from < fuel)%nat → (from <= String.length text)%nat →
            foldr String.append "" (all_parts fuel text from) = str_drop from text) as Hall.
  { induction fuel as [|fuel IH]; intros from Hf Hle; [lia|]. cbn [all_parts]. unfold page_part. rewrite Nat.min_l by lia.
    set (slice := str_take MAX_CHARS (str_drop from text)).
    assert (String.length slice = Nat.min MAX_CHARS (String.length text - from)) as Hlen by (unfold slice; by rewrite str_take_length, str_drop_length).
    destruct (Nat.ltb_spec 0 (String.length text - (from + String.length slice))).
    - cbn [foldr]. assert (1 <= MAX_CHARS)%nat as Hmax by (unfold MAX_CHARS; lia). rewrite IH by lia. rewrite <-str_drop_drop, Hlen, Nat.min_l by lia.
      apply str_take_drop.
    - cbn [foldr]. rewrite str_app_nil_r. unfold slice. rewrite <-(str_take_drop MAX_CHARS (str_drop from text)) at 2.
      assert (str_drop MAX_CHARS (str_drop from text) = "") as ->; [|by rewrite str_app_nil_r].
      assert (String.length (str_drop MAX_CHARS (str_drop from text)) = 0%nat) as H0' by (rewrite !str_drop_length; lia).
      by destruct (str_drop MAX_CHARS (str_drop from text)). }
  transitivity (foldr String.append "" (all_parts (S (String.length text)) text 0)); [|by rewrite Hall by lia].
  generalize (all_parts (S (String.length text)) text 0). intros l. induction l as [|x l IH]; [done|]. simpl. rewrite <-IH. destruct l; [|done]. simpl. by rewrite str_app_nil_r.
Qed.

(** ** Concrete addresses *)
Definition plain_url (s : string) : option WebUrl :=
  rest ← eat "http://" s; let '(host, _) := span (λ c, negb (Ascii.eqb c "/")) rest in Some {| wu_protocol := "http:"; wu_hostname := host; wu_href := s |}.
Definition moved_to (where_ : string) : NetAnswer := na_response {| wr_status := 302; wr_location := Some where_; wr_contentType := None; wr_body := None; wr_text := "" |}.
Definition told (text : string) : NetAnswer := na_response {| wr_status := 200; wr_location := None; wr_contentType := Some "text/html"; wr_body := None; wr_text := text |}.

(** A redirect into the network is refused before it is requested. *)
Example redirects_inside_are_refused :
  fetch_page (λ _, "") plain_url (λ l _, plain_url l) (λ _ _, Some ["93.184.216.34"]) (λ n _, match n with O => moved_to "http://169.254.169.254/latest" | _ => told "keys" end)
    "http://news.example/" = (Throw we_private, [{| wu_protocol := "http:"; wu_hostname := "news.example"; wu_href := "http://news.example/" |}]).
Proof. vm_compute. reflexivity. Qed.

(** The tests on an IPv6 address are tests on its text: one loopback address is
    recognised in its shortest spelling only, and the addresses that translate to
    IPv4 ones are taken for public. *)
Example ipv6_is_judged_by_its_spelling :
  isPrivateAddress "::1" = true ∧ isPrivateAddress "0:0:0:0:0:0:0:1" = false ∧ isPrivateAddress "64:ff9b::a00:1" = false ∧ isPrivateAddress "::ffff:10.0.0.1" = true.
Proof. vm_compute. done. Qed.

Lemma private_v4_is_the_blocks_witness : isPrivateAddress "172.31.0.1" = true.
Proof.
  apply (private_v4_is_the_blocks "172.31.0.1" 172 31 0 1); [vm_compute; reflexivity|].
  do 5 apply Exists_cons_tl. apply Exists_cons_hd. vm_compute. reflexivity.
Defined.
