(* ===== verification/LogRedaction.v ===== *)
(** * Redaction of what is logged

    Models packages/crypto/src/redaction.ts, which the audit log writes through:
    sensitive key names, the shapes of credentials, the entropy test, the walk
    over a value and the sensitive names of a schema.  Regular expressions are
    matched by derivatives; the entropy is compared exactly, where the code
    rounds.  A value is a tree, so the test for cycles is never met. *)
From S2P Require Import Prelude Json Text Entities Guard.

(** ** Regular expressions *)

Inductive Rx := rx_none | rx_empty | rx_class (p : Ascii.ascii → bool) | rx_seq (a b : Rx) | rx_alt (a b : Rx) | rx_star (a : Rx).

Fixpoint nullable (r : Rx) : bool :=
  match r with
  | rx_none | rx_class _ => false
  | rx_empty | rx_star _ => true
  | rx_seq a b => nullable a && nullable b
  | rx_alt a b => nullable a || nullable b
  end.
(** Sequence and alternative, without the expressions that match nothing. *)
Definition joined (d b : Rx) : Rx := match d with rx_none => rx_none | rx_empty => b | d => rx_seq d b end.
Definition either (x y : Rx) : Rx := match x, y with rx_none, d | d, rx_none => d | x, y => rx_alt x y end.
Fixpoint deriv (c : Ascii.ascii) (r : Rx) : Rx :=
  match r with
  | rx_none | rx_empty => rx_none
  | rx_class p => if p c then rx_empty else rx_none
  | rx_seq a b => if nullable a then either (joined (deriv c a) b) (deriv c b) else joined (deriv c a) b
  | rx_alt a b => either (deriv c a) (deriv c b)
  | rx_star a => joined (deriv c a) r
  end.
(** A match of the whole text, and of some prefix of it. *)
Fixpoint matches_all (r : Rx) (s : string) : bool := match s with EmptyString => nullable r | String c s' => matches_all (deriv c r) s' end.
Fixpoint matches_front (r : Rx) (s : string) : bool :=
  nullable r || match s with EmptyString => false | String c s' => match r with rx_none => false | _ => matches_front (deriv c r) s' end end.

(** [pattern.test(text)] for a pattern that begins with a word boundary, or with none. *)
Definition word_char (c : Ascii.ascii) : bool := is_alnum c || Ascii.eqb c "_".
Fixpoint found (boundary : bool) (before : bool) (r : Rx) (s : string) : bool :=
  (match s with String c _ => negb boundary || negb (Bool.eqb before (word_char c)) | EmptyString => negb boundary || before end) && matches_front r s
  || match s with String c s' => found boundary (word_char c) r s' | EmptyString => false end.

Fixpoint lit (s : string) : Rx := match s with EmptyString => rx_empty | String c r => rx_seq (rx_class (Ascii.eqb c)) (lit r) end.
Fixpoint times (n : nat) (r : Rx) : Rx := match n with O => rx_empty | S n' => rx_seq r (times n' r) end.
Definition at_least (n : nat) (r : Rx) : Rx := rx_seq (times n r) (rx_star r).
Definition any_of (s : string) : Rx := rx_class (λ c, str_has c s).
Definition opt (r : Rx) : Rx := rx_alt r rx_empty.
Definition id_class : Rx := rx_class (λ c, is_alnum c || Ascii.eqb c "_" || Ascii.eqb c "-").
Definition hex_class : Rx := rx_class (λ c, is_digit c || in_range 97 102 (code_of c)).
Definition seqs (rs : list Rx) : Rx := foldr rx_seq rx_empty rs.

(** ** Keys *)

Definition glue : Rx := opt (any_of "-_").
Definition SENSITIVE_WORDS : list Rx :=
  [lit "pass"; lit "secret"; lit "token"; seqs [lit "api"; glue; lit "key"]; lit "credential"; lit "authorization"; seqs [lit "auth"; glue; lit "header"];
   lit "cookie"; seqs [lit "session"; glue; lit "id"]; seqs [lit "private"; glue; lit "key"]; lit "bearer"; lit "signature"; lit "salt"; lit "otp"; lit "mfa"].
(** [SENSITIVE_KEY]: its alternatives that a shorter one contains are left to it. *)
Definition isSensitiveKey (key : string) : bool :=
  let low := toLowerCase key in
  existsb (λ r, found false false r low) SENSITIVE_WORDS || String.eqb low "key" || str_ends "-key" low || str_ends "_key" low || str_ends "pin" low.

(** ** Values *)

Definition SECRET_VALUE_PATTERNS : list (bool * Rx) :=
  let free := rx_class (λ c, negb (Ascii.eqb c ":") && negb (is_space c)) in
  let host := rx_class (λ c, negb (Ascii.eqb c "@") && negb (is_space c)) in
  let user := rx_class (λ c, negb (Ascii.eqb c ":") && negb (is_space c) && negb (Ascii.eqb c "/")) in
  [(true, seqs [lit "sk-"; at_least 16 id_class]);
   (true, seqs [lit "sk_"; rx_alt (lit "live") (lit "test"); lit "_"; at_least 12 id_class]);
   (true, seqs [lit "gh"; any_of "pousr"; lit "_"; at_least 20 (rx_class is_alnum)]);
   (true, seqs [lit "xox"; any_of "abprs"; lit "-"; at_least 10 (rx_class (λ c, is_alnum c || Ascii.eqb c "-"))]);
   (false, seqs [lit "-----BEGIN "; rx_star (rx_class (λ c, is_upper c || Ascii.eqb c " ")); lit "PRIVATE KEY-----"]);
   (true, seqs [lit "eyJ"; at_least 10 id_class; lit "."; at_least 10 id_class; lit "."]);
   (true, seqs [lit "mongodb"; opt (lit "+srv"); lit "://"; at_least 1 free; lit ":"; at_least 1 host; lit "@"]);
   (true, seqs [at_least 1 (rx_class is_lower); lit "://"; at_least 1 user; lit ":"; at_least 1 host; lit "@"])].

Definition digits (n : nat) : Rx := times n (rx_class is_digit).
(** [KNOWN_SAFE]: the [i] patterns on the text in small letters; the second has no end. *)
Definition known_safe (s : string) : bool :=
  let low := toLowerCase s in
  let uuid_head := seqs [times 8 hex_class; lit "-"; times 4 hex_class; lit "-"] in
  matches_all (seqs [uuid_head; times 4 hex_class; lit "-"; times 4 hex_class; lit "-"; times 12 hex_class]) low
  || matches_front (seqs [times 3 (rx_class is_lower); opt (rx_class is_lower); lit "_"; uuid_head]) low
  || matches_all (seqs [digits 4; lit "-"; digits 2; lit "-"; digits 2; lit "T"; at_least 1 (rx_class (λ c, is_digit c || Ascii.eqb c ":" || Ascii.eqb c ".")); opt (lit "Z")]) s
  || matches_all (seqs [lit "sha256:"; times 64 hex_class]) low.

(** How often each character of a text occurs. *)
Fixpoint add_count (c : Ascii.ascii) (counts : list (Ascii.ascii * Z)) : list (Ascii.ascii * Z) :=
  match counts with
  | [] => [(c, 1)]
  | (d, n) :: r => if Ascii.eqb c d then (d, n + 1) :: r else (d, n) :: add_count c r
  end.
Fixpoint counts_of (s : string) : list (Ascii.ascii * Z) := match s with EmptyString => [] | String c r => add_count c (counts_of r) end.
(** [shannonEntropy(value) >= 3.5]: the entropy of counts c of n characters is
    log n - sum (c log c) / n, so the test is 2^(7n) prod c^(2c) <= n^(2n). *)
Definition dense (s : string) : bool :=
  let n := Z.of_nat (String.length s) in
  2 ^ (7 * n) * foldr (λ cn acc, cn.2 ^ (2 * cn.2) * acc) 1 (counts_of s) <=? n ^ (2 * n).

Definition ENTROPY_MIN_LENGTH : nat := 25.
Definition looksSecret (s : string) : bool :=
  existsb (λ br, found br.1 false br.2 s) SECRET_VALUE_PATTERNS
  || (ENTROPY_MIN_LENGTH <=? String.length s)%nat && negb (known_safe s) && str_all (λ c, negb (is_space c)) s && dense s.

(** ** The walk *)

(** The values the walk tells apart. *)
Inductive Node :=
| nd_null | nd_undefined | nd_string (s : string) | nd_number (n : Z) | nd_bool (b : bool) | nd_bigint (n : Z) | nd_opaque
| nd_date (iso : string) | nd_error (name message : string) | nd_bytes (length : Z)
| nd_array (items : list Node) | nd_object (entries : list (string * Node)) | nd_toJSON (produced : Node).

Definition REDACTED : string := "[redacted]".
Record RedactOptions := { ro_sensitiveKeys : list string; ro_maxDepth : option nat; ro_maxStringLength : option nat }.

Section Walk.
Context (options : RedactOptions).
Definition extra : list string := map toLowerCase (ro_sensitiveKeys options).
Definition maxDepth : nat := default 8%nat (ro_maxDepth options).
Definition maxStringLength : nat := default 4096%nat (ro_maxStringLength options).
Definition hidden_by (key : option string) : bool :=
  match key with Some k => isSensitiveKey k || bool_decide (toLowerCase k ∈ extra) | None => false end.
Definition shorten (s : string) : string :=
  if (maxStringLength <? String.length s)%nat
  then str_take maxStringLength s +:+ "…[truncated " +:+ pretty (String.length s - maxStringLength)%nat +:+ "]" else s.
Definition is_redacted (n : Node) : bool := match n with nd_string s => String.eqb s REDACTED | _ => false end.

Fixpoint walk (node : Node) (depth : nat) (keyHint : option string) : Node :=
  match node with
  | nd_null | nd_undefined => node
  | nd_string s => if hidden_by keyHint || looksSecret s then nd_string REDACTED else nd_string (shorten s)
  | nd_number _ | nd_bool _ => if hidden_by keyHint then nd_string REDACTED else node
  | nd_bigint n => if hidden_by keyHint then nd_string REDACTED else nd_string (pretty n)
  | nd_opaque => nd_string "[unserialisable]"
  | nd_date iso => nd_string iso
  | nd_error name _ => nd_object [("name", nd_string name); ("message", nd_string REDACTED)]
  | nd_bytes n => nd_string ("[binary " +:+ pretty n +:+ " bytes]")
  | nd_array items => if (maxDepth <=? depth)%nat then nd_string "[depth limit]" else nd_array (map (λ i, walk i (S depth) keyHint) items)
  | nd_toJSON produced =>
      if (maxDepth <=? depth)%nat then nd_string "[depth limit]"
      else if is_redacted produced then nd_string REDACTED else walk produced (S depth) keyHint
  | nd_object entries =>
      if (maxDepth <=? depth)%nat then nd_string "[depth limit]"
      else nd_object (map (λ kv, (kv.1, walk kv.2 (S depth) (Some kv.1))) entries)
  end.
Definition redact (node : Node) : Node := walk node 0 None.
End Walk.

(** ** Schemas *)

Definition is_object (v : value) : bool := match v with VObject _ | VArray _ => true | _ => false end.
(** [[...new Set(found)]]. *)
Fixpoint distinct (seen l : list string) : list string :=
  match l with [] => [] | x :: r => if bool_decide (x ∈ seen) then distinct seen r else x :: distinct (x :: seen) r end.
Definition marked (key : string) (sub : value) : bool :=
  match own sub "format" with VString f => String.eqb f "password" | _ => false end
  || match own sub "writeOnly" with VBool b => b | _ => false end || isSensitiveKey key.
(** [Object.entries], for an object or an array. *)
Definition entries_of (v : value) : list (string * value) :=
  match v with VObject es => es | VArray items => zip (map pretty (seq 0 (length items))) items | _ => [] end.
(** [left] levels may still be entered: nine at the first call. *)
Fixpoint schema_keys (left : nat) (schema : value) : list string :=
  match left with
  | O => []
  | S left' =>
      let own_keys := flat_map (λ kv, if is_object kv.2 then (if marked kv.1 kv.2 then [kv.1] else []) ++ schema_keys left' kv.2 else [])
                        (entries_of (own schema "properties")) in
      let branches k := match own schema k with VArray bs => flat_map (schema_keys left') bs | _ => [] end in
      distinct [] (own_keys ++ flat_map branches ["oneOf"; "anyOf"; "allOf"])
  end.
Definition sensitiveKeysFromSchema (schema : value) : list string := schema_keys 9 schema.

(** ** The matcher is right *)

(** The texts an expression stands for. *)
Inductive in_lang : Rx → string → Prop :=
| il_empty : in_lang rx_empty ""
| il_class p c : p c = true → in_lang (rx_class p) (String c "")
| il_seq a b s t : in_lang a s → in_lang b t → in_lang (rx_seq a b) (s +:+ t)
| il_left a b s : in_lang a s → in_lang (rx_alt a b) s
| il_right a b s : in_lang b s → in_lang (rx_alt a b) s
| il_done a : in_lang (rx_star a) ""
| il_more a c s t : in_lang a (String c s) → in_lang (rx_star a) t → in_lang (rx_star a) (String c s +:+ t).
#[local] Hint Constructors in_lang : core.

Lemma seq_inv a b u : in_lang (rx_seq a b) u → ∃ s t, u = s +:+ t ∧ in_lang a s ∧ in_lang b t.
Proof. inversion 1; subst; eauto. Qed.
Lemma none_inv s : ¬ in_lang rx_none s.
Proof. inversion 1. Qed.
Lemma alt_iff a b s : in_lang (rx_alt a b) s ↔ in_lang a s ∨ in_lang b s.
Proof. split; [inversion 1; auto|intros [?|?]; auto]. Qed.

Lemma nullable_spec r : nullable r = true ↔ in_lang r "".
Proof.
  induction r as [| |p|a IHa b IHb|a IHa b IHb|a IHa]; simpl.
  - split; [done|inversion 1].
  - split; auto.
  - split; [done|inversion 1].
  - rewrite andb_true_iff, IHa, IHb. split; [intros [Ha Hb]; exact (il_seq a b "" "" Ha Hb)|].
    intros (s & t & E & Ha & Hb)%seq_inv. destruct s; [|done]. simpl in E. by subst.
  - by rewrite orb_true_iff, IHa, IHb, alt_iff.
  - split; auto.
Qed.

(** The smart constructors of [deriv] denote what they abbreviate. *)
Lemma seq_none b s : in_lang (rx_seq rx_none b) s ↔ in_lang rx_none s.
Proof. split; [intros (? & ? & _ & H & _)%seq_inv|intros H]; by apply none_inv in H. Qed.
Lemma seq_empty b s : in_lang (rx_seq rx_empty b) s ↔ in_lang b s.
Proof.
  split; [|intros Hb; exact (il_seq rx_empty b "" s il_empty Hb)]. intros (x & y & -> & Hx & Hy)%seq_inv.
  assert (x = "") as -> by (by inversion Hx). done.
Qed.
Lemma alt_none_l b s : in_lang (rx_alt rx_none b) s ↔ in_lang b s.
Proof. rewrite alt_iff. pose proof (none_inv s). tauto. Qed.
Lemma alt_none_r a s : in_lang (rx_alt a rx_none) s ↔ in_lang a s.
Proof. rewrite alt_iff. pose proof (none_inv s). tauto. Qed.

Lemma joined_spec d b s : in_lang (joined d b) s ↔ in_lang (rx_seq d b) s.
Proof. destruct d; try done; [by rewrite seq_none|by rewrite seq_empty]. Qed.
Lemma either_spec x y s : in_lang (either x y) s ↔ in_lang x s ∨ in_lang y s.
Proof. rewrite <-alt_iff. destruct x; simpl; rewrite ?alt_none_l; try done; destruct y; by rewrite ?alt_none_r. Qed.
Lemma seq_cons a b c s :
  in_lang (rx_seq a b) (String c s) ↔ (∃ x y, s = x +:+ y ∧ in_lang a (String c x) ∧ in_lang b y) ∨ in_lang a "" ∧ in_lang b (String c s).
Proof.
  split.
  - intros (x & y & E & Ha & Hb)%seq_inv. destruct x as [|d x]; simpl in E; [subst; auto|]. injection E as -> ->. left. eauto.
  - intros [(x & y & -> & Ha & Hb)|[Ha Hb]]; [exact (il_seq a b (String c x) y Ha Hb)|exact (il_seq a b "" (String c s) Ha Hb)].
Qed.

Lemma deriv_spec c r s : in_lang (deriv c r) s ↔ in_lang r (String c s).
Proof.
  revert s. induction r as [| |p|a IHa b IHb|a IHa b IHb|a IHa]; intros s; simpl.
  - split; inversion 1.
  - split; inversion 1.
  - destruct (p c) eqn:Hp; [split; [inversion 1; subst; auto|inversion 1; subst; auto]|split; [inversion 1|inversion 1; congruence]].
  - rewrite seq_cons, <-nullable_spec.
    assert (in_lang (joined (deriv c a) b) s ↔ ∃ x y, s = x +:+ y ∧ in_lang a (String c x) ∧ in_lang b y) as Hj.
    { rewrite joined_spec. split; [intros (x & y & -> & Ha & Hb)%seq_inv; exists x, y; by rewrite <-IHa|].
      intros (x & y & -> & Ha & Hb). constructor; [by apply IHa|done]. }
    destruct (nullable a); [rewrite either_spec, Hj, IHb; naive_solver|rewrite Hj; naive_solver].
  - rewrite either_spec, IHa, IHb, alt_iff. done.
  - rewrite joined_spec. split.
    + intros (x & y & -> & Ha & Hb)%seq_inv. apply (il_more a c x y); [by apply IHa|done].
    + inversion 1 as [| | | | | |? d x y Ha Hb E]; subst. apply il_seq; [by apply IHa|done].
Qed.

(** A text is accepted exactly when the expression stands for it. *)
Theorem derivatives_match r s : matches_all r s = true ↔ in_lang r s.
Proof. revert r. induction s as [|c s IH]; intros r; simpl; [apply nullable_spec|]. by rewrite IH, deriv_spec. Qed.

(** ** What is left after redaction *)

(** The scalars of a value, each with the key it stands under. *)
Fixpoint leaves (key : option string) (n : Node) : list (option string * Node) :=
  match n with
  | nd_array items => flat_map (leaves key) items
  | nd_object entries => flat_map (λ kv, leaves (Some kv.1) kv.2) entries
  | nd_toJSON p => leaves key p
  | _ => [(key, n)]
  end.
(** The texts that are written as they are: times, and the names of errors. *)
Fixpoint plain_texts (n : Node) : list string :=
  match n with
  | nd_array items => flat_map plain_texts items
  | nd_object entries => flat_map (λ kv, plain_texts kv.2) entries
  | nd_toJSON p => plain_texts p
  | nd_date iso => [iso]
  | nd_error name _ => [name]
  | _ => []
  end.

Section NodeInd.
Context (P : Node → Prop).
Context (Hscalar : ∀ n, match n with nd_array _ | nd_object _ | nd_toJSON _ => False | _ => True end → P n).
Context (Harray : ∀ items, Forall P items → P (nd_array items)) (Hobject : ∀ entries, Forall (λ kv, P kv.2) entries → P (nd_object entries)).
Context (Hjson : ∀ p, P p → P (nd_toJSON p)).
Fixpoint node_nested_ind (n : Node) : P n :=
  match n with
  | nd_array items => Harray items ((fix go l : Forall P l := match l with [] => Forall_nil_2 _ | x :: r => Forall_cons_2 _ _ _ (node_nested_ind x) (go r) end) items)
  | nd_object entries =>
      Hobject entries ((fix go l : Forall (λ kv, P kv.2) l := match l with [] => Forall_nil_2 _ | x :: r => Forall_cons_2 _ _ _ (node_nested_ind x.2) (go r) end) entries)
  | nd_toJSON p => Hjson p (node_nested_ind p)
  | n => Hscalar n I
  end.
End NodeInd.

Section Redacted.
Context (options : RedactOptions).

(** What a scalar of the written value may be, under its key. *)
Definition harmless (original : Node) (key : option string) (leaf : Node) : Prop :=
  match leaf with
  | nd_string s =>
      s ∈ [REDACTED; "[unserialisable]"; "[depth limit]"] ∨ s ∈ plain_texts original ∨ (∃ n : Z, s = "[binary " +:+ pretty n +:+ " bytes]") ∨
      hidden_by options key = false ∧ ((∃ n : Z, s = pretty n) ∨ ∃ s0, looksSecret s0 = false ∧ s = shorten options s0)
  | nd_number _ | nd_bool _ => hidden_by options key = false
  | nd_null | nd_undefined => True
  | _ => False
  end.

Lemma harmless_mono a b key leaf : (∀ s, s ∈ plain_texts a → s ∈ plain_texts b) → harmless a key leaf → harmless b key leaf.
Proof. intros Hs. destruct leaf; simpl; try done. intros [?|[?|?]]; auto. Qed.

Lemma walk_harmless n : ∀ depth key k leaf, (k, leaf) ∈ leaves key (walk options n depth key) → harmless n k leaf.
Proof.
  induction n as [n Hn|items IH|entries IH|p IH] using node_nested_ind; intros depth key k leaf; cbn [walk].
  - destruct n; try done; cbn [walk].
    1,2: intros [= -> ->]%list_elem_of_singleton; done.
    + destruct (hidden_by options key) eqn:Hh; cbn [orb]; [intros [= -> ->]%list_elem_of_singleton; left; set_solver|].
      destruct (looksSecret s) eqn:Hs; intros [= -> ->]%list_elem_of_singleton; [left; set_solver|]. right; right; right. split; [done|]. right. eauto.
    + destruct (hidden_by options key) eqn:Hh; intros [= -> ->]%list_elem_of_singleton; [left; set_solver|done].
    + destruct (hidden_by options key) eqn:Hh; intros [= -> ->]%list_elem_of_singleton; [left; set_solver|done].
    + destruct (hidden_by options key) eqn:Hh; intros [= -> ->]%list_elem_of_singleton; [left; set_solver|]. right; right; right. split; [done|]. left. by eexists.
    + intros [= -> ->]%list_elem_of_singleton. left. set_solver.
    + intros [= -> ->]%list_elem_of_singleton. right. left. simpl. set_solver.
    + simpl. intros [[= -> ->]|[[= -> ->]|Hx%elem_of_nil]%elem_of_cons]%elem_of_cons; [right; left; simpl; set_solver|left; set_solver|done].
    + intros [= -> ->]%list_elem_of_singleton. right. right. left. by eexists.
  - destruct (_ <=? _)%nat; [intros [= -> ->]%list_elem_of_singleton; left; set_solver|]. cbn [leaves].
    rewrite list_elem_of_In, in_flat_map. intros (x & Hx & Hk). apply in_map_iff in Hx as (i & <- & Hi). apply list_elem_of_In in Hi, Hk.
    rewrite Forall_forall in IH. apply (harmless_mono i); [|by eapply IH]. intros s Hs. simpl. rewrite list_elem_of_In, in_flat_map. exists i. by rewrite <-!list_elem_of_In.
  - destruct (_ <=? _)%nat; [intros [= -> ->]%list_elem_of_singleton; left; set_solver|]. cbn [leaves].
    rewrite list_elem_of_In, in_flat_map. intros (x & Hx & Hk). apply in_map_iff in Hx as (i & <- & Hi). apply list_elem_of_In in Hi, Hk. cbn [fst snd] in Hk.
    rewrite Forall_forall in IH. apply (harmless_mono i.2); [|by eapply IH]. intros s Hs. simpl. rewrite list_elem_of_In, in_flat_map. exists i. by rewrite <-!list_elem_of_In.
  - destruct (_ <=? _)%nat; [intros [= -> ->]%list_elem_of_singleton; left; set_solver|].
    destruct (is_redacted p); [intros [= -> ->]%list_elem_of_singleton; left; set_solver|]. intros Hk. by apply (IH (S depth) key).
Qed.

(** Nothing that stands under a sensitive key, and no text that looks like a
    credential, is written: every scalar of the result is a marker, a time, the name
    of an error, or harmless under its key. *)
Theorem logs_hold_no_credentials n k leaf : (k, leaf) ∈ leaves None (redact options n) → harmless n k leaf.
Proof. apply walk_harmless. Qed.
End Redacted.

(** ** Concrete values *)
Definition defaults : RedactOptions := {| ro_sensitiveKeys := []; ro_maxDepth := None; ro_maxStringLength := None |}.

Example shapes_are_recognised :
  map looksSecret ["sk-abcdefghijklmnop1234"; "postgres://u:pw@db/x"; "01890a5d-ac96-774b-bcce-b302099a8057"; "the quick brown fox jumps over the lazy dog"; "Zx8Qp2Lw9Vt4Rb7Nk3Ms6Yd1Gf5Hc0"]
  = [true; true; false; false; true].
Proof. vm_compute. reflexivity. Qed.

(** A sensitive key hides the scalars right below it and in its arrays; inside an
    object every member stands under its own key. *)
Example objects_under_a_sensitive_key_are_written :
  redact defaults (nd_object [("password", nd_object [("value", nd_string "hunter2")]); ("credentials", nd_array [nd_string "hunter2"])]) =
  nd_object [("password", nd_object [("value", nd_string "hunter2")]); ("credentials", nd_array [nd_string REDACTED])].
Proof. vm_compute. reflexivity. Qed.
