(* ===== verification/Agents.v ===== *)
(** * Assistants and their versions

    Models the agents of packages/db/src/repositories/catalog.ts, with the routes
    that create, edit, rename and list them (apps/web/src/app/api/workspaces/
    [workspaceId]/agents) and lib/agent-team.ts.  Publishing a version is three
    commands of the database, and requests interleave between them: [step] is one
    command of one request, and a request may stop after any of them.  The
    collections are any that obey [CollectionLaws]; the unique indexes are those of
    packages/db/src/indexes.ts.  New ids are arguments of the steps, and new. *)
From S2P Require Import Prelude Json Text Mongo Catalog.

Inductive BindingMode := mode_all | mode_allow | mode_deny.
Record CapabilityBinding := { cb_bindingId : string; cb_mode : BindingMode; cb_tools : list string }.
Record Version := {
  av_versionId : string; av_version : Z; av_systemPrompt : string; av_modelRole : string; av_capabilityBindings : list CapabilityBinding;
  av_maxToolCallsPerTurn : Z }.
Record AgentDoc := {
  ag_workspaceId : string; ag_slug : string; ag_name : string; ag_description : string; ag_category : option string; ag_color : option string;
  ag_modelBindingId : option string; ag_currentVersion : Version; ag_isArchived : bool; ag_createdBy : string; ag_createdAt : Z; ag_updatedAt : Z }.
(** A row of [agentVersions]; its id is the id of the version it holds. *)
Record VersionDoc := {
  vd_workspaceId : string; vd_agentId : string; vd_version : Z; vd_snapshot : Version; vd_changelog : string; vd_createdBy : string; vd_createdAt : Z }.

(** The unique indexes [ws_slug] and [agent_version]. *)
Definition same_slug (a b : AgentDoc) : bool := String.eqb (ag_workspaceId a) (ag_workspaceId b) && String.eqb (ag_slug a) (ag_slug b).
Definition same_version (a b : VersionDoc) : bool := String.eqb (vd_agentId a) (vd_agentId b) && (vd_version a =? vd_version b).

Record CreateAgentInput := {
  ca_slug : string; ca_name : string; ca_description : option string; ca_category : option string; ca_color : option string; ca_systemPrompt : string;
  ca_modelRole : string; ca_createdBy : string }.
(** The fields a request gives; an inner [None] is null. *)
Record Meta := {
  me_name : option string; me_description : option string; me_category : option (option string); me_color : option (option string);
  me_modelBindingId : option (option string) }.

(** [$set] of the fields that are not versioned, and of the version. *)
Definition set_meta (m : Meta) (now : Z) (d : AgentDoc) : AgentDoc := {|
  ag_workspaceId := ag_workspaceId d; ag_slug := ag_slug d; ag_name := default (ag_name d) (me_name m);
  ag_description := default (ag_description d) (me_description m); ag_category := default (ag_category d) (me_category m);
  ag_color := default (ag_color d) (me_color m); ag_modelBindingId := default (ag_modelBindingId d) (me_modelBindingId m);
  ag_currentVersion := ag_currentVersion d; ag_isArchived := ag_isArchived d; ag_createdBy := ag_createdBy d; ag_createdAt := ag_createdAt d;
  ag_updatedAt := now |}.
Definition set_version (v : Version) (now : Z) (d : AgentDoc) : AgentDoc := {|
  ag_workspaceId := ag_workspaceId d; ag_slug := ag_slug d; ag_name := ag_name d; ag_description := ag_description d; ag_category := ag_category d;
  ag_color := ag_color d; ag_modelBindingId := ag_modelBindingId d; ag_currentVersion := v; ag_isArchived := ag_isArchived d;
  ag_createdBy := ag_createdBy d; ag_createdAt := ag_createdAt d; ag_updatedAt := now |}.
(** [{ ...snapshot, versionId, version }]. *)
Definition renumber (versionId : string) (version : Z) (v : Version) : Version := {|
  av_versionId := versionId; av_version := version; av_systemPrompt := av_systemPrompt v; av_modelRole := av_modelRole v;
  av_capabilityBindings := av_capabilityBindings v; av_maxToolCallsPerTurn := av_maxToolCallsPerTurn v |}.
Definition with_prompt (prompt : string) (v : Version) : Version := {|
  av_versionId := av_versionId v; av_version := av_version v; av_systemPrompt := prompt; av_modelRole := av_modelRole v;
  av_capabilityBindings := av_capabilityBindings v; av_maxToolCallsPerTurn := av_maxToolCallsPerTurn v |}.

Section Agents.
Context {CA CV : Type} `{CollectionLaws AgentDoc CA} `{CollectionLaws VersionDoc CV}.
Context (workspaceId : string).
Implicit Types (ca : CA) (cv : CV) (d : AgentDoc) (v : Version).

(** ** The repository *)

Definition in_ws d : bool := String.eqb (ag_workspaceId d) workspaceId.
Definition live d : bool := in_ws d && negb (ag_isArchived d).
Definition findById (agentId : string) ca : option AgentDoc := d ← docs ca !! agentId; if in_ws d then Some d else None.
Definition findBySlug (slug : string) ca : option (string * AgentDoc) := find_one (λ d, String.eqb (ag_slug d) slug && live d) ca.
Definition latest_first (a b : AgentDoc) : bool := ag_updatedAt b <=? ag_updatedAt a.
#[global] Instance latest_first_order : SortOrder latest_first.
Proof. split; unfold latest_first; intros; lia. Qed.
Definition list_agents ca : list (string * AgentDoc) := find_docs live latest_first (size (docs ca)) ca.
Definition count ca : nat := length (find_all live ca).

Definition new_agent (versionId : string) (input : CreateAgentInput) (now : Z) : AgentDoc := {|
  ag_workspaceId := workspaceId; ag_slug := ca_slug input; ag_name := ca_name input; ag_description := default "" (ca_description input);
  ag_category := ca_category input; ag_color := ca_color input; ag_modelBindingId := None;
  ag_currentVersion := {| av_versionId := versionId; av_version := 1; av_systemPrompt := ca_systemPrompt input; av_modelRole := ca_modelRole input;
                          av_capabilityBindings := []; av_maxToolCallsPerTurn := 6 |};
  ag_isArchived := false; ag_createdBy := ca_createdBy input; ag_createdAt := now; ag_updatedAt := now |}.
(** [false] is the error of the index on slugs. *)
Definition create (agentId versionId : string) (input : CreateAgentInput) (now : Z) ca : bool * CA :=
  insertOne same_slug agentId (new_agent versionId input now) ca.
Definition setMeta (agentId : string) (m : Meta) (now : Z) ca : CA := (updateOne agentId in_ws (set_meta m now) ca).2.
Definition in_category (from : string) d : bool := live d && bool_decide (ag_category d = Some from).
Definition renameCategory (from to : string) (now : Z) ca : Z * CA :=
  updateMany (in_category from) (set_meta {| me_name := None; me_description := None; me_category := Some (Some to); me_color := None; me_modelBindingId := None |} now) ca.

(** ** Publishing, command by command *)

Definition version_row (agentId : string) (current : Version) (changelog createdBy : string) (now : Z) : VersionDoc := {|
  vd_workspaceId := workspaceId; vd_agentId := agentId; vd_version := av_version current; vd_snapshot := current; vd_changelog := changelog;
  vd_createdBy := createdBy; vd_createdAt := now |}.
Definition archive (agentId : string) (current : Version) (changelog createdBy : string) (now : Z) cv : bool * CV :=
  insertOne same_version (av_versionId current) (version_row agentId current changelog createdBy now) cv.
Definition replace_version (agentId versionId : string) (current snapshot : Version) (now : Z) ca : CA :=
  (updateOne agentId in_ws (set_version (renumber versionId (av_version current + 1) snapshot) now) ca).2.

Inductive PublishError := pe_not_found | pe_duplicate.
(** [publishVersion] with nothing in between. *)
Definition publishVersion (agentId versionId : string) (snapshot : Version) (changelog createdBy : string) (now : Z) ca cv
    : outcome PublishError unit * CA * CV :=
  match findById agentId ca with
  | None => (Throw pe_not_found, ca, cv)
  | Some d =>
      let current := ag_currentVersion d in
      match archive agentId current changelog createdBy now cv with
      | (false, cv') => (Throw pe_duplicate, ca, cv')
      | (true, cv') => (Ret tt, replace_version agentId versionId current snapshot now ca, cv')
      end
  end.

(** ** Requests that interleave *)

(** Where a request that publishes stands: it has read the agent, or archived what it read. *)
Inductive Request :=
| rq_read (agentId : string) (current snapshot : Version) (changelog createdBy : string)
| rq_archived (agentId : string) (current snapshot : Version).
Definition archives (agentId : string) (r : Request) : bool := match r with rq_archived id _ _ => String.eqb id agentId | _ => false end.

(** [w_published] remembers every version an agent ever had, for the theorems. *)
Record World := { w_agents : CA; w_versions : CV; w_requests : list Request; w_published : list (string * Version) }.
Definition used_ids (w : World) : list string := map (λ p, av_versionId p.2) (w_published w).
Definition versions_of (agentId : string) (w : World) : list Version := map snd (List.filter (λ p, String.eqb p.1 agentId) (w_published w)).

Inductive step : World → World → Prop :=
| st_create w agentId versionId input now ca' created :
    versionId ∉ used_ids w → create agentId versionId input now (w_agents w) = (created, ca') →
    step w {| w_agents := ca'; w_versions := w_versions w; w_requests := w_requests w;
              w_published := w_published w ++ if created then [(agentId, ag_currentVersion (new_agent versionId input now))] else [] |}
| st_read w agentId d snapshot changelog createdBy :
    findById agentId (w_agents w) = Some d →
    step w {| w_agents := w_agents w; w_versions := w_versions w;
              w_requests := rq_read agentId (ag_currentVersion d) snapshot changelog createdBy :: w_requests w; w_published := w_published w |}
| st_archive w l1 l2 agentId current snapshot changelog createdBy now cv' archived :
    w_requests w = l1 ++ rq_read agentId current snapshot changelog createdBy :: l2 →
    archive agentId current changelog createdBy now (w_versions w) = (archived, cv') →
    step w {| w_agents := w_agents w; w_versions := cv';
              w_requests := l1 ++ (if archived then [rq_archived agentId current snapshot] else []) ++ l2; w_published := w_published w |}
| st_replace w l1 l2 agentId current snapshot versionId now :
    w_requests w = l1 ++ rq_archived agentId current snapshot :: l2 → versionId ∉ used_ids w →
    step w {| w_agents := replace_version agentId versionId current snapshot now (w_agents w); w_versions := w_versions w;
              w_requests := l1 ++ l2; w_published := w_published w ++ [(agentId, renumber versionId (av_version current + 1) snapshot)] |}
| st_stop w l1 r l2 :
    w_requests w = l1 ++ r :: l2 →
    step w {| w_agents := w_agents w; w_versions := w_versions w; w_requests := l1 ++ l2; w_published := w_published w |}
| st_meta w agentId m now :
    step w {| w_agents := setMeta agentId m now (w_agents w); w_versions := w_versions w; w_requests := w_requests w; w_published := w_published w |}
| st_category w from to now :
    step w {| w_agents := (renameCategory from to now (w_agents w)).2; w_versions := w_versions w; w_requests := w_requests w; w_published := w_published w |}.

Definition initial (w : World) : Prop := docs (w_agents w) = ∅ ∧ docs (w_versions w) = ∅ ∧ w_requests w = [] ∧ w_published w = [].
Definition reachable (w : World) : Prop := ∃ w0, initial w0 ∧ rtc step w0 w.

(** Reading a version an agent had. *)
Definition version_of (agentId versionId : string) (w : World) : option Version :=
  d ← findById agentId (w_agents w);
  if String.eqb (av_versionId (ag_currentVersion d)) versionId then Some (ag_currentVersion d) else vd_snapshot <$> docs (w_versions w) !! versionId.

(** ** The invariant *)

Definition archived_as (agentId : string) v (w : World) : Prop :=
  ∃ row, docs (w_versions w) !! av_versionId v = Some row ∧ vd_agentId row = agentId ∧ vd_snapshot row = v.

Record Inv (w : World) : Prop := {
  i_ws : ∀ id d, docs (w_agents w) !! id = Some d → in_ws d = true;
  i_current : ∀ id d, docs (w_agents w) !! id = Some d → (id, ag_currentVersion d) ∈ w_published w;
  i_kept : ∀ id v, (id, v) ∈ w_published w → ∃ d, docs (w_agents w) !! id = Some d ∧ (ag_currentVersion d = v ∨ archived_as id v w);
  i_ids : NoDup (used_ids w);
  i_rows : ∀ k row, docs (w_versions w) !! k = Some row → k = av_versionId (vd_snapshot row) ∧ (vd_agentId row, vd_snapshot row) ∈ w_published w ∧
    vd_version row = av_version (vd_snapshot row);
  i_reads : ∀ id v s a b, rq_read id v s a b ∈ w_requests w → (id, v) ∈ w_published w;
  i_archived : ∀ id v s, rq_archived id v s ∈ w_requests w →
    (∃ d, docs (w_agents w) !! id = Some d ∧ ag_currentVersion d = v) ∧ archived_as id v w;
  i_single : ∀ id, (length (List.filter (archives id) (w_requests w)) <= 1)%nat;
  i_numbers : ∀ id d, docs (w_agents w) !! id = Some d →
    map av_version (versions_of id w) = seqZ 1 (av_version (ag_currentVersion d)) ∧ 1 <= av_version (ag_currentVersion d);
}.

Lemma same_version_id w id id' v v' : Inv w →
  (id, v) ∈ w_published w → (id', v') ∈ w_published w → av_versionId v = av_versionId v' → (id, v) = (id', v').
Proof.
  intros Hinv [i Hi]%list_elem_of_lookup [j Hj]%list_elem_of_lookup E.
  assert (i = j) as ->; [|congruence]. apply (NoDup_lookup (used_ids w) i j (av_versionId v)); [apply (i_ids _ Hinv)| |].
  - unfold used_ids. by rewrite list_lookup_fmap, Hi.
  - unfold used_ids. by rewrite list_lookup_fmap, Hj, E.
Qed.

Lemma findById_docs id ca d : findById id ca = Some d → docs ca !! id = Some d ∧ in_ws d = true.
Proof. unfold findById. destruct (docs ca !! id) as [x|]; [|done]. simpl. destruct (in_ws x) eqn:E; [|done]. by intros [= ->]. Qed.

(** An agent update that leaves versions alone. *)
Definition same_versions (a b : CA) : Prop :=
  ∀ id, (λ d, (ag_workspaceId d, ag_currentVersion d)) <$> docs a !! id = (λ d, (ag_workspaceId d, ag_currentVersion d)) <$> docs b !! id.

Lemma setMeta_same id m now ca : same_versions ca (setMeta id m now ca).
Proof.
  intros k. unfold setMeta. destruct (updateOne_cases id in_ws (set_meta m now) ca) as [(d & Hd & _ & _ & ->)|(_ & _ & ->)]; [|done].
  destruct (decide (k = id)) as [->|Hk]; [by rewrite lookup_insert_eq, Hd|by rewrite lookup_insert_ne].
Qed.
Lemma renameCategory_same from to now ca : same_versions ca (renameCategory from to now ca).2.
Proof.
  intros k. unfold renameCategory. destruct (updateMany_docs (in_category from) (set_meta {| me_name := None; me_description := None;
    me_category := Some (Some to); me_color := None; me_modelBindingId := None |} now) ca) as [_ ->].
  rewrite lookup_fmap. destruct (docs ca !! k) as [d|]; [|done]. simpl. by destruct (in_category from d).
Qed.

Lemma inv_same_versions w ca : Inv w → same_versions (w_agents w) ca →
  Inv {| w_agents := ca; w_versions := w_versions w; w_requests := w_requests w; w_published := w_published w |}.
Proof.
  intros Hinv Hs.
  assert (∀ id d, docs ca !! id = Some d → ∃ d0, docs (w_agents w) !! id = Some d0 ∧ ag_workspaceId d0 = ag_workspaceId d ∧ ag_currentVersion d0 = ag_currentVersion d) as Hback.
  { intros id d Hd. specialize (Hs id). rewrite Hd in Hs. destruct (docs (w_agents w) !! id) as [d0|]; [|done]. injection Hs as ? ?. eauto. }
  assert (∀ id d, docs (w_agents w) !! id = Some d → ∃ d0, docs ca !! id = Some d0 ∧ ag_workspaceId d0 = ag_workspaceId d ∧ ag_currentVersion d0 = ag_currentVersion d) as Hfor.
  { intros id d Hd. specialize (Hs id). rewrite Hd in Hs. destruct (docs ca !! id) as [d0|]; [|done]. injection Hs as ? ?. eauto. }
  split; cbn; try apply Hinv.
  - intros id d (d0 & Hd0 & E & _)%Hback. unfold in_ws. rewrite <-E. by apply (i_ws _ Hinv id).
  - intros id d (d0 & Hd0 & _ & <-)%Hback. by apply (i_current _ Hinv).
  - intros id v Hv. destruct (i_kept _ Hinv id v Hv) as (d & Hd & Hor). destruct (Hfor id d Hd) as (d0 & Hd0 & _ & E). exists d0. by rewrite E.
  - intros id v s Hr. destruct (i_archived _ Hinv id v s Hr) as [(d & Hd & Hv) Ha]. destruct (Hfor id d Hd) as (d0 & Hd0 & _ & E).
    split; [exists d0; by rewrite E|done].
  - intros id d (d0 & Hd0 & _ & <-)%Hback. by apply (i_numbers _ Hinv id d0).
Qed.

Lemma filter_nothing {A} (p : A → bool) (l : list A) : (∀ x, x ∈ l → p x = false) → List.filter p l = [].
Proof.
  induction l as [|a l IH]; intros Hp; [done|]. simpl. rewrite (Hp a) by (by left). apply IH. intros x Hx. apply Hp. by right.
Qed.

Lemma inv_initial w : initial w → Inv w.
Proof.
  intros (Ea & Ev & Er & Ep). split; unfold used_ids, archived_as; rewrite ?Ea, ?Ev, ?Er, ?Ep; simpl; try done; try (intros; set_solver).
  constructor.
Qed.

(** A version that is not archived is the current one. *)
Lemma unarchived_is_current w id v : Inv w → (id, v) ∈ w_published w → docs (w_versions w) !! av_versionId v = None →
  ∃ d, docs (w_agents w) !! id = Some d ∧ ag_currentVersion d = v.
Proof.
  intros Hinv Hv Hn. destruct (i_kept _ Hinv id v Hv) as (d & Hd & [E|(row & Hr & _)]); [eauto|congruence].
Qed.

Lemma inv_create w agentId versionId input now ca' created :
  Inv w → versionId ∉ used_ids w → create agentId versionId input now (w_agents w) = (created, ca') →
  Inv {| w_agents := ca'; w_versions := w_versions w; w_requests := w_requests w;
         w_published := w_published w ++ if created then [(agentId, ag_currentVersion (new_agent versionId input now))] else [] |}.
Proof.
  intros Hinv Hfresh Hc. unfold create in Hc. set (d := new_agent versionId input now) in *.
  destruct (insertOne_cases same_slug agentId d (w_agents w)) as [(Hb & Hn & _ & Hd)|(Hb & Hd)]; rewrite Hc in Hb, Hd; simpl in Hb, Hd; subst created.
  2: { rewrite app_nil_r. apply inv_same_versions; [done|]. intros id. by rewrite Hd. }
  assert (∀ id v, (id, v) ∈ w_published w → id ≠ agentId) as Hne.
  { intros id v Hv ->. destruct (i_kept _ Hinv _ _ Hv) as (x & Hx & _). congruence. }
  split; cbn [w_agents w_versions w_requests w_published]; rewrite ?Hd.
  - intros id x [[<- <-]|[_ Hx]]%lookup_insert_Some; [apply String.eqb_refl|by eapply i_ws].
  - intros id x [[<- <-]|[_ Hx]]%lookup_insert_Some; [set_solver|]. apply elem_of_app. left. by apply i_current.
  - intros id v [Hv|Hv]%elem_of_app.
    + destruct (i_kept _ Hinv id v Hv) as (x & Hx & Hor). exists x. rewrite lookup_insert_ne by (intros <-; by eapply Hne). done.
    + apply list_elem_of_singleton in Hv as [= -> ->]. exists d. rewrite lookup_insert_eq. auto.
  - unfold used_ids. cbn [w_published]. rewrite map_app. apply NoDup_app. split_and!; [apply Hinv| |apply NoDup_singleton].
    intros x Hx ->%list_elem_of_singleton. done.
  - intros k row Hr. destruct (i_rows _ Hinv k row Hr) as (-> & Hin & En). split; [done|]. split; [|done]. apply elem_of_app. by left.
  - intros id v s a b Hr. apply elem_of_app. left. by eapply i_reads.
  - intros id v s Hr. destruct (i_archived _ Hinv id v s Hr) as [(x & Hx & Hv) Ha]. split; [|done]. exists x.
    rewrite lookup_insert_ne; [done|]. intros <-. congruence.
  - apply Hinv.
  - unfold versions_of. cbn [w_published]. intros id x. rewrite List.filter_app, map_app.
    intros [[<- <-]|[Hk Hx]]%lookup_insert_Some.
    + assert (List.filter (λ p, String.eqb p.1 agentId) (w_published w) = []) as ->.
      { apply filter_nothing. intros [id v] Hv. apply String.eqb_neq. by apply (Hne id v). }
      cbn. by rewrite String.eqb_refl.
    + assert (List.filter (λ p, String.eqb p.1 id) [(agentId, ag_currentVersion d)] = []) as ->.
      { simpl. by rewrite (proj2 (String.eqb_neq agentId id)). }
      rewrite app_nil_r. by apply (i_numbers _ Hinv).
Qed.

Lemma inv_requests w requests : Inv w →
  (∀ r, r ∈ requests → r ∈ w_requests w ∨ ∃ id d s a b, docs (w_agents w) !! id = Some d ∧ r = rq_read id (ag_currentVersion d) s a b) →
  (∀ id, (length (List.filter (archives id) requests) <= 1)%nat) →
  Inv {| w_agents := w_agents w; w_versions := w_versions w; w_requests := requests; w_published := w_published w |}.
Proof.
  intros Hinv Hr Hs. split; cbn; try apply Hinv; try done.
  - intros id v s a b [Hin|(id' & d & s' & a' & b' & Hd & [= -> -> -> -> ->])]%Hr; [by eapply i_reads|by apply i_current].
  - intros id v s [Hin|(id' & d & s' & a' & b' & _ & [=])]%Hr. by apply (i_archived _ Hinv id v s).
Qed.

Lemma archives_once id l1 r l2 : (length (List.filter (archives id) (l1 ++ r :: l2)) <= 1)%nat →
  (length (List.filter (archives id) (l1 ++ l2)) + (if archives id r then 1 else 0) <= 1)%nat.
Proof. rewrite !List.filter_app, !length_app. simpl. destruct (archives id r); simpl; lia. Qed.

Lemma inv_archive w l1 l2 agentId current snapshot changelog createdBy now cv' archived :
  Inv w → w_requests w = l1 ++ rq_read agentId current snapshot changelog createdBy :: l2 →
  archive agentId current changelog createdBy now (w_versions w) = (archived, cv') →
  Inv {| w_agents := w_agents w; w_versions := cv'; w_requests := l1 ++ (if archived then [rq_archived agentId current snapshot] else []) ++ l2;
         w_published := w_published w |}.
Proof.
  intros Hinv Hreq Ha. unfold archive in Ha. set (row := version_row agentId current changelog createdBy now) in *.
  assert ((agentId, current) ∈ w_published w) as Hpub by (apply (i_reads _ Hinv agentId current snapshot changelog createdBy); rewrite Hreq; set_solver).
  assert (∀ r, r ∈ l1 ++ l2 → r ∈ w_requests w) as Hsub by (intros r; rewrite Hreq; set_solver).
  pose proof (λ id, archives_once id l1 _ l2 (eq_ind _ (λ l, (length (List.filter (archives id) l) <= 1)%nat) (i_single _ Hinv id) _ Hreq)) as Hsingle.
  cbn [archives] in Hsingle.
  destruct (insertOne_cases same_version (av_versionId current) row (w_versions w)) as [(Hb & Hn & _ & Hd)|(Hb & Hd)];
    rewrite Ha in Hb, Hd; simpl in Hb, Hd; subst archived.
  2: { assert (Inv {| w_agents := w_agents w; w_versions := w_versions w; w_requests := l1 ++ [] ++ l2; w_published := w_published w |}) as Hinv'.
       { apply inv_requests; [done|intros r Hr; left; by apply Hsub|]. intros id. specialize (Hsingle id). simpl. lia. }
       destruct Hinv'. split; unfold archived_as in *; cbn [w_agents w_versions w_requests w_published] in *; rewrite ?Hd; done. }
  destruct (unarchived_is_current w agentId current Hinv Hpub Hn) as (d & Hcur & Ec).
  assert (∀ id v, archived_as id v w → archived_as id v {| w_agents := w_agents w; w_versions := cv';
    w_requests := l1 ++ [rq_archived agentId current snapshot] ++ l2; w_published := w_published w |}) as Hmono.
  { intros id v (r & Hr & Hid & Hv). exists r. cbn [w_versions]. rewrite Hd, lookup_insert_ne; [done|]. intros E. congruence. }
  split; cbn [w_agents w_versions w_requests w_published]; try apply Hinv.
  - intros id v Hv. destruct (i_kept _ Hinv id v Hv) as (x & Hx & [E|Hold]); exists x; auto.
  - intros k r. rewrite Hd. intros [[<- <-]|[_ Hr]]%lookup_insert_Some; [done|by apply i_rows].
  - intros id v s a b Hr. apply (i_reads _ Hinv id v s a b), Hsub. set_solver.
  - intros id v s Hr. assert (rq_archived id v s ∈ l1 ++ l2 ∨ rq_archived id v s = rq_archived agentId current snapshot) as [Hold|[= -> -> ->]] by set_solver.
    + destruct (i_archived _ Hinv id v s (Hsub _ Hold)) as [Hx Hy]. auto.
    + split; [eauto|]. exists row. cbn [w_versions]. by rewrite Hd, lookup_insert_eq.
  - intros id. specialize (Hsingle id). rewrite !List.filter_app, !length_app in *. cbn [List.filter archives].
    destruct (String.eqb_spec agentId id) as [<-|_]; cbn [length]; [|lia].
    assert (List.filter (archives agentId) (l1 ++ l2) = []) as E0.
    { apply filter_nothing. intros [|id v s] Hr; [done|]. apply String.eqb_neq. intros ->.
      destruct (i_archived _ Hinv agentId v s (Hsub _ Hr)) as [(d' & Hd' & Ev) (r' & Hr' & _)]. congruence. }
    rewrite List.filter_app in E0. apply app_eq_nil in E0 as [-> ->]. simpl. lia.
Qed.

Lemma inv_replace w l1 l2 agentId current snapshot versionId now :
  Inv w → w_requests w = l1 ++ rq_archived agentId current snapshot :: l2 → versionId ∉ used_ids w →
  Inv {| w_agents := replace_version agentId versionId current snapshot now (w_agents w); w_versions := w_versions w; w_requests := l1 ++ l2;
         w_published := w_published w ++ [(agentId, renumber versionId (av_version current + 1) snapshot)] |}.
Proof.
  intros Hinv Hreq Hfresh. set (next := renumber versionId (av_version current + 1) snapshot).
  assert (∀ r, r ∈ l1 ++ l2 → r ∈ w_requests w) as Hsub by (intros r; rewrite Hreq; set_solver).
  destruct (i_archived _ Hinv agentId current snapshot) as [(d & Hd & Ec) Harch]; [rewrite Hreq; set_solver|].
  pose proof (i_ws _ Hinv agentId d Hd) as Hws.
  assert (docs (replace_version agentId versionId current snapshot now (w_agents w)) = <[agentId := set_version next now d]> (docs (w_agents w))) as Ed
    by (by apply (updateOne_hit agentId in_ws _ (w_agents w) d)).
  pose proof (λ id, archives_once id l1 _ l2 (eq_ind _ (λ l, (length (List.filter (archives id) l) <= 1)%nat) (i_single _ Hinv id) _ Hreq)) as Hsingle.
  cbn [archives] in Hsingle.
  split; cbn [w_agents w_versions w_requests w_published]; rewrite ?Ed.
  - intros id x [[<- <-]|[_ Hx]]%lookup_insert_Some; [exact Hws|by eapply i_ws].
  - intros id x [[<- <-]|[_ Hx]]%lookup_insert_Some; [set_solver|]. apply elem_of_app. left. by apply i_current.
  - intros id v [Hv|Hv]%elem_of_app.
    + destruct (i_kept _ Hinv id v Hv) as (x & Hx & Hor). destruct (decide (id = agentId)) as [->|Hne].
      * exists (set_version next now d). rewrite lookup_insert_eq. split; [done|]. right. destruct Hor as [E|Ha]; [|done].
        assert (v = current) as -> by congruence. exact Harch.
      * exists x. by rewrite lookup_insert_ne.
    + apply list_elem_of_singleton in Hv as [= -> ->]. exists (set_version next now d). rewrite lookup_insert_eq. auto.
  - unfold used_ids. cbn [w_published]. rewrite map_app. apply NoDup_app. split_and!; [apply Hinv| |apply NoDup_singleton].
    intros x Hx ->%list_elem_of_singleton. done.
  - intros k row Hr. destruct (i_rows _ Hinv k row Hr) as (-> & Hin & En). split; [done|]. split; [|done]. apply elem_of_app. by left.
  - intros id v s a b Hr. apply elem_of_app. left. by apply (i_reads _ Hinv id v s a b), Hsub.
  - intros id v s Hr. destruct (i_archived _ Hinv id v s (Hsub _ Hr)) as [(x & Hx & Hv) Ha]. split; [|done]. exists x.
    rewrite lookup_insert_ne; [done|]. intros <-. specialize (Hsingle agentId). rewrite String.eqb_refl in Hsingle.
    assert (List.filter (archives agentId) (l1 ++ l2) ≠ []) as Hne; [|destruct (List.filter (archives agentId) (l1 ++ l2)); simpl in *; [done|lia]].
    intros E. assert (In (rq_archived agentId v s) []) as []. rewrite <-E. apply filter_In. split; [by apply list_elem_of_In|apply String.eqb_refl].
  - intros id. specialize (Hsingle id). lia.
  - unfold versions_of. cbn [w_published]. intros id x. rewrite List.filter_app, map_app, map_app.
    intros [[<- <-]|[Hk Hx]]%lookup_insert_Some.
    + destruct (i_numbers _ Hinv agentId d Hd) as [En Hpos]. unfold versions_of in En. rewrite En, Ec in *. cbn. rewrite String.eqb_refl.
      cbn. split; [|lia]. rewrite seqZ_app by lia. f_equal. rewrite seqZ_cons, seqZ_nil by lia. f_equal. lia.
    + assert (List.filter (λ p, String.eqb p.1 id) [(agentId, next)] = []) as ->.
      { simpl. by rewrite (proj2 (String.eqb_neq agentId id)). }
      rewrite app_nil_r. by apply (i_numbers _ Hinv).
Qed.

Lemma step_inv w w' : Inv w → step w w' → Inv w'.
Proof.
  intros Hinv Hs. destruct Hs as [w agentId versionId input now ca' created|w agentId d s a b Hd|w l1 l2 agentId current s a b now cv' archived|
    w l1 l2 agentId current s versionId now|w l1 r l2 Hr|w agentId m now|w from to now].
  - by apply inv_create.
  - apply findById_docs in Hd as [Hd _]. apply inv_requests; [done| |apply Hinv].
    intros r [->|Hr]%elem_of_cons; [right; eauto 10|by left].
  - intros. by eapply inv_archive.
  - by apply inv_replace.
  - apply inv_requests; [done|intros x Hx; left; rewrite Hr; set_solver|].
    intros id. pose proof (archives_once id l1 r l2) as Ho. rewrite <-Hr in Ho. specialize (Ho (i_single _ Hinv id)). lia.
  - apply inv_same_versions; [done|apply setMeta_same].
  - apply inv_same_versions; [done|apply renameCategory_same].
Qed.

Lemma steps_inv w w' : Inv w → rtc step w w' → Inv w'.
Proof. intros Hinv Hs. induction Hs; eauto using step_inv. Qed.
Lemma reachable_inv w : reachable w → Inv w.
Proof. intros (w0 & Hi%inv_initial & Hs). by eapply steps_inv. Qed.

(** C22.  However requests that publish interleave and wherever they stop, every version
    an assistant ever had can still be read back as it was, and its versions are
    numbered 1, 2, 3, ... up to the current one, with none skipped or repeated. *)
Theorem versions_are_kept w agentId v :
  reachable w → (agentId, v) ∈ w_published w →
  version_of agentId (av_versionId v) w = Some v ∧
  ∃ d, findById agentId (w_agents w) = Some d ∧ map av_version (versions_of agentId w) = seqZ 1 (av_version (ag_currentVersion d)).
Proof.
  intros Hinv%reachable_inv Hv. destruct (i_kept _ Hinv agentId v Hv) as (d & Hd & Hor).
  assert (findById agentId (w_agents w) = Some d) as Hf by (unfold findById; by rewrite Hd; simpl; rewrite (i_ws _ Hinv agentId d Hd)).
  split; [|exists d; split; [done|apply (i_numbers _ Hinv agentId d Hd)]].
  unfold version_of. rewrite Hf. simpl. destruct (String.eqb_spec (av_versionId (ag_currentVersion d)) (av_versionId v)) as [E|Hne].
  - f_equal. pose proof (same_version_id w agentId agentId _ _ Hinv (i_current _ Hinv agentId d Hd) Hv E) as Ep. congruence.
  - destruct Hor as [<-|(row & -> & _ & <-)]; [done|done].
Qed.

(** ** Publishing without interruption *)

Lemma numbered_once w id v v' : Inv w →
  (id, v) ∈ w_published w → (id, v') ∈ w_published w → av_version v = av_version v' → v = v'.
Proof.
  intros Hinv Hv Hv' E. destruct (i_kept _ Hinv id v Hv) as (d & Hd & _). destruct (i_numbers _ Hinv id d Hd) as [En _].
  assert (∀ x, (id, x) ∈ w_published w → x ∈ versions_of id w) as Hin.
  { intros x Hx. apply list_elem_of_fmap. exists (id, x). split; [done|]. apply list_elem_of_In, filter_In. split; [by apply list_elem_of_In|apply String.eqb_refl]. }
  apply Hin, list_elem_of_lookup in Hv as [i Hi]. apply Hin, list_elem_of_lookup in Hv' as [j Hj].
  assert (i = j) as ->; [|congruence]. apply (NoDup_lookup (map av_version (versions_of id w)) i j (av_version v)).
  - rewrite En. apply NoDup_seqZ.
  - by rewrite list_lookup_fmap, Hi.
  - by rewrite list_lookup_fmap, Hj, E.
Qed.

(** [publishVersion] of an assistant whose version is not archived yet succeeds, and is
    a sequence of steps. *)
Lemma publish_is_steps w agentId versionId snapshot changelog createdBy now d :
  Inv w → docs (w_agents w) !! agentId = Some d → docs (w_versions w) !! av_versionId (ag_currentVersion d) = None → versionId ∉ used_ids w →
  let next := renumber versionId (av_version (ag_currentVersion d) + 1) snapshot in
  ∃ ca' cv', publishVersion agentId versionId snapshot changelog createdBy now (w_agents w) (w_versions w) = (Ret tt, ca', cv') ∧
    rtc step w {| w_agents := ca'; w_versions := cv'; w_requests := w_requests w; w_published := w_published w ++ [(agentId, next)] |} ∧
    docs ca' = <[agentId := set_version next now d]> (docs (w_agents w)) ∧
    docs cv' = <[av_versionId (ag_currentVersion d) := version_row agentId (ag_currentVersion d) changelog createdBy now]> (docs (w_versions w)).
Proof.
  intros Hinv Hd Hn Hfresh next. pose proof (i_ws _ Hinv agentId d Hd) as Hws. set (cur := ag_currentVersion d) in *.
  assert (findById agentId (w_agents w) = Some d) as Hf by (unfold findById; by rewrite Hd; simpl; rewrite Hws).
  assert (∀ k row, docs (w_versions w) !! k = Some row → same_version (version_row agentId cur changelog createdBy now) row = false) as Hclash.
  { intros k row Hr. destruct (i_rows _ Hinv k row Hr) as (-> & Hp & En). apply andb_false_iff. cbn.
    destruct (String.eqb_spec agentId (vd_agentId row)) as [->|]; [right|by left]. apply Z.eqb_neq. intros E.
    rewrite (numbered_once w (vd_agentId row) (vd_snapshot row) cur Hinv Hp (i_current _ Hinv _ d Hd)) in Hr; congruence. }
  destruct (insertOne_ok same_version (av_versionId cur) (version_row agentId cur changelog createdBy now) (w_versions w) Hn Hclash) as [Ho Hdv].
  unfold publishVersion. rewrite Hf. fold cur. unfold archive.
  destruct (insertOne same_version _ _ _) as [ok cv'] eqn:Ei. simpl in Ho, Hdv. subst ok.
  eexists _, cv'. split; [reflexivity|]. split_and!; [|by apply (updateOne_hit agentId in_ws _ (w_agents w) d)|done].
  eapply rtc_l; [eapply (st_read w agentId d snapshot changelog createdBy Hf)|].
  eapply rtc_l; [eapply (st_archive _ [] (w_requests w) agentId cur snapshot changelog createdBy now cv' true); [done|exact Ei]|].
  eapply rtc_l; [eapply (st_replace _ [] (w_requests w) agentId cur snapshot versionId now); [done|exact Hfresh]|]. apply rtc_refl.
Qed.

(** ** Publishing that is interrupted *)

(** The current version is archived and no request that archived it is left. *)
Definition stranded (agentId : string) v (w : World) : Prop :=
  (∃ d, docs (w_agents w) !! agentId = Some d ∧ ag_currentVersion d = v) ∧ archived_as agentId v w ∧
  ∀ r, r ∈ w_requests w → archives agentId r = false.

Lemma stranded_step agentId v w w' : Inv w → stranded agentId v w → step w w' → stranded agentId v w'.
Proof.
  intros Hinv ((d & Hd & Ev) & Harch & Hnone) Hs. destruct Hs as [w id versionId input now ca' created Hf Hc|w id d' s a b Hd'|
    w l1 l2 id current s a b now cv' archived Hr Ha|w l1 l2 id current s versionId now Hr Hf|w l1 r l2 Hr|w id m now|w from to now].
  - unfold create in Hc. destruct (insertOne_cases same_slug id (new_agent versionId input now) (w_agents w)) as [(_ & Hn & _ & E)|(_ & E)];
      rewrite Hc in E; simpl in E; (split; [exists d; cbn; rewrite E|done]); [|done]. rewrite lookup_insert_ne; [done|]. intros ->. congruence.
  - split; [eauto|]. split; [done|]. intros r [->|Hin]%elem_of_cons; [done|by apply Hnone].
  - assert ((id, current) ∈ w_published w) as Hpub by (apply (i_reads _ Hinv id current s a b); rewrite Hr; set_solver).
    assert (∀ r, r ∈ l1 ++ l2 → archives agentId r = false) as Hrest by (intros r Hin; apply Hnone; rewrite Hr; set_solver).
    unfold archive in Ha. destruct (insertOne_cases same_version (av_versionId current) (version_row id current a b now) (w_versions w)) as [(Hb & Hn & _ & E)|(Hb & E)];
      rewrite Ha in Hb, E; simpl in Hb, E; subst archived.
    + destruct (unarchived_is_current w id current Hinv Hpub Hn) as (d0 & Hd0 & Ec). destruct Harch as (row & Hrow & Hid & Hsn).
      split; [eauto|]. split; [exists row; cbn; by rewrite E, lookup_insert_ne by congruence|].
      cbn. intros r Hin. assert (r ∈ l1 ++ l2 ∨ r = rq_archived id current s) as [Hin'| ->] by set_solver; [by apply Hrest|].
      apply String.eqb_neq. intros ->. congruence.
    + split; [eauto|]. split; [|intros r Hin; apply Hrest; set_solver]. destruct Harch as (row & Hrow & Hx). exists row. cbn. by rewrite E.
  - assert (archives agentId (rq_archived id current s) = false) as Hne%String.eqb_neq by (apply Hnone; rewrite Hr; set_solver).
    split; [|split; [done|intros r Hin; apply Hnone; rewrite Hr; set_solver]]. exists d. split; [|done]. cbn. unfold replace_version.
    destruct (updateOne_cases id in_ws (set_version (renumber versionId (av_version current + 1) s) now) (w_agents w)) as [(x & _ & _ & _ & ->)|(_ & _ & ->)]; [|done].
    by rewrite lookup_insert_ne.
  - split; [eauto|]. split; [done|]. intros x Hin. apply Hnone. rewrite Hr. set_solver.
  - split; [|done]. pose proof (setMeta_same id m now (w_agents w) agentId) as E. rewrite Hd in E. cbn.
    destruct (docs (setMeta _ _ _ _) !! agentId) as [x|]; [|done]. injection E as _ E. exists x. by rewrite <-E.
  - split; [|done]. pose proof (renameCategory_same from to now (w_agents w) agentId) as E. rewrite Hd in E. cbn.
    destruct (docs (renameCategory _ _ _ _).2 !! agentId) as [x|]; [|done]. injection E as _ E. exists x. by rewrite <-E.
Qed.

(** An assistant whose edit stopped between archiving and replacing keeps its version
    forever: every later edit meets the archived row and fails. *)
Theorem interrupted_edits_block_the_assistant agentId v w w' :
  reachable w → stranded agentId v w → rtc step w w' → stranded agentId v w'.
Proof.
  intros Hr%reachable_inv Hs Hsteps. induction Hsteps as [|x y z Hxy _ IH]; [done|].
  apply IH; [by eapply step_inv|by eapply stranded_step].
Qed.
End Agents.

(** ** Concrete histories *)

Definition sample_input : CreateAgentInput := {|
  ca_slug := "ada"; ca_name := "Ada"; ca_description := None; ca_category := None; ca_color := None; ca_systemPrompt := "Be terse."; ca_modelRole := "chat";
  ca_createdBy := "usr_1" |}.
Definition v1 : Version := ag_currentVersion (new_agent "ws_1" "ver_1" sample_input 1).
Definition empty_world : @World (gmap string AgentDoc) (gmap string VersionDoc) := {| w_agents := ∅; w_versions := ∅; w_requests := []; w_published := [] |}.
Definition made : @World (gmap string AgentDoc) (gmap string VersionDoc) := {|
  w_agents := {["agt_1" := new_agent "ws_1" "ver_1" sample_input 1]}; w_versions := ∅; w_requests := []; w_published := [("agt_1", v1)] |}.
(** The edit of an assistant that stopped after its archiving command. *)
Definition cut_short : @World (gmap string AgentDoc) (gmap string VersionDoc) := {|
  w_agents := w_agents made; w_versions := {["ver_1" := version_row "ws_1" "agt_1" v1 "edit" "usr_1" 2]}; w_requests := []; w_published := [("agt_1", v1)] |}.

Lemma made_reachable : reachable "ws_1" made.
Proof.
  exists empty_world. split; [done|]. apply rtc_once. apply (st_create "ws_1" empty_world "agt_1" "ver_1" sample_input 1 _ true); [set_solver|reflexivity].
Qed.
Lemma cut_short_reachable : reachable "ws_1" cut_short.
Proof.
  destruct made_reachable as (w0 & Hi & Hs). exists w0. split; [done|]. etrans; [exact Hs|].
  eapply rtc_l; [apply (st_read "ws_1" made "agt_1" (new_agent "ws_1" "ver_1" sample_input 1) v1 "edit" "usr_1"); reflexivity|].
  eapply rtc_l; [apply (st_archive "ws_1" _ [] [] "agt_1" v1 v1 "edit" "usr_1" 2 (w_versions cut_short) true); reflexivity|].
  eapply rtc_l; [eapply (st_stop "ws_1" _ [] (rq_archived "agt_1" v1 v1) []); reflexivity|]. apply rtc_refl.
Qed.

Lemma versions_are_kept_witness :
  version_of "ws_1" "agt_1" "ver_1" made = Some v1 ∧
  ∃ d, findById "ws_1" "agt_1" (w_agents made) = Some d ∧ map av_version (versions_of "agt_1" made) = seqZ 1 (av_version (ag_currentVersion d)).
Proof. apply (versions_are_kept "ws_1" made "agt_1" v1 made_reachable). by left. Defined.

Lemma interrupted_edits_block_the_assistant_witness : stranded "agt_1" v1 cut_short.
Proof.
  apply (interrupted_edits_block_the_assistant "ws_1" "agt_1" v1 cut_short cut_short cut_short_reachable); [|apply rtc_refl].
  split; [by eexists|]. split; [by eexists|]. intros r Hr. by apply elem_of_nil in Hr.
Defined.
