(* ===== verification/AgentRoutes.v ===== *)
(** * The routes that make and change assistants

    Models apps/web/src/app/api/workspaces/[workspaceId]/agents (the list, a new
    assistant, a team, an edit, a rename, a group) with lib/agent-team.ts and
    lib/agent-colors.ts, over the repository of [Agents], the catalogue of
    [Catalog], the limits of [Billing] and the schedules of [Schedule].  A request
    body has passed its schema; ids and the time are arguments. *)
From S2P Require Import Prelude Json Text Mongo Catalog Cron Schedule Billing Agents.

Definition AGENT_COLORS : list string := ["#3b82f6"; "#14b8a6"; "#ef4444"; "#f59e0b"; "#8b5cf6"; "#84cc16"; "#06b6d4"; "#ec4899"].

(** ** Slugs *)

Definition slug_char (c : Ascii.ascii) : bool := is_lower c || is_digit c.
(** [replace(/[^a-z0-9]+/g, '-')]; [inside] says that a run is being read. *)
Fixpoint dashed (inside : bool) (s : string) : string :=
  match s with
  | EmptyString => ""
  | String c r => if slug_char c then String c (dashed false r) else if inside then dashed true r else String "-" (dashed true r)
  end.
(** [replace(/^-|-$/g, '')]. *)
Definition drop_front (s : string) : string := match s with String c r => if Ascii.eqb c "-" then r else s | EmptyString => "" end.
Fixpoint drop_back (s : string) : string :=
  match s with EmptyString => "" | String c "" => if Ascii.eqb c "-" then "" else s | String c r => String c (drop_back r) end.
Definition slug_of (name fallback : string) : string :=
  let s := str_take 40 (drop_back (drop_front (dashed false (toLowerCase name)))) in if String.eqb s "" then fallback else s.
Definition slugOf (name : string) : string := slug_of name "agent".

(** ** Requests *)

Record AgentInput := {
  ai_name : string; ai_roleId : option string; ai_description : option string; ai_category : option string; ai_color : option string;
  ai_systemPrompt : option string; ai_modelRole : string; ai_capabilityBindings : list CapabilityBinding; ai_maxToolCallsPerTurn : option Z }.
Record MetaInput := { mi_name : option string; mi_description : option string; mi_category : option string; mi_color : option string }.

(** [input.category !== undefined && input.category !== '']. *)
Definition filled (s : option string) : option string := match s with Some "" => None | s => s end.

Section Routes.
Context {CA CV CS : Type} `{CollectionLaws AgentDoc CA} `{CollectionLaws VersionDoc CV} `{CollectionLaws ScheduleDoc CS}.
Context (workspaceId : string).
Implicit Types (ca : CA) (cv : CV) (cs : CS).

(** What the routes read of the rest: the name of the workspace, the plan, and the
    binding that serves the chat role. *)
Record Surroundings := { su_businessName : option string; su_plan : Entitlements; su_chat : option string }.
Context (su : Surroundings).

Definition prompt_for (name : string) : string := defaultSystemPrompt {| pi_assistantName := name; pi_businessName := su_businessName su |}.
Definition room (adding : Z) ca : option Refusal := countGateFor (su_plan su) lim_agents (Z.of_nat (count workspaceId ca)) adding.

Inductive RouteError := re_limit (why : Refusal) | re_unknown_role | re_not_found | re_duplicate.

(** *** Making assistants *)

Definition color_of (ca : CA) (chosen : option string) : option string :=
  match chosen with Some c => Some c | None => AGENT_COLORS !! (count workspaceId ca mod length AGENT_COLORS)%nat end.
Definition blank_input (input : AgentInput) (actor : string) ca : CreateAgentInput := {|
  ca_slug := slugOf (ai_name input); ca_name := ai_name input; ca_description := ai_description input; ca_category := filled (ai_category input);
  ca_color := color_of ca (ai_color input); ca_systemPrompt := default (prompt_for (ai_name input)) (ai_systemPrompt input);
  ca_modelRole := ai_modelRole input; ca_createdBy := actor |}.

Definition role_input (role : AssistantRole) (name category : option string) (actor : string) : CreateAgentInput :=
  let given := js_trim (default (ar_assistantName role) name) in
  let named := if String.eqb given "" then ar_assistantName role else given in {|
  ca_slug := slug_of named (ar_id role); ca_name := named; ca_description := Some (ar_summary role); ca_category := Some (default TEAM_GROUP (filled category));
  ca_color := Some (ar_color role); ca_systemPrompt := roleSystemPrompt role {| pi_assistantName := named; pi_businessName := su_businessName su |};
  ca_modelRole := "chat"; ca_createdBy := actor |}.

Definition routine_row (agentId chatId scheduleId actor : string) (r : RoleRoutine) : ScheduleDoc := {|
  sd_id := scheduleId; sd_workspaceId := workspaceId; sd_name := rr_name r; sd_expression := rr_expression r; sd_timeZone := "UTC"; sd_agentId := agentId;
  sd_modelBindingId := chatId; sd_prompt := rr_prompt r; sd_createdBy := actor; sd_createdAt := 0; sd_enabled := true; sd_lastFiredFor := None;
  sd_lastRunId := None; sd_consecutiveFailures := 0; sd_lastError := None; sd_updatedAt := 0 |}.
(** One schedule per routine, with the ids that are given. *)
Definition add_routines (agentId chatId actor : string) (routines : list RoleRoutine) (ids : list string) (now : Z) cs : nat * CS :=
  foldl (λ acc ri, (S acc.1, (create_schedule workspaceId (routine_row agentId chatId ri.2 actor ri.1) now acc.2).2)) (O, cs) (zip routines ids).

(** [createAssistantFromRole]: how many routines came with the assistant. *)
Definition createAssistantFromRole (agentId versionId : string) (schedules : list string) (role : AssistantRole) (name category : option string)
    (actor : string) (now : Z) ca cs : outcome RouteError nat * CA * CS :=
  match create workspaceId agentId versionId (role_input role name category actor) now ca with
  | (false, ca') => (Throw re_duplicate, ca', cs)
  | (true, ca') =>
      match su_chat su with
      | None => (Ret O, ca', cs)
      | Some chatId => let '(n, cs') := add_routines agentId chatId actor (ar_routines role) schedules now cs in (Ret n, ca', cs')
      end
  end.

(** POST of the list. *)
Definition post_agent (agentId versionId : string) (schedules : list string) (input : AgentInput) (actor : string) (now : Z) ca cs
    : outcome RouteError nat * CA * CS :=
  match room 1 ca with
  | Some why => (Throw (re_limit why), ca, cs)
  | None =>
      match ai_roleId input with
      | Some roleId =>
          match roleById roleId with
          | None => (Throw re_unknown_role, ca, cs)
          | Some role => createAssistantFromRole agentId versionId schedules role (Some (ai_name input)) (ai_category input) actor now ca cs
          end
      | None =>
          match create workspaceId agentId versionId (blank_input input actor ca) now ca with
          | (true, ca') => (Ret O, ca', cs)
          | (false, ca') => (Throw re_duplicate, ca', cs)
          end
      end
  end.

(** The ids of one member of a team. *)
Record MemberIds := { mi_agent : string; mi_version : string; mi_schedules : list string }.
Fixpoint make_team (roles : list AssistantRole) (ids : list MemberIds) (actor : string) (now : Z) ca cs : outcome RouteError (list (string * nat)) * CA * CS :=
  match roles, ids with
  | role :: roles', i :: ids' =>
      match createAssistantFromRole (mi_agent i) (mi_version i) (mi_schedules i) role None None actor now ca cs with
      | (Throw e, ca', cs') => (Throw e, ca', cs')
      | (Ret n, ca', cs') =>
          match make_team roles' ids' actor now ca' cs' with
          | (Ret made, ca'', cs'') => (Ret ((mi_agent i, n) :: made), ca'', cs'')
          | failed => failed
          end
      end
  | _, _ => (Ret [], ca, cs)
  end.
(** [[...new Set(ids)]]. *)
Fixpoint distinct_ids (seen l : list string) : list string :=
  match l with [] => [] | x :: r => if bool_decide (x ∈ seen) then distinct_ids seen r else x :: distinct_ids (x :: seen) r end.
Definition post_team (roleIds : list string) (ids : list MemberIds) (actor : string) (now : Z) ca cs : outcome RouteError (list (string * nat)) * CA * CS :=
  match mapM roleById (distinct_ids [] roleIds) with
  | None => (Throw re_unknown_role, ca, cs)
  | Some roles =>
      match room (Z.of_nat (length roles)) ca with
      | Some why => (Throw (re_limit why), ca, cs)
      | None => make_team roles ids actor now ca cs
      end
  end.

(** *** Changing assistants *)

(** PATCH of one: what the request leaves out of the prompt and the guardrails stays
    as the first read found it. *)
Definition edited (input : AgentInput) (v : Version) : Version := {|
  av_versionId := av_versionId v; av_version := av_version v; av_systemPrompt := default (av_systemPrompt v) (ai_systemPrompt input);
  av_modelRole := ai_modelRole input; av_capabilityBindings := ai_capabilityBindings input;
  av_maxToolCallsPerTurn := default (av_maxToolCallsPerTurn v) (ai_maxToolCallsPerTurn input) |}.
Definition edited_meta (input : AgentInput) : Meta := {|
  me_name := Some (ai_name input); me_description := Some (default "" (ai_description input)); me_category := Some (filled (ai_category input));
  me_color := Some <$> ai_color input; me_modelBindingId := None |}.
Definition of_publish (e : PublishError) : RouteError := match e with pe_not_found => re_not_found | pe_duplicate => re_duplicate end.

(** What follows the first read, which found [agent]. *)
Definition patch_after (agentId versionId : string) (agent : AgentDoc) (input : AgentInput) (actor : string) (now : Z) ca cv
    : outcome RouteError Z * CA * CV :=
  match publishVersion workspaceId agentId versionId (edited input (ag_currentVersion agent)) ("Edited by " +:+ actor) actor now ca cv with
  | (Throw e, ca', cv') => (Throw (of_publish e), ca', cv')
  | (Ret _, ca', cv') =>
      let ca'' := setMeta workspaceId agentId (edited_meta input) now ca' in
      (Ret (from_option (λ d, av_version (ag_currentVersion d)) 0 (findById workspaceId agentId ca'')), ca'', cv')
  end.
Definition patch_agent (agentId versionId : string) (input : AgentInput) (actor : string) (now : Z) ca cv : outcome RouteError Z * CA * CV :=
  match findById workspaceId agentId ca with
  | None => (Throw re_not_found, ca, cv)
  | Some agent => patch_after agentId versionId agent input actor now ca cv
  end.

(** PATCH of the fields that are not versioned: a rename rewrites a prompt nobody wrote. *)
Definition renames (input : MetaInput) (agent : AgentDoc) : option string :=
  match mi_name input with
  | Some name => if negb (String.eqb name (ag_name agent)) && isDefaultSystemPrompt (av_systemPrompt (ag_currentVersion agent)) then Some name else None
  | None => None
  end.
Definition meta_of (input : MetaInput) : Meta := {|
  me_name := mi_name input; me_description := mi_description input;
  me_category := (λ c, filled (Some c)) <$> mi_category input; me_color := Some <$> mi_color input; me_modelBindingId := None |}.
Definition patch_meta (agentId versionId : string) (input : MetaInput) (actor : string) (now : Z) ca cv : outcome RouteError unit * CA * CV :=
  match findById workspaceId agentId ca with
  | None => (Throw re_not_found, ca, cv)
  | Some agent =>
      let published :=
        match renames input agent with
        | None => (Ret tt, ca, cv)
        | Some name => publishVersion workspaceId agentId versionId (with_prompt (prompt_for name) (ag_currentVersion agent)) ("Renamed to " +:+ name) actor now ca cv
        end in
      match published with
      | (Throw e, ca', cv') => (Throw (of_publish e), ca', cv')
      | (Ret _, ca', cv') => (Ret tt, setMeta workspaceId agentId (meta_of input) now ca', cv')
      end
  end.

(** PATCH of a group: how many assistants moved. *)
Definition patch_group (from to : string) (now : Z) ca : outcome RouteError Z * CA :=
  let '(moved, ca') := renameCategory workspaceId from to now ca in (if moved =? 0 then Throw re_not_found else Ret moved, ca').

(** *** Listing *)

(** A default that is not today's. *)
Definition stale (d : AgentDoc) : bool :=
  isDefaultSystemPrompt (av_systemPrompt (ag_currentVersion d)) && negb (isCurrentDefaultSystemPrompt (av_systemPrompt (ag_currentVersion d)) (ag_name d)).
Fixpoint upgrade_all (agents : list (string * AgentDoc)) (versionIds : list string) (actor : string) (now : Z) ca cv : outcome PublishError unit * CA * CV :=
  match agents, versionIds with
  | (id, d) :: rest, versionId :: more =>
      match publishVersion workspaceId id versionId (with_prompt (prompt_for (ag_name d)) (ag_currentVersion d)) "Default instructions updated" actor now ca cv with
      | (Ret _, ca', cv') => upgrade_all rest more actor now ca' cv'
      | failed => failed
      end
  | _, _ => (Ret tt, ca, cv)
  end.
Definition upgradeStaleDefaults (versionIds : list string) (actor : string) (now : Z) ca cv : outcome PublishError (list (string * AgentDoc)) * CA * CV :=
  match upgrade_all (List.filter (λ p, stale p.2) (list_agents workspaceId ca)) versionIds actor now ca cv with
  | (Throw e, ca', cv') => (Throw e, ca', cv')
  | (Ret _, ca', cv') => (Ret (list_agents workspaceId ca'), ca', cv')
  end.
End Routes.

(** ** What a list shows *)

Inductive AgentStatus := working | waiting | failed | idle.
Definition status_of (run : string) : AgentStatus :=
  if bool_decide (run ∈ ["queued"; "running"; "waiting_tool"]) then working
  else if bool_decide (run ∈ ["suspended"; "waiting_input"; "waiting_approval"]) then waiting
  else if String.eqb run "failed" then failed else idle.

Record LastMessage := { lm_preview : string; lm_at : Z }.
(** The conversations and runs a list reads: an agent and its last message, or its status. *)
Definition last_by_agent (conversations : list (string * option LastMessage)) : gmap string LastMessage :=
  foldl (λ m c, match c.2 with
                | None => m
                | Some l => match m !! c.1 with
                            | Some known => if lm_at known <? lm_at l then <[c.1 := l]> m else m
                            | None => <[c.1 := l]> m
                            end
                end) ∅ conversations.
Definition status_by_agent (runs : list (string * string)) : gmap string AgentStatus :=
  foldl (λ m r, match m !! r.1 with Some _ => m | None => <[r.1 := status_of r.2]> m end) ∅ runs.

Record ListedAgent := {
  la_id : string; la_name : string; la_description : option string; la_category : option string; la_color : string; la_main : bool;
  la_status : AgentStatus; la_lastMessage : option LastMessage; la_modelRole : string; la_version : Z; la_createdAt : Z; la_updatedAt : Z }.
Definition oldest (agents : list (string * AgentDoc)) : option string :=
  fst <$> head (stable_sort (λ a b, ag_createdAt a.2 <=? ag_createdAt b.2) agents).
Definition presentAgents (agents : list (string * AgentDoc)) (conversations : list (string * option LastMessage)) (runs : list (string * string)) : list ListedAgent :=
  map (λ p, {| la_id := p.1; la_name := ag_name p.2; la_description := filled (Some (ag_description p.2)); la_category := ag_category p.2;
    la_color := default "#3b82f6" (ag_color p.2); la_main := bool_decide (Some p.1 = oldest agents);
    la_status := default idle (status_by_agent runs !! p.1); la_lastMessage := last_by_agent conversations !! p.1;
    la_modelRole := av_modelRole (ag_currentVersion p.2); la_version := av_version (ag_currentVersion p.2); la_createdAt := ag_createdAt p.2;
    la_updatedAt := ag_updatedAt p.2 |}) agents.

(** ** Slugs are clean *)

Definition slug_text (s : string) : Prop := str_all (λ c, slug_char c || Ascii.eqb c "-") s = true.

Lemma dashed_text inside s : slug_text (dashed inside s).
Proof.
  unfold slug_text. revert inside. induction s as [|c s IH]; intros inside; [done|]. cbn [dashed].
  destruct (slug_char c) eqn:E; [cbn [str_all]; rewrite E; apply IH|]. destruct inside; [apply IH|]. cbn [str_all]. rewrite IH. done.
Qed.
Lemma drop_front_text s : slug_text s → slug_text (drop_front s).
Proof. unfold slug_text. destruct s as [|c s]; [done|]. cbn [str_all]. intros [Hc Hs]%andb_true_iff. cbn [drop_front]. destruct (Ascii.eqb c "-") eqn:E; [done|]. cbn [str_all]. by rewrite E, Hc. Qed.
Lemma drop_back_text s : slug_text s → slug_text (drop_back s).
Proof.
  unfold slug_text. induction s as [|c [|d s] IH]; [done| |]; cbn [str_all drop_back]; intros [Hc Hs]%andb_true_iff.
  - destruct (Ascii.eqb c "-") eqn:E; [done|]. cbn [str_all]. by rewrite E, Hc.
  - change (str_all (λ c, slug_char c || Ascii.eqb c "-") (String c (drop_back (String d s))) = true). cbn [str_all]. rewrite Hc. by apply IH.
Qed.

(** A run of other characters is one dash, so only the first character can be one
    after which a dash is left at the front. *)
Definition no_dash_first (s : string) : bool := match s with String c _ => negb (Ascii.eqb c "-") | EmptyString => true end.
Lemma dashed_inside s : no_dash_first (dashed true s) = true.
Proof. induction s as [|c s IH]; [done|]. cbn [dashed]. destruct (slug_char c) eqn:E; [|done]. simpl. by destruct (Ascii.eqb_spec c "-") as [->|]. Qed.
Lemma drop_front_dashed s : no_dash_first (drop_front (dashed false s)) = true.
Proof.
  destruct s as [|c s]; [done|]. cbn [dashed]. destruct (slug_char c) eqn:E; [|apply dashed_inside].
  cbn [drop_front]. destruct (Ascii.eqb_spec c "-") as [->|Hc]; [done|]. simpl. by apply negb_true_iff, Ascii.eqb_neq.
Qed.
Lemma drop_back_first s : no_dash_first s = true → no_dash_first (drop_back s) = true.
Proof. destruct s as [|c [|d s]]; [done| |done]. cbn [drop_back]. by destruct (Ascii.eqb c "-"). Qed.

(** A slug is never empty, has at most 40 characters, all of them small letters,
    digits or dashes, and does not begin with a dash. *)
Theorem slugs_are_clean name :
  slug_text (slugOf name) ∧ (1 <= String.length (slugOf name) <= 40)%nat ∧ no_dash_first (slugOf name) = true.
Proof.
  unfold slugOf, slug_of. set (body := drop_back (drop_front (dashed false (toLowerCase name)))).
  assert (slug_text body) as Hb by (apply drop_back_text, drop_front_text, dashed_text).
  assert (no_dash_first body = true) as Hf by (apply drop_back_first, drop_front_dashed). clearbody body.
  destruct (String.eqb_spec (str_take 40 body) "") as [E|Hne]; [vm_compute; split_and!; [done|lia..|done]|].
  pose proof (str_take_length 40 body) as Hl. split_and!; [by apply str_all_take| |lia|].
  - destruct (str_take 40 body); simpl in *; [done|lia].
  - by destruct body.
Qed.

(** ** The routines of every role are schedules *)

Theorem routines_can_fire role routine : role ∈ ROLES → routine ∈ ar_routines role → ∃ fields, parseCron (rr_expression routine) = Ret fields.
Proof.
  intros Hr Hx.
  assert (forallb (λ role, forallb (λ r, match parseCron (rr_expression r) with Ret _ => true | _ => false end) (ar_routines role)) ROLES = true) as Hall by (by vm_compute).
  rewrite forallb_forall in Hall. specialize (Hall role). rewrite <-list_elem_of_In in Hall. apply Hall in Hr. rewrite forallb_forall in Hr.
  specialize (Hr routine). rewrite <-list_elem_of_In in Hr. apply Hr in Hx. destruct (parseCron _); [eauto|done].
Qed.

(** ** Listing brings every default up to date, once *)

Section Listing.
Context {CA CV : Type} `{CollectionLaws AgentDoc CA} `{CollectionLaws VersionDoc CV}.
Context (workspaceId : string) (su : Surroundings) (actor : string) (now : Z).
Notation World := (@World CA CV).
Implicit Types (w : World) (d : AgentDoc).

Definition named_trimmed (ca : CA) : Prop := ∀ id d, docs ca !! id = Some d → js_trim (ag_name d) = ag_name d.
(** No publication was interrupted: no current version is archived. *)
Definition unstranded w : Prop := ∀ id d, docs (w_agents w) !! id = Some d → docs (w_versions w) !! av_versionId (ag_currentVersion d) = None.

Definition upgraded (versionId : string) d : AgentDoc :=
  set_version (renumber versionId (av_version (ag_currentVersion d) + 1) (with_prompt (prompt_for su (ag_name d)) (ag_currentVersion d))) now d.

Lemma upgraded_not_stale versionId d : js_trim (ag_name d) = ag_name d → stale (upgraded versionId d) = false.
Proof.
  intros Hn. pose proof (upgraded_prompts_are_current {| pi_assistantName := ag_name d; pi_businessName := su_businessName su |} Hn) as E.
  unfold stale, upgraded. cbn [ag_currentVersion set_version renumber with_prompt av_systemPrompt ag_name].
  change (isCurrentDefaultSystemPrompt (prompt_for su (ag_name d)) (ag_name d) = true) in E. rewrite E. apply andb_false_r.
Qed.

(** Publishing leaves no version stranded. *)
Lemma publish_unstranded w agentId versionId ca' cv' next d changelog :
  Inv workspaceId w → unstranded w → docs (w_agents w) !! agentId = Some d → versionId ∉ used_ids w → av_versionId next = versionId →
  docs ca' = <[agentId := set_version next now d]> (docs (w_agents w)) →
  docs cv' = <[av_versionId (ag_currentVersion d) := version_row workspaceId agentId (ag_currentVersion d) changelog actor now]> (docs (w_versions w)) →
  unstranded {| w_agents := ca'; w_versions := cv'; w_requests := w_requests w; w_published := w_published w ++ [(agentId, next)] |}.
Proof.
  intros Hinv Hun Hd Hf Hnext Hca Hcv id x. cbn. rewrite Hca, Hcv.
  assert (∀ v, (agentId, v) ∈ w_published w ∨ (∃ i, (i, v) ∈ w_published w) → av_versionId v ≠ versionId) as Hused.
  { intros v Hv E. apply Hf. apply list_elem_of_fmap. destruct Hv as [Hv|[i Hv]]; eexists (_, v); (split; [by symmetry|exact Hv]). }
  intros [[<- <-]|[Hne Hx]]%lookup_insert_Some.
  - cbn. rewrite lookup_insert_ne by (rewrite Hnext; apply Hused; left; by apply (i_current _ _ Hinv)).
    rewrite Hnext. destruct (docs (w_versions w) !! versionId) as [row|] eqn:Er; [|done]. exfalso.
    destruct (i_rows _ _ Hinv _ row Er) as (E & Hp & _). apply (Hused (vd_snapshot row)); eauto.
  - rewrite lookup_insert_ne; [by apply (Hun id)|]. intros E. apply Hne.
    pose proof (same_version_id _ w agentId id _ _ Hinv (i_current _ _ Hinv agentId d Hd) (i_current _ _ Hinv id x Hx) E). congruence.
Qed.

Lemma upgrade_all_spec l versionIds w :
  Inv workspaceId w → unstranded w → NoDup l.*1 → (∀ id d, (id, d) ∈ l → docs (w_agents w) !! id = Some d) →
  NoDup versionIds → (∀ v, v ∈ versionIds → v ∉ used_ids w) → length versionIds = length l →
  ∃ ca' cv', upgrade_all workspaceId su l versionIds actor now (w_agents w) (w_versions w) = (Ret tt, ca', cv') ∧
    ∀ id d', docs ca' !! id = Some d' →
      (∃ d v, docs (w_agents w) !! id = Some d ∧ id ∈ l.*1 ∧ d' = upgraded v d) ∨ (id ∉ l.*1 ∧ docs (w_agents w) !! id = Some d').
Proof.
  revert versionIds w. induction l as [|[id d] l IH]; intros [|versionId more] w Hinv Hun Hnd Hl Hids Hfresh Hlen; try done.
  { do 2 eexists. split; [done|]. intros id d' Hd. right. split; [apply not_elem_of_nil|done]. }
  apply NoDup_cons in Hnd as [Hid Hnd]. apply NoDup_cons in Hids as [Hv Hids].
  assert (docs (w_agents w) !! id = Some d) as Hd by (apply Hl; by left).
  assert (versionId ∉ used_ids w) as Hf by (apply Hfresh; by left).
  destruct (publish_is_steps workspaceId w id versionId (with_prompt (prompt_for su (ag_name d)) (ag_currentVersion d)) "Default instructions updated" actor now d Hinv Hd (Hun id d Hd) Hf)
    as (ca1 & cv1 & Ep & Hs & Hca & Hcv).
  cbn [upgrade_all]. rewrite Ep.
  set (w1 := {| w_agents := ca1; w_versions := cv1; w_requests := w_requests w; w_published := _ |}) in Hs.
  assert (Inv workspaceId w1) as Hinv1 by (by eapply steps_inv).
  destruct (IH more w1) as (ca' & cv' & E & Hres); [done|by eapply publish_unstranded|done| |done| |simpl in *; lia|].
  { intros id' d' Hin. cbn. rewrite Hca, lookup_insert_ne; [apply Hl; by right|]. intros <-. apply Hid. apply list_elem_of_fmap. by exists (id, d'). }
  { intros v Hin. unfold used_ids, w1. cbn. rewrite map_app, not_elem_of_app. split; [apply Hfresh; by right|].
    cbn. intros ->%list_elem_of_singleton. done. }
  exists ca', cv'. split; [exact E|]. intros id' d' Hd'. rewrite fmap_cons. cbn [fst].
  destruct (Hres id' d' Hd') as [(d0 & v & Hd0 & Hin & ->)|[Hnin Hd0]]; cbn in Hd0; rewrite Hca in Hd0.
  - left. exists d0, v. rewrite lookup_insert_ne in Hd0 by (by intros <-). split_and!; [done|by right|done].
  - apply lookup_insert_Some in Hd0 as [[<- <-]|[Hne Hd0]]; [left; exists d, versionId; split_and!; [done|by left|done]|].
    right. split; [|done]. by intros [->|Hx]%elem_of_cons.
Qed.

(** When no earlier publication was interrupted, listing the assistants gives every
    one that is still on an old default today's default, and afterwards none is left:
    the next listing publishes nothing. *)
Theorem listing_settles w versionIds :
  reachable workspaceId w → unstranded w → named_trimmed (w_agents w) → NoDup versionIds → (∀ v, v ∈ versionIds → v ∉ used_ids w) →
  length versionIds = length (List.filter (λ p, stale p.2) (list_agents workspaceId (w_agents w))) →
  ∃ ca' cv', upgradeStaleDefaults workspaceId su versionIds actor now (w_agents w) (w_versions w) = (Ret (list_agents workspaceId ca'), ca', cv') ∧
    List.filter (λ p, stale p.2) (list_agents workspaceId ca') = [].
Proof.
  intros Hinv%reachable_inv Hun Hnames Hnd Hfresh Hlen. unfold upgradeStaleDefaults. set (l := List.filter _ _) in *.
  assert (∀ id d, (id, d) ∈ l → docs (w_agents w) !! id = Some d) as Hl.
  { intros id d Hin. apply list_elem_of_In, filter_In in Hin as [Hin _]. apply list_elem_of_In in Hin. by apply find_docs_sound in Hin as [? _]; [|apply _]. }
  destruct (upgrade_all_spec l versionIds w Hinv Hun) as (ca' & cv' & -> & Hres); try done.
  { apply (NoDup_map_filter fst), find_docs_nodup, _. }
  exists ca', cv'. split; [done|]. apply filter_nothing. intros [id d'] Hin. cbn.
  apply find_docs_sound in Hin as [Hd' Hlive]; [|apply _].
  destruct (Hres id d' Hd') as [(d & v & Hd & _ & ->)|[Hnin Hd]]; [apply upgraded_not_stale; by apply (Hnames id)|].
  apply not_true_iff_false. intros Hst. apply Hnin. apply list_elem_of_fmap. exists (id, d'). split; [done|].
  apply list_elem_of_In, filter_In. split; [|done]. apply list_elem_of_In.
  by apply elem_of_find_sorted; [apply _|].
Qed.
End Listing.

(** ** What a list shows is the latest *)

(** The first run of an agent decides its status; runs are read newest first. *)
Lemma status_is_the_first runs a : status_by_agent runs !! a = (λ r, status_of r.2) <$> List.find (λ r, String.eqb r.1 a) runs.
Proof.
  unfold status_by_agent.
  assert (∀ m : gmap string AgentStatus, foldl (λ m r, match m !! r.1 with Some _ => m | None => <[r.1 := status_of r.2]> m end) m runs !! a
    = match m !! a with Some s => Some s | None => (λ r, status_of r.2) <$> List.find (λ r, String.eqb r.1 a) runs end) as Hg; [|by rewrite Hg, lookup_empty].
  induction runs as [|[b s] runs IH]; intros m; simpl; [by destruct (m !! a)|]. rewrite IH.
  destruct (String.eqb_spec b a) as [->|Hb]; simpl.
  - destruct (m !! a) eqn:E; [by rewrite E|by rewrite lookup_insert_eq].
  - destruct (m !! b); [done|]. by rewrite lookup_insert_ne.
Qed.

(** The message shown is one of the agent's, and none is later. *)
Lemma last_is_the_latest conversations a l :
  last_by_agent conversations !! a = Some l →
  (a, Some l) ∈ conversations ∧ ∀ l', (a, Some l') ∈ conversations → lm_at l' <= lm_at l.
Proof.
  unfold last_by_agent. set (f := λ _ _, _).
  assert (∀ m, foldl f m conversations !! a = Some l →
    (m !! a = Some l ∨ (a, Some l) ∈ conversations) ∧ (∀ l', (a, Some l') ∈ conversations → lm_at l' <= lm_at l) ∧
    (∀ l', m !! a = Some l' → lm_at l' <= lm_at l)) as Hg.
  { induction conversations as [|[b o] cs IH]; intros m Hm; simpl in Hm.
    { split_and!; [by left|set_solver|]. intros l' Hl. rewrite Hm in Hl. injection Hl as ->. lia. }
    destruct (IH _ Hm) as (H1' & H2' & H3'). unfold f in H1', H3'. simpl in H1', H3'.
    destruct o as [x|]; [|split_and!; [set_solver|set_solver|done]].
    destruct (decide (a = b)) as [<-|Hab].
    - destruct (m !! a) as [known|] eqn:Ek.
      + destruct (Z.ltb_spec (lm_at known) (lm_at x)) as [Hlt|Hge].
        * rewrite lookup_insert_eq in H1', H3'. specialize (H3' x eq_refl). split_and!.
          -- destruct H1' as [[= ->]|?]; right; set_solver.
          -- intros l' [[= ->]|?]%elem_of_cons; auto.
          -- intros l' [= <-]. lia.
        * rewrite Ek in H1', H3'. specialize (H3' known eq_refl). split_and!; [set_solver| |by intros l' [= <-]].
          intros l' [[= ->]|?]%elem_of_cons; [lia|auto].
      + rewrite lookup_insert_eq in H1', H3'. specialize (H3' x eq_refl). split_and!; [|intros l' [[= ->]|?]%elem_of_cons; auto|done].
        destruct H1' as [[= ->]|?]; right; set_solver.
    - assert (∀ m', (match m !! b with Some known => if lm_at known <? lm_at x then <[b:=x]> m else m | None => <[b:=x]> m end) = m' → m' !! a = m !! a) as Em.
      { intros m' <-. destruct (m !! b); [destruct (_ <? _)|]; by rewrite ?lookup_insert_ne by done. }
      rewrite (Em _ eq_refl) in H1', H3'. split_and!; [set_solver| |done]. intros l' [[= <- ->]|?]%elem_of_cons; [done|auto]. }
  intros (Hor & Hmax & _)%Hg. split; [|done]. by destruct Hor as [Hx|]; [rewrite lookup_empty in Hx|].
Qed.

Lemma oldest_spec agents id : oldest agents = Some id → ∃ d, (id, d) ∈ agents ∧ ∀ id' d', (id', d') ∈ agents → ag_createdAt d <= ag_createdAt d'.
Proof.
  unfold oldest. destruct (stable_sort _ agents) as [|[i d] l] eqn:E; [done|]. intros [= ->]. exists d.
  assert (StronglySorted (λ a b : string * AgentDoc, (ag_createdAt a.2 <=? ag_createdAt b.2) = true) ((id, d) :: l)) as Hs.
  { rewrite <-E. apply Sorted_StronglySorted; [intros a b c; rewrite !Z.leb_le; lia|].
    apply (stable_sort_sorted (λ a b : string * AgentDoc, ag_createdAt a.2 <=? ag_createdAt b.2)). intros a b. rewrite Z.leb_gt, Z.leb_le. lia. }
  assert (∀ x, x ∈ agents ↔ x ∈ (id, d) :: l) as Hin by (intros x; rewrite <-E; symmetry; apply elem_of_stable_sort).
  split; [apply Hin; by left|]. intros id' d' Hx%Hin. inversion Hs as [|? ? _ Hf]; subst. rewrite Forall_forall in Hf.
  apply elem_of_cons in Hx as [[= -> ->]|Hx]; [lia|]. specialize (Hf _ Hx). cbn in Hf. lia.
Qed.

(** A list of assistants marks exactly one as the main one, and it is the first that was
    made; each shows the latest of its messages and the status of its newest run. *)
Theorem lists_show_the_latest agents conversations runs :
  NoDup agents.*1 → agents ≠ [] →
  (∃ id d, (id, d) ∈ agents ∧ (∀ id' d', (id', d') ∈ agents → ag_createdAt d <= ag_createdAt d') ∧
     map la_id (List.filter la_main (presentAgents agents conversations runs)) = [id]) ∧
  ∀ row, row ∈ presentAgents agents conversations runs →
    la_status row = default idle ((λ r, status_of r.2) <$> List.find (λ r, String.eqb r.1 (la_id row)) runs) ∧
    (∀ l, la_lastMessage row = Some l → (la_id row, Some l) ∈ conversations ∧ ∀ l', (la_id row, Some l') ∈ conversations → lm_at l' <= lm_at l).
Proof.
  intros Hnd Hne. split.
  - destruct (oldest agents) as [id|] eqn:Eo.
    2: { exfalso. unfold oldest in Eo. destruct (stable_sort _ agents) eqn:E; [|done]. apply Hne, nil_length_inv.
         rewrite <-(stable_sort_length (λ a b : string * AgentDoc, ag_createdAt a.2 <=? ag_createdAt b.2)), E. done. }
    destruct (oldest_spec agents id Eo) as (d & Hin & Hmin). exists id, d. split_and!; [done..|].
    unfold presentAgents. rewrite Eo. clear Eo Hmin Hne. induction agents as [|[i x] l IH]; [by apply elem_of_nil in Hin|].
    apply NoDup_cons in Hnd as [Hi Hnd]. cbn [map List.filter la_main fst snd].
    apply elem_of_cons in Hin as [[= <- <-]|Hin].
    + rewrite bool_decide_eq_true_2 by done. cbn [map la_id]. f_equal. rewrite filter_nothing; [done|].
      intros row (p & -> & Hp)%list_elem_of_fmap. cbn. apply bool_decide_eq_false. intros [= E]. apply Hi. apply list_elem_of_fmap. exists p. by rewrite E.
    + rewrite bool_decide_eq_false_2; [by apply IH|]. intros [= ->]. apply Hi. by apply (list_elem_of_fmap_2 fst _ (id, d)).
  - intros row (p & -> & _)%list_elem_of_fmap. cbn. split; [by rewrite status_is_the_first|apply last_is_the_latest].
Qed.

(** ** A prompt somebody wrote stays *)

Section Written.
Context {CA CV : Type} `{CollectionLaws AgentDoc CA} `{CollectionLaws VersionDoc CV}.
Context (workspaceId : string) (su : Surroundings).
Implicit Types (ca : CA) (cv : CV).

Lemma publish_other ca cv agentId versionId snapshot changelog actor now id :
  id ≠ agentId → docs (publishVersion workspaceId agentId versionId snapshot changelog actor now ca cv).1.2 !! id = docs ca !! id.
Proof.
  intros Hne. unfold publishVersion. destruct (findById _ _ _) as [d|]; [|done]. destruct (archive _ _ _ _ _ _ _) as [[] cv']; [|done]. cbn.
  unfold replace_version. destruct (updateOne_cases agentId (in_ws workspaceId)
    (set_version (renumber versionId (av_version (ag_currentVersion d) + 1) snapshot) now) ca) as [(x & _ & _ & _ & ->)|(_ & _ & ->)]; [|done].
  by rewrite lookup_insert_ne.
Qed.

Lemma upgrade_all_other l versionIds actor now ca cv id :
  id ∉ l.*1 → docs (upgrade_all workspaceId su l versionIds actor now ca cv).1.2 !! id = docs ca !! id.
Proof.
  revert versionIds ca cv. induction l as [|[i d] l IH]; intros versionIds ca cv Hid; [done|]. destruct versionIds as [|v more]; [done|].
  rewrite fmap_cons, not_elem_of_cons in Hid. destruct Hid as [Hne Hid]. cbn [upgrade_all].
  pose proof (publish_other ca cv i v (with_prompt (prompt_for su (ag_name d)) (ag_currentVersion d)) "Default instructions updated" actor now id Hne) as E.
  destruct (publishVersion _ _ _ _ _ _ _ _ _) as [[[[]|] ca'] cv']; cbn in E; [|done]. by rewrite IH.
Qed.

(** Neither listing the assistants nor renaming one changes the version of an assistant
    whose prompt is not a default. *)
Theorem written_prompts_stay ca cv agentId d :
  docs ca !! agentId = Some d → isDefaultSystemPrompt (av_systemPrompt (ag_currentVersion d)) = false →
  (∀ versionIds actor now, docs (upgradeStaleDefaults workspaceId su versionIds actor now ca cv).1.2 !! agentId = Some d) ∧
  (∀ versionId input actor now, ∃ d', docs (patch_meta workspaceId su agentId versionId input actor now ca cv).1.2 !! agentId = Some d' ∧
     ag_currentVersion d' = ag_currentVersion d).
Proof.
  intros Hd Hw. split.
  - intros versionIds actor now. unfold upgradeStaleDefaults.
    pose proof (upgrade_all_other (List.filter (λ p, stale p.2) (list_agents workspaceId ca)) versionIds actor now ca cv agentId) as E.
    destruct (upgrade_all _ _ _ _ _ _ _ _) as [[[] ca'] cv']; cbn in E |- *; rewrite E; try done.
    all: intros ([id x] & -> & Hin)%list_elem_of_fmap; apply list_elem_of_In, filter_In in Hin as [Hin Hs]; apply list_elem_of_In in Hin.
    all: apply elem_of_find_sorted in Hin as [Hx _]; [|apply _]; cbn in *; rewrite Hd in Hx; injection Hx as <-; unfold stale in Hs; by rewrite Hw in Hs.
  - intros versionId input actor now. unfold patch_meta. destruct (findById workspaceId agentId ca) as [x|] eqn:Ef; [|eauto].
    apply findById_docs in Ef as [Ex _]. rewrite Hd in Ex. injection Ex as <-.
    assert (renames input d = None) as -> by (unfold renames; rewrite Hw; destruct (mi_name input); [by rewrite andb_false_r|done]). cbn.
    pose proof (setMeta_same workspaceId agentId (meta_of input) now ca agentId) as E. rewrite Hd in E.
    destruct (docs (setMeta _ _ _ _ _) !! agentId) as [d'|]; [|done]. injection E as _ E. exists d'. by rewrite <-E.
Qed.
End Written.

(** ** Concrete requests *)

Definition bare : Surroundings := {| su_businessName := Some "Okoro"; su_plan := UNCONFIGURED; su_chat := None |}.
Definition two_agents : Entitlements := {| en_planId := None; en_active := true; en_limits := Some {| pl_agents := 2; pl_channels := 0; pl_mcpServers := 0; pl_monthlyUsdCap := 0 |};
  en_unconfigured := false; en_state := trial; en_trialEndsAt := None |}.

Definition first_version : Version := {|
  av_versionId := "ver_1"; av_version := 1; av_systemPrompt := "Be terse."; av_modelRole := "chat";
  av_capabilityBindings := [{| cb_bindingId := "bnd_mail"; cb_mode := mode_allow; cb_tools := ["send"] |}]; av_maxToolCallsPerTurn := 6 |}.
Definition ada : AgentDoc := {|
  ag_workspaceId := "ws_1"; ag_slug := "ada"; ag_name := "Ada"; ag_description := ""; ag_category := None; ag_color := None; ag_modelBindingId := None;
  ag_currentVersion := first_version; ag_isArchived := false; ag_createdBy := "usr_1"; ag_createdAt := 1; ag_updatedAt := 1 |}.
Definition on_old_default : AgentDoc := set_version (with_prompt ("You are Ada." +:+ nn +:+ CONDUCT) first_version) 1 ada.
Definition agents_of (d : AgentDoc) : gmap string AgentDoc := {["agt_1" := d]}.
Definition no_versions : gmap string VersionDoc := ∅.
Definition no_schedules : gmap string ScheduleDoc := ∅.
Definition name_only (name : string) (prompt : option string) : AgentInput := {|
  ai_name := name; ai_roleId := None; ai_description := None; ai_category := None; ai_color := None; ai_systemPrompt := prompt; ai_modelRole := "chat";
  ai_capabilityBindings := []; ai_maxToolCallsPerTurn := None |}.

(** Two people edit at once: what the first wrote is put back by the second, who left
    the prompt out; both are told that it worked. *)
Example overlapping_edits_are_lost :
  let '(r1, ca1, cv1) := patch_agent "ws_1" "agt_1" "ver_2" (name_only "Ada" (Some "Answer in French.")) "usr_1" 2 (agents_of ada) no_versions in
  let '(r2, ca2, cv2) := patch_after "ws_1" "agt_1" "ver_3" ada (name_only "Ada" None) "usr_2" 3 ca1 cv1 in
  (r1, r2, av_systemPrompt ∘ ag_currentVersion <$> ca2 !! "agt_1") = (Ret 2, Ret 3, Some "Be terse.").
Proof. vm_compute. reflexivity. Qed.

(** An edit that says nothing of the connections removes the choice that was made. *)
Example edits_reset_the_connections :
  av_capabilityBindings ∘ ag_currentVersion <$> (patch_agent "ws_1" "agt_1" "ver_2" (name_only "Ada" None) "usr_1" 2 (agents_of ada) no_versions).1.2 !! "agt_1" = Some [].
Proof. vm_compute. reflexivity. Qed.

(** An assistant with the name of a role stops a team halfway. *)
Example teams_stop_halfway :
  let ca := agents_of {| ag_workspaceId := "ws_1"; ag_slug := "sales"; ag_name := "Sales"; ag_description := ""; ag_category := None; ag_color := None;
    ag_modelBindingId := None; ag_currentVersion := first_version; ag_isArchived := false; ag_createdBy := "usr_1"; ag_createdAt := 1; ag_updatedAt := 1 |} in
  let ids n := {| mi_agent := "agt_" +:+ n; mi_version := "ver_" +:+ n; mi_schedules := [] |} in
  let '(r, ca', _) := post_team "ws_1" bare ["marketing"; "sales"] [ids "m"; ids "s"] "usr_1" 2 ca no_schedules in
  r = Throw re_duplicate ∧ size ca' = 2%nat.
Proof. vm_compute. done. Qed.

(** Two requests that were both let through make one assistant more than the plan has room for. *)
Example limits_can_be_passed_together :
  let su := {| su_businessName := None; su_plan := two_agents; su_chat := None |} in
  let ca := agents_of ada in
  room "ws_1" su 1 ca = None ∧
  let ca1 := (create "ws_1" "agt_2" "ver_2" (blank_input "ws_1" su (name_only "Bea" None) "usr_1" ca) 2 ca).2 in
  let ca2 := (create "ws_1" "agt_3" "ver_3" (blank_input "ws_1" su (name_only "Cem" None) "usr_1" ca) 2 ca1).2 in
  count "ws_1" ca2 = 3%nat.
Proof. vm_compute. done. Qed.

(** Once the upgrade of one assistant was interrupted, no listing succeeds. *)
Example an_interrupted_upgrade_hides_the_list :
  let row := version_row "ws_1" "agt_1" (ag_currentVersion on_old_default) "" "usr_1" 1 in
  (upgradeStaleDefaults "ws_1" bare ["ver_2"] "usr_1" 2 (agents_of on_old_default) ({["ver_1" := row]} : gmap string VersionDoc)).1.1 = Throw pe_duplicate.
Proof. vm_compute. reflexivity. Qed.

Example long_slugs_end_in_a_dash : slugOf "The assistant that answers every letter, kindly" = "the-assistant-that-answers-every-letter-".
Proof. vm_compute. reflexivity. Qed.

Lemma written_prompts_stay_witness :
  docs (agents_of ada) !! "agt_1" = Some ada ∧ isDefaultSystemPrompt (av_systemPrompt (ag_currentVersion ada)) = false ∧
  docs (upgradeStaleDefaults "ws_1" bare ["ver_2"] "usr_1" 2 (agents_of ada) no_versions).1.2 !! "agt_1" = Some ada.
Proof.
  assert (docs (agents_of ada) !! "agt_1" = Some ada) as Hd by (by vm_compute).
  assert (isDefaultSystemPrompt (av_systemPrompt (ag_currentVersion ada)) = false) as Hw by (by vm_compute).
  split; [exact Hd|]. split; [exact Hw|]. exact (proj1 (written_prompts_stay "ws_1" bare (agents_of ada) no_versions "agt_1" ada Hd Hw) ["ver_2"] "usr_1" 2).
Defined.

Lemma lists_show_the_latest_witness :
  ∃ id d, (id, d) ∈ [("agt_1", ada)] ∧ (∀ id' d', (id', d') ∈ [("agt_1", ada)] → ag_createdAt d <= ag_createdAt d') ∧
    map la_id (List.filter la_main (presentAgents [("agt_1", ada)] [] [])) = [id].
Proof.
  exact (proj1 (lists_show_the_latest [("agt_1", ada)] [] [] (NoDup_singleton "agt_1") (λ E, match E in _ = l return match l with [] => False | _ => True end with eq_refl => I end))).
Defined.

(** One assistant that was just made with an old default. *)
Definition old_input : CreateAgentInput := {|
  ca_slug := "ada"; ca_name := "Ada"; ca_description := None; ca_category := None; ca_color := None; ca_systemPrompt := "You are Ada." +:+ nn +:+ CONDUCT;
  ca_modelRole := "chat"; ca_createdBy := "usr_1" |}.
Definition old_world : @World (gmap string AgentDoc) (gmap string VersionDoc) := {|
  w_agents := {["agt_1" := new_agent "ws_1" "ver_1" old_input 1]}; w_versions := ∅; w_requests := [];
  w_published := [] ++ [("agt_1", ag_currentVersion (new_agent "ws_1" "ver_1" old_input 1))] |}.
Lemma old_world_reachable : reachable "ws_1" old_world.
Proof.
  exists {| w_agents := ∅; w_versions := ∅; w_requests := []; w_published := [] |}. split; [done|]. apply rtc_once.
  apply (st_create "ws_1" {| w_agents := ∅; w_versions := ∅; w_requests := []; w_published := [] |} "agt_1" "ver_1" old_input 1 _ true); [set_solver|reflexivity].
Qed.
Lemma listing_settles_witness :
  ∃ ca' cv', upgradeStaleDefaults "ws_1" bare ["ver_2"] "usr_1" 2 (w_agents old_world) (w_versions old_world) = (Ret (list_agents "ws_1" ca'), ca', cv') ∧
    List.filter (λ p, stale p.2) (list_agents "ws_1" ca') = [].
Proof.
  apply (listing_settles "ws_1" bare "usr_1" 2 old_world ["ver_2"] old_world_reachable).
  - intros id d _. exact (lookup_empty (M := gmap string) _).
  - intros id d Hd. change (({["agt_1" := new_agent "ws_1" "ver_1" old_input 1]} : gmap string AgentDoc) !! id = Some d) in Hd.
    apply lookup_singleton_Some in Hd as [_ <-]. reflexivity.
  - apply NoDup_singleton.
  - intros v ->%list_elem_of_singleton. vm_compute. intros Hin. inversion Hin as [|? ? ? Hin']. inversion Hin'.
  - vm_compute. reflexivity.
Defined.
