(* ===== verification/Providers.v ===== *)
(** * Model providers and the roles they serve

    Models the providers and bindings of packages/db/src/repositories/catalog.ts,
    lib/platform-ai.ts, lib/provider-check.ts and lib/agent-model.ts, with the routes
    that connect, check and remove a provider, bind a model and choose one for an
    assistant.  Requests interleave between commands of the database: the theorems
    on stored rows hold of every sequence of [command]s.  The middle dot in a name is
    the code unit 183.  Settings, the vendor's verdict on a key and the resolution of
    a credential are arguments; a cost is a number of dollars.  The fields [settings] and
    [params], which every writer leaves empty, are left out. *)
From S2P Require Import Prelude Json Text Numbers Mongo Catalog.

Record ProviderCheck := { ck_at : Z; ck_ok : bool; ck_message : option string }.
Record ProviderConfigDoc := {
  pc_workspaceId : string; pc_providerType : string; pc_name : string; pc_credentialId : option string; pc_baseUrl : option string; pc_enabled : bool;
  pc_createdBy : string; pc_createdAt : Z; pc_lastCheck : option ProviderCheck; pc_platform : bool }.
Record BindingCost := { bc_inputPerMTok : Q; bc_outputPerMTok : Q; bc_cacheReadPerMTok : option Q }.
Record ModelBindingDoc := {
  mb_workspaceId : string; mb_providerConfigId : string; mb_modelId : string; mb_displayName : string; mb_role : string; mb_capabilities : option value;
  mb_capabilitiesFetchedAt : option Z; mb_cost : BindingCost; mb_fallbackBindingId : option string; mb_enabled : bool }.

Definition role_name (r : ModelRole) : string :=
  match r with chat => "chat" | reasoning => "reasoning" | summarizer => "summarizer" | cheap => "cheap" | embedding => "embedding" | transcription => "transcription" end.

(** The unique index [ws_provider_model_role]. *)
Definition same_binding (a b : ModelBindingDoc) : bool :=
  String.eqb (mb_workspaceId a) (mb_workspaceId b) && String.eqb (mb_providerConfigId a) (mb_providerConfigId b)
  && String.eqb (mb_modelId a) (mb_modelId b) && String.eqb (mb_role a) (mb_role b).

Definition set_check (c : ProviderCheck) (d : ProviderConfigDoc) : ProviderConfigDoc := {|
  pc_workspaceId := pc_workspaceId d; pc_providerType := pc_providerType d; pc_name := pc_name d; pc_credentialId := pc_credentialId d; pc_baseUrl := pc_baseUrl d;
  pc_enabled := pc_enabled d; pc_createdBy := pc_createdBy d; pc_createdAt := pc_createdAt d; pc_lastCheck := Some c; pc_platform := pc_platform d |}.
Definition set_name (name : string) (d : ProviderConfigDoc) : ProviderConfigDoc := {|
  pc_workspaceId := pc_workspaceId d; pc_providerType := pc_providerType d; pc_name := name; pc_credentialId := pc_credentialId d; pc_baseUrl := pc_baseUrl d;
  pc_enabled := pc_enabled d; pc_createdBy := pc_createdBy d; pc_createdAt := pc_createdAt d; pc_lastCheck := pc_lastCheck d; pc_platform := pc_platform d |}.
Definition set_displayName (name : string) (d : ModelBindingDoc) : ModelBindingDoc := {|
  mb_workspaceId := mb_workspaceId d; mb_providerConfigId := mb_providerConfigId d; mb_modelId := mb_modelId d; mb_displayName := name; mb_role := mb_role d;
  mb_capabilities := mb_capabilities d; mb_capabilitiesFetchedAt := mb_capabilitiesFetchedAt d; mb_cost := mb_cost d; mb_fallbackBindingId := mb_fallbackBindingId d;
  mb_enabled := mb_enabled d |}.
Definition set_capabilities (v : value) (now : Z) (d : ModelBindingDoc) : ModelBindingDoc := {|
  mb_workspaceId := mb_workspaceId d; mb_providerConfigId := mb_providerConfigId d; mb_modelId := mb_modelId d; mb_displayName := mb_displayName d; mb_role := mb_role d;
  mb_capabilities := Some v; mb_capabilitiesFetchedAt := Some now; mb_cost := mb_cost d; mb_fallbackBindingId := mb_fallbackBindingId d; mb_enabled := mb_enabled d |}.

(** ** The deployment's own model *)

Definition PLATFORM_PROVIDER_NAME : string := "Yashayah".
Definition FORMER_NAMES : list string := ["Yashayah"].
Definition PLATFORM_ACTOR : string := "platform".
Definition KNOWN_PROVIDER_TYPES : list string := ["anthropic"; "openai"].
Definition isKnownProviderType (t : string) : bool := bool_decide (t ∈ KNOWN_PROVIDER_TYPES).

Record PlatformAi := { pa_providerType : string; pa_apiKey : string; pa_baseUrl : option string; pa_chatModelId : string; pa_monthlyUsdCap : Q }.
Record PlatformAiSettings := {
  ps_apiKey : option string; ps_provider : option string; ps_chatModel : option string; ps_baseUrl : option string; ps_monthlyUsdCap : option string }.
Inductive PlatformError := pe_vendor | pe_model | pe_no_chat_model | pe_allowance.

Definition platformAi (s : PlatformAiSettings) : outcome PlatformError (option PlatformAi) :=
  match ps_apiKey s with
  | None => Ret None
  | Some apiKey =>
      let providerType := default "openai" (ps_provider s) in
      if negb (isKnownProviderType providerType) then Throw pe_vendor
      else
        let models := modelsFor providerType in
        match match ps_chatModel s with Some id => List.find (λ m, String.eqb (cm_id m) id) models | None => List.find (serves chat) models end with
        | None => Throw (match ps_chatModel s with Some _ => pe_model | None => pe_no_chat_model end)
        | Some model =>
            match js_number (default "25" (ps_monthlyUsdCap s)) with
            | Some cap => if Qle_bool cap 0 then Throw pe_allowance
                          else Ret (Some {| pa_providerType := providerType; pa_apiKey := apiKey; pa_baseUrl := ps_baseUrl s; pa_chatModelId := cm_id model; pa_monthlyUsdCap := cap |})
            | None => Throw pe_allowance
            end
        end
  end.

Definition isPlatformProvider (d : ProviderConfigDoc) : bool := pc_platform d.

(** What an adapter is given. *)
Record ProviderCredentials := { cr_apiKey : string; cr_baseUrl : option string }.
Definition withBase (d : ProviderConfigDoc) (apiKey : string) : ProviderCredentials := {| cr_apiKey := apiKey; cr_baseUrl := pc_baseUrl d |}.
(** [resolve] is what the credential store answers. *)
Definition providerCredentials (settings : PlatformAiSettings) (resolve : string → option string) (d : ProviderConfigDoc)
    : outcome PlatformError (option ProviderCredentials) :=
  if isPlatformProvider d then
    match platformAi settings with
    | Throw e => Throw e
    | Ret platform => Ret ((λ p, withBase d (pa_apiKey p)) <$> platform)
    end
  else Ret (id ← pc_credentialId d; secret ← resolve id; Some (withBase d secret)).

Definition dot : string := String " " (String (Ascii.ascii_of_nat 183) " ").
Definition suggested (chosen : option CatalogModel) (s : ModelRole * CatalogModel) : ModelRole * CatalogModel :=
  match s.1, chosen with chat, Some m => (chat, m) | _, _ => s end.
Definition rate_or_zero (f : CatalogRates → Z) (m : CatalogModel) : Q := inject_Z (from_option f 0 (cm_rates m)).

Definition new_binding (ws provider modelId name role : string) (input output : Q) (cacheRead : option Q) (fallback : option string) : ModelBindingDoc := {|
  mb_workspaceId := ws; mb_providerConfigId := provider; mb_modelId := modelId; mb_displayName := name; mb_role := role; mb_capabilities := None;
  mb_capabilitiesFetchedAt := None; mb_cost := {| bc_inputPerMTok := input; bc_outputPerMTok := output; bc_cacheReadPerMTok := cacheRead |};
  mb_fallbackBindingId := fallback; mb_enabled := true |}.
(** [platformBindings], as the rows they become. *)
Definition platformBindings (ws provider : string) (p : PlatformAi) : list ModelBindingDoc :=
  let chosen := List.find (λ m, String.eqb (cm_id m) (pa_chatModelId p)) (modelsFor (pa_providerType p)) in
  map (λ s, let '(role, m) := suggested chosen s in
    new_binding ws provider (cm_id m) (PLATFORM_PROVIDER_NAME +:+ dot +:+ cm_displayName m) (role_name role)
      (rate_or_zero rt_inputPerMTok m) (rate_or_zero rt_outputPerMTok m) None None) (defaultBindings (pa_providerType p)).
Definition platform_row (ws : string) (p : PlatformAi) (now : Z) : ProviderConfigDoc := {|
  pc_workspaceId := ws; pc_providerType := pa_providerType p; pc_name := PLATFORM_PROVIDER_NAME; pc_credentialId := None; pc_baseUrl := pa_baseUrl p; pc_enabled := true;
  pc_createdBy := PLATFORM_ACTOR; pc_createdAt := now; pc_lastCheck := Some {| ck_at := now; ck_ok := true; ck_message := None |}; pc_platform := true |}.

(** ** The repository *)

Section Providers.
Context {CP CB : Type} `{CollectionLaws ProviderConfigDoc CP} `{CollectionLaws ModelBindingDoc CB}.
Context (ws : string).

(** [db_vault] holds the keys that can be resolved; [Credentials] shows that the
    stored credentials implement it. *)
Record Db := { db_providers : CP; db_bindings : CB; db_vault : gmap string string }.
Implicit Types (db : Db) (cp : CP) (cb : CB).
Definition on_providers (f : CP → CP) db : Db := {| db_providers := f (db_providers db); db_bindings := db_bindings db; db_vault := db_vault db |}.
Definition on_bindings (f : CB → CB) db : Db := {| db_providers := db_providers db; db_bindings := f (db_bindings db); db_vault := db_vault db |}.
Definition on_vault (f : gmap string string → gmap string string) db : Db :=
  {| db_providers := db_providers db; db_bindings := db_bindings db; db_vault := f (db_vault db) |}.

Definition provider_here (d : ProviderConfigDoc) : bool := String.eqb (pc_workspaceId d) ws.
Definition binding_here (d : ModelBindingDoc) : bool := String.eqb (mb_workspaceId d) ws.
Definition forRole (role : string) cb : option (string * ModelBindingDoc) := find_one (λ d, binding_here d && String.eqb (mb_role d) role && mb_enabled d) cb.
Definition findById (id : string) cb : option ModelBindingDoc := d ← docs cb !! id; if binding_here d then Some d else None.
Definition list_bindings cb : list (string * ModelBindingDoc) := find_all binding_here cb.
Definition findProvider (id : string) cp : option ProviderConfigDoc := d ← docs cp !! id; if provider_here d then Some d else None.
Definition providerFor (b : ModelBindingDoc) cp : option ProviderConfigDoc := findProvider (mb_providerConfigId b) cp.
Definition listProviders cp : list (string * ProviderConfigDoc) := find_all provider_here cp.
Definition createProvider (id : string) (d : ProviderConfigDoc) cp : CP := (insertOne (λ _ _, false) id d cp).2.
Definition createBinding (id : string) (d : ModelBindingDoc) cb : bool * CB := insertOne same_binding id d cb.
Definition recordCheck (id : string) (c : ProviderCheck) cp : CP := (updateOne id provider_here (set_check c) cp).2.
Definition cacheCapabilities (id : string) (v : value) (now : Z) cb : CB := (updateOne id binding_here (set_capabilities v now) cb).2.

Definition of_provider (providerId : string) (d : ModelBindingDoc) : bool := binding_here d && String.eqb (mb_providerConfigId d) providerId.
(** The name of a binding that is called after its provider. *)
Definition renamed (from to name : string) : option string := (λ model, to +:+ dot +:+ model) <$> eat (from +:+ dot) name.
Definition rename_binding (from to : string) cb (row : string * ModelBindingDoc) : CB :=
  match renamed from to (mb_displayName row.2) with
  | None => cb
  | Some name => (updateOne row.1 binding_here (set_displayName name) cb).2
  end.
Definition renameProvider (providerId from to : string) db : Db :=
  on_bindings (λ cb, foldl (rename_binding from to) cb (find_all (of_provider providerId) cb))
    (on_providers (λ cp, (updateOne providerId provider_here (set_name to) cp).2) db).

Definition removeProvider (providerId : string) db : bool * Z * Db :=
  let '(bindings, cb) := deleteMany (of_provider providerId) (db_bindings db) in
  let '(removed, cp) := deleteOne providerId provider_here (db_providers db) in
  (removed, bindings, {| db_providers := cp; db_bindings := cb; db_vault := db_vault db |}).

(** ** Which model an assistant thinks with *)
Definition modelForAgent (chosen : option string) (role : string) cb : option (string * ModelBindingDoc) :=
  match (id ← chosen; b ← findById id cb; if mb_enabled b then Some (id, b) else None) with
  | Some b => Some b
  | None => forRole role cb
  end.

(** ** The included model, given to a workspace *)

(** The bindings of the roles that nothing serves, with the ids that are given;
    [false] stops on a duplicate. *)
Definition taken_roles cb : list string := map (λ r, mb_role r.2) (List.filter (λ r, mb_enabled r.2) (list_bindings cb)).
Fixpoint bind_free (taken : list string) (rows : list ModelBindingDoc) (ids : list string) cb : bool * list string * CB :=
  match rows, ids with
  | d :: rows', id :: ids' =>
      if bool_decide (mb_role d ∈ taken) then bind_free taken rows' ids cb
      else match createBinding id d cb with
           | (false, cb') => (false, [], cb')
           | (true, cb') => let '(ok, made, cb'') := bind_free taken rows' ids' cb' in (ok, mb_role d :: made, cb'')
           end
  | _, _ => (true, [], cb)
  end.

Inductive ProviderError := pv_unknown_type | pv_unknown_model | pv_rejected | pv_unreachable | pv_not_found | pv_platform | pv_duplicate | pv_settings (e : PlatformError).

Definition ensurePlatformAi (settings : PlatformAiSettings) (providerId : string) (ids : list string) (now : Z) db
    : outcome ProviderError (option string) * Db :=
  match platformAi settings with
  | Throw e => (Throw (pv_settings e), db)
  | Ret None => (Ret None, db)
  | Ret (Some p) =>
      match List.find (λ r, isPlatformProvider r.2) (listProviders (db_providers db)) with
      | Some (id, d) =>
          if bool_decide (pc_name d ∈ FORMER_NAMES) then (Ret (Some id), renameProvider id (pc_name d) PLATFORM_PROVIDER_NAME db) else (Ret (Some id), db)
      | None =>
          let db1 := on_providers (createProvider providerId (platform_row ws p now)) db in
          let '(ok, _, cb) := bind_free (taken_roles (db_bindings db1)) (platformBindings ws providerId p) ids (db_bindings db1) in
          (if ok then Ret (Some providerId) else Throw pv_duplicate, on_bindings (λ _, cb) db1)
      end
  end.

(** ** Routes *)

Record ProviderInput := { pi_providerType : string; pi_name : string; pi_apiKey : string; pi_baseUrl : option string; pi_chatModelId : option string }.
(** The vendor's verdict; an adapter may have no check. *)
Inductive Verdict := vd_ok | vd_rejected | vd_unreachable | vd_unchecked.

Definition user_row (input : ProviderInput) (credentialId actor : string) (verdict : Verdict) (now : Z) : ProviderConfigDoc := {|
  pc_workspaceId := ws; pc_providerType := pi_providerType input; pc_name := pi_name input; pc_credentialId := Some credentialId; pc_baseUrl := pi_baseUrl input;
  pc_enabled := true; pc_createdBy := actor; pc_createdAt := now;
  pc_lastCheck := match verdict with vd_ok => Some {| ck_at := now; ck_ok := true; ck_message := None |} | _ => None end; pc_platform := false |}.
Definition suggestions (providerId : string) (input : ProviderInput) (chosen : option CatalogModel) : list ModelBindingDoc :=
  map (λ s, let '(role, m) := suggested chosen s in
    new_binding ws providerId (cm_id m) (cm_displayName m) (role_name role) (rate_or_zero rt_inputPerMTok m) (rate_or_zero rt_outputPerMTok m) None None)
    (defaultBindings (pi_providerType input)).

(** POST: the roles that were bound. *)
Definition post_provider (credentialId providerId : string) (ids : list string) (actor : string) (input : ProviderInput) (verdict : Verdict) (now : Z) db
    : outcome ProviderError (list string) * Db :=
  if negb (isKnownProviderType (pi_providerType input)) then (Throw pv_unknown_type, db)
  else
    let chosen := id ← pi_chatModelId input; List.find (λ m, String.eqb (cm_id m) id) (modelsFor (pi_providerType input)) in
    match pi_chatModelId input, chosen with
    | Some _, None => (Throw pv_unknown_model, db)
    | _, _ =>
        match verdict with
        | vd_rejected => (Throw pv_rejected, db)
        | vd_unreachable => (Throw pv_unreachable, db)
        | _ =>
            let db1 := on_vault (<[credentialId := pi_apiKey input]>) db in
            let db2 := on_providers (createProvider providerId (user_row input credentialId actor verdict now)) db1 in
            let '(ok, made, cb) := bind_free (taken_roles (db_bindings db2)) (suggestions providerId input chosen) ids (db_bindings db2) in
            (if ok then Ret made else Throw pv_duplicate, on_bindings (λ _, cb) db2)
        end
    end.

(** DELETE of a provider. *)
Definition delete_provider (providerId : string) db : outcome ProviderError unit * Db :=
  match findProvider providerId (db_providers db) with
  | None => (Throw pv_not_found, db)
  | Some d =>
      if pc_platform d then (Throw pv_platform, db)
      else
        let db1 := match pc_credentialId d with Some c => on_vault (delete c) db | None => db end in
        (Ret tt, (removeProvider providerId db1).2)
  end.

Record BindingInput := {
  bi_providerConfigId : string; bi_modelId : string; bi_name : string; bi_role : string; bi_fallbackBindingId : option string;
  bi_rates : option (Q * Q * option Q) }.
(** POST of a binding. *)
Definition post_binding (id : string) (input : BindingInput) db : outcome ProviderError unit * Db :=
  if negb (existsb (λ r, String.eqb r.1 (bi_providerConfigId input)) (listProviders (db_providers db))) then (Throw pv_not_found, db)
  else
    let cacheRead := r ← bi_rates input; r.2 in
    let '(ok, cb) := createBinding id (new_binding ws (bi_providerConfigId input) (bi_modelId input) (bi_name input) (bi_role input)
      (from_option (λ r, r.1.1) 0%Q (bi_rates input)) (from_option (λ r, r.1.2) 0%Q (bi_rates input)) cacheRead (bi_fallbackBindingId input)) (db_bindings db) in
    (if ok then Ret tt else Throw pv_duplicate, on_bindings (λ _, cb) db).

(** PUT of an assistant's model: the binding to choose; the assistant's own row is
    written by [Agents.setMeta]. *)
Definition choose_binding (id providerConfigId modelId : string) db : outcome ProviderError string * Db :=
  match findProvider providerConfigId (db_providers db) with
  | None => (Throw pv_not_found, db)
  | Some provider =>
      match List.find (λ m, String.eqb (cm_id m) modelId && serves chat m) (modelsFor (pc_providerType provider)) with
      | None => (Throw pv_unknown_model, db)
      | Some m =>
          match List.find (λ r, String.eqb (mb_providerConfigId r.2) providerConfigId && String.eqb (mb_modelId r.2) (cm_id m) && mb_enabled r.2) (list_bindings (db_bindings db)) with
          | Some (existing, _) => (Ret existing, db)
          | None =>
              let '(ok, cb) := createBinding id (new_binding ws providerConfigId (cm_id m) (cm_displayName m) "chat"
                (rate_or_zero rt_inputPerMTok m) (rate_or_zero rt_outputPerMTok m) None None) (db_bindings db) in
              (if ok then Ret id else Throw pv_duplicate, on_bindings (λ _, cb) db)
          end
      end
  end.

(** [checkProviderKey]: what the adapter says of the credentials it is given. *)
Definition verdict (settings : PlatformAiSettings) (ask : ProviderCredentials → option string) (d : ProviderConfigDoc) (now : Z) db : outcome PlatformError ProviderCheck :=
  if negb (isPlatformProvider d) && bool_decide (pc_credentialId d = None) then Ret {| ck_at := now; ck_ok := false; ck_message := Some "No key is stored for this provider." |}
  else match providerCredentials settings (λ id, db_vault db !! id) d with
       | Throw e => Throw e
       | Ret None => Ret {| ck_at := now; ck_ok := false; ck_message := Some (if isPlatformProvider d then "This deployment no longer has a key for Yashayah." else "The stored key has been revoked.") |}
       | Ret (Some given) =>
           match ask given with
           | None => Ret {| ck_at := now; ck_ok := true; ck_message := None |}
           | Some why => Ret {| ck_at := now; ck_ok := false; ck_message := Some why |}
           end
       end.
Definition checkProviderKey (settings : PlatformAiSettings) (ask : ProviderCredentials → option string) (id : string) (d : ProviderConfigDoc) (now : Z) db
    : outcome PlatformError ProviderCheck * Db :=
  match verdict settings ask d now db with
  | Throw e => (Throw e, db)
  | Ret c => (Ret c, on_providers (recordCheck id c) db)
  end.

(** ** Commands in any order *)

(** One command that a request sends; [configured] are the settings the deployment has had. *)
Context (configured : PlatformAiSettings → Prop).

Inductive command : Db → Db → Prop :=
| cmd_store db id key : command db (on_vault (<[id := key]>) db)
| cmd_revoke db id : command db (on_vault (delete id) db)
| cmd_connect db id input credentialId actor v now : command db (on_providers (createProvider id (user_row input credentialId actor v now)) db)
| cmd_include db id settings p now : configured settings → platformAi settings = Ret (Some p) → command db (on_providers (createProvider id (platform_row ws p now)) db)
| cmd_check db id c : command db (on_providers (recordCheck id c) db)
| cmd_name db id name : command db (on_providers (λ cp, (updateOne id provider_here (set_name name) cp).2) db)
| cmd_drop db id : command db (on_providers (λ cp, (deleteOne id provider_here cp).2) db)
| cmd_bindings db f : command db (on_bindings f db).

Definition empty_db db : Prop := docs (db_providers db) = ∅.

(** A row of the deployment's own holds no credential, and the address it was configured with. *)
Definition own_rows db : Prop := ∀ id d, docs (db_providers db) !! id = Some d → pc_platform d = true →
  pc_credentialId d = None ∧ ∃ settings p, configured settings ∧ platformAi settings = Ret (Some p) ∧ pc_baseUrl d = pa_baseUrl p.

Lemma own_rows_create db id d : own_rows db → (pc_platform d = true →
  pc_credentialId d = None ∧ ∃ settings p, configured settings ∧ platformAi settings = Ret (Some p) ∧ pc_baseUrl d = pa_baseUrl p) →
  own_rows (on_providers (createProvider id d) db).
Proof.
  intros Ho Hd k x. cbn. unfold createProvider. destruct (insertOne_cases (λ _ _, false) id d (db_providers db)) as [(_ & _ & _ & ->)|(_ & ->)]; [|apply Ho].
  intros [[<- <-]|[_ Hx]]%lookup_insert_Some; [done|by apply (Ho k)].
Qed.
Lemma own_rows_update db id p f : own_rows db → (∀ d, pc_platform (f d) = pc_platform d ∧ pc_credentialId (f d) = pc_credentialId d ∧ pc_baseUrl (f d) = pc_baseUrl d) →
  own_rows (on_providers (λ cp, (updateOne id p f cp).2) db).
Proof.
  intros Ho Hf k x. cbn. destruct (updateOne_cases id p f (db_providers db)) as [(d & Hd & _ & _ & ->)|(_ & _ & ->)]; [|apply Ho].
  intros [[<- <-]|[_ Hx]]%lookup_insert_Some; [|by apply (Ho k)]. destruct (Hf d) as (-> & -> & ->). by apply (Ho id).
Qed.

Lemma command_own db db' : own_rows db → command db db' → own_rows db'.
Proof.
  intros Ho Hc. destruct Hc; try done.
  - by apply own_rows_create.
  - apply own_rows_create; [done|]. intros _. split; [done|]. eauto.
  - by apply own_rows_update.
  - by apply own_rows_update.
  - intros k x. cbn. intros Hx%deleteOne_sub. by apply (Ho k).
Qed.

(** C35.  Whatever requests do and however they interleave, an adapter is given the
    deployment's key only for a provider the deployment itself made, and then with
    the address the deployment configured: no workspace can have that key sent to
    an address of its own.  Every other provider is given its own stored key. *)
Theorem the_deployments_key_stays_home db0 db settings id d given :
  empty_db db0 → rtc command db0 db → docs (db_providers db) !! id = Some d →
  providerCredentials settings (λ c, db_vault db !! c) d = Ret (Some given) →
  (pc_platform d = true ∧ (∃ p, platformAi settings = Ret (Some p) ∧ cr_apiKey given = pa_apiKey p) ∧
   ∃ s p, configured s ∧ platformAi s = Ret (Some p) ∧ cr_baseUrl given = pa_baseUrl p) ∨
  (pc_platform d = false ∧ ∃ c, pc_credentialId d = Some c ∧ db_vault db !! c = Some (cr_apiKey given)).
Proof.
  intros He Hc Hd Hg.
  assert (own_rows db) as Ho.
  { assert (own_rows db0) as Hi by (intros k x Hx; by rewrite He in Hx). clear Hd Hg He. induction Hc; eauto using command_own. }
  unfold providerCredentials, isPlatformProvider in Hg. destruct (pc_platform d) eqn:Ep; [left|right]; (split; [done|]).
  - destruct (platformAi settings) as [[p|]|]; [|done..]. injection Hg as <-. split; [eauto|]. cbn. by apply (Ho id d Hd Ep).
  - destruct (pc_credentialId d) as [c|]; [|done]. cbn in Hg. destruct (db_vault db !! c) as [k|] eqn:Ek; [|done]. injection Hg as <-. eauto.
Qed.

(** Every route is a sequence of such commands. *)
Lemma rename_commands id from to db : rtc command db (renameProvider id from to db).
Proof. unfold renameProvider. eapply rtc_l; [apply cmd_name|]. apply rtc_once, cmd_bindings. Qed.

Theorem routes_are_commands db :
  (∀ settings id ids now, configured settings → rtc command db (ensurePlatformAi settings id ids now db).2) ∧
  (∀ credentialId id ids actor input v now, rtc command db (post_provider credentialId id ids actor input v now db).2) ∧
  (∀ id, rtc command db (delete_provider id db).2) ∧
  (∀ id input, rtc command db (post_binding id input db).2) ∧
  (∀ id provider model, rtc command db (choose_binding id provider model db).2) ∧
  (∀ settings ask id d now, rtc command db (checkProviderKey settings ask id d now db).2).
Proof.
  split_and!.
  - intros settings id ids now Hc. unfold ensurePlatformAi. destruct (platformAi settings) as [[p|]|] eqn:Ep; [|done..].
    destruct (List.find _ _) as [[k d]|]; [destruct (bool_decide _); [apply rename_commands|done]|].
    destruct (bind_free _ _ _ _) as [[ok made] cb]. eapply rtc_l; [by eapply cmd_include|]. apply rtc_once, cmd_bindings.
  - intros credentialId id ids actor input v now. unfold post_provider. destruct (negb _); [done|].
    destruct (pi_chatModelId input) as [m|]; cbn [mbind option_bind]; [destruct (List.find _ _)|]; try done.
    all: destruct v; try done; destruct (bind_free _ _ _ _) as [[ok made] cb];
      (eapply rtc_l; [apply cmd_store|]; eapply rtc_l; [apply cmd_connect|]; apply rtc_once, cmd_bindings).
  - intros id. unfold delete_provider. destruct (findProvider _ _) as [d|]; [|done]. destruct (pc_platform d); [done|].
    assert (∀ db1, rtc command db1 (removeProvider id db1).2) as Hr.
    { intros db1. unfold removeProvider. destruct (deleteMany _ _) as [n cb] eqn:Eb. destruct (deleteOne _ _ _) as [b cp] eqn:Ed.
      eapply rtc_l; [apply (cmd_bindings _ (λ _, cb))|]. eapply rtc_l; [apply (cmd_drop _ id)|]. cbn. unfold on_providers. cbn. rewrite Ed. apply rtc_refl. }
    destruct (pc_credentialId d); [eapply rtc_l; [apply cmd_revoke|]|]; apply Hr.
  - intros id input. unfold post_binding. destruct (negb _); [done|]. destruct (createBinding _ _ _). apply rtc_once, cmd_bindings.
  - intros id provider model. unfold choose_binding. destruct (findProvider _ _); [|done]. destruct (List.find _ (modelsFor _)); [|done].
    destruct (List.find _ (list_bindings _)) as [[]|]; [done|]. destruct (createBinding _ _ _). apply rtc_once, cmd_bindings.
  - intros settings ask id d now. unfold checkProviderKey. destruct (verdict _ _ _ _ _); [apply rtc_once, cmd_check|done].
Qed.

(** ** Removing *)

(** A removed provider leaves nothing behind: its row, every binding that pointed at it
    and its key are gone. *)
Theorem removed_providers_leave_nothing id db db' d :
  findProvider id (db_providers db) = Some d → delete_provider id db = (Ret tt, db') →
  findProvider id (db_providers db') = None ∧ (∀ k b, docs (db_bindings db') !! k = Some b → binding_here b = true → mb_providerConfigId b ≠ id) ∧
  (∀ c, pc_credentialId d = Some c → db_vault db' !! c = None) ∧
  (∀ k b, docs (db_bindings db) !! k = Some b → mb_providerConfigId b ≠ id → docs (db_bindings db') !! k = Some b).
Proof.
  unfold delete_provider. intros Hf. rewrite Hf. destruct (pc_platform d); [done|].
  set (db1 := match pc_credentialId d with Some c => on_vault (delete c) db | None => db end). intros Hr.
  assert (db_providers db1 = db_providers db ∧ db_bindings db1 = db_bindings db) as [Ep Eb] by (unfold db1; by destruct (pc_credentialId d)).
  assert (db_vault db' = db_vault db1 ∧ docs (db_bindings db') = selected (λ b, negb (of_provider id b)) (docs (db_bindings db)) ∧
          docs (db_providers db') = delete id (docs (db_providers db))) as (Hv & Hb & Hp).
  { unfold removeProvider in Hr. rewrite Ep, Eb in Hr. destruct (deleteMany_docs (of_provider id) (db_bindings db)) as [_ Hdm].
    destruct (deleteMany _ _) as [n cb]. cbn in Hdm. unfold findProvider in Hf. destruct (docs (db_providers db) !! id) as [x|] eqn:Hx; [|done]. cbn in Hf.
    destruct (provider_here x) eqn:Hh; [|done]. destruct (deleteOne_hit id provider_here (db_providers db) x Hx Hh) as [_ Hdo].
    destruct (deleteOne _ _ _) as [ok cp]. cbn in Hdo. by injection Hr as <-. }
  split_and!.
  - unfold findProvider. by rewrite Hp, lookup_delete_eq.
  - intros k b. rewrite Hb. intros [_ Hn]%map_lookup_filter_Some Hh E. cbn in Hn. unfold of_provider in Hn. by rewrite Hh, E, String.eqb_refl in Hn.
  - intros c Hc. rewrite Hv. unfold db1. rewrite Hc. cbn. apply lookup_delete_eq.
  - intros k b Hk Hne. rewrite Hb. apply map_lookup_filter_Some. split; [done|]. cbn. unfold of_provider.
    by rewrite (proj2 (String.eqb_neq _ _) Hne), andb_false_r.
Qed.

(** ** Roles that are served already *)

Lemma bind_free_docs taken rows ids cb ok made cb' : bind_free taken rows ids cb = (ok, made, cb') →
  (∀ k b, docs cb !! k = Some b → docs cb' !! k = Some b) ∧
  (∀ k b, docs cb' !! k = Some b → docs cb !! k = Some b ∨ b ∈ rows ∧ mb_role b ∉ taken).
Proof.
  revert ids cb ok made cb'. induction rows as [|d rows IH]; intros ids cb ok made cb' Hb; cbn [bind_free] in Hb; [injection Hb as <- <- <-; auto|].
  destruct ids as [|id ids]; [injection Hb as <- <- <-; auto|].
  case_bool_decide as Ht.
  - destruct (IH _ _ _ _ _ Hb) as [Hk Hn]. split; [done|]. intros k b Hx. destruct (Hn k b Hx) as [|[]]; [by left|right; split; [by right|done]].
  - unfold createBinding in Hb. destruct (insertOne_cases same_binding id d cb) as [(Eok & Hnone & _ & Ed)|(Eok & Ed)];
      destruct (insertOne _ _ _ _) as [b0 cb0]; cbn in Eok, Ed; subst b0; [|injection Hb as <- <- <-; rewrite Ed; auto].
    destruct (bind_free taken rows ids cb0) as [[ok' made'] cb''] eqn:E. injection Hb as <- <- <-. destruct (IH _ _ _ _ _ E) as [Hk Hn]. split.
    + intros k b Hx. apply Hk. rewrite Ed, lookup_insert_ne; [done|]. intros <-. congruence.
    + intros k b Hx. destruct (Hn k b Hx) as [Hy|[]]; [|right; split; [by right|done]]. rewrite Ed in Hy.
      apply lookup_insert_Some in Hy as [[<- <-]|[_ Hy]]; [right; split; [by left|done]|by left].
Qed.

Lemma taken_complete cb k b : docs cb !! k = Some b → binding_here b = true → mb_enabled b = true → mb_role b ∈ taken_roles cb.
Proof.
  intros Hk Hh He. apply list_elem_of_fmap. exists (k, b). split; [done|]. apply list_elem_of_In, filter_In. split; [|done].
  apply list_elem_of_In, elem_of_find_all. done.
Qed.

(** Connecting a provider, and giving a workspace the included model, keep every binding
    there is, and bind no role that one serves already. *)
Theorem served_roles_are_kept db db' :
  (∃ settings id ids now, (ensurePlatformAi settings id ids now db).2 = db' ∧ List.find (λ r, isPlatformProvider r.2) (listProviders (db_providers db)) = None) ∨
  (∃ credentialId id ids actor input v now, (post_provider credentialId id ids actor input v now db).2 = db') →
  (∀ k b, docs (db_bindings db) !! k = Some b → docs (db_bindings db') !! k = Some b) ∧
  (∀ k b, docs (db_bindings db') !! k = Some b → docs (db_bindings db) !! k = Some b ∨
     ∀ k' b', docs (db_bindings db) !! k' = Some b' → binding_here b' = true → mb_enabled b' = true → mb_role b' ≠ mb_role b).
Proof.
  assert (∀ (rows : list ModelBindingDoc) ids cb ok made cb', bind_free (taken_roles cb) rows ids cb = (ok, made, cb') →
    (∀ k b, docs cb !! k = Some b → docs cb' !! k = Some b) ∧
    (∀ k b, docs cb' !! k = Some b → docs cb !! k = Some b ∨
      ∀ k' b', docs cb !! k' = Some b' → binding_here b' = true → mb_enabled b' = true → mb_role b' ≠ mb_role b)) as Hg.
  { intros rows ids cb ok made cb' [Hk Hn]%bind_free_docs. split; [done|]. intros k b Hx. destruct (Hn k b Hx) as [|[_ Ht]]; [by left|right].
    intros k' b' Hk' Hh He E. apply Ht. rewrite <-E. by eapply taken_complete. }
  intros [(settings & id & ids & now & <- & Hnone)|(credentialId & id & ids & actor & input & v & now & <-)].
  - unfold ensurePlatformAi. destruct (platformAi settings) as [[p|]|]; try (by split; auto). rewrite Hnone.
    destruct (bind_free _ _ _ _) as [[ok made] cb] eqn:E. apply Hg in E. exact E.
  - unfold post_provider. destruct (negb _); [by split; auto|]. destruct (pi_chatModelId input) as [m|]; cbn [mbind option_bind].
    1: destruct (List.find _ _); [|by split; auto].
    all: destruct v; try (by split; auto); destruct (bind_free _ _ _ _) as [[ok made] cb] eqn:E; apply Hg in E; exact E.
Qed.

(** ** Renaming *)

Definition renamed_row (from to : string) (b : ModelBindingDoc) : ModelBindingDoc :=
  match renamed from to (mb_displayName b) with Some name => set_displayName name b | None => b end.

Lemma rename_binding_docs from to cb k b : docs cb !! k = Some b → binding_here b = true →
  docs (rename_binding from to cb (k, b)) = <[k := renamed_row from to b]> (docs cb).
Proof.
  intros Hk Hh. unfold rename_binding, renamed_row. cbn [fst snd]. destruct (renamed from to (mb_displayName b)) as [name|]; [|by rewrite insert_id].
  by apply (updateOne_hit k binding_here (set_displayName name) cb b).
Qed.

Lemma rename_all_docs from to l cb k :
  NoDup l.*1 → (∀ i b, (i, b) ∈ l → docs cb !! i = Some b ∧ binding_here b = true) →
  docs (foldl (rename_binding from to) cb l) !! k = (if bool_decide (k ∈ l.*1) then renamed_row from to <$> docs cb !! k else docs cb !! k).
Proof.
  revert cb. induction l as [|[i b] l IH]; intros cb Hnd Hl; [done|]. apply NoDup_cons in Hnd as [Hi Hnd]. cbn [foldl].
  destruct (Hl i b) as [Hb Hh]; [by left|]. pose proof (rename_binding_docs from to cb i b Hb Hh) as E.
  rewrite IH; [|done|]; rewrite ?E.
  - destruct (decide (k = i)) as [->|Hne].
    + rewrite bool_decide_eq_false_2 by done. rewrite bool_decide_eq_true_2 by (by left). by rewrite lookup_insert_eq, Hb.
    + rewrite lookup_insert_ne by done. rewrite (bool_decide_ext (k ∈ ((i, b) :: l).*1) (k ∈ l.*1)); [done|]. cbn. rewrite elem_of_cons. naive_solver.
  - intros i' b' Hin. rewrite lookup_insert_ne; [apply Hl; by right|]. intros <-. apply Hi. apply list_elem_of_fmap. by exists (i, b').
Qed.

(** A renamed provider takes its name along: a binding of it that is called after it is
    called after the new name, and nothing else changes. *)
Theorem renaming_moves_the_prefix providerId from to db k b :
  docs (db_bindings db) !! k = Some b →
  docs (db_bindings (renameProvider providerId from to db)) !! k = Some (if of_provider providerId b then renamed_row from to b else b).
Proof.
  intros Hk. cbn. rewrite rename_all_docs; [|apply find_all_nodup|].
  - case_bool_decide as Hin; rewrite Hk.
    + apply list_elem_of_fmap in Hin as ([k' b'] & -> & Hin). apply elem_of_find_all in Hin as [Hb' Hp]. cbn in Hk. rewrite Hb' in Hk. injection Hk as ->. by rewrite Hp.
    + destruct (of_provider providerId b) eqn:Hp; [|done]. exfalso. apply Hin. apply list_elem_of_fmap. exists (k, b). split; [done|]. by apply elem_of_find_all.
  - intros i x [Hx Hp]%elem_of_find_all. split; [done|]. by apply andb_true_iff in Hp as [-> _].
Qed.

Lemma renamed_to_itself from b : renamed_row from from b = b.
Proof.
  unfold renamed_row, renamed. destruct (eat (from +:+ dot) (mb_displayName b)) as [rest|] eqn:E; [|done]. cbn [fmap option_fmap option_map].
  apply eat_some in E. rewrite <-str_app_assoc, <-E. by destruct b.
Qed.
End Providers.

(** ** Concrete workspaces *)

Notation Tables := (@Db (gmap string ProviderConfigDoc) (gmap string ModelBindingDoc)).
Definition nothing : Tables := {| db_providers := ∅; db_bindings := ∅; db_vault := ∅ |}.
Definition deployment : PlatformAiSettings := {| ps_apiKey := Some "sk-own"; ps_provider := None; ps_chatModel := None; ps_baseUrl := None; ps_monthlyUsdCap := None |}.
Definition own_key (chatModel : option string) : ProviderInput := {|
  pi_providerType := "openai"; pi_name := "OpenAI"; pi_apiKey := "sk-mine"; pi_baseUrl := Some "https://proxy.example"; pi_chatModelId := chatModel |}.

(** Connecting a key leaves a workspace ready: each suggested role is bound. *)
Example connecting_binds_the_roles :
  let '(r, db) := post_provider "ws_1" "crd_1" "prv_1" ["b1"; "b2"; "b3"; "b4"; "b5"] "usr_1" (own_key None) vd_ok 5 nothing in
  r = Ret ["chat"; "cheap"; "summarizer"; "transcription"; "embedding"] ∧ (mb_modelId ∘ snd <$> forRole "ws_1" "chat" (db_bindings db)) = Some "gpt-5.6-sol".
Proof. vm_compute. done. Qed.

(** The model named for the chat role is not required to serve it. *)
Example a_deaf_model_takes_the_chat_role :
  let '(r, db) := post_provider "ws_1" "crd_1" "prv_1" ["b1"; "b2"; "b3"; "b4"; "b5"] "usr_1" (own_key (Some "whisper-1")) vd_ok 5 nothing in
  (mb_modelId ∘ snd <$> forRole "ws_1" "chat" (db_bindings db)) = Some "whisper-1" ∧ (cm_roles <$> catalogModel "whisper-1") = Some [transcription].
Proof. vm_compute. done. Qed.

(** Two first visits at once give a workspace the included model twice. *)
Example the_included_model_twice :
  let '(_, db1) := ensurePlatformAi "ws_1" deployment "prv_1" ["b1"; "b2"; "b3"; "b4"; "b5"] 5 nothing in
  let db2 := on_providers (createProvider "prv_2" (platform_row "ws_1" {| pa_providerType := "openai"; pa_apiKey := "sk-own"; pa_baseUrl := None;
    pa_chatModelId := "gpt-5.6-sol"; pa_monthlyUsdCap := 25 |} 5)) db1 in
  length (List.filter (λ r, isPlatformProvider r.2) (listProviders "ws_1" (db_providers db2))) = 2%nat.
Proof. vm_compute. reflexivity. Qed.

(** A binding that was let through while its provider is removed points at nothing. *)
Example bindings_can_outlive_their_provider :
  let '(_, db) := post_provider "ws_1" "crd_1" "prv_1" [] "usr_1" (own_key None) vd_ok 5 nothing in
  let input := {| bi_providerConfigId := "prv_1"; bi_modelId := "gpt-5"; bi_name := "GPT"; bi_role := "chat"; bi_fallbackBindingId := None; bi_rates := None |} in
  let removed := (delete_provider "ws_1" "prv_1" db).2 in
  let late := on_bindings (λ cb, (createBinding "b1" (new_binding "ws_1" "prv_1" "gpt-5" "GPT" "chat" 0 0 None None) cb).2) removed in
  (post_binding "ws_1" "b1" input db).1 = Ret tt ∧
  (forRole "ws_1" "chat" (db_bindings late) ≫= λ r, providerFor "ws_1" r.2 (db_providers late)) = None ∧ is_Some (forRole "ws_1" "chat" (db_bindings late)).
Proof. vm_compute. eauto. Qed.

Lemma the_deployments_key_stays_home_witness :
  let db := (ensurePlatformAi "ws_1" deployment "prv_1" [] 5 nothing).2 in
  let d := platform_row "ws_1" {| pa_providerType := "openai"; pa_apiKey := "sk-own"; pa_baseUrl := None; pa_chatModelId := "gpt-5.6-sol"; pa_monthlyUsdCap := 25 |} 5 in
  (pc_platform d = true ∧ (∃ p, platformAi deployment = Ret (Some p) ∧ "sk-own" = pa_apiKey p) ∧
   ∃ s p, s = deployment ∧ platformAi s = Ret (Some p) ∧ None = pa_baseUrl p) ∨
  (pc_platform d = false ∧ ∃ c, pc_credentialId d = Some c ∧ db_vault db !! c = Some "sk-own").
Proof.
  apply (the_deployments_key_stays_home "ws_1" (λ s, s = deployment) nothing (ensurePlatformAi "ws_1" deployment "prv_1" [] 5 nothing).2 deployment "prv_1"
    (platform_row "ws_1" {| pa_providerType := "openai"; pa_apiKey := "sk-own"; pa_baseUrl := None; pa_chatModelId := "gpt-5.6-sol"; pa_monthlyUsdCap := 25 |} 5)
    {| cr_apiKey := "sk-own"; cr_baseUrl := None |}).
  - reflexivity.
  - apply (routes_are_commands "ws_1" (λ s, s = deployment) nothing). reflexivity.
  - vm_compute. reflexivity.
  - vm_compute. reflexivity.
Defined.
