(* ===== verification/Knowledge.v ===== *)
(** * What a workspace knows

    Models packages/db/src/repositories/knowledge.ts and lib/knowledge-service.ts:
    documents and their chunks, ingestion, removal, search and reading, with the
    tools of packages/servers/src/knowledge.ts over them.  An ingestion and a removal
    are several commands of the database; requests interleave between them and may
    stop after any ([step]).  A command that adds chunks may take effect and be reported
    as failed; [markReady] takes effect exactly when it is reported to
    ([unheard_success_hollows_a_document] shows what follows otherwise).  The collections are any that obey [CollectionLaws] and
    hold the workspace's rows ([Guard]); the unique indexes are those of
    packages/db/src/indexes.ts.  The text of a document is a list of code units, as in
    [Chunk]; the text index of the database, the embedding model, the hash and the
    extractors are arguments. *)
From S2P Require Import Prelude Json Text Mongo AgentRoutes Chunk Ranking Memory.

Inductive DocStatus := ds_ingesting | ds_ready | ds_failed.
#[global] Instance DocStatus_eq_dec : EqDecision DocStatus.
Proof. solve_decision. Defined.

Record KnowledgeDocumentDoc := {
  kd_title : string; kd_fileName : string; kd_mimeType : string; kd_sizeBytes : Z; kd_contentHash : string; kd_text : text; kd_status : DocStatus;
  kd_error : option string; kd_chunkCount : Z; kd_embeddingModelKey : option string; kd_createdBy : string; kd_createdAt : Z; kd_updatedAt : Z }.
Record KnowledgeChunkDoc := {
  kc_documentId : string; kc_index : nat; kc_content : text; kc_embeddings : list (string * list Q); kc_createdAt : Z }.

Definition live_status (s : DocStatus) : bool := match s with ds_failed => false | _ => true end.
(** The unique indexes [ws_hash_live] and [ws_doc_index]. *)
Definition same_content (a b : KnowledgeDocumentDoc) : bool :=
  live_status (kd_status a) && live_status (kd_status b) && String.eqb (kd_contentHash a) (kd_contentHash b).
Definition same_place (a b : KnowledgeChunkDoc) : bool := String.eqb (kc_documentId a) (kc_documentId b) && (kc_index a =? kc_index b)%nat.

Lemma same_content_sym a b : same_content a b = same_content b a.
Proof. unfold same_content. rewrite (String.eqb_sym (kd_contentHash a)). f_equal. apply andb_comm. Qed.

Definition INSERT_BATCH : nat := 100.
Definition LEXICAL_CANDIDATES : nat := 100.
Definition VECTOR_CANDIDATES : nat := 1500.
Definition EMBED_BATCH : nat := 64.
Definition MAX_DOCUMENT_BYTES : Z := 1000000.

Record CreateDocumentInput := {
  cd_title : string; cd_fileName : string; cd_mimeType : string; cd_sizeBytes : Z; cd_contentHash : string; cd_text : text; cd_createdBy : string }.
Record ChunkInput := { ci_index : nat; ci_content : text; ci_embeddings : option (list (string * list Q)) }.

Definition new_document (input : CreateDocumentInput) (now : Z) : KnowledgeDocumentDoc := {|
  kd_title := cd_title input; kd_fileName := cd_fileName input; kd_mimeType := cd_mimeType input; kd_sizeBytes := cd_sizeBytes input;
  kd_contentHash := cd_contentHash input; kd_text := cd_text input; kd_status := ds_ingesting; kd_error := None; kd_chunkCount := 0; kd_embeddingModelKey := None;
  kd_createdBy := cd_createdBy input; kd_createdAt := now; kd_updatedAt := now |}.
Definition set_ready (chunkCount : Z) (key : option string) (now : Z) (d : KnowledgeDocumentDoc) : KnowledgeDocumentDoc := {|
  kd_title := kd_title d; kd_fileName := kd_fileName d; kd_mimeType := kd_mimeType d; kd_sizeBytes := kd_sizeBytes d; kd_contentHash := kd_contentHash d;
  kd_text := kd_text d; kd_status := ds_ready; kd_error := None; kd_chunkCount := chunkCount; kd_embeddingModelKey := key; kd_createdBy := kd_createdBy d;
  kd_createdAt := kd_createdAt d; kd_updatedAt := now |}.
Definition set_failed (error : string) (now : Z) (d : KnowledgeDocumentDoc) : KnowledgeDocumentDoc := {|
  kd_title := kd_title d; kd_fileName := kd_fileName d; kd_mimeType := kd_mimeType d; kd_sizeBytes := kd_sizeBytes d; kd_contentHash := kd_contentHash d;
  kd_text := kd_text d; kd_status := ds_failed; kd_error := Some (str_take 500 error); kd_chunkCount := 0; kd_embeddingModelKey := kd_embeddingModelKey d;
  kd_createdBy := kd_createdBy d; kd_createdAt := kd_createdAt d; kd_updatedAt := now |}.
Definition chunk_row (documentId : string) (now : Z) (c : ChunkInput) : KnowledgeChunkDoc := {|
  kc_documentId := documentId; kc_index := ci_index c; kc_content := ci_content c; kc_embeddings := default [] (ci_embeddings c); kc_createdAt := now |}.

(** ** What an upload is *)

Inductive DocumentKind := dk_text | dk_markdown | dk_html | dk_csv | dk_json | dk_pdf | dk_docx | dk_inherited (name : string).
#[global] Instance DocumentKind_eq_dec : EqDecision DocumentKind.
Proof. solve_decision. Defined.
(** A lookup in an object literal also finds what objects inherit: of the names that can be
    asked for, which are in lower case, these. *)
Definition inherited_names : list string := ["constructor"; "__proto__"].
Definition object_lookup (table : list (string * DocumentKind)) (name : string) : option DocumentKind :=
  match jm_get name table with Some k => Some k | None => if existsb (String.eqb name) inherited_names then Some (dk_inherited name) else None end.
Definition BY_EXTENSION : list (string * DocumentKind) := [
  ("txt", dk_text); ("text", dk_text); ("log", dk_text); ("md", dk_markdown); ("markdown", dk_markdown); ("mdx", dk_markdown); ("html", dk_html); ("htm", dk_html);
  ("csv", dk_csv); ("tsv", dk_csv); ("json", dk_json); ("pdf", dk_pdf); ("docx", dk_docx)].
Definition BY_MIME : list (string * DocumentKind) := [
  ("text/plain", dk_text); ("text/markdown", dk_markdown); ("text/x-markdown", dk_markdown); ("text/html", dk_html); ("text/csv", dk_csv);
  ("text/tab-separated-values", dk_csv); ("application/json", dk_json); ("application/pdf", dk_pdf);
  ("application/vnd.openxmlformats-officedocument.wordprocessingml.document", dk_docx)].
Definition SUPPORTED_FORMATS : string := "PDF, Word (.docx), plain text, Markdown, HTML, CSV or JSON".

Definition ext_char (c : Ascii.ascii) : bool := is_lower c || is_digit c.
(** [match(/\.([a-z0-9]+)$/)?.[1]]: what follows the last dot. *)
Fixpoint extension_of (s : string) : option string :=
  match s with
  | EmptyString => None
  | String c r => match extension_of r with
                  | Some e => Some e
                  | None => if Ascii.eqb c "." && negb (String.eqb r "") && str_all ext_char r then Some r else None
                  end
  end.
Definition kindOf (fileName : string) (mimeType : option string) : option DocumentKind :=
  match extension_of (toLowerCase fileName) ≫= object_lookup BY_EXTENSION with
  | Some kind => Some kind
  | None => object_lookup BY_MIME (toLowerCase (js_trim (span (λ c, negb (Ascii.eqb c ";")) (default "" mimeType)).1))
  end.

(** [Buffer.byteLength(text, 'utf8')]: a surrogate on its own is written as three bytes. *)
Definition high_surrogate (c : Z) : bool := (55296 <=? c) && (c <=? 56319).
Definition low_surrogate (c : Z) : bool := (56320 <=? c) && (c <=? 57343).
Fixpoint byteLength (t : text) : Z :=
  match t with
  | [] => 0
  | c :: r => if c <? 128 then 1 + byteLength r else if c <? 2048 then 2 + byteLength r
              else if high_surrogate c
                   then match r with d :: r' => if low_surrogate d then 4 + byteLength r' else 3 + byteLength r | [] => 3 end
                   else 3 + byteLength r
  end.

Inductive ExtractError := xe_unsupported (message : string) | xe_other (message : string).
Inductive IngestError := ie_validation (message : string) | ie_conflict (message : string) | ie_thrown (message : string).
Record IngestInput := { ig_title : string; ig_fileName : string; ig_mimeType : option string; ig_bytes : string; ig_createdBy : string }.

Definition quoted (s : string) : string := String (Ascii.ascii_of_nat 34) (s +:+ String (Ascii.ascii_of_nat 34) "").

(** ** The routes *)

Definition MAX_TITLE_LENGTH : nat := 200.
Definition ellipsis : string := String (Ascii.ascii_of_nat 226) (String (Ascii.ascii_of_nat 128) (String (Ascii.ascii_of_nat 166) "")).
(** [replace(/\.[a-z0-9]{1,8}$/i, '')]. *)
Fixpoint drop_extension (s : string) : string :=
  match s with
  | EmptyString => ""
  | String c r => if Ascii.eqb c "." && (1 <=? String.length r)%nat && (String.length r <=? 8)%nat && str_all is_alnum r then "" else String c (drop_extension r)
  end.
Definition separator (c : Ascii.ascii) : bool := Ascii.eqb c "_" || Ascii.eqb c "-".
(** [replace(/[_-]+/g, ' ')]. *)
Fixpoint spaced (inside : bool) (s : string) : string :=
  match s with
  | EmptyString => ""
  | String c r => if separator c then (if inside then spaced true r else String " " (spaced true r)) else String c (spaced false r)
  end.
Definition titleFromFileName (fileName : string) : string :=
  let base := js_trim (spaced false (drop_extension fileName)) in
  let title := if String.eqb base "" then fileName else base in
  if (MAX_TITLE_LENGTH <? String.length title)%nat then str_take (MAX_TITLE_LENGTH - 1) title +:+ ellipsis else title.

Record UploadedFile := { uf_name : string; uf_size : Z; uf_type : string; uf_bytes : string }.
Record Upload := { up_title : string; up_fileName : string; up_mimeType : option string; up_bytes : string }.
Definition fromForm (file : option UploadedFile) (title : option string) : outcome string Upload :=
  match file with
  | None => Throw ("Attach a file as the " +:+ quoted "file" +:+ " field.")
  | Some f =>
      if uf_size f =? 0 then Throw (quoted (uf_name f) +:+ " is empty.")
      else if MAX_DOCUMENT_BYTES * 4 <? uf_size f then Throw (quoted (uf_name f) +:+ " is too large. Documents are capped at 1 MB of text.")
      else Ret {| up_title := match title with
                              | Some t => if String.eqb (js_trim t) "" then titleFromFileName (uf_name f) else str_take 200 (js_trim t)
                              | None => titleFromFileName (uf_name f)
                              end;
                  up_fileName := uf_name f; up_mimeType := if String.eqb (uf_type f) "" then None else Some (uf_type f); up_bytes := uf_bytes f |}
  end.
(** [encode] is the [TextEncoder]. *)
Definition fromJson (encode : string → string) (title body : string) : Upload :=
  let name := drop_back (drop_front (dashed false (toLowerCase title))) in
  {| up_title := title; up_fileName := (if String.eqb name "" then "note" else name) +:+ ".md"; up_mimeType := Some "text/markdown"; up_bytes := encode body |}.
Definition ingest_of (u : Upload) (createdBy : string) : IngestInput :=
  {| ig_title := up_title u; ig_fileName := up_fileName u; ig_mimeType := up_mimeType u; ig_bytes := up_bytes u; ig_createdBy := createdBy |}.

Definition plain_char (c : Ascii.ascii) : bool := is_alnum c || Ascii.eqb c "_" || Ascii.eqb c "." || Ascii.eqb c "-" || Ascii.eqb c " ".
(** [replace(/[^\w.\- ]+/g, '_')]. *)
Fixpoint plain_name (inside : bool) (s : string) : string :=
  match s with
  | EmptyString => ""
  | String c r => if plain_char c then String c (plain_name false r) else if inside then plain_name true r else String "_" (plain_name true r)
  end.
Definition safe_name (fileName : string) : string :=
  let s := str_take 120 (plain_name false fileName) in if String.eqb s "" then "document.txt" else s.
(** The download: its headers and its body. *)
Record Download := { dl_type : string; dl_disposition : string; dl_body : text }.
Definition download_of (d : KnowledgeDocumentDoc) : Download := {|
  dl_type := (span (λ c, negb (Ascii.eqb c ";")) (kd_mimeType d)).1 +:+ "; charset=utf-8";
  dl_disposition := "attachment; filename=" +:+ quoted (safe_name (kd_fileName d)); dl_body := kd_text d |}.

Record Presented := { ps_id : string; ps_title : string; ps_fileName : string; ps_mimeType : string; ps_sizeBytes : Z; ps_status : DocStatus;
                      ps_error : option string; ps_chunkCount : Z; ps_embedded : bool; ps_createdAt : Z }.
Definition presentDocument (id : string) (d : KnowledgeDocumentDoc) : Presented := {|
  ps_id := id; ps_title := kd_title d; ps_fileName := kd_fileName d; ps_mimeType := kd_mimeType d; ps_sizeBytes := kd_sizeBytes d; ps_status := kd_status d;
  ps_error := kd_error d; ps_chunkCount := kd_chunkCount d; ps_embedded := bool_decide (is_Some (kd_embeddingModelKey d)); ps_createdAt := kd_createdAt d |}.

Section Knowledge.
Context {CD CC : Type} `{CollectionLaws KnowledgeDocumentDoc CD} `{CollectionLaws KnowledgeChunkDoc CC}.
Implicit Types (cd : CD) (cc : CC) (d : KnowledgeDocumentDoc) (row : KnowledgeChunkDoc).

(** ** The repository *)

(** [None] when the same content is live. *)
Definition createDocument (id : string) (input : CreateDocumentInput) (now : Z) cd : bool * CD := insertOne same_content id (new_document input now) cd.
Definition findByHash (hash : string) cd : option (string * KnowledgeDocumentDoc) :=
  find_one (λ d, String.eqb (kd_contentHash d) hash && live_status (kd_status d)) cd.
(** [insertMany], in order; it stops at the first row that is refused. *)
Fixpoint insertMany (rows : list (string * KnowledgeChunkDoc)) cc : bool * CC :=
  match rows with
  | [] => (true, cc)
  | (id, row) :: rest => match insertOne same_place id row cc with (true, cc') => insertMany rest cc' | (false, cc') => (false, cc') end
  end.
Definition markReady (id : string) (chunkCount : Z) (key : option string) (now : Z) cd : CD := (updateOne id (λ _, true) (set_ready chunkCount key now) cd).2.
Definition of_document (documentId : string) row : bool := String.eqb (kc_documentId row) documentId.
Definition delete_chunks (documentId : string) cc : CC := (deleteMany (of_document documentId) cc).2.
Definition record_failure (id error : string) (now : Z) cd : CD := (updateOne id (λ _, true) (set_failed error now) cd).2.
Definition delete_record (id : string) cd : bool * CD := deleteOne id (λ _, true) cd.
Definition newest_document (a b : KnowledgeDocumentDoc) : bool := kd_createdAt b <=? kd_createdAt a.
Definition list_documents cd : list (string * KnowledgeDocumentDoc) := find_docs (λ _, true) newest_document (size (docs cd)) cd.
Definition findById (id : string) cd : option KnowledgeDocumentDoc := docs cd !! id.
Definition in_order row row' : bool := (kc_index row <=? kc_index row')%nat.
Definition read (documentId : string) (from count : nat) cc : list (string * KnowledgeChunkDoc) :=
  find_docs (λ row, of_document documentId row && (from <=? kc_index row)%nat) in_order count cc.
Definition ready_ids cd : list string := map fst (find_all (λ d, bool_decide (kd_status d = ds_ready)) cd).
Definition countChunks cc : nat := size (docs cc).

(** ** What an agent sees *)

Record Listed := { ls_id : string; ls_title : string; ls_chunkCount : Z; ls_createdAt : Z }.
Definition source_documents cd : list Listed :=
  map (λ e, {| ls_id := e.1; ls_title := kd_title e.2; ls_chunkCount := kd_chunkCount e.2; ls_createdAt := kd_createdAt e.2 |})
    (List.filter (λ e, bool_decide (kd_status e.2 = ds_ready)) (list_documents cd)).
Record Passage := { pg_title : string; pg_chunkCount : Z; pg_chunks : list (nat * text) }.
Definition source_read (documentId : string) (from count : nat) cd cc : option Passage :=
  match findById documentId cd with
  | Some d => if bool_decide (kd_status d = ds_ready)
              then Some {| pg_title := kd_title d; pg_chunkCount := kd_chunkCount d;
                           pg_chunks := map (λ r, (kc_index r.2, kc_content r.2)) (read documentId from count cc) |}
              else None
  | None => None
  end.

(** The part to go on from, if there is one. *)
Definition next_part (p : Passage) : option nat :=
  match last_opt (pg_chunks p) with
  | Some (i, _) => if Z.of_nat i + 1 <? pg_chunkCount p then Some (S i) else None
  | None => None
  end.

(** ** Requests that interleave *)

(** An ingestion that still has chunks to write, a failure whose chunks are still there or
    already deleted, and a removal whose chunks are gone. *)
Inductive Job :=
| jb_ingest (documentId : string) (rest : list ChunkInput) (total : Z) (key : option string)
| jb_fail (documentId error : string)
| jb_cleared (documentId error : string)
| jb_remove (documentId : string).
(** The document an ingestion or its failure is about. *)
Definition job_doc (j : Job) : option string := match j with jb_ingest id _ _ _ | jb_fail id _ | jb_cleared id _ => Some id | jb_remove _ => None end.

(** [w_removed] are the documents whose removal has begun, for the theorems. *)
Record World := { w_docs : CD; w_chunks : CC; w_jobs : list Job; w_removed : gset string }.

(** What an ingestion writes for a text. *)
Definition parts_of_text (t : text) : option (list TextChunk) := chunkText t DEFAULT_CHUNKING.
Definition inputs_for (t : text) (inputs : list ChunkInput) : Prop :=
  ∃ parts, parts_of_text t = Some parts ∧ map (λ c, (ci_index c, ci_content c)) inputs = map (λ c, (tc_index c, tc_content c)) parts.

(** An id that nothing has been given. *)
Definition unused (id : string) (w : World) : Prop :=
  docs (w_docs w) !! id = None ∧ id ∉ w_removed w ∧ (∀ k row, docs (w_chunks w) !! k = Some row → kc_documentId row ≠ id) ∧
  ∀ j, j ∈ w_jobs w → job_doc j ≠ Some id.

Inductive step : World → World → Prop :=
| st_create w id input inputs key now created cd' :
    unused id w → inputs_for (cd_text input) inputs → createDocument id input now (w_docs w) = (created, cd') →
    step w {| w_docs := cd'; w_chunks := w_chunks w; w_jobs := if created then jb_ingest id inputs (Z.of_nat (length inputs)) key :: w_jobs w else w_jobs w;
              w_removed := w_removed w |}
| st_append w l1 l2 id rest total key ids now error ok cc' :
    w_jobs w = l1 ++ jb_ingest id rest total key :: l2 → rest ≠ [] → length ids = length (take INSERT_BATCH rest) →
    insertMany (zip ids (map (chunk_row id now) (take INSERT_BATCH rest))) (w_chunks w) = (ok, cc') →
    step w {| w_docs := w_docs w; w_chunks := cc'; w_jobs := l1 ++ (if ok then jb_ingest id (drop INSERT_BATCH rest) total key else jb_fail id error) :: l2;
              w_removed := w_removed w |}
| st_broken w l1 l2 id rest total key n ids now error ok cc' :
    w_jobs w = l1 ++ jb_ingest id rest total key :: l2 → (n <= INSERT_BATCH)%nat → length ids = length (take n rest) →
    insertMany (zip ids (map (chunk_row id now) (take n rest))) (w_chunks w) = (ok, cc') →
    step w {| w_docs := w_docs w; w_chunks := cc'; w_jobs := l1 ++ jb_fail id error :: l2; w_removed := w_removed w |}
| st_ready w l1 l2 id total key now :
    w_jobs w = l1 ++ jb_ingest id [] total key :: l2 →
    step w {| w_docs := markReady id total key now (w_docs w); w_chunks := w_chunks w; w_jobs := l1 ++ l2; w_removed := w_removed w |}
| st_clear w l1 l2 id error :
    w_jobs w = l1 ++ jb_fail id error :: l2 →
    step w {| w_docs := w_docs w; w_chunks := delete_chunks id (w_chunks w); w_jobs := l1 ++ jb_cleared id error :: l2; w_removed := w_removed w |}
| st_fail w l1 l2 id error now :
    w_jobs w = l1 ++ jb_cleared id error :: l2 →
    step w {| w_docs := record_failure id error now (w_docs w); w_chunks := w_chunks w; w_jobs := l1 ++ l2; w_removed := w_removed w |}
| st_remove w id :
    step w {| w_docs := w_docs w; w_chunks := delete_chunks id (w_chunks w); w_jobs := jb_remove id :: w_jobs w; w_removed := {[id]} ∪ w_removed w |}
| st_removed w l1 l2 id :
    w_jobs w = l1 ++ jb_remove id :: l2 →
    step w {| w_docs := (delete_record id (w_docs w)).2; w_chunks := w_chunks w; w_jobs := l1 ++ l2; w_removed := w_removed w |}
| st_stop w l1 j l2 :
    w_jobs w = l1 ++ j :: l2 →
    step w {| w_docs := w_docs w; w_chunks := w_chunks w; w_jobs := l1 ++ l2; w_removed := w_removed w |}.

Definition initial (w : World) : Prop := docs (w_docs w) = ∅ ∧ docs (w_chunks w) = ∅ ∧ w_jobs w = [].
Definition reachable (w : World) : Prop := ∃ w0, initial w0 ∧ rtc step w0 w.

(** ** The invariant *)

Definition place (c : TextChunk) : nat * text := (tc_index c, tc_content c).
Definition ci_place (c : ChunkInput) : nat * text := (ci_index c, ci_content c).
Definition kc_place row : nat * text := (kc_index row, kc_content row).
(** The places of the chunks of a text. *)
Definition places (t : text) : list (nat * text) := map place (default [] (parts_of_text t)).
Definition stored (id : string) (p : nat * text) cc : Prop := ∃ k row, docs cc !! k = Some row ∧ kc_documentId row = id ∧ kc_place row = p.

Record Inv (w : World) : Prop := {
  i_sub : ∀ k row d, docs (w_chunks w) !! k = Some row → docs (w_docs w) !! kc_documentId row = Some d → kc_place row ∈ places (kd_text d);
  i_ready : ∀ id d, docs (w_docs w) !! id = Some d → kd_status d = ds_ready → id ∉ w_removed w →
    kd_chunkCount d = Z.of_nat (length (places (kd_text d))) ∧ ∀ p, p ∈ places (kd_text d) → stored id p (w_chunks w);
  i_ingest : ∀ id rest total key d, jb_ingest id rest total key ∈ w_jobs w → docs (w_docs w) !! id = Some d →
    kd_status d = ds_ingesting ∧ total = Z.of_nat (length (places (kd_text d))) ∧
    ∃ pre, places (kd_text d) = pre ++ map ci_place rest ∧ (id ∉ w_removed w → ∀ p, p ∈ pre → stored id p (w_chunks w));
  i_fail : ∀ id error d, jb_fail id error ∈ w_jobs w ∨ jb_cleared id error ∈ w_jobs w → docs (w_docs w) !! id = Some d → kd_status d = ds_ingesting;
  i_jobs : NoDup (omap job_doc (w_jobs w));
  i_live : ∀ id id' d d', docs (w_docs w) !! id = Some d → docs (w_docs w) !! id' = Some d' → same_content d d' = true → id = id';
  i_place : ∀ k k' row row', docs (w_chunks w) !! k = Some row → docs (w_chunks w) !! k' = Some row' → same_place row row' = true → k = k';
}.

Lemma kn_inv_initial w : initial w → Inv w.
Proof.
  intros (Ed & Ec & Ej). split; rewrite ?Ed, ?Ec, ?Ej; try (intros *; rewrite ?lookup_empty; done).
  constructor.
Qed.

(** Inserting rows of one document. *)
Lemma insertMany_docs id now cs ids cc ok cc' : length ids = length cs →
  insertMany (zip ids (map (chunk_row id now) cs)) cc = (ok, cc') →
  (∀ k row, docs cc !! k = Some row → docs cc' !! k = Some row) ∧
  (∀ k row, docs cc' !! k = Some row → docs cc !! k = Some row ∨ kc_documentId row = id ∧ kc_place row ∈ map ci_place cs) ∧
  (ok = true → ∀ p, p ∈ map ci_place cs → stored id p cc') ∧
  ((∀ k k' row row', docs cc !! k = Some row → docs cc !! k' = Some row' → same_place row row' = true → k = k') →
   ∀ k k' row row', docs cc' !! k = Some row → docs cc' !! k' = Some row' → same_place row row' = true → k = k').
Proof.
  revert ids cc. induction cs as [|c cs IH]; intros [|i ids] cc Hl Hi; try done; cbn [map zip_with zip insertMany] in Hi.
  { injection Hi as <- <-. split_and!; [done|auto| |done]. intros _ p Hp. by apply elem_of_nil in Hp. }
  destruct (insertOne_cases same_place i (chunk_row id now c) cc) as [(Eok & Hn & Hc & Ed)|(Eok & Ed)];
    destruct (insertOne _ _ _ _) as [b cc1]; cbn in Eok, Ed; subst b.
  2: { injection Hi as <- <-. rewrite Ed. split_and!; auto. done. }
  destruct (IH ids cc1) as (Hk & Hn' & Hs & Hu); [simpl in Hl; lia|done|].
  assert (∀ a b, same_place a b = same_place b a) as Hsym
    by (intros a b; unfold same_place; by rewrite String.eqb_sym, Nat.eqb_sym).
  split_and!.
  - intros k row Hr. apply Hk. rewrite Ed, lookup_insert_ne; [done|]. intros <-. congruence.
  - intros k row Hr. destruct (Hn' k row Hr) as [Hr'|[? ?]]; [|right; split; [done|by right]]. rewrite Ed in Hr'.
    apply lookup_insert_Some in Hr' as [[<- <-]|[_ Hr']]; [right; split; [done|by left]|by left].
  - intros Hok p [->|Hp]%elem_of_cons; [|by apply Hs]. exists i, (chunk_row id now c). split; [|done]. apply Hk. by rewrite Ed, lookup_insert_eq.
  - intros Huniq. apply Hu. intros k k' r r'. rewrite Ed.
    intros [[<- <-]|[Hne Hr]]%lookup_insert_Some [[<- <-]|[Hne' Hr']]%lookup_insert_Some Hsame; [done| | |by eapply Huniq].
    + by rewrite (Hc k' r' Hr') in Hsame.
    + rewrite Hsym in Hsame. by rewrite (Hc k r Hr) in Hsame.
Qed.

Lemma stored_mono id p cc cc' : (∀ k row, docs cc !! k = Some row → docs cc' !! k = Some row) → stored id p cc → stored id p cc'.
Proof. intros Hm (k & row & Hr & ?). exists k, row. auto. Qed.

Lemma delete_chunks_docs id cc k row : docs (delete_chunks id cc) !! k = Some row ↔ docs cc !! k = Some row ∧ kc_documentId row ≠ id.
Proof.
  unfold delete_chunks. rewrite (proj2 (deleteMany_docs _ cc)). unfold selected. rewrite map_lookup_filter_Some. simpl.
  unfold of_document. rewrite negb_true_iff, String.eqb_neq. done.
Qed.

Lemma stored_delete id id' p cc : id ≠ id' → stored id p cc → stored id p (delete_chunks id' cc).
Proof. intros Hne (k & row & Hr & Hid & ?). exists k, row. rewrite delete_chunks_docs. subst. auto. Qed.

(** The other requests are about other documents. *)
Lemma other_jobs l1 j l2 j' id : NoDup (omap job_doc (l1 ++ j :: l2)) → job_doc j = Some id → j' ∈ l1 ++ l2 → job_doc j' ≠ Some id.
Proof.
  rewrite omap_app. simpl. intros Hn Hj. rewrite Hj in Hn. intros Hin Hj'.
  assert (id ∈ omap job_doc l1 ++ omap job_doc l2) as Hel by (rewrite <-omap_app; apply list_elem_of_omap; eauto).
  apply NoDup_app in Hn as (_ & Hd & Hc). apply NoDup_cons in Hc as [Hc _].
  apply elem_of_app in Hel as [Hel|Hel]; [|done]. apply (Hd id Hel). by left.
Qed.

Lemma jobs_removed l1 j l2 : NoDup (omap job_doc (l1 ++ j :: l2)) → NoDup (omap job_doc (l1 ++ l2)).
Proof.
  intros Hn. eapply sublist_NoDup; [done|]. rewrite !omap_app. simpl. apply sublist_app; [done|]. destruct (job_doc j); [by constructor|done].
Qed.

Lemma jobs_replaced l1 j j' l2 : job_doc j = job_doc j' → NoDup (omap job_doc (l1 ++ j :: l2)) → NoDup (omap job_doc (l1 ++ j' :: l2)).
Proof. rewrite !omap_app. simpl. by intros ->. Qed.

Lemma elem_of_replaced {A} (l1 l2 : list A) j j' : j' ∈ l1 ++ j :: l2 ↔ j' = j ∨ j' ∈ l1 ++ l2.
Proof. set_solver. Qed.

(** Parts of a document arrive, and its request goes on or fails. *)
Lemma kn_append w l1 l2 id rest total key now n ids ok cc' j' :
  Inv w → w_jobs w = l1 ++ jb_ingest id rest total key :: l2 → length ids = length (take n rest) →
  insertMany (zip ids (map (chunk_row id now) (take n rest))) (w_chunks w) = (ok, cc') →
  (ok = true ∧ j' = jb_ingest id (drop n rest) total key) ∨ (∃ e, j' = jb_fail id e) →
  Inv {| w_docs := w_docs w; w_chunks := cc'; w_jobs := l1 ++ j' :: l2; w_removed := w_removed w |}.
Proof.
  intros Hi Hj Hl Hm Hj'. destruct (insertMany_docs id now _ _ _ _ _ Hl Hm) as (Hk & Hn & Hs & Hu).
  assert (∀ d, docs (w_docs w) !! id = Some d → _) as Hd by (intros d; apply (i_ingest w Hi id rest total key); rewrite Hj; set_solver).
  assert (job_doc j' = Some id) as Ej by (by destruct Hj' as [[_ ->]|[e ->]]).
  split; simpl.
  - intros k row d Hr Hdoc. destruct (Hn k row Hr) as [Hr'|[Hid Hp]]; [by eapply (i_sub w Hi)|].
    rewrite Hid in Hdoc. destruct (Hd d Hdoc) as (_ & _ & pre & -> & _). apply elem_of_app. right.
    rewrite <-(take_drop n rest), map_app. by apply elem_of_app; left.
  - intros id' d Hdoc Hready Hrem. destruct (i_ready w Hi id' d Hdoc Hready Hrem) as [? Hst]. split; [done|].
    intros p Hp. by eapply stored_mono, Hst.
  - intros id' r t k d Hin Hdoc. apply elem_of_replaced in Hin as [<-|Hin].
    + destruct Hj' as [[-> [= -> -> -> ->]]|[e [=]]]. destruct (Hd d Hdoc) as (? & ? & pre & Hp & Hst). split_and!; [done..|].
      exists (pre ++ map ci_place (take n rest)). split; [by rewrite <-app_assoc, <-map_app, take_drop|].
      intros Hrem p [Hp'|Hp']%elem_of_app; [eapply stored_mono, Hst; auto|by apply Hs].
    + destruct (i_ingest w Hi id' r t k d) as (? & ? & pre & Hp & Hst); [rewrite Hj; set_solver|done|]. split_and!; [done..|].
      exists pre. split; [done|]. intros Hrem p Hp'. eapply stored_mono, Hst; auto.
  - intros id' e d Hin Hdoc. destruct (decide (id' = id)) as [->|Hne]; [by destruct (Hd d Hdoc)|].
    apply (i_fail w Hi id' e d); [|done]. rewrite Hj.
    destruct Hin as [Hin|Hin]; apply elem_of_replaced in Hin as [<-|Hin]; [by injection Ej|left; set_solver|by injection Ej|right; set_solver].
  - eapply jobs_replaced, (eq_rect _ (λ l, NoDup (omap job_doc l)) (i_jobs w Hi) _ Hj). by rewrite Ej.
  - apply (i_live w Hi).
  - apply Hu, (i_place w Hi).
Qed.

(** The document of a request that ends is updated. *)
Lemma kn_update w l1 l2 j id f cd' :
  Inv w → w_jobs w = l1 ++ j :: l2 → job_doc j = Some id → cd' = (updateOne id (λ _, true) f (w_docs w)).2 →
  (∀ d, kd_text (f d) = kd_text d) → (∀ d, kd_contentHash (f d) = kd_contentHash d) → (∀ d, docs (w_docs w) !! id = Some d → live_status (kd_status d) = true) →
  (∀ d, docs (w_docs w) !! id = Some d → kd_status (f d) = ds_ready → id ∉ w_removed w →
     kd_chunkCount (f d) = Z.of_nat (length (places (kd_text d))) ∧ ∀ p, p ∈ places (kd_text d) → stored id p (w_chunks w)) →
  Inv {| w_docs := cd'; w_chunks := w_chunks w; w_jobs := l1 ++ l2; w_removed := w_removed w |}.
Proof.
  intros Hi Hj Ej -> Ht Hh Hlive Hready.
  assert (NoDup (omap job_doc (l1 ++ j :: l2))) as Hnd by (rewrite <-Hj; apply (i_jobs w Hi)).
  assert (∀ j', j' ∈ l1 ++ l2 → j' ∈ w_jobs w) as Hsub by (intros j'; rewrite Hj; set_solver).
  assert (∀ k d, docs (updateOne id (λ _, true) f (w_docs w)).2 !! k = Some d →
    (∃ d0, k = id ∧ docs (w_docs w) !! id = Some d0 ∧ d = f d0) ∨ k ≠ id ∧ docs (w_docs w) !! k = Some d) as Hcase.
  { intros k d. destruct (updateOne_cases id (λ _, true) f (w_docs w)) as [(d0 & Hd & _ & _ & ->)|(Hmiss & _ & ->)].
    - intros [[<- <-]|[Hne ?]]%lookup_insert_Some; [left; eauto|right; auto].
    - intros Hk. right. split; [|done]. intros ->. by apply Hmiss in Hk. }
  split; simpl.
  - intros k row d Hr Hdoc. destruct (Hcase _ _ Hdoc) as [(d0 & E & Hd & ->)|[_ Hd]]; [rewrite Ht; rewrite <-E in Hd|]; by eapply (i_sub w Hi).
  - intros k d Hdoc Hst Hrem. destruct (Hcase _ _ Hdoc) as [(d0 & -> & Hd & ->)|[_ Hd]]; [rewrite Ht; auto|by apply (i_ready w Hi)].
  - intros k r t ky d Hin Hdoc. destruct (Hcase _ _ Hdoc) as [(d0 & -> & Hd & ->)|[_ Hd]].
    + by destruct (other_jobs l1 j l2 _ id Hnd Ej Hin).
    + eapply (i_ingest w Hi); eauto.
  - intros k e d Hin Hdoc. destruct (Hcase _ _ Hdoc) as [(d0 & -> & Hd & ->)|[_ Hd]].
    + destruct Hin as [Hin|Hin]; by destruct (other_jobs l1 j l2 _ id Hnd Ej Hin).
    + eapply (i_fail w Hi); [|done]. destruct Hin; eauto.
  - by eapply jobs_removed.
  - assert (∀ k d, docs (updateOne id (λ _, true) f (w_docs w)).2 !! k = Some d → live_status (kd_status d) = true →
      ∃ d0, docs (w_docs w) !! k = Some d0 ∧ live_status (kd_status d0) = true ∧ kd_contentHash d0 = kd_contentHash d) as Hold.
    { intros k d Hdoc Hl. destruct (Hcase _ _ Hdoc) as [(d0 & -> & Hd & ->)|[_ Hd]]; [exists d0|exists d]; [rewrite Hh|]; eauto. }
    intros k k' d d' Hd Hd' Hs. unfold same_content in Hs. apply andb_true_iff in Hs as [[Hl Hl']%andb_true_iff Hs].
    destruct (Hold k d Hd Hl) as (e & He & Hle & Ee), (Hold k' d' Hd' Hl') as (e' & He' & Hle' & Ee').
    apply (i_live w Hi k k' e e'); [done..|]. unfold same_content. by rewrite Hle, Hle', Ee, Ee'.
  - apply (i_place w Hi).
Qed.

(** Fewer requests and fewer documents. *)
Lemma kn_fewer w cd' jobs :
  Inv w → sublist jobs (w_jobs w) → (∀ k d, docs cd' !! k = Some d → docs (w_docs w) !! k = Some d) →
  Inv {| w_docs := cd'; w_chunks := w_chunks w; w_jobs := jobs; w_removed := w_removed w |}.
Proof.
  intros Hi Hj Hd. assert (∀ j, j ∈ jobs → j ∈ w_jobs w) as Hsub by (intros j Hin; by eapply elem_of_sublist).
  split; simpl.
  - intros k row d Hr Hdoc. eapply (i_sub w Hi); eauto.
  - intros k d Hdoc. apply (i_ready w Hi); auto.
  - intros k r t ky d Hin Hdoc. eapply (i_ingest w Hi); eauto.
  - intros k e d Hin Hdoc. eapply (i_fail w Hi); [destruct Hin; eauto|auto].
  - eapply sublist_NoDup; [apply (i_jobs w Hi)|]. clear -Hj. induction Hj as [|j l l' _ IH|j l l' _ IH]; simpl; [done| |]; destruct (job_doc j); by try constructor.
  - intros k k' d d' Hk Hk'. apply (i_live w Hi); auto.
  - apply (i_place w Hi).
Qed.

(** The chunks of a document go, when it is being removed or its ingestion failed. *)
Lemma kn_clear w id jobs removed :
  Inv w → w_removed w ⊆ removed → NoDup (omap job_doc jobs) →
  (∀ d, docs (w_docs w) !! id = Some d → kd_status d = ds_ready → id ∈ removed) →
  (∀ i r t ky, jb_ingest i r t ky ∈ jobs → jb_ingest i r t ky ∈ w_jobs w ∧ (i = id → id ∈ removed)) →
  (∀ i e, jb_fail i e ∈ jobs ∨ jb_cleared i e ∈ jobs → ∃ e', jb_fail i e' ∈ w_jobs w ∨ jb_cleared i e' ∈ w_jobs w) →
  Inv {| w_docs := w_docs w; w_chunks := delete_chunks id (w_chunks w); w_jobs := jobs; w_removed := removed |}.
Proof.
  intros Hi Hrem Hnd Hready Hing Hfail. split; simpl.
  - intros k row d [Hr _]%delete_chunks_docs Hdoc. by eapply (i_sub w Hi).
  - intros k d Hdoc Hst Hnot. destruct (i_ready w Hi k d Hdoc Hst) as [? Hp]; [set_solver|]. split; [done|].
    intros p Hin. apply stored_delete; [|auto]. intros ->. eauto.
  - intros k r t ky d Hin Hdoc. destruct (Hing k r t ky Hin) as [Hin' Hid].
    destruct (i_ingest w Hi k r t ky d Hin' Hdoc) as (? & ? & pre & ? & Hst). split_and!; [done..|]. exists pre. split; [done|].
    intros Hnot p Hp. apply stored_delete; [intros ->; auto|]. apply Hst; [set_solver|done].
  - intros k e d Hin Hdoc. destruct (Hfail k e Hin) as [e' ?]. by eapply (i_fail w Hi).
  - done.
  - apply (i_live w Hi).
  - intros k k' row row' [Hr _]%delete_chunks_docs [Hr' _]%delete_chunks_docs. by apply (i_place w Hi).
Qed.

Lemma inputs_places t inputs : inputs_for t inputs → map ci_place inputs = places t ∧ length inputs = length (places t).
Proof.
  intros (parts & Ep & Em). unfold places. rewrite Ep. simpl.
  assert (map ci_place inputs = map place parts) as E by exact Em. split; [done|]. by rewrite <-(length_map ci_place inputs), E.
Qed.

(** A document arrives. *)
Lemma kn_create w id input inputs key now cd' :
  Inv w → unused id w → inputs_for (cd_text input) inputs → createDocument id input now (w_docs w) = (true, cd') →
  Inv {| w_docs := cd'; w_chunks := w_chunks w; w_jobs := jb_ingest id inputs (Z.of_nat (length inputs)) key :: w_jobs w; w_removed := w_removed w |}.
Proof.
  intros Hi (Hno & Hrem & Hrows & Hjobs) [Hp Hl]%inputs_places Hc. unfold createDocument in Hc.
  destruct (insertOne_true same_content id (new_document input now) (w_docs w)) as (_ & Hclash & Ed); [by rewrite Hc|].
  rewrite Hc in Ed. simpl in Ed. split; simpl; rewrite ?Ed.
  - intros k row d Hr [[E <-]|[_ Hd]]%lookup_insert_Some; [by destruct (Hrows k row Hr)|by eapply (i_sub w Hi)].
  - intros k d [[<- <-]|[_ Hd]]%lookup_insert_Some; [done|by apply (i_ready w Hi)].
  - intros k r t ky d [E|Hin]%elem_of_cons [[<- <-]|[Hne Hd]]%lookup_insert_Some; simplify_eq.
    + split_and!; [done|simpl; lia|]. exists []. split; [done|]. intros _ p Hn. by apply elem_of_nil in Hn.
    + by destruct (Hjobs _ Hin).
    + by eapply (i_ingest w Hi).
  - intros k e d Hin [[<- <-]|[Hne Hd]]%lookup_insert_Some; [done|].
    apply (i_fail w Hi k e d); [|done]. destruct Hin as [[E|Hin]%elem_of_cons|[E|Hin]%elem_of_cons]; auto; done.
  - apply NoDup_cons. split; [|apply (i_jobs w Hi)]. intros (j & Hj & E)%list_elem_of_omap. by destruct (Hjobs j Hj).
  - intros k k' d d' [[<- <-]|[Hne Hd]]%lookup_insert_Some [[<- <-]|[Hne' Hd']]%lookup_insert_Some Hs; [done| | |by eapply (i_live w Hi)].
    + by rewrite (Hclash k' d' Hd') in Hs.
    + by rewrite same_content_sym, (Hclash k d Hd) in Hs.
  - apply (i_place w Hi).
Qed.

Lemma knowledge_step_inv w w' : step w w' → Inv w → Inv w'.
Proof.
  intros Hs Hi. destruct Hs.
  - destruct created; [by eapply kn_create|]. apply kn_fewer; [done..|]. intros k d. unfold createDocument in *.
    destruct (insertOne_cases same_content id (new_document input now) (w_docs w)) as [(E & _)|(_ & Ed)]; [by rewrite H5 in E|]. rewrite H5 in Ed. simpl in Ed. by rewrite Ed.
  - eapply kn_append; [done..|]. destruct ok; eauto.
  - eapply kn_append; [done..|]. eauto.
  - assert (∀ d, docs (w_docs w) !! id = Some d → _) as Hd by (intros d; apply (i_ingest w Hi id [] total key); rewrite H3; set_solver).
    eapply kn_update; [done|done|done|done|done|done| |].
    + intros d Hdoc. by destruct (Hd d Hdoc) as [-> _].
    + intros d Hdoc _ Hrem. destruct (Hd d Hdoc) as (_ & -> & pre & -> & Hst). rewrite app_nil_r in *. auto.
  - assert (job_doc (jb_fail id error) = Some id) as Ej by done.
    assert (NoDup (omap job_doc (l1 ++ jb_fail id error :: l2))) as Hnd by (rewrite <-H3; apply (i_jobs w Hi)).
    apply kn_clear; [done..|by eapply jobs_replaced| | |].
    + intros d Hdoc Hr. pose proof (i_fail w Hi id error d) as Hf. rewrite Hf in Hr; [done| |done]. left. rewrite H3. set_solver.
    + intros i r t ky Hin. apply elem_of_replaced in Hin as [[=]|Hin]. split; [rewrite H3; set_solver|].
      intros ->. by destruct (other_jobs l1 _ l2 _ id Hnd Ej Hin).
    + intros i e Hin. rewrite H3. destruct Hin as [Hin|Hin]; apply elem_of_replaced in Hin as [E|Hin]; [done|exists e; left; set_solver| |exists e; right; set_solver].
      injection E as -> ->. exists error. left. set_solver.
  - assert (∀ d, docs (w_docs w) !! id = Some d → kd_status d = ds_ingesting) as Hd
      by (intros d; apply (i_fail w Hi id error); right; rewrite H3; set_solver).
    eapply kn_update; [done|done|done|done|done|done| |done]. intros d Hdoc. by rewrite (Hd d Hdoc).
  - apply kn_clear; [done|set_solver|apply (i_jobs w Hi)|set_solver| |].
    + intros i r t ky [[=]|Hin]%elem_of_cons. split; [done|set_solver].
    + intros i e Hin. exists e. set_solver.
  - apply kn_fewer; [done| |intros k d; apply deleteOne_sub]. rewrite H3. apply sublist_app; [done|by constructor].
  - apply kn_fewer; [done| |done]. rewrite H3. apply sublist_app; [done|by constructor].
Qed.

Lemma knowledge_reachable_inv w : reachable w → Inv w.
Proof. intros (w0 & H0' & Hr). apply kn_inv_initial in H0'. induction Hr as [|a b c Hs _ IH]; [done|]. eauto using knowledge_step_inv. Qed.

(** ** Reading in order *)

(** What is first in order among the parts of a document. *)
Lemma first_in_order {A} (idx : A → nat) (n : nat) (L T : list A) :
  StronglySorted (λ a b, idx a < idx b)%nat L → StronglySorted (λ a b, idx a < idx b)%nat T →
  (∀ a, a ∈ L → a ∈ T) → (length L <= n)%nat → (∀ t, t ∈ T → t ∈ L ∨ length L = n ∧ ∀ a, a ∈ L → (idx a <= idx t)%nat) →
  L = take n T.
Proof.
  intros HL HT. revert n L HL. induction HT as [|t T HT IH Hall]; intros n L HL Hsub Hlen Hcomp.
  { rewrite take_nil. destruct L as [|a L]; [done|]. exfalso. apply (not_elem_of_nil a), Hsub. by left. }
  rewrite Forall_forall in Hall. destruct n as [|n]; [by destruct L; [|simpl in Hlen; lia]|].
  assert (∀ a, a ∈ t :: T → (idx a <= idx t)%nat → a = t) as Hmin.
  { intros a [->|Ha]%elem_of_cons Hle; [done|]. specialize (Hall a Ha). lia. }
  assert (t ∈ L) as Ht.
  { destruct (Hcomp t) as [?|[Hl Hall']]; [by left|done|]. destruct L as [|a L]; [done|].
    assert (a ∈ a :: L) as Ha by by left. rewrite <-(Hmin a); [done|by apply Hsub|by apply Hall']. }
  destruct HL as [|a L HL HaL]; [by apply elem_of_nil in Ht|]. rewrite Forall_forall in HaL.
  assert (a = t) as ->.
  { apply elem_of_cons in Ht as [->|Ht]; [done|]. apply Hmin; [apply Hsub; by left|]. specialize (HaL t Ht). lia. }
  simpl. f_equal. apply IH; [done| |simpl in Hlen; lia|].
  - intros a Ha. assert (a ∈ t :: T) as Hin by (apply Hsub; by right). apply elem_of_cons in Hin as [->|?]; [|done]. specialize (HaL t Ha). lia.
  - intros u Hu. destruct (Hcomp u) as [Hin|[Hl Hle]]; [by right| |].
    + apply elem_of_cons in Hin as [->|?]; [specialize (Hall t Hu); lia|by left].
    + right. split; [simpl in Hl; lia|]. intros a Ha. apply Hle. by right.
Qed.

Lemma places_index t : map fst (places t) = seq 0 (length (places t)).
Proof.
  unfold places, parts_of_text, chunkText. destruct (pieces_of _ _) as [pieces|]; [|done]. simpl.
  case_bool_decide; [done|]. simpl. rewrite !length_map, length_imap. apply list_eq. intros i.
  rewrite !list_lookup_fmap, list_lookup_imap. destruct (assemble _ _ _ !! i) eqn:E; simpl.
  - symmetry. apply lookup_seq. split; [done|]. by apply lookup_lt_Some in E.
  - symmetry. apply lookup_seq_ge. by apply lookup_ge_None in E.
Qed.

(** Numbered from a start, a list ascends. *)
Lemma numbered_sorted {A} (l : list (nat * A)) n : map fst l = seq n (length l) → StronglySorted (λ a b, a.1 < b.1)%nat l.
Proof.
  revert n. induction l as [|[i a] l IH]; intros n Hl; [constructor|]. simpl in Hl. injection Hl as -> Hl. constructor; [eauto|].
  apply Forall_forall. intros [j b] Hin. simpl. assert (j ∈ map fst l) as Hj by (apply list_elem_of_fmap; by exists (j, b)).
  rewrite Hl in Hj. apply elem_of_seq in Hj. lia.
Qed.

Lemma numbered_drop {A} (l : list (nat * A)) from p : map fst l = seq 0 (length l) → p ∈ drop from l ↔ p ∈ l ∧ (from <= p.1)%nat.
Proof.
  intros Hl. assert (∀ i q, l !! i = Some q → q.1 = i) as Hi.
  { intros i q Hq. assert (map fst l !! i = Some q.1) as E by (by rewrite list_lookup_fmap, Hq).
    rewrite Hl in E. by apply lookup_seq in E as [-> _]. }
  rewrite !list_elem_of_lookup. split.
  - intros [i Hp]. rewrite lookup_drop in Hp. split; [eauto|]. rewrite (Hi _ _ Hp). lia.
  - intros [[i Hp] Hle]. exists (i - from)%nat. rewrite lookup_drop. rewrite (Hi _ _ Hp) in Hle. by replace (from + (i - from))%nat with i by lia.
Qed.

#[global] Instance in_order_sort : SortOrder in_order.
Proof. split; unfold in_order; intros *; rewrite ?Nat.leb_le, ?Nat.leb_gt; lia. Qed.

(** The rows read are strictly in order. *)
Lemma strictly_in_order (l : list (string * KnowledgeChunkDoc)) :
  NoDup l.*1 → StronglySorted (λ a b, in_order a.2 b.2 = true) l → (∀ a b, a ∈ l → b ∈ l → kc_index a.2 = kc_index b.2 → a.1 = b.1) →
  StronglySorted (λ a b, a.1 < b.1)%nat (map (λ r, kc_place r.2) l).
Proof.
  intros Hn Hs Hu. induction Hs as [|a l Hs IH Ha]; [constructor|]. simpl in Hn. apply NoDup_cons in Hn as [Hna Hn]. simpl. constructor.
  - apply IH; [done|]. intros x y Hx Hy. apply Hu; by right.
  - rewrite Forall_forall in Ha. apply Forall_forall. intros p Hp. apply list_elem_of_fmap in Hp as (b & -> & Hb). simpl. specialize (Ha b Hb). unfold in_order in Ha.
    apply Nat.leb_le in Ha. destruct (decide (kc_index a.2 = kc_index b.2)) as [E|]; [|lia].
    destruct Hna. rewrite (Hu a b); [|by left|by right|done]. apply list_elem_of_fmap. eauto.
Qed.

Lemma kn_read w id d from count :
  Inv w → docs (w_docs w) !! id = Some d → kd_status d = ds_ready → id ∉ w_removed w →
  map (λ r, kc_place r.2) (read id from count (w_chunks w)) = take count (drop from (places (kd_text d))).
Proof.
  intros Hi Hd Hst Hrem. destruct (i_ready w Hi id d Hd Hst Hrem) as [_ Hall]. pose proof (places_index (kd_text d)) as Hidx.
  set (p := λ row, of_document id row && (from <=? kc_index row)%nat).
  assert (∀ k row, (k, row) ∈ read id from count (w_chunks w) →
    docs (w_chunks w) !! k = Some row ∧ kc_documentId row = id ∧ (from <= kc_index row)%nat) as Hin.
  { intros k row Hr. apply find_docs_sound in Hr as [? Hp]; [|apply _]. apply andb_true_iff in Hp as [Hp1 Hp2].
    apply String.eqb_eq in Hp1. apply Nat.leb_le in Hp2. auto. }
  apply (first_in_order fst).
  - apply strictly_in_order; [apply find_docs_nodup, _|apply find_docs_sorted, _|].
    intros [k row] [k' row'] Ha Hb Ei. apply Hin in Ha as (Ha & Ea & _), Hb as (Hb & Eb & _). simpl in *.
    eapply (i_place w Hi); [done..|]. unfold same_place. by rewrite Ea, Eb, Ei, String.eqb_refl, Nat.eqb_refl.
  - apply (numbered_sorted _ from). rewrite length_drop. change (map fst (drop from (places (kd_text d)))) with (fst <$> drop from (places (kd_text d))). rewrite fmap_drop. change (fst <$> places (kd_text d)) with (map fst (places (kd_text d))). by rewrite Hidx, drop_seq.
  - intros q Hq. apply list_elem_of_fmap in Hq as ([k row] & -> & Hr). apply Hin in Hr as (Hr & E & Hle). simpl.
    apply numbered_drop; [done|]. split; [|done]. eapply (i_sub w Hi); [done|by rewrite E].
  - rewrite length_map. apply find_docs_limit, _.
  - intros q Hq. apply numbered_drop in Hq as [Hq Hle]; [|done]. destruct (Hall q Hq) as (k & row & Hr & E & Ep).
    destruct (find_docs_complete p in_order count (w_chunks w) k row _ Hr) as [Hfound|[Hl Hlast]].
    + unfold p, of_document. rewrite E, String.eqb_refl. simpl. apply Nat.leb_le. by rewrite <-Ep in Hle.
    + left. apply list_elem_of_fmap. by exists (k, row).
    + right. rewrite length_map. split; [done|]. intros a Ha. apply list_elem_of_fmap in Ha as ([k' row'] & -> & Ha).
      apply Hlast in Ha. rewrite <-Ep. simpl. by apply Nat.leb_le.
Qed.

(** Following a document from part to part. *)
Fixpoint follow (fuel : nat) (documentId : string) (from count : nat) cd cc : list (nat * text) :=
  match source_read documentId from count cd cc with
  | Some p => pg_chunks p ++ match fuel, next_part p with S f, Some n => follow f documentId n count cd cc | _, _ => [] end
  | None => []
  end.

Lemma numbered_last {A} (l : list (nat * A)) from n i a :
  map fst l = seq 0 (length l) → last (take n (drop from l)) = Some (i, a) → i = (from + length (take n (drop from l)) - 1)%nat ∧ (0 < length (take n (drop from l)))%nat.
Proof.
  intros Hl Hlast. set (t := take n (drop from l)) in *. rewrite last_lookup in Hlast.
  pose proof (lookup_lt_Some _ _ _ Hlast) as Hlt. split; [|lia]. unfold t in Hlast. rewrite lookup_take in Hlast.
  rewrite decide_True in Hlast. 2: { fold t. unfold t in *. rewrite length_take in *. lia. }
  rewrite lookup_drop in Hlast. fold t in Hlast.
  assert (map fst l !! (from + pred (length t))%nat = Some i) as E by (by rewrite list_lookup_fmap, Hlast).
  rewrite Hl in E. apply lookup_seq in E as [-> _]. lia.
Qed.

Lemma kn_follow w id d count fuel from :
  Inv w → docs (w_docs w) !! id = Some d → kd_status d = ds_ready → id ∉ w_removed w → (1 <= count)%nat →
  (length (places (kd_text d)) - from <= fuel)%nat →
  follow fuel id from count (w_docs w) (w_chunks w) = drop from (places (kd_text d)).
Proof.
  intros Hi Hd Hst Hrem Hc. pose proof (places_index (kd_text d)) as Hidx. destruct (i_ready w Hi id d Hd Hst Hrem) as [Hn _].
  revert from. induction fuel as [|fuel IH]; intros from Hf; cbn [follow]; unfold source_read, findById; rewrite Hd; rewrite bool_decide_eq_true_2 by done;
    cbn [pg_chunks]; change (map _ (read id from count (w_chunks w))) with (map (λ r, kc_place r.2) (read id from count (w_chunks w)));
    rewrite (kn_read w id d from count Hi Hd Hst Hrem).
  { rewrite (drop_ge _ from) by lia. by rewrite take_nil. }
  unfold next_part. cbn [pg_chunks pg_chunkCount]. unfold last_opt. rewrite Hn.
  destruct (last (take count (drop from (places (kd_text d))))) as [[i a]|] eqn:E.
  - destruct (numbered_last _ _ _ _ _ Hidx E) as [-> Hpos]. rewrite length_take, length_drop in *.
    destruct (_ <? _) eqn:Hlt.
    + apply Z.ltb_lt in Hlt. rewrite IH by lia. rewrite <-(take_drop count (drop from _)) at 2. f_equal. rewrite drop_drop. f_equal. lia.
    + apply Z.ltb_ge in Hlt. rewrite app_nil_r. rewrite take_ge; [done|]. rewrite length_drop. lia.
  - apply last_None in E. rewrite E. apply (f_equal length) in E. rewrite length_take, length_drop in E. simpl in E. symmetry. apply drop_ge. lia.
Qed.


(** The same content is live at most once. *)
Lemma live_content_is_unique w id id' d d' :
  reachable w → docs (w_docs w) !! id = Some d → docs (w_docs w) !! id' = Some d' → kd_contentHash d = kd_contentHash d' →
  kd_status d ≠ ds_failed → kd_status d' ≠ ds_failed → id = id'.
Proof.
  intros Hi%knowledge_reachable_inv Hd Hd' Hh Hs Hs'. apply (i_live w Hi id id' d d'); [done..|]. unfold same_content. rewrite Hh, String.eqb_refl.
  by destruct (kd_status d), (kd_status d').
Qed.

(** ** Searching *)

(** A text as the ranking reads it, the square root, and the text index of the database. *)
Context (str : text → string) (sqrt : Q → Q) (text_match : string → KnowledgeChunkDoc → bool) (text_score : string → KnowledgeChunkDoc → Q).

(** What a search holds of a chunk; a query that leaves the vectors out leaves them undefined. *)
Record Candidate := { ca_id : string; ca_row : KnowledgeChunkDoc; ca_embeddings : option (list (string * list Q)) }.

Definition by_text_score (query : string) row row' : bool := Qle_bool (text_score query row') (text_score query row).
Definition among (ids : list string) row : bool := existsb (String.eqb (kc_documentId row)) ids.
Definition lexicalCandidates (query : string) cd cc : list Candidate :=
  let ready := ready_ids cd in
  if bool_decide (ready = []) then []
  else map (λ r, {| ca_id := r.1; ca_row := r.2; ca_embeddings := None |})
         (find_docs (λ row, text_match query row && among ready row) (by_text_score query) LEXICAL_CANDIDATES cc).
Definition has_vector (key : string) row : bool := bool_decide (is_Some (jm_get key (kc_embeddings row))).
Definition vectorCandidates (key : string) cd cc : list Candidate :=
  let ready := ready_ids cd in
  if bool_decide (ready = []) then []
  else map (λ r, {| ca_id := r.1; ca_row := r.2; ca_embeddings := Some (List.filter (λ e, String.eqb e.1 key) (kc_embeddings r.2)) |})
         (find_docs (λ row, among ready row && has_vector key row) any_order VECTOR_CANDIDATES cc).

(** The model of the embedding role: what [embedderFor] of memory-service.ts gives. *)
Record BatchEmbedder := { be_key : string; be_embedMany : list string → list (option (list Q)) }.
Definition be_embed (m : BatchEmbedder) (t : string) : option (list Q) := mjoin (head (be_embedMany m [t])).

Definition keep_candidate (byId : list (string * Candidate)) (c : Candidate) : list (string * Candidate) :=
  match jm_get (ca_id c) byId with
  | None => jm_set (ca_id c) c byId
  | Some known => if bool_decide (ca_embeddings known = None) && bool_decide (is_Some (ca_embeddings c)) then jm_set (ca_id c) c byId else byId
  end.
Definition candidate_similarity (model : option BatchEmbedder) (queryVector : option (list Q)) (c : Candidate) : option Q :=
  similarityOf sqrt (m ← model; e ← ca_embeddings c; jm_get (be_key m) e) queryVector.

Record SearchHit := { sh_chunkId : string; sh_documentId : string; sh_title : string; sh_index : nat; sh_content : text; sh_score : Q }.
Definition title_of (documentId : string) cd : string := match findById documentId cd with Some d => kd_title d | None => "Untitled" end.
Definition hit_of cd (r : Scored Candidate) : SearchHit :=
  let c := sc_item r in
  {| sh_chunkId := ca_id c; sh_documentId := kc_documentId (ca_row c); sh_title := title_of (kc_documentId (ca_row c)) cd; sh_index := kc_index (ca_row c);
     sh_content := kc_content (ca_row c); sh_score := sc_score r |}.
Definition searchKnowledge (model : option BatchEmbedder) (query : string) (limit : nat) cd cc : list SearchHit :=
  let queryVector := m ← model; be_embed m query in
  let lexical := lexicalCandidates query cd cc in
  let semantic := match model, queryVector with Some m, Some _ => vectorCandidates (be_key m) cd cc | _, _ => [] end in
  let byId := foldl keep_candidate [] (lexical ++ semantic) in
  if bool_decide (byId = []) then []
  else map (hit_of cd) (take limit (rankChunks (λ c, str (kc_content (ca_row c))) (candidate_similarity model queryVector) query byId.*2)).

(** The tools. *)
Definition MAX_RESULTS : nat := 10.
Definition MAX_READ : nat := 10.
(** The sign of a part and the dash, as the bytes of their encoding. *)
Definition section_sign : string := String (Ascii.ascii_of_nat 194) (String (Ascii.ascii_of_nat 167) "").
Definition em_dash : string := String (Ascii.ascii_of_nat 226) (String (Ascii.ascii_of_nat 128) (String (Ascii.ascii_of_nat 148) "")).
Definition newline : string := String (Ascii.ascii_of_nat 10) "".
Definition empty_line : string := newline +:+ newline.
Definition shown_index (i : nat) : string := pretty (Z.of_nat i).

(** Each gives a text, and whether it is an error. *)
Definition tool_search (model : option BatchEmbedder) (query : string) (limit : option nat) cd cc : string * bool :=
  let found := searchKnowledge model query (default 5%nat limit `min` MAX_RESULTS) cd cc in
  (if bool_decide (found = []) then "Nothing in the knowledge base matches that."
   else join (empty_line +:+ "---" +:+ empty_line)
          (map (λ p, "[" +:+ sh_documentId p +:+ " " +:+ section_sign +:+ shown_index (sh_index p) +:+ "] " +:+ sh_title p +:+ newline +:+ str (sh_content p)) found), false).
Definition tool_documents (day : Z → string) cd : string * bool :=
  let found := source_documents cd in
  (if bool_decide (found = []) then "No documents have been uploaded yet."
   else join newline
          (map (λ e, "[" +:+ ls_id e +:+ "] " +:+ ls_title e +:+ " " +:+ em_dash +:+ " " +:+ pretty (ls_chunkCount e) +:+ " " +:+
                     (if ls_chunkCount e =? 1 then "part" else "parts") +:+ ", added " +:+ day (ls_createdAt e)) found), false).
Definition tool_read (documentId : string) (from count : option nat) cd cc : string * bool :=
  match source_read documentId (default 0%nat from) (default 3%nat count `min` MAX_READ) cd cc with
  | None => ("There is no document with that id.", true)
  | Some p =>
      let more := match next_part p with
                  | Some n => empty_line +:+ "(" +:+ pretty (pg_chunkCount p - Z.of_nat n) +:+ " more parts follow; read from " +:+ shown_index n +:+ ".)"
                  | None => ""
                  end in
      (pg_title p +:+ " (" +:+ pretty (pg_chunkCount p) +:+ " parts)" +:+ empty_line +:+
       join empty_line (map (λ c, section_sign +:+ shown_index c.1 +:+ newline +:+ str c.2) (pg_chunks p)) +:+ more, false)
  end.

(** A chunk of a document that is ready. *)
Definition sound_candidate cd cc (c : Candidate) : Prop :=
  docs cc !! ca_id c = Some (ca_row c) ∧ ∃ d, docs cd !! kc_documentId (ca_row c) = Some d ∧ kd_status d = ds_ready.

#[global] Instance by_text_score_sort query : SortOrder (by_text_score query).
Proof.
  split; unfold by_text_score; intros *; rewrite ?Qle_bool_iff.
  - intros Hn. destruct (Qlt_le_dec (text_score query a) (text_score query b)) as [Hlt|Hle]; [by apply Qlt_le_weak|].
    apply not_true_iff_false in Hn. destruct Hn. by apply Qle_bool_iff.
  - intros Hab Hbc. by eapply Qle_trans.
Qed.

Lemma among_ready cd row : among (ready_ids cd) row = true → ∃ d, docs cd !! kc_documentId row = Some d ∧ kd_status d = ds_ready.
Proof.
  unfold among, ready_ids. intros (k & Hk & Heq)%existsb_exists. apply String.eqb_eq in Heq as <-. apply list_elem_of_In, list_elem_of_fmap in Hk as ([k d] & E & Hin).
  apply elem_of_find_all in Hin as [Hd Hs]. simpl in E. subst. apply bool_decide_eq_true_1 in Hs. eauto.
Qed.

Lemma candidates_sound query key cd cc c : c ∈ lexicalCandidates query cd cc ∨ c ∈ vectorCandidates key cd cc → sound_candidate cd cc c.
Proof.
  unfold lexicalCandidates, vectorCandidates. case_bool_decide; [intros [Hn|Hn]; by apply elem_of_nil in Hn|].
  intros [Hc|Hc]; apply list_elem_of_fmap in Hc as ([k row] & -> & Hin); (apply find_docs_sound in Hin as [Hr Hp]; [|apply _]); apply andb_true_iff in Hp as [Hp1 Hp2];
    (split; [done|]); by apply among_ready.
Qed.

Lemma kept_candidates l acc :
  NoDup acc.*1 → (∀ k c, (k, c) ∈ acc → k = ca_id c) →
  let out := foldl keep_candidate acc l in NoDup out.*1 ∧ ∀ k c, (k, c) ∈ out → k = ca_id c ∧ ((k, c) ∈ acc ∨ c ∈ l).
Proof.
  revert acc. induction l as [|x l IH]; intros acc Hn Hk; [simpl; naive_solver|]. simpl.
  assert (∀ k c, (k, c) ∈ jm_set (ca_id x) x acc → (k, c) ∈ acc ∨ k = ca_id x ∧ c = x) as Hset.
  { intros k c Hin. apply jm_get_elem in Hin; [|by apply jm_set_nodup]. rewrite jm_get_set in Hin. destruct (decide _) as [<-|]; [right; by injection Hin as <-|left; by apply jm_get_elem]. }
  assert (∀ acc', NoDup acc'.*1 → (∀ k c, (k, c) ∈ acc' → (k, c) ∈ acc ∨ k = ca_id x ∧ c = x) →
    let out := foldl keep_candidate acc' l in NoDup out.*1 ∧ ∀ k c, (k, c) ∈ out → k = ca_id c ∧ ((k, c) ∈ acc ∨ c ∈ x :: l)) as Hgo.
  { intros acc' Hn' Hsub. destruct (IH acc') as [Hn'' Hin]; [done| |].
    - intros k c Hin. destruct (Hsub k c Hin) as [?|[-> ->]]; auto.
    - split; [done|]. intros k c Hc. destruct (Hin k c Hc) as [? [Ha|?]]; [|set_solver]. split; [done|]. destruct (Hsub k c Ha) as [?|[_ ->]]; [by left|right; by left]. }
  unfold keep_candidate at 2 4. destruct (jm_get _ _) as [known|]; [destruct (_ && _)|]; apply Hgo; auto using jm_set_nodup.
Qed.

(** A search gives at most what was asked for, no passage twice and the best first; each
    is the part it says of the text of a document that is ready, under its title. *)
Theorem answers_quote_ready_documents w model query limit :
  reachable w →
  let hits := searchKnowledge model query limit (w_docs w) (w_chunks w) in
  (length hits <= limit)%nat ∧ NoDup (map sh_chunkId hits) ∧ StronglySorted (λ a b, sh_score b <= sh_score a)%Q hits ∧
  ∀ h, h ∈ hits → ∃ d, docs (w_docs w) !! sh_documentId h = Some d ∧ kd_status d = ds_ready ∧ sh_title h = kd_title d ∧
    (sh_index h, sh_content h) ∈ places (kd_text d).
Proof.
  intros Hi%knowledge_reachable_inv. unfold searchKnowledge. set (qv := m ← model; be_embed m query).
  set (cands := lexicalCandidates query (w_docs w) (w_chunks w) ++ _).
  destruct (kept_candidates cands []) as [Hnd Hin]; [constructor|intros k c Hn; by apply elem_of_nil in Hn|].
  assert (∀ c, c ∈ cands → sound_candidate (w_docs w) (w_chunks w) c) as Hsound.
  { intros c [Hc|Hc]%elem_of_app; [apply (candidates_sound query ""); by left|]. destruct model as [m|]; [|by apply elem_of_nil in Hc].
    destruct (Some m ≫= _); [apply (candidates_sound query (be_key m)); by right|by apply elem_of_nil in Hc]. }
  case_bool_decide as Hemp; [simpl; split_and!; [lia|constructor|constructor|intros h Hn; by apply elem_of_nil in Hn]|].
  set (byId := foldl keep_candidate [] cands) in *. set (ranked := rankChunks _ _ _ _).
  assert (StronglySorted (λ a b, sc_score b <= sc_score a)%Q ranked) as Hsorted by apply by_score_sorted.
  assert (∃ keep : Scored Candidate → bool, ∃ scored, map sc_item scored = byId.*2 ∧ ranked ≡ₚ List.filter keep scored) as (keep & scored & Hsc & Hperm).
  { eexists _, _. split; [|apply stable_sort_perm]. rewrite map_map. apply map_id. }
  assert (map ca_id byId.*2 = byId.*1) as Eid.
  { assert (∀ l : list (string * Candidate), (∀ k c, (k, c) ∈ l → k = ca_id c) → map ca_id l.*2 = l.*1) as Hgen.
    { induction l as [|[k c] l IH]; intros Hl; [done|]. change (ca_id c :: map ca_id l.*2 = k :: l.*1). rewrite IH by set_solver. by rewrite <-(Hl k c) by set_solver. }
    apply Hgen. intros k c Hc. by destruct (Hin k c Hc). }
  assert (NoDup (map (λ r, ca_id (sc_item r)) ranked)) as Hids.
  { rewrite (Permutation_map _ Hperm). apply NoDup_map_filter. rewrite <-(map_map sc_item ca_id), Hsc, Eid. done. }
  split_and!.
  - rewrite length_map, length_take. lia.
  - rewrite map_map, <-firstn_map. eapply sublist_NoDup; [exact Hids|]. apply sublist_take.
  - assert (StronglySorted (λ a b, sc_score b <= sc_score a)%Q (take limit ranked)) as Ht by (by apply StronglySorted_take). clear -Ht.
    induction Ht as [|r l _ IH Hr]; simpl; constructor; [done|]. apply Forall_map. done.
  - intros h Hh. apply list_elem_of_fmap in Hh as (r & -> & Hr). apply elem_of_take in Hr as (i & Hr & _). apply list_elem_of_lookup_2 in Hr.
    rewrite Hperm in Hr. apply list_elem_of_In, filter_In in Hr as [Hr _]. apply list_elem_of_In in Hr.
    assert (sc_item r ∈ byId.*2) as Hc by (rewrite <-Hsc; apply list_elem_of_fmap; eauto).
    apply list_elem_of_fmap in Hc as ([k c] & Ec & Hc). simpl in Ec. unfold hit_of. rewrite Ec. destruct (Hin k c Hc) as [_ [Hn|Hc']]; [by apply elem_of_nil in Hn|].
    destruct (Hsound c Hc') as (Hrow & d & Hd & Hst). exists d. cbn [sh_documentId sh_title sh_index sh_content]. unfold title_of, findById. rewrite Hd. split_and!; [done..|].
    by eapply (i_sub w Hi).
Qed.

(** ** Ingestion *)

(** The extractors of packages/knowledge and the hash. *)
Context (extract : DocumentKind → string → outcome ExtractError text) (sha256 : text → string).

(** What an upload says, and its parts. *)
Definition prepare (input : IngestInput) : outcome IngestError (text * list TextChunk) :=
  match kindOf (ig_fileName input) (ig_mimeType input) with
  | None => Throw (ie_validation (quoted (ig_fileName input) +:+ " is not a format that can be read. Upload " +:+ SUPPORTED_FORMATS +:+ "."))
  | Some kind =>
      match extract kind (ig_bytes input) with
      | Throw (xe_unsupported message) => Throw (ie_validation message)
      | Throw (xe_other message) => Throw (ie_thrown message)
      | Ret extracted =>
          let t := trim extracted in
          if bool_decide (t = []) then Throw (ie_validation "That document has no text in it.")
          else if MAX_DOCUMENT_BYTES <? byteLength t
               then Throw (ie_validation "That document is larger than 1 MB of text. Split it into parts and upload each.")
          else let chunks := default [] (chunkText t DEFAULT_CHUNKING) in
               if MAX_CHUNKS_PER_DOCUMENT <? Z.of_nat (length chunks)
               then Throw (ie_validation ("That document would be " +:+ pretty (Z.of_nat (length chunks)) +:+ " parts, more than the " +:+
                             pretty MAX_CHUNKS_PER_DOCUMENT +:+ " one document may have. Split it and upload each part."))
               else Ret (t, chunks)
      end
  end.

(** [embedAll]: batches of sixty-four. *)
Fixpoint embed_batches (fuel : nat) (m : BatchEmbedder) (texts : list string) : list (option (list Q)) :=
  match fuel, texts with
  | S f, _ :: _ => be_embedMany m (take EMBED_BATCH texts) ++ embed_batches f m (drop EMBED_BATCH texts)
  | _, _ => []
  end.
Definition embedAll (m : BatchEmbedder) (texts : list string) : list (option (list Q)) := embed_batches (length texts) m texts.
Definition chunk_inputs (model : option BatchEmbedder) (chunks : list TextChunk) : list ChunkInput :=
  let vectors := match model with Some m => embedAll m (map (λ c, str (tc_content c)) chunks) | None => [] end in
  imap (λ i c, {| ci_index := tc_index c; ci_content := tc_content c;
                  ci_embeddings := m ← model; v ← mjoin (vectors !! i); Some [(be_key m, v)] |}) chunks.

(** [appendChunks]: batches of a hundred, under the ids that are drawn. *)
Fixpoint append_batches (fuel : nat) (documentId : string) (chunks : list ChunkInput) (ids : list string) (now : Z) cc : bool * CC :=
  match fuel, chunks with
  | S f, _ :: _ => match insertMany (zip (take INSERT_BATCH ids) (map (chunk_row documentId now) (take INSERT_BATCH chunks))) cc with
                   | (true, cc') => append_batches f documentId (drop INSERT_BATCH chunks) (drop INSERT_BATCH ids) now cc'
                   | (false, cc') => (false, cc')
                   end
  | _, _ => (true, cc)
  end.
Definition appendChunks (documentId : string) (chunks : list ChunkInput) : list string → Z → CC → bool * CC := append_batches (length chunks) documentId chunks.
Definition markFailed (documentId error : string) (now : Z) cd cc : CD * CC := (record_failure documentId error now cd, delete_chunks documentId cc).

Inductive IngestOutcome := io_created (id : string) (d : KnowledgeDocumentDoc) | io_duplicate (id : string) (d : KnowledgeDocumentDoc).
(** [ingestDocument], with nothing in between its commands: [embedder] is what looking the
    model up gives, [refusal] the message of a write that is refused. *)
Definition ingestDocument (embedder : outcome string (option BatchEmbedder)) (refusal id : string) (ids : list string) (now later : Z) (input : IngestInput) cd cc
    : outcome IngestError IngestOutcome * (CD * CC) :=
  match prepare input with
  | Throw e => (Throw e, (cd, cc))
  | Ret (t, chunks) =>
      let record := {| cd_title := ig_title input; cd_fileName := ig_fileName input; cd_mimeType := default "text/plain" (ig_mimeType input);
                       cd_sizeBytes := byteLength t; cd_contentHash := sha256 t; cd_text := t; cd_createdBy := ig_createdBy input |} in
      match createDocument id record now cd with
      | (false, cd1) => (match findByHash (sha256 t) cd1 with
                         | Some (existing, d) => Ret (io_duplicate existing d)
                         | None => Throw (ie_conflict "That document was just uploaded by somebody else.")
                         end, (cd1, cc))
      | (true, cd1) =>
          match embedder with
          | Throw message => (Throw (ie_thrown message), markFailed id message later cd1 cc)
          | Ret model =>
              match appendChunks id (chunk_inputs model chunks) ids later cc with
              | (true, cc1) => let cd2 := markReady id (Z.of_nat (length chunks)) (be_key <$> model) later cd1 in
                               (Ret (io_created id (default (new_document record now) (findById id cd2))), (cd2, cc1))
              | (false, cc1) => (Throw (ie_thrown refusal), markFailed id refusal later cd1 cc1)
              end
          end
      end
  end.
(** [remove]. *)
Definition remove (documentId : string) cd cc : bool * (CD * CC) :=
  let '(removed, cd') := delete_record documentId cd in (removed, (cd', delete_chunks documentId cc)).

(** [POST], [GET] and [DELETE] of the routes: the status, and what is shown. *)
Inductive KnowledgeReply :=
| kr_shown (status : Z) (p : Presented) (duplicate : bool)
| kr_preview (p : Presented) (preview : text)
| kr_list (items : list Presented) (embeddingConfigured : bool)
| kr_download (f : Download)
| kr_gone
| kr_error (status : Z) (code message : string)
| kr_thrown (e : IngestError).
Definition post_document (upload : outcome string Upload) (createdBy : string) (embedder : outcome string (option BatchEmbedder)) (refusal id : string) (ids : list string)
    (now later : Z) cd cc : KnowledgeReply * (CD * CC) :=
  match upload with
  | Throw message => (kr_error 422 "validation_failed" message, (cd, cc))
  | Ret u => let '(out, rows) := ingestDocument embedder refusal id ids now later (ingest_of u createdBy) cd cc in
             (match out with
              | Ret (io_created k d) => kr_shown 201 (presentDocument k d) false
              | Ret (io_duplicate k d) => kr_shown 200 (presentDocument k d) true
              | Throw e => kr_thrown e
              end, rows)
  end.
Definition not_found : KnowledgeReply := kr_error 404 "not_found" "Document not found.".
Definition get_documents (embeddingConfigured : bool) cd : KnowledgeReply :=
  kr_list (map (λ e, presentDocument e.1 e.2) (list_documents cd)) embeddingConfigured.
Definition join_texts (l : list text) : text := match l with [] => [] | t :: r => foldl (λ acc u, acc ++ [10; 10] ++ u) t r end.
Definition get_document (documentId : string) cd cc : KnowledgeReply :=
  match findById documentId cd with
  | None => not_found
  | Some d => kr_preview (presentDocument documentId d) (join_texts (map (λ r, kc_content r.2) (read documentId 0 2 cc)))
  end.
Definition get_download (documentId : string) cd : KnowledgeReply :=
  match findById documentId cd with None => not_found | Some d => kr_download (download_of d) end.
Definition delete_document (documentId : string) cd cc : KnowledgeReply * (CD * CC) :=
  let '(removed, rows) := remove documentId cd cc in (if removed then kr_gone else not_found, rows).

(** ** Requests as steps *)

Definition with_rows (w : World) cd cc : World := {| w_docs := cd; w_chunks := cc; w_jobs := w_jobs w; w_removed := w_removed w |}.
Definition with_job (w : World) cd cc (j : Job) : World := {| w_docs := cd; w_chunks := cc; w_jobs := j :: w_jobs w; w_removed := w_removed w |}.

Lemma append_steps w fuel id rest ids total key now error cd cc ok cc' :
  append_batches fuel id rest ids now cc = (ok, cc') → (length rest <= fuel)%nat → length ids = length rest →
  rtc step (with_job w cd cc (jb_ingest id rest total key)) (with_job w cd cc' (if ok then jb_ingest id [] total key else jb_fail id error)).
Proof.
  revert rest ids cc. induction fuel as [|fuel IH]; intros rest ids cc Ha Hf Hl.
  { destruct rest; [|simpl in Hf; lia]. injection Ha as <- <-. done. }
  cbn [append_batches] in Ha. destruct rest as [|c rest]; [injection Ha as <- <-; done|].
  destruct (insertMany _ cc) as [ok1 cc1] eqn:Ei.
  eapply rtc_l; [apply (st_append (with_job w cd cc (jb_ingest id (c :: rest) total key)) [] (w_jobs w) id (c :: rest) total key (take INSERT_BATCH ids) now error ok1 cc1);
    [done|done|rewrite !length_take; lia|exact Ei]|].
  destruct ok1; [|by injection Ha as <- <-].
  apply (IH (drop INSERT_BATCH (c :: rest)) (drop INSERT_BATCH ids) cc1); [done| |rewrite !length_drop; lia].
  rewrite length_drop. unfold INSERT_BATCH. simpl in *. lia.
Qed.

Lemma failure_steps w id error now cd cc :
  rtc step (with_job w cd cc (jb_fail id error)) (with_rows w (record_failure id error now cd) (delete_chunks id cc)).
Proof.
  eapply rtc_l; [by apply (st_clear (with_job w cd cc (jb_fail id error)) [] (w_jobs w))|].
  eapply rtc_l; [by apply (st_fail (with_job w cd (delete_chunks id cc) (jb_cleared id error)) [] (w_jobs w) id error now)|]. done.
Qed.

Lemma broken_step w id rest total key error cd cc :
  step (with_job w cd cc (jb_ingest id rest total key)) (with_job w cd cc (jb_fail id error)).
Proof. apply (st_broken (with_job w cd cc (jb_ingest id rest total key)) [] (w_jobs w) id rest total key 0 [] 0 error true cc); [done|lia|done|done]. Qed.

Lemma ready_step w id total key now cd cc :
  step (with_job w cd cc (jb_ingest id [] total key)) (with_rows w (markReady id total key now cd) cc).
Proof. by apply (st_ready (with_job w cd cc (jb_ingest id [] total key)) [] (w_jobs w) id total key now). Qed.

Lemma chunk_inputs_for model t chunks : chunkText t DEFAULT_CHUNKING = Some chunks → inputs_for t (chunk_inputs model chunks).
Proof.
  intros E. exists chunks. split; [done|]. unfold chunk_inputs.
  apply list_eq. intros i. rewrite !list_lookup_fmap, list_lookup_imap. by destruct (chunks !! i).
Qed.

Lemma prepare_ret input t chunks : prepare input = Ret (t, chunks) → chunkText t DEFAULT_CHUNKING = Some chunks ∧ t ≠ [] ∧ byteLength t <= MAX_DOCUMENT_BYTES ∧ Z.of_nat (length chunks) <= MAX_CHUNKS_PER_DOCUMENT.
Proof.
  unfold prepare. destruct (kindOf _ _); [|done]. destruct (extract _ _) as [extracted|[]]; [|done..]. case_bool_decide; [done|].
  destruct (_ <? byteLength _) eqn:Hb; [done|]. destruct (_ <? Z.of_nat _) eqn:Hc; [done|]. intros [= <- <-].
  destruct (pieces_of_spec (target DEFAULT_CHUNKING) (trim extracted)) as (pieces & Ep & _); [done|]. apply Z.ltb_ge in Hb, Hc.
  split_and!; [|done..]. unfold chunkText. by rewrite Ep.
Qed.

(** The two requests, when nothing comes in between, are sequences of the steps. *)
Lemma ingestion_is_steps w embedder refusal id ids now later input out cd' cc' :
  unused id w → (∀ t chunks, prepare input = Ret (t, chunks) → length ids = length chunks) →
  ingestDocument embedder refusal id ids now later input (w_docs w) (w_chunks w) = (out, (cd', cc')) → rtc step w (with_rows w cd' cc').
Proof.
  intros Hun Hids. unfold ingestDocument. destruct (prepare input) as [[t chunks]|e] eqn:Ep; [|intros [= <- <- <-]; by destruct w].
  specialize (Hids t chunks eq_refl). apply prepare_ret in Ep as (Ec & _). set (record := {| cd_title := _ |}).
  destruct (createDocument id record now (w_docs w)) as [created cd1] eqn:Ecr.
  assert (∀ model key, step w {| w_docs := cd1; w_chunks := w_chunks w; w_removed := w_removed w;
    w_jobs := if created then jb_ingest id (chunk_inputs model chunks) (Z.of_nat (length (chunk_inputs model chunks))) key :: w_jobs w else w_jobs w |}) as Hcreate.
  { intros model key. apply (st_create w id record (chunk_inputs model chunks) key now created cd1); [done|by apply chunk_inputs_for|done]. }
  destruct created.
  2: { intros [= _ <- <-]. eapply rtc_l; [exact (Hcreate None None)|done]. }
  destruct embedder as [model|message].
  2: { intros [= _ <- <-]. eapply rtc_l; [exact (Hcreate None None)|].
       eapply rtc_l; [apply (broken_step w id _ _ None message)|apply failure_steps]. }
  destruct (appendChunks _ _ _ _ _) as [ok cc1] eqn:Ea.
  assert (length (chunk_inputs model chunks) = length chunks) as El by (unfold chunk_inputs; by rewrite length_imap).
  pose proof (append_steps w _ id (chunk_inputs model chunks) ids (Z.of_nat (length chunks)) (be_key <$> model) later refusal cd1 (w_chunks w) ok cc1 Ea) as Happ.
  specialize (Hcreate model (be_key <$> model)). rewrite El in Hcreate.
  destruct ok; intros [= _ <- <-]; (eapply rtc_l; [exact Hcreate|]); (etrans; [apply Happ; [done|lia]|]).
  - eapply rtc_l; [apply (ready_step w)|done].
  - apply failure_steps.
Qed.

Lemma removal_is_steps w id :
  rtc step w {| w_docs := ((remove id (w_docs w) (w_chunks w)).2).1; w_chunks := ((remove id (w_docs w) (w_chunks w)).2).2;
                w_jobs := w_jobs w; w_removed := {[id]} ∪ w_removed w |}.
Proof.
  unfold remove. destruct (delete_record id (w_docs w)) as [b cd'] eqn:E. simpl. eapply rtc_l; [apply (st_remove w id)|].
  eapply rtc_l; [eapply (st_removed _ [] (w_jobs w) id); done|]. simpl. by rewrite E.
Qed.

(** New ids and places that are free: every row is written. *)
Definition free_for (id : string) (cs : list ChunkInput) (ids : list string) cc : Prop :=
  NoDup (map ci_index cs) ∧ NoDup ids ∧ (∀ i, i ∈ ids → docs cc !! i = None) ∧
  ∀ k row, docs cc !! k = Some row → kc_documentId row = id → kc_index row ∉ map ci_index cs.

Lemma insertMany_free id now cs cs' ids ids' cc : length ids = length cs → free_for id (cs ++ cs') (ids ++ ids') cc →
  (insertMany (zip ids (map (chunk_row id now) cs)) cc).1 = true ∧ free_for id cs' ids' (insertMany (zip ids (map (chunk_row id now) cs)) cc).2.
Proof.
  revert ids cc. induction cs as [|c cs IH]; intros [|i ids] cc Hl Hf; try done. cbn [map zip_with zip insertMany].
  destruct Hf as (Hn & Hni & Hids & Hfree). simpl in Hn, Hni. apply NoDup_cons in Hn as [Hc Hn], Hni as [Hi Hni].
  destruct (insertOne_cases same_place i (chunk_row id now c) cc) as [(Eok & _ & _ & Ed)|(Eok & _)]; destruct (insertOne _ _ _ _) as [b cc1] eqn:E; simpl in Eok; subst b.
  - simpl in Ed. apply IH; [simpl in Hl; lia|]. split_and!; [done|done| |].
    + intros k Hk. rewrite Ed, lookup_insert_ne by (intros ->; done). apply Hids. by right.
    + intros k row Hr Hid Hin. rewrite Ed in Hr. apply lookup_insert_Some in Hr as [[<- <-]|[_ Hr]]; [done|]. apply (Hfree k row Hr Hid). by right.
  - exfalso. destruct (insertOne_ok same_place i (chunk_row id now c) cc) as [Ht _]; [apply Hids; by left| |by rewrite E in Ht].
    intros k row Hr. unfold same_place. destruct (String.eqb_spec (kc_documentId (chunk_row id now c)) (kc_documentId row)) as [Ei|]; [|done].
    destruct (Nat.eqb_spec (kc_index (chunk_row id now c)) (kc_index row)) as [En|]; [|done]. exfalso. apply (Hfree k row Hr); [by symmetry|]. rewrite <-En. by left.
Qed.

Lemma append_free fuel id cs ids now cc : (length cs <= fuel)%nat → length ids = length cs → free_for id cs ids cc → (append_batches fuel id cs ids now cc).1 = true.
Proof.
  revert cs ids cc. induction fuel as [|fuel IH]; intros cs ids cc Hf Hl Hfree; [by destruct cs|]. destruct cs as [|c cs]; [done|]. cbn [append_batches].
  destruct (insertMany_free id now (take INSERT_BATCH (c :: cs)) (drop INSERT_BATCH (c :: cs)) (take INSERT_BATCH ids) (drop INSERT_BATCH ids) cc) as [Hok Hrest];
    [rewrite !length_take; lia|by rewrite !take_drop|].
  destruct (insertMany _ cc) as [b cc1]. simpl in Hok. subst b. apply IH; [rewrite length_drop; unfold INSERT_BATCH; simpl in *; lia|rewrite !length_drop; lia|done].
Qed.

Lemma inputs_numbered t inputs : inputs_for t inputs → NoDup (map ci_index inputs).
Proof.
  intros [Hp _]%inputs_places. assert (map ci_index inputs = map fst (places t)) as -> by (by rewrite <-Hp, map_map). rewrite places_index. apply NoDup_seq.
Qed.

(** An upload that is readable, within the limits and new is ready when its request
    returns: under the ids that were drawn, with the text, its hash and size. *)
Theorem uploads_become_ready w model refusal id ids now later input t chunks :
  reachable w → unused id w → prepare input = Ret (t, chunks) → findByHash (sha256 t) (w_docs w) = None →
  length ids = length chunks → NoDup ids → (∀ i, i ∈ ids → docs (w_chunks w) !! i = None) →
  ∃ d cd' cc', ingestDocument (Ret model) refusal id ids now later input (w_docs w) (w_chunks w) = (Ret (io_created id d), (cd', cc')) ∧
    docs cd' !! id = Some d ∧ kd_status d = ds_ready ∧ kd_text d = t ∧ kd_contentHash d = sha256 t ∧ kd_sizeBytes d = byteLength t ∧
    kd_chunkCount d = Z.of_nat (length chunks) ∧ map (λ r, kc_place r.2) (read id 0 (length chunks) cc') = map place chunks.
Proof.
  intros Hreach Hun Hp Hno Hl Hnd Hids. pose proof Hp as (Ec & _)%prepare_ret.
  destruct (ingestDocument (Ret model) refusal id ids now later input (w_docs w) (w_chunks w)) as [out [cd' cc']] eqn:E.
  assert (reachable (with_rows w cd' cc')) as Hr'.
  { destruct Hreach as (w0 & H0' & Hs). exists w0. split; [done|]. etrans; [done|]. eapply ingestion_is_steps; [done| |done]. intros ? ? Hp'. congruence. }
  unfold ingestDocument in E. rewrite Hp in E. set (record := {| cd_title := _ |}) in E.
  destruct (insertOne_ok same_content id (new_document record now) (w_docs w)) as [Eok Ed]; [apply Hun| |].
  { intros k d Hd. pose proof (find_one_none _ _ _ _ Hno Hd) as Hf. unfold same_content. simpl. rewrite (String.eqb_sym (sha256 t)), andb_comm. exact Hf. }
  unfold createDocument in E. destruct (insertOne _ _ _ _) as [b cd1]. simpl in Eok, Ed. subst b.
  assert (inputs_for t (chunk_inputs model chunks)) as Hin by (by apply chunk_inputs_for).
  assert (length (chunk_inputs model chunks) = length chunks) as El by (unfold chunk_inputs; by rewrite length_imap).
  assert ((appendChunks id (chunk_inputs model chunks) ids later (w_chunks w)).1 = true) as Hok.
  { apply append_free; [done|lia|]. split_and!; [by eapply inputs_numbered|done|done|]. intros k row Hrow Hid. by destruct (proj1 (proj2 (proj2 Hun)) k row Hrow). }
  destruct (appendChunks _ _ _ _ _) as [b cc1]. simpl in Hok. subst b.
  destruct (updateOne_hit id (λ _, true) (set_ready (Z.of_nat (length chunks)) (be_key <$> model) later) cd1 (new_document record now)) as [_ Eu];
    [by rewrite Ed, lookup_insert_eq|done|].
  set (d := set_ready (Z.of_nat (length chunks)) (be_key <$> model) later (new_document record now)) in *.
  assert (docs (markReady id (Z.of_nat (length chunks)) (be_key <$> model) later cd1) !! id = Some d) as Hd by (unfold markReady; by rewrite Eu, lookup_insert_eq).
  injection E as <- <- <-. exists d, (markReady id (Z.of_nat (length chunks)) (be_key <$> model) later cd1), cc1.
  split; [unfold findById; by rewrite Hd|]. split_and!; [done..|].
  apply knowledge_reachable_inv in Hr'. pose proof (kn_read _ id d 0 (length chunks) Hr' Hd eq_refl (proj1 (proj2 Hun))) as Hread. simpl in Hread.
  rewrite Hread. unfold places, parts_of_text. change (kd_text d) with t. rewrite Ec. simpl. rewrite drop_0, take_ge; [done|]. by rewrite length_map.
Qed.
End Knowledge.

(** A header holds a name without quotes or line breaks, never empty. *)
Lemma plain_names inside s : str_all plain_char (plain_name inside s) = true.
Proof.
  revert inside. induction s as [|c s IH]; intros inside; [done|]. cbn [plain_name]. destruct (plain_char c) eqn:E; [cbn [str_all]; by rewrite E, IH|].
  destruct inside; [apply IH|]. cbn [str_all]. by rewrite IH.
Qed.
Lemma download_names_are_plain fileName :
  str_all plain_char (safe_name fileName) = true ∧ (1 <= String.length (safe_name fileName) <= 120)%nat.
Proof.
  unfold safe_name. destruct (String.eqb_spec (str_take 120 (plain_name false fileName)) "") as [|Hne]; [split; [done|simpl; lia]|]. split.
  - apply str_all_take, plain_names.
  - rewrite str_take_length. split; [|lia]. destruct (plain_name false fileName); [by destruct Hne|simpl; lia].
Qed.

(** ** Some uploads *)

Notation docs_of := (gmap string KnowledgeDocumentDoc).
Notation rows_of := (gmap string KnowledgeChunkDoc).
Definition hours : text := [87; 101; 32; 111; 112; 101; 110; 32; 97; 116; 32; 57; 46].
Definition hours_input : CreateDocumentInput := {|
  cd_title := "Hours"; cd_fileName := "hours.md"; cd_mimeType := "text/markdown"; cd_sizeBytes := 13; cd_contentHash := "h"; cd_text := hours; cd_createdBy := "usr_1" |}.
Definition hours_part : ChunkInput := {| ci_index := 0; ci_content := hours; ci_embeddings := None |}.
Definition nothing_yet : World (CD := docs_of) (CC := rows_of) := {| w_docs := ∅; w_chunks := ∅; w_jobs := []; w_removed := ∅ |}.
Definition hours_doc : KnowledgeDocumentDoc := new_document hours_input 1.
Definition hours_ready : KnowledgeDocumentDoc := set_ready 1 None 2 hours_doc.
Definition hours_row : KnowledgeChunkDoc := chunk_row "doc_1" 2 hours_part.
Definition uploading : World (CD := docs_of) (CC := rows_of) :=
  {| w_docs := {["doc_1" := hours_doc]}; w_chunks := ∅; w_jobs := [jb_ingest "doc_1" [hours_part] 1 None]; w_removed := ∅ |}.
Definition uploaded : World (CD := docs_of) (CC := rows_of) :=
  {| w_docs := {["doc_1" := hours_ready]}; w_chunks := {["chk_1" := hours_row]}; w_jobs := []; w_removed := ∅ |}.

Lemma uploading_reachable : rtc step nothing_yet uploading.
Proof.
  apply rtc_once. apply (st_create nothing_yet "doc_1" hours_input [hours_part] None 1 true {["doc_1" := hours_doc]}).
  - split_and!; [done|set_solver|done|]. intros j Hj. by apply elem_of_nil in Hj.
  - eexists. split; vm_compute; reflexivity.
  - reflexivity.
Qed.
Lemma uploaded_reachable : reachable uploaded.
Proof.
  exists nothing_yet. split; [done|]. etrans; [exact uploading_reachable|].
  eapply rtc_l; [apply (st_append uploading [] [] "doc_1" [hours_part] 1 None ["chk_1"] 2 "" true {["chk_1" := hours_row]}); done|].
  eapply rtc_l; [by apply (st_ready _ [] [] "doc_1" 1 None 2)|]. apply rtc_refl.
Qed.


(** Every row matches a query: an index that knows no words. *)
Lemma answers_quote_ready_documents_witness :
  let hits := searchKnowledge (λ _, "we open at nine") (λ q, q) (λ _ _, true) (λ _ _, 1%Q) None "open" 5 (w_docs uploaded) (w_chunks uploaded) in
  map sh_title hits = ["Hours"] ∧ ∀ h, h ∈ hits → (sh_index h, sh_content h) ∈ places hours.
Proof.
  destruct (answers_quote_ready_documents (λ _, "we open at nine") (λ q, q) (λ _ _, true) (λ _ _, 1%Q) uploaded None "open" 5 uploaded_reachable) as (_ & _ & _ & Hh).
  split; [vm_compute; reflexivity|]. intros h Hin. destruct (Hh h Hin) as (d & Hd & _ & _ & Hp).
  change (({["doc_1" := hours_ready]} : docs_of) !! sh_documentId h = Some d) in Hd. apply lookup_singleton_Some in Hd as [_ <-]. exact Hp.
Defined.

Definition plain_extract (_ : DocumentKind) (_ : string) : outcome ExtractError text := Ret hours.
Definition hours_upload : IngestInput := {| ig_title := "Hours"; ig_fileName := "hours.md"; ig_mimeType := None; ig_bytes := "We open at 9."; ig_createdBy := "usr_1" |}.
Lemma nothing_reachable : reachable nothing_yet.
Proof. exists nothing_yet. split; [done|apply rtc_refl]. Qed.
Lemma uploads_become_ready_witness :
  ∃ d cd' cc', ingestDocument (λ _, "") plain_extract (λ _, "h") (Ret None) "" "doc_1" ["chk_1"] 1 2 hours_upload (w_docs nothing_yet) (w_chunks nothing_yet) =
    (Ret (io_created "doc_1" d), (cd', cc')) ∧ kd_status d = ds_ready ∧ kd_chunkCount d = 1.
Proof.
  destruct (uploads_become_ready (λ _, "") plain_extract (λ _, "h") nothing_yet None "" "doc_1" ["chk_1"] 1 2 hours_upload hours [{| tc_index := 0; tc_content := hours |}])
    as (d & cd' & cc' & E & _ & Hs & _ & _ & _ & Hc & _).
  - exact nothing_reachable.
  - split_and!; [done|set_solver|done|]. intros j Hj. by apply elem_of_nil in Hj.
  - vm_compute. reflexivity.
  - reflexivity.
  - reflexivity.
  - apply NoDup_singleton.
  - done.
  - by exists d, cd', cc'.
Defined.

(** A document removed while its parts are being written: its record is gone, and the
    parts that are written afterwards stay. *)
Definition left_behind : World (CD := docs_of) (CC := rows_of) :=
  {| w_docs := ∅; w_chunks := {["chk_1" := hours_row]}; w_jobs := []; w_removed := {["doc_1"]} |}.
Example removals_leave_parts_behind : reachable left_behind.
Proof.
  exists nothing_yet. split; [done|]. etrans; [exact uploading_reachable|].
  eapply rtc_l; [apply (st_remove uploading "doc_1")|].
  eapply rtc_l; [eapply (st_removed _ [] _ "doc_1"); reflexivity|].
  eapply rtc_l; [apply (st_append _ [] [] "doc_1" [hours_part] 1 None ["chk_1"] 2 "" true {["chk_1" := hours_row]}); done|].
  eapply rtc_l; [by apply (st_ready _ [] [] "doc_1" 1 None 2)|].
  apply rtc_refl.
Qed.

(** A request that stops in the middle leaves its document as it is; the same content is
    then answered with that document, which never becomes ready. *)
Definition stopped : World (CD := docs_of) (CC := rows_of) := {| w_docs := {["doc_1" := hours_doc]}; w_chunks := ∅; w_jobs := []; w_removed := ∅ |}.
Example stopped_uploads_block_the_next :
  reachable stopped ∧
  (ingestDocument (λ _, "") plain_extract (λ _, "h") (Ret None) "" "doc_2" ["chk_2"] 3 4 hours_upload (w_docs stopped) (w_chunks stopped)).1 =
    Ret (io_duplicate "doc_1" hours_doc) ∧ kd_status hours_doc = ds_ingesting.
Proof.
  split; [|split; vm_compute; reflexivity]. exists nothing_yet. split; [done|]. etrans; [exact uploading_reachable|].
  eapply rtc_l; [by apply (st_stop uploading [] (jb_ingest "doc_1" [hours_part] 1 None) [])|]. apply rtc_refl.
Qed.

(** A removal that stops after its first command leaves a document that says it has a
    part and has none. *)
Definition hollow : World (CD := docs_of) (CC := rows_of) := {| w_docs := {["doc_1" := hours_ready]}; w_chunks := ∅; w_jobs := []; w_removed := {["doc_1"]} |}.
Example interrupted_removals_hollow_a_document :
  reachable hollow ∧ tool_read (λ _, "") "doc_1" None None (w_docs hollow) (w_chunks hollow) = ("Hours (1 parts)" +:+ empty_line, false).
Proof.
  split; [|vm_compute; reflexivity]. destruct uploaded_reachable as (w0 & Hi & Hs). exists w0. split; [done|]. etrans; [exact Hs|].
  eapply rtc_l; [apply (st_remove uploaded "doc_1")|].
  eapply rtc_l; [eapply (st_stop _ [] (jb_remove "doc_1") []); reflexivity|].
  apply rtc_refl.
Qed.

(** When the reply to [markReady] is lost, the ingestion goes on as for a failure, and its
    next command deletes the parts of a document that is ready. *)
Example unheard_success_hollows_a_document :
  docs (w_docs uploaded) !! "doc_1" = Some hours_ready ∧ kd_status hours_ready = ds_ready ∧
  (w_docs uploaded, delete_chunks "doc_1" (w_chunks uploaded)) = (w_docs hollow, w_chunks hollow).
Proof. split_and!; vm_compute; reflexivity. Qed.

(** The name that every object has is a format. *)
Example inherited_formats : kindOf "notes.constructor" None = Some (dk_inherited "constructor") ∧ kindOf "photo.png" (Some "image/png") = None.
Proof. split; vm_compute; reflexivity. Qed.

(** A title that was typed is cut without an ellipsis; one from a file name ends in it. *)
Fixpoint xs (n : nat) : string := match n with O => "" | S k => String "x" (xs k) end.
Example typed_titles_are_cut :
  (∃ u, fromForm (Some {| uf_name := "a.md"; uf_size := 1; uf_type := ""; uf_bytes := "a" |}) (Some (xs 201)) = Ret u ∧ up_title u = xs 200) ∧
  titleFromFileName (xs 201) = xs 199 +:+ ellipsis ∧ titleFromFileName "opening_hours-2024.md" = "opening hours 2024".
Proof. split; [eexists; split; vm_compute; reflexivity|]. split; vm_compute; reflexivity. Qed.
