(* ===== verification/Installs.v ===== *)
(** * Connecting a chat platform

    Models how a workspace comes to a connection: the state that rides through a
    platform's consent screen (lib/install-state.ts), the deployment's own apps
    (lib/slack-app.ts, discord-app.ts, telegram-bot.ts, whatsapp-signup.ts), the
    callbacks and the routes under app/api that begin, finish and end a connection.
    Connections are those of [Channels]; the vault is a map from the ids of
    credentials to what they hold ([Credentials] shows how it is kept); the platforms
    are functions from a request to its answer.  HMAC, base64 and the encoding of
    forms are arguments. *)
From S2P Require Import Prelude Json JsonText Text Mongo Billing Guard Jwt Channels ChatApprovals Inbound McpOAuth Adapters Webhooks.
#[local] Open Scope host_scope.

(** ** The state of an install (lib/install-state.ts) *)

Definition INSTALL_STATE_TTL_SECONDS : Z := 10 * 60.
Record PendingInstall := { pi_workspaceId : string; pi_agentId : string; pi_userId : string }.

Section State.
Context (b64url unb64url : string → string) (hmac : string → string → string).

Definition state_options (issuer audience : string) (p : PendingInstall) (nonce : string) : SignOptions := {|
  so_issuer := issuer; so_audience := audience; so_subject := pi_userId p; so_expiresInSeconds := INSTALL_STATE_TTL_SECONDS;
  so_claims := [("ws", VString (pi_workspaceId p)); ("agent", VString (pi_agentId p)); ("nonce", VString nonce)] |}.
Definition signInstallState (secret issuer audience : string) (p : PendingInstall) (nonce : string) (nowMs : Z) : string :=
  signHs256 b64url hmac secret (state_options issuer audience p nonce) nowMs.

Definition read_options (issuer audience : string) : VerifyOptions :=
  {| vo_issuer := [issuer]; vo_audience := audience; vo_clockToleranceSeconds := None; vo_nonce := None |}.
(** [Throw] is an exception that is not a [JwtError] and goes on: a header or claims that
    are null have no properties. *)
Definition readInstallState (state secret issuer audience : string) (nowMs : Z) : outcome unit (option PendingInstall) :=
  match verifyHs256 unb64url hmac state secret (read_options issuer audience) nowMs with
  | Ret claims => match own claims "ws", own claims "agent", own claims "sub" with
                  | VString ws, VString agent, VString sub => Ret (Some {| pi_workspaceId := ws; pi_agentId := agent; pi_userId := sub |})
                  | _, _, _ => Ret None
                  end
  | Throw je_type => Throw tt
  | Throw _ => Ret None
  end.
End State.

(** ** The deployment's own apps *)

Definition Settings := string → option string.

Definition SLACK_AUDIENCE : string := "slack-install".
Definition DISCORD_AUDIENCE : string := "discord-install".
Definition SLACK_CALLBACK_PATH : string := "/api/channels/slack/callback".
Definition DISCORD_CALLBACK_PATH : string := "/api/channels/discord/callback".
Definition SLACK_AUTHORIZE_URL : string := "https://slack.com/oauth/v2/authorize".
Definition SLACK_ACCESS_URL : string := "https://slack.com/api/oauth.v2.access".
Definition DISCORD_AUTHORIZE_URL : string := "https://discord.com/oauth2/authorize".
Definition DISCORD_API : string := "https://discord.com/api/v10".
Definition SLACK_INSTALL_SCOPES : list string := ["chat:write"; "im:history"; "app_mentions:read"; "files:read"; "files:write"].
Definition DISCORD_INSTALL_SCOPES : list string := ["bot"; "applications.commands"; "identify"].
Definition DISCORD_PERMISSIONS : Z := Z.lor (Z.lor (Z.shiftl 1 10) (Z.shiftl 1 11)) (Z.shiftl 1 14).
Definition GUILD_INSTALL : Z := 0.
Definition DISCORD_ONE_PRESS : bool := false.

Record SlackApp := { sa_clientId : string; sa_clientSecret : string; sa_signingSecret : string }.
Definition slackApp (settings : Settings) : option SlackApp :=
  clientId ← settings "slack_client_id"; clientSecret ← settings "slack_client_secret"; signingSecret ← settings "slack_signing_secret";
  Some {| sa_clientId := clientId; sa_clientSecret := clientSecret; sa_signingSecret := signingSecret |}.
Record DiscordApp := { da_applicationId : string; da_clientSecret : string; da_publicKey : string; da_botToken : string }.
(** [one_press] is [DISCORD_ONE_PRESS]. *)
Definition discordApp (one_press : bool) (settings : Settings) : option DiscordApp :=
  if negb one_press then None
  else applicationId ← settings "discord_application_id"; clientSecret ← settings "discord_client_secret"; publicKey ← settings "discord_public_key";
       botToken ← settings "discord_bot_token";
       Some {| da_applicationId := applicationId; da_clientSecret := clientSecret; da_publicKey := publicKey; da_botToken := botToken |}.
Record TelegramBot := { tb_token : string; tb_webhookSecret : string }.
Definition telegramWebhookSecret (hmac64 : string → string → string) (token : string) : string := hmac64 token "hive-telegram-webhook".
Definition telegramBot (hmac64 : string → string → string) (settings : Settings) : option TelegramBot :=
  token ← settings "telegram_bot_token"; Some {| tb_token := token; tb_webhookSecret := telegramWebhookSecret hmac64 token |}.
Record WhatsAppSignup := { ws_appId : string; ws_appSecret : string; ws_configId : string; ws_verifyToken : string }.
Definition whatsappSignup (verify_token : VerifyContext → string) (settings : Settings) : option WhatsAppSignup :=
  appId ← settings "meta_app_id"; appSecret ← settings "meta_app_secret"; configId ← settings "meta_whatsapp_config_id";
  Some {| ws_appId := appId; ws_appSecret := appSecret; ws_configId := configId;
          ws_verifyToken := default (verify_token {| vc_webhookUrl := ""; vc_webhookSecret := appSecret |}) (settings "meta_whatsapp_verify_token") |}.
(** Meta's probe of the shared address. *)
Definition answerSharedProbe (signup : WhatsAppSignup) (query : string → option string) : option string :=
  match query "hub.mode", query "hub.verify_token", query "hub.challenge" with
  | Some "subscribe", Some presented, Some challenge => if timingSafeEqualString (ws_verifyToken signup) presented then Some challenge else None
  | _, _, _ => None
  end.

(** Where a person is sent, with the parameters of the address. *)
Definition slack_authorization (app : SlackApp) (redirectUri state : string) : string * list (string * string) :=
  (SLACK_AUTHORIZE_URL, [("client_id", sa_clientId app); ("scope", join "," SLACK_INSTALL_SCOPES); ("redirect_uri", redirectUri); ("state", state)]).
Definition discord_authorization (app : DiscordApp) (redirectUri state : string) : string * list (string * string) :=
  (DISCORD_AUTHORIZE_URL,
   [("client_id", da_applicationId app); ("scope", join " " DISCORD_INSTALL_SCOPES); ("permissions", pretty DISCORD_PERMISSIONS);
    ("integration_type", pretty GUILD_INSTALL); ("response_type", "code"); ("redirect_uri", redirectUri); ("state", state)]).

(** ** Asking the platforms *)

(** A request, and what comes of it: the body is the JSON of the answer, undefined when
    it is none.  Fields of an answer have their declared types or count as absent. *)
Record HttpRequest := { hr_method : string; hr_url : string; hr_authorization : option string; hr_form : list (string * string) }.
Inductive Reply := rp_unreachable (why : string) | rp_answer (ok : bool) (status : Z) (body : value).
Definition Net := HttpRequest → Reply.

Record SlackInstallation := {
  si_botToken : string; si_botUserRef : string; si_appRef : string; si_teamRef : string; si_teamName : string; si_installerRef : string; si_scopes : list string }.
Record DiscordInstallation := { di_guildRef : string; di_guildName : string; di_installerRef : string; di_scopes : list string }.
Definition ACCESS_ERRORS : list (string * string) := [
  ("invalid_code", "Slack did not accept the code. It may have been used already; press the button again.");
  ("code_already_used", "That consent was already used. Press the button again.");
  ("invalid_client_id", "This deployment's Slack client id is wrong. Check SLACK_CLIENT_ID.");
  ("bad_client_secret", "This deployment's Slack client secret is wrong. Check SLACK_CLIENT_SECRET.");
  ("bad_redirect_uri", "Slack did not recognise the redirect URL. Add it to the app under OAuth & Permissions.");
  ("oauth_authorization_url_mismatch", "Slack did not recognise the redirect URL. Add it to the app under OAuth & Permissions.")].
(** The arrow of the last message is written as the bytes of its encoding. *)
Definition arrow : string := String (Ascii.ascii_of_nat 226) (String (Ascii.ascii_of_nat 134) (String (Ascii.ascii_of_nat 146) "")).
Definition TOKEN_ERRORS : list (string * string) := [
  ("invalid_grant", "Discord did not accept the code. It may have been used already; press the button again.");
  ("invalid_client", "This deployment's Discord client secret is wrong. Check DISCORD_CLIENT_SECRET.");
  ("invalid_request", "Discord did not recognise the redirect URL. Add it to the application under OAuth2 " +:+ arrow +:+ " Redirects.")].
Definition SIGNUP_ERRORS : list (Z * string) := [
  (100, "Meta did not accept the code. It lasts thirty seconds; press the button again.");
  (190, "Meta rejected this deployment's app credentials. Check META_APP_ID and META_APP_SECRET.");
  (10, "Meta says this app may not do that yet: while the app is in development mode only its admins and testers can connect, and onboarding other businesses needs App Review for whatsapp_business_management and whatsapp_business_messaging.");
  (200, "Meta says this account may not be connected: the person needs to administer the WhatsApp Business account.")].
(** [split(sep).map(trim).filter(s => s !== '')]. *)
Definition scopes_of (sep : Ascii.ascii) (s : string) : list string := List.filter (λ p, negb (String.eqb p "")) (map js_trim (str_split sep s)).
Definition http_code (status : Z) : string := "http_" +:+ pretty status.
Definition null_error : string := "Cannot read properties of null".

Definition is_undefined (v : value) : bool := match v with VUndefined => true | _ => false end.
Definition is_null (v : value) : bool := match v with VNull => true | _ => false end.

Section Exchange.
Context (base64 : string → string) (net : Net).

Definition basic (id secret : string) : string := "Basic " +:+ base64 (id +:+ ":" +:+ secret).
Definition bearer (token : string) : string := "Bearer " +:+ token.

Definition exchangeSlackCode (app : SlackApp) (code redirectUri : string) : outcome string SlackInstallation :=
  match net {| hr_method := "POST"; hr_url := SLACK_ACCESS_URL; hr_authorization := Some (basic (sa_clientId app) (sa_clientSecret app));
               hr_form := [("code", code); ("redirect_uri", redirectUri)] |} with
  | rp_unreachable why => Throw ("Could not reach Slack: " +:+ why)
  | rp_answer _ status body =>
      if negb (is_true body "ok") then
        let code_ := default (http_code status) (str_of body "error") in
        Throw (default ("Slack refused the install: " +:+ code_ +:+ ".") (jm_get code_ ACCESS_ERRORS))
      else match str_of body "access_token", str_of body "token_type" with
      | Some token, Some "bot" =>
          let team := own body "team" in
          match str_of team "id", str_of body "bot_user_id", str_of body "app_id" with
          | Some teamRef, Some botUser, Some appRef =>
              Ret {| si_botToken := token; si_botUserRef := botUser; si_appRef := appRef; si_teamRef := teamRef; si_teamName := default teamRef (str_of team "name");
                     si_installerRef := default "" (str_of (own body "authed_user") "id"); si_scopes := scopes_of "," (default "" (str_of body "scope")) |}
          | _, _, _ => Throw "Slack answered without saying which workspace was installed."
          end
      | _, _ => Throw "Slack answered without a bot token. The app may be asking for user scopes instead of bot scopes."
      end
  end.

(** Who pressed the button, when Discord says. *)
Definition discord_installer (token : option string) : string :=
  match token with
  | None => ""
  | Some t => match net {| hr_method := "GET"; hr_url := DISCORD_API +:+ "/users/@me"; hr_authorization := Some (bearer t); hr_form := [] |} with
              | rp_answer true _ user => default "" (str_of user "id")
              | _ => ""
              end
  end.
Definition exchangeDiscordCode (app : DiscordApp) (code redirectUri : string) : outcome string DiscordInstallation :=
  match net {| hr_method := "POST"; hr_url := DISCORD_API +:+ "/oauth2/token"; hr_authorization := Some (basic (da_applicationId app) (da_clientSecret app));
               hr_form := [("grant_type", "authorization_code"); ("code", code); ("redirect_uri", redirectUri)] |} with
  | rp_unreachable why => Throw ("Could not reach Discord: " +:+ why)
  | rp_answer ok status body =>
      if negb ok || is_undefined body then
        let code_ := default (http_code status) (str_of body "error") in
        Throw (default (js_trim ("Discord refused the install: " +:+ code_ +:+ ". " +:+ default "" (str_of body "error_description"))) (jm_get code_ TOKEN_ERRORS))
      else if is_null body then Throw null_error
      else let guild := own body "guild" in
      match str_of guild "id" with
      | None => Throw "Discord did not say which server the bot was added to. The authorization may have been cancelled before a server was picked."
      | Some guildRef =>
          Ret {| di_guildRef := guildRef; di_guildName := default guildRef (str_of guild "name"); di_installerRef := discord_installer (str_of body "access_token");
                 di_scopes := scopes_of " " (default "" (str_of body "scope")) |}
      end
  end.

(** *** WhatsApp *)
Context (search : list (string * string) → string) (graph_version : string).
Definition GRAPH : string := "https://graph.facebook.com/" +:+ graph_version.
Definition graph (method path : string) (token : option string) (form : list (string * string)) : outcome string value :=
  match net {| hr_method := method; hr_url := GRAPH +:+ path; hr_authorization := bearer <$> token; hr_form := form |} with
  | rp_unreachable why => Throw ("Could not reach Meta: " +:+ why)
  | rp_answer ok status body =>
      let error := own body "error" in
      if negb ok || negb (is_undefined error) then
        Throw (default (js_trim ("Meta refused the request (" +:+ pretty status +:+ "). " +:+ default "" (str_of error "message")))
                 (num_of error "code" ≫= λ c, jm_get c SIGNUP_ERRORS))
      else Ret body
  end.
Definition exchangeSignupCode (signup : WhatsAppSignup) (code : string) : outcome string string :=
  do answer <- graph "GET" ("/oauth/access_token?" +:+ search [("client_id", ws_appId signup); ("client_secret", ws_appSecret signup); ("code", code)]) None [];
  match str_of answer "access_token" with Some t => Ret t | None => Throw "Meta answered without a token." end.
Record SignupAssets := { as_phoneNumberId : string; as_wabaId : string }.
Definition shared_account (debug : value) : option string :=
  scope ← find (λ s, bool_decide (str_of s "scope" = Some "whatsapp_business_management")) (list_of (own debug "data") "granular_scopes");
  match list_of scope "target_ids" with VString id :: _ => Some id | _ => None end.
Definition discoverSignupAssets (signup : WhatsAppSignup) (token : string) : outcome string SignupAssets :=
  do debug <- graph "GET" ("/debug_token?" +:+ search [("input_token", token); ("access_token", ws_appId signup +:+ "|" +:+ ws_appSecret signup)]) None [];
  match shared_account debug with
  | None => Throw "Meta did not say which WhatsApp Business account was shared. Press the button again and pick an account."
  | Some wabaId =>
      do numbers <- graph "GET" ("/" +:+ wabaId +:+ "/phone_numbers") (Some token) [];
      match list_of numbers "data" with
      | first :: _ => match str_of first "id" with
                      | Some phone => Ret {| as_phoneNumberId := phone; as_wabaId := wabaId |}
                      | None => Throw "That WhatsApp Business account has no phone number yet. Add one in Meta Business Suite and press the button again."
                      end
      | [] => Throw "That WhatsApp Business account has no phone number yet. Add one in Meta Business Suite and press the button again."
      end
  end.
Definition subscribeAccount (token wabaId : string) : outcome string unit :=
  do _ <- graph "POST" ("/" +:+ wabaId +:+ "/subscribed_apps") (Some token) []; Ret tt.
Definition registerNumber (token phoneNumberId pin : string) : outcome string unit :=
  do _ <- graph "POST" ("/" +:+ phoneNumberId +:+ "/register") (Some token) [("messaging_product", "whatsapp"); ("pin", pin)]; Ret tt.
End Exchange.

(** [String(randomInt(0, 1_000_000)).padStart(6, '0')], for the number drawn. *)
Fixpoint zeros (n : nat) : string := match n with O => "" | S k => String "0" (zeros k) end.
Definition newRegistrationPin (drawn : Z) : string := let s := pretty drawn in zeros (6 - String.length s) +:+ s.

(** ** The routes *)

(** What a credential holds, and what the routes answer. *)
(** A failure of an adapter: only a [ChannelError] says something to the person. *)
Record PlatformFailure := { pf_channel : bool; pf_message : string }.
Definition channel_message (f : PlatformFailure) (otherwise : string) : string := if pf_channel f then pf_message f else otherwise.

Record Stored := { cr_name : string; cr_plaintext : string; cr_createdBy : string; cr_hint : string }.
Record Shown := {
  sw_id : string; sw_channel : string; sw_status : ChannelStatus; sw_handle : string; sw_displayName : string; sw_agentId : string; sw_webhookUrl : string;
  sw_installed : bool; sw_team : option string; sw_verifyToken : option string; sw_registered : option string; sw_connectCode : option string; sw_lastError : option string }.
Inductive Answer :=
| an_back (workspaceId agentId : option string) (query : list (string * string))
| an_refused (status : Z) (code message : string)
| an_full (why : Refusal)
| an_begun (url : string * list (string * string))
| an_shown (status : Z) (s : Shown)
| an_disconnected
| an_registered (id url : string)
| an_crash.

(** What a platform's adapter is and needs. *)
Record AdapterInfo := {
  ai_name : string; ai_secondary : option string; ai_extra : option string; ai_compose : option (string → string → string); ai_tokenLabel : option string; ai_verify : bool }.
Definition adapter_info (type : string) : option AdapterInfo :=
  match type with
  | "telegram" => Some {| ai_name := "Telegram"; ai_secondary := None; ai_extra := None; ai_compose := None; ai_tokenLabel := None; ai_verify := false |}
  | "slack" => Some {| ai_name := "Slack"; ai_secondary := Some "Signing secret"; ai_extra := None; ai_compose := None; ai_tokenLabel := None; ai_verify := false |}
  | "discord" => Some {| ai_name := "Discord"; ai_secondary := Some "Application public key"; ai_extra := None; ai_compose := None; ai_tokenLabel := None; ai_verify := false |}
  | "whatsapp" => Some {| ai_name := "WhatsApp"; ai_secondary := Some "App secret"; ai_extra := Some "Phone number ID"; ai_compose := Some WhatsApp.whatsapp_composeToken;
                          ai_tokenLabel := Some "Access token"; ai_verify := true |}
  | "imessage" => Some {| ai_name := "iMessage"; ai_secondary := None; ai_extra := Some "Server address"; ai_compose := Some IMessage.imessage_composeToken;
                          ai_tokenLabel := Some "Server password"; ai_verify := false |}
  | _ => None
  end.

Definition middot : string := String (Ascii.ascii_of_nat 183) "".
Definition named (name team : string) : string := name +:+ " " +:+ middot +:+ " " +:+ team.
Definition bullet : string := String (Ascii.ascii_of_nat 226) (String (Ascii.ascii_of_nat 128) (String (Ascii.ascii_of_nat 162) "")).
(** [slice(-4)]. *)
Definition last4 (s : string) : string := str_drop (String.length s - 4) s.
Definition masked (s : string) : string := bullet +:+ bullet +:+ bullet +:+ bullet +:+ last4 s.
(** [replace(/^@/, '')]. *)
Definition drop_at (s : string) : string := match s with String c r => if Ascii.eqb c "@" then r else s | EmptyString => "" end.
Definition with_name (i : BotIdentity) (name : string) : BotIdentity := {| bi_handle := bi_handle i; bi_displayName := name; bi_botRef := bi_botRef i |}.

Definition CONNECT_CODE_TTL_MS : Z := 30 * 60 * 1000.
Record InstallEnv := {
  ie_base : string; ie_hmacSecret : string; ie_sessionSecret : string; ie_settings : Settings; ie_one_press : bool; ie_net : Net; ie_now : Z;
  ie_agent : string → string → bool; ie_plan : string → Entitlements; ie_binding : string → string → bool;
  ie_identify : string → string → outcome PlatformFailure BotIdentity; ie_register : string → string → VerifyContext → outcome PlatformFailure unit;
  ie_channelId : string; ie_credentialId : string; ie_secondId : string; ie_nonce : string; ie_connectCode : string; ie_randomSecret : string; ie_pin : Z }.
Definition issuer_of (e : InstallEnv) : string := drop_slash (ie_base e).

Record CallbackQuery := { cq_state : option string; cq_code : option string; cq_error : option string; cq_cookie : option string }.

Section Routes.
Context {C CP : Type} `{CollectionLaws ChannelDoc C} `{CollectionLaws ChannelIdentityDoc CP}.
Context (b64url unb64url base64 : string → string) (hmac hmac64 : string → string → string) (decodeURIComponent : string → option string).
Context (search : list (string * string) → string) (graph_version : string).

Record InstallDb := { ib_rows : C; ib_people : CP; ib_vault : gmap string Stored }.
Definition with_rows (c : C) (db : InstallDb) : InstallDb := {| ib_rows := c; ib_people := ib_people db; ib_vault := ib_vault db |}.
(** [credentials.store] and [revoke]. *)
Definition keep (id : string) (s : Stored) (db : InstallDb) : InstallDb :=
  {| ib_rows := ib_rows db; ib_people := ib_people db; ib_vault := <[id := s]> (ib_vault db) |}.
Definition forget (id : string) (db : InstallDb) : InstallDb :=
  {| ib_rows := ib_rows db; ib_people := ib_people db; ib_vault := delete id (ib_vault db) |}.

Definition room_for (e : InstallEnv) (ws : string) (db : InstallDb) : option Refusal :=
  countGateFor (ie_plan e ws) lim_channels (Z.of_nat (count_channels ws (ib_rows db))) 1.
(** A connection of another workspace to the same workspace of a platform. *)
Definition elsewhere (type teamRef ws : string) (db : InstallDb) : bool :=
  match find_one (λ d, String.eqb (ch_type d) type && match ch_install d with Some i => String.eqb (in_teamRef i) teamRef | None => false end &&
                       negb (String.eqb (ch_workspaceId d) ws)) (ib_rows db) with Some _ => true | None => false end.
Definition app_url (e : InstallEnv) (type : string) : string := issuer_of e +:+ default "" (app_path type).

(** [channels.connect] and, when it succeeds, [recordWebhook]. *)
Definition file_connection (e : InstallEnv) (ws : string) (input : CreateChannelInput) (url : string) (db : InstallDb) : outcome unit ChannelDoc * InstallDb :=
  match connect ws (ie_channelId e) input (ie_now e) (ib_rows db) with
  | (Ret row, c) => (Ret row, with_rows (recordWebhook ws (ie_channelId e) url (Some WEBHOOK_SPEC) (ie_now e) c) db)
  | (Throw _, c) => (Throw tt, with_rows c db)
  end.
Definition shown_row (id url : string) (identity : BotIdentity) (row : ChannelDoc) (installed : bool) (team verifyToken lastError : option string) : Shown := {|
  sw_id := id; sw_channel := ch_type row; sw_status := ch_status row; sw_handle := bi_handle identity; sw_displayName := bi_displayName identity;
  sw_agentId := ch_agentId row; sw_webhookUrl := url; sw_installed := installed; sw_team := team; sw_verifyToken := verifyToken; sw_registered := None;
  sw_connectCode := cn_code <$> ch_connect row; sw_lastError := lastError |}.

(** *** Beginning at Slack or Discord *)
Definition AGENT_GONE : Answer := an_refused 404 "not_found" "That agent does not exist.".
Definition pending_of (ws agentId actor : string) : PendingInstall := {| pi_workspaceId := ws; pi_agentId := agentId; pi_userId := actor |}.
Definition slack_begin (e : InstallEnv) (ws agentId actor : string) (db : InstallDb) : Answer :=
  match slackApp (ie_settings e) with
  | None => an_refused 503 "not_configured" "This deployment has no Slack app of its own. Connect Slack with your own app below, or ask whoever runs this deployment to set SLACK_CLIENT_ID, SLACK_CLIENT_SECRET and SLACK_SIGNING_SECRET."
  | Some app =>
      if negb (ie_agent e ws agentId) then AGENT_GONE
      else match room_for e ws db with
           | Some why => an_full why
           | None => an_begun (slack_authorization app (issuer_of e +:+ SLACK_CALLBACK_PATH)
                       (signInstallState b64url hmac (ie_hmacSecret e) (issuer_of e) SLACK_AUDIENCE (pending_of ws agentId actor) (ie_nonce e) (ie_now e)))
           end
  end.
Definition discord_begin (e : InstallEnv) (ws agentId actor : string) (db : InstallDb) : Answer :=
  match discordApp (ie_one_press e) (ie_settings e) with
  | None => an_refused 503 "not_configured" "This deployment has no Discord application of its own. Connect Discord with your own application below, or ask whoever runs this deployment to set DISCORD_APPLICATION_ID, DISCORD_CLIENT_SECRET, DISCORD_PUBLIC_KEY and DISCORD_BOT_TOKEN."
  | Some app =>
      if negb (ie_agent e ws agentId) then AGENT_GONE
      else match room_for e ws db with
           | Some why => an_full why
           | None => an_begun (discord_authorization app (issuer_of e +:+ DISCORD_CALLBACK_PATH)
                       (signInstallState b64url hmac (ie_hmacSecret e) (issuer_of e) DISCORD_AUDIENCE (pending_of ws agentId actor) (ie_nonce e) (ie_now e)))
           end
  end.

(** *** Back from the consent screen *)

(** Whose install this is: the reads of both callbacks before the platform is asked.
    [slug] begins the reasons. *)
Definition back_to (p : PendingInstall) (reason : string) : Answer := an_back (Some (pi_workspaceId p)) (Some (pi_agentId p)) [("error", reason)].
Definition back_with (p : PendingInstall) (reason detail : string) : Answer :=
  an_back (Some (pi_workspaceId p)) (Some (pi_agentId p)) [("error", reason); ("detail", detail)].
Definition nowhere (reason : string) : Answer := an_back None None [("error", reason)].
Definition consented (e : InstallEnv) (slug audience : string) (rq : CallbackQuery) (db : InstallDb) : Answer + (PendingInstall * string) :=
  match match cq_state rq with
        | None => Ret None
        | Some state => readInstallState unb64url hmac state (ie_hmacSecret e) (issuer_of e) audience (ie_now e)
        end with
  | Throw _ => inl an_crash
  | Ret None => inl (nowhere (slug +:+ "_state"))
  | Ret (Some p) =>
      match cq_error rq, cq_code rq with
      | Some _, _ => inl (back_to p (slug +:+ "_denied"))
      | None, None => inl (back_to p (slug +:+ "_incomplete"))
      | None, Some code =>
          match callerFromCookieHeader unb64url hmac decodeURIComponent (ie_sessionSecret e) (issuer_of e) (cq_cookie rq) (ie_now e) with
          | Throw _ => inl an_crash
          | Ret None => inl (back_to p (slug +:+ "_signed_out"))
          | Ret (Some caller) =>
              if negb (String.eqb (ca_userId caller) (pi_userId p)) then inl (back_to p (slug +:+ "_wrong_person"))
              else if negb (ie_agent e (pi_workspaceId p) (pi_agentId p)) then inl (an_back (Some (pi_workspaceId p)) None [("error", slug +:+ "_agent_gone")])
              else match room_for e (pi_workspaceId p) db with
                   | Some _ => inl (back_to p (slug +:+ "_limit"))
                   | None => inr (p, code)
                   end
          end
      end
  end.

(** What is known once everything is checked, before anything is written. *)
Record Granted := { gr_pending : PendingInstall; gr_token : string; gr_team : Install; gr_identity : BotIdentity }.

Definition slack_check (e : InstallEnv) (rq : CallbackQuery) (db : InstallDb) : Answer + Granted :=
  match slackApp (ie_settings e) with
  | None => inl (nowhere "slack_not_configured")
  | Some app =>
      match consented e "slack" SLACK_AUDIENCE rq db with
      | inl a => inl a
      | inr (p, code) =>
          match exchangeSlackCode base64 (ie_net e) app code (issuer_of e +:+ SLACK_CALLBACK_PATH) with
          | Throw why => inl (back_with p "slack_failed" why)
          | Ret i =>
              if elsewhere "slack" (si_teamRef i) (pi_workspaceId p) db then inl (back_to p "slack_elsewhere")
              else match ie_identify e "slack" (si_botToken i) with
                   | Throw why => inl (back_with p "slack_failed" (channel_message why "Slack issued a token that does not work."))
                   | Ret identity => inr {| gr_pending := p; gr_token := si_botToken i; gr_identity := identity;
                       gr_team := {| in_teamRef := si_teamRef i; in_teamName := si_teamName i; in_installerRef := si_installerRef i; in_appRef := si_appRef i; in_accountRef := None |} |}
                   end
          end
      end
  end.
Definition install_input (type : string) (g : Granted) (credentialId displayName : string) : CreateChannelInput := {|
  cc_type := type; cc_agentId := pi_agentId (gr_pending g); cc_modelBindingId := None; cc_tokenCredentialId := credentialId; cc_secretCredentialId := None;
  cc_identity := with_name (gr_identity g) displayName; cc_connectCode := None; cc_connectCodeTtlMs := None; cc_install := Some (gr_team g);
  cc_createdBy := pi_userId (gr_pending g) |}.
Definition slack_file (e : InstallEnv) (g : Granted) (db : InstallDb) : Answer * InstallDb :=
  let p := gr_pending g in
  let db1 := keep (ie_credentialId e) {| cr_name := "Slack bot token"; cr_plaintext := gr_token g; cr_createdBy := pi_userId p;
                                         cr_hint := named (bi_handle (gr_identity g)) (in_teamName (gr_team g)) |} db in
  match file_connection e (pi_workspaceId p) (install_input "slack" g (ie_credentialId e) (named (drop_at (bi_handle (gr_identity g))) (in_teamName (gr_team g)))) (app_url e "slack") db1 with
  | (Ret _, db2) => (an_back (Some (pi_workspaceId p)) (Some (pi_agentId p)) [("channel", "Slack"); ("team", in_teamName (gr_team g))], db2)
  | (Throw _, db2) => (an_crash, db2)
  end.
Definition slack_GET (e : InstallEnv) (rq : CallbackQuery) (db : InstallDb) : Answer * InstallDb :=
  match slack_check e rq db with inl a => (a, db) | inr g => slack_file e g db end.

Definition discord_check (e : InstallEnv) (rq : CallbackQuery) (db : InstallDb) : Answer + (DiscordApp * Granted) :=
  match discordApp (ie_one_press e) (ie_settings e) with
  | None => inl (nowhere "discord_not_configured")
  | Some app =>
      match consented e "discord" DISCORD_AUDIENCE rq db with
      | inl a => inl a
      | inr (p, code) =>
          match exchangeDiscordCode base64 (ie_net e) app code (issuer_of e +:+ DISCORD_CALLBACK_PATH) with
          | Throw why => inl (back_with p "discord_failed" why)
          | Ret i =>
              if elsewhere "discord" (di_guildRef i) (pi_workspaceId p) db then inl (back_to p "discord_elsewhere")
              else match ie_identify e "discord" (da_botToken app) with
                   | Throw why => inl (back_with p "discord_failed" (channel_message why "The deployment's Discord bot token does not work."))
                   | Ret identity => inr (app, {| gr_pending := p; gr_token := da_botToken app; gr_identity := identity;
                       gr_team := {| in_teamRef := di_guildRef i; in_teamName := di_guildName i; in_installerRef := di_installerRef i; in_appRef := da_applicationId app; in_accountRef := None |} |})
                   end
          end
      end
  end.
(** The address is told to Discord, and recorded or the failure is. *)
Definition told (e : InstallEnv) (ws type token secret url : string) (c : C) : C :=
  match ie_register e type token {| vc_webhookUrl := url; vc_webhookSecret := secret |} with
  | Ret _ => recordWebhook ws (ie_channelId e) url (Some WEBHOOK_SPEC) (ie_now e) c
  | Throw why => recordFailure ws (ie_channelId e) (pf_message why) (ie_now e) c
  end.
Definition discord_file (e : InstallEnv) (app : DiscordApp) (g : Granted) (db : InstallDb) : Answer * InstallDb :=
  let p := gr_pending g in
  let db1 := keep (ie_credentialId e) {| cr_name := "Discord bot token"; cr_plaintext := gr_token g; cr_createdBy := pi_userId p;
                                         cr_hint := named (bi_handle (gr_identity g)) (in_teamName (gr_team g)) |} db in
  match connect (pi_workspaceId p) (ie_channelId e)
          (install_input "discord" g (ie_credentialId e) (named (bi_displayName (gr_identity g)) (in_teamName (gr_team g)))) (ie_now e) (ib_rows db1) with
  | (Throw _, c) => (an_crash, with_rows c db1)
  | (Ret _, c) => (an_back (Some (pi_workspaceId p)) (Some (pi_agentId p)) [("channel", "Discord"); ("team", in_teamName (gr_team g))],
                   with_rows (told e (pi_workspaceId p) "discord" (da_botToken app) (da_publicKey app) (app_url e "discord") c) db1)
  end.
Definition discord_GET (e : InstallEnv) (rq : CallbackQuery) (db : InstallDb) : Answer * InstallDb :=
  match discord_check e rq db with inl a => (a, db) | inr (app, g) => discord_file e app g db end.

(** *** Telegram and WhatsApp *)
Definition telegram_install (e : InstallEnv) (ws agentId actor : string) (db : InstallDb) : Answer * InstallDb :=
  match telegramBot hmac64 (ie_settings e) with
  | None => (an_refused 503 "not_configured" "This deployment has no Telegram bot of its own. Make a bot with BotFather below, or ask whoever runs this deployment to add its bot token on the admin dashboard.", db)
  | Some bot =>
      if negb (ie_agent e ws agentId) then (AGENT_GONE, db)
      else match room_for e ws db with
      | Some why => (an_full why, db)
      | None =>
          (* [identify] and [ensureTelegramWebhook]; only a [ChannelError] keeps its message. *)
          match ie_identify e "telegram" (tb_token bot),
                ie_register e "telegram" (tb_token bot) {| vc_webhookUrl := app_url e "telegram"; vc_webhookSecret := tb_webhookSecret bot |} with
          | Throw why, _ => (an_refused 502 "provider_unreachable" (channel_message why "Telegram did not accept the deployment's bot token."), db)
          | Ret _, Throw why => (an_refused 502 "provider_unreachable" (channel_message why "Telegram did not accept the deployment's bot token."), db)
          | Ret identity, Ret _ =>
              let db1 := keep (ie_credentialId e) {| cr_name := "Telegram bot token"; cr_plaintext := tb_token bot; cr_createdBy := actor; cr_hint := bi_handle identity |} db in
              let db2 := keep (ie_secondId e) {| cr_name := "Telegram webhook secret"; cr_plaintext := tb_webhookSecret bot; cr_createdBy := actor;
                                                 cr_hint := masked (tb_webhookSecret bot) |} db1 in
              match file_connection e ws
                      {| cc_type := "telegram"; cc_agentId := agentId; cc_modelBindingId := None; cc_tokenCredentialId := ie_credentialId e;
                         cc_secretCredentialId := Some (ie_secondId e); cc_identity := identity; cc_connectCode := Some (ie_connectCode e);
                         cc_connectCodeTtlMs := Some CONNECT_CODE_TTL_MS; cc_createdBy := actor;
                         cc_install := Some {| in_teamRef := ""; in_teamName := "waiting for the first message"; in_installerRef := actor; in_appRef := bi_botRef identity;
                                               in_accountRef := None |} |} (app_url e "telegram") db2 with
              | (Ret row, db3) => (an_shown 201 (shown_row (ie_channelId e) (app_url e "telegram") identity row true None None None), db3)
              | (Throw _, db3) => (an_crash, db3)
              end
          end
      end
  end.

(** What Meta grants: the token, and the number and account it is for. *)
Definition signup_assets (e : InstallEnv) (signup : WhatsAppSignup) (code : string) (phoneNumberId wabaId : option string) : outcome string (string * SignupAssets) :=
  do accessToken <- exchangeSignupCode (ie_net e) search graph_version signup code;
  match phoneNumberId, wabaId with
  | Some phone, Some waba => Ret (accessToken, {| as_phoneNumberId := phone; as_wabaId := waba |})
  | _, _ => do assets <- discoverSignupAssets (ie_net e) search graph_version signup accessToken; Ret (accessToken, assets)
  end.
Record Signed := { sg_signup : WhatsAppSignup; sg_accessToken : string; sg_assets : SignupAssets; sg_token : string; sg_identity : BotIdentity }.
Definition whatsapp_check (e : InstallEnv) (ws agentId code : string) (phoneNumberId wabaId : option string) (db : InstallDb) : Answer + Signed :=
  match whatsappSignup (WhatsApp.verifyTokenOf hmac) (ie_settings e) with
  | None => inl (an_refused 503 "not_configured" "This deployment has no WhatsApp sign-up of its own. Connect WhatsApp with your own Meta app below, or ask whoever runs this deployment to set META_WHATSAPP_CONFIG_ID.")
  | Some signup =>
      if negb (ie_agent e ws agentId) then inl AGENT_GONE
      else match room_for e ws db with
      | Some why => inl (an_full why)
      | None =>
          match signup_assets e signup code phoneNumberId wabaId with
          | Throw why => inl (an_refused 422 "validation_failed" why)
          | Ret (accessToken, assets) =>
              if elsewhere "whatsapp" (as_phoneNumberId assets) ws db
              then inl (an_refused 409 "conflict" "That WhatsApp number is already connected to another YASHAYAH workspace. Disconnect it there first.")
              else let token := WhatsApp.whatsapp_composeToken accessToken (as_phoneNumberId assets) in
              match ie_identify e "whatsapp" token with
              | Throw why => inl (an_refused 422 "validation_failed" (channel_message why "Meta issued a token that does not work for that number."))
              | Ret identity =>
                  match subscribeAccount (ie_net e) graph_version accessToken (as_wabaId assets) with
                  | Throw why => inl (an_refused 422 "validation_failed" why)
                  | Ret _ => inr {| sg_signup := signup; sg_accessToken := accessToken; sg_assets := assets; sg_token := token; sg_identity := identity |}
                  end
              end
          end
      end
  end.
Definition whatsapp_file (e : InstallEnv) (ws agentId actor : string) (g : Signed) (db : InstallDb) : Answer * InstallDb :=
  let identity := sg_identity g in
  let pin := newRegistrationPin (ie_pin e) in
  let registration := match registerNumber (ie_net e) graph_version (sg_accessToken g) (as_phoneNumberId (sg_assets g)) pin with Throw why => Some why | Ret _ => None end in
  let db1 := keep (ie_credentialId e) {| cr_name := "WhatsApp access token"; cr_plaintext := sg_token g; cr_createdBy := actor; cr_hint := bi_handle identity |} db in
  let db2 := keep (ie_secondId e) {| cr_name := "WhatsApp two-step pin for " +:+ bi_handle identity; cr_plaintext := pin; cr_createdBy := actor; cr_hint := bi_handle identity |} db1 in
  let team := if String.eqb (bi_displayName identity) (bi_handle identity) then bi_handle identity else named (bi_displayName identity) (bi_handle identity) in
  match file_connection e ws
          {| cc_type := "whatsapp"; cc_agentId := agentId; cc_modelBindingId := None; cc_tokenCredentialId := ie_credentialId e; cc_secretCredentialId := None;
             cc_identity := identity; cc_connectCode := None; cc_connectCodeTtlMs := None; cc_createdBy := actor;
             cc_install := Some {| in_teamRef := as_phoneNumberId (sg_assets g); in_teamName := team; in_installerRef := actor; in_appRef := ws_appId (sg_signup g);
                                   in_accountRef := Some (as_wabaId (sg_assets g)) |} |} (app_url e "whatsapp") db2 with
  | (Throw _, db3) => (an_crash, db3)
  | (Ret row, db3) =>
      let shown := shown_row (ie_channelId e) (app_url e "whatsapp") identity row true (Some team) None registration in
      match registration with
      | None => (an_shown 201 shown, db3)
      | Some why => (an_shown 201 {| sw_id := sw_id shown; sw_channel := sw_channel shown; sw_status := in_error; sw_handle := sw_handle shown; sw_displayName := sw_displayName shown;
                                     sw_agentId := sw_agentId shown; sw_webhookUrl := sw_webhookUrl shown; sw_installed := true; sw_team := sw_team shown; sw_verifyToken := None; sw_registered := None;
                                     sw_connectCode := sw_connectCode shown; sw_lastError := Some why |},
                     with_rows (recordFailure ws (ie_channelId e) ("Meta would not register the number: " +:+ why) (ie_now e) (ib_rows db3)) db3)
      end
  end.
Definition whatsapp_install (e : InstallEnv) (ws agentId actor code : string) (phoneNumberId wabaId : option string) (db : InstallDb) : Answer * InstallDb :=
  match whatsapp_check e ws agentId code phoneNumberId wabaId db with inl a => (a, db) | inr g => whatsapp_file e ws agentId actor g db end.

(** *** A token that is pasted *)
Record ConnectInput := { ci_channel : string; ci_token : string; ci_signingSecret : option string; ci_extra : option string; ci_agentId : string; ci_modelBindingId : option string }.
Definition also_needs (a : AdapterInfo) (label : string) : Answer := an_refused 422 "validation_failed" (ai_name a +:+ " also needs its " +:+ toLowerCase label +:+ ".").
Definition missing_part (a : AdapterInfo) (input : ConnectInput) : option Answer :=
  match ai_secondary a, ci_signingSecret input with
  | Some label, None => Some (also_needs a label)
  | _, _ => match ai_extra a, ci_extra input with Some label, None => Some (also_needs a label) | _, _ => None end
  end.
Definition composed (a : AdapterInfo) (input : ConnectInput) : string :=
  match ai_compose a, ci_extra input with Some f, Some extra => f (ci_token input) extra | _, _ => ci_token input end.
Definition connect_POST (e : InstallEnv) (ws actor : string) (input : ConnectInput) (db : InstallDb) : Answer * InstallDb :=
  match adapter_info (ci_channel input) with
  | None => (an_refused 422 "validation_failed" ("There is no " +:+ String (Ascii.ascii_of_nat 34) (ci_channel input) +:+ String (Ascii.ascii_of_nat 34) " channel."), db)
  | Some a =>
      match missing_part a input with
      | Some refusal => (refusal, db)
      | None =>
          if negb (ie_agent e ws (ci_agentId input)) then (AGENT_GONE, db)
          else match room_for e ws db with
          | Some why => (an_full why, db)
          | None =>
              if match ci_modelBindingId input with Some b => negb (ie_binding e ws b) | None => false end
              then (an_refused 404 "not_found" "That model binding does not exist.", db)
              else match ie_identify e (ci_channel input) (composed a input) with
              | Throw why => (an_refused 422 "validation_failed" (channel_message why (ai_name a +:+ " rejected that token.")), db)
              | Ret identity =>
                  let secret := default (ie_randomSecret e) (ci_signingSecret input) in
                  let db1 := keep (ie_credentialId e) {| cr_name := ai_name a +:+ " " +:+ default "bot token" (toLowerCase <$> ai_tokenLabel a); cr_plaintext := composed a input;
                                                         cr_createdBy := actor; cr_hint := bi_handle identity |} db in
                  let db2 := keep (ie_secondId e) {| cr_name := ai_name a +:+ " " +:+ default "webhook secret" (ai_secondary a); cr_plaintext := secret; cr_createdBy := actor;
                                                     cr_hint := masked secret |} db1 in
                  match connect ws (ie_channelId e)
                          {| cc_type := ci_channel input; cc_agentId := ci_agentId input; cc_modelBindingId := ci_modelBindingId input; cc_tokenCredentialId := ie_credentialId e;
                             cc_secretCredentialId := Some (ie_secondId e); cc_identity := identity; cc_connectCode := Some (ie_connectCode e);
                             cc_connectCodeTtlMs := Some CONNECT_CODE_TTL_MS; cc_install := None; cc_createdBy := actor |} (ie_now e) (ib_rows db2) with
                  | (Throw _, c) => (an_crash, with_rows c db2)
                  | (Ret row, c) =>
                      let url := webhookUrl (ie_base e) (ch_type row) (ie_channelId e) in
                      (an_shown 201 (shown_row (ie_channelId e) url identity row false None
                         (if ai_verify a then Some (WhatsApp.verifyTokenOf hmac {| vc_webhookUrl := url; vc_webhookSecret := secret |}) else None) None),
                       with_rows (told e ws (ci_channel input) (composed a input) secret url c) db2)
                  end
              end
          end
      end
  end.

(** *** Ending, proving again and pointing again *)

(** The calls to a platform when a connection ends: best effort, their outcome is not read. *)
Inductive PlatformCall := pc_unregister (type token : string) | pc_revoke_slack (token : string).
Definition shared_bot (row : ChannelDoc) : bool := String.eqb (ch_type row) "telegram" && bool_decide (is_Some (ch_install row)).
Definition goodbye_calls (row : ChannelDoc) (token : option string) : list PlatformCall :=
  match adapter_info (ch_type row), token with
  | Some _, Some t => (if shared_bot row then [] else [pc_unregister (ch_type row) t]) ++
                      (if String.eqb (ch_type row) "slack" && bool_decide (is_Some (ch_install row)) then [pc_revoke_slack t] else [])
  | _, _ => []
  end.
Definition disconnect_DELETE (ws channelId : string) (db : InstallDb) : Answer * list PlatformCall * InstallDb :=
  match findById ws channelId (ib_rows db) with
  | None => (an_refused 404 "not_found" "That connection does not exist.", [], db)
  | Some row =>
      let token := cr_plaintext <$> (ib_vault db !! ch_tokenCredentialId row) in
      let db1 := {| ib_rows := delete_channel ws channelId (ib_rows db); ib_people := delete_people channelId (ib_people db); ib_vault := ib_vault db |} in
      let db2 := forget (ch_tokenCredentialId row) db1 in
      (an_disconnected, goodbye_calls row token, match ch_secretCredentialId row with Some s => forget s db2 | None => db2 end)
  end.
Definition code_POST (e : InstallEnv) (ws channelId : string) (db : InstallDb) : Answer * InstallDb :=
  match reissueCode ws channelId (ie_connectCode e) CONNECT_CODE_TTL_MS (ie_now e) (ib_rows db) with
  | (None, c) => (an_refused 404 "not_found" "That connection does not exist.", with_rows c db)
  | (Some row, c) => (an_shown 200 (shown_row channelId (deliveryUrlOf (ie_base e) channelId row) (ch_identity row) row false None None None), with_rows c db)
  end.
(** [resolve] and [register] as in [Webhooks.registerWebhook]; [refusal] is the message of
    its exception. *)
Definition webhook_POST (e : InstallEnv) (resolve : string → string → option string) (register : ChannelDoc → string → bool) (refusal ws channelId : string) (db : InstallDb)
    : Answer * InstallDb :=
  match findById ws channelId (ib_rows db) with
  | None => (an_refused 404 "not_found" "That connection does not exist.", db)
  | Some row => match registerWebhook (ie_base e) resolve register channelId row (ie_now e) (ib_rows db) with
                | (Some url, c) => (an_registered channelId url, with_rows c db)
                | (None, c) => (an_refused 502 "provider_error" refusal, with_rows (recordFailure ws channelId refusal (ie_now e) c) db)
                end
  end.

(** *** The list *)
Definition verify_token_of (e : InstallEnv) (id : string) (row : ChannelDoc) (db : InstallDb) : option string :=
  match adapter_info (ch_type row), ch_secretCredentialId row with
  | Some a, Some s => if ai_verify a
                      then stored ← ib_vault db !! s;
                           Some (WhatsApp.verifyTokenOf hmac {| vc_webhookUrl := webhookUrl (ie_base e) (ch_type row) id; vc_webhookSecret := cr_plaintext stored |})
                      else None
  | _, _ => None
  end.
Definition listed (e : InstallEnv) (db : InstallDb) (r : string * ChannelDoc) : Shown :=
  let '(id, row) := r in {|
  sw_id := id; sw_channel := ch_type row; sw_status := ch_status row; sw_handle := bi_handle (ch_identity row); sw_displayName := bi_displayName (ch_identity row);
  sw_agentId := ch_agentId row; sw_webhookUrl := deliveryUrlOf (ie_base e) id row; sw_installed := bool_decide (is_Some (ch_install row)); sw_team := in_teamName <$> ch_install row;
  sw_verifyToken := verify_token_of e id row db; sw_registered := ch_webhookUrl row; sw_connectCode := cn_code <$> ch_connect row;
  sw_lastError := ch_lastError (ch_health row) |}.
Definition one_click (e : InstallEnv) : list string :=
  (if telegramBot hmac64 (ie_settings e) then ["telegram"] else []) ++ (if slackApp (ie_settings e) then ["slack"] else []) ++
  (if discordApp (ie_one_press e) (ie_settings e) then ["discord"] else []) ++ (if whatsappSignup (WhatsApp.verifyTokenOf hmac) (ie_settings e) then ["whatsapp"] else []).
(** What the browser needs to open Meta's window. *)
Definition whatsappSignupPublic (signup : WhatsAppSignup) : string * string * string := (ws_appId signup, ws_configId signup, graph_version).
Definition channels_GET (e : InstallEnv) (ws : string) (db : InstallDb) : list Shown * list string * option (string * string * string) :=
  (map (listed e db) (find_all (in_ws ws) (ib_rows db)), one_click e,
   whatsappSignupPublic <$> whatsappSignup (WhatsApp.verifyTokenOf hmac) (ie_settings e)).

(** ** Histories of requests *)

Inductive Request :=
| rq_slack (e : InstallEnv) (q : CallbackQuery)
| rq_discord (e : InstallEnv) (q : CallbackQuery)
| rq_telegram (e : InstallEnv) (ws agentId actor : string)
| rq_whatsapp (e : InstallEnv) (ws agentId actor code : string) (phoneNumberId wabaId : option string)
| rq_connect (e : InstallEnv) (ws actor : string) (input : ConnectInput)
| rq_disconnect (ws channelId : string)
| rq_code (e : InstallEnv) (ws channelId : string)
| rq_webhook (e : InstallEnv) (resolve : string → string → option string) (register : ChannelDoc → string → bool) (refusal ws channelId : string)
| rq_hello (base chatRef : string) (message : InboundMessage) (e : Env)
| rq_upkeep (op : ChannelOp).
(** What the deliveries, the sweep and the scheduler write of a connection. *)
Definition is_upkeep (op : ChannelOp) : bool :=
  match op with ch_claim_op _ _ _ _ _ | ch_token_op _ _ _ _ | ch_webhook_op _ _ _ _ _ | ch_delivery_op _ _ _ | ch_failure_op _ _ _ _ => true | _ => false end.
Definition serve (db : InstallDb) (r : Request) : InstallDb :=
  match r with
  | rq_slack e q => (slack_GET e q db).2
  | rq_discord e q => (discord_GET e q db).2
  | rq_telegram e ws agentId actor => (telegram_install e ws agentId actor db).2
  | rq_whatsapp e ws agentId actor code phone waba => (whatsapp_install e ws agentId actor code phone waba db).2
  | rq_connect e ws actor input => (connect_POST e ws actor input db).2
  | rq_disconnect ws id => (disconnect_DELETE ws id db).2
  | rq_code e ws id => (code_POST e ws id db).2
  | rq_webhook e resolve register refusal ws id => (webhook_POST e resolve register refusal ws id db).2
  | rq_hello base chatRef message e => with_rows (claimTelegramChat base chatRef message e (ib_rows db)).2 db
  | rq_upkeep op => if is_upkeep op then with_rows (ch_apply (ib_rows db) op) db else db
  end.
(** The same, where what a callback found out is of an earlier moment: [seen] is the
    database it read. *)
Definition serve_late (seen db : InstallDb) (r : Request) : InstallDb :=
  match r with
  | rq_slack e q => match slack_check e q seen with inl _ => db | inr g => (slack_file e g db).2 end
  | rq_discord e q => match discord_check e q seen with inl _ => db | inr (app, g) => (discord_file e app g db).2 end
  | rq_whatsapp e ws agentId actor code phone waba =>
      match whatsapp_check e ws agentId code phone waba seen with inl _ => db | inr g => (whatsapp_file e ws agentId actor g db).2 end
  | _ => serve db r
  end.
Lemma serve_at_once db r : serve db r = serve_late db db r.
Proof.
  destruct r; cbn [serve serve_late]; try done.
  - unfold slack_GET. by destruct (slack_check _ _ _).
  - unfold discord_GET. by destruct (discord_check _ _ _) as [|[]].
  - unfold whatsapp_install. by destruct (whatsapp_check _ _ _ _ _ _ _).
Qed.

(** What the operations on a connection do not change; a chat of the shared Telegram bot is
    known only when its person says hello. *)
Definition lasting (type : string) (i : option Install) : option Install := if String.eqb type "telegram" then None else i.
Definition core (d : ChannelDoc) : string * string * option Install * string * string :=
  (ch_workspaceId d, ch_type d, lasting (ch_type d) (ch_install d), ch_agentId d, ch_createdBy d).
Lemma core_install d ws type i agent by_ : core d = (ws, type, lasting type i, agent, by_) → type ≠ "telegram" →
  ch_workspaceId d = ws ∧ ch_type d = type ∧ ch_install d = i ∧ ch_agentId d = agent ∧ ch_createdBy d = by_.
Proof. unfold core, lasting. intros [= <- <- E <- <-] Ht. destruct (String.eqb_spec (ch_type d) "telegram"); [done|]. by split_and!. Qed.
(** No connection is new. *)
Definition keeps (c c' : C) : Prop := ∀ id d', docs c' !! id = Some d' → ∃ d, docs c !! id = Some d ∧ core d' = core d.
(** One connection is new, in the place of the one its workspace had to the platform. *)
Definition adds (ws newId : string) (input : CreateChannelInput) (c c' : C) : Prop :=
  ∀ id d', docs c' !! id = Some d' →
    (id = newId ∧ core d' = (ws, cc_type input, lasting (cc_type input) (cc_install input), cc_agentId input, cc_createdBy input)) ∨
    (∃ d, docs c !! id = Some d ∧ core d' = core d ∧ ¬ (ch_workspaceId d = ws ∧ ch_type d = cc_type input)).

Lemma keeps_refl c : keeps c c.
Proof. intros id d Hd. eauto. Qed.
Lemma keeps_trans c c1 c2 : keeps c c1 → keeps c1 c2 → keeps c c2.
Proof. intros H1' H2' id d Hd. destruct (H2' id d Hd) as (d1 & Hd1 & E1), (H1' id d1 Hd1) as (d0 & Hd0 & E0). exists d0. split; [done|congruence]. Qed.
Lemma adds_then ws newId input c c1 c2 : adds ws newId input c c1 → keeps c1 c2 → adds ws newId input c c2.
Proof.
  intros H1' H2' id d Hd. destruct (H2' id d Hd) as (d1 & Hd1 & E1). rewrite E1.
  destruct (H1' id d1 Hd1) as [[-> E]|(d0 & Hd0 & E & Hn)]; [left; auto|right; exists d0; auto].
Qed.

Lemma update_keeps id p f c : (∀ d, core (f d) = core d) → keeps c (updateOne id p f c).2.
Proof.
  intros Hf k d'. destruct (updateOne_cases id p f c) as [(d & Hd & _ & _ & ->)|(_ & _ & ->)]; [|apply keeps_refl].
  intros [[<- <-]|[_ Hk]]%lookup_insert_Some; eauto.
Qed.
Lemma update_keeps_row id p f c : (∀ d, docs c !! id = Some d → p d = true → core (f d) = core d) → keeps c (updateOne id p f c).2.
Proof.
  intros Hf k d'. destruct (updateOne_cases id p f c) as [(d & Hd & Hp & _ & ->)|(_ & _ & ->)]; [|apply keeps_refl].
  intros [[<- <-]|[_ Hk]]%lookup_insert_Some; eauto.
Qed.
Lemma claim_keeps ws id code chat now c : keeps c (Channels.claim ws id code chat now c).2.
Proof.
  unfold Channels.claim. pose proof (update_keeps id (code_matches ws code now) (claim_update chat now) c) as Hk.
  destruct (updateOne _ _ _ _) as [b c']. by apply Hk.
Qed.
(** The chat a hello brings goes into a connection to Telegram. *)
Lemma bind_keeps ws id ref name now c d : docs c !! id = Some d → ch_type d = "telegram" → keeps c (bindInstall ws id ref name now c).2.
Proof.
  intros Hd Ht. unfold bindInstall. destruct (findById ws id c) as [d0|]; [|apply keeps_refl]. destruct (ch_install d0); [|apply keeps_refl]. cbn [snd].
  apply update_keeps_row. intros d1 Hd1 _. rewrite Hd in Hd1. injection Hd1 as <-. unfold core, lasting. cbn. by rewrite Ht.
Qed.
Lemma hello_keeps base chatRef message e c : keeps c (claimTelegramChat base chatRef message e c).2.
Proof.
  unfold claimTelegramChat. destruct (if code_shaped _ then _ else _) as [[id waiting]|] eqn:Hw; [|apply keeps_refl].
  destruct (code_shaped _); [|done]. apply find_one_some in Hw as [Hrow Hp]. unfold awaits in Hp. apply andb_true_iff in Hp as [[Ht%String.eqb_eq _]%andb_true_iff _].
  pose proof (claim_keeps (ch_workspaceId waiting) id (offeredCode (im_text message)) chatRef (ev_now e) c) as Hk.
  destruct (Channels.claim _ _ _ _ _ _) as [[row|] c1] eqn:Hc; [|done]. cbn [snd] in Hk.
  assert (∃ d, docs c1 !! id = Some d ∧ ch_type d = "telegram") as (d & Hd & Htd).
  { unfold Channels.claim in Hc. destruct (updateOne_cases id (code_matches (ch_workspaceId waiting) (offeredCode (im_text message)) (ev_now e)) (claim_update chatRef (ev_now e)) c)
      as [(d0 & Hd0 & _ & _ & E)|(_ & E1 & _)]; destruct (updateOne _ _ _ _) as [b c']; cbn [fst snd] in *; [|by subst b].
    injection Hc as _ <-. rewrite Hrow in Hd0. injection Hd0 as <-. rewrite E, lookup_insert_eq. by eexists. }
  pose proof (bind_keeps (ch_workspaceId waiting) id chatRef (im_senderLabel message) (ev_now e) c1 d Hd Htd) as Hb.
  destruct (bindInstall _ _ _ _ _ _) as [[u|] c2]; cbn [snd] in *; (eapply keeps_trans; [exact Hk|]); [|done].
  eapply keeps_trans; [exact Hb|]. by apply update_keeps.
Qed.
Lemma upkeep_keeps op c : is_upkeep op = true → keeps c (ch_apply c op).
Proof.
  destruct op; try done; intros _; cbn [ch_apply]; [apply claim_keeps|by apply update_keeps..].
Qed.
Lemma delete_keeps id p c : keeps c (deleteOne id p c).2.
Proof. intros k d' Hd'%deleteOne_sub. eauto. Qed.
Lemma told_keeps e ws type token secret url c : keeps c (told e ws type token secret url c).
Proof. unfold told, recordWebhook, recordFailure. destruct (ie_register _ _ _ _); by apply update_keeps. Qed.

Lemma connect_effect ws newId input now c :
  match connect ws newId input now c with (Ret _, c') => adds ws newId input c c' | (Throw _, c') => keeps c c' end.
Proof.
  unfold connect. set (c1 := match findByType _ _ _ with Some _ => _ | None => _ end).
  assert (keeps c c1) as Hk by (unfold c1; destruct (findByType _ _ _) as [[? ?]|]; [apply delete_keeps|apply keeps_refl]).
  destruct (negb _ && _); [done|].
  destruct (insertOne_cases same_type newId (new_channel ws input now) c1) as [(E & _ & Hclash & Ed)|(E & Ed)];
    destruct (insertOne _ _ _ _) as [b c2]; simpl in E, Ed; subst b.
  - intros id d'. rewrite Ed. intros [[<- <-]|[_ Hd]]%lookup_insert_Some; [by left|]. right. destruct (Hk id d' Hd) as (d & Hd0 & Ec). exists d. split_and!; [done..|].
    intros [Ew Et]. specialize (Hclash id d' Hd). unfold core in Ec. simplify_eq. unfold same_type in Hclash. simpl in Hclash.
    apply andb_false_iff in Hclash as [Hc%String.eqb_neq|Hc%String.eqb_neq]; congruence.
  - intros id d'. rewrite Ed. apply Hk.
Qed.
Lemma file_effect e ws input url db :
  match file_connection e ws input url db with (Ret _, db') => adds ws (ie_channelId e) input (ib_rows db) (ib_rows db') | (Throw _, db') => keeps (ib_rows db) (ib_rows db') end.
Proof.
  unfold file_connection. pose proof (connect_effect ws (ie_channelId e) input (ie_now e) (ib_rows db)) as He. destruct (connect _ _ _ _ _) as [[row|] c]; simpl; [|done].
  eapply adds_then; [done|]. by apply update_keeps.
Qed.

(** Why a request makes a connection. *)
Definition justified (r : Request) (db : InstallDb) (ws : string) (input : CreateChannelInput) : Prop :=
  match r with
  | rq_slack e q => ∃ g, slack_check e q db = inr g ∧ ws = pi_workspaceId (gr_pending g) ∧ cc_type input = "slack" ∧ cc_install input = Some (gr_team g) ∧
      cc_agentId input = pi_agentId (gr_pending g) ∧ cc_createdBy input = pi_userId (gr_pending g)
  | rq_discord e q => ∃ app g, discord_check e q db = inr (app, g) ∧ ws = pi_workspaceId (gr_pending g) ∧ cc_type input = "discord" ∧ cc_install input = Some (gr_team g) ∧
      cc_agentId input = pi_agentId (gr_pending g) ∧ cc_createdBy input = pi_userId (gr_pending g)
  | rq_telegram _ _ _ _ => cc_type input = "telegram"
  | rq_whatsapp e ws' agentId actor code phone waba => ∃ g i, whatsapp_check e ws' agentId code phone waba db = inr g ∧ ws = ws' ∧ cc_type input = "whatsapp" ∧
      cc_install input = Some i ∧ in_teamRef i = as_phoneNumberId (sg_assets g)
  | rq_connect _ _ _ _ => cc_install input = None
  | _ => False
  end.

(** A request keeps the connections, or makes one it has a reason for. *)
Lemma serve_effect r seen db :
  keeps (ib_rows db) (ib_rows (serve_late seen db r)) ∨
  ∃ ws newId input, justified r seen ws input ∧ adds ws newId input (ib_rows db) (ib_rows (serve_late seen db r)).
Proof.
  destruct r as [e q|e q|e ws agentId actor|e ws agentId actor code phone waba|e ws actor input|ws id|e ws id|e resolve register refusal ws id|base chatRef message e|op]; cbn [serve serve_late].
  - destruct (slack_check e q seen) as [a|g] eqn:Eg; [left; apply keeps_refl|]. unfold slack_file.
    match goal with |- context [file_connection ?e ?w ?i ?u ?d] => pose proof (file_effect e w i u d) as He; destruct (file_connection e w i u d) as [[row|] db'] end; [|by left].
    right. do 3 eexists. split; [|exact He]. exists g. done.
  - destruct (discord_check e q seen) as [a|[app g]] eqn:Eg; [left; apply keeps_refl|]. unfold discord_file.
    match goal with |- context [connect ?w ?k ?i ?n ?c] => pose proof (connect_effect w k i n c) as He; destruct (connect w k i n c) as [[row|] c'] end; [|by left].
    right. do 3 eexists. split; [|eapply adds_then; [exact He|apply told_keeps]]. exists app, g. done.
  - unfold telegram_install. destruct (telegramBot _ _); [|left; apply keeps_refl]. destruct (negb _); [left; apply keeps_refl|].
    destruct (room_for _ _ _); [left; apply keeps_refl|]. destruct (ie_identify _ _ _); [|left; apply keeps_refl].
    destruct (ie_register _ _ _ _); [|left; apply keeps_refl].
    match goal with |- context [file_connection ?e ?w ?i ?u ?d] => pose proof (file_effect e w i u d) as He; destruct (file_connection e w i u d) as [[row|] db'] end; [|by left].
    right. do 3 eexists. split; [|exact He]. done.
  - destruct (whatsapp_check e ws agentId code phone waba seen) as [a|g] eqn:Eg; [left; apply keeps_refl|]. unfold whatsapp_file.
    match goal with |- context [file_connection ?e ?w ?i ?u ?d] => pose proof (file_effect e w i u d) as He; destruct (file_connection e w i u d) as [[row|] db'] end; [|by left].
    right. do 3 eexists. split; [|destruct (match registerNumber _ _ _ _ _ with Throw _ => _ | Ret _ => _ end); [eapply adds_then; [exact He|]; by apply update_keeps|exact He]].
    do 2 eexists. split_and!; [exact Eg|done..].
  - unfold connect_POST. destruct (adapter_info _) as [a|]; [|left; apply keeps_refl]. destruct (missing_part _ _); [left; apply keeps_refl|]. destruct (negb _); [left; apply keeps_refl|].
    destruct (room_for _ _ _); [left; apply keeps_refl|]. destruct (match ci_modelBindingId input with Some _ => _ | None => _ end); [left; apply keeps_refl|].
    destruct (ie_identify _ _ _); [|left; apply keeps_refl].
    match goal with |- context [connect ?w ?k ?i ?n ?c] => pose proof (connect_effect w k i n c) as He; destruct (connect w k i n c) as [[row|] c'] end; [|by left].
    right. do 3 eexists. split; [|eapply adds_then; [exact He|apply told_keeps]]. done.
  - left. unfold disconnect_DELETE. destruct (findById _ _ _) as [row|]; [|apply keeps_refl]. destruct (ch_secretCredentialId row); apply delete_keeps.
  - left. unfold code_POST, reissueCode. pose proof (update_keeps id (in_ws ws) (λ d, set_proof pending_verification None (Some {| cn_code := ie_connectCode e; cn_expiresAt := ie_now e + CONNECT_CODE_TTL_MS |}) (ch_health d) (ie_now e) d) (ib_rows db)) as Hk.
    destruct (updateOne _ _ _ _) as [[|] c']; simpl in *; [destruct (docs c' !! id)|]; by apply Hk.
  - left. unfold webhook_POST. destruct (findById _ _ _) as [row|]; [|apply keeps_refl]. unfold registerWebhook. destruct (bot_answers _ _ _ _ _); by apply update_keeps.
  - left. apply hello_keeps.
  - left. destruct (is_upkeep op) eqn:Hu; [by apply upkeep_keeps|apply keeps_refl].
Qed.

(** ** One workspace of a platform belongs to one of ours *)

Definition exclusive_types : list string := ["slack"; "discord"; "whatsapp"].
Definition one_owner (c : C) : Prop := ∀ id id' d d' i i',
  docs c !! id = Some d → docs c !! id' = Some d' → ch_type d = ch_type d' → ch_type d ∈ exclusive_types →
  ch_install d = Some i → ch_install d' = Some i' → in_teamRef i = in_teamRef i' → ch_workspaceId d = ch_workspaceId d'.

Lemma not_elsewhere type team ws db : elsewhere type team ws db = false →
  ∀ id d i, docs (ib_rows db) !! id = Some d → ch_type d = type → ch_install d = Some i → in_teamRef i = team → ch_workspaceId d = ws.
Proof.
  unfold elsewhere. intros He id d i Hd Et Ei Er. destruct (find_one _ _) eqn:Ef; [done|]. pose proof (find_one_none _ _ _ _ Ef Hd) as Hn. simpl in Hn.
  rewrite Et, Ei, Er, !String.eqb_refl in Hn. simpl in Hn. apply negb_false_iff, String.eqb_eq in Hn. done.
Qed.

Lemma slack_check_team e q db g : slack_check e q db = inr g → elsewhere "slack" (in_teamRef (gr_team g)) (pi_workspaceId (gr_pending g)) db = false.
Proof.
  unfold slack_check. destruct (slackApp _); [|done]. destruct (consented _ _ _ _ _) as [|[p code]]; [done|]. destruct (exchangeSlackCode _ _ _ _ _) as [i|]; [|done].
  destruct (elsewhere _ _ _ _) eqn:E; [done|]. destruct (ie_identify _ _ _); [|done]. by intros [= <-].
Qed.
Lemma discord_check_team e q db app g : discord_check e q db = inr (app, g) → elsewhere "discord" (in_teamRef (gr_team g)) (pi_workspaceId (gr_pending g)) db = false.
Proof.
  unfold discord_check. destruct (discordApp _ _); [|done]. destruct (consented _ _ _ _ _) as [|[p code]]; [done|]. destruct (exchangeDiscordCode _ _ _ _ _) as [i|]; [|done].
  destruct (elsewhere _ _ _ _) eqn:E; [done|]. destruct (ie_identify _ _ _); [|done]. by intros [= <- <-].
Qed.
Lemma whatsapp_check_team e ws agentId code phone waba db g : whatsapp_check e ws agentId code phone waba db = inr g → elsewhere "whatsapp" (as_phoneNumberId (sg_assets g)) ws db = false.
Proof.
  unfold whatsapp_check. destruct (whatsappSignup _ _); [|done]. destruct (negb _); [done|]. destruct (room_for _ _ _); [done|].
  destruct (signup_assets _ _ _ _ _) as [[t assets]|]; [|done]. destruct (elsewhere _ _ _ _) eqn:E; [done|]. destruct (ie_identify _ _ _); [|done].
  destruct (subscribeAccount _ _ _ _); [|done]. by intros [= <-].
Qed.

(** What a request finds out before it makes a connection for an exclusive platform. *)
Lemma justified_team r db ws input i : justified r db ws input → cc_type input ∈ exclusive_types → cc_install input = Some i →
  elsewhere (cc_type input) (in_teamRef i) ws db = false.
Proof.
  destruct r; simpl; try done.
  - intros (g & Hg & -> & -> & Ei & _) _ Ei'. rewrite Ei in Ei'. injection Ei' as <-. by eapply slack_check_team.
  - intros (app & g & Hg & -> & -> & Ei & _) _ Ei'. rewrite Ei in Ei'. injection Ei' as <-. by eapply discord_check_team.
  - intros ->. unfold exclusive_types. intros Hin. exfalso. repeat (apply elem_of_cons in Hin as [Hin|Hin]; [done|]). by apply elem_of_nil in Hin.
  - intros (g & j & Hg & -> & -> & Ei & Er) _ Ei'. rewrite Ei in Ei'. injection Ei' as <-. rewrite Er. by eapply whatsapp_check_team.
  - intros -> _ [=].
Qed.

Lemma exclusive_not_telegram type : type ∈ exclusive_types → type ≠ "telegram".
Proof.
  unfold exclusive_types. intros Hin ->. repeat (apply elem_of_cons in Hin as [Hin|Hin]; [discriminate Hin|]). by apply elem_of_nil in Hin.
Qed.
Lemma core_exclusive d d' i : core d' = core d → ch_type d' ∈ exclusive_types → ch_install d' = Some i →
  ch_workspaceId d' = ch_workspaceId d ∧ ch_type d' = ch_type d ∧ ch_install d = Some i.
Proof.
  intros E Hx Hi. assert (ch_type d' = ch_type d) as Et by (unfold core in E; congruence). pose proof (exclusive_not_telegram _ Hx) as Hn. rewrite Et in Hn.
  destruct (core_install d' _ _ _ _ _ E Hn) as (-> & _ & E' & _). split_and!; [done|done|congruence].
Qed.

Lemma serve_one_owner r db : one_owner (ib_rows db) → one_owner (ib_rows (serve db r)).
Proof.
  intros Ho. rewrite serve_at_once. destruct (serve_effect r db db) as [Hk|(ws & newId & input & Hj & Ha)]; intros id id' d d' i i' Hd Hd' Et Hx Ei Ei' Er.
  - destruct (Hk id d Hd) as (a & Ha & Ea), (Hk id' d' Hd') as (b & Hb & Eb).
    destruct (core_exclusive a d i Ea Hx Ei) as (-> & Eta & Ia). destruct (core_exclusive b d' i' Eb ltac:(congruence) Ei') as (-> & Etb & Ib).
    apply (Ho id id' a b i i'); congruence.
  - assert (∀ k a j, docs (ib_rows db) !! k = Some a → cc_type input ∈ exclusive_types → cc_install input = Some j → ch_type a = cc_type input →
      ∀ l, ch_install a = Some l → in_teamRef l = in_teamRef j → ch_workspaceId a = ws) as Hnew.
    { intros k a j Hka Hin Hj' Eta l Ela Erl. eapply not_elsewhere; [by eapply justified_team|done|done|done|done]. }
    assert (∀ x, core x = (ws, cc_type input, lasting (cc_type input) (cc_install input), cc_agentId input, cc_createdBy input) → ch_type x ∈ exclusive_types →
      ch_workspaceId x = ws ∧ ch_type x = cc_type input ∧ ch_install x = cc_install input) as Hfresh.
    { intros x E Hxx. assert (ch_type x = cc_type input) as Etx by (unfold core in E; congruence). rewrite Etx in Hxx.
      destruct (core_install x _ _ _ _ _ E (exclusive_not_telegram _ Hxx)) as (? & ? & ? & _). by split_and!. }
    assert (ch_type d' ∈ exclusive_types) as Hx' by congruence.
    destruct (Ha id d Hd) as [[-> Ea]|(a & Hka & Ea & Hna)], (Ha id' d' Hd') as [[-> Eb]|(b & Hkb & Eb & Hnb)].
    + destruct (Hfresh d Ea Hx) as (-> & _), (Hfresh d' Eb Hx') as (-> & _). done.
    + destruct (Hfresh d Ea Hx) as (Ew & Etd & Eid). destruct (core_exclusive b d' i' Eb Hx' Ei') as (Ewb & Etb & Ib). exfalso. apply Hnb. split; [|congruence].
      refine (Hnew id' b i Hkb _ _ _ i' Ib _); congruence.
    + destruct (Hfresh d' Eb Hx') as (Ew & Etd & Eid). destruct (core_exclusive a d i Ea Hx Ei) as (Ewa & Eta & Ia). exfalso. apply Hna. split; [|congruence].
      refine (Hnew id a i' Hka _ _ _ i Ia _); congruence.
    + destruct (core_exclusive a d i Ea Hx Ei) as (-> & Eta & Ia). destruct (core_exclusive b d' i' Eb Hx' Ei') as (-> & Etb & Ib). apply (Ho id id' a b i i'); congruence.
Qed.

(** However many people connect, reconnect and disconnect, one after another: a Slack
    workspace, a Discord server or a WhatsApp number that was connected through the
    deployment's own app is connected to one workspace of ours. *)
Theorem platform_workspaces_have_one_owner history db id id' d d' i i' :
  docs (ib_rows db) = ∅ → docs (ib_rows (foldl serve db history)) !! id = Some d → docs (ib_rows (foldl serve db history)) !! id' = Some d' →
  ch_type d = ch_type d' → ch_type d ∈ exclusive_types → ch_install d = Some i → ch_install d' = Some i' → in_teamRef i = in_teamRef i' →
  ch_workspaceId d = ch_workspaceId d'.
Proof.
  intros He. assert (one_owner (ib_rows (foldl serve db history))) as Ho; [|by apply (Ho id id' d d' i i')].
  assert (one_owner (ib_rows db)) as Hi by (intros k k' x x' j j' Hx; by rewrite He in Hx). clear He. revert db Hi.
  induction history as [|r rest IH]; intros db Hi; [done|]. simpl. by apply IH, serve_one_owner.
Qed.

(** ** Whose installs these are *)

(** A state we signed for this platform and this install, not refused, presented in time by
    the person it names. *)
Definition consent (e : InstallEnv) (audience : string) (q : CallbackQuery) (p : PendingInstall) (code : string) : Prop :=
  (∃ state claims, cq_state q = Some state ∧ vouched_for unb64url hmac state (ie_hmacSecret e) (read_options (issuer_of e) audience) (ie_now e) claims ∧
     own claims "ws" = VString (pi_workspaceId p) ∧ own claims "agent" = VString (pi_agentId p) ∧ own claims "sub" = VString (pi_userId p)) ∧
  cq_error q = None ∧ cq_code q = Some code ∧
  ∃ caller, callerFromCookieHeader unb64url hmac decodeURIComponent (ie_sessionSecret e) (issuer_of e) (cq_cookie q) (ie_now e) = Ret (Some caller) ∧ ca_userId caller = pi_userId p.

Lemma read_state state secret issuer audience now p :
  readInstallState unb64url hmac state secret issuer audience now = Ret (Some p) →
  ∃ claims, vouched_for unb64url hmac state secret (read_options issuer audience) now claims ∧
    own claims "ws" = VString (pi_workspaceId p) ∧ own claims "agent" = VString (pi_agentId p) ∧ own claims "sub" = VString (pi_userId p).
Proof.
  unfold readInstallState. destruct (verifyHs256 _ _ _ _ _ _) as [claims|[]] eqn:Ev; try done. apply accepted_tokens_are_signed in Ev.
  destruct (own claims "ws") eqn:E1; try done. destruct (own claims "agent") eqn:E2; try done. destruct (own claims "sub") eqn:E3; try done.
  intros [= <-]. exists claims. auto.
Qed.

Lemma consented_consent e slug audience q db p code : consented e slug audience q db = inr (p, code) → consent e audience q p code ∧ ie_agent e (pi_workspaceId p) (pi_agentId p) = true.
Proof.
  unfold consented. destruct (cq_state q) as [state|] eqn:Es; [|done]. destruct (readInstallState _ _ _ _ _ _ _) as [[p'|]|] eqn:Er; [|done..].
  destruct (cq_error q) eqn:Ee; [done|]. destruct (cq_code q) as [code'|] eqn:Ec; [|done].
  destruct (callerFromCookieHeader _ _ _ _ _ _ _) as [[caller|]|] eqn:Ecl; [|done..].
  destruct (String.eqb_spec (ca_userId caller) (pi_userId p')) as [Eu|]; [|done]. simpl. destruct (ie_agent _ _ _) eqn:Ea; [|done]. simpl.
  destruct (room_for _ _ _); [done|]. intros [= -> ->]. split; [|done]. destruct (read_state _ _ _ _ _ _ Er) as (claims & Hv & Hw & Hg & Hs).
  split; [exists state, claims; auto|]. split; [done|]. split; [done|]. eauto.
Qed.

(** A connection to Slack or Discord through our own app was consented to. *)
Definition consented_row (history : list Request) (d : ChannelDoc) (i : Install) : Prop :=
  (ch_type d = "slack" → ∃ e q p code app s, rq_slack e q ∈ history ∧ consent e SLACK_AUDIENCE q p code ∧ slackApp (ie_settings e) = Some app ∧
     exchangeSlackCode base64 (ie_net e) app code (issuer_of e +:+ SLACK_CALLBACK_PATH) = Ret s ∧ in_teamRef i = si_teamRef s ∧
     ch_workspaceId d = pi_workspaceId p ∧ ch_agentId d = pi_agentId p ∧ ch_createdBy d = pi_userId p) ∧
  (ch_type d = "discord" → ∃ e q p code app s, rq_discord e q ∈ history ∧ consent e DISCORD_AUDIENCE q p code ∧ discordApp (ie_one_press e) (ie_settings e) = Some app ∧
     exchangeDiscordCode base64 (ie_net e) app code (issuer_of e +:+ DISCORD_CALLBACK_PATH) = Ret s ∧ in_teamRef i = di_guildRef s ∧
     ch_workspaceId d = pi_workspaceId p ∧ ch_agentId d = pi_agentId p ∧ ch_createdBy d = pi_userId p).

Lemma consented_row_core history d d' i : core d' = core d → consented_row history d i → consented_row history d' i.
Proof. unfold core. intros E Hc. unfold consented_row. injection E as Ew Et _ Ea Eb. by rewrite Ew, Et, Ea, Eb. Qed.
Lemma consented_row_grows history r d i : consented_row history d i → consented_row (history ++ [r]) d i.
Proof.
  intros [Hs Hd]. split; intros Et; [destruct (Hs Et) as (e & q & p & code & app & s & Hin & Hrest)|destruct (Hd Et) as (e & q & p & code & app & s & Hin & Hrest)];
    exists e, q, p, code, app, s; (split; [apply elem_of_app; by left|done]).
Qed.

Lemma justified_consent history r db ws input d i :
  justified r db ws input → core d = (ws, cc_type input, lasting (cc_type input) (cc_install input), cc_agentId input, cc_createdBy input) → ch_install d = Some i →
  consented_row (history ++ [r]) d i.
Proof.
  intros Hj Ec Ei. destruct (decide (cc_type input = "telegram")) as [Htg|Htg].
  { unfold core in Ec. injection Ec as _ Et _ _ _. split; rewrite Et, Htg; done. }
  destruct (core_install _ _ _ _ _ _ Ec Htg) as (Ew & Et & Es & Ea & Eb). rewrite Ei in Es.
  assert (r ∈ history ++ [r]) as Hin by (apply elem_of_app; right; by left).
  destruct r; simpl in Hj; [| |by (split; rewrite Et, Hj)| |congruence|done..].
  - destruct Hj as (g & Hg & -> & E1 & E2 & E3 & E4). split; rewrite Et, E1; [|done]. intros _. rewrite E2 in Es. injection Es as ->.
    unfold slack_check in Hg. destruct (slackApp _) as [app|] eqn:Eapp; [|done]. destruct (consented _ _ _ _ _) as [|[p code]] eqn:Econ; [done|].
    apply consented_consent in Econ as [Hcon _]. destruct (exchangeSlackCode _ _ _ _ _) as [s|] eqn:Ex; [|done]. destruct (elsewhere _ _ _ _); [done|].
    destruct (ie_identify _ _ _); [|done]. injection Hg as <-. simpl in *. exists e, q, p, code, app, s. split_and!; congruence.
  - destruct Hj as (app & g & Hg & -> & E1 & E2 & E3 & E4). split; rewrite Et, E1; [done|]. intros _. rewrite E2 in Es. injection Es as ->.
    unfold discord_check in Hg. destruct (discordApp _ _) as [app'|] eqn:Eapp; [|done]. destruct (consented _ _ _ _ _) as [|[p code]] eqn:Econ; [done|].
    apply consented_consent in Econ as [Hcon _]. destruct (exchangeDiscordCode _ _ _ _ _) as [s|] eqn:Ex; [|done]. destruct (elsewhere _ _ _ _); [done|].
    destruct (ie_identify _ _ _); [|done]. injection Hg as <- <-. simpl in *. exists e, q, p, code, app', s. split_and!; congruence.
  - destruct Hj as (g & j & _ & _ & E1 & _). split; rewrite Et, E1; done.
Qed.

(** C33.  A connection to Slack or Discord through the deployment's own app comes from a
    consent: a state that we signed, for that platform and not yet expired, named the
    workspace, the assistant and the person; that person was signed in when it came
    back; and the platform exchanged the code for the workspace of its own that is
    connected.  Nothing else makes such a connection, moves it to another workspace or
    assistant, or points it at another workspace of the platform: not the other ways to
    connect, a new code, a disconnection or a new address, not the hello that binds a
    chat to the shared Telegram bot, and not what deliveries and sweeps write.  Requests
    are served one after another, but what a callback found out before it writes may be
    of any earlier moment, whatever the database was then. *)
Theorem installs_are_consented (history : list (InstallDb * Request)) db id d i :
  docs (ib_rows db) = ∅ → docs (ib_rows (foldl (λ db sr, serve_late sr.1 db sr.2) db history)) !! id = Some d → ch_install d = Some i →
  consented_row history.*2 d i.
Proof.
  intros He. revert id d i. induction history as [|[seen r] rest IH] using rev_ind; intros id d i Hd Hi; [by simpl in Hd; rewrite He in Hd|].
  rewrite foldl_snoc in Hd. rewrite fmap_app. cbn [fst snd fmap list_fmap] in *.
  assert (∀ d0, docs (ib_rows (foldl (λ db sr, serve_late sr.1 db sr.2) db rest)) !! id = Some d0 → core d = core d0 → consented_row (rest.*2 ++ [r]) d i) as Hold.
  { intros d0 Hd0 Ec. eapply consented_row_core; [done|]. apply consented_row_grows. destruct (decide (ch_type d0 = "telegram")) as [Ht|Ht].
    - split; rewrite Ht; done.
    - apply (IH id d0 i Hd0). destruct (core_install _ _ _ _ _ _ Ec Ht) as (_ & _ & E & _). congruence. }
  destruct (serve_effect r seen (foldl (λ db sr, serve_late sr.1 db sr.2) db rest)) as [Hk|(ws & newId & input & Hj & Ha)].
  - destruct (Hk id d Hd) as (d0 & Hd0 & Ec). by eapply Hold.
  - destruct (Ha id d Hd) as [[_ Ec]|(d0 & Hd0 & Ec & _)]; [by eapply justified_consent|by eapply Hold].
Qed.
End Routes.

(** ** The state survives the trip, and only its own *)
Section RoundTrip.
Context (b64url unb64url : string → string) (hmac : string → string → string).
Context (unb64_b64 : ∀ s, unb64url (b64url s) = s) (b64_no_dot : ∀ s, lacks "." (b64url s) = true).

(** A state reads back as what was signed for ten minutes and the tolerance of the
    clocks, on the platform it was signed for and on no other. *)
Theorem install_states_come_back secret issuer audience audience' p nonce now later :
  pi_userId p ≠ "" →
  readInstallState unb64url hmac (signInstallState b64url hmac secret issuer audience p nonce now) secret issuer audience' later =
  Ret (if String.eqb audience audience' && (seconds later <=? seconds now + INSTALL_STATE_TTL_SECONDS + DEFAULT_CLOCK_TOLERANCE) then Some p else None).
Proof.
  intros Hsub. unfold readInstallState, signInstallState, verifyHs256. set (opts := state_options issuer audience p nonce). set (claims := payload_of opts now).
  assert (Hplain : plain claims).
  { unfold claims, payload_of. simpl. split; [|done].
    repeat (apply NoDup_cons; split; [intros Hin; repeat (apply elem_of_cons in Hin as [Hin|Hin]; [discriminate Hin|]); by apply elem_of_nil in Hin|]).
    apply NoDup_nil_2. }
  rewrite parse_signed by done. cbn [obind pa_header pa_claims pa_signature pa_signingInput].
  change (prop HEADER "alg") with (@Ret JwtError _ (VString "HS256")). cbn [obind is_string String.eqb negb].
  rewrite String.eqb_refl. cbn [negb]. fold claims.
  assert (Hcheck : checkClaims claims (read_options issuer audience') later =
    if negb (String.eqb audience audience') then Throw je_audience
    else if seconds now + INSTALL_STATE_TTL_SECONDS + DEFAULT_CLOCK_TOLERANCE <? seconds later then Throw je_expired else Ret tt).
  { unfold checkClaims, claims, payload_of. simpl. rewrite String.eqb_refl. simpl. destruct (String.eqb audience audience'); [|done]. simpl.
    destruct (_ <? _); [done|]. by destruct (String.eqb_spec (pi_userId p) ""). }
  rewrite Hcheck. destruct (String.eqb audience audience'); [|done]. simpl. rewrite Z.leb_antisym. destruct (_ <? _); [done|]. cbn [obind negb]. by destruct p.
Qed.
End RoundTrip.

(** ** Some installs *)

Notation channel_rows := (gmap string ChannelDoc).
Notation person_rows := (gmap string ChannelIdentityDoc).
Definition no_installs : InstallDb (C := channel_rows) (CP := person_rows) := {| ib_rows := ∅; ib_people := ∅; ib_vault := ∅ |}.
Definition entry (k : string) (v : value) : string * value := (k, v).
Definition slack_says : value := VObject [entry "ok" (VBool true); entry "access_token" (VString "xoxb-1"); entry "token_type" (VString "bot"); entry "bot_user_id" (VString "U1");
  entry "app_id" (VString "A1"); entry "team" (VObject [entry "id" (VString "T1"); entry "name" (VString "Acme")])].
Definition meta_says : value := VObject [entry "access_token" (VString "EAAG")].
Definition helper : BotIdentity := {| bi_handle := "@helper"; bi_displayName := "Helper"; bi_botRef := "B1" |}.
Definition slack_settings (k : string) : option string :=
  if existsb (String.eqb k) ["slack_client_id"; "slack_client_secret"; "slack_signing_secret"; "meta_app_id"; "meta_app_secret"; "meta_whatsapp_config_id"] then Some k else None.
Definition free_plan : Entitlements := {| en_planId := None; en_active := true; en_limits := None; en_unconfigured := true; en_state := trial; en_trialEndsAt := None |}.
Definition env_for (body : value) (n : string) : InstallEnv := {|
  ie_base := "https://h.example/"; ie_hmacSecret := "key"; ie_sessionSecret := "session"; ie_settings := slack_settings; ie_one_press := DISCORD_ONE_PRESS;
  ie_net := λ _, rp_answer true 200 body; ie_now := 1000000; ie_agent := λ _ _, true; ie_plan := λ _, free_plan; ie_binding := λ _ _, true;
  ie_identify := λ _ _, Ret helper; ie_register := λ _ _ _, Ret tt; ie_channelId := "chn_" +:+ n; ie_credentialId := "crd_" +:+ n; ie_secondId := "crd_s" +:+ n;
  ie_nonce := "n"; ie_connectCode := "ABCD2345"; ie_randomSecret := "random"; ie_pin := 42 |}.
Definition slack_env (n : string) : InstallEnv := env_for slack_says n.
Definition back_from (ws : string) : CallbackQuery := {|
  cq_state := Some (signInstallState hex_encode clear_hmac "key" "https://h.example" SLACK_AUDIENCE (pending_of ws "agt_1" "usr_1") "n" 900000);
  cq_code := Some "code"; cq_error := None;
  cq_cookie := Some ("salv_at=" +:+ issueAccessToken hex_encode clear_hmac "session" "https://h.example" ada 900000) |}.
Definition serve_here := serve (C := channel_rows) (CP := person_rows) hex_decode (λ s, s) clear_hmac clear_hmac Some (λ _, "") "v1".
Definition acme : Install := {| in_teamRef := "T1"; in_teamName := "Acme"; in_installerRef := ""; in_appRef := "A1"; in_accountRef := None |}.
Definition acme_row : ChannelDoc := Eval vm_compute in
  default (new_channel "" {| cc_type := ""; cc_agentId := ""; cc_modelBindingId := None; cc_tokenCredentialId := ""; cc_secretCredentialId := None; cc_identity := helper;
                             cc_connectCode := None; cc_connectCodeTtlMs := None; cc_install := None; cc_createdBy := "" |} 0)
    (ib_rows (serve_here no_installs (rq_slack (slack_env "1") (back_from "wks_1"))) !! "chn_1").

(** A Slack install, then a hello to the shared bot. *)
Definition say_hello : Request := rq_hello "https://h.example/" "7" (first_hello "/start abcd2345") (env_at "1" no_faults None).
Lemma installs_are_consented_witness :
  ch_type acme_row = "slack" ∧ ch_status acme_row = connected ∧
  consented_row hex_decode (λ s, s) clear_hmac Some [rq_slack (slack_env "1") (back_from "wks_1"); say_hello] acme_row acme.
Proof.
  split; [reflexivity|]. split; [reflexivity|].
  apply (installs_are_consented (C := channel_rows) (CP := person_rows) hex_decode (λ s, s) clear_hmac clear_hmac Some (λ _, "") "v1"
    [(no_installs, rq_slack (slack_env "1") (back_from "wks_1")); (no_installs, say_hello)] no_installs "chn_1" acme_row acme); [reflexivity|vm_compute; reflexivity|reflexivity].
Defined.

(** The second workspace that presses the button is sent back. *)
Definition two_installs := foldl serve_here no_installs [rq_slack (slack_env "1") (back_from "wks_1"); rq_slack (slack_env "2") (back_from "wks_2")].
Lemma platform_workspaces_have_one_owner_witness :
  ib_rows two_installs !! "chn_2" = None ∧ ∀ id d, ib_rows two_installs !! id = Some d → ch_type d = "slack" → ch_install d = Some acme → "wks_1" = ch_workspaceId d.
Proof.
  split; [vm_compute; reflexivity|]. intros id d Hd Et Ei.
  apply (platform_workspaces_have_one_owner (C := channel_rows) (CP := person_rows) hex_decode (λ s, s) clear_hmac clear_hmac Some (λ _, "") "v1"
    [rq_slack (slack_env "1") (back_from "wks_1"); rq_slack (slack_env "2") (back_from "wks_2")] no_installs "chn_1" id acme_row d acme acme);
    [reflexivity|vm_compute; reflexivity|exact Hd|by rewrite Et|by left|reflexivity|exact Ei|reflexivity].
Defined.

Lemma install_states_come_back_witness :
  readInstallState hex_decode clear_hmac (signInstallState hex_encode clear_hmac "key" "https://h.example" SLACK_AUDIENCE (pending_of "wks_1" "agt_1" "usr_1") "n" 900000)
    "key" "https://h.example" SLACK_AUDIENCE 1000000 = Ret (Some (pending_of "wks_1" "agt_1" "usr_1")).
Proof. apply (install_states_come_back hex_encode hex_decode clear_hmac hex_round hex_no_dot). discriminate. Defined.

(** Two people finish at the same time: both look before either writes, and both of our
    workspaces are connected to the same workspace of Slack. *)
Definition check_here := slack_check (C := channel_rows) (CP := person_rows) hex_decode (λ s, s) clear_hmac Some.
Definition file_here := slack_file (C := channel_rows) (CP := person_rows).
Example simultaneous_installs_share_a_workspace :
  ∃ g1 g2, check_here (slack_env "1") (back_from "wks_1") no_installs = inr g1 ∧ check_here (slack_env "2") (back_from "wks_2") no_installs = inr g2 ∧
  let db := (file_here (slack_env "2") g2 (file_here (slack_env "1") g1 no_installs).2).2 in
  map (λ id, (λ d, (ch_workspaceId d, in_teamRef <$> ch_install d)) <$> ib_rows db !! id) ["chn_1"; "chn_2"] = [Some ("wks_1", Some "T1"); Some ("wks_2", Some "T1")].
Proof. eexists _, _. split; [vm_compute; reflexivity|]. split; [vm_compute; reflexivity|]. vm_compute. reflexivity. Qed.

(** A state whose header is null, which anybody can write, ends in an exception instead of
    a way back. *)
Definition null_state : CallbackQuery := {|
  cq_state := Some (hex_encode "null" +:+ "." +:+ hex_encode "null" +:+ "." +:+ hex_encode ""); cq_code := None; cq_error := None; cq_cookie := None |}.
Example null_headers_end_in_an_exception : check_here (slack_env "1") null_state no_installs = inl an_crash.
Proof. vm_compute. reflexivity. Qed.

(** Connecting again replaces the connection and leaves what its credentials held. *)
Definition pasted : ConnectInput := {| ci_channel := "telegram"; ci_token := "123:AA"; ci_signingSecret := None; ci_extra := None; ci_agentId := "agt_1"; ci_modelBindingId := None |}.
Example replaced_tokens_are_kept :
  let db := foldl serve_here no_installs [rq_connect (slack_env "1") "wks_1" "usr_1" pasted; rq_connect (slack_env "2") "wks_1" "usr_1" pasted; rq_disconnect "wks_1" "chn_2"] in
  ib_rows db = ∅ ∧ cr_plaintext <$> (ib_vault db !! "crd_1") = Some "123:AA" ∧ ib_vault db !! "crd_2" = None.
Proof. vm_compute. split_and!; reflexivity. Qed.

(** The pin of a number outlives its connection, and nothing names it. *)
Example pins_are_left_behind :
  let db := foldl serve_here no_installs [rq_whatsapp (env_for meta_says "1") "wks_1" "agt_1" "usr_1" "code" (Some "106540") (Some "20001"); rq_disconnect "wks_1" "chn_1"] in
  ib_rows db = ∅ ∧ ib_vault db !! "crd_1" = None ∧ cr_plaintext <$> (ib_vault db !! "crd_s1") = Some "000042".
Proof. vm_compute. split_and!; reflexivity. Qed.
