(* ===== verification/Zip.v ===== *)
(** * Reading a zip archive

    Models packages/knowledge/src/zip.ts on bytes.  Decompression (node:zlib) and the
    decoding of names are arguments; a read past the end of the archive is the
    RangeError that a DataView throws.  [archive_of] writes the format with the parts a
    reader has to step over (extra fields, comments, data descriptors), for the theorem
    that what is written is read back. *)
From S2P Require Import Prelude Text.

Notation bytes := (list Z).
Definition END_OF_CENTRAL_DIRECTORY : Z := 101010256.
Definition CENTRAL_FILE_HEADER : Z := 33639248.
Definition LOCAL_FILE_HEADER : Z := 67324752.
Definition STORED : Z := 0.
Definition DEFLATED : Z := 8.

Record ZipEntry := { ze_path : string; ze_size : Z; ze_bytes : bytes }.
Record ReadZipOptions := { zo_maxEntryBytes : option Z; zo_maxEntries : option Z }.
Inductive ZipError := not_a_zip | zip64 | damaged | encrypted (path : string) | unknown_compression (path : string) | out_of_range | inflate_failed.

(** ** The view *)
Definition blen (a : bytes) : Z := Z.of_nat (length a).
Fixpoint byte_at (a : bytes) (i : Z) : option Z := match a with [] => None | x :: r => if i =? 0 then Some x else byte_at r (i - 1) end.
Definition getUint16 (a : bytes) (i : Z) : option Z := x ← byte_at a i; y ← byte_at a (i + 1); Some (x + 256 * y).
Definition getUint32 (a : bytes) (i : Z) : option Z := lo ← getUint16 a i; hi ← getUint16 a (i + 2); Some (lo + 65536 * hi).
(** [subarray(from, to)], which clamps. *)
Definition subarray (a : bytes) (from to : Z) : bytes := take (Z.to_nat (Z.min to (blen a) - from)) (drop (Z.to_nat (Z.min from (blen a))) a).

(** A field, or the RangeError. *)
Definition field {A} (f : option Z) (k : Z → outcome ZipError A) : outcome ZipError A := match f with Some n => k n | None => Throw out_of_range end.

(** [path.replace(/\\/g, '/')]. *)
Definition backslash : Ascii.ascii := Ascii.ascii_of_nat 92.
Definition slashes (s : string) : string := str_map (λ c, if Ascii.eqb c backslash then "/"%char else c) s.

Section Zip.
Context (inflate : bytes → option bytes) (decode : bytes → string).

(** The backward scan for the end record, [n] places from [i] down. *)
Fixpoint scan (a : bytes) (n : nat) (i : Z) : option Z :=
  match n with
  | O => None
  | S k => if bool_decide (getUint32 a i = Some END_OF_CENTRAL_DIRECTORY) then Some i else scan a k (i - 1)
  end.
Definition find_end (a : bytes) : option Z :=
  let last := blen a - 22 in scan a (Z.to_nat (last - Z.max 0 (last - 65535) + 1)) last.

(** One entry of the directory: what it says, and the offset of the next. *)
Record Header := { zh_flags : Z; zh_method : Z; zh_compressed : Z; zh_size : Z; zh_local : Z; zh_path : string; zh_next : Z }.
Definition header_at (a : bytes) (offset : Z) : outcome ZipError Header :=
  if (blen a <? offset + 46) || negb (bool_decide (getUint32 a offset = Some CENTRAL_FILE_HEADER)) then Throw damaged
  else field (getUint16 a (offset + 8)) (λ flags, field (getUint16 a (offset + 10)) (λ method, field (getUint32 a (offset + 20)) (λ compressedSize,
       field (getUint32 a (offset + 24)) (λ size, field (getUint16 a (offset + 28)) (λ nameLength, field (getUint16 a (offset + 30)) (λ extraLength,
       field (getUint16 a (offset + 32)) (λ commentLength, field (getUint32 a (offset + 42)) (λ localOffset,
       Ret {| zh_flags := flags; zh_method := method; zh_compressed := compressedSize; zh_size := size; zh_local := localOffset;
              zh_path := decode (subarray a (offset + 46) (offset + 46 + nameLength)); zh_next := offset + (46 + nameLength + extraLength + commentLength) |})))))))).

(** The bytes of an entry. *)
Definition content_at (a : bytes) (h : Header) : outcome ZipError bytes :=
  field (getUint32 a (zh_local h)) (λ signature,
  if negb (signature =? LOCAL_FILE_HEADER) then Throw damaged
  else field (getUint16 a (zh_local h + 26)) (λ localNameLength, field (getUint16 a (zh_local h + 28)) (λ localExtraLength,
       let start := zh_local h + 30 + localNameLength + localExtraLength in
       let raw := subarray a start (start + zh_compressed h) in
       if zh_method h =? STORED then Ret raw
       else if zh_method h =? DEFLATED then match inflate raw with Some b => Ret b | None => Throw inflate_failed end
       else Throw (unknown_compression (zh_path h))))).

(** The loop over the directory; [kept] entries have been read. *)
Fixpoint read_entries (a : bytes) (maxEntryBytes maxEntries : Z) (count : nat) (kept offset : Z) : outcome ZipError (list ZipEntry) :=
  match count with
  | O => Ret []
  | S count' =>
      if negb (kept <? maxEntries) then Ret []
      else match header_at a offset with
      | Throw e => Throw e
      | Ret h =>
          if str_ends "/" (zh_path h) then read_entries a maxEntryBytes maxEntries count' kept (zh_next h)
          else if Z.testbit (zh_flags h) 0 then Throw (encrypted (zh_path h))
          else if maxEntryBytes <? zh_size h then read_entries a maxEntryBytes maxEntries count' kept (zh_next h)
          else match content_at a h with
          | Throw e => Throw e
          | Ret content =>
              match read_entries a maxEntryBytes maxEntries count' (kept + 1) (zh_next h) with
              | Throw e => Throw e
              | Ret rest => Ret ({| ze_path := slashes (zh_path h); ze_size := zh_size h; ze_bytes := content |} :: rest)
              end
          end
      end
  end.

Definition readZip (a : bytes) (options : ReadZipOptions) : outcome ZipError (list ZipEntry) :=
  match find_end a with
  | None => Throw not_a_zip
  | Some end_ =>
      field (getUint16 a (end_ + 10)) (λ count, field (getUint32 a (end_ + 16)) (λ offset,
      if (count =? 65535) || (offset =? 4294967295) then Throw zip64
      else read_entries a (default 4000000 (zo_maxEntryBytes options)) (default 2000 (zo_maxEntries options)) (Z.to_nat count) 0 offset))
  end.

(** ** A writer *)

(** A file to write: its name, its content and how it is packed, with everything else the
    format allows around them: flags, the extra fields of both headers, a comment, and
    what follows the data (a data descriptor). *)
Record ZipFile := {
  zf_name : bytes; zf_content : bytes; zf_method : Z; zf_raw : bytes;
  zf_flags : Z; zf_extra : bytes; zf_localExtra : bytes; zf_comment : bytes; zf_descriptor : bytes }.
Definition le16 (n : Z) : bytes := [n mod 256; n / 256 mod 256].
Definition le32 (n : Z) : bytes := le16 (n mod 65536) ++ le16 (n / 65536 mod 65536).
Definition local_head (f : ZipFile) : bytes :=
  le32 LOCAL_FILE_HEADER ++ le16 20 ++ le16 (zf_flags f) ++ le16 (zf_method f) ++ le16 0 ++ le16 0 ++ le32 0 ++ le32 (blen (zf_raw f)) ++ le32 (blen (zf_content f)) ++
  le16 (blen (zf_name f)) ++ le16 (blen (zf_localExtra f)).
Definition local_record (f : ZipFile) : bytes := local_head f ++ zf_name f ++ zf_localExtra f ++ zf_raw f ++ zf_descriptor f.
Definition central_head (offset : Z) (f : ZipFile) : bytes :=
  le32 CENTRAL_FILE_HEADER ++ le16 20 ++ le16 20 ++ le16 (zf_flags f) ++ le16 (zf_method f) ++ le16 0 ++ le16 0 ++ le32 0 ++ le32 (blen (zf_raw f)) ++
  le32 (blen (zf_content f)) ++ le16 (blen (zf_name f)) ++ le16 (blen (zf_extra f)) ++ le16 (blen (zf_comment f)) ++ le16 0 ++ le16 0 ++ le32 0 ++ le32 offset.
Definition central_record (offset : Z) (f : ZipFile) : bytes := central_head offset f ++ zf_name f ++ zf_extra f ++ zf_comment f.
Definition locals (files : list ZipFile) : bytes := concat (map local_record files).
Fixpoint directory (offset : Z) (files : list ZipFile) : bytes :=
  match files with [] => [] | f :: rest => central_record offset f ++ directory (offset + blen (local_record f)) rest end.
Definition end_record (count size offset : Z) (comment : bytes) : bytes :=
  le32 END_OF_CENTRAL_DIRECTORY ++ le16 0 ++ le16 0 ++ le16 count ++ le16 count ++ le32 size ++ le32 offset ++ le16 (blen comment) ++ comment.
Definition end_of (files : list ZipFile) (comment : bytes) : bytes :=
  end_record (Z.of_nat (length files)) (blen (directory 0 files)) (blen (locals files)) comment.
Definition archive_of (files : list ZipFile) (comment : bytes) : bytes := locals files ++ directory 0 files ++ end_of files comment.

(** What the importer takes: not a folder, and not above the limit. *)
Definition taken (maxEntryBytes : Z) (f : ZipFile) : bool := negb (str_ends "/" (decode (zf_name f))) && (blen (zf_content f) <=? maxEntryBytes).

(** What can be written: within the limits of the format, not encrypted, and, where it is
    taken, packed truly. *)
Definition packed (f : ZipFile) : Prop :=
  (zf_method f = STORED ∧ zf_raw f = zf_content f) ∨ (zf_method f = DEFLATED ∧ inflate (zf_raw f) = Some (zf_content f)).
Definition fits (f : ZipFile) : Prop :=
  (0 <= zf_method f < 65536 ∧ 0 <= zf_flags f < 65536) ∧ (blen (zf_name f) < 65536 ∧ blen (zf_extra f) < 65536 ∧ blen (zf_localExtra f) < 65536 ∧ blen (zf_comment f) < 65536) ∧
  blen (zf_raw f) < 4294967296 ∧ blen (zf_content f) < 4294967296.
Definition writable (maxEntryBytes : Z) (f : ZipFile) : Prop :=
  fits f ∧ Z.testbit (zf_flags f) 0 = false ∧ (taken maxEntryBytes f = true → packed f).
Definition entry_of (f : ZipFile) : ZipEntry := {| ze_path := slashes (decode (zf_name f)); ze_size := blen (zf_content f); ze_bytes := zf_content f |}.
Definition entries_of (maxEntryBytes : Z) (files : list ZipFile) : list ZipEntry := map entry_of (List.filter (taken maxEntryBytes) files).

(** Past the first byte of the end record its signature does not show again, where the scan
    would take it for the record. *)
Definition marked_once (files : list ZipFile) (comment : bytes) : Prop :=
  ∀ k, 0 < k <= blen comment → getUint32 (end_of files comment) k ≠ Some END_OF_CENTRAL_DIRECTORY.

(** ** Reading what was written *)

Lemma blen_app a b : blen (a ++ b) = blen a + blen b.
Proof. unfold blen. rewrite length_app. lia. Qed.
Lemma blen_nonneg a : 0 <= blen a.
Proof. unfold blen. lia. Qed.
Lemma byte_at_app a r k : 0 <= k → byte_at (a ++ r) (blen a + k) = byte_at r k.
Proof.
  intros Hk. induction a as [|x a IH]; [done|]. cbn [app byte_at]. unfold blen in *. cbn [length].
  destruct (Z.eqb_spec (Z.of_nat (S (length a)) + k) 0); [lia|]. rewrite <-IH. f_equal. lia.
Qed.
Lemma u16_app a r k : 0 <= k → getUint16 (a ++ r) (blen a + k) = getUint16 r k.
Proof. intros Hk. unfold getUint16. rewrite <-Z.add_assoc, !byte_at_app by lia. done. Qed.
Lemma u32_app a r k : 0 <= k → getUint32 (a ++ r) (blen a + k) = getUint32 r k.
Proof. intros Hk. unfold getUint32. rewrite <-Z.add_assoc, !u16_app by lia. done. Qed.
Lemma subarray_app a m r : subarray (a ++ m ++ r) (blen a) (blen a + blen m) = m.
Proof.
  unfold subarray. rewrite !blen_app. pose proof (blen_nonneg m). pose proof (blen_nonneg r). rewrite !Z.min_l by lia.
  replace (blen a + blen m - blen a) with (blen m) by lia. unfold blen. rewrite !Nat2Z.id, drop_app_length, take_app_length. done.
Qed.

(** The numbers that little-endian bytes spell. *)
Definition sum16 (n : Z) : Z := n mod 256 + 256 * (n / 256 mod 256).
Definition sum32 (n : Z) : Z := sum16 (n mod 65536) + 65536 * sum16 (n / 65536 mod 65536).
Lemma sum16_id n : 0 <= n < 65536 → sum16 n = n.
Proof. unfold sum16. intros Hn. Z.div_mod_to_equations. lia. Qed.
Lemma sum32_id n : 0 <= n < 4294967296 → sum32 n = n.
Proof. intros Hn. unfold sum32. rewrite !sum16_id by (Z.div_mod_to_equations; lia). Z.div_mod_to_equations. lia. Qed.

Definition true_header (offset : Z) (f : ZipFile) (at_ : Z) : Header := {|
  zh_flags := zf_flags f; zh_method := zf_method f; zh_compressed := blen (zf_raw f); zh_size := blen (zf_content f); zh_local := offset; zh_path := decode (zf_name f);
  zh_next := at_ + blen (central_record offset f) |}.

Lemma central_length offset f : blen (central_record offset f) = 46 + blen (zf_name f) + blen (zf_extra f) + blen (zf_comment f).
Proof. unfold central_record. rewrite !blen_app. change (blen (central_head offset f)) with 46. lia. Qed.
Lemma u32_start p rec : getUint32 (p ++ rec) (blen p) = getUint32 rec 0.
Proof. rewrite <-(u32_app p rec 0) by lia. f_equal. lia. Qed.

Lemma header_written p offset f r : fits f → 0 <= offset < 4294967296 →
  header_at (p ++ central_record offset f ++ r) (blen p) = Ret (true_header offset f (blen p)).
Proof.
  intros ((Hm & Hfl) & (Hn & He & _ & Hc) & Hraw & Hsize) Ho.
  pose proof (blen_nonneg (zf_name f)). pose proof (blen_nonneg (zf_extra f)). pose proof (blen_nonneg (zf_comment f)).
  pose proof (blen_nonneg (zf_raw f)). pose proof (blen_nonneg (zf_content f)). pose proof (blen_nonneg r).
  unfold header_at. rewrite blen_app, blen_app, central_length.
  destruct (Z.ltb_spec (blen p + (46 + blen (zf_name f) + blen (zf_extra f) + blen (zf_comment f) + blen r)) (blen p + 46)); [lia|].
  set (rec := central_record offset f ++ r). rewrite u32_start, !u16_app, !u32_app by lia.
  change (getUint32 rec 0) with (Some CENTRAL_FILE_HEADER). rewrite bool_decide_eq_true_2 by done. cbn [orb negb].
  change (getUint16 rec 8) with (Some (sum16 (zf_flags f))). change (getUint16 rec 10) with (Some (sum16 (zf_method f))).
  change (getUint32 rec 20) with (Some (sum32 (blen (zf_raw f)))). change (getUint32 rec 24) with (Some (sum32 (blen (zf_content f)))).
  change (getUint16 rec 28) with (Some (sum16 (blen (zf_name f)))). change (getUint16 rec 30) with (Some (sum16 (blen (zf_extra f)))).
  change (getUint16 rec 32) with (Some (sum16 (blen (zf_comment f)))). change (getUint32 rec 42) with (Some (sum32 offset)).
  rewrite !sum16_id, !sum32_id by lia. cbn [field]. unfold true_header. f_equal. f_equal; [|rewrite central_length; lia].
  f_equal. assert (p ++ rec = (p ++ central_head offset f) ++ zf_name f ++ (zf_extra f ++ zf_comment f ++ r)) as -> by (unfold rec, central_record; by rewrite <-!app_assoc).
  replace (blen p + 46) with (blen (p ++ central_head offset f)) by (rewrite blen_app; done). apply subarray_app.
Qed.

Lemma content_written p f r offset at_ : fits f → packed f → blen p = offset →
  content_at (p ++ local_record f ++ r) (true_header offset f at_) = Ret (zf_content f).
Proof.
  intros (_ & (Hn & _ & He & _) & _) Hp <-. pose proof (blen_nonneg (zf_name f)). pose proof (blen_nonneg (zf_localExtra f)).
  unfold content_at. cbn [zh_local zh_compressed zh_method zh_path true_header].
  set (rec := local_record f ++ r). rewrite u32_start, !u16_app by lia. change (getUint32 rec 0) with (Some LOCAL_FILE_HEADER).
  change (getUint16 rec 26) with (Some (sum16 (blen (zf_name f)))). change (getUint16 rec 28) with (Some (sum16 (blen (zf_localExtra f)))).
  rewrite !sum16_id by lia. cbn [field]. rewrite Z.eqb_refl. cbn [negb]. set (start := blen p + 30 + blen (zf_name f) + blen (zf_localExtra f)).
  set (before := p ++ local_head f ++ zf_name f ++ zf_localExtra f).
  assert (subarray (p ++ rec) start (start + blen (zf_raw f)) = zf_raw f) as ->.
  { assert (p ++ rec = before ++ zf_raw f ++ (zf_descriptor f ++ r)) as -> by (unfold rec, local_record, before; by rewrite <-!app_assoc).
    replace start with (blen before) by (unfold start, before; rewrite !blen_app; change (blen (local_head f)) with 30; lia). apply subarray_app. }
  destruct Hp as [[-> ->]|[-> ->]]; done.
Qed.

(** The loop over what was written, with [kept] entries read before. *)
Lemma entries_written files limit maxEntries p c1 tail kept :
  Forall (writable limit) files → blen p + blen (locals files) < 4294967296 →
  read_entries (p ++ locals files ++ c1 ++ directory (blen p) files ++ tail) limit maxEntries (length files) kept (blen (p ++ locals files ++ c1)) =
  Ret (take (Z.to_nat (maxEntries - kept)) (entries_of limit files)).
Proof.
  intros Hw. revert p c1 kept. induction Hw as [|f files (Hfit & Hplain & Hpacked) Hw IH]; intros p c1 kept Hlen; [unfold entries_of; cbn; by rewrite take_nil|].
  cbn [length locals map concat directory read_entries] in *. fold (locals files) in *. rewrite blen_app in Hlen. pose proof (blen_nonneg (locals files)). pose proof (blen_nonneg p).
  pose proof (blen_nonneg (local_record f)).
  destruct (Z.ltb_spec kept maxEntries) as [Hk|Hk]; cbn [negb]; [|by rewrite Z2Nat.nonpos by lia].
  set (all := p ++ (local_record f ++ locals files) ++ c1 ++ (central_record (blen p) f ++ directory (blen p + blen (local_record f)) files) ++ tail).
  set (q := p ++ (local_record f ++ locals files) ++ c1).
  assert (header_at all (blen q) = Ret (true_header (blen p) f (blen q))) as ->.
  { assert (all = q ++ central_record (blen p) f ++ (directory (blen p + blen (local_record f)) files ++ tail)) as -> by (unfold all, q; by rewrite <-!app_assoc).
    apply header_written; [done|lia]. }
  assert (∀ k, read_entries all limit maxEntries (length files) k (zh_next (true_header (blen p) f (blen q))) =
    Ret (take (Z.to_nat (maxEntries - k)) (entries_of limit files))) as Hrest.
  { intros k. cbn [zh_next true_header]. rewrite <-(IH (p ++ local_record f) (c1 ++ central_record (blen p) f)) by (rewrite ?blen_app; lia). f_equal.
    - unfold all. rewrite (blen_app p). by rewrite <-!app_assoc.
    - unfold q. rewrite !blen_app. lia. }
  rewrite !Hrest. cbn [zh_path zh_flags zh_size true_header]. unfold entries_of, taken in *. cbn [List.filter].
  destruct (str_ends "/" (decode (zf_name f))); cbn [negb andb] in *; [done|]. rewrite Hplain.
  destruct (Z.leb_spec (blen (zf_content f)) limit) as [Hle|Hle]; destruct (Z.ltb_spec limit (blen (zf_content f))); try lia; [|done].
  assert (content_at all (true_header (blen p) f (blen q)) = Ret (zf_content f)) as ->.
  { assert (all = p ++ local_record f ++ (locals files ++ c1 ++ (central_record (blen p) f ++ directory (blen p + blen (local_record f)) files) ++ tail)) as ->
      by (unfold all; by rewrite <-!app_assoc). by apply content_written; auto. }
  replace (Z.to_nat (maxEntries - kept)) with (S (Z.to_nat (maxEntries - (kept + 1)))) by lia. done.
Qed.

(** The scan stops at the first signature from the end. *)
Lemma scan_finds a i (m n : nat) : (m < n)%nat → getUint32 a i = Some END_OF_CENTRAL_DIRECTORY →
  (∀ k, 0 < k <= Z.of_nat m → getUint32 a (i + k) ≠ Some END_OF_CENTRAL_DIRECTORY) → scan a n (i + Z.of_nat m) = Some i.
Proof.
  revert n. induction m as [|m IH]; intros [|n] Hn Hi Hk; try lia; cbn [scan].
  - rewrite Z.add_0_r, bool_decide_eq_true_2 by done. done.
  - rewrite bool_decide_eq_false_2 by (apply Hk; lia). replace (i + Z.of_nat (S m) - 1) with (i + Z.of_nat m) by lia. apply IH; [lia|done|]. intros k ?. apply Hk. lia.
Qed.
Lemma end_found files comment : blen comment < 65536 → marked_once files comment →
  find_end (archive_of files comment) = Some (blen (locals files ++ directory 0 files)).
Proof.
  intros Hc Honce. set (pre := locals files ++ directory 0 files). set (rec := end_of files comment).
  assert (archive_of files comment = pre ++ rec) as E by (unfold archive_of, pre; by rewrite <-app_assoc). pose proof (blen_nonneg pre). pose proof (blen_nonneg comment).
  unfold find_end. rewrite E, blen_app. replace (blen rec) with (22 + blen comment) by (unfold rec, end_of, end_record; rewrite !blen_app; unfold blen; simpl; lia).
  replace (blen pre + (22 + blen comment) - 22) with (blen pre + Z.of_nat (length comment)) by (unfold blen; lia). apply scan_finds.
  - unfold blen in *. lia.
  - by rewrite u32_start.
  - intros k Hk. rewrite u32_app by lia. by apply Honce.
Qed.


(** Whatever is uploaded, what is read respects the limit on the number of entries, and no
    entry it declares to be larger than the limit is among them. *)
Theorem entries_are_within_limits a options entries :
  0 <= default 2000 (zo_maxEntries options) → readZip a options = Ret entries →
  Z.of_nat (length entries) <= default 2000 (zo_maxEntries options) ∧ Forall (λ e, ze_size e <= default 4000000 (zo_maxEntryBytes options)) entries.
Proof.
  intros Hmax. unfold readZip. destruct (find_end a) as [end_|]; [|done]. unfold field. destruct (getUint16 _ _) as [count|]; [|done]. destruct (getUint32 _ _) as [offset|]; [|done].
  destruct (_ || _); [done|]. set (limit := default 4000000 _). set (m := default 2000 _) in *.
  assert (∀ n kept offset es, 0 <= kept <= m → read_entries a limit m n kept offset = Ret es → kept + Z.of_nat (length es) <= m ∧ Forall (λ e, ze_size e <= limit) es) as Hgen.
  { induction n as [|n IH]; intros kept off es Hk; cbn [read_entries]; [intros [= <-]; split; [simpl; lia|constructor]|].
    destruct (Z.ltb_spec kept m) as [Hlt|]; cbn [negb]; [|intros [= <-]; split; [simpl; lia|constructor]]. destruct (header_at a off) as [h|]; [|done].
    destruct (str_ends _ _); [by apply IH|]. destruct (Z.testbit _ _); [done|]. destruct (Z.ltb_spec limit (zh_size h)) as [|Hle]; [by apply IH|].
    destruct (content_at a h) as [content|]; [|done]. destruct (read_entries a limit m n (kept + 1) (zh_next h)) as [rest|] eqn:Er; [|done].
    intros [= <-]. apply IH in Er as [Hr Hf]; [|lia]. split; [simpl; lia|by constructor]. }
  intros Hr. apply Hgen in Hr as [Hl Hf]; [|lia]. split; [lia|done].
Qed.
End Zip.

(** ** Two archives *)

Definition name_of (b : bytes) : string := foldr (λ c s, String (Ascii.ascii_of_N (Z.to_N c)) s) "" b.
Definition plain_file (name content : bytes) (method : Z) (raw : bytes) : ZipFile := {|
  zf_name := name; zf_content := content; zf_method := method; zf_raw := raw;
  zf_flags := 0; zf_extra := []; zf_localExtra := []; zf_comment := []; zf_descriptor := [] |}.
(** SOUL.md, stored, with a time stamp in its extra fields and a comment; a folder; a file
    that is too large; a note that is compressed to one byte, its sizes repeated after it;
    and one more file than is read. *)
Definition some_files : list ZipFile := [
  {| zf_name := [83; 79; 85; 76; 46; 109; 100]; zf_content := [104; 105]; zf_method := STORED; zf_raw := [104; 105];
     zf_flags := 2048; zf_extra := [85; 84; 1; 0; 3]; zf_localExtra := [85; 84; 2; 0; 3; 3]; zf_comment := [111; 107]; zf_descriptor := [] |};
  plain_file [97; 47] [] STORED [];
  plain_file [98] [1; 2; 3; 4] STORED [1; 2; 3; 4];
  {| zf_name := [97; 92; 98]; zf_content := [120; 120; 120]; zf_method := DEFLATED; zf_raw := [7];
     zf_flags := 8; zf_extra := []; zf_localExtra := []; zf_comment := []; zf_descriptor := [80; 75; 7; 8; 0; 0; 0; 0; 1; 0; 0; 0; 3; 0; 0; 0] |};
  plain_file [99] [5] STORED [5]].
Definition toy_inflate (b : bytes) : option bytes := match b with [7] => Some [120; 120; 120] | _ => None end.
Definition small : ReadZipOptions := {| zo_maxEntryBytes := Some 3; zo_maxEntries := Some 2 |}.
(** A comment that begins as the signature does. *)
Definition remark : bytes := [80; 75; 5; 7].

(** A second signature in the comment is taken for the end record: an archive that the
    format allows is then not read. *)
Example signature_in_the_comment_misleads :
  readZip toy_inflate name_of (archive_of some_files (le32 END_OF_CENTRAL_DIRECTORY ++ replicate 18 0)) small = Ret [].
Proof. vm_compute. reflexivity. Qed.
Lemma entries_are_within_limits_witness :
  ∃ entries, readZip toy_inflate name_of (archive_of some_files remark) small = Ret entries ∧ Z.of_nat (length entries) <= 2 ∧ Forall (λ e, ze_size e <= 3) entries.
Proof.
  eexists. split; [vm_compute; reflexivity|].
  apply (entries_are_within_limits toy_inflate name_of (archive_of some_files remark) small); [vm_compute; discriminate|vm_compute; reflexivity].
Defined.

(** The size that is compared with the limit is the one the directory declares: an entry
    that declares nothing is inflated whole. *)
Definition bomb : list ZipFile := [plain_file [97] [] DEFLATED [7]].
Example declared_sizes_are_trusted :
  readZip toy_inflate name_of (archive_of bomb []) {| zo_maxEntryBytes := Some 2; zo_maxEntries := None |} = Ret [{| ze_path := "a"; ze_size := 0; ze_bytes := [120; 120; 120] |}].
Proof. vm_compute. reflexivity. Qed.

(** An offset past the end is the exception of the view, not the refusal of a damaged
    archive. *)
Definition astray : bytes := directory 1000 [plain_file [97] [] STORED []] ++ end_record 1 47 0 [].
Example offsets_past_the_end_raise : readZip toy_inflate name_of astray small = Throw out_of_range.
Proof. vm_compute. reflexivity. Qed.
