(* ===== verification/Extract.v ===== *)
(** * Text from an upload

    Models packages/knowledge/src/extract.ts, office.ts and pdf.ts on UTF-16 code units
    ([Chunk.text]).  A global regular expression is a function that says whether it
    matches at the front of a text, how far, and what it captures ([Match]);
    [replace_all] and [matches] walk a text with it as [replace] and [matchAll] do.  The
    decoders of bytes, zlib and pdf.js are arguments. *)
From S2P Require Import Prelude Json Text Chunk Zip.

(** The code units of a literal, which has no character past U+00FF. *)
Fixpoint lit (s : string) : text := match s with EmptyString => [] | String c r => code_of c :: lit r end.

(** ** Global regular expressions *)

(** How many units a match takes, at least one, and what it stands for. *)
Definition Match (A : Type) := text → option (nat * A).

(** [skip] units belong to the last match. *)
Fixpoint matches {A} (m : Match A) (skip : nat) (s : text) : list A :=
  match s with
  | [] => []
  | c :: r => match skip with
              | S k => matches m k r
              | O => match m s with Some (S n, a) => a :: matches m n r | _ => matches m 0 r end
              end
  end.
Fixpoint replace_all (m : Match text) (skip : nat) (s : text) : text :=
  match s with
  | [] => []
  | c :: r => match skip with
              | S k => replace_all m k r
              | O => match m s with Some (S n, out) => out ++ replace_all m n r | _ => c :: replace_all m 0 r end
              end
  end.
(** The replacement may throw. *)
Fixpoint replace_or_throw (m : Match (outcome unit text)) (skip : nat) (s : text) : outcome unit text :=
  match s with
  | [] => Ret []
  | c :: r => match skip with
              | S k => replace_or_throw m k r
              | O => match m s with
                     | Some (S n, Throw e) => Throw e
                     | Some (S n, Ret out) => match replace_or_throw m n r with Ret rest => Ret (out ++ rest) | Throw e => Throw e end
                     | _ => match replace_or_throw m 0 r with Ret rest => Ret (c :: rest) | Throw e => Throw e end
                     end
              end
  end.

Definition in_units (lo hi c : Z) : bool := (lo <=? c) && (c <=? hi).
Definition low (c : Z) : Z := if in_units 65 90 c then c + 32 else c.
Definition word_unit (c : Z) : bool := in_units 65 90 c || in_units 97 122 c || in_units 48 57 c || (c =? 95).
Definition digit_unit (c : Z) : bool := in_units 48 57 c.
Definition hex_unit (c : Z) : bool := digit_unit c || in_units 97 102 (low c).
Definition letter_unit (c : Z) : bool := in_units 97 122 (low c).

(** A literal at the front, with or without regard to case; what follows it. *)
Fixpoint after (ci : bool) (p s : text) : option text :=
  match p, s with
  | [], _ => Some s
  | x :: p', y :: s' => if (if ci then low x =? low y else x =? y) then after ci p' s' else None
  | _ :: _, [] => None
  end.
(** [\b] behind a letter. *)
Definition boundary (s : text) : bool := match s with c :: _ => negb (word_unit c) | [] => true end.
(** What comes before the first occurrence of a literal. *)
Fixpoint until (ci : bool) (p s : text) : option text :=
  match after ci p s with
  | Some _ => Some []
  | None => match s with [] => None | c :: r => (λ t, c :: t) <$> until ci p r end
  end.
(** [open\b[\s\S]*?close], or without the boundary: the units of a match. *)
Definition lazily (ci bounded : bool) (open close : string) (s : text) : option nat :=
  r ← after ci (lit open) s;
  if bounded && negb (boundary r) then None
  else inner ← until ci (lit close) r; Some (String.length open + length inner + String.length close)%nat.
Definition dropping (m : text → option nat) (out : text) : Match text := λ s, n ← m s; Some (n, out).
(** [\s*]. *)
Definition past_spaces (s : text) : text := drop (run_length is_ws s) s.
Definition taken (s rest : text) : nat := (length s - length rest)%nat.

(** ** Tidying *)

Definition NL : Z := 10.
Definition newlines_of (s : text) : list text := split_re (λ _ s, match s with c :: _ => if c =? NL then Some 1%nat else None | [] => None end) None 0 [] s.
(** [replace(/[ \t]+/g, ' ')]. *)
Fixpoint squeeze (inside : bool) (s : text) : text :=
  match s with
  | [] => []
  | c :: r => if (c =? 32) || (c =? 9) then (if inside then squeeze true r else 32 :: squeeze true r) else c :: squeeze false r
  end.
(** [replace(/\n{3,}/g, '\n\n')]; [seen] line ends have come before. *)
Fixpoint collapse (seen : nat) (s : text) : text :=
  match s with
  | [] => []
  | c :: r => if c =? NL then (if (seen <? 2)%nat then c :: collapse (S seen) r else collapse seen r) else c :: collapse 0 r
  end.
(** [join('\n')]. *)
Fixpoint join_lines (lines : list text) : text := match lines with [] => [] | [l] => l | l :: rest => l ++ NL :: join_lines rest end.
Definition tidy (s : text) : text := trim (collapse 0 (join_lines (map (λ line, trim (squeeze false line)) (newlines_of s)))).

(** ** Entities *)

(** [String.fromCodePoint], which throws past the last code point. *)
Definition fromCodePoint (n : Z) : outcome unit text :=
  if 1114111 <? n then Throw tt
  else if n <? 65536 then Ret [n] else Ret [55296 + (n - 65536) / 1024; 56320 + (n - 65536) mod 1024].
Definition hex_value (c : Z) : Z := if digit_unit c then c - 48 else low c - 87.
Definition parse_base (base : Z) (digits : text) : Z := foldl (λ acc c, acc * base + hex_value c) 0 digits.

(** [&(#x[0-9a-f]+|#\d+|name);] with [name] a run of letters that [named] knows. *)
Definition entity (named : text → option text) : Match (outcome unit text) := λ s,
  r ← after false (lit "&") s;
  let numbered := match after true (lit "#x") r with
                  | Some h => let n := run_length hex_unit h in
                              if (0 <? n)%nat && bool_decide (head (drop n h) = Some 59) then Some ((n + 4)%nat, fromCodePoint (parse_base 16 (take n h))) else None
                  | None => match after false (lit "#") r with
                            | Some d => let n := run_length digit_unit d in
                                        if (0 <? n)%nat && bool_decide (head (drop n d) = Some 59) then Some ((n + 3)%nat, fromCodePoint (parse_base 10 (take n d))) else None
                            | None => None
                            end
                  end in
  match numbered with
  | Some found => Some found
  | None => let n := run_length letter_unit r in
            if (0 <? n)%nat && bool_decide (head (drop n r) = Some 59) then out ← named (map low (take n r)); Some ((n + 2)%nat, Ret out) else None
  end.

Definition ENTITIES : list (text * text) := [
  (lit "amp", lit "&"); (lit "lt", lit "<"); (lit "gt", lit ">"); (lit "quot", [34]); (lit "apos", lit "'"); (lit "nbsp", [32]);
  (* A name that every object has. *)
  (lit "constructor", lit "function Object() { [native code] }")].
(** An unknown name stands for itself, so that it is as if it did not match. *)
Definition decodeEntities (s : text) : outcome unit text := replace_or_throw (entity (λ name, jm_get name ENTITIES)) 0 s.

(** ** HTML *)

Definition m_br (s : text) : option nat :=
  r ← after false (lit "<") s; r ← after true (lit "br") (past_spaces r); let r := past_spaces r in
  let r := default r (after false (lit "/") r) in r ← after false (lit ">") r; Some (taken s r).
Definition BLOCKS : list string :=
  ["p"; "div"; "h1"; "h2"; "h3"; "h4"; "h5"; "h6"; "li"; "tr"; "section"; "article"; "header"; "footer"; "blockquote"; "pre"].
Definition m_block (s : text) : option nat :=
  r ← after false (lit "</") s; let r := past_spaces r in
  head (omap (λ name, q ← after true (lit name) r; q ← after false (lit ">") (past_spaces q); Some (taken s q)) BLOCKS).
Definition m_tag (s : text) : option nat :=
  r ← after false (lit "<") s; let n := run_length (λ c, negb (c =? 62)) r in
  if (0 <? n)%nat && bool_decide (head (drop n r) = Some 62) then Some (n + 2)%nat else None.

Definition stripHtml (html : text) : outcome unit text :=
  let withoutCode := replace_all (dropping (lazily false false "<!--" "-->") []) 0
    (replace_all (dropping (lazily true true "<style" "</style>") []) 0 (replace_all (dropping (lazily true true "<script" "</script>") []) 0 html)) in
  let withBreaks := replace_all (dropping m_tag [32]) 0 (replace_all (dropping m_block [NL; NL]) 0 (replace_all (dropping m_br [NL]) 0 withoutCode)) in
  match decodeEntities withBreaks with Ret t => Ret (tidy t) | Throw e => Throw e end.

(** ** Word *)

Definition OFFICE_ENTITIES : list (text * text) := [(lit "amp", lit "&"); (lit "lt", lit "<"); (lit "gt", lit ">"); (lit "quot", [34]); (lit "apos", lit "'")].
Definition decode_xml (s : text) : outcome unit text := replace_or_throw (entity (λ name, jm_get name OFFICE_ENTITIES)) 0 s.
Definition rep (c : Z) (out s : text) : text := flat_map (λ x, if x =? c then out else [x]) s.
Definition escape (s : text) : text := rep 62 (lit "&gt;") (rep 60 (lit "&lt;") (rep 38 (lit "&amp;") s)).

(** [<name\b[^>]*>([\s\S]*?)<\/name>]: the units, and the capture. *)
Definition element (name : string) : Match text := λ s,
  r ← after false (lit ("<" +:+ name)) s;
  if negb (boundary r) then None
  else let inside := drop (run_length (λ c, negb (c =? 62)) r) r in
       body ← after false (lit ">") inside;
       inner ← until false (lit ("</" +:+ name +:+ ">")) body;
       Some ((taken s body + length inner + String.length name + 3)%nat, inner).
(** [<name\s*\/>]. *)
Definition empty_element (name : string) (s : text) : option nat :=
  r ← after false (lit ("<" +:+ name)) s; r ← after false (lit "/>") (past_spaces r); Some (taken s r).
(** [<w:p\b[^>]*\/>]. *)
Definition empty_paragraph (s : text) : option nat :=
  r ← after false (lit "<w:p") s;
  if negb (boundary r) then None
  else let n := run_length (λ c, negb (c =? 62)) r in
       if bool_decide (head (drop n r) = Some 62) && bool_decide (last (take n r) = Some 47) then Some (taken s r + n + 1)%nat else None.

(** What a run contributes: its text, a tab or a line end. *)
Definition run_match : Match (outcome unit text) := λ s,
  match element "w:t" s with
  | Some (n, inner) => Some (n, decode_xml inner)
  | None => match empty_element "w:tab" s with
            | Some n => Some (n, Ret [9])
            | None => match empty_element "w:br" s with
                      | Some n => Some (n, Ret [NL])
                      | None => match empty_element "w:cr" s with Some n => Some (n, Ret [NL]) | None => None end
                      end
            end
  end.
Fixpoint all_ret (l : list (outcome unit text)) : outcome unit (list text) :=
  match l with [] => Ret [] | Throw e :: _ => Throw e | Ret t :: r => match all_ret r with Ret ts => Ret (t :: ts) | Throw e => Throw e end end.
Definition paragraphText (inner : text) : outcome unit text := match all_ret (matches run_match 0 inner) with Ret ts => Ret (concat ts) | Throw e => Throw e end.

(** [replace(/\n+/g, ' ')]. *)
Fixpoint unlined (inside : bool) (s : text) : text :=
  match s with [] => [] | c :: r => if c =? NL then (if inside then unlined true r else 32 :: unlined true r) else c :: unlined false r end.
Fixpoint join_tabs (cells : list text) : text := match cells with [] => [] | [c] => c | c :: rest => c ++ 9 :: join_tabs rest end.
Definition whole (m : text → option nat) : Match text := λ s, n ← m s; Some (n, take n s).
(** A row of a table as one paragraph. *)
Definition row_paragraph (row : text) : outcome unit text :=
  match all_ret (map paragraphText (matches (whole (lazily false true "<w:tc" "</w:tc>")) 0 row)) with
  | Ret cells => Ret (lit "<w:p><w:t>" ++ escape (join_tabs (map (λ c, trim (unlined false c)) cells)) ++ lit "</w:t></w:p>")
  | Throw e => Throw e
  end.
Definition row_match : Match (outcome unit text) := λ s, n ← lazily false true "<w:tr" "</w:tr>" s; Some (n, row_paragraph (take n s)).
Definition paragraph_match : Match (outcome unit text) := λ s,
  match element "w:p" s with
  | Some (n, inner) => Some (n, paragraphText inner)
  | None => match empty_paragraph s with Some n => Some (n, Ret []) | None => None end
  end.
(** [replace(/[ \t]+$/gm, '')]. *)
Definition blank_unit (c : Z) : bool := (c =? 32) || (c =? 9).
Definition line_end (s : text) : bool := match s with [] => true | c :: _ => (c =? NL) || (c =? 13) || (c =? 8232) || (c =? 8233) end.
Definition m_trailing (s : text) : option nat :=
  let n := run_length blank_unit s in if (0 <? n)%nat && line_end (drop n s) then Some n else None.
Definition textOfWordXml (xml : text) : outcome unit text :=
  match replace_or_throw row_match 0 xml with
  | Throw e => Throw e
  | Ret withRows => match all_ret (matches paragraph_match 0 withRows) with
                    | Ret paragraphs => Ret (trim (collapse 0 (join_lines (map (replace_all (dropping m_trailing []) 0) paragraphs))))
                    | Throw e => Throw e
                    end
  end.

(** ** Any upload *)

Inductive TextKind := tk_text | tk_markdown | tk_html | tk_csv | tk_json.
Inductive UploadKind := uk_text (k : TextKind) | uk_pdf | uk_docx.
(** A refusal with its message, or another exception. *)
Inductive ExtractFailure := xf_unsupported (message : string) | xf_thrown.

Definition FORMATS : string := "PDF, Word (.docx), plain text, Markdown, HTML, CSV or JSON".
Definition zip_message (e : ZipError) : string :=
  let q := String (Ascii.ascii_of_nat 34) "" in
  match e with
  | not_a_zip => "That file is not a zip archive." | zip64 => "Zip64 archives are not supported. Zip the folder again without zip64."
  | damaged => "That zip archive is damaged." | encrypted path => q +:+ path +:+ q +:+ " is encrypted. Zip the folder without a password."
  | unknown_compression path => q +:+ path +:+ q +:+ " uses a compression this importer cannot read."
  | out_of_range => "Offset is outside the bounds of the DataView" | inflate_failed => "invalid deflate data"
  end.
(** [replace(/\r\n?/g, '\n').replace(/^\uFEFF/, '')]. *)
Fixpoint normalise_lines (s : text) : text :=
  match s with
  | [] => []
  | c :: r => if c =? 13 then NL :: match r with d :: r' => if d =? NL then normalise_lines r' else normalise_lines r | [] => [] end else c :: normalise_lines r
  end.
Definition drop_bom (s : text) : text := match s with c :: r => if c =? 65279 then r else s | [] => [] end.

Section Upload.
(** The strict and the lenient decoder, the names in an archive, zlib and pdf.js: opening
    may fail with a message, reading with another exception. *)
Context (utf8_strict : bytes → option text) (utf8 : bytes → text) (name : bytes → string) (inflate : bytes → option bytes) (pdf : bytes → outcome string (option text)).

Definition extractText (b : bytes) (kind : TextKind) : outcome ExtractFailure text :=
  match utf8_strict b with
  | None => Throw (xf_unsupported ("That file is not text. Upload " +:+ FORMATS +:+ "."))
  | Some t =>
      if existsb (λ c, c =? 0) t then Throw (xf_unsupported ("That file contains binary data. Upload " +:+ FORMATS +:+ "."))
      else let normalised := drop_bom (normalise_lines t) in
           match kind with
           | tk_html => match stripHtml normalised with Ret t => Ret t | Throw _ => Throw xf_thrown end
           | _ => Ret normalised
           end
  end.
Definition DOCX_LIMITS : ReadZipOptions := {| zo_maxEntryBytes := Some 50000000; zo_maxEntries := Some 500 |}.
Definition extractDocx (b : bytes) : outcome ExtractFailure text :=
  let again := " An older .doc file can be saved as .docx in Word first." in
  match readZip inflate name b DOCX_LIMITS with
  | Throw e => Throw (xf_unsupported ("That is not a Word document: " +:+ zip_message e +:+ again))
  | Ret entries =>
      match find (λ e, String.eqb (ze_path e) "word/document.xml") entries with
      | None => Throw (xf_unsupported ("That is not a Word document: it has no word/document.xml inside." +:+ again))
      | Some body => match textOfWordXml (utf8 (ze_bytes body)) with Ret t => Ret t | Throw _ => Throw xf_thrown end
      end
  end.
Definition extractPdf (b : bytes) : outcome ExtractFailure text :=
  match pdf b with
  | Ret (Some t) => Ret (tidy (normalise_lines t))
  | Ret None => Throw xf_thrown
  | Throw why => Throw (xf_unsupported ("That PDF could not be opened: " +:+ why))
  end.
Definition extractDocument (b : bytes) (kind : UploadKind) : outcome ExtractFailure text :=
  match kind with
  | uk_pdf => match extractPdf b with
              | Throw e => Throw e
              | Ret [] => Throw (xf_unsupported "That PDF has no text in it, only images of pages. Run it through OCR, or export the original as a PDF with text.")
              | Ret t => Ret t
              end
  | uk_docx => extractDocx b
  | uk_text k => extractText b k
  end.
End Upload.

(** ** Facts *)

(** What is escaped for a cell of a table is decoded to what it was. *)
Lemma rep_app c out a b : rep c out (a ++ b) = rep c out a ++ rep c out b.
Proof. unfold rep. apply flat_map_app. Qed.
Lemma escape_app a b : escape (a ++ b) = escape a ++ escape b.
Proof. unfold escape. by rewrite !rep_app. Qed.
Lemma replace_skip m k out s : length out = k → replace_or_throw m k (out ++ s) = replace_or_throw m 0 s.
Proof. revert out. induction k as [|k IH]; intros [|c out] Hl; try done. simpl. apply IH. by injection Hl. Qed.

Theorem escaped_cells_come_back s : decode_xml (escape s) = Ret s.
Proof.
  induction s as [|c s IH]; [done|]. change (c :: s) with ([c] ++ s). rewrite escape_app. unfold escape at 1, rep. cbn [flat_map app].
  assert (∀ entity_ : string, ∀ out, entity (λ name, jm_get name OFFICE_ENTITIES) (lit entity_ ++ escape s) = Some (String.length entity_, Ret out) → (0 < String.length entity_)%nat →
    decode_xml (lit entity_ ++ escape s) = Ret (out ++ s)) as Hent.
  { intros e out Hm Hl. unfold decode_xml in *. destruct e as [|x e]; [simpl in Hl; lia|]. cbn [lit app String.length] in Hm |- *. cbn [replace_or_throw]. rewrite Hm.
    rewrite replace_skip by (clear; induction e; simpl; auto). by rewrite IH. }
  destruct (Z.eqb_spec c 38) as [->|H38]; [apply (Hent "&amp;" [38]); [reflexivity|simpl; lia]|].
  cbn [app flat_map]. destruct (Z.eqb_spec c 60) as [->|H60]; [apply (Hent "&lt;" [60]); [reflexivity|simpl; lia]|].
  cbn [app flat_map]. destruct (Z.eqb_spec c 62) as [->|H62]; [apply (Hent "&gt;" [62]); [reflexivity|simpl; lia]|].
  cbn [app]. unfold decode_xml in *. cbn [replace_or_throw].
  assert (entity (λ name, jm_get name OFFICE_ENTITIES) (c :: escape s) = None) as ->; [|by rewrite IH].
  unfold entity. cbn [after lit]. change (code_of "&") with 38. destruct (Z.eqb_spec 38 c); [lia|done].
Qed.

(** Line ends in a row are counted. *)
Fixpoint runs_ok (seen : nat) (s : text) : Prop :=
  match s with [] => True | c :: r => if c =? NL then (seen < 2)%nat ∧ runs_ok (S seen) r else runs_ok 0 r end.
Lemma collapse_runs seen s : runs_ok seen (collapse seen s).
Proof.
  revert seen. induction s as [|c s IH]; intros seen; [done|]. cbn [collapse]. destruct (c =? NL) eqn:E.
  - destruct (Nat.ltb_spec seen 2); [|apply IH]. cbn [runs_ok]. rewrite E. split; [done|apply IH].
  - cbn [runs_ok]. rewrite E. apply IH.
Qed.
Lemma runs_suffix seen a b : runs_ok seen (a ++ b) → ∃ m, runs_ok m b.
Proof.
  revert seen. induction a as [|c a IH]; intros seen Hr; [eauto|]. cbn [app runs_ok] in Hr. destruct (c =? NL); [by eapply IH, Hr|by eapply IH].
Qed.
Lemma runs_no_triple seen s : runs_ok seen s → ¬ infix [NL; NL; NL] s.
Proof. intros Hr (a & b & ->). apply runs_suffix in Hr as [m Hr]. cbn [app runs_ok] in Hr. change (NL =? NL) with true in Hr. cbn in Hr. lia. Qed.

(** What is trimmed is a part of what it was. *)
Lemma trim_part s : ∃ a b, s = a ++ trim s ++ b.
Proof.
  destruct (trimStart_split s) as [a Ea]. unfold trim, trimEnd. destruct (trimStart_split (rev (trimStart s))) as [b Eb].
  apply (f_equal (@rev Z)) in Eb. rewrite rev_involutive, rev_app_distr in Eb. exists a, (rev b). rewrite <-Eb. exact Ea.
Qed.
Lemma trim_infix p s : infix p (trim s) → infix p s.
Proof. destruct (trim_part s) as (a & b & E). intros (x & y & Et). exists (a ++ x), (y ++ b). rewrite E, Et. by rewrite <-!app_assoc. Qed.
Lemma trim_forall (P : Z → Prop) s : Forall P s → Forall P (trim s).
Proof. destruct (trim_part s) as (a & b & E). rewrite E at 1. rewrite !Forall_app. tauto. Qed.

Lemma squeeze_no_tab inside s : Forall (λ c, c ≠ 9) (squeeze inside s).
Proof.
  revert inside. induction s as [|c s IH]; intros inside; [constructor|]. cbn [squeeze]. destruct (c =? 32) eqn:E1; [destruct inside; [apply IH|by constructor]|].
  destruct (Z.eqb_spec c 9); cbn [orb]; [destruct inside; [apply IH|by constructor]|by constructor].
Qed.
Lemma join_forall (P : Z → Prop) lines : P NL → Forall (Forall P) lines → Forall P (join_lines lines).
Proof.
  intros HN Hl. induction Hl as [|l lines Hl Hls IH]; [constructor|]. destruct lines as [|l' lines]; [done|]. change (Forall P (l ++ NL :: join_lines (l' :: lines))).
  apply Forall_app. split; [done|]. by constructor.
Qed.
Lemma collapse_forall (P : Z → Prop) seen s : Forall P s → Forall P (collapse seen s).
Proof. intros Hs. revert seen. induction Hs as [|c s Hc Hs IH]; intros seen; [constructor|]. cbn [collapse]. destruct (c =? NL); [destruct (seen <? 2)%nat|]; auto. Qed.

Definition is_tidy (t : text) : Prop := (t = [] ∨ solid t) ∧ ¬ infix [NL; NL; NL] t ∧ Forall (λ c, c ≠ 9) t.
Lemma tidy_tidies s : is_tidy (tidy s).
Proof.
  unfold tidy. split_and!.
  - apply trim_solid.
  - intros Hi%trim_infix. eapply runs_no_triple, Hi. apply collapse_runs.
  - apply trim_forall, collapse_forall, join_forall; [done|]. apply Forall_map, Forall_forall. intros line _. apply trim_forall, squeeze_no_tab.
Qed.

Lemma normalise_no_cr s : Forall (λ c, c ≠ 13) (normalise_lines s).
Proof.
  assert (∀ n s, (length s <= n)%nat → Forall (λ c, c ≠ 13) (normalise_lines s)) as Hgen; [|by apply (Hgen (length s))].
  induction n as [|n IH]; intros [|c r] Hl; try constructor; [simpl in Hl; lia|]. cbn [normalise_lines]. simpl in Hl. destruct (Z.eqb_spec c 13).
  - constructor; [done|]. destruct r as [|d r']; [constructor|]. simpl in Hl. destruct (d =? NL); apply IH; simpl; lia.
  - constructor; [done|]. apply IH. lia.
Qed.
Lemma normalise_subset s c : c ∈ normalise_lines s → c = NL ∨ c ∈ s.
Proof.
  assert (∀ n s, (length s <= n)%nat → c ∈ normalise_lines s → c = NL ∨ c ∈ s) as Hgen; [|by apply (Hgen (length s))].
  induction n as [|n IH]; intros [|x r] Hl Hin; [by right|simpl in Hl; lia|by right|]. cbn [normalise_lines] in Hin. simpl in Hl. destruct (x =? 13).
  - apply elem_of_cons in Hin as [->|Hin]; [by left|]. destruct r as [|d r']; [by apply elem_of_nil in Hin|]. simpl in Hl.
    destruct (d =? NL); (apply IH in Hin as [?|?]; [by left|right; set_solver|simpl; lia]).
  - apply elem_of_cons in Hin as [->|Hin]; [right; by left|]. apply IH in Hin as [?|?]; [by left|right; by right|lia].
Qed.
Lemma drop_bom_subset s c : c ∈ drop_bom s → c ∈ s.
Proof. destruct s as [|x r]; [done|]. cbn [drop_bom]. destruct (x =? 65279); [by right|done]. Qed.

(** What is extracted: from HTML and PDF a tidy text, trimmed, without tabs and never more
    than one blank line in a row; from the other text formats no carriage return and no
    NUL.  A PDF without text is refused. *)
Theorem extracted_text_is_clean utf8_strict utf8 name inflate pdf b kind t :
  extractDocument utf8_strict utf8 name inflate pdf b kind = Ret t →
  match kind with
  | uk_pdf => t ≠ [] ∧ is_tidy t
  | uk_text tk_html => is_tidy t
  | uk_text _ => ∀ c, c ∈ t → c ≠ 13 ∧ c ≠ 0
  | uk_docx => (t = [] ∨ solid t) ∧ ¬ infix [NL; NL; NL] t
  end.
Proof.
  destruct kind as [k| |]; cbn [extractDocument].
  - unfold extractText. destruct (utf8_strict b) as [s|]; [|done]. destruct (existsb _ s) eqn:E0; [done|]. rewrite existsb_false in E0.
    assert (∀ c, c ∈ drop_bom (normalise_lines s) → c ≠ 13 ∧ c ≠ 0) as Hplain.
    { intros c Hc%drop_bom_subset. split; [by eapply Forall_forall in Hc; [|apply normalise_no_cr]|]. intros ->.
      apply normalise_subset in Hc as [[=]|Hc]. by apply E0 in Hc. }
    destruct k; try (by intros [= <-]). unfold stripHtml. destruct (decodeEntities _); [|done]. intros [= <-]. apply tidy_tidies.
  - unfold extractPdf. destruct (pdf b) as [[s|]|]; [|done..]. destruct (tidy (normalise_lines s)) as [|c r] eqn:E; [done|]. intros [= <-]. split; [done|]. rewrite <-E. apply tidy_tidies.
  - unfold extractDocx. destruct (readZip _ _ _ _) as [entries|]; [|done]. destruct (find _ _) as [body|]; [|done]. unfold textOfWordXml.
    destruct (replace_or_throw _ _ _) as [rows|]; [|done]. destruct (all_ret _) as [ps|]; [|done]. intros [= <-]. split; [apply trim_solid|].
    intros Hi%trim_infix. eapply runs_no_triple, Hi. apply collapse_runs.
Qed.

(** ** Some uploads *)

Definition as_units (b : bytes) : option text := Some b.
Definition page : text := lit "<style>x</style><h1>Hours</h1><p>We open at <b>9</b> &amp; close at 5.</p>".
Lemma extracted_text_is_clean_witness :
  ∃ t, extractDocument as_units (λ b, b) name_of toy_inflate (λ _, Throw "") page (uk_text tk_html) = Ret t ∧ is_tidy t.
Proof.
  eexists. split; [vm_compute; reflexivity|].
  apply (extracted_text_is_clean as_units (λ b, b) name_of toy_inflate (λ _, Throw "") page (uk_text tk_html)). vm_compute. reflexivity.
Defined.
Example the_page : stripHtml page = Ret (lit "Hours" ++ [NL; NL] ++ lit "We open at 9 & close at 5.").
Proof. vm_compute. reflexivity. Qed.

(** A table keeps its cells, and what was escaped in them. *)
Example a_price_list :
  textOfWordXml (lit "<w:tbl><w:tr><w:tc><w:p><w:r><w:t>Tea &amp; cake</w:t></w:r></w:p></w:tc><w:tc><w:p><w:r><w:t>4</w:t></w:r></w:p></w:tc></w:tr></w:tbl><w:p w:x=''><w:r><w:t>Daily.</w:t></w:r></w:p>") =
  Ret (lit "Tea & cake" ++ [9] ++ lit "4" ++ [NL] ++ lit "Daily.").
Proof. vm_compute. reflexivity. Qed.

(** A character past the last code point ends the upload with an exception. *)
Example large_references_throw : stripHtml (lit "&#1114112;") = Throw tt ∧ textOfWordXml (lit "<w:p><w:t>&#x110000;</w:t></w:p>") = Throw tt.
Proof. split; vm_compute; reflexivity. Qed.
(** A NUL that is written as a reference is not refused. *)
Example referenced_nul : extractText as_units (lit "a&#0;b") tk_html = Ret [97; 0; 98].
Proof. vm_compute. reflexivity. Qed.
(** The name that every object has is an entity. *)
Example inherited_entities : stripHtml (lit "&constructor;") = Ret (lit "function Object() { [native code] }").
Proof. vm_compute. reflexivity. Qed.
(** An empty paragraph is read as the opening of the next one: the blank line between two
    paragraphs is lost. *)
Example empty_paragraphs_join : textOfWordXml (lit "<w:p><w:t>a</w:t></w:p><w:p/><w:p><w:t>b</w:t></w:p>") = Ret (lit "a" ++ [NL] ++ lit "b").
Proof. vm_compute. reflexivity. Qed.
