(* ===== verification/Settings.v ===== *)
(** * The deployment's own settings

    Models lib/platform-settings.ts, packages/db/src/repositories/platform-settings.ts,
    lib/fish-voice.ts up to the call, and the admin route over them: a value kept in
    the database wins over the environment, a secret is sealed to its key, what was
    read is trusted for a minute.  [SettingStep] interleaves the commands of all
    instances with the loads of one process.  The environment, the clock, the verdicts
    of vendors and the random draws are arguments; a character beyond Latin-1 is
    written as the bytes of its UTF-8 form. *)
From S2P Require Import Prelude Json Text Numbers Envelope Mongo Jwt Accounts Providers Catalog.

#[local] Open Scope host_scope.

(** ** The settings there are *)

Inductive SettingGroup := g_ai | g_voice | g_telegram | g_slack | g_discord | g_meta | g_linkedin | g_google.
#[global] Instance SettingGroup_eq_dec : EqDecision SettingGroup.
Proof. solve_decision. Defined.
Record SettingOption := { so_value : string; so_label : string }.
Record PlatformSettingSpec := {
  sp_key : string; sp_env : string; sp_label : string; sp_help : string; sp_secret : bool; sp_group : SettingGroup; sp_placeholder : option string;
  sp_options : option (list SettingOption) }.
Record VendorAddress := { va_label : string; va_path : string; va_where : string }.
Record GroupInfo := { gi_title : string; gi_lede : string; gi_addresses : list VendorAddress }.

Definition REALTIME_VOICES : list string := ["marin"; "cedar"; "alloy"; "ash"; "ballad"; "coral"; "echo"; "sage"; "shimmer"; "verse"].
Definition capitalised (v : string) : string := toUpperCase (str_take 1 v) +:+ str_drop 1 v.

Definition SETTING_GROUPS : list (SettingGroup * GroupInfo) := [
  (g_ai, {| gi_title := "Yashayah";
     gi_lede := "The included model: the third option beside Claude and OpenAI, for people who want to work without connecting a key of their own. The deployment pays the vendor; each workspace gets a monthly allowance.";
     gi_addresses := [] |});
  (g_voice, {| gi_title := "Landing page voice";
     gi_lede := "The OpenAI key the voice console on the front page runs on: OpenAI hears the visitor and Jarvis answers. Each visitor gets a few questions an hour and the site a few hundred a day. Empty uses the Yashayah key when Yashayah runs on OpenAI; with neither, the console falls back to scripted answers in the browser. With a Fish key and voice, Fish speaks the answers.";
     gi_addresses := [] |});
  (g_telegram, {| gi_title := "Telegram bot";
     gi_lede := "The bot behind " +:+ dquote +:+ "Connect Telegram" +:+ dquote +:+ ": one bot, made once with BotFather, that every workspace talks to. YASHAYAH points its webhook at itself the first time anyone presses the button; nothing to paste into Telegram.";
     gi_addresses := [] |});
  (g_slack, {| gi_title := "Slack app";
     gi_lede := "The app behind " +:+ dquote +:+ "Add to Slack" +:+ dquote +:+ ". From api.slack.com/apps, Basic Information.";
     gi_addresses := [{| va_label := "Redirect URL"; va_path := "/api/channels/slack/callback"; va_where := "OAuth & Permissions → Redirect URLs, then Save URLs" |}; {| va_label := "Request URL"; va_path := "/api/channels/slack/app"; va_where := "Event Subscriptions, and again under Interactivity & Shortcuts" |}] |});
  (g_discord, {| gi_title := "Discord application";
     gi_lede := "The application behind " +:+ dquote +:+ "Add to Discord" +:+ dquote +:+ ". From the Discord developer portal.";
     gi_addresses := [{| va_label := "Redirect"; va_path := "/api/channels/discord/callback"; va_where := "OAuth2 → Redirects" |}; {| va_label := "Interactions Endpoint URL"; va_path := "/api/channels/discord/app"; va_where := "General Information, once these keys are saved" |}] |});
  (g_meta, {| gi_title := "Meta app";
     gi_lede := "Instagram and Facebook publishing, and WhatsApp in one press. From developers.facebook.com.";
     gi_addresses := [{| va_label := "Valid OAuth Redirect URI"; va_path := "/api/mcp/callback"; va_where := "Facebook Login for Business → Settings" |}; {| va_label := "WhatsApp callback URL"; va_path := "/api/channels/whatsapp/app"; va_where := "WhatsApp → Configuration, with the verify token below" |}] |});
  (g_linkedin, {| gi_title := "LinkedIn app";
     gi_lede := "LinkedIn publishing. From the LinkedIn developer portal, under Auth.";
     gi_addresses := [{| va_label := "Redirect URL"; va_path := "/api/mcp/callback"; va_where := "Auth → OAuth 2.0 settings" |}] |});
  (g_google, {| gi_title := "Google Workspace client";
     gi_lede := "Gmail, Calendar and Drive. A Cloud project of its own, so Workspace review does not hold up sign-in.";
     gi_addresses := [{| va_label := "Authorised redirect URI"; va_path := "/api/mcp/callback"; va_where := "The OAuth client in Google Cloud" |}] |})].
Definition PLATFORM_SETTINGS : list PlatformSettingSpec := [
  {| sp_key := "platform_ai_api_key"; sp_env := "PLATFORM_AI_API_KEY"; sp_label := "API key";
     sp_help := "The vendor key Yashayah runs on. Rotating it here takes effect within a minute.";
     sp_secret := true; sp_group := g_ai; sp_placeholder := Some "sk-…"; sp_options := None |};
  {| sp_key := "platform_ai_provider"; sp_env := "PLATFORM_AI_PROVIDER"; sp_label := "Vendor";
     sp_help := "Must match the key.";
     sp_secret := false; sp_group := g_ai; sp_placeholder := Some "openai"; sp_options := Some [{| so_value := "openai"; so_label := "OpenAI" |}; {| so_value := "anthropic"; so_label := "Claude (Anthropic)" |}] |};
  {| sp_key := "platform_ai_chat_model"; sp_env := "PLATFORM_AI_CHAT_MODEL"; sp_label := "Chat model";
     sp_help := "A catalogue model id for that vendor. Empty means the vendor's default.";
     sp_secret := false; sp_group := g_ai; sp_placeholder := Some "gpt-4.1"; sp_options := None |};
  {| sp_key := "platform_ai_monthly_usd_cap"; sp_env := "PLATFORM_AI_MONTHLY_USD_CAP"; sp_label := "Monthly allowance per workspace";
     sp_help := "In dollars. Once a workspace has spent this much of Yashayah in a month it is asked to bring its own key or wait.";
     sp_secret := false; sp_group := g_ai; sp_placeholder := Some "25"; sp_options := None |};
  {| sp_key := "platform_ai_base_url"; sp_env := "PLATFORM_AI_BASE_URL"; sp_label := "Base URL";
     sp_help := "Only for a proxy or a compatible endpoint. Empty means the vendor's own.";
     sp_secret := false; sp_group := g_ai; sp_placeholder := Some "https://"; sp_options := None |};
  {| sp_key := "landing_voice_openai_key"; sp_env := "LANDING_VOICE_OPENAI_KEY"; sp_label := "OpenAI API key";
     sp_help := "Checked with OpenAI before it is kept. Visitors to the landing page spend it, within the limits above.";
     sp_secret := true; sp_group := g_voice; sp_placeholder := Some "sk-…"; sp_options := None |};
  {| sp_key := "landing_voice_realtime_model"; sp_env := "LANDING_VOICE_REALTIME_MODEL"; sp_label := "Live voice model";
     sp_help := "The OpenAI Realtime model visitors talk to, speech to speech. Empty means gpt-realtime. If OpenAI refuses it, the console falls back to hearing, then answering.";
     sp_secret := false; sp_group := g_voice; sp_placeholder := Some "gpt-realtime"; sp_options := None |};
  {| sp_key := "landing_voice_voice"; sp_env := "LANDING_VOICE_VOICE"; sp_label := "Voice";
     sp_help := "The voice Jarvis speaks with on the live call. Empty means ballad.";
     sp_secret := false; sp_group := g_voice; sp_placeholder := Some "ballad"; sp_options := Some (map (λ v, {| so_value := v; so_label := capitalised v |}) REALTIME_VOICES) |};
  {| sp_key := "landing_voice_fish_key"; sp_env := "FISH_API_KEY"; sp_label := "Fish Audio API key";
     sp_help := "With a Fish voice below, Fish reads Jarvis's answers aloud instead of OpenAI's live call: OpenAI still hears the visitor and writes the answer. Checked with Fish before it is kept.";
     sp_secret := true; sp_group := g_voice; sp_placeholder := Some "sk-fish-…"; sp_options := None |};
  {| sp_key := "landing_voice_fish_voice"; sp_env := "FISH_VOICE_ID"; sp_label := "Fish voice";
     sp_help := "The id of the Fish voice model, from its page on fish.audio (fish.audio/m/<id>). Use a voice you are licensed to use commercially, not a clone of a real person without their consent.";
     sp_secret := false; sp_group := g_voice; sp_placeholder := Some "voice model id"; sp_options := None |};
  {| sp_key := "landing_voice_fish_model"; sp_env := "FISH_TTS_MODEL"; sp_label := "Fish model";
     sp_help := "The Fish speech model. Empty means s2.1-pro-free, the one a key with no paid credit can use; s2.1-pro once the account has API credit.";
     sp_secret := false; sp_group := g_voice; sp_placeholder := Some "s2.1-pro-free"; sp_options := None |};
  {| sp_key := "telegram_bot_token"; sp_env := "TELEGRAM_BOT_TOKEN"; sp_label := "Bot token";
     sp_help := "The line BotFather sends after " +:+ dquote +:+ "Use this token to access the HTTP API" +:+ dquote +:+ ". Rotating it here updates every connected chat within a day.";
     sp_secret := true; sp_group := g_telegram; sp_placeholder := Some "123456789:AA…"; sp_options := None |};
  {| sp_key := "slack_client_id"; sp_env := "SLACK_CLIENT_ID"; sp_label := "Client ID";
     sp_help := "Basic Information → App Credentials.";
     sp_secret := false; sp_group := g_slack; sp_placeholder := None; sp_options := None |};
  {| sp_key := "slack_client_secret"; sp_env := "SLACK_CLIENT_SECRET"; sp_label := "Client secret";
     sp_help := "Basic Information → App Credentials.";
     sp_secret := true; sp_group := g_slack; sp_placeholder := None; sp_options := None |};
  {| sp_key := "slack_signing_secret"; sp_env := "SLACK_SIGNING_SECRET"; sp_label := "Signing secret";
     sp_help := "Basic Information → App Credentials. Verifies every delivery to the shared address.";
     sp_secret := true; sp_group := g_slack; sp_placeholder := None; sp_options := None |};
  {| sp_key := "discord_application_id"; sp_env := "DISCORD_APPLICATION_ID"; sp_label := "Application ID";
     sp_help := "General Information.";
     sp_secret := false; sp_group := g_discord; sp_placeholder := None; sp_options := None |};
  {| sp_key := "discord_public_key"; sp_env := "DISCORD_PUBLIC_KEY"; sp_label := "Public key";
     sp_help := "General Information. Verifies every interaction to the shared endpoint.";
     sp_secret := false; sp_group := g_discord; sp_placeholder := None; sp_options := None |};
  {| sp_key := "discord_client_secret"; sp_env := "DISCORD_CLIENT_SECRET"; sp_label := "Client secret";
     sp_help := "OAuth2.";
     sp_secret := true; sp_group := g_discord; sp_placeholder := None; sp_options := None |};
  {| sp_key := "discord_bot_token"; sp_env := "DISCORD_BOT_TOKEN"; sp_label := "Bot token";
     sp_help := "Bot → Reset Token. Every connected server holds a copy; rotating it here updates them within a day.";
     sp_secret := true; sp_group := g_discord; sp_placeholder := None; sp_options := None |};
  {| sp_key := "meta_app_id"; sp_env := "META_APP_ID"; sp_label := "App ID";
     sp_help := "Shown at the top of the App Dashboard.";
     sp_secret := false; sp_group := g_meta; sp_placeholder := None; sp_options := None |};
  {| sp_key := "meta_app_secret"; sp_env := "META_APP_SECRET"; sp_label := "App secret";
     sp_help := "App settings → Basic. Signs every WhatsApp delivery to the shared address.";
     sp_secret := true; sp_group := g_meta; sp_placeholder := None; sp_options := None |};
  {| sp_key := "meta_whatsapp_config_id"; sp_env := "META_WHATSAPP_CONFIG_ID"; sp_label := "WhatsApp sign-up configuration ID";
     sp_help := "Facebook Login for Business → Configurations, the one with Embedded Signup. Empty turns WhatsApp in one press off.";
     sp_secret := false; sp_group := g_meta; sp_placeholder := None; sp_options := None |};
  {| sp_key := "meta_whatsapp_verify_token"; sp_env := "META_WHATSAPP_VERIFY_TOKEN"; sp_label := "WhatsApp webhook verify token";
     sp_help := "The same string typed beside the callback URL under WhatsApp → Configuration. Eight characters or more.";
     sp_secret := true; sp_group := g_meta; sp_placeholder := None; sp_options := None |};
  {| sp_key := "linkedin_client_id"; sp_env := "LINKEDIN_CLIENT_ID"; sp_label := "Client ID";
     sp_help := "Auth → Application credentials.";
     sp_secret := false; sp_group := g_linkedin; sp_placeholder := None; sp_options := None |};
  {| sp_key := "linkedin_client_secret"; sp_env := "LINKEDIN_CLIENT_SECRET"; sp_label := "Client secret";
     sp_help := "Auth → Application credentials.";
     sp_secret := true; sp_group := g_linkedin; sp_placeholder := None; sp_options := None |};
  {| sp_key := "google_workspace_client_id"; sp_env := "GOOGLE_WORKSPACE_CLIENT_ID"; sp_label := "Client ID";
     sp_help := "The OAuth client of the Workspace project. Empty falls back to the sign-in client.";
     sp_secret := false; sp_group := g_google; sp_placeholder := None; sp_options := None |};
  {| sp_key := "google_workspace_client_secret"; sp_env := "GOOGLE_WORKSPACE_CLIENT_SECRET"; sp_label := "Client secret";
     sp_help := "The same client's secret.";
     sp_secret := true; sp_group := g_google; sp_placeholder := None; sp_options := None |}].
(** The map of the settings by key, in which a later entry would win. *)
Definition settingSpec (key : string) : option PlatformSettingSpec := last (filter (λ s, sp_key s = key) PLATFORM_SETTINGS).

(** ** What the database holds *)

Record PlatformSettingDoc := {
  pd_secret : bool; pd_value : option string; pd_ciphertext : option string; pd_iv : option string; pd_authTag : option string;
  pd_wrappedDek : option string; pd_keyProvider : option string; pd_kekVersion : option Z; pd_hint : string; pd_updatedAt : Z; pd_updatedBy : string }.
Record PlatformSettingSummary := { ss_key : string; ss_secret : bool; ss_hint : string; ss_updatedAt : Z; ss_updatedBy : string }.
Inductive SettingError := se_key (e : KeyError) | se_no_bytes | se_decryption | se_unknown (key : string).

Definition BINDING_WORKSPACE : string := "platform".
Definition KIND : string := "platform_setting".
Definition setting_binding (key : string) : CredentialBinding := {| cb_workspaceId := BINDING_WORKSPACE; cb_credentialId := key; cb_kind := KIND |}.

(** [value.slice(-4)] behind four dots. *)
Definition last_four (v : string) : string := str_drop (String.length v - 4) v.
Definition dotted (v : string) : string := "••••" +:+ last_four v.

Definition secret_doc (p : EncryptedPayload) (value by_ : string) (now : Z) : PlatformSettingDoc := {|
  pd_secret := true; pd_value := None; pd_ciphertext := Some (ep_ciphertext p); pd_iv := Some (ep_iv p); pd_authTag := Some (ep_authTag p);
  pd_wrappedDek := Some (ep_wrappedDek p); pd_keyProvider := Some (ep_keyProvider p); pd_kekVersion := Some (ep_kekVersion p);
  pd_hint := dotted value; pd_updatedAt := now; pd_updatedBy := by_ |}.
Definition clear_doc (value by_ : string) (now : Z) : PlatformSettingDoc := {|
  pd_secret := false; pd_value := Some value; pd_ciphertext := None; pd_iv := None; pd_authTag := None; pd_wrappedDek := None;
  pd_keyProvider := None; pd_kekVersion := None; pd_hint := value; pd_updatedAt := now; pd_updatedBy := by_ |}.

(** [bytes]: nothing is not binary data. *)
Definition bytes_of (f : option string) : outcome SettingError string := match f with Some b => Ret b | None => Throw se_no_bytes end.
Definition setting_payload (d : PlatformSettingDoc) : outcome SettingError EncryptedPayload :=
  do ciphertext <- bytes_of (pd_ciphertext d); do iv <- bytes_of (pd_iv d); do authTag <- bytes_of (pd_authTag d); do wrappedDek <- bytes_of (pd_wrappedDek d);
  Ret {| ep_ciphertext := ciphertext; ep_iv := iv; ep_authTag := authTag; ep_wrappedDek := wrappedDek;
         ep_keyProvider := default "" (pd_keyProvider d); ep_kekVersion := default 1 (pd_kekVersion d) |}.

Section Repository.
Context {C : Type} `{CollectionLaws PlatformSettingDoc C}.
Context (aead : Aead) (kp : KeyProvider).
Implicit Types c : C.

(** [replaceOne({ _id }, doc, { upsert: true })]. *)
Definition replace_doc (key : string) (d : PlatformSettingDoc) c : C :=
  match updateOne key (λ _, true) (λ _, d) c with
  | (true, c') => c'
  | (false, c') => (insertOne (λ _ _, false) key d c').2
  end.

Definition set_setting (draws : Draws) (key v : string) (secret : bool) (by_ : string) (now : Z) c : outcome SettingError unit * C :=
  if secret then
    match encrypt aead kp draws v (setting_binding key) with
    | Throw e => (Throw (se_key e), c)
    | Ret p => (Ret tt, replace_doc key (secret_doc p v by_ now) c)
    end
  else (Ret tt, replace_doc key (clear_doc v by_ now) c).

Definition clear_setting (key : string) c : bool * C := deleteOne key (λ _, true) c.

(** What one document gives: nothing when it is in the clear and has no value. *)
Definition value_of (key : string) (d : PlatformSettingDoc) : outcome SettingError (option string) :=
  if negb (pd_secret d) then Ret (pd_value d)
  else
    do p <- setting_payload d;
    match decrypt aead kp p (setting_binding key) with Ret s => Ret (Some (expose_secret s)) | Throw _ => Throw se_decryption end.
Fixpoint read_docs (rows : list (string * PlatformSettingDoc)) (out : gmap string string) : outcome SettingError (gmap string string) :=
  match rows with
  | [] => Ret out
  | (key, d) :: rest =>
      do v <- value_of key d;
      read_docs rest (match v with Some v => <[key := v]> out | None => out end)
  end.
Definition readAll c : outcome SettingError (gmap string string) := read_docs (find_all (λ _, true) c) ∅.

Definition setting_summary (kd : string * PlatformSettingDoc) : PlatformSettingSummary := {|
  ss_key := kd.1; ss_secret := pd_secret kd.2; ss_hint := pd_hint kd.2; ss_updatedAt := pd_updatedAt kd.2; ss_updatedBy := pd_updatedBy kd.2 |}.
Definition list_settings c : list PlatformSettingSummary := map setting_summary (find_all (λ _, true) c).
End Repository.

(** ** What is in force *)

(** A variable of the validated environment: a text, a number with its text, or something else. *)
Inductive EnvValue := ev_text (s : string) | ev_number (text : string) | ev_other.
Record Environment := { en_declared : string → option EnvValue; en_raw : string → option string; en_admins : list string }.

Definition fromEnvironment (env : Environment) (spec : PlatformSettingSpec) : option string :=
  let raw := match en_raw env (sp_env spec) with Some s => if String.eqb s "" then None else Some s | None => None end in
  match en_declared env (sp_env spec) with
  | Some (ev_text s) => if String.eqb s "" then raw else Some s
  | Some (ev_number text) => Some text
  | Some ev_other | None => raw
  end.

(** [PLATFORM_ADMIN_EMAILS]. *)
Definition admin_emails (raw : option string) : list string :=
  filter (λ e, e ≠ "") (map (λ e, toLowerCase (js_trim e)) (str_split "," (default "" raw))).

Definition CACHE_MS : Z := 60000.
Record Cached := { ca_at : Z; ca_values : gmap string string }.

Definition fresh (cached : option Cached) (now : Z) : option (gmap string string) :=
  match cached with Some k => if now - ca_at k <? CACHE_MS then Some (ca_values k) else None | None => None end.

Section InForce.
Context {C : Type} `{CollectionLaws PlatformSettingDoc C}.
Context (aead : Aead) (kp : KeyProvider) (env : Environment).
Implicit Types c : C.

(** [dashboardValues] of a process that nothing overtakes; [landed] is the time after the read. *)
Definition dashboardValues (now landed : Z) c (cached : option Cached) : outcome SettingError (gmap string string) * option Cached :=
  match fresh cached now with
  | Some values => (Ret values, cached)
  | None => match readAll aead kp c with
            | Ret values => (Ret values, Some {| ca_at := landed; ca_values := values |})
            | Throw e => (Throw e, cached)
            end
  end.

(** The dashboard's value, else the environment's. *)
Definition chosen (spec : PlatformSettingSpec) (values : gmap string string) : option string :=
  match values !! sp_key spec with
  | Some v => if String.eqb v "" then fromEnvironment env spec else Some v
  | None => fromEnvironment env spec
  end.
Definition platformSetting (key : string) (now landed : Z) c (cached : option Cached) : outcome SettingError (option string) * option Cached :=
  match settingSpec key with
  | None => (Throw (se_unknown key), cached)
  | Some spec => match dashboardValues now landed c cached with
                 | (Ret values, cached') => (Ret (chosen spec values), cached')
                 | (Throw e, cached') => (Throw e, cached')
                 end
  end.
(** [platformSettings]: every key asks before any load has landed, so that each is answered
    from the cache, or by a load of its own that reads at its own time.  [asked] gives for
    each key when its load lands and what it reads; the cache keeps what lands last. *)
Definition later_cached (a b : option Cached) : option Cached :=
  match a, b with
  | Some x, Some y => if ca_at y <? ca_at x then a else b
  | None, _ => b
  | _, None => a
  end.
Fixpoint all_settled (rs : list (outcome SettingError (option string))) : outcome SettingError (list (option string)) :=
  match rs with [] => Ret [] | r :: rest => do v <- r; do vs <- all_settled rest; Ret (v :: vs) end.
Definition platformSettings (asked : list (string * (Z * C))) (now : Z) (cached : option Cached) : outcome SettingError (list (option string)) * option Cached :=
  let rs := map (λ a, platformSetting a.1 now a.2.1 a.2.2 cached) asked in
  (all_settled (map fst rs), foldl later_cached cached (map snd rs)).

(** *** The dashboard *)

Inductive SettingSource := from_dashboard | from_environment | from_nowhere.
Record SettingState := { st_spec : PlatformSettingSpec; st_source : SettingSource; st_hint : option string; st_updatedAt : option Z }.

Definition describe_one (stored : list PlatformSettingSummary) (spec : PlatformSettingSpec) : SettingState :=
  match last (filter (λ s, ss_key s = sp_key spec) stored) with
  | Some row => {| st_spec := spec; st_source := from_dashboard; st_hint := Some (ss_hint row); st_updatedAt := Some (ss_updatedAt row) |}
  | None =>
      match fromEnvironment env spec with
      | Some v => {| st_spec := spec; st_source := from_environment; st_hint := Some (if sp_secret spec then dotted v else v); st_updatedAt := None |}
      | None => {| st_spec := spec; st_source := from_nowhere; st_hint := None; st_updatedAt := None |}
      end
  end.
Definition describePlatformSettings c : list SettingState := map (describe_one (list_settings c)) PLATFORM_SETTINGS.
End InForce.

Definition isPlatformAdmin {CU : Type} `{CollectionLaws UserDoc CU} (env : Environment) (users : CU) (userId : string) : bool :=
  match en_admins env with
  | [] => false
  | admins => match find_user userId users with Some user => bool_decide (toLowerCase (u_email user) ∈ admins) | None => false end
  end.

(** ** A voice of its own *)

Definition FISH_DEFAULT_MODEL : string := "s2.1-pro-free".
Record FishVoice := { fv_apiKey : string; fv_voiceId : string; fv_model : string }.
Definition FISH_KEYS : list string := ["landing_voice_fish_key"; "landing_voice_fish_voice"; "landing_voice_fish_model"].
(** [fishVoice], of the three settings it asks for. *)
Definition fishVoice (settings : list (option string)) : option FishVoice :=
  match settings with
  | [Some apiKey; Some voiceId; model] => Some {| fv_apiKey := apiKey; fv_voiceId := voiceId; fv_model := default FISH_DEFAULT_MODEL model |}
  | _ => None
  end.
Inductive KeyVerdict := kv_ok | kv_rejected | kv_unreachable.
(** [verifyFishKey], of the status Fish answers with, if it answers. *)
Definition verifyFishKey (answer : option Z) : KeyVerdict :=
  match answer with
  | None => kv_unreachable
  | Some status => if (status =? 401) || (status =? 403) then kv_rejected else if (200 <=? status) && (status <? 300) then kv_ok else kv_unreachable
  end.

(** ** The admin route *)

Definition putSchema (key v : string) : option (string * string) :=
  let key := js_trim key in let v := js_trim v in
  let fits n s := (1 <=? String.length s)%nat && (String.length s <=? n)%nat in
  if fits 80%nat key && fits 4000%nat v then Some (key, v) else None.

(** [Number(v) > 0], of a trimmed text. *)
Definition positive_number (v : string) : bool :=
  match js_number v with Some q => negb (Qle_bool q 0) | None => String.eqb v "Infinity" || String.eqb v "+Infinity" end.

Inductive SettingsReply :=
| sr_unauthenticated | sr_forbidden | sr_not_found (key : string) | sr_invalid (message : string) | sr_body | sr_failed
| sr_shown (groups : list (SettingGroup * GroupInfo)) (items : list SettingState) (keys : list string).

Section AdminRoute.
Context {C CU : Type} `{CollectionLaws PlatformSettingDoc C} `{CollectionLaws UserDoc CU}.
Context (aead : Aead) (kp : KeyProvider) (env : Environment) (one_press : bool).
(** What the vendors answer about a key. *)
Context (openai : string → option KeyVerdict) (fish : string → option Z).
Implicit Types c : C.

Definition shown (g : SettingGroup) : bool := negb (bool_decide (g = g_discord)) || one_press.
Definition describe c : SettingsReply :=
  sr_shown (List.filter (λ g, shown g.1) SETTING_GROUPS) (List.filter (λ s, shown (sp_group (st_spec s))) (describePlatformSettings env c))
    (map sp_key (List.filter (λ s, shown (sp_group s)) PLATFORM_SETTINGS)).

Definition settings_GET (caller : option string) (users : CU) c : SettingsReply :=
  match caller with
  | None => sr_unauthenticated
  | Some userId => if negb (isPlatformAdmin env users userId) then sr_forbidden else describe c
  end.

(** Why a value is refused before it is kept. *)
Definition refusal (spec : PlatformSettingSpec) (v : string) : option string :=
  match sp_options spec with
  | Some options =>
      if negb (existsb (λ o, String.eqb (so_value o) v) options)
      then Some (sp_label spec +:+ " is one of: " +:+ join ", " (map so_value options) +:+ ".") else None
  | None => None
  end.
Definition rules (spec : PlatformSettingSpec) (v : string) : option string :=
  if String.eqb (sp_key spec) "platform_ai_monthly_usd_cap" && negb (positive_number v) then Some "The allowance is a positive number of dollars."
  else if String.eqb (sp_key spec) "meta_whatsapp_verify_token" && (String.length v <? 8)%nat then Some "The verify token needs eight characters or more."
  else None.
Definition vendor_refusal (spec : PlatformSettingSpec) (v : string) : option string :=
  if String.eqb (sp_key spec) "landing_voice_openai_key" then
    match openai v with
    | Some kv_rejected => Some "OpenAI did not accept that key. Check it was copied whole."
    | Some kv_unreachable => Some "Could not reach OpenAI to check that key. Try again in a moment."
    | Some kv_ok | None => None
    end
  else if String.eqb (sp_key spec) "landing_voice_fish_key" then
    match verifyFishKey (fish v) with
    | kv_rejected => Some "Fish Audio did not accept that key. Check it was copied whole."
    | kv_unreachable => Some "Could not reach Fish Audio to check that key. Try again in a moment."
    | kv_ok => None
    end
  else None.
Definition first_refusal (spec : PlatformSettingSpec) (v : string) : option string :=
  match refusal spec v with
  | Some m => Some m
  | None => match rules spec v with Some m => Some m | None => vendor_refusal spec v end
  end.

(** PUT; [body] is the key and the value of the body, when both are texts. *)
Definition settings_PUT (caller : option string) (body : option (string * string)) (draws : Draws) (users : CU) (now : Z) c (cached : option Cached)
    : SettingsReply * (C * option Cached) :=
  match caller with
  | None => (sr_unauthenticated, (c, cached))
  | Some userId =>
      if negb (isPlatformAdmin env users userId) then (sr_forbidden, (c, cached))
      else match body ≫= (λ kv, putSchema kv.1 kv.2) with
           | None => (sr_body, (c, cached))
           | Some (key, v) =>
               match settingSpec key with
               | None => (sr_not_found key, (c, cached))
               | Some spec =>
                   match first_refusal spec v with
                   | Some message => (sr_invalid message, (c, cached))
                   | None =>
                       match set_setting aead kp draws (sp_key spec) v (sp_secret spec) userId now c with
                       | (Throw _, c') => (sr_failed, (c', cached))
                       | (Ret _, c') => (describe c', (c', None))
                       end
                   end
               end
           end
  end.

(** DELETE; [key] is the parameter of the address. *)
Definition settings_DELETE (caller : option string) (key : option string) (users : CU) c (cached : option Cached) : SettingsReply * (C * option Cached) :=
  match caller with
  | None => (sr_unauthenticated, (c, cached))
  | Some userId =>
      if negb (isPlatformAdmin env users userId) then (sr_forbidden, (c, cached))
      else match settingSpec (default "" key) with
           | None => (sr_not_found (default "" key), (c, cached))
           | Some spec => let c' := (clear_setting (sp_key spec) c).2 in (describe c', (c', None))
           end
  end.

(** GET /api/auth/session: who is asking, and whether the dashboard is theirs. *)
Record SessionUser := {
  su_id : string; su_email : string; su_name : option string; su_imageUrl : option string; su_emailVerified : bool; su_walkthroughSeen : bool; su_platformAdmin : bool }.
Definition session_GET (caller : option string) (users : CU) : option SessionUser :=
  userId ← caller; user ← find_user userId users;
  match u_disabledAt user with
  | Some _ => None
  | None => Some {| su_id := userId; su_email := u_emailDisplay user; su_name := u_name user; su_imageUrl := u_imageUrl user;
                    su_emailVerified := match u_emailVerifiedAt user with Some _ => true | None => false end;
                    su_walkthroughSeen := match u_walkthroughSeenAt user with Some _ => true | None => false end;
                    su_platformAdmin := isPlatformAdmin env users userId |}
  end.
End AdminRoute.

(** ** One process among others *)

(** What a process has in memory and in flight: a load that has read and not yet landed
    carries the time it read at. *)
Record Process (C : Type) := { pr_docs : C; pr_cached : option Cached; pr_loads : list (Z * gmap string string); pr_now : Z }.
Arguments pr_docs {C}. Arguments pr_cached {C}. Arguments pr_loads {C}. Arguments pr_now {C}.

Inductive SettingStep :=
| st_wait (ms : Z)
| st_set (draws : Draws) (key v : string) (secret : bool) (by_ : string)
| st_clear (key : string)
| st_invalidate
| st_load
| st_land (n : nat).

Section System.
Context {C : Type} `{CollectionLaws PlatformSettingDoc C}.
Context (aead : Aead) (kp : KeyProvider) (L : Z).
Implicit Types p : Process C.

Definition put_docs (c : C) p : Process C := {| pr_docs := c; pr_cached := pr_cached p; pr_loads := pr_loads p; pr_now := pr_now p |}.
Definition put_cached (k : option Cached) (loads : list (Z * gmap string string)) p : Process C :=
  {| pr_docs := pr_docs p; pr_cached := k; pr_loads := loads; pr_now := pr_now p |}.

(** One step, when it can be taken: time does not go back, and a load lands at most [L]
    after it read. *)
Definition setting_step (s : SettingStep) p : option (Process C) :=
  match s with
  | st_wait ms => if 0 <=? ms then Some {| pr_docs := pr_docs p; pr_cached := pr_cached p; pr_loads := pr_loads p; pr_now := pr_now p + ms |} else None
  | st_set draws key v secret by_ => Some (put_docs (set_setting aead kp draws key v secret by_ (pr_now p) (pr_docs p)).2 p)
  | st_clear key => Some (put_docs (clear_setting key (pr_docs p)).2 p)
  | st_invalidate => Some (put_cached None (pr_loads p) p)
  | st_load => match readAll aead kp (pr_docs p) with Ret m => Some (put_cached (pr_cached p) ((pr_now p, m) :: pr_loads p) p) | Throw _ => Some p end
  | st_land n =>
      match pr_loads p !! n with
      | Some (at_, m) => if pr_now p - at_ <=? L then Some (put_cached (Some {| ca_at := pr_now p; ca_values := m |}) (delete n (pr_loads p)) p) else None
      | None => None
      end
  end.
Fixpoint setting_steps (l : list SettingStep) p : option (Process C) :=
  match l with [] => Some p | s :: rest => p' ← setting_step s p; setting_steps rest p' end.

(** What the commands make of a map: the contract of the repository. *)
Definition written_step (m : gmap string string) (s : SettingStep) : gmap string string :=
  match s with st_set _ key v _ _ => <[key := v]> m | st_clear key => delete key m | _ => m end.
Definition written (l : list SettingStep) : gmap string string := foldl written_step ∅ l.
Definition drawn_well (s : SettingStep) : Prop := match s with st_set draws _ _ _ _ => String.length (dr_wrapIv draws) = IV_BYTES | _ => True end.
Definition leaves (key : string) (s : SettingStep) : bool :=
  match s with st_set _ k _ _ _ | st_clear k => negb (String.eqb k key) | _ => true end.
Definition idle (c : C) (now : Z) : Process C := {| pr_docs := c; pr_cached := None; pr_loads := []; pr_now := now |}.
End System.

(** ** The repository is a map *)

Section Refinement.
Context {C : Type} `{CollectionLaws PlatformSettingDoc C}.
Context (aead : Aead) `{!AeadLaws aead} (kp : KeyProvider) `{!HonestProvider kp}.
Implicit Types c : C.

Lemma replace_docs key d c : docs (replace_doc key d c) = <[key := d]> (docs c).
Proof.
  unfold replace_doc. destruct (docs c !! key) as [e|] eqn:He.
  - destruct (updateOne_hit key (λ _, true) (λ _, d) c e He eq_refl) as [Hm Hd]. by destruct (updateOne _ _ _ _) as [[] c'].
  - destruct (updateOne_miss key (λ _, true) (λ _, d) c) as [Hm Hd]; [by rewrite He|]. destruct (updateOne _ _ _ _) as [[] c']; [done|]. cbn [snd fst] in *.
    destruct (insertOne_ok (λ _ _, false) key d c') as [_ ->]; [by rewrite Hd|done|]. by rewrite Hd.
Qed.

(** Every document opens, to what the map says. *)
Definition holds c (m : gmap string string) : Prop := ∀ k,
  match docs c !! k with Some d => ∃ v, value_of aead kp k d = Ret (Some v) ∧ m !! k = Some v | None => m !! k = None end.

Lemma set_holds draws key v secret by_ now c m : String.length (dr_wrapIv draws) = IV_BYTES → holds c m →
  (set_setting aead kp draws key v secret by_ now c).1 = Ret tt ∧ holds (set_setting aead kp draws key v secret by_ now c).2 (<[key := v]> m).
Proof.
  intros Hiv Hc. assert (∀ d, value_of aead kp key d = Ret (Some v) → holds (replace_doc key d c) (<[key := v]> m)) as Hput.
  { intros d Hd k. rewrite replace_docs. destruct (decide (k = key)) as [->|Hne]; [|rewrite !lookup_insert_ne by done; apply Hc].
    rewrite !lookup_insert_eq. eauto. }
  unfold set_setting. destruct secret; [|split; [done|by apply Hput]].
  destruct (decrypt_encrypt aead kp draws v (setting_binding key) Hiv) as (p & -> & Hd). split; [done|]. apply Hput.
  unfold value_of, setting_payload. cbn. destruct p; cbn in *. by rewrite Hd.
Qed.
Lemma clear_holds key c m : holds c m → holds (clear_setting key c).2 (delete key m).
Proof.
  intros Hc k. assert (docs (clear_setting key c).2 = delete key (docs c)) as ->.
  { unfold clear_setting. destruct (docs c !! key) as [d|] eqn:Hd; [by apply (deleteOne_hit key (λ _, true) c d)|].
    rewrite delete_id by done. apply (deleteOne_miss key (λ _, true) c). by rewrite Hd. }
  destruct (decide (k = key)) as [->|Hne]; [by rewrite !lookup_delete_eq|]. rewrite !lookup_delete_ne by done. apply Hc.
Qed.

Lemma read_docs_spec rows out (m : gmap string string) : (∀ k d, (k, d) ∈ rows → ∃ v, value_of aead kp k d = Ret (Some v) ∧ m !! k = Some v) →
  ∃ out', read_docs aead kp rows out = Ret out' ∧ ∀ k, out' !! k = if decide (k ∈ rows.*1) then m !! k else out !! k.
Proof.
  revert out. induction rows as [|[k d] rows IH]; intros out Hrows; [exists out; split; [done|intros k; by rewrite decide_False by set_solver]|].
  destruct (Hrows k d) as (v & Hv & Hm); [set_solver|]. cbn [read_docs]. rewrite Hv. cbn [obind].
  destruct (IH (<[k := v]> out)) as (out' & -> & Hout); [set_solver|]. exists out'. split; [done|]. intros k'. rewrite Hout. cbn [fmap list_fmap fst].
  destruct (decide (k' ∈ rows.*1)); [by rewrite decide_True by set_solver|]. destruct (decide (k' = k)) as [->|].
  - rewrite lookup_insert_eq, decide_True by set_solver. done.
  - rewrite lookup_insert_ne, decide_False by set_solver. done.
Qed.
Lemma holds_readAll c m : holds c m → readAll aead kp c = Ret m.
Proof.
  intros Hc. unfold readAll. destruct (read_docs_spec (find_all (λ _, true) c) ∅ m) as (out & -> & Hout).
  { intros k d [Hd _]%elem_of_find_all. specialize (Hc k). by rewrite Hd in Hc. }
  f_equal. apply map_eq. intros k. rewrite Hout. case_decide as Hin; [done|]. rewrite lookup_empty. specialize (Hc k).
  destruct (docs c !! k) as [d|] eqn:Hd; [|done]. exfalso. apply Hin, list_elem_of_fmap. exists (k, d). split; [done|]. by apply elem_of_find_all.
Qed.

(** *** One process among others *)

Context (L : Z).
Implicit Types p : Process C.

Lemma step_holds s p p' m : drawn_well s → setting_step aead kp L s p = Some p' → holds (pr_docs p) m → holds (pr_docs p') (written_step m s).
Proof.
  intros Hs Hstep Hp. destruct s as [ms|draws k v secret by_|k| | |n]; cbn in Hstep, Hs.
  - case_match; by simplify_eq.
  - simplify_eq. by apply set_holds.
  - simplify_eq. by apply clear_holds.
  - by simplify_eq.
  - rewrite (holds_readAll _ m) in Hstep by done. by simplify_eq.
  - repeat case_match; by simplify_eq.
Qed.

(** The clock of a process is ahead of what it has read. *)
Definition clocked p : Prop :=
  (∀ k, pr_cached p = Some k → ca_at k <= pr_now p) ∧ (∀ t m, (t, m) ∈ pr_loads p → t <= pr_now p).
Lemma step_clocked s p p' : setting_step aead kp L s p = Some p' → clocked p → clocked p' ∧ pr_now p <= pr_now p'.
Proof.
  intros Hstep [Hk Hl]. destruct s as [ms|draws k v secret by_|k| | |n]; cbn in Hstep.
  - destruct (Z.leb_spec 0 ms); simplify_eq. split; [split; cbn|cbn; lia].
    + intros k Hc. specialize (Hk k Hc). lia.
    + intros t m Hin. specialize (Hl t m Hin). lia.
  - by simplify_eq.
  - by simplify_eq.
  - simplify_eq. split; [|done]. by split.
  - destruct (readAll _ _ _); simplify_eq; [|done]. split; [|done]. split; [done|]. cbn. intros t m' [[= -> ->]|Hin]%list_elem_of_In; [lia|].
    apply (Hl t m'). by apply list_elem_of_In.
  - destruct (pr_loads p !! n) as [[at_ m]|] eqn:Hn; [|done]. destruct (_ <=? L); simplify_eq. split; [|done]. split; cbn.
    + intros k [= <-]. cbn. lia.
    + intros t m' Hin. apply (Hl t m'). by eapply list_elem_of_delete_inv.
Qed.

(** What a process knows of a key that is left alone from [T] on: loads and the cache are
    from before, or they agree with the map. *)
Definition knows (T : Z) (key : string) (w : option string) p : Prop :=
  (∀ k, pr_cached p = Some k → ca_at k <= T + L ∨ ca_values k !! key = w) ∧ (∀ t m, (t, m) ∈ pr_loads p → t <= T ∨ m !! key = w).
Lemma step_knows T key s p p' m : setting_step aead kp L s p = Some p' → holds (pr_docs p) m → knows T key (m !! key) p → knows T key (m !! key) p'.
Proof.
  intros Hstep Hp [Hk Hl]. destruct s as [ms|draws k v secret by_|k| | |n]; cbn in Hstep.
  - case_match; by simplify_eq.
  - by simplify_eq.
  - by simplify_eq.
  - simplify_eq. by split.
  - rewrite (holds_readAll _ m) in Hstep by done. simplify_eq. split; [done|]. cbn. intros t m' [[= <- <-]|Hin]%list_elem_of_In; [by right|].
    apply Hl. by apply list_elem_of_In.
  - destruct (pr_loads p !! n) as [[at_ m']|] eqn:Hn; [|done]. destruct (_ <=? L) eqn:HL; simplify_eq. apply Z.leb_le in HL. split; cbn.
    + intros k [= <-]. cbn. apply list_elem_of_lookup_2 in Hn. destruct (Hl _ _ Hn); [left; lia|by right].
    + intros t m0 Hin. apply Hl. by eapply list_elem_of_delete_inv.
Qed.
Lemma written_leaves key s (m : gmap string string) : leaves key s = true → written_step m s !! key = m !! key.
Proof.
  destruct s; cbn; try done; intros Hne%negb_true_iff%String.eqb_neq; [by rewrite lookup_insert_ne|by rewrite lookup_delete_ne].
Qed.
End Refinement.

Lemma settingSpec_key key spec : settingSpec key = Some spec → sp_key spec = key ∧ spec ∈ PLATFORM_SETTINGS.
Proof. unfold settingSpec. intros Hs%last_Some_elem_of. by apply list_elem_of_filter in Hs. Qed.
Lemma chosen_key env spec (m m' : gmap string string) : m !! sp_key spec = m' !! sp_key spec → chosen env spec m = chosen env spec m'.
Proof. unfold chosen. by intros ->. Qed.

Section Arrival.
Context {C : Type} `{CollectionLaws PlatformSettingDoc C}.
Context (aead : Aead) `{!AeadLaws aead} (kp : KeyProvider) `{!HonestProvider kp} (env : Environment) (L : Z).
Implicit Types (c : C) (p : Process C) (l : list SettingStep).

Lemma settings_inv l p p' m : Forall drawn_well l → setting_steps aead kp L l p = Some p' → holds aead kp (pr_docs p) m → clocked p →
  holds aead kp (pr_docs p') (foldl written_step m l) ∧ clocked p' ∧ pr_now p <= pr_now p'.
Proof.
  revert p m. induction l as [|s l IH]; intros p m Hw; cbn [setting_steps foldl]; [intros [= <-]; done|].
  apply Forall_cons in Hw as [Hs Hw]. destruct (setting_step aead kp L s p) as [p1|] eqn:Hp1; [|done]. cbn [mbind option_bind]. intros Hl Hm Hc.
  destruct (step_clocked _ _ _ _ _ _ Hp1 Hc) as [Hc1 Hn]. destruct (IH p1 (written_step m s) Hw Hl) as (? & ? & ?); [by eapply step_holds|done|]. split_and!; [done..|lia].
Qed.
Lemma steps_knows T key l p p' m : Forall drawn_well l → Forall (λ s, leaves key s = true) l → setting_steps aead kp L l p = Some p' →
  holds aead kp (pr_docs p) m → knows L T key (m !! key) p → knows L T key (m !! key) p' ∧ foldl written_step m l !! key = m !! key.
Proof.
  revert p m. induction l as [|s l IH]; intros p m Hw Hk; cbn [setting_steps foldl]; [intros [= <-]; done|].
  apply Forall_cons in Hw as [Hs Hw]. apply Forall_cons in Hk as [Hks Hk]. destruct (setting_step aead kp L s p) as [p1|] eqn:Hp1; [|done].
  cbn [mbind option_bind]. intros Hl Hm Hkn. pose proof (written_leaves key s m Hks) as Hkey. rewrite <-Hkey.
  apply IH with (p := p1); [done..|by eapply step_holds|]. rewrite Hkey. by eapply step_knows.
Qed.

(** C27.  A change made anywhere reaches a process within a minute and the time a load may take:
    when a setting has been left alone that long, whatever the loads, the writes of other
    settings and the invalidations in between, the answer is what was written last, or the
    environment's value when that is nothing. *)
Theorem changes_arrive_within_a_minute c now0 before after p0 p1 key spec landed :
  0 <= L → docs c = ∅ → Forall drawn_well (before ++ after) →
  setting_steps aead kp L before (idle c now0) = Some p0 → setting_steps aead kp L after p0 = Some p1 →
  Forall (λ s, leaves key s = true) after → pr_now p0 + CACHE_MS + L <= pr_now p1 → settingSpec key = Some spec →
  (platformSetting aead kp env key (pr_now p1) landed (pr_docs p1) (pr_cached p1)).1 = Ret (chosen env spec (written (before ++ after))).
Proof.
  intros HL Hc Hw Hb Ha Hk Ht Hspec. apply Forall_app in Hw as [Hwb Hwa]. destruct (settingSpec_key _ _ Hspec) as [Hkey _].
  destruct (settings_inv before (idle c now0) p0 ∅) as (Hp0 & [Hc0 Hl0] & _); [done..| | |].
  { intros k. cbn. by rewrite Hc, !lookup_empty. }
  { split; [done|]. cbn. intros t m Hin. by apply not_elem_of_nil in Hin. }
  destruct (settings_inv after p0 p1 (foldl written_step ∅ before)) as (Hp1 & _ & _); [done..|].
  destruct (steps_knows (pr_now p0) key after p0 p1 (foldl written_step ∅ before)) as [[Hc1 _] Hsame]; [done..| |].
  { split; [intros k Hk0; left; specialize (Hc0 k Hk0); lia|intros t m Hin; left; by eapply Hl0]. }
  unfold platformSetting, dashboardValues, written. rewrite Hspec, foldl_app, (holds_readAll aead kp _ _ Hp1).
  destruct (fresh (pr_cached p1) (pr_now p1)) as [values|] eqn:Hf; [|done]. cbn [fst]. f_equal. apply chosen_key. rewrite Hkey, Hsame.
  unfold fresh in Hf. destruct (pr_cached p1) as [k|]; [|done]. destruct (Z.ltb_spec (pr_now p1 - ca_at k) CACHE_MS); [|done]. injection Hf as <-.
  destruct (Hc1 k eq_refl); [lia|done].
Qed.
End Arrival.

Section Dashboard.
Context {C CU : Type} `{CollectionLaws PlatformSettingDoc C} `{CollectionLaws UserDoc CU}.
Context (aead : Aead) (kp : KeyProvider) (env : Environment) (one_press : bool).
Context (openai : string → option KeyVerdict) (fish : string → option Z).
Implicit Types c : C.

(** What the dashboard knows of a key. *)
Lemma listed_key key c : last (filter (λ s, ss_key s = key) (list_settings c)) = (λ d, setting_summary (key, d)) <$> docs c !! key.
Proof.
  assert (∀ s, s ∈ filter (λ s, ss_key s = key) (list_settings c) ↔ ∃ d, s = setting_summary (key, d) ∧ docs c !! key = Some d) as Hin.
  { intros s. rewrite list_elem_of_filter. unfold list_settings. rewrite list_elem_of_fmap. split.
    - intros (Hkey & [k d] & -> & [Hd _]%elem_of_find_all). cbn in Hkey. subst k. eauto.
    - intros (d & -> & Hd). split; [done|]. exists (key, d). split; [done|]. by apply elem_of_find_all. }
  destruct (last _) as [y|] eqn:Hl.
  - apply last_Some_elem_of, Hin in Hl as (d & -> & ->). done.
  - apply last_None in Hl. destruct (docs c !! key) as [d|] eqn:Hd; [|done]. exfalso.
    apply (not_elem_of_nil (setting_summary (key, d))). rewrite <-Hl. apply Hin. eauto.
Qed.

(** Two documents that differ in nothing but what is sealed. *)
Definition alike (d d' : PlatformSettingDoc) : Prop :=
  pd_secret d = pd_secret d' ∧ pd_hint d = pd_hint d' ∧ pd_updatedAt d = pd_updatedAt d' ∧ pd_updatedBy d = pd_updatedBy d'.
(** Two environments that differ in nothing but secrets with the same last four characters. *)
Definition env_alike (env' : Environment) (spec : PlatformSettingSpec) : Prop :=
  if sp_secret spec then option_Forall2 (λ v v', last_four v = last_four v') (fromEnvironment env spec) (fromEnvironment env' spec)
  else fromEnvironment env spec = fromEnvironment env' spec.

(** No secret reaches the dashboard beyond its last four characters: deployments whose
    stored secrets differ, or whose environments do, and that agree on those four, are
    described alike. *)
Theorem descriptions_hide_secrets env' c c' :
  (∀ k, option_Forall2 alike (docs c !! k) (docs c' !! k)) → Forall (env_alike env') PLATFORM_SETTINGS →
  describePlatformSettings env c = describePlatformSettings env' c'.
Proof.
  intros Hdocs Henv. unfold describePlatformSettings. apply map_ext_in. intros spec Hspec%list_elem_of_In. rewrite Forall_forall in Henv. specialize (Henv spec Hspec).
  unfold describe_one. rewrite !listed_key. destruct (Hdocs (sp_key spec)) as [d d' (Hs & Hh & Ha & Hb)|].
  - cbn. by rewrite Hh, Ha.
  - cbn [fmap option_fmap option_map]. unfold env_alike in Henv. destruct (sp_secret spec); [|by rewrite Henv].
    destruct Henv as [v v' E|]; [|done]. unfold dotted. by rewrite E.
Qed.

(** The settings change only at the hands of somebody on the operator's list, one setting
    at a time, and only to a value that passed every check. *)
Theorem only_admins_change_settings caller body draws users now c cached reply c' cached' :
  settings_PUT aead kp env one_press openai fish caller body draws users now c cached = (reply, (c', cached')) → docs c' ≠ docs c →
  ∃ userId key v d, caller = Some userId ∧ isPlatformAdmin env users userId = true ∧ body ≫= (λ kv, putSchema kv.1 kv.2) = Some (key, v) ∧
    (∃ spec, settingSpec key = Some spec ∧ first_refusal openai fish spec v = None ∧ pd_secret d = sp_secret spec) ∧
    docs c' = <[key := d]> (docs c) ∧ pd_updatedBy d = userId ∧ (pd_secret d = true → pd_value d = None) ∧ cached' = None.
Proof.
  unfold settings_PUT. destruct caller as [userId|]; [|by intros [= <- <- <-]]. destruct (isPlatformAdmin env users userId) eqn:Hadm; cbn [negb]; [|by intros [= <- <- <-]].
  destruct (body ≫= _) as [[key v]|] eqn:Hb; [|by intros [= <- <- <-]]. destruct (settingSpec key) as [spec|] eqn:Hs; [|by intros [= <- <- <-]].
  destruct (first_refusal _ _ spec v) eqn:Hr; [by intros [= <- <- <-]|]. destruct (settingSpec_key _ _ Hs) as [Hkey _]. rewrite Hkey. unfold set_setting.
  destruct (sp_secret spec) eqn:Hsec.
  - destruct (encrypt _ _ _ _ _) as [p|]; [|by intros [= <- <- <-]]. intros [= <- <- <-] _. exists userId, key, v, (secret_doc p v userId now). rewrite replace_docs. split_and!; try done; by exists spec.
  - intros [= <- <- <-] _. exists userId, key, v, (clear_doc v userId now). rewrite replace_docs. split_and!; try done; by exists spec.
Qed.

(** What was set is in force for the process that set it, when no load of its own was
    under way. *)
Theorem own_changes_are_seen_at_once `{!AeadLaws aead} `{!HonestProvider kp} caller key v draws users now c cached groups items keys c' cached' later landed m :
  String.length (dr_wrapIv draws) = IV_BYTES → holds aead kp c m →
  settings_PUT aead kp env one_press openai fish caller (Some (key, v)) draws users now c cached = (sr_shown groups items keys, (c', cached')) →
  (platformSetting aead kp env (js_trim key) later landed c' cached').1 = Ret (Some (js_trim v)) ∧ holds aead kp c' (<[js_trim key := js_trim v]> m).
Proof.
  intros Hiv Hm. unfold settings_PUT. destruct caller as [userId|]; [|done]. destruct (negb _); [done|]. cbn [mbind option_bind fst snd].
  unfold putSchema. destruct (_ && _) eqn:Hfits; [|done]. destruct (settingSpec (js_trim key)) as [spec|] eqn:Hs; [|done].
  destruct (first_refusal _ _ spec _); [done|]. destruct (settingSpec_key _ _ Hs) as [Hkey _]. rewrite Hkey.
  destruct (set_holds aead kp draws (js_trim key) (js_trim v) (sp_secret spec) userId now c m Hiv Hm) as [Hok Hm'].
  destruct (set_setting _ _ _ _ _ _ _ _ _) as [[[]|] c1]; [|done]. cbn [snd] in Hm'. generalize (describe env one_press c1). intros shown_ E. apply (f_equal snd) in E. injection E as <- <-. split; [|done].
  unfold platformSetting, dashboardValues. rewrite Hs, (holds_readAll aead kp _ _ Hm'). cbn [fresh fst]. unfold chosen. rewrite Hkey, lookup_insert_eq.
  destruct (js_trim v); [|done]. by rewrite andb_false_r in Hfits.
Qed.
End Dashboard.

(** ** Instances *)

Definition bare : Environment := {| en_declared := λ _, None; en_raw := λ _, None; en_admins := admin_emails (Some " Ops@Acme.test ,, ") |}.
Definition kp1 : KeyProvider := toy_provider one_key 1.
Definition SECRET : string := "slack_client_secret".
Notation Settings := (gmap string PlatformSettingDoc).
Definition set_to (v : string) : SettingStep := st_set sample_draws SECRET v true "usr_ops".

Definition rotated : list SettingStep := [set_to "old-secret"; st_load; st_land 0; set_to "new-secret"].
Definition after (l : list SettingStep) (p : Process Settings) : Process Settings := default p (setting_steps toy_aead kp1 1000 l p).
Definition p_rotated : Process Settings := after rotated (idle ∅ 0).
Definition p_waited : Process Settings := after [st_wait 61000] p_rotated.
Lemma taken l p : match setting_steps toy_aead kp1 1000 l p with Some _ => true | None => false end = true → setting_steps toy_aead kp1 1000 l p = Some (after l p).
Proof. unfold after. by destruct (setting_steps _ _ _ l p). Qed.
Lemma rotated_taken : setting_steps toy_aead kp1 1000 rotated (idle ∅ 0) = Some p_rotated.
Proof. apply taken. vm_compute. reflexivity. Qed.
Lemma waited_taken : setting_steps toy_aead kp1 1000 [st_wait 61000] p_rotated = Some p_waited.
Proof. apply taken. vm_compute. reflexivity. Qed.
Definition secret_spec : PlatformSettingSpec := default {| sp_key := ""; sp_env := ""; sp_label := ""; sp_help := ""; sp_secret := false; sp_group := g_ai; sp_placeholder := None; sp_options := None |} (settingSpec SECRET).
Lemma secret_spec_found : settingSpec SECRET = Some secret_spec.
Proof. vm_compute. reflexivity. Qed.
Lemma changes_arrive_within_a_minute_witness :
  (platformSetting toy_aead kp1 bare SECRET 0 0 (pr_docs p_rotated) (pr_cached p_rotated)).1 = Ret (Some "old-secret") ∧
  (platformSetting toy_aead kp1 bare SECRET (pr_now p_waited) 61000 (pr_docs p_waited) (pr_cached p_waited)).1 = Ret (Some "new-secret").
Proof.
  split; [vm_compute; reflexivity|].
  rewrite (changes_arrive_within_a_minute (C := Settings) toy_aead kp1 bare 1000 ∅ 0 rotated [st_wait 61000] p_rotated p_waited SECRET secret_spec 61000);
    [vm_compute; reflexivity|lia|reflexivity|repeat constructor|exact rotated_taken|exact waited_taken|repeat constructor|vm_compute; discriminate|exact secret_spec_found].
Defined.

Definition ops_user : UserDoc := new_user {| cu_email := "Ops@acme.test"; cu_name := None; cu_passwordHash := None; cu_emailVerified := true; cu_imageUrl := None |} 0.
Definition ops : gmap string UserDoc := {["usr_ops" := ops_user]}.
Definition accept_all (_ : string) : option KeyVerdict := Some kv_ok.
Definition put_id (v : string) : SettingsReply * (Settings * option Cached) :=
  settings_PUT toy_aead kp1 bare false accept_all (λ _, Some 200) (Some "usr_ops") (Some (" slack_client_id ", v)) sample_draws ops 5 (∅ : Settings) None.

Lemma only_admins_change_settings_witness : ∃ key v d, isPlatformAdmin bare ops "usr_ops" = true ∧ docs (put_id " 12.34 ").2.1 = <[key := d]> ∅ ∧ key = "slack_client_id" ∧ v = "12.34" ∧ pd_updatedBy d = "usr_ops".
Proof.
  destruct (put_id " 12.34 ") as [reply [c' cached']] eqn:E.
  destruct (only_admins_change_settings (C := Settings) toy_aead kp1 bare false accept_all (λ _, Some 200) (Some "usr_ops") (Some (" slack_client_id ", " 12.34 ")) sample_draws ops 5 ∅ None
    reply c' cached') as (userId & key & v & d & Hu & Hadm & Hbody & _ & Hd & Hby & _); [exact E| |].
  { intros E'. assert (docs (put_id " 12.34 ").2.1 = ∅) as E0 by (rewrite E; exact E'). vm_compute in E0. discriminate. }
  injection Hu as <-. exists key, v, d. vm_compute in Hbody. injection Hbody as <- <-. split; [exact Hadm|]. split; [exact Hd|]. split; [reflexivity|]. split; [reflexivity|exact Hby].
Defined.

Lemma own_changes_are_seen_at_once_witness :
  (platformSetting toy_aead kp1 bare "slack_client_id" 6 6 (put_id " 12.34 ").2.1 (put_id " 12.34 ").2.2).1 = Ret (Some "12.34").
Proof.
  destruct (put_id " 12.34 ") as [reply [c' cached']] eqn:E. assert (∃ g i k, reply = sr_shown g i k) as (g & i & k & ->).
  { change reply with ((reply, (c', cached')).1). rewrite <-E. eexists _, _, _. reflexivity. }
  apply (own_changes_are_seen_at_once (C := Settings) toy_aead kp1 bare false accept_all (λ _, Some 200) (Some "usr_ops") " slack_client_id " " 12.34 " sample_draws ops 5 ∅ None
    g i k c' cached' 6 6 ∅); [reflexivity|intros key; reflexivity|exact E].
Defined.

Definition stored_secret (v : string) : Settings := (set_setting toy_aead kp1 sample_draws SECRET v true "usr_ops" 0 (∅ : Settings)).2.
Lemma stored_elsewhere v k : k ≠ SECRET → docs (stored_secret v) !! k = None.
Proof. intros Hne. unfold stored_secret, set_setting. destruct (encrypt _ _ _ _ _); cbn [snd]; [|done]. rewrite replace_docs. by rewrite lookup_insert_ne. Qed.
Definition env_with (v : string) : Environment := {| en_declared := λ n, if String.eqb n "META_APP_SECRET" then Some (ev_text v) else None; en_raw := λ _, None; en_admins := [] |}.
Lemma descriptions_hide_secrets_witness :
  describePlatformSettings (env_with "meta-one-9876") (stored_secret "alpha-1234") = describePlatformSettings (env_with "other-9876") (stored_secret "beta-1234").
Proof.
  apply (descriptions_hide_secrets (env_with "meta-one-9876") (env_with "other-9876") (stored_secret "alpha-1234") (stored_secret "beta-1234")).
  - intros k. destruct (decide (k = SECRET)) as [->|Hne]; [vm_compute; constructor; split_and!; reflexivity|]. rewrite !stored_elsewhere by exact Hne. constructor.
  - apply Forall_forall. intros spec Hs. unfold env_alike, fromEnvironment, env_with. cbn. destruct (String.eqb_spec (sp_env spec) "META_APP_SECRET"); [|by destruct (sp_secret spec); [constructor|]].
    destruct (sp_secret spec) eqn:Hsec; [constructor; reflexivity|]. exfalso. revert Hs e Hsec. generalize spec.
    apply (Forall_forall (λ s, sp_env s = "META_APP_SECRET" → sp_secret s = false → False)). repeat constructor; cbn; intros; discriminate.
Defined.

(** A load that was under way when a setting was changed lands after the invalidation: the
    instance that made the change goes on answering with the value before it. *)
Definition overtaken : list SettingStep := [set_to "old-secret"; st_load; set_to "new-secret"; st_invalidate; st_land 0].
Example loads_under_way_undo_the_invalidation :
  setting_steps toy_aead kp1 1000 overtaken (idle ∅ 0) = Some (after overtaken (idle ∅ 0)) ∧
  (platformSetting toy_aead kp1 bare SECRET 59999 59999 (pr_docs (after overtaken (idle ∅ 0))) (pr_cached (after overtaken (idle ∅ 0)))).1 = Ret (Some "old-secret").
Proof. split; [apply taken; vm_compute; reflexivity|vm_compute; reflexivity]. Qed.

(** One secret that cannot be opened any more, because its key was retired, is every
    setting lost, those in the clear and in the environment too. *)
Definition kp2 : KeyProvider := toy_provider {[2 := other32]} 2.
Example retired_keys_take_every_setting :
  (platformSetting toy_aead kp2 (env_with "x") "meta_app_secret" 0 0 (stored_secret "alpha-1234") None).1 = Throw se_decryption ∧
  (platformSetting toy_aead kp2 (env_with "x") "meta_app_secret" 0 0 (∅ : Settings) None).1 = Ret (Some "x").
Proof. split; vm_compute; reflexivity. Qed.

(** An address nobody has verified opens the dashboard. *)
Definition impostor : Accounts := (signup id "usr_x" "ops@acme.test" "hash_x" None None (draw "x") 0 no_accounts).2.
Example unverified_addresses_are_admins :
  isPlatformAdmin bare (adb_users impostor) "usr_x" = true ∧ (u_emailVerifiedAt <$> find_user "usr_x" (adb_users impostor)) = Some None.
Proof. split; vm_compute; reflexivity. Qed.

(** A secret of four characters is shown whole. *)
Example short_secrets_are_shown : pd_hint <$> (stored_secret "ab12" !! SECRET) = Some "••••ab12".
Proof. vm_compute. reflexivity. Qed.

(** An allowance the route takes and the model refuses. *)
Example infinite_allowances_stop_the_model :
  (∀ spec, settingSpec "platform_ai_monthly_usd_cap" = Some spec → first_refusal accept_all (λ _, Some 200) spec "Infinity" = None) ∧
  platformAi {| ps_apiKey := Some "sk"; ps_provider := None; ps_chatModel := None; ps_baseUrl := None; ps_monthlyUsdCap := Some "Infinity" |} = Throw pe_allowance.
Proof. split; [intros spec [= <-]; vm_compute; reflexivity|vm_compute; reflexivity]. Qed.
