(* ===== verification/Voice.v ===== *)
(** * Voice: hearing recordings, and the demo on the front page

    Models lib/transcribe.ts, lib/demo-voice.ts, packages/db/src/repositories/demo-usage.ts
    and the routes of the demo.  A counter is a row per name and window that every
    instance increments atomically and that the index of the collection reaps once its
    window has passed; [UsageStep] interleaves both.  What a vendor hears, says or answers,
    the hash of an address and the clock are arguments; a character beyond Latin-1 is
    written as the bytes of its UTF-8 form. *)
From S2P Require Import Prelude Json JsonText Text Numbers Envelope Mongo Catalog Providers Settings.

#[local] Open Scope host_scope.

(** ** Turning a voice note into words *)

Definition TRANSCRIPTION_ROLE : string := "transcription".
Inductive TranscriptionOutcome := to_transcribed (text : string) | to_failed (message : string) (detail : option string) | to_unconfigured.
Definition NO_EAR : string := "You can’t use voice notes here: the model this assistant can use does not support them.".

Definition word_char (c : Ascii.ascii) : bool := is_alnum c || Ascii.eqb c "_".
Definition starts_bare (s : string) : bool := match s with String c _ => negb (word_char c) | EmptyString => true end.
(** [/\bword\b/], for a word of word characters; [bare] says that what precedes is none. *)
Fixpoint has_word (word : string) (bare : bool) (s : string) : bool :=
  (bare && match eat word s with Some rest => starts_bare rest | None => false end)
  || match s with String c r => has_word word (negb (word_char c)) r | EmptyString => false end.
(** [.?]: any character but a line terminator, or none. *)
Definition line_char (c : Ascii.ascii) : bool := negb (Ascii.eqb c (Ascii.ascii_of_nat 10) || Ascii.eqb c (Ascii.ascii_of_nat 13)).
Definition eat_after_any (word s : string) : option string :=
  match match s with String c r => if line_char c then eat word r else None | EmptyString => None end with
  | Some rest => Some rest
  | None => eat word s
  end.
(** Whether [/invalid.?api.?key/] matches at the front. *)
Definition invalid_key_here (s : string) : bool :=
  match eat "invalid" s with
  | None => false
  | Some r =>
      let ends t := match eat_after_any "key" t with Some _ => true | None => false end in
      match match r with String c r' => if line_char c then eat "api" r' else None | EmptyString => None end with
      | Some t => ends t || match eat "api" r with Some t' => ends t' | None => false end
      | None => match eat "api" r with Some t => ends t | None => false end
      end
  end.
Fixpoint somewhere (here : string → bool) (s : string) : bool :=
  here s || match s with String _ r => somewhere here r | EmptyString => false end.

Definition out_of_credit (detail : string) : bool :=
  let d := toLowerCase detail in
  str_includes "credit" d || str_includes "billing" d || str_includes "quota" d || str_includes "insufficient_quota" d || has_word "429" true d.
Definition bad_key (detail : string) : bool :=
  let d := toLowerCase detail in
  str_includes "401" d || somewhere invalid_key_here d || str_includes "incorrect api key" d || str_includes "authentication" d.
Definition plainFailure (detail : string) : string :=
  if out_of_credit detail then "Your OpenAI account is out of credit, so I can’t listen to voice notes until it is topped up."
  else if bad_key detail then "The OpenAI key on the Models page is not working, so I can’t listen to voice notes right now."
  else "I couldn’t make out that voice note; could you send it again or type it?".

Definition EXTENSIONS : list (string * string) := [
  ("audio/ogg", "ogg"); ("audio/opus", "ogg"); ("audio/mpeg", "mp3"); ("audio/mp3", "mp3"); ("audio/mp4", "m4a"); ("audio/x-m4a", "m4a");
  ("audio/wav", "wav"); ("audio/x-wav", "wav"); ("audio/webm", "webm"); ("audio/flac", "flac");
  (* what every object has; its other members have capitals *)
  ("constructor", "function Object() { [native code] }"); ("__proto__", "[object Object]")].
Definition fileNameFor (mimeType : string) : string :=
  let base := toLowerCase (js_trim (default "" (head (str_split ";" mimeType)))) in
  "audio." +:+ default "ogg" (jm_get base EXTENSIONS).

(** What an adapter makes of a recording: it cannot hear, it heard, or it threw. *)
Inductive Ear := no_ear | heard (text : string) | threw (detail : string).
(** What is asked of an adapter: the vendor's type, its key, the model, the recording. *)
Record Hearing (A : Type) := { hr_providerType : string; hr_credentials : option ProviderCredentials; hr_modelId : string; hr_audio : A; hr_mimeType : string; hr_fileName : string }.
Arguments Build_Hearing {A}.

Section Transcribe.
Context {CP CB : Type} `{CollectionLaws ProviderConfigDoc CP} `{CollectionLaws ModelBindingDoc CB}.
Context {A : Type} (ws : string) (settings : PlatformAiSettings) (hears : Hearing A → Ear).

Definition transcribeAudio (mimeType : string) (audio : A) (resolve : string → option string) (cp : CP) (cb : CB) : outcome PlatformError TranscriptionOutcome :=
  match forRole ws TRANSCRIPTION_ROLE cb with
  | None => Ret to_unconfigured
  | Some (_, binding) =>
      match providerFor ws binding cp with
      | None => Ret to_unconfigured
      | Some provider =>
          if negb (isKnownProviderType (pc_providerType provider)) then Ret (to_failed "No adapter is registered for that provider." None)
          else
            do credentials <- providerCredentials settings resolve provider;
            Ret match hears (Build_Hearing (pc_providerType provider) credentials (mb_modelId binding) audio mimeType (fileNameFor mimeType)) with
                | no_ear => to_failed NO_EAR (Some "The model bound for transcription cannot process audio.")
                | heard text => let text := js_trim text in
                                if String.eqb text "" then to_failed "I could not hear anything in that recording." None else to_transcribed text
                | threw detail => to_failed (plainFailure detail) (Some detail)
                end
      end
  end.
End Transcribe.

(** ** What the demo may spend *)

Record DemoUsageDoc := { du_count : Z; du_expiresAt : Z }.
Definition window_of (windowMs now : Z) : Z := now / windowMs.
Definition usage_row (key : string) (window : Z) : string := key +:+ ":" +:+ pretty window.

Section Usage.
Context {C : Type} `{CollectionLaws DemoUsageDoc C}.
Implicit Types c : C.

(** [take]: one command increments the row or inserts it. *)
Definition take_turn (key : string) (limit windowMs now : Z) c : bool * C :=
  let window := window_of windowMs now in
  let row := usage_row key window in
  let c' := match updateOne row (λ _, true) (λ d, {| du_count := du_count d + 1; du_expiresAt := du_expiresAt d |}) c with
            | (true, c') => c'
            | (false, c') => (insertOne (λ _ _, false) row {| du_count := 1; du_expiresAt := (window + 1) * windowMs |} c').2
            end in
  (match docs c' !! row with Some d => du_count d | None => 1 end <=? limit, c').

(** The index [expiry_ttl]. *)
Definition reap_usage (now : Z) c : C := (deleteMany (λ d, du_expiresAt d <=? now) c).2.
End Usage.

Definition HOUR_MS : Z := 3600000.
Definition DAY_MS : Z := 86400000.
Definition DEMO_TRANSCRIBE_MODEL : string := "gpt-4o-mini-transcribe".
Definition DEMO_ANSWER_MODEL : string := "gpt-4.1".
Definition DEMO_MAX_AUDIO_BYTES : Z := 1024 * 1024.
Definition DEMO_TURNS_PER_VISITOR_PER_HOUR : Z := 8.
Definition DEMO_TURNS_PER_DAY : Z := 400.
Definition LIVE_DEFAULT_MODEL : string := "gpt-realtime".
Definition LIVE_DEFAULT_VOICE : string := "ballad".
Definition LIVE_MAX_SECONDS : Z := 90.
Definition LIVE_CALLS_PER_VISITOR_PER_HOUR : Z := 4.
Definition LIVE_CALLS_PER_DAY : Z := 150.
Definition LIVE_KEY_SECONDS : Z := 60.
Definition REALTIME_SECRETS_URL : string := "https://api.openai.com/v1/realtime/client_secrets".

(** The four counters. *)
Inductive Counter := c_visitor (visitor : string) | c_site | c_live (visitor : string) | c_live_site.
#[global] Instance Counter_eq_dec : EqDecision Counter.
Proof. solve_decision. Defined.
Definition counter_key (k : Counter) : string :=
  match k with c_visitor v => "visitor:" +:+ v | c_site => "site" | c_live v => "live:" +:+ v | c_live_site => "live:site" end.
Definition counter_limit (k : Counter) : Z :=
  match k with c_visitor _ => DEMO_TURNS_PER_VISITOR_PER_HOUR | c_site => DEMO_TURNS_PER_DAY | c_live _ => LIVE_CALLS_PER_VISITOR_PER_HOUR | c_live_site => LIVE_CALLS_PER_DAY end.
Definition counter_window (k : Counter) : Z := match k with c_visitor _ | c_live _ => HOUR_MS | c_site | c_live_site => DAY_MS end.
Definition take_counter {C} `{CollectionLaws DemoUsageDoc C} (k : Counter) (now : Z) (c : C) : bool * C :=
  take_turn (counter_key k) (counter_limit k) (counter_window k) now c.

(** ** The demo *)

Definition PERSONA : string := join " " [
  "You are Jarvis, the voice of YASHAYAH, speaking with a visitor on the landing page.";
  "You sound like a composed British AI butler: a calm, low, measured voice with a refined English accent,";
  "impeccably courteous, quietly confident and precise, with a dry, understated wit. Never gushing, never salesy.";
  "YASHAYAH gives a small business a team of AI assistants that work in the tools it already uses:";
  "Telegram, WhatsApp, Slack, Gmail, Calendar, Drive, Instagram and more. Each assistant has a job, remembers how";
  "the business likes things done, and asks before it does anything that changes something.";
  "People talk to it by text or by voice, and their data stays in their own database.";
  "This is a demo: you cannot see anyone's inbox, calendar or files, and you have no tools. If asked to do";
  "something real, say in one sentence what the assistant would do once they sign up.";
  "Your answer is read aloud: two or three short sentences, plain spoken English, no lists, no markdown, no links."].
Definition DELIVERY : string := join " " [
  "Delivery: speak in a distinctly British accent, received pronunciation, the voice of an English butler.";
  "Low, smooth and unhurried, at a measured pace with small pauses between thoughts. Crisp consonants,";
  "non-rhotic vowels: " +:+ dquote +:+ "rather" +:+ dquote +:+ " and " +:+ dquote +:+ "certainly" +:+ dquote +:+ " sound English, never American. Calm and even, never excited;";
  "let the wit come through in a slightly dry, understated tone. Address the visitor as " +:+ dquote +:+ "sir" +:+ dquote +:+ " or " +:+ dquote +:+ "madam" +:+ dquote +:+ " only";
  "when they have said which they prefer; otherwise no form of address."].
Definition LIVE_PERSONA : string :=
  PERSONA +:+ " " +:+ DELIVERY +:+ " You are in a live voice conversation: keep each turn short, let the visitor interrupt, and ask one question back now and then about their business. The call ends by itself after "
  +:+ pretty LIVE_MAX_SECONDS +:+ " seconds; if it comes up, say they can keep talking to their own assistant once they sign up.".

Inductive DemoOutcome :=
| dm_answered (transcript answer : string)
| dm_refused (status : Z) (code message : string) (detail : option string).

(** [demoKey], of the setting of its own and the deployment's model: a model that is
    misconfigured is no key. *)
Definition demoKey (own : outcome SettingError (option string)) (hive : outcome PlatformError (option PlatformAi)) : outcome SettingError (option string) :=
  do own <- own;
  Ret match own with
      | Some key => Some key
      | None => match hive with
                | Ret (Some p) => if String.eqb (pa_providerType p) "openai" && bool_decide (pa_baseUrl p = None) then Some (pa_apiKey p) else None
                | _ => None
                end
      end.

(** [visitorKey]; a header that is empty counts as none. *)
Definition filled (s : option string) : option string := match s with Some t => if String.eqb t "" then None else Some t | None => None end.
Definition visitor_address (forwardedFor realIp : option string) : string :=
  let forwarded := filled (f ← forwardedFor; first ← head (str_split "," f); Some (js_trim first)) in
  match forwarded with Some a => a | None => default "unknown" (filled realIp) end.
Definition visitorKey (sha256url : string → string) (forwardedFor realIp : option string) : string :=
  str_take 22 (sha256url (visitor_address forwardedFor realIp)).

(** What the model is asked. *)
Record DemoRequest := { dq_model : string; dq_system : string; dq_said : string; dq_maxOutputTokens : Z }.
Definition demo_request (said : string) : DemoRequest := {| dq_model := DEMO_ANSWER_MODEL; dq_system := PERSONA; dq_said := said; dq_maxOutputTokens := 220 |}.

(** What the answer is made of: pieces of text, an error that ends it, or nothing of interest. *)
Inductive DemoEvent := de_text (text : string) | de_error (message : string) | de_other.
(** The stream, and what the iteration throws after it, if anything. *)
Record DemoStream := { ds_events : list DemoEvent; ds_thrown : option string }.
Fixpoint read_answer (events : list DemoEvent) (thrown : option string) (text : string) : outcome string string :=
  match events with
  | [] => match thrown with Some e => Throw e | None => let answer := js_trim text in if String.eqb answer "" then Throw "The model returned no answer." else Ret answer end
  | de_text t :: rest => read_answer rest thrown (text +:+ t)
  | de_error e :: _ => Throw e
  | de_other :: rest => read_answer rest thrown text
  end.
Definition answerOf (generate : DemoRequest → DemoStream) (said : string) : outcome string string :=
  let s := generate (demo_request said) in read_answer (ds_events s) (ds_thrown s) "".

Definition switched_off : DemoOutcome := dm_refused 503 "unsupported" "The voice demo is switched off right now. Sign up to talk to your own assistant." None.

(** What a live call is for. *)
Definition liveSessionRequest (model voice : string) : value := VObject [
  ("expires_after", VObject [("anchor", VString "created_at"); ("seconds", VNumber LIVE_KEY_SECONDS)]);
  ("session", VObject [
    ("type", VString "realtime"); ("model", VString model); ("instructions", VString LIVE_PERSONA); ("max_output_tokens", VNumber 300);
    ("audio", VObject [
      ("input", VObject [("transcription", VObject [("model", VString DEMO_TRANSCRIBE_MODEL)]); ("turn_detection", VObject [("type", VString "semantic_vad")])]);
      ("output", VObject [("voice", VString voice)])])])].
Inductive LiveOutcome :=
| lv_ready (clientSecret model : string) (maxSeconds : Z)
| lv_refused (status : Z) (code message : string) (detail : option string).
(** What is sent, and what comes back: nothing, or a status with a body when that is JSON. *)
Record LiveRequest := { lq_url : string; lq_authorization : string; lq_visitor : string; lq_body : value }.
Inductive LiveReply := ly_failed (detail : string) | ly_answer (status : Z) (body : option value).
Definition text_field (name : string) (v : option value) : option string :=
  match v with Some (VObject fields) => match jm_get name fields with Some (VString s) => Some s | _ => None end | _ => None end.
Definition object_field (name : string) (v : option value) : option value := match v with Some (VObject fields) => jm_get name fields | _ => None end.
Definition client_secret (body : option value) : option string :=
  match text_field "value" body with Some s => Some s | None => text_field "value" (object_field "client_secret" body) end.

Section Demo.
Context {C A : Type} `{CollectionLaws DemoUsageDoc C}.
(** The vendor, given a key: what it hears and what it says. *)
Context (transcribe : string → Hearing A → Ear) (generate : string → DemoRequest → DemoStream) (mint : LiveRequest → LiveReply).
Implicit Types c : C.

(** Whether the vendor was asked for anything comes with the outcome. *)
Definition runDemoTurn (key : outcome SettingError (option string)) (visitor mimeType : string) (audio : A) (now1 now2 : Z) c
    : outcome SettingError (DemoOutcome * bool) * C :=
  match key with
  | Throw e => (Throw e, c)
  | Ret None => (Ret (switched_off, false), c)
  | Ret (Some apiKey) =>
      match take_counter (c_visitor visitor) now1 c with
      | (false, c1) => (Ret (dm_refused 429 "budget_exhausted" "That is all the demo has for you this hour. Sign up and keep talking to your own assistant." None, false), c1)
      | (true, c1) =>
          match take_counter c_site now2 c1 with
          | (false, c2) => (Ret (dm_refused 429 "budget_exhausted" "The demo has had a busy day and is resting. Try again tomorrow, or sign up." None, false), c2)
          | (true, c2) =>
              let failed detail := dm_refused 502 "provider_error"
                (if str_includes "OpenAI" (plainFailure detail) then "The voice demo is unavailable right now. Sign up to talk to your own assistant."
                 else "I could not make that out. Could you say it again?") (Some detail) in
              (Ret (match transcribe apiKey (Build_Hearing "openai" None DEMO_TRANSCRIBE_MODEL audio mimeType (fileNameFor mimeType)) with
                    | no_ear => failed "This adapter cannot transcribe."
                    | threw detail => failed detail
                    | heard text =>
                        let transcript := js_trim text in
                        if String.eqb transcript "" then dm_refused 422 "validation_failed" "I could not hear anything in that. Try again a little closer to the microphone." None
                        else match answerOf (generate apiKey) transcript with Ret answer => dm_answered transcript answer | Throw detail => failed detail end
                    end, true), c2)
          end
      end
  end.

Definition startLiveCall (key model voice : outcome SettingError (option string)) (visitor : string) (now1 now2 : Z) c
    : outcome SettingError (LiveOutcome * bool) * C :=
  match key with
  | Throw e => (Throw e, c)
  | Ret None => (Ret (lv_refused 503 "unsupported" "The voice demo is switched off right now. Sign up to talk to your own assistant." None, false), c)
  | Ret (Some apiKey) =>
      match take_counter (c_live visitor) now1 c with
      | (false, c1) => (Ret (lv_refused 429 "budget_exhausted" "That is all the live calls the demo has for you this hour. Sign up and keep talking to your own assistant." None, false), c1)
      | (true, c1) =>
          match take_counter c_live_site now2 c1 with
          | (false, c2) => (Ret (lv_refused 429 "budget_exhausted" "The live demo has had a busy day and is resting. Try again tomorrow, or sign up." None, false), c2)
          | (true, c2) =>
              (do model <- model; do voice <- voice;
               let model := default LIVE_DEFAULT_MODEL model in let voice := default LIVE_DEFAULT_VOICE voice in
               Ret (match mint {| lq_url := REALTIME_SECRETS_URL; lq_authorization := "Bearer " +:+ apiKey; lq_visitor := visitor; lq_body := liveSessionRequest model voice |} with
                    | ly_failed detail => lv_refused 502 "provider_error" "Could not start a live call. Try again in a moment." (Some detail)
                    | ly_answer status body =>
                        match client_secret body with
                        | Some secret =>
                            if (200 <=? status) && (status <? 300) then lv_ready secret model LIVE_MAX_SECONDS
                            else lv_refused 502 "provider_error" "The live call is unavailable right now."
                                   (Some (pretty status +:+ " " +:+ default "no client secret in the answer" (text_field "message" (object_field "error" body))))
                        | None => lv_refused 502 "provider_error" "The live call is unavailable right now."
                                    (Some (pretty status +:+ " " +:+ default "no client secret in the answer" (text_field "message" (object_field "error" body))))
                        end
                    end, true), c2)
          end
      end
  end.

(** *** The routes *)

Inductive VoiceReply :=
| vr_status (available : bool) (speaks : string)
| vr_error (status : Z) (code message : string)
| vr_answer (transcript answer : string) (speech : option string)
| vr_live (clientSecret model : string) (maxSeconds : Z)
| vr_failed.

Definition voice_GET (key : outcome SettingError (option string)) (fish : outcome SettingError (option FishVoice)) : VoiceReply :=
  match key, fish with
  | Ret key, Ret fish => vr_status (match key with Some _ => true | None => false end) (match fish with None => "openai" | Some _ => "fish" end)
  | _, _ => vr_failed
  end.

(** A file of the form: its size, its type, its bytes. *)
Record Recording := { rc_size : Z; rc_type : string; rc_bytes : A }.
(** [speak] is what Fish says of an answer, if it does. *)
Definition voice_POST (key : outcome SettingError (option string)) (fish : outcome SettingError (option FishVoice)) (speak : FishVoice → string → option string)
    (visitor : string) (audio : option Recording) (now1 now2 : Z) c : VoiceReply * C :=
  match audio with
  | None => (vr_error 422 "validation_failed" ("Attach the recording as the " +:+ dquote +:+ "audio" +:+ dquote +:+ " field."), c)
  | Some f =>
      if rc_size f =? 0 then (vr_error 422 "validation_failed" ("Attach the recording as the " +:+ dquote +:+ "audio" +:+ dquote +:+ " field."), c)
      else if DEMO_MAX_AUDIO_BYTES <? rc_size f then (vr_error 422 "validation_failed" "That was a bit long for the demo. Keep it to one short question.", c)
      else match runDemoTurn key visitor (if String.eqb (rc_type f) "" then "audio/webm" else rc_type f) (rc_bytes f) now1 now2 c with
           | (Throw _, c') => (vr_failed, c')
           | (Ret (dm_refused status code message _, _), c') => (vr_error status code message, c')
           | (Ret (dm_answered transcript answer, _), c') =>
               (match fish with Throw _ => vr_failed | Ret fish => vr_answer transcript answer (v ← fish; speak v answer) end, c')
           end
  end.
Definition live_POST (key model voice : outcome SettingError (option string)) (visitor : string) (now1 now2 : Z) c : VoiceReply * C :=
  match startLiveCall key model voice visitor now1 now2 c with
  | (Throw _, c') => (vr_failed, c')
  | (Ret (lv_refused status code message _, _), c') => (vr_error status code message, c')
  | (Ret (lv_ready secret model maxSeconds, _), c') => (vr_live secret model maxSeconds, c')
  end.
End Demo.

(** ** Rationing *)

(** What happens to the counters: a use by some request of some instance, and the reaper. *)
Inductive UsageStep := us_take (k : Counter) (at_ : Z) | us_reap (at_ : Z).
Definition usage_time (s : UsageStep) : Z := match s with us_take _ t | us_reap t => t end.
Definition counts (k : Counter) (w : Z) (s : UsageStep) : bool :=
  match s with us_take k' t => bool_decide (k' = k) && (window_of (counter_window k') t =? w) | us_reap _ => false end.
Definition attempts (k : Counter) (w : Z) (l : list UsageStep) : Z := Z.of_nat (length (List.filter (counts k w) l)).
Definition usage_step {C} `{CollectionLaws DemoUsageDoc C} (s : UsageStep) (c : C) : bool * C :=
  match s with us_take k t => take_counter k t c | us_reap t => (false, reap_usage t c) end.
(** How many uses of a counter were granted in a window. *)
Fixpoint granted {C} `{CollectionLaws DemoUsageDoc C} (k : Counter) (w : Z) (l : list UsageStep) (c : C) : Z :=
  match l with
  | [] => 0
  | s :: rest => (if counts k w s && (usage_step s c).1 then 1 else 0) + granted k w rest (usage_step s c).2
  end.

(** A visitor is known by 22 characters. *)
Definition counter_fits (k : Counter) : bool := match k with c_visitor v | c_live v => (String.length v =? 22)%nat | _ => true end.
Definition step_fits (s : UsageStep) : bool := match s with us_take k _ => counter_fits k | us_reap _ => true end.

Lemma counter_key_inj k k' : counter_fits k = true → counter_fits k' = true → counter_key k = counter_key k' → k = k'.
Proof.
  destruct k as [v| |v|], k' as [v'| |v'|]; cbn [counter_fits counter_key]; intros Hk Hk' E; try done.
  - apply str_app_inj_l in E. by subst.
  - apply str_app_inj_l in E. by subst.
  - change "live:site" with ("live:" +:+ "site") in E. apply str_app_inj_l in E. by subst.
  - change "live:site" with ("live:" +:+ "site") in E. apply str_app_inj_l in E. by subst.
Qed.
Lemma pretty_lacks_colon (w : Z) : lacks ":" (pretty w) = true.
Proof.
  destruct (pretty_Z_cases w) as [[_ ->]|[_ ->]]; [apply numeral_lacks; [done|apply numeral_pretty]|].
  change (lacks ":" ("-" +:+ ?s)) with (lacks ":" s). apply numeral_lacks; [done|apply numeral_pretty].
Qed.
Lemma split_last_colon a a' b b' : lacks ":" b = true → lacks ":" b' = true → a +:+ ":" +:+ b = a' +:+ ":" +:+ b' → a = a' ∧ b = b'.
Proof.
  intros Hb Hb'. revert a'. induction a as [|x a IH]; intros [|y a'] E.
  - by injection E.
  - exfalso. cbn in E. injection E as <- E. rewrite E in Hb. unfold lacks in Hb. rewrite str_all_app in Hb. cbn in Hb. by rewrite andb_false_r in Hb.
  - exfalso. cbn in E. injection E as -> E. rewrite <-E in Hb'. unfold lacks in Hb'. rewrite str_all_app in Hb'. cbn in Hb'. by rewrite andb_false_r in Hb'.
  - cbn in E. injection E as -> E. destruct (IH a' E) as [-> ->]. done.
Qed.
Lemma usage_row_inj k k' w w' : counter_fits k = true → counter_fits k' = true → usage_row (counter_key k) w = usage_row (counter_key k') w' → k = k' ∧ w = w'.
Proof.
  intros Hk Hk' E. apply split_last_colon in E as [Hkey Hw]; [|apply pretty_lacks_colon..]. split; [by apply counter_key_inj|by apply (inj pretty) in Hw].
Qed.
Lemma counter_window_pos k : 0 < counter_window k.
Proof. by destruct k. Qed.

Section Rationing.
Context {C : Type} `{CollectionLaws DemoUsageDoc C}.
Implicit Types c : C.

Lemma take_docs k t c :
  let row := usage_row (counter_key k) (window_of (counter_window k) t) in
  let d := match docs c !! row with
           | Some d => {| du_count := du_count d + 1; du_expiresAt := du_expiresAt d |}
           | None => {| du_count := 1; du_expiresAt := (window_of (counter_window k) t + 1) * counter_window k |}
           end in
  take_counter k t c = (du_count d <=? counter_limit k, (take_counter k t c).2) ∧ docs (take_counter k t c).2 = <[row := d]> (docs c).
Proof.
  unfold take_counter, take_turn. set (row := usage_row _ _). cbn [snd]. destruct (docs c !! row) as [d|] eqn:Hd.
  - destruct (updateOne_hit row (λ _, true) (λ d, {| du_count := du_count d + 1; du_expiresAt := du_expiresAt d |}) c d Hd eq_refl) as [Hm Hc].
    destruct (updateOne _ _ _ _) as [[] c']; [|done]. cbn [snd fst] in *. rewrite Hc, lookup_insert_eq. done.
  - destruct (updateOne_miss row (λ _, true) (λ d, {| du_count := du_count d + 1; du_expiresAt := du_expiresAt d |}) c) as [Hm Hc]; [by rewrite Hd|].
    destruct (updateOne _ _ _ _) as [[] c']; [done|]. cbn [snd fst] in *.
    destruct (insertOne_ok (λ _ _, false) row {| du_count := 1; du_expiresAt := (window_of (counter_window k) t + 1) * counter_window k |} c') as [_ E]; [by rewrite Hc|done|].
    rewrite E, lookup_insert_eq, Hc. done.
Qed.

(** The row of a counter in a window holds how often it was used. *)
Definition row_is (k : Counter) (w n : Z) c : Prop :=
  match docs c !! usage_row (counter_key k) w with
  | Some d => du_count d = n ∧ du_expiresAt d = (w + 1) * counter_window k
  | None => n = 0
  end.
Definition from_ (T : Z) (l : list UsageStep) : Prop := Forall (λ s, T <= usage_time s) l.

Lemma nothing_after k w l c T : (w + 1) * counter_window k <= T → from_ T l → granted k w l c = 0 ∧ attempts k w l = 0.
Proof.
  intros HT. revert c. induction l as [|s l IH]; intros c Hl; [done|]. apply Forall_cons in Hl as [Hs Hl]. unfold attempts in *. cbn [granted List.filter].
  assert (counts k w s = false) as ->; [|cbn [andb]; destruct (IH (usage_step s c).2 Hl); lia].
  destruct s as [k' t|t]; [|done]. cbn in Hs |- *. destruct (decide (k' = k)) as [->|]; [|by rewrite bool_decide_eq_false_2].
  rewrite bool_decide_eq_true_2 by done. apply Z.eqb_neq. intros Hw. unfold window_of in Hw.
  pose proof (counter_window_pos k). pose proof (Z.mod_pos_bound t (counter_window k)). pose proof (Z.div_mod t (counter_window k)). nia.
Qed.

Lemma step_row k w n s c : counter_fits k = true → step_fits s = true → row_is k w n c → usage_time s < (w + 1) * counter_window k ∨ (∃ k' t, s = us_take k' t) →
  row_is k w (if counts k w s then n + 1 else n) (usage_step s c).2 ∧ (counts k w s = true → (usage_step s c).1 = (n + 1 <=? counter_limit k)).
Proof.
  intros Hk Hs Hn Ht. destruct s as [k' t|t]; cbn [usage_step counts].
  - destruct (take_docs k' t c) as [Hg Hd]. destruct (_ && _) eqn:Hsame.
    + apply andb_true_iff in Hsame as [->%bool_decide_eq_true Hw%Z.eqb_eq]. rewrite Hw in *. unfold row_is in *. rewrite Hd, lookup_insert_eq, Hg. cbn [fst].
      destruct (docs c !! _) as [d|]; cbn; [destruct Hn as [-> ->]|subst n]; done.
    + split; [|done]. unfold row_is in *. rewrite Hd, lookup_insert_ne; [done|]. intros E. apply usage_row_inj in E as [-> <-]; [|done..].
      by rewrite bool_decide_eq_true_2, Z.eqb_refl in Hsame.
  - split; [|done]. cbn [snd]. destruct Ht as [Ht|(? & ? & ?)]; [|done]. cbn in Ht. unfold row_is, reap_usage in *. destruct (deleteMany_docs (λ d, du_expiresAt d <=? t) c) as [_ ->].
    unfold selected. rewrite map_lookup_filter. destruct (docs c !! _) as [d|]; [|done]. cbn. destruct Hn as [<- He]. rewrite He.
    rewrite option_guard_True; [done|]. cbn. apply negb_true_iff, Z.leb_gt. lia.
Qed.

Lemma rationed k w l c n T : counter_fits k = true → Forall (λ s, step_fits s = true) l → StronglySorted Z.le (map usage_time l) → from_ T l → row_is k w n c → 0 <= n →
  granted k w l c = Z.min (n + attempts k w l) (counter_limit k) - Z.min n (counter_limit k).
Proof.
  intros Hk. revert c n T. induction l as [|s l IH]; intros c n T Hf Hsorted HT Hrow Hn; [unfold attempts; cbn; lia|].
  apply Forall_cons in Hf as [Hfs Hf]. cbn [map] in Hsorted. apply StronglySorted_inv in Hsorted as [Hsorted Hlater]. apply Forall_cons in HT as [HTs HT].
  assert (from_ (usage_time s) l) as Hfrom by (rewrite Forall_map in Hlater; exact Hlater).
  assert ((usage_time s < (w + 1) * counter_window k ∨ ∃ k' t, s = us_take k' t) ∨ ∃ t, s = us_reap t ∧ (w + 1) * counter_window k <= t) as [Ht|(t & -> & Hpast)].
  { destruct s as [k' t|t]; [left; right; eauto|]. destruct (Z.lt_ge_cases t ((w + 1) * counter_window k)); [by left; left|right; eauto]. }
  - destruct (step_row k w n s c Hk Hfs Hrow Ht) as [Hrow' Hg]. cbn [granted]. unfold attempts in *. cbn [List.filter].
    destruct (counts k w s) eqn:Hc.
    + rewrite (IH _ (n + 1) (usage_time s)) by (done || lia). rewrite Hg by done. cbn [andb length]. destruct (Z.leb_spec (n + 1) (counter_limit k)); lia.
    + cbn [andb]. rewrite (IH _ n (usage_time s)) by done. lia.
  - cbn [granted counts andb]. destruct (nothing_after k w l (usage_step (us_reap t) c).2 t Hpast Hfrom) as [-> Ha]. unfold attempts in *. cbn [List.filter counts]. rewrite Ha. lia.
Qed.

(** Whatever visitors and instances do at the same time, a counter grants exactly as many
    uses in a window as are asked for, up to its limit: two requests that race for the last
    turn do not both get it, none is lost, and the reaper gives nothing back. *)
Theorem turns_are_rationed k w l c : counter_fits k = true → Forall (λ s, step_fits s = true) l → StronglySorted Z.le (map usage_time l) → docs c = ∅ →
  granted k w l c = Z.min (attempts k w l) (counter_limit k).
Proof.
  intros Hk Hl Hsorted Hc. assert (0 <= counter_limit k) by (by destruct k). assert (0 <= attempts k w l) by (unfold attempts; lia).
  destruct l as [|s l]; [unfold attempts; cbn; lia|].
  rewrite (rationed k w (s :: l) c 0 (usage_time s)); [lia|done..| | |lia].
  - cbn [map] in Hsorted. apply StronglySorted_inv in Hsorted as [_ Hlater]. apply Forall_cons. split; [lia|]. by rewrite Forall_map in Hlater.
  - unfold row_is. by rewrite Hc, lookup_empty.
Qed.

(** A turn spends the deployment's key only when both counters granted it, and a visitor
    over their own limit takes nothing from the site's. *)
Context {A : Type} (transcribe : string → Hearing A → Ear) (generate : string → DemoRequest → DemoStream).
Theorem turns_are_counted_first key visitor mimeType audio now1 now2 c outcome_ asked c' :
  String.length visitor = 22%nat → runDemoTurn transcribe generate key visitor mimeType audio now1 now2 c = (Ret (outcome_, asked), c') →
  (asked = true → (take_counter (c_visitor visitor) now1 c).1 = true ∧ (take_counter c_site now2 (take_counter (c_visitor visitor) now1 c).2).1 = true) ∧
  ((take_counter (c_visitor visitor) now1 c).1 = false → ∀ w, docs c' !! usage_row (counter_key c_site) w = docs c !! usage_row (counter_key c_site) w).
Proof.
  intros Hv. assert (∀ w, docs (take_counter (c_visitor visitor) now1 c).2 !! usage_row (counter_key c_site) w = docs c !! usage_row (counter_key c_site) w) as Hsite.
  { intros w. destruct (take_docs (c_visitor visitor) now1 c) as [_ ->]. rewrite lookup_insert_ne; [done|]. intros E.
    apply (usage_row_inj (c_visitor visitor) c_site) in E as [E _]; [done|cbn; by rewrite Hv|done]. }
  unfold runDemoTurn. destruct key as [[apiKey|]|]; [|by intros [= <- <- <-]|done].
  destruct (take_counter (c_visitor visitor) now1 c) as [[] c1]; cbn [fst snd] in *; [|intros [= <- <- <-]; by split].
  destruct (take_counter c_site now2 c1) as [[] c2]; cbn [fst]; intros [= <- <- <-]; by split.
Qed.
End Rationing.

(** A transcript is what the vendor of the workspace's own binding heard, under the key of
    that provider, without the blanks around it, and never empty. *)
Theorem transcripts_are_what_was_heard {CP CB A : Type} `{CollectionLaws ProviderConfigDoc CP} `{CollectionLaws ModelBindingDoc CB}
    ws settings (hears : Hearing A → Ear) mimeType audio resolve (cp : CP) (cb : CB) t :
  transcribeAudio ws settings hears mimeType audio resolve cp cb = Ret (to_transcribed t) →
  ∃ id binding provider credentials text,
    docs cb !! id = Some binding ∧ mb_workspaceId binding = ws ∧ mb_role binding = TRANSCRIPTION_ROLE ∧ mb_enabled binding = true ∧
    docs cp !! mb_providerConfigId binding = Some provider ∧ pc_workspaceId provider = ws ∧
    providerCredentials settings resolve provider = Ret credentials ∧
    hears (Build_Hearing (pc_providerType provider) credentials (mb_modelId binding) audio mimeType (fileNameFor mimeType)) = heard text ∧ t = js_trim text ∧ t ≠ "".
Proof.
  unfold transcribeAudio. destruct (forRole _ _ _) as [[id binding]|] eqn:Hb; [|done]. destruct (providerFor _ _ _) as [provider|] eqn:Hp; [|done].
  destruct (negb _); [done|]. destruct (providerCredentials _ _ _) as [credentials|] eqn:Hc; [|done]. cbn [obind].
  destruct (hears _) as [|text|] eqn:Hh; [done| |done]. destruct (String.eqb_spec (js_trim text) ""); [done|]. intros [= <-].
  apply find_one_some in Hb as [Hd Hq]. unfold binding_here in Hq. rewrite !andb_true_iff, !String.eqb_eq in Hq. destruct Hq as [[Hws Hrole] Hon].
  unfold providerFor, findProvider in Hp. destruct (docs cp !! _) as [p|] eqn:Hdp; [|done]. cbn [mbind option_bind] in Hp. unfold provider_here in Hp.
  destruct (String.eqb_spec (pc_workspaceId p) ws); [|done]. injection Hp as ->. exists id, binding, provider, credentials, text. done.
Qed.

(** ** Instances *)

Definition ada : string := "AAAAAAAAAAAAAAAAAAAAAA".
Notation Usage := (gmap string DemoUsageDoc).
Definition busy_hour : list UsageStep := [us_take (c_visitor ada) 0; us_take c_site 0] ++ repeat (us_take (c_visitor ada) 10) 9 ++ [us_reap 3600000; us_take (c_visitor ada) 3600001].
Lemma busy_hour_fits : Forall (λ s, step_fits s = true) busy_hour.
Proof. repeat constructor. Qed.
Lemma busy_hour_sorted : StronglySorted Z.le (map usage_time busy_hour).
Proof. cbn. repeat (constructor; [|repeat constructor; lia]). constructor. Qed.
Lemma turns_are_rationed_witness : granted (c_visitor ada) 0 busy_hour (∅ : Usage) = 8 ∧ granted (c_visitor ada) 1 busy_hour (∅ : Usage) = 1.
Proof.
  split; rewrite (turns_are_rationed (C := Usage) (c_visitor ada) _ busy_hour ∅ eq_refl); try exact eq_refl.
  all: first [exact busy_hour_fits|exact busy_hour_sorted].
Defined.

Definition hears_hello (_ : string) (_ : Hearing string) : Ear := heard " hello ".
Definition says_hi (_ : string) (_ : DemoRequest) : DemoStream := {| ds_events := [de_text "Good "; de_other; de_text "evening. "]; ds_thrown := None |}.
Definition one_turn : outcome SettingError (DemoOutcome * bool) * Usage := runDemoTurn hears_hello says_hi (Ret (Some "sk")) ada "audio/ogg; codecs=opus" "bytes" 0 0 (∅ : Usage).
Lemma turns_are_counted_first_witness : one_turn.1 = Ret (dm_answered "hello" "Good evening.", true) ∧ (take_counter (c_visitor ada) 0 (∅ : Usage)).1 = true.
Proof.
  split; [vm_compute; reflexivity|]. destruct one_turn as [r c'] eqn:E. assert (r = Ret (dm_answered "hello" "Good evening.", true)) as -> by (change r with ((r, c').1); rewrite <-E; vm_compute; reflexivity).
  exact (proj1 (proj1 (turns_are_counted_first (C := Usage) hears_hello says_hi (Ret (Some "sk")) ada "audio/ogg; codecs=opus" "bytes" 0 0 ∅ _ true c' eq_refl E) eq_refl)).
Defined.

Definition ear_binding : ModelBindingDoc := new_binding "wks_1" "prv_1" "gpt-4o-transcribe" "Ear" TRANSCRIPTION_ROLE 0 0 None None.
Definition ear_provider : ProviderConfigDoc := {|
  pc_workspaceId := "wks_1"; pc_providerType := "openai"; pc_name := "OpenAI"; pc_credentialId := Some "cred_1"; pc_baseUrl := None; pc_enabled := true;
  pc_createdBy := "usr_1"; pc_createdAt := 0; pc_lastCheck := None; pc_platform := false |}.
Definition no_settings : PlatformAiSettings := {| ps_apiKey := None; ps_provider := None; ps_chatModel := None; ps_baseUrl := None; ps_monthlyUsdCap := None |}.
Definition heard_note : outcome PlatformError TranscriptionOutcome :=
  transcribeAudio "wks_1" no_settings (λ h : Hearing string, if bool_decide (cr_apiKey <$> hr_credentials _ h = Some "sk") then heard " hi " else no_ear)
    "audio/ogg" "bytes" (λ _, Some "sk") ({["prv_1" := ear_provider]} : gmap string ProviderConfigDoc) ({["bnd_1" := ear_binding]} : gmap string ModelBindingDoc).
Lemma transcripts_are_what_was_heard_witness : heard_note = Ret (to_transcribed "hi") ∧ "hi" ≠ "".
Proof.
  assert (heard_note = Ret (to_transcribed "hi")) as E by (vm_compute; reflexivity). split; [exact E|].
  destruct (transcripts_are_what_was_heard _ _ _ _ _ _ _ _ "hi" E) as (id & b & p & cr & text & _ & _ & _ & _ & _ & _ & _ & _ & _ & Hne). exact Hne.
Defined.

(** The first hop is what the visitor sent, where a proxy appends to it: a new one is a new
    visitor. *)
Example forged_hops_get_new_turns :
  visitor_address (Some "198.51.100.1, 203.0.113.9") None = "198.51.100.1" ∧ visitor_address (Some "198.51.100.2, 203.0.113.9") None = "198.51.100.2".
Proof. split; vm_compute; reflexivity. Qed.

(** Any 401 in the vendor's sentence is taken as a refused key, where 429 has to be a word. *)
Example numbers_look_like_refusals :
  plainFailure "The server had an error. Request req_84013." = plainFailure "Incorrect API key provided" ∧
  plainFailure "The server had an error. Request req_84293." ≠ plainFailure "quota".
Proof. split; [vm_compute; reflexivity|vm_compute; discriminate]. Qed.

Example inherited_extensions : fileNameFor "constructor" = "audio.function Object() { [native code] }" ∧ fileNameFor "audio/OGG; codecs=opus" = "audio.ogg".
Proof. split; vm_compute; reflexivity. Qed.
