(* ===== verification/Import.v ===== *)
(** * Bringing an assistant from another host

    Models lib/openclaw-import.ts and the part of the import route that makes the plan
    and its summary: a folder of Markdown becomes instructions, memories, documents and a
    routine.  Texts are sequences of UTF-16 code units, as in [Chunk] and [Extract]; the
    order of [localeCompare] and the lower case of a name are arguments.  The writes of a
    committed import are those of [Agents], [Memory], [Knowledge] and [Schedule]. *)
From S2P Require Import Prelude Json Chunk Extract.

Record ImportFile := { if_path : text; if_text : text }.
Record ImportedDocument := { im_title : text; im_fileName : text; im_text : text }.
Record Skipped := { sk_path : text; sk_reason : string }.
Record ImportPlan := {
  pl_name : text; pl_emoji : option text; pl_root : text; pl_systemPrompt : text; pl_memories : list text; pl_documents : list ImportedDocument;
  pl_heartbeat : option text; pl_skipped : list Skipped }.

Definition CORE : list text := map lit ["SOUL.md"; "AGENTS.md"; "IDENTITY.md"; "USER.md"; "MEMORY.md"; "TOOLS.md"; "HEARTBEAT.md"; "BOOT.md"; "BOOTSTRAP.md"; "DREAMS.md"].
Definition MARKERS : list text := map lit ["SOUL.md"; "AGENTS.md"; "IDENTITY.md"; "MEMORY.md"].
Definition MAX_PROMPT_CHARS : nat := Z.to_nat 24000.
Definition MAX_MEMORY_CHARS : nat := 600.
Definition MAX_MEMORIES : nat := 300.
Definition MAX_DOCUMENTS : nat := 200.

(** ** Paths and patterns *)

Definition SLASH : Z := 47.
Definition parts_of (path : text) : list text := split_re (λ _ s, match s with c :: _ => if c =? SLASH then Some 1%nat else None | [] => None end) None 0 [] path.
(** [path.split('/').pop()]. *)
Definition base_name (path : text) : text := default path (last (parts_of path)).
(** [path.slice(0, path.lastIndexOf('/') + 1)]. *)
Definition dir_of (path : text) : text := let r := rev path in rev (drop (run_length (λ c, negb (c =? SLASH)) r) r).
(** What is left before a suffix, whatever its case: [/suffix$/i]. *)
Definition before (suffix : string) (s : text) : option text := (λ t, rev t) <$> after true (rev (lit suffix)) (rev s).
Definition ends_in (suffix : string) (s : text) : bool := match before suffix s with Some _ => true | None => false end.
Definition holds_text (p : string) (s : text) : bool := match until true (lit p) s with Some _ => true | None => false end.
(** [replace(/x+/g, ' ')] for a class of units. *)
Fixpoint spaced (p : Z → bool) (inside : bool) (s : text) : text :=
  match s with [] => [] | c :: r => if p c then (if inside then spaced p true r else 32 :: spaced p true r) else c :: spaced p false r end.
Definition any_of (s : string) (c : Z) : bool := existsb (Z.eqb c) (lit s).
Definition is_eol (c : Z) : bool := (c =? 10) || (c =? 13) || (c =? 8232) || (c =? 8233).
Definition textual (path : text) : bool := ends_in ".md" path || ends_in ".markdown" path || ends_in ".txt" path.
Definition isTemplate (s : text) : bool :=
  (holds_text "fill this in" s || holds_text "fill me in" s || holds_text "replace this" s || holds_text "<your " s) && (length s <? 600)%nat.

(** ** Who it is *)

(** The first line start at which a pattern matches: [^] under the flag m. *)
Fixpoint first_line {A} (m : text → option A) (start : bool) (s : text) : option A :=
  match (if start then m s else None) with
  | Some a => Some a
  | None => match s with [] => None | c :: r => first_line m (is_eol c) r end
  end.
(** [\s*-?\s*key\s*[:=]]: what follows. *)
Definition labelled (key : string) (s : text) : option text :=
  let r := past_spaces s in
  let r := past_spaces (match r with c :: r' => if c =? 45 then r' else r | [] => [] end) in
  r ← after true (lit key) r;
  match past_spaces r with c :: r' => if (c =? 58) || (c =? 61) then Some r' else None | [] => None end.
(** [\s*(.+?)\s*$] behind at least [least] blanks: the rest of the line without the blanks
    at its end; when nothing but blanks follows, the last of them that is not a line end. *)
Definition rest_of_line (least : nat) (s : text) : option text :=
  let w := run_length is_ws s in
  if (w <? least)%nat then None
  else match drop w s with
       | [] => (λ c, [c]) <$> last (List.filter (λ c, negb (is_eol c)) (drop least (take w s)))
       | r => Some (trimEnd (take (run_length (λ c, negb (is_eol c)) r) r))
       end.
(** [\s*(\S+)]. *)
Definition first_word (s : text) : option text :=
  let r := past_spaces s in
  match run_length (λ c, negb (is_ws c)) r with O => None | n => Some (take n r) end.

Definition quotes : list Z := [42; 95; 96; 34; 39].
Definition clean (s : text) : text := trim (spaced is_ws false (List.filter (λ c, negb (existsb (Z.eqb c) quotes)) s)).
Record Identity := { id_name : option text; id_emoji : option text }.
Definition parseIdentity (raw : text) : Identity :=
  let s := List.filter (λ c, negb (any_of "*_" c)) raw in
  let named := first_line (λ s, labelled "name" s ≫= rest_of_line 0) true s in
  let heading := first_line (λ s, match s with c :: r => if c =? 35 then rest_of_line 1 r else None | [] => None end) true s in
  let name := clean <$> match named with Some n => Some n | None => heading end in
  {| id_name := match name with Some [] => None | n => n end; id_emoji := first_line (λ s, labelled "emoji" s ≫= first_word) true s |}.

(** ** What it remembers *)

(** A bullet or a number at the front; what follows it. *)
Definition marker (s : text) : option text :=
  match s with
  | c :: r => if any_of "-*+" c then Some r
              else match run_length digit_unit s with
                   | O => None
                   | n => match drop n s with d :: r' => if any_of ".)" d then Some r' else None | [] => None end
                   end
  | [] => None
  end.
Definition begins_item (s : text) : bool :=
  let r := past_spaces s in
  match r with c :: _ => (c =? 35) || match marker r with Some (d :: _) => is_ws d | _ => false end | [] => false end.
(** [/\n(?=\s*(?:[-*+]\s|\d+[.)]\s|#))|\n{2,}/]. *)
Definition item_break (_ : option Z) (s : text) : option nat :=
  match s with
  | c :: r => if c =? NL then (if begins_item r then Some 1%nat else match run_length (Z.eqb NL) r with O => None | n => Some (S n) end) else None
  | [] => None
  end.
Definition unheaded (s : text) : text := match run_length (Z.eqb 35) s with O => s | n => past_spaces (drop n s) end.
Definition unmarked (s : text) : text := match marker (past_spaces s) with Some r => past_spaces r | None => s end.
Definition memory_line (block : text) : text := trim (spaced is_ws false (unmarked (unheaded block))).
Definition headings : list string := ["memory"; "note"; "notes"; "fact"; "facts"; "decision"; "decisions"; "long-term memory"; "long term memory"].
Definition is_heading (line : text) : bool := existsb (λ h, match after true (lit h) line with Some [] => true | _ => false end) headings.
Definition ELLIPSIS : Z := 8230.
Definition clip (line : text) : text := if (MAX_MEMORY_CHARS <? length line)%nat then take (MAX_MEMORY_CHARS - 1) line ++ [ELLIPSIS] else line.
Definition memoriesOf (s : text) : list text :=
  take MAX_MEMORIES (map clip (List.filter (λ line, negb ((length line <? 8)%nat || is_heading line)) (map memory_line (split_re item_break None 0 [] s)))).

(** ** What it reads *)

Definition without (suffixes : list string) (s : text) : text :=
  match head (omap (λ x, before x s) suffixes) with Some b => b | None => s end.
Definition titleFor (path : text) : text :=
  let base := base_name path in
  if bool_decide (is_Some (after true (lit "skills/") path)) && ends_in "SKILL.md" base then
    lit "Skill: " ++ default (lit "skill") (last (removelast (parts_of path)))
  else if bool_decide (is_Some (after true (lit "memory/") path)) then lit "Notes " ++ without [".md"] base
  else spaced (any_of "-_") false (without [".md"; ".markdown"; ".txt"] base).

Definition blank_line_ : text := [NL; NL].
Definition section (title : string) (body : option text) : list text :=
  let b := trim (default [] body) in
  if bool_decide (b = []) || isTemplate b then [] else [lit "## " ++ lit title ++ blank_line_ ++ b].
Fixpoint join_parts (parts : list text) : text := match parts with [] => [] | [p] => p | p :: rest => p ++ blank_line_ ++ join_parts rest end.
Definition CUT_NOTE : text := blank_line_ ++ lit "(Instructions were cut here to fit.)".
Definition greeting (name : text) (emoji : option text) : text :=
  lit "You are " ++ name ++ match emoji with Some e => 32 :: e | None => [] end
  ++ lit ", brought here from your previous setup. What follows is who you were there, and it still holds. Where it refers to files, shell commands or tools you no longer have, use the tools you have here instead, and say so when something is not possible any more.".
Definition house_rule : text :=
  lit "Keep replies short and plain, and never use an em-dash. Before anything that writes, sends, spends or deletes, say what you are about to do and wait to be told to go ahead.".
Definition composePrompt (name : text) (emoji soul agents user : option text) : text :=
  let prompt := join_parts (greeting name emoji :: section "Who you are" soul ++ section "How you work" agents ++ section "Who you work for" user ++ [house_rule]) in
  if (MAX_PROMPT_CHARS <? length prompt)%nat then take MAX_PROMPT_CHARS prompt ++ CUT_NOTE else prompt.

(** ** The plan *)

Section Plan.
Context (locale_le : text → text → bool).

Definition shallower (a b : text) : bool :=
  let n := length (parts_of a) in let m := length (parts_of b) in (n <? m)%nat || ((n =? m)%nat && locale_le a b).
Definition findRoot (files : list ImportFile) : option text :=
  head (stable_sort shallower (map (λ f, dir_of (if_path f)) (List.filter (λ f, bool_decide (base_name (if_path f) ∈ MARKERS)) files))).

Definition hidden (path : text) : bool := existsb (λ part, match part with c :: _ => c =? 46 | [] => false end) (parts_of path).
Definition in_root (root : text) (files : list ImportFile) : list ImportFile :=
  List.filter (λ f, negb (hidden (if_path f))) (omap (λ f, (λ p, {| if_path := p; if_text := if_text f |}) <$> after false root (if_path f)) files).

(** The loop over the files: what becomes a document and what is left out. *)
Definition sort_file (acc : list ImportedDocument * list Skipped) (f : ImportFile) : list ImportedDocument * list Skipped :=
  let '(documents, skipped) := acc in
  let skip reason := (documents, skipped ++ [{| sk_path := if_path f; sk_reason := reason |}]) in
  if bool_decide (if_path f ∈ CORE) then acc
  else if negb (textual (if_path f)) then skip "not a text file"
  else if bool_decide (trim (if_text f) = []) then skip "empty"
  else if (MAX_DOCUMENTS <=? length documents)%nat then skip "document limit reached"
  else (documents ++ [{| im_title := titleFor (if_path f); im_fileName := base_name (if_path f); im_text := if_text f |}], skipped).

Definition NO_WORKSPACE : string := "No assistant workspace found. The archive should hold SOUL.md, AGENTS.md or MEMORY.md, at any depth.".
Definition planImport (files : list ImportFile) (fallbackName : text) : outcome string ImportPlan :=
  match findRoot files with
  | None => Throw NO_WORKSPACE
  | Some root =>
      let inRoot := in_root root files in
      let read name := if_text <$> List.find (λ f, bool_decide (if_path f = lit name)) inRoot in
      let identity := parseIdentity (default [] (read "IDENTITY.md")) in
      let name := take 80 (default fallbackName (id_name identity)) in
      let '(documents, skipped) := foldl sort_file ([], []) inRoot in
      let extra n title := match read n with Some t => if bool_decide (trim t = []) then [] else [{| im_title := lit title; im_fileName := lit n; im_text := t |}] | None => [] end in
      let ritual n := match read n with Some _ => [{| sk_path := lit n; sk_reason := "a first-run or startup ritual, not needed here" |}] | None => [] end in
      let heartbeat := trim (default [] (read "HEARTBEAT.md")) in
      Ret {| pl_name := name; pl_emoji := id_emoji identity; pl_root := root;
             pl_systemPrompt := composePrompt name (id_emoji identity) (read "SOUL.md") (read "AGENTS.md") (read "USER.md");
             pl_memories := memoriesOf (default [] (read "MEMORY.md"));
             pl_documents := documents ++ extra "TOOLS.md" "Tools and environment (imported)" ++ extra "DREAMS.md" "Dream diary (imported)";
             pl_heartbeat := if negb (bool_decide (heartbeat = [])) && negb (isTemplate heartbeat) then Some heartbeat else None;
             pl_skipped := skipped ++ ritual "BOOT.md" ++ ritual "BOOTSTRAP.md" |}
  end.

(** *** The route, up to the plan *)

Definition MAX_ARCHIVE_BYTES : Z := 40000000.
Definition importable (path : text) : bool := textual path || ends_in ".json" path.
Definition archive_files (entries : list ImportFile) : list ImportFile := List.filter (λ e, importable (if_path e)) entries.
Definition archive_title (fileName : text) : text :=
  let t := trim (spaced (any_of "-_") false (without [".zip"] fileName)) in if bool_decide (t = []) then lit "Imported assistant" else t.
Record PlanSummary := {
  sm_name : text; sm_emoji : option text; sm_root : text; sm_promptChars : nat; sm_memories : nat; sm_documents : list text; sm_heartbeat : bool; sm_skipped : list Skipped }.
Definition summary (p : ImportPlan) : PlanSummary := {|
  sm_name := pl_name p; sm_emoji := pl_emoji p; sm_root := pl_root p; sm_promptChars := length (pl_systemPrompt p); sm_memories := length (pl_memories p);
  sm_documents := map im_title (pl_documents p); sm_heartbeat := match pl_heartbeat p with Some _ => true | None => false end; sm_skipped := pl_skipped p |}.
(** [entries] is what reading the archive gives, with the texts decoded. *)
Definition import_plan (size : Z) (fileName : text) (entries : outcome string (list ImportFile)) : outcome string ImportPlan :=
  if size =? 0 then Throw ("Attach the zip as the " +:+ dquote +:+ "archive" +:+ dquote +:+ " field.")
  else if MAX_ARCHIVE_BYTES <? size then Throw "That archive is over 40 MB. Zip the workspace folder on its own, without media."
  else match entries with Throw e => Throw e | Ret entries => planImport (archive_files entries) (archive_title fileName) end.

(** The slug of the assistant that is made. *)
Context (lower : text → text).
Definition slug_unit (c : Z) : bool := in_units 97 122 c || digit_unit c.
Fixpoint dashed (inside : bool) (s : text) : text :=
  match s with [] => [] | c :: r => if slug_unit c then c :: dashed false r else if inside then dashed true r else 45 :: dashed true r end.
Definition undashed (s : text) : text :=
  let s := match s with c :: r => if c =? 45 then r else s | [] => [] end in
  match rev s with c :: r => if c =? 45 then rev r else s | [] => s end.
Definition slug_for (name : text) : text :=
  let s := take 40 (undashed (dashed false (lower name))) in if bool_decide (s = []) then lit "imported" else s.
End Plan.

(** ** Nothing vanishes, nothing overflows *)

Lemma after_app root p : after false root (root ++ p) = Some p.
Proof. induction root as [|c root IH]; cbn; [by destruct p|]. by rewrite Z.eqb_refl. Qed.

(** The loop keeps what it has and accounts for every file. *)
Definition placed (acc : list ImportedDocument * list Skipped) (f : ImportFile) : Prop :=
  (∃ d, d ∈ acc.1 ∧ im_fileName d = base_name (if_path f) ∧ im_text d = if_text f) ∨ (∃ s, s ∈ acc.2 ∧ sk_path s = if_path f).
Definition extends (a b : list ImportedDocument * list Skipped) : Prop := a.1 ⊆ b.1 ∧ a.2 ⊆ b.2.
Lemma sort_file_spec acc f : extends acc (sort_file acc f) ∧ (if_path f ∉ CORE → placed (sort_file acc f) f) ∧
  (length acc.1 <= MAX_DOCUMENTS → length (sort_file acc f).1 <= MAX_DOCUMENTS)%nat.
Proof.
  destruct acc as [documents skipped]. unfold sort_file, placed, extends. case_bool_decide as Hc; [done|].
  assert (∀ reason, placed (documents, skipped ++ [{| sk_path := if_path f; sk_reason := reason |}]) f) as Hskip.
  { intros reason. right. eexists. split; [apply elem_of_app; right; by apply list_elem_of_singleton|done]. }
  destruct (negb (textual _)); [cbn; split_and!; [done|set_solver|intros _; apply Hskip|done]|].
  case_bool_decide; [cbn; split_and!; [done|set_solver|intros _; apply Hskip|done]|].
  destruct (Nat.leb_spec MAX_DOCUMENTS (length documents)) as [Hfull|Hroom]; [cbn; split_and!; [done|set_solver|intros _; apply Hskip|done]|].
  cbn [fst snd]. split_and!; [set_solver|done| |rewrite length_app; cbn [length]; lia].
  intros _. left. eexists. split; [apply elem_of_app; right; by apply list_elem_of_singleton|done].
Qed.
Lemma placed_extends a b f : extends a b → placed a f → placed b f.
Proof. intros [Hd Hs] [(d & ? & ?)|(s & ? & ?)]; [left; exists d|right; exists s]; set_solver. Qed.
Lemma sort_files_spec l acc : extends acc (foldl sort_file acc l) ∧ (∀ f, f ∈ l → if_path f ∉ CORE → placed (foldl sort_file acc l) f) ∧
  (length acc.1 <= MAX_DOCUMENTS → length (foldl sort_file acc l).1 <= MAX_DOCUMENTS)%nat.
Proof.
  revert acc. induction l as [|f l IH]; intros acc; cbn [foldl]; [split_and!; [done|set_solver|done]|].
  destruct (sort_file_spec acc f) as ([Hd Hs] & Hp & Hn). destruct (IH (sort_file acc f)) as (He & Hpl & Hn'). split_and!.
  - destruct He as [Hd' Hs']. split; set_solver.
  - intros g [->|Hg]%elem_of_cons Hcore; [|by apply Hpl]. eapply placed_extends; [exact He|by apply Hp].
  - auto.
Qed.

Section Laws.
Context (locale_le : text → text → bool).

(** Every file of the folder that is neither hidden nor one of the ten that have a meaning
    of their own is in the plan: among the documents with its text, or among what is left
    out. *)
Theorem nothing_in_the_folder_vanishes files fallback plan path t :
  planImport locale_le files fallback = Ret plan → {| if_path := pl_root plan ++ path; if_text := t |} ∈ files → hidden path = false → path ∉ CORE →
  (∃ d, d ∈ pl_documents plan ∧ im_fileName d = base_name path ∧ im_text d = t) ∨ (∃ s, s ∈ pl_skipped plan ∧ sk_path s = path).
Proof.
  unfold planImport. destruct (findRoot locale_le files) as [root|]; [|done]. destruct (foldl sort_file ([], []) (in_root root files)) as [documents skipped] eqn:Hf.
  intros [= <-] Hin Hh Hc. cbn [pl_root pl_documents pl_skipped] in *. destruct (sort_files_spec (in_root root files) ([], [])) as (_ & Hpl & _).
  rewrite Hf in Hpl. destruct (Hpl {| if_path := path; if_text := t |}) as [(d & Hd & ?)|(s & Hs & ?)]; [|done| |].
  - unfold in_root. apply list_elem_of_In, filter_In. split; [|by apply negb_true_iff]. apply list_elem_of_In, list_elem_of_omap.
    eexists. split; [exact Hin|]. cbn [if_path if_text]. by rewrite after_app.
  - left. exists d. split; [by apply elem_of_app; left|done].
  - right. exists s. split; [by apply elem_of_app; left|done].
Qed.

Lemma clip_length line : (length (clip line) <= MAX_MEMORY_CHARS)%nat.
Proof.
  unfold clip. destruct (Nat.ltb_spec MAX_MEMORY_CHARS (length line)); [|done]. rewrite length_app, length_take. cbn [length]. unfold MAX_MEMORY_CHARS in *. lia.
Qed.
Lemma composePrompt_length name emoji soul agents user : (length (composePrompt name emoji soul agents user) <= MAX_PROMPT_CHARS + length CUT_NOTE)%nat.
Proof.
  unfold composePrompt. generalize (join_parts (greeting name emoji :: section "Who you are" soul ++ section "How you work" agents ++ section "Who you work for" user ++ [house_rule])).
  intros prompt. destruct (Nat.ltb_spec MAX_PROMPT_CHARS (length prompt)); [|lia]. rewrite length_app, length_take. lia.
Qed.

(** However large the folder, the plan is small: a name, instructions with at most a note
    behind the limit, memories of a few lines, and two documents more than the limit at
    most. *)
Theorem plans_are_bounded files fallback plan : planImport locale_le files fallback = Ret plan →
  (length (pl_name plan) <= 80)%nat ∧ (length (pl_systemPrompt plan) <= MAX_PROMPT_CHARS + length CUT_NOTE)%nat ∧
  (length (pl_memories plan) <= MAX_MEMORIES)%nat ∧ Forall (λ m, length m <= MAX_MEMORY_CHARS)%nat (pl_memories plan) ∧
  (length (pl_documents plan) <= MAX_DOCUMENTS + 2)%nat.
Proof.
  unfold planImport. destruct (findRoot locale_le files) as [root|]; [|done]. destruct (foldl sort_file ([], []) (in_root root files)) as [documents skipped] eqn:Hf.
  intros [= <-]. cbn [pl_name pl_systemPrompt pl_memories pl_documents]. split_and!.
  - rewrite length_take. lia.
  - apply composePrompt_length.
  - unfold memoriesOf. rewrite length_take. lia.
  - unfold memoriesOf. apply Forall_take, Forall_fmap, Forall_true. intros line. apply clip_length.
  - destruct (sort_files_spec (in_root root files) ([], [])) as (_ & _ & Hn). rewrite Hf in Hn. cbn [fst] in Hn. specialize (Hn ltac:(cbn; lia)).
    rewrite !length_app. repeat case_match; cbn [length]; lia.
Qed.

Lemma Sorted_weaken {A} (R S : A → A → Prop) l : (∀ a b, R a b → S a b) → Sorted R l → Sorted S l.
Proof. intros HRS. induction 1 as [|x l _ IH Hx]; constructor; [done|]. inversion Hx; subst; constructor; auto. Qed.

(** The folder is the shallowest one that holds a marker. *)
Theorem the_root_is_the_shallowest files root f : (∀ a b, locale_le a b = false → locale_le b a = true) →
  findRoot locale_le files = Some root → f ∈ files → base_name (if_path f) ∈ MARKERS → (length (parts_of root) <= length (parts_of (dir_of (if_path f))))%nat.
Proof.
  intros Htotal. unfold findRoot. set (cs := map _ _). intros Hr Hf Hm.
  assert (dir_of (if_path f) ∈ stable_sort (shallower locale_le) cs) as Hin.
  { apply elem_of_stable_sort, list_elem_of_fmap. exists f. split; [done|]. apply list_elem_of_In, filter_In. split; [by apply list_elem_of_In|by apply bool_decide_eq_true]. }
  assert (Sorted (λ a b, length (parts_of a) <= length (parts_of b))%nat (stable_sort (shallower locale_le) cs)) as Hs.
  { eapply Sorted_weaken; [|apply stable_sort_sorted].
    - intros a b. unfold shallower. rewrite orb_true_iff, andb_true_iff, Nat.ltb_lt, Nat.eqb_eq. lia.
    - intros a b. unfold shallower. rewrite orb_false_iff, Nat.ltb_ge. intros [Hab E]. destruct (Nat.ltb_spec (length (parts_of b)) (length (parts_of a))); [done|].
      cbn [orb]. assert (length (parts_of a) = length (parts_of b)) as El by lia. rewrite El, Nat.eqb_refl in *. cbn [andb] in *. by apply Htotal. }
  apply Sorted_StronglySorted in Hs; [|intros a b c; lia]. destruct (stable_sort (shallower locale_le) cs) as [|x l]; [done|]. injection Hr as ->.
  apply StronglySorted_inv in Hs as [_ Hall]. apply elem_of_cons in Hin as [->|Hin]; [done|]. rewrite Forall_forall in Hall. by apply Hall.
Qed.
End Laws.

(** What a person wrote about the assistant is in its instructions word for word, and the
    rule of the house is behind it, when all of it fits. *)
Lemma join_parts_infix x parts : x ∈ parts → infix x (join_parts parts).
Proof.
  induction parts as [|p parts IH]; [by intros ?%not_elem_of_nil|]. intros [->|Hin]%elem_of_cons.
  - destruct parts; [exists [], []; by rewrite app_nil_r|]. exists [], (blank_line_ ++ join_parts (t :: parts)). done.
  - destruct parts as [|q parts]; [by apply not_elem_of_nil in Hin|]. destruct (IH Hin) as (a & b & E). exists (p ++ blank_line_ ++ a), b.
    change (join_parts (p :: q :: parts)) with (p ++ blank_line_ ++ join_parts (q :: parts)). rewrite E. by rewrite <-!app_assoc.
Qed.
Lemma infix_trans_ a b c : infix a b → infix b c → infix a c.
Proof. intros (x & y & ->) (x' & y' & ->). exists (x' ++ x), (y ++ y'). by rewrite <-!app_assoc. Qed.
Lemma section_infix title body : trim body ≠ [] → isTemplate (trim body) = false → ∃ p, p ∈ section title (Some body) ∧ infix (trim body) p.
Proof.
  intros Hne Ht. unfold section. change (default [] (Some body)) with body. cbv zeta. rewrite Ht. rewrite bool_decide_eq_false_2 by done. cbn [orb]. eexists. split; [by apply list_elem_of_singleton|].
  exists (lit "## " ++ lit title ++ blank_line_), []. by rewrite app_nil_r, <-!app_assoc.
Qed.
Theorem the_persona_is_kept name emoji soul agents user :
  let whole := greeting name emoji :: section "Who you are" soul ++ section "How you work" agents ++ section "Who you work for" user ++ [house_rule] in
  (length (join_parts whole) <= MAX_PROMPT_CHARS)%nat →
  (∀ body, Some body = soul ∨ Some body = agents ∨ Some body = user → trim body ≠ [] → isTemplate (trim body) = false → infix (trim body) (composePrompt name emoji soul agents user)) ∧
  infix house_rule (composePrompt name emoji soul agents user).
Proof.
  intros whole Hle. assert (composePrompt name emoji soul agents user = join_parts whole) as ->.
  { unfold composePrompt. fold whole. destruct (Nat.ltb_spec MAX_PROMPT_CHARS (length (join_parts whole))); [lia|done]. }
  split; [|apply join_parts_infix; unfold whole; set_solver]. intros body Hb Hne Ht.
  assert (∃ p, p ∈ whole ∧ infix (trim body) p) as (p & Hp & Hi); [|eapply infix_trans_; [exact Hi|by apply join_parts_infix]].
  unfold whole. destruct Hb as [<-|[<-|<-]]; [destruct (section_infix "Who you are" body Hne Ht) as (p & ? & ?)|destruct (section_infix "How you work" body Hne Ht) as (p & ? & ?)
    |destruct (section_infix "Who you work for" body Hne Ht) as (p & ? & ?)]; exists p; set_solver.
Qed.

(** ** Instances *)

Fixpoint code_le (a b : text) : bool :=
  match a, b with [], _ => true | _ :: _, [] => false | x :: a', y :: b' => (x <? y) || ((x =? y) && code_le a' b') end.
Definition file_of (path body : string) : ImportFile := {| if_path := lit path; if_text := lit body |}.
Definition line (s : string) : text := lit s ++ [NL].
Definition folder : list ImportFile := [
  {| if_path := lit "old/ws/IDENTITY.md"; if_text := line "# Who" ++ line "- **Name:** *Ada* " ++ line "- Emoji: :-)" |};
  file_of "old/ws/SOUL.md" " Be kind. ";
  {| if_path := lit "old/ws/MEMORY.md"; if_text := line "# Memory" ++ line "- Likes green tea" ++ line "  in the morning" ++ line "2) Lives in Lagos" ++ line "- short" |};
  file_of "old/ws/skills/mail/SKILL.md" "How to mail."; file_of "old/ws/memory/2026-01-02.md" "Rain."; file_of "old/ws/data.json" "{}";
  file_of "old/ws/blank.txt" "  "; file_of "old/ws/BOOT.md" "Start."; file_of "old/ws/.git/log.md" "x"; file_of "old/deep/er/SOUL.md" "No."; file_of "old/ws/a/b/SOUL.md" "Deeper."].
Definition the_plan : ImportPlan := match planImport code_le folder (lit "zip") with Ret p => p | Throw _ => {| pl_name := []; pl_emoji := None; pl_root := []; pl_systemPrompt := []; pl_memories := []; pl_documents := []; pl_heartbeat := None; pl_skipped := [] |} end.
Example a_folder_read :
  planImport code_le folder (lit "zip") = Ret the_plan ∧ pl_name the_plan = lit "Ada" ∧ pl_emoji the_plan = Some (lit ":-)") ∧ pl_root the_plan = lit "old/ws/" ∧
  pl_memories the_plan = [lit "Likes green tea in the morning"; lit "Lives in Lagos"] ∧
  map im_title (pl_documents the_plan) = [lit "Skill: mail"; lit "Notes 2026-01-02"; lit "SOUL"] ∧
  map (λ s, (sk_path s, sk_reason s)) (pl_skipped the_plan) =
    [(lit "data.json", "not a text file"); (lit "blank.txt", "empty"); (lit "BOOT.md", "a first-run or startup ritual, not needed here")].
Proof. split_and!; vm_compute; reflexivity. Qed.

Lemma nothing_in_the_folder_vanishes_witness : ∃ d, d ∈ pl_documents the_plan ∧ im_text d = lit "How to mail.".
Proof.
  destruct (nothing_in_the_folder_vanishes code_le folder (lit "zip") the_plan (lit "skills/mail/SKILL.md") (lit "How to mail.")) as [(d & Hd & _ & Ht)|(s & Hs & Hp)].
  - vm_compute. reflexivity.
  - apply list_elem_of_In. vm_compute. do 3 right. left. reflexivity.
  - vm_compute. reflexivity.
  - intros Hin%list_elem_of_In. vm_compute in Hin. repeat destruct Hin as [Hin|Hin]; discriminate || exact Hin.
  - exists d. split; [exact Hd|exact Ht].
  - exfalso. apply list_elem_of_In in Hs. vm_compute in Hs, Hp. repeat destruct Hs as [Hs|Hs]; [subst s; vm_compute in Hp; discriminate..|exact Hs].
Defined.
Lemma plans_are_bounded_witness : (length (pl_documents the_plan) <= MAX_DOCUMENTS + 2)%nat ∧ length (pl_memories the_plan) = 2%nat.
Proof.
  split; [|vm_compute; reflexivity]. assert (planImport code_le folder (lit "zip") = Ret the_plan) as E by (vm_compute; reflexivity).
  exact (proj2 (proj2 (proj2 (proj2 (plans_are_bounded code_le folder (lit "zip") the_plan E))))).
Defined.

Lemma code_le_total a b : code_le a b = false → code_le b a = true.
Proof.
  revert b. induction a as [|x a IH]; intros [|y b]; cbn; try done. rewrite orb_false_iff. intros [Hlt E]. apply Z.ltb_ge in Hlt.
  destruct (Z.ltb_spec y x); [done|]. assert (x = y) as -> by lia. rewrite Z.eqb_refl in *. cbn in *. by apply IH.
Qed.
Lemma the_root_is_the_shallowest_witness : (length (parts_of (lit "old/ws/")) <= length (parts_of (dir_of (lit "old/deep/er/SOUL.md"))))%nat.
Proof.
  apply (the_root_is_the_shallowest code_le folder (lit "old/ws/") (file_of "old/deep/er/SOUL.md" "No.") code_le_total).
  - vm_compute. reflexivity.
  - apply list_elem_of_In. vm_compute. do 9 right. left. reflexivity.
  - apply list_elem_of_In. vm_compute. left. reflexivity.
Defined.
Lemma the_persona_is_kept_witness : infix (lit "Be kind.") (pl_systemPrompt the_plan) ∧ infix house_rule (pl_systemPrompt the_plan).
Proof.
  destruct (the_persona_is_kept (lit "Ada") (Some (lit ":-)")) (Some (lit " Be kind. ")) None None) as [Hkept Hrule]; [apply Nat.leb_le; vm_compute; reflexivity|].
  assert (pl_systemPrompt the_plan = composePrompt (lit "Ada") (Some (lit ":-)")) (Some (lit " Be kind. ")) None None) as -> by (vm_compute; reflexivity).
  split; [|exact Hrule]. apply (Hkept (lit " Be kind. ")); [left; reflexivity|vm_compute; discriminate|vm_compute; reflexivity].
Defined.

(** The rule that an assistant asks before it acts comes last, so that it is what a long
    persona cuts off. *)
Definition long_soul : text := repeat 97 (S (Z.to_nat 24999)).
Lemma trim_letters n : trim (repeat 97 (S n)) = repeat 97 (S n).
Proof.
  assert (solid_start (repeat 97 (S n))) as Hs by (by eexists _, _). unfold trim, trimEnd. by rewrite !(trimStart_keeps (repeat 97 (S n))), !rev_repeat, !(trimStart_keeps (repeat 97 (S n))), !rev_repeat.
Qed.
Example cut_prompts_lose_the_rule : until false (lit "wait to be told") (composePrompt (lit "Ada") None (Some long_soul) None None) = None.
Proof. unfold composePrompt, section, long_soul. cbn [default from_option id]. rewrite trim_letters. vm_compute. reflexivity. Qed.

(** Two documents are added behind the limit. *)
Definition many : list ImportFile := file_of "SOUL.md" "s" :: file_of "TOOLS.md" "t" :: file_of "DREAMS.md" "d" :: repeat (file_of "n.md" "n") 201.
Example two_documents_too_many :
  match planImport code_le many [] with Ret p => (length (pl_documents p), map sk_reason (pl_skipped p)) | Throw _ => (0%nat, []) end = (202%nat, ["document limit reached"]).
Proof. vm_compute. reflexivity. Qed.

(** What lies beside the folder, and what is hidden in it, is in no list. *)
Example files_beside_the_folder_vanish :
  match planImport code_le [file_of "ws/SOUL.md" "s"; file_of "notes.md" "n"; file_of "ws/.notes/a.md" "h"] [] with
  | Ret p => (pl_root p, pl_documents p, pl_skipped p) | Throw _ => ([], [], []) end = (lit "ws/", [], []).
Proof. vm_compute. reflexivity. Qed.

(** A name that is left blank hides the heading that would have been used. *)
Example blank_names_hide_the_heading : id_name (parseIdentity (line "# Ada" ++ lit "Name: ")) = None ∧ id_name (parseIdentity (line "# Ada" ++ lit "Name:")) = Some (lit "Ada").
Proof. split; vm_compute; reflexivity. Qed.
