(* ===== verification/Stores.v ===== *)
(** * A merchant's store and a person's own gateway

    Models lib/shopify.ts and lib/openclaw.ts, the tools over them
    (packages/servers/src/shopify.ts and openclaw.ts) and the route that connects
    either with an address and a token.  An operation is a program of HTTP requests
    ([Outbound.Prog]) run against whatever the network answers; the token of a request,
    whatever header carries it, is its [rq_auth].  A request that was given up in time is
    answered with the text aborted.  A reply has the types its vendor documents, a missing
    object reads as one without fields; the parsing of addresses and the lookup of names
    are arguments; a character beyond Latin-1 is written as the bytes of its UTF-8 form. *)
From S2P Require Import Prelude Json JsonText Text Guard Adapters Outbound WebReader.

#[local] Open Scope prog_scope.

Definition fails {A} (message : string) : Prog A := Fail (pe_other message).
Definition ABORTED : string := "aborted".
Definition items (v : value) : list value := match v with VArray l => l | _ => [] end.
Definition text_in (v : value) (key : string) : string := default "" (str_of v key).
Definition has_ci (needle s : string) : bool := str_includes needle (toLowerCase s).
Definition optional (key : string) (v : option value) : list (string * value) := match v with Some x => [(key, x)] | None => [] end.

(** ** The store *)

Definition SHOPIFY_ALIAS : string := "shopify".
Definition SHOPIFY_API_VERSION : string := "2025-10".
Definition SHOP_SUFFIX : string := ".myshopify.com".

Definition shop_char (c : Ascii.ascii) : bool := is_lower c || is_digit c || Ascii.eqb c "-".
Definition shop_domain (host : string) : bool :=
  let name := str_take (String.length host - String.length SHOP_SUFFIX) host in
  String.eqb host (name +:+ SHOP_SUFFIX) && str_all shop_char name && match name with String c _ => is_lower c || is_digit c | EmptyString => false end.
(** [normaliseShopDomain]; [host_of] is the host of an address that parses. *)
Definition normaliseShopDomain (host_of : string → option string) (raw : string) : outcome string string :=
  let typed := toLowerCase (js_trim raw) in
  let host := default typed (host_of (if str_includes "://" typed then typed else "https://" +:+ typed)) in
  let host := default host (eat "www." host) in
  if shop_domain host then Ret host else Throw "The shop domain should look like my-store.myshopify.com. The custom domain is not it.".

Definition graph_url (domain : string) : string := "https://" +:+ domain +:+ "/admin/api/" +:+ SHOPIFY_API_VERSION +:+ "/graphql.json".
Definition graph_judge (reply : Reply) : outcome PlatformError value :=
  match reply with
  | Throw e => Throw (pe_other (if String.eqb e ABORTED then "The store did not answer in time." else "The store could not be reached."))
  | Ret r =>
      let status := rs_status r in
      if (status =? 401) || (status =? 403) then Throw (pe_other "Shopify refused the token. Make sure the custom app is installed and the token is its Admin API access token.")
      else if status =? 404 then Throw (pe_other ("Shopify answered " +:+ dquote +:+ "not found" +:+ dquote +:+ ": check the shop domain."))
      else if negb (is_ok r) then Throw (pe_other ("Shopify answered with HTTP " +:+ js_show status +:+ "."))
      else match rs_json r with
           | None => Throw (pe_other (rs_text r))
           | Some body =>
               match items (own body "errors") with
               | _ :: _ as errors =>
                   let message := join "; " (map (λ e, text_in e "message") errors) in
                   if has_ci "access denied" message || has_ci "not approved" message || has_ci "scope" message
                   then Throw (pe_other ("Shopify says the app lacks a permission: " +:+ message +:+ ". Grant it under the custom app's Admin API scopes and reinstall."))
                   else Throw (pe_other ("Shopify answered: " +:+ str_take 300 message))
               | [] => match own body "data" with VUndefined => Throw (pe_other "Shopify answered with nothing.") | data => Ret data end
               end
           end
  end.
Definition shopifyGraph (domain token query : string) (variables : list (string * value)) : Prog value :=
  ask (post_json (graph_url domain) (Some token) (VObject [("query", VString query); ("variables", VObject variables)])) graph_judge.

Record ShopInfo := { si_name : string; si_domain : string; si_currency : string }.
Definition SHOP_QUERY : string := "{ shop { name myshopifyDomain currencyCode } }".
Definition probeShop (domain token : string) : Prog ShopInfo :=
  let* data := shopifyGraph domain token SHOP_QUERY [] in
  let shop := own data "shop" in
  Done {| si_name := text_in shop "name"; si_domain := text_in shop "myshopifyDomain"; si_currency := text_in shop "currencyCode" |}.

(** [replace(/<[^>]+>/g, ' ')]. *)
Fixpoint untagged (skip : bool) (s : string) : string :=
  match s with
  | EmptyString => ""
  | String c r =>
      if skip then (if Ascii.eqb c ">" then untagged false r else untagged true r)
      else if Ascii.eqb c "<" && negb (String.prefix ">" r) && str_has ">" r then String " " (untagged true r)
      else String c (untagged false r)
  end.
Definition punctuation (c : Ascii.ascii) : bool := str_has c ".,;:!?".
(** [replace(/\s+([.,;:!?])/g, '$1')], of a text whose blanks are single spaces. *)
Fixpoint tightened (s : string) : string :=
  match s with
  | EmptyString => ""
  | String c r => match r with String d _ => if is_space c && punctuation d then tightened r else String c (tightened r) | EmptyString => String c "" end
  end.
Fixpoint single_spaced (inside : bool) (s : string) : string :=
  match s with
  | EmptyString => ""
  | String c r => if is_space c then (if inside then single_spaced true r else String " " (single_spaced true r)) else String c (single_spaced false r)
  end.
Definition shop_stripHtml (html : string) : string := js_trim (tightened (single_spaced false (untagged false html))).

Record Product := {
  pd_id : string; pd_title : string; pd_handle : string; pd_status : string; pd_description : string; pd_vendor : option string; pd_productType : option string;
  pd_tags : list string; pd_price : option string; pd_imageCount : nat; pd_url : string }.
Definition filled (s : option string) : option string := match s with Some t => if String.eqb t "" then None else Some t | None => None end.
Definition first_node (v : value) : value := default VUndefined (head (items (own v "nodes"))).
Definition toProduct (p : value) (domain : string) : Product := {|
  pd_id := text_in p "id"; pd_title := text_in p "title"; pd_handle := text_in p "handle"; pd_status := text_in p "status";
  pd_description := shop_stripHtml (text_in p "descriptionHtml"); pd_vendor := filled (str_of p "vendor"); pd_productType := filled (str_of p "productType");
  pd_tags := omap (λ t, match t with VString s => Some s | _ => None end) (items (own p "tags"));
  pd_price := str_of (first_node (own p "variants")) "price"; pd_imageCount := length (items (own (own p "mediaCount") "nodes"));
  pd_url := default ("https://" +:+ domain +:+ "/products/" +:+ text_in p "handle") (str_of p "onlineStoreUrl") |}.

Definition newline_ : string := String (Ascii.ascii_of_nat 10) "".
Definition PRODUCT_FIELDS : string :=
  newline_ +:+ "  id title handle status descriptionHtml vendor productType tags onlineStoreUrl" +:+ newline_
  +:+ "  media(first: 1) { nodes { id } } mediaCount: media(first: 50) { nodes { id } }" +:+ newline_
  +:+ "  variants(first: 1) { nodes { id price } }" +:+ newline_.
Definition PRICE_MUTATION : string :=
  "mutation($productId: ID!, $variants: [ProductVariantsBulkInput!]!) {" +:+ newline_
  +:+ "        productVariantsBulkUpdate(productId: $productId, variants: $variants) { userErrors { field message } }" +:+ newline_ +:+ "      }".
Definition MEDIA_MUTATION : string :=
  "mutation($productId: ID!, $media: [CreateMediaInput!]!) {" +:+ newline_
  +:+ "        productCreateMedia(productId: $productId, media: $media) { mediaUserErrors { field message } }" +:+ newline_ +:+ "      }".
Definition PRODUCT_QUERY : string := "query($id: ID!) { product(id: $id) { " +:+ PRODUCT_FIELDS +:+ " } }".
Definition SEARCH_QUERY : string :=
  "query($query: String, $first: Int!) { products(first: $first, query: $query, sortKey: UPDATED_AT, reverse: true) { nodes { " +:+ PRODUCT_FIELDS +:+ " } } }".
Definition CREATE_MUTATION : string :=
  "mutation($product: ProductCreateInput!) {" +:+ newline_ +:+ "          productCreate(product: $product) { product { " +:+ PRODUCT_FIELDS +:+ " } userErrors { field message } }" +:+ newline_ +:+ "        }".
Definition UPDATE_MUTATION : string := "mutation($product: ProductUpdateInput!) { productUpdate(product: $product) { userErrors { field message } } }".
Definition VARIANT_QUERY : string := "query($id: ID!) { product(id: $id) { variants(first: 1) { nodes { id } } } }".
Definition ORDERS_QUERY : string :=
  "query($first: Int!) { orders(first: $first, sortKey: CREATED_AT, reverse: true) { nodes {" +:+ newline_
  +:+ "          name createdAt displayFinancialStatus displayFulfillmentStatus customer { displayName } totalPriceSet { shopMoney { amount currencyCode } }" +:+ newline_ +:+ "        } } }".

Inductive ProductStatus := DRAFT | ACTIVE | ARCHIVED.
#[global] Instance ProductStatus_eq_dec : EqDecision ProductStatus.
Proof. solve_decision. Defined.
Definition status_text (s : ProductStatus) : string := match s with DRAFT => "DRAFT" | ACTIVE => "ACTIVE" | ARCHIVED => "ARCHIVED" end.
Record NewProduct := {
  np_title : string; np_descriptionHtml : option string; np_vendor : option string; np_productType : option string; np_tags : option (list string);
  np_price : option string; np_imageUrl : option string; np_status : ProductStatus }.
Record ProductPatch := {
  pp_title : option string; pp_descriptionHtml : option string; pp_tags : option (list string); pp_status : option ProductStatus; pp_price : option string }.
Record Order := { or_name : string; or_createdAt : string; or_customer : option string; or_total : string; or_financialStatus : option string; or_fulfillmentStatus : option string }.

Definition texts (l : list string) : value := VArray (map VString l).
Definition new_fields (input : NewProduct) : list (string * value) :=
  [("title", VString (np_title input)); ("status", VString (status_text (np_status input)))]
  ++ optional "descriptionHtml" (VString <$> np_descriptionHtml input) ++ optional "vendor" (VString <$> np_vendor input)
  ++ optional "productType" (VString <$> np_productType input) ++ optional "tags" (texts <$> np_tags input).
Definition patch_fields (patch : ProductPatch) : list (string * value) :=
  optional "title" (VString <$> pp_title patch) ++ optional "descriptionHtml" (VString <$> pp_descriptionHtml patch)
  ++ optional "tags" (texts <$> pp_tags patch) ++ optional "status" ((λ s, VString (status_text s)) <$> pp_status patch).

Section Store.
Context (domain token : string).
Definition call (query : string) (variables : list (string * value)) : Prog value := shopifyGraph domain token query variables.

Definition userErrors (errors : value) (what : string) : Prog unit :=
  match items errors with
  | [] => Done tt
  | l => fails ("Shopify would not " +:+ what +:+ ": " +:+ join "; " (map (λ e, text_in e "message") l))
  end.
Definition setPrice (productId variantId price : string) : Prog unit :=
  let* data := call PRICE_MUTATION [("productId", VString productId); ("variants", VArray [VObject [("id", VString variantId); ("price", VString price)]])] in
  userErrors (own (own data "productVariantsBulkUpdate") "userErrors") "set the price".
Definition attachMedia (productId url : string) (image : bool) (alt : option string) : Prog unit :=
  let* data := call MEDIA_MUTATION [("productId", VString productId);
    ("media", VArray [VObject ([("originalSource", VString url); ("mediaContentType", VString (if image then "IMAGE" else "VIDEO"))] ++ optional "alt" (VString <$> alt))])] in
  userErrors (own (own data "productCreateMedia") "mediaUserErrors") (if image then "add the picture" else "add the clip").
Definition getProduct (id : string) : Prog (option Product) :=
  let* data := call PRODUCT_QUERY [("id", VString id)] in
  Done (match own data "product" with VNull => None | p => Some (toProduct p domain) end).
Definition searchProducts (query : string) (limit : Z) : Prog (list Product) :=
  let* data := call SEARCH_QUERY [("query", if String.eqb (js_trim query) "" then VNull else VString query); ("first", VNumber limit)] in
  Done (map (λ p, toProduct p domain) (items (own (own data "products") "nodes"))).
Definition createProduct (input : NewProduct) : Prog Product :=
  let* data := call CREATE_MUTATION [("product", VObject (new_fields input))] in
  let made := own data "productCreate" in
  userErrors (own made "userErrors") "create the product" ;;
  match own made "product" with
  | VNull => fails "Shopify created nothing."
  | created =>
      let id := text_in created "id" in
      match np_price input, str_of (first_node (own created "variants")) "id" with
      | Some price, Some variantId => setPrice id variantId price
      | _, _ => Done tt
      end ;;
      match np_imageUrl input with Some url => attachMedia id url true (Some (np_title input)) | None => Done tt end ;;
      let* again := getProduct id in Done (default (toProduct created domain) again)
  end.
Definition NO_PRODUCT : string := "No product with that id.".
Definition reread (id : string) : Prog Product :=
  let* p := getProduct id in match p with Some p => Done p | None => fails NO_PRODUCT end.
Definition updateProduct (id : string) (patch : ProductPatch) : Prog Product :=
  match patch_fields patch with
  | [] => Done tt
  | fields => let* data := call UPDATE_MUTATION [("product", VObject (("id", VString id) :: fields))] in userErrors (own (own data "productUpdate") "userErrors") "update the product"
  end ;;
  match pp_price patch with
  | None => Done tt
  | Some price =>
      let* current := getProduct id in
      let* data := call VARIANT_QUERY [("id", VString id)] in
      match str_of (first_node (own (own data "product") "variants")) "id", current with
      | Some variantId, Some _ => setPrice id variantId price
      | _, _ => fails NO_PRODUCT
      end
  end ;;
  reread id.
Definition addProductImage (id url : string) (alt : option string) : Prog Product := attachMedia id url true alt ;; reread id.
Definition addProductVideo (id url : string) (alt : option string) : Prog Product := attachMedia id url false alt ;; reread id.
Definition toOrder (o : value) : Order := {|
  or_name := text_in o "name"; or_createdAt := text_in o "createdAt"; or_customer := str_of (own o "customer") "displayName";
  or_total := text_in (own (own o "totalPriceSet") "shopMoney") "amount" +:+ " " +:+ text_in (own (own o "totalPriceSet") "shopMoney") "currencyCode";
  or_financialStatus := str_of o "displayFinancialStatus"; or_fulfillmentStatus := str_of o "displayFulfillmentStatus" |}.
Definition recentOrders (limit : Z) : Prog (list Order) :=
  let* data := call ORDERS_QUERY [("first", VNumber limit)] in Done (map toOrder (items (own (own data "orders") "nodes"))).
End Store.

(** *** Its tools *)

Definition MAX_RESULTS : Z := 50.
Definition MAX_DESCRIPTION : nat := Z.to_nat 20000.
Definition dot : string := " · ".
Definition clip (v : string) (max : nat) : string := if (max <? String.length v)%nat then str_take max v +:+ "…" else v.
Definition with_price (label : string) (p : Product) : string := match pd_price p with Some x => dot +:+ label +:+ x | None => "" end.
Definition productLine (p : Product) : string :=
  "[" +:+ pd_id p +:+ "] " +:+ pd_title p +:+ dot +:+ toLowerCase (pd_status p) +:+ with_price "" p
  +:+ (match pd_tags p with [] => "" | tags => dot +:+ join ", " tags end) +:+ newline_ +:+ "   " +:+ pd_url p.
Definition productFull (p : Product) : string := join newline_ (
  [pd_title p +:+ " [" +:+ pd_id p +:+ "]";
   "Status: " +:+ toLowerCase (pd_status p) +:+ with_price "Price: " p +:+ dot +:+ "Pictures: " +:+ pretty (pd_imageCount p)]
  ++ match pd_vendor p, pd_productType p with
     | None, None => []
     | Some v, Some t => [v +:+ dot +:+ t]
     | Some v, None => [v]
     | None, Some t => [t]
     end
  ++ match pd_tags p with [] => [] | tags => ["Tags: " +:+ join ", " tags] end
  ++ [pd_url p; ""; clip (pd_description p) (Z.to_nat 4000)]).
Definition orderLine (o : Order) : string :=
  or_name o +:+ dot +:+ str_take 10 (or_createdAt o) +:+ dot +:+ default "no customer" (or_customer o) +:+ dot +:+ or_total o
  +:+ match or_financialStatus o with Some s => dot +:+ toLowerCase s | None => "" end +:+ match or_fulfillmentStatus o with Some s => dot +:+ toLowerCase s | None => "" end.

(** What a tool is called with, after its schema. *)
Inductive ShopTool :=
| shop_info
| search_products (query : option string) (limit : option Z)
| get_product (id : string)
| create_product (title : string) (description_html price vendor product_type : option string) (tags : option (list string)) (image_url : option string) (publish : option bool)
| update_product (id : string) (title description_html : option string) (tags : option (list string)) (price : option string) (status : option ProductStatus)
| add_product_image (id url : string) (alt : option string)
| add_product_video (id url : string) (alt : option string)
| publish_product (id : string)
| recent_orders (limit : option Z).

Definition as_text {A} (show_ : A → string) (m : Prog A) : Prog string := let* x := m in Done (show_ x).
Definition shop_tool (domain token : string) (tool : ShopTool) : Prog string :=
  match tool with
  | shop_info => as_text (λ s, si_name s +:+ " (" +:+ si_domain s +:+ "), prices in " +:+ si_currency s +:+ ".") (probeShop domain token)
  | search_products query limit =>
      as_text (λ l, match l with [] => "No products match." | _ => join newline_ (map productLine l) end) (searchProducts domain token (default "" query) (default 20 limit))
  | get_product id => as_text (λ p, match p with None => NO_PRODUCT | Some p => productFull p end) (getProduct domain token id)
  | create_product title description price vendor type tags image publish =>
      as_text (λ p, (if String.eqb (pd_status p) "ACTIVE" then "Created and on sale" else "Created as a draft") +:+ ": " +:+ productLine p)
        (createProduct domain token {| np_title := title; np_descriptionHtml := description; np_vendor := vendor; np_productType := type; np_tags := tags; np_price := price;
           np_imageUrl := image; np_status := match publish with Some true => ACTIVE | _ => DRAFT end |})
  | update_product id title description tags price status =>
      as_text (λ p, "Updated: " +:+ productLine p)
        (updateProduct domain token id {| pp_title := title; pp_descriptionHtml := description; pp_tags := tags; pp_status := status; pp_price := price |})
  | add_product_image id url alt =>
      as_text (λ p, "Picture added. " +:+ pd_title p +:+ " now has " +:+ pretty (pd_imageCount p) +:+ " picture" +:+ (if (pd_imageCount p =? 1)%nat then "" else "s") +:+ ".")
        (addProductImage domain token id url alt)
  | add_product_video id url alt =>
      as_text (λ p, "Clip added to " +:+ pd_title p +:+ ". Shopify is processing it; it shows on the product page when ready.") (addProductVideo domain token id url alt)
  | publish_product id =>
      as_text (λ p, "On sale: " +:+ productLine p)
        (updateProduct domain token id {| pp_title := None; pp_descriptionHtml := None; pp_tags := None; pp_status := Some ACTIVE; pp_price := None |})
  | recent_orders limit => as_text (λ l, match l with [] => "No orders yet." | _ => join newline_ (map orderLine l) end) (recentOrders domain token (default 10 limit))
  end.

(** ** The gateway *)

Definition OPENCLAW_ALIAS : string := "gateway".
Definition MAX_MESSAGE : nat := Z.to_nat 8000.
Definition without_suffix (suffix s : string) : string := if str_ends suffix s then str_take (String.length s - String.length suffix) s else s.
(** [replace(/\/v1\/?$/, '').replace(/\/$/, '')]. *)
Definition unversioned (s : string) : string :=
  without_suffix "/" (if str_ends "/v1" s then without_suffix "/v1" s else without_suffix "/v1/" s).
(** An address: its protocol, and its text without the fragment and the query. *)
Record GatewayUrl := { gu_protocol : string; gu_plain : string }.
Definition normaliseGatewayUrl (parse : string → option GatewayUrl) (raw : string) : outcome string string :=
  match parse (js_trim raw) with
  | None => Throw "Invalid URL"
  | Some u =>
      if negb (String.eqb (gu_protocol u) "https:") && negb (String.eqb (gu_protocol u) "http:") then Throw "The gateway address must start with https://."
      else Ret (unversioned (gu_plain u))
  end.

Record GatewayAgent := { ga_id : string; ga_name : option string }.
Definition agents_of (body : value) : list GatewayAgent :=
  omap (λ m, match str_of m "id" with
             | Some id => if String.eqb id "" then None else Some {| ga_id := id; ga_name := str_of m "name" |}
             | None => None
             end) (items (own body "data")).
Definition bearer (token : string) : option string := Some ("Bearer " +:+ token).
Definition probe_judge (reply : Reply) : outcome PlatformError (list GatewayAgent) :=
  match reply with
  | Throw e => Throw (pe_other (if String.eqb e ABORTED then "The gateway did not answer in time." else "The gateway could not be reached at that address."))
  | Ret r =>
      let status := rs_status r in
      if (status =? 401) || (status =? 403) then Throw (pe_other "The gateway refused the token.")
      else if status =? 404 then Throw (pe_other "The gateway answered, but its chat endpoint is off. Enable gateway.http.endpoints.chatCompletions in openclaw.json and restart.")
      else if negb (is_ok r) then Throw (pe_other ("The gateway answered with HTTP " +:+ js_show status +:+ "."))
      else Ret (agents_of (default (VObject []) (rs_json r)))
  end.
(** [reachable] is the verdict of [assertPublic] on the address. *)
Definition probeGateway (reachable : string → outcome string unit) (url token : string) : Prog (list GatewayAgent) :=
  match reachable url with
  | Throw message => fails message
  | Ret _ => ask (get_url (url +:+ "/v1/models") (bearer token)) probe_judge
  end.

Definition model_for (agentId : option string) : string :=
  match agentId with
  | None => "openclaw"
  | Some id => if String.prefix "openclaw/" id || String.prefix "agent:" id then id else "openclaw/" +:+ id
  end.
Definition content_text (content : value) : string :=
  match content with
  | VString s => s
  | VArray parts => join "" (map (λ p, text_in p "text") parts)
  | _ => ""
  end.
Definition ask_judge (reply : Reply) : outcome PlatformError string :=
  match reply with
  | Throw e => Throw (pe_other (if String.eqb e ABORTED then "The gateway agent took too long to answer." else "The gateway could not be reached."))
  | Ret r =>
      let status := rs_status r in
      if (status =? 401) || (status =? 403) then Throw (pe_other "The gateway refused the token. Connect the gateway again.")
      else if negb (is_ok r) then
        Throw (pe_other ("The gateway answered with HTTP " +:+ js_show status +:+ (if String.eqb (rs_text r) "" then "." else ": " +:+ str_take 200 (rs_text r))))
      else match rs_json r with
           | None => Throw (pe_other (rs_text r))
           | Some body => Ret (content_text (own (own (default VUndefined (head (items (own body "choices")))) "message") "content"))
           end
  end.
Definition ask_gateway (url token : string) (agentId : option string) (message thread : string) : Prog string :=
  ask (post_json (url +:+ "/v1/chat/completions") (bearer token) (VObject [
    ("model", VString (model_for agentId)); ("messages", VArray [VObject [("role", VString "user"); ("content", VString message)]]);
    ("user", VString thread); ("stream", VBool false)])) ask_judge.

(** *** Its tools: a text, and whether it is an error *)

Definition answered (m : Prog string) : Prog (string * bool) := pcatch (let* t := m in Done (t, false)) (λ e, Done (message_of_error e, true)).
Definition agentLine (a : GatewayAgent) : string :=
  match ga_name a with Some n => if String.eqb n (ga_id a) then ga_id a else ga_id a +:+ " (" +:+ n +:+ ")" | None => ga_id a end.
Inductive GatewayTool := gt_agents | gt_ask (message : string) (agentId : option string).
Definition thread_of (workspaceId conversationId : string) : string := "hive:" +:+ workspaceId +:+ ":" +:+ conversationId.

(** [resolve]: the address and the token of the connection, or why there is none; a source
    asks once and keeps what it got. *)
Record Connection := { cn_url : option string; cn_credentialId : option string; cn_lastError : option string; cn_catalogId : option string }.
Definition resolve_gateway (connection : option Connection) (secret : string → option string) : outcome string (string * string) :=
  match connection with
  | None => Throw "This gateway connection no longer exists."
  | Some c =>
      match filled (cn_url c), cn_credentialId c with
      | Some url, Some id => match secret id with Some token => Ret (url, token) | None => Throw "The gateway token is missing. Connect the gateway again." end
      | _, _ => Throw "The gateway is not connected yet. Add its address and token on the Integrations tab."
      end
  end.
Definition gateway_tool (reachable : string → outcome string unit) (source : outcome string (string * string)) (workspaceId conversationId : string) (tool : GatewayTool)
    : Prog (string * bool) :=
  answered
    match source with
    | Throw message => fails message
    | Ret (url, token) =>
        match tool with
        | gt_agents =>
            as_text (λ l, match l with [] => "The gateway lists no agents." | _ => join newline_ (map agentLine l) end) (probeGateway reachable url token)
        | gt_ask message agentId =>
            as_text (λ reply, if String.eqb (js_trim reply) "" then "(The agent sent an empty reply.)" else reply)
              (ask_gateway url token agentId message (thread_of workspaceId conversationId))
        end
    end.
(** The source of a store, likewise; [host_of] is [new URL(url).host]. *)
Definition resolve_store (host_of : string → option string) (connection : option Connection) (secret : string → option string) : outcome string (string * string) :=
  match connection with
  | None => Throw "This Shopify connection no longer exists."
  | Some c =>
      match filled (cn_url c), cn_credentialId c with
      | Some url, Some id =>
          match secret id with
          | Some token => match host_of url with Some host => Ret (host, token) | None => Throw "Invalid URL" end
          | None => Throw "The Shopify token is missing. Connect the store again."
          end
      | _, _ => Throw "Shopify is not connected yet. Add the shop domain and token on the Integrations tab."
      end
  end.
Definition store_tool (host_of : string → option string) (connection : option Connection) (secret : string → option string) (tool : ShopTool) : Prog string :=
  match resolve_store host_of connection secret with
  | Throw message => fails message
  | Ret (domain, token) => shop_tool domain token tool
  end.

(** ** Connecting with an address and a token *)

Record Desk := { dk_connection : option Connection; dk_vault : gmap string string }.
Inductive ConnectReply := co_body | co_missing | co_unsupported | co_refused (message : string) | co_discovery (message : string) | co_connected (total : Z) (agents : list string).

Definition connect_schema (url token : string) : option (string * string) :=
  let url := js_trim url in let token := js_trim token in
  let fits lo s := (lo <=? String.length s)%nat && (String.length s <=? 500)%nat in
  if fits 5%nat url && fits 8%nat token then Some (url, token) else None.

Section Connect.
Context (host_of : string → option string) (parse : string → option GatewayUrl) (reachable : string → outcome string unit).

(** What is asked before anything is stored: the address that will be kept, and who is there. *)
Definition probe_connection (kind : string) (raw token : string) : Prog (string * list string) :=
  if String.eqb kind "shopify" then
    match normaliseShopDomain host_of raw with
    | Throw message => fails message
    | Ret domain => let* shop := probeShop domain token in Done ("https://" +:+ domain, [si_name shop])
    end
  else
    match normaliseGatewayUrl parse raw with
    | Throw message => fails message
    | Ret url => let* agents := probeGateway reachable url token in Done (url, map ga_id agents)
    end.

Definition set_error (message : option string) (c : Connection) : Connection :=
  {| cn_url := cn_url c; cn_credentialId := cn_credentialId c; cn_lastError := message; cn_catalogId := cn_catalogId c |}.
(** The route, for the network's answers; [id] is the credential's, [discovered] what
    opening the bridge gives. *)
Definition connect_POST (net : nat → Request → Reply) (id : string) (body : option (string * string)) (discovered : outcome string Z) (d : Desk) : ConnectReply * Desk :=
  match body ≫= (λ ut, connect_schema ut.1 ut.2) with
  | None => (co_body, d)
  | Some (raw, token) =>
      match dk_connection d with
      | None => (co_missing, d)
      | Some c =>
          let kind := default "" (cn_catalogId c) in
          if negb (String.eqb kind "openclaw") && negb (String.eqb kind "shopify") then (co_unsupported, d)
          else match (run net 0 (probe_connection kind raw token)).2 with
               | Throw e => (co_refused (message_of_error e), {| dk_connection := Some (set_error (Some (message_of_error e)) c); dk_vault := dk_vault d |})
               | Ret (url, agents) =>
                   let d' := {| dk_connection := Some {| cn_url := Some url; cn_credentialId := Some id; cn_lastError := None; cn_catalogId := cn_catalogId c |};
                                dk_vault := <[id := token]> (dk_vault d) |} in
                   match discovered with Throw message => (co_discovery message, d') | Ret total => (co_connected total agents, d') end
               end
      end
  end.
End Connect.

(** ** Where a token goes *)

Ltac walk :=
  repeat first
    [ done
    | apply sends_only_bind; [|intros ?]
    | apply sends_only_catch; [|intros ?]
    | apply sends_only_ask
    | match goal with |- sends_only _ (if ?b then _ else _) => destruct b eqn:? end
    | match goal with |- sends_only _ (match ?x with _ => _ end) => destruct x eqn:? end ].

(** A request to a store's API, with its token. *)
Definition to_store (domain token : string) (r : Request) : Prop := rq_url r = graph_url domain ∧ rq_auth r = Some token.
Lemma reread_home domain token id : sends_only (to_store domain token) (reread domain token id).
Proof. unfold reread, getProduct, call, shopifyGraph. walk. Qed.
Lemma media_home domain token id url image alt : sends_only (to_store domain token) (attachMedia domain token id url image alt).
Proof. unfold attachMedia, userErrors, call, shopifyGraph. walk. Qed.
Lemma update_home domain token id patch : sends_only (to_store domain token) (updateProduct domain token id patch).
Proof.
  unfold updateProduct. apply sends_only_bind; [|intros _; apply sends_only_bind; [|intros _; apply reread_home]].
  - unfold userErrors, call, shopifyGraph. walk.
  - destruct (pp_price patch); [|done]. unfold getProduct, setPrice, userErrors, call, shopifyGraph. walk.
Qed.
Lemma tool_home domain token tool : sends_only (to_store domain token) (shop_tool domain token tool).
Proof.
  destruct tool; cbn [shop_tool]; unfold as_text.
  1-3, 9: unfold probeShop, searchProducts, getProduct, recentOrders, call, shopifyGraph; walk.
  - apply sends_only_bind; [|done]. unfold createProduct, setPrice, attachMedia, userErrors, getProduct, call, shopifyGraph. walk.
  - apply sends_only_bind; [apply update_home|done].
  - apply sends_only_bind; [|done]. apply sends_only_bind; [apply media_home|intros; apply reread_home].
  - apply sends_only_bind; [|done]. apply sends_only_bind; [apply media_home|intros; apply reread_home].
  - apply sends_only_bind; [apply update_home|done].
Qed.

(** What a request makes of a product's status. *)
Definition puts_on_sale (r : Request) : Prop :=
  match rq_body r with bd_json v => own (own (own v "variables") "product") "status" = VString "ACTIVE" | _ => False end.
(** The tools that are told to. *)
Definition told_to_publish (tool : ShopTool) : bool :=
  match tool with
  | create_product _ _ _ _ _ _ _ publish => bool_decide (publish = Some true)
  | update_product _ _ _ _ _ status => bool_decide (status = Some ACTIVE)
  | publish_product _ => true
  | _ => false
  end.

Definition quiet (r : Request) : Prop := ¬ puts_on_sale r.
Lemma reread_quiet domain token id : sends_only quiet (reread domain token id).
Proof. unfold reread, getProduct, call, shopifyGraph. walk. Qed.
Lemma media_quiet domain token id url image alt : sends_only quiet (attachMedia domain token id url image alt).
Proof. unfold attachMedia, userErrors, call, shopifyGraph. walk. Qed.
Lemma new_fields_status input : own (VObject (new_fields input)) "status" = VString (status_text (np_status input)).
Proof. reflexivity. Qed.
Lemma patch_fields_status id patch : own (VObject (("id", VString id) :: patch_fields patch)) "status" = match pp_status patch with Some s => VString (status_text s) | None => VUndefined end.
Proof. unfold patch_fields. by destruct (pp_title patch), (pp_descriptionHtml patch), (pp_tags patch), (pp_status patch). Qed.
Lemma update_quiet domain token id patch : pp_status patch ≠ Some ACTIVE → sends_only quiet (updateProduct domain token id patch).
Proof.
  intros Hs. unfold updateProduct. apply sends_only_bind; [|intros _; apply sends_only_bind; [|intros _; apply reread_quiet]].
  - destruct (patch_fields patch) as [|f fs] eqn:Hf; [done|]. unfold call, shopifyGraph, userErrors. apply sends_only_bind; [|intros ?; walk]. apply sends_only_ask.
    unfold quiet, puts_on_sale. cbn [rq_body post_json]. change (own (own (VObject _) "variables") "product") with (VObject (("id", VString id) :: f :: fs)).
    rewrite <-Hf, patch_fields_status. by destruct (pp_status patch) as [[]|].
  - destruct (pp_price patch); [|done]. unfold getProduct, setPrice, userErrors, call, shopifyGraph. walk.
Qed.

(** Nothing goes on sale by itself: whatever the store answers, no tool asks for a product
    to be active unless it was told to. *)
Theorem drafts_stay_drafts domain token tool : told_to_publish tool = false → sends_only quiet (shop_tool domain token tool).
Proof.
  destruct tool; cbn [shop_tool told_to_publish]; unfold as_text; intros Ht.
  1-3, 9: unfold probeShop, searchProducts, getProduct, recentOrders, call, shopifyGraph; walk.
  - apply sends_only_bind; [|done]. unfold createProduct. apply sends_only_bind; [|intros ?; unfold setPrice, attachMedia, userErrors, getProduct, call, shopifyGraph; walk].
    unfold call, shopifyGraph. apply sends_only_ask. unfold quiet, puts_on_sale. cbn [rq_body post_json].
    cbn. apply bool_decide_eq_false in Ht. by destruct publish as [[]|].
  - apply sends_only_bind; [|done]. apply update_quiet. cbn. by apply bool_decide_eq_false in Ht.
  - apply sends_only_bind; [|done]. apply sends_only_bind; [apply media_quiet|intros; apply reread_quiet].
  - apply sends_only_bind; [|done]. apply sends_only_bind; [apply media_quiet|intros; apply reread_quiet].
  - done.
Qed.

Section Connected.
Context (host_of : string → option string) (parse : string → option GatewayUrl) (reachable : string → outcome string unit).

(** What a successful probe says of the address that is kept. *)
Lemma probed_address net n kind raw token url agents :
  (run net n (probe_connection host_of parse reachable kind raw token)).2 = Ret (url, agents) →
  (kind = "shopify" ∧ ∃ domain, normaliseShopDomain host_of raw = Ret domain ∧ url = "https://" +:+ domain) ∨
  (kind ≠ "shopify" ∧ normaliseGatewayUrl parse raw = Ret url ∧ reachable url = Ret tt).
Proof.
  unfold probe_connection. destruct (String.eqb_spec kind "shopify") as [->|Hk].
  - destruct (normaliseShopDomain host_of raw) as [domain|]; [|done]. rewrite run_bind. destruct (run net n (probeShop domain token)) as [t [shop|]]; [|done]. cbn.
    intros [= <- <-]. left. split; [done|]. by exists domain.
  - destruct (normaliseGatewayUrl parse raw) as [u|]; [|done]. rewrite run_bind. unfold probeGateway. destruct (reachable u) as [[]|] eqn:Hreach; [|done].
    destruct (run net n (ask _ _)) as [t [l|]]; [|done]. cbn. intros [= <- <-]. by right.
Qed.

(** A token is kept only for an address that answered to it: the store's own domain, or a
    gateway that was found outside; the connection then names that address and that token
    and nothing else has changed. *)
Theorem connections_answer_first net id body discovered d reply d' :
  connect_POST host_of parse reachable net id body discovered d = (reply, d') → dk_vault d' ≠ dk_vault d →
  ∃ raw token url agents c c', body ≫= (λ ut, connect_schema ut.1 ut.2) = Some (raw, token) ∧ dk_connection d = Some c ∧ dk_connection d' = Some c' ∧
    (run net 0 (probe_connection host_of parse reachable (default "" (cn_catalogId c)) raw token)).2 = Ret (url, agents) ∧
    dk_vault d' = <[id := token]> (dk_vault d) ∧ cn_url c' = Some url ∧ cn_credentialId c' = Some id ∧
    ((∃ domain, normaliseShopDomain host_of raw = Ret domain ∧ url = "https://" +:+ domain) ∨ reachable url = Ret tt).
Proof.
  unfold connect_POST. destruct (body ≫= _) as [[raw token]|]; [|by intros [= <- <-]]. destruct (dk_connection d) as [c|]; [|by intros [= <- <-]].
  destruct (_ && _); [by intros [= <- <-]|]. destruct (run net 0 _) as [trace [[url agents]|e]] eqn:Hr; cbn [snd]; [|by intros [= <- <-]].
  pose proof (probed_address net 0 (default "" (cn_catalogId c)) raw token url agents) as Hp. rewrite Hr in Hp. specialize (Hp eq_refl).
  destruct discovered; intros [= <- <-] _; eexists raw, token, url, agents, c, _; rewrite Hr; split_and!; try done; cbn;
    destruct Hp as [(_ & dm & ? & ?)|(_ & _ & ?)]; [left; eauto|by right|left; eauto|by right].
Qed.

Lemma shop_domain_normalised raw domain : normaliseShopDomain host_of raw = Ret domain → shop_domain domain = true.
Proof. unfold normaliseShopDomain. destruct (shop_domain _) eqn:Hd; [|done]. by intros [= <-]. Qed.

(** From then on, whatever a tool is asked and whatever comes back, the token of a store
    goes to the API of that store on Shopify's own domain and nowhere else. *)
Theorem store_tokens_stay_with_the_store net id body discovered d reply d' c' tool :
  (∀ h, shop_domain h = true → host_of ("https://" +:+ h) = Some h) →
  connect_POST host_of parse reachable net id body discovered d = (reply, d') → dk_vault d' ≠ dk_vault d →
  dk_connection d' = Some c' → cn_catalogId c' = Some "shopify" →
  ∃ domain token, shop_domain domain = true ∧ dk_vault d' !! id = Some token ∧
    sends_only (to_store domain token) (store_tool host_of (Some c') (λ i, dk_vault d' !! i) tool).
Proof.
  intros Hhost. unfold connect_POST. destruct (body ≫= _) as [[raw token]|]; [|by intros [= <- <-]]. destruct (dk_connection d) as [c|]; [|by intros [= <- <-]].
  destruct (_ && _); [by intros [= <- <-]|]. destruct (run net 0 _) as [trace [[url agents]|e]] eqn:Hr; cbn [snd]; [|by intros [= <- <-]].
  pose proof (probed_address net 0 (default "" (cn_catalogId c)) raw token url agents) as Hp. rewrite Hr in Hp. specialize (Hp eq_refl).
  intros Hout _ Hc' Hkind. assert (d' = {| dk_connection := Some {| cn_url := Some url; cn_credentialId := Some id; cn_lastError := None; cn_catalogId := cn_catalogId c |};
    dk_vault := <[id := token]> (dk_vault d) |}) as -> by (destruct discovered; by injection Hout). cbn in Hc'. injection Hc' as <-. cbn in Hkind. rewrite Hkind in Hp.
  destruct Hp as [(_ & domain & Hn & ->)|(Hne & _)]; [|done]. apply shop_domain_normalised in Hn as Hd. exists domain, token.
  split; [done|]. cbn [dk_vault]. rewrite lookup_insert_eq. split; [done|]. unfold store_tool, resolve_store. cbn [cn_url cn_credentialId filled].
  change (String.eqb ("https://" +:+ domain) "") with false. cbn [filled]. rewrite lookup_insert_eq, (Hhost domain Hd). apply tool_home.
Qed.
End Connected.

(** Whatever the gateway does, its tools end with a text. *)
Lemma run_catch_done {A} net n (m : Prog A) (h : PlatformError → A) : ∃ trace a, run net n (pcatch m (λ e, Done (h e))) = (trace, Ret a).
Proof.
  revert n. induction m as [a|e|r k IH]; intros n; cbn [pcatch run]; [eauto..|]. destruct (IH (net n r) (S n)) as (trace & a & ->). eauto.
Qed.
Theorem gateway_tools_always_answer reachable source workspaceId conversationId tool net n :
  ∃ trace text error, run net n (gateway_tool reachable source workspaceId conversationId tool) = (trace, Ret (text, error)).
Proof.
  unfold gateway_tool, answered. match goal with |- context [pcatch ?m _] => destruct (run_catch_done net n m (λ e, (message_of_error e, true))) as (trace & [text error] & E) end. eauto.
Qed.

(** ** Instances *)

Definition ok_json (v : value) : Reply := Ret {| rs_status := 200; rs_json := Some v; rs_text := ""; rs_type := None |}.
Definition data_ (v : list (string * value)) : Reply := ok_json (VObject [("data", VObject v)]).
Definition the_shop : value := VObject [("name", VString "Tea House"); ("myshopifyDomain", VString "tea.myshopify.com"); ("currencyCode", VString "NGN")].
Definition host_after (url : string) : option string := eat "https://" url.
Definition plain_gateway (url : string) : option GatewayUrl := if String.prefix "https://" url then Some {| gu_protocol := "https:"; gu_plain := url |} else None.
Definition desk (kind : string) : Desk :=
  {| dk_connection := Some {| cn_url := None; cn_credentialId := None; cn_lastError := None; cn_catalogId := Some kind |}; dk_vault := ∅ |}.
Definition shop_net (_ : nat) (_ : Request) : Reply := data_ [("shop", the_shop)].
Definition connected : ConnectReply * Desk :=
  connect_POST host_after plain_gateway (λ _, Ret tt) shop_net "cred_1" (Some (" WWW.Tea.myshopify.com ", "shpat_123")) (Ret 9) (desk "shopify").
Definition tea : Connection := {| cn_url := Some "https://tea.myshopify.com"; cn_credentialId := Some "cred_1"; cn_lastError := None; cn_catalogId := Some "shopify" |}.

Lemma host_after_https h : shop_domain h = true → host_after ("https://" +:+ h) = Some h.
Proof. intros _. apply eat_app. Qed.
Lemma connected_to : connected = (co_connected 9 ["Tea House"], {| dk_connection := Some tea; dk_vault := {["cred_1" := "shpat_123"]} |}).
Proof. vm_compute. reflexivity. Qed.
Lemma connections_answer_first_witness : ∃ url, cn_url tea = Some url ∧ ((∃ domain, normaliseShopDomain host_after " WWW.Tea.myshopify.com " = Ret domain ∧ url = "https://" +:+ domain) ∨ False).
Proof.
  destruct (connections_answer_first host_after plain_gateway (λ _, Throw "private") shop_net "cred_1" (Some (" WWW.Tea.myshopify.com ", "shpat_123")) (Ret 9) (desk "shopify")
    (co_connected 9 ["Tea House"]) {| dk_connection := Some tea; dk_vault := {["cred_1" := "shpat_123"]} |}) as (raw & token & url & agents & c & c' & Hb & _ & Hc' & _ & _ & Hu & _ & Hor).
  - vm_compute. reflexivity.
  - vm_compute. discriminate.
  - injection Hc' as <-. exists url. split; [exact Hu|]. vm_compute in Hb. injection Hb as <- <-. destruct Hor as [(domain & Hn & Hd)|Hx]; [|discriminate].
    left. exists domain. split; [|exact Hd]. rewrite <-Hn. vm_compute. reflexivity.
Defined.
Lemma store_tokens_stay_with_the_store_witness : ∃ domain token, shop_domain domain = true ∧ sends_only (to_store domain token) (store_tool host_after (Some tea) (λ i, ({["cred_1" := "shpat_123"]} : gmap string string) !! i) shop_info).
Proof.
  destruct (store_tokens_stay_with_the_store host_after plain_gateway (λ _, Ret tt) shop_net "cred_1" (Some (" WWW.Tea.myshopify.com ", "shpat_123")) (Ret 9) (desk "shopify")
    (co_connected 9 ["Tea House"]) {| dk_connection := Some tea; dk_vault := {["cred_1" := "shpat_123"]} |} tea shop_info host_after_https connected_to) as (domain & token & Hd & _ & Hs).
  - vm_compute. discriminate.
  - reflexivity.
  - reflexivity.
  - exists domain, token. split; [exact Hd|exact Hs].
Defined.
Lemma drafts_stay_drafts_witness : sends_only quiet (shop_tool "tea.myshopify.com" "t" (create_product "Mug" None (Some "4500.00") None None None None None)).
Proof. apply (drafts_stay_drafts "tea.myshopify.com" "t" (create_product "Mug" None (Some "4500.00") None None None None None)). reflexivity. Defined.

(** Creating may publish too, so that the tool whose approval is for publishing is not the
    only way to put a product on sale. *)
Example creating_publishes :
  match shop_tool "tea.myshopify.com" "t" (create_product "Mug" None None None None None None (Some true)) with Fetch r _ => puts_on_sale r | _ => False end.
Proof. reflexivity. Qed.

(** A price that is refused leaves the product behind: the tool fails, and saying it again
    makes a second one. *)
Definition made : value := VObject [("id", VString "gid://1"); ("title", VString "Mug"); ("variants", VObject [("nodes", VArray [VObject [("id", VString "v1")]])])].
Definition picky (n : nat) (_ : Request) : Reply :=
  if (n =? 0)%nat then data_ [("productCreate", VObject [("product", made); ("userErrors", VArray [])])]
  else data_ [("productVariantsBulkUpdate", VObject [("userErrors", VArray [VObject [("message", VString "Price is too high")]])])].
Example refused_prices_leave_the_product :
  (run picky 0 (shop_tool "tea.myshopify.com" "t" (create_product "Mug" None (Some "9999999.99") None None None None None))).2 =
  Throw (pe_other "Shopify would not set the price: Price is too high").
Proof. vm_compute. reflexivity. Qed.

(** The address of a gateway is looked up when its agents are listed, not when one is
    asked: a name that has come to mean a private address is sent the message and the token. *)
Definition moved_inside (_ : string) : outcome string unit := Throw "That address is private.".
Example questions_go_unchecked :
  map fst (run (λ _ _, Throw "x") 0 (gateway_tool moved_inside (Ret ("http://gw.example", "tok")) "w" "c" gt_agents)).1 = [] ∧
  map (λ x, (rq_url x.1, rq_auth x.1)) (run (λ _ _, Throw "x") 0 (gateway_tool moved_inside (Ret ("http://gw.example", "tok")) "w" "c" (gt_ask "hello" None))).1 =
    [("http://gw.example/v1/chat/completions", Some "Bearer tok")].
Proof. split; vm_compute; reflexivity. Qed.

Example a_listing : shop_stripHtml "<p>Soft <b>wool</b> , warm .</p><br/>a <> b" = "Soft wool, warm. a <> b".
Proof. vm_compute. reflexivity. Qed.
Example an_address : normaliseGatewayUrl plain_gateway " https://gw.example/me/v1/ " = Ret "https://gw.example/me".
Proof. vm_compute. reflexivity. Qed.
