(* ===== verification/Publishing.v ===== *)
(** * Publishing to LinkedIn, Facebook and Instagram

    Models lib/linkedin.ts and lib/meta-publishing.ts with the tools over them
    (packages/servers/src/linkedin.ts and meta-publishing.ts): consent, the exchange and
    renewal of tokens, the calls that list and publish as programs of HTTP requests
    ([Outbound.Prog]), the wait for a clip, and the sweep that renews grants.  The body of
    an upload is the file it was fetched from and the range of its bytes.  The headers and
    the size of a response, the encoding of queries, the clock and the random draws are
    arguments, the token store is a map, as [OAuthStore] shows it to be; a reply has the
    types its vendor documents.  Tools are called with arguments their schema let through. *)
From S2P Require Import Prelude Json JsonText Text Guard Adapters Outbound Stores.

#[local] Open Scope prog_scope.

Record StoredTokens := { tk_access : string; tk_refresh : option string; tk_expiresAt : Z; tk_scope : option string }.
Definition SIXTY_DAYS : Z := 60 * 24 * 3600.
Definition WEEK_MS : Z := 7 * 24 * 60 * 60 * 1000.

(** ** Waiting for a clip *)

Definition POLL_MS : Z := 3000.
Definition WAIT_MS : Z := 45000.
Inductive Verdict := v_ready | v_wait.
Inductive Waited := wt_ready | wt_later | wt_stuck.
(** Rounds of asking; [clock n] is the time at the end of round [n]. *)
Fixpoint poll (fuel round : nat) (check : Prog Verdict) (deadline : Z) (clock : nat → Z) : Prog Waited :=
  let* v := check in
  match v with
  | v_ready => Done wt_ready
  | v_wait => if deadline <=? clock round then Done wt_later else match fuel with O => Done wt_stuck | S f => poll f (S round) check deadline clock end
  end.
(** As many rounds as there are waits before the deadline, and one more. *)
Definition ROUNDS : nat := S (Z.to_nat (WAIT_MS / POLL_MS)).
Definition wait_for (check : Prog Verdict) (clock : nat → Z) : Prog Waited := poll ROUNDS 1 check (clock 0%nat + WAIT_MS) clock.

(** ** LinkedIn *)

Module LinkedIn.
Definition LINKEDIN_ALIAS : string := "linkedin".
Definition AUTHORIZE_URL : string := "https://www.linkedin.com/oauth/v2/authorization".
Definition TOKEN_URL : string := "https://www.linkedin.com/oauth/v2/accessToken".
Definition REVOKE_URL : string := "https://www.linkedin.com/oauth/v2/revoke".
Definition API : string := "https://api.linkedin.com".
Definition DEFAULT_SCOPES : string := "openid profile w_member_social".

Record LinkedInOAuthClient := { oc_clientId : string; oc_clientSecret : string }.
Definition linkedInOAuthClient (clientId clientSecret : option string) : option LinkedInOAuthClient :=
  match clientId, clientSecret with Some i, Some s => Some {| oc_clientId := i; oc_clientSecret := s |} | _, _ => None end.
(** Where a person is sent, and what is kept until they are back; the draws are arguments. *)
Record Consent := { ct_authorizationUrl : string; ct_state : string; ct_codeVerifier : string }.
Definition beginLinkedInConsent (search : list (string * string) → string) (client : LinkedInOAuthClient) (redirectUri : string) (scopes : option string) (state verifier : string) : Consent :=
  {| ct_authorizationUrl := AUTHORIZE_URL +:+ "?" +:+ search [("response_type", "code"); ("client_id", oc_clientId client); ("redirect_uri", redirectUri); ("state", state);
                                                            ("scope", default DEFAULT_SCOPES scopes)];
     ct_state := state; ct_codeVerifier := verifier |}.

Definition token_judge (now : Z) (reply : Reply) : outcome PlatformError StoredTokens :=
  match reply with
  | Throw e => Throw (pe_other e)
  | Ret r =>
      let parsed := default (VObject []) (rs_json r) in
      match str_of parsed "access_token" with
      | Some token =>
          if is_ok r then
            Ret {| tk_access := token; tk_refresh := str_of parsed "refresh_token"; tk_expiresAt := now + default SIXTY_DAYS (num_of parsed "expires_in") * 1000; tk_scope := str_of parsed "scope" |}
          else Throw (pe_other (js_trim ("LinkedIn refused: " +:+ default (js_show (rs_status r)) (str_of parsed "error") +:+ " " +:+ text_in parsed "error_description")))
      | None => Throw (pe_other (js_trim ("LinkedIn refused: " +:+ default (js_show (rs_status r)) (str_of parsed "error") +:+ " " +:+ text_in parsed "error_description")))
      end
  end.
Definition tokenCall (now : Z) (fields : list (string * string)) : Prog StoredTokens :=
  ask {| rq_method := "POST"; rq_url := TOKEN_URL; rq_auth := None; rq_body := bd_form fields |} (token_judge now).
Definition exchangeLinkedInCode (now : Z) (client : LinkedInOAuthClient) (code redirectUri : string) : Prog StoredTokens :=
  tokenCall now [("grant_type", "authorization_code"); ("code", code); ("redirect_uri", redirectUri); ("client_id", oc_clientId client); ("client_secret", oc_clientSecret client)].
Definition refreshLinkedInToken (now : Z) (client : LinkedInOAuthClient) (refreshToken : string) : Prog StoredTokens :=
  tokenCall now [("grant_type", "refresh_token"); ("refresh_token", refreshToken); ("client_id", oc_clientId client); ("client_secret", oc_clientSecret client)].

Definition failure (status : Z) (body : string) : string :=
  if status =? 401 then "LinkedIn ended this connection. Reconnect it on the Integrations tab."
  else if status =? 403 then "LinkedIn says this app may not do that: the permission was not granted, or the app lacks the product that allows it (Share on LinkedIn for your own posts, Community Management for a page)."
  else if status =? 422 then "LinkedIn rejected the post: " +:+ str_take 200 body
  else "LinkedIn answered " +:+ js_show status +:+ ": " +:+ str_take 200 body.

Record Author := { au_urn : string; au_name : string; au_person : bool }.
Record Post := { po_urn : string; po_url : string }.
Inductive Posted := published (p : Post) | pending (videoUrn : string) | stuck.
Record PostInput := { pi_authorUrn : string; pi_text : string; pi_link : option string; pi_linkTitle : option string; pi_imageUrl : option string; pi_videoUrl : option string }.

Section Calls.
Context (accessToken : Prog string) (header : Response → string → option string) (size_of : Response → Z) (encode : string → string) (clock : nat → Z).

Definition api_judge (reply : Reply) : outcome PlatformError Response :=
  match reply with Throw e => Throw (pe_other e) | Ret r => if is_ok r then Ret r else Throw (pe_other (failure (rs_status r) (rs_text r))) end.
Definition call (method path : string) (body : Body) : Prog Response :=
  let* token := accessToken in
  ask {| rq_method := method; rq_url := API +:+ path; rq_auth := Some ("Bearer " +:+ token); rq_body := body |} api_judge.
Definition body_of (r : Response) : Prog value := match rs_json r with Some v => Done v | None => fails (rs_text r) end.

Definition me : Prog Author :=
  let* r := call "GET" "/v2/userinfo" bd_none in
  let* info := body_of r in
  let sub := text_in info "sub" in
  let name := default (join " " (omap (str_of info) ["given_name"; "family_name"])) (str_of info "name") in
  Done {| au_urn := "urn:li:person:" +:+ sub; au_name := if String.eqb name "" then sub else name; au_person := true |}.
Definition ACLS : string := "/rest/organizationAcls?q=roleAssignee&role=ADMINISTRATOR&state=APPROVED&projection=(elements*(organization~(localizedName)))".
Definition organizations : Prog (list Author) :=
  pcatch (let* r := call "GET" ACLS bd_none in
          let* acls := body_of r in
          Done (map (λ e, let urn := text_in e "organization" in {| au_urn := urn; au_name := default urn (str_of (own e "organization~") "localizedName"); au_person := false |})
                  (items (own acls "elements"))))
    (λ _, Done []).
Definition listAuthors : Prog (list Author) := let* m := me in let* os := organizations in Done (m :: os).

(** A file that is fetched, from wherever it was said to be. *)
Definition fetch_from (what url : string) : Prog Response :=
  ask (get_url url None) (λ reply, match reply with
                                  | Throw e => Throw (pe_other e)
                                  | Ret r => if is_ok r then Ret r else Throw (pe_other ("Could not fetch the " +:+ what +:+ " to upload (" +:+ js_show (rs_status r) +:+ ")."))
                                  end).
Definition put_bytes (token url source : string) (range : list (string * string)) (refusal : string) : Prog Response :=
  ask {| rq_method := "PUT"; rq_url := url; rq_auth := Some ("Bearer " +:+ token); rq_body := bd_file source range |}
    (λ reply, match reply with
              | Throw e => Throw (pe_other e)
              | Ret r => if is_ok r then Ret r else Throw (pe_other (refusal +:+ " (" +:+ js_show (rs_status r) +:+ ")."))
              end).
Definition uploadImage (ownerUrn imageUrl : string) : Prog string :=
  let* r := call "POST" "/rest/images?action=initializeUpload" (bd_json (VObject [("initializeUploadRequest", VObject [("owner", VString ownerUrn)])])) in
  let* init := body_of r in
  fetch_from "picture" imageUrl ;;
  let* token := accessToken in
  put_bytes token (text_in (own init "value") "uploadUrl") imageUrl [] "LinkedIn refused the picture" ;;
  Done (text_in (own init "value") "image").

Fixpoint upload_parts (token videoUrl : string) (parts : list value) : Prog (list string) :=
  match parts with
  | [] => Done []
  | part :: rest =>
      let* put := put_bytes token (text_in part "uploadUrl") videoUrl
                    [("firstByte", js_show (default 0 (num_of part "firstByte"))); ("end", js_show (default 0 (num_of part "lastByte") + 1))] "LinkedIn refused part of the clip" in
      match header put "etag" with
      | None => fails "LinkedIn took a part of the clip without saying which."
      | Some etag => let* etags := upload_parts token videoUrl rest in Done (etag :: etags)
      end
  end.
Definition uploadVideo (ownerUrn videoUrl : string) : Prog string :=
  let* fetched := fetch_from "clip" videoUrl in
  let* r := call "POST" "/rest/videos?action=initializeUpload" (bd_json (VObject [("initializeUploadRequest", VObject [
    ("owner", VString ownerUrn); ("fileSizeBytes", VNumber (size_of fetched)); ("uploadCaptions", VBool false); ("uploadThumbnail", VBool false)])])) in
  let* init := body_of r in
  let v := own init "value" in
  let* token := accessToken in
  let* etags := upload_parts token videoUrl (items (own v "uploadInstructions")) in
  call "POST" "/rest/videos?action=finalizeUpload" (bd_json (VObject [("finalizeUploadRequest", VObject [
    ("video", VString (text_in v "video")); ("uploadToken", VString (text_in v "uploadToken")); ("uploadedPartIds", texts etags)])])) ;;
  Done (text_in v "video").

Definition videoStatus (videoUrn : string) : Prog string :=
  let* r := call "GET" ("/rest/videos/" +:+ encode videoUrn) bd_none in
  let* video := body_of r in Done (default "PROCESSING" (str_of video "status")).

Definition post_body (authorUrn text : string) (content : option value) : value := VObject (
  [("author", VString authorUrn); ("commentary", VString text); ("visibility", VString "PUBLIC");
   ("distribution", VObject [("feedDistribution", VString "MAIN_FEED"); ("targetEntities", VArray []); ("thirdPartyDistributionChannels", VArray [])]);
   ("lifecycleState", VString "PUBLISHED"); ("isReshareDisabledByAuthor", VBool false)] ++ optional "content" content).
Definition post (authorUrn text : string) (content : option value) : Prog Post :=
  let* r := call "POST" "/rest/posts" (bd_json (post_body authorUrn text content)) in
  let urn := default "" (match header r "x-restli-id" with Some u => Some u | None => header r "x-linkedin-id" end) in
  if String.eqb urn "" then fails "LinkedIn accepted the post but did not say which it is."
  else Done {| po_urn := urn; po_url := "https://www.linkedin.com/feed/update/" +:+ urn |}.

Definition clip_verdict (videoUrn : string) : Prog Verdict :=
  let* status := videoStatus videoUrn in
  if String.eqb status "AVAILABLE" then Done v_ready
  else if String.eqb status "PROCESSING_FAILED" then fails "LinkedIn could not process that clip. An mp4 between 3 seconds and 10 minutes, under 200MB, at a public https link."
  else Done v_wait.
Definition postWhenReady (authorUrn text videoUrn : string) : Prog Posted :=
  let* w := wait_for (clip_verdict videoUrn) clock in
  match w with
  | wt_ready => let* p := post authorUrn text (Some (VObject [("media", VObject [("id", VString videoUrn); ("title", VString (str_take 100 text))])])) in Done (published p)
  | wt_later => Done (pending videoUrn)
  | wt_stuck => Done stuck
  end.
Definition publishPost (input : PostInput) : Prog Posted :=
  match pi_videoUrl input with
  | Some url => let* video := uploadVideo (pi_authorUrn input) url in postWhenReady (pi_authorUrn input) (pi_text input) video
  | None =>
      let* content := match pi_imageUrl input, pi_link input with
                      | Some url, _ => let* image := uploadImage (pi_authorUrn input) url in
                                       Done (Some (VObject [("media", VObject [("id", VString image); ("altText", VString (str_take 200 (pi_text input)))])]))
                      | None, Some link => Done (Some (VObject [("article", VObject ([("source", VString link)] ++ optional "title" (VString <$> pi_linkTitle input)))]))
                      | None, None => Done None
                      end in
      let* p := post (pi_authorUrn input) (pi_text input) content in Done (published p)
  end.

(** *** The tools *)

Inductive LinkedInTool :=
| list_authors
| publish_linkedin_post (author text : string) (link link_title image_url video_url : option string)
| finish_linkedin_post (author text video : string).
Definition outcome_text (r : Posted) : string :=
  match r with
  | published p => "Published to LinkedIn. " +:+ po_url p
  | pending video => "LinkedIn is still processing the clip (video " +:+ video +:+ "). Call finish_linkedin_post with the same author and text, and that video id, in a moment."
  | stuck => ""
  end.
(** A text, and whether it is an error. *)
Definition linkedin_tool (t : LinkedInTool) : Prog (string * bool) :=
  match t with
  | list_authors =>
      let* l := listAuthors in Done (join newline_ (map (λ a, (if au_person a then "You" else "Page") +:+ ": " +:+ au_name a +:+ " (author " +:+ au_urn a +:+ ")") l), false)
  | publish_linkedin_post author text link link_title image video =>
      if (1 <? length (omap id [link; image; video]))%nat then Done ("One of a link, a picture or a clip, not more.", true)
      else let* r := publishPost {| pi_authorUrn := author; pi_text := text; pi_link := link; pi_linkTitle := link_title; pi_imageUrl := image; pi_videoUrl := video |} in
           Done (outcome_text r, false)
  | finish_linkedin_post author text video => let* r := postWhenReady author text video in Done (outcome_text r, false)
  end.
End Calls.

(** [accessToken] of a source: what is stored, renewed when it has lapsed.  Gives the token
    and what is stored afterwards. *)
Definition linkedInAccessToken (stored : option StoredTokens) (client : option LinkedInOAuthClient) (now later : Z) : Prog (string * option StoredTokens) :=
  match stored with
  | None => fails "LinkedIn is not connected for this assistant. Connect it on the Integrations tab."
  | Some t =>
      if now <? tk_expiresAt t then Done (tk_access t, stored)
      else match tk_refresh t, client with
           | Some refresh, Some c => let* fresh := refreshLinkedInToken later c refresh in Done (tk_access fresh, Some fresh)
           | _, _ => fails "The LinkedIn connection has expired. Reconnect it on the Integrations tab."
           end
  end.
Definition revokeLinkedInTokens (stored : option StoredTokens) (client : option LinkedInOAuthClient) : Prog bool :=
  match stored, client with
  | Some t, Some c =>
      ask {| rq_method := "POST"; rq_url := REVOKE_URL; rq_auth := None;
             rq_body := bd_form [("client_id", oc_clientId c); ("client_secret", oc_clientSecret c); ("token", tk_access t)] |}
        (λ reply, match reply with
                  | Throw e => Throw (pe_other e)
                  | Ret r => if is_ok r then Ret true else Throw (pe_other ("LinkedIn answered " +:+ js_show (rs_status r) +:+ " to the revocation."))
                  end)
  | _, _ => Done false
  end.
Definition linkedInNeedsSweep (t : StoredTokens) (now margin : Z) : bool := match tk_refresh t with Some _ => tk_expiresAt t - margin <=? now | None => false end.
End LinkedIn.

(** ** Facebook and Instagram *)

Module Meta.
Definition META_PUBLISHING_ALIAS : string := "meta_publishing".
Definition GRAPH_VERSION : string := "v22.0".
Definition DIALOG_URL : string := "https://www.facebook.com/" +:+ GRAPH_VERSION +:+ "/dialog/oauth".
Definition GRAPH : string := "https://graph.facebook.com/" +:+ GRAPH_VERSION.

Record MetaOAuthClient := { ma_appId : string; ma_appSecret : string }.
Definition metaOAuthClient (appId appSecret : option string) : option MetaOAuthClient :=
  match appId, appSecret with Some i, Some s => Some {| ma_appId := i; ma_appSecret := s |} | _, _ => None end.
Definition beginMetaConsent (search : list (string * string) → string) (client : MetaOAuthClient) (redirectUri : string) (scopes : list string) (state verifier : string) : LinkedIn.Consent :=
  {| LinkedIn.ct_authorizationUrl := DIALOG_URL +:+ "?" +:+ search [("client_id", ma_appId client); ("redirect_uri", redirectUri); ("response_type", "code"); ("scope", join "," scopes);
                                                                  ("state", state)];
     LinkedIn.ct_state := state; LinkedIn.ct_codeVerifier := verifier |}.

Definition GRAPH_ERRORS : list (Z * string) := [
  (190, "Meta ended this connection. Reconnect Instagram & Facebook on the Integrations tab.");
  (10, "Meta says this app may not do that yet: the permission has not been approved for it, or the account is not a tester of the app.");
  (200, "Meta says this account may not post there. The person needs to be an admin of the page.");
  (100, "Meta rejected the request. The picture or clip link may not be public, or the format is not one Instagram takes (jpeg, mp4).");
  (9007, "Instagram is still processing that clip.")].
Definition graphFailure (status : Z) (body : option value) : string :=
  let error := own (default VUndefined body) "error" in
  let detail := default "" (match str_of error "error_user_msg" with Some m => Some m | None => str_of error "message" end) in
  match num_of error "code" ≫= (λ c, jm_get c GRAPH_ERRORS) with
  | Some known => js_trim (known +:+ " (" +:+ detail +:+ ")")
  | None => "Meta answered " +:+ js_show status +:+ ": " +:+ str_take 300 detail
  end.
Definition graph_judge (reply : Reply) : outcome PlatformError value :=
  match reply with
  | Throw e => Throw (pe_other e)
  | Ret r =>
      let error := own (default VUndefined (rs_json r)) "error" in
      if negb (is_ok r) || negb (is_undefined error) then Throw (pe_other (graphFailure (rs_status r) (rs_json r)))
      else Ret (default VUndefined (rs_json r))
  end.

Inductive Method := GET | POST | DELETE.
Definition method_text (m : Method) : string := match m with GET => "GET" | POST => "POST" | DELETE => "DELETE" end.
Record Account := { sa_pageId : string; sa_pageName : string; sa_instagram : option (string * string) }.
Record Published := { pb_id : string; pb_url : option string }.
Inductive Result := done_ (p : Published) | processing (creationId : string) | stuck.

Section Calls.
Context (accessToken : Prog string) (search : list (string * string) → string) (clock : nat → Z).

Definition graph (path : string) (params : list (string * string)) (method : Method) : Prog value :=
  ask (match method with
       | GET => get_url (GRAPH +:+ path +:+ "?" +:+ search params) None
       | m => {| rq_method := method_text m; rq_url := GRAPH +:+ path; rq_auth := None; rq_body := bd_form params |}
       end) graph_judge.

(** What is read of an answer: an answer that is no JSON has nothing to read. *)
Definition read (path : string) (params : list (string * string)) (method : Method) : Prog value :=
  let* v := graph path params method in
  match v with VUndefined | VNull => fails "Cannot read properties of undefined" | _ => Done v end.

Definition extendMetaToken (now : Z) (client : MetaOAuthClient) (token : string) : Prog StoredTokens :=
  let* long := read "/oauth/access_token"
    [("grant_type", "fb_exchange_token"); ("client_id", ma_appId client); ("client_secret", ma_appSecret client); ("fb_exchange_token", token)] GET in
  Done {| tk_access := text_in long "access_token"; tk_refresh := None; tk_expiresAt := now + default SIXTY_DAYS (num_of long "expires_in") * 1000; tk_scope := None |}.
Definition exchangeMetaCode (now : Z) (client : MetaOAuthClient) (code redirectUri : string) : Prog StoredTokens :=
  let* short := read "/oauth/access_token"
    [("client_id", ma_appId client); ("client_secret", ma_appSecret client); ("redirect_uri", redirectUri); ("code", code)] GET in
  extendMetaToken now client (text_in short "access_token").

Definition pages : Prog (list value) :=
  let* token := accessToken in
  let* result := read "/me/accounts" [("access_token", token); ("fields", "id,name,access_token,instagram_business_account{id,username}"); ("limit", "100")] GET in
  Done (items (own result "data")).
Definition pageToken (pageId : string) : Prog string :=
  let* l := pages in
  match List.find (λ p, bool_decide (str_of p "id" = Some pageId)) l with
  | None => fails ("This connection has no Facebook page with id " +:+ pageId +:+ ". Call list_accounts for the pages it has.")
  | Some page => Done (text_in page "access_token")
  end.
Definition instagramToken (instagramId : string) : Prog string :=
  let* l := pages in
  match List.find (λ p, bool_decide (str_of (own p "instagram_business_account") "id" = Some instagramId)) l with
  | None => fails ("This connection has no Instagram account with id " +:+ instagramId +:+ ". Call list_accounts for the accounts it has.")
  | Some page => Done (text_in page "access_token")
  end.
Definition permalink (token mediaId : string) : Prog (option string) :=
  pcatch (let* media := read ("/" +:+ mediaId) [("access_token", token); ("fields", "permalink")] GET in Done (str_of media "permalink")) (λ _, Done None).
Definition container_verdict (token creationId : string) : Prog Verdict :=
  let* container := read ("/" +:+ creationId) [("access_token", token); ("fields", "status_code,status")] GET in
  match str_of container "status_code" with
  | Some "FINISHED" => Done v_ready
  | Some (("ERROR" | "EXPIRED") as code) =>
      fails ("Instagram could not take that media: " +:+ default code (str_of container "status")
             +:+ ". A jpeg under 8MB, or an mp4 reel between 3 seconds and 15 minutes, both at a public https link.")
  | _ => Done v_wait
  end.
Definition publishContainer (token instagramId creationId : string) : Prog Result :=
  let* w := wait_for (container_verdict token creationId) clock in
  match w with
  | wt_later => Done (processing creationId)
  | wt_stuck => Done stuck
  | wt_ready =>
      let* p := read ("/" +:+ instagramId +:+ "/media_publish") [("access_token", token); ("creation_id", creationId)] POST in
      let id := text_in p "id" in
      let* url := permalink token id in Done (done_ {| pb_id := id; pb_url := url |})
  end.

Definition listAccounts : Prog (list Account) :=
  let* l := pages in
  Done (map (λ p, let ig := own p "instagram_business_account" in
    {| sa_pageId := text_in p "id"; sa_pageName := text_in p "name";
       sa_instagram := if is_undefined ig then None else Some (text_in ig "id", default (text_in ig "id") (str_of ig "username")) |}) l).
Definition on_facebook (id : string) : Published := {| pb_id := id; pb_url := Some ("https://www.facebook.com/" +:+ id) |}.
Definition publishFacebookPost (pageId message : string) (link imageUrl videoUrl : option string) : Prog Published :=
  let* token := pageToken pageId in
  match videoUrl, imageUrl with
  | Some v, _ =>
      let* posted := read ("/" +:+ pageId +:+ "/videos") [("access_token", token); ("file_url", v); ("description", message)] POST in Done (on_facebook (text_in posted "id"))
  | None, Some i =>
      let* posted := read ("/" +:+ pageId +:+ "/photos") [("access_token", token); ("url", i); ("caption", message)] POST in
      Done (on_facebook (default (text_in posted "id") (str_of posted "post_id")))
  | None, None =>
      let* posted := read ("/" +:+ pageId +:+ "/feed") ([("access_token", token); ("message", message)] ++ match link with Some l => [("link", l)] | None => [] end) POST in
      Done (on_facebook (text_in posted "id"))
  end.
Definition publishInstagramPost (instagramId caption : string) (imageUrl videoUrl : option string) : Prog Result :=
  let* token := instagramToken instagramId in
  let* container := read ("/" +:+ instagramId +:+ "/media")
    ([("access_token", token); ("caption", caption)] ++ match videoUrl with Some v => [("media_type", "REELS"); ("video_url", v)] | None => [("image_url", default "" imageUrl)] end) POST in
  publishContainer token instagramId (text_in container "id").
Definition finishInstagramPost (instagramId creationId : string) : Prog Result :=
  let* token := instagramToken instagramId in publishContainer token instagramId creationId.

(** *** The tools *)

Definition accountLine (a : Account) : string :=
  "Facebook page " +:+ dquote +:+ sa_pageName a +:+ dquote +:+ " (page id " +:+ sa_pageId a +:+ ")"
  +:+ match sa_instagram a with None => ", no Instagram account linked" | Some (id, username) => ", Instagram @" +:+ username +:+ " (instagram id " +:+ id +:+ ")" end.
Inductive MetaTool :=
| list_accounts
| publish_facebook_post (page_id message : string) (link image_url video_url : option string)
| publish_instagram_post (instagram_id caption : string) (image_url video_url : option string)
| finish_instagram_post (instagram_id creation_id : string).
Definition with_url (u : option string) : string := match u with Some u => " " +:+ u | None => "" end.
Definition result_text (waiting : string → string) (r : Result) : string :=
  match r with
  | done_ p => "Published to Instagram (post " +:+ pb_id p +:+ ")." +:+ with_url (pb_url p)
  | processing id => waiting id
  | stuck => ""
  end.
Definition NOT_BOTH : string * bool := ("One of a picture or a clip, not both.", true).
Definition meta_tool (t : MetaTool) : Prog (string * bool) :=
  match t with
  | list_accounts =>
      let* l := listAccounts in
      Done (match l with
            | [] => "This connection has no Facebook pages. The person needs to be an admin of a page, and to tick it on the consent screen."
            | _ => join newline_ (map accountLine l)
            end, false)
  | publish_facebook_post page message link image video =>
      match image, video with
      | Some _, Some _ => Done NOT_BOTH
      | _, _ => let* p := publishFacebookPost page message link image video in Done ("Published to Facebook (post " +:+ pb_id p +:+ ")." +:+ with_url (pb_url p), false)
      end
  | publish_instagram_post ig caption image video =>
      match image, video with
      | None, None => Done ("Instagram needs a picture or a clip. Make one with the studio first.", true)
      | Some _, Some _ => Done NOT_BOTH
      | _, _ =>
          let* r := publishInstagramPost ig caption image video in
          Done (result_text (λ id, "Instagram is still processing the clip (creation id " +:+ id +:+ "). Call finish_instagram_post with that id in a moment to publish it.") r, false)
      end
  | finish_instagram_post ig creation =>
      let* r := finishInstagramPost ig creation in Done (result_text (λ id, "Still processing (creation id " +:+ id +:+ "). Try again in a moment.") r, false)
  end.
Definition revokeMetaTokens (stored : option StoredTokens) : Prog bool :=
  match stored with
  | None => Done false
  | Some t => graph "/me/permissions" [("access_token", tk_access t)] DELETE ;; Done true
  end.
End Calls.

Definition metaAccessToken (stored : option StoredTokens) (now : Z) : Prog string :=
  match stored with
  | None => fails "Instagram & Facebook is not connected for this assistant. Connect it on the Integrations tab."
  | Some t => if tk_expiresAt t <=? now then fails "The Instagram & Facebook connection has expired. Reconnect it on the Integrations tab." else Done (tk_access t)
  end.
Definition metaNeedsSweep (t : StoredTokens) (now margin : Z) : bool := (now <? tk_expiresAt t) && (tk_expiresAt t - margin <=? now).
End Meta.

(** ** Renewing what is about to lapse *)

Record Server := { se_id : string; se_workspaceId : string; se_catalogId : option string }.
Record Binding := { bn_id : string; bn_workspaceId : string; bn_mcpServerId : string; bn_enabled : bool }.
Record OAuthConnectionRow := { oa_workspaceId : string; oa_bindingId : string; oa_scopeKey : string }.
(** A row of the sweep: a connection of a binding. *)
Record GrantRow := { gr_bindingId : string; gr_scopeKey : string }.
Record Sweep := { sw_considered : Z; sw_refreshed : Z; sw_failed : Z; sw_tokens : gmap string StoredTokens; sw_lapsed : list string }.
(** The rows in the order they are come to: of every server of the alias, its enabled bindings. *)
Definition grant_rows (alias : string) (servers : list Server) (bindings : list Binding) (connections : list OAuthConnectionRow) : list GrantRow :=
  server ← filter (λ s, se_catalogId s = Some alias) servers;
  binding ← filter (λ b, bn_workspaceId b = se_workspaceId server ∧ bn_mcpServerId b = se_id server ∧ bn_enabled b = true) bindings;
  c ← filter (λ c, oa_workspaceId c = se_workspaceId server ∧ oa_bindingId c = bn_id binding) connections;
  [{| gr_bindingId := bn_id binding; gr_scopeKey := oa_scopeKey c |}].
(** A vendor's rule: which tokens are past saving, which are renewed, how the [n]th is, and
    which refusals end the grant. *)
Record SweepRule := { ru_lapsed : StoredTokens → bool; ru_due : StoredTokens → bool; ru_renew : nat → StoredTokens → outcome PlatformError StoredTokens;
                     ru_gone : PlatformError → bool }.
Definition sweep_row (rule : SweepRule) (s : Sweep) (row : GrantRow) : Sweep :=
  match sw_tokens s !! gr_scopeKey row with
  | None => s
  | Some t =>
      if ru_lapsed rule t then
        {| sw_considered := sw_considered s; sw_refreshed := sw_refreshed s; sw_failed := sw_failed s; sw_tokens := sw_tokens s; sw_lapsed := sw_lapsed s ++ [gr_bindingId row] |}
      else if negb (ru_due rule t) then s
      else match ru_renew rule (Z.to_nat (sw_considered s)) t with
           | Ret fresh => {| sw_considered := sw_considered s + 1; sw_refreshed := sw_refreshed s + 1; sw_failed := sw_failed s;
                             sw_tokens := <[gr_scopeKey row := fresh]> (sw_tokens s); sw_lapsed := sw_lapsed s |}
           | Throw e => {| sw_considered := sw_considered s + 1; sw_refreshed := sw_refreshed s; sw_failed := sw_failed s + 1; sw_tokens := sw_tokens s;
                               sw_lapsed := if ru_gone rule e then sw_lapsed s ++ [gr_bindingId row] else sw_lapsed s |}
           end
  end.
Definition sweep (rule : SweepRule) (tokens : gmap string StoredTokens) (rows : list GrantRow) : Sweep :=
  foldl (sweep_row rule) {| sw_considered := 0; sw_refreshed := 0; sw_failed := 0; sw_tokens := tokens; sw_lapsed := [] |} rows.

(** [refreshExpiringLinkedInTokens] and [refreshExpiringMetaTokens], against a network. *)
Definition linkedin_rule (net : nat → Request → Reply) (client : LinkedIn.LinkedInOAuthClient) (now later : Z) : SweepRule := {|
  ru_lapsed t := (tk_expiresAt t <=? now) && bool_decide (tk_refresh t = None);
  ru_due t := LinkedIn.linkedInNeedsSweep t now WEEK_MS;
  ru_renew n t := (run net n (LinkedIn.refreshLinkedInToken later client (default "" (tk_refresh t)))).2;
  ru_gone _ := false |}.
Definition meta_rule (search : list (string * string) → string) (net : nat → Request → Reply) (client : Meta.MetaOAuthClient) (now later : Z) : SweepRule := {|
  ru_lapsed t := tk_expiresAt t <=? now;
  ru_due t := Meta.metaNeedsSweep t now WEEK_MS;
  ru_renew n t := (run net n (Meta.extendMetaToken search later client (tk_access t))).2;
  ru_gone _ := false |}.
Definition refreshExpiringLinkedInTokens (net : nat → Request → Reply) (client : option LinkedIn.LinkedInOAuthClient) (now later : Z) (tokens : gmap string StoredTokens)
    (servers : list Server) (bindings : list Binding) (connections : list OAuthConnectionRow) : Sweep :=
  match client with
  | None => sweep {| ru_lapsed _ := false; ru_due _ := false; ru_renew _ := Ret; ru_gone _ := false |} tokens []
  | Some c => sweep (linkedin_rule net c now later) tokens (grant_rows LinkedIn.LINKEDIN_ALIAS servers bindings connections)
  end.
Definition refreshExpiringMetaTokens (search : list (string * string) → string) (net : nat → Request → Reply) (client : option Meta.MetaOAuthClient) (now later : Z)
    (tokens : gmap string StoredTokens)
    (servers : list Server) (bindings : list Binding) (connections : list OAuthConnectionRow) : Sweep :=
  match client with
  | None => sweep {| ru_lapsed _ := false; ru_due _ := false; ru_renew _ := Ret; ru_gone _ := false |} tokens []
  | Some c => sweep (meta_rule search net c now later) tokens (grant_rows Meta.META_PUBLISHING_ALIAS servers bindings connections)
  end.

(** ** Every wait ends *)

(** Time passes: the first answer comes after the start, and a wait lies between two rounds. *)
Definition passes (clock : nat → Z) : Prop := clock 0%nat <= clock 1%nat ∧ ∀ n, (1 <= n)%nat → clock n + POLL_MS <= clock (S n).
Lemma poll_not_stuck {check deadline clock} fuel round net n : passes clock → (1 <= round)%nat → deadline - clock round <= POLL_MS * Z.of_nat fuel →
  (run net n (poll fuel round check deadline clock)).2 ≠ Ret wt_stuck.
Proof.
  intros Hp. revert round n. induction fuel as [|fuel IH]; intros round n Hr Hd; cbn [poll]; rewrite run_bind; destruct (run net n check) as [trace [[]|e]]; try done.
  - cbn [Z.of_nat] in Hd. destruct (Z.leb_spec deadline (clock round)) as [|Hlt]; [done|lia].
  - destruct (Z.leb_spec deadline (clock round)); [done|].
    assert ((run net (n + length trace) (poll fuel (S round) check deadline clock)).2 ≠ Ret wt_stuck) as H'.
    { apply IH; [lia|]. destruct Hp as [_ Hp]. specialize (Hp round Hr). lia. }
    by destruct (run net _ (poll _ _ _ _ _)).
Qed.
Lemma wait_not_stuck check clock net n : passes clock → (run net n (wait_for check clock)).2 ≠ Ret wt_stuck.
Proof.
  intros Hp. apply poll_not_stuck; [done|lia|]. destruct Hp as [H01 _]. change (Z.of_nat ROUNDS) with 16. unfold WAIT_MS, POLL_MS. lia.
Qed.

(** Asking for a post with a clip ends: with the post, with the clip's number to come back
    with, or with the vendor's refusal; never because the rounds ran out. *)
Theorem clips_get_an_answer accessToken header encode search clock author text video token ig creation net n : passes clock →
  (run net n (LinkedIn.postWhenReady accessToken header encode clock author text video)).2 ≠ Ret LinkedIn.stuck ∧
  (run net n (Meta.publishContainer search clock token ig creation)).2 ≠ Ret Meta.stuck.
Proof.
  intros Hp. split.
  - unfold LinkedIn.postWhenReady. rewrite run_bind. pose proof (wait_not_stuck (LinkedIn.clip_verdict accessToken encode video) clock net n Hp) as Hw.
    destruct (run net n (wait_for _ clock)) as [trace [[| |]|e]]; try done. rewrite run_bind. by destruct (run net _ (LinkedIn.post _ _ _ _ _)) as [t [p|]].
  - unfold Meta.publishContainer. rewrite run_bind. pose proof (wait_not_stuck (Meta.container_verdict search token creation) clock net n Hp) as Hw.
    destruct (run net n (wait_for _ clock)) as [trace [[| |]|e]]; try done. rewrite run_bind. destruct (run net _ (Meta.read _ _ _ _)) as [t [p|]]; [|done].
    rewrite run_bind. by destruct (run net _ (Meta.permalink _ _ _)) as [t' [u|]].
Qed.

(** ** A call publishes at most once *)

Fixpoint at_most {A} (P : Request → bool) (n : nat) (m : Prog A) : Prop :=
  match m with
  | Done _ | Fail _ => True
  | Fetch r k => if P r then match n with O => False | S n' => ∀ reply, at_most P n' (k reply) end else ∀ reply, at_most P n (k reply)
  end.
Section AtMost.
Context (P : Request → bool).
Lemma at_most_bind {A B} a b (m : Prog A) (k : A → Prog B) : at_most P a m → (∀ x, at_most P b (k x)) → at_most P (a + b) (pbind m k).
Proof.
  intros Hm Hk. revert a Hm. induction m as [x|e|r c IH]; intros a Hm; cbn [pbind].
  - specialize (Hk x). clear Hm. revert b Hk. induction (k x) as [y|e|r c IH]; intros b Hk; cbn [at_most] in *; [done..|].
    destruct (P r); [|intros reply; by apply IH]. destruct b as [|b]; [done|]. rewrite Nat.add_succ_r. intros reply. by apply IH.
  - done.
  - cbn [at_most] in *. destruct (P r); [|intros reply; by apply IH]. destruct a as [|a]; [done|]. intros reply. by apply IH.
Qed.
Lemma at_most_bind_0 {A B} b (m : Prog A) (k : A → Prog B) : at_most P 0 m → (∀ x, at_most P b (k x)) → at_most P b (pbind m k).
Proof. apply (at_most_bind 0 b). Qed.
Lemma at_most_bind_l {A B} a (m : Prog A) (k : A → Prog B) : at_most P a m → (∀ x, at_most P 0 (k x)) → at_most P a (pbind m k).
Proof. intros Hm Hk. rewrite <-(Nat.add_0_r a). by apply at_most_bind. Qed.
Lemma at_most_ask {A} n r (judge : Reply → outcome PlatformError A) : (P r = true → (0 < n)%nat) → at_most P n (ask r judge).
Proof. intros Hr. unfold ask. cbn [at_most]. destruct (P r); [destruct n; [by specialize (Hr eq_refl); lia|]|]; intros reply; by destruct (judge reply). Qed.
Lemma at_most_catch {A} n (m : Prog A) (a : A) : at_most P n m → at_most P n (pcatch m (λ _, Done a)).
Proof.
  revert n. induction m as [x|e|r c IH]; intros n Hm; cbn [pcatch at_most] in *; [done..|]. destruct (P r); [destruct n; [done|]|]; intros reply; by apply IH.
Qed.
Lemma at_most_poll fuel round check deadline clock : at_most P 0 check → at_most P 0 (poll fuel round check deadline clock).
Proof.
  intros Hc. revert round. induction fuel as [|fuel IH]; intros round; cbn [poll]; (apply at_most_bind_0; [done|]); intros []; try done; destruct (_ <=? _); try done; apply IH.
Qed.
End AtMost.

(** A request that puts something before the public. *)
Definition publishes (r : Request) : bool :=
  match rq_body r with
  | bd_json v => match own v "lifecycleState" with VString s => String.eqb s "PUBLISHED" | _ => false end
  | bd_form fields => existsb (λ f : string * string, existsb (String.eqb f.1) ["creation_id"; "message"; "file_url"; "url"]) fields
  | _ => false
  end.

Ltac calm :=
  repeat first
    [ done
    | apply at_most_bind_0; [|intros ?]
    | apply at_most_catch
    | apply at_most_poll
    | apply at_most_ask; done
    | match goal with |- at_most _ _ (if ?b then _ else _) => destruct b end
    | match goal with |- at_most _ _ (match ?x with _ => _ end) => destruct x end ].

Section Once.
Context (accessToken : Prog string) (header : Response → string → option string) (size_of : Response → Z) (encode : string → string) (clock : nat → Z)
        (search : list (string * string) → string).
Hypothesis token_calm : at_most publishes 0 accessToken.

Lemma call_calm method path body : publishes {| rq_method := ""; rq_url := ""; rq_auth := None; rq_body := body |} = false → at_most publishes 0 (LinkedIn.call accessToken method path body).
Proof. intros Hb. unfold LinkedIn.call. apply at_most_bind_0; [done|]. intros token. apply at_most_ask. unfold publishes in *. cbn in *. by rewrite Hb. Qed.
Lemma parts_calm token url parts : at_most publishes 0 (LinkedIn.upload_parts header token url parts).
Proof. induction parts as [|p parts IH]; cbn [LinkedIn.upload_parts]; [done|]. unfold LinkedIn.put_bytes. calm. Qed.
Lemma linkedin_uploads_calm owner url : at_most publishes 0 (LinkedIn.uploadImage accessToken owner url) ∧ at_most publishes 0 (LinkedIn.uploadVideo accessToken header size_of owner url).
Proof.
  split; unfold LinkedIn.uploadImage, LinkedIn.uploadVideo, LinkedIn.fetch_from, LinkedIn.put_bytes, LinkedIn.body_of;
    repeat first [ done | apply call_calm; done | apply parts_calm | apply at_most_bind_0; [|intros ?] | apply at_most_ask; done | match goal with |- at_most _ _ (match ?x with _ => _ end) => destruct x end ].
Qed.
Lemma post_once author text content : at_most publishes 1 (LinkedIn.post accessToken header author text content).
Proof.
  unfold LinkedIn.post. apply at_most_bind_l; [|intros r; cbv zeta; destruct (String.eqb _ _); done]. unfold LinkedIn.call. apply at_most_bind_0; [done|]. intros token. apply at_most_ask. lia.
Qed.
Lemma finish_once author text video : at_most publishes 1 (LinkedIn.postWhenReady accessToken header encode clock author text video).
Proof.
  unfold LinkedIn.postWhenReady. apply at_most_bind_0.
  - apply at_most_poll. unfold LinkedIn.clip_verdict, LinkedIn.videoStatus, LinkedIn.body_of. repeat first [done|apply call_calm; done|apply at_most_bind_0; [|intros ?]|case_match].
  - intros [| |]; [|done..]. apply at_most_bind_l; [apply post_once|done].
Qed.
Lemma graph_calm path params method : publishes {| rq_method := ""; rq_url := ""; rq_auth := None; rq_body := bd_form params |} = false → at_most publishes 0 (Meta.graph search path params method).
Proof. intros Hb. unfold Meta.graph. apply at_most_ask. destruct method; cbn in *; [done|by rewrite Hb..]. Qed.
Lemma read_most n path params method : at_most publishes n (Meta.graph search path params method) → at_most publishes n (Meta.read search path params method).
Proof. intros Hg. unfold Meta.read. apply at_most_bind_l; [done|]. intros []; done. Qed.
Lemma read_calm path params method : publishes {| rq_method := ""; rq_url := ""; rq_auth := None; rq_body := bd_form params |} = false → at_most publishes 0 (Meta.read search path params method).
Proof. intros Hb. by apply read_most, graph_calm. Qed.
Lemma graph_once path params method : at_most publishes 1 (Meta.graph search path params method).
Proof. unfold Meta.graph. apply at_most_ask. lia. Qed.
Lemma pages_calm : at_most publishes 0 (Meta.pages accessToken search).
Proof. unfold Meta.pages. apply at_most_bind_0; [done|]. intros token. apply at_most_bind_0; [by apply read_calm|done]. Qed.
Lemma tokens_calm id : at_most publishes 0 (Meta.pageToken accessToken search id) ∧ at_most publishes 0 (Meta.instagramToken accessToken search id).
Proof. split; unfold Meta.pageToken, Meta.instagramToken; (apply at_most_bind_0; [apply pages_calm|]); intros l; by destruct (List.find _ l). Qed.
Lemma container_once token ig creation : at_most publishes 1 (Meta.publishContainer search clock token ig creation).
Proof.
  unfold Meta.publishContainer. apply at_most_bind_0.
  - apply at_most_poll. unfold Meta.container_verdict. apply at_most_bind_0; [by apply read_calm|]. intros c. repeat case_match; done.
  - intros [| |]; [|done..]. apply at_most_bind_l; [apply read_most, graph_once|]. intros p. apply at_most_bind_0; [|done]. unfold Meta.permalink. apply at_most_catch.
    apply at_most_bind_0; [by apply read_calm|done].
Qed.

(** Whatever the vendors answer, and however long a clip takes, one call of a tool puts at
    most one post before the public. *)
Theorem a_call_publishes_at_most_once (lt : LinkedIn.LinkedInTool) (mt : Meta.MetaTool) :
  at_most publishes 1 (LinkedIn.linkedin_tool accessToken header size_of encode clock lt) ∧ at_most publishes 1 (Meta.meta_tool accessToken search clock mt).
Proof.
  split.
  - destruct lt as [|author text link title image video|author text video]; cbn [LinkedIn.linkedin_tool].
    + apply at_most_bind_0; [|done]. unfold LinkedIn.listAuthors, LinkedIn.me, LinkedIn.organizations, LinkedIn.body_of.
      repeat first [done|apply call_calm; done|apply at_most_bind_0; [|intros ?]|apply at_most_catch|match goal with |- at_most _ _ (match ?x with _ => _ end) => destruct x end].
    + destruct (_ <? _)%nat; [done|]. apply at_most_bind_l; [|done]. unfold LinkedIn.publishPost. cbn [LinkedIn.pi_videoUrl LinkedIn.pi_imageUrl LinkedIn.pi_link].
      destruct video as [url|]; [apply at_most_bind_0; [apply linkedin_uploads_calm|intros; apply finish_once]|].
      apply at_most_bind_0; [|intros; apply at_most_bind_l; [apply post_once|done]]. destruct image as [url|]; [apply at_most_bind_0; [apply linkedin_uploads_calm|done]|by destruct link].
    + apply at_most_bind_l; [apply finish_once|done].
  - destruct mt as [|page message link image video|ig caption image video|ig creation]; cbn [Meta.meta_tool].
    + apply at_most_bind_0; [|done]. unfold Meta.listAccounts. apply at_most_bind_0; [apply pages_calm|done].
    + assert (at_most publishes 1 (Meta.publishFacebookPost accessToken search page message link image video)) as Hp.
      { unfold Meta.publishFacebookPost. apply at_most_bind_0; [apply tokens_calm|]. intros token. destruct video, image; (apply at_most_bind_l; [apply read_most, graph_once|done]). }
      destruct image, video; [done|apply at_most_bind_l; [done|done]..].
    + assert (at_most publishes 1 (Meta.publishInstagramPost accessToken search clock ig caption image video)) as Hp.
      { unfold Meta.publishInstagramPost. apply at_most_bind_0; [apply tokens_calm|]. intros token. apply at_most_bind_0; [apply read_calm; by destruct video|]. intros; apply container_once. }
      destruct image, video; [done| | |done]; (apply at_most_bind_l; [done|done]).
    + apply at_most_bind_l; [|done]. unfold Meta.finishInstagramPost. apply at_most_bind_0; [apply tokens_calm|]. intros; apply container_once.
Qed.
End Once.

(** ** Tokens go to their vendor *)

Section Destinations.
Context (header : Response → string → option string) (size_of : Response → Z) (encode : string → string) (clock : nat → Z) (search : list (string * string) → string).
Definition to_meta (r : Request) : Prop := String.prefix Meta.GRAPH (rq_url r) = true ∧ rq_auth r = None.
(** A request that carries a token goes to LinkedIn's service, or puts part of a file where
    LinkedIn said to. *)
Definition to_linkedin (r : Request) : Prop :=
  is_Some (rq_auth r) → String.prefix LinkedIn.API (rq_url r) = true ∨ rq_method r = "PUT" ∧ ∃ source range, rq_body r = bd_file source range.

Lemma sends_only_poll P fuel round check deadline clock' : sends_only P check → sends_only P (poll fuel round check deadline clock').
Proof.
  intros Hc. revert round. induction fuel as [|fuel IH]; intros round; cbn [poll]; (apply sends_only_bind; [done|]); intros []; try done; destruct (_ <=? _); try done; apply IH.
Qed.
Ltac step :=
  first
    [ done
    | apply sends_only_bind; [|intros ?]
    | apply sends_only_catch; [|intros ?]
    | apply sends_only_poll
    | match goal with |- sends_only _ (if ?b then _ else _) => destruct b end
    | match goal with |- sends_only _ (match ?x with _ => _ end) => destruct x end ].
Ltac stroll := repeat step.

Lemma graph_to_meta path params method : sends_only to_meta (Meta.graph search path params method).
Proof. apply sends_only_ask. destruct method; (split; [|done]); cbn [rq_url get_url]; apply prefix_self_app. Qed.
Lemma read_to_meta path params method : sends_only to_meta (Meta.read search path params method).
Proof. unfold Meta.read. apply sends_only_bind; [apply graph_to_meta|]. intros []; done. Qed.
Lemma stored_to_meta stored now : sends_only to_meta (Meta.metaAccessToken stored now).
Proof. unfold Meta.metaAccessToken. stroll. Qed.

Lemma pages_to_meta stored now : sends_only to_meta (Meta.pages (Meta.metaAccessToken stored now) search).
Proof. unfold Meta.pages. apply sends_only_bind; [apply stored_to_meta|]. intros t. apply sends_only_bind; [apply read_to_meta|done]. Qed.
Lemma tokens_to_meta stored now id : sends_only to_meta (Meta.pageToken (Meta.metaAccessToken stored now) search id) ∧ sends_only to_meta (Meta.instagramToken (Meta.metaAccessToken stored now) search id).
Proof. split; unfold Meta.pageToken, Meta.instagramToken; (apply sends_only_bind; [apply pages_to_meta|]); intros l; by destruct (List.find _ l). Qed.
Lemma container_to_meta token ig creation : sends_only to_meta (Meta.publishContainer search clock token ig creation).
Proof.
  unfold Meta.publishContainer. apply sends_only_bind.
  - apply sends_only_poll. unfold Meta.container_verdict. apply sends_only_bind; [apply read_to_meta|]. intros c. repeat case_match; done.
  - intros [| |]; [|done..]. apply sends_only_bind; [apply read_to_meta|]. intros p. apply sends_only_bind; [|done]. apply sends_only_catch; [|done].
    apply sends_only_bind; [apply read_to_meta|done].
Qed.

(** Every request a Meta tool makes goes to the Graph service. *)
Theorem meta_is_all_that_is_called stored now tool : sends_only to_meta (Meta.meta_tool (Meta.metaAccessToken stored now) search clock tool).
Proof.
  destruct tool as [|page message link image video|ig caption image video|ig creation]; cbn [Meta.meta_tool].
  - apply sends_only_bind; [|done]. apply sends_only_bind; [apply pages_to_meta|done].
  - assert (sends_only to_meta (Meta.publishFacebookPost (Meta.metaAccessToken stored now) search page message link image video)) as Hp.
    { apply sends_only_bind; [apply tokens_to_meta|]. intros t. destruct video, image; (apply sends_only_bind; [apply read_to_meta|done]). }
    destruct image, video; [done|by apply sends_only_bind..].
  - assert (sends_only to_meta (Meta.publishInstagramPost (Meta.metaAccessToken stored now) search clock ig caption image video)) as Hp.
    { apply sends_only_bind; [apply tokens_to_meta|]. intros t. apply sends_only_bind; [apply read_to_meta|]. intros; apply container_to_meta. }
    destruct image, video; [done|by apply sends_only_bind..|done].
  - apply sends_only_bind; [|done]. apply sends_only_bind; [apply tokens_to_meta|]. intros; apply container_to_meta.
Qed.

Lemma call_to_linkedin token method path body : sends_only to_linkedin token → sends_only to_linkedin (LinkedIn.call token method path body).
Proof. intros Ht. unfold LinkedIn.call. apply sends_only_bind; [done|]. intros t. apply sends_only_ask. intros _. left. apply prefix_self_app. Qed.
Lemma put_to_linkedin token url source range refusal : sends_only to_linkedin (LinkedIn.put_bytes token url source range refusal).
Proof. apply sends_only_ask. intros _. right. split; [done|]. by exists source, range. Qed.
Lemma fetch_to_linkedin what url : sends_only to_linkedin (LinkedIn.fetch_from what url).
Proof. apply sends_only_ask. intros [? H]. discriminate H. Qed.
Lemma parts_to_linkedin token url parts : sends_only to_linkedin (LinkedIn.upload_parts header token url parts).
Proof. induction parts as [|p parts IH]; cbn [LinkedIn.upload_parts]; [done|]. apply sends_only_bind; [apply put_to_linkedin|]. intros r. stroll. Qed.

(** What a source hands its calls: the token alone. *)
Definition linkedin_token (stored : option StoredTokens) (client : option LinkedIn.LinkedInOAuthClient) (now later : Z) : Prog string :=
  let* p := LinkedIn.linkedInAccessToken stored client now later in Done p.1.
Lemma stored_to_linkedin stored client now later : sends_only to_linkedin (linkedin_token stored client now later).
Proof.
  unfold linkedin_token, LinkedIn.linkedInAccessToken, LinkedIn.refreshLinkedInToken, LinkedIn.tokenCall. stroll. apply sends_only_ask. intros [? H]. discriminate H.
Qed.
(** A LinkedIn tool shows the token to LinkedIn alone: a picture or a clip is fetched
    without it, and a renewal is asked for without it. *)
Theorem linkedin_tokens_go_to_linkedin stored client now later tool :
  sends_only to_linkedin (LinkedIn.linkedin_tool (linkedin_token stored client now later) header size_of encode clock tool).
Proof.
  destruct tool; cbn [LinkedIn.linkedin_tool];
    unfold LinkedIn.listAuthors, LinkedIn.me, LinkedIn.organizations, LinkedIn.publishPost, LinkedIn.postWhenReady, LinkedIn.clip_verdict, LinkedIn.videoStatus, LinkedIn.post,
      LinkedIn.uploadImage, LinkedIn.uploadVideo, LinkedIn.body_of, wait_for; cbv zeta;
    repeat first [apply call_to_linkedin, stored_to_linkedin | apply stored_to_linkedin | apply put_to_linkedin | apply fetch_to_linkedin | apply parts_to_linkedin | step].
Qed.
End Destinations.

(** ** What a sweep leaves *)

Section Sweeps.
Context (rule : SweepRule).
(** A renewal that is granted lasts beyond the margin. *)
Hypothesis renewed_lasts : ∀ n t fresh, ru_renew rule n t = Ret fresh → ru_due rule fresh = false.

(** What holds of the sweep after the rows [rows], from the tokens [tokens]. *)
Record Swept (tokens : gmap string StoredTokens) (rows : list GrantRow) (s : Sweep) : Prop := {
  swept_counts : sw_considered s = sw_refreshed s + sw_failed s ∧ 0 <= sw_refreshed s ∧ 0 <= sw_failed s;
  swept_keys : ∀ k, is_Some (sw_tokens s !! k) ↔ is_Some (tokens !! k);
  swept_frame : ∀ k, k ∉ map gr_scopeKey rows → sw_tokens s !! k = tokens !! k;
  swept_none_due : sw_failed s = 0 → ∀ row t, row ∈ rows → sw_tokens s !! gr_scopeKey row = Some t → ru_lapsed rule t = true ∨ ru_due rule t = false;
  swept_pending : ∀ b, b ∈ sw_lapsed s → ∃ row, row ∈ rows ∧ gr_bindingId row = b }.

Lemma sweep_row_swept tokens rows s row : Swept tokens rows s → Swept tokens (rows ++ [row]) (sweep_row rule s row).
Proof.
  intros [Hc Hk Hf Hd Hp]. unfold sweep_row.
  assert (∀ k, k ∉ map gr_scopeKey (rows ++ [row]) → k ≠ gr_scopeKey row ∧ k ∉ map gr_scopeKey rows) as Hout by (intros k; rewrite map_app; set_solver).
  assert (∀ r, r ∈ rows → r ∈ rows ++ [row]) as Hin by set_solver.
  assert (∀ b, b ∈ sw_lapsed s → ∃ r, r ∈ rows ++ [row] ∧ gr_bindingId r = b) as Hp' by (intros b (r & ? & ?)%Hp; eauto).
  assert (∀ b, b ∈ sw_lapsed s ++ [gr_bindingId row] → ∃ r, r ∈ rows ++ [row] ∧ gr_bindingId r = b) as Hnew.
  { intros b [Hb|Hb]%elem_of_app; [by apply Hp'|]. apply list_elem_of_singleton in Hb as ->. exists row. set_solver. }
  assert (∀ r, r ∈ rows ++ [row] → r ∈ rows ∨ r = row) as Hrow by set_solver.
  destruct (sw_tokens s !! gr_scopeKey row) as [t|] eqn:Ht.
  2: { split; [done|done|intros k [_ Hx]%Hout; by apply Hf| |done]. intros H0 r t [Hr| ->]%Hrow Hl; [by eapply Hd|congruence]. }
  destruct (ru_lapsed rule t) eqn:Hlap; cbn.
  { split; cbn; [done|done|intros k [_ Hx]%Hout; by apply Hf| |].
    - intros H0 r t' [Hr| ->]%Hrow Hl; [by eapply Hd|]. left. congruence.
    - done. }
  destruct (ru_due rule t) eqn:Hdue; cbn.
  2: { split; [done|done|intros k [_ Hx]%Hout; by apply Hf| |done]. intros H0 r t' [Hr| ->]%Hrow Hl; [by eapply Hd|right; congruence]. }
  destruct (ru_renew rule _ t) as [fresh|e] eqn:Hren; split; cbn; try done; try lia.
  - intros k. destruct (decide (k = gr_scopeKey row)) as [->|Hne]; [|rewrite lookup_insert_ne by done; apply Hk].
    rewrite lookup_insert_eq, <-Hk, Ht. by split; eauto.
  - intros k [Hne Hx]%Hout. rewrite lookup_insert_ne by done. by apply Hf.
  - intros H0 r t' Hr Hl. destruct (decide (gr_scopeKey r = gr_scopeKey row)) as [Heq|Hne].
    + rewrite Heq, lookup_insert_eq in Hl. injection Hl as <-. right. by eapply renewed_lasts.
    + rewrite lookup_insert_ne in Hl by done. destruct (Hrow r Hr) as [Hr'| ->]; [|done]. by eapply Hd.
  - intros k [_ Hx]%Hout. by apply Hf.
  - by destruct (ru_gone rule e).
Qed.

(** A sweep accounts for every grant it took up, forgets none and touches no other; where no
    renewal was refused, a grant it came to is either past saving or good beyond the
    margin; and only bindings it came to are asked to be authorised again. *)
Theorem sweeps_leave_nothing_due tokens rows : Swept tokens rows (sweep rule tokens rows).
Proof.
  unfold sweep. induction rows as [|row rows IH] using rev_ind.
  - split; cbn; [lia|done|done|set_solver|set_solver].
  - rewrite foldl_app. cbn. by apply sweep_row_swept.
Qed.
End Sweeps.

(** ** Instances *)

Definition named_headers (_ : Response) (name : string) : option string := if String.eqb name "x-restli-id" then Some "urn:li:share:1" else Some "etag-1".
Definition ticking (n : nat) : Z := 5000 * Z.of_nat n.
Definition plain_search (l : list (string * string)) : string := join "&" (map (λ p : string * string, p.1 +:+ "=" +:+ p.2) l).
Definition live : StoredTokens := {| tk_access := "tok"; tk_refresh := Some "ref"; tk_expiresAt := 1000; tk_scope := None |}.
Lemma ticking_passes : passes ticking.
Proof. split; [done|]. intros n _. unfold ticking, POLL_MS. lia. Qed.

Lemma clips_get_an_answer_witness :
  (run (λ _ _, ok_json (VObject [])) 0 (LinkedIn.postWhenReady (Done "tok") named_headers id ticking "urn:li:person:1" "hello" "urn:li:video:1")).2 ≠ Ret LinkedIn.stuck.
Proof. apply (clips_get_an_answer (Done "tok") named_headers id plain_search ticking "urn:li:person:1" "hello" "urn:li:video:1" "tok" "1" "2" (λ _ _, ok_json (VObject [])) 0 ticking_passes). Defined.
Lemma a_call_publishes_at_most_once_witness :
  at_most publishes 1 (LinkedIn.linkedin_tool (linkedin_token (Some live) None 0 0) named_headers (λ _, 9) id ticking (LinkedIn.publish_linkedin_post "urn:li:person:1" "hello" None None (Some "https://x/y.png") None)).
Proof.
  apply (a_call_publishes_at_most_once (linkedin_token (Some live) None 0 0) named_headers (λ _, 9) id ticking plain_search I
    (LinkedIn.publish_linkedin_post "urn:li:person:1" "hello" None None (Some "https://x/y.png") None) Meta.list_accounts).
Defined.
Definition renewing (_ : nat) (_ : Request) : Reply := ok_json (VObject [("access_token", VString "new"); ("refresh_token", VString "ref2"); ("expires_in", VNumber 5184000)]).
Definition the_app : LinkedIn.LinkedInOAuthClient := {| LinkedIn.oc_clientId := "app"; LinkedIn.oc_clientSecret := "shh" |}.
Lemma sweeps_leave_nothing_due_witness : Swept (linkedin_rule renewing the_app 0 0) {["k" := live]} [{| gr_bindingId := "b"; gr_scopeKey := "k" |}]
  (sweep (linkedin_rule renewing the_app 0 0) {["k" := live]} [{| gr_bindingId := "b"; gr_scopeKey := "k" |}]).
Proof.
  apply (sweeps_leave_nothing_due (linkedin_rule renewing the_app 0 0)). intros n t fresh H. vm_compute in H. injection H as <-. reflexivity.
Defined.

(** A whole post with a picture: what is sent, in order. *)
Example a_picture_is_posted :
  let net n (_ : Request) := match n with
    | 0%nat => ok_json (VObject [("value", VObject [("uploadUrl", VString "https://up.linkedin.com/1"); ("image", VString "urn:li:image:1")])])
    | _ => ok_json (VObject []) end in
  let r := run net 0 (LinkedIn.linkedin_tool (linkedin_token (Some live) None 0 0) named_headers (λ _, 9) id ticking
             (LinkedIn.publish_linkedin_post "urn:li:person:1" "hello" None None (Some "https://x/y.png") None)) in
  map (λ x, (rq_method x.1, rq_url x.1)) r.1 =
    [("POST", "https://api.linkedin.com/rest/images?action=initializeUpload"); ("GET", "https://x/y.png"); ("PUT", "https://up.linkedin.com/1"); ("POST", "https://api.linkedin.com/rest/posts")] ∧
  r.2 = Ret ("Published to LinkedIn. https://www.linkedin.com/feed/update/urn:li:share:1", false).
Proof. split; vm_compute; reflexivity. Qed.

(** The address of a picture is fetched as it is given, inside the deployment's network too. *)
Example pictures_are_fetched_from_anywhere :
  map (λ x, rq_url x.1) (run (λ _ _, ok_json (VObject [])) 0 (LinkedIn.uploadImage (Done "tok") "urn:li:person:1" "http://169.254.169.254/latest/meta-data")).1 =
    ["https://api.linkedin.com/rest/images?action=initializeUpload"; "http://169.254.169.254/latest/meta-data"; ""].
Proof. vm_compute. reflexivity. Qed.

(** A renewal whose answer names no refresh token loses the one that was kept. *)
Example renewals_may_drop_the_refresh_token :
  let net (_ : nat) (_ : Request) := ok_json (VObject [("access_token", VString "new"); ("expires_in", VNumber 60)]) in
  let s := sweep (linkedin_rule net the_app 0 0) {["k" := live]} [{| gr_bindingId := "b"; gr_scopeKey := "k" |}] in
  sw_refreshed s = 1 ∧ (tk_refresh <$> sw_tokens s !! "k") = Some None.
Proof. split; vm_compute; reflexivity. Qed.

(** A link beside a picture is not part of what is posted, and nothing says so. *)
Example links_beside_pictures_vanish token search page message link image :
  Meta.publishFacebookPost token search page message (Some link) (Some image) None = Meta.publishFacebookPost token search page message None (Some image) None.
Proof. reflexivity. Qed.

(** One person's lapsed grant puts the binding of all its people into waiting, beside a
    grant that works. *)
Example one_lapsed_grant_marks_the_binding :
  let gone := {| tk_access := "old"; tk_refresh := None; tk_expiresAt := 0; tk_scope := None |} in
  let works := {| tk_access := "tok"; tk_refresh := None; tk_expiresAt := 10 * WEEK_MS; tk_scope := None |} in
  sw_lapsed (sweep (linkedin_rule renewing the_app 5 5) {["ann" := gone; "bob" := works]} [{| gr_bindingId := "b"; gr_scopeKey := "ann" |}; {| gr_bindingId := "b"; gr_scopeKey := "bob" |}]) = ["b"].
Proof. vm_compute. reflexivity. Qed.
