(* ===== verification/Workspace.v ===== *)
(** * Gmail, Calendar and Drive

    Models lib/google-workspace.ts and packages/servers/src/google-workspace.ts: consent and
    tokens, every call as a program of HTTP requests ([Outbound.Prog]), the tools over
    them, what is read of a message and how one is written, and the sweep that renews
    grants, which is [Publishing.sweep] under Google's rule.  Base64 is written out; the
    decoding of UTF-8, the encoding of queries, the clock and the random draws are
    arguments, and a reply has the types Google documents.  Requests that are sent at
    once are listed in the order they are made. *)
From S2P Require Import Prelude Json JsonText Text Chunk Guard Adapters Extract Outbound Stores Publishing.

#[local] Open Scope prog_scope.

(** ** Base64 *)

Definition ALPHABET : string := "ABCDEFGHIJKLMNOPQRSTUVWXYZabcdefghijklmnopqrstuvwxyz0123456789".
(** The last two characters and the padding depend on the variant. *)
Definition sextet_char (url : bool) (n : Z) : Ascii.ascii :=
  match String.get (Z.to_nat n) (ALPHABET +:+ if url then "-_" else "+/") with Some c => c | None => "A"%char end.
Definition sextet_of (c : Ascii.ascii) : option Z :=
  let n := code_of c in
  if in_range 65 90 n then Some (n - 65)
  else if in_range 97 122 n then Some (n - 71)
  else if in_range 48 57 n then Some (n + 4)
  else if (n =? 43) || (n =? 45) then Some 62
  else if (n =? 47) || (n =? 95) then Some 63
  else None.
Fixpoint sextets (s : string) : list Z :=
  match s with
  | EmptyString => []
  | String x EmptyString => [code_of x / 4; code_of x mod 4 * 16]
  | String x (String y EmptyString) => [code_of x / 4; code_of x mod 4 * 16 + code_of y / 16; code_of y mod 16 * 4]
  | String x (String y (String z r)) =>
      code_of x / 4 :: code_of x mod 4 * 16 + code_of y / 16 :: code_of y mod 16 * 4 + code_of z / 64 :: code_of z mod 64 :: sextets r
  end.
Fixpoint octets (l : list Z) : list Z :=
  match l with
  | a :: b :: c :: d :: r => a * 4 + b / 16 :: b mod 16 * 16 + c / 4 :: c mod 4 * 64 + d :: octets r
  | [a; b; c] => [a * 4 + b / 16; b mod 16 * 16 + c / 4]
  | [a; b] => [a * 4 + b / 16]
  | _ => []
  end.
Definition unlit (t : text) : string := foldr (λ n s, String (Ascii.ascii_of_N (Z.to_N n)) s) "" t.
Definition char_text (l : list Ascii.ascii) : string := foldr String "" l.
Definition padding (s : string) : string := match (String.length s mod 3)%nat with 1%nat => "==" | 2%nat => "=" | _ => "" end.
Definition base64 (s : string) : string := char_text (map (sextet_char false) (sextets s)) +:+ padding s.
Definition base64url (s : string) : string := char_text (map (sextet_char true) (sextets s)).
(** [Buffer.from(s, 'base64url')] and ['base64']: both alphabets are read, white space and
    padding are passed over. *)
Fixpoint sextets_of (s : string) : list Z :=
  match s with EmptyString => [] | String c r => match sextet_of c with Some n => n :: sextets_of r | None => sextets_of r end end.
Definition unbase64 (s : string) : string := unlit (octets (sextets_of s)).

(** [Buffer.from(s, 'utf8')] of units below U+0100. *)
Fixpoint utf8 (s : string) : string :=
  match s with
  | EmptyString => ""
  | String c r =>
      let n := code_of c in
      if n <? 128 then String c (utf8 r)
      else String (Ascii.ascii_of_N (Z.to_N (192 + n / 64))) (String (Ascii.ascii_of_N (Z.to_N (128 + n mod 64))) (utf8 r))
  end.

(** ** Writing a message *)

Definition CRLF : string := String (Ascii.ascii_of_nat 13) (String (Ascii.ascii_of_nat 10) "").
Definition printable (c : Ascii.ascii) : bool := in_range 32 126 (code_of c).
Definition encodeHeader (value : string) : string := if str_all printable value then value else "=?UTF-8?B?" +:+ base64 (utf8 value) +:+ "?=".
(** [replace(/(.{76})/g, '$1\r\n')], of a text without line ends; [room] more fit on the line. *)
Fixpoint wrap (room : nat) (s : string) : string :=
  match s with
  | EmptyString => ""
  | String c r => match room with
                  | S (S k) => String c (wrap (S k) r)
                  | _ => String c (CRLF +:+ wrap 76 r)
                  end
  end.
Record Mail := { ml_from : option string; ml_to : list string; ml_cc : option (list string); ml_subject : string; ml_text : string; ml_inReplyTo : option string; ml_references : option string }.
Definition header_lines (m : Mail) : list string :=
  (match ml_from m with Some f => ["From: " +:+ f] | None => [] end)
  ++ ["To: " +:+ join ", " (ml_to m)]
  ++ (match ml_cc m with Some (c :: cs) => ["Cc: " +:+ join ", " (c :: cs)] | _ => [] end)
  ++ ["Subject: " +:+ encodeHeader (ml_subject m)]
  ++ (match ml_inReplyTo m with Some r => ["In-Reply-To: " +:+ r] | None => [] end)
  ++ (match ml_references m with Some r => ["References: " +:+ r] | None => [] end)
  ++ ["MIME-Version: 1.0"; "Content-Type: text/plain; charset=" +:+ dquote +:+ "UTF-8" +:+ dquote; "Content-Transfer-Encoding: base64"].
Definition rawMessage (m : Mail) : string :=
  base64url (utf8 (join CRLF (header_lines m) +:+ CRLF +:+ CRLF +:+ wrap 76 (base64 (utf8 (ml_text m))))).

(** ** Reading a message *)

Inductive GmailPayload := payload (mimeType data : option string) (parts : list GmailPayload).
(** What a JSON value is as a payload. *)
Fixpoint payload_of (v : value) : GmailPayload :=
  match v with
  | VObject fields =>
      payload (str_of v "mimeType") (str_of (own v "body") "data")
        ((fix go fs := match fs with
                       | [] => []
                       | (k, x) :: r => if String.eqb k "parts" then match x with VArray l => map payload_of l | _ => [] end else go r
                       end) fields)
  | _ => payload None None []
  end.
(** [findPart]: the body of the first part of a type that has one. *)
Fixpoint findPart (mime : string) (p : GmailPayload) : option string :=
  match p with
  | payload m data parts =>
      match data with
      | Some d => if bool_decide (m = Some mime) then Some d else
          (fix go l := match l with [] => None | c :: r => match findPart mime c with Some f => Some f | None => go r end end) parts
      | None => (fix go l := match l with [] => None | c :: r => match findPart mime c with Some f => Some f | None => go r end end) parts
      end
  end.

Definition block_close (name : string) (s : text) : option nat := r ← after true (lit ("</" +:+ name +:+ ">")) s; Some (taken s r).
(** [<br\s*\/?>|<\/p>|<\/div>|<\/li>|<\/tr>]. *)
Definition mail_break (s : text) : option nat :=
  match (r ← after true (lit "<br") s; let r := past_spaces r in let r := default r (after false (lit "/") r) in r ← after false (lit ">") r; Some (taken s r)) with
  | Some n => Some n
  | None => head (omap (λ name, block_close name s) ["p"; "div"; "li"; "tr"])
  end.
Definition mail_code (s : text) : option nat :=
  match lazily true false "<style" "</style>" s with Some n => Some n | None => lazily true false "<script" "</script>" s end.
Definition literally (what : string) (out : text) (s : text) : text := replace_all (dropping (λ s, r ← after false (lit what) s; Some (taken s r)) out) 0 s.
Definition mail_entities (s : text) : text :=
  literally "&#39;" (lit "'") (literally "&quot;" [34] (literally "&gt;" (lit ">") (literally "&lt;" (lit "<") (literally "&amp;" (lit "&") (literally "&nbsp;" [32] s))))).
Definition mail_stripHtml (html : text) : text :=
  trim (collapse 0 (mail_entities (replace_all (dropping m_tag []) 0 (replace_all (dropping mail_break [NL]) 0 (replace_all (dropping mail_code []) 0 html))))).

Section Reading.
Context (utf8_of : string → string).
Definition decodeBody (data : string) : string := utf8_of (unbase64 data).
Definition plainTextOfPayload (p : option GmailPayload) (snippet : string) : string :=
  match p with
  | None => snippet
  | Some p => match findPart "text/plain" p with
              | Some d => decodeBody d
              | None => match findPart "text/html" p with Some d => unlit (mail_stripHtml (lit (decodeBody d))) | None => snippet end
              end
  end.
End Reading.

(** ** Tokens *)

Definition GOOGLE_WORKSPACE_ALIAS : string := "google_workspace".
Definition GOOGLE_AUTHORIZE_URL : string := "https://accounts.google.com/o/oauth2/v2/auth".
Definition GOOGLE_TOKEN_URL : string := "https://oauth2.googleapis.com/token".
Definition GOOGLE_REVOKE_URL : string := "https://oauth2.googleapis.com/revoke".
Definition GMAIL : string := "https://gmail.googleapis.com/gmail/v1/users/me".
Definition CALENDAR : string := "https://www.googleapis.com/calendar/v3".
Definition DRIVE : string := "https://www.googleapis.com/drive/v3".
Definition REFRESH_MARGIN_MS : Z := 60000.
Definition SWEEP_MARGIN_MS : Z := 6 * 60 * 60 * 1000.

Record GoogleOAuthClient := { gc_clientId : string; gc_clientSecret : string }.
Definition both (i s : option string) : option GoogleOAuthClient :=
  match i, s with Some i, Some s => Some {| gc_clientId := i; gc_clientSecret := s |} | _, _ => None end.
(** The client of the settings, or the one people sign in with. *)
Definition googleOAuthClient (id secret env_id env_secret : option string) : option GoogleOAuthClient :=
  match both id secret with Some c => Some c | None => both env_id env_secret end.
Definition beginGoogleConsent (search : list (string * string) → string) (challenge : string → string) (client : GoogleOAuthClient) (redirectUri : string) (scopes : list string) (state verifier : string) : LinkedIn.Consent :=
  {| LinkedIn.ct_authorizationUrl := GOOGLE_AUTHORIZE_URL +:+ "?" +:+ search
       [("client_id", gc_clientId client); ("redirect_uri", redirectUri); ("response_type", "code"); ("scope", join " " scopes); ("access_type", "offline"); ("prompt", "consent");
        ("include_granted_scopes", "true"); ("state", state); ("code_challenge", challenge verifier); ("code_challenge_method", "S256")];
     LinkedIn.ct_state := state; LinkedIn.ct_codeVerifier := verifier |}.

(** What a grant is made of; [kept] is the refresh token that was sent. *)
Definition google_token_judge (refusal : string) (now : Z) (kept : option string) (reply : Reply) : outcome PlatformError StoredTokens :=
  match reply with
  | Throw e => Throw (pe_other e)
  | Ret r =>
      match rs_json r with
      | None => Throw (pe_other (rs_text r))
      | Some body =>
          let refused := Throw (pe_other (js_trim (refusal +:+ default (js_show (rs_status r)) (str_of body "error") +:+ " " +:+ text_in body "error_description"))) in
          match str_of body "access_token" with
          | Some token =>
              if is_ok r then Ret {| tk_access := token; tk_refresh := match kept with Some t => Some t | None => str_of body "refresh_token" end;
                                     tk_expiresAt := now + default 3600 (num_of body "expires_in") * 1000; tk_scope := str_of body "scope" |}
              else refused
          | None => refused
          end
      end
  end.
Definition exchangeGoogleCode (now : Z) (client : GoogleOAuthClient) (code verifier redirectUri : string) : Prog StoredTokens :=
  ask {| rq_method := "POST"; rq_url := GOOGLE_TOKEN_URL; rq_auth := None;
         rq_body := bd_form [("code", code); ("client_id", gc_clientId client); ("client_secret", gc_clientSecret client); ("redirect_uri", redirectUri);
                             ("grant_type", "authorization_code"); ("code_verifier", verifier)] |}
    (google_token_judge "Google refused the code: " now None).
Definition refreshGoogleToken (now : Z) (client : GoogleOAuthClient) (refreshToken : string) : Prog StoredTokens :=
  ask {| rq_method := "POST"; rq_url := GOOGLE_TOKEN_URL; rq_auth := None;
         rq_body := bd_form [("refresh_token", refreshToken); ("client_id", gc_clientId client); ("client_secret", gc_clientSecret client); ("grant_type", "refresh_token")] |}
    (google_token_judge "Google refused to refresh the connection: " now (Some refreshToken)).

(** The token, and what is stored afterwards. *)
Definition googleAccessToken (stored : option StoredTokens) (client : option GoogleOAuthClient) (now later : Z) : Prog (string * option StoredTokens) :=
  match stored with
  | None => fails "Google Workspace is not connected for this assistant. Connect it on the Integrations tab."
  | Some t =>
      if now <? tk_expiresAt t - REFRESH_MARGIN_MS then Done (tk_access t, stored)
      else match tk_refresh t with
           | None => fails "The Google connection has expired and cannot be refreshed. Reconnect it on the Integrations tab."
           | Some refresh => match client with
                             | None => fails "This deployment has no Google client configured."
                             | Some c => let* fresh := refreshGoogleToken later c refresh in Done (tk_access fresh, Some fresh)
                             end
           end
  end.
Definition revokeGoogleTokens (stored : option StoredTokens) : Prog bool :=
  match stored with
  | None => Done false
  | Some t => ask {| rq_method := "POST"; rq_url := GOOGLE_REVOKE_URL; rq_auth := None; rq_body := bd_form [("token", default (tk_access t) (tk_refresh t))] |}
                (λ reply, match reply with
                          | Throw e => Throw (pe_other e)
                          | Ret r => if is_ok r then Ret true else Throw (pe_other ("Google answered " +:+ js_show (rs_status r) +:+ " to the revocation."))
                          end)
  end.
Definition needsSweep (t : StoredTokens) (now margin : Z) : bool := match tk_refresh t with Some _ => tk_expiresAt t - margin <=? now | None => false end.
Definition google_rule (net : nat → Request → Reply) (client : GoogleOAuthClient) (now later : Z) : SweepRule := {|
  ru_lapsed _ := false;
  ru_due t := needsSweep t now SWEEP_MARGIN_MS;
  ru_renew n t := (run net n (refreshGoogleToken later client (default "" (tk_refresh t)))).2;
  ru_gone e := str_includes "invalid_grant" (toLowerCase (message_of_error e)) |}.
Definition refreshExpiringGoogleTokens (net : nat → Request → Reply) (client : option GoogleOAuthClient) (now later : Z) (tokens : gmap string StoredTokens)
    (servers : list Server) (bindings : list Binding) (connections : list OAuthConnectionRow) : Sweep :=
  match client with
  | None => sweep {| ru_lapsed _ := false; ru_due _ := false; ru_renew _ := Ret; ru_gone _ := false |} tokens []
  | Some c => sweep (google_rule net c now later) tokens (grant_rows GOOGLE_WORKSPACE_ALIAS servers bindings connections)
  end.

(** ** The source *)

(** [Promise.all]: everything is begun, and the first refusal is what is thrown. *)
Definition attempt {A} (m : Prog A) : Prog (outcome PlatformError A) := pcatch (let* a := m in Done (Ret a)) (λ e, Done (Throw e)).
Fixpoint all_begun {A} (l : list (Prog A)) : Prog (list (outcome PlatformError A)) :=
  match l with [] => Done [] | m :: r => let* o := attempt m in let* os := all_begun r in Done (o :: os) end.
Fixpoint first_refusal {A} (l : list (outcome PlatformError A)) : outcome PlatformError (list A) :=
  match l with
  | [] => Ret []
  | Throw e :: _ => Throw e
  | Ret a :: r => match first_refusal r with Ret l => Ret (a :: l) | Throw e => Throw e end
  end.
Definition promise_all {A} (l : list (Prog A)) : Prog (list A) :=
  let* os := all_begun l in match first_refusal os with Ret l => Done l | Throw e => Fail e end.

Record MailSummary := { ms_id : string; ms_threadId : string; ms_from : string; ms_to : string; ms_subject : string; ms_date : string; ms_snippet : string; ms_labels : list string; ms_unread : bool }.
Record MailLabel := { mb_id : string; mb_name : string; mb_system : bool }.
Record CalendarEvent := { ce_id : string; ce_summary : string; ce_start : string; ce_end : string; ce_location : option string; ce_attendees : list string; ce_link : option string }.
Record DriveFile := { df_id : string; df_name : string; df_mimeType : string; df_modified : string; df_link : option string }.
(** [labelNames]: the names of labels, once they have been asked for. *)
Definition Names : Type := option (list (string * string)).
Definition strings_of (v : value) : list string := omap (λ x, match x with VString s => Some s | _ => None end) (items v).
Definition field (m : value) (name : string) : string :=
  match List.find (λ h, String.eqb (toLowerCase (text_in h "name")) (toLowerCase name)) (items (own (own m "payload") "headers")) with
  | Some h => text_in h "value"
  | None => ""
  end.
Definition toEvent (e : value) : CalendarEvent :=
  let time k := default "" (match str_of (own e k) "dateTime" with Some t => Some t | None => str_of (own e k) "date" end) in
  {| ce_id := text_in e "id"; ce_summary := default "(no title)" (str_of e "summary"); ce_start := time "start"; ce_end := time "end"; ce_location := str_of e "location";
     ce_attendees := map (λ a, text_in a "email") (items (own e "attendees")); ce_link := str_of e "htmlLink" |}.
Definition toFile (f : value) : DriveFile :=
  {| df_id := text_in f "id"; df_name := text_in f "name"; df_mimeType := text_in f "mimeType"; df_modified := text_in f "modifiedTime"; df_link := str_of f "webViewLink" |}.
Definition EXPORTS : list (string * string) :=
  [("application/vnd.google-apps.document", "text/plain"); ("application/vnd.google-apps.spreadsheet", "text/csv"); ("application/vnd.google-apps.presentation", "text/plain")].
(** [/^text\/|json|xml|csv/]. *)
Definition textual (mime : string) : bool := String.prefix "text/" mime || str_includes "json" mime || str_includes "xml" mime || str_includes "csv" mime.
(** [replace(/\\/g, '\\\\').replace(/'/g, '\\\'')]. *)
Definition BACKSLASH : Ascii.ascii := Ascii.ascii_of_nat 92.
Fixpoint doubled (c : Ascii.ascii) (s : string) : string :=
  match s with EmptyString => "" | String d r => if Ascii.eqb d c then String BACKSLASH (String d (doubled c r)) else String d (doubled c r) end.
Definition escaped (query : string) : string := doubled "'" (doubled BACKSLASH query).
Definition file_query (query : string) : string :=
  "(name contains '" +:+ escaped query +:+ "' or fullText contains '" +:+ escaped query +:+ "') and trashed = false".

Section Source.
Context (token : Prog string) (search : list (string * string) → string) (encode : string → string) (utf8_of : string → string).

Definition google_judge (reply : Reply) : outcome PlatformError value :=
  match reply with
  | Throw e => Throw (pe_other e)
  | Ret r =>
      if rs_status r =? 204 then Ret VUndefined
      else if negb (is_ok r) then
        let message := default (rs_text r) (match rs_json r with Some v => str_of (own v "error") "message" | None => None end) in
        Throw (pe_other ("Google answered " +:+ js_show (rs_status r) +:+ ": " +:+ str_take 300 message))
      else if String.eqb (rs_text r) "" then Ret VUndefined
      else match rs_json r with Some v => Ret v | None => Throw (pe_other (rs_text r)) end
  end.
Definition google (request : string → Request) : Prog value := let* t := token in ask (request ("Bearer " +:+ t)) google_judge.
(** An answer something is read of. *)
Definition google_read (request : string → Request) : Prog value :=
  let* v := google request in match v with VUndefined | VNull => fails "Cannot read properties of undefined" | _ => Done v end.
Definition getting (url : string) (auth : string) : Request := get_url url (Some auth).
Definition posting (url : string) (body : value) (auth : string) : Request := post_json url (Some auth) body.

Definition listLabels : Prog (list MailLabel) :=
  let* result := google_read (getting (GMAIL +:+ "/labels")) in
  Done (map (λ l, {| mb_id := text_in l "id"; mb_name := text_in l "name"; mb_system := bool_decide (str_of l "type" = Some "system") |}) (items (own result "labels"))).
Definition nameLabels (names : Names) (ids : list string) : Prog (list string * list (string * string)) :=
  let* known := match names with Some l => Done l | None => let* labels := listLabels in Done (foldl (λ m l, jm_set (mb_id l) (mb_name l) m) [] labels) end in
  Done (map (λ id, default id (jm_get id known)) ids, known).
Definition summarise (names : Names) (m : value) : Prog (MailSummary * list (string * string)) :=
  let ids := strings_of (own m "labelIds") in
  let* p := nameLabels names ids in
  Done ({| ms_id := text_in m "id"; ms_threadId := text_in m "threadId"; ms_from := field m "From"; ms_to := field m "To"; ms_subject := field m "Subject"; ms_date := field m "Date";
           ms_snippet := text_in m "snippet"; ms_labels := p.1; ms_unread := existsb (String.eqb "UNREAD") ids |}, p.2).
Definition METADATA : string := "?format=metadata&metadataHeaders=From&metadataHeaders=To&metadataHeaders=Subject&metadataHeaders=Date".
(** Every summary is begun before any has named its labels, so that none finds names another
    has asked for. *)
Definition searchMail (names : Names) (query : string) (limit : Z) : Prog (list MailSummary * Names) :=
  let* result := google_read (getting (GMAIL +:+ "/messages?" +:+ search [("q", query); ("maxResults", js_show limit)])) in
  let ids := map (λ m, text_in m "id") (items (own result "messages")) in
  let* messages := promise_all (map (λ id, google_read (getting (GMAIL +:+ "/messages/" +:+ id +:+ METADATA))) ids) in
  let* l := promise_all (map (summarise names) messages) in
  Done (map fst l, match last l with Some p => Some p.2 | None => names end).
Definition readMail (names : Names) (id : string) : Prog (option (MailSummary * string) * Names) :=
  let* found := attempt (google (getting (GMAIL +:+ "/messages/" +:+ id +:+ "?format=full"))) in
  match found with
  | Throw _ => Done (None, names)
  | Ret VUndefined | Ret VNull => fails "Cannot read properties of undefined"
  | Ret message =>
      let* p := summarise names message in
      let body := match own message "payload" with VUndefined => None | v => Some (payload_of v) end in
      Done (Some (p.1, plainTextOfPayload utf8_of body (text_in message "snippet")), Some p.2)
  end.
Definition nonempty (s : string) : option string := if String.eqb s "" then None else Some s.
Definition sendMail (to : list string) (cc : option (list string)) (subject text : string) (replyTo : option string) : Prog value :=
  let* original := match replyTo with
                   | None => Done None
                   | Some id => let* m := google_read (getting (GMAIL +:+ "/messages/" +:+ id +:+ "?format=metadata&metadataHeaders=Message-ID&metadataHeaders=References")) in Done (Some m)
                   end in
  let inReplyTo := m ← original; nonempty (field m "Message-ID") in
  let references := m ← original; nonempty (join " " (omap id [nonempty (field m "References"); inReplyTo])) in
  let raw := rawMessage {| ml_from := None; ml_to := to; ml_cc := cc; ml_subject := subject; ml_text := text; ml_inReplyTo := inReplyTo; ml_references := references |} in
  google_read (posting (GMAIL +:+ "/messages/send") (VObject ([("raw", VString raw)] ++ optional "threadId" (m ← original; VString <$> str_of m "threadId")))).
Definition createLabel (names : Names) (name : string) : Prog (MailLabel * Names) :=
  let* created := google_read (posting (GMAIL +:+ "/labels") (VObject [("name", VString name); ("labelListVisibility", VString "labelShow"); ("messageListVisibility", VString "show")])) in
  let l := {| mb_id := text_in created "id"; mb_name := text_in created "name"; mb_system := false |} in
  Done (l, jm_set (mb_id l) (mb_name l) <$> names).
Definition batch_modify (ids add remove : list string) : Prog Z :=
  google (posting (GMAIL +:+ "/messages/batchModify") (VObject [("ids", texts ids); ("addLabelIds", texts add); ("removeLabelIds", texts remove)])) ;; Done (Z.of_nat (length ids)).
Definition modifyLabels := batch_modify.
Definition trashMail (ids : list string) : Prog Z := batch_modify ids ["TRASH"] ["INBOX"].
Definition listEvents (from to : string) (limit : Z) (query : option string) : Prog (list CalendarEvent) :=
  let* result := google_read (getting (CALENDAR +:+ "/calendars/primary/events?" +:+ search
    ([("timeMin", from); ("timeMax", to); ("maxResults", js_show limit); ("singleEvents", "true"); ("orderBy", "startTime")] ++ match query with Some q => [("q", q)] | None => [] end))) in
  Done (map toEvent (items (own result "items"))).
Definition createEvent (summary start finish : string) (description location : option string) (attendees : option (list string)) : Prog CalendarEvent :=
  let* created := google_read (posting (CALENDAR +:+ "/calendars/primary/events?sendUpdates=all") (VObject (
    [("summary", VString summary); ("start", VObject [("dateTime", VString start)]); ("end", VObject [("dateTime", VString finish)])]
    ++ optional "description" (VString <$> description) ++ optional "location" (VString <$> location)
    ++ optional "attendees" ((λ l, VArray (map (λ e, VObject [("email", VString e)]) l)) <$> attendees)))) in
  Done (toEvent created).
Definition searchFiles (query : string) (limit : Z) : Prog (list DriveFile) :=
  let* result := google_read (getting (DRIVE +:+ "/files?" +:+ search
    [("q", file_query query); ("pageSize", js_show limit); ("fields", "files(id,name,mimeType,modifiedTime,webViewLink)"); ("orderBy", "modifiedTime desc")])) in
  Done (map toFile (items (own result "files"))).
Definition readFile (id : string) : Prog (option (DriveFile * string)) :=
  let* found := attempt (google (getting (DRIVE +:+ "/files/" +:+ id +:+ "?fields=id,name,mimeType,modifiedTime,webViewLink"))) in
  match found with
  | Throw _ => Done None
  | Ret VUndefined | Ret VNull => fails "Cannot read properties of undefined"
  | Ret meta =>
      let file := toFile meta in
      let exportAs := jm_get (df_mimeType file) EXPORTS in
      let* t := token in
      let url := match exportAs with Some m => DRIVE +:+ "/files/" +:+ id +:+ "/export?mimeType=" +:+ encode m | None => DRIVE +:+ "/files/" +:+ id +:+ "?alt=media" end in
      if bool_decide (exportAs = None) && negb (textual (df_mimeType file)) then Done None
      else ask (get_url url (Some ("Bearer " +:+ t)))
             (λ reply, match reply with Throw e => Throw (pe_other e) | Ret r => if is_ok r then Ret (Some (file, rs_text r)) else Ret None end)
  end.

(** *** The tools *)

Definition MAX_BODY : nat := Z.to_nat 40000.
Definition TRUNCATED : string := newline_ +:+ "…[truncated]".
Definition clip (value : string) (max : nat) : string := if (max <? String.length value)%nat then str_take max value +:+ TRUNCATED else value.
Definition mailLine (m : MailSummary) : string :=
  (if ms_unread m then "•" else " ") +:+ " [" +:+ ms_id m +:+ "] " +:+ ms_date m +:+ " — " +:+ ms_from m +:+ newline_ +:+ "   " +:+ ms_subject m
  +:+ match ms_labels m with [] => "" | l => "  (" +:+ join ", " l +:+ ")" end +:+ newline_ +:+ "   " +:+ ms_snippet m.
Inductive WorkspaceTool :=
| search_mail (query : string) (limit : Z)
| read_mail (id : string)
| send_mail (to : list string) (cc : option (list string)) (subject text : string) (replyToMessageId : option string)
| list_labels
| label_mail (messageIds add remove : list string)
| trash_mail (messageIds : list string)
| list_events (from to : option string) (query : option string) (limit : Z)
| create_event (summary start finish : string) (description location : option string) (attendees : option (list string))
| search_files (query : string) (limit : Z)
| read_file (id : string).
Definition find_label (existing : list MailLabel) (name : string) : option MailLabel :=
  List.find (λ l, String.eqb (toLowerCase (mb_name l)) (toLowerCase name) || String.eqb (mb_id l) name) existing.
Fixpoint create_missing (existing : list MailLabel) (names : Names) (add : list string) : Prog (list (outcome PlatformError string) * Names) :=
  match add with
  | [] => Done ([], names)
  | n :: r =>
      match find_label existing n with
      | Some l => let* p := create_missing existing names r in Done (Ret (mb_id l) :: p.1, p.2)
      | None => let* made := attempt (createLabel names n) in
                let names' := match made with Ret m => m.2 | Throw _ => names end in
                let* p := create_missing existing names' r in
                Done (match made with Ret m => Ret (mb_id m.1) | Throw e => Throw e end :: p.1, p.2)
      end
  end.
Definition plural (n : Z) : string := if n =? 1 then "" else "s".
Definition eventLine (e : CalendarEvent) : string :=
  "[" +:+ ce_id e +:+ "] " +:+ ce_start e +:+ " → " +:+ ce_end e +:+ "  " +:+ ce_summary e +:+ match ce_location e with Some l => " @ " +:+ l | None => "" end
  +:+ match ce_attendees e with [] => "" | l => newline_ +:+ "   with " +:+ join ", " l end.
(** [now] and [a_week_after] are the texts of the clock, and of seven days past a text. *)
Definition workspace_tool (now : string) (a_week_after : string → string) (names : Names) (t : WorkspaceTool) : Prog (string * Names) :=
  match t with
  | search_mail query limit =>
      let* p := searchMail names query limit in
      Done (match p.1 with [] => "No messages match." | l => join newline_ (map mailLine l) end, p.2)
  | read_mail id =>
      let* p := readMail names id in
      Done (match p.1 with
            | None => "No such message."
            | Some (m, text) =>
                "From: " +:+ ms_from m +:+ newline_ +:+ "To: " +:+ ms_to m +:+ newline_ +:+ "Date: " +:+ ms_date m +:+ newline_ +:+ "Subject: " +:+ ms_subject m +:+ newline_
                +:+ "Labels: " +:+ default "(none)" (nonempty (join ", " (ms_labels m))) +:+ newline_ +:+ newline_ +:+ clip text MAX_BODY
            end, p.2)
  | send_mail to cc subject text replyTo =>
      let* sent := sendMail to cc subject text replyTo in Done ("Sent. Message " +:+ text_in sent "id" +:+ " in thread " +:+ text_in sent "threadId" +:+ ".", names)
  | list_labels =>
      let* labels := listLabels in
      Done (default "No labels." (nonempty (join newline_ (map (λ l, "[" +:+ mb_id l +:+ "] " +:+ mb_name l +:+ if mb_system l then " (system)" else "") labels))), names)
  | label_mail ids add remove =>
      if bool_decide (add = [] ∧ remove = []) then Done ("Nothing to change: give labels to add or remove.", names)
      else
        let* existing := listLabels in
        let* p := create_missing existing names add in
        match first_refusal p.1 with
        | Throw e => Fail e
        | Ret addIds =>
            let* n := modifyLabels ids addIds (omap (λ r, mb_id <$> find_label existing r) remove) in
            Done ("Updated " +:+ js_show n +:+ " message" +:+ plural n +:+ ".", p.2)
        end
  | trash_mail ids => let* n := trashMail ids in Done ("Moved " +:+ js_show n +:+ " message" +:+ plural n +:+ " to the bin.", names)
  | list_events from to query limit =>
      let from := default now from in
      let* l := listEvents from (default (a_week_after from) to) limit query in
      Done (match l with [] => "No events in that window." | _ => join newline_ (map eventLine l) end, names)
  | create_event summary start finish description location attendees =>
      let* e := createEvent summary start finish description location attendees in
      Done ("Created [" +:+ ce_id e +:+ "] " +:+ ce_summary e +:+ " " +:+ ce_start e +:+ " → " +:+ ce_end e +:+ match ce_link e with Some l => newline_ +:+ l | None => "" end, names)
  | search_files query limit =>
      let* l := searchFiles query limit in
      Done (match l with [] => "No files match." | _ => join newline_ (map (λ f, "[" +:+ df_id f +:+ "] " +:+ df_name f +:+ "  (" +:+ df_mimeType f +:+ ", " +:+ df_modified f +:+ ")") l) end, names)
  | read_file id =>
      let* f := readFile id in
      Done (match f with None => "No such file, or it has no readable text." | Some (file, text) => df_name file +:+ newline_ +:+ newline_ +:+ clip text MAX_BODY end, names)
  end.
End Source.

(** ** Base64 is read back *)

Lemma code_range c : 0 <= code_of c < 256.
Proof. unfold code_of. pose proof (Ascii.N_ascii_bounded c). lia. Qed.
Lemma char_code c : Ascii.ascii_of_N (Z.to_N (code_of c)) = c.
Proof. unfold code_of. rewrite N2Z.id. apply Ascii.ascii_N_embedding. Qed.
Lemma unit_char n : 0 <= n < 256 → code_of (Ascii.ascii_of_N (Z.to_N n)) = n.
Proof. intros H. unfold code_of. rewrite Ascii.N_ascii_embedding by lia. lia. Qed.
Lemma unlit_lit s : unlit (lit s) = s.
Proof. induction s as [|c s IH]; [done|]. change (unlit (lit (String c s))) with (String (Ascii.ascii_of_N (Z.to_N (code_of c))) (unlit (lit s))). by rewrite char_code, IH. Qed.
Lemma lit_app a b : lit (a +:+ b) = lit a ++ lit b.
Proof. induction a as [|c a IH]; cbn; [done|]. by rewrite IH. Qed.

Lemma sextet_read url n : 0 <= n < 64 → sextet_of (sextet_char url n) = Some n.
Proof.
  intros H. assert (∀ k, (k < 64)%nat → sextet_of (sextet_char url (Z.of_nat k)) = Some (Z.of_nat k)) as Hk.
  { intros k Hlt. do 64 (destruct k as [|k]; [by destruct url|]). lia. }
  rewrite <-(Z2Nat.id n) by lia. apply Hk. lia.
Qed.
(** Texts are taken three units at a time. *)
Lemma by_threes (P : string → Prop) : P "" → (∀ x, P (String x "")) → (∀ x y, P (String x (String y ""))) →
  (∀ x y z r, P r → P (String x (String y (String z r)))) → ∀ s, P s.
Proof.
  intros H0 H1 H2 H3. fix IH 1. intros [|x [|y [|z r]]]; [done|apply H1|apply H2|]. apply H3, IH.
Qed.
Ltac codes := repeat match goal with c : Ascii.ascii |- _ => lazymatch goal with H : 0 <= code_of c < 256 |- _ => fail | _ => pose proof (code_range c) end end.
Lemma sextets_range s : Forall (λ n, 0 <= n < 64) (sextets s).
Proof.
  induction s as [|x|x y|x y z r IH] using by_threes; cbn [sextets]; codes; repeat apply List.Forall_cons; try done; Z.to_euclidean_division_equations; lia.
Qed.
Lemma octets_sextets s : octets (sextets s) = lit s.
Proof.
  induction s as [|x|x y|x y z r IH] using by_threes; cbn [sextets octets lit]; codes; try rewrite IH; repeat f_equal; Z.to_euclidean_division_equations; lia.
Qed.
Lemma sextets_of_app a b : sextets_of (a +:+ b) = sextets_of a ++ sextets_of b.
Proof. induction a as [|c a IH]; cbn; [done|]. destruct (sextet_of c); cbn; by rewrite IH. Qed.
Lemma sextets_of_chars url l : Forall (λ n, 0 <= n < 64) l → sextets_of (char_text (map (sextet_char url) l)) = l.
Proof. induction 1 as [|n l Hn _ IH]; [done|]. change (char_text _) with (String (sextet_char url n) (char_text (map (sextet_char url) l))). cbn [sextets_of]. rewrite sextet_read by done. by rewrite IH. Qed.
Lemma padding_silent s : sextets_of (padding s) = [].
Proof. unfold padding. by destruct (_ mod 3)%nat as [|[|[|]]]. Qed.
Lemma base64_sextets s : sextets_of (base64 s) = sextets s.
Proof. unfold base64. rewrite sextets_of_app, padding_silent, app_nil_r. apply sextets_of_chars, sextets_range. Qed.
Lemma unbase64_url s : unbase64 (base64url s) = s.
Proof. unfold unbase64, base64url. rewrite sextets_of_chars by apply sextets_range. by rewrite octets_sextets, unlit_lit. Qed.
Lemma wrap_sextets n s : sextets_of (wrap n s) = sextets_of s.
Proof.
  revert n. induction s as [|c s IH]; intros n; [done|]. cbn [wrap]. destruct n as [|[|n]]; cbn [sextets_of]; rewrite ?sextets_of_app, IH; by destruct (sextet_of c).
Qed.
Lemma unbase64_wrap n s : unbase64 (wrap n (base64 s)) = s.
Proof. unfold unbase64. rewrite wrap_sextets, base64_sextets. by rewrite octets_sextets, unlit_lit. Qed.

(** ** A message arrives as it was written *)

Definition not_break (c : Ascii.ascii) : bool := negb (code_of c =? 10) && negb (code_of c =? 13).
Definition ascii_unit (c : Ascii.ascii) : bool := code_of c <? 128.
Definition one_line (s : string) : bool := str_all not_break s.

(** What the other end reads: a line, the lines before the empty one and what follows it. *)
Fixpoint cut_line (s : string) : option (string * string) :=
  match s with
  | EmptyString => None
  | String c r =>
      if String.prefix CRLF s then Some ("", str_drop 2 s)
      else match cut_line r with Some (line, rest) => Some (String c line, rest) | None => None end
  end.
Fixpoint receive (fuel : nat) (s : string) : option (list string * string) :=
  match fuel with
  | O => None
  | S f => match cut_line s with
           | None => None
           | Some (EmptyString, body) => Some ([], body)
           | Some (line, rest) => match receive f rest with Some (lines, body) => Some (line :: lines, body) | None => None end
           end
  end.
Definition received (raw : string) : option (list string * string) := let s := unbase64 raw in receive (String.length s) s.

Lemma utf8_app a b : utf8 (a +:+ b) = utf8 a +:+ utf8 b.
Proof. induction a as [|c a IH]; cbn [utf8 String.append]; [done|]. destruct (_ <? _); cbn; by rewrite IH. Qed.
Lemma utf8_ascii s : str_all ascii_unit s = true → utf8 s = s.
Proof. induction s as [|c s IH]; cbn; [done|]. unfold ascii_unit at 1. intros [-> H]%andb_true_iff. by rewrite IH. Qed.
Lemma utf8_one_line s : one_line s = true → one_line (utf8 s) = true.
Proof.
  induction s as [|c s IH]; cbn [utf8]; [done|]. unfold one_line in *. cbn [str_all]. intros [Hc Hs]%andb_true_iff. specialize (IH Hs). pose proof (code_range c) as Hr.
  destruct (Z.ltb_spec (code_of c) 128) as [Hlt|Hge]; cbn [str_all]; [by rewrite Hc, IH|]. rewrite IH. unfold not_break.
  assert (0 <= code_of c / 64 < 4) as Hq by (Z.to_euclidean_division_equations; lia). assert (0 <= code_of c mod 64 < 64) as Hm by (Z.to_euclidean_division_equations; lia).
  rewrite !unit_char by lia. rewrite !andb_true_r, !andb_true_iff, !negb_true_iff, !Z.eqb_neq. lia.
Qed.
Lemma utf8_nonempty s : s ≠ "" → utf8 s ≠ "".
Proof. destruct s; cbn; [done|]. by destruct (_ <? _). Qed.
Lemma cut_one_line line rest : one_line line = true → cut_line (line +:+ CRLF +:+ rest) = Some (line, rest).
Proof.
  unfold one_line. induction line as [|c line IH]; intros H.
  { assert (cut_line (CRLF +:+ rest) = if String.prefix CRLF (CRLF +:+ rest) then Some ("", str_drop (String.length CRLF) (CRLF +:+ rest)) else
      match cut_line (str_drop 1 (CRLF +:+ rest)) with Some (line, rest) => Some (String (Ascii.ascii_of_nat 13) line, rest) | None => None end) as Hcut by reflexivity.
    change ("" +:+ CRLF +:+ rest) with (CRLF +:+ rest). by rewrite Hcut, prefix_self_app, str_drop_app_length. }
  cbn [str_all] in H. apply andb_true_iff in H as [Hc Hl].
  cbn [String.append cut_line]. assert (String.prefix CRLF (String c (line +:+ CRLF +:+ rest)) = false) as ->; [|by rewrite IH].
  unfold CRLF at 1. cbn [String.prefix]. destruct (Ascii.ascii_dec _ c) as [<-|]; [by vm_compute in Hc|done].
Qed.
Lemma receive_lines lines body fuel : Forall (λ l, one_line l = true ∧ l ≠ "") lines → lines ≠ [] → (length lines < fuel)%nat →
  receive fuel (join CRLF lines +:+ CRLF +:+ CRLF +:+ body) = Some (lines, body).
Proof.
  intros H. revert fuel. induction H as [|line lines [Hl Hne] Hls IH]; [done|]. intros [|fuel] _ Hf; cbn [length] in Hf; [lia|].
  assert (∀ rest, cut_line (line +:+ CRLF +:+ rest) = Some (line, rest)) as Hcut by (intros; by apply cut_one_line).
  destruct lines as [|l2 lines].
  - cbn [join String.concat receive]. rewrite Hcut. destruct line; [done|]. destruct fuel; [lia|]. cbn [receive]. change (CRLF +:+ body) with ("" +:+ CRLF +:+ body). by rewrite cut_one_line.
  - change (join CRLF (line :: l2 :: lines)) with (line +:+ CRLF +:+ join CRLF (l2 :: lines)). rewrite !str_app_assoc. cbn [receive]. rewrite Hcut, IH by (done || lia). by destruct line.
Qed.
Lemma utf8_join sep l : utf8 (join sep l) = join (utf8 sep) (map utf8 l).
Proof.
  induction l as [|a [|b l] IH]; [done|done|]. change (join sep (a :: b :: l)) with (a +:+ sep +:+ join sep (b :: l)). rewrite !utf8_app, IH. done.
Qed.

(** What is put into a header has no line end, a subject and a text may have any. *)
Definition single_lines (m : Mail) : bool :=
  forallb one_line (omap id [ml_from m; ml_inReplyTo m; ml_references m] ++ ml_to m ++ default [] (ml_cc m)).
Lemma one_line_app a b : one_line (a +:+ b) = one_line a && one_line b.
Proof. apply str_all_app. Qed.
Lemma one_line_join l : Forall (λ s, one_line s = true) l → one_line (join ", " l) = true.
Proof.
  induction 1 as [|a l Ha Hl IH]; [done|]. destruct l as [|b l]; [done|]. change (join ", " (a :: b :: l)) with (a +:+ ", " +:+ join ", " (b :: l)). by rewrite !one_line_app, Ha, IH.
Qed.
Lemma str_all_impl p q s : (∀ c, p c = true → q c = true) → str_all p s = true → str_all q s = true.
Proof. intros Hpq. induction s as [|c s IH]; cbn; [done|]. intros [Hc Hs]%andb_true_iff. by rewrite Hpq, IH. Qed.
Lemma sextet_printable url n : printable (sextet_char url n) = true.
Proof.
  unfold sextet_char. assert (∀ s, str_all printable s = true → ∀ k, match String.get k s with Some c => printable c | None => true end = true) as Hget.
  { induction s as [|c s IH]; [done|]. cbn [str_all]. intros [Hc Hs]%andb_true_iff [|k]; [done|]. by apply IH. }
  specialize (Hget (ALPHABET +:+ if url then "-_" else "+/") (ltac:(by destruct url)) (Z.to_nat n)). by destruct (String.get _ _).
Qed.
Lemma base64_printable s : str_all printable (base64 s) = true.
Proof.
  unfold base64. rewrite str_all_app. apply andb_true_iff. split; [|unfold padding; by destruct (_ mod 3)%nat as [|[|[|]]]].
  induction (sextets s) as [|n l IH]; cbn; [done|]. by rewrite sextet_printable.
Qed.
Lemma printable_not_break c : printable c = true → not_break c = true.
Proof. unfold printable, not_break, in_range. intros [?%Z.leb_le ?%Z.leb_le]%andb_true_iff. rewrite andb_true_iff, !negb_true_iff, !Z.eqb_neq. lia. Qed.
Lemma printable_ascii c : printable c = true → ascii_unit c = true.
Proof. unfold printable, ascii_unit, in_range. intros [?%Z.leb_le ?%Z.leb_le]%andb_true_iff. apply Z.ltb_lt. lia. Qed.
Lemma subject_one_line s : one_line (encodeHeader s) = true.
Proof.
  unfold encodeHeader. destruct (str_all printable s) eqn:Hp; [by apply (str_all_impl printable not_break _ printable_not_break)|].
  rewrite !one_line_app. unfold one_line at 2. by rewrite (str_all_impl printable not_break _ printable_not_break (base64_printable _)).
Qed.
Lemma header_lines_ok m : single_lines m = true → Forall (λ l, one_line l = true ∧ l ≠ "") (header_lines m).
Proof.
  unfold single_lines. rewrite forallb_forall. setoid_rewrite <-list_elem_of_In. intros H.
  assert (∀ (l : string) p, one_line p = true → p ≠ "" → one_line l = true → one_line (p +:+ l) = true ∧ p +:+ l ≠ "") as Hline.
  { intros l p Hp Hne Hl. split; [by rewrite one_line_app, Hp, Hl|]. by destruct p. }
  assert (Forall (λ s, one_line s = true) (ml_to m)) as Hto by (apply Forall_forall; intros s Hs; apply H; set_solver).
  unfold header_lines. repeat apply Forall_app_2.
  - destruct (ml_from m) as [f|] eqn:Hf; [|done]. constructor; [|done]. apply Hline; [done..|]. apply H. cbn. set_solver.
  - constructor; [|done]. apply Hline; [done..|]. by apply one_line_join.
  - destruct (ml_cc m) as [[|c cs]|] eqn:Hc; [done| |done]. constructor; [|done]. apply Hline; [done..|]. apply one_line_join, Forall_forall. intros s Hs. apply H. cbn. set_solver.
  - constructor; [|done]. apply Hline; [done..|]. apply subject_one_line.
  - destruct (ml_inReplyTo m) as [f|] eqn:Hf; [|done]. constructor; [|done]. apply Hline; [done..|]. apply H. cbn. destruct (ml_from m); set_solver.
  - destruct (ml_references m) as [f|] eqn:Hf; [|done]. constructor; [|done]. apply Hline; [done..|]. apply H. cbn. destruct (ml_from m), (ml_inReplyTo m); set_solver.
  - repeat constructor; done.
Qed.
Lemma wrap_ascii n s : str_all ascii_unit s = true → str_all ascii_unit (wrap n s) = true.
Proof. revert n. induction s as [|c s IH]; intros n; cbn [str_all wrap]; [done|]. intros [Hc Hs]%andb_true_iff. destruct n as [|[|n]]; cbn [str_all String.append CRLF]; rewrite Hc, IH; done. Qed.
Lemma lines_length l : Forall (λ s, s ≠ "") l → (length l <= String.length (join CRLF l))%nat.
Proof.
  induction 1 as [|a l Ha Hl IH]; [done|]. assert (1 <= String.length a)%nat by (destruct a; [done|cbn; lia]).
  destruct l as [|b l]; [cbn; lia|]. change (join CRLF (a :: b :: l)) with (a +:+ CRLF +:+ join CRLF (b :: l)). rewrite !str_length_app. cbn [length] in *. lia.
Qed.

(** C19.  What Gmail is given for a message is read at the other end as the header lines that were
    meant and the text that was written: whatever the subject and the text hold, they
    start no line of their own. *)
Theorem mail_arrives_as_written m : single_lines m = true →
  ∃ body, received (rawMessage m) = Some (map utf8 (header_lines m), body) ∧ unbase64 body = utf8 (ml_text m).
Proof.
  intros Hm. exists (wrap 76 (base64 (utf8 (ml_text m)))). split; [|apply unbase64_wrap]. unfold received, rawMessage. rewrite unbase64_url. cbv zeta.
  rewrite !utf8_app, utf8_join. change (utf8 CRLF) with CRLF.
  rewrite (utf8_ascii (wrap _ _)) by (apply wrap_ascii, (str_all_impl printable ascii_unit _ printable_ascii), base64_printable).
  pose proof (header_lines_ok m Hm) as Hh. assert (Forall (λ l, one_line l = true ∧ l ≠ "") (map utf8 (header_lines m))) as Hu.
  { apply Forall_map. eapply Forall_impl; [done|]. intros l [? ?]. split; [by apply utf8_one_line|by apply utf8_nonempty]. }
  apply receive_lines; [done| |].
  - unfold header_lines. destruct (ml_from m); cbn; done.
  - rewrite !str_length_app. pose proof (lines_length (map utf8 (header_lines m)) (ltac:(eapply Forall_impl; [exact Hu|by intros ? [? ?]]))). cbn. lia.
Qed.

(** ** The part that is read *)

(** The parts of a payload, each before those inside it. *)
Fixpoint parts_in_order (p : GmailPayload) : list (option string * option string) :=
  match p with payload m d parts => (m, d) :: concat (map parts_in_order parts) end.
Definition body_under (mime : string) (p : option string * option string) : option string := if bool_decide (p.1 = Some mime) then p.2 else None.
Section Payloads.
Context (P : GmailPayload → Prop) (step : ∀ m d parts, Forall P parts → P (payload m d parts)).
Fixpoint payload_induction (p : GmailPayload) : P p :=
  match p with payload m d parts => step m d parts ((fix go l : Forall P l := match l with [] => List.Forall_nil P | x :: r => List.Forall_cons P x r (payload_induction x) (go r) end) parts) end.
End Payloads.
(** [findPart] finds the first body of the type, in the order the parts are written. *)
Theorem the_first_part_is_found mime p : findPart mime p = head (omap (body_under mime) (parts_in_order p)).
Proof.
  induction p as [m d parts IH] using payload_induction. cbn [findPart parts_in_order].
  assert ((fix go l := match l with [] => None | c :: r => match findPart mime c with Some f => Some f | None => go r end end) parts =
          head (omap (body_under mime) (concat (map parts_in_order parts)))) as ->.
  { induction IH as [|c r Hc _ IHr]; [done|]. cbn [map concat]. rewrite omap_app, Hc. by destruct (omap _ (parts_in_order c)). }
  change (omap (body_under mime) ((m, d) :: concat (map parts_in_order parts)))
    with (match body_under mime (m, d) with Some y => y :: omap (body_under mime) (concat (map parts_in_order parts)) | None => omap (body_under mime) (concat (map parts_in_order parts)) end).
  generalize (omap (body_under mime) (concat (map parts_in_order parts))). intros tail. unfold body_under. cbn [fst snd]. destruct d as [d|]; by destruct (bool_decide _).
Qed.

(** ** A query stays between its quotes *)

(** How a text in quotes is read: what it says, and what follows the closing quote. *)
Fixpoint unquoted (s : string) : option (string * string) :=
  match s with
  | EmptyString => None
  | String c r =>
      if Ascii.eqb c "'" then Some ("", r)
      else if Ascii.eqb c BACKSLASH then
        match r with EmptyString => None | String d r' => match unquoted r' with Some (t, rest) => Some (String d t, rest) | None => None end end
      else match unquoted r with Some (t, rest) => Some (String c t, rest) | None => None end
  end.
Lemma escaped_cons c r : escaped (String c r) = (if Ascii.eqb c BACKSLASH || Ascii.eqb c "'" then String BACKSLASH (String c "") else String c "") +:+ escaped r.
Proof.
  unfold escaped. cbn [doubled]. destruct (Ascii.eqb_spec c BACKSLASH) as [->|Hb]; [done|]. cbn [doubled]. by destruct (Ascii.eqb_spec c "'") as [->|Hq].
Qed.
Lemma unquoted_escape c s : unquoted (String BACKSLASH (String c s)) = match unquoted s with Some (t, rest) => Some (String c t, rest) | None => None end.
Proof. reflexivity. Qed.
(** Whatever is searched for is read back as it was given: no query ends its quotes early. *)
Theorem queries_stay_quoted query rest : unquoted (escaped query +:+ "'" +:+ rest) = Some (query, rest).
Proof.
  induction query as [|c q IH]; [done|]. rewrite escaped_cons, str_app_assoc. destruct (Ascii.eqb c BACKSLASH || Ascii.eqb c "'") eqn:Hc; cbn [String.append] in *.
  - rewrite unquoted_escape. by rewrite IH.
  - apply orb_false_iff in Hc as [Hb Hq]. cbn [unquoted]. by rewrite Hq, Hb, IH.
Qed.

(** ** What is sent, and where *)

Section Sent.
Context (P : Request → Prop) (token : Prog string) (search : list (string * string) → string) (encode utf8_of : string → string).
Hypothesis token_sends : sends_only P token.

Lemma google_sends request : (∀ auth, P (request auth)) → sends_only P (google token request).
Proof. intros Hr. unfold google. apply sends_only_bind; [done|]. intros t. by apply sends_only_ask. Qed.
Lemma google_read_sends request : (∀ auth, P (request auth)) → sends_only P (google_read token request).
Proof. intros Hr. unfold google_read. apply sends_only_bind; [by apply google_sends|]. intros []; done. Qed.
Lemma attempt_sends {A} (m : Prog A) : sends_only P m → sends_only P (attempt m).
Proof. intros Hm. unfold attempt. apply sends_only_catch; [|done]. by apply sends_only_bind. Qed.
Lemma promise_all_sends {A} (l : list (Prog A)) : Forall (sends_only P) l → sends_only P (promise_all l).
Proof.
  intros Hl. unfold promise_all. apply sends_only_bind; [|intros os; by destruct (first_refusal os)].
  induction Hl as [|m l Hm _ IH]; cbn [all_begun]; [done|]. apply sends_only_bind; [by apply attempt_sends|]. intros o. by apply sends_only_bind.
Qed.

Definition gets (base : string) : Prop := ∀ path auth, P (getting (base +:+ path) auth).
Definition posts (base : string) : Prop := ∀ path body auth, P (posting (base +:+ path) body auth).
Lemma labels_send : gets GMAIL → sends_only P (listLabels token).
Proof. intros Hg. unfold listLabels. apply sends_only_bind; [|done]. by apply google_read_sends. Qed.
Lemma summarise_sends names m : gets GMAIL → sends_only P (summarise token names m).
Proof.
  intros Hg. unfold summarise, nameLabels. apply sends_only_bind; [|done]. apply sends_only_bind; [|done]. destruct names; [done|]. apply sends_only_bind; [|done]. by apply labels_send.
Qed.
Lemma search_mail_sends names query limit : gets GMAIL → sends_only P (searchMail token search names query limit).
Proof.
  intros Hg. unfold searchMail. apply sends_only_bind; [apply google_read_sends; intros; apply Hg|]. intros r. apply sends_only_bind.
  - apply promise_all_sends, Forall_map, Forall_true. intros id. apply google_read_sends. intros; apply Hg.
  - intros ms. apply sends_only_bind; [|done]. apply promise_all_sends, Forall_map, Forall_true. intros m. by apply summarise_sends.
Qed.
Lemma read_mail_sends names id : gets GMAIL → sends_only P (readMail token utf8_of names id).
Proof.
  intros Hg. unfold readMail. apply sends_only_bind; [apply attempt_sends, google_sends; intros; apply Hg|].
  intros [v|e]; [|done]. destruct v; first [done | (apply sends_only_bind; [by apply summarise_sends|done])].
Qed.
Lemma read_file_sends id : gets DRIVE → sends_only P (readFile token encode id).
Proof.
  intros Hg. unfold readFile. apply sends_only_bind; [apply attempt_sends, google_sends; intros; apply Hg|].
  intros [v|e]; [|done]. destruct v; try done;
    (apply sends_only_bind; [done|]; intros t; destruct (bool_decide _ && _); [done|]; apply sends_only_ask; destruct (jm_get _ EXPORTS); apply Hg).
Qed.
Lemma missing_sends existing names add : (∀ name auth, name ∈ add → find_label existing name = None → P (posting (GMAIL +:+ "/labels")
      (VObject [("name", VString name); ("labelListVisibility", VString "labelShow"); ("messageListVisibility", VString "show")]) auth)) →
  sends_only P (create_missing token existing names add).
Proof.
  revert names. induction add as [|n r IH]; intros names Hp; cbn [create_missing]; [done|]. assert (∀ names, sends_only P (create_missing token existing names r)) as IH'.
  { intros. apply IH. intros name auth Hn. apply Hp. by apply list_elem_of_further. }
  destruct (find_label existing n) eqn:Hf; [by apply sends_only_bind|]. apply sends_only_bind; [|intros; by apply sends_only_bind].
  apply attempt_sends. unfold createLabel. apply sends_only_bind; [|done]. apply google_read_sends. intros auth. apply Hp; [apply list_elem_of_here|done].
Qed.
Lemma tool_sends now week names t : gets GMAIL → gets CALENDAR → gets DRIVE →
  (match t with send_mail _ _ _ _ _ | label_mail _ _ _ | trash_mail _ => posts GMAIL | create_event _ _ _ _ _ _ => posts CALENDAR | _ => True end) →
  sends_only P (workspace_tool token search encode utf8_of now week names t).
Proof.
  intros Hm Hc Hd Hp. destruct t; cbn [workspace_tool].
  - apply sends_only_bind; [by apply search_mail_sends|done].
  - apply sends_only_bind; [by apply read_mail_sends|done].
  - apply sends_only_bind; [|done]. unfold sendMail. apply sends_only_bind; [|intros; apply google_read_sends; intros; apply Hp].
    destruct replyToMessageId; [|done]. apply sends_only_bind; [|done]. apply google_read_sends. intros; apply Hm.
  - apply sends_only_bind; [by apply labels_send|done].
  - destruct (bool_decide _); [done|]. apply sends_only_bind; [by apply labels_send|]. intros existing. apply sends_only_bind; [apply missing_sends; intros; apply Hp|].
    intros p. destruct (first_refusal p.1); [|done]. apply sends_only_bind; [|done]. apply sends_only_bind; [|done]. apply google_sends. intros; apply Hp.
  - apply sends_only_bind; [|done]. apply sends_only_bind; [|done]. apply google_sends. intros; apply Hp.
  - apply sends_only_bind; [|done]. apply sends_only_bind; [|done]. apply google_read_sends. intros; apply Hc.
  - apply sends_only_bind; [|done]. apply sends_only_bind; [|done]. apply google_read_sends. intros; apply Hp.
  - apply sends_only_bind; [|done]. apply sends_only_bind; [|done]. apply google_read_sends. intros; apply Hd.
  - apply sends_only_bind; [by apply read_file_sends|done].
Qed.
End Sent.

(** The token of a source, alone. *)
Definition google_token (stored : option StoredTokens) (client : option GoogleOAuthClient) (now later : Z) : Prog string :=
  let* p := googleAccessToken stored client now later in Done p.1.
Lemma google_token_sends P stored client now later : (∀ r, rq_auth r = None → rq_url r = GOOGLE_TOKEN_URL → P r) → sends_only P (google_token stored client now later).
Proof.
  intros Hp. unfold google_token. apply sends_only_bind; [|done]. unfold googleAccessToken. destruct stored as [t|]; [|done]. destruct (_ <? _); [done|].
  destruct (tk_refresh t); [|done]. destruct client; [|done]. apply sends_only_bind; [|done]. apply sends_only_ask. by apply Hp.
Qed.

Section Promises.
Context (stored : option StoredTokens) (client : option GoogleOAuthClient) (now later : Z) (search : list (string * string) → string) (encode utf8_of : string → string)
        (clock : string) (week : string → string) (names : Names).
Notation tool_of := (workspace_tool (google_token stored client now later) search encode utf8_of clock week names).

(** A token is shown to Gmail, Calendar and Drive and to nothing else. *)
Definition to_google (r : Request) : Prop :=
  is_Some (rq_auth r) → ∃ base, base ∈ [GMAIL; CALENDAR; DRIVE] ∧ String.prefix base (rq_url r) = true.
Theorem google_tokens_go_to_google t : sends_only to_google (tool_of t).
Proof.
  assert (∀ base, base ∈ [GMAIL; CALENDAR; DRIVE] → gets to_google base) as Hg by (intros base Hb path auth _; exists base; split; [done|apply prefix_self_app]).
  assert (∀ base, base ∈ [GMAIL; CALENDAR; DRIVE] → posts to_google base) as Hp by (intros base Hb path body auth _; exists base; split; [done|apply prefix_self_app]).
  apply tool_sends; [apply google_token_sends; intros r Ha _ Hs; rewrite Ha in Hs; by destruct Hs|apply Hg; set_solver..|]. destruct t; try done; apply Hp; set_solver.
Qed.

(** The tools that are said only to read make no request that could change anything: but
    for the renewal of the token, every request is a GET. *)
Definition reads_only (t : WorkspaceTool) : bool := match t with send_mail _ _ _ _ _ | label_mail _ _ _ | trash_mail _ | create_event _ _ _ _ _ _ => false | _ => true end.
Definition changes_nothing (r : Request) : Prop := rq_method r = "GET" ∨ rq_url r = GOOGLE_TOKEN_URL.
Theorem reading_tools_only_read t : reads_only t = true → sends_only changes_nothing (tool_of t).
Proof.
  intros Ht. apply tool_sends; [apply google_token_sends; by right|by left..|]. by destruct t.
Qed.

(** Labelling makes a label only for a name that no label has, under any spelling of its
    letters, and that is no label's number. *)
Definition makes_label (name : string) (r : Request) : Prop :=
  rq_url r = GMAIL +:+ "/labels" ∧ ∃ v, rq_body r = bd_json v ∧ str_of v "name" = Some name.
Theorem only_missing_labels_are_made existing add :
  sends_only (λ r, ∀ name, makes_label name r → name ∈ add ∧ ∀ l, l ∈ existing → toLowerCase (mb_name l) ≠ toLowerCase name ∧ mb_id l ≠ name)
    (create_missing (google_token stored client now later) existing names add).
Proof.
  apply missing_sends.
  - apply google_token_sends. intros r _ Hu name [Hu' _]. rewrite Hu in Hu'. by vm_compute in Hu'.
  - intros name auth Hn Hf name' [_ (v & Hb & Hv)]. cbn in Hb. injection Hb as <-. cbn in Hv. injection Hv as <-. split; [done|]. intros l Hl%list_elem_of_In.
    pose proof (List.find_none _ _ Hf l Hl) as Hnone. cbn in Hnone. apply orb_false_iff in Hnone as [?%String.eqb_neq ?%String.eqb_neq]. done.
Qed.
End Promises.

(** What is read of a message or a file is bounded. *)
Lemma clip_bounded value max : (String.length (clip value max) <= max + String.length TRUNCATED)%nat.
Proof.
  unfold clip. destruct (Nat.ltb_spec max (String.length value)); [|lia]. rewrite str_length_app. pose proof (str_take_length max value). lia.
Qed.

(** ** Renewing *)

(** A grant's refresh token outlives its renewal, whatever the answer says. *)
Theorem renewals_keep_the_refresh_token net n now client refresh trace fresh :
  run net n (refreshGoogleToken now client refresh) = (trace, Ret fresh) → tk_refresh fresh = Some refresh.
Proof.
  unfold refreshGoogleToken, ask. cbn [run]. set (r := net _ _). intros H.
  destruct (google_token_judge _ now (Some refresh) r) as [t|e] eqn:Hj; cbn in H; [|done]. injection H as _ ->. revert Hj. unfold google_token_judge.
  destruct r as [r|]; [|done]. destruct (rs_json r) as [v|]; [|done]. destruct (str_of v "access_token"); [|done]. destruct (is_ok r); [|done]. by intros [= <-].
Qed.
(** A token that lasts an hour is due as soon as it is had, so that every sweep renews it. *)
Theorem hour_tokens_are_always_due t now : is_Some (tk_refresh t) → tk_expiresAt t <= now + 3600 * 1000 → needsSweep t now SWEEP_MARGIN_MS = true.
Proof. intros [r Hr] He. unfold needsSweep, SWEEP_MARGIN_MS. rewrite Hr. apply Z.leb_le. lia. Qed.

(** ** Instances *)

Definition a_reply : Mail := {| ml_from := None; ml_to := ["ada@example.org"]; ml_cc := Some []; ml_subject := "Lunch" +:+ CRLF +:+ "Bcc: eve@example.org"; ml_text := "Noon?"; ml_inReplyTo := Some "<1@example.org>"; ml_references := None |}.
Example base64_texts : map base64 ["M"; "Ma"; "Man"] = ["TQ=="; "TWE="; "TWFu"] ∧ unbase64 "TWFu
TWE=" = "ManMa".
Proof. split; vm_compute; reflexivity. Qed.
Lemma mail_arrives_as_written_witness : single_lines a_reply = true ∧
  ∃ body, received (rawMessage a_reply) = Some (["To: ada@example.org"; "Subject: =?UTF-8?B?THVuY2gNCkJjYzogZXZlQGV4YW1wbGUub3Jn?="; "In-Reply-To: <1@example.org>"; "MIME-Version: 1.0";
                                                 "Content-Type: text/plain; charset=" +:+ dquote +:+ "UTF-8" +:+ dquote; "Content-Transfer-Encoding: base64"], body) ∧ unbase64 body = "Noon?".
Proof. split; [reflexivity|]. exact (mail_arrives_as_written a_reply eq_refl). Defined.
Definition an_hour : StoredTokens := {| tk_access := "tok"; tk_refresh := Some "ref"; tk_expiresAt := 3600000; tk_scope := None |}.
Definition web_client : GoogleOAuthClient := {| gc_clientId := "app"; gc_clientSecret := "shh" |}.
Lemma reading_tools_only_read_witness :
  sends_only changes_nothing (workspace_tool (google_token (Some an_hour) (Some web_client) 0 0) plain_search id id "" id None (read_mail "m1")).
Proof. apply (reading_tools_only_read (Some an_hour) (Some web_client) 0 0 plain_search id id "" id None (read_mail "m1")). reflexivity. Defined.
Definition one_token (_ : nat) (_ : Request) : Reply := ok_json (VObject [("access_token", VString "new")]).
Lemma renewals_keep_the_refresh_token_witness : ∃ fresh, (run one_token 0 (refreshGoogleToken 7 web_client "ref")).2 = Ret fresh ∧ tk_refresh fresh = Some "ref".
Proof.
  eexists. split; [vm_compute; reflexivity|].
  eapply (renewals_keep_the_refresh_token one_token 0 7 web_client "ref"). vm_compute. reflexivity.
Defined.
Lemma hour_tokens_are_always_due_witness : needsSweep an_hour 0 SWEEP_MARGIN_MS = true.
Proof. apply (hour_tokens_are_always_due an_hour 0); [exists "ref"; reflexivity|vm_compute; discriminate]. Defined.

Definition answered (v : value) : Reply := Ret {| rs_status := 200; rs_json := Some v; rs_text := "{}"; rs_type := None |}.
(** A search of two messages asks for the labels twice: neither summary waits for the other. *)
Definition two_messages (n : nat) (_ : Request) : Reply :=
  match n with
  | 0%nat => answered (VObject [("messages", VArray [VObject [("id", VString "m1")]; VObject [("id", VString "m2")]])])
  | 1%nat | 2%nat => answered (VObject [("id", VString "m"); ("labelIds", VArray [VString "L1"; VString "UNREAD"])])
  | _ => answered (VObject [("labels", VArray [VObject [("id", VString "L1"); ("name", VString "Clients")]])])
  end.
Definition searched := run two_messages 0 (searchMail (Done "tok") plain_search None "is:unread" 20).
Example labels_are_listed_for_every_message :
  map (λ x, str_drop 46 (rq_url x.1)) (drop 3 searched.1) = ["/labels"; "/labels"] ∧
  (match searched.2 with Ret (l, names) => (map ms_labels l, names) | Throw _ => ([], None) end) = ([["Clients"; "UNREAD"]; ["Clients"; "UNREAD"]], Some [("L1", "Clients")]).
Proof. split; vm_compute; reflexivity. Qed.

(** A connection that is gone is told as a message that is not there. *)
Example lost_connections_look_like_lost_messages :
  (run one_token 0 (workspace_tool (google_token None None 0 0) plain_search id id "" id None (read_mail "m1"))).2 = Ret ("No such message.", None).
Proof. vm_compute. reflexivity. Qed.

(** What a message says in escapes of escapes is unescaped twice: a text about a tag becomes
    the tag. *)
Example entities_are_decoded_twice : mail_stripHtml (lit "Use &amp;lt;br&amp;gt; here") = lit "Use <br> here".
Proof. vm_compute. reflexivity. Qed.
Example a_page_of_mail : mail_stripHtml (lit "<STYLE>p{}</style><p>Hi&nbsp;Ada</P><div>2 &lt; 3<br / >x<br />y</div>") = lit "Hi Ada" ++ [NL] ++ lit "2 < 3x" ++ [NL] ++ lit "y".
Proof. vm_compute. reflexivity. Qed.

(** The type of a Word file has the letters of "xml" in it, so that its bytes are handed on
    as text. *)
Example office_files_are_read_as_text :
  textual "application/vnd.openxmlformats-officedocument.wordprocessingml.document" = true ∧ textual "application/pdf" = false.
Proof. split; reflexivity. Qed.

(** An encoded subject is one word however long, where RFC 2047 allows 75 characters. *)
Fixpoint repeated (n : nat) (c : Ascii.ascii) : string := match n with O => "" | S k => String c (repeated k c) end.
Example long_subjects_break_the_limit : String.length (encodeHeader (repeated 60 (Ascii.ascii_of_nat 233))) = 172%nat.
Proof. vm_compute. reflexivity. Qed.

(** Taking away a label that is not there reports the messages as updated; two spellings of a
    new label ask for it twice. *)
Definition no_labels (n : nat) (_ : Request) : Reply := answered (VObject [("id", VString "L9"); ("name", VString "x")]).
Definition labelled (add remove : list string) := run no_labels 0 (workspace_tool (Done "tok") plain_search id id "" id None (label_mail ["m1"; "m2"] add remove)).
Example absent_labels_are_reported_removed :
  (labelled [] ["Nope"]).2 = Ret ("Updated 2 messages.", None) ∧
  map (λ x, rq_body x.1) (labelled [] ["Nope"]).1 = [bd_none; bd_json (VObject [("ids", VArray [VString "m1"; VString "m2"]); ("addLabelIds", VArray []); ("removeLabelIds", VArray [])])].
Proof. split; vm_compute; reflexivity. Qed.
Example spellings_are_created_twice : length (filter (λ x, rq_url x.1 = GMAIL +:+ "/labels" ∧ rq_method x.1 = "POST") (labelled ["Clients"; "clients"] []).1) = 2%nat.
Proof. vm_compute. reflexivity. Qed.

(** A number is put into the address as it is: one with a path in it names another resource
    of the account. *)
Example numbers_may_be_paths :
  map (λ x, rq_url x.1) (run one_token 0 (readMail (Done "tok") id (Some []) "../settings/filters?x=")).1 =
    ["https://gmail.googleapis.com/gmail/v1/users/me/messages/../settings/filters?x=?format=full"].
Proof. vm_compute. reflexivity. Qed.

(** A refusal that says the grant is over marks the binding, another does not. *)
Definition refusing (error : string) (_ : nat) (_ : Request) : Reply := Ret {| rs_status := 400; rs_json := Some (VObject [("error", VString error)]); rs_text := ""; rs_type := None |}.
Example ended_grants_are_marked :
  let go e := sw_lapsed (sweep (google_rule (refusing e) web_client 0 0) {["k" := an_hour]} [{| gr_bindingId := "b"; gr_scopeKey := "k" |}]) in
  go "invalid_grant" = ["b"] ∧ go "temporarily_unavailable" = [].
Proof. split; vm_compute; reflexivity. Qed.
